(* ===== verification/_CoqProject ===== *)
-Q . S2P
Prelude.v
PrioTab.v
Kernel.v
KEvent.v
KInv.v
KStep.v
KEventInv.v
KRun.v
KSpec.v
OsMem.v
Timers.v
SysArch.v
RingBuffer.v
DynMem.v
Aes.v
LwipMem.v
Pbuf.v
PbufRef.v
Chksum.v
IpAddr.v
Dhcp.v
Crc.v
LinkedList.v
CStr.v
Base64.v
Dns.v
SimuUart.v
Param.v
Udp.v
Ip.v
IpInput.v
IpReass.v
Datagram.v
EthArp.v
Ethernet.v
Net.v
Flash.v
Agent.v
LanServer.v
