(* ===== verification/Prelude.v ===== *)
(** * Verification of the NL6621 agent firmware

    The program ([src/NL6621-Dev/Source]) is the firmware of a WiFi module: an application
    (the agent) on uCOS-II and lwIP, with its own DHCP and DNS servers for the time it is an
    access point.  File names below are relative to that directory.

    ** How the parts work together

    After a reset the agent ([App/NuAgent], [Agent]) reads its configuration from the flash
    chip ([Flash]).  If a network is stored it sets the system parameters ([Sys/param.c],
    [Param]) and asks the MAC task to join it; otherwise, or when the join fails, it starts
    an access point.  The MAC task is a binary; it answers with messages to the system task
    ([Sys/sys_mgmt.c], [Net]), which brings the interface up ([LwIP/port/lwIP.c]), starts
    the DHCP and the DNS server ([Dhcp], [Dns]) over UDP control blocks ([Udp]) and packet
    buffers ([Pbuf]), and calls the agent's event callback.  A phone on the access point
    sends the name and key of a network in a datagram; the agent joins, stores them and
    resets the chip.

    A datagram comes and goes through the TCP/IP stack: a frame from the driver enters the
    Ethernet side ([EthArp]), which learns hardware addresses and passes IP packets on;
    [IpInput] checks them, [IpReass] puts fragments together, and the control block that
    [Udp] designates gets the data.  What is sent takes the same way back through [Ip]
    (headers, checksums of [Chksum], routing, fragmentation) and [EthArp].  All of this runs
    in one task, which waits for messages and fires the stack's timers ([Timers]); its mailbox
    and semaphores ([SysArch]) are queues, semaphores and a memory partition ([OsMem]) of the
    kernel, whose tasks, ready list, clock and events are [Kernel] and [KEvent].

    Underneath are the allocator ([DynMem]), the list and string routines ([LinkedList],
    [CStr]), checksums ([Crc]), the cipher and encoder of the cloud protocol ([Aes],
    [Base64]), the byte queue of the serial ports ([RingBuffer]) with the software UART over
    it ([SimuUart]), and the TCP server for local clients ([LanServer]).

    ** Files and sources

    - [Prelude]: machine integers, buffers, byte order, bits, checked copies, shared tactics.

    The kernel ([uCOS-II], [Ports/Cortex-M3/os_cpu_a.asm]):
    - [PrioTab]: the bit tables of priorities in [os_core.c], as sets.
    - [Kernel]: [os_core.c], [os_task.c], [os_time.c].  [KEvent]: [os_sem.c], [os_mbox.c],
      [os_q.c].  [KRun] makes them a step relation of tasks, interrupts and the clock.
    - [KInv]: the invariant; [KStep] and [KEventInv]: every call keeps it; [KSpec]: what
      follows for tasks, events and messages.
    - [OsMem]: [os_mem.c].   [DynMem]: [Ports/Cortex-M3/os_dmem.c], headers in a finite map.

    The stack ([LwIP/src]) and its port ([LwIP/port]):
    - [Timers]: [core/timers.c].   [SysArch]: [port/sys_arch.c], over [Kernel] and [OsMem].
    - [LwipMem]: the heap of [core/mem.c], headers and data in the bytes of one array.
    - [Pbuf]: the contents of packet buffers, [PbufRef]: their allocation, reference counts
      and chains, both [core/pbuf.c].
    - [Chksum]: [core/ipv4/inet_chksum.c]; the class [StdChksum] is what the others rely on.
    - [IpAddr]: [core/ipv4/ip_addr.c].   [Udp]: the control blocks of [core/udp.c] and their
      pool in [memp.c].
    - [Ip]: output of [core/ipv4/ip.c], [ip_frag.c] and [udp.c].   [IpInput]: input of [ip.c],
      [icmp.c], [raw.c] and [udp.c].   [IpReass]: reassembly in [ip_frag.c].
    - [EthArp]: [netif/etharp.c].
    - [Datagram] and [Ethernet] join these: datagrams of many fragments, and datagrams over
      Ethernet, from socket to socket.

    The system and the agent:
    - [Net]: [LwIP/port/lwIP.c], [Sys/sys_mgmt.c], the setters of [LwIP/src/core/netif.c].
    - [Param]: [Sys/param.c], [Include/param.h], the message identifiers of [global.h].
    - [Dhcp]: [App/DhcpServer/dhcp_server.c].    - [Dns]: [App/DnsServer/dns_server.c].
    - [RingBuffer]: [App/NuAgent/Lib/ring_buffer.c].  The class [ByteFifo] is what the serial
      drivers assume of it.   [SimuUart]: [Device/simu_uart.c] and [System/nuagent_uart.c].
    - [Aes]: [App/NuAgent/Lib/AES.c], and the padding of [Sample/aesdemo.c].
      [Base64]: [App/NuAgent/Lib/base64.c].
    - [Crc]: the checksums, [CStr]: the string, number and memory routines of [Sys/util.c],
      [Include/util.h] and [App/NuAgent/Lib/str_lib.c].  [LinkedList]: the lists of [util.h].
    - [Flash]: the QSPI flash driver of [BSP/BspDemo.c] and the store of
      [App/NuAgent/System/nuagent_drv.c]; the chip is the class [FlashChip], its data sheet
      the class [FlashChipOk], and [sim] an instance.
    - [Agent]: [App/NuAgent/Wifi/wifi_conn.c], [User/lan.c], [System/agent_core.c] and the UDP
      loop of [System/network_adapter.c].   - [LanServer]: the TCP part of the latter.

    A definition has the name of the C function or type it translates; the helpers that are
    loops of one function say so.  C integers are [Z] with their width written out where it
    matters, a buffer is a list of bytes, and [None] (or [Fault] in [Agent]) is an access
    outside an object, so a result [Some] includes memory safety.

    ** What is shown

    - The kernel: no run of tasks, interrupts and clock ticks that keeps the rules of the
      calls ([enabled] in [KRun]) ever follows a bad pointer, and under the same rules the
      running task is the most urgent ready one; a post
      readies the most urgent waiter with the message; a pend takes what is there or waits,
      nobody waits for what is there, and a delay ends after its ticks.  Its priority tables
      are sets, its partitions hand no block out twice.
    - The port and the timers: mailboxes are first-in first-out queues, waiting times become
      ticks as stated, the list of timeouts is a map of deadlines, and the cyclic timers stay
      armed.
    - Packets: reference counts are the numbers of references in every run of the buffer
      calls; an IP packet that comes in is freed or handed over exactly once; the Ethernet side
      never faults and accounts for every buffer.
    - Delivery: what one socket sends another receives, for datagrams of one frame, of many
      fragments, and over Ethernet with unknown hardware addresses; fragments are what they
      are cut from, reassembly is insertion into ordered lists but for two cases that are stated,
      incomplete datagrams (while the list is intact) and table entries do not stay; a ping is answered with its data and checksums that verify.
    - Heaps: no call of either allocator faults as long as the client frees what it holds and
      asks for less than the sizes that wrap around (what those do is stated), and each heap is a partition into blocks with no
      two in use overlapping; the stack's is a set of separate buffers that keep their contents,
      and one free block again once all of them are freed.
    - Refinement elsewhere: the ring buffer is a bounded queue, the intrusive list a deque, the
      UDP control blocks a table of sockets, the two ends of the software UART a byte pipe.
    - Invariants: no two DHCP clients hold one address in any reachable state, the client
      table stays well formed, every configuration and control call that sets or posts
      something preserves well-formedness and its message fits, any number of access-point sessions leaves the servers' sockets as they were.
    - Functional behaviour on every branch: the allocator's calls, DHCP and DNS replies, the
      choice of a datagram's receiver, link up, flash writes at any address with the sectors they erase.
    - Round trips and equivalences: AES-CBC, base64, text of numbers and addresses, DHCP
      options; the CRCs against their bit-serial definitions, the three versions of the
      Internet checksum against each other and RFC 1071.
    - Composition: onboarding by datagram, store, reset and start-up end with the parameters
      of the datagram; the reset button and a failed join end in the default access point.
    - Termination: option parsing, the broadcast that answers the phone.
    - Defects, as theorems and examples: where the code does something else than it means to,
      the statement says what it does (a fetch within one tick fires the next timer, long waits
      without a timeout, a missing fragment that goes unnoticed, a list of datagrams lost when
      it overflows, header lengths that overrun, the second link-down, and others).

    ** Bounds and fuel

    Loops over data recurse on the data.  Where a loop's bound is a value, the fuel is
    computed from the arguments and a theorem or lemma shows that it suffices: the
    option parser (the bytes of the message and the 257 that can be read behind it), the
    allocator's search (number of blocks), walks along chains (the number of live control
    blocks, buffers or structures), fragmentation (the bytes to send), number printing (33
    digits), pages and sectors of a flash write (the length), the broadcast (26 sends for each
    of 4 sockets).  The agent's sleeps and socket calls take their effects from lists in its
    state; running out of them is the outcome [Waiting], which theorems exclude or, for a wait
    that never ends, establish for lists of every length.  Tables have the sizes of the
    build: 64 priorities, 20 events and tasks, 8 timeouts, 10 packet buffers of each pool, 5
    datagrams and 10 buffers under reassembly, 10 hardware addresses.

    ** Not modelled

    The binary MAC library and the WiFi driver (their messages, events and answers are
    arguments); the kernel's flags, mutexes and timers, which nothing here calls; TCP, the
    DHCP client, IGMP, the socket and sequential interfaces, SNMP and PPP of the stack (a TCP
    segment leaves the model as an event, the sockets' answers are arguments of the agent);
    the copy of a frame's flags into a packet, which nothing reads; FatFs, cJSON, register
    programming and interrupt set-up, boot and assembly code but for the context switch, log
    output, the wrappers of [task_util.h], the LED thread, the cloud client (which only
    sleeps), the bit-banged IIC and the time client, which is never started, and the phone and
    PC programs of the repository.  TCP is the part a continuation would take up first. *)
From stdpp Require Export base list list_numbers numbers.
From stdpp Require Export tactics gmap.
From Stdlib Require Export ZArith Lia Btauto.

Open Scope Z_scope.

(** ** Machine integers

    A C integer is a [Z]; the width of its type is written out at every
    conversion or arithmetic operation that can leave it. *)

Definition u8 (x : Z) : Z := x mod 2 ^ 8.
Definition u16 (x : Z) : Z := x mod 2 ^ 16.
Definition u32 (x : Z) : Z := x mod 2 ^ 32.
Definition i32 (x : Z) : Z := (x + 2 ^ 31) mod 2 ^ 32 - 2 ^ 31.
Definition i8 (x : Z) : Z := (x + 2 ^ 7) mod 2 ^ 8 - 2 ^ 7.

(** A C condition used as an integer. *)
Definition bz (b : bool) : Z := if b then 1 else 0.

(** A byte held in memory, and a buffer of them. *)
Definition is_byte (b : Z) : Prop := 0 <= b < 256.
Abbreviation bytes_ok := (Forall is_byte).
Definition is_u32 (x : Z) : Prop := 0 <= x < 2 ^ 32.

#[export] Instance is_byte_dec b : Decision (is_byte b).
Proof. unfold is_byte. apply _. Defined.

(** ** Buffers

    A C buffer is a [list Z] of known length.  [slice i n b] is the [n] bytes
    from offset [i]; [store_at i xs b] is what [memcpy(b + i, xs, |xs|)]
    leaves in [b] when the copy is in range; [byte_at b i] reads one byte. *)

Definition slice (i n : nat) (b : list Z) : list Z := take n (drop i b).
Definition store_at (i : nat) (xs b : list Z) : list Z :=
  take i b ++ xs ++ drop (i + length xs) b.
Definition byte_at (b : list Z) (i : Z) : Z := b !!! Z.to_nat i.

(** The same byte [v] written [n] times: [memset]. *)
Definition memset (i : nat) (v : Z) (n : nat) (b : list Z) : list Z :=
  store_at i (replicate n v) b.

(** ** Byte order

    The core is little endian, so [htonl]/[ntohl] and [htons]/[ntohs] swap
    bytes (LwIP compiles them as functions of the value). *)

Definition byte_of (k : Z) (x : Z) : Z := Z.land (Z.shiftr x (8 * k)) 255.
Definition htonl (x : Z) : Z :=
  Z.lor (Z.shiftl (byte_of 0 x) 24)
    (Z.lor (Z.shiftl (byte_of 1 x) 16)
      (Z.lor (Z.shiftl (byte_of 2 x) 8) (byte_of 3 x))).
Definition htons (x : Z) : Z := Z.lor (Z.shiftl (byte_of 0 x) 8) (byte_of 1 x).

(** The bytes an aligned 32-bit (16-bit) value occupies in memory, and back. *)
Definition le32 (x : Z) : list Z := [byte_of 0 x; byte_of 1 x; byte_of 2 x; byte_of 3 x].
Definition le16 (x : Z) : list Z := [byte_of 0 x; byte_of 1 x].
Definition of_le32 (b0 b1 b2 b3 : Z) : Z :=
  Z.lor b0 (Z.lor (Z.shiftl b1 8) (Z.lor (Z.shiftl b2 16) (Z.shiftl b3 24))).
Definition of_le16 (b0 b1 : Z) : Z := Z.lor b0 (Z.shiftl b1 8).

(** ** Checked memory accesses

    [None] is an access outside the buffer: a theorem that a routine returns
    [Some] therefore says that it stays inside its buffers. *)

Definition memcpy_to (i : Z) (xs b : list Z) : option (list Z) :=
  if bool_decide (0 <= i ∧ i + Z.of_nat (length xs) <= Z.of_nat (length b))
  then Some (store_at (Z.to_nat i) xs b) else None.
Definition memcpy_from (i n : Z) (b : list Z) : option (list Z) :=
  if bool_decide (0 <= i ∧ 0 <= n ∧ i + n <= Z.of_nat (length b))
  then Some (slice (Z.to_nat i) (Z.to_nat n) b) else None.

(** ** Automation *)

(** Destruct the [if] of a definition's guard and decide it by [lia]. *)
Ltac split_guard :=
  match goal with
  | |- context [if (?a <? ?b)%Z then _ else _] => destruct (Z.ltb_spec a b)
  | |- context [if (?a <=? ?b)%Z then _ else _] => destruct (Z.leb_spec a b)
  | |- context [if (?a =? ?b)%Z then _ else _] => destruct (Z.eqb_spec a b)
  | |- context [if bool_decide ?P then _ else _] => destruct (bool_decide_reflect P)
  end.
(** Remove a machine conversion whose argument is in range. *)
Ltac small_int :=
  repeat match goal with
  | |- context [?x mod ?m] =>
    lazymatch x with
    | context [_ mod _] => fail
    | _ => rewrite (Z.mod_small x m) by lia
    end
  end.
(** Reduce a goal about two tuples or records to its components. *)
Ltac split_ands := repeat match goal with |- _ ∧ _ => split end.

(** Split a list of known length into its elements. *)
Ltac explode st H :=
  repeat (destruct st as [|? st]; cbn in H; [discriminate H|]); destruct st; [|discriminate H].

Lemma u32_small x : is_u32 x → u32 x = x.
Proof. unfold is_u32, u32. intros. apply Z.mod_small. lia. Qed.
Lemma u16_small x : 0 <= x < 2 ^ 16 → u16 x = x.
Proof. unfold u16. intros. apply Z.mod_small. lia. Qed.
Lemma u8_small x : is_byte x → u8 x = x.
Proof. unfold is_byte, u8. intros. apply Z.mod_small. lia. Qed.
Lemma i32_small x : - 2 ^ 31 <= x < 2 ^ 31 → i32 x = x.
Proof. unfold i32. intros. rewrite Z.mod_small; lia. Qed.
Lemma u8_byte x : is_byte (u8 x).
Proof. unfold is_byte, u8. pose proof (Z.mod_pos_bound x (2 ^ 8)). lia. Qed.

Lemma length_store_at i xs b :
  (i + length xs <= length b)%nat → length (store_at i xs b) = length b.
Proof. intros. unfold store_at. rewrite !length_app, length_take, length_drop. lia. Qed.
Lemma length_slice i n b : (i + n <= length b)%nat → length (slice i n b) = n.
Proof. intros. unfold slice. rewrite length_take, length_drop. lia. Qed.

Lemma memcpy_to_Some i xs b :
  0 <= i → i + Z.of_nat (length xs) <= Z.of_nat (length b) →
  memcpy_to i xs b = Some (store_at (Z.to_nat i) xs b).
Proof. intros. unfold memcpy_to. split_guard; [done | lia]. Qed.
Lemma memcpy_from_Some i n b :
  0 <= i → 0 <= n → i + n <= Z.of_nat (length b) →
  memcpy_from i n b = Some (slice (Z.to_nat i) (Z.to_nat n) b).
Proof. intros. unfold memcpy_from. split_guard; [done | lia]. Qed.

(** What a store leaves before, inside and after the stored range. *)
Lemma take_store_at i xs b : (i <= length b)%nat → take i (store_at i xs b) = take i b.
Proof. intros. unfold store_at. rewrite take_app_le, take_take by (rewrite length_take; lia).
  f_equal; lia. Qed.
Lemma slice_store_at i xs b : (i <= length b)%nat →
  slice i (length xs) (store_at i xs b) = xs.
Proof.
  intros. unfold slice, store_at. rewrite drop_app_length' by (rewrite length_take; lia).
  by rewrite take_app_length.
Qed.
Lemma drop_store_at i xs b : (i + length xs <= length b)%nat →
  drop (i + length xs) (store_at i xs b) = drop (i + length xs) b.
Proof.
  intros. unfold store_at. rewrite app_assoc, drop_app_length'; [done|].
  rewrite length_app, length_take. lia.
Qed.
Lemma store_at_bytes i xs b : bytes_ok xs → bytes_ok b → bytes_ok (store_at i xs b).
Proof.
  intros. unfold store_at. rewrite !Forall_app. split_ands;
    [by apply Forall_take | done | by apply Forall_drop].
Qed.
Lemma slice_bytes i n b : bytes_ok b → bytes_ok (slice i n b).
Proof. intros. by apply Forall_take, Forall_drop. Qed.

(** ** Bits *)

(** Prove an equation between bitwise combinations of arbitrary integers. *)
Ltac bitwise_eq :=
  apply Z.bits_inj'; intros ?n ?Hn;
  repeat first [rewrite Z.lxor_spec | rewrite Z.lor_spec | rewrite Z.land_spec];
  rewrite ?Z.bits_0; btauto.

(** Two lists of the same shape: one equation per element. *)
Ltac cons_eq tac := repeat (apply (f_equal2 (@cons Z)); [tac|]); try reflexivity.

Lemma u8_land x : u8 x = Z.land x 255.
Proof. unfold u8. change 255 with (Z.ones 8). by rewrite Z.land_ones by lia. Qed.
Lemma is_byte_land x : is_byte x ↔ Z.land x 255 = x.
Proof.
  rewrite <- u8_land. split; [apply u8_small|]. intros <-. apply u8_byte.
Qed.
Lemma is_byte_lxor a b : is_byte a → is_byte b → is_byte (Z.lxor a b).
Proof.
  rewrite !is_byte_land. intros Ha Hb. rewrite <- Ha at 2. rewrite <- Hb at 2. bitwise_eq.
Qed.
Lemma is_byte_lor a b : is_byte a → is_byte b → is_byte (Z.lor a b).
Proof.
  rewrite !is_byte_land. intros Ha Hb. rewrite <- Ha at 2. rewrite <- Hb at 2. bitwise_eq.
Qed.
Lemma is_byte_land_l a b : is_byte a → is_byte (Z.land a b).
Proof. rewrite !is_byte_land. intros Ha. rewrite <- Ha at 2. bitwise_eq. Qed.
Lemma byte_of_byte k x : is_byte (byte_of k x).
Proof. apply is_byte_land. unfold byte_of. bitwise_eq. Qed.

Lemma byte_of_bits k x n : 0 <= k → 0 <= n →
  Z.testbit (byte_of k x) n = (n <? 8) && Z.testbit x (n + 8 * k).
Proof.
  intros Hk Hn. unfold byte_of. change 255 with (Z.ones 8).
  rewrite Z.land_spec, Z.shiftr_spec, Z.testbit_ones_nonneg by lia. btauto.
Qed.
Lemma of_le32_bytes x : is_u32 x →
  of_le32 (byte_of 0 x) (byte_of 1 x) (byte_of 2 x) (byte_of 3 x) = x.
Proof.
  intros Hx. apply Z.bits_inj'. intros n Hn. unfold of_le32. rewrite !Z.lor_spec.
  assert (Hs : ∀ k s v, 0 <= k → s = 8 * k → Z.testbit (Z.shiftl (byte_of k v) s) n
    = (8 * k <=? n) && (n <? 8 * k + 8) && Z.testbit v n).
  { intros k s v Hk ->. rewrite Z.shiftl_spec by lia. destruct (Z.leb_spec (8 * k) n).
    - rewrite byte_of_bits by lia. replace (n - 8 * k + 8 * k) with n by lia.
      cbn [andb]. f_equal. destruct (Z.ltb_spec (n - 8 * k) 8), (Z.ltb_spec n (8 * k + 8)); lia.
    - rewrite Z.testbit_neg_r by lia. done. }
  rewrite (Hs 1 8 x), (Hs 2 16 x), (Hs 3 24 x), (byte_of_bits 0 x) by lia. rewrite Z.add_0_r.
  destruct (decide (n < 32)) as [Hlt|Hge].
  - destruct (Z.testbit x n); [|by rewrite !andb_false_r]. rewrite !andb_true_r.
    destruct (Z.ltb_spec n 8), (Z.leb_spec (8 * 1) n), (Z.ltb_spec n (8 * 1 + 8)),
      (Z.leb_spec (8 * 2) n), (Z.ltb_spec n (8 * 2 + 8)), (Z.leb_spec (8 * 3) n),
      (Z.ltb_spec n (8 * 3 + 8)); cbn; lia.
  - replace (Z.testbit x n) with false; [by rewrite !andb_false_r|]. symmetry.
    destruct (decide (x = 0)) as [->|]; [apply Z.bits_0|].
    apply Z.bits_above_log2; [unfold is_u32 in Hx; lia|].
    apply Z.log2_lt_pow2; [unfold is_u32 in Hx; lia|].
    apply (Z.lt_le_trans _ (2 ^ 32)); [apply Hx|]. apply Z.pow_le_mono_r; lia.
Qed.
Lemma byte_bits_high b n : is_byte b → 8 <= n → Z.testbit b n = false.
Proof.
  intros Hb Hn. apply is_byte_land in Hb. rewrite <- Hb. change 255 with (Z.ones 8).
  rewrite Z.land_spec, (Z.ones_spec_high 8 n) by lia. apply andb_false_r.
Qed.
Lemma byte_of_of_le32 b0 b1 b2 b3 : is_byte b0 → is_byte b1 → is_byte b2 → is_byte b3 →
  let x := of_le32 b0 b1 b2 b3 in
  byte_of 0 x = b0 ∧ byte_of 1 x = b1 ∧ byte_of 2 x = b2 ∧ byte_of 3 x = b3.
Proof.
  intros H0 H1 H2 H3 x.
  assert (Hs : ∀ b s n, is_byte b → 0 <= n → 0 <= s → ¬ (s <= n < s + 8) → Z.testbit (Z.shiftl b s) n = false).
  { intros b s n Hb Hn Hs Hr. rewrite Z.shiftl_spec by lia. destruct (decide (n < s)).
    - apply Z.testbit_neg_r. lia.
    - apply byte_bits_high; [done|lia]. }
  assert (Hx : ∀ n, Z.testbit x n = Z.testbit (Z.shiftl b0 0) n || (Z.testbit (Z.shiftl b1 8) n
     || (Z.testbit (Z.shiftl b2 16) n || Z.testbit (Z.shiftl b3 24) n))).
  { intros n. unfold x, of_le32. rewrite !Z.lor_spec, Z.shiftl_0_r. done. }
  assert (Hk : ∀ k b, 0 <= k → is_byte b →
    (∀ n, 8 * k <= n < 8 * k + 8 → Z.testbit x n = Z.testbit (Z.shiftl b (8 * k)) n) →
    byte_of k x = b).
  { intros k b Hk Hb Hxk. apply Z.bits_inj'. intros n Hn. rewrite byte_of_bits by lia.
    destruct (Z.ltb_spec n 8); cbn [andb].
    - rewrite Hxk, Z.shiftl_spec by lia. f_equal. lia.
    - symmetry. by apply byte_bits_high. }
  split_ands; (apply Hk; [lia|done|]); intros n Hn; rewrite Hx;
    rewrite ?(Hs b0 0), ?(Hs b1 8), ?(Hs b2 16), ?(Hs b3 24) by (done || lia);
    cbn [orb Z.mul Pos.mul]; rewrite ?orb_false_r; reflexivity.
Qed.
(** Or-ing disjoint bits is adding. *)
Lemma lor_add k a b : 0 <= k → 0 <= a < 2 ^ k → 0 <= b → Z.lor a (b * 2 ^ k) = a + b * 2 ^ k.
Proof.
  intros Hk Ha Hb. rewrite <- Z.lxor_lor, <- Z.add_nocarry_lxor; try done;
    rewrite <- Z.shiftl_mul_pow2 by lia; apply Z.bits_inj'; intros n Hn;
    rewrite Z.land_spec, Z.bits_0, Z.shiftl_spec by lia;
    (destruct (decide (n < k)); [rewrite (Z.testbit_neg_r b) by lia; apply andb_false_r|]);
    (replace (Z.testbit a n) with false; [done|]); symmetry;
    (destruct (decide (a = 0)) as [->|]; [apply Z.bits_0|]);
    (apply Z.bits_above_log2; [lia|]); apply Z.log2_lt_pow2; try lia;
    apply (Z.lt_le_trans _ (2 ^ k)); try lia; apply Z.pow_le_mono_r; lia.
Qed.
Lemma of_le32_add b0 b1 b2 b3 : is_byte b0 → is_byte b1 → is_byte b2 → is_byte b3 →
  of_le32 b0 b1 b2 b3 = b0 + (b1 + (b2 + b3 * 256) * 256) * 256.
Proof.
  intros H0 H1 H2 H3. unfold of_le32, is_byte in *.
  assert (Hs : ∀ a b k, 0 <= k → 0 <= a < 2 ^ 8 → 0 <= b →
    Z.lor (Z.shiftl a k) (Z.shiftl b (k + 8)) = Z.shiftl (a + b * 2 ^ 8) k).
  { intros a b k Hk Ha Hb. rewrite (Z.add_comm k), <- Z.shiftl_shiftl, <- Z.shiftl_lor by lia.
    rewrite (Z.shiftl_mul_pow2 b) by lia. by rewrite lor_add by lia. }
  change 24 with (16 + 8). rewrite (Hs b2 b3 16) by lia.
  change 16 with (8 + 8). rewrite (Hs b1 _ 8) by lia. rewrite Z.shiftl_mul_pow2 by lia.
  rewrite lor_add by lia. lia.
Qed.
Lemma of_le32_u32 b0 b1 b2 b3 : is_byte b0 → is_byte b1 → is_byte b2 → is_byte b3 →
  is_u32 (of_le32 b0 b1 b2 b3).
Proof. intros H0 H1 H2 H3. rewrite of_le32_add by done. unfold is_u32, is_byte in *. lia. Qed.
Lemma of_le16_add b0 b1 : is_byte b0 → is_byte b1 → of_le16 b0 b1 = b0 + b1 * 256.
Proof.
  intros H0 H1. unfold of_le16, is_byte in *. rewrite Z.shiftl_mul_pow2 by lia.
  rewrite lor_add by lia. lia.
Qed.
Lemma of_le16_bytes x : 0 <= x < 65536 → of_le16 (byte_of 0 x) (byte_of 1 x) = x.
Proof.
  intros Hx. rewrite of_le16_add by apply byte_of_byte. unfold byte_of.
  change 255 with (Z.ones 8). rewrite !Z.land_ones, !Z.shiftr_div_pow2 by lia.
  change (2 ^ (8 * 0)) with 1. change (2 ^ (8 * 1)) with 256. change (2 ^ 8) with 256.
  pose proof (Z.div_mod x 256). pose proof (Z.mod_pos_bound x 256).
  rewrite Z.div_1_r, (Z.mod_small (x / 256)) by lia. lia.
Qed.
Lemma htonl_of_le32 x : htonl x = of_le32 (byte_of 3 x) (byte_of 2 x) (byte_of 1 x) (byte_of 0 x).
Proof.
  unfold htonl, of_le32. apply Z.bits_inj'. intros n Hn. rewrite !Z.lor_spec. btauto.
Qed.
Lemma htonl_u32 x : is_u32 (htonl x).
Proof. rewrite htonl_of_le32. apply of_le32_u32; apply byte_of_byte. Qed.
Lemma htonl_involutive x : is_u32 x → htonl (htonl x) = x.
Proof.
  intros Hx. rewrite (htonl_of_le32 (htonl x)).
  destruct (byte_of_of_le32 (byte_of 3 x) (byte_of 2 x) (byte_of 1 x) (byte_of 0 x))
    as (H0 & H1 & H2 & H3); try apply byte_of_byte.
  rewrite <- (htonl_of_le32 x) in H0, H1, H2, H3.
  rewrite H0, H1, H2, H3. by apply of_le32_bytes.
Qed.
Lemma le32_bytes x : bytes_ok (le32 x).
Proof. repeat (apply List.Forall_cons; [apply byte_of_byte|]). apply List.Forall_nil. Qed.

(** A property of every byte, checked by evaluation. *)
Definition bytes256 : list Z := seqZ 0 256.
Lemma for_all_bytes (P : Z → bool) : forallb P bytes256 = true → ∀ b, is_byte b → P b = true.
Proof.
  rewrite forallb_forall. intros H b Hb. apply H. apply list_elem_of_In, elem_of_seqZ.
  unfold is_byte in Hb. lia.
Qed.

Create HintDb buf.
#[export] Hint Rewrite length_store_at length_slice using lia : buf.
#[export] Hint Resolve store_at_bytes slice_bytes u8_byte is_byte_lxor is_byte_lor
  is_byte_land_l byte_of_byte : buf.

(** [bytes_ok] of an explicit list, one byte at a time. *)
Ltac byte_list :=
  repeat first [apply List.Forall_nil | apply List.Forall_cons; [eauto 10 with buf|]].
