(* ===== verification/PrioTab.v ===== *)
(** * Priority tables ([uCOS-II/os_core.c])

    The kernel keeps a set of task priorities (0 .. 63) as eight bytes, one bit per priority,
    and a group byte with one bit per non-empty byte.  The ready list ([OSRdyGrp],
    [OSRdyTbl]) and the wait list of every event ([OSEventGrp], [OSEventTbl]) have this form.
    [p_mem] is the set a table stands for; the group byte is redundant ([p_wf]), and the
    table look-up of [OS_SchedNew] is the least element of the set. *)
From S2P Require Import Prelude.

(** ** Data and operations *)

(** The position of the lowest bit set in each byte. *)
(* @ uCOS-II/os_core.c:41-58 OSUnMapTbl *)
Definition OSUnMapTbl : list Z :=
  [0; 0; 1; 0; 2; 0; 1; 0; 3; 0; 1; 0; 2; 0; 1; 0;
   4; 0; 1; 0; 2; 0; 1; 0; 3; 0; 1; 0; 2; 0; 1; 0;
   5; 0; 1; 0; 2; 0; 1; 0; 3; 0; 1; 0; 2; 0; 1; 0;
   4; 0; 1; 0; 2; 0; 1; 0; 3; 0; 1; 0; 2; 0; 1; 0;
   6; 0; 1; 0; 2; 0; 1; 0; 3; 0; 1; 0; 2; 0; 1; 0;
   4; 0; 1; 0; 2; 0; 1; 0; 3; 0; 1; 0; 2; 0; 1; 0;
   5; 0; 1; 0; 2; 0; 1; 0; 3; 0; 1; 0; 2; 0; 1; 0;
   4; 0; 1; 0; 2; 0; 1; 0; 3; 0; 1; 0; 2; 0; 1; 0;
   7; 0; 1; 0; 2; 0; 1; 0; 3; 0; 1; 0; 2; 0; 1; 0;
   4; 0; 1; 0; 2; 0; 1; 0; 3; 0; 1; 0; 2; 0; 1; 0;
   5; 0; 1; 0; 2; 0; 1; 0; 3; 0; 1; 0; 2; 0; 1; 0;
   4; 0; 1; 0; 2; 0; 1; 0; 3; 0; 1; 0; 2; 0; 1; 0;
   6; 0; 1; 0; 2; 0; 1; 0; 3; 0; 1; 0; 2; 0; 1; 0;
   4; 0; 1; 0; 2; 0; 1; 0; 3; 0; 1; 0; 2; 0; 1; 0;
   5; 0; 1; 0; 2; 0; 1; 0; 3; 0; 1; 0; 2; 0; 1; 0;
   4; 0; 1; 0; 2; 0; 1; 0; 3; 0; 1; 0; 2; 0; 1; 0].

(** A group byte and its table. *)
Record ptab := PTab { p_grp : Z; p_tbl : list Z }.

(** The fields of a TCB that [OS_TCBInit] computes from the priority. *)
(* @ uCOS-II/os_core.c:2222-2222 OS_TCBInit *)
Definition OSTCBY (prio : Z) : Z := Z.shiftr prio 3.
(* @ uCOS-II/os_core.c:2223-2223 OS_TCBInit *)
Definition OSTCBX (prio : Z) : Z := Z.land prio 7.
(* @ uCOS-II/os_core.c:2229-2229 OS_TCBInit *)
Definition OSTCBBitY (prio : Z) : Z := u8 (Z.shiftl 1 (OSTCBY prio)).
(* @ uCOS-II/os_core.c:2230-2230 OS_TCBInit *)
Definition OSTCBBitX (prio : Z) : Z := u8 (Z.shiftl 1 (OSTCBX prio)).

(** [tbl[y] = v] inside the table. *)
Definition tbl_upd (tbl : list Z) (y v : Z) : list Z := <[Z.to_nat y := v]> tbl.

(* @ uCOS-II/os_core.c:1258-1267 OS_EventWaitListInit *)
Definition p_empty : ptab := PTab 0 (replicate 8 0).

(* @ uCOS-II/os_core.c:1118-1119 OS_EventTaskWait *)
Definition p_set (t : ptab) (prio : Z) : ptab :=
  PTab (Z.lor (p_grp t) (OSTCBBitY prio))
    (tbl_upd (p_tbl t) (OSTCBY prio)
       (Z.lor (byte_at (p_tbl t) (OSTCBY prio)) (OSTCBBitX prio))).

(* @ uCOS-II/os_core.c:1194-1198 OS_EventTaskRemove *)
Definition p_clear (t : ptab) (prio : Z) : ptab :=
  let y := OSTCBY prio in
  let v := Z.land (byte_at (p_tbl t) y) (u8 (Z.lnot (OSTCBBitX prio))) in
  PTab (if v =? 0 then Z.land (p_grp t) (u8 (Z.lnot (OSTCBBitY prio))) else p_grp t)
    (tbl_upd (p_tbl t) y v).

(* @ uCOS-II/os_core.c:1899-1900 OS_SchedNew *)
Definition p_first (t : ptab) : Z :=
  let y := byte_at OSUnMapTbl (p_grp t) in
  u8 (Z.shiftl y 3 + byte_at OSUnMapTbl (byte_at (p_tbl t) y)).

(** ** What a table stands for *)

(** Membership: the bit of [prio]. *)
Definition p_mem (t : ptab) (prio : Z) : bool :=
  (0 <=? prio) && (prio <? 64) && Z.testbit (byte_at (p_tbl t) (OSTCBY prio)) (OSTCBX prio).

(** The group byte says which bytes of the table are not zero. *)
Record p_wf (t : ptab) : Prop := {
  wf_grp : is_byte (p_grp t);
  wf_len : length (p_tbl t) = 8%nat;
  wf_tbl : bytes_ok (p_tbl t);
  wf_sync : ∀ y, 0 <= y < 8 → Z.testbit (p_grp t) y = negb (byte_at (p_tbl t) y =? 0) }.

(** The set itself. *)
Definition p_elems (t : ptab) : gset Z := list_to_set (filter (λ p, p_mem t p) (seqZ 0 64)).

(** ** Lemmas *)

Lemma OSTCBY_div p : OSTCBY p = p / 8.
Proof. unfold OSTCBY. rewrite Z.shiftr_div_pow2 by lia. done. Qed.
Lemma OSTCBX_mod p : OSTCBX p = p mod 8.
Proof. unfold OSTCBX. change 7 with (Z.ones 3). rewrite Z.land_ones by lia. done. Qed.
Lemma prio_parts p : 0 <= p < 64 → 0 <= OSTCBY p < 8 ∧ 0 <= OSTCBX p < 8.
Proof.
  intros. rewrite OSTCBY_div, OSTCBX_mod.
  split; [split; [apply Z.div_pos; lia | apply Z.div_lt_upper_bound; lia]|].
  apply Z.mod_pos_bound. lia.
Qed.
Lemma prio_of_parts y x : 0 <= y < 8 → 0 <= x < 8 →
  OSTCBY (8 * y + x) = y ∧ OSTCBX (8 * y + x) = x.
Proof.
  intros. rewrite OSTCBY_div, OSTCBX_mod. split; symmetry.
  - apply Z.div_unique with x; lia.
  - apply Z.mod_unique with y; lia.
Qed.
Lemma prio_eq p q : OSTCBY p = OSTCBY q → OSTCBX p = OSTCBX q → p = q.
Proof.
  rewrite !OSTCBY_div, !OSTCBX_mod. intros Hy Hx.
  rewrite (Z_div_mod_eq_full p 8), (Z_div_mod_eq_full q 8). lia.
Qed.

(** The bit masks: bit [i] of [1 << x] and of its complement, for positions inside a byte. *)
Lemma bit_mask x i : 0 <= x < 8 → 0 <= i < 8 → Z.testbit (u8 (Z.shiftl 1 x)) i = (i =? x).
Proof.
  intros Hx Hi. unfold u8. rewrite Z.mod_pow2_bits_low by lia.
  rewrite Z.shiftl_1_l, Z.pow2_bits_eqb by lia. apply Z.eqb_sym.
Qed.
Lemma bit_mask_not x i : 0 <= x < 8 → 0 <= i < 8 →
  Z.testbit (u8 (Z.lnot (u8 (Z.shiftl 1 x)))) i = negb (i =? x).
Proof.
  intros Hx Hi. unfold u8 at 1. rewrite Z.mod_pow2_bits_low, Z.lnot_spec by lia.
  by rewrite bit_mask.
Qed.
Lemma byte_zero b : is_byte b → (∀ i, 0 <= i < 8 → Z.testbit b i = false) → b = 0.
Proof.
  intros Hb H. apply Z.bits_inj'. intros n Hn. rewrite Z.bits_0.
  destruct (decide (n < 8)); [apply H; lia | apply byte_bits_high; [done|lia]].
Qed.

Lemma byte_at_upd tbl y v y' : 0 <= y < Z.of_nat (length tbl) → 0 <= y' →
  byte_at (tbl_upd tbl y v) y' = if y' =? y then v else byte_at tbl y'.
Proof.
  intros Hy Hy'. unfold byte_at, tbl_upd. rewrite !list_lookup_total_alt.
  destruct (Z.eqb_spec y' y) as [->|Hne].
  - by rewrite list_lookup_insert_eq by lia.
  - rewrite list_lookup_insert_ne by lia. done.
Qed.
Lemma byte_at_ok tbl y : bytes_ok tbl → is_byte (byte_at tbl y).
Proof.
  intros Ht. unfold byte_at. rewrite list_lookup_total_alt.
  destruct (tbl !! Z.to_nat y) as [b|] eqn:Hb; cbn; [|unfold is_byte; cbn; lia].
  by eapply Forall_lookup in Hb.
Qed.
Lemma p_mem_range t p : p_mem t p = true → 0 <= p < 64.
Proof. unfold p_mem. rewrite !andb_true_iff. lia. Qed.

Lemma p_mem_empty p : p_mem p_empty p = false.
Proof.
  unfold p_mem. destruct (decide (0 <= p < 64)) as [Hp|].
  2:{ destruct (Z.leb_spec 0 p), (Z.ltb_spec p 64); cbn; done || lia. }
  destruct (prio_parts p Hp). change (p_tbl p_empty) with (replicate 8 0).
  unfold byte_at. rewrite list_lookup_total_alt, lookup_replicate_2 by lia.
  cbn [from_option default]. rewrite Z.bits_0. btauto.
Qed.
Lemma p_wf_empty : p_wf p_empty.
Proof.
  split; [unfold is_byte; cbn; lia | done | |].
  - change (p_tbl p_empty) with (replicate 8 0). apply Forall_replicate. unfold is_byte. lia.
  - intros y Hy. change (p_grp p_empty) with 0. rewrite Z.bits_0. symmetry.
    apply negb_false_iff, Z.eqb_eq. unfold byte_at. rewrite list_lookup_total_alt.
    change (p_tbl p_empty) with (replicate 8 0). rewrite lookup_replicate_2 by lia. done.
Qed.

(** A byte written into the table leaves a table of eight bytes. *)
Lemma tbl_upd_ok tbl y v : bytes_ok tbl → is_byte v → bytes_ok (tbl_upd tbl y v).
Proof. intros. by apply Forall_insert. Qed.

Lemma p_mem_set t p q : p_wf t → 0 <= p < 64 →
  p_mem (p_set t p) q = p_mem t q || (q =? p).
Proof.
  intros [_ Hl _ _] Hp. unfold p_mem, p_set. cbn [p_tbl].
  destruct (decide (0 <= q < 64)) as [Hq|Hq].
  2:{ destruct (Z.leb_spec 0 q), (Z.ltb_spec q 64), (Z.eqb_spec q p); cbn; lia. }
  destruct (prio_parts p Hp), (prio_parts q Hq).
  rewrite byte_at_upd by lia.
  replace (0 <=? q) with true by lia. replace (q <? 64) with true by lia. cbn [andb].
  destruct (Z.eqb_spec (OSTCBY q) (OSTCBY p)) as [Hy|Hy].
  - rewrite Z.lor_spec. unfold OSTCBBitX. rewrite bit_mask, Hy by lia. f_equal.
    destruct (Z.eqb_spec (OSTCBX q) (OSTCBX p)), (Z.eqb_spec q p); try done; subst; try done.
    exfalso. eauto using prio_eq.
  - destruct (Z.eqb_spec q p); [by subst|]. by rewrite orb_false_r.
Qed.
Lemma p_mem_clear t p q : p_wf t → 0 <= p < 64 →
  p_mem (p_clear t p) q = p_mem t q && negb (q =? p).
Proof.
  intros [_ Hl _ _] Hp. unfold p_mem, p_clear. cbn [p_tbl].
  destruct (decide (0 <= q < 64)) as [Hq|Hq].
  2:{ destruct (Z.leb_spec 0 q), (Z.ltb_spec q 64), (Z.eqb_spec q p); cbn; lia. }
  destruct (prio_parts p Hp), (prio_parts q Hq).
  rewrite byte_at_upd by lia.
  replace (0 <=? q) with true by lia. replace (q <? 64) with true by lia. cbn [andb].
  destruct (Z.eqb_spec (OSTCBY q) (OSTCBY p)) as [Hy|Hy].
  - rewrite Z.land_spec. unfold OSTCBBitX. rewrite bit_mask_not, Hy by lia. f_equal.
    destruct (Z.eqb_spec (OSTCBX q) (OSTCBX p)), (Z.eqb_spec q p); try done; subst; try done.
    exfalso. eauto using prio_eq.
  - destruct (Z.eqb_spec q p); [by subst|]. by rewrite andb_true_r.
Qed.

Lemma p_wf_set t p : p_wf t → 0 <= p < 64 → p_wf (p_set t p).
Proof.
  intros [Hg Hl Hb Hs] Hp. destruct (prio_parts p Hp).
  assert (is_byte (Z.lor (byte_at (p_tbl t) (OSTCBY p)) (OSTCBBitX p))).
  { apply is_byte_lor; [by apply byte_at_ok | apply u8_byte]. }
  split; cbn [p_grp p_tbl p_set].
  - apply is_byte_lor; [done | apply u8_byte].
  - unfold tbl_upd. by rewrite length_insert.
  - by apply tbl_upd_ok.
  - intros y Hy. rewrite byte_at_upd, Z.lor_spec by lia. unfold OSTCBBitY. rewrite bit_mask by lia.
    destruct (Z.eqb_spec y (OSTCBY p)) as [->|]; [|by rewrite orb_false_r, Hs].
    rewrite orb_true_r. symmetry. apply negb_true_iff, Z.eqb_neq. intros E0.
    assert (Hbit : Z.testbit (Z.lor (byte_at (p_tbl t) (OSTCBY p)) (OSTCBBitX p)) (OSTCBX p) = true).
    { rewrite Z.lor_spec. unfold OSTCBBitX. rewrite bit_mask, Z.eqb_refl by lia. btauto. }
    rewrite E0, Z.bits_0 in Hbit. discriminate.
Qed.
Lemma p_wf_clear t p : p_wf t → 0 <= p < 64 → p_wf (p_clear t p).
Proof.
  intros [Hg Hl Hb Hs] Hp. destruct (prio_parts p Hp).
  unfold p_clear. set (v := Z.land _ _).
  assert (is_byte v) by (apply is_byte_land_l; by apply byte_at_ok).
  split; cbn [p_grp p_tbl].
  - case_match; [by apply is_byte_land_l | done].
  - unfold tbl_upd. by rewrite length_insert.
  - by apply tbl_upd_ok.
  - intros y Hy. rewrite byte_at_upd by lia.
    destruct (Z.eqb_spec v 0) as [Hv|Hv].
    + rewrite Z.land_spec. unfold OSTCBBitY. rewrite bit_mask_not by lia.
      destruct (Z.eqb_spec y (OSTCBY p)) as [->|]; cbn [negb].
      * rewrite Hv, andb_false_r. done.
      * by rewrite andb_true_r, Hs.
    + destruct (Z.eqb_spec y (OSTCBY p)) as [->|]; [|by apply Hs].
      rewrite Hs by lia. f_equal. transitivity false; [|by symmetry; apply Z.eqb_neq].
      apply Z.eqb_neq. intros E0. apply Hv. unfold v. by rewrite E0, Z.land_0_l.
Qed.

(** The group byte is zero when the set is empty, and only then. *)
Lemma p_grp_zero t : p_wf t → p_grp t = 0 ↔ ∀ q, p_mem t q = false.
Proof.
  intros [Hg Hl Hb Hs]. split.
  - intros H0 q. unfold p_mem. destruct (decide (0 <= q < 64)) as [Hq|Hq].
    2:{ destruct (Z.leb_spec 0 q), (Z.ltb_spec q 64); cbn; done || lia. }
    destruct (prio_parts q Hq) as [Hy Hx]. specialize (Hs _ Hy).
    rewrite H0, Z.bits_0 in Hs. symmetry in Hs. apply negb_false_iff, Z.eqb_eq in Hs.
    rewrite Hs, Z.bits_0. btauto.
  - intros Hq. apply byte_zero; [done|]. intros y Hy. rewrite Hs by done.
    apply negb_false_iff, Z.eqb_eq, byte_zero; [by apply byte_at_ok|]. intros x Hx.
    specialize (Hq (8 * y + x)). unfold p_mem in Hq.
    replace (0 <=? 8 * y + x) with true in Hq by lia.
    replace (8 * y + x <? 64) with true in Hq by lia. cbn [andb] in Hq.
    destruct (prio_of_parts y x) as [E1 E2]; [done..|]. by rewrite E1, E2 in Hq.
Qed.
Lemma p_grp_nonzero t : p_wf t → p_grp t ≠ 0 → ∃ q, p_mem t q = true.
Proof.
  intros Hw Hg. destruct (decide (Exists (λ q, p_mem t q = true) (seqZ 0 64))) as [H|H].
  - apply Exists_exists in H as (q & _ & Hq). eauto.
  - exfalso. apply Hg, (p_grp_zero t Hw). intros q. destruct (p_mem t q) eqn:Hq; [|done].
    exfalso. apply H, Exists_exists. exists q. split; [|done].
    apply p_mem_range in Hq. apply elem_of_seqZ. lia.
Qed.

(** The table gives the lowest bit set of every byte but 0, for which there is none. *)
Definition unmap_ok (b : Z) : bool :=
  let y := byte_at OSUnMapTbl b in
  (0 <=? y) && (y <? 8) && ((b =? 0) || Z.testbit b y)
  && forallb (λ i, negb (Z.testbit b i) || (y <=? i)) (seqZ 0 8).
Lemma unmap_lowest b : is_byte b → b ≠ 0 →
  0 <= byte_at OSUnMapTbl b < 8 ∧ Z.testbit b (byte_at OSUnMapTbl b) = true ∧
  ∀ i, 0 <= i < 8 → Z.testbit b i = true → byte_at OSUnMapTbl b <= i.
Proof.
  intros Hb Hne.
  assert (H : unmap_ok b = true) by (apply for_all_bytes; [vm_compute; reflexivity | done]).
  unfold unmap_ok in H. rewrite !andb_true_iff, orb_true_iff, forallb_forall in H.
  destruct H as (((H1 & H2) & H3) & H4). split; [lia|]. split; [destruct H3; [lia|done]|].
  intros i Hi Ht. specialize (H4 i). rewrite Ht in H4. cbn in H4. apply Z.leb_le, H4.
  apply list_elem_of_In, elem_of_seqZ. lia.
Qed.

(** [OS_SchedNew]'s look-up finds the least element of a non-empty set. *)
Lemma p_first_least t q : p_wf t → p_mem t q = true →
  p_mem t (p_first t) = true ∧ p_first t <= q.
Proof.
  intros Hw Hq. pose proof (p_mem_range _ _ Hq) as Hqr. destruct (prio_parts q Hqr) as [Hqy Hqx].
  destruct Hw as [Hg Hl Hb Hs].
  assert (Hqb : Z.testbit (byte_at (p_tbl t) (OSTCBY q)) (OSTCBX q) = true).
  { unfold p_mem in Hq. rewrite !andb_true_iff in Hq. apply Hq. }
  assert (Hgq : Z.testbit (p_grp t) (OSTCBY q) = true).
  { rewrite Hs by done. apply negb_true_iff, Z.eqb_neq. intros H0. by rewrite H0, Z.bits_0 in Hqb. }
  assert (Hg0 : p_grp t ≠ 0) by (intros H0; by rewrite H0, Z.bits_0 in Hgq).
  destruct (unmap_lowest _ Hg Hg0) as (Hy & Hyb & Hyl).
  unfold p_first. set (y := byte_at OSUnMapTbl (p_grp t)) in *.
  assert (Hr0 : byte_at (p_tbl t) y ≠ 0).
  { rewrite Hs in Hyb by done. apply negb_true_iff in Hyb. by apply Z.eqb_neq. }
  destruct (unmap_lowest _ (byte_at_ok _ y Hb) Hr0) as (Hx & Hxb & Hxl).
  set (x := byte_at OSUnMapTbl (byte_at (p_tbl t) y)) in *.
  rewrite Z.shiftl_mul_pow2 by lia. change (2 ^ 3) with 8.
  rewrite Z.mul_comm, u8_small by (unfold is_byte; lia).
  destruct (prio_of_parts y x) as [Hpy Hpx]; [done..|].
  split.
  - unfold p_mem. rewrite Hpy, Hpx, Hxb.
    replace (0 <=? 8 * y + x) with true by lia. replace (8 * y + x <? 64) with true by lia. done.
  - specialize (Hyl _ Hqy Hgq).
    assert (Hqd : q = 8 * OSTCBY q + OSTCBX q).
    { rewrite OSTCBY_div, OSTCBX_mod. apply Z_div_mod_eq_full. }
    destruct (decide (y = OSTCBY q)) as [E|]; [|lia].
    rewrite <- E in Hqb. specialize (Hxl _ Hqx Hqb). lia.
Qed.

(** ** The set of priorities *)

Lemma elem_of_p_elems t p : p ∈ p_elems t ↔ p_mem t p = true.
Proof.
  unfold p_elems. rewrite elem_of_list_to_set, list_elem_of_filter, elem_of_seqZ.
  split; [intros [H _]; by apply Is_true_eq_true|].
  intros H. split; [by apply Is_true_eq_left|]. apply p_mem_range in H. lia.
Qed.

Lemma prio_table_ops t p : p_wf t → 0 <= p < 64 →
  p_elems (p_set t p) = p_elems t ∪ {[p]} ∧ p_elems (p_clear t p) = p_elems t ∖ {[p]}.
Proof.
  intros Hw Hp. split; apply set_eq; intros q.
  - rewrite elem_of_union, elem_of_singleton, !elem_of_p_elems, p_mem_set by done.
    by rewrite orb_true_iff, Z.eqb_eq.
  - rewrite elem_of_difference, elem_of_singleton, !elem_of_p_elems, p_mem_clear by done.
    by rewrite andb_true_iff, negb_true_iff, Z.eqb_neq.
Qed.

(** The ready list and the wait lists implement a set of priorities: initialising,
    inserting and removing are the set operations, the group byte tells whether the set is
    empty, and the scheduler's double table look-up is the least element. *)
Theorem prio_table_refines_set t p : p_wf t → 0 <= p < 64 →
  (p_wf p_empty ∧ p_elems p_empty = ∅) ∧
  (p_wf (p_set t p) ∧ p_elems (p_set t p) = p_elems t ∪ {[p]}) ∧
  (p_wf (p_clear t p) ∧ p_elems (p_clear t p) = p_elems t ∖ {[p]}) ∧
  (p_grp t = 0 ↔ p_elems t = ∅) ∧
  (p_elems t ≠ ∅ → p_first t ∈ p_elems t ∧ ∀ q, q ∈ p_elems t → p_first t <= q).
Proof.
  intros Hw Hp. destruct (prio_table_ops t p Hw Hp) as [E1 E2].
  split_and!; auto using p_wf_empty, p_wf_set, p_wf_clear.
  - rewrite p_grp_zero by done. split.
    + intros H. apply set_eq. intros q. rewrite elem_of_p_elems, H. set_solver.
    + intros H q. destruct (p_mem t q) eqn:E; [|done]. apply elem_of_p_elems in E. set_solver.
  - intros Hne. apply set_choose_L in Hne as [q Hq]. rewrite elem_of_p_elems in Hq. split.
    + rewrite elem_of_p_elems. by eapply p_first_least.
    + intros r Hr. rewrite elem_of_p_elems in Hr. by eapply p_first_least.
Qed.
Lemma prio_table_refines_set_witness :
  p_first (p_set (p_set p_empty 44) 13) = 13 ∧
  p_elems (p_clear (p_set (p_set p_empty 44) 13) 13)
    = p_elems (p_set (p_set p_empty 44) 13) ∖ {[13]}.
Proof.
  split; [vm_compute; reflexivity|].
  apply (prio_table_refines_set (p_set (p_set p_empty 44) 13) 13); [|lia].
  apply p_wf_set; [apply p_wf_set; [apply p_wf_empty|lia]|lia].
Defined.

Create HintDb ptab.
#[export] Hint Resolve p_wf_set p_wf_clear p_wf_empty : ptab.
