(* ===== verification/Kernel.v ===== *)
(** * The kernel: state, scheduler, clock ([uCOS-II/os_core.c], [os_time.c])

    The configuration is [uCOS-II/os_cfg.h]: 64 priorities, 20 events, 20 queues, 20 tasks and
    two of the system's, argument checks off, tick stepping on.  A task is named by its
    priority, which is unique, so a pointer to a TCB is a priority; a pointer to an event or a
    queue block is its index in [OSEventTbl] or [OSQTbl], and the singly linked free lists
    are lists.  The critical sections of one call run as one step; a call that waits ends
    there, and [in_pend] records where the task continues when it runs again.  Context
    switches follow [OSPendSV] of [Ports/Cortex-M3/os_cpu_a.asm]: [OSPrioCur] becomes
    [OSPrioHighRdy].  [None] is a use of a null, reserved or dangling pointer.

    Not modelled: the hooks called through [gpRomHookFuncTbl] (they do not touch this state),
    event flags, mutexes, waiting for several events, changing a priority, software timers,
    names, queries and stack checking.  So [OSTCBEventMultiPtr] and [OSTCBFlagNode] are
    always null, and the branches that test them are omitted. *)
From S2P Require Import Prelude PrioTab.

Open Scope Z_scope.

(** ** Constants of [ucos_ii.h] *)

Definition OS_TASK_IDLE_PRIO : Z := 63.
Definition OS_LOWEST_PRIO : Z := 63.
Definition OS_PRIO_SELF : Z := 255.
Definition OS_TICKS_PER_SEC : Z := 100.

Definition OS_STAT_RDY : Z := 0.
Definition OS_STAT_SUSPEND : Z := 8.
(* @ uCOS-II/ucos_ii.h:112-112 OS_STAT_PEND_ANY *)
Definition OS_STAT_PEND_ANY : Z := 55.

Definition OS_STAT_PEND_OK : Z := 0.
Definition OS_STAT_PEND_TO : Z := 1.
Definition OS_STAT_PEND_ABORT : Z := 2.

Definition OS_EVENT_TYPE_UNUSED : Z := 0.

Definition OS_ERR_NONE : Z := 0.
Definition OS_ERR_EVENT_TYPE : Z := 1.
Definition OS_ERR_PEND_ISR : Z := 2.
Definition OS_ERR_INVALID_OPT : Z := 7.
Definition OS_ERR_TIMEOUT : Z := 10.
Definition OS_ERR_PEND_LOCKED : Z := 13.
Definition OS_ERR_PEND_ABORT : Z := 14.
Definition OS_ERR_DEL_ISR : Z := 15.
Definition OS_ERR_MBOX_FULL : Z := 20.
Definition OS_ERR_Q_FULL : Z := 30.
Definition OS_ERR_Q_EMPTY : Z := 31.
Definition OS_ERR_PRIO_EXIST : Z := 40.
Definition OS_ERR_PRIO_INVALID : Z := 42.
Definition OS_ERR_SCHED_LOCKED : Z := 50.
Definition OS_ERR_SEM_OVF : Z := 51.
Definition OS_ERR_TASK_CREATE_ISR : Z := 60.
Definition OS_ERR_TASK_DEL : Z := 61.
Definition OS_ERR_TASK_DEL_IDLE : Z := 62.
Definition OS_ERR_TASK_DEL_ISR : Z := 64.
Definition OS_ERR_TASK_NO_MORE_TCB : Z := 66.
Definition OS_ERR_TASK_NOT_EXIST : Z := 67.
Definition OS_ERR_TASK_NOT_SUSPENDED : Z := 68.
Definition OS_ERR_TASK_RESUME_PRIO : Z := 70.
Definition OS_ERR_TASK_SUSPEND_PRIO : Z := 72.
Definition OS_ERR_TASK_WAITING : Z := 73.
Definition OS_ERR_TIME_NOT_DLY : Z := 80.
Definition OS_ERR_TIME_DLY_ISR : Z := 85.

(** ** Data *)

(** The kinds of event the model has, with their type and status codes. *)
Inductive evkind := KSem | KMbox | KQ.
#[export] Instance evkind_eq_dec : EqDecision evkind.
Proof. solve_decision. Defined.

(* @ uCOS-II/ucos_ii.h:129-131 OS_EVENT_TYPE_SEM *)
Definition kind_type (kd : evkind) : Z := match kd with KSem => 3 | KMbox => 1 | KQ => 2 end.
(* @ uCOS-II/ucos_ii.h:104-106 OS_STAT_SEM *)
Definition kind_stat (kd : evkind) : Z := match kd with KSem => 1 | KMbox => 2 | KQ => 4 end.

(** A task control block.  [in_pend] is the call the task waits inside of: the rest of that
    call is on its stack. *)
(* @ uCOS-II/ucos_ii.h:534-596 OS_TCB *)
Record TCB := MkTCB {
  OSTCBStat : Z; OSTCBStatPend : Z; OSTCBDly : Z;
  OSTCBEventPtr : option nat; OSTCBMsg : Z; OSTCBCtxSwCtr : Z;
  in_pend : option (evkind * nat) }.

(** [OSEventPtr] of a block in use: a message (null for a semaphore), or a queue block. *)
Inductive evptr := EvMsg (m : Z) | EvQ (q : nat).
#[export] Instance evptr_eq_dec : EqDecision evptr.
Proof. solve_decision. Defined.

(** [OSEventGrp] and [OSEventTbl] are the priority table [OSEventWait]. *)
(* @ uCOS-II/ucos_ii.h:352-362 OS_EVENT *)
Record EVENT := MkEVENT {
  OSEventType : Z; OSEventCnt : Z; OSEventPtr : evptr; OSEventWait : ptab }.

(** [OSQStart] is the storage [OSQBuf] the creator gave, [OSQEnd] its end, [OSQIn] and
    [OSQOut] are offsets from [OSQStart]. *)
(* @ uCOS-II/ucos_ii.h:480-488 OS_Q *)
Record OS_Q := MkQ {
  OSQIn : Z; OSQOut : Z; OSQSize : Z; OSQEntries : Z; OSQBuf : list Z }.

(** The kernel's variables.  An absent entry of [OSTCBPrioTbl] is a null pointer, [Some None]
    is [OS_TCB_RESERVED].  [OSTCBFree] is the length of the list of free TCBs. *)
(* @ uCOS-II/ucos_ii.h:644-710 OSCtxSwCtr *)
Record kernel := MkKernel {
  OSRunning : bool;
  OSIntNesting : Z;
  OSLockNesting : Z;
  OSPrioCur : Z;
  OSPrioHighRdy : Z;
  OSTime : Z;
  OSCtxSwCtr : Z;
  OSTaskCtr : Z;
  OSTickStepState : Z;
  OSRdy : ptab;
  OSTCBPrioTbl : gmap Z (option TCB);
  OSTCBList : list Z;
  OSTCBFree : nat;
  OSEventTbl : list EVENT;
  OSEventFreeList : list nat;
  OSQTbl : list OS_Q;
  OSQFreeList : list nat }.

(** One assignment each. *)
Definition set_running (v : bool) (k : kernel) : kernel :=
  MkKernel v (OSIntNesting k) (OSLockNesting k) (OSPrioCur k) (OSPrioHighRdy k) (OSTime k)
    (OSCtxSwCtr k) (OSTaskCtr k) (OSTickStepState k) (OSRdy k) (OSTCBPrioTbl k) (OSTCBList k)
    (OSTCBFree k) (OSEventTbl k) (OSEventFreeList k) (OSQTbl k) (OSQFreeList k).
Definition set_nesting (v : Z) (k : kernel) : kernel :=
  MkKernel (OSRunning k) v (OSLockNesting k) (OSPrioCur k) (OSPrioHighRdy k) (OSTime k)
    (OSCtxSwCtr k) (OSTaskCtr k) (OSTickStepState k) (OSRdy k) (OSTCBPrioTbl k) (OSTCBList k)
    (OSTCBFree k) (OSEventTbl k) (OSEventFreeList k) (OSQTbl k) (OSQFreeList k).
Definition set_lock (v : Z) (k : kernel) : kernel :=
  MkKernel (OSRunning k) (OSIntNesting k) v (OSPrioCur k) (OSPrioHighRdy k) (OSTime k)
    (OSCtxSwCtr k) (OSTaskCtr k) (OSTickStepState k) (OSRdy k) (OSTCBPrioTbl k) (OSTCBList k)
    (OSTCBFree k) (OSEventTbl k) (OSEventFreeList k) (OSQTbl k) (OSQFreeList k).
Definition set_cur (v : Z) (k : kernel) : kernel :=
  MkKernel (OSRunning k) (OSIntNesting k) (OSLockNesting k) v (OSPrioHighRdy k) (OSTime k)
    (OSCtxSwCtr k) (OSTaskCtr k) (OSTickStepState k) (OSRdy k) (OSTCBPrioTbl k) (OSTCBList k)
    (OSTCBFree k) (OSEventTbl k) (OSEventFreeList k) (OSQTbl k) (OSQFreeList k).
Definition set_high (v : Z) (k : kernel) : kernel :=
  MkKernel (OSRunning k) (OSIntNesting k) (OSLockNesting k) (OSPrioCur k) v (OSTime k)
    (OSCtxSwCtr k) (OSTaskCtr k) (OSTickStepState k) (OSRdy k) (OSTCBPrioTbl k) (OSTCBList k)
    (OSTCBFree k) (OSEventTbl k) (OSEventFreeList k) (OSQTbl k) (OSQFreeList k).
Definition set_time (v : Z) (k : kernel) : kernel :=
  MkKernel (OSRunning k) (OSIntNesting k) (OSLockNesting k) (OSPrioCur k) (OSPrioHighRdy k) v
    (OSCtxSwCtr k) (OSTaskCtr k) (OSTickStepState k) (OSRdy k) (OSTCBPrioTbl k) (OSTCBList k)
    (OSTCBFree k) (OSEventTbl k) (OSEventFreeList k) (OSQTbl k) (OSQFreeList k).
Definition set_ctxsw (v : Z) (k : kernel) : kernel :=
  MkKernel (OSRunning k) (OSIntNesting k) (OSLockNesting k) (OSPrioCur k) (OSPrioHighRdy k)
    (OSTime k) v (OSTaskCtr k) (OSTickStepState k) (OSRdy k) (OSTCBPrioTbl k) (OSTCBList k)
    (OSTCBFree k) (OSEventTbl k) (OSEventFreeList k) (OSQTbl k) (OSQFreeList k).
Definition set_taskctr (v : Z) (k : kernel) : kernel :=
  MkKernel (OSRunning k) (OSIntNesting k) (OSLockNesting k) (OSPrioCur k) (OSPrioHighRdy k)
    (OSTime k) (OSCtxSwCtr k) v (OSTickStepState k) (OSRdy k) (OSTCBPrioTbl k) (OSTCBList k)
    (OSTCBFree k) (OSEventTbl k) (OSEventFreeList k) (OSQTbl k) (OSQFreeList k).
Definition set_tickstep (v : Z) (k : kernel) : kernel :=
  MkKernel (OSRunning k) (OSIntNesting k) (OSLockNesting k) (OSPrioCur k) (OSPrioHighRdy k)
    (OSTime k) (OSCtxSwCtr k) (OSTaskCtr k) v (OSRdy k) (OSTCBPrioTbl k) (OSTCBList k)
    (OSTCBFree k) (OSEventTbl k) (OSEventFreeList k) (OSQTbl k) (OSQFreeList k).
Definition set_rdy (v : ptab) (k : kernel) : kernel :=
  MkKernel (OSRunning k) (OSIntNesting k) (OSLockNesting k) (OSPrioCur k) (OSPrioHighRdy k)
    (OSTime k) (OSCtxSwCtr k) (OSTaskCtr k) (OSTickStepState k) v (OSTCBPrioTbl k) (OSTCBList
    k) (OSTCBFree k) (OSEventTbl k) (OSEventFreeList k) (OSQTbl k) (OSQFreeList k).
Definition set_tcbs (v : gmap Z (option TCB)) (k : kernel) : kernel :=
  MkKernel (OSRunning k) (OSIntNesting k) (OSLockNesting k) (OSPrioCur k) (OSPrioHighRdy k)
    (OSTime k) (OSCtxSwCtr k) (OSTaskCtr k) (OSTickStepState k) (OSRdy k) v (OSTCBList k)
    (OSTCBFree k) (OSEventTbl k) (OSEventFreeList k) (OSQTbl k) (OSQFreeList k).
Definition set_tcblist (v : list Z) (k : kernel) : kernel :=
  MkKernel (OSRunning k) (OSIntNesting k) (OSLockNesting k) (OSPrioCur k) (OSPrioHighRdy k)
    (OSTime k) (OSCtxSwCtr k) (OSTaskCtr k) (OSTickStepState k) (OSRdy k) (OSTCBPrioTbl k) v
    (OSTCBFree k) (OSEventTbl k) (OSEventFreeList k) (OSQTbl k) (OSQFreeList k).
Definition set_tcbfree (v : nat) (k : kernel) : kernel :=
  MkKernel (OSRunning k) (OSIntNesting k) (OSLockNesting k) (OSPrioCur k) (OSPrioHighRdy k)
    (OSTime k) (OSCtxSwCtr k) (OSTaskCtr k) (OSTickStepState k) (OSRdy k) (OSTCBPrioTbl k)
    (OSTCBList k) v (OSEventTbl k) (OSEventFreeList k) (OSQTbl k) (OSQFreeList k).
Definition set_events (v : list EVENT) (k : kernel) : kernel :=
  MkKernel (OSRunning k) (OSIntNesting k) (OSLockNesting k) (OSPrioCur k) (OSPrioHighRdy k)
    (OSTime k) (OSCtxSwCtr k) (OSTaskCtr k) (OSTickStepState k) (OSRdy k) (OSTCBPrioTbl k)
    (OSTCBList k) (OSTCBFree k) v (OSEventFreeList k) (OSQTbl k) (OSQFreeList k).
Definition set_evfree (v : list nat) (k : kernel) : kernel :=
  MkKernel (OSRunning k) (OSIntNesting k) (OSLockNesting k) (OSPrioCur k) (OSPrioHighRdy k)
    (OSTime k) (OSCtxSwCtr k) (OSTaskCtr k) (OSTickStepState k) (OSRdy k) (OSTCBPrioTbl k)
    (OSTCBList k) (OSTCBFree k) (OSEventTbl k) v (OSQTbl k) (OSQFreeList k).
Definition set_qs (v : list OS_Q) (k : kernel) : kernel :=
  MkKernel (OSRunning k) (OSIntNesting k) (OSLockNesting k) (OSPrioCur k) (OSPrioHighRdy k)
    (OSTime k) (OSCtxSwCtr k) (OSTaskCtr k) (OSTickStepState k) (OSRdy k) (OSTCBPrioTbl k)
    (OSTCBList k) (OSTCBFree k) (OSEventTbl k) (OSEventFreeList k) v (OSQFreeList k).
Definition set_qfree (v : list nat) (k : kernel) : kernel :=
  MkKernel (OSRunning k) (OSIntNesting k) (OSLockNesting k) (OSPrioCur k) (OSPrioHighRdy k)
    (OSTime k) (OSCtxSwCtr k) (OSTaskCtr k) (OSTickStepState k) (OSRdy k) (OSTCBPrioTbl k)
    (OSTCBList k) (OSTCBFree k) (OSEventTbl k) (OSEventFreeList k) (OSQTbl k) v.
Definition set_stat (v : Z) (t : TCB) : TCB :=
  MkTCB v (OSTCBStatPend t) (OSTCBDly t) (OSTCBEventPtr t) (OSTCBMsg t) (OSTCBCtxSwCtr t)
    (in_pend t).
Definition set_statpend (v : Z) (t : TCB) : TCB :=
  MkTCB (OSTCBStat t) v (OSTCBDly t) (OSTCBEventPtr t) (OSTCBMsg t) (OSTCBCtxSwCtr t)
    (in_pend t).
Definition set_dly (v : Z) (t : TCB) : TCB :=
  MkTCB (OSTCBStat t) (OSTCBStatPend t) v (OSTCBEventPtr t) (OSTCBMsg t) (OSTCBCtxSwCtr t)
    (in_pend t).
Definition set_evptr (v : option nat) (t : TCB) : TCB :=
  MkTCB (OSTCBStat t) (OSTCBStatPend t) (OSTCBDly t) v (OSTCBMsg t) (OSTCBCtxSwCtr t)
    (in_pend t).
Definition set_msg (v : Z) (t : TCB) : TCB :=
  MkTCB (OSTCBStat t) (OSTCBStatPend t) (OSTCBDly t) (OSTCBEventPtr t) v (OSTCBCtxSwCtr t)
    (in_pend t).
Definition set_ctr (v : Z) (t : TCB) : TCB :=
  MkTCB (OSTCBStat t) (OSTCBStatPend t) (OSTCBDly t) (OSTCBEventPtr t) (OSTCBMsg t) v
    (in_pend t).
Definition set_pend (v : option (evkind * nat)) (t : TCB) : TCB :=
  MkTCB (OSTCBStat t) (OSTCBStatPend t) (OSTCBDly t) (OSTCBEventPtr t) (OSTCBMsg t)
    (OSTCBCtxSwCtr t) v.

Definition ev_set_type (v : Z) (ev : EVENT) : EVENT :=
  MkEVENT v (OSEventCnt ev) (OSEventPtr ev) (OSEventWait ev).
Definition ev_set_cnt (v : Z) (ev : EVENT) : EVENT :=
  MkEVENT (OSEventType ev) v (OSEventPtr ev) (OSEventWait ev).
Definition ev_set_ptr (v : evptr) (ev : EVENT) : EVENT :=
  MkEVENT (OSEventType ev) (OSEventCnt ev) v (OSEventWait ev).
Definition ev_set_wait (v : ptab) (ev : EVENT) : EVENT :=
  MkEVENT (OSEventType ev) (OSEventCnt ev) (OSEventPtr ev) v.

(** ** Pointers *)

(** The TCB a priority leads to; a null or reserved entry cannot be dereferenced. *)
Definition tcb_of (tcbs : gmap Z (option TCB)) (prio : Z) : option TCB := mjoin (tcbs !! prio).
Definition tcb_at (k : kernel) (prio : Z) : option TCB := tcb_of (OSTCBPrioTbl k) prio.
(** An index into [OSTCBPrioTbl] must be inside the array. *)
Definition prio_entry (k : kernel) (prio : Z) : option (option (option TCB)) :=
  if (0 <=? prio) && (prio <=? OS_LOWEST_PRIO) then Some (OSTCBPrioTbl k !! prio) else None.
Definition put_tcb (prio : Z) (t : TCB) (k : kernel) : kernel :=
  set_tcbs (<[prio := Some t]> (OSTCBPrioTbl k)) k.
Definition put_event (e : nat) (ev : EVENT) (k : kernel) : kernel :=
  set_events (<[e := ev]> (OSEventTbl k)) k.
Definition put_queue (q : nat) (v : OS_Q) (k : kernel) : kernel :=
  set_qs (<[q := v]> (OSQTbl k)) k.

(** [OSRdyGrp |= BitY; OSRdyTbl[y] |= BitX], and its inverse. *)
(* @ uCOS-II/os_core.c:2277-2278 OS_TCBInit *)
Definition make_ready (prio : Z) (k : kernel) : kernel := set_rdy (p_set (OSRdy k) prio) k.
(* @ uCOS-II/os_core.c:1121-1125 OS_EventTaskWait *)
Definition make_unready (prio : Z) (k : kernel) : kernel := set_rdy (p_clear (OSRdy k) prio) k.

(** ** The scheduler *)

(* @ uCOS-II/os_core.c:1893-1918 OS_SchedNew *)
Definition OS_SchedNew (k : kernel) : kernel := set_high (p_first (OSRdy k)) k.

(** [OSCtxSw] and [OSIntCtxSw] raise the exception whose handler makes the switch. *)
(* @ Ports/Cortex-M3/os_cpu_a.asm:215-252 OSPendSV *)
Definition OSPendSV (k : kernel) : kernel := set_cur (OSPrioHighRdy k) k.

(** Lines 1862 to 1870: the part [OS_Sched] and [OSIntExit] share. *)
(* @ uCOS-II/os_core.c:1862-1870 OS_Sched *)
Definition sched_switch (k : kernel) : option kernel :=
  let k := OS_SchedNew k in
  if OSPrioHighRdy k =? OSPrioCur k then Some k
  else t ← tcb_at k (OSPrioHighRdy k);
       let k := put_tcb (OSPrioHighRdy k) (set_ctr (u32 (OSTCBCtxSwCtr t + 1)) t) k in
       Some (OSPendSV (set_ctxsw (u32 (OSCtxSwCtr k + 1)) k)).

(* @ uCOS-II/os_core.c:1851-1874 OS_Sched *)
Definition OS_Sched (k : kernel) : option kernel :=
  if OSIntNesting k =? 0 then
    if OSLockNesting k =? 0 then sched_switch k else Some k
  else Some k.

(* @ uCOS-II/os_core.c:643-650 OSIntEnter *)
Definition OSIntEnter (k : kernel) : kernel :=
  if OSRunning k then
    if OSIntNesting k <? 255 then set_nesting (OSIntNesting k + 1) k else k
  else k.

(* @ uCOS-II/os_core.c:671-699 OSIntExit *)
Definition OSIntExit (k : kernel) : option kernel :=
  if OSRunning k then
    let k := if 0 <? OSIntNesting k then set_nesting (OSIntNesting k - 1) k else k in
    if OSIntNesting k =? 0 then
      if OSLockNesting k =? 0 then sched_switch k else Some k
    else Some k
  else Some k.

(* @ uCOS-II/os_core.c:744-761 OSSchedLock *)
Definition OSSchedLock (k : kernel) : kernel :=
  if OSRunning k then
    if OSIntNesting k =? 0 then
      if OSLockNesting k <? 255 then set_lock (OSLockNesting k + 1) k else k
    else k
  else k.

(* @ uCOS-II/os_core.c:781-807 OSSchedUnlock *)
Definition OSSchedUnlock (k : kernel) : option kernel :=
  if OSRunning k then
    if 0 <? OSLockNesting k then
      let k := set_lock (OSLockNesting k - 1) k in
      if OSLockNesting k =? 0 then
        if OSIntNesting k =? 0 then OS_Sched k else Some k
      else Some k
    else Some k
  else Some k.

(** [OSStartHighRdy] sets [OSRunning] and switches to [OSTCBHighRdy]. *)
(* @ uCOS-II/os_core.c:831-840 OSStart *)
Definition OSStart (k : kernel) : option kernel :=
  if OSRunning k then Some k
  else let k := OS_SchedNew k in
       let k := set_cur (OSPrioHighRdy k) k in
       _ ← tcb_at k (OSPrioHighRdy k);
       Some (set_running true k).

(** ** The clock *)

(** Lines 945 to 961 of [OSTimeTick]: one TCB. *)
(* @ uCOS-II/os_core.c:945-961 OSTimeTick *)
Definition tick_task (prio : Z) (t : TCB) (k : kernel) : kernel :=
  if OSTCBDly t =? 0 then k
  else
    let t := set_dly (OSTCBDly t - 1) t in
    if OSTCBDly t =? 0 then
      let t := if Z.land (OSTCBStat t) OS_STAT_PEND_ANY =? OS_STAT_RDY
               then set_statpend OS_STAT_PEND_OK t
               else set_statpend OS_STAT_PEND_TO
                      (set_stat (Z.land (OSTCBStat t) (u8 (Z.lnot OS_STAT_PEND_ANY))) t) in
      let k := put_tcb prio t k in
      if Z.land (OSTCBStat t) OS_STAT_SUSPEND =? OS_STAT_RDY then make_ready prio k else k
    else put_tcb prio t k.

(** Lines 942 to 964: along the list of TCBs up to the idle task. *)
(* @ uCOS-II/os_core.c:942-964 OSTimeTick *)
Fixpoint tick_loop (ps : list Z) (k : kernel) : option kernel :=
  match ps with
  | [] => None
  | p :: ps =>
    if p =? OS_TASK_IDLE_PRIO then Some k
    else t ← tcb_at k p; tick_loop ps (tick_task p t k)
  end.

(** The tick-step switch: whether this tick is processed, and the next state. *)
(* @ uCOS-II/os_core.c:919-937 OSTimeTick *)
Definition tick_step (st : Z) : bool * Z :=
  if st =? 0 then (true, st) else if st =? 1 then (false, st)
  else if st =? 2 then (true, 1) else (true, 0).

(* @ uCOS-II/os_core.c:897-966 OSTimeTick *)
Definition OSTimeTick (k : kernel) : option kernel :=
  let k := set_time (u32 (OSTime k + 1)) k in
  if OSRunning k then
    let '(step, st) := tick_step (OSTickStepState k) in
    let k := set_tickstep st k in
    if step then tick_loop (OSTCBList k) k else Some k
  else Some k.

(* @ uCOS-II/os_time.c:222-235 OSTimeGet *)
Definition OSTimeGet (k : kernel) : Z := OSTime k.
(* @ uCOS-II/os_time.c:251-262 OSTimeSet *)
Definition OSTimeSet (ticks : Z) (k : kernel) : kernel := set_time ticks k.

(* @ uCOS-II/os_time.c:44-70 OSTimeDly *)
Definition OSTimeDly (ticks : Z) (k : kernel) : option kernel :=
  if 0 <? OSIntNesting k then Some k
  else if 0 <? OSLockNesting k then Some k
  else if 0 <? ticks then
    t ← tcb_at k (OSPrioCur k);
    OS_Sched (put_tcb (OSPrioCur k) (set_dly ticks t) (make_unready (OSPrioCur k) k))
  else Some k.

(** The number of ticks: 32-bit arithmetic. *)
(* @ uCOS-II/os_time.c:135-136 OSTimeDlyHMSM *)
Definition hmsm_ticks (hours minutes seconds ms : Z) : Z :=
  u32 ((hours * 3600 + minutes * 60 + seconds) * OS_TICKS_PER_SEC
       + OS_TICKS_PER_SEC * (ms + 500 / OS_TICKS_PER_SEC) / 1000).

(* @ uCOS-II/os_time.c:99-139 OSTimeDlyHMSM *)
Definition OSTimeDlyHMSM (hours minutes seconds ms : Z) (k : kernel) : option (kernel * Z) :=
  if 0 <? OSIntNesting k then Some (k, OS_ERR_TIME_DLY_ISR)
  else if 0 <? OSLockNesting k then Some (k, OS_ERR_SCHED_LOCKED)
  else k ← OSTimeDly (hmsm_ticks hours minutes seconds ms) k; Some (k, OS_ERR_NONE).

(* @ uCOS-II/os_time.c:162-205 OSTimeDlyResume *)
Definition OSTimeDlyResume (prio : Z) (k : kernel) : option (kernel * Z) :=
  if OS_LOWEST_PRIO <=? prio then Some (k, OS_ERR_PRIO_INVALID)
  else
    en ← prio_entry k prio;
    match en with
    | None | Some None => Some (k, OS_ERR_TASK_NOT_EXIST)
    | Some (Some t) =>
      if OSTCBDly t =? 0 then Some (k, OS_ERR_TIME_NOT_DLY)
      else
        let t := set_dly 0 t in
        let t := if Z.land (OSTCBStat t) OS_STAT_PEND_ANY =? OS_STAT_RDY
                 then set_statpend OS_STAT_PEND_OK t
                 else set_statpend OS_STAT_PEND_TO
                        (set_stat (u8 (Z.land (OSTCBStat t) (Z.lnot OS_STAT_PEND_ANY))) t) in
        let k := put_tcb prio t k in
        if Z.land (OSTCBStat t) OS_STAT_SUSPEND =? OS_STAT_RDY
        then k ← OS_Sched (make_ready prio k); Some (k, OS_ERR_NONE)
        else Some (k, OS_ERR_NONE)
    end.

(** ** Waiting for events *)

(* @ uCOS-II/os_core.c:1188-1199 OS_EventTaskRemove *)
Definition OS_EventTaskRemove (prio : Z) (ev : EVENT) : EVENT :=
  ev_set_wait (p_clear (OSEventWait ev) prio) ev.

(** The highest-priority task waiting for the event; the caller made sure there is one. *)
(* @ uCOS-II/os_core.c:1036-1093 OS_EventTaskRdy *)
Definition OS_EventTaskRdy (e : nat) (pmsg msk pend_stat : Z) (k : kernel) : option (kernel * Z) :=
  ev ← OSEventTbl k !! e;
  let prio := p_first (OSEventWait ev) in
  t ← tcb_at k prio;
  let t := set_dly 0 t in
  let t := set_msg pmsg t in
  let t := set_stat (Z.land (OSTCBStat t) (u8 (Z.lnot msk))) t in
  let t := set_statpend pend_stat t in
  let k := put_tcb prio t k in
  let k := if Z.land (OSTCBStat t) OS_STAT_SUSPEND =? OS_STAT_RDY then make_ready prio k else k in
  Some (put_event e (OS_EventTaskRemove prio ev) k, prio).

(* @ uCOS-II/os_core.c:1111-1126 OS_EventTaskWait *)
Definition OS_EventTaskWait (e : nat) (k : kernel) : option kernel :=
  t ← tcb_at k (OSPrioCur k);
  ev ← OSEventTbl k !! e;
  let k := put_tcb (OSPrioCur k) (set_evptr (Some e) t) k in
  let k := put_event e (ev_set_wait (p_set (OSEventWait ev) (OSPrioCur k)) ev) k in
  Some (make_unready (OSPrioCur k) k).

(** ** Tasks *)

(** The fields that [OS_TCBInit] sets. *)
(* @ uCOS-II/os_core.c:2197-2245 OS_TCBInit *)
Definition new_tcb : TCB := MkTCB OS_STAT_RDY OS_STAT_PEND_OK 0 None 0 0 None.

(* @ uCOS-II/os_core.c:2175-2285 OS_TCBInit *)
Definition OS_TCBInit (prio : Z) (k : kernel) : kernel * Z :=
  match OSTCBFree k with
  | O => (k, OS_ERR_TASK_NO_MORE_TCB)
  | S n =>
    let k := set_tcbfree n k in
    let k := put_tcb prio new_tcb k in
    let k := set_tcblist (prio :: OSTCBList k) k in
    let k := make_ready prio k in
    (set_taskctr (u8 (OSTaskCtr k + 1)) k, OS_ERR_NONE)
  end.

(* @ uCOS-II/os_task.c:207-255 OSTaskCreate *)
Definition OSTaskCreate (prio : Z) (k : kernel) : option (kernel * Z) :=
  if 0 <? OSIntNesting k then Some (k, OS_ERR_TASK_CREATE_ISR)
  else
    en ← prio_entry k prio;
    match en with
    | Some _ => Some (k, OS_ERR_PRIO_EXIST)
    | None =>
      let k := set_tcbs (<[prio := None]> (OSTCBPrioTbl k)) k in
      let '(k, err) := OS_TCBInit prio k in
      if err =? OS_ERR_NONE then
        if OSRunning k then k ← OS_Sched k; Some (k, err) else Some (k, err)
      else Some (set_tcbs (delete prio (OSTCBPrioTbl k)) k, err)
    end.

(** Take a TCB out of the chain.  [ptcb->OSTCBNext] is dereferenced, so it cannot be the
    last one. *)
(* @ uCOS-II/os_task.c:506-512 OSTaskDel *)
Definition unlink_tcb (prio : Z) (l : list Z) : option (list Z) :=
  if bool_decide (last l = Some prio) then None else Some (filter (λ p, p ≠ prio) l).

(* @ uCOS-II/os_task.c:427-523 OSTaskDel *)
Definition OSTaskDel (prio : Z) (k : kernel) : option (kernel * Z) :=
  if 0 <? OSIntNesting k then Some (k, OS_ERR_TASK_DEL_ISR)
  else if prio =? OS_TASK_IDLE_PRIO then Some (k, OS_ERR_TASK_DEL_IDLE)
  else
    let prio := if prio =? OS_PRIO_SELF then OSPrioCur k else prio in
    en ← prio_entry k prio;
    match en with
    | None => Some (k, OS_ERR_TASK_NOT_EXIST)
    | Some None => Some (k, OS_ERR_TASK_DEL)
    | Some (Some t) =>
      let k := make_unready prio k in
      k ← match OSTCBEventPtr t with
          | Some e => ev ← OSEventTbl k !! e; Some (put_event e (OS_EventTaskRemove prio ev) k)
          | None => Some k
          end;
      let k := if OSLockNesting k <? 255 then set_lock (OSLockNesting k + 1) k else k in
      let k := if 0 <? OSLockNesting k then set_lock (OSLockNesting k - 1) k else k in
      let k := set_taskctr (u8 (OSTaskCtr k - 1)) k in
      let k := set_tcbs (delete prio (OSTCBPrioTbl k)) k in
      l ← unlink_tcb prio (OSTCBList k);
      let k := set_tcblist l k in
      let k := set_tcbfree (S (OSTCBFree k)) k in
      if OSRunning k then k ← OS_Sched k; Some (k, OS_ERR_NONE) else Some (k, OS_ERR_NONE)
    end.

(* @ uCOS-II/os_task.c:795-839 OSTaskResume *)
Definition OSTaskResume (prio : Z) (k : kernel) : option (kernel * Z) :=
  en ← prio_entry k prio;
  match en with
  | None => Some (k, OS_ERR_TASK_RESUME_PRIO)
  | Some None => Some (k, OS_ERR_TASK_NOT_EXIST)
  | Some (Some t) =>
    if Z.land (OSTCBStat t) OS_STAT_SUSPEND =? OS_STAT_RDY
    then Some (k, OS_ERR_TASK_NOT_SUSPENDED)
    else
      let t := set_stat (Z.land (OSTCBStat t) (u8 (Z.lnot OS_STAT_SUSPEND))) t in
      let k := put_tcb prio t k in
      if OSTCBStat t =? OS_STAT_RDY then
        if OSTCBDly t =? 0 then
          let k := make_ready prio k in
          if OSRunning k then k ← OS_Sched k; Some (k, OS_ERR_NONE) else Some (k, OS_ERR_NONE)
        else Some (k, OS_ERR_NONE)
      else Some (k, OS_ERR_NONE)
  end.

(* @ uCOS-II/os_task.c:947-997 OSTaskSuspend *)
Definition OSTaskSuspend (prio : Z) (k : kernel) : option (kernel * Z) :=
  let self := (prio =? OS_PRIO_SELF) || (prio =? OSPrioCur k) in
  let prio := if prio =? OS_PRIO_SELF then OSPrioCur k else prio in
  en ← prio_entry k prio;
  match en with
  | None => Some (k, OS_ERR_TASK_SUSPEND_PRIO)
  | Some None => Some (k, OS_ERR_TASK_NOT_EXIST)
  | Some (Some t) =>
    let k := make_unready prio k in
    let k := put_tcb prio (set_stat (Z.lor (OSTCBStat t) OS_STAT_SUSPEND) t) k in
    if self then k ← OS_Sched k; Some (k, OS_ERR_NONE) else Some (k, OS_ERR_NONE)
  end.

(** ** Initialisation *)

(* @ uCOS-II/os_core.c:1283-1320 OS_InitEventList *)
Definition OS_InitEventList (k : kernel) : kernel :=
  set_evfree (seq 0 20)
    (set_events (replicate 20 (MkEVENT OS_EVENT_TYPE_UNUSED 0 (EvMsg 0) p_empty)) k).
(* @ uCOS-II/os_q.c:865-891 OS_QInit *)
Definition OS_QInit (k : kernel) : kernel :=
  set_qfree (seq 0 20) (set_qs (replicate 20 (MkQ 0 0 0 0 [])) k).
(* @ uCOS-II/os_core.c:1375-1390 OS_InitRdyList *)
Definition OS_InitRdyList (k : kernel) : kernel := set_high 0 (set_cur 0 (set_rdy p_empty k)).
(* @ uCOS-II/os_core.c:1530-1556 OS_InitTCBList *)
Definition OS_InitTCBList (k : kernel) : kernel :=
  set_tcbfree 22 (set_tcblist [] (set_tcbs ∅ k)).
(* @ uCOS-II/os_core.c:1335-1360 OS_InitMisc *)
Definition OS_InitMisc (k : kernel) : kernel :=
  set_ctxsw 0 (set_running false (set_taskctr 0 (set_lock 0 (set_nesting 0 (set_time 0 k))))).

(** The idle and the statistics task are made by [OSTaskCreateExt], which does what
    [OSTaskCreate] does to the state modelled here. *)
(* @ uCOS-II/os_core.c:1406-1452 OS_InitTaskIdle *)
Definition OS_InitTaskIdle (k : kernel) : option kernel :=
  '(k, _) ← OSTaskCreate OS_TASK_IDLE_PRIO k; Some k.
(* @ uCOS-II/os_core.c:1468-1514 OS_InitTaskStat *)
Definition OS_InitTaskStat (k : kernel) : option kernel :=
  '(k, _) ← OSTaskCreate (OS_TASK_IDLE_PRIO - 1) k; Some k.

(** [OSInit] up to the software timers, whose objects are created by the calls below. *)
(* @ uCOS-II/os_core.c:578-605 OSInit *)
Definition OSInit (k : kernel) : option kernel :=
  let k := OS_InitMisc k in
  let k := OS_InitRdyList k in
  let k := OS_InitTCBList k in
  let k := OS_InitEventList k in
  let k := OS_QInit k in
  k ← OS_InitTaskIdle k;
  OS_InitTaskStat k.
