(* ===== verification/KEvent.v ===== *)
(** * Semaphores, mailboxes and queues of the kernel ([uCOS-II/os_sem.c], [os_mbox.c],
    [os_q.c])

    One definition per call, over the state of [Kernel].  The three files repeat the same
    code for deleting an event and for aborting its waiters; the parts they share are
    [rdy_all], [abort_waiters], [pend_wait] and [pend_done].  A call that has to wait returns
    [None] in place of its result, and its second half ([OSSemPend_done] and so on) is a step
    of its own, taken when the task runs again. *)
From S2P Require Import Prelude PrioTab Kernel.

(** ** Shared parts *)

(** [while (pevent->OSEventGrp != 0) OS_EventTaskRdy(...)], counting the tasks. *)
(* @ uCOS-II/os_sem.c:429-432 OSSemPendAbort *)
Fixpoint rdy_all (fuel : nat) (e : nat) (pmsg msk st : Z) (n : Z) (k : kernel)
    : option (kernel * Z) :=
  ev ← OSEventTbl k !! e;
  if p_grp (OSEventWait ev) =? 0 then Some (k, n)
  else match fuel with
       | O => None
       | S f => '(k, _) ← OS_EventTaskRdy e pmsg msk st k; rdy_all f e pmsg msk st (u8 (n + 1)) k
       end.

(** There are at most 64 tasks in a wait list. *)
Definition ready_waiters (e : nat) (pmsg msk st : Z) (k : kernel) : option (kernel * Z) :=
  rdy_all 64 e pmsg msk st 0 k.

(** The number of tasks and the error code of [OSxxxPendAbort]. *)
(* @ uCOS-II/os_sem.c:425-448 OSSemPendAbort *)
Definition abort_waiters (kd : evkind) (e : nat) (opt : Z) (k : kernel)
    : option (kernel * (Z * Z)) :=
  ev ← OSEventTbl k !! e;
  if p_grp (OSEventWait ev) =? 0 then Some (k, (0, OS_ERR_NONE))
  else
    '(k, n) ← (if opt =? 1 then ready_waiters e 0 (kind_stat kd) OS_STAT_PEND_ABORT k
               else '(k, _) ← OS_EventTaskRdy e 0 (kind_stat kd) OS_STAT_PEND_ABORT k;
                    Some (k, 1));
    k ← OS_Sched k;
    Some (k, (n, OS_ERR_PEND_ABORT)).

(** Take a block off the free list of events, and put one back. *)
(* @ uCOS-II/os_sem.c:113-116 OSSemCreate *)
Definition get_event (k : kernel) : kernel * option nat :=
  match OSEventFreeList k with
  | [] => (k, None)
  | e :: l => (set_evfree l k, Some e)
  end.
(* @ uCOS-II/os_sem.c:213-216 OSSemDel *)
Definition free_event (e : nat) (ev : EVENT) (k : kernel) : kernel :=
  set_evfree (e :: OSEventFreeList k)
    (put_event e (MkEVENT OS_EVENT_TYPE_UNUSED 0 (EvMsg 0) (OSEventWait ev)) k).

(** [OSQDel] gives the queue block back too. *)
(* @ uCOS-II/os_q.c:267-269 OSQDel *)
Definition free_queue (ev : EVENT) (k : kernel) : option kernel :=
  match OSEventPtr ev with
  | EvQ q => Some (set_qfree (q :: OSQFreeList k) k)
  | EvMsg _ => None
  end.
Definition release (kd : evkind) (e : nat) (k : kernel) : option kernel :=
  ev ← OSEventTbl k !! e;
  k ← match kd with KQ => free_queue ev k | _ => Some k end;
  Some (free_event e ev k).

(** The body of [OSxxxDel] after its checks; the result is the returned pointer and the
    error code. *)
(* @ uCOS-II/os_sem.c:202-252 OSSemDel *)
Definition del_event (kd : evkind) (e : nat) (opt : Z) (k : kernel)
    : option (kernel * (option nat * Z)) :=
  ev ← OSEventTbl k !! e;
  let tasks_waiting := negb (p_grp (OSEventWait ev) =? 0) in
  if opt =? 0 then
    if tasks_waiting then Some (k, (Some e, OS_ERR_TASK_WAITING))
    else k ← release kd e k; Some (k, (None, OS_ERR_NONE))
  else if opt =? 1 then
    '(k, _) ← ready_waiters e 0 (kind_stat kd) OS_STAT_PEND_OK k;
    k ← release kd e k;
    k ← (if tasks_waiting then OS_Sched k else Some k);
    Some (k, (None, OS_ERR_NONE))
  else Some (k, (Some e, OS_ERR_INVALID_OPT)).

(** Wait: the current task goes to the wait list and another one runs. *)
(* @ uCOS-II/os_sem.c:331-336 OSSemPend *)
Definition pend_wait (kd : evkind) (e : nat) (timeout : Z) (k : kernel) : option kernel :=
  t ← tcb_at k (OSPrioCur k);
  let t := set_stat (Z.lor (OSTCBStat t) (kind_stat kd)) t in
  let t := set_statpend OS_STAT_PEND_OK t in
  let t := set_dly timeout t in
  let t := set_pend (Some (kd, e)) t in
  k ← OS_EventTaskWait e (put_tcb (OSPrioCur k) t k);
  OS_Sched k.

(** The task runs again: the message it was given and the error code.  The second component
    of the result is [OSTCBMsg], meaningful for mailboxes and queues only. *)
(* @ uCOS-II/os_q.c:456-482 OSQPend *)
Definition pend_done (e : nat) (k : kernel) : option (kernel * (Z * Z)) :=
  let p := OSPrioCur k in
  t ← tcb_at k p;
  let st := OSTCBStatPend t in
  '(k, res) ← (if st =? OS_STAT_PEND_OK then Some (k, (OSTCBMsg t, OS_ERR_NONE))
               else if st =? OS_STAT_PEND_ABORT then Some (k, (0, OS_ERR_PEND_ABORT))
               else ev ← OSEventTbl k !! e;
                    Some (put_event e (OS_EventTaskRemove p ev) k, (0, OS_ERR_TIMEOUT)));
  Some (put_tcb p (MkTCB OS_STAT_RDY OS_STAT_PEND_OK (OSTCBDly t) None 0 (OSTCBCtxSwCtr t) None) k,
        res).

(** ** Semaphores *)

(* @ uCOS-II/os_sem.c:49-73 OSSemAccept *)
Definition OSSemAccept (e : nat) (k : kernel) : option (kernel * Z) :=
  ev ← OSEventTbl k !! e;
  if negb (OSEventType ev =? kind_type KSem) then Some (k, 0)
  else
    let cnt := OSEventCnt ev in
    if 0 <? cnt then Some (put_event e (ev_set_cnt (OSEventCnt ev - 1) ev) k, cnt)
    else Some (k, cnt).

(* @ uCOS-II/os_sem.c:94-128 OSSemCreate *)
Definition OSSemCreate (cnt : Z) (k : kernel) : option (kernel * option nat) :=
  if 0 <? OSIntNesting k then Some (k, None)
  else
    let '(k, pevent) := get_event k in
    match pevent with
    | None => Some (k, None)
    | Some e => Some (put_event e (MkEVENT (kind_type KSem) cnt (EvMsg 0) p_empty) k, Some e)
    end.

(* @ uCOS-II/os_sem.c:169-253 OSSemDel *)
Definition OSSemDel (e : nat) (opt : Z) (k : kernel) : option (kernel * (option nat * Z)) :=
  ev ← OSEventTbl k !! e;
  if negb (OSEventType ev =? kind_type KSem) then Some (k, (Some e, OS_ERR_EVENT_TYPE))
  else if 0 <? OSIntNesting k then Some (k, (Some e, OS_ERR_DEL_ISR))
  else del_event KSem e opt k.

(* @ uCOS-II/os_sem.c:289-336 OSSemPend *)
Definition OSSemPend (e : nat) (timeout : Z) (k : kernel) : option (kernel * option Z) :=
  ev ← OSEventTbl k !! e;
  if negb (OSEventType ev =? kind_type KSem) then Some (k, Some OS_ERR_EVENT_TYPE)
  else if 0 <? OSIntNesting k then Some (k, Some OS_ERR_PEND_ISR)
  else if 0 <? OSLockNesting k then Some (k, Some OS_ERR_PEND_LOCKED)
  else if 0 <? OSEventCnt ev
  then Some (put_event e (ev_set_cnt (OSEventCnt ev - 1) ev) k, Some OS_ERR_NONE)
  else k ← pend_wait KSem e timeout k; Some (k, None).
(** The second half; unlike the others it leaves [OSTCBMsg] alone. *)
(* @ uCOS-II/os_sem.c:337-360 OSSemPend *)
Definition OSSemPend_done (e : nat) (k : kernel) : option (kernel * Z) :=
  let p := OSPrioCur k in
  t ← tcb_at k p;
  '(k, (_, err)) ← pend_done e k;
  t' ← tcb_at k p;
  Some (put_tcb p (set_msg (OSTCBMsg t) t') k, err).

(* @ uCOS-II/os_sem.c:397-449 OSSemPendAbort *)
Definition OSSemPendAbort (e : nat) (opt : Z) (k : kernel) : option (kernel * (Z * Z)) :=
  ev ← OSEventTbl k !! e;
  if negb (OSEventType ev =? kind_type KSem) then Some (k, (0, OS_ERR_EVENT_TYPE))
  else abort_waiters KSem e opt k.

(* @ uCOS-II/os_sem.c:471-502 OSSemPost *)
Definition OSSemPost (e : nat) (k : kernel) : option (kernel * Z) :=
  ev ← OSEventTbl k !! e;
  if negb (OSEventType ev =? kind_type KSem) then Some (k, OS_ERR_EVENT_TYPE)
  else if negb (p_grp (OSEventWait ev) =? 0) then
    '(k, _) ← OS_EventTaskRdy e 0 (kind_stat KSem) OS_STAT_PEND_OK k;
    k ← OS_Sched k; Some (k, OS_ERR_NONE)
  else if OSEventCnt ev <? 65535
  then Some (put_event e (ev_set_cnt (OSEventCnt ev + 1) ev) k, OS_ERR_NONE)
  else Some (k, OS_ERR_SEM_OVF).

(* @ uCOS-II/os_sem.c:587-625 OSSemSet *)
Definition OSSemSet (e : nat) (cnt : Z) (k : kernel) : option (kernel * Z) :=
  ev ← OSEventTbl k !! e;
  if negb (OSEventType ev =? kind_type KSem) then Some (k, OS_ERR_EVENT_TYPE)
  else if 0 <? OSEventCnt ev then Some (put_event e (ev_set_cnt cnt ev) k, OS_ERR_NONE)
  else if p_grp (OSEventWait ev) =? 0
  then Some (put_event e (ev_set_cnt cnt ev) k, OS_ERR_NONE)
  else Some (k, OS_ERR_TASK_WAITING).

(** ** Mailboxes *)

(** The message in a mailbox, 0 for none. *)
Definition mbox_msg (ev : EVENT) : option Z :=
  match OSEventPtr ev with EvMsg m => Some m | EvQ _ => None end.

(* @ uCOS-II/os_mbox.c:47-69 OSMboxAccept *)
Definition OSMboxAccept (e : nat) (k : kernel) : option (kernel * Z) :=
  ev ← OSEventTbl k !! e;
  if negb (OSEventType ev =? kind_type KMbox) then Some (k, 0)
  else m ← mbox_msg ev; Some (put_event e (ev_set_ptr (EvMsg 0) ev) k, m).

(* @ uCOS-II/os_mbox.c:88-122 OSMboxCreate *)
Definition OSMboxCreate (pmsg : Z) (k : kernel) : option (kernel * option nat) :=
  if 0 <? OSIntNesting k then Some (k, None)
  else
    let '(k, pevent) := get_event k in
    match pevent with
    | None => Some (k, None)
    | Some e => Some (put_event e (MkEVENT (kind_type KMbox) 0 (EvMsg pmsg) p_empty) k, Some e)
    end.

(* @ uCOS-II/os_mbox.c:161-245 OSMboxDel *)
Definition OSMboxDel (e : nat) (opt : Z) (k : kernel) : option (kernel * (option nat * Z)) :=
  ev ← OSEventTbl k !! e;
  if negb (OSEventType ev =? kind_type KMbox) then Some (k, (Some e, OS_ERR_EVENT_TYPE))
  else if 0 <? OSIntNesting k then Some (k, (Some e, OS_ERR_DEL_ISR))
  else del_event KMbox e opt k.

(** The result of a call that does not wait is the message and the error code. *)
(* @ uCOS-II/os_mbox.c:282-330 OSMboxPend *)
Definition OSMboxPend (e : nat) (timeout : Z) (k : kernel) : option (kernel * option (Z * Z)) :=
  ev ← OSEventTbl k !! e;
  if negb (OSEventType ev =? kind_type KMbox) then Some (k, Some (0, OS_ERR_EVENT_TYPE))
  else if 0 <? OSIntNesting k then Some (k, Some (0, OS_ERR_PEND_ISR))
  else if 0 <? OSLockNesting k then Some (k, Some (0, OS_ERR_PEND_LOCKED))
  else
    m ← mbox_msg ev;
    if negb (m =? 0) then Some (put_event e (ev_set_ptr (EvMsg 0) ev) k, Some (m, OS_ERR_NONE))
    else k ← pend_wait KMbox e timeout k; Some (k, None).
(* @ uCOS-II/os_mbox.c:331-359 OSMboxPend *)
Definition OSMboxPend_done (e : nat) (k : kernel) : option (kernel * (Z * Z)) := pend_done e k.

(* @ uCOS-II/os_mbox.c:394-446 OSMboxPendAbort *)
Definition OSMboxPendAbort (e : nat) (opt : Z) (k : kernel) : option (kernel * (Z * Z)) :=
  ev ← OSEventTbl k !! e;
  if negb (OSEventType ev =? kind_type KMbox) then Some (k, (0, OS_ERR_EVENT_TYPE))
  else abort_waiters KMbox e opt k.

(** Lines 581 to 587: nobody waits, so the message goes into the mailbox. *)
(* @ uCOS-II/os_mbox.c:581-587 OSMboxPostOpt *)
Definition mbox_put (e : nat) (ev : EVENT) (pmsg : Z) (k : kernel) : option (kernel * Z) :=
  m ← mbox_msg ev;
  if negb (m =? 0) then Some (k, OS_ERR_MBOX_FULL)
  else Some (put_event e (ev_set_ptr (EvMsg pmsg) ev) k, OS_ERR_NONE).

(* @ uCOS-II/os_mbox.c:473-508 OSMboxPost *)
Definition OSMboxPost (e : nat) (pmsg : Z) (k : kernel) : option (kernel * Z) :=
  ev ← OSEventTbl k !! e;
  if negb (OSEventType ev =? kind_type KMbox) then Some (k, OS_ERR_EVENT_TYPE)
  else if negb (p_grp (OSEventWait ev) =? 0) then
    '(k, _) ← OS_EventTaskRdy e pmsg (kind_stat KMbox) OS_STAT_PEND_OK k;
    k ← OS_Sched k; Some (k, OS_ERR_NONE)
  else mbox_put e ev pmsg k.

(** Lines 567 to 580 of [OSMboxPostOpt], and 749 to 762 of [OSQPostOpt]: there are waiters. *)
(* @ uCOS-II/os_q.c:749-762 OSQPostOpt *)
Definition post_opt_waiters (kd : evkind) (e : nat) (pmsg opt : Z) (k : kernel)
    : option (kernel * Z) :=
  '(k, _) ← (if negb (Z.land opt 1 =? 0)
             then ready_waiters e pmsg (kind_stat kd) OS_STAT_PEND_OK k
             else OS_EventTaskRdy e pmsg (kind_stat kd) OS_STAT_PEND_OK k);
  k ← (if Z.land opt 4 =? 0 then OS_Sched k else Some k);
  Some (k, OS_ERR_NONE).

(* @ uCOS-II/os_mbox.c:545-588 OSMboxPostOpt *)
Definition OSMboxPostOpt (e : nat) (pmsg opt : Z) (k : kernel) : option (kernel * Z) :=
  ev ← OSEventTbl k !! e;
  if negb (OSEventType ev =? kind_type KMbox) then Some (k, OS_ERR_EVENT_TYPE)
  else if negb (p_grp (OSEventWait ev) =? 0) then post_opt_waiters KMbox e pmsg opt k
  else mbox_put e ev pmsg k.

(** ** Queues *)

(** The queue block of an event. *)
Definition queue_of (ev : EVENT) (k : kernel) : option (nat * OS_Q) :=
  match OSEventPtr ev with
  | EvQ q => pq ← OSQTbl k !! q; Some (q, pq)
  | EvMsg _ => None
  end.

(** The oldest message: lines 91 to 95.  [None] reads outside the storage. *)
(* @ uCOS-II/os_q.c:91-95 OSQAccept *)
Definition q_take (pq : OS_Q) : option (OS_Q * Z) :=
  pmsg ← OSQBuf pq !! Z.to_nat (OSQOut pq);
  let out := OSQOut pq + 1 in
  Some (MkQ (OSQIn pq) (if out =? OSQSize pq then 0 else out) (OSQSize pq) (OSQEntries pq - 1)
          (OSQBuf pq), pmsg).

(** A store into the storage, in range. *)
Definition q_store (i m : Z) (buf : list Z) : option (list Z) :=
  if bool_decide (0 <= i < Z.of_nat (length buf)) then Some (<[Z.to_nat i := m]> buf) else None.

(** Lines 625 to 629, and 688 to 693. *)
(* @ uCOS-II/os_q.c:625-629 OSQPost *)
Definition q_put_back (pmsg : Z) (pq : OS_Q) : option OS_Q :=
  buf ← q_store (OSQIn pq) pmsg (OSQBuf pq);
  let i := OSQIn pq + 1 in
  Some (MkQ (if i =? OSQSize pq then 0 else i) (OSQOut pq) (OSQSize pq)
          (u16 (OSQEntries pq + 1)) buf).
(* @ uCOS-II/os_q.c:688-693 OSQPostFront *)
Definition q_put_front (pmsg : Z) (pq : OS_Q) : option OS_Q :=
  let o := if OSQOut pq =? 0 then OSQSize pq else OSQOut pq in
  let o := o - 1 in
  buf ← q_store o pmsg (OSQBuf pq);
  Some (MkQ (OSQIn pq) o (OSQSize pq) (u16 (OSQEntries pq + 1)) buf).

(** The message and the error code. *)
(* @ uCOS-II/os_q.c:61-103 OSQAccept *)
Definition OSQAccept (e : nat) (k : kernel) : option (kernel * (Z * Z)) :=
  ev ← OSEventTbl k !! e;
  if negb (OSEventType ev =? kind_type KQ) then Some (k, (0, OS_ERR_EVENT_TYPE))
  else
    '(q, pq) ← queue_of ev k;
    if 0 <? OSQEntries pq then
      '(pq, pmsg) ← q_take pq; Some (put_queue q pq k, (pmsg, OS_ERR_NONE))
    else Some (k, (0, OS_ERR_Q_EMPTY)).

(** [start] is the caller's array of [size] pointers, whose contents are [buf]. *)
(* @ uCOS-II/os_q.c:125-178 OSQCreate *)
Definition OSQCreate (buf : list Z) (size : Z) (k : kernel) : option (kernel * option nat) :=
  if 0 <? OSIntNesting k then Some (k, None)
  else
    let '(k, pevent) := get_event k in
    match pevent with
    | None => Some (k, None)
    | Some e =>
      match OSQFreeList k with
      | q :: l =>
        let k := set_qfree l k in
        let k := put_queue q (MkQ 0 0 size 0 buf) k in
        Some (put_event e (MkEVENT (kind_type KQ) 0 (EvQ q) p_empty) k, Some e)
      | [] => Some (set_evfree (e :: OSEventFreeList k) k, None)
      end
    end.

(* @ uCOS-II/os_q.c:222-313 OSQDel *)
Definition OSQDel (e : nat) (opt : Z) (k : kernel) : option (kernel * (option nat * Z)) :=
  ev ← OSEventTbl k !! e;
  if negb (OSEventType ev =? kind_type KQ) then Some (k, (Some e, OS_ERR_EVENT_TYPE))
  else if 0 <? OSIntNesting k then Some (k, (Some e, OS_ERR_DEL_ISR))
  else del_event KQ e opt k.

(** The type is not checked in this configuration. *)
(* @ uCOS-II/os_q.c:337-361 OSQFlush *)
Definition OSQFlush (e : nat) (k : kernel) : option (kernel * Z) :=
  ev ← OSEventTbl k !! e;
  '(q, pq) ← queue_of ev k;
  Some (put_queue q (MkQ 0 0 (OSQSize pq) 0 (OSQBuf pq)) k, OS_ERR_NONE).

(* @ uCOS-II/os_q.c:401-454 OSQPend *)
Definition OSQPend (e : nat) (timeout : Z) (k : kernel) : option (kernel * option (Z * Z)) :=
  ev ← OSEventTbl k !! e;
  if negb (OSEventType ev =? kind_type KQ) then Some (k, Some (0, OS_ERR_EVENT_TYPE))
  else if 0 <? OSIntNesting k then Some (k, Some (0, OS_ERR_PEND_ISR))
  else if 0 <? OSLockNesting k then Some (k, Some (0, OS_ERR_PEND_LOCKED))
  else
    '(q, pq) ← queue_of ev k;
    if 0 <? OSQEntries pq then
      '(pq, pmsg) ← q_take pq; Some (put_queue q pq k, Some (pmsg, OS_ERR_NONE))
    else k ← pend_wait KQ e timeout k; Some (k, None).
(* @ uCOS-II/os_q.c:455-483 OSQPend *)
Definition OSQPend_done (e : nat) (k : kernel) : option (kernel * (Z * Z)) := pend_done e k.

(* @ uCOS-II/os_q.c:518-570 OSQPendAbort *)
Definition OSQPendAbort (e : nat) (opt : Z) (k : kernel) : option (kernel * (Z * Z)) :=
  ev ← OSEventTbl k !! e;
  if negb (OSEventType ev =? kind_type KQ) then Some (k, (0, OS_ERR_EVENT_TYPE))
  else abort_waiters KQ e opt k.

(** Nobody waits: the queue is full, or the message goes to its back or front. *)
(* @ uCOS-II/os_q.c:763-782 OSQPostOpt *)
Definition q_put (front : bool) (ev : EVENT) (pmsg : Z) (k : kernel) : option (kernel * Z) :=
  '(q, pq) ← queue_of ev k;
  if OSQSize pq <=? OSQEntries pq then Some (k, OS_ERR_Q_FULL)
  else pq ← (if front then q_put_front pmsg pq else q_put_back pmsg pq);
       Some (put_queue q pq k, OS_ERR_NONE).

(** [OSQPost] and [OSQPostFront] differ in the end of the queue they use. *)
Definition q_post (front : bool) (e : nat) (pmsg : Z) (k : kernel) : option (kernel * Z) :=
  ev ← OSEventTbl k !! e;
  if negb (OSEventType ev =? kind_type KQ) then Some (k, OS_ERR_EVENT_TYPE)
  else if negb (p_grp (OSEventWait ev) =? 0) then
    '(k, _) ← OS_EventTaskRdy e pmsg (kind_stat KQ) OS_STAT_PEND_OK k;
    k ← OS_Sched k; Some (k, OS_ERR_NONE)
  else q_put front ev pmsg k.
(* @ uCOS-II/os_q.c:594-632 OSQPost *)
Definition OSQPost : nat → Z → kernel → option (kernel * Z) := q_post false.
(* @ uCOS-II/os_q.c:657-696 OSQPostFront *)
Definition OSQPostFront : nat → Z → kernel → option (kernel * Z) := q_post true.

(* @ uCOS-II/os_q.c:729-783 OSQPostOpt *)
Definition OSQPostOpt (e : nat) (pmsg opt : Z) (k : kernel) : option (kernel * Z) :=
  ev ← OSEventTbl k !! e;
  if negb (OSEventType ev =? kind_type KQ) then Some (k, OS_ERR_EVENT_TYPE)
  else if negb (p_grp (OSEventWait ev) =? 0) then post_opt_waiters KQ e pmsg opt k
  else q_put (negb (Z.land opt 2 =? 0)) ev pmsg k.
