(* ===== verification/KInv.v ===== *)
(** * The invariant of the kernel

    [tasks_ok]: the ready list holds exactly the tasks whose status is [OS_STAT_RDY] and
    whose delay is over; a task is in the wait list of an event only while it is inside a
    call that waits for that event, and every task with a pending bit is in one.
    [events_ok]: control blocks are free or in use, and an event that has something to give
    has nobody waiting.  [list_ok]: the chain of TCBs is the set of tasks and ends at the idle
    task.  [sched_ok]: the running task is the first of the ready list, except inside
    interrupts and while the scheduler is locked.

    A call changes one task at a time, so most steps go through [tasks_ok_update]; the
    steps that leave [in_pend] and the set of tasks alone are related by [frame]. *)
From S2P Require Import Prelude PrioTab Kernel KEvent.

(** ** Statuses *)

(** The status values a task can have: a pending bit or none, with or without suspension. *)
Definition stat_ok (s : Z) : Prop :=
  s = 0 ∨ s = 1 ∨ s = 2 ∨ s = 4 ∨ s = 8 ∨ s = 9 ∨ s = 10 ∨ s = 12.
Definition pend_bits (t : TCB) : Z := Z.land (OSTCBStat t) OS_STAT_PEND_ANY.
Definition runnable (t : TCB) : Prop := OSTCBStat t = OS_STAT_RDY ∧ OSTCBDly t = 0.

#[export] Instance runnable_dec t : Decision (runnable t).
Proof. unfold runnable. apply _. Defined.

(** Split a status into its eight cases and evaluate. *)
Ltac stat_cases H :=
  repeat match type of H with _ ∨ _ => destruct H as [H|H] end; subst;
  vm_compute; intuition (congruence || lia).

Lemma stat_timeout s : stat_ok s → let s' := Z.land s (u8 (Z.lnot OS_STAT_PEND_ANY)) in
  stat_ok s' ∧ Z.land s' OS_STAT_PEND_ANY = 0 ∧ (Z.land s' OS_STAT_SUSPEND = 0 ↔ s' = 0).
Proof. intros H. unfold stat_ok in H. stat_cases H. Qed.
Lemma stat_timeout' s : stat_ok s →
  u8 (Z.land s (Z.lnot OS_STAT_PEND_ANY)) = Z.land s (u8 (Z.lnot OS_STAT_PEND_ANY)).
Proof. intros H. unfold stat_ok in H. stat_cases H. Qed.
Lemma stat_no_pend s : stat_ok s → Z.land s OS_STAT_PEND_ANY = 0 →
  (Z.land s OS_STAT_SUSPEND = 0 ↔ s = 0).
Proof. intros H. unfold stat_ok in H. stat_cases H. Qed.
Lemma stat_post s kd : stat_ok s →
  Z.land s OS_STAT_PEND_ANY = 0 ∨ Z.land s OS_STAT_PEND_ANY = kind_stat kd →
  let s' := Z.land s (u8 (Z.lnot (kind_stat kd))) in
  stat_ok s' ∧ Z.land s' OS_STAT_PEND_ANY = 0 ∧ (Z.land s' OS_STAT_SUSPEND = 0 ↔ s' = 0).
Proof. intros H. unfold stat_ok in H. destruct kd; stat_cases H. Qed.
Lemma stat_suspend s : stat_ok s → let s' := Z.lor s OS_STAT_SUSPEND in
  stat_ok s' ∧ Z.land s' OS_STAT_PEND_ANY = Z.land s OS_STAT_PEND_ANY ∧ s' ≠ 0.
Proof. intros H. unfold stat_ok in H. stat_cases H. Qed.
Lemma stat_resume s : stat_ok s → let s' := Z.land s (u8 (Z.lnot OS_STAT_SUSPEND)) in
  stat_ok s' ∧ Z.land s' OS_STAT_PEND_ANY = Z.land s OS_STAT_PEND_ANY.
Proof. intros H. unfold stat_ok in H. stat_cases H. Qed.
Lemma kind_stat_pos kd : kind_stat kd ≠ 0.
Proof. by destruct kd. Qed.
Lemma kind_type_inj kd kd' : kind_type kd = kind_type kd' → kd = kd'.
Proof. by destruct kd, kd'. Qed.
Lemma kind_type_used kd : kind_type kd ≠ OS_EVENT_TYPE_UNUSED.
Proof. by destruct kd. Qed.

(** ** Tasks *)

(** What the event table says of the task with priority [p]. *)
Record task_ok (evs : list EVENT) (p : Z) (t : TCB) : Prop := {
  tk_range : 0 <= p < 64;
  tk_stat : stat_ok (OSTCBStat t);
  tk_dly : is_u32 (OSTCBDly t);
  tk_evptr : ∀ e, OSTCBEventPtr t = Some e → (e < length evs)%nat;
  tk_call : ∀ kd e, in_pend t = Some (kd, e) → (e < length evs)%nat;
  tk_listed : ∀ e ev, evs !! e = Some ev → p_mem (OSEventWait ev) p = true →
    OSTCBEventPtr t = Some e ∧
    ∃ kd, in_pend t = Some (kd, e) ∧ OSEventType ev = kind_type kd ∧
      (pend_bits t = kind_stat kd ∨
       pend_bits t = 0 ∧ OSTCBStatPend t = OS_STAT_PEND_TO ∧ OSTCBDly t = 0);
  tk_pending : pend_bits t ≠ 0 → ∃ kd e ev,
    OSTCBEventPtr t = Some e ∧ in_pend t = Some (kd, e) ∧ pend_bits t = kind_stat kd ∧
    evs !! e = Some ev ∧ p_mem (OSEventWait ev) p = true }.

Record tasks_ok (rdy : ptab) (tcbs : gmap Z (option TCB)) (evs : list EVENT) : Prop := {
  ts_rdy_wf : p_wf rdy;
  ts_ev_wf : ∀ e ev, evs !! e = Some ev → p_wf (OSEventWait ev);
  ts_real : ∀ p, tcbs !! p ≠ Some None;
  ts_task : ∀ p t, tcb_of tcbs p = Some t → task_ok evs p t;
  ts_ready : ∀ p, p_mem rdy p = true ↔ ∃ t, tcb_of tcbs p = Some t ∧ runnable t;
  ts_waiters : ∀ e ev p, evs !! e = Some ev → p_mem (OSEventWait ev) p = true →
    ∃ t, tcb_of tcbs p = Some t;
  ts_idle : ∃ t, tcb_of tcbs OS_TASK_IDLE_PRIO = Some t ∧ runnable t ∧ in_pend t = None }.

(** The chain of TCBs. *)
Record list_ok (tcbs : gmap Z (option TCB)) (l : list Z) : Prop := {
  ls_nodup : NoDup l;
  ls_tasks : ∀ p, p ∈ l ↔ is_Some (tcb_of tcbs p);
  ls_last : last l = Some OS_TASK_IDLE_PRIO }.

(** ** Events and queues *)

(** [OSQIn] and [OSQOut] delimit [OSQEntries] entries of a ring. *)
Definition q_ok (pq : OS_Q) : Prop :=
  0 <= OSQSize pq < 2 ^ 16 ∧ Z.of_nat (length (OSQBuf pq)) = OSQSize pq ∧
  0 <= OSQEntries pq <= OSQSize pq ∧
  (0 < OSQSize pq → 0 <= OSQOut pq < OSQSize pq ∧
     OSQIn pq = (OSQOut pq + OSQEntries pq) mod OSQSize pq).

(** An event has something to give: a count, a message, an entry. *)
Definition ev_avail (qs : list OS_Q) (ev : EVENT) : bool :=
  if OSEventType ev =? kind_type KSem then 0 <? OSEventCnt ev
  else match OSEventPtr ev with
       | EvMsg m => (OSEventType ev =? kind_type KMbox) && negb (m =? 0)
       | EvQ q => (OSEventType ev =? kind_type KQ) &&
                  match qs !! q with Some pq => 0 <? OSQEntries pq | None => false end
       end.

(** A control block in use has the contents of its kind. *)
Definition ev_typed (qs : list OS_Q) (qfree : list nat) (ev : EVENT) : Prop :=
  OSEventType ev = OS_EVENT_TYPE_UNUSED ∨
  (OSEventType ev = kind_type KSem ∧ 0 <= OSEventCnt ev <= 65535) ∨
  (OSEventType ev = kind_type KMbox ∧ ∃ m, OSEventPtr ev = EvMsg m) ∨
  (OSEventType ev = kind_type KQ ∧
   ∃ q pq, OSEventPtr ev = EvQ q ∧ qs !! q = Some pq ∧ q_ok pq ∧ q ∉ qfree).

Record events_ok (evs : list EVENT) (efree : list nat) (qs : list OS_Q) (qfree : list nat)
    : Prop := {
  es_free_nodup : NoDup efree;
  es_free : ∀ e, e ∈ efree → ∃ ev, evs !! e = Some ev ∧ OSEventType ev = OS_EVENT_TYPE_UNUSED;
  es_typed : ∀ e ev, evs !! e = Some ev → ev_typed qs qfree ev;
  es_idle : ∀ e ev, evs !! e = Some ev → ev_avail qs ev = true → p_grp (OSEventWait ev) = 0;
  es_own : ∀ e e' ev ev' q, evs !! e = Some ev → evs !! e' = Some ev' →
    OSEventType ev = kind_type KQ → OSEventType ev' = kind_type KQ →
    OSEventPtr ev = EvQ q → OSEventPtr ev' = EvQ q → e = e';
  es_qfree_nodup : NoDup qfree;
  es_qfree : ∀ q, q ∈ qfree → (q < length qs)%nat }.

(** ** The whole state *)

Definition kinv0 (k : kernel) : Prop :=
  tasks_ok (OSRdy k) (OSTCBPrioTbl k) (OSEventTbl k) ∧
  list_ok (OSTCBPrioTbl k) (OSTCBList k) ∧
  events_ok (OSEventTbl k) (OSEventFreeList k) (OSQTbl k) (OSQFreeList k).

(** Before the scheduler runs: the counters are in range, and whoever may go on running is a
    task, outside any waiting call if the scheduler is locked. *)
Definition sched_pre (k : kernel) : Prop :=
  0 <= OSIntNesting k <= 255 ∧ 0 <= OSLockNesting k <= 255 ∧
  (OSIntNesting k = 0 ∧ OSLockNesting k = 0 ∨
   ∃ t, tcb_at k (OSPrioCur k) = Some t ∧ (0 < OSLockNesting k → in_pend t = None)).

Definition sched_ok (k : kernel) : Prop :=
  if OSRunning k then
    sched_pre k ∧
    (∃ t, tcb_at k (OSPrioCur k) = Some t) ∧
    (OSIntNesting k = 0 → OSLockNesting k = 0 → OSPrioCur k = p_first (OSRdy k))
  else OSIntNesting k = 0 ∧ OSLockNesting k = 0.

Definition kinv (k : kernel) : Prop := kinv0 k ∧ sched_ok k.

(** ** Lookups *)

Lemma tcb_of_insert tcbs p t q :
  tcb_of (<[p := Some t]> tcbs) q = if decide (q = p) then Some t else tcb_of tcbs q.
Proof.
  unfold tcb_of. destruct (decide (q = p)) as [->|].
  - by rewrite lookup_insert_eq.
  - by rewrite lookup_insert_ne.
Qed.
Lemma tcb_of_insert_eq tcbs p t : tcb_of (<[p := Some t]> tcbs) p = Some t.
Proof. rewrite tcb_of_insert. by rewrite decide_True. Qed.
Lemma tcb_of_insert_ne tcbs p t q : q ≠ p → tcb_of (<[p := Some t]> tcbs) q = tcb_of tcbs q.
Proof. intros. rewrite tcb_of_insert. by rewrite decide_False. Qed.
Lemma tcb_of_real tcbs p t : tcb_of tcbs p = Some t → tcbs !! p = Some (Some t).
Proof. unfold tcb_of. destruct (tcbs !! p) as [[?|]|]; cbn; congruence. Qed.
Lemma tasks_real rdy tcbs evs p : tasks_ok rdy tcbs evs →
  tcbs !! p = None ∧ tcb_of tcbs p = None ∨ ∃ t, tcbs !! p = Some (Some t) ∧ tcb_of tcbs p = Some t.
Proof.
  intros H. unfold tcb_of. destruct (tcbs !! p) as [[t|]|] eqn:E; cbn; [|exfalso|].
  - right. eauto.
  - by eapply ts_real.
  - by left.
Qed.

(** A task that is in a wait list is not runnable on its own account, unless it timed out;
    the task of a [task_ok] without pending bit and not timed out is in no list. *)
Lemma not_listed evs p t e ev : task_ok evs p t → evs !! e = Some ev →
  pend_bits t = 0 → OSTCBStatPend t ≠ OS_STAT_PEND_TO → p_mem (OSEventWait ev) p = false.
Proof.
  intros Ht He Hb Hs. destruct (p_mem _ p) eqn:E; [|done].
  destruct (tk_listed _ _ _ Ht e ev He E) as (_ & kd & _ & _ & [Hk|(_ & H' & _)]); [|done].
  rewrite Hb in Hk. by destruct kd.
Qed.

(** ** Changing one task *)

(** Two event tables agree on every task but [p]. *)
Definition evs_agree (p : Z) (evs evs' : list EVENT) : Prop :=
  length evs' = length evs ∧
  ∀ e ev', evs' !! e = Some ev' → p_wf (OSEventWait ev') ∧ ∃ ev, evs !! e = Some ev ∧
    OSEventType ev' = OSEventType ev ∧
    ∀ q, q ≠ p → p_mem (OSEventWait ev') q = p_mem (OSEventWait ev) q.

Lemma evs_agree_refl p rdy tcbs evs : tasks_ok rdy tcbs evs → evs_agree p evs evs.
Proof. intros H. split; [done|]. intros e ev He. split; [by eapply ts_ev_wf|]. eauto. Qed.

(** Replacing the wait list of one event by one that differs at [p] only. *)
Lemma evs_agree_wait p rdy tcbs evs e ev w : tasks_ok rdy tcbs evs → evs !! e = Some ev →
  p_wf w → (∀ q, q ≠ p → p_mem w q = p_mem (OSEventWait ev) q) →
  evs_agree p evs (<[e := ev_set_wait w ev]> evs).
Proof.
  intros H He Hw Hq. split; [by rewrite length_insert|]. intros e' ev' He'.
  destruct (decide (e' = e)) as [->|].
  - rewrite list_lookup_insert_eq in He' by (by eapply lookup_lt_Some). simplify_eq. eauto.
  - rewrite list_lookup_insert_ne in He' by done. split; [by eapply ts_ev_wf|]. eauto.
Qed.
Lemma evs_agree_lookup p evs evs' e ev : evs_agree p evs evs' → evs !! e = Some ev →
  ∃ ev', evs' !! e = Some ev' ∧ OSEventType ev' = OSEventType ev ∧
    ∀ q, q ≠ p → p_mem (OSEventWait ev') q = p_mem (OSEventWait ev) q.
Proof.
  intros [Hl Ha] He. destruct (lookup_lt_is_Some_2 evs' e) as [ev' He'].
  { rewrite Hl. by eapply lookup_lt_Some. }
  destruct (Ha _ _ He') as (_ & ev0 & He0 & ? & ?). simplify_eq. eauto.
Qed.
Lemma task_ok_agree p evs evs' q t : evs_agree p evs evs' → q ≠ p →
  task_ok evs q t → task_ok evs' q t.
Proof.
  intros Ha Hne [H1 H2 H3 H4 H5 H6 H7]. split; try done; destruct Ha as [Hl Ha]; rewrite ?Hl; auto.
  - intros e ev' He' Hm. destruct (Ha _ _ He') as (_ & ev & He & Hty & Hq).
    rewrite Hq in Hm by done. rewrite Hty. eauto.
  - intros Hb. destruct (H7 Hb) as (kd & e & ev & ? & ? & ? & He & Hm).
    destruct (evs_agree_lookup p evs evs' e ev (conj Hl Ha) He) as (ev' & He' & _ & Hq).
    exists kd, e, ev'. rewrite Hq; auto.
Qed.

Lemma tasks_ok_update rdy tcbs evs rdy' evs' p t t' :
  tasks_ok rdy tcbs evs → tcb_of tcbs p = Some t →
  p_wf rdy' → (∀ q, q ≠ p → p_mem rdy' q = p_mem rdy q) →
  (p_mem rdy' p = true ↔ runnable t') →
  evs_agree p evs evs' → task_ok evs' p t' →
  (p = OS_TASK_IDLE_PRIO → runnable t' ∧ in_pend t' = None) →
  tasks_ok rdy' (<[p := Some t']> tcbs) evs'.
Proof.
  intros H Hp Hw Hq Hrp Ha Ht' Hidle. split.
  - done.
  - intros e ev' He'. by eapply Ha.
  - intros q Hq'. apply (ts_real _ _ _ H q). destruct (decide (q = p)) as [->|].
    + by rewrite lookup_insert_eq in Hq'.
    + by rewrite lookup_insert_ne in Hq'.
  - intros q tq. rewrite tcb_of_insert. destruct (decide (q = p)) as [->|]; [by intros [= <-]|].
    intros Htq. eapply task_ok_agree; [done..|]. by eapply ts_task.
  - intros q. rewrite tcb_of_insert. destruct (decide (q = p)) as [->|].
    + rewrite Hrp. split; [eauto|]. by intros (? & [= <-] & ?).
    + rewrite Hq by done. by apply ts_ready with evs.
  - intros e ev' q He' Hm. rewrite tcb_of_insert. destruct (decide (q = p)); [eauto|].
    destruct Ha as [Hl Ha]. destruct (Ha _ _ He') as (_ & ev & He & _ & Hm').
    rewrite Hm' in Hm by done. by eapply ts_waiters.
  - rewrite tcb_of_insert. destruct (decide (OS_TASK_IDLE_PRIO = p)) as [E|].
    + exists t'. destruct Hidle; auto.
    + by eapply ts_idle.
Qed.

(** The ready list after [make_ready] and [make_unready]. *)
Lemma rdy_set_other rdy p q : p_wf rdy → 0 <= p < 64 → q ≠ p →
  p_mem (p_set rdy p) q = p_mem rdy q.
Proof.
  intros. rewrite p_mem_set by done. destruct (Z.eqb_spec q p); [done|]. apply orb_false_r.
Qed.
Lemma rdy_set_same rdy p : p_wf rdy → 0 <= p < 64 → p_mem (p_set rdy p) p = true.
Proof. intros. rewrite p_mem_set, Z.eqb_refl by done. apply orb_true_r. Qed.
Lemma rdy_clear_other rdy p q : p_wf rdy → 0 <= p < 64 → q ≠ p →
  p_mem (p_clear rdy p) q = p_mem rdy q.
Proof.
  intros. rewrite p_mem_clear by done. destruct (Z.eqb_spec q p); [done|]. apply andb_true_r.
Qed.
Lemma rdy_clear_same rdy p : p_wf rdy → 0 <= p < 64 → p_mem (p_clear rdy p) p = false.
Proof. intros. rewrite p_mem_clear, Z.eqb_refl by done. apply andb_false_r. Qed.

(** A new event table with the same types and wait lists. *)
Lemma tasks_ok_evs rdy tcbs evs e ev ev' : tasks_ok rdy tcbs evs → evs !! e = Some ev →
  OSEventType ev' = OSEventType ev → OSEventWait ev' = OSEventWait ev →
  tasks_ok rdy tcbs (<[e := ev']> evs).
Proof.
  intros H He Hty Hw.
  assert (Hlk : ∀ e1 ev1, <[e := ev']> evs !! e1 = Some ev1 → ∃ ev0, evs !! e1 = Some ev0 ∧
    OSEventType ev1 = OSEventType ev0 ∧ OSEventWait ev1 = OSEventWait ev0).
  { intros e1 ev1. destruct (decide (e1 = e)) as [->|].
    - rewrite list_lookup_insert_eq by (by eapply lookup_lt_Some). intros [= <-]. eauto.
    - rewrite list_lookup_insert_ne by done. eauto. }
  assert (Hlk' : ∀ e1 ev0, evs !! e1 = Some ev0 → ∃ ev1, <[e := ev']> evs !! e1 = Some ev1 ∧
    OSEventWait ev1 = OSEventWait ev0).
  { intros e1 ev0 He0. destruct (decide (e1 = e)) as [->|].
    - rewrite list_lookup_insert_eq by (by eapply lookup_lt_Some). simplify_eq. eauto.
    - rewrite list_lookup_insert_ne by done. eauto. }
  destruct H as [H1 H2 H3 H4 H5 H6 H7]. split; try done.
  - intros e1 ev1 H. destruct (Hlk _ _ H) as (ev0 & ? & _ & ->). eauto.
  - intros p t Hp. destruct (H4 p t Hp) as [K1 K2 K3 K4 K5 K6 K7].
    split; rewrite ?length_insert; try done.
    + intros e1 ev1 H Hm. destruct (Hlk _ _ H) as (ev0 & ? & -> & E). rewrite E in Hm. eauto.
    + intros Hb. destruct (K7 Hb) as (kd & e1 & ev0 & ? & ? & ? & He0 & Hm).
      destruct (Hlk' _ _ He0) as (ev1 & ? & E). exists kd, e1, ev1. rewrite E. auto.
  - intros e1 ev1 p H Hm. destruct (Hlk _ _ H) as (ev0 & ? & _ & E). rewrite E in Hm. eauto.
Qed.

(** An event with nobody waiting may change its type, if its new wait list is empty. *)
Lemma tasks_ok_retype rdy tcbs evs e ev ev' : tasks_ok rdy tcbs evs → evs !! e = Some ev →
  p_grp (OSEventWait ev) = 0 → p_wf (OSEventWait ev') → p_grp (OSEventWait ev') = 0 →
  tasks_ok rdy tcbs (<[e := ev']> evs).
Proof.
  intros H He Hg Hw' Hg'.
  assert (Hn : ∀ p, p_mem (OSEventWait ev) p = false).
  { apply p_grp_zero; [by eapply ts_ev_wf | done]. }
  assert (Hn' : ∀ p, p_mem (OSEventWait ev') p = false) by (by apply p_grp_zero).
  assert (Hlk : ∀ e1 ev1, <[e := ev']> evs !! e1 = Some ev1 →
    e1 = e ∧ ev1 = ev' ∨ e1 ≠ e ∧ evs !! e1 = Some ev1).
  { intros e1 ev1. destruct (decide (e1 = e)) as [->|].
    - rewrite list_lookup_insert_eq by (by eapply lookup_lt_Some). intros [= <-]. eauto.
    - rewrite list_lookup_insert_ne by done. eauto. }
  destruct H as [H1 H2 H3 H4 H5 H6 H7]. split; try done.
  - intros e1 ev1 H. destruct (Hlk _ _ H) as [[-> ->]|[_ ?]]; eauto.
  - intros p t Hp. destruct (H4 p t Hp) as [K1 K2 K3 K4 K5 K6 K7].
    split; rewrite ?length_insert; try done.
    + intros e1 ev1 H Hm. destruct (Hlk _ _ H) as [[-> ->]|[_ ?]]; [|eauto].
      by rewrite Hn' in Hm.
    + intros Hb. destruct (K7 Hb) as (kd & e1 & ev0 & ? & ? & ? & He0 & Hm).
      destruct (decide (e1 = e)) as [->|]; [simplify_eq; by rewrite Hn in Hm|].
      exists kd, e1, ev0. rewrite list_lookup_insert_ne by done. auto.
  - intros e1 ev1 p H Hm. destruct (Hlk _ _ H) as [[-> ->]|[_ ?]]; [|eauto].
    by rewrite Hn' in Hm.
Qed.

(** ** Changing events and queues *)

Lemma insert_lookup_cases {A} (l : list A) i x j y : <[i := x]> l !! j = Some y →
  j = i ∧ y = x ∧ is_Some (l !! i) ∨ j ≠ i ∧ l !! j = Some y.
Proof.
  intros H. destruct (decide (j = i)) as [->|].
  - left. apply list_lookup_insert_Some in H as [(_ & -> & Hl)|[]]; [|done].
    split_and!; [done..|]. by apply lookup_lt_is_Some.
  - right. by rewrite list_lookup_insert_ne in H.
Qed.

(** A control block whose contents change. *)
Lemma events_ok_put evs efree qs qfree e ev ev' : events_ok evs efree qs qfree →
  evs !! e = Some ev → ev_typed qs qfree ev' →
  (ev_avail qs ev' = true → p_grp (OSEventWait ev') = 0) →
  (OSEventType ev' = kind_type KQ → OSEventType ev = kind_type KQ ∧ OSEventPtr ev' = OSEventPtr ev) →
  (OSEventType ev ≠ OS_EVENT_TYPE_UNUSED ∨ OSEventType ev' = OS_EVENT_TYPE_UNUSED) →
  events_ok (<[e := ev']> evs) efree qs qfree.
Proof.
  intros [H1 H2 H3 H4 H5 H6 H7] He Hty Hid Hq Hu. split; try done.
  - intros e1 He1. destruct (H2 _ He1) as (ev1 & Hev1 & Hun). destruct (decide (e1 = e)) as [->|].
    + simplify_eq. exists ev'. rewrite list_lookup_insert_eq by (by eapply lookup_lt_Some).
      destruct Hu; naive_solver.
    + exists ev1. by rewrite list_lookup_insert_ne.
  - intros e1 ev1 H. apply insert_lookup_cases in H as [(-> & -> & _)|[_ H]]; eauto.
  - intros e1 ev1 H. apply insert_lookup_cases in H as [(-> & -> & _)|[_ H]]; eauto.
  - intros e1 e2 ev1 ev2 q Ha Hb T1 T2 P1 P2.
    apply insert_lookup_cases in Ha as [(-> & -> & _)|[? Ha]],
      Hb as [(-> & -> & _)|[? Hb]]; try done.
    + destruct (Hq T1) as [? E]. rewrite E in P1. eauto.
    + destruct (Hq T2) as [? E]. rewrite E in P2. eauto.
    + eauto.
Qed.
Lemma events_ok_wait evs efree qs qfree e ev w : events_ok evs efree qs qfree →
  evs !! e = Some ev → (ev_avail qs ev = true → p_grp w = 0) →
  events_ok (<[e := ev_set_wait w ev]> evs) efree qs qfree.
Proof.
  intros H He Hw. eapply events_ok_put; try done.
  - by apply (es_typed _ _ _ _ H e ev).
  - destruct (decide (OSEventType ev = OS_EVENT_TYPE_UNUSED)); auto.
Qed.

(** The queue of an event whose contents change. *)
Lemma events_ok_queue evs efree qs qfree e ev q pq pq' : events_ok evs efree qs qfree →
  evs !! e = Some ev → OSEventType ev = kind_type KQ → OSEventPtr ev = EvQ q →
  qs !! q = Some pq → q_ok pq' → (0 < OSQEntries pq' → p_grp (OSEventWait ev) = 0) →
  events_ok evs efree (<[q := pq']> qs) qfree.
Proof.
  intros [H1 H2 H3 H4 H5 H6 H7] He Hty Hp Hq Hok Hid. split; try done.
  - intros e1 ev1 He1. destruct (H3 _ _ He1) as [?|[?|[?|(T & q1 & pq1 & P & Q & O & F)]]];
      [by left | by right; left | by right; right; left |].
    right. right. right. split; [done|].
    destruct (decide (q1 = q)) as [->|].
    + exists q, pq'. rewrite list_lookup_insert_eq by (by eapply lookup_lt_Some). done.
    + exists q1, pq1. by rewrite list_lookup_insert_ne.
  - intros e1 ev1 He1 Hav. destruct (decide (OSEventType ev1 = kind_type KQ ∧ OSEventPtr ev1 = EvQ q))
      as [[T P]|Hn].
    + assert (e1 = e) as -> by (by eapply H5). simplify_eq.
      unfold ev_avail in Hav. rewrite T, P, list_lookup_insert_eq in Hav by (by eapply lookup_lt_Some).
      cbn in Hav. apply Hid. lia.
    + apply (H4 e1); [done|]. revert Hav. unfold ev_avail. case_match; [done|].
      destruct (OSEventPtr ev1) as [|q1] eqn:P; [done|].
      destruct (Z.eqb_spec (OSEventType ev1) (kind_type KQ)); [|done].
      rewrite list_lookup_insert_ne; [done|]. naive_solver.
  - intros q1 Hq1. rewrite length_insert. auto.
Qed.

(** ** Steps that keep the set of tasks and their calls *)

Record frame (k k' : kernel) : Prop := {
  fr_running : OSRunning k' = OSRunning k;
  fr_nesting : OSIntNesting k' = OSIntNesting k;
  fr_lock : OSLockNesting k' = OSLockNesting k;
  fr_cur : OSPrioCur k' = OSPrioCur k;
  fr_list : OSTCBList k' = OSTCBList k;
  fr_calls : ∀ p, in_pend <$> tcb_at k' p = in_pend <$> tcb_at k p }.

#[export] Instance frame_preorder : PreOrder frame.
Proof.
  split.
  - by intros k.
  - intros k1 k2 k3 [] []. split; try congruence.
Qed.
Lemma frame_task k k' p t : frame k k' → tcb_at k p = Some t →
  ∃ t', tcb_at k' p = Some t' ∧ in_pend t' = in_pend t.
Proof.
  intros Hf Hp. pose proof (fr_calls _ _ Hf p) as H. rewrite Hp in H.
  destruct (tcb_at k' p) as [t'|]; cbn in H; [|done]. exists t'. split; congruence.
Qed.
Lemma frame_sched_pre k k' : frame k k' → sched_pre k → sched_pre k'.
Proof.
  intros Hf (Hn & Hl & Hc). unfold sched_pre.
  rewrite (fr_nesting _ _ Hf), (fr_lock _ _ Hf), (fr_cur _ _ Hf). split_and!; try lia.
  destruct Hc as [?|(t & Ht & Hp)]; [by left|]. right.
  destruct (frame_task _ _ _ _ Hf Ht) as (t' & ? & E). exists t'. by rewrite E.
Qed.
Lemma frame_list_ok k k' : frame k k' → list_ok (OSTCBPrioTbl k) (OSTCBList k) →
  list_ok (OSTCBPrioTbl k') (OSTCBList k').
Proof.
  intros Hf [H1 H2 H3]. rewrite (fr_list _ _ Hf). split; try done.
  intros p. rewrite H2. pose proof (fr_calls _ _ Hf p) as H. unfold tcb_at in H.
  rewrite <- (fmap_is_Some in_pend (tcb_of (OSTCBPrioTbl k) p)), <- H. by rewrite fmap_is_Some.
Qed.

(** Writing back a TCB with the same call. *)
Lemma frame_put k p t t' : tcb_at k p = Some t → in_pend t' = in_pend t →
  frame k (put_tcb p t' k).
Proof.
  intros Hp E. split; try done. intros q. unfold tcb_at, put_tcb. cbn.
  rewrite tcb_of_insert. case_decide; [subst|done]. unfold tcb_at in Hp. rewrite Hp. cbn. by rewrite E.
Qed.

(** ** Readying a waiter *)

(** The TCB [OS_EventTaskRdy] leaves. *)
Definition readied (pmsg msk st : Z) (t : TCB) : TCB :=
  MkTCB (Z.land (OSTCBStat t) (u8 (Z.lnot msk))) st 0 (OSTCBEventPtr t) pmsg (OSTCBCtxSwCtr t)
    (in_pend t).

Lemma readied_task_ok evs e ev kd p t pmsg st : task_ok evs p t → evs !! e = Some ev →
  p_wf (OSEventWait ev) → p_mem (OSEventWait ev) p = true → OSEventType ev = kind_type kd →
  stat_ok (OSTCBStat (readied pmsg (kind_stat kd) st t)) →
  Z.land (OSTCBStat (readied pmsg (kind_stat kd) st t)) OS_STAT_PEND_ANY = 0 →
  task_ok (<[e := OS_EventTaskRemove p ev]> evs) p (readied pmsg (kind_stat kd) st t).
Proof.
  intros Hok Hev Hw Hp Hty S1 S2. pose proof (tk_range _ _ _ Hok).
  destruct (tk_listed _ _ _ Hok e ev Hev Hp) as (Hptr & _).
  split; rewrite ?length_insert; cbn [readied OSTCBDly OSTCBEventPtr in_pend]; try done;
    try (by apply Hok).
  intros e1 ev1 Hev1 Hm. exfalso. apply insert_lookup_cases in Hev1 as [(-> & -> & _)|[Hne Hev1]].
  - cbn in Hm. by rewrite rdy_clear_same in Hm.
  - destruct (tk_listed _ _ _ Hok e1 ev1 Hev1 Hm) as (? & _). congruence.
Qed.
Lemma readied_tasks_ok rdy tcbs evs e ev kd p t pmsg st : tasks_ok rdy tcbs evs →
  tcb_of tcbs p = Some t → evs !! e = Some ev →
  p_mem (OSEventWait ev) p = true → OSEventType ev = kind_type kd →
  let t' := readied pmsg (kind_stat kd) st t in
  tasks_ok (if Z.land (OSTCBStat t') OS_STAT_SUSPEND =? 0 then p_set rdy p else rdy)
    (<[p := Some t']> tcbs) (<[e := OS_EventTaskRemove p ev]> evs).
Proof.
  intros Ht Htp Hev Hp Hty t'. assert (Hw : p_wf (OSEventWait ev)) by (by eapply ts_ev_wf).
  pose proof (ts_task _ _ _ Ht _ _ Htp) as Hok. pose proof (tk_range _ _ _ Hok) as Hr.
  destruct (tk_listed _ _ _ Hok e ev Hev Hp) as (Hptr & kd' & Hcall & Hty' & Hbits).
  assert (kd' = kd) as -> by (apply kind_type_inj; congruence).
  destruct (stat_post (OSTCBStat t) kd) as (S1 & S2 & S3);
    [by apply tk_stat in Hok | unfold pend_bits in Hbits; tauto |].
  change (Z.land (OSTCBStat t) _) with (OSTCBStat t') in S1, S2, S3.
  pose proof (ts_rdy_wf _ _ _ Ht) as Hwr.
  eapply tasks_ok_update; try done.
  - case_match; [by apply p_wf_set | done].
  - intros q Hq. case_match; [by apply rdy_set_other | done].
  - destruct (Z.eqb_spec (Z.land (OSTCBStat t') OS_STAT_SUSPEND) 0) as [E|E].
    + rewrite rdy_set_same by done. split; [|done]. intros _. split; [by apply S3|done].
    + split; [|intros [E' _]; exfalso; by apply E, S3].
      intros Hm. apply (ts_ready _ _ _ Ht) in Hm as (t0 & Ht0 & Hs0 & _). simplify_eq.
      exfalso. apply E. unfold t'. cbn [readied OSTCBStat]. by rewrite Hs0, !Z.land_0_l.
  - eapply evs_agree_wait; [done..| by apply p_wf_clear |]. intros. by apply rdy_clear_other.
  - by apply readied_task_ok.
  - intros Ep. destruct (ts_idle _ _ _ Ht) as (t0 & H0 & _ & Hnone). by simplify_eq.
Qed.

(** The state [OS_EventTaskRdy] leaves. *)
Definition rdy_state (e : nat) (ev : EVENT) (p : Z) (t' : TCB) (k : kernel) : kernel :=
  let k := put_tcb p t' k in
  put_event e (OS_EventTaskRemove p ev)
    (if Z.land (OSTCBStat t') OS_STAT_SUSPEND =? 0 then make_ready p k else k).
Lemma rdy_state_frame e ev p t t' k : tcb_at k p = Some t → in_pend t' = in_pend t →
  frame k (rdy_state e ev p t' k).
Proof.
  intros Hp Hc. pose proof (frame_put k p t t' Hp Hc) as [F1 F2 F3 F4 F5 F6].
  unfold rdy_state. case_match; by split.
Qed.

(** It succeeds when somebody waits, on the highest-priority waiter, and takes it off the
    list. *)
Lemma event_rdy_spec e ev kd pmsg st k : kinv0 k → OSEventTbl k !! e = Some ev →
  OSEventType ev = kind_type kd → p_grp (OSEventWait ev) ≠ 0 →
  let p := p_first (OSEventWait ev) in
  ∃ t, let k' := rdy_state e ev p (readied pmsg (kind_stat kd) st t) k in
    tcb_at k p = Some t ∧ p_mem (OSEventWait ev) p = true ∧
    (∀ q, p_mem (OSEventWait ev) q = true → p <= q) ∧
    OS_EventTaskRdy e pmsg (kind_stat kd) st k = Some (k', p) ∧ kinv0 k' ∧ frame k k'.
Proof.
  intros (Ht & Hl & He) Hev Hty Hg p.
  assert (Hw : p_wf (OSEventWait ev)) by (by eapply ts_ev_wf).
  destruct (p_grp_nonzero _ Hw Hg) as [q Hq].
  destruct (p_first_least _ _ Hw Hq) as [Hp _]. fold p in Hp.
  destruct (ts_waiters _ _ _ Ht e ev p Hev Hp) as [t Htp]. exists t. cbn zeta.
  set (k' := rdy_state _ _ _ _ _).
  assert (Hfr : frame k k') by (by apply rdy_state_frame with t).
  split; [done|]. split; [done|]. split; [intros r Hr; by apply p_first_least|]. split; [|split].
  - unfold OS_EventTaskRdy. rewrite Hev. cbn [mbind option_bind]. fold p. unfold tcb_at.
    rewrite Htp. reflexivity.
  - split; [|split; [by apply frame_list_ok with k|]].
    + pose proof (readied_tasks_ok _ _ _ e ev kd p t pmsg st Ht Htp Hev Hp Hty) as H.
      unfold k', rdy_state. revert H. cbn zeta. by case_match.
    + assert (H : events_ok (<[e := OS_EventTaskRemove p ev]> (OSEventTbl k))
                (OSEventFreeList k) (OSQTbl k) (OSQFreeList k)).
      { eapply events_ok_wait; [done..|]. intros Hav. exfalso. apply Hg. by eapply es_idle. }
      unfold k', rdy_state. revert H. by case_match.
  - done.
Qed.

(** ** Readying all waiters *)

(** The steps that leave the free lists and the queues alone. *)
Record keeps_res (k k' : kernel) : Prop := {
  kr_efree : OSEventFreeList k' = OSEventFreeList k;
  kr_qs : OSQTbl k' = OSQTbl k;
  kr_qfree : OSQFreeList k' = OSQFreeList k;
  kr_time : OSTime k' = OSTime k;
  kr_step : OSTickStepState k' = OSTickStepState k }.
#[export] Instance keeps_res_preorder : PreOrder keeps_res.
Proof. split; [by intros k|]. intros k1 k2 k3 [] []. split; congruence. Qed.
Lemma rdy_state_keeps e ev p t' k : keeps_res k (rdy_state e ev p t' k).
Proof. unfold rdy_state. by case_match. Qed.
Lemma rdy_state_events e ev p t' k :
  OSEventTbl (rdy_state e ev p t' k) = <[e := OS_EventTaskRemove p ev]> (OSEventTbl k).
Proof. unfold rdy_state. by case_match. Qed.
Lemma rdy_state_tcb e ev p t' k q :
  tcb_at (rdy_state e ev p t' k) q = if decide (q = p) then Some t' else tcb_at k q.
Proof. unfold tcb_at, rdy_state. case_match; cbn; apply tcb_of_insert. Qed.

Lemma p_elems_clear w p : p_wf w → p_mem w p = true → size (p_elems w) = S (size (p_elems (p_clear w p))).
Proof.
  intros Hw Hp. pose proof (p_mem_range _ _ Hp) as Hr.
  destruct (prio_table_ops w p Hw Hr) as [_ E]. rewrite E.
  rewrite size_difference by (apply singleton_subseteq_l; by apply elem_of_p_elems).
  rewrite size_singleton. assert (size (p_elems w) ≠ 0%nat); [|lia].
  apply elem_of_p_elems in Hp.
  intros H0. apply size_empty_inv in H0. set_solver.
Qed.
Lemma p_elems_le w : (size (p_elems w) <= 64)%nat.
Proof.
  unfold p_elems. rewrite size_list_to_set by (apply NoDup_filter, NoDup_seqZ).
  pose proof (length_filter (λ p, p_mem w p) (seqZ 0 64)) as H. rewrite length_seqZ in H. lia.
Qed.

Lemma rdy_all_spec kd e pmsg st fuel : ∀ n k ev, kinv0 k → OSEventTbl k !! e = Some ev →
  OSEventType ev = kind_type kd → (size (p_elems (OSEventWait ev)) <= fuel)%nat →
  ∃ k' n' w, rdy_all fuel e pmsg (kind_stat kd) st n k = Some (k', n') ∧
    kinv0 k' ∧ frame k k' ∧ keeps_res k k' ∧ p_grp w = 0 ∧
    OSEventTbl k' = <[e := ev_set_wait w ev]> (OSEventTbl k) ∧
    ∀ q, tcb_at k' q = if p_mem (OSEventWait ev) q
                       then readied pmsg (kind_stat kd) st <$> tcb_at k q else tcb_at k q.
Proof.
  induction fuel as [|f IH]; intros n k ev Hk Hev Hty Hf; cbn [rdy_all]; rewrite Hev;
    cbn [mbind option_bind]; destruct Hk as (Ht & Hl & He);
    pose proof (ts_ev_wf _ _ _ Ht _ _ Hev) as Hw;
    (destruct (Z.eqb_spec (p_grp (OSEventWait ev)) 0) as [Hg|Hg];
     [exists k, n, (OSEventWait ev); split_and!; try done;
       [destruct ev; by rewrite list_insert_id
       | intros q; by rewrite (proj1 (p_grp_zero _ Hw) Hg)]|]).
  - exfalso. destruct (p_grp_nonzero _ Hw Hg) as [q Hq].
    assert (size (p_elems (OSEventWait ev)) = 0%nat) as H0 by lia.
    apply size_empty_inv in H0. apply elem_of_p_elems in Hq. set_solver.
  - destruct (event_rdy_spec e ev kd pmsg st k (conj Ht (conj Hl He)) Hev Hty Hg)
      as (t & Htp & Hp & _ & -> & Hk' & Hfr). cbn [mbind option_bind].
    set (p := p_first (OSEventWait ev)) in *. set (k1 := rdy_state _ _ _ _ _) in *.
    pose proof (p_mem_range _ _ Hp) as Hr.
    assert (Hlt : (e < length (OSEventTbl k))%nat) by (by eapply lookup_lt_Some).
    assert (Hev1 : OSEventTbl k1 !! e = Some (OS_EventTaskRemove p ev)).
    { unfold k1. rewrite rdy_state_events. by apply list_lookup_insert_eq. }
    destruct (IH (u8 (n + 1)) k1 _ Hk' Hev1 Hty) as (k' & n' & w & E & Hk2 & Hf2 & Hr2 & Hg2 & Ev2 & Ht2).
    { change (OSEventWait (OS_EventTaskRemove p ev)) with (p_clear (OSEventWait ev) p).
      pose proof (p_elems_clear _ _ Hw Hp). lia. }
    exists k', n', w. split_and!; try done.
    + by transitivity k1.
    + transitivity k1; [apply rdy_state_keeps | done].
    + rewrite Ev2. unfold k1. rewrite rdy_state_events, list_insert_insert_eq. done.
    + intros q. rewrite Ht2. unfold k1. rewrite rdy_state_tcb.
      change (OSEventWait (OS_EventTaskRemove p ev)) with (p_clear (OSEventWait ev) p).
      rewrite p_mem_clear by done. destruct (decide (q = p)) as [->|Hne].
      * rewrite Z.eqb_refl, andb_false_r, Hp, Htp. done.
      * rewrite (proj2 (Z.eqb_neq q p) Hne), andb_true_r. done.
Qed.
Lemma ready_waiters_spec kd e pmsg st k ev : kinv0 k → OSEventTbl k !! e = Some ev →
  OSEventType ev = kind_type kd →
  ∃ k' n' w, ready_waiters e pmsg (kind_stat kd) st k = Some (k', n') ∧
    kinv0 k' ∧ frame k k' ∧ keeps_res k k' ∧ p_grp w = 0 ∧
    OSEventTbl k' = <[e := ev_set_wait w ev]> (OSEventTbl k) ∧
    ∀ q, tcb_at k' q = if p_mem (OSEventWait ev) q
                       then readied pmsg (kind_stat kd) st <$> tcb_at k q else tcb_at k q.
Proof. intros. apply rdy_all_spec; try done. apply p_elems_le. Qed.

(** ** The scheduler *)

(** Two states that differ in who runs: the variables of the scheduler and the switch
    counters of the tasks. *)
Definition strip (t : TCB) : TCB := set_ctr 0 t.
Record switched (k k' : kernel) : Prop := {
  sw_running : OSRunning k' = OSRunning k;
  sw_nesting : OSIntNesting k' = OSIntNesting k;
  sw_lock : OSLockNesting k' = OSLockNesting k;
  sw_list : OSTCBList k' = OSTCBList k;
  sw_rdy : OSRdy k' = OSRdy k;
  sw_events : OSEventTbl k' = OSEventTbl k;
  sw_tasks : ∀ p, strip <$> tcb_at k' p = strip <$> tcb_at k p;
  sw_res : keeps_res k k' }.
#[export] Instance switched_refl : Reflexive switched.
Proof. by intros k. Qed.

Lemma task_ok_ctr evs p t c : task_ok evs p t → task_ok evs p (set_ctr c t).
Proof. by intros []. Qed.
Lemma idle_ready k : kinv0 k → p_mem (OSRdy k) OS_TASK_IDLE_PRIO = true.
Proof.
  intros (Ht & _). destruct (ts_idle _ _ _ Ht) as (t & Hp & Hr & _).
  apply (ts_ready _ _ _ Ht). eauto.
Qed.
(** The first of the ready list is a task, and no runnable task has a higher priority. *)
Lemma first_ready k : kinv0 k → ∃ t, tcb_at k (p_first (OSRdy k)) = Some t ∧ runnable t ∧
  ∀ q tq, tcb_at k q = Some tq → runnable tq → p_first (OSRdy k) <= q.
Proof.
  intros Hk. pose proof (idle_ready k Hk) as Hi. destruct Hk as (Ht & _).
  destruct (p_first_least _ _ (ts_rdy_wf _ _ _ Ht) Hi) as [Hp _].
  apply (ts_ready _ _ _ Ht) in Hp as (t & ? & ?). exists t. split_and!; [done..|].
  intros q tq Hq Hr. apply p_first_least; [apply Ht|]. apply (ts_ready _ _ _ Ht). eauto.
Qed.

Lemma sched_switch_spec k : kinv0 k → OSIntNesting k = 0 → OSLockNesting k = 0 →
  OSRunning k = true →
  ∃ k', sched_switch k = Some k' ∧ kinv k' ∧ switched k k' ∧ OSPrioCur k' = p_first (OSRdy k).
Proof.
  intros Hk Hn Hl Hrun. destruct (first_ready k Hk) as (t & Ht & Hr & _).
  unfold sched_switch, OS_SchedNew. cbn [OSPrioHighRdy OSPrioCur set_high].
  set (p := p_first (OSRdy k)) in *.
  destruct (Z.eqb_spec p (OSPrioCur k)) as [E|E].
  - eexists. split; [done|]. split; [|by split].
    split; [done|]. unfold sched_ok. cbn. rewrite Hrun. split_and!; [|rewrite <- E; eauto|done].
    unfold sched_pre. cbn. rewrite Hn, Hl. split_and!; [lia..|by left].
  - replace (tcb_at (set_high p k) p) with (tcb_at k p) by done. rewrite Ht. cbn [mbind option_bind].
    set (t' := set_ctr _ t).
    eexists. split; [done|]. destruct Hk as (Hk1 & Hk2 & Hk3). split; [split|split].
    + split; [|split; [|exact Hk3]].
      * cbn. eapply tasks_ok_update; try done; [apply Hk1 | | by eapply evs_agree_refl | |].
        -- rewrite (ts_ready _ _ _ Hk1). split; [|by eauto]. intros (t0 & H0 & ?).
           unfold tcb_at in Ht. by simplify_eq.
        -- by apply task_ok_ctr, (ts_task _ _ _ Hk1).
        -- intros Ep. destruct (ts_idle _ _ _ Hk1) as (t0 & H0 & R0 & C0).
           unfold tcb_at in Ht. rewrite <- Ep, Ht in H0. by simplify_eq.
      * pose proof (frame_put k p t t' Ht eq_refl) as Hf.
        exact (frame_list_ok _ _ Hf Hk2).
    + unfold sched_ok. cbn. rewrite Hrun. split_and!; [| |done].
      * unfold sched_pre. cbn. rewrite Hn, Hl. split_and!; [lia..|by left].
      * unfold tcb_at. cbn. rewrite tcb_of_insert_eq. eauto.
    + split; try done. intros q. unfold tcb_at. cbn. rewrite tcb_of_insert.
      case_decide; [subst q|done]. unfold tcb_at in Ht. by rewrite Ht.
    + done.
Qed.

Lemma OS_Sched_spec k : kinv0 k → sched_pre k → OSRunning k = true →
  ∃ k', OS_Sched k = Some k' ∧ kinv k' ∧ switched k k'.
Proof.
  intros Hk Hp Hrun. unfold OS_Sched.
  assert (Hstay : ¬ (OSIntNesting k = 0 ∧ OSLockNesting k = 0) → kinv k).
  { intros Hno. split; [done|]. unfold sched_ok. rewrite Hrun. split_and!; [done| |tauto].
    destruct Hp as (_ & _ & [?|(t & ? & _)]); [done|eauto]. }
  destruct (Z.eqb_spec (OSIntNesting k) 0); [|exists k; split_and!; try done; apply Hstay; tauto].
  destruct (Z.eqb_spec (OSLockNesting k) 0); [|exists k; split_and!; try done; apply Hstay; tauto].
  destruct (sched_switch_spec k) as (k' & ? & ? & ? & _); eauto.
Qed.
