(* ===== verification/KStep.v ===== *)
(** * Every kernel call keeps the invariant

    For each call of [Kernel] and [KEvent], in a state with the invariant and under the
    conditions its documentation puts on the caller: it does not fault, and the invariant
    holds again.  Most calls rewrite one TCB ([tasks_ok_retask]) and end in [OS_Sched]. *)
From S2P Require Import Prelude PrioTab Kernel KEvent KInv.

(** ** One task's fields change *)

(** What may happen to a task that keeps its call and its event: the pending bit stays, or
    the wait times out, or it was not waiting at all. *)
Definition may_become (t t' : TCB) : Prop :=
  OSTCBEventPtr t' = OSTCBEventPtr t ∧ in_pend t' = in_pend t ∧
  stat_ok (OSTCBStat t') ∧ is_u32 (OSTCBDly t') ∧
  (pend_bits t' = pend_bits t ∧
     (pend_bits t ≠ 0 ∨ OSTCBStatPend t' = OSTCBStatPend t ∧ OSTCBDly t' = OSTCBDly t) ∨
   pend_bits t' = 0 ∧ OSTCBStatPend t' = OS_STAT_PEND_TO ∧ OSTCBDly t' = 0 ∨
   pend_bits t' = 0 ∧ pend_bits t = 0 ∧ (in_pend t = None ∨ OSTCBDly t ≠ 0)).

Lemma task_ok_become evs p t t' : task_ok evs p t → may_become t t' → task_ok evs p t'.
Proof.
  intros [H1 H2 H3 H4 H5 H6 H7] (E1 & E2 & S & D & C). split; rewrite ?E1, ?E2; try done.
  - intros e ev He Hm. destruct (H6 e ev He Hm) as (P & kd & K & T & B).
    split; [done|]. exists kd. split_and!; [done..|].
    destruct C as [[-> [?|[-> ->]]]|[(? & ? & ?)|(B' & B0 & [?|?])]]; try tauto; try congruence.
    destruct B as [B|(_ & _ & ?)]; [|done]. rewrite B0 in B. by destruct kd.
  - intros Hb. destruct C as [[E _]|[(? & _)|(? & _)]]; [|done|done]. rewrite E in *. auto.
Qed.

Lemma tasks_ok_retask rdy tcbs evs rdy' p t t' : tasks_ok rdy tcbs evs →
  tcb_of tcbs p = Some t → may_become t t' → p_wf rdy' →
  (∀ q, q ≠ p → p_mem rdy' q = p_mem rdy q) → (p_mem rdy' p = true ↔ runnable t') →
  (p = OS_TASK_IDLE_PRIO → runnable t') →
  tasks_ok rdy' (<[p := Some t']> tcbs) evs.
Proof.
  intros H Hp Hb Hw Hq Hr Hi. eapply tasks_ok_update; try done.
  - by eapply evs_agree_refl.
  - eapply task_ok_become; [|done]. by eapply ts_task.
  - intros E. split; [by apply Hi|]. destruct (ts_idle _ _ _ H) as (t0 & H0 & _ & H1).
    rewrite E in Hp. simplify_eq. by destruct Hb as (_ & -> & _).
Qed.

(** Three ways the ready list follows: set, clear, or unchanged. *)
Lemma retask_set k p t t' : kinv0 k → tcb_at k p = Some t → may_become t t' → runnable t' →
  kinv0 (make_ready p (put_tcb p t' k)) ∧ frame k (make_ready p (put_tcb p t' k)).
Proof.
  intros (Ht & Hl & He) Hp Hb Hr.
  pose proof (tk_range _ _ _ (ts_task _ _ _ Ht _ _ Hp)) as Hrg.
  pose proof (frame_put k p t t' Hp (proj1 (proj2 Hb))) as [F1 F2 F3 F4 F5 F6].
  assert (Hf : frame k (make_ready p (put_tcb p t' k))) by (by split).
  split; [|done]. split; [|split; [by apply frame_list_ok with k|done]].
  cbn. eapply tasks_ok_retask; [done..| | | |].
  - apply p_wf_set; [apply Ht|done].
  - intros. apply rdy_set_other; [apply Ht|done..].
  - rewrite rdy_set_same; [done|apply Ht|done].
  - done.
Qed.
Lemma retask_clear k p t t' : kinv0 k → tcb_at k p = Some t → may_become t t' →
  ¬ runnable t' → p ≠ OS_TASK_IDLE_PRIO →
  kinv0 (put_tcb p t' (make_unready p k)) ∧ frame k (put_tcb p t' (make_unready p k)).
Proof.
  intros (Ht & Hl & He) Hp Hb Hr Hi.
  pose proof (tk_range _ _ _ (ts_task _ _ _ Ht _ _ Hp)) as Hrg.
  pose proof (frame_put k p t t' Hp (proj1 (proj2 Hb))) as [F1 F2 F3 F4 F5 F6].
  assert (Hf : frame k (put_tcb p t' (make_unready p k))) by (by split).
  split; [|done]. split; [|split; [by apply frame_list_ok with k|done]].
  cbn. eapply tasks_ok_retask; [done..| | | |].
  - apply p_wf_clear; [apply Ht|done].
  - intros. apply rdy_clear_other; [apply Ht|done..].
  - rewrite rdy_clear_same; [done|apply Ht|done].
  - done.
Qed.
Lemma retask_same k p t t' : kinv0 k → tcb_at k p = Some t → may_become t t' →
  (runnable t' ↔ runnable t) → kinv0 (put_tcb p t' k) ∧ frame k (put_tcb p t' k).
Proof.
  intros (Ht & Hl & He) Hp Hb Hr.
  pose proof (frame_put k p t t' Hp (proj1 (proj2 Hb))) as Hf.
  split; [|done]. split; [|split; [by apply frame_list_ok with k|done]].
  cbn. eapply tasks_ok_retask; try done; [apply Ht | |].
  - rewrite Hr, (ts_ready _ _ _ Ht). unfold tcb_at in Hp. split; [|by eauto].
    intros (t0 & ? & ?). by simplify_eq.
  - intros ->. rewrite Hr. destruct (ts_idle _ _ _ Ht) as (t0 & H0 & R0 & _).
    unfold tcb_at in Hp. by simplify_eq.
Qed.

(** Facts of a state with the invariant in which tasks run. *)
Lemma kinv_running k : kinv k → OSRunning k = true →
  kinv0 k ∧ sched_pre k ∧ ∃ t, tcb_at k (OSPrioCur k) = Some t.
Proof. intros [H S] E. unfold sched_ok in S. rewrite E in S. naive_solver. Qed.
(** The running task is runnable when it may be switched away. *)
Lemma cur_runnable k : kinv k → OSRunning k = true → OSIntNesting k = 0 → OSLockNesting k = 0 →
  ∃ t, tcb_at k (OSPrioCur k) = Some t ∧ runnable t.
Proof.
  intros [H S] E N L. unfold sched_ok in S. rewrite E in S. destruct S as (_ & _ & S).
  rewrite S by done. destruct (first_ready k H) as (t & ? & ? & _). eauto.
Qed.
Lemma switched_kinv k k' : kinv k' → OSRunning k = true → switched k k' → OSRunning k' = true.
Proof. intros _ H S. by rewrite (sw_running _ _ S). Qed.
Lemma sched_pre_frame_ok k k' : kinv k → OSRunning k = true → frame k k' → kinv0 k' →
  ∃ k2, OS_Sched k' = Some k2 ∧ kinv k2 ∧ switched k' k2.
Proof.
  intros H R F H'. destruct (kinv_running k H R) as (_ & P & _).
  apply OS_Sched_spec; [done | by apply frame_sched_pre with k |]. by rewrite (fr_running _ _ F).
Qed.

(** A step that keeps the tasks also keeps the scheduler's part, if it does not change the
    ready list under a running scheduler. *)
Lemma kinv_frame k k' : kinv k → frame k k' → kinv0 k' →
  (OSRunning k = true → OSIntNesting k = 0 → OSLockNesting k = 0 → OSRdy k' = OSRdy k) → kinv k'.
Proof.
  intros [H S] F H' R. split; [done|]. unfold sched_ok in *.
  rewrite (fr_running _ _ F), (fr_nesting _ _ F), (fr_lock _ _ F).
  destruct (OSRunning k); [|done]. destruct S as (P & (t & Ht) & C). split_and!.
  - by apply frame_sched_pre with k.
  - rewrite (fr_cur _ _ F). destruct (frame_task _ _ _ _ F Ht) as (t' & ? & _). eauto.
  - intros N L. rewrite (fr_cur _ _ F), R by done. by apply C.
Qed.

(** ** The clock *)

(** What a tick does to one task. *)
Definition ticked (t : TCB) : TCB :=
  if OSTCBDly t =? 0 then t
  else
    let t := set_dly (OSTCBDly t - 1) t in
    if OSTCBDly t =? 0 then
      if Z.land (OSTCBStat t) OS_STAT_PEND_ANY =? OS_STAT_RDY then set_statpend OS_STAT_PEND_OK t
      else set_statpend OS_STAT_PEND_TO
             (set_stat (Z.land (OSTCBStat t) (u8 (Z.lnot OS_STAT_PEND_ANY))) t)
    else t.

(** The end of a delay. *)
Definition expired (t : TCB) : TCB :=
  if Z.land (OSTCBStat t) OS_STAT_PEND_ANY =? OS_STAT_RDY then set_statpend OS_STAT_PEND_OK (set_dly 0 t)
  else set_statpend OS_STAT_PEND_TO
         (set_stat (Z.land (OSTCBStat t) (u8 (Z.lnot OS_STAT_PEND_ANY))) (set_dly 0 t)).
Lemma expired_become t : stat_ok (OSTCBStat t) → OSTCBDly t ≠ 0 →
  may_become t (expired t) ∧
  (Z.land (OSTCBStat (expired t)) OS_STAT_SUSPEND = 0 ↔ runnable (expired t)).
Proof.
  intros S D. destruct (stat_timeout _ S) as (S1 & S2 & S3).
  unfold expired. destruct (Z.eqb_spec (Z.land (OSTCBStat t) OS_STAT_PEND_ANY) OS_STAT_RDY) as [E|E].
  - split.
    + unfold may_become, is_u32, pend_bits. cbn. split_and!; try done. right. right.
      split_and!; [done..|by right].
    + unfold runnable. cbn. rewrite stat_no_pend by done. tauto.
  - split.
    + unfold may_become, is_u32, pend_bits. cbn. split_and!; try done. right. left. done.
    + unfold runnable. cbn. rewrite S3. tauto.
Qed.
(** The two ways a delay ends: the task becomes ready, or stays suspended. *)
Lemma expire_spec k p t : kinv0 k → tcb_at k p = Some t → OSTCBDly t ≠ 0 →
  let k' := if Z.land (OSTCBStat (expired t)) OS_STAT_SUSPEND =? OS_STAT_RDY
            then make_ready p (put_tcb p (expired t) k) else put_tcb p (expired t) k in
  kinv0 k' ∧ frame k k'.
Proof.
  intros H Hp D. assert (S : stat_ok (OSTCBStat t)).
  { destruct H as (H & _). by eapply tk_stat, ts_task. }
  destruct (expired_become t S D) as [B R]. cbn zeta.
  destruct (Z.eqb_spec (Z.land (OSTCBStat (expired t)) OS_STAT_SUSPEND) OS_STAT_RDY) as [E|E].
  - by apply retask_set with t; [..|apply R].
  - apply retask_same with t; [done..|]. rewrite <- R. split; [done|]. by intros [_ ?].
Qed.

Lemma tick_task_spec k p t : kinv0 k → tcb_at k p = Some t → p ≠ OS_TASK_IDLE_PRIO →
  let k' := tick_task p t k in
  kinv0 k' ∧ frame k k' ∧ keeps_res k k' ∧ OSEventTbl k' = OSEventTbl k ∧
  ∀ q, tcb_at k' q = if decide (q = p) then Some (ticked t) else tcb_at k q.
Proof.
  intros H Hp Hi k'. unfold k', tick_task, ticked.
  destruct (Z.eqb_spec (OSTCBDly t) 0) as [D|D].
  { split_and!; try done. intros q. case_decide; [by subst|done]. }
  cbn [OSTCBDly set_dly OSTCBStat].
  destruct (Z.eqb_spec (OSTCBDly t - 1) 0) as [D1|D1].
  - rewrite D1. fold (expired t). destruct (expire_spec k p t H Hp D) as [H1 H2].
    split_and!; try done; try by case_match.
    intros q. unfold tcb_at. case_match; cbn; apply tcb_of_insert.
  - destruct (retask_same k p t (set_dly (OSTCBDly t - 1) t) H Hp) as [H1 H2].
    + destruct H as (H & _). pose proof (ts_task _ _ _ H _ _ Hp) as Hk.
      pose proof (tk_dly _ _ _ Hk) as Hd. unfold may_become, is_u32 in *. cbn.
      split_and!; try done; try lia; [apply Hk|].
      destruct (decide (pend_bits t = 0)) as [E|E].
      * right. right. change (pend_bits (set_dly _ t)) with (pend_bits t). split_and!; try done. by right.
      * left. change (pend_bits (set_dly _ t)) with (pend_bits t). split_and!; try done. by left.
    + unfold runnable. cbn. split; intros [_ ?]; [done|lia].
    + split_and!; try done. intros q. unfold tcb_at. cbn. apply tcb_of_insert.
Qed.

Lemma tick_loop_spec ps : ∀ k, kinv0 k → NoDup ps → last ps = Some OS_TASK_IDLE_PRIO →
  (∀ p, p ∈ ps → is_Some (tcb_at k p)) →
  ∃ k', tick_loop ps k = Some k' ∧ kinv0 k' ∧ frame k k' ∧ keeps_res k k' ∧
    OSEventTbl k' = OSEventTbl k ∧
    ∀ q, tcb_at k' q = if decide (q ∈ ps ∧ q ≠ OS_TASK_IDLE_PRIO)
                       then ticked <$> tcb_at k q else tcb_at k q.
Proof.
  induction ps as [|p ps IH]; intros k H Hnd Hla Hall; [done|]. cbn [tick_loop].
  apply NoDup_cons in Hnd as [Hni Hnd].
  destruct (Z.eqb_spec p OS_TASK_IDLE_PRIO) as [->|Hp].
  - assert (ps = []) as ->.
    { destruct ps as [|p' ps]; [done|]. exfalso. apply Hni.
      rewrite last_cons_cons in Hla. by apply last_Some_elem_of. }
    exists k. split_and!; try done. intros q. rewrite decide_False; [done|]. set_solver.
  - destruct (Hall p) as [t Ht]; [set_solver|]. rewrite Ht. cbn [mbind option_bind].
    destruct (tick_task_spec k p t H Ht Hp) as (H1 & F1 & R1 & E1 & T1).
    destruct (IH (tick_task p t k)) as (k' & -> & H2 & F2 & R2 & E2 & T2); try done.
    { destruct ps; [by cbn in Hla; simplify_eq|done]. }
    { intros q Hq. destruct (Hall q) as [tq Hq']; [set_solver|]. rewrite T1.
      case_decide; eauto. }
    exists k'. split_and!; try done; [by etransitivity..|congruence|].
    intros q. rewrite T2, T1. destruct (decide (q = p)) as [->|Hne].
    + rewrite decide_False by tauto. rewrite decide_True by set_solver. by rewrite Ht.
    + destruct (decide (q ∈ ps ∧ q ≠ OS_TASK_IDLE_PRIO)).
      * rewrite decide_True by set_solver. done.
      * rewrite decide_False by set_solver. done.
Qed.

(** The tick as a whole, when it is processed and when it is not. *)
Lemma OSTimeTick_spec k : kinv0 k → OSRunning k = true →
  let '(step, st) := tick_step (OSTickStepState k) in
  ∃ k', OSTimeTick k = Some k' ∧ kinv0 k' ∧ frame k k' ∧ OSEventTbl k' = OSEventTbl k ∧
    OSTime k' = u32 (OSTime k + 1) ∧ OSTickStepState k' = st ∧
    ∀ q, tcb_at k' q = if decide (step = true ∧ q ≠ OS_TASK_IDLE_PRIO)
                       then ticked <$> tcb_at k q else tcb_at k q.
Proof.
  intros H R. unfold OSTimeTick. cbn [OSRunning set_time]. rewrite R.
  change (OSTickStepState (set_time _ k)) with (OSTickStepState k).
  destruct (tick_step (OSTickStepState k)) as [step st].
  set (k1 := set_tickstep st (set_time (u32 (OSTime k + 1)) k)).
  assert (H1 : kinv0 k1) by exact H. destruct step.
  - destruct H as (Ht & [L1 L2 L3] & He).
    destruct (tick_loop_spec (OSTCBList k) k1) as (k' & E & H2 & F & Rs & Ev & T); try done.
    { intros p. by rewrite L2. }
    exists k'.
    split_and!; try done; [by destruct F; split | by rewrite (kr_time _ _ Rs) | by rewrite (kr_step _ _ Rs) |].
    intros q. rewrite T. change (tcb_at k1 q) with (tcb_at k q).
    destruct (decide (q = OS_TASK_IDLE_PRIO)) as [->|Hne];
      [by rewrite !decide_False by tauto|].
    rewrite (decide_True (P := true = true ∧ _)) by done.
    destruct (decide (q ∈ OSTCBList k)); [by rewrite decide_True|].
    rewrite decide_False by tauto. destruct (tcb_at k q) eqn:E0; [|done].
    exfalso. apply n, L2. by exists t.
  - exists k1. split_and!; try done; try by split.
Qed.
Lemma OSTimeTick_ok k : kinv k → 0 < OSIntNesting k → ∃ k', OSTimeTick k = Some k' ∧ kinv k'.
Proof.
  intros H N. destruct (OSRunning k) eqn:R.
  - pose proof (OSTimeTick_spec k (proj1 H) R) as S.
    destruct (tick_step (OSTickStepState k)). destruct S as (k' & E & H' & F & _).
    exists k'. split; [done|]. apply kinv_frame with k; try done. lia.
  - unfold OSTimeTick. cbn [OSRunning set_time]. rewrite R. eexists. split; [done|].
    apply kinv_frame with k; try done; apply H.
Qed.

Lemma OSTimeDly_ok ticks k : kinv k → OSRunning k = true → is_u32 ticks →
  OSPrioCur k ≠ OS_TASK_IDLE_PRIO → (∀ t, tcb_at k (OSPrioCur k) = Some t → in_pend t = None) →
  ∃ k', OSTimeDly ticks k = Some k' ∧ kinv k'.
Proof.
  intros H R U I C. destruct (kinv_running k H R) as (H0 & (Hn & Hl & _) & _). unfold OSTimeDly.
  destruct (Z.ltb_spec 0 (OSIntNesting k)); [eauto|].
  destruct (Z.ltb_spec 0 (OSLockNesting k)); [eauto|].
  destruct (Z.ltb_spec 0 ticks); [|eauto].
  destruct (cur_runnable k H R) as (t & Ht & Hrun); [lia..|]. rewrite Ht. cbn [mbind option_bind].
  assert (B : may_become t (set_dly ticks t)).
  { destruct Hrun as [S D]. unfold may_become, pend_bits. cbn. rewrite S. split_and!; try done.
    - by left.
    - right. right. split_and!; [done..|]. left. by apply C. }
  destruct (retask_clear k (OSPrioCur k) t (set_dly ticks t)) as [K1 F1]; try done.
  { intros [_ D]. cbn in D. lia. }
  destruct (sched_pre_frame_ok k _ H R F1 K1) as (k2 & ? & ? & _). eauto.
Qed.
Lemma hmsm_ticks_u32 h m s ms : is_u32 (hmsm_ticks h m s ms).
Proof. unfold hmsm_ticks, is_u32, u32. apply Z.mod_pos_bound. lia. Qed.
Lemma OSTimeDlyHMSM_ok h m s ms k : kinv k → OSRunning k = true →
  OSPrioCur k ≠ OS_TASK_IDLE_PRIO → (∀ t, tcb_at k (OSPrioCur k) = Some t → in_pend t = None) →
  ∃ k' r, OSTimeDlyHMSM h m s ms k = Some (k', r) ∧ kinv k'.
Proof.
  intros H R I C. unfold OSTimeDlyHMSM. case_match; [eauto|]. case_match; [eauto|].
  destruct (OSTimeDly_ok _ k H R (hmsm_ticks_u32 h m s ms) I C) as (k' & -> & ?).
  cbn. eauto.
Qed.

(** The entry of a priority: nothing or a task. *)
Lemma prio_entry_cases k p : kinv0 k → 0 <= p <= OS_LOWEST_PRIO →
  prio_entry k p = Some None ∧ tcb_at k p = None ∨
  ∃ t, prio_entry k p = Some (Some (Some t)) ∧ tcb_at k p = Some t.
Proof.
  intros (H & _) Hp. unfold prio_entry, tcb_at.
  replace (0 <=? p) with true by lia. replace (p <=? OS_LOWEST_PRIO) with true by lia. cbn [andb].
  destruct (tasks_real _ _ _ p H) as [[-> ->]|(t & -> & ->)]; [by left|right; eauto].
Qed.

Lemma OSTimeDlyResume_ok p k : kinv k → OSRunning k = true → 0 <= p →
  ∃ k' r, OSTimeDlyResume p k = Some (k', r) ∧ kinv k'.
Proof.
  intros H R Hp. destruct (kinv_running k H R) as (H0 & _ & _). unfold OSTimeDlyResume.
  destruct (Z.leb_spec OS_LOWEST_PRIO p); [eauto|].
  destruct (prio_entry_cases k p H0) as [[-> _]|(t & -> & Ht)]; [lia|cbn; eauto|].
  cbn [mbind option_bind]. destruct (Z.eqb_spec (OSTCBDly t) 0) as [D|D]; [eauto|].
  cbn [OSTCBStat set_dly]. rewrite stat_timeout' by (by eapply tk_stat, ts_task; [apply H0|]).
  fold (expired t). destruct (expire_spec k p t H0 Ht D) as [K1 F1]. revert K1 F1.
  cbn zeta. case_match.
  - intros K1 F1. destruct (sched_pre_frame_ok k _ H R F1 K1) as (k2 & -> & ? & _). cbn. eauto.
  - intros K1 F1. eexists _, _. split; [done|]. by apply kinv_frame with k.
Qed.

(** ** Suspending and resuming *)

Lemma become_stat t s : stat_ok (OSTCBStat t) → is_u32 (OSTCBDly t) → stat_ok s →
  Z.land s OS_STAT_PEND_ANY = pend_bits t → may_become t (set_stat s t).
Proof.
  intros S D S' E. unfold may_become, pend_bits. cbn. split_and!; try done. left.
  split; [done|]. by right.
Qed.

Lemma OSTaskSuspend_ok p k : kinv k → OSRunning k = true →
  0 <= p < OS_LOWEST_PRIO ∨ p = OS_PRIO_SELF ∧ OSPrioCur k ≠ OS_TASK_IDLE_PRIO →
  ∃ k' r, OSTaskSuspend p k = Some (k', r) ∧ kinv k'.
Proof.
  intros H R Hp. destruct (kinv_running k H R) as (H0 & Hpre & (tc & Htc)). unfold OSTaskSuspend.
  set (p' := if p =? OS_PRIO_SELF then OSPrioCur k else p).
  assert (Hp' : 0 <= p' < OS_LOWEST_PRIO).
  { unfold p'. unfold OS_PRIO_SELF, OS_LOWEST_PRIO, OS_TASK_IDLE_PRIO in *.
    destruct (Z.eqb_spec p 255); [|lia].
    destruct H0 as (Hts & _). pose proof (tk_range _ _ _ (ts_task _ _ _ Hts _ _ Htc)). lia. }
  destruct (prio_entry_cases k p' H0) as [[-> _]|(t & -> & Ht)]; [lia|cbn; eauto|].
  cbn [mbind option_bind].
  assert (Hok : task_ok (OSEventTbl k) p' t) by (by eapply ts_task; [apply H0|]).
  destruct (stat_suspend (OSTCBStat t)) as (S1 & S2 & S3); [apply Hok|].
  destruct (retask_clear k p' t (set_stat (Z.lor (OSTCBStat t) OS_STAT_SUSPEND) t)) as [K1 F1];
    try done.
  { apply become_stat; [apply Hok..|done|done]. }
  { by intros [E _]. }
  { unfold OS_TASK_IDLE_PRIO, OS_LOWEST_PRIO in *. lia. }
  destruct ((p =? OS_PRIO_SELF) || (p =? OSPrioCur k)) eqn:E.
  - destruct (sched_pre_frame_ok k _ H R F1 K1) as (k2 & -> & ? & _). cbn. eauto.
  - eexists _, _. split; [done|]. apply orb_false_iff in E as [E1 E2].
    split; [done|]. pose proof H as [_ S]. unfold sched_ok in *. rewrite R in S.
    cbn [OSRunning put_tcb set_tcbs make_unready set_rdy]. rewrite R. destruct S as (P & _ & C).
    assert (Ep : p' = p) by (unfold p'; by rewrite E1).
    split_and!.
    + by apply frame_sched_pre with k.
    + destruct (frame_task _ _ _ _ F1 Htc) as (t' & ? & _). eauto.
    + cbn. intros N L.
      specialize (C N L). destruct (first_ready k H0) as (t1 & Ht1 & Hr1 & Hmin).
      rewrite <- C in Ht1, Hmin.
      (* the running task is still the first: only a task other than it left the list *)
      assert (Hm : p_mem (p_clear (OSRdy k) p') (OSPrioCur k) = true).
      { destruct H0 as (Hts & _). rewrite rdy_clear_other; [|apply Hts|unfold OS_LOWEST_PRIO in *; lia|lia].
        apply (ts_ready _ _ _ Hts). eauto. }
      assert (Hw : p_wf (p_clear (OSRdy k) p')).
      { apply p_wf_clear; [apply H0|unfold OS_LOWEST_PRIO in *; lia]. }
      destruct (p_first_least _ _ Hw Hm) as [Hm' Hle].
      rewrite p_mem_clear in Hm' by (apply H0 || (unfold OS_LOWEST_PRIO in *; lia)).
      apply andb_true_iff in Hm' as [Hm' _]. destruct H0 as (Hts & _).
      apply (ts_ready _ _ _ Hts) in Hm' as (t2 & ? & ?).
      assert (OSPrioCur k <= p_first (p_clear (OSRdy k) p')) by (by eapply Hmin). lia.
Qed.

Lemma OSTaskResume_ok p k : kinv k → OSRunning k = true → 0 <= p <= OS_LOWEST_PRIO →
  ∃ k' r, OSTaskResume p k = Some (k', r) ∧ kinv k'.
Proof.
  intros H R Hp. destruct (kinv_running k H R) as (H0 & Hpre & _). unfold OSTaskResume.
  destruct (prio_entry_cases k p H0) as [[-> _]|(t & -> & Ht)]; [lia|cbn; eauto|].
  cbn [mbind option_bind].
  destruct (Z.eqb_spec (Z.land (OSTCBStat t) OS_STAT_SUSPEND) OS_STAT_RDY) as [E|E]; [eauto|].
  assert (Hok : task_ok (OSEventTbl k) p t) by (by eapply ts_task; [apply H0|]).
  destruct (stat_resume (OSTCBStat t)) as (S1 & S2); [apply Hok|].
  set (t' := set_stat _ t).
  assert (B : may_become t t') by (by apply become_stat; [apply Hok..|done|done]).
  assert (Hnr : ¬ runnable t) by (intros [E' _]; apply E; by rewrite E').
  destruct (Z.eqb_spec (OSTCBStat t') OS_STAT_RDY) as [E1|E1];
    [destruct (Z.eqb_spec (OSTCBDly t') 0) as [E2|E2]|].
  - destruct (retask_set k p t t') as [K1 F1]; [done..|].
    cbn [OSRunning make_ready put_tcb set_tcbs set_rdy]. rewrite R.
    destruct (sched_pre_frame_ok k _ H R F1 K1) as (k2 & -> & ? & _). cbn. eauto.
  - destruct (retask_same k p t t') as [K1 F1]; [done..| |].
    { split; [by intros [_ ?]|done]. }
    eexists _, _. split; [done|]. by apply kinv_frame with k.
  - destruct (retask_same k p t t') as [K1 F1]; [done..| |].
    { split; [by intros [? _]|done]. }
    eexists _, _. split; [done|]. by apply kinv_frame with k.
Qed.

(** ** Waiting, and the second half of a waiting call *)

Lemma list_ok_put tcbs l p t t' : list_ok tcbs l → tcb_of tcbs p = Some t →
  list_ok (<[p := Some t']> tcbs) l.
Proof.
  intros [H1 H2 H3] Hp. split; try done. intros q. rewrite H2, tcb_of_insert.
  case_decide; [subst|done]. rewrite Hp. split; eauto.
Qed.

(** The TCB and the state in which a task waits. *)
Definition waiting (kd : evkind) (e : nat) (timeout : Z) (t : TCB) : TCB :=
  MkTCB (Z.lor (OSTCBStat t) (kind_stat kd)) OS_STAT_PEND_OK timeout (Some e) (OSTCBMsg t)
    (OSTCBCtxSwCtr t) (Some (kd, e)).
Definition wait_state (kd : evkind) (e : nat) (ev : EVENT) (timeout : Z) (t : TCB) (k : kernel)
    : kernel :=
  let p := OSPrioCur k in
  make_unready p (put_event e (ev_set_wait (p_set (OSEventWait ev) p) ev)
    (put_tcb p (waiting kd e timeout t) k)).

Lemma wait_state_inv kd e ev timeout t k : kinv0 k → OSEventTbl k !! e = Some ev →
  tcb_at k (OSPrioCur k) = Some t → runnable t → in_pend t = None →
  OSPrioCur k ≠ OS_TASK_IDLE_PRIO → OSEventType ev = kind_type kd →
  ev_avail (OSQTbl k) ev = false → is_u32 timeout → kinv0 (wait_state kd e ev timeout t k).
Proof.
  intros (Ht & Hl & He) Hev Hp [Hs Hd] Hc Hi Hty Hav Hu. set (p := OSPrioCur k) in *.
  pose proof (ts_task _ _ _ Ht _ _ Hp) as Hok. pose proof (tk_range _ _ _ Hok) as Hr.
  pose proof (ts_ev_wf _ _ _ Ht _ _ Hev) as Hw.
  assert (Hlt : (e < length (OSEventTbl k))%nat) by (by eapply lookup_lt_Some).
  split; [|split].
  - cbn. fold p. eapply tasks_ok_update; try done.
    + apply p_wf_clear; [apply Ht|done].
    + intros. apply rdy_clear_other; [apply Ht|done..].
    + rewrite rdy_clear_same by (done || apply Ht). split; [done|]. intros [E _]. cbn in E.
      rewrite Hs in E. by destruct kd.
    + eapply evs_agree_wait; [done..|by apply p_wf_set|]. intros. by apply rdy_set_other.
    + split; rewrite ?length_insert; try done.
      * cbn. rewrite Hs. unfold stat_ok. destruct kd; cbn; tauto.
      * by intros e' [= <-].
      * by intros kd' e' [= <- <-].
      * intros e1 ev1 He1 Hm. apply insert_lookup_cases in He1 as [(-> & -> & _)|[Hne He1]].
        -- cbn. split; [done|]. exists kd. split_and!; [done..|]. left.
           unfold pend_bits. cbn. rewrite Hs. by destruct kd.
        -- exfalso. destruct (tk_listed _ _ _ Hok e1 ev1 He1 Hm) as (_ & kd' & E & _). congruence.
      * intros _. exists kd, e, (ev_set_wait (p_set (OSEventWait ev) p) ev).
        rewrite list_lookup_insert_eq by done. cbn. split_and!; try done.
        -- unfold pend_bits. cbn. rewrite Hs. by destruct kd.
        -- by apply rdy_set_same.
  - by apply list_ok_put with t.
  - eapply events_ok_wait; [done..|]. cbn. by rewrite Hav.
Qed.
Lemma pend_wait_ok kd e ev timeout k : kinv k → OSRunning k = true →
  OSIntNesting k = 0 → OSLockNesting k = 0 → OSPrioCur k ≠ OS_TASK_IDLE_PRIO →
  (∀ t, tcb_at k (OSPrioCur k) = Some t → in_pend t = None) →
  OSEventTbl k !! e = Some ev → OSEventType ev = kind_type kd →
  ev_avail (OSQTbl k) ev = false → is_u32 timeout →
  ∃ t k', tcb_at k (OSPrioCur k) = Some t ∧ pend_wait kd e timeout k = Some k' ∧ kinv k' ∧
    switched (wait_state kd e ev timeout t k) k'.
Proof.
  intros H R N L I C Hev Hty Hav Hu. destruct (cur_runnable k H R N L) as (t & Hp & Hr).
  exists t. set (k1 := wait_state kd e ev timeout t k).
  assert (H1 : kinv0 k1) by (apply wait_state_inv; auto; apply H).
  assert (E : pend_wait kd e timeout k = OS_Sched k1).
  { unfold pend_wait. rewrite Hp. cbn [mbind option_bind]. unfold OS_EventTaskWait. cbn [OSPrioCur put_tcb set_tcbs].
    unfold tcb_at at 1. cbn [OSTCBPrioTbl put_tcb set_tcbs]. rewrite tcb_of_insert_eq.
    cbn [mbind option_bind OSEventTbl put_tcb set_tcbs]. rewrite Hev. cbn [mbind option_bind].
    f_equal. unfold k1, wait_state, make_unready, put_event, put_tcb. cbn. by rewrite insert_insert_eq. }
  destruct (OS_Sched_spec k1 H1) as (k' & E' & ? & ?).
  { unfold sched_pre. cbn. rewrite N, L. split_and!; [lia..|by left]. }
  { done. }
  exists k'. rewrite E. auto.
Qed.

(** The TCB and the state after the second half. *)
Definition woken (t : TCB) : TCB :=
  MkTCB OS_STAT_RDY OS_STAT_PEND_OK (OSTCBDly t) None 0 (OSTCBCtxSwCtr t) None.
Definition pend_result (t : TCB) : Z * Z :=
  if OSTCBStatPend t =? OS_STAT_PEND_OK then (OSTCBMsg t, OS_ERR_NONE)
  else if OSTCBStatPend t =? OS_STAT_PEND_ABORT then (0, OS_ERR_PEND_ABORT)
  else (0, OS_ERR_TIMEOUT).

Lemma pend_done_inv p kd e t rdy tcbs evs evs' : tasks_ok rdy tcbs evs →
  tcb_of tcbs p = Some t → runnable t → in_pend t = Some (kd, e) → evs_agree p evs evs' →
  (∀ e1 ev1, evs' !! e1 = Some ev1 → p_mem (OSEventWait ev1) p = false) →
  ∀ m, tasks_ok rdy (<[p := Some (set_msg m (woken t))]> tcbs) evs'.
Proof.
  intros Ht Hp [Hs Hd] Hc Ha Hno m. pose proof (ts_task _ _ _ Ht _ _ Hp) as Hok.
  eapply tasks_ok_update; try done.
  - apply Ht.
  - rewrite (ts_ready _ _ _ Ht). split; [done|]. intros _. by exists t.
  - split; try done; [apply Hok|by left|apply Hok|]. cbn.
    intros e1 ev1 He1 Hm. by rewrite (Hno _ _ He1) in Hm.
Qed.
(** A runnable task is listed nowhere but in the event it timed out on. *)
Lemma runnable_listed evs p t kd e e1 ev1 : task_ok evs p t → runnable t →
  in_pend t = Some (kd, e) → evs !! e1 = Some ev1 → p_mem (OSEventWait ev1) p = true →
  e1 = e ∧ OSTCBStatPend t = OS_STAT_PEND_TO.
Proof.
  intros Hok [Hs Hd] Hc He Hm.
  destruct (tk_listed _ _ _ Hok e1 ev1 He Hm) as (_ & kd' & E & _ & [B|(_ & ? & _)]).
  - unfold pend_bits in B. rewrite Hs in B. by destruct kd'.
  - split; congruence.
Qed.
Lemma pend_done_ok kd e t k : kinv k → OSRunning k = true → OSIntNesting k = 0 →
  tcb_at k (OSPrioCur k) = Some t → in_pend t = Some (kd, e) →
  ∃ k', pend_done e k = Some (k', pend_result t) ∧ kinv k' ∧
    ∀ m, kinv (put_tcb (OSPrioCur k) (set_msg m (woken t)) k').
Proof.
  intros H R N Hp Hc. destruct (kinv_running k H R) as (H0 & (Hn & Hl & Hpre) & _).
  assert (L : OSLockNesting k = 0).
  { destruct Hpre as [?|(t0 & Ht0 & Hz)]; [tauto|]. simplify_eq.
    destruct (decide (0 < OSLockNesting k)); [rewrite Hz in Hc by done; done|lia]. }
  destruct (cur_runnable k H R N L) as (t0 & Ht0 & Hr). simplify_eq.
  pose proof H as [(Hts & Hls & Hes) Hsch]. unfold sched_ok in Hsch. rewrite R in Hsch.
  set (p := OSPrioCur k) in *. pose proof (ts_task _ _ _ Hts _ _ Hp) as Hok.
  pose proof (tk_range _ _ _ Hok) as Hrg.
  assert (Hall : ∃ evs', evs_agree p (OSEventTbl k) evs' ∧
    events_ok evs' (OSEventFreeList k) (OSQTbl k) (OSQFreeList k) ∧
    (∀ e1 ev1, evs' !! e1 = Some ev1 → p_mem (OSEventWait ev1) p = false) ∧
    pend_done e k = Some (put_tcb p (woken t) (set_events evs' k), pend_result t)).
  { unfold pend_done, pend_result. fold p. rewrite Hp. cbn [mbind option_bind].
    assert (Hnone : OSTCBStatPend t ≠ OS_STAT_PEND_TO → ∀ e1 ev1, OSEventTbl k !! e1 = Some ev1 →
      p_mem (OSEventWait ev1) p = false).
    { intros Hto e1 ev1 He1. destruct (p_mem _ p) eqn:Hm; [|done].
      by destruct (runnable_listed _ _ _ _ _ _ _ Hok Hr Hc He1 Hm). }
    assert (Hid : put_tcb p (woken t) k = put_tcb p (woken t) (set_events (OSEventTbl k) k)) by done.
    assert (Hag : evs_agree p (OSEventTbl k) (OSEventTbl k)) by (by eapply evs_agree_refl).
    destruct (Z.eqb_spec (OSTCBStatPend t) OS_STAT_PEND_OK) as [E|E].
    { exists (OSEventTbl k). split_and!; try done. apply Hnone. by rewrite E. }
    destruct (Z.eqb_spec (OSTCBStatPend t) OS_STAT_PEND_ABORT) as [E1|E1].
    { exists (OSEventTbl k). split_and!; try done. apply Hnone. by rewrite E1. }
    destruct (lookup_lt_is_Some_2 (OSEventTbl k) e) as [ev He]; [by eapply tk_call|].
    pose proof (ts_ev_wf _ _ _ Hts _ _ He) as Hw.
    exists (<[e := OS_EventTaskRemove p ev]> (OSEventTbl k)). rewrite He. cbn [mbind option_bind].
    split_and!; try done.
    - eapply evs_agree_wait; [done..|by apply p_wf_clear|]. intros. by apply rdy_clear_other.
    - eapply events_ok_wait; [done..|]. intros Hav.
      pose proof (es_idle _ _ _ _ Hes _ _ He Hav) as Hg. apply p_grp_zero; [by apply p_wf_clear|].
      intros q. rewrite p_mem_clear by done. by rewrite (proj1 (p_grp_zero _ Hw) Hg q).
    - intros e1 ev1 He1. apply insert_lookup_cases in He1 as [(-> & -> & _)|[Hne He1]].
      + by apply rdy_clear_same.
      + destruct (p_mem (OSEventWait ev1) p) eqn:Hm; [|done].
        by destruct (runnable_listed _ _ _ _ _ _ _ Hok Hr Hc He1 Hm). }
  destruct Hall as (evs' & Ha & Hes' & Hno & E).
  exists (put_tcb p (woken t) (set_events evs' k)). split; [done|].
  assert (G : ∀ m, kinv (put_tcb p (set_msg m (woken t)) (set_events evs' k))).
  { intros m. split; [split; [|split]|].
    - by apply pend_done_inv with kd e (OSEventTbl k).
    - by apply list_ok_put with t.
    - done.
    - unfold sched_ok. cbn. rewrite R. destruct Hsch as (_ & _ & C). fold p in C |- *.
      split_and!; [|unfold tcb_at; cbn; rewrite tcb_of_insert_eq; eauto|done].
      unfold sched_pre. cbn. rewrite N, L. split_and!; [lia..|by left]. }
  split; [exact (G 0)|]. intros m. specialize (G m). unfold put_tcb in *. cbn in *.
  by rewrite insert_insert_eq.
Qed.

(** ** Creating and deleting tasks *)

Definition add_task (prio : Z) (k : kernel) : kernel :=
  set_taskctr (u8 (OSTaskCtr k + 1)) (make_ready prio (set_tcblist (prio :: OSTCBList k)
    (put_tcb prio new_tcb (set_tcbfree (pred (OSTCBFree k)) k)))).

Lemma add_task_ok prio k : kinv0 k → 0 <= prio < 64 → OSTCBPrioTbl k !! prio = None →
  kinv0 (add_task prio k) ∧
  ∀ q t, tcb_at k q = Some t → tcb_at (add_task prio k) q = Some t.
Proof.
  intros (Ht & Hl & He) Hr Hn.
  assert (Hn' : tcb_of (OSTCBPrioTbl k) prio = None) by (unfold tcb_of; by rewrite Hn).
  assert (Hnl : ∀ e ev, OSEventTbl k !! e = Some ev → p_mem (OSEventWait ev) prio = false).
  { intros e ev Hev. destruct (p_mem _ prio) eqn:Hm; [|done].
    destruct (ts_waiters _ _ _ Ht e ev prio Hev Hm) as [t ?]. congruence. }
  assert (Hnew : runnable new_tcb) by done.
  split.
  2:{ intros q t Hq. unfold tcb_at in *. cbn. rewrite tcb_of_insert. case_decide; [congruence|done]. }
  split; [|split; [|done]]; cbn.
  - split.
    + apply p_wf_set; [apply Ht|done].
    + apply Ht.
    + intros p. destruct (decide (p = prio)) as [->|].
      * by rewrite lookup_insert_eq.
      * rewrite lookup_insert_ne by done. apply Ht.
    + intros p t. rewrite tcb_of_insert. case_decide; [|by apply Ht]. intros [= <-]. subst p.
      split; try done; [by left|]. intros e ev Hev Hm. by rewrite (Hnl _ _ Hev) in Hm.
    + intros p. rewrite tcb_of_insert. case_decide.
      * subst p. rewrite rdy_set_same by (done || apply Ht). split; [eauto|done].
      * rewrite rdy_set_other by (done || apply Ht). apply Ht.
    + intros e ev p Hev Hm. rewrite tcb_of_insert. case_decide; [eauto|]. by eapply ts_waiters.
    + rewrite tcb_of_insert. destruct (ts_idle _ _ _ Ht) as (t0 & H0 & H1).
      case_decide; [congruence|]. eauto.
  - destruct Hl as [L1 L2 L3]. split.
    + apply NoDup_cons. split; [|done]. rewrite L2, Hn'. by intros [].
    + intros p. rewrite elem_of_cons, L2, tcb_of_insert. case_decide; [subst|]; naive_solver.
    + destruct (OSTCBList k); [done|]. by rewrite last_cons_cons.
Qed.

(** The start: a state without tasks, and the idle task. *)
Lemma idle_task_ok k : OSTCBPrioTbl k = ∅ → OSTCBList k = [] → OSRdy k = p_empty →
  (∀ e ev, OSEventTbl k !! e = Some ev → OSEventWait ev = p_empty) →
  events_ok (OSEventTbl k) (OSEventFreeList k) (OSQTbl k) (OSQFreeList k) →
  kinv0 (add_task OS_TASK_IDLE_PRIO k).
Proof.
  intros Ht Hl Hr Hw He. split; [|split; [|done]]; cbn; rewrite ?Ht, ?Hl, ?Hr.
  - assert (Hnl : ∀ e ev p, OSEventTbl k !! e = Some ev → p_mem (OSEventWait ev) p = true → False).
    { intros e ev p Hev. by rewrite (Hw _ _ Hev), p_mem_empty. }
    assert (Hi : ∀ p t, tcb_of (<[OS_TASK_IDLE_PRIO := Some new_tcb]> ∅) p = Some t →
      p = OS_TASK_IDLE_PRIO ∧ t = new_tcb).
    { intros p t. rewrite tcb_of_insert. case_decide; [by intros [= <-]|].
      unfold tcb_of. by rewrite lookup_empty. }
    split.
    + apply p_wf_set; [apply p_wf_empty|unfold OS_TASK_IDLE_PRIO; lia].
    + intros e ev Hev. rewrite (Hw _ _ Hev). apply p_wf_empty.
    + intros p. destruct (decide (p = OS_TASK_IDLE_PRIO)) as [->|].
      * by rewrite lookup_insert_eq.
      * by rewrite lookup_insert_ne, lookup_empty.
    + intros p t Hp. apply Hi in Hp as [-> ->].
      split; try done; [by left|]. intros e ev Hev Hm. by edestruct Hnl.
    + intros p. rewrite p_mem_set by (apply p_wf_empty || (unfold OS_TASK_IDLE_PRIO; lia)).
      rewrite p_mem_empty. cbn [orb]. rewrite Z.eqb_eq. split.
      * intros ->. rewrite tcb_of_insert_eq. by exists new_tcb.
      * intros (t & Hp & _). by apply Hi in Hp as [-> _].
    + intros e ev p Hev Hm. by edestruct Hnl.
    + rewrite tcb_of_insert_eq. by exists new_tcb.
  - split; [apply NoDup_singleton| |done].
    intros p. rewrite list_elem_of_singleton, tcb_of_insert. case_decide; [subst; naive_solver|].
    unfold tcb_of. rewrite lookup_empty. split; [done|by intros []].
Qed.

(** [OSTaskCreate] in terms of [add_task]. *)
Lemma OSTaskCreate_eq prio k : 0 <= prio < 64 → (∀ p, OSTCBPrioTbl k !! p ≠ Some None) →
  OSTaskCreate prio k =
    if 0 <? OSIntNesting k then Some (k, OS_ERR_TASK_CREATE_ISR)
    else match OSTCBPrioTbl k !! prio with
         | Some _ => Some (k, OS_ERR_PRIO_EXIST)
         | None =>
           match OSTCBFree k with
           | O => Some (k, OS_ERR_TASK_NO_MORE_TCB)
           | S _ => if OSRunning k then k ← OS_Sched (add_task prio k); Some (k, OS_ERR_NONE)
                    else Some (add_task prio k, OS_ERR_NONE)
           end
         end.
Proof.
  intros Hr Hn. unfold OSTaskCreate, prio_entry.
  replace (0 <=? prio) with true by lia. replace (prio <=? OS_LOWEST_PRIO) with true
    by (unfold OS_LOWEST_PRIO; lia). cbn [andb mbind option_bind].
  destruct (0 <? OSIntNesting k); [done|]. destruct (OSTCBPrioTbl k !! prio) as [o|] eqn:E; [done|].
  unfold OS_TCBInit. cbn [OSTCBFree set_tcbs]. destruct (OSTCBFree k) as [|n] eqn:F.
  - cbn. rewrite delete_insert_id by done. by destruct k.
  - assert (A : set_taskctr (u8 (OSTaskCtr k + 1)) (make_ready prio (set_tcblist (prio :: OSTCBList k)
      (put_tcb prio new_tcb (set_tcbfree n (set_tcbs (<[prio:=None]> (OSTCBPrioTbl k)) k)))))
      = add_task prio k).
    { unfold add_task, put_tcb. rewrite F. cbn. by rewrite insert_insert_eq. }
    cbn zeta. cbn [OS_ERR_NONE]. cbn [OSTaskCtr OSTCBList make_ready set_rdy set_tcblist put_tcb set_tcbs
      set_tcbfree OSRunning set_taskctr]. rewrite A. done.
Qed.

Lemma OSTaskCreate_ok prio k : kinv k → 0 <= prio < 64 →
  ∃ k' r, OSTaskCreate prio k = Some (k', r) ∧ kinv k'.
Proof.
  intros H Hr. pose proof H as [H0 S]. rewrite OSTaskCreate_eq by (done || apply H0).
  destruct (Z.ltb_spec 0 (OSIntNesting k)); [eauto|].
  destruct (OSTCBPrioTbl k !! prio) eqn:E; [eauto|]. destruct (OSTCBFree k); [eauto|].
  destruct (add_task_ok prio k H0 Hr E) as [K1 Hk]. unfold sched_ok in S.
  destruct (OSRunning k) eqn:R.
  - destruct S as ((? & ? & P) & (t & Ht) & C).
    destruct (OS_Sched_spec (add_task prio k) K1) as (k' & -> & ? & _); [|done|cbn; eauto].
    unfold sched_pre. cbn. split_and!; [lia..|]. destruct P as [?|(t0 & Ht0 & ?)]; [by left|right].
    exists t0. split; [|done]. by apply Hk.
  - eexists _, _. split; [done|]. split; [done|]. unfold sched_ok. cbn. by rewrite R.
Qed.

Lemma tcb_of_delete tcbs p q :
  tcb_of (delete p tcbs) q = if decide (q = p) then None else tcb_of tcbs q.
Proof.
  unfold tcb_of. destruct (decide (q = p)) as [->|].
  - by rewrite lookup_delete_eq.
  - by rewrite lookup_delete_ne.
Qed.
Lemma tasks_ok_delete rdy tcbs evs evs' p t : tasks_ok rdy tcbs evs → tcb_of tcbs p = Some t →
  p ≠ OS_TASK_IDLE_PRIO → evs_agree p evs evs' →
  (∀ e ev, evs' !! e = Some ev → p_mem (OSEventWait ev) p = false) →
  tasks_ok (p_clear rdy p) (delete p tcbs) evs'.
Proof.
  intros H Hp Hi Ha Hno. pose proof (tk_range _ _ _ (ts_task _ _ _ H _ _ Hp)) as Hr. split.
  - apply p_wf_clear; [apply H|done].
  - intros e ev He. by eapply Ha.
  - intros q Hq. destruct (decide (q = p)) as [->|].
    + by rewrite lookup_delete_eq in Hq.
    + rewrite lookup_delete_ne in Hq by done. by eapply ts_real.
  - intros q tq. rewrite tcb_of_delete. case_decide; [done|]. intros Hq.
    eapply task_ok_agree; [done..|]. by eapply ts_task.
  - intros q. rewrite tcb_of_delete. case_decide.
    + subst q. rewrite rdy_clear_same by (done || apply H). split; [done|by intros (? & ? & _)].
    + rewrite rdy_clear_other by (done || apply H). apply H.
  - intros e ev q He Hm. rewrite tcb_of_delete. case_decide; [subst; by rewrite (Hno _ _ He) in Hm|].
    destruct Ha as [_ Ha]. destruct (Ha _ _ He) as (_ & ev0 & He0 & _ & Hm').
    rewrite Hm' in Hm by done. by eapply ts_waiters.
  - rewrite tcb_of_delete. case_decide; [congruence|]. apply H.
Qed.
Lemma list_ok_delete tcbs l p : list_ok tcbs l → p ≠ OS_TASK_IDLE_PRIO →
  ∃ l', unlink_tcb p l = Some l' ∧ list_ok (delete p tcbs) l'.
Proof.
  intros [L1 L2 L3] Hp. unfold unlink_tcb. rewrite bool_decide_eq_false_2 by (rewrite L3; congruence).
  eexists. split; [done|]. split.
  - by apply NoDup_filter.
  - intros q. rewrite list_elem_of_filter, L2, tcb_of_delete. case_decide; [|tauto].
    split; [tauto|by intros []].
  - apply last_Some in L3 as [l0 ->]. rewrite filter_app. cbn.
    rewrite decide_True by congruence. by rewrite last_snoc.
Qed.

(** The wait list the task to delete is in, if any. *)
Definition unwait (p : Z) (t : TCB) (k : kernel) : option kernel :=
  match OSTCBEventPtr t with
  | Some e => ev ← OSEventTbl k !! e; Some (put_event e (OS_EventTaskRemove p ev) k)
  | None => Some k
  end.
Lemma unwait_ok p t k : kinv0 k → tcb_at k p = Some t →
  ∃ evs', (∀ rdy, unwait p t (set_rdy rdy k) = Some (set_events evs' (set_rdy rdy k))) ∧
    evs_agree p (OSEventTbl k) evs' ∧
    (∀ e ev, evs' !! e = Some ev → p_mem (OSEventWait ev) p = false) ∧
    events_ok evs' (OSEventFreeList k) (OSQTbl k) (OSQFreeList k).
Proof.
  intros (Ht & Hl & He) Hp. pose proof (ts_task _ _ _ Ht _ _ Hp) as Hok.
  pose proof (tk_range _ _ _ Hok) as Hr. unfold unwait.
  assert (Hag : evs_agree p (OSEventTbl k) (OSEventTbl k)) by (by eapply evs_agree_refl).
  destruct (OSTCBEventPtr t) as [e|] eqn:E.
  - destruct (lookup_lt_is_Some_2 (OSEventTbl k) e) as [ev Hev]; [by eapply tk_evptr|].
    pose proof (ts_ev_wf _ _ _ Ht _ _ Hev) as Hw.
    exists (<[e := OS_EventTaskRemove p ev]> (OSEventTbl k)). split_and!.
    + intros rdy. cbn [OSEventTbl set_rdy]. by rewrite Hev.
    + eapply evs_agree_wait; [done..|by apply p_wf_clear|]. intros. by apply rdy_clear_other.
    + intros e1 ev1 He1. apply insert_lookup_cases in He1 as [(-> & -> & _)|[Hne He1]].
      * by apply rdy_clear_same.
      * destruct (p_mem (OSEventWait ev1) p) eqn:Hm; [|done].
        destruct (tk_listed _ _ _ Hok _ _ He1 Hm) as (? & _). congruence.
    + eapply events_ok_wait; [done..|]. intros Hav. apply p_grp_zero; [by apply p_wf_clear|].
      intros q. rewrite p_mem_clear by done.
      by rewrite (proj1 (p_grp_zero _ Hw) (es_idle _ _ _ _ He _ _ Hev Hav) q).
  - exists (OSEventTbl k). split_and!; try done. intros e1 ev1 He1.
    destruct (p_mem (OSEventWait ev1) p) eqn:Hm; [|done].
    destruct (tk_listed _ _ _ Hok _ _ He1 Hm) as (? & _). congruence.
Qed.

Lemma OSTaskDel_ok prio k : kinv k → OSRunning k = true →
  0 <= prio <= OS_LOWEST_PRIO ∨ prio = OS_PRIO_SELF ∧ OSPrioCur k ≠ OS_TASK_IDLE_PRIO →
  (prio = OS_PRIO_SELF ∨ prio = OSPrioCur k → OSLockNesting k = 0) →
  ∃ k' r, OSTaskDel prio k = Some (k', r) ∧ kinv k'.
Proof.
  intros H R Hp Hself. destruct (kinv_running k H R) as (H0 & (Hn & Hl & P) & (tc & Htc)).
  unfold OSTaskDel. destruct (Z.ltb_spec 0 (OSIntNesting k)); [eauto|].
  destruct (Z.eqb_spec prio OS_TASK_IDLE_PRIO); [eauto|].
  set (p := if prio =? OS_PRIO_SELF then OSPrioCur k else prio).
  assert (Hcr : 0 <= OSPrioCur k <= OS_LOWEST_PRIO).
  { destruct H0 as (Hts & _). pose proof (tk_range _ _ _ (ts_task _ _ _ Hts _ _ Htc)).
    unfold OS_LOWEST_PRIO. lia. }
  assert (Hp' : 0 <= p <= OS_LOWEST_PRIO ∧ p ≠ OS_TASK_IDLE_PRIO ∧
    (p = OSPrioCur k → OSLockNesting k = 0)).
  { unfold p, OS_PRIO_SELF, OS_LOWEST_PRIO in *. destruct (Z.eqb_spec prio 255); naive_solver lia. }
  destruct Hp' as (Hp1 & Hp2 & Hp3).
  destruct (prio_entry_cases k p H0) as [[-> _]|(t & -> & Ht)]; [done|cbn; eauto|].
  cbn [mbind option_bind].
  destruct (unwait_ok p t k H0 Ht) as (evs' & Hu & Ha & Hno & He').
  specialize (Hu (p_clear (OSRdy k) p)). unfold unwait in Hu. unfold make_unready. rewrite Hu. clear Hu.
  cbn [mbind option_bind OSLockNesting set_events set_rdy].
  set (k1 := if 0 <? _ then _ else _).
  assert (Hk1 : ∃ L, 0 <= L <= 255 ∧ (L = 0 ↔ OSLockNesting k = 0) ∧
    k1 = set_lock L (set_events evs' (set_rdy (p_clear (OSRdy k) p) k))).
  { unfold k1. destruct (Z.ltb_spec (OSLockNesting k) 255); cbn [OSLockNesting set_lock set_events set_rdy].
    - destruct (Z.ltb_spec 0 (OSLockNesting k + 1)); [|lia].
      exists (OSLockNesting k). split_and!; [lia..|]. unfold set_lock. cbn. repeat f_equal. lia.
    - destruct (Z.ltb_spec 0 (OSLockNesting k)); [|lia]. exists (OSLockNesting k - 1).
      split_and!; [lia..|done]. }
  destruct Hk1 as (L & HL & HL0 & ->). cbn [OSTaskCtr OSTCBPrioTbl OSTCBList set_taskctr set_tcbs set_lock set_events set_rdy].
  destruct (list_ok_delete (OSTCBPrioTbl k) (OSTCBList k) p) as (l' & -> & Hl'); [apply H0|done|].
  cbn [mbind option_bind OSRunning set_tcbfree set_tcblist set_tcbs set_taskctr set_lock set_events set_rdy].
  rewrite R. set (k2 := set_tcbfree _ _).
  assert (H2 : kinv0 k2).
  { destruct H0 as (Hts & _). split; [|done]. by apply tasks_ok_delete with (OSEventTbl k) t. }
  destruct (OS_Sched_spec k2 H2) as (k' & -> & ? & _); [|done|cbn; eauto].
  unfold sched_pre. cbn. split_and!; [lia..|].
  destruct (decide (p = OSPrioCur k)); [left; split; [lia|by apply HL0, Hp3]|].
  destruct (decide (OSLockNesting k = 0)); [left; split; [lia|by apply HL0]|]. right.
  destruct P as [?|(t0 & Ht0 & Hc)]; [tauto|]. exists t0. split.
  - unfold tcb_at. cbn. rewrite tcb_of_delete. by case_decide.
  - intros _. apply Hc. lia.
Qed.
