(* ===== verification/KEventInv.v ===== *)
(** * Semaphore, mailbox and queue calls keep the invariant

    The counterpart of [KStep] for [KEvent]. *)
From S2P Require Import Prelude PrioTab Kernel KEvent KInv KStep.

(** The state and its invariant after changing the contents of an event or a queue. *)
Lemma kinv_put_event k e ev ev' : kinv k → OSEventTbl k !! e = Some ev →
  OSEventType ev' = OSEventType ev → OSEventWait ev' = OSEventWait ev →
  ev_typed (OSQTbl k) (OSQFreeList k) ev' →
  (ev_avail (OSQTbl k) ev' = true → p_grp (OSEventWait ev) = 0) →
  (OSEventType ev = kind_type KQ → OSEventPtr ev' = OSEventPtr ev) →
  kinv (put_event e ev' k).
Proof.
  intros [(Ht & Hl & He) S] Hev T W Ty Av Q. split; [|done]. split; [|split; [done|]].
  - by apply tasks_ok_evs with ev.
  - cbn. eapply events_ok_put; try done.
    + by rewrite W.
    + rewrite T. auto.
    + rewrite T. destruct (decide (OSEventType ev = OS_EVENT_TYPE_UNUSED)); auto.
Qed.
Lemma kinv_put_queue k e ev q pq pq' : kinv k → OSEventTbl k !! e = Some ev →
  OSEventType ev = kind_type KQ → OSEventPtr ev = EvQ q → OSQTbl k !! q = Some pq →
  q_ok pq' → (0 < OSQEntries pq' → p_grp (OSEventWait ev) = 0) →
  kinv (put_queue q pq' k).
Proof.
  intros [(Ht & Hl & He) S] Hev T P Q O G. split; [|done]. split; [done|split; [done|]].
  cbn. by eapply events_ok_queue.
Qed.

(** A used event has the contents of its kind. *)
Lemma typed_of k e ev : kinv k → OSEventTbl k !! e = Some ev →
  ev_typed (OSQTbl k) (OSQFreeList k) ev.
Proof. intros [(_ & _ & H) _] He. by eapply es_typed. Qed.
Lemma sem_cnt k e ev : kinv k → OSEventTbl k !! e = Some ev → OSEventType ev = kind_type KSem →
  0 <= OSEventCnt ev <= 65535.
Proof.
  intros H He T. destruct (typed_of k e ev H He) as [E|[[_ ?]|[[E _]|[E _]]]]; try done;
    rewrite T in E; discriminate.
Qed.
Lemma mbox_has k e ev : kinv k → OSEventTbl k !! e = Some ev → OSEventType ev = kind_type KMbox →
  ∃ m, mbox_msg ev = Some m ∧ OSEventPtr ev = EvMsg m.
Proof.
  intros H He T. unfold mbox_msg.
  destruct (typed_of k e ev H He) as [E|[[E _]|[[_ (m & ->)]|[E _]]]]; eauto;
    rewrite T in E; discriminate.
Qed.
Lemma queue_has k e ev : kinv k → OSEventTbl k !! e = Some ev → OSEventType ev = kind_type KQ →
  ∃ q pq, queue_of ev k = Some (q, pq) ∧ OSEventPtr ev = EvQ q ∧ OSQTbl k !! q = Some pq ∧
    q_ok pq ∧ q ∉ OSQFreeList k.
Proof.
  intros H He T. unfold queue_of.
  destruct (typed_of k e ev H He) as [E|[[E _]|[[E _]|(_ & q & pq & -> & Hq & ? & ?)]]];
    try (rewrite T in E; discriminate). exists q, pq. by rewrite Hq.
Qed.
Lemma no_waiters k e ev : kinv k → OSEventTbl k !! e = Some ev →
  ev_avail (OSQTbl k) ev = true → p_grp (OSEventWait ev) = 0.
Proof. intros [(_ & _ & H) _] He. by eapply es_idle. Qed.

(** ** The ring of a queue block *)

Lemma q_ok_take pq : q_ok pq → 0 < OSQEntries pq →
  ∃ pq' m, q_take pq = Some (pq', m) ∧ q_ok pq' ∧ OSQEntries pq' = OSQEntries pq - 1.
Proof.
  intros (Hs & Hl & He & Ho) Hpos. destruct Ho as [Hr Hi]; [lia|]. unfold q_take.
  destruct (lookup_lt_is_Some_2 (OSQBuf pq) (Z.to_nat (OSQOut pq))) as [m ->]; [lia|].
  cbn [mbind option_bind]. eexists _, _. split; [done|]. split; [|done].
  unfold q_ok. cbn. split_and!; try lia. intros _. rewrite Hi.
  destruct (Z.eqb_spec (OSQOut pq + 1) (OSQSize pq)) as [E|E]; (split; [lia|]).
  - replace (0 + (OSQEntries pq - 1)) with (OSQOut pq + OSQEntries pq + (-1) * OSQSize pq) by lia.
    by rewrite Z_mod_plus_full.
  - f_equal. lia.
Qed.
Lemma q_ok_put_back m pq : q_ok pq → OSQEntries pq < OSQSize pq →
  ∃ pq', q_put_back m pq = Some pq' ∧ q_ok pq' ∧ OSQEntries pq' = OSQEntries pq + 1.
Proof.
  intros (Hs & Hl & He & Ho) Hlt. destruct Ho as [Hr Hi]; [lia|]. unfold q_put_back, q_store.
  assert (Hi' : 0 <= OSQIn pq < OSQSize pq) by (rewrite Hi; apply Z.mod_pos_bound; lia).
  rewrite bool_decide_eq_true_2 by lia. cbn [mbind option_bind]. eexists. split; [done|].
  assert (E1 : u16 (OSQEntries pq + 1) = OSQEntries pq + 1) by (apply u16_small; lia).
  split; [|done]. unfold q_ok. cbn. rewrite length_insert, E1. split_and!; try lia.
  intros _. split; [done|].
  replace (OSQOut pq + (OSQEntries pq + 1)) with (OSQOut pq + OSQEntries pq + 1) by lia.
  rewrite <- Zplus_mod_idemp_l, <- Hi. destruct (Z.eqb_spec (OSQIn pq + 1) (OSQSize pq)) as [->|].
  - by rewrite Z_mod_same_full.
  - rewrite Z.mod_small by lia. done.
Qed.
Lemma q_ok_put_front m pq : q_ok pq → OSQEntries pq < OSQSize pq →
  ∃ pq', q_put_front m pq = Some pq' ∧ q_ok pq' ∧ OSQEntries pq' = OSQEntries pq + 1.
Proof.
  intros (Hs & Hl & He & Ho) Hlt. destruct Ho as [Hr Hi]; [lia|]. unfold q_put_front, q_store.
  set (o := (if OSQOut pq =? 0 then OSQSize pq else OSQOut pq) - 1).
  assert (Ho' : 0 <= o < OSQSize pq) by (unfold o; destruct (Z.eqb_spec (OSQOut pq) 0); lia).
  rewrite bool_decide_eq_true_2 by lia. cbn [mbind option_bind]. eexists. split; [done|].
  assert (E1 : u16 (OSQEntries pq + 1) = OSQEntries pq + 1) by (apply u16_small; lia).
  split; [|done]. unfold q_ok. cbn. rewrite length_insert, E1. split_and!; try lia.
  intros _. split; [done|]. rewrite Hi. unfold o. destruct (Z.eqb_spec (OSQOut pq) 0) as [E|E].
  - replace (OSQSize pq - 1 + (OSQEntries pq + 1)) with (OSQOut pq + OSQEntries pq + 1 * OSQSize pq)
      by lia. by rewrite Z_mod_plus_full.
  - f_equal. lia.
Qed.

(** ** Posting to a waiter, aborting, deleting *)

Lemma post_waiter_ok kd e ev pmsg k : kinv k → OSRunning k = true →
  OSEventTbl k !! e = Some ev → OSEventType ev = kind_type kd → p_grp (OSEventWait ev) ≠ 0 →
  ∃ k1 p k', OS_EventTaskRdy e pmsg (kind_stat kd) OS_STAT_PEND_OK k = Some (k1, p) ∧
    OS_Sched k1 = Some k' ∧ kinv k'.
Proof.
  intros H R He T G. destruct (kinv_running k H R) as (H0 & _).
  destruct (event_rdy_spec e ev kd pmsg OS_STAT_PEND_OK k H0 He T G) as (t & _ & _ & _ & E & H1 & F).
  destruct (sched_pre_frame_ok k _ H R F H1) as (k' & ? & ? & _). eauto 10.
Qed.
Lemma abort_waiters_ok kd e ev opt k : kinv k → OSRunning k = true →
  OSEventTbl k !! e = Some ev → OSEventType ev = kind_type kd →
  ∃ k' r, abort_waiters kd e opt k = Some (k', r) ∧ kinv k'.
Proof.
  intros H R He T. destruct (kinv_running k H R) as (H0 & _). unfold abort_waiters. rewrite He.
  cbn [mbind option_bind]. destruct (Z.eqb_spec (p_grp (OSEventWait ev)) 0) as [G|G]; [eauto|].
  destruct (opt =? 1).
  - destruct (ready_waiters_spec kd e 0 OS_STAT_PEND_ABORT k ev H0 He T)
      as (k1 & n & w & -> & H1 & F & _). cbn [mbind option_bind].
    destruct (sched_pre_frame_ok k k1 H R F H1) as (k' & -> & ? & _). cbn. eauto.
  - destruct (event_rdy_spec e ev kd 0 OS_STAT_PEND_ABORT k H0 He T G)
      as (t & _ & _ & _ & -> & H1 & F). cbn [mbind option_bind].
    destruct (sched_pre_frame_ok k _ H R F H1) as (k' & -> & ? & _). cbn. eauto.
Qed.
Lemma post_opt_waiters_ok kd e ev pmsg opt k : kinv k → OSRunning k = true →
  OSEventTbl k !! e = Some ev → OSEventType ev = kind_type kd → p_grp (OSEventWait ev) ≠ 0 →
  (Z.land opt 4 ≠ 0 → 0 < OSIntNesting k ∨ 0 < OSLockNesting k) →
  ∃ k' r, post_opt_waiters kd e pmsg opt k = Some (k', r) ∧ kinv k'.
Proof.
  intros H R He T G Hns. destruct (kinv_running k H R) as (H0 & _). unfold post_opt_waiters.
  assert (Hfin : ∀ k1, kinv0 k1 → frame k k1 →
    ∃ k' r, (k2 ← (if Z.land opt 4 =? 0 then OS_Sched k1 else Some k1); Some (k2, OS_ERR_NONE))
      = Some (k', r) ∧ kinv k').
  { intros k1 H1 F. destruct (Z.eqb_spec (Z.land opt 4) 0) as [E|E].
    - destruct (sched_pre_frame_ok k k1 H R F H1) as (k' & -> & ? & _). cbn. eauto.
    - cbn. eexists _, _. split; [done|]. apply kinv_frame with k; try done. intros.
      destruct (Hns E); lia. }
  destruct (negb (Z.land opt 1 =? 0)).
  - destruct (ready_waiters_spec kd e pmsg OS_STAT_PEND_OK k ev H0 He T)
      as (k1 & n & w & -> & H1 & F & _). cbn [mbind option_bind]. by apply Hfin.
  - destruct (event_rdy_spec e ev kd pmsg OS_STAT_PEND_OK k H0 He T G)
      as (t & _ & _ & _ & -> & H1 & F). cbn [mbind option_bind]. by apply Hfin.
Qed.

(** ** Creating events *)

Lemma events_ok_create evs e l qs qfree ev ev' : events_ok evs (e :: l) qs qfree →
  evs !! e = Some ev → ev_typed qs qfree ev' → p_grp (OSEventWait ev') = 0 →
  (∀ q, OSEventType ev' = kind_type KQ → OSEventPtr ev' = EvQ q → ∀ e1 ev1, evs !! e1 = Some ev1 →
     OSEventType ev1 = kind_type KQ → OSEventPtr ev1 ≠ EvQ q) →
  events_ok (<[e := ev']> evs) l qs qfree.
Proof.
  intros [H1 H2 H3 H4 H5 H6 H7] He Ty G Q. apply NoDup_cons in H1 as [Hn H1]. split; try done.
  - intros e1 He1. destruct (H2 e1) as (ev1 & ? & ?); [by apply list_elem_of_further|]. exists ev1.
    rewrite list_lookup_insert_ne; [done|]. by intros ->.
  - intros e1 ev1 H. apply insert_lookup_cases in H as [(-> & -> & _)|[_ H]]; eauto.
  - intros e1 ev1 H. apply insert_lookup_cases in H as [(-> & -> & _)|[_ H]]; eauto.
  - intros e1 e2 ev1 ev2 q Ha Hb T1 T2 P1 P2.
    apply insert_lookup_cases in Ha as [(-> & -> & _)|[? Ha]],
      Hb as [(-> & -> & _)|[? Hb]]; try done; [| |eauto].
    + by destruct (Q q T1 P1 _ _ Hb T2).
    + by destruct (Q q T2 P2 _ _ Ha T1).
Qed.
Lemma events_ok_takeq evs efree qs q l pq : events_ok evs efree qs (q :: l) → q_ok pq →
  events_ok evs efree (<[q := pq]> qs) l ∧
  (∀ e1 ev1, evs !! e1 = Some ev1 → OSEventType ev1 = kind_type KQ → OSEventPtr ev1 ≠ EvQ q) ∧
  <[q := pq]> qs !! q = Some pq ∧ q ∉ l.
Proof.
  intros [H1 H2 H3 H4 H5 H6 H7] O. apply NoDup_cons in H6 as [Hn H6].
  assert (Hu : ∀ e1 ev1, evs !! e1 = Some ev1 → OSEventType ev1 = kind_type KQ →
    OSEventPtr ev1 ≠ EvQ q).
  { intros e1 ev1 He T P. destruct (H3 _ _ He) as [E|[[E _]|[[E _]|(_ & q1 & pq1 & E & _ & _ & F)]]];
      try (rewrite T in E; discriminate). rewrite P in E. injection E as <-. apply F, list_elem_of_here. }
  assert (Hlt : (q < length qs)%nat) by (apply H7, list_elem_of_here).
  split; [|split_and!; [done|by apply list_lookup_insert_eq|done]]. split; try done.
  - intros e1 ev1 He. destruct (H3 _ _ He) as [?|[?|[?|(T & q1 & pq1 & P & Q & O1 & F)]]];
      [by left | by right; left | by right; right; left |].
    right. right. right. split; [done|]. apply not_elem_of_cons in F as [Hne F]. exists q1, pq1.
    by rewrite list_lookup_insert_ne.
  - intros e1 ev1 He Hav. apply (H4 e1); [done|]. revert Hav. unfold ev_avail. case_match; [done|].
    destruct (OSEventPtr ev1) as [|q1] eqn:P; [done|].
    destruct (Z.eqb_spec (OSEventType ev1) (kind_type KQ)); [|done].
    rewrite list_lookup_insert_ne; [done|]. intros ->. by apply (Hu e1 ev1).
  - intros q1 Hq1. rewrite length_insert. by apply H7, list_elem_of_further.
Qed.

(** A free event, taken and filled in. *)
Lemma create_ok k e l ev' : kinv k → OSEventFreeList k = e :: l → OSEventWait ev' = p_empty →
  ev_typed (OSQTbl k) (OSQFreeList k) ev' →
  (∀ q, OSEventType ev' = kind_type KQ → OSEventPtr ev' = EvQ q → ∀ e1 ev1,
     OSEventTbl k !! e1 = Some ev1 → OSEventType ev1 = kind_type KQ → OSEventPtr ev1 ≠ EvQ q) →
  kinv (put_event e ev' (set_evfree l k)).
Proof.
  intros [(Ht & Hl & He) S] Hf W Ty Q. rewrite Hf in He.
  destruct (es_free _ _ _ _ He e) as (ev & Hev & Hu); [apply list_elem_of_here|].
  split; [|done]. split; [|split; [done|]]; cbn.
  - apply tasks_ok_retype with ev; rewrite ?W; try done; [|apply p_wf_empty].
    apply p_grp_zero; [by eapply ts_ev_wf|]. intros p. destruct (p_mem _ p) eqn:Hm; [|done].
    destruct (ts_waiters _ _ _ Ht _ _ _ Hev Hm) as [t Hp].
    destruct (tk_listed _ _ _ (ts_task _ _ _ Ht _ _ Hp) _ _ Hev Hm) as (_ & kd & _ & E & _).
    rewrite Hu in E. by destruct kd.
  - eapply events_ok_create; [done..| |done]. by rewrite W.
Qed.
Lemma OSSemCreate_ok cnt k : kinv k → 0 <= cnt <= 65535 →
  ∃ k' r, OSSemCreate cnt k = Some (k', r) ∧ kinv k'.
Proof.
  intros H Hc. unfold OSSemCreate, get_event. case_match; [eauto|].
  destruct (OSEventFreeList k) as [|e l] eqn:Hf; [eauto|]. eexists _, _. split; [done|].
  apply create_ok; try done. right. left. done.
Qed.
Lemma OSMboxCreate_ok m k : kinv k → ∃ k' r, OSMboxCreate m k = Some (k', r) ∧ kinv k'.
Proof.
  intros H. unfold OSMboxCreate, get_event. case_match; [eauto|].
  destruct (OSEventFreeList k) as [|e l] eqn:Hf; [eauto|]. eexists _, _. split; [done|].
  apply create_ok; try done. right. right. left. split; [done|]. by exists m.
Qed.
Lemma OSQCreate_ok buf size k : kinv k → 0 <= size < 2 ^ 16 → Z.of_nat (length buf) = size →
  ∃ k' r, OSQCreate buf size k = Some (k', r) ∧ kinv k'.
Proof.
  intros H Hs Hl. unfold OSQCreate, get_event. case_match; [eauto|].
  destruct (OSEventFreeList k) as [|e l] eqn:Hf; [eauto|].
  cbn [OSQFreeList set_evfree]. destruct (OSQFreeList k) as [|q lq] eqn:Hq.
  - eexists _, _. split; [done|]. cbn. destruct H as [(Ht & Hls & He) S].
    rewrite <- Hf. split; [split; [done|split; done]|]. done.
  - eexists _, _. split; [done|].
    assert (O : q_ok (MkQ 0 0 size 0 buf)).
    { unfold q_ok. cbn. split_and!; try lia. intros. split; [lia|]. by rewrite Z.mod_0_l by lia. }
    destruct H as [(Ht & Hls & He) S]. rewrite Hq in He.
    destruct (events_ok_takeq _ _ _ _ _ _ He O) as (He' & Hu & Hlk & Hn).
    set (k1 := put_queue q (MkQ 0 0 size 0 buf) (set_qfree lq k)).
    assert (H1 : kinv k1) by (split; [split; [done|split; done]|done]).
    apply (create_ok k1 e l); try done.
    + right. right. right. split; [done|]. exists q, (MkQ 0 0 size 0 buf). split_and!; done.
    + intros q' _ [= <-]. apply Hu.
Qed.

(** ** Deleting events *)

Lemma events_ok_free evs efree qs qfree e ev : events_ok evs efree qs qfree →
  evs !! e = Some ev → OSEventType ev ≠ OS_EVENT_TYPE_UNUSED → OSEventType ev ≠ kind_type KQ →
  events_ok (<[e := MkEVENT OS_EVENT_TYPE_UNUSED 0 (EvMsg 0) (OSEventWait ev)]> evs)
    (e :: efree) qs qfree.
Proof.
  intros H He Hu Hq. set (ev' := MkEVENT _ _ _ _).
  assert (H' : events_ok (<[e := ev']> evs) efree qs qfree).
  { eapply events_ok_put; try done; [by left|by right]. }
  destruct H' as [H1 H2 H3 H4 H5 H6 H7]. split; try done.
  - apply NoDup_cons. split; [|done]. intros Hin. destruct (es_free _ _ _ _ H _ Hin) as (? & ? & ?).
    by simplify_eq.
  - intros e1 [->|Hin]%elem_of_cons; [|eauto]. exists ev'.
    by rewrite list_lookup_insert_eq by (by eapply lookup_lt_Some).
Qed.
Lemma events_ok_freeq evs efree qs qfree e ev q pq : events_ok evs efree qs qfree →
  evs !! e = Some ev → OSEventType ev = kind_type KQ → OSEventPtr ev = EvQ q →
  qs !! q = Some pq →
  events_ok (<[e := MkEVENT OS_EVENT_TYPE_UNUSED 0 (EvMsg 0) (OSEventWait ev)]> evs)
    (e :: efree) qs (q :: qfree).
Proof.
  intros [H1 H2 H3 H4 H5 H6 H7] He T P Hq. set (ev' := MkEVENT _ _ _ _).
  assert (Hq' : q ∉ qfree).
  { destruct (H3 _ _ He) as [E|[[E _]|[[E _]|(_ & q1 & pq1 & E & _ & _ & F)]]];
      try (rewrite T in E; discriminate). rewrite P in E. by injection E as <-. }
  split; try done.
  - apply NoDup_cons. split; [|done]. intros Hin. destruct (H2 _ Hin) as (? & ? & E).
    simplify_eq. by rewrite T in E.
  - intros e1 Hin. destruct (decide (e1 = e)) as [->|Hne].
    + exists ev'. by rewrite list_lookup_insert_eq by (by eapply lookup_lt_Some).
    + apply elem_of_cons in Hin as [->|Hin]; [done|]. destruct (H2 _ Hin) as (ev1 & ? & ?).
      exists ev1. by rewrite list_lookup_insert_ne.
  - intros e1 ev1 H. apply insert_lookup_cases in H as [(-> & -> & _)|[Hne H]]; [by left|].
    destruct (H3 _ _ H) as [?|[?|[?|(T1 & q1 & pq1 & P1 & Q1 & O1 & F1)]]];
      [by left | by right; left | by right; right; left |].
    right. right. right. split; [done|]. exists q1, pq1. split_and!; [done..|].
    intros [->|?]%elem_of_cons; [|done]. apply Hne. by eapply H5.
  - intros e1 ev1 H. apply insert_lookup_cases in H as [(-> & -> & _)|[_ H]]; [done|eauto].
  - intros e1 e2 ev1 ev2 q1 Ha Hb T1 T2 P1 P2.
    apply insert_lookup_cases in Ha as [(-> & -> & _)|[? Ha]],
      Hb as [(-> & -> & _)|[? Hb]]; try done. eauto.
  - by apply NoDup_cons.
  - intros q1 [->|?]%elem_of_cons; [by eapply lookup_lt_Some|auto].
Qed.

(** The release of an event nobody waits for. *)
Lemma release_ok kd e ev k : kinv0 k → OSEventTbl k !! e = Some ev →
  OSEventType ev = kind_type kd → p_grp (OSEventWait ev) = 0 →
  ∃ k', release kd e k = Some k' ∧ kinv0 k' ∧ frame k k' ∧ OSRdy k' = OSRdy k ∧
    OSTCBPrioTbl k' = OSTCBPrioTbl k ∧
    OSEventTbl k' = <[e := MkEVENT OS_EVENT_TYPE_UNUSED 0 (EvMsg 0) (OSEventWait ev)]> (OSEventTbl k).
Proof.
  intros (Ht & Hl & He) Hev T G. unfold release. rewrite Hev. cbn [mbind option_bind].
  set (ev' := MkEVENT OS_EVENT_TYPE_UNUSED 0 (EvMsg 0) (OSEventWait ev)).
  assert (Ht' : tasks_ok (OSRdy k) (OSTCBPrioTbl k) (<[e := ev']> (OSEventTbl k))).
  { apply tasks_ok_retype with ev; try done. exact (ts_ev_wf _ _ _ Ht _ _ Hev). }
  assert (Hu : OSEventType ev ≠ OS_EVENT_TYPE_UNUSED) by (rewrite T; by destruct kd).
  destruct (decide (kd = KQ)) as [->|Hkd].
  - destruct (es_typed _ _ _ _ He _ _ Hev) as [E|[[E _]|[[E _]|(_ & q & pq & P & Q & _)]]];
      try (rewrite T in E; discriminate).
    unfold free_queue. rewrite P. cbn [mbind option_bind]. eexists. split; [done|].
    split; [|done]. split; [done|split; [done|]]. by eapply events_ok_freeq.
  - assert (E : (match kd with KQ => free_queue ev k | _ => Some k end) = Some k) by (by destruct kd).
    rewrite E. cbn [mbind option_bind]. eexists. split; [done|]. split; [|done].
    split; [done|split; [done|]]. apply events_ok_free; try done. rewrite T. by destruct kd.
Qed.
Lemma ready_waiters_none e ev pmsg msk st k : OSEventTbl k !! e = Some ev →
  p_grp (OSEventWait ev) = 0 → ready_waiters e pmsg msk st k = Some (k, 0).
Proof. intros He G. unfold ready_waiters. cbn [rdy_all]. rewrite He. cbn. by rewrite G. Qed.
Lemma del_event_ok kd e ev opt k : kinv k → OSRunning k = true → OSEventTbl k !! e = Some ev →
  OSEventType ev = kind_type kd → ∃ k' r, del_event kd e opt k = Some (k', r) ∧ kinv k'.
Proof.
  intros H R He T. destruct (kinv_running k H R) as (H0 & _). unfold del_event. rewrite He.
  cbn [mbind option_bind]. destruct (opt =? 0).
  - destruct (Z.eqb_spec (p_grp (OSEventWait ev)) 0) as [G|G]; cbn [negb]; [|eauto].
    destruct (release_ok kd e ev k H0 He T G) as (k' & -> & H1 & F & Er & _). cbn.
    eexists _, _. split; [done|]. by apply kinv_frame with k.
  - destruct (opt =? 1); [|eauto].
    destruct (Z.eqb_spec (p_grp (OSEventWait ev)) 0) as [G|G]; cbn [negb].
    + rewrite (ready_waiters_none _ _ _ _ _ _ He G). cbn [mbind option_bind].
      destruct (release_ok kd e ev k H0 He T G) as (k' & -> & H1 & F & Er & _). cbn.
      eexists _, _. split; [done|]. by apply kinv_frame with k.
    + destruct (ready_waiters_spec kd e 0 OS_STAT_PEND_OK k ev H0 He T)
        as (k1 & n & w & -> & H1 & F1 & _ & Gw & Ev1 & _). cbn [mbind option_bind].
      destruct (release_ok kd e (ev_set_wait w ev) k1 H1) as (k2 & -> & H2 & F2 & _); try done.
      { rewrite Ev1. apply list_lookup_insert_eq. by eapply lookup_lt_Some. }
      cbn [mbind option_bind]. pose proof (transitivity F1 F2) as F.
      destruct (sched_pre_frame_ok k k2 H R F H2) as (k' & -> & ? & _). cbn. eauto.
Qed.

(** ** The calls *)

(** Who calls: an interrupt, or a task other than the idle task outside any waiting call. *)
Definition caller_ok (k : kernel) : Prop :=
  0 < OSIntNesting k ∨
  OSPrioCur k ≠ OS_TASK_IDLE_PRIO ∧ ∀ t, tcb_at k (OSPrioCur k) = Some t → in_pend t = None.

(** A call [x] returns and keeps the invariant. *)
Definition returns_ok {A} (x : option (kernel * A)) : Prop := ∃ k' r, x = Some (k', r) ∧ kinv k'.

Section calls.
  Context (k : kernel) (H : kinv k) (R : OSRunning k = true).

  (** Look up the event, check its type. *)
Lemma event_of e : (e < length (OSEventTbl k))%nat → ∃ ev, OSEventTbl k !! e = Some ev.
  Proof. apply lookup_lt_is_Some_2. Qed.
  Tactic Notation "open_event" hyp(He) ident(ev) ident(Hev) ident(T) :=
    destruct (event_of _ He) as [ev Hev]; rewrite Hev; cbn [mbind option_bind];
    match goal with |- context [negb (OSEventType ev =? ?t)] =>
      destruct (Z.eqb_spec (OSEventType ev) t) as [T|T]; cbn [negb]; [|unfold returns_ok; eauto] end.
  (** A call that may wait: not in an interrupt, not locked. *)
  Tactic Notation "may_wait" ident(N) ident(L) :=
    destruct (Z.ltb_spec 0 (OSIntNesting k)) as [?|N]; [unfold returns_ok; eauto|];
    destruct (Z.ltb_spec 0 (OSLockNesting k)) as [?|L]; [unfold returns_ok; eauto|].

Lemma OSSemAccept_ok e : (e < length (OSEventTbl k))%nat → returns_ok (OSSemAccept e k).
  Proof.
    intros He. unfold OSSemAccept. open_event He ev Hev T. unfold returns_ok.
    destruct (Z.ltb_spec 0 (OSEventCnt ev)) as [C|C]; [|eauto].
    pose proof (sem_cnt k e ev H Hev T). eexists _, _. split; [done|].
    apply kinv_put_event with ev; try done; [right; left; cbn; split; [done|lia]|].
    intros _. apply (no_waiters k e ev H Hev). unfold ev_avail. rewrite T. cbn. lia.
  Qed.
Lemma OSSemDel_ok e opt : (e < length (OSEventTbl k))%nat → returns_ok (OSSemDel e opt k).
  Proof.
    intros He. unfold OSSemDel. open_event He ev Hev T. case_match; [unfold returns_ok; eauto|].
    by apply del_event_ok with ev.
  Qed.
Lemma pend_ok kd e ev timeout : caller_ok k → ¬ 0 < OSIntNesting k → ¬ 0 < OSLockNesting k →
    OSEventTbl k !! e = Some ev → OSEventType ev = kind_type kd →
    ev_avail (OSQTbl k) ev = false → is_u32 timeout →
    ∀ A (r : A), returns_ok (k ← pend_wait kd e timeout k; Some (k, r)).
  Proof.
    intros C N L Hev T Av U A r. destruct (kinv_running k H R) as (_ & (? & ? & _) & _).
    destruct C as [?|[I C]]; [lia|].
    destruct (pend_wait_ok kd e ev timeout k H R) as (t & k' & _ & -> & ? & _); try done; [lia..|].
    unfold returns_ok. cbn. eauto.
  Qed.
Lemma OSSemPend_ok e timeout : caller_ok k → (e < length (OSEventTbl k))%nat → is_u32 timeout →
    returns_ok (OSSemPend e timeout k).
  Proof.
    intros C He U. unfold OSSemPend. open_event He ev Hev T. may_wait N L.
    pose proof (sem_cnt k e ev H Hev T).
    destruct (Z.ltb_spec 0 (OSEventCnt ev)) as [Cn|Cn].
    - eexists _, _. split; [done|].
      apply kinv_put_event with ev; try done; [right; left; cbn; split; [done|lia]|].
      intros _. apply (no_waiters k e ev H Hev). unfold ev_avail. rewrite T. cbn. lia.
    - apply pend_ok with ev; try done; [lia..|]. unfold ev_avail. rewrite T. cbn. lia.
  Qed.
Lemma OSSemPendAbort_ok e opt : (e < length (OSEventTbl k))%nat → returns_ok (OSSemPendAbort e opt k).
  Proof. intros He. unfold OSSemPendAbort. open_event He ev Hev T. by apply abort_waiters_ok with ev. Qed.
Lemma OSSemPost_ok e : (e < length (OSEventTbl k))%nat → returns_ok (OSSemPost e k).
  Proof.
    intros He. unfold OSSemPost. open_event He ev Hev T. unfold returns_ok.
    destruct (Z.eqb_spec (p_grp (OSEventWait ev)) 0) as [G|G]; cbn [negb].
    - destruct (Z.ltb_spec (OSEventCnt ev) 65535); [|eauto].
      pose proof (sem_cnt k e ev H Hev T). eexists _, _. split; [done|].
      apply kinv_put_event with ev; try done. right. left. cbn. split; [done|lia].
    - destruct (post_waiter_ok KSem e ev 0 k H R Hev T G) as (k1 & p & k' & -> & E & ?).
      cbn [mbind option_bind]. rewrite E. cbn. eauto.
  Qed.
Lemma OSSemSet_ok e cnt : (e < length (OSEventTbl k))%nat → 0 <= cnt <= 65535 →
    returns_ok (OSSemSet e cnt k).
  Proof.
    intros He Hc. unfold OSSemSet. open_event He ev Hev T. unfold returns_ok.
    assert (P : p_grp (OSEventWait ev) = 0 → kinv (put_event e (ev_set_cnt cnt ev) k)).
    { intros G. apply kinv_put_event with ev; try done. right. left. by cbn. }
    destruct (Z.ltb_spec 0 (OSEventCnt ev)) as [C|C].
    - eexists _, _. split; [done|]. apply P, (no_waiters k e ev H Hev).
      unfold ev_avail. rewrite T. cbn. lia.
    - destruct (Z.eqb_spec (p_grp (OSEventWait ev)) 0); eauto.
  Qed.

Lemma mbox_empty_ok e ev : OSEventTbl k !! e = Some ev → OSEventType ev = kind_type KMbox →
    kinv (put_event e (ev_set_ptr (EvMsg 0) ev) k).
  Proof.
    intros Hev T. apply kinv_put_event with ev; try done.
    - right. right. left. split; [done|]. by exists 0.
    - unfold ev_avail. cbn. rewrite T. done.
    - rewrite T. done.
  Qed.
Lemma OSMboxAccept_ok e : (e < length (OSEventTbl k))%nat → returns_ok (OSMboxAccept e k).
  Proof.
    intros He. unfold OSMboxAccept. open_event He ev Hev T.
    destruct (mbox_has k e ev H Hev T) as (m & -> & _). cbn. eexists _, _. split; [done|].
    by apply mbox_empty_ok.
  Qed.
Lemma OSMboxDel_ok e opt : (e < length (OSEventTbl k))%nat → returns_ok (OSMboxDel e opt k).
  Proof.
    intros He. unfold OSMboxDel. open_event He ev Hev T. case_match; [unfold returns_ok; eauto|].
    by apply del_event_ok with ev.
  Qed.
Lemma OSMboxPend_ok e timeout : caller_ok k → (e < length (OSEventTbl k))%nat → is_u32 timeout →
    returns_ok (OSMboxPend e timeout k).
  Proof.
    intros C He U. unfold OSMboxPend. open_event He ev Hev T. may_wait N L.
    destruct (mbox_has k e ev H Hev T) as (m & -> & P). cbn [mbind option_bind].
    destruct (Z.eqb_spec m 0) as [->|M]; cbn [negb].
    - apply pend_ok with ev; try done; [lia..|]. unfold ev_avail. by rewrite T, P.
    - eexists _, _. split; [done|]. by apply mbox_empty_ok.
  Qed.
Lemma OSMboxPendAbort_ok e opt : (e < length (OSEventTbl k))%nat → returns_ok (OSMboxPendAbort e opt k).
  Proof. intros He. unfold OSMboxPendAbort. open_event He ev Hev T. by apply abort_waiters_ok with ev. Qed.
Lemma mbox_put_ok e ev pmsg : OSEventTbl k !! e = Some ev → OSEventType ev = kind_type KMbox →
    p_grp (OSEventWait ev) = 0 → returns_ok (mbox_put e ev pmsg k).
  Proof.
    intros Hev T G. unfold mbox_put. destruct (mbox_has k e ev H Hev T) as (m & -> & P).
    cbn [mbind option_bind]. unfold returns_ok. destruct (negb (m =? 0)); [eauto|].
    eexists _, _. split; [done|]. apply kinv_put_event with ev; try done.
    - right. right. left. split; [done|]. by exists pmsg.
    - by rewrite T.
  Qed.
Lemma OSMboxPost_ok e pmsg : (e < length (OSEventTbl k))%nat → returns_ok (OSMboxPost e pmsg k).
  Proof.
    intros He. unfold OSMboxPost. open_event He ev Hev T.
    destruct (Z.eqb_spec (p_grp (OSEventWait ev)) 0) as [G|G]; cbn [negb]; [by apply mbox_put_ok|].
    destruct (post_waiter_ok KMbox e ev pmsg k H R Hev T G) as (k1 & p & k' & -> & E & ?).
    cbn [mbind option_bind]. rewrite E. unfold returns_ok. cbn. eauto.
  Qed.
Lemma OSMboxPostOpt_ok e pmsg opt : (e < length (OSEventTbl k))%nat →
    (Z.land opt 4 ≠ 0 → 0 < OSIntNesting k ∨ 0 < OSLockNesting k) →
    returns_ok (OSMboxPostOpt e pmsg opt k).
  Proof.
    intros He Hns. unfold OSMboxPostOpt. open_event He ev Hev T.
    destruct (Z.eqb_spec (p_grp (OSEventWait ev)) 0) as [G|G]; cbn [negb]; [by apply mbox_put_ok|].
    by apply post_opt_waiters_ok with ev.
  Qed.

Lemma OSQAccept_ok e : (e < length (OSEventTbl k))%nat → returns_ok (OSQAccept e k).
  Proof.
    intros He. unfold OSQAccept. open_event He ev Hev T.
    destruct (queue_has k e ev H Hev T) as (q & pq & -> & P & Q & O & F). cbn [mbind option_bind].
    destruct (Z.ltb_spec 0 (OSQEntries pq)) as [En|En]; [|unfold returns_ok; eauto].
    destruct (q_ok_take pq O En) as (pq' & m & -> & O' & _). cbn. eexists _, _. split; [done|].
    apply kinv_put_queue with e ev pq; try done. intros _. apply (no_waiters k e ev H Hev).
    unfold ev_avail. rewrite T, P, Q. cbn. lia.
  Qed.
Lemma OSQDel_ok e opt : (e < length (OSEventTbl k))%nat → returns_ok (OSQDel e opt k).
  Proof.
    intros He. unfold OSQDel. open_event He ev Hev T. case_match; [unfold returns_ok; eauto|].
    by apply del_event_ok with ev.
  Qed.
Lemma OSQFlush_ok e ev : OSEventTbl k !! e = Some ev → OSEventType ev = kind_type KQ →
    returns_ok (OSQFlush e k).
  Proof.
    intros Hev T. unfold OSQFlush. rewrite Hev. cbn [mbind option_bind].
    destruct (queue_has k e ev H Hev T) as (q & pq & -> & P & Q & (O1 & O2 & O3 & O4) & F).
    cbn. eexists _, _. split; [done|]. apply kinv_put_queue with e ev pq; try done.
    unfold q_ok. cbn. split_and!; try lia. intros. split; [lia|]. by rewrite Z.mod_0_l by lia.
  Qed.
Lemma OSQPend_ok e timeout : caller_ok k → (e < length (OSEventTbl k))%nat → is_u32 timeout →
    returns_ok (OSQPend e timeout k).
  Proof.
    intros C He U. unfold OSQPend. open_event He ev Hev T. may_wait N L.
    destruct (queue_has k e ev H Hev T) as (q & pq & -> & P & Q & O & F). cbn [mbind option_bind].
    destruct (Z.ltb_spec 0 (OSQEntries pq)) as [En|En].
    - destruct (q_ok_take pq O En) as (pq' & m & -> & O' & _). cbn. eexists _, _. split; [done|].
      apply kinv_put_queue with e ev pq; try done. intros _. apply (no_waiters k e ev H Hev).
      unfold ev_avail. rewrite T, P, Q. cbn. lia.
    - apply pend_ok with ev; try done; [lia..|]. unfold ev_avail. rewrite T, P, Q. cbn. lia.
  Qed.
Lemma OSQPendAbort_ok e opt : (e < length (OSEventTbl k))%nat → returns_ok (OSQPendAbort e opt k).
  Proof. intros He. unfold OSQPendAbort. open_event He ev Hev T. by apply abort_waiters_ok with ev. Qed.
Lemma q_put_ok front e ev pmsg : OSEventTbl k !! e = Some ev → OSEventType ev = kind_type KQ →
    p_grp (OSEventWait ev) = 0 → returns_ok (q_put front ev pmsg k).
  Proof.
    intros Hev T G. unfold q_put.
    destruct (queue_has k e ev H Hev T) as (q & pq & -> & P & Q & O & F). cbn [mbind option_bind].
    destruct (Z.leb_spec (OSQSize pq) (OSQEntries pq)) as [Fu|Fu]; [unfold returns_ok; eauto|].
    assert (∃ pq', (if front then q_put_front pmsg pq else q_put_back pmsg pq) = Some pq' ∧ q_ok pq')
      as (pq' & -> & O').
    { destruct front; [destruct (q_ok_put_front pmsg pq O Fu) as (? & ? & ? & _)
                      |destruct (q_ok_put_back pmsg pq O Fu) as (? & ? & ? & _)]; eauto. }
    cbn. eexists _, _. split; [done|]. by apply kinv_put_queue with e ev pq.
  Qed.
Lemma q_post_ok front e pmsg : (e < length (OSEventTbl k))%nat → returns_ok (q_post front e pmsg k).
  Proof.
    intros He. unfold q_post. open_event He ev Hev T.
    destruct (Z.eqb_spec (p_grp (OSEventWait ev)) 0) as [G|G]; cbn [negb]; [by apply q_put_ok with e|].
    destruct (post_waiter_ok KQ e ev pmsg k H R Hev T G) as (k1 & p & k' & -> & E & ?).
    cbn [mbind option_bind]. rewrite E. unfold returns_ok. cbn. eauto.
  Qed.
Lemma OSQPostOpt_ok e pmsg opt : (e < length (OSEventTbl k))%nat →
    (Z.land opt 4 ≠ 0 → 0 < OSIntNesting k ∨ 0 < OSLockNesting k) →
    returns_ok (OSQPostOpt e pmsg opt k).
  Proof.
    intros He Hns. unfold OSQPostOpt. open_event He ev Hev T.
    destruct (Z.eqb_spec (p_grp (OSEventWait ev)) 0) as [G|G]; cbn [negb]; [by apply q_put_ok with e|].
    by apply post_opt_waiters_ok with ev.
  Qed.
End calls.
