(* ===== verification/KRun.v ===== *)
(** * The kernel running

    Tasks, interrupts and the clock as a step relation.  [do_call] is the entry of every call
    modelled in [Kernel] and [KEvent]; [enabled] is what the callers have to respect: the idle task
    makes no calls, nor does a task that waits in one; event pointers point to control blocks
    (of a queue, for [OSQFlush]); priorities exist, counts and sizes fit 16 bits, timeouts and
    delays 32; a task does not delete itself with the scheduler locked; [OSTimeTick] comes from
    an interrupt; a post with [OS_POST_OPT_NO_SCHED] comes from an interrupt or with the
    scheduler locked; interrupts nest at most 255 deep.  Before [OSStart] only tasks and events
    are created.  A task continues a call it waited in by [AResume].  The theorems hold in every state reached from [OSInit]. *)
From S2P Require Import Prelude PrioTab Kernel KEvent KInv KStep KEventInv.

(** ** Calls *)

Inductive call :=
  | CSemAccept (e : nat) | CSemCreate (cnt : Z) | CSemDel (e : nat) (opt : Z)
  | CSemPend (e : nat) (timeout : Z) | CSemPendAbort (e : nat) (opt : Z) | CSemPost (e : nat)
  | CSemSet (e : nat) (cnt : Z)
  | CMboxAccept (e : nat) | CMboxCreate (pmsg : Z) | CMboxDel (e : nat) (opt : Z)
  | CMboxPend (e : nat) (timeout : Z) | CMboxPendAbort (e : nat) (opt : Z)
  | CMboxPost (e : nat) (pmsg : Z) | CMboxPostOpt (e : nat) (pmsg opt : Z)
  | CQAccept (e : nat) | CQCreate (buf : list Z) (size : Z) | CQDel (e : nat) (opt : Z)
  | CQFlush (e : nat) | CQPend (e : nat) (timeout : Z) | CQPendAbort (e : nat) (opt : Z)
  | CQPost (e : nat) (pmsg : Z) | CQPostFront (e : nat) (pmsg : Z)
  | CQPostOpt (e : nat) (pmsg opt : Z)
  | CTaskCreate (prio : Z) | CTaskDel (prio : Z) | CTaskResume (prio : Z)
  | CTaskSuspend (prio : Z)
  | CTimeDly (ticks : Z) | CTimeDlyHMSM (h m s ms : Z) | CTimeDlyResume (prio : Z)
  | CTimeSet (ticks : Z) | CTimeTick
  | CSchedLock | CSchedUnlock.

(** What a call gives back: nothing, numbers (result, error code), a pointer and an error
    code, or, for a task that now waits, nothing yet. *)
Inductive result := Done | Code (r : Z) | Codes (r err : Z) | Ptr (p : option nat) (err : Z) | Waits.

Definition ret1 (x : option (kernel * Z)) : option (kernel * result) :=
  '(k, r) ← x; Some (k, Code r).
Definition ret2 (x : option (kernel * (Z * Z))) : option (kernel * result) :=
  '(k, (r, err)) ← x; Some (k, Codes r err).
Definition retp (x : option (kernel * (option nat * Z))) : option (kernel * result) :=
  '(k, (p, err)) ← x; Some (k, Ptr p err).
Definition retn (x : option (kernel * option nat)) : option (kernel * result) :=
  '(k, p) ← x; Some (k, Ptr p OS_ERR_NONE).
Definition retw (x : option (kernel * option Z)) : option (kernel * result) :=
  '(k, r) ← x; Some (k, match r with Some e => Code e | None => Waits end).
Definition retw2 (x : option (kernel * option (Z * Z))) : option (kernel * result) :=
  '(k, r) ← x; Some (k, match r with Some (m, e) => Codes m e | None => Waits end).
Definition ret0 (x : option kernel) : option (kernel * result) := k ← x; Some (k, Done).

Definition do_call (c : call) (k : kernel) : option (kernel * result) :=
  match c with
  | CSemAccept e => ret1 (OSSemAccept e k)
  | CSemCreate cnt => retn (OSSemCreate cnt k)
  | CSemDel e opt => retp (OSSemDel e opt k)
  | CSemPend e t => retw (OSSemPend e t k)
  | CSemPendAbort e opt => ret2 (OSSemPendAbort e opt k)
  | CSemPost e => ret1 (OSSemPost e k)
  | CSemSet e cnt => ret1 (OSSemSet e cnt k)
  | CMboxAccept e => ret1 (OSMboxAccept e k)
  | CMboxCreate m => retn (OSMboxCreate m k)
  | CMboxDel e opt => retp (OSMboxDel e opt k)
  | CMboxPend e t => retw2 (OSMboxPend e t k)
  | CMboxPendAbort e opt => ret2 (OSMboxPendAbort e opt k)
  | CMboxPost e m => ret1 (OSMboxPost e m k)
  | CMboxPostOpt e m opt => ret1 (OSMboxPostOpt e m opt k)
  | CQAccept e => ret2 (OSQAccept e k)
  | CQCreate buf size => retn (OSQCreate buf size k)
  | CQDel e opt => retp (OSQDel e opt k)
  | CQFlush e => ret1 (OSQFlush e k)
  | CQPend e t => retw2 (OSQPend e t k)
  | CQPendAbort e opt => ret2 (OSQPendAbort e opt k)
  | CQPost e m => ret1 (OSQPost e m k)
  | CQPostFront e m => ret1 (OSQPostFront e m k)
  | CQPostOpt e m opt => ret1 (OSQPostOpt e m opt k)
  | CTaskCreate p => ret1 (OSTaskCreate p k)
  | CTaskDel p => ret1 (OSTaskDel p k)
  | CTaskResume p => ret1 (OSTaskResume p k)
  | CTaskSuspend p => ret1 (OSTaskSuspend p k)
  | CTimeDly t => ret0 (OSTimeDly t k)
  | CTimeDlyHMSM h m s ms => ret1 (OSTimeDlyHMSM h m s ms k)
  | CTimeDlyResume p => ret1 (OSTimeDlyResume p k)
  | CTimeSet t => Some (OSTimeSet t k, Done)
  | CTimeTick => ret0 (OSTimeTick k)
  | CSchedLock => Some (OSSchedLock k, Done)
  | CSchedUnlock => ret0 (OSSchedUnlock k)
  end.

(** The second half of the call a task waits in. *)
Definition do_resume (kd : evkind) (e : nat) (k : kernel) : option (kernel * result) :=
  match kd with
  | KSem => ret1 (OSSemPend_done e k)
  | KMbox => ret2 (OSMboxPend_done e k)
  | KQ => ret2 (OSQPend_done e k)
  end.

(** ** What callers respect *)

Definition is_event (k : kernel) (e : nat) : Prop := (e < length (OSEventTbl k))%nat.
Definition user_prio (k : kernel) (p : Z) : Prop :=
  0 <= p < OS_LOWEST_PRIO ∨ p = OS_PRIO_SELF ∧ OSPrioCur k ≠ OS_TASK_IDLE_PRIO.

Definition good_args (c : call) (k : kernel) : Prop :=
  match c with
  | CSemAccept e | CSemDel e _ | CSemPendAbort e _ | CSemPost e | CMboxAccept e | CMboxDel e _
  | CMboxPendAbort e _ | CMboxPost e _ | CQAccept e | CQDel e _ | CQPendAbort e _ | CQPost e _
  | CQPostFront e _ => is_event k e
  | CSemCreate cnt => 0 <= cnt <= 65535
  | CSemPend e t | CMboxPend e t | CQPend e t => is_event k e ∧ is_u32 t
  | CSemSet e cnt => is_event k e ∧ 0 <= cnt <= 65535
  | CMboxPostOpt e _ opt | CQPostOpt e _ opt =>
      is_event k e ∧ (Z.land opt 4 ≠ 0 → 0 < OSIntNesting k ∨ 0 < OSLockNesting k)
  | CQFlush e => ∃ ev, OSEventTbl k !! e = Some ev ∧ OSEventType ev = kind_type KQ
  | CQCreate buf size => 0 <= size < 2 ^ 16 ∧ Z.of_nat (length buf) = size
  | CTaskCreate p => 0 <= p < 64
  | CTaskDel p => user_prio k p ∧ (p = OS_PRIO_SELF ∨ p = OSPrioCur k → OSLockNesting k = 0)
  | CTaskSuspend p => user_prio k p
  | CTaskResume p => 0 <= p <= OS_LOWEST_PRIO
  | CTimeDlyResume p => 0 <= p
  | CTimeDly t => is_u32 t
  | CTimeTick => 0 < OSIntNesting k
  | CMboxCreate _ | CTimeDlyHMSM _ _ _ _ | CTimeSet _ | CSchedLock | CSchedUnlock => True
  end.

(** ** Steps *)

Inductive action := ATask (c : call) | AResume | AIntEnter | AIsr (c : call) | AIntExit.

(** The call the running task waits in. *)
Definition cur_call (k : kernel) : option (evkind * nat) := t ← tcb_at k (OSPrioCur k); in_pend t.

Definition enabled (a : action) (k : kernel) : Prop :=
  match a with
  | ATask c => OSIntNesting k = 0 ∧ OSPrioCur k ≠ OS_TASK_IDLE_PRIO ∧ cur_call k = None ∧
               good_args c k
  | AResume => OSIntNesting k = 0 ∧ is_Some (cur_call k)
  | AIntEnter => OSIntNesting k < 255
  | AIsr c => 0 < OSIntNesting k ∧ good_args c k
  | AIntExit => 0 < OSIntNesting k
  end.

Definition do_action (a : action) (k : kernel) : option (kernel * result) :=
  match a with
  | ATask c | AIsr c => do_call c k
  | AResume => '(kd, e) ← cur_call k; do_resume kd e k
  | AIntEnter => Some (OSIntEnter k, Done)
  | AIntExit => ret0 (OSIntExit k)
  end.

(** Before [OSStart] only objects are created. *)
Definition boot_call (c : call) : Prop :=
  match c with CSemCreate _ | CMboxCreate _ | CQCreate _ _ | CTaskCreate _ => True | _ => False end.

Inductive reachable : kernel → Prop :=
  | reach_init k0 k : OSInit k0 = Some k → reachable k
  | reach_boot k c k' r : reachable k → OSRunning k = false → boot_call c → good_args c k →
      do_call c k = Some (k', r) → reachable k'
  | reach_start k k' : reachable k → OSRunning k = false → OSStart k = Some k' → reachable k'
  | reach_step k a k' r : reachable k → OSRunning k = true → enabled a k →
      do_action a k = Some (k', r) → reachable k'.

(** ** Every step keeps the invariant *)

Lemma ret1_ok x : returns_ok x → returns_ok (ret1 x).
Proof. intros (k' & r & -> & ?). unfold returns_ok. cbn. eauto. Qed.
Lemma ret2_ok x : returns_ok x → returns_ok (ret2 x).
Proof. intros (k' & [r e] & -> & ?). unfold returns_ok. cbn. eauto. Qed.
Lemma retp_ok x : returns_ok x → returns_ok (retp x).
Proof. intros (k' & [r e] & -> & ?). unfold returns_ok. cbn. eauto. Qed.
Lemma retn_ok x : returns_ok x → returns_ok (retn x).
Proof. intros (k' & r & -> & ?). unfold returns_ok. cbn. eauto. Qed.
Lemma retw_ok x : returns_ok x → returns_ok (retw x).
Proof. intros (k' & r & -> & ?). unfold returns_ok. cbn. eauto. Qed.
Lemma retw2_ok x : returns_ok x → returns_ok (retw2 x).
Proof. intros (k' & r & -> & ?). unfold returns_ok. cbn. eauto. Qed.
Lemma ret0_ok x : (∃ k', x = Some k' ∧ kinv k') → returns_ok (ret0 x).
Proof. intros (k' & -> & ?). unfold returns_ok. cbn. eauto. Qed.

Lemma boot_call_ok c k : kinv k → boot_call c → good_args c k → returns_ok (do_call c k).
Proof.
  intros H B G. destruct c; try done; cbn in *.
  - by apply retn_ok, OSSemCreate_ok.
  - by apply retn_ok, OSMboxCreate_ok.
  - apply retn_ok, OSQCreate_ok; tauto.
  - by apply ret1_ok, OSTaskCreate_ok.
Qed.

Lemma OSSchedLock_ok k : kinv k → OSRunning k = true → caller_ok k → kinv (OSSchedLock k).
Proof.
  intros H R C. destruct (kinv_running k H R) as (H0 & (? & ? & P) & (t & Ht)).
  unfold OSSchedLock. rewrite R. destruct (Z.eqb_spec (OSIntNesting k) 0); [|done].
  destruct (Z.ltb_spec (OSLockNesting k) 255); [|done]. split; [done|]. unfold sched_ok. cbn.
  rewrite R. split_and!; [|exists t; done|lia]. unfold sched_pre. cbn. split_and!; try lia.
  right. exists t. split; [done|]. intros _. destruct C as [?|[_ C]]; [lia|by apply C].
Qed.
Lemma OSSchedUnlock_ok k : kinv k → OSRunning k = true →
  ∃ k', OSSchedUnlock k = Some k' ∧ kinv k'.
Proof.
  intros H R. destruct (kinv_running k H R) as (H0 & (? & ? & P) & (t & Ht)).
  unfold OSSchedUnlock. rewrite R. destruct (Z.ltb_spec 0 (OSLockNesting k)); [|eauto].
  cbn [OSLockNesting OSIntNesting set_lock].
  assert (Hc : in_pend t = None).
  { destruct P as [[_ ?]|(t0 & Ht0 & Hc)]; [lia|]. simplify_eq. by apply Hc. }
  set (k1 := set_lock (OSLockNesting k - 1) k).
  assert (P1 : sched_pre k1).
  { unfold sched_pre. cbn. split_and!; try lia. right. exists t. done. }
  destruct (Z.eqb_spec (OSLockNesting k - 1) 0) as [E|E].
  - destruct (Z.eqb_spec (OSIntNesting k) 0).
    + destruct (OS_Sched_spec k1) as (k' & ? & ? & _); [done..|]. eauto.
    + exists k1. split; [done|]. split; [done|]. unfold sched_ok. cbn. rewrite R.
      split_and!; [done|by exists t|lia].
  - exists k1. split; [done|]. split; [done|]. unfold sched_ok. cbn. rewrite R.
    split_and!; [done|by exists t|lia].
Qed.
Lemma OSTimeDly_isr ticks k : 0 < OSIntNesting k → OSTimeDly ticks k = Some k.
Proof. intros. unfold OSTimeDly. by replace (0 <? OSIntNesting k) with true by lia. Qed.
Lemma OSTimeDlyHMSM_isr h m s ms k : 0 < OSIntNesting k →
  OSTimeDlyHMSM h m s ms k = Some (k, OS_ERR_TIME_DLY_ISR).
Proof. intros. unfold OSTimeDlyHMSM. by replace (0 <? OSIntNesting k) with true by lia. Qed.

Lemma call_ok c k : kinv k → OSRunning k = true → caller_ok k → good_args c k →
  returns_ok (do_call c k).
Proof.
  intros H R C G. destruct c; cbn in G |- *.
  - by apply ret1_ok, OSSemAccept_ok.
  - by apply retn_ok, OSSemCreate_ok.
  - by apply retp_ok, OSSemDel_ok.
  - apply retw_ok, OSSemPend_ok; tauto.
  - by apply ret2_ok, OSSemPendAbort_ok.
  - by apply ret1_ok, OSSemPost_ok.
  - apply ret1_ok, OSSemSet_ok; tauto.
  - by apply ret1_ok, OSMboxAccept_ok.
  - by apply retn_ok, OSMboxCreate_ok.
  - by apply retp_ok, OSMboxDel_ok.
  - apply retw2_ok, OSMboxPend_ok; tauto.
  - by apply ret2_ok, OSMboxPendAbort_ok.
  - by apply ret1_ok, OSMboxPost_ok.
  - apply ret1_ok, OSMboxPostOpt_ok; tauto.
  - by apply ret2_ok, OSQAccept_ok.
  - apply retn_ok, OSQCreate_ok; tauto.
  - by apply retp_ok, OSQDel_ok.
  - destruct G as (ev & ? & ?). by apply ret1_ok, OSQFlush_ok with ev.
  - apply retw2_ok, OSQPend_ok; tauto.
  - by apply ret2_ok, OSQPendAbort_ok.
  - by apply ret1_ok, q_post_ok.
  - by apply ret1_ok, q_post_ok.
  - apply ret1_ok, OSQPostOpt_ok; tauto.
  - by apply ret1_ok, OSTaskCreate_ok.
  - destruct G as [G1 G2]. apply ret1_ok, OSTaskDel_ok; [done..| |done].
    destruct G1; [left; lia|by right].
  - by apply ret1_ok, OSTaskResume_ok.
  - by apply ret1_ok, OSTaskSuspend_ok.
  - apply ret0_ok. destruct C as [?|[I C]]; [rewrite OSTimeDly_isr by done; eauto|].
    by apply OSTimeDly_ok.
  - apply ret1_ok. destruct C as [?|[I C]].
    + rewrite OSTimeDlyHMSM_isr by done. unfold returns_ok. eauto.
    + by apply OSTimeDlyHMSM_ok.
  - by apply ret1_ok, OSTimeDlyResume_ok.
  - eexists _, _. split; [done|]. exact H.
  - apply ret0_ok. by apply OSTimeTick_ok.
  - eexists _, _. split; [done|]. by apply OSSchedLock_ok.
  - by apply ret0_ok, OSSchedUnlock_ok.
Qed.

Lemma resume_ok k kd e : kinv k → OSRunning k = true → OSIntNesting k = 0 →
  cur_call k = Some (kd, e) → returns_ok (do_resume kd e k).
Proof.
  intros H R N Hc. unfold cur_call in Hc. destruct (tcb_at k (OSPrioCur k)) as [t|] eqn:Ht; [|done].
  cbn in Hc. destruct (pend_done_ok kd e t k H R N Ht Hc) as (k' & E & Hk & Hm).
  destruct kd; cbn; [|apply ret2_ok; unfold returns_ok; eauto..].
  apply ret1_ok. unfold OSSemPend_done. rewrite Ht. cbn [mbind option_bind]. rewrite E.
  unfold pend_result. unfold returns_ok.
  assert (Ht' : tcb_at k' (OSPrioCur k) = Some (woken t)).
  { revert E. unfold pend_done. rewrite Ht. cbn [mbind option_bind].
    repeat case_match; cbn [mbind option_bind]; intros E;
      try (injection E as <- _; unfold tcb_at; cbn; apply tcb_of_insert_eq).
    destruct (OSEventTbl k !! e); cbn in E; [|done].
    injection E as <- _. unfold tcb_at. cbn. apply tcb_of_insert_eq. }
  repeat case_match; cbn [mbind option_bind]; rewrite Ht'; cbn; eauto.
Qed.

Lemma OSIntEnter_ok k : kinv k → OSRunning k = true → kinv (OSIntEnter k).
Proof.
  intros H R. destruct (kinv_running k H R) as (H0 & (? & ? & P) & (t & Ht)).
  unfold OSIntEnter. rewrite R. destruct (Z.ltb_spec (OSIntNesting k) 255); [|done].
  split; [done|]. unfold sched_ok. cbn. rewrite R. split_and!; [|by exists t|lia].
  unfold sched_pre. cbn. split_and!; try lia. right.
  destruct P as [?|P]; [|done]. exists t. split; [done|lia].
Qed.
Lemma OSIntExit_ok k : kinv k → OSRunning k = true → 0 < OSIntNesting k →
  ∃ k', OSIntExit k = Some k' ∧ kinv k'.
Proof.
  intros H R N. destruct (kinv_running k H R) as (H0 & (? & ? & P) & (t & Ht)).
  unfold OSIntExit. rewrite R. destruct (Z.ltb_spec 0 (OSIntNesting k)); [|lia].
  set (k1 := set_nesting (OSIntNesting k - 1) k).
  assert (Hstay : OSIntNesting k1 ≠ 0 ∨ OSLockNesting k1 ≠ 0 → kinv k1).
  { intros Hno. split; [done|]. unfold sched_ok. cbn. rewrite R. cbn in Hno.
    split_and!; [|by exists t|lia]. unfold sched_pre. cbn. split_and!; try lia. right.
    destruct P as [?|P]; [lia|done]. }
  change (OSIntNesting k1) with (OSIntNesting k - 1) in *.
  change (OSLockNesting k1) with (OSLockNesting k) in *.
  cbn [OSIntNesting OSLockNesting k1 set_nesting].
  destruct (Z.eqb_spec (OSIntNesting k - 1) 0); [|exists k1; split; [done|apply Hstay; by left]].
  destruct (Z.eqb_spec (OSLockNesting k) 0); [|exists k1; split; [done|apply Hstay; by right]].
  destruct (sched_switch_spec k1) as (k' & ? & ? & _); [done..|]. eauto.
Qed.

Lemma step_ok a k : kinv k → OSRunning k = true → enabled a k → returns_ok (do_action a k).
Proof.
  intros H R E. destruct a; cbn in E |- *.
  - destruct E as (N & I & C & G). apply call_ok; try done. right. split; [done|].
    intros t Ht. unfold cur_call in C. by rewrite Ht in C.
  - destruct E as (N & [[kd e] C]). rewrite C. cbn [mbind option_bind]. by apply resume_ok.
  - eexists _, _. split; [done|]. by apply OSIntEnter_ok.
  - destruct E as (N & G). apply call_ok; try done. by left.
  - by apply ret0_ok, OSIntExit_ok.
Qed.

(** ** Start *)

Lemma OS_InitTaskIdle_eq k : OSTCBPrioTbl k = ∅ → OSTCBFree k = 22%nat → OSIntNesting k = 0 →
  OSRunning k = false → OS_InitTaskIdle k = Some (add_task OS_TASK_IDLE_PRIO k).
Proof.
  intros T F N R. unfold OS_InitTaskIdle.
  rewrite OSTaskCreate_eq; [|unfold OS_TASK_IDLE_PRIO; lia|intros p; by rewrite T, lookup_empty].
  by rewrite N, T, lookup_empty, F, R.
Qed.
Lemma OSTaskCreate_stopped prio k k' r : 0 <= prio < 64 → kinv0 k → OSRunning k = false →
  OSTaskCreate prio k = Some (k', r) → OSRunning k' = false.
Proof.
  intros Hp H R. rewrite OSTaskCreate_eq; [|done|apply H]. rewrite R.
  repeat case_match; by intros [= <- _].
Qed.
Lemma init_tables_ok evs : evs = replicate 20 (MkEVENT OS_EVENT_TYPE_UNUSED 0 (EvMsg 0) p_empty) →
  events_ok evs (seq 0 20) (replicate 20 (MkQ 0 0 0 0 [])) (seq 0 20).
Proof.
  intros ->.
  assert (Hev : ∀ e ev, replicate 20 (MkEVENT OS_EVENT_TYPE_UNUSED 0 (EvMsg 0) p_empty) !! e = Some ev →
    ev = MkEVENT OS_EVENT_TYPE_UNUSED 0 (EvMsg 0) p_empty) by (by intros ?? [? _]%lookup_replicate).
  split.
  - apply NoDup_seq.
  - intros e Hin. apply elem_of_seq in Hin. exists (MkEVENT OS_EVENT_TYPE_UNUSED 0 (EvMsg 0) p_empty).
    split; [apply lookup_replicate_2; lia|done].
  - intros e ev H%Hev. subst. by left.
  - intros e ev H%Hev. by subst.
  - intros e e' ev ev' q H%Hev H'%Hev T. by subst.
  - apply NoDup_seq.
  - intros q Hin. apply elem_of_seq in Hin. rewrite length_replicate. lia.
Qed.
Lemma OSInit_ok k0 : ∃ k, OSInit k0 = Some k ∧ kinv k ∧ OSRunning k = false.
Proof.
  unfold OSInit. set (k1 := OS_QInit _). rewrite (OS_InitTaskIdle_eq k1) by done.
  assert (Hi : kinv0 (add_task OS_TASK_IDLE_PRIO k1)).
  { apply idle_task_ok; try done; [|by apply init_tables_ok].
    intros e ev H. by apply lookup_replicate in H as [-> _]. }
  assert (R : OSRunning (add_task OS_TASK_IDLE_PRIO k1) = false) by done.
  assert (H : kinv (add_task OS_TASK_IDLE_PRIO k1)).
  { split; [done|]. unfold sched_ok. by rewrite R. }
  generalize dependent (add_task OS_TASK_IDLE_PRIO k1). clear k1. intros k1 Hi R H.
  cbn [mbind option_bind]. unfold OS_InitTaskStat.
  assert (Hp : 0 <= OS_TASK_IDLE_PRIO - 1 < 64) by (unfold OS_TASK_IDLE_PRIO; lia).
  destruct (OSTaskCreate_ok _ k1 H Hp) as (k' & r & E & Hk'). rewrite E. cbn.
  exists k'. split_and!; [done..|]. by eapply OSTaskCreate_stopped.
Qed.
Lemma OSStart_ok k : kinv k → OSRunning k = false → ∃ k', OSStart k = Some k' ∧ kinv k' ∧ OSRunning k' = true.
Proof.
  intros [H S] R. unfold sched_ok in S. rewrite R in S. destruct S as [N L].
  unfold OSStart. rewrite R. destruct (first_ready k H) as (t & Ht & _).
  cbn [OSPrioHighRdy OS_SchedNew set_high set_cur].
  change (tcb_at (set_cur _ (OS_SchedNew k))) with (tcb_at k). rewrite Ht. cbn [mbind option_bind].
  eexists. split; [done|]. split; [|done]. split; [done|]. unfold sched_ok. cbn. split_and!.
  - unfold sched_pre. cbn. rewrite N, L. split_and!; [lia..|by left].
  - by exists t.
  - done.
Qed.

Lemma reachable_kinv k : reachable k → kinv k.
Proof.
  induction 1 as [k0 k E | k c k' r _ IH R B G E | k k' _ IH R E | k a k' r _ IH R En E].
  - destruct (OSInit_ok k0) as (k1 & E1 & ? & _). by simplify_eq.
  - destruct (boot_call_ok c k IH B G) as (k1 & r1 & E1 & ?). by simplify_eq.
  - destruct (OSStart_ok k IH R) as (k1 & E1 & ? & _). by simplify_eq.
  - destruct (step_ok a k IH R En) as (k1 & r1 & E1 & ?). by simplify_eq.
Qed.
