(* ===== verification/KSpec.v ===== *)
(** * What the kernel promises

    Consequences of the invariant, stated for the states a system can reach ([KRun.reachable])
    and in terms of tasks, events and messages instead of tables. *)
From S2P Require Import Prelude PrioTab Kernel KEvent KInv KStep KEventInv KRun.

(** ** Observations *)

(** The task with priority [p] waits for event [e]. *)
Definition waits_for (k : kernel) (p : Z) (e : nat) : bool :=
  match OSEventTbl k !! e with Some ev => p_mem (OSEventWait ev) p | None => false end.

(** The messages of a queue, oldest first. *)
Definition q_list (pq : OS_Q) : list Z :=
  map (λ i, OSQBuf pq !!! Z.to_nat ((OSQOut pq + i) mod OSQSize pq)) (seqZ 0 (OSQEntries pq)).

(** What an event holds: the count as that many units, the message, the messages. *)
Definition contents (k : kernel) (ev : EVENT) : list Z :=
  if OSEventType ev =? kind_type KSem then replicate (Z.to_nat (OSEventCnt ev)) 0
  else match OSEventPtr ev with
       | EvMsg m => if m =? 0 then [] else [m]
       | EvQ q => match OSQTbl k !! q with Some pq => q_list pq | None => [] end
       end.
(** How much it can hold. *)
Definition capacity (k : kernel) (ev : EVENT) : Z :=
  if OSEventType ev =? kind_type KSem then 65535
  else match OSEventPtr ev with
       | EvMsg _ => 1
       | EvQ q => match OSQTbl k !! q with Some pq => OSQSize pq | None => 0 end
       end.

(** The three posts; a semaphore carries no message. *)
Definition post (kd : evkind) (e : nat) (m : Z) (k : kernel) : option (kernel * Z) :=
  match kd with KSem => OSSemPost e k | KMbox => OSMboxPost e m k | KQ => OSQPost e m k end.
Definition msg_of (kd : evkind) (m : Z) : Z := match kd with KSem => 0 | _ => m end.
Definition full_code (kd : evkind) : Z :=
  match kd with KSem => OS_ERR_SEM_OVF | KMbox => OS_ERR_MBOX_FULL | KQ => OS_ERR_Q_FULL end.

(** ** The ring of a queue *)

Lemma length_q_list pq : q_ok pq → Z.of_nat (length (q_list pq)) = OSQEntries pq.
Proof. intros (_ & _ & ? & _). unfold q_list. rewrite length_map, length_seqZ. lia. Qed.
Lemma q_list_nil pq : OSQEntries pq = 0 → q_list pq = [].
Proof. intros E. unfold q_list. by rewrite E. Qed.

Lemma seqZ_snoc m n : 0 <= n → seqZ m (n + 1) = seqZ m n ++ [m + n].
Proof. intros. rewrite seqZ_app by lia. f_equal. Qed.
Lemma map_seqZ_ext {A} (f g : Z → A) m n : (∀ i, m <= i < m + n → f i = g i) →
  map f (seqZ m n) = map g (seqZ m n).
Proof.
  intros H. apply map_ext_in. intros i Hi. apply H. apply list_elem_of_In, elem_of_seqZ in Hi. lia.
Qed.
Lemma map_seqZ_shift {A} (f : Z → A) m n : map f (seqZ (Z.succ m) n) = map (λ i, f (Z.succ i)) (seqZ m n).
Proof. unfold seqZ, fmap. rewrite !map_map. apply map_ext. intros i. f_equal. lia. Qed.

(** Different positions of the ring are different cells. *)
Lemma ring_distinct o s i j : 0 <= i < s → 0 <= j < s → (o + i) mod s = (o + j) mod s → i = j.
Proof.
  intros Hi Hj E. apply (f_equal (λ x, (x - o) mod s)) in E.
  rewrite !Zminus_mod_idemp_l in E.
  replace (o + i - o) with i in E by lia. replace (o + j - o) with j in E by lia.
  by rewrite !Z.mod_small in E by lia.
Qed.
Lemma ring_pos o s i : 0 < s → 0 <= (o + i) mod s < s.
Proof. intros. by apply Z.mod_pos_bound. Qed.

(** A cell after a store. *)
Lemma lookup_total_store (buf : list Z) i j m : 0 <= i < Z.of_nat (length buf) → 0 <= j →
  <[Z.to_nat i := m]> buf !!! Z.to_nat j = if decide (j = i) then m else buf !!! Z.to_nat j.
Proof.
  intros Hi Hj. rewrite !list_lookup_total_alt. case_decide.
  - subst. by rewrite list_lookup_insert_eq by lia.
  - by rewrite list_lookup_insert_ne by lia.
Qed.

Lemma q_list_put_back m pq pq' : q_ok pq → OSQEntries pq < OSQSize pq →
  q_put_back m pq = Some pq' → q_list pq' = q_list pq ++ [m].
Proof.
  intros (Hs & Hl & He & Ho) Hlt. destruct Ho as [Hr Hi]; [lia|]. unfold q_put_back, q_store.
  assert (Hi' : 0 <= OSQIn pq < OSQSize pq) by (rewrite Hi; apply Z.mod_pos_bound; lia).
  rewrite bool_decide_eq_true_2 by lia. intros [= <-]. unfold q_list.
  cbn [OSQBuf OSQOut OSQSize OSQEntries]. rewrite u16_small by lia.
  rewrite seqZ_snoc, map_app by lia. f_equal.
  - apply map_seqZ_ext. intros i Hir. pose proof (ring_pos (OSQOut pq) (OSQSize pq) i ltac:(lia)).
    rewrite lookup_total_store by lia. rewrite decide_False; [done|]. rewrite Hi. intros E.
    apply ring_distinct in E; lia.
  - cbn. f_equal. pose proof (ring_pos (OSQOut pq) (OSQSize pq) (OSQEntries pq) ltac:(lia)).
    rewrite Z.add_0_l, lookup_total_store by lia. by rewrite decide_True.
Qed.
Lemma q_list_put_front m pq pq' : q_ok pq → OSQEntries pq < OSQSize pq →
  q_put_front m pq = Some pq' → q_list pq' = m :: q_list pq.
Proof.
  intros (Hs & Hl & He & Ho) Hlt. destruct Ho as [Hr Hi]; [lia|]. unfold q_put_front, q_store.
  set (o := (if OSQOut pq =? 0 then OSQSize pq else OSQOut pq) - 1).
  assert (Ho' : 0 <= o < OSQSize pq) by (unfold o; destruct (Z.eqb_spec (OSQOut pq) 0); lia).
  rewrite bool_decide_eq_true_2 by lia. intros [= <-]. unfold q_list.
  cbn [OSQBuf OSQOut OSQSize OSQEntries]. rewrite u16_small by lia.
  rewrite seqZ_cons by lia. replace (Z.pred (OSQEntries pq + 1)) with (OSQEntries pq) by lia.
  cbn [map]. f_equal.
  - rewrite Z.add_0_r, Z.mod_small by lia. rewrite lookup_total_store by lia. by rewrite decide_True.
  - rewrite map_seqZ_shift. apply map_seqZ_ext. intros i Hir.
    assert (E : (o + Z.succ i) mod OSQSize pq = (OSQOut pq + i) mod OSQSize pq).
    { unfold o. destruct (Z.eqb_spec (OSQOut pq) 0).
      - replace (OSQSize pq - 1 + Z.succ i) with (OSQOut pq + i + 1 * OSQSize pq) by lia.
        apply Z_mod_plus_full.
      - f_equal. lia. }
    pose proof (ring_pos (OSQOut pq) (OSQSize pq) i ltac:(lia)).
    rewrite E, lookup_total_store by lia. rewrite decide_False; [done|]. rewrite <- E. intros E1.
    assert (E2 : o = (o + 0) mod OSQSize pq) by (rewrite Z.add_0_r; by rewrite Z.mod_small).
    rewrite E2 in E1 at 2. apply ring_distinct in E1; lia.
Qed.
Lemma q_list_take pq pq' m : q_ok pq → 0 < OSQEntries pq → q_take pq = Some (pq', m) →
  q_list pq = m :: q_list pq'.
Proof.
  intros (Hs & Hl & He & Ho) Hpos. destruct Ho as [Hr Hi]; [lia|]. unfold q_take.
  destruct (OSQBuf pq !! Z.to_nat (OSQOut pq)) as [x|] eqn:E; cbn; [|done].
  intros [= <- <-]. unfold q_list. cbn [OSQBuf OSQOut OSQSize OSQEntries].
  rewrite seqZ_cons by lia. replace (Z.pred (OSQEntries pq)) with (OSQEntries pq - 1) by lia.
  cbn [map]. f_equal.
  - rewrite Z.add_0_r, Z.mod_small by lia. by rewrite list_lookup_total_alt, E.
  - rewrite map_seqZ_shift. apply map_seqZ_ext. intros i Hir. do 2 f_equal.
    destruct (Z.eqb_spec (OSQOut pq + 1) (OSQSize pq)) as [En|En].
    + replace (OSQOut pq + Z.succ i) with (0 + i + 1 * OSQSize pq) by lia. apply Z_mod_plus_full.
    + f_equal. lia.
Qed.

(** ** Contents and availability *)

Lemma waits_for_eq k e ev p : OSEventTbl k !! e = Some ev → waits_for k p e = p_mem (OSEventWait ev) p.
Proof. intros H. unfold waits_for. by rewrite H. Qed.
Lemma nobody_waits k e ev : kinv k → OSEventTbl k !! e = Some ev →
  (∀ p, waits_for k p e = false) ↔ p_grp (OSEventWait ev) = 0.
Proof.
  intros [(Ht & _) _] He. rewrite p_grp_zero by (by eapply ts_ev_wf).
  split; intros H p; specialize (H p); by rewrite (waits_for_eq _ _ _ _ He) in *.
Qed.
(** The state after changing the contents of the event's block or queue. *)
Lemma contents_sem k ev : OSEventType ev = kind_type KSem →
  contents k ev = replicate (Z.to_nat (OSEventCnt ev)) 0.
Proof. intros T. unfold contents. by rewrite T. Qed.
Lemma contents_mbox k ev m : OSEventType ev = kind_type KMbox → OSEventPtr ev = EvMsg m →
  contents k ev = if m =? 0 then [] else [m].
Proof. intros T P. unfold contents. by rewrite T, P. Qed.
Lemma contents_q k ev q pq : OSEventType ev = kind_type KQ → OSEventPtr ev = EvQ q →
  OSQTbl k !! q = Some pq → contents k ev = q_list pq.
Proof. intros T P Q. unfold contents. by rewrite T, P, Q. Qed.

Lemma avail_contents k e ev kd : kinv k → OSEventTbl k !! e = Some ev →
  OSEventType ev = kind_type kd → ev_avail (OSQTbl k) ev = true ↔ contents k ev ≠ [].
Proof.
  intros H He T. unfold ev_avail. destruct kd.
  - pose proof (sem_cnt k e ev H He T). rewrite (contents_sem k ev T), T. cbn.
    destruct (Z.ltb_spec 0 (OSEventCnt ev)) as [C|C].
    + split; [|done]. intros _. by destruct (Z.to_nat (OSEventCnt ev)) eqn:E; [lia|].
    + split; [done|]. by replace (Z.to_nat (OSEventCnt ev)) with 0%nat by lia.
  - destruct (mbox_has k e ev H He T) as (m & _ & P). rewrite (contents_mbox k ev m T P), T, P. cbn.
    destruct (m =? 0); cbn; done.
  - destruct (queue_has k e ev H He T) as (q & pq & _ & P & Q & O & _).
    rewrite (contents_q k ev q pq T P Q), T, P, Q. cbn. pose proof (length_q_list pq O) as L.
    destruct (Z.ltb_spec 0 (OSQEntries pq)) as [C|C].
    + split; [|done]. intros _ E. rewrite E in L. cbn in L. lia.
    + split; [done|]. intros E. exfalso. apply E, q_list_nil. destruct O as (_ & _ & ? & _). lia.
Qed.

(** ** Posting *)

(** Everything the scheduler looks at is untouched. *)
Record same_sched (k k' : kernel) : Prop := {
  sm_tasks : OSTCBPrioTbl k' = OSTCBPrioTbl k; sm_cur : OSPrioCur k' = OSPrioCur k;
  sm_nest : OSIntNesting k' = OSIntNesting k; sm_lock : OSLockNesting k' = OSLockNesting k;
  sm_time : OSTime k' = OSTime k; sm_running : OSRunning k' = OSRunning k }.

Lemma post_stores k kd e ev m : kinv k → OSRunning k = true →
  OSEventTbl k !! e = Some ev → OSEventType ev = kind_type kd →
  p_grp (OSEventWait ev) = 0 → (kd = KMbox → m ≠ 0) →
  ∃ k' r ev', post kd e m k = Some (k', r) ∧ OSEventTbl k' !! e = Some ev' ∧
    OSEventType ev' = OSEventType ev ∧ OSEventWait ev' = OSEventWait ev ∧ same_sched k k' ∧
    if Z.of_nat (length (contents k ev)) <? capacity k ev
    then r = OS_ERR_NONE ∧ contents k' ev' = contents k ev ++ [msg_of kd m]
    else r = full_code kd ∧ k' = k.
Proof.
  intros H R He T G Hm. assert (same_sched k k) by done.
  assert (Hlt : (e < length (OSEventTbl k))%nat) by (by eapply lookup_lt_Some).
  destruct kd; cbn [post msg_of full_code].
  - pose proof (sem_cnt k e ev H He T). unfold OSSemPost, capacity.
    rewrite He. cbn [mbind option_bind]. rewrite (contents_sem k ev T), length_replicate, T, G.
    cbn [negb Z.eqb kind_type Pos.eqb].
    rewrite Z2Nat.id by lia. destruct (Z.ltb_spec (OSEventCnt ev) 65535); [|by exists k, OS_ERR_SEM_OVF, ev].
    eexists _, _, _. split; [done|]. cbn [OSEventTbl put_event set_events].
    rewrite list_lookup_insert_eq by done. split; [done|]. split; [done|]. split; [done|]. split; [done|].
    rewrite (contents_sem _ (ev_set_cnt _ ev)) by done. cbn [OSEventCnt ev_set_cnt].
    replace (Z.to_nat (OSEventCnt ev + 1)) with (Z.to_nat (OSEventCnt ev) + 1)%nat by lia.
    by rewrite replicate_add.
  - destruct (mbox_has k e ev H He T) as (m0 & E & P). unfold OSMboxPost, mbox_put, capacity.
    rewrite He. cbn [mbind option_bind]. rewrite (contents_mbox k ev m0 T P), T, G, E, P.
    cbn [negb Z.eqb kind_type Pos.eqb mbind option_bind].
    destruct (Z.eqb_spec m0 0) as [->|M]; cbn [negb length Z.ltb Z.of_nat Z.compare Pos.of_succ_nat Pos.compare Pos.compare_cont];
      [|by exists k, OS_ERR_MBOX_FULL, ev].
    eexists _, _, _. split; [done|]. cbn [OSEventTbl put_event set_events].
    rewrite list_lookup_insert_eq by done. split; [done|]. split; [done|]. split; [done|]. split; [done|].
    rewrite (contents_mbox _ (ev_set_ptr _ ev) m) by done.
    destruct (Z.eqb_spec m 0); [by destruct (Hm eq_refl)|done].
  - destruct (queue_has k e ev H He T) as (q & pq & E & P & Q & O & _).
    unfold OSQPost, q_post, q_put, capacity.
    rewrite He. cbn [mbind option_bind]. rewrite (contents_q k ev q pq T P Q), T, G, E, P, Q.
    cbn [negb Z.eqb kind_type Pos.eqb mbind option_bind].
    rewrite (length_q_list pq O). destruct (Z.leb_spec (OSQSize pq) (OSQEntries pq)) as [F|F].
    { replace (OSQEntries pq <? OSQSize pq) with false by lia. by exists k, OS_ERR_Q_FULL, ev. }
    replace (OSQEntries pq <? OSQSize pq) with true by lia.
    destruct (q_ok_put_back m pq O F) as (pq' & E' & _). rewrite E'. cbn [mbind option_bind].
    eexists _, _, _. split; [done|]. cbn [OSEventTbl put_queue set_qs].
    split; [done|]. split; [done|]. split; [done|]. split; [done|].
    rewrite (contents_q (put_queue q pq' k) ev q pq') by
      (done || (cbn; apply list_lookup_insert_eq; by eapply lookup_lt_Some)).
    split; [done|]. by apply q_list_put_back.
Qed.

(** Posting to a semaphore, mailbox or queue nobody waits for adds the unit or message at
    the end of what the event holds, or reports that it is full and changes nothing; no task
    is affected. *)
Theorem post_without_waiter_stores k kd e ev m : reachable k → OSRunning k = true →
  OSEventTbl k !! e = Some ev → OSEventType ev = kind_type kd →
  (∀ p, waits_for k p e = false) → (kd = KMbox → m ≠ 0) →
  ∃ k' r ev', post kd e m k = Some (k', r) ∧ OSEventTbl k' !! e = Some ev' ∧
    OSTCBPrioTbl k' = OSTCBPrioTbl k ∧ OSPrioCur k' = OSPrioCur k ∧
    if Z.of_nat (length (contents k ev)) <? capacity k ev
    then r = OS_ERR_NONE ∧ contents k' ev' = contents k ev ++ [msg_of kd m]
    else r = full_code kd ∧ k' = k.
Proof.
  intros Hr R He T Hw Hm. pose proof (reachable_kinv k Hr) as H.
  pose proof (proj1 (nobody_waits k e ev H He) Hw) as G.
  destruct (post_stores k kd e ev m H R He T G Hm) as (k' & r & ev' & E & He' & _ & _ & S & Hres).
  exists k', r, ev'. split; [done|]. split; [done|]. split; [apply S|]. split; [apply S|]. done.
Qed.

(** All three posts hand over to the same code when somebody waits. *)
Lemma post_waiting k kd e ev m : OSEventTbl k !! e = Some ev → OSEventType ev = kind_type kd →
  p_grp (OSEventWait ev) ≠ 0 →
  post kd e m k = '(k1, _) ← OS_EventTaskRdy e (msg_of kd m) (kind_stat kd) OS_STAT_PEND_OK k;
                  k2 ← OS_Sched k1; Some (k2, OS_ERR_NONE).
Proof.
  intros He T G. apply Z.eqb_neq in G.
  destruct kd; cbn [post msg_of]; [unfold OSSemPost | unfold OSMboxPost | unfold OSQPost, q_post];
    rewrite He; cbn [mbind option_bind]; rewrite T, G; reflexivity.
Qed.

(** What the rescheduling leaves of a task. *)
Lemma switched_task k k' p t : switched k k' → tcb_at k p = Some t →
  ∃ t', tcb_at k' p = Some t' ∧ strip t' = strip t.
Proof.
  intros S Hp. pose proof (sw_tasks _ _ S p) as E. rewrite Hp in E.
  destruct (tcb_at k' p) as [t'|]; cbn in E; [|done]. exists t'. split; congruence.
Qed.
Lemma kinv_cur_first k p t : kinv k → OSRunning k = true → OSIntNesting k = 0 →
  OSLockNesting k = 0 → tcb_at k p = Some t → runnable t → OSPrioCur k <= p.
Proof.
  intros [H S] R N L Hp Hr. unfold sched_ok in S. rewrite R in S. destruct S as (_ & _ & S).
  rewrite S by done. destruct (first_ready k H) as (_ & _ & _ & F). by eapply F.
Qed.

(** C17: when tasks wait, a post gives the unit or message directly to the one of highest
    priority: that task alone leaves the wait list, its call will return the message with
    [OS_ERR_NONE], it is ready unless it is suspended, no other task changes, and the
    processor goes to it if it has a higher priority than the running task. *)
Theorem post_wakes_highest_waiter k kd e ev m q : reachable k → OSRunning k = true →
  OSEventTbl k !! e = Some ev → OSEventType ev = kind_type kd → waits_for k q e = true →
  ∃ p k' t t', post kd e m k = Some (k', OS_ERR_NONE) ∧
    waits_for k p e = true ∧ (∀ r, waits_for k r e = true → p <= r) ∧
    (∀ r, waits_for k' r e = waits_for k r e && negb (r =? p)) ∧
    tcb_at k p = Some t ∧ tcb_at k' p = Some t' ∧
    in_pend t' = Some (kd, e) ∧ pend_result t' = (msg_of kd m, OS_ERR_NONE) ∧
    (Z.land (OSTCBStat t) OS_STAT_SUSPEND = 0 → runnable t') ∧
    (∀ r, r ≠ p → strip <$> tcb_at k' r = strip <$> tcb_at k r) ∧
    (runnable t' → OSIntNesting k = 0 → OSLockNesting k = 0 → OSPrioCur k' <= p).
Proof.
  intros Hr R He T Hq. pose proof (reachable_kinv k Hr) as H.
  destruct (kinv_running k H R) as (H0 & _). pose proof H0 as (Hts & _).
  assert (G : p_grp (OSEventWait ev) ≠ 0).
  { intros G. apply (nobody_waits k e ev H He) with (p := q) in G. congruence. }
  rewrite (post_waiting k kd e ev m He T G).
  destruct (event_rdy_spec e ev kd (msg_of kd m) OS_STAT_PEND_OK k H0 He T G)
    as (t & Ht & Hp & Hmin & -> & H1 & F). cbn [mbind option_bind].
  set (p := p_first (OSEventWait ev)) in *. set (k1 := rdy_state _ _ _ _ _) in *.
  destruct (sched_pre_frame_ok k k1 H R F H1) as (k' & -> & Hk' & S). cbn [mbind option_bind].
  assert (Ht1 : tcb_at k1 p = Some (readied (msg_of kd m) (kind_stat kd) OS_STAT_PEND_OK t)).
  { unfold k1. rewrite rdy_state_tcb. by rewrite decide_True. }
  destruct (switched_task k1 k' p _ S Ht1) as (t' & Ht' & Es).
  pose proof (ts_task _ _ _ Hts _ _ Ht) as Hok.
  destruct (tk_listed _ _ _ Hok e ev He Hp) as (_ & kd' & Hc & Hty & Hb).
  assert (kd' = kd) as -> by (apply kind_type_inj; congruence).
  destruct (stat_post (OSTCBStat t) kd) as (_ & _ & Hrun); [apply Hok|unfold pend_bits in Hb; tauto|].
  exists p, k', t, t'. split_and!; try done.
  - by rewrite (waits_for_eq _ _ _ _ He).
  - intros r. rewrite (waits_for_eq _ _ _ _ He). apply Hmin.
  - intros r. rewrite (waits_for_eq _ _ _ _ He).
    rewrite (waits_for_eq k' e (OS_EventTaskRemove p ev)).
    + cbn. apply p_mem_clear; [by eapply ts_ev_wf|apply Hok].
    + rewrite (sw_events _ _ S). unfold k1. rewrite rdy_state_events.
      apply list_lookup_insert_eq. by eapply lookup_lt_Some.
  - apply (f_equal in_pend) in Es. cbn in Es. congruence.
  - apply (f_equal pend_result) in Es. exact Es.
  - intros Hs. apply (f_equal (λ t, (OSTCBStat t, OSTCBDly t))) in Es. cbn in Es.
    injection Es as E1 E2. split; [|done]. rewrite E1. apply Hrun.
    rewrite <- Z.land_assoc, (Z.land_comm (u8 _)), Z.land_assoc, Hs. apply Z.land_0_l.
  - intros r Hne. rewrite (sw_tasks _ _ S). unfold k1. rewrite rdy_state_tcb. by rewrite decide_False.
  - intros Hrt N L. apply kinv_cur_first with t'; try done.
    + by rewrite (sw_running _ _ S), (fr_running _ _ F).
    + by rewrite (sw_nesting _ _ S), (fr_nesting _ _ F).
    + by rewrite (sw_lock _ _ S), (fr_lock _ _ F).
Qed.

(** ** Pending *)

Definition pend (kd : evkind) (e : nat) (timeout : Z) (k : kernel)
    : option (kernel * option (Z * Z)) :=
  match kd with
  | KSem =>
    match OSSemPend e timeout k with
    | Some (k, Some err) => Some (k, Some (0, err))
    | Some (k, None) => Some (k, None)
    | None => None
    end
  | KMbox => OSMboxPend e timeout k
  | KQ => OSQPend e timeout k
  end.

(** A task that may wait: outside interrupts, unlocked, not inside another call. *)
Definition may_pend (k : kernel) : Prop :=
  OSIntNesting k = 0 ∧ OSLockNesting k = 0 ∧ OSPrioCur k ≠ OS_TASK_IDLE_PRIO ∧ cur_call k = None.

(** With the checks passed, the event's contents decide. *)
Lemma pend_empty k kd e ev timeout : kinv k → may_pend k → OSEventTbl k !! e = Some ev →
  OSEventType ev = kind_type kd → contents k ev = [] →
  pend kd e timeout k = k ← pend_wait kd e timeout k; Some (k, None).
Proof.
  intros H (N & L & _) He T C.
  destruct kd; cbn [pend]; [unfold OSSemPend | unfold OSMboxPend | unfold OSQPend];
    rewrite He; cbn [mbind option_bind]; rewrite T, N, L;
    cbn [negb Z.eqb Z.ltb Z.compare kind_type Pos.eqb].
  - pose proof (sem_cnt k e ev H He T). rewrite (contents_sem k ev T) in C.
    destruct (Z.ltb_spec 0 (OSEventCnt ev)) as [Cn|Cn].
    + destruct (Z.to_nat (OSEventCnt ev)) eqn:E; [lia|done].
    + by destruct (pend_wait KSem e timeout k).
  - destruct (mbox_has k e ev H He T) as (m & -> & P). rewrite (contents_mbox k ev m T P) in C.
    cbn [mbind option_bind]. by destruct (m =? 0).
  - destruct (queue_has k e ev H He T) as (q & pq & -> & P & Q & O & _).
    rewrite (contents_q k ev q pq T P Q) in C. pose proof (length_q_list pq O) as E.
    rewrite C in E. cbn in E. cbn [mbind option_bind]. by rewrite <- E.
Qed.
Lemma pend_full k kd e ev timeout m l : kinv k → may_pend k → OSEventTbl k !! e = Some ev →
  OSEventType ev = kind_type kd → contents k ev = m :: l →
  ∃ k' ev', pend kd e timeout k = Some (k', Some (m, OS_ERR_NONE)) ∧
    OSEventTbl k' !! e = Some ev' ∧ OSEventType ev' = OSEventType ev ∧ contents k' ev' = l ∧ same_sched k k'.
Proof.
  intros H (N & L & _) He T C.
  assert (Hlt : (e < length (OSEventTbl k))%nat) by (by eapply lookup_lt_Some).
  destruct kd; cbn [pend]; [unfold OSSemPend | unfold OSMboxPend | unfold OSQPend];
    rewrite He; cbn [mbind option_bind]; rewrite T, N, L;
    cbn [negb Z.eqb Z.ltb Z.compare kind_type Pos.eqb].
  - pose proof (sem_cnt k e ev H He T). rewrite (contents_sem k ev T) in C.
    destruct (Z.ltb_spec 0 (OSEventCnt ev)) as [Cn|Cn];
      [|by replace (Z.to_nat (OSEventCnt ev)) with 0%nat in C by lia].
    replace (Z.to_nat (OSEventCnt ev)) with (S (Z.to_nat (OSEventCnt ev - 1))) in C by lia.
    cbn in C. injection C as <- <-. eexists _, _. split; [done|].
    cbn [OSEventTbl put_event set_events]. rewrite list_lookup_insert_eq by done.
    split; [done|]. split; [done|]. split; [|done]. by rewrite (contents_sem _ (ev_set_cnt _ ev)).
  - destruct (mbox_has k e ev H He T) as (m0 & -> & P). rewrite (contents_mbox k ev m0 T P) in C.
    cbn [mbind option_bind]. destruct (m0 =? 0); [done|]. injection C as -> <-.
    eexists _, _. split; [done|]. cbn [OSEventTbl put_event set_events].
    rewrite list_lookup_insert_eq by done. split; [done|]. split; [done|]. split; [|done].
    by rewrite (contents_mbox _ (ev_set_ptr _ ev) 0).
  - destruct (queue_has k e ev H He T) as (q & pq & -> & P & Q & O & _).
    rewrite (contents_q k ev q pq T P Q) in C. pose proof (length_q_list pq O) as E.
    rewrite C in E. cbn [mbind option_bind]. replace (0 <? OSQEntries pq) with true by (cbn in E; lia).
    destruct (q_ok_take pq O) as (pq' & m' & E' & _); [cbn in E; lia|]. rewrite E'.
    cbn [mbind option_bind].
    pose proof (q_list_take pq pq' m' O ltac:(cbn in E; lia) E') as C'. rewrite C in C'.
    injection C' as <- ->. eexists _, ev. split; [done|]. split; [done|]. split; [done|]. split; [|done].
    rewrite (contents_q _ ev q pq'); try done. cbn. apply list_lookup_insert_eq.
    by eapply lookup_lt_Some.
Qed.

Lemma pend_waits k kd e ev timeout : kinv k → OSRunning k = true →
  may_pend k → OSEventTbl k !! e = Some ev → OSEventType ev = kind_type kd → is_u32 timeout →
  contents k ev = [] →
  ∃ k' t', pend kd e timeout k = Some (k', None) ∧
    tcb_at k' (OSPrioCur k) = Some t' ∧ in_pend t' = Some (kd, e) ∧ OSTCBDly t' = timeout ∧
    ¬ runnable t' ∧ OSPrioCur k' ≠ OSPrioCur k ∧
    (∀ p, waits_for k' p e = waits_for k p e || (p =? OSPrioCur k)) ∧
    (∀ p, p ≠ OSPrioCur k → strip <$> tcb_at k' p = strip <$> tcb_at k p) ∧
    kinv k' ∧ OSRunning k' = true.
Proof.
  intros H R M He T U C.
  pose proof (pend_empty k kd e ev timeout H M He T C) as ->. destruct M as (N & L & I & Cc).
  assert (Hc : ∀ t, tcb_at k (OSPrioCur k) = Some t → in_pend t = None).
  { intros t Ht. unfold cur_call in Cc. by rewrite Ht in Cc. }
  assert (Av : ev_avail (OSQTbl k) ev = false).
  { apply not_true_iff_false. rewrite (avail_contents k e ev kd H He T). by intros []. }
  destruct (pend_wait_ok kd e ev timeout k H R N L I Hc He T Av U) as (t & k' & Ht & -> & Hk' & S).
  cbn [mbind option_bind]. set (p := OSPrioCur k) in *.
  assert (Ht1 : tcb_at (wait_state kd e ev timeout t k) p = Some (waiting kd e timeout t)).
  { unfold tcb_at. cbn. apply tcb_of_insert_eq. }
  destruct (switched_task _ _ _ _ S Ht1) as (t' & Ht' & Es).
  pose proof H as [(Hts & _) _]. pose proof (tk_range _ _ _ (ts_task _ _ _ Hts _ _ Ht)) as Hrg.
  assert (Hnr : ¬ runnable t').
  { intros [E _]. apply (f_equal OSTCBStat) in Es. cbn in Es. rewrite E in Es. symmetry in Es.
    apply Z.lor_eq_0_iff in Es as [_ Es]. by destruct kd. }
  exists k', t'. split_and!; try done.
  - apply (f_equal in_pend) in Es. exact Es.
  - apply (f_equal OSTCBDly) in Es. exact Es.
  - intros E. apply Hnr. destruct (cur_runnable k' Hk') as (t2 & Ht2 & Hr2).
    + by rewrite (sw_running _ _ S).
    + by rewrite (sw_nesting _ _ S).
    + by rewrite (sw_lock _ _ S).
    + rewrite E, Ht' in Ht2. by simplify_eq.
  - intros r. rewrite (waits_for_eq _ _ _ _ He).
    rewrite (waits_for_eq k' e (ev_set_wait (p_set (OSEventWait ev) p) ev)).
    + cbn. apply p_mem_set; [by eapply ts_ev_wf|done].
    + rewrite (sw_events _ _ S). cbn. apply list_lookup_insert_eq. by eapply lookup_lt_Some.
  - intros r Hne. rewrite (sw_tasks _ _ S). unfold tcb_at. cbn. by rewrite tcb_of_insert_ne.
  - by rewrite (sw_running _ _ S).
Qed.

(** C18: a task that pends on a semaphore, mailbox or queue gets the oldest unit or message at
    once if there is one; otherwise it enters the wait list with its timeout, is not
    runnable, and another task runs; all other tasks are as before. *)
Theorem pend_takes_or_waits k kd e ev timeout : reachable k → OSRunning k = true →
  may_pend k → OSEventTbl k !! e = Some ev → OSEventType ev = kind_type kd → is_u32 timeout →
  match contents k ev with
  | m :: l => ∃ k' ev', pend kd e timeout k = Some (k', Some (m, OS_ERR_NONE)) ∧
      OSEventTbl k' !! e = Some ev' ∧ contents k' ev' = l ∧
      OSTCBPrioTbl k' = OSTCBPrioTbl k ∧ OSPrioCur k' = OSPrioCur k
  | [] => ∃ k' t', pend kd e timeout k = Some (k', None) ∧
      tcb_at k' (OSPrioCur k) = Some t' ∧ in_pend t' = Some (kd, e) ∧ OSTCBDly t' = timeout ∧
      ¬ runnable t' ∧ OSPrioCur k' ≠ OSPrioCur k ∧
      (∀ p, waits_for k' p e = waits_for k p e || (p =? OSPrioCur k)) ∧
      (∀ p, p ≠ OSPrioCur k → strip <$> tcb_at k' p = strip <$> tcb_at k p)
  end.
Proof.
  intros Hr R M He T U. pose proof (reachable_kinv k Hr) as H.
  destruct (contents k ev) as [|m l] eqn:C.
  { destruct (pend_waits k kd e ev timeout H R M He T U C) as
      (k' & t' & ? & ? & ? & ? & ? & ? & ? & ? & _). by exists k', t'. }
  destruct (pend_full k kd e ev timeout m l H M He T C) as (k' & ev' & E & He' & _ & C' & S).
  exists k', ev'. split; [done|]. split; [done|]. split; [done|]. split; apply S.
Qed.

(** ** The headline properties *)

(** Task [p] is ready and no ready task is more urgent. *)
Definition most_urgent (k : kernel) (p : Z) : Prop :=
  (∃ t, tcb_at k p = Some t ∧ runnable t) ∧ ∀ q t, tcb_at k q = Some t → runnable t → p <= q.

(** C10: in every state reached from [OSInit] by calls and interrupts that keep the rules of
    [enabled], outside interrupts and with the scheduler unlocked, the running task is ready
    and no ready task has a higher priority.  Two of the rules are what the claim rests on:
    [OSTimeTick] is called from an interrupt only, and a post that asks for no rescheduling
    ([OS_POST_OPT_NO_SCHED] of [OSMboxPostOpt] and [OSQPostOpt]) is made from an interrupt or
    with the scheduler locked, since either call, made by a task with the scheduler unlocked,
    can leave a more urgent task ready and not running.  The other rules: the idle task makes
    no calls, nor does a task that waits in one; event pointers (a queue's, for [OSQFlush]) and
    priorities are ones the kernel has; a task does not delete itself with the scheduler locked;
    interrupts nest at most 255 deep; before [OSStart] only tasks and events are created. *)
Theorem running_task_has_highest_priority k : reachable k → OSRunning k = true →
  OSIntNesting k = 0 → OSLockNesting k = 0 → most_urgent k (OSPrioCur k).
Proof.
  intros Hr R N L. pose proof (reachable_kinv k Hr) as H.
  destruct (cur_runnable k H R N L) as (t & Ht & Hrun). split; [by exists t|].
  intros q tq Hq [Sq Dq]. by apply kinv_cur_first with tq.
Qed.

(** The steps [l] can be taken one after the other, each from the state the last one left, as
    long as the callers respect [enabled]; none of them faults. *)
Fixpoint executes (l : list action) (k : kernel) : Prop :=
  match l with
  | [] => reachable k
  | a :: l => OSRunning k = true → enabled a k → ∃ k' r, do_action a k = Some (k', r) ∧ executes l k'
  end.

(** C5: no sequence of kernel steps faults: as long as callers respect [enabled], every call,
    every resumption, every interrupt entry and exit returns, whatever came before. *)
Theorem kernel_never_faults k l : reachable k → executes l k.
Proof.
  revert k. induction l as [|a l IH]; intros k Hr; [done|]. intros R E.
  destruct (step_ok a k (reachable_kinv k Hr) R E) as (k' & r & Ea & _).
  exists k', r. split; [done|]. apply IH. by eapply reach_step.
Qed.

(** C36: no wake-up is lost: in no reachable state does a task stay blocked on a semaphore with
    a positive count, a full mailbox or a queue with messages. *)
Theorem nobody_blocks_on_available k p t kd e ev : reachable k → tcb_at k p = Some t →
  in_pend t = Some (kd, e) → OSEventTbl k !! e = Some ev → OSEventType ev = kind_type kd →
  contents k ev ≠ [] → Z.land (OSTCBStat t) OS_STAT_PEND_ANY = 0.
Proof.
  intros Hr Ht Hc He T Ha. pose proof (reachable_kinv k Hr) as H.
  apply (avail_contents k e ev kd H He T), (no_waiters k e ev H He) in Ha.
  pose proof H as [(Hts & _) _]. pose proof (ts_task _ _ _ Hts _ _ Ht) as Hok.
  destruct (decide (Z.land (OSTCBStat t) OS_STAT_PEND_ANY = 0)) as [|Hb]; [done|exfalso].
  destruct (tk_pending _ _ _ Hok Hb) as (kd' & e' & ev' & _ & Hc' & _ & He' & Hm).
  assert (e' = e) as -> by congruence. simplify_eq.
  pose proof (p_grp_zero _ (ts_ev_wf _ _ _ Hts _ _ He)) as [Hz _]. by rewrite Hz in Hm.
Qed.

(** ** Time *)

(** [n] clock ticks. *)
Fixpoint ticks (n : nat) (k : kernel) : option kernel :=
  match n with O => Some k | S m => k ← OSTimeTick k; ticks m k end.

Lemma ticked_more t : 1 < OSTCBDly t → ticked t = set_dly (OSTCBDly t - 1) t.
Proof.
  intros. unfold ticked. replace (OSTCBDly t =? 0) with false by lia. cbn [OSTCBDly set_dly].
  by replace (OSTCBDly t - 1 =? 0) with false by lia.
Qed.
Lemma ticked_last t : OSTCBDly t = 1 → ticked t = expired t.
Proof. intros E. unfold ticked, expired. by rewrite E. Qed.

Lemma ticks_spec n : ∀ k p t, kinv0 k → OSRunning k = true → OSTickStepState k = 0 →
  tcb_at k p = Some t → p ≠ OS_TASK_IDLE_PRIO → Z.of_nat n <= OSTCBDly t →
  ∃ k', ticks n k = Some k' ∧ kinv0 k' ∧
    tcb_at k' p = Some (match n with O => t | _ => if OSTCBDly t =? Z.of_nat n then expired t
                        else set_dly (OSTCBDly t - Z.of_nat n) t end).
Proof.
  induction n as [|n IH]; intros k p t H R St Hp Hi Hn; cbn [ticks]; [by exists k|].
  pose proof (OSTimeTick_spec k H R) as HT. rewrite St in HT. cbn [tick_step Z.eqb] in HT.
  destruct HT as (k1 & -> & H1 & F & _ & _ & St1 & T1). cbn [mbind option_bind].
  specialize (T1 p). rewrite decide_True, Hp in T1 by done. cbn [fmap option_fmap option_map] in T1.
  assert (R1 : OSRunning k1 = true) by (by rewrite (fr_running _ _ F)).
  destruct n as [|n].
  - exists k1. cbn [ticks]. split_and!; [done..|]. rewrite T1. f_equal.
    destruct (Z.eqb_spec (OSTCBDly t) (Z.of_nat 1)); [by apply ticked_last|]. apply ticked_more. lia.
  - rewrite ticked_more in T1 by lia.
    destruct (IH k1 p (set_dly (OSTCBDly t - 1) t)) as (k' & -> & H' & T'); try done; [cbn; lia|].
    exists k'. split_and!; [done..|]. rewrite T'. f_equal. cbn [OSTCBDly set_dly].
    destruct (Z.eqb_spec (OSTCBDly t - 1) (Z.of_nat (S n))),
      (Z.eqb_spec (OSTCBDly t) (Z.of_nat (S (S n)))); try lia; [done|].
    unfold set_dly. cbn. f_equal. lia.
Qed.

(** Without a delay the clock does nothing. *)
Lemma ticks_undelayed n : ∀ k p t, kinv0 k → OSRunning k = true → tcb_at k p = Some t →
  OSTCBDly t = 0 → ∃ k', ticks n k = Some k' ∧ tcb_at k' p = Some t.
Proof.
  induction n as [|n IH]; intros k p t H R Hp D; cbn [ticks]; [by exists k|].
  pose proof (OSTimeTick_spec k H R) as HT. destruct (tick_step (OSTickStepState k)) as [step st].
  destruct HT as (k1 & -> & H1 & F & _ & _ & _ & T1). cbn [mbind option_bind].
  apply IH; [done|by rewrite (fr_running _ _ F)| |done].
  rewrite T1. assert (Ht : ticked t = t) by (unfold ticked; by rewrite D).
  repeat case_match; rewrite ?Hp; cbn; by rewrite ?Ht.
Qed.

(** C35: a delay or timeout of [n] ticks ends with the [n]-th tick and not before: until then
    the task keeps its status and is not ready; then its delay is over, the wait it was in,
    if any, has timed out, and it is ready unless it is suspended. *)
Theorem delay_ends_after_n_ticks k p t n : reachable k → OSRunning k = true →
  OSTickStepState k = 0 → tcb_at k p = Some t → (0 < n)%nat → OSTCBDly t = Z.of_nat n →
  (∀ m, (m < n)%nat → ∃ k' t', ticks m k = Some k' ∧ tcb_at k' p = Some t' ∧
     OSTCBDly t' = Z.of_nat (n - m) ∧ OSTCBStat t' = OSTCBStat t ∧ p_mem (OSRdy k') p = false) ∧
  ∃ k' t', ticks n k = Some k' ∧ tcb_at k' p = Some t' ∧ OSTCBDly t' = 0 ∧
    OSTCBStatPend t' = (if pend_bits t =? 0 then OS_STAT_PEND_OK else OS_STAT_PEND_TO) ∧
    (Z.land (OSTCBStat t) OS_STAT_SUSPEND = 0 → runnable t' ∧ p_mem (OSRdy k') p = true).
Proof.
  intros Hr R S Hp Hn D. destruct (reachable_kinv k Hr) as [H _].
  assert (Hi : p ≠ OS_TASK_IDLE_PRIO).
  { intros ->. destruct H as (Ht & _). destruct (ts_idle _ _ _ Ht) as (t0 & H0 & [_ D0] & _).
    unfold tcb_at in Hp. simplify_eq. lia. }
  split.
  - intros m Hm. destruct (ticks_spec m k p t H R S Hp Hi) as (k' & E & (Ht' & _) & T); [lia|].
    assert (T' : tcb_at k' p = Some (set_dly (Z.of_nat (n - m)) t)).
    { rewrite T. destruct m.
      - rewrite Nat.sub_0_r, <- D. by destruct t.
      - destruct (Z.eqb_spec (OSTCBDly t) (Z.of_nat (Datatypes.S m))); [lia|]. do 2 f_equal. lia. }
    exists k', (set_dly (Z.of_nat (n - m)) t). split_and!; try done.
    apply not_true_iff_false. rewrite (ts_ready _ _ _ Ht'). intros (t' & E' & [_ D']).
    unfold tcb_at in T'. rewrite T' in E'. injection E' as <-. cbn in D'. lia.
  - destruct (ticks_spec n k p t H R S Hp Hi) as (k' & E & (Ht' & _) & T); [lia|].
    destruct n as [|n]; [lia|]. rewrite D, Z.eqb_refl in T.
    assert (Hok : stat_ok (OSTCBStat t)) by exact (tk_stat _ _ _ (ts_task _ _ _ (proj1 H) _ _ Hp)).
    destruct (expired_become t Hok) as [_ Hrun]; [lia|].
    destruct (stat_timeout _ Hok) as (_ & _ & Hz).
    exists k', (expired t). split_and!; try done.
    + unfold expired. by case_match.
    + unfold expired, pend_bits. change OS_STAT_RDY with 0. by case_match.
    + intros Hs. assert (Hru : runnable (expired t)).
      { apply Hrun. unfold expired. case_match; [done|]. cbn.
        rewrite <- Z.land_assoc, (Z.land_comm (u8 _)), Z.land_assoc, Hs. apply Z.land_0_l. }
      split; [done|]. apply (ts_ready _ _ _ Ht'). eauto.
Qed.

(** ** Deleting an event that tasks wait for *)

Definition del (kd : evkind) (e : nat) (opt : Z) (k : kernel) : option (kernel * (option nat * Z)) :=
  match kd with KSem => OSSemDel e opt k | KMbox => OSMboxDel e opt k | KQ => OSQDel e opt k end.
Lemma del_eq k kd e opt ev : OSEventTbl k !! e = Some ev → OSEventType ev = kind_type kd →
  OSIntNesting k = 0 → del kd e opt k = del_event kd e opt k.
Proof.
  intros He T N. destruct kd; cbn [del]; [unfold OSSemDel | unfold OSMboxDel | unfold OSQDel];
    rewrite He; cbn [mbind option_bind]; by rewrite T, N.
Qed.

(** Deleting an event with [OS_DEL_ALWAYS] wakes every waiter with the result of a
    successful wait, [OS_ERR_NONE] and no message, although nothing was posted; the comment
    of [OSSemDel] tells these tasks to check the return code of [OSSemPend]. *)
Theorem deletion_looks_like_success k kd e ev : reachable k → OSRunning k = true →
  OSIntNesting k = 0 → OSEventTbl k !! e = Some ev → OSEventType ev = kind_type kd →
  ∃ k' ev', del kd e 1 k = Some (k', (None, OS_ERR_NONE)) ∧
    OSEventTbl k' !! e = Some ev' ∧ OSEventType ev' = OS_EVENT_TYPE_UNUSED ∧
    ∀ p, waits_for k p e = true → ∃ t', tcb_at k' p = Some t' ∧
      in_pend t' = Some (kd, e) ∧ waits_for k' p e = false ∧ pend_result t' = (0, OS_ERR_NONE).
Proof.
  intros Hr R N He T. pose proof (reachable_kinv k Hr) as H.
  destruct (kinv_running k H R) as (H0 & _). pose proof H0 as (Hts & _).
  assert (Hlt : (e < length (OSEventTbl k))%nat) by (by eapply lookup_lt_Some).
  rewrite (del_eq k kd e 1 ev He T N). unfold del_event. rewrite He. cbn [mbind option_bind Z.eqb].
  destruct (ready_waiters_spec kd e 0 OS_STAT_PEND_OK k ev H0 He T)
    as (k1 & n & w & -> & H1 & F1 & _ & Gw & Ev1 & T1). cbn [mbind option_bind].
  assert (He1 : OSEventTbl k1 !! e = Some (ev_set_wait w ev)).
  { rewrite Ev1. by apply list_lookup_insert_eq. }
  destruct (release_ok kd e (ev_set_wait w ev) k1 H1 He1 T Gw) as (k2 & -> & H2 & F2 & _ & Et & Ee).
  cbn [mbind option_bind].
  set (ev' := MkEVENT OS_EVENT_TYPE_UNUSED 0 (EvMsg 0) w) in *.
  assert (He2 : OSEventTbl k2 !! e = Some ev').
  { rewrite Ee. apply list_lookup_insert_eq. rewrite Ev1. by rewrite length_insert. }
  assert (Hfin : ∃ k', (if negb (p_grp (OSEventWait ev) =? 0) then OS_Sched k2 else Some k2) = Some k' ∧
    switched k2 k').
  { destruct (negb _); [|by exists k2].
    destruct (sched_pre_frame_ok k k2 H R (transitivity F1 F2) H2) as (k' & ? & _ & ?). eauto. }
  destruct Hfin as (k' & -> & Sw). cbn [mbind option_bind]. exists k', ev'.
  rewrite (sw_events _ _ Sw). split_and!; try done. intros p Hp.
  rewrite (waits_for_eq _ _ _ _ He) in Hp. destruct (ts_waiters _ _ _ Hts _ _ _ He Hp) as [t Ht].
  destruct (tk_listed _ _ _ (ts_task _ _ _ Hts _ _ Ht) _ _ He Hp) as (_ & kd' & Hc & Hty & _).
  assert (kd' = kd) as -> by (apply kind_type_inj; congruence).
  assert (Ht2 : tcb_at k2 p = Some (readied 0 (kind_stat kd) OS_STAT_PEND_OK t)).
  { unfold tcb_at. rewrite Et. fold (tcb_at k1 p). rewrite T1, Hp. unfold tcb_at. by rewrite Ht. }
  destruct (switched_task _ _ _ _ Sw Ht2) as (t' & Ht' & Es). exists t'. split_and!; try done.
  - apply (f_equal in_pend) in Es. by rewrite <- Hc.
  - rewrite (waits_for_eq k' e ev') by (by rewrite (sw_events _ _ Sw)). cbn.
    destruct H2 as (Hts2 & _). by apply (p_grp_zero _ (ts_ev_wf _ _ _ Hts2 _ _ He2)).
  - apply (f_equal pend_result) in Es. exact Es.
Qed.

(** ** A system at work

    Two tasks (priorities 10 and 20), a semaphore and a queue.  Task 10 waits for the
    semaphore with a timeout of five ticks; then task 20 runs. *)

Definition blank : kernel :=
  MkKernel false 0 0 0 0 0 0 0 0 p_empty ∅ [] 0 [] [] [] [].
Definition after (x : option (kernel * result)) : kernel :=
  match x with Some (k, _) => k | None => blank end.
Definition sys_init : kernel := default blank (OSInit blank).
Definition sys_sem : kernel := after (do_call (CSemCreate 0) sys_init).
Definition sys_q : kernel := after (do_call (CQCreate [0; 0; 0] 3) sys_sem).
Definition sys_t10 : kernel := after (do_call (CTaskCreate 10) sys_q).
Definition sys_t20 : kernel := after (do_call (CTaskCreate 20) sys_t10).
Definition sys_run : kernel := default blank (OSStart sys_t20).
Definition sys_wait : kernel := after (do_call (CSemPend 0 5) sys_run).

Lemma sys_run_reachable : reachable sys_run.
Proof.
  assert (H0 : reachable sys_init) by (apply (reach_init blank); vm_compute; reflexivity).
  assert (H1 : reachable sys_sem).
  { eapply (reach_boot sys_init (CSemCreate 0)); [done|vm_compute; reflexivity|done|cbn; lia|].
    vm_compute; reflexivity. }
  assert (H2 : reachable sys_q).
  { eapply (reach_boot sys_sem (CQCreate [0; 0; 0] 3)); [done|vm_compute; reflexivity|done|cbn; lia|].
    vm_compute; reflexivity. }
  assert (H3 : reachable sys_t10).
  { eapply (reach_boot sys_q (CTaskCreate 10)); [done|vm_compute; reflexivity|done|cbn; lia|].
    vm_compute; reflexivity. }
  assert (H4 : reachable sys_t20).
  { eapply (reach_boot sys_t10 (CTaskCreate 20)); [done|vm_compute; reflexivity|done|cbn; lia|].
    vm_compute; reflexivity. }
  eapply reach_start; [exact H4|vm_compute; reflexivity|vm_compute; reflexivity].
Qed.
Lemma sys_run_may_pend : may_pend sys_run.
Proof. unfold may_pend. split_and!; [vm_compute; reflexivity..|vm_compute; discriminate|vm_compute; reflexivity]. Qed.
Lemma sys_wait_reachable : reachable sys_wait.
Proof.
  destruct sys_run_may_pend as (N & _ & I & C).
  eapply (reach_step sys_run (ATask (CSemPend 0 5)));
    [apply sys_run_reachable | vm_compute; reflexivity | | vm_compute; reflexivity].
  cbn. split; [done|]. split; [done|]. split; [done|]. split; [|unfold is_u32; lia].
  unfold is_event. vm_compute. lia.
Qed.
(** The semaphore's control block. *)
Definition sem_ev : EVENT := MkEVENT 3 0 (EvMsg 0) p_empty.
Definition sem_ev_wait : EVENT := MkEVENT 3 0 (EvMsg 0) (p_set p_empty 10).
Lemma sys_run_sem : OSEventTbl sys_run !! 0%nat = Some sem_ev.
Proof. vm_compute. reflexivity. Qed.
Lemma sys_wait_sem : OSEventTbl sys_wait !! 0%nat = Some sem_ev_wait.
Proof. vm_compute. reflexivity. Qed.
Lemma sys_nobody p : waits_for sys_run p 0 = false.
Proof. rewrite (waits_for_eq _ _ _ _ sys_run_sem). apply p_mem_empty. Qed.

Lemma post_without_waiter_stores_witness : ∃ k' r ev', post KSem 0 0 sys_run = Some (k', r) ∧
  OSEventTbl k' !! 0%nat = Some ev' ∧ contents k' ev' = [0].
Proof.
  destruct (post_without_waiter_stores sys_run KSem 0 sem_ev 0 sys_run_reachable)
    as (k' & r & ev' & E & He & _ & _ & C).
  - vm_compute. reflexivity.
  - apply sys_run_sem.
  - reflexivity.
  - apply sys_nobody.
  - discriminate.
  - exists k', r, ev'. split; [exact E|]. split; [exact He|]. exact (proj2 C).
Defined.
Lemma post_wakes_highest_waiter_witness : ∃ p k', post KSem 0 0 sys_wait = Some (k', OS_ERR_NONE) ∧
  waits_for sys_wait p 0 = true ∧ waits_for sys_wait 10 0 = true.
Proof.
  destruct (post_wakes_highest_waiter sys_wait KSem 0 sem_ev_wait 0 10 sys_wait_reachable)
    as (p & k' & t & t' & E & W & _).
  - vm_compute. reflexivity.
  - apply sys_wait_sem.
  - reflexivity.
  - vm_compute. reflexivity.
  - exists p, k'. split; [exact E|]. split; [exact W|]. vm_compute. reflexivity.
Defined.
Lemma pend_takes_or_waits_witness : ∃ k' t', pend KSem 0 5 sys_run = Some (k', None) ∧
  tcb_at k' 10 = Some t' ∧ OSTCBDly t' = 5.
Proof.
  pose proof (pend_takes_or_waits sys_run KSem 0 sem_ev 5 sys_run_reachable) as H.
  destruct H as (k' & t' & E & T & _ & D & _).
  - vm_compute. reflexivity.
  - apply sys_run_may_pend.
  - apply sys_run_sem.
  - reflexivity.
  - unfold is_u32. lia.
  - exists k', t'. split; [exact E|]. split; [exact T|exact D].
Defined.
Lemma running_task_has_highest_priority_witness : OSPrioCur sys_wait = 20 ∧ most_urgent sys_wait 20.
Proof.
  split; [vm_compute; reflexivity|].
  apply (running_task_has_highest_priority sys_wait sys_wait_reachable); vm_compute; reflexivity.
Defined.
Lemma kernel_never_faults_witness : ∃ k' r, do_action (ATask (CSemPend 0 5)) sys_run = Some (k', r) ∧
  executes [AIntEnter; AIsr (CSemPost 0); AIntExit; AResume] k'.
Proof.
  apply (kernel_never_faults sys_run [ATask (CSemPend 0 5); AIntEnter; AIsr (CSemPost 0); AIntExit; AResume] sys_run_reachable).
  - vm_compute. reflexivity.
  - destruct sys_run_may_pend as (N & _ & I & C). cbn. split; [exact N|]. split; [exact I|].
    split; [exact C|]. split; [|unfold is_u32; lia]. unfold is_event. vm_compute. lia.
Defined.
(** The semaphore is posted by an interrupt while its former waiter is on its way out. *)
Definition sys_posted : kernel :=
  after (do_call (CSemPost 0) (after (do_call (CSemPost 0) (OSIntEnter sys_wait)))).
Lemma sys_posted_reachable : reachable sys_posted.
Proof.
  assert (H1 : reachable (OSIntEnter sys_wait)).
  { eapply (reach_step sys_wait AIntEnter);
      [apply sys_wait_reachable | vm_compute; reflexivity | | vm_compute; reflexivity].
    cbn. vm_compute. reflexivity. }
  assert (H2 : reachable (after (do_call (CSemPost 0) (OSIntEnter sys_wait)))).
  { eapply (reach_step _ (AIsr (CSemPost 0)));
      [exact H1 | vm_compute; reflexivity | | vm_compute; reflexivity].
    split; [vm_compute; reflexivity|]. cbn. unfold is_event. vm_compute. lia. }
  eapply (reach_step _ (AIsr (CSemPost 0)));
    [exact H2 | vm_compute; reflexivity | | vm_compute; reflexivity].
  split; [vm_compute; reflexivity|]. cbn. unfold is_event. vm_compute. lia.
Qed.
Lemma nobody_blocks_on_available_witness : ∃ t ev, tcb_at sys_posted 10 = Some t ∧
  OSEventTbl sys_posted !! 0%nat = Some ev ∧ contents sys_posted ev = [0] ∧
  in_pend t = Some (KSem, 0%nat) ∧ Z.land (OSTCBStat t) OS_STAT_PEND_ANY = 0.
Proof.
  eexists _, _. split; [vm_compute; reflexivity|]. split; [vm_compute; reflexivity|].
  split; [vm_compute; reflexivity|]. split; [vm_compute; reflexivity|].
  eapply (nobody_blocks_on_available sys_posted 10 _ KSem 0);
    [apply sys_posted_reachable | vm_compute; reflexivity | reflexivity | vm_compute; reflexivity
    | reflexivity | vm_compute; discriminate].
Defined.
Lemma delay_ends_after_n_ticks_witness : ∃ k' t', ticks 5 sys_wait = Some k' ∧
  tcb_at k' 10 = Some t' ∧ OSTCBDly t' = 0 ∧ OSTCBStatPend t' = OS_STAT_PEND_TO.
Proof.
  destruct (tcb_at sys_wait 10) as [t|] eqn:T; [|vm_compute in T; discriminate].
  assert (Ht : OSTCBDly t = Z.of_nat 5 ∧ OSTCBStat t = 1).
  { vm_compute in T. injection T as <-. split; reflexivity. }
  destruct (delay_ends_after_n_ticks sys_wait 10 t 5 sys_wait_reachable)
    as (_ & k' & t' & E & T' & D & P & _);
    [vm_compute; reflexivity..|exact T|lia|exact (proj1 Ht)|].
  exists k', t'. split; [exact E|]. split; [exact T'|]. split; [exact D|].
  rewrite P. unfold pend_bits. rewrite (proj2 Ht). reflexivity.
Defined.
Lemma deletion_looks_like_success_witness : waits_for sys_wait 10 0 = true ∧
  ∃ k' t', del KSem 0 1 sys_wait = Some (k', (None, OS_ERR_NONE)) ∧
    tcb_at k' 10 = Some t' ∧ pend_result t' = (0, OS_ERR_NONE).
Proof.
  split; [vm_compute; reflexivity|].
  destruct (deletion_looks_like_success sys_wait KSem 0 sem_ev_wait sys_wait_reachable)
    as (k' & ev' & E & _ & _ & P).
  - vm_compute. reflexivity.
  - vm_compute. reflexivity.
  - apply sys_wait_sem.
  - reflexivity.
  - destruct (P 10) as (t' & T & _ & _ & Rs); [vm_compute; reflexivity|].
    exists k', t'. split; [exact E|]. split; [exact T|exact Rs].
Defined.

(** The idle task is not protected: an interrupt handler that suspends it (and the
    statistics task) leaves nothing ready, and the next rescheduling faults. *)
Example suspending_idle_faults : ∃ k k1 k2, OSStart sys_init = Some k ∧
  do_call (CTaskSuspend 62) (OSIntEnter k) = Some (k1, Code OS_ERR_NONE) ∧
  do_call (CTaskSuspend OS_TASK_IDLE_PRIO) k1 = Some (k2, Code OS_ERR_NONE) ∧
  p_elems (OSRdy k2) = ∅ ∧ OSIntExit k2 = None.
Proof.
  eexists _, _, _. split; [vm_compute; reflexivity|]. split; [vm_compute; reflexivity|].
  split; [vm_compute; reflexivity|]. split; vm_compute; reflexivity.
Qed.
(** A task that deletes itself with the scheduler locked goes on running without a TCB. *)
Example locked_self_delete :
  ∃ k', do_call (CTaskDel OS_PRIO_SELF) (OSSchedLock sys_run) = Some (k', Code OS_ERR_NONE) ∧
    OSPrioCur k' = 10 ∧ tcb_at k' 10 = None.
Proof. eexists. split; [vm_compute; reflexivity|]. split; vm_compute; reflexivity. Qed.
