(* ===== verification/OsMem.v ===== *)
(** * Memory partitions of the kernel ([uCOS-II/os_mem.c])

    A partition is an array of blocks of one size; the free blocks form a list through the
    first word of each.  [words] is the memory: the word at an address.  Addresses are not
    0.  The configuration has five partitions and leaves the argument checks out, so blocks
    smaller than a pointer are the caller's mistake. *)
From S2P Require Import Prelude.

Definition OS_ERR_NONE : Z := 0.
Definition OS_ERR_MEM_INVALID_PART : Z := 90.
Definition OS_ERR_MEM_NO_FREE_BLKS : Z := 93.
Definition OS_ERR_MEM_FULL : Z := 94.

(** ** Data *)

(* @ uCOS-II/ucos_ii.h:434-443 OS_MEM *)
Record OS_MEM := MkMem {
  OSMemAddr : Z; OSMemFree : Z; OSMemBlkSize : Z; OSMemNBlks : Z; OSMemNFree : Z }.

(** The partition table, the free control blocks (a list of indices), and the memory. *)
Record mstate := MkMState {
  OSMemTbl : list OS_MEM; OSMemFreeList : list nat; words : gmap Z Z }.

(** ** Operations *)

(* @ uCOS-II/os_mem.c:423-454 OS_MemInit *)
Definition OS_MemInit (ws : gmap Z Z) : mstate :=
  MkMState (replicate 5 (MkMem 0 0 0 0 0)) (seq 0 5) ws.

(** Lines 118 to 123: each block points to the following one, the last to null. *)
(* @ uCOS-II/os_mem.c:115-123 OSMemCreate *)
Fixpoint link_blocks (loops : nat) (blksize plink : Z) (ws : gmap Z Z) : gmap Z Z :=
  match loops with
  | O => <[plink := 0]> ws
  | S n => link_blocks n blksize (plink + blksize) (<[plink := plink + blksize]> ws)
  end.

(* @ uCOS-II/os_mem.c:70-131 OSMemCreate *)
Definition OSMemCreate (addr nblks blksize : Z) (s : mstate) : mstate * (option nat * Z) :=
  match OSMemFreeList s with
  | [] => (s, (None, OS_ERR_MEM_INVALID_PART))
  | i :: l =>
    let ws := link_blocks (Z.to_nat (u32 (nblks - 1))) blksize addr (words s) in
    (MkMState (<[i := MkMem addr addr blksize nblks nblks]> (OSMemTbl s)) l ws,
     (Some i, OS_ERR_NONE))
  end.

(** [None] follows a pointer to no memory. *)
(* @ uCOS-II/os_mem.c:153-187 OSMemGet *)
Definition OSMemGet (i : nat) (s : mstate) : option (mstate * (Z * Z)) :=
  pmem ← OSMemTbl s !! i;
  if 0 <? OSMemNFree pmem then
    let pblk := OSMemFree pmem in
    nxt ← words s !! pblk;
    let pmem := MkMem (OSMemAddr pmem) nxt (OSMemBlkSize pmem) (OSMemNBlks pmem)
                  (OSMemNFree pmem - 1) in
    Some (MkMState (<[i := pmem]> (OSMemTbl s)) (OSMemFreeList s) (words s), (pblk, OS_ERR_NONE))
  else Some (s, (0, OS_ERR_MEM_NO_FREE_BLKS)).

(* @ uCOS-II/os_mem.c:331-358 OSMemPut *)
Definition OSMemPut (i : nat) (pblk : Z) (s : mstate) : option (mstate * Z) :=
  pmem ← OSMemTbl s !! i;
  if OSMemNBlks pmem <=? OSMemNFree pmem then Some (s, OS_ERR_MEM_FULL)
  else
    _ ← words s !! pblk;
    let ws := <[pblk := OSMemFree pmem]> (words s) in
    let pmem := MkMem (OSMemAddr pmem) pblk (OSMemBlkSize pmem) (OSMemNBlks pmem)
                  (OSMemNFree pmem + 1) in
    Some (MkMState (<[i := pmem]> (OSMemTbl s)) (OSMemFreeList s) ws, OS_ERR_NONE).

(** The data [OSMemQuery] reports: address, free list, block size, blocks, free, used. *)
(* @ uCOS-II/os_mem.c:379-405 OSMemQuery *)
Definition OSMemQuery (i : nat) (s : mstate) : option (Z * Z * Z * Z * Z * Z) :=
  pmem ← OSMemTbl s !! i;
  Some (OSMemAddr pmem, OSMemFree pmem, OSMemBlkSize pmem, OSMemNBlks pmem, OSMemNFree pmem,
        u32 (OSMemNBlks pmem - OSMemNFree pmem)).

(** ** The free list *)

(** The blocks of a partition. *)
Definition blocks (addr blksize : Z) (n : nat) : list Z :=
  map (λ j, addr + Z.of_nat j * blksize) (seq 0 n).

(** [fl] is the chain that starts at [p]. *)
Fixpoint chain (ws : gmap Z Z) (p : Z) (fl : list Z) : Prop :=
  match fl with
  | [] => p = 0
  | b :: fl => p = b ∧ b ≠ 0 ∧ ∃ nxt, ws !! b = Some nxt ∧ chain ws nxt fl
  end.

(** A partition whose free blocks are [fl] and whose other blocks are [held]. *)
Record part_ok (s : mstate) (i : nat) (fl held : list Z) : Prop := {
  po_mem : ∃ pmem, OSMemTbl s !! i = Some pmem ∧
    chain (words s) (OSMemFree pmem) fl ∧ OSMemNFree pmem = Z.of_nat (length fl) ∧
    OSMemNBlks pmem = Z.of_nat (length (fl ++ held));
  po_nodup : NoDup (fl ++ held);
  po_words : ∀ b, b ∈ fl ++ held → b ≠ 0 ∧ is_Some (words s !! b) }.

(** What a client may do: get, put back a block it holds, write into one. *)
Inductive mop := MGet | MPut (b : Z) | MWrite (b v : Z).
Definition mstep (i : nat) (o : mop) (s : mstate) (held : list Z)
    : option (mstate * list Z * option Z) :=
  match o with
  | MGet => '(s, (b, err)) ← OSMemGet i s;
            Some (s, if err =? OS_ERR_NONE then b :: held else held,
                  if err =? OS_ERR_NONE then Some b else None)
  | MPut b => '(s, err) ← OSMemPut i b s;
              Some (s, if err =? OS_ERR_NONE then filter (λ x, x ≠ b) held else held, None)
  | MWrite b v => Some (MkMState (OSMemTbl s) (OSMemFreeList s) (<[b := v]> (words s)), held, None)
  end.
Definition mop_ok (o : mop) (held : list Z) : Prop :=
  match o with MGet => True | MPut b | MWrite b _ => b ∈ held end.

(** Blocks held by clients over a sequence of operations. *)
Inductive mtrace (i : nat) : mstate → list Z → list mop → mstate → list Z → Prop :=
  | mt_nil s held : mtrace i s held [] s held
  | mt_cons s held o s1 held1 r os s2 held2 : mop_ok o held →
      mstep i o s held = Some (s1, held1, r) → mtrace i s1 held1 os s2 held2 →
      mtrace i s held (o :: os) s2 held2.

(** ** Lemmas *)

Lemma chain_write ws p fl b v : chain ws p fl → b ∉ fl → chain (<[b := v]> ws) p fl.
Proof.
  revert p. induction fl as [|c fl IH]; intros p; cbn; [done|].
  intros (-> & Hc & nxt & Hn & Hch) Hb. apply not_elem_of_cons in Hb as [Hne Hb].
  split_and!; [done..|]. exists nxt. rewrite lookup_insert_ne by done. auto.
Qed.

Lemma get_spec s i fl held : part_ok s i fl held →
  match fl with
  | [] => OSMemGet i s = Some (s, (0, OS_ERR_MEM_NO_FREE_BLKS))
  | b :: fl' => ∃ s', OSMemGet i s = Some (s', (b, OS_ERR_NONE)) ∧ part_ok s' i fl' (b :: held)
  end.
Proof.
  intros [(pmem & Hp & Hc & Hn & Hb) Hnd Hw]. unfold OSMemGet. rewrite Hp. cbn [mbind option_bind].
  rewrite Hn. destruct fl as [|b fl']; [done|].
  destruct (Z.ltb_spec 0 (Z.of_nat (length (b :: fl')))); [|cbn [length] in *; lia].
  destruct Hc as (E & Hb0 & nxt & Hx & Hc). rewrite E, Hx. cbn [mbind option_bind].
  eexists. split; [done|]. split.
  - eexists. cbn [OSMemTbl words]. rewrite list_lookup_insert_eq by (by eapply lookup_lt_Some).
    split; [done|]. cbn [OSMemFree OSMemNFree OSMemNBlks]. split_and!; [done|cbn [length]; lia|].
    rewrite Hb, !length_app. cbn. lia.
  - rewrite (Permutation_app_comm fl' (b :: held)). cbn. rewrite (Permutation_app_comm held fl').
    exact Hnd.
  - intros c Hcin. cbn. apply Hw. set_solver.
Qed.

(** Removing one block from the held ones. *)
Lemma held_without (b : Z) held : NoDup held → b ∈ held → held ≡ₚ b :: filter (λ x, x ≠ b) held.
Proof.
  intros Hn Hb. apply NoDup_Permutation; [done| |].
  - apply NoDup_cons. split; [rewrite list_elem_of_filter; tauto|by apply NoDup_filter].
  - intros x. rewrite elem_of_cons, list_elem_of_filter. destruct (decide (x = b)); naive_solver.
Qed.
Lemma put_spec s i fl held b : part_ok s i fl held → b ∈ held →
  ∃ s', OSMemPut i b s = Some (s', OS_ERR_NONE) ∧ part_ok s' i (b :: fl) (filter (λ x, x ≠ b) held).
Proof.
  intros [(pmem & Hp & Hc & Hn & Hb) Hnd Hw] Hin.
  pose proof (proj2 (proj1 (NoDup_app _ _) Hnd)) as [Hdis Hndh].
  pose proof (held_without b held Hndh Hin) as Hperm.
  assert (Hlen : length held = S (length (filter (λ x, x ≠ b) held))) 
    by apply (Permutation_length Hperm).
  assert (Hperm' : fl ++ held ≡ₚ (b :: fl) ++ filter (λ x, x ≠ b) held).
  { etransitivity; [apply Permutation_app_head, Hperm|]. by rewrite <- Permutation_middle. }
  destruct (Hw b) as [Hb0 [v Hv]]; [set_solver|].
  unfold OSMemPut. rewrite Hp. cbn [mbind option_bind]. rewrite Hn, Hb, length_app.
  destruct (Z.leb_spec (Z.of_nat (length fl + length held)) (Z.of_nat (length fl))); [lia|].
  rewrite Hv. cbn [mbind option_bind]. eexists. split; [done|].
  assert (Hbfl : b ∉ fl) by (intros ?; by apply (Hdis b)).
  split.
  - eexists. cbn [OSMemTbl words]. rewrite list_lookup_insert_eq by (by eapply lookup_lt_Some).
    split; [done|]. cbn [OSMemFree OSMemNFree OSMemNBlks]. split_and!.
    + cbn. split_and!; [done..|]. exists (OSMemFree pmem). split; [apply lookup_insert_eq|].
      by apply chain_write.
    + cbn [length]. lia.
    + by rewrite <- (Permutation_length Hperm'), length_app.
  - by rewrite <- Hperm'.
  - intros c Hcin. rewrite <- Hperm' in Hcin. cbn. destruct (Hw c Hcin) as [? Hs].
    split; [done|]. destruct (decide (c = b)) as [->|].
    + rewrite lookup_insert_eq. eauto.
    + by rewrite lookup_insert_ne.
Qed.
Lemma write_spec s i fl held b v : part_ok s i fl held → b ∈ held →
  part_ok (MkMState (OSMemTbl s) (OSMemFreeList s) (<[b := v]> (words s))) i fl held.
Proof.
  intros [(pmem & Hp & Hc & Hn & Hb) Hnd Hw] Hin.
  pose proof (proj2 (proj1 (NoDup_app _ _) Hnd)) as [Hdis _].
  split; [|done|].
  - exists pmem. cbn. split_and!; try done. apply chain_write; [done|]. intros ?. by apply (Hdis b).
  - intros c Hcin. cbn. destruct (Hw c Hcin) as [? Hs]. split; [done|].
    destruct (decide (c = b)) as [->|].
    + rewrite lookup_insert_eq. eauto.
    + by rewrite lookup_insert_ne.
Qed.
Lemma mstep_spec s i fl held o : part_ok s i fl held → mop_ok o held →
  ∃ s' fl' held' r, mstep i o s held = Some (s', held', r) ∧ part_ok s' i fl' held' ∧
    fl' ++ held' ≡ₚ fl ++ held ∧
    (o = MGet → r = head fl ∧ ∀ b, r = Some b → b ∉ held ∧ b ∈ held').
Proof.
  intros H Ho. destruct o as [|b|b v]; cbn in Ho |- *.
  - pose proof (get_spec s i fl held H) as Hg. destruct fl as [|b fl].
    + rewrite Hg. cbn. exists s, [], held, None. split_and!; done.
    + destruct Hg as (s' & -> & H'). cbn. exists s', fl, (b :: held), (Some b).
      split_and!; try done; [by rewrite <- Permutation_middle|]. intros _. split; [done|].
      intros b' [= <-]. pose proof (po_nodup _ _ _ _ H) as Hn. cbn in Hn.
      apply NoDup_cons in Hn as [Hn _]. set_solver.
  - destruct (put_spec s i fl held b H Ho) as (s' & -> & H'). cbn.
    exists s', (b :: fl), (filter (λ x, x ≠ b) held), None. split_and!; try done.
    pose proof (po_nodup _ _ _ _ H) as Hn. apply NoDup_app in Hn as (_ & _ & Hn).
    etransitivity; [|apply Permutation_app_head; symmetry; by apply held_without].
    by rewrite <- Permutation_middle.
  - eexists _, fl, held, None. split_and!; try done. by apply write_spec.
Qed.

(** C37: the blocks of a partition are handed out exclusively: after any sequence of getting,
    putting back held blocks and writing into them, held and free blocks are together the
    same blocks as before, no block is held twice or both held and free, the next request
    gets a block nobody holds as long as one is free, and it does not fault. *)
Theorem partition_blocks_exclusive i s fl held os s' held' : part_ok s i fl held →
  mtrace i s held os s' held' →
  ∃ fl', part_ok s' i fl' held' ∧ fl' ++ held' ≡ₚ fl ++ held ∧
    match fl' with
    | [] => OSMemGet i s' = Some (s', (0, OS_ERR_MEM_NO_FREE_BLKS))
    | b :: _ => b ∉ held' ∧ ∃ s2, OSMemGet i s' = Some (s2, (b, OS_ERR_NONE))
    end.
Proof.
  intros H T. revert fl H. induction T as [s held | s held o s1 held1 r os s2 held2 Ho E T IH];
    intros fl H.
  - exists fl. split_and!; [done..|]. pose proof (get_spec s i fl held H) as G.
    destruct fl as [|b fl]; [done|]. destruct G as (s2 & G & _). split; [|eauto].
    pose proof (po_nodup _ _ _ _ H) as Hn. cbn in Hn. apply NoDup_cons in Hn as [Hn _]. set_solver.
  - destruct (mstep_spec s i fl held o H Ho) as (s1' & fl1 & held1' & r' & E' & H1 & P & _).
    rewrite E in E'. injection E' as <- <- <-. destruct (IH fl1 H1) as (fl' & H' & P' & R).
    exists fl'. split_and!; [done| |done]. by rewrite P'.
Qed.

(** ** Creation *)

Lemma link_blocks_other loops blksize : ∀ p ws a, 0 < blksize → a < p →
  link_blocks loops blksize p ws !! a = ws !! a.
Proof.
  induction loops as [|n IH]; intros p ws a Hb Ha; cbn.
  - by rewrite lookup_insert_ne by lia.
  - rewrite IH by lia. by rewrite lookup_insert_ne by lia.
Qed.
Lemma link_blocks_chain loops blksize : ∀ p ws, 0 < blksize → 0 < p →
  chain (link_blocks loops blksize p ws) p (blocks p blksize (S loops)) ∧
  ∀ b, b ∈ blocks p blksize (S loops) → is_Some (link_blocks loops blksize p ws !! b).
Proof.
  induction loops as [|n IH]; intros p ws Hb Hp.
  - cbn. rewrite Z.add_0_r. split; [split_and!; [done|lia|exists 0; split; [apply lookup_insert_eq|done]]|].
    intros b ->%list_elem_of_singleton. rewrite lookup_insert_eq. eauto.
  - assert (E : blocks p blksize (S (S n)) = p :: blocks (p + blksize) blksize (S n)).
    { unfold blocks. rewrite <- cons_seq. cbn [map]. f_equal; [lia|]. rewrite <- seq_shift, map_map.
      apply map_ext. intros j. lia. }
    rewrite E. cbn [link_blocks]. destruct (IH (p + blksize) (<[p := p + blksize]> ws)) as [C S]; [lia..|].
    assert (L : link_blocks n blksize (p + blksize) (<[p := p + blksize]> ws) !! p = Some (p + blksize)).
    { rewrite link_blocks_other by lia. apply lookup_insert_eq. }
    split.
    + cbn [chain]. split_and!; [done|lia|]. eauto.
    + intros b [->|Hin]%elem_of_cons; [eauto|auto].
Qed.
Lemma create_spec addr nblks blksize s i l : OSMemFreeList s = i :: l →
  (i < length (OSMemTbl s))%nat → 1 <= nblks < 2 ^ 32 → 0 < blksize → 0 < addr →
  ∃ s', OSMemCreate addr nblks blksize s = (s', (Some i, OS_ERR_NONE)) ∧
    part_ok s' i (blocks addr blksize (Z.to_nat nblks)) [] ∧ OSMemFreeList s' = l.
Proof.
  intros Hf Hi Hn Hb Ha. unfold OSMemCreate. rewrite Hf. eexists. split; [done|]. split; [|done].
  assert (E : u32 (nblks - 1) = nblks - 1) by (apply u32_small; unfold is_u32; lia). rewrite E.
  destruct (link_blocks_chain (Z.to_nat (nblks - 1)) blksize addr (words s)) as [C S]; [lia..|].
  replace (Datatypes.S (Z.to_nat (nblks - 1))) with (Z.to_nat nblks) in C, S by lia.
  assert (Hl : Z.of_nat (length (blocks addr blksize (Z.to_nat nblks))) = nblks).
  { unfold blocks. rewrite length_map, length_seq. lia. }
  split; rewrite ?app_nil_r.
  - eexists. cbn [OSMemTbl words]. rewrite list_lookup_insert_eq by done. split; [done|].
    cbn [OSMemFree OSMemNFree OSMemNBlks]. rewrite ?app_nil_r. split_and!; [done|lia|lia].
  - apply NoDup_fmap_2_strong; [|apply NoDup_seq]. intros x y _ _ Exy. nia.
  - intros b Hbin. split; [|by apply S]. unfold blocks in Hbin. apply list_elem_of_fmap in Hbin as (j & -> & _). nia.
Qed.

(** A block put back twice is accepted twice as long as another block is out, and is then
    handed out to two clients: [OSMemPut] only compares the counters. *)
Theorem double_put_hands_out_twice s i fl held b c : part_ok s i fl held → b ∈ held → c ∈ held →
  b ≠ c →
  ∃ s1 s2 s3 s4, OSMemPut i b s = Some (s1, OS_ERR_NONE) ∧ OSMemPut i b s1 = Some (s2, OS_ERR_NONE) ∧
    OSMemGet i s2 = Some (s3, (b, OS_ERR_NONE)) ∧ OSMemGet i s3 = Some (s4, (b, OS_ERR_NONE)).
Proof.
  intros H Hb Hc Hne. destruct (put_spec s i fl held b H Hb) as (s1 & E1 & H1). exists s1.
  destruct H1 as [(pm & Hp & (Ef & Hb0 & nx & Hx & Hch) & Hn & Hnb) Hnd Hw].
  assert (Hlen : (1 <= length (filter (λ x, x ≠ b) held))%nat).
  { destruct (filter (λ x, x ≠ b) held) eqn:E; [|cbn; lia]. exfalso.
    assert (c ∈ filter (λ x, x ≠ b) held) by (rewrite list_elem_of_filter; auto).
    rewrite E in *. set_solver. }
  assert (Hi : (i < length (OSMemTbl s1))%nat) by (by eapply lookup_lt_Some).
  unfold OSMemPut at 2. rewrite Hp. cbn [mbind option_bind]. rewrite Hn, Hnb, length_app.
  destruct (Z.leb_spec (Z.of_nat (length (b :: fl) + length (filter (λ x, x ≠ b) held)))
    (Z.of_nat (length (b :: fl)))); [lia|]. rewrite Hx. cbn [mbind option_bind].
  eexists _, _, _. split; [done|]. split; [done|].
  unfold OSMemGet at 1. cbn [OSMemTbl]. rewrite list_lookup_insert_eq by done.
  cbn [mbind option_bind OSMemNFree OSMemFree words].
  destruct (Z.ltb_spec 0 (Z.of_nat (length (b :: fl)) + 1)); [|lia].
  rewrite lookup_insert_eq. cbn [mbind option_bind]. split; [done|].
  unfold OSMemGet. cbn [OSMemTbl words]. rewrite list_lookup_insert_eq by (by rewrite length_insert).
  cbn [mbind option_bind OSMemNFree OSMemFree].
  destruct (Z.ltb_spec 0 (Z.of_nat (length (b :: fl)) + 1 - 1)); [|cbn in *; lia].
  rewrite Ef, lookup_insert_eq. cbn [mbind option_bind]. done.
Qed.

(** ** Examples *)

Definition pool0 : mstate := (OSMemCreate 4096 3 84 (OS_MemInit ∅)).1.
Definition pool2 : mstate :=
  match OSMemGet 0 pool0 with
  | Some (s, _) => match OSMemGet 0 s with Some (s, _) => s | None => s end
  | None => pool0
  end.
Lemma pool0_ok : part_ok pool0 0 [4096; 4180; 4264] [].
Proof.
  destruct (create_spec 4096 3 84 (OS_MemInit ∅) 0 [1; 2; 3; 4]%nat) as (s & E & H & _);
    [done|cbn; lia|lia..|].
  unfold pool0. rewrite E. exact H.
Qed.
Lemma pool2_ok : part_ok pool2 0 [4264] [4180; 4096].
Proof.
  pose proof (get_spec _ _ _ _ pool0_ok) as (s1 & E1 & H1).
  pose proof (get_spec _ _ _ _ H1) as (s2 & E2 & H2).
  unfold pool2. rewrite E1, E2. exact H2.
Qed.
Lemma partition_blocks_exclusive_witness : ∃ fl', part_ok pool2 0 fl' [4180; 4096] ∧
  fl' ++ [4180; 4096] ≡ₚ [4096; 4180; 4264].
Proof.
  destruct (partition_blocks_exclusive 0 pool0 [4096; 4180; 4264] [] [MGet; MGet] pool2 [4180; 4096])
    as (fl' & H & P & _).
  - apply pool0_ok.
  - eapply (mt_cons _ _ _ MGet); [exact I|vm_compute; reflexivity|].
    eapply (mt_cons _ _ _ MGet); [exact I|vm_compute; reflexivity|]. apply mt_nil.
  - exists fl'. split; [exact H|exact P].
Defined.
Lemma double_put_hands_out_twice_witness : ∃ s1 s2 s3 s4,
  OSMemPut 0 4180 pool2 = Some (s1, OS_ERR_NONE) ∧ OSMemPut 0 4180 s1 = Some (s2, OS_ERR_NONE) ∧
  OSMemGet 0 s2 = Some (s3, (4180, OS_ERR_NONE)) ∧ OSMemGet 0 s3 = Some (s4, (4180, OS_ERR_NONE)).
Proof.
  apply (double_put_hands_out_twice pool2 0 [4264] [4180; 4096] 4180 4096 pool2_ok).
  - apply list_elem_of_here.
  - apply list_elem_of_further, list_elem_of_here.
  - lia.
Defined.
