(* ===== verification/Timers.v ===== *)
(** * The timers of the TCP/IP thread ([LwIP/src/core/timers.c])

    The list [next_timeout] holds the pending timeouts as differences: the time of an entry
    counts from the expiry of the one before it.  The entries come from the pool
    [MEMP_SYS_TIMEOUT] of eight, of which [pool] are free.  A handler is named by a constructor,
    its argument is a number (all are null).  What a handler does besides arming itself again
    belongs to other files; the condition it tests for arming ([tcp_active_pcbs ||
    tcp_tw_pcbs], [DhcpServer.Enable]) is an argument.  [LWIP_NOASSERT] is defined, so a
    timeout that finds the pool empty is dropped silently.  One pass of the loop of
    [sys_timeouts_mbox_fetch] is a step; the answer of [sys_arch_mbox_fetch] is an argument
    here and comes from [SysArch]. *)
From S2P Require Import Prelude.

Definition SYS_ARCH_TIMEOUT : Z := 2 ^ 32 - 1.
Definition MEMP_NUM_SYS_TIMEOUT : nat := 8.

(** ** Data *)

Inductive handler := Tcp | Reass | Arp | DhcpCoarse | DhcpFine | Dns | DhcpsTick.
#[export] Instance handler_eq_dec : EqDecision handler.
Proof. solve_decision. Defined.

(** The periods of the handlers, in milliseconds. *)
Definition interval (h : handler) : Z :=
  match h with
  | Tcp => 250 | Reass => 1000 | Arp => 5000 | DhcpCoarse => 60 * 1000 | DhcpFine => 500
  | Dns => 1000 | DhcpsTick => 1000
  end.

(* @ LwIP/src/include/lwip/timers.h:67-75 sys_timeo *)
Record timeo := MkTimeo { t_time : Z; t_h : handler; t_arg : Z }.
Definition set_time (v : Z) (t : timeo) : timeo := MkTimeo v (t_h t) (t_arg t).

(* @ LwIP/src/core/timers.c:63-71 next_timeout *)
Record tstate := MkT { next_timeout : list timeo; pool : nat; tcpip_tcp_timer_active : bool }.

(** ** Operations *)

(** Lines 296 to 306: the entry [new] goes behind [t], or further down. *)
(* @ LwIP/src/core/timers.c:296-306 sys_timeout *)
Fixpoint insert_after (new t : timeo) (l : list timeo) : list timeo :=
  let new := set_time (u32 (t_time new - t_time t)) new in
  match l with
  | [] => [t; new]
  | n :: l' =>
    if t_time new <? t_time n
    then t :: new :: set_time (u32 (t_time n - t_time new)) n :: l'
    else t :: insert_after new n l'
  end.

(* @ LwIP/src/core/timers.c:266-308 sys_timeout *)
Definition sys_timeout (msecs : Z) (h : handler) (arg : Z) (s : tstate) : tstate :=
  match pool s with
  | O => s
  | S free =>
    let new := MkTimeo msecs h arg in
    let l := match next_timeout s with
             | [] => [new]
             | t :: l => if msecs <? t_time t
                         then new :: set_time (u32 (t_time t - msecs)) t :: l
                         else insert_after new t l
             end in
    MkT l free (tcpip_tcp_timer_active s)
  end.

(** Lines 329 to 345; [None] when no entry matches. *)
(* @ LwIP/src/core/timers.c:329-345 sys_untimeout *)
Fixpoint unlink_match (h : handler) (arg : Z) (l : list timeo) : option (list timeo) :=
  match l with
  | [] => None
  | t :: l' =>
    if bool_decide (t_h t = h) && (t_arg t =? arg) then
      Some (match l' with
            | [] => []
            | n :: l'' => set_time (u32 (t_time n + t_time t)) n :: l''
            end)
    else r ← unlink_match h arg l'; Some (t :: r)
  end.

(* @ LwIP/src/core/timers.c:320-347 sys_untimeout *)
Definition sys_untimeout (h : handler) (arg : Z) (s : tstate) : tstate :=
  match unlink_match h arg (next_timeout s) with
  | Some l => MkT l (S (pool s)) (tcpip_tcp_timer_active s)
  | None => s
  end.

Definition set_active (b : bool) (s : tstate) : tstate := MkT (next_timeout s) (pool s) b.

(* @ LwIP/src/core/timers.c:78-93 tcpip_tcp_timer *)
Definition tcpip_tcp_timer (again : bool) (s : tstate) : tstate :=
  if again then sys_timeout (interval Tcp) Tcp 0 s else set_active false s.

(* @ LwIP/src/core/timers.c:100-109 tcp_timer_needed *)
Definition tcp_timer_needed (pcbs : bool) (s : tstate) : tstate :=
  if negb (tcpip_tcp_timer_active s) && pcbs
  then sys_timeout (interval Tcp) Tcp 0 (set_active true s) else s.

(* @ LwIP/src/core/timers.c:118-125 ip_reass_timer *)
Definition ip_reass_timer (s : tstate) : tstate := sys_timeout (interval Reass) Reass 0 s.
(* @ LwIP/src/core/timers.c:134-141 arp_timer *)
Definition arp_timer (s : tstate) : tstate := sys_timeout (interval Arp) Arp 0 s.
(* @ LwIP/src/core/timers.c:150-157 dhcp_timer_coarse *)
Definition dhcp_timer_coarse (s : tstate) : tstate :=
  sys_timeout (interval DhcpCoarse) DhcpCoarse 0 s.
(* @ LwIP/src/core/timers.c:164-171 dhcp_timer_fine *)
Definition dhcp_timer_fine (s : tstate) : tstate := sys_timeout (interval DhcpFine) DhcpFine 0 s.
(* @ LwIP/src/core/timers.c:212-219 dns_timer *)
Definition dns_timer (s : tstate) : tstate := sys_timeout (interval Dns) Dns 0 s.
(** The end of the handler of the DHCP server; the rest of it is [Dhcp._DhcpTickHandle]. *)
(* @ App/DhcpServer/dhcp_server.c:145-146 _DhcpTickHandle *)
Definition tick_rearm (enable : bool) (s : tstate) : tstate :=
  if enable then sys_timeout (interval DhcpsTick) DhcpsTick 0 s else s.

(* @ LwIP/src/core/timers.c:223-249 sys_timeouts_init *)
Definition sys_timeouts_init (s : tstate) : tstate :=
  let s := sys_timeout (interval Reass) Reass 0 s in
  let s := sys_timeout (interval Arp) Arp 0 s in
  let s := sys_timeout (interval DhcpCoarse) DhcpCoarse 0 s in
  let s := sys_timeout (interval DhcpFine) DhcpFine 0 s in
  sys_timeout (interval Dns) Dns 0 s.

(** [handler(arg)]. *)
Definition call_handler (h : handler) (again : bool) (s : tstate) : tstate :=
  match h with
  | Tcp => tcpip_tcp_timer again s
  | Reass => ip_reass_timer s
  | Arp => arp_timer s
  | DhcpCoarse => dhcp_timer_coarse s
  | DhcpFine => dhcp_timer_fine s
  | Dns => dns_timer s
  | DhcpsTick => tick_rearm again s
  end.

(** The time the mailbox is asked with: [Some 0] waits for ever, [None] does not ask. *)
(* @ LwIP/src/core/timers.c:431-438 sys_timeouts_mbox_fetch *)
Definition fetch_time (s : tstate) : option Z :=
  match next_timeout s with
  | [] => Some 0
  | t :: _ => if 0 <? t_time t then Some (t_time t) else None
  end.

(** One pass: [answer] is what [sys_arch_mbox_fetch] returns when it is asked.  The result
    says whether a message was fetched, or which handler was called. *)
(* @ LwIP/src/core/timers.c:430-476 sys_timeouts_mbox_fetch *)
Definition fetch_round (answer : Z) (again : bool) (s : tstate) : tstate * option handler :=
  match next_timeout s with
  | [] => (s, None)
  | t :: l =>
    let time_needed := match fetch_time s with Some _ => answer | None => SYS_ARCH_TIMEOUT end in
    if time_needed =? SYS_ARCH_TIMEOUT then
      (call_handler (t_h t) again (MkT l (S (pool s)) (tcpip_tcp_timer_active s)), Some (t_h t))
    else
      let v := if time_needed <? t_time t then u32 (t_time t - time_needed) else 0 in
      (MkT (set_time v t :: l) (pool s) (tcpip_tcp_timer_active s), None)
  end.

(** The whole call, over the answers of the mailbox; [None] when they end before a message
    came.  The result has the answers that are left. *)
(* @ LwIP/src/core/timers.c:423-477 sys_timeouts_mbox_fetch *)
Fixpoint sys_timeouts_mbox_fetch (answers : list (Z * bool)) (s : tstate)
    : option (tstate * list (Z * bool)) :=
  match answers with
  | [] => None
  | (answer, again) :: rest =>
    match fetch_round answer again s with
    | (s, None) => Some (s, rest)
    | (s, Some _) => sys_timeouts_mbox_fetch rest s
    end
  end.

(** ** The list as points in time *)

Notation deadline := (Z * handler * Z)%type.
Definition d_time (d : deadline) : Z := d.1.1.

Fixpoint deadlines (now : Z) (l : list timeo) : list deadline :=
  match l with
  | [] => []
  | t :: l => (now + t_time t, t_h t, t_arg t) :: deadlines (now + t_time t) l
  end.

(** No time is negative and the last deadline fits a word. *)
Definition wf (l : list timeo) : Prop :=
  Forall (λ t, 0 <= t_time t) l ∧ Forall (λ d, d_time d < 2 ^ 32) (deadlines 0 l).

Definition shift (c : Z) (d : deadline) : deadline := (d.1.1 + c, d.1.2, d.2).

Lemma deadlines_shift l : ∀ a c, deadlines (a + c) l = map (shift c) (deadlines a l).
Proof.
  induction l as [|t l IH]; intros a c; cbn; [done|]. unfold shift at 1. cbn.
  replace (a + c + t_time t) with (a + t_time t + c) by lia. by rewrite <- IH.
Qed.
Lemma deadlines_from l a : deadlines a l = map (shift a) (deadlines 0 l).
Proof. by rewrite <- deadlines_shift. Qed.

(** Deadlines do not lie before the start. *)
Lemma deadlines_ge l : ∀ a, Forall (λ t, 0 <= t_time t) l → Forall (λ d, a <= d_time d) (deadlines a l).
Proof.
  induction l as [|t l IH]; intros a H; cbn; [constructor|].
  apply Forall_cons in H as [Ht H]. constructor; [unfold d_time; cbn; lia|].
  eapply Forall_impl; [by apply IH|]. cbn. intros d. lia.
Qed.
(** A new first difference moves everything. *)
Lemma deadlines_head t v l a : deadlines a (set_time v t :: l) = map (shift (v - t_time t)) (deadlines a (t :: l)).
Proof.
  cbn. unfold shift at 1. cbn. replace (a + t_time t + (v - t_time t)) with (a + v) by lia. f_equal.
  replace (a + v) with (a + t_time t + (v - t_time t)) by lia. by rewrite deadlines_shift.
Qed.

Definition before (msecs : Z) (d : deadline) : Prop := d_time d <= msecs.
#[export] Instance before_dec msecs d : Decision (before msecs d).
Proof. unfold before. apply _. Defined.

(** The list with one more deadline, behind those that are due at the same time. *)
Definition add_deadline (d : deadline) (l : list deadline) : list deadline :=
  filter (before (d_time d)) l ++ d :: filter (λ x, ¬ before (d_time d) x) l.

Lemma filter_none {A} (P : A → Prop) `{!∀ x, Decision (P x)} (l : list A) : Forall (λ x, ¬ P x) l → filter P l = [].
Proof. induction 1; [done|]. by rewrite filter_cons_False. Qed.
Lemma filter_every {A} (P : A → Prop) `{!∀ x, Decision (P x)} (l : list A) : Forall P l → filter P l = l.
Proof. induction 1 as [|x l ? ? IH]; [done|]. by rewrite filter_cons_True, IH. Qed.

Lemma add_deadline_first d l : Forall (λ x, d_time d < d_time x) l → add_deadline d l = d :: l.
Proof.
  intros H. unfold add_deadline.
  assert (Hn : Forall (λ x, ¬ before (d_time d) x) l).
  { eapply Forall_impl; [exact H|]. unfold before. cbn. intros x. lia. }
  rewrite filter_none by done. by rewrite filter_every.
Qed.
Lemma add_deadline_skip d x l : d_time x <= d_time d → add_deadline d (x :: l) = x :: add_deadline d l.
Proof.
  intros H. unfold add_deadline. rewrite filter_cons_True by done.
  rewrite (filter_cons_False (λ y, ¬ before (d_time d) y) x); [done|]. unfold before. lia.
Qed.
Lemma add_deadline_perm d l : add_deadline d l ≡ₚ d :: l.
Proof. unfold add_deadline. rewrite <- Permutation_middle. by rewrite filter_app_complement. Qed.

(** Inserting keeps the other deadlines. *)
Lemma insert_after_deadlines h arg l : ∀ m t a, 0 <= t_time t <= m → m < 2 ^ 32 →
  Forall (λ t, 0 <= t_time t) l → (∀ n, n ∈ l → t_time n < 2 ^ 32) →
  deadlines a (insert_after (MkTimeo m h arg) t l)
  = add_deadline (a + m, h, arg) (deadlines a (t :: l)).
Proof.
  induction l as [|n l IH]; intros m t a Ht Hm Hl Hb; cbn [insert_after t_time set_time].
  - rewrite u32_small by (unfold is_u32; lia). cbn [deadlines set_time t_time t_h t_arg].
    rewrite add_deadline_skip by (unfold d_time; cbn; lia). unfold add_deadline. cbn.
    by replace (a + t_time t + (m - t_time t)) with (a + m) by lia.
  - rewrite u32_small by (unfold is_u32; lia). apply Forall_cons in Hl as [Hn Hl].
    assert (n ∈ n :: l) as Hbn%Hb by constructor. cbn [t_time set_time].
    destruct (Z.ltb_spec (m - t_time t) (t_time n)).
    + rewrite u32_small by (unfold is_u32; lia). cbn [deadlines set_time t_time t_h t_arg].
      rewrite add_deadline_skip by (unfold d_time; cbn; lia). f_equal.
      replace (a + t_time t + (m - t_time t)) with (a + m) by lia.
      replace (a + m + (t_time n - (m - t_time t))) with (a + t_time t + t_time n) by lia.
      rewrite add_deadline_first; [done|]. constructor; [unfold d_time; cbn; lia|].
      eapply Forall_impl; [by apply deadlines_ge|]. unfold d_time. cbn. intros x. lia.
    + cbn [deadlines]. unfold set_time. cbn [t_time t_h t_arg].
      rewrite add_deadline_skip by (unfold d_time; cbn; lia). f_equal.
      rewrite IH; try lia; [|done|intros n' ?; apply Hb; by constructor].
      by replace (a + t_time t + (m - t_time t)) with (a + m) by lia.
Qed.

Lemma wf_bound l : wf l → ∀ n, n ∈ l → 0 <= t_time n < 2 ^ 32.
Proof.
  intros [Hp Hb]. assert (H : ∀ a, 0 <= a → Forall (λ d, d_time d < 2 ^ 32) (deadlines a l) →
    ∀ n, n ∈ l → 0 <= t_time n < 2 ^ 32); [|by apply (H 0)]. clear Hb.
  induction Hp as [|t l Ht Hp IH]; intros a Ha Hb n Hn; [by apply not_elem_of_nil in Hn|].
  cbn in Hb. apply Forall_cons in Hb as [Hd Hb]. unfold d_time in Hd. cbn in Hd.
  apply elem_of_cons in Hn as [->|Hn]; [lia|]. apply (IH (a + t_time t)); [lia|done..].
Qed.

Lemma sys_timeout_deadlines msecs h arg s f : pool s = S f → wf (next_timeout s) →
  0 <= msecs < 2 ^ 32 →
  deadlines 0 (next_timeout (sys_timeout msecs h arg s))
  = add_deadline (msecs, h, arg) (deadlines 0 (next_timeout s)).
Proof.
  intros Hp Hwf Hm. pose proof (wf_bound _ Hwf) as Hbd. destruct Hwf as [Hpos _].
  unfold sys_timeout. rewrite Hp. cbn [next_timeout]. destruct (next_timeout s) as [|t l]; [done|].
  apply Forall_cons in Hpos as [Ht Hl]. assert (t ∈ t :: l) as Hbt%Hbd by constructor.
  destruct (Z.ltb_spec msecs (t_time t)).
  - cbn [deadlines t_time t_h t_arg set_time]. rewrite u32_small by (unfold is_u32; lia).
    replace (0 + msecs + (t_time t - msecs)) with (0 + t_time t) by lia.
    rewrite add_deadline_first; [done|]. constructor; [done|].
    eapply Forall_impl; [by apply deadlines_ge|]. unfold d_time. cbn. intros x. lia.
  - rewrite insert_after_deadlines; [by rewrite Z.add_0_l|lia..|done|].
    intros n Hn. apply (Hbd n). by constructor.
Qed.

(** Differences recovered from deadlines: a list is well formed when its deadlines ascend. *)
Lemma insert_after_pos m h arg l : ∀ t, 0 <= t_time t <= m → m < 2 ^ 32 →
  Forall (λ t, 0 <= t_time t) l → (∀ n, n ∈ l → t_time n < 2 ^ 32) →
  Forall (λ t, 0 <= t_time t) (insert_after (MkTimeo m h arg) t l).
Proof.
  revert m. induction l as [|n l IH]; intros m t Ht Hm Hl Hb; cbn [insert_after t_time set_time];
    rewrite u32_small by (unfold is_u32; lia).
  - repeat constructor; cbn; lia.
  - apply Forall_cons in Hl as [Hn Hl]. assert (n ∈ n :: l) as Hbn%Hb by constructor.
    cbn [t_time set_time]. destruct (Z.ltb_spec (m - t_time t) (t_time n)).
    + rewrite u32_small by (unfold is_u32; lia). repeat constructor; cbn; try lia. done.
    + constructor; [lia|]. unfold set_time. cbn [t_h t_arg]. apply IH; try lia; [done|].
      intros n' ?. apply Hb. by constructor.
Qed.
Lemma sys_timeout_wf msecs h arg s : wf (next_timeout s) → 0 <= msecs < 2 ^ 32 →
  wf (next_timeout (sys_timeout msecs h arg s)).
Proof.
  intros Hwf Hm. destruct (pool s) as [|f] eqn:Hp; [unfold sys_timeout; by rewrite Hp|].
  split.
  - pose proof (wf_bound _ Hwf) as Hbd. destruct Hwf as [Hpos _].
    unfold sys_timeout. rewrite Hp. cbn [next_timeout]. destruct (next_timeout s) as [|t l].
    + repeat constructor; cbn; lia.
    + apply Forall_cons in Hpos as [Ht Hl]. assert (t ∈ t :: l) as Hbt%Hbd by constructor.
      destruct (Z.ltb_spec msecs (t_time t)).
      * rewrite u32_small by (unfold is_u32; lia). repeat constructor; cbn; try lia. done.
      * apply insert_after_pos; try lia; [done|]. intros n Hn. apply (Hbd n). by constructor.
  - rewrite (sys_timeout_deadlines _ _ _ _ f) by done. rewrite add_deadline_perm.
    constructor; [unfold d_time; cbn; lia|]. apply Hwf.
Qed.

(** The first entry for a handler and argument, taken out. *)
Fixpoint drop_first (h : handler) (arg : Z) (l : list deadline) : list deadline :=
  match l with
  | [] => []
  | d :: l => if bool_decide (d.1.2 = h) && (d.2 =? arg) then l else d :: drop_first h arg l
  end.

Lemma unlink_match_deadlines h arg l : ∀ a, 0 <= a →
  Forall (λ t, 0 <= t_time t) l → Forall (λ d, d_time d < 2 ^ 32) (deadlines a l) →
  match unlink_match h arg l with
  | Some l' => deadlines a l' = drop_first h arg (deadlines a l) ∧ Forall (λ t, 0 <= t_time t) l' ∧
               length l = S (length l')
  | None => drop_first h arg (deadlines a l) = deadlines a l
  end.
Proof.
  induction l as [|t l IH]; intros a Ha Hp Hb; cbn; [done|].
  apply Forall_cons in Hp as [Ht Hp]. apply Forall_cons in Hb as [Hd Hb].
  destruct (bool_decide (t_h t = h) && (t_arg t =? arg)) eqn:E.
  - destruct l as [|n l]; [done|]. cbn in Hb. apply Forall_cons in Hb as [Hn _].
    apply Forall_cons in Hp as [Hn0 Hp]. unfold d_time in Hn. cbn in Hn.
    rewrite u32_small by (unfold is_u32; lia). cbn.
    replace (a + (t_time n + t_time t)) with (a + t_time t + t_time n) by lia.
    split; [done|]. split; [|done]. constructor; [cbn; lia|done].
  - assert (0 <= a + t_time t) as Ha' by lia. specialize (IH (a + t_time t) Ha' Hp Hb).
    destruct (unlink_match h arg l) as [l'|]; cbn.
    + destruct IH as (-> & ? & ->). split; [done|]. split; [by constructor|done].
    + by rewrite IH.
Qed.

(** C26: the list of differences stands for the sorted list of the points in time at which the
    timeouts are due.  A new timeout is added behind those that are due no later than it, and
    no other one moves; cancelling takes out the first timeout with that handler and
    argument, and no other one moves; 32-bit arithmetic never wraps. *)
Theorem timeout_list_refines_deadlines s msecs h arg h' arg' : wf (next_timeout s) →
  pool s ≠ O → 0 <= msecs < 2 ^ 32 →
  let due s := deadlines 0 (next_timeout s) in
  wf (next_timeout (sys_timeout msecs h arg s)) ∧
  due (sys_timeout msecs h arg s) = add_deadline (msecs, h, arg) (due s) ∧
  wf (next_timeout (sys_untimeout h' arg' s)) ∧
  due (sys_untimeout h' arg' s) = drop_first h' arg' (due s).
Proof.
  intros Hwf Hp Hm due. destruct (pool s) as [|f] eqn:Hf; [done|].
  split; [by apply sys_timeout_wf|]. split; [by eapply sys_timeout_deadlines|].
  unfold due, sys_untimeout.
  pose proof (unlink_match_deadlines h' arg' (next_timeout s) 0 (Z.le_refl 0)
    (proj1 Hwf) (proj2 Hwf)) as Hu.
  destruct (unlink_match h' arg' (next_timeout s)) as [l'|]; cbn [next_timeout].
  - destruct Hu as (E & Hpos & _). split; [|done]. split; [done|]. rewrite E.
    assert (Hsub : ∀ l, Forall (λ d, d_time d < 2 ^ 32) l →
      Forall (λ d, d_time d < 2 ^ 32) (drop_first h' arg' l)).
    { induction 1 as [|d l Hd ? IH]; cbn; [done|]. destruct (_ && _); [done|by constructor]. }
    apply Hsub, Hwf.
  - by rewrite Hu.
Qed.

(** ** Which timers are armed *)

(** The timers [hs] are armed, each once, and [f] says when each is due: within its period.
    The rest of the pool is free, and the flag of the TCP timer tells whether it is armed. *)
Record armed (s : tstate) (f : handler → Z) (hs : list handler) : Prop := {
  ar_wf : wf (next_timeout s);
  ar_due : deadlines 0 (next_timeout s) ≡ₚ map (λ h, (f h, h, 0)) hs;
  ar_nodup : NoDup hs;
  ar_range : ∀ h, h ∈ hs → 0 <= f h <= interval h;
  ar_pool : (pool s + length hs)%nat = MEMP_NUM_SYS_TIMEOUT;
  ar_tcp : tcpip_tcp_timer_active s = bool_decide (Tcp ∈ hs) }.

Lemma interval_range h : 0 < interval h < 2 ^ 32.
Proof. destruct h; cbn; lia. Qed.
Lemma handlers_few (hs : list handler) : NoDup hs → (length hs <= 7)%nat.
Proof.
  intros H. change 7%nat with (length [Tcp; Reass; Arp; DhcpCoarse; DhcpFine; Dns; DhcpsTick]).
  apply submseteq_length, NoDup_submseteq; [done|]. intros h _.
  rewrite !elem_of_cons. destruct h; tauto.
Qed.
Lemma armed_room s f hs : armed s f hs → ∃ n, pool s = S n.
Proof.
  intros H. pose proof (handlers_few hs (ar_nodup _ _ _ H)). pose proof (ar_pool _ _ _ H) as Hp.
  unfold MEMP_NUM_SYS_TIMEOUT in Hp. exists (pool s - 1)%nat. lia.
Qed.

Definition upd (f : handler → Z) (h : handler) (v : Z) : handler → Z :=
  λ x, if decide (x = h) then v else f x.
Lemma map_upd_fresh f h v hs : h ∉ hs →
  map (λ x, (upd f h v x, x, 0)) hs = map (λ x, (f x, x, 0)) hs.
Proof.
  intros H. apply map_ext_in. intros x Hx%list_elem_of_In. unfold upd. case_decide; [by subst|done].
Qed.

(** Arming a timer that is not armed. *)
Lemma arm s f hs h b : armed s f hs → h ∉ hs → b = bool_decide (Tcp ∈ h :: hs) →
  armed (sys_timeout (interval h) h 0 (set_active b s)) (upd f h (interval h)) (h :: hs).
Proof.
  intros H Hh Hb. destruct (armed_room _ _ _ H) as [n Hn]. pose proof (interval_range h).
  assert (Ho : ∀ x, x ∈ hs → x ≠ h) by (intros ? ? ->; done).
  split.
  - apply sys_timeout_wf; [apply H|lia].
  - rewrite (sys_timeout_deadlines _ _ _ _ n); [|done|apply H|lia].
    rewrite add_deadline_perm. cbn [next_timeout set_active]. rewrite (ar_due _ _ _ H). cbn [map].
    rewrite map_upd_fresh by done. unfold upd at 1. by rewrite decide_True by done.
  - constructor; [done|apply H].
  - intros x [->|Hx]%elem_of_cons; unfold upd.
    + rewrite decide_True by done. lia.
    + rewrite decide_False by auto. by apply H.
  - unfold sys_timeout. cbn [pool set_active]. rewrite Hn. cbn [pool length].
    pose proof (ar_pool _ _ _ H). lia.
  - unfold sys_timeout. cbn [pool set_active]. by rewrite Hn.
Qed.

(** Waiting for a message for at most the time of the first timeout. *)
Lemma wf_head t l v : wf (t :: l) → 0 <= v <= t_time t → wf (set_time v t :: l).
Proof.
  intros [Hp Hb] Hv. apply Forall_cons in Hp as [Ht Hp]. split; [constructor; cbn; [lia|done]|].
  rewrite deadlines_head. apply Forall_map. eapply Forall_impl; [exact Hb|].
  intros d Hd. unfold d_time, shift in *. cbn. lia.
Qed.
Lemma elapse s f hs t l v : armed s f hs → next_timeout s = t :: l → 0 <= v <= t_time t →
  armed (MkT (set_time v t :: l) (pool s) (tcpip_tcp_timer_active s))
    (λ h, f h + (v - t_time t)) hs.
Proof.
  intros H E Hv. pose proof (ar_wf _ _ _ H) as Hwf. rewrite E in Hwf.
  pose proof (ar_due _ _ _ H) as Hd. rewrite E in Hd.
  assert (Hge : ∀ h, h ∈ hs → t_time t <= f h).
  { intros h Hh. assert (Hin : (f h, h, 0) ∈ deadlines 0 (t :: l)).
    { rewrite Hd. apply list_elem_of_fmap. eauto. }
    cbn in Hin. apply elem_of_cons in Hin as [Hin|Hin]; [injection Hin; lia|].
    pose proof (deadlines_ge l (0 + t_time t) (Forall_inv_tail (proj1 Hwf))) as Hg.
    rewrite Forall_forall in Hg. apply Hg in Hin. unfold d_time in Hin. cbn in Hin. lia. }
  split.
  - by apply wf_head.
  - cbn [next_timeout]. rewrite deadlines_head, Hd, map_map. done.
  - apply H.
  - intros h Hh. pose proof (Hge h Hh). pose proof (ar_range _ _ _ H h Hh). lia.
  - apply H.
  - apply H.
Qed.

(** The first timeout expires. *)
Lemma expire s f hs t l : armed s f hs → next_timeout s = t :: l →
  ∃ hs', hs ≡ₚ t_h t :: hs' ∧ f (t_h t) = t_time t ∧
    wf l ∧ deadlines 0 l ≡ₚ map (λ h, (f h - t_time t, h, 0)) hs' ∧
    ∀ h, h ∈ hs' → t_time t <= f h.
Proof.
  intros H E. pose proof (ar_wf _ _ _ H) as Hwf. rewrite E in Hwf.
  pose proof (ar_due _ _ _ H) as Hd. rewrite E in Hd. cbn [deadlines] in Hd.
  assert (Hin : (0 + t_time t, t_h t, t_arg t) ∈ map (λ h, (f h, h, 0)) hs) by (rewrite <- Hd; constructor).
  apply list_elem_of_fmap in Hin as (h & Eh & Hh). injection Eh as Ef Eth Earg.
  apply elem_of_Permutation in Hh as [hs' Hp]. subst h.
  exists hs'. split; [done|]. split; [lia|].
  rewrite Hp in Hd. cbn [map] in Hd. rewrite <- Ef, Earg in Hd. apply Permutation_cons_inv in Hd.
  rewrite Z.add_0_l in Hd, Ef. rewrite deadlines_from in Hd.
  assert (Hl : deadlines 0 l ≡ₚ map (λ h, (f h - t_time t, h, 0)) hs').
  { apply (Permutation_map (shift (- t_time t))) in Hd. rewrite !map_map in Hd.
    rewrite (map_ext _ id), map_id in Hd; [rewrite Hd|intros [[? ?] ?]; unfold shift; cbn; f_equal; f_equal; lia].
    reflexivity. }
  split.
  - destruct Hwf as [Hpos Hb]. split; [exact (Forall_inv_tail Hpos)|].
    cbn in Hb. apply Forall_cons in Hb as [_ Hb]. rewrite deadlines_from in Hb. apply Forall_map in Hb.
    eapply Forall_impl; [exact Hb|]. apply Forall_cons in Hpos as [Ht _]. unfold d_time, shift. cbn.
    intros d. cbn. lia.
  - split; [done|]. intros h Hh.
    pose proof (deadlines_ge l 0 (Forall_inv_tail (proj1 Hwf))) as Hg. rewrite Hl in Hg.
    rewrite Forall_forall in Hg. assert (Hin' : (f h - t_time t, h, 0) ∈ map (λ h, (f h - t_time t, h, 0)) hs')
      by (apply list_elem_of_fmap; eauto).
    apply Hg in Hin'. unfold d_time in Hin'. cbn in Hin'. lia.
Qed.

Lemma set_active_same s : set_active (tcpip_tcp_timer_active s) s = s.
Proof. by destruct s. Qed.
Lemma arm_other s f hs h : armed s f hs → h ∉ hs → h ≠ Tcp →
  armed (sys_timeout (interval h) h 0 s) (upd f h (interval h)) (h :: hs).
Proof.
  intros H Hh Hne. rewrite <- (set_active_same s) at 1. apply arm; [done..|].
  rewrite (ar_tcp _ _ _ H). apply bool_decide_ext. rewrite elem_of_cons. naive_solver.
Qed.

(** Taking one timeout out leaves the others due as they were. *)
Lemma without s f h hs l n : armed s f (h :: hs) → wf l → n = S (pool s) → h ≠ Tcp →
  deadlines 0 l ≡ₚ map (λ h, (f h, h, 0)) hs → armed (MkT l n (tcpip_tcp_timer_active s)) f hs.
Proof.
  intros H Hwf -> Hne Hd. split; cbn [next_timeout pool tcpip_tcp_timer_active]; try done.
  - pose proof (ar_nodup _ _ _ H) as Hn. by apply NoDup_cons in Hn as [_ Hn].
  - intros x Hx. apply H. by constructor.
  - pose proof (ar_pool _ _ _ H) as Hp. cbn in Hp. lia.
  - rewrite (ar_tcp _ _ _ H). apply bool_decide_ext. rewrite elem_of_cons. naive_solver.
Qed.

(** The handlers that arm themselves again whatever happens. *)
Definition cyclic : list handler := [Reass; Arp; DhcpCoarse; DhcpFine; Dns].

(** A handler that was due is called. *)
Lemma fire s f hs t l again : armed s f hs → next_timeout s = t :: l →
  ∃ f' hs', armed (call_handler (t_h t) again (MkT l (S (pool s)) (tcpip_tcp_timer_active s))) f' hs' ∧
    (∀ h, h ∈ cyclic → h ∈ hs → h ∈ hs' ∧
       f' h = if decide (h = t_h t) then interval h else f h - t_time t).
Proof.
  intros H E. destruct (expire _ _ _ _ _ H E) as (hs' & Hp & Hf & Hwf & Hd & Hge).
  assert (Hn : NoDup (t_h t :: hs')) by (rewrite <- Hp; apply H).
  apply NoDup_cons in Hn as [Hh Hn].
  pose proof (ar_wf _ _ _ H) as Hw. rewrite E in Hw. pose proof (Forall_inv (proj1 Hw)) as Ht. cbn in Ht.
  set (g := λ h, f h - t_time t).
  assert (Hact : tcpip_tcp_timer_active s = bool_decide (Tcp ∈ t_h t :: hs')).
  { rewrite (ar_tcp _ _ _ H). apply bool_decide_ext. by rewrite Hp. }
  assert (Hbase : ∀ b, b = bool_decide (Tcp ∈ hs') → armed (MkT l (S (pool s)) b) g hs').
  { intros b ->. split; cbn; try done.
    - intros x Hx. unfold g. pose proof (Hge x Hx).
      assert (x ∈ hs) as Hxs by (rewrite Hp; by constructor).
      pose proof (ar_range _ _ _ H x Hxs). lia.
    - pose proof (ar_pool _ _ _ H) as Hl. rewrite Hp in Hl. cbn in Hl. lia. }
  set (b := tcpip_tcp_timer_active s) in *.
  assert (Hre : armed (sys_timeout (interval (t_h t)) (t_h t) 0 (MkT l (S (pool s)) b))
                  (upd g (t_h t) (interval (t_h t))) (t_h t :: hs')).
  { apply (arm (MkT l (S (pool s)) (bool_decide (Tcp ∈ hs'))) g hs'); [by apply Hbase|done|done]. }
  assert (Hupd : ∀ h, h ∈ cyclic → h ∈ hs → h ∈ t_h t :: hs' ∧
     upd g (t_h t) (interval (t_h t)) h = if decide (h = t_h t) then interval h else f h - t_time t).
  { intros h _ Hin. split; [by rewrite <- Hp|]. unfold upd. destruct (decide (h = t_h t)) as [->|]; done. }
  assert (Hoff : t_h t ∉ cyclic → b = bool_decide (Tcp ∈ hs') →
    ∃ f' hs0, armed (MkT l (S (pool s)) b) f' hs0 ∧ ∀ h, h ∈ cyclic → h ∈ hs → h ∈ hs0 ∧
       f' h = if decide (h = t_h t) then interval h else f h - t_time t).
  { intros Hc Hb. exists g, hs'. split; [by apply Hbase|]. intros h Hcy Hin. rewrite Hp in Hin.
    rewrite decide_False by (intros ->; done). split; [|done].
    apply elem_of_cons in Hin as [->|?]; done. }
  destruct (t_h t) eqn:Eh; cbn [call_handler tcpip_tcp_timer tick_rearm]; try (eexists _, _; split; [exact Hre|exact Hupd]).
  - destruct again; [eexists _, _; split; [exact Hre|exact Hupd]|].
    exists g, hs'. split; [apply Hbase; by rewrite bool_decide_eq_false_2|].
    intros h Hcy Hin. rewrite Hp in Hin. rewrite decide_False by (by intros ->; set_solver).
    split; [|done]. apply elem_of_cons in Hin as [->|?]; [set_solver|done].
  - destruct again; [eexists _, _; split; [exact Hre|exact Hupd]|].
    apply Hoff; [set_solver|]. rewrite Hact. apply bool_decide_ext. rewrite elem_of_cons. naive_solver.
Qed.

(** ** The thread running *)

(** A pass of the loop with some answer, a new TCP connection, the DHCP server starting and
    stopping. *)
Inductive tact := AFetch (answer : Z) (again : bool) | ANeeded (pcbs : bool) | AStart | AStop.
Definition tstep (a : tact) (s : tstate) : tstate :=
  match a with
  | AFetch answer again => (fetch_round answer again s).1
  | ANeeded pcbs => tcp_timer_needed pcbs s
  | AStart => tick_rearm true s
  | AStop => sys_untimeout DhcpsTick 0 s
  end.
Definition due_of (h : handler) (s : tstate) : list deadline :=
  filter (λ d, d.1.2 = h) (deadlines 0 (next_timeout s)).
(** The server is not started while it runs. *)
Definition tact_ok (a : tact) (s : tstate) : Prop :=
  match a with
  | AFetch answer _ => 0 <= answer < 2 ^ 32
  | AStart => due_of DhcpsTick s = []
  | _ => True
  end.
Definition timers_boot : tstate := sys_timeouts_init (MkT [] MEMP_NUM_SYS_TIMEOUT false).
Inductive timers_reach : tstate → Prop :=
  | tr_boot : timers_reach timers_boot
  | tr_step s a : timers_reach s → tact_ok a s → timers_reach (tstep a s).

Lemma boot_list : next_timeout timers_boot = [MkTimeo 500 DhcpFine 0; MkTimeo 500 Reass 0;
  MkTimeo 0 Dns 0; MkTimeo 4000 Arp 0; MkTimeo 55000 DhcpCoarse 0].
Proof. by vm_compute. Qed.
Lemma boot_armed : armed timers_boot interval [Dns; DhcpFine; DhcpCoarse; Arp; Reass].
Proof.
  split.
  - rewrite boot_list. split; repeat constructor; unfold d_time; cbn; lia.
  - rewrite boot_list. cbn [deadlines map interval t_time t_h t_arg]. vm_compute Z.add.
    vm_compute Z.mul. solve_Permutation.
  - apply NoDup_ListNoDup. repeat constructor; cbn; intuition congruence.
  - intros h _. pose proof (interval_range h). lia.
  - done.
  - done.
Qed.

Lemma due_of_armed s f hs h : armed s f hs → due_of h s = if decide (h ∈ hs) then [(f h, h, 0)] else [].
Proof.
  intros H. unfold due_of. pose proof (ar_due _ _ _ H) as Hd. pose proof (ar_nodup _ _ _ H) as Hn.
  assert (E : filter (λ d : deadline, d.1.2 = h) (map (λ h, (f h, h, 0)) hs)
              = if decide (h ∈ hs) then [(f h, h, 0)] else []).
  { clear -Hn. induction hs as [|x hs IH]; [done|]. apply NoDup_cons in Hn as [Hx Hn]. cbn [map].
    specialize (IH Hn). destruct (decide (x = h)) as [->|Hne].
    - rewrite filter_cons_True by done. rewrite IH, decide_False by done.
      by rewrite decide_True by constructor.
    - rewrite filter_cons_False by done. rewrite IH. apply decide_ext. rewrite elem_of_cons.
      naive_solver. }
  pose proof (filter_Permutation (λ d : deadline, d.1.2 = h) _ _ Hd) as P.
  rewrite E in P. destruct (decide (h ∈ hs)).
  - by apply Permutation_singleton_r in P.
  - by apply Permutation_nil_r in P.
Qed.

Lemma drop_first_perm h arg l : (drop_first h arg l = l ∧ ∀ d, d ∈ l → d.1.2 ≠ h ∨ d.2 ≠ arg) ∨
  ∃ d, d.1.2 = h ∧ l ≡ₚ d :: drop_first h arg l.
Proof.
  induction l as [|d l IH]; cbn.
  - left. split; [done|]. intros d Hd. by apply not_elem_of_nil in Hd.
  - destruct (bool_decide_reflect (d.1.2 = h)) as [Eh|Eh]; cbn.
    + destruct (Z.eqb_spec (d.2) arg) as [Ea|Ea]; [right; by exists d|].
      destruct IH as [[E Hno]|(d' & ? & P)].
      * left. rewrite E. split; [done|]. intros d' [->|?]%elem_of_cons; auto.
      * right. exists d'. split; [done|]. rewrite Permutation_swap. by rewrite <- P.
    + destruct IH as [[E Hno]|(d' & ? & P)].
      * left. rewrite E. split; [done|]. intros d' [->|?]%elem_of_cons; auto.
      * right. exists d'. split; [done|]. rewrite Permutation_swap. by rewrite <- P.
Qed.

(** Cancelling a timer. *)
Lemma cancel s f hs h : armed s f hs → h ≠ Tcp →
  ∃ hs', armed (sys_untimeout h 0 s) f hs' ∧ ∀ x, x ≠ h → x ∈ hs → x ∈ hs'.
Proof.
  intros H Hne. unfold sys_untimeout.
  pose proof (unlink_match_deadlines h 0 (next_timeout s) 0 (Z.le_refl 0)
    (proj1 (ar_wf _ _ _ H)) (proj2 (ar_wf _ _ _ H))) as Hu.
  destruct (unlink_match h 0 (next_timeout s)) as [l'|]; [|by exists hs].
  destruct Hu as (E & Hpos & Hl).
  assert (Hlen : length (next_timeout s) = length hs).
  { pose proof (Permutation_length (ar_due _ _ _ H)) as P. rewrite length_map in P. rewrite <- P.
    generalize 0. clear. induction (next_timeout s) as [|t l IH]; intros a; cbn; [done|]. by rewrite <- IH. }
  assert (Hlen' : length (deadlines 0 l') = length l').
  { generalize 0. clear. induction l' as [|t l IH]; intros a; cbn; [done|]. by rewrite IH. }
  destruct (drop_first_perm h 0 (deadlines 0 (next_timeout s))) as [[E' _]|(d & Hd & P)].
  { rewrite E' in E. apply (f_equal length) in E. rewrite (Permutation_length (ar_due _ _ _ H)) in E.
    rewrite length_map in E. lia. }
  assert (Hin : d ∈ map (λ h, (f h, h, 0)) hs) by (rewrite <- (ar_due _ _ _ H), P; constructor).
  apply list_elem_of_fmap in Hin as (x & -> & Hx). cbn in Hd. subst x.
  apply elem_of_Permutation in Hx as [hs' Hp]. exists hs'.
  pose proof (ar_due _ _ _ H) as Hdue. rewrite P, Hp in Hdue. cbn [map] in Hdue.
  apply Permutation_cons_inv in Hdue. split.
  - apply without with h; [|split; [done|]|done|done|by rewrite E].
    + destruct H. split; try done; [by rewrite <- Hp|by rewrite <- Hp| |by rewrite <- Hp|].
      * intros x Hx. apply ar_range0. by rewrite Hp.
      * rewrite ar_tcp0. apply bool_decide_ext. by rewrite Hp.
    + rewrite E, Hdue. apply Forall_map, Forall_forall. intros x Hx.
      assert (x ∈ hs) as Hxs by (rewrite Hp; by constructor).
      pose proof (ar_range _ _ _ H x Hxs). pose proof (interval_range x). unfold d_time. cbn. lia.
  - intros x Hxh Hx. rewrite Hp in Hx. apply elem_of_cons in Hx as [?|?]; [done|done].
Qed.

Lemma round_armed s f hs answer again : armed s f hs → 0 <= answer < 2 ^ 32 →
  ∃ f' hs', armed (fetch_round answer again s).1 f' hs' ∧ ∀ h, h ∈ cyclic → h ∈ hs → h ∈ hs'.
Proof.
  intros H Ha. unfold fetch_round. destruct (next_timeout s) as [|t l] eqn:E; [by exists f, hs|].
  pose proof (ar_wf _ _ _ H) as Hwf. rewrite E in Hwf.
  assert (t ∈ t :: l) as Ht%(wf_bound _ Hwf) by constructor.
  destruct (_ =? SYS_ARCH_TIMEOUT).
  - destruct (fire s f hs t l again H E) as (f' & hs' & H' & Hc). exists f', hs'. split; [done|].
    intros h ??. by apply Hc.
  - cbn [fst]. eexists _, hs. split; [apply (elapse s f hs t l); [done..|]|done].
    destruct (fetch_time s); cbn; [|unfold SYS_ARCH_TIMEOUT];
      (match goal with |- context [?a <? ?b] => destruct (Z.ltb_spec a b) end;
       [rewrite u32_small by (unfold is_u32; lia)|]; lia).
Qed.

Lemma reach_armed s : timers_reach s → ∃ f hs, armed s f hs ∧ ∀ h, h ∈ cyclic → h ∈ hs.
Proof.
  induction 1 as [|s a _ (f & hs & H & Hc) Ha].
  - exists interval, [Dns; DhcpFine; DhcpCoarse; Arp; Reass]. split; [apply boot_armed|set_solver].
  - destruct a as [answer again|pcbs| |]; cbn in Ha |- *.
    + destruct (round_armed s f hs answer again H Ha) as (f' & hs' & ? & ?). exists f', hs'. auto.
    + unfold tcp_timer_needed. rewrite (ar_tcp _ _ _ H). case_bool_decide as Et; cbn; [by exists f, hs|].
      destruct pcbs; cbn; [|by exists f, hs]. exists (upd f Tcp (interval Tcp)), (Tcp :: hs). split.
      * apply (arm s f hs Tcp true); [done..|]. by rewrite bool_decide_eq_true_2 by constructor.
      * intros h Hh. constructor. auto.
    + rewrite (due_of_armed _ _ _ _ H) in Ha. destruct (decide (DhcpsTick ∈ hs)) as [|Hn]; [done|].
      exists (upd f DhcpsTick (interval DhcpsTick)), (DhcpsTick :: hs). split; [by apply (arm_other s f hs DhcpsTick)|].
      intros h Hh. constructor. auto.
    + destruct (cancel s f hs DhcpsTick H) as (hs' & ? & Hk); [done|]. exists f, hs'. split; [done|].
      intros h Hh. apply Hk; [|auto]. intros ->. set_solver.
Qed.

(** C25: whatever the mailbox answers and whenever connections and the DHCP server come and go,
    each of the five timers of the stack is armed exactly once and due within its period, the
    TCP timer is armed exactly when its flag says so, and the pool never runs out, so no
    timer is ever lost. *)
Theorem timers_stay_armed s : timers_reach s →
  pool s ≠ O ∧
  (∀ h, h ∈ cyclic → ∃ d, due_of h s = [(d, h, 0)] ∧ 0 <= d <= interval h) ∧
  (if tcpip_tcp_timer_active s then ∃ d, due_of Tcp s = [(d, Tcp, 0)] ∧ 0 <= d <= interval Tcp
   else due_of Tcp s = []).
Proof.
  intros Hr. destruct (reach_armed s Hr) as (f & hs & H & Hc).
  destruct (armed_room _ _ _ H) as [n Hn].
  split; [by rewrite Hn|]. split.
  - intros h Hh%Hc. exists (f h). rewrite (due_of_armed _ _ _ _ H), decide_True by done.
    split; [done|by apply H].
  - rewrite (ar_tcp _ _ _ H), (due_of_armed _ _ _ _ H). case_bool_decide as Et.
    + exists (f Tcp). rewrite decide_True by done. split; [done|by apply H].
    + by rewrite decide_False.
Qed.

(** ** Periods *)

(** Passes in which no message comes: the time waited and the handlers called. *)
Fixpoint silent (agains : list bool) (s : tstate) : tstate * Z * list handler :=
  match agains with
  | [] => (s, 0, [])
  | again :: agains =>
    match fetch_round SYS_ARCH_TIMEOUT again s with
    | (s', Some h) => let '(s2, waited, calls) := silent agains s' in
                      (s2, default 0 (fetch_time s) + waited, h :: calls)
    | (s', None) => (s', 0, [])
    end
  end.
Definition calls_of (h : handler) (calls : list handler) : Z :=
  Z.of_nat (length (filter (λ x, x = h) calls)).

Lemma calls_of_cons h x calls : calls_of h (x :: calls) = (if decide (h = x) then 1 else 0) + calls_of h calls.
Proof.
  unfold calls_of. rewrite filter_cons. destruct (decide (x = h)) as [->|].
  - rewrite decide_True by done. cbn [length]. lia.
  - by rewrite decide_False by done.
Qed.

Lemma silent_spec agains : ∀ s f hs s' waited calls, armed s f hs → (∀ h, h ∈ cyclic → h ∈ hs) →
  silent agains s = (s', waited, calls) →
  length calls = length agains ∧ 0 <= waited ∧
  ∃ f' hs', armed s' f' hs' ∧ (∀ h, h ∈ cyclic → h ∈ hs') ∧
    ∀ h, h ∈ cyclic → f' h = f h + calls_of h calls * interval h - waited.
Proof.
  induction agains as [|again agains IH]; intros s f hs s' waited calls H Hc E; cbn in E.
  - injection E as <- <- <-. split; [done|]. split; [done|]. exists f, hs. split; [done|].
    split; [done|]. intros h _. change (calls_of h []) with 0. lia.
  - unfold fetch_round in E. destruct (next_timeout s) as [|t l] eqn:El.
    { exfalso.
      assert (Dns ∈ hs) as Hd by (apply Hc; set_solver).
      pose proof (due_of_armed s f hs Dns H) as Hdue. rewrite decide_True in Hdue by done.
      unfold due_of in Hdue. rewrite El in Hdue. done. }
    assert (Et : match fetch_time s with Some _ => SYS_ARCH_TIMEOUT | None => SYS_ARCH_TIMEOUT end
                 = SYS_ARCH_TIMEOUT) by (by destruct (fetch_time s)).
    rewrite Et, Z.eqb_refl in E.
    assert (Hw : default 0 (fetch_time s) = t_time t ∧ 0 <= t_time t).
    { pose proof (ar_wf _ _ _ H) as [Hp _]. rewrite El in Hp. apply Forall_cons in Hp as [Hp _].
      unfold fetch_time. rewrite El. destruct (Z.ltb_spec 0 (t_time t)); cbn; lia. }
    destruct (fire s f hs t l again H El) as (f1 & hs1 & H1 & Hf1).
    destruct (silent agains _) as [[s2 w] cs] eqn:Es. injection E as <- <- <-.
    destruct (IH _ f1 hs1 s2 w cs H1) as (Hlen & Hw0 & f' & hs' & H' & Hc' & Hf'); [intros h Hh; by apply Hf1; [|apply Hc]|done|].
    split; [cbn; lia|]. split; [lia|]. exists f', hs'. split; [done|]. split; [done|].
    intros h Hh. destruct (Hf1 h Hh (Hc h Hh)) as [_ E1]. specialize (Hf' h Hh).
    rewrite calls_of_cons. destruct (decide (h = t_h t)) as [->|Hne]; [|lia].
    destruct (expire _ _ _ _ _ H El) as (? & _ & Eft & _). lia.
Qed.

(** While no messages come, each pass calls exactly one handler and every timer keeps its
    period exactly: after the passes have waited [waited] milliseconds in all since the start,
    a timer of the stack has been called once for every full period in that time (a call due
    at this very moment may still be to come). *)
Theorem timers_keep_their_period agains s waited calls h :
  silent agains timers_boot = (s, waited, calls) → h ∈ cyclic →
  length calls = length agains ∧
  calls_of h calls * interval h <= waited <= (calls_of h calls + 1) * interval h.
Proof.
  intros E Hh. destruct (silent_spec agains timers_boot interval _ s waited calls boot_armed)
    as (Hl & Hw & f' & hs' & H' & Hc' & Hf'); [set_solver|done|].
  split; [done|]. specialize (Hf' h Hh). pose proof (ar_range _ _ _ H' h (Hc' h Hh)).
  lia.
Qed.

(** ** Instances *)

Lemma boot_wf : wf (next_timeout timers_boot).
Proof. exact (ar_wf _ _ _ boot_armed). Qed.

Lemma timeout_list_refines_deadlines_witness :
  deadlines 0 (next_timeout (sys_timeout 700 DhcpsTick 0 timers_boot))
  = [(500, DhcpFine, 0); (700, DhcpsTick, 0); (1000, Reass, 0); (1000, Dns, 0); (5000, Arp, 0);
     (60000, DhcpCoarse, 0)].
Proof.
  destruct (timeout_list_refines_deadlines timers_boot 700 DhcpsTick 0 Arp 0) as (_ & E & _);
    [exact boot_wf|by vm_compute|lia|].
  rewrite E. reflexivity.
Defined.
Lemma dns_cyclic : Dns ∈ cyclic.
Proof. set_solver. Qed.
Lemma timers_stay_armed_witness : ∃ d, due_of Dns timers_boot = [(d, Dns, 0)] ∧ 0 <= d <= 1000.
Proof. apply (timers_stay_armed timers_boot); [constructor|]. exact dns_cyclic. Defined.
Lemma timers_keep_their_period_witness :
  let '(_, waited, calls) := silent (replicate 8 false) timers_boot in
  waited = 2000 ∧ calls = [DhcpFine; Reass; Dns; DhcpFine; DhcpFine; Reass; Dns; DhcpFine] ∧
  calls_of Dns calls * interval Dns <= waited <= (calls_of Dns calls + 1) * interval Dns.
Proof.
  destruct (silent (replicate 8 false) timers_boot) as [[s waited] calls] eqn:E.
  assert (Ev : (waited, calls) = (2000, [DhcpFine; Reass; Dns; DhcpFine; DhcpFine; Reass; Dns; DhcpFine])).
  { transitivity ((silent (replicate 8 false) timers_boot).1.2, (silent (replicate 8 false) timers_boot).2).
    - by rewrite E.
    - by vm_compute. }
  injection Ev as Ew Ec. split; [exact Ew|]. split; [exact Ec|].
  exact (proj2 (timers_keep_their_period _ _ _ _ Dns E dns_cyclic)).
Defined.
