(* ===== verification/SysArch.v ===== *)
(** * The port of the TCP/IP stack to the kernel ([LwIP/port/sys_arch.c])

    Mailboxes, semaphores and threads of the stack as queues, semaphores and tasks of the
    kernel, over the states of [Kernel] and [OsMem].  A mailbox is the address of a block of the
    partition [pQueueMem]; its first word points to the queue.  A pointer to entry [e] of
    [OSEventTbl] is the word [e + 1], null is 0.  [LWIP_NOASSERT] is defined, so the
    assertions do nothing.  A call that waits ends there; its second half is a definition of its
    own, as in [KEvent].  The message that stands for a null message is the address of
    [pvNullPointer], a constant of the linker, not null.  [None] follows a null pointer. *)
From S2P Require Import Prelude PrioTab Kernel KEvent KInv KStep KEventInv KRun KSpec OsMem Timers.

Definition MAX_QUEUES : Z := 10.
Definition MAX_QUEUE_ENTRIES : Z := 20.
(** [sizeof(TQ_DESCR)]: a pointer and [MAX_QUEUE_ENTRIES] pointers. *)
(* @ LwIP/port/include/arch/sys_arch.h:71-74 TQ_DESCR *)
Definition TQ_SIZE : Z := 4 + 4 * MAX_QUEUE_ENTRIES.
Definition ERR_OK : Z := 0.
Definition ERR_MEM : Z := -1.
Definition LWIP_TASK_MAX : Z := 10.
Definition LWIP_START_PRIO : Z := 34.

(** ** Data *)

(* @ LwIP/port/sys_arch.c:43-47 pQueueMem *)
Record port := MkPort { krn : kernel; mem : mstate; pQueueMem : option nat }.
Definition set_krn (k : kernel) (s : port) : port := MkPort k (mem s) (pQueueMem s).
Definition set_mem (m : mstate) (s : port) : port := MkPort (krn s) m (pQueueMem s).

Definition ev_word (e : option nat) : Z := match e with Some e => Z.of_nat e + 1 | None => 0 end.
Definition word_ev (w : Z) : option nat := if 0 <? w then Some (Z.to_nat (w - 1)) else None.
Definition store_word (a v : Z) (m : mstate) : mstate :=
  MkMState (OSMemTbl m) (OSMemFreeList m) (<[a := v]> (words m)).

(** [(mbox)->pQ]. *)
Definition mbox_queue (mbox : Z) (s : port) : option nat := w ← words (mem s) !! mbox; word_ev w.
(** What is in the first [size] words of [pvQEntries]. *)
Definition entries (pQDesc size : Z) (m : mstate) : list Z :=
  map (λ i, default 0 (words m !! (pQDesc + 4 + 4 * i))) (seqZ 0 size).

(** ** Times *)

(** Milliseconds to ticks; [lim] is the bound the two calls compare with. *)
(* @ LwIP/port/sys_arch.c:171-181 _sys_arch_mbox_fetch *)
Definition ucos_timeout (lim timeout : Z) : Z :=
  if negb (timeout =? 0) then
    let t := u32 (timeout * OS_TICKS_PER_SEC) / 1000 in
    if t <? 1 then 1 else if lim <? t then 65535 else t
  else 0.
(** The argument of the two pends is cast to 16 bits. *)
Definition mbox_ticks (timeout : Z) : Z := u16 (ucos_timeout 65535 timeout).
(* @ LwIP/port/sys_arch.c:246-255 _sys_arch_sem_wait *)
Definition sem_ticks (timeout : Z) : Z := u16 (ucos_timeout 65536 timeout).

(* @ LwIP/port/sys_arch.c:201-205 _sys_arch_mbox_fetch *)
Definition mbox_elapsed (t0 t1 : Z) : Z :=
  let d := if t0 <? t1 then u32 (t1 - t0) else u32 (2 ^ 32 - 1 - t0 + t1) in
  u32 (u32 (d * 1000) / OS_TICKS_PER_SEC + 1).
(* @ LwIP/port/sys_arch.c:268-274 _sys_arch_sem_wait *)
Definition sem_elapsed (t0 t1 : Z) : Z :=
  let d := if t0 <=? t1 then u32 (t1 - t0) else u32 (2 ^ 32 - 1 - t0 + t1) in
  u32 (u32 (d * 1000) / OS_TICKS_PER_SEC + 1).

(** ** Mailboxes *)

(* @ LwIP/port/sys_arch.c:302-314 _sys_init *)
Definition _sys_init (pool_addr : Z) (s : port) : port :=
  let '(m, (i, _)) := OSMemCreate (Z.land (u32 (pool_addr + 3)) (Z.lnot 3)) MAX_QUEUES TQ_SIZE (mem s) in
  MkPort (krn s) m i.

(** The mailbox, null on failure, and the error code. *)
(* @ LwIP/port/sys_arch.c:57-89 _sys_mbox_new *)
Definition _sys_mbox_new (size : Z) (s : port) : option (port * (Z * Z)) :=
  i ← pQueueMem s;
  '(m, (pQDesc, ucErr)) ← OSMemGet i (mem s);
  if ucErr =? OS_ERR_NONE then
    let size := u16 (if MAX_QUEUE_ENTRIES <? size then MAX_QUEUE_ENTRIES else size) in
    '(k, pQ) ← OSQCreate (entries pQDesc size m) size (krn s);
    let m := store_word pQDesc (ev_word pQ) m in
    match pQ with
    | Some _ => Some (MkPort k m (pQueueMem s), (pQDesc, ERR_OK))
    | None => '(m, _) ← OSMemPut i pQDesc m; Some (MkPort k m (pQueueMem s), (0, ERR_MEM))
    end
  else Some (set_mem m s, (0, ERR_MEM)).

(* @ LwIP/port/sys_arch.c:97-113 _sys_mbox_free *)
Definition _sys_mbox_free (mbox : Z) (s : port) : option port :=
  i ← pQueueMem s;
  e ← mbox_queue mbox s;
  '(k, _) ← OSQFlush e (krn s);
  '(k, _) ← OSQDel e 0 k;
  '(m, _) ← OSMemPut i mbox (mem s);
  Some (MkPort k m (pQueueMem s)).

(* @ LwIP/port/sys_arch.c:353-356 _sys_mbox_valid *)
Definition _sys_mbox_valid (mbox : Z) : bool := negb (mbox =? 0).
(* @ LwIP/port/sys_arch.c:359-362 _sys_mbox_set_invalid *)
Definition _sys_mbox_set_invalid (_ : Z) : Z := 0.

Section Messages.
Context (pvNullPointer : Z).

(* @ LwIP/port/sys_arch.c:123-124 _sys_mbox_post *)
Definition to_queue (msg : Z) : Z := if msg =? 0 then pvNullPointer else msg.
(* @ LwIP/port/sys_arch.c:187-193 _sys_arch_mbox_fetch *)
Definition from_queue (temp : Z) : Z := if temp =? pvNullPointer then 0 else temp.

Definition mbox_send (mbox msg : Z) (s : port) : option (port * Z) :=
  e ← mbox_queue mbox s;
  '(k, err) ← OSQPost e (to_queue msg) (krn s);
  Some (set_krn k s, err).

(** The loop with [n] tries left.  [resume n] is what happens from the delay until the task
    runs again.  The result says whether the message was stored. *)
(* @ LwIP/port/sys_arch.c:126-130 _sys_mbox_post *)
Fixpoint post_tries (resume : nat → port → option port) (n : nat) (mbox msg : Z) (s : port)
    : option (port * bool) :=
  match n with
  | O => Some (s, false)
  | S n =>
    '(s, err) ← mbox_send mbox msg s;
    if err =? OS_ERR_NONE then Some (s, true)
    else k ← OSTimeDly 5 (krn s);
         s ← resume n (set_krn k s);
         post_tries resume n mbox msg s
  end.
(* @ LwIP/port/sys_arch.c:117-132 _sys_mbox_post *)
Definition _sys_mbox_post (resume : nat → port → option port) (mbox msg : Z) (s : port)
    : option (port * bool) := post_tries resume 10 mbox msg s.

(* @ LwIP/port/sys_arch.c:135-147 _sys_mbox_trypost *)
Definition _sys_mbox_trypost (mbox msg : Z) (s : port) : option (port * Z) :=
  '(s, err) ← mbox_send mbox msg s;
  Some (s, if err =? OS_ERR_NONE then ERR_OK else ERR_MEM).

(** The message and the time, from the results of the pend. *)
(* @ LwIP/port/sys_arch.c:187-208 _sys_arch_mbox_fetch *)
Definition fetched (t0 temp ucErr : Z) (k : kernel) : Z * Z :=
  (from_queue temp,
   if ucErr =? OS_ERR_TIMEOUT then SYS_ARCH_TIMEOUT else mbox_elapsed t0 (OSTimeGet k)).

(** [None] in the result: the task waits, with the start time on its stack. *)
(* @ LwIP/port/sys_arch.c:165-209 _sys_arch_mbox_fetch *)
Definition _sys_arch_mbox_fetch (mbox timeout : Z) (s : port) : option (port * option (Z * Z)) :=
  e ← mbox_queue mbox s;
  let t0 := OSTimeGet (krn s) in
  '(k, r) ← OSQPend e (mbox_ticks timeout) (krn s);
  Some (set_krn k s, '(temp, ucErr) ← r; Some (fetched t0 temp ucErr k)).
(* @ LwIP/port/sys_arch.c:185-209 _sys_arch_mbox_fetch *)
Definition _sys_arch_mbox_fetch_done (e : nat) (t0 : Z) (s : port) : option (port * (Z * Z)) :=
  '(k, (temp, ucErr)) ← OSQPend_done e (krn s);
  Some (set_krn k s, fetched t0 temp ucErr k).
End Messages.

(** ** Semaphores *)

(* @ LwIP/port/sys_arch.c:214-222 _sys_sem_new *)
Definition _sys_sem_new (count : Z) (s : port) : option (port * (option nat * Z)) :=
  '(k, sem) ← OSSemCreate (u16 count) (krn s);
  Some (set_krn k s, (sem, match sem with Some _ => ERR_OK | None => ERR_MEM end)).

(* @ LwIP/port/sys_arch.c:261-277 _sys_arch_sem_wait *)
Definition waited (t0 ucErr : Z) (k : kernel) : Z :=
  if ucErr =? OS_ERR_TIMEOUT then SYS_ARCH_TIMEOUT else sem_elapsed t0 (OSTimeGet k).
(* @ LwIP/port/sys_arch.c:240-278 _sys_arch_sem_wait *)
Definition _sys_arch_sem_wait (sem : nat) (timeout : Z) (s : port) : option (port * option Z) :=
  let t0 := OSTimeGet (krn s) in
  '(k, r) ← OSSemPend sem (sem_ticks timeout) (krn s);
  Some (set_krn k s, ucErr ← r; Some (waited t0 ucErr k)).
(* @ LwIP/port/sys_arch.c:259-278 _sys_arch_sem_wait *)
Definition _sys_arch_sem_wait_done (sem : nat) (t0 : Z) (s : port) : option (port * Z) :=
  '(k, ucErr) ← OSSemPend_done sem (krn s);
  Some (set_krn k s, waited t0 ucErr k).

(* @ LwIP/port/sys_arch.c:282-289 _sys_sem_signal *)
Definition _sys_sem_signal (sem : nat) (s : port) : option port :=
  '(k, _) ← OSSemPost sem (krn s); Some (set_krn k s).
(* @ LwIP/port/sys_arch.c:293-298 _sys_sem_free *)
Definition _sys_sem_free (sem : nat) (s : port) : option port :=
  '(k, _) ← OSSemDel sem 1 (krn s); Some (set_krn k s).

(** ** Threads *)

(** The priority of the new task, 0 when none was created; the result of [OSTaskCreate] is
    not looked at. *)
(* @ LwIP/port/sys_arch.c:325-350 _sys_thread_new *)
Definition _sys_thread_new (prio : Z) (s : port) : option (port * Z) :=
  if (0 <? prio) && (prio <=? LWIP_TASK_MAX) then
    let ubPrio := u8 (LWIP_START_PRIO + prio - 1) in
    '(k, _) ← OSTaskCreate ubPrio (krn s);
    Some (set_krn k s, ubPrio)
  else Some (s, 0).

(** ** Times *)

Lemma ticks_exact ms : 0 <= ms <= 42949672 → u32 (ms * OS_TICKS_PER_SEC) / 1000 = ms / 10.
Proof.
  intros H. unfold OS_TICKS_PER_SEC. rewrite u32_small by (unfold is_u32; lia).
  replace 1000 with (10 * 100) by lia. by rewrite Z.div_mul_cancel_r by lia.
Qed.
Lemma ucos_timeout_exact lim ms : 0 < ms <= 42949672 →
  ucos_timeout lim ms = if ms / 10 <? 1 then 1 else if lim <? ms / 10 then 65535 else ms / 10.
Proof.
  intros H. unfold ucos_timeout. destruct (Z.eqb_spec ms 0); [lia|]. cbn [negb].
  by rewrite ticks_exact by lia.
Qed.
Lemma ucos_timeout_short lim ms : 65535 <= lim → 0 < ms <= 655359 →
  u16 (ucos_timeout lim ms) = Z.max 1 (ms / 10).
Proof.
  intros Hl H. rewrite ucos_timeout_exact by lia.
  assert (0 <= ms / 10 < 65536) by (split; [apply Z.div_pos; lia|apply Z.div_lt_upper_bound; lia]).
  destruct (Z.ltb_spec (ms / 10) 1); [by rewrite Z.max_l by lia|]. rewrite Z.max_r by lia.
  destruct (Z.ltb_spec lim (ms / 10)); [lia|]. by rewrite u16_small by lia.
Qed.

(** C40: a wait of up to 655.359 seconds lasts the number of whole ticks in it, at least one;
    for a longer one (up to 42949 seconds) the mailbox waits the maximum of 65535 ticks, and so
    does the semaphore, except from 655.360 to 655.369 seconds, where the comparison with
    65536 lets a count through that the cast to 16 bits makes 0; beyond that the
    multiplication wraps and 42949.673 seconds become one tick. *)
Theorem wait_times_in_ticks ms : 0 < ms < 2 ^ 32 →
  (ms <= 655359 → mbox_ticks ms = Z.max 1 (ms / 10) ∧ sem_ticks ms = Z.max 1 (ms / 10)) ∧
  (655360 <= ms <= 42949672 → mbox_ticks ms = 65535 ∧
     sem_ticks ms = if ms <=? 655369 then 0 else 65535) ∧
  (ms = 42949673 → mbox_ticks ms = 1 ∧ sem_ticks ms = 1).
Proof.
  intros H. split; [|split].
  - intros Hs. split; apply ucos_timeout_short; lia.
  - intros Hs. unfold mbox_ticks, sem_ticks. rewrite !ucos_timeout_exact by lia.
    assert (65536 <= ms / 10) by (apply Z.div_le_lower_bound; lia).
    destruct (Z.ltb_spec (ms / 10) 1); [lia|].
    destruct (Z.ltb_spec 65535 (ms / 10)); [|lia]. split; [done|].
    destruct (Z.leb_spec ms 655369).
    + assert (ms / 10 = 65536) as -> by (symmetry; apply Z.div_unique with (ms - 655360); lia). done.
    + assert (65537 <= ms / 10) by (apply Z.div_le_lower_bound; lia).
      by destruct (Z.ltb_spec 65536 (ms / 10)); [|lia].
  - by intros ->.
Qed.
Lemma wait_times_in_ticks_witness : sem_ticks 655365 = 0 ∧ mbox_ticks 655365 = 65535.
Proof.
  destruct (wait_times_in_ticks 655365 ltac:(lia)) as (_ & H & _).
  destruct (H ltac:(lia)) as [H1 H2]. split; [exact H2|exact H1].
Defined.

Lemma sem_ticks_u32 ms : is_u32 (sem_ticks ms).
Proof. unfold sem_ticks, is_u32, u16. pose proof (Z.mod_pos_bound (ucos_timeout 65536 ms) (2 ^ 16)). lia. Qed.
Lemma mbox_ticks_u32 ms : is_u32 (mbox_ticks ms).
Proof. unfold mbox_ticks, is_u32, u16. pose proof (Z.mod_pos_bound (ucos_timeout 65535 ms) (2 ^ 16)). lia. Qed.

(** A wait on a semaphore that is not available. *)
Lemma sem_wait_blocks s sem ev ms : kinv (krn s) → OSRunning (krn s) = true → may_pend (krn s) →
  OSEventTbl (krn s) !! sem = Some ev → OSEventType ev = kind_type KSem → OSEventCnt ev = 0 →
  ∃ k' t, _sys_arch_sem_wait sem ms s = Some (set_krn k' s, None) ∧
    tcb_at k' (OSPrioCur (krn s)) = Some t ∧ in_pend t = Some (KSem, sem) ∧
    OSTCBDly t = sem_ticks ms ∧ ¬ runnable t ∧ kinv k' ∧ OSRunning k' = true.
Proof.
  intros H R M He T C.
  destruct (pend_waits (krn s) KSem sem ev (sem_ticks ms) H R M He T) as
    (k' & t & E & Ht & Hp & Hd & Hr & _ & _ & _ & Hk & Hru).
  { apply sem_ticks_u32. }
  { rewrite (contents_sem _ _ T), C. done. }
  exists k', t. split; [|done]. unfold _sys_arch_sem_wait. cbn in E.
  destruct (OSSemPend sem (sem_ticks ms) (krn s)) as [[k1 [r|]]|]; [done|by injection E as ->|done].
Qed.

(** A wait of 655.360 to 655.369 seconds on a semaphore that is not available has no
    timeout at all: the clock never ends the delay of the task. *)
Theorem long_sem_wait_has_no_timeout s sem ev ms n : reachable (krn s) →
  OSRunning (krn s) = true → may_pend (krn s) →
  OSEventTbl (krn s) !! sem = Some ev → OSEventType ev = kind_type KSem → OSEventCnt ev = 0 →
  655360 <= ms <= 655369 →
  ∃ s' t, _sys_arch_sem_wait sem ms s = Some (s', None) ∧
    tcb_at (krn s') (OSPrioCur (krn s)) = Some t ∧ ¬ runnable t ∧
    ∃ k', ticks n (krn s') = Some k' ∧ tcb_at k' (OSPrioCur (krn s)) = Some t.
Proof.
  intros Hr R M He T C Hms. pose proof (reachable_kinv _ Hr) as H.
  destruct (sem_wait_blocks s sem ev ms H R M He T C) as (k' & t & E & Ht & _ & Hd & Hn & [Hk _] & Hru).
  exists (set_krn k' s), t. split; [done|]. split; [done|]. split; [done|].
  apply ticks_undelayed; [done..|]. rewrite Hd. unfold sem_ticks. rewrite ucos_timeout_exact by lia.
  assert (ms / 10 = 65536) as -> by (symmetry; apply Z.div_unique with (ms - 655360); lia). done.
Qed.

(** ** Mailboxes as queues *)

Lemma from_to_queue p msg : msg ≠ p → from_queue p (to_queue p msg) = msg.
Proof.
  intros Hm. unfold from_queue, to_queue. destruct (Z.eqb_spec msg 0) as [->|].
  - by rewrite Z.eqb_refl.
  - by destruct (Z.eqb_spec msg p).
Qed.

(** No time passed: the strict comparison takes the branch of the wrap. *)
Lemma elapsed_none t : mbox_elapsed t t = 42949663.
Proof.
  unfold mbox_elapsed. rewrite Z.ltb_irrefl. replace (2 ^ 32 - 1 - t + t) with (2 ^ 32 - 1) by lia.
  done.
Qed.

Lemma same_sched_may_pend k k' : same_sched k k' → may_pend k → may_pend k'.
Proof.
  intros [E1 E2 E3 E4 _ _] (? & ? & ? & C). unfold may_pend, cur_call, tcb_at in *.
  by rewrite E1, E2, E3, E4.
Qed.

Lemma may_pend_caller k : may_pend k → caller_ok k.
Proof.
  intros (N & _ & I & C). right. split; [done|]. intros t Ht. unfold cur_call in C.
  by rewrite Ht in C.
Qed.

(** A mailbox: its queue and the messages in it. *)
Record mbox_holds (s : port) (mbox : Z) (e : nat) (ev : EVENT) (l : list Z) : Prop := {
  mh_inv : kinv (krn s); mh_running : OSRunning (krn s) = true;
  mh_queue : mbox_queue mbox s = Some e; mh_event : OSEventTbl (krn s) !! e = Some ev;
  mh_type : OSEventType ev = kind_type KQ; mh_contents : contents (krn s) ev = l }.

Lemma fetch_now p s mbox e ev m l timeout : mbox_holds s mbox e ev (m :: l) → may_pend (krn s) →
  ∃ s' ev', _sys_arch_mbox_fetch p mbox timeout s = Some (s', Some (from_queue p m, 42949663)) ∧
    mbox_holds s' mbox e ev' l ∧ same_sched (krn s) (krn s').
Proof.
  intros [H R Hq He T C] M. unfold _sys_arch_mbox_fetch. rewrite Hq. cbn [mbind option_bind].
  destruct (pend_full (krn s) KQ e ev (mbox_ticks timeout) m l H M He T C)
    as (k' & ev' & E & He' & T' & C' & S). cbn [pend] in E. rewrite E. cbn [mbind option_bind].
  unfold fetched. cbn [OS_ERR_NONE Z.eqb OS_ERR_TIMEOUT]. unfold OSTimeGet. rewrite (sm_time _ _ S).
  rewrite elapsed_none. exists (set_krn k' s), ev'. split; [done|]. split; [|done].
  split; cbn [krn set_krn mem]; try done.
  - destruct (OSQPend_ok (krn s) H R e (mbox_ticks timeout)) as (k1 & r1 & E1 & H1);
      [by apply may_pend_caller|by eapply lookup_lt_Some|apply mbox_ticks_u32|].
    by rewrite E in E1; injection E1 as <- _.
  - by rewrite (sm_running _ _ S).
  - by rewrite T'.
Qed.

(** [n] calls that need not wait. *)
Fixpoint fetch_n (p : Z) (n : nat) (mbox timeout : Z) (s : port) : option (port * list (Z * Z)) :=
  match n with
  | O => Some (s, [])
  | S n => '(s, r) ← _sys_arch_mbox_fetch p mbox timeout s;
           x ← r; '(s, xs) ← fetch_n p n mbox timeout s; Some (s, x :: xs)
  end.
Lemma fetch_n_spec p mbox timeout l : ∀ s e ev, mbox_holds s mbox e ev l → may_pend (krn s) →
  ∃ s' ev', fetch_n p (length l) mbox timeout s = Some (s', map (λ m, (from_queue p m, 42949663)) l) ∧
    mbox_holds s' mbox e ev' [].
Proof.
  induction l as [|m l IH]; intros s e ev H M; cbn [fetch_n length map]; [by exists s, ev|].
  destruct (fetch_now p s mbox e ev m l timeout H M) as (s1 & ev1 & -> & H1 & S).
  cbn [mbind option_bind].
  destruct (IH s1 e ev1 H1) as (s2 & ev2 & -> & H2); [by eapply same_sched_may_pend|].
  cbn [mbind option_bind]. by exists s2, ev2.
Qed.

Lemma trypost_stores p s mbox e ev l msg : mbox_holds s mbox e ev l →
  p_grp (OSEventWait ev) = 0 → ∃ s' ev',
    _sys_mbox_trypost p mbox msg s
    = Some (s', if Z.of_nat (length l) <? capacity (krn s) ev then ERR_OK else ERR_MEM) ∧
    mbox_holds s' mbox e ev'
      (if Z.of_nat (length l) <? capacity (krn s) ev then l ++ [to_queue p msg] else l) ∧
    same_sched (krn s) (krn s').
Proof.
  intros [H R Hq He T C] G. unfold _sys_mbox_trypost, mbox_send. rewrite Hq. cbn [mbind option_bind].
  destruct (post_stores (krn s) KQ e ev (to_queue p msg) H R He T G) as
    (k' & r & ev' & E & He' & T' & _ & S & Hr); [done|]. cbn [post] in E.
  destruct (q_post_ok (krn s) H R false e (to_queue p msg)) as (k1 & r1 & E1 & H1);
    [by eapply lookup_lt_Some|].
  unfold OSQPost in *. rewrite E in E1. injection E1 as <- _. rewrite E. cbn [mbind option_bind].
  exists (set_krn k' s), ev'. rewrite C in Hr. cbn [msg_of full_code] in Hr.
  assert (Hm : ∀ l', contents k' ev' = l' → mbox_holds (set_krn k' s) mbox e ev' l').
  { intros l' Hl'. split; cbn [krn set_krn mem]; try done; [by rewrite (sm_running _ _ S)|by rewrite T']. }
  destruct (_ <? _).
  - destruct Hr as [-> Hc]. split; [done|]. split; [by apply Hm|done].
  - destruct Hr as [-> ->]. split; [done|]. split; [|done]. apply Hm. by simplify_eq.
Qed.

(** C27: a mailbox is a first-in first-out queue of messages, null included: a message put
    into one that is not full comes out after the messages that were in it, as it was put in;
    a full one refuses it with an error and keeps its messages. *)
Theorem mailbox_is_fifo p s mbox e ev l msg timeout : reachable (krn s) →
  mbox_holds s mbox e ev (map (to_queue p) l) → may_pend (krn s) →
  (∀ t, waits_for (krn s) t e = false) → Forall (λ m, m ≠ p) (msg :: l) →
  if Z.of_nat (length l) <? capacity (krn s) ev
  then ∃ s' s'' times ev', _sys_mbox_trypost p mbox msg s = Some (s', ERR_OK) ∧
    fetch_n p (S (length l)) mbox timeout s' = Some (s'', zip (l ++ [msg]) times) ∧
    length times = S (length l) ∧ mbox_holds s'' mbox e ev' []
  else ∃ s' ev', _sys_mbox_trypost p mbox msg s = Some (s', ERR_MEM) ∧
    mbox_holds s' mbox e ev' (map (to_queue p) l).
Proof.
  intros Hr H M Hw Hp. pose proof (reachable_kinv _ Hr) as Hk.
  pose proof (proj1 (nobody_waits _ _ _ Hk (mh_event _ _ _ _ _ H)) Hw) as G.
  destruct (trypost_stores p s mbox e ev _ msg H G) as (s' & ev' & E & H' & S).
  rewrite length_map in E, H'. destruct (_ <? _); [|by exists s', ev'].
  destruct (fetch_n_spec p mbox timeout _ s' e ev' H') as (s'' & ev'' & E' & H'');
    [by eapply same_sched_may_pend|].
  exists s', s'', (replicate (Datatypes.S (length l)) 42949663), ev''. split; [done|].
  rewrite length_replicate. split; [|done].
  change [to_queue p msg] with (map (to_queue p) [msg]) in E'. rewrite <- map_app, length_map in E'.
  rewrite length_app, Nat.add_comm in E'. cbn [length Nat.add] in E'. rewrite E'. do 2 f_equal.
  assert (Hp' : Forall (λ m, m ≠ p) (l ++ [msg])).
  { apply Forall_cons in Hp as [? ?]. apply Forall_app. split; [done|by constructor]. }
  replace (Datatypes.S (length l)) with (length (l ++ [msg])) by (rewrite length_app; cbn; lia).
  clear -Hp'. induction Hp' as [|m l' Hm _ IH]; cbn; [done|]. by rewrite from_to_queue, IH.
Qed.

(** C38: a message that is already in the mailbox makes the next timer of the stack expire at
    once: the strict comparison reports 42949663 milliseconds of waiting for a wait that took
    none, so the time of the first timeout becomes 0, the mailbox is not asked again, and the
    next pass calls its handler, up to its whole period early. *)
Theorem waiting_message_fires_next_timer p s mbox e ev m l ts t rest again answer :
  mbox_holds s mbox e ev (m :: l) → may_pend (krn s) → timers_reach ts →
  next_timeout ts = t :: rest → 0 < t_time t →
  ∃ s' elapsed ts', fetch_time ts = Some (t_time t) ∧
    _sys_arch_mbox_fetch p mbox (t_time t) s = Some (s', Some (from_queue p m, elapsed)) ∧
    OSTimeGet (krn s') = OSTimeGet (krn s) ∧
    fetch_round elapsed again ts = (ts', None) ∧ fetch_time ts' = None ∧
    (fetch_round answer again ts').2 = Some (t_h t).
Proof.
  intros H M Ht E Hpos. destruct (fetch_now p s mbox e ev m l (t_time t) H M) as (s' & _ & Ef & _ & S).
  destruct (reach_armed ts Ht) as (f & hs & Ha & _).
  assert (Hft : fetch_time ts = Some (t_time t)).
  { unfold fetch_time. rewrite E. by destruct (Z.ltb_spec 0 (t_time t)); [|lia]. }
  assert (Hlim : t_time t <= 60000).
  { destruct (expire _ _ _ _ _ Ha E) as (hs' & Hp & Hf & _).
    assert (t_h t ∈ hs) as Hin by (rewrite Hp; by constructor).
    pose proof (ar_range _ _ _ Ha _ Hin). assert (interval (t_h t) <= 60000) by (by destruct (t_h t)). lia. }
  exists s', 42949663, (MkT (set_time 0 t :: rest) (pool ts) (tcpip_tcp_timer_active ts)).
  split; [done|]. split; [done|]. split; [apply S|]. unfold fetch_round at 1. rewrite E, Hft.
  cbn [SYS_ARCH_TIMEOUT]. split.
  - change (42949663 =? SYS_ARCH_TIMEOUT) with false. cbn iota zeta.
    by destruct (Z.ltb_spec 42949663 (t_time t)); [lia|].
  - split; [done|]. by destruct t.
Qed.

(** ** Creating and freeing *)

Lemma word_ev_word e : word_ev (ev_word (Some e)) = Some e.
Proof.
  unfold word_ev, ev_word. destruct (Z.ltb_spec 0 (Z.of_nat e + 1)); [|lia]. f_equal. lia.
Qed.
Lemma filter_held b (held : list Z) : b ∉ held → filter (λ x, x ≠ b) (b :: held) = held.
Proof.
  intros Hb. rewrite filter_cons_False by (by intros []). induction held as [|x l IH]; [done|].
  apply not_elem_of_cons in Hb as [? Hb]. rewrite filter_cons_True by done. by rewrite IH.
Qed.

(** A queue that was just created. *)
Definition fresh_queue (k : kernel) (e : nat) (size : Z) (k' : kernel) : Prop :=
  ∃ q pq l lq, OSEventFreeList k = e :: l ∧ OSQFreeList k = q :: lq ∧ OSEventFreeList k' = l ∧
    OSQFreeList k' = lq ∧ OSEventTbl k' !! e = Some (MkEVENT (kind_type KQ) 0 (EvQ q) p_empty) ∧
    OSQTbl k' !! q = Some pq ∧ OSQSize pq = size ∧ OSQEntries pq = 0 ∧ OSIntNesting k' = 0.

Lemma create_queue k buf size : kinv k → 0 <= size < 2 ^ 16 → Z.of_nat (length buf) = size →
  ∃ k' r, OSQCreate buf size k = Some (k', r) ∧ kinv k' ∧
    match r with
    | Some e => fresh_queue k e size k'
    | None => OSEventFreeList k' = OSEventFreeList k ∧ OSQFreeList k' = OSQFreeList k
    end.
Proof.
  intros H Hs Hl. destruct (OSQCreate_ok buf size k H Hs Hl) as (k' & r & E & H').
  exists k', r. split; [done|]. split; [done|]. pose proof H as [(_ & _ & He) Hsch].
  revert E. unfold OSQCreate, get_event. destruct (Z.ltb_spec 0 (OSIntNesting k)) as [N|N].
  { by intros [= <- <-]. }
  destruct (OSEventFreeList k) as [|e l] eqn:El; [intros [= <- <-]; by rewrite El|].
  cbn [OSQFreeList set_evfree]. destruct (OSQFreeList k) as [|q lq] eqn:Eq; intros [= <- <-].
  - cbn [OSEventFreeList OSQFreeList set_evfree]. by rewrite Eq.
  - assert (e ∈ e :: l) as Hin by constructor.
    destruct (es_free _ _ _ _ He e Hin) as (ev & Hev & _).
    assert (q ∈ q :: lq) as Hq%(es_qfree _ _ _ _ He) by constructor.
    exists q, (MkQ 0 0 size 0 buf), l, lq.
    split; [done|]. split; [done|]. split; [done|]. split; [done|]. cbn [OSEventTbl OSQTbl OSIntNesting
      put_event put_queue set_events set_qs set_qfree set_evfree].
    split; [apply list_lookup_insert_eq; by eapply lookup_lt_Some|].
    split; [by apply list_lookup_insert_eq|]. split; [done|]. split; [done|].
    unfold sched_ok, sched_pre in Hsch. destruct (OSRunning k); lia.
Qed.

(** Deleting a queue nobody waits for gives back what the creation took. *)
Lemma delete_fresh k e size k' : fresh_queue k e size k' →
  ∃ k1 k2 r, OSQFlush e k' = Some (k1, OS_ERR_NONE) ∧ OSQDel e 0 k1 = Some (k2, (r, OS_ERR_NONE)) ∧
    OSEventFreeList k2 = OSEventFreeList k ∧ OSQFreeList k2 = OSQFreeList k.
Proof.
  intros (q & pq & l & lq & El & Eq & El' & Eq' & He & Hq & _ & _ & N).
  unfold OSQFlush. rewrite He. cbn [mbind option_bind queue_of OSEventPtr]. rewrite Hq.
  cbn [mbind option_bind]. eexists _, _, None. split; [done|].
  unfold OSQDel. cbn [OSEventTbl put_queue set_qs OSIntNesting]. rewrite He, N.
  cbn [mbind option_bind OSEventType kind_type Z.eqb Pos.eqb negb Z.ltb Z.compare].
  unfold del_event, release. cbn [OSEventTbl put_queue set_qs]. rewrite He.
  cbn [mbind option_bind OSEventWait p_empty p_grp Z.eqb negb free_queue OSEventPtr].
  split; [done|]. cbn. by rewrite El, Eq, El', Eq'.
Qed.

Lemma length_entries b size m : 0 <= size → Z.of_nat (length (entries b size m)) = size.
Proof. intros. unfold entries. rewrite length_map, length_seqZ. lia. Qed.

(** Creating a mailbox either takes one block, one event and one queue, all free before,
    and gives an empty mailbox of the size asked for but at most 20, which [_sys_mbox_free]
    gives back completely; or it fails with an error and takes nothing. *)
Theorem mbox_new_all_or_nothing size s i fl held : reachable (krn s) →
  pQueueMem s = Some i → part_ok (mem s) i fl held → 0 <= size < 2 ^ 31 →
  ∃ s' mbox r, _sys_mbox_new size s = Some (s', (mbox, r)) ∧ pQueueMem s' = Some i ∧
  (r = ERR_OK ∧
     (∃ e ev fl', fl = mbox :: fl' ∧ part_ok (mem s') i fl' (mbox :: held) ∧
        mbox_queue mbox s' = Some e ∧ head (OSEventFreeList (krn s)) = Some e ∧
        OSEventTbl (krn s') !! e = Some ev ∧ OSEventType ev = kind_type KQ ∧
        contents (krn s') ev = [] ∧ capacity (krn s') ev = Z.min size MAX_QUEUE_ENTRIES) ∧
     (∃ s'', _sys_mbox_free mbox s' = Some s'' ∧ part_ok (mem s'') i fl held ∧
        OSEventFreeList (krn s'') = OSEventFreeList (krn s) ∧
        OSQFreeList (krn s'') = OSQFreeList (krn s)) ∨
   r = ERR_MEM ∧ mbox = 0 ∧ part_ok (mem s') i fl held ∧
     OSEventFreeList (krn s') = OSEventFreeList (krn s) ∧ OSQFreeList (krn s') = OSQFreeList (krn s)).
Proof.
  intros Hr Hi H Hs. pose proof (reachable_kinv _ Hr) as Hk. unfold _sys_mbox_new. rewrite Hi.
  cbn [mbind option_bind]. pose proof (get_spec (mem s) i fl held H) as Hg.
  destruct fl as [|b fl']; [rewrite Hg|destruct Hg as (m & -> & Hm)]; cbn [mbind option_bind].
  { change (OS_ERR_MEM_NO_FREE_BLKS =? Kernel.OS_ERR_NONE) with false. cbn iota.
    eexists _, _, _. split; [done|]. split; [done|]. right. done. }
  change (OsMem.OS_ERR_NONE =? Kernel.OS_ERR_NONE) with true. cbn iota zeta.
  set (sz := u16 (if MAX_QUEUE_ENTRIES <? size then MAX_QUEUE_ENTRIES else size)).
  assert (Hsz : sz = Z.min size MAX_QUEUE_ENTRIES).
  { unfold sz, MAX_QUEUE_ENTRIES. destruct (Z.ltb_spec 20 size); rewrite u16_small by lia; lia. }
  assert (Hsz' : 0 <= sz < 2 ^ 16) by (unfold MAX_QUEUE_ENTRIES in Hsz; lia).
  assert (Hb : b ∉ held).
  { pose proof (po_nodup _ _ _ _ H) as Hn. cbn in Hn. apply NoDup_cons in Hn as [Hn _].
    intros ?. apply Hn. apply elem_of_app. by right. }
  destruct (create_queue (krn s) (entries b sz m) sz Hk Hsz') as (k & pQ & -> & _ & Hq);
    [apply length_entries; lia|]. cbn [mbind option_bind].
  assert (Hw : part_ok (store_word b (ev_word pQ) m) i fl' (b :: held)) by (apply write_spec; [done|by constructor]).
  destruct (put_spec _ i fl' (b :: held) b Hw) as (m' & Ep & Hm'); [by constructor|].
  rewrite filter_held in Hm' by done.
  destruct pQ as [e|]; [|rewrite Ep; cbn [mbind option_bind]].
  - eexists _, _, _. split; [done|]. split; [done|]. left. split; [done|].
    assert (Hmq : mbox_queue b (MkPort k (store_word b (ev_word (Some e)) m) (Some i)) = Some e).
    { unfold mbox_queue. cbn [mem words store_word]. rewrite lookup_insert_eq. cbn [mbind option_bind].
      apply word_ev_word. }
    pose proof Hq as (q & pq & l & lq & El & Eq & El' & Eq' & He & Hqq & Hqs & Hqe & N).
    split.
    + exists e, (MkEVENT (kind_type KQ) 0 (EvQ q) p_empty), fl'.
      split; [done|]. split; [done|]. split; [done|]. split; [by rewrite El|]. split; [done|]. split; [done|].
      split; [rewrite (contents_q _ _ q pq) by done; by apply q_list_nil|].
      unfold capacity. cbn. rewrite Hqq. lia.
    + destruct (delete_fresh _ _ _ _ Hq) as (k1 & k2 & r & E1 & E2 & F1 & F2).
      unfold _sys_mbox_free. cbn [pQueueMem mbind option_bind]. rewrite Hmq. cbn [mbind option_bind krn].
      rewrite E1. cbn [mbind option_bind]. rewrite E2. cbn [mbind option_bind mem]. rewrite Ep.
      cbn [mbind option_bind]. eexists. split; [done|]. done.
  - eexists _, _, _. split; [done|]. split; [done|]. right. done.
Qed.

(** ** An instance: the system of [KSpec] with a mailbox at address 1000 *)

Definition queue_ev : EVENT := MkEVENT (kind_type KQ) 0 (EvQ 0) p_empty.
Definition with_mbox (k : kernel) : port := MkPort k (MkMState [] [] {[1000 := 2]}) None.
Lemma krn_with_mbox k : krn (with_mbox k) = k.
Proof. reflexivity. Qed.
Notation demo_port := (with_mbox sys_run).
Lemma sys_run_queue : OSEventTbl sys_run !! 1%nat = Some queue_ev.
Proof. vm_compute. reflexivity. Qed.
Lemma demo_holds : mbox_holds demo_port 1000 1 queue_ev [].
Proof.
  split; rewrite ?krn_with_mbox.
  - exact (reachable_kinv _ sys_run_reachable).
  - by vm_compute.
  - by vm_compute.
  - exact sys_run_queue.
  - done.
  - by vm_compute.
Qed.
Lemma demo_nobody t : waits_for sys_run t 1 = false.
Proof. rewrite (waits_for_eq _ _ _ _ sys_run_queue). apply p_mem_empty. Qed.
Lemma sys_run_running : OSRunning sys_run = true.
Proof. by vm_compute. Qed.
Lemma sys_run_room : Z.of_nat (length (@nil Z)) <? capacity sys_run queue_ev = true.
Proof. by vm_compute. Qed.

Lemma long_sem_wait_has_no_timeout_witness : ∃ s' t, _sys_arch_sem_wait 0 655365 demo_port = Some (s', None) ∧
  tcb_at (krn s') (OSPrioCur (krn demo_port)) = Some t ∧ ¬ runnable t ∧
  ∃ k', ticks 100 (krn s') = Some k' ∧ tcb_at k' (OSPrioCur (krn demo_port)) = Some t.
Proof.
  apply (long_sem_wait_has_no_timeout demo_port 0 sem_ev 655365 100); rewrite ?krn_with_mbox.
  - exact sys_run_reachable.
  - exact sys_run_running.
  - exact sys_run_may_pend.
  - exact sys_run_sem.
  - reflexivity.
  - reflexivity.
  - lia.
Defined.
Lemma mailbox_is_fifo_witness : ∃ s' s'' times ev', _sys_mbox_trypost 77 1000 0 demo_port = Some (s', ERR_OK) ∧
  fetch_n 77 1 1000 0 s' = Some (s'', zip [0] times) ∧ length times = 1%nat ∧
  mbox_holds s'' 1000 1 ev' [].
Proof.
  pose proof (mailbox_is_fifo 77 demo_port 1000 1 queue_ev [] 0 0) as H.
  rewrite !krn_with_mbox, sys_run_room in H.
  apply H; [exact sys_run_reachable|exact demo_holds|exact sys_run_may_pend|exact demo_nobody|].
  repeat constructor. lia.
Defined.
Lemma waiting_message_fires_next_timer_witness : ∃ s s' elapsed ts', OSTimeGet (krn s') = OSTimeGet (krn s) ∧
  _sys_arch_mbox_fetch 77 1000 500 s = Some (s', Some (9, elapsed)) ∧
  fetch_round elapsed false timers_boot = (ts', None) ∧ fetch_time ts' = None ∧
  (fetch_round 0 false ts').2 = Some DhcpFine.
Proof.
  destruct (trypost_stores 77 demo_port 1000 1 queue_ev [] 9 demo_holds eq_refl) as (s & ev & _ & H & S).
  rewrite !krn_with_mbox, sys_run_room in H. rewrite krn_with_mbox in S.
  cbn [app] in H. change (to_queue 77 9) with 9 in H.
  destruct (waiting_message_fires_next_timer 77 s 1000 1 ev 9 [] timers_boot _ _ false 0 H
    (same_sched_may_pend _ _ S sys_run_may_pend) tr_boot boot_list ltac:(cbn; lia))
    as (s' & elapsed & ts' & _ & E & Ht & Ef & Efn & Efh).
  exists s, s', elapsed, ts'. split; [exact Ht|]. split; [exact E|]. split; [exact Ef|].
  split; [exact Efn|exact Efh].
Defined.

(** The port after [_sys_init]. *)
Definition init_port (k : kernel) : port := _sys_init 4096 (MkPort k (OS_MemInit ∅) None).
Lemma init_port_part k : krn (init_port k) = k ∧ pQueueMem (init_port k) = Some 0%nat ∧
  part_ok (mem (init_port k)) 0 (blocks 4096 84 10) [].
Proof.
  destruct (create_spec 4096 10 84 (OS_MemInit ∅) 0 [1;2;3;4]%nat) as (m & E & H & _);
    [done|cbn; lia|lia|lia|lia|].
  assert (Ei : init_port k = MkPort k m (Some 0%nat)).
  { unfold init_port, _sys_init. change (Z.land (u32 (4096 + 3)) (Z.lnot 3)) with 4096.
    change TQ_SIZE with 84. change MAX_QUEUES with 10. cbn [mem]. by rewrite E. }
  rewrite Ei. split; [done|]. split; [done|exact H].
Qed.
Lemma mbox_new_all_or_nothing_witness : ∃ s' mbox r,
  _sys_mbox_new 6 (init_port sys_run) = Some (s', (mbox, r)) ∧ (r = ERR_OK ∨ r = ERR_MEM).
Proof.
  destruct (init_port_part sys_run) as (Hk & Hi & Hp).
  pose proof sys_run_reachable as Hr. rewrite <- Hk in Hr.
  destruct (mbox_new_all_or_nothing 6 (init_port sys_run) 0 _ [] Hr Hi Hp ltac:(lia))
    as (s' & mbox & r & E & _ & [[Hr' _]|[Hr' _]]);
  exists s', mbox, r; (split; [exact E|]); [left; exact Hr'|right; exact Hr'].
Defined.
