(* ===== verification/RingBuffer.v ===== *)
(** Byte ring buffer of the serial ports: [App/NuAgent/Lib/ring_buffer.c].

    [ring_buffer_t] keeps the C struct's fields; the buffer is the memory block
    of [size] bytes behind [buffer] (the empty list is the NULL pointer of a
    failed allocation).  The loops of [ring_buf_write] and [ring_buf_read] carry
    fuel; they run at most [count] productive rounds, so [count + 1] is enough. *)
From S2P Require Import Prelude.

(* @ App/NuAgent/Lib/ring_buffer.h:28-34 ring_buffer_t *)
Record ring_buffer_t := RingBuf {
  rb_size : Z; rb_head : Z; rb_tail : Z; rb_buffer : list Z }.

Definition with_head (h : Z) (r : ring_buffer_t) : ring_buffer_t :=
  RingBuf (rb_size r) h (rb_tail r) (rb_buffer r).
Definition with_tail (t : Z) (r : ring_buffer_t) : ring_buffer_t :=
  RingBuf (rb_size r) (rb_head r) t (rb_buffer r).
Definition with_buffer (b : list Z) (r : ring_buffer_t) : ring_buffer_t :=
  RingBuf (rb_size r) (rb_head r) (rb_tail r) b.

(* @ App/NuAgent/Lib/ring_buffer.c:35-38 ring_buf_clear *)
Definition ring_buf_clear (ring : ring_buffer_t) : ring_buffer_t :=
  with_tail 0 (with_head 0 ring).
(* @ App/NuAgent/Lib/ring_buffer.c:48-51 ring_buf_empty *)
Definition ring_buf_empty (ring : ring_buffer_t) : bool := rb_tail ring =? rb_head ring.
(* @ App/NuAgent/Lib/ring_buffer.c:61-64 ring_buf_full *)
Definition ring_buf_full (ring : ring_buffer_t) : bool :=
  u32 (rb_tail ring + 1) mod rb_size ring =? rb_head ring.

(* @ App/NuAgent/Lib/ring_buffer.c:73-80 ring_buf_cnt *)
Definition ring_buf_cnt (ring : ring_buffer_t) : Z :=
  if rb_head ring <=? rb_tail ring
  then i32 (u32 (rb_tail ring - rb_head ring))
  else i32 (u32 (u32 (rb_size ring + rb_tail ring) - rb_head ring)).
(* @ App/NuAgent/Lib/ring_buffer.c:90-97 ring_buf_space *)
Definition ring_buf_space (ring : ring_buffer_t) : Z :=
  if rb_tail ring <? rb_head ring
  then i32 (u32 (u32 (rb_head ring - rb_tail ring) - 1))
  else i32 (u32 (u32 (u32 (rb_size ring - 1) + rb_head ring) - rb_tail ring)).
(* @ App/NuAgent/Lib/ring_buffer.c:108-115 ring_buf_cnt_to_end *)
Definition ring_buf_cnt_to_end (ring : ring_buffer_t) : Z :=
  if rb_head ring <=? rb_tail ring
  then i32 (u32 (rb_tail ring - rb_head ring))
  else i32 (u32 (rb_size ring - rb_head ring)).
(* @ App/NuAgent/Lib/ring_buffer.c:125-132 ring_buf_space_to_end *)
Definition ring_buf_space_to_end (ring : ring_buffer_t) : Z :=
  if rb_tail ring <? rb_head ring
  then i32 (u32 (u32 (rb_head ring - rb_tail ring) - 1))
  else i32 (u32 (u32 (u32 (rb_size ring - 1) - rb_tail ring)
                 + (if 0 <? rb_head ring then 1 else 0))).

(** [x += c; if (x >= size) x -= size;] on an unsigned index. *)
(* @ App/NuAgent/Lib/ring_buffer.c:182-184 ring_buf_write *)
Definition advance (size x c : Z) : Z :=
  let x' := u32 (x + c) in if size <=? x' then u32 (x' - size) else x'.

(* @ App/NuAgent/Lib/ring_buffer.c:143-156 ring_buf_write_char *)
Definition ring_buf_write_char (cb : ring_buffer_t) (data : Z) : option (ring_buffer_t * Z) :=
  if ring_buf_full cb then Some (cb, 0) else
  b ← memcpy_to (rb_tail cb) [u8 data] (rb_buffer cb);
  Some (with_tail (advance (rb_size cb) (rb_tail cb) 1) (with_buffer b cb), 1).

(* @ App/NuAgent/Lib/ring_buffer.c:172-190 ring_buf_write *)
Fixpoint ring_buf_write_loop (fuel : nat) (cb : ring_buffer_t) (buf : list Z)
    (count ret : Z) : option (ring_buffer_t * Z) :=
  match fuel with
  | O => None
  | S fuel =>
    let c := ring_buf_space_to_end cb in
    let c := if count <? c then count else c in
    if c <=? 0 then Some (cb, ret) else
    xs ← memcpy_from 0 c buf;
    b ← memcpy_to (rb_tail cb) xs (rb_buffer cb);
    ring_buf_write_loop fuel
      (with_tail (advance (rb_size cb) (rb_tail cb) c) (with_buffer b cb))
      (drop (Z.to_nat c) buf) (count - c) (ret + c)
  end.
(* @ App/NuAgent/Lib/ring_buffer.c:168-191 ring_buf_write *)
Definition ring_buf_write (cb : ring_buffer_t) (buf : list Z) (count : Z)
    : option (ring_buffer_t * Z) :=
  ring_buf_write_loop (S (Z.to_nat count)) cb buf count 0.

(** [out] collects the bytes stored through the advancing [buf] pointer. *)
(* @ App/NuAgent/Lib/ring_buffer.c:208-227 ring_buf_read *)
Fixpoint ring_buf_read_loop (fuel : nat) (cb : ring_buffer_t) (out : list Z)
    (count ret : Z) : option (ring_buffer_t * list Z * Z) :=
  match fuel with
  | O => None
  | S fuel =>
    let c := ring_buf_cnt_to_end cb in
    let c := if count <? c then count else c in
    if c <=? 0 then Some (cb, out, ret) else
    xs ← memcpy_from (rb_head cb) c (rb_buffer cb);
    ring_buf_read_loop fuel
      (with_head (advance (rb_size cb) (rb_head cb) c) cb)
      (out ++ xs) (count - c) (ret + c)
  end.
(* @ App/NuAgent/Lib/ring_buffer.c:204-228 ring_buf_read *)
Definition ring_buf_read (cb : ring_buffer_t) (count : Z)
    : option (ring_buffer_t * list Z * Z) :=
  ring_buf_read_loop (S (Z.to_nat count)) cb [] count 0.

(** [mem] is what [OSMMalloc(data_len)] returned; the code does not test it. *)
(* @ App/NuAgent/Lib/ring_buffer.c:237-243 ring_buf_alloc *)
Definition ring_buf_alloc (mem : option (list Z)) (data_len : Z) : ring_buffer_t * Z :=
  (RingBuf data_len 0 0 (default [] mem), 0).

(** [ring_buf_free] hands the descriptor itself, not its [buffer], to the
    allocator and then clears the indices; [freed] is the pointer freed. *)
(* @ App/NuAgent/Lib/ring_buffer.c:252-256 ring_buf_free *)
Definition ring_buf_free (ring_ptr : Z) (ring : ring_buffer_t) : Z * ring_buffer_t :=
  let freed := ring_ptr in (freed, ring_buf_clear ring).

(** ** Abstract view: a bounded FIFO *)

(** The bytes written and not yet read, oldest first. *)
Definition contents (r : ring_buffer_t) : list Z :=
  let h := Z.to_nat (rb_head r) in
  let t := Z.to_nat (rb_tail r) in
  if rb_head r <=? rb_tail r then slice h (t - h) (rb_buffer r)
  else drop h (rb_buffer r) ++ take t (rb_buffer r).

Definition ring_wf (r : ring_buffer_t) : Prop :=
  0 < rb_size r < 2 ^ 31 ∧ 0 <= rb_head r < rb_size r ∧ 0 <= rb_tail r < rb_size r
  ∧ Z.of_nat (length (rb_buffer r)) = rb_size r ∧ bytes_ok (rb_buffer r).

(** What one byte queue promises to the drivers that use it. *)
Class ByteFifo (Q : Type) := {
  fifo_wf : Q → Prop;
  fifo_items : Q → list Z;
  fifo_room : Q → Z;
  fifo_push : Q → Z → option (Q * Z);
  fifo_pop : Q → Z → option (Q * list Z * Z);
  fifo_is_empty : Q → bool;
  fifo_count : Q → Z;
  fifo_push_ok q x : fifo_wf q → 0 < fifo_room q →
    ∃ q', fifo_push q x = Some (q', 1) ∧ fifo_wf q'
          ∧ fifo_items q' = fifo_items q ++ [u8 x] ∧ fifo_room q' = fifo_room q - 1;
  fifo_push_full q x : fifo_wf q → fifo_room q <= 0 → fifo_push q x = Some (q, 0);
  fifo_pop_ok q n : fifo_wf q → 0 <= n →
    let k := Z.min n (Z.of_nat (length (fifo_items q))) in
    ∃ q', fifo_pop q n = Some (q', take (Z.to_nat k) (fifo_items q), k) ∧ fifo_wf q'
          ∧ fifo_items q' = drop (Z.to_nat k) (fifo_items q)
          ∧ fifo_room q' = fifo_room q + k;
  fifo_empty_spec q : fifo_wf q → fifo_is_empty q = bool_decide (fifo_items q = []);
  fifo_count_spec q : fifo_wf q → fifo_count q = Z.of_nat (length (fifo_items q));
  fifo_bytes q : fifo_wf q → bytes_ok (fifo_items q);
  fifo_room_nonneg q : fifo_wf q → 0 <= fifo_room q }.

(** ** Counting functions *)

Ltac ring_unfold :=
  unfold ring_wf, ring_buf_cnt, ring_buf_space, ring_buf_cnt_to_end,
    ring_buf_space_to_end, advance, u32, i32 in *;
  destruct_and?; cbn [rb_size rb_head rb_tail rb_buffer with_head with_tail with_buffer] in *.
Ltac ring_arith := ring_unfold; repeat split_guard; small_int; try lia.

Lemma length_contents r : ring_wf r →
  Z.of_nat (length (contents r)) =
    if rb_head r <=? rb_tail r then rb_tail r - rb_head r
    else rb_size r + rb_tail r - rb_head r.
Proof.
  intros. unfold ring_wf, contents, slice in *. destruct_and!.
  split_guard; [|rewrite length_app]; rewrite ?length_take, ?length_drop; lia.
Qed.

Lemma cnt_spec r : ring_wf r → ring_buf_cnt r = Z.of_nat (length (contents r)).
Proof. intros H. rewrite (length_contents r H). ring_arith. Qed.

Lemma space_spec r : ring_wf r →
  ring_buf_space r = rb_size r - 1 - Z.of_nat (length (contents r)).
Proof. intros H. rewrite (length_contents r H). ring_arith. Qed.

Lemma space_to_end_bounds r : ring_wf r →
  0 <= ring_buf_space_to_end r <= ring_buf_space r
  ∧ (ring_buf_space_to_end r = 0 → ring_buf_space r = 0)
  ∧ rb_tail r + ring_buf_space_to_end r <= rb_size r.
Proof. intros H. split_ands; ring_arith. Qed.

Lemma cnt_to_end_bounds r : ring_wf r →
  0 <= ring_buf_cnt_to_end r <= ring_buf_cnt r
  ∧ (ring_buf_cnt_to_end r = 0 → ring_buf_cnt r = 0)
  ∧ rb_head r + ring_buf_cnt_to_end r <= rb_size r.
Proof. intros H. split_ands; ring_arith. Qed.

Lemma full_spec r : ring_wf r →
  ring_buf_full r = (ring_buf_space r =? 0).
Proof.
  intros H. unfold ring_buf_full. ring_unfold. small_int.
  apply eq_true_iff_eq. rewrite !Z.eqb_eq.
  destruct (Z.eq_dec (rb_tail r + 1) (rb_size r)) as [E|E].
  - rewrite E, Z.mod_same by lia. split_guard; small_int; lia.
  - rewrite (Z.mod_small (rb_tail r + 1)) by lia. split_guard; small_int; lia.
Qed.

Lemma advance_bounds s x c : 0 < s < 2 ^ 31 → 0 <= x < s → 0 <= c → x + c <= s →
  0 <= advance s x c < s.
Proof. intros. unfold advance, u32. small_int. split_guard; small_int; lia. Qed.

(** ** One chunk written at the tail, one chunk read at the head *)

Lemma push_chunk r xs : ring_wf r → bytes_ok xs →
  0 < Z.of_nat (length xs) <= ring_buf_space_to_end r →
  let c := Z.of_nat (length xs) in
  ∃ b, memcpy_to (rb_tail r) xs (rb_buffer r) = Some b
  ∧ let r' := with_tail (advance (rb_size r) (rb_tail r) c) (with_buffer b r) in
    ring_wf r' ∧ contents r' = contents r ++ xs.
Proof.
  intros H Hxs Hc c. pose proof (space_to_end_bounds r H) as (_ & _ & Hend).
  pose proof H as (Hs & Hh & Ht & Hl & Hb).
  rewrite memcpy_to_Some by lia. eexists; split; [done|]. cbv zeta.
  split.
  { unfold ring_wf. cbn. rewrite length_store_at by lia.
    pose proof (advance_bounds (rb_size r) (rb_tail r) c).
    split_ands; eauto with buf; lia. }
  unfold contents; cbn. subst c.
  set (h := Z.to_nat (rb_head r)) in *. set (t := Z.to_nat (rb_tail r)) in *.
  set (b := rb_buffer r) in *. set (n := length xs) in *.
  destruct (Z.leb_spec (rb_head r) (rb_tail r)) as [Hle|Hlt].
  - (* one segment *)
    assert (Htk : slice h (t - h) b = drop h (take t b)).
    { unfold slice. by rewrite skipn_firstn_comm. }
    assert (Hpre : drop h (take (t + n) (store_at t xs b)) = slice h (t - h) b ++ xs).
    { rewrite Htk. unfold store_at.
      rewrite app_assoc, take_app_length' by (rewrite length_app, length_take; lia).
      rewrite drop_app_le; [done|rewrite length_take; lia]. }
    destruct (Z.eq_dec (rb_tail r + Z.of_nat n) (rb_size r)) as [Heq|Hne].
    + replace (advance _ _ _) with 0.
      2:{ unfold advance, u32. rewrite (Z.mod_small (_ + _)) by lia.
          split_guard; [|lia]. rewrite Z.mod_small; lia. }
      destruct (Z.leb_spec (rb_head r) 0).
      { exfalso. revert Hc. ring_unfold. repeat split_guard; small_int; lia. }
      change (Z.to_nat 0) with 0%nat. rewrite take_0, app_nil_r, <- Hpre.
      f_equal. rewrite take_ge; [done|]. rewrite length_store_at; lia.
    + replace (advance _ _ _) with (rb_tail r + Z.of_nat n).
      2:{ unfold advance, u32. rewrite (Z.mod_small (_ + _)) by lia. split_guard; lia. }
      split_guard; [|lia]. rewrite <- Hpre.
      unfold slice. rewrite skipn_firstn_comm. do 2 f_equal. lia.
  - (* the data wraps; the chunk goes before the head *)
    assert (Hroom : rb_tail r + Z.of_nat n < rb_head r).
    { revert Hc. ring_unfold. repeat split_guard; small_int; lia. }
    replace (advance _ _ _) with (rb_tail r + Z.of_nat n).
    2:{ unfold advance, u32. rewrite (Z.mod_small (_ + _)) by lia. split_guard; lia. }
    split_guard; [lia|].
    replace (Z.to_nat (rb_tail r + Z.of_nat n)) with (t + n)%nat by lia.
    rewrite <- app_assoc. f_equal.
    + unfold store_at. rewrite app_assoc, drop_app_ge by (rewrite length_app, length_take; lia).
      rewrite drop_drop, length_app, length_take. f_equal. lia.
    + unfold store_at. rewrite app_assoc, take_app_length'; [done|].
      rewrite length_app, length_take. lia.
Qed.

Lemma pop_chunk r c : ring_wf r → 0 < c <= ring_buf_cnt_to_end r →
  let r' := with_head (advance (rb_size r) (rb_head r) c) r in
  ∃ xs, memcpy_from (rb_head r) c (rb_buffer r) = Some xs
  ∧ Z.of_nat (length xs) = c ∧ ring_wf r' ∧ contents r = xs ++ contents r'.
Proof.
  intros H Hc r'. pose proof (cnt_to_end_bounds r H) as (_ & _ & Hend).
  pose proof H as (Hs & Hh & Ht & Hl & Hb).
  rewrite memcpy_from_Some by lia. eexists; split; [done|].
  rewrite length_slice by lia.
  pose proof (advance_bounds (rb_size r) (rb_head r) c).
  split; [lia|]. split. { unfold ring_wf; cbn. split_ands; auto; lia. }
  unfold contents; subst r'; cbn.
  set (h := Z.to_nat (rb_head r)) in *. set (t := Z.to_nat (rb_tail r)) in *.
  set (b := rb_buffer r) in *.
  assert (Hsplit : ∀ n, drop h b = slice h n b ++ drop (h + n) b).
  { intros n. unfold slice. rewrite <- drop_drop. by rewrite take_drop. }
  destruct (Z.leb_spec (rb_head r) (rb_tail r)) as [Hle|Hlt].
  - assert (Hct : rb_head r + c <= rb_tail r).
    { revert Hc. ring_unfold. repeat split_guard; small_int; lia. }
    replace (advance _ _ _) with (rb_head r + c).
    2:{ unfold advance, u32. rewrite (Z.mod_small (_ + _)) by lia. split_guard; lia. }
    split_guard; [|lia]. unfold slice.
    replace (Z.to_nat (rb_head r + c)) with (h + Z.to_nat c)%nat by lia.
    rewrite <- drop_drop.
    replace (t - h)%nat with (Z.to_nat c + (t - (h + Z.to_nat c)))%nat by lia.
    by rewrite take_take_drop.
  - destruct (Z.eq_dec (rb_head r + c) (rb_size r)) as [Heq|Hne].
    + replace (advance _ _ _) with 0.
      2:{ unfold advance, u32. rewrite (Z.mod_small (_ + _)) by lia.
          split_guard; [|lia]. rewrite Z.mod_small; lia. }
      split_guard; [|lia]. rewrite (Hsplit (Z.to_nat c)).
      rewrite (drop_ge b) by lia. rewrite app_nil_r. f_equal.
      unfold slice. rewrite drop_0. f_equal. lia.
    + replace (advance _ _ _) with (rb_head r + c).
      2:{ unfold advance, u32. rewrite (Z.mod_small (_ + _)) by lia. split_guard; lia. }
      assert (Hle2 : rb_tail r < rb_head r + c) by lia. split_guard; [lia|].
      rewrite app_assoc. f_equal. rewrite (Hsplit (Z.to_nat c)). do 2 f_equal. lia.
Qed.

Lemma ring_buf_write_loop_spec fuel : ∀ r buf count ret,
  ring_wf r → bytes_ok buf → 0 <= count <= Z.of_nat (length buf) →
  (Z.to_nat count < fuel)%nat →
  let n := Z.min count (ring_buf_space r) in
  ∃ r', ring_buf_write_loop fuel r buf count ret = Some (r', ret + n)
  ∧ ring_wf r' ∧ rb_size r' = rb_size r
  ∧ contents r' = contents r ++ take (Z.to_nat n) buf.
Proof.
  induction fuel as [|fuel IH]; intros r buf count ret Hwf Hbuf Hcount Hfuel n; [lia|].
  cbn [ring_buf_write_loop].
  pose proof (space_to_end_bounds r Hwf) as (Hse & Hzero & _).
  replace (if count <? ring_buf_space_to_end r then count else ring_buf_space_to_end r)
    with (Z.min count (ring_buf_space_to_end r)) by (split_guard; lia).
  set (c := Z.min count (ring_buf_space_to_end r)) in *.
  destruct (Z.leb_spec c 0) as [Hc|Hc].
  - exists r. replace n with 0 by lia. rewrite Z.add_0_r, app_nil_r. auto.
  - rewrite memcpy_from_Some by lia. cbn.
    set (xs := slice _ _ buf).
    assert (Hxs : Z.of_nat (length xs) = c) by (subst xs; rewrite length_slice; lia).
    destruct (push_chunk r xs Hwf) as (b & Hb & Hwf' & Hcont); eauto with buf; [lia|].
    rewrite Hb. cbn. rewrite Hxs in *.
    set (r1 := with_tail _ _) in *.
    destruct (IH r1 (drop (Z.to_nat c) buf) (count - c) (ret + c)) as (r' & E & W & S & C);
      [done|by apply Forall_drop|rewrite length_drop; lia|lia|].
    assert (Hspace : ring_buf_space r1 = ring_buf_space r - c).
    { rewrite !space_spec by done. rewrite Hcont, length_app. cbn. lia. }
    exists r'. split_ands; [|done|done|].
    + rewrite E. do 2 f_equal. lia.
    + rewrite C, Hcont, <- app_assoc. f_equal. subst xs. unfold slice. rewrite drop_0.
      rewrite take_take_drop. f_equal. lia.
Qed.

Lemma ring_buf_read_loop_spec fuel : ∀ r out count ret,
  ring_wf r → 0 <= count → (Z.to_nat count < fuel)%nat →
  let n := Z.min count (ring_buf_cnt r) in
  ∃ r', ring_buf_read_loop fuel r out count ret
        = Some (r', out ++ take (Z.to_nat n) (contents r), ret + n)
  ∧ ring_wf r' ∧ rb_size r' = rb_size r
  ∧ contents r' = drop (Z.to_nat n) (contents r).
Proof.
  induction fuel as [|fuel IH]; intros r out count ret Hwf Hcount Hfuel n; [lia|].
  cbn [ring_buf_read_loop].
  pose proof (cnt_to_end_bounds r Hwf) as (Hce & Hzero & _).
  replace (if count <? ring_buf_cnt_to_end r then count else ring_buf_cnt_to_end r)
    with (Z.min count (ring_buf_cnt_to_end r)) by (split_guard; lia).
  set (c := Z.min count (ring_buf_cnt_to_end r)) in *.
  destruct (Z.leb_spec c 0) as [Hc|Hc].
  - exists r. replace n with 0 by lia. change (Z.to_nat 0) with 0%nat.
    rewrite Z.add_0_r, take_0, drop_0, app_nil_r. auto.
  - destruct (pop_chunk r c Hwf) as (xs & Hxs & Hlen & Hwf' & Hcont); [lia|].
    rewrite Hxs. cbn. set (r1 := with_head _ r) in *.
    destruct (IH r1 (out ++ xs) (count - c) (ret + c)) as (r' & E & W & S & C);
      [done|lia|lia|].
    assert (Hcnt : ring_buf_cnt r = c + ring_buf_cnt r1).
    { rewrite !cnt_spec, Hcont, length_app by done. lia. }
    assert (Hn : Z.to_nat n = (length xs + Z.to_nat (Z.min (count - c) (ring_buf_cnt r1)))%nat)
      by lia.
    exists r'. rewrite Hn, Hcont. split_ands; [|done|done|].
    + rewrite E, take_app_add, app_assoc. do 2 f_equal. lia.
    + rewrite C. by rewrite drop_app_add.
Qed.

(** [ring_buf_write] of [count] bytes into a well-formed ring writes exactly
    [min count space] of them (partial write), appends them to the queue's
    contents, stays inside both buffers and keeps the ring well formed. *)
Theorem ring_buf_write_appends r buf count :
  ring_wf r → bytes_ok buf → 0 <= count <= Z.of_nat (length buf) →
  let n := Z.min count (rb_size r - 1 - Z.of_nat (length (contents r))) in
  ∃ r', ring_buf_write r buf count = Some (r', n)
  ∧ ring_wf r' ∧ contents r' = contents r ++ take (Z.to_nat n) buf.
Proof.
  intros Hwf Hbuf Hc n. unfold ring_buf_write.
  destruct (ring_buf_write_loop_spec (S (Z.to_nat count)) r buf count 0)
    as (r' & E & W & _ & C); [done..|lia|].
  rewrite space_spec in E, C by done. eauto.
Qed.

Definition ring_demo : ring_buffer_t := RingBuf 8 6 2 [10; 11; 12; 13; 14; 15; 16; 17].
Lemma ring_demo_wf : ring_wf ring_demo.
Proof. unfold ring_wf, is_byte; cbn. split_ands; try lia. repeat constructor; unfold is_byte; lia. Qed.

Lemma ring_buf_write_appends_witness :
  contents ring_demo = [16; 17; 10; 11] ∧
  ∃ r', ring_buf_write ring_demo [1; 2; 3; 4; 5] 5 = Some (r', 3)
  ∧ ring_wf r' ∧ contents r' = contents ring_demo ++ [1; 2; 3].
Proof.
  split; [reflexivity|].
  apply (ring_buf_write_appends ring_demo [1; 2; 3; 4; 5] 5); [exact ring_demo_wf| |cbn; lia].
  repeat constructor; unfold is_byte; lia.
Defined.

(** [ring_buf_read] of [count] bytes returns the oldest
    [min count |contents|] bytes in order and removes exactly those. *)
Theorem ring_buf_read_removes r count :
  ring_wf r → 0 <= count →
  let n := Z.min count (Z.of_nat (length (contents r))) in
  ∃ r', ring_buf_read r count = Some (r', take (Z.to_nat n) (contents r), n)
  ∧ ring_wf r' ∧ contents r' = drop (Z.to_nat n) (contents r).
Proof.
  intros Hwf Hc n. unfold ring_buf_read.
  destruct (ring_buf_read_loop_spec (S (Z.to_nat count)) r [] count 0)
    as (r' & E & W & _ & C); [done..|lia|].
  rewrite cnt_spec in E, C by done. eauto.
Qed.

Lemma ring_buf_read_removes_witness :
  ∃ r', ring_buf_read ring_demo 3 = Some (r', [16; 17; 10], 3)
  ∧ ring_wf r' ∧ contents r' = [11].
Proof. apply (ring_buf_read_removes ring_demo 3); [exact ring_demo_wf|lia]. Defined.

Lemma ring_push_ok r x : ring_wf r → 0 < ring_buf_space r →
  ∃ r', ring_buf_write_char r x = Some (r', 1) ∧ ring_wf r'
        ∧ contents r' = contents r ++ [u8 x] ∧ ring_buf_space r' = ring_buf_space r - 1.
Proof.
  intros Hwf Hs. unfold ring_buf_write_char. rewrite full_spec by done.
  split_guard; [lia|].
  pose proof (space_to_end_bounds r Hwf).
  destruct (push_chunk r [u8 x] Hwf) as (b & Hb & Hwf' & Hc);
    [constructor; [apply u8_byte|constructor]|cbn; lia|].
  change (Z.of_nat (length [u8 x])) with 1 in *. rewrite Hb. cbn [mbind option_bind].
  eexists; split_ands; eauto.
  rewrite (space_spec _ Hwf'), (space_spec r), Hc, length_app by done. cbn [rb_size with_tail with_buffer length]. lia.
Qed.

Lemma ring_buf_empty_spec r : ring_wf r →
  ring_buf_empty r = bool_decide (contents r = []).
Proof.
  intros Hwf. unfold ring_buf_empty. pose proof (length_contents r Hwf) as Hl.
  destruct Hwf as (? & ? & ? & _).
  destruct (Z.eqb_spec (rb_tail r) (rb_head r)) as [E|E]; symmetry.
  - apply bool_decide_eq_true_2, length_zero_iff_nil.
    destruct (Z.leb_spec (rb_head r) (rb_tail r)); lia.
  - apply bool_decide_eq_false_2. intros Hn. rewrite Hn in Hl.
    destruct (Z.leb_spec (rb_head r) (rb_tail r)); cbn in Hl; lia.
Qed.

Lemma contents_bytes r : ring_wf r → bytes_ok (contents r).
Proof.
  intros (_ & _ & _ & _ & Hb). unfold contents. split_guard; eauto with buf.
  apply Forall_app. split; [by apply Forall_drop|by apply Forall_take].
Qed.

#[export] Program Instance ring_fifo : ByteFifo ring_buffer_t := {
  fifo_wf := ring_wf;
  fifo_items := contents;
  fifo_room := ring_buf_space;
  fifo_push := ring_buf_write_char;
  fifo_pop := ring_buf_read;
  fifo_is_empty := ring_buf_empty;
  fifo_count := ring_buf_cnt;
}.
Next Obligation. intros. by apply ring_push_ok. Qed.
Next Obligation.
  intros r x Hwf Hs. unfold ring_buf_write_char. rewrite full_spec by done.
  pose proof (space_to_end_bounds r Hwf). split_guard; [done|lia].
Qed.
Next Obligation.
  intros r n Hwf Hn k. unfold ring_buf_read.
  destruct (ring_buf_read_loop_spec (S (Z.to_nat n)) r [] n 0)
    as (r' & E & W & Hsz & C); [done..|lia|].
  rewrite cnt_spec in E, C by done. exists r'. split_ands; [done..|].
  rewrite !space_spec, C, length_drop by done. lia.
Qed.
Next Obligation. intros. by apply ring_buf_empty_spec. Qed.
Next Obligation. intros. by apply cnt_spec. Qed.
Next Obligation. intros. by apply contents_bytes. Qed.
Next Obligation. intros r Hwf. pose proof (space_to_end_bounds r Hwf). cbn. lia. Qed.
