(* ===== verification/DynMem.v ===== *)
(** Dynamic memory: [Ports/Cortex-M3/os_dmem.c], the allocator behind
    [OSMMalloc], [OSMCalloc] and [OSMFree].

    Memory is a map from addresses to the block headers stored there, a map from
    addresses to pool control blocks, and the user bytes that [OSMCalloc] clears.
    Reading a header at an address where none was ever written is [None].
    Critical sections make every operation atomic, so each is one function of
    the memory.  The search loop of [OS_GetMem] goes once around the circular
    block list; every block has at least a header, which bounds it by the pool's
    size over [DM_OVERHEAD]. *)
From S2P Require Import Prelude.

Definition DM_OVERHEAD : Z := 16.
Definition DM_DYNAMIC_ID : Z := 0x44594e41.
Definition OS_ERR_NONE : Z := 0.
Definition OS_ERR_MEM_FULL : Z := 94.
Definition OS_DMEM_POOL_SIZE : Z := 1024 * 20.

(* @ Ports/Cortex-M3/os_dmem.h:79-89 DM_HEADER *)
Record DM_HEADER := DmHeader {
  dm_next_memory : Z; dm_previous_memory : Z; dm_memory_free : bool; dm_memory_pool : Z }.

(* @ Ports/Cortex-M3/os_dmem.h:61-75 DM_PCB *)
Record DM_PCB := DmPcb {
  dm_id : Z; dm_name : list Z; dm_start_address : Z; dm_pool_size : Z;
  dm_min_allocation : Z; dm_available : Z; dm_memory_list : Z; dm_search_ptr : Z }.

Record dm_mem := DmMem {
  dm_headers : gmap Z DM_HEADER; dm_pools : gmap Z DM_PCB; dm_data : gmap Z Z;
  DMD_Total_Pools : Z }.

Definition set_headers (h : gmap Z DM_HEADER) (m : dm_mem) : dm_mem :=
  DmMem h (dm_pools m) (dm_data m) (DMD_Total_Pools m).
Definition set_pool (a : Z) (p : DM_PCB) (m : dm_mem) : dm_mem :=
  DmMem (dm_headers m) (<[a := p]> (dm_pools m)) (dm_data m) (DMD_Total_Pools m).
Definition set_data (d : gmap Z Z) (m : dm_mem) : dm_mem :=
  DmMem (dm_headers m) (dm_pools m) d (DMD_Total_Pools m).
Definition set_total (n : Z) (m : dm_mem) : dm_mem :=
  DmMem (dm_headers m) (dm_pools m) (dm_data m) n.

Definition pool_available (v : Z) (p : DM_PCB) : DM_PCB :=
  DmPcb (dm_id p) (dm_name p) (dm_start_address p) (dm_pool_size p)
    (dm_min_allocation p) v (dm_memory_list p) (dm_search_ptr p).
Definition pool_search (v : Z) (p : DM_PCB) : DM_PCB :=
  DmPcb (dm_id p) (dm_name p) (dm_start_address p) (dm_pool_size p)
    (dm_min_allocation p) (dm_available p) (dm_memory_list p) v.
Definition pool_id (v : Z) (p : DM_PCB) : DM_PCB :=
  DmPcb v (dm_name p) (dm_start_address p) (dm_pool_size p)
    (dm_min_allocation p) (dm_available p) (dm_memory_list p) (dm_search_ptr p).

Definition hdr_next (v : Z) (x : DM_HEADER) : DM_HEADER :=
  DmHeader v (dm_previous_memory x) (dm_memory_free x) (dm_memory_pool x).
Definition hdr_prev (v : Z) (x : DM_HEADER) : DM_HEADER :=
  DmHeader (dm_next_memory x) v (dm_memory_free x) (dm_memory_pool x).
Definition hdr_free (v : bool) (x : DM_HEADER) : DM_HEADER :=
  DmHeader (dm_next_memory x) (dm_previous_memory x) v (dm_memory_pool x).

(** [p->field = v] through a header pointer. *)
Definition hdr_upd (a : Z) (f : DM_HEADER → DM_HEADER) (h : gmap Z DM_HEADER)
    : option (gmap Z DM_HEADER) :=
  x ← h !! a; Some (<[a := f x]> h).

Definition round4 (n : Z) : Z := u32 (u32 (n + 4 - 1) / 4 * 4).

(* @ Ports/Cortex-M3/os_dmem.c:27-112 OS_Create_Memory_Pool *)
Definition OS_Create_Memory_Pool (pool_ptr : Z) (name : list Z)
    (start_address pool_size min_allocation : Z) (m : dm_mem) : dm_mem * Z :=
  let pool_size := pool_size / 4 * 4 in
  let available := u32 (pool_size - 2 * DM_OVERHEAD) in
  let trailer := u32 (u32 (start_address + available) + DM_OVERHEAD) in
  let pool := DmPcb DM_DYNAMIC_ID (take 4 name) start_address pool_size
                (round4 min_allocation) available start_address start_address in
  let h := <[start_address := DmHeader trailer trailer true pool_ptr]> (dm_headers m) in
  let h := <[trailer := DmHeader start_address start_address false pool_ptr]> h in
  (set_total (u32 (DMD_Total_Pools m + 1)) (set_pool pool_ptr pool (set_headers h m)),
   OS_ERR_NONE).

(* @ Ports/Cortex-M3/os_dmem.c:115-144 OS_DelMemPool *)
Definition OS_DelMemPool (pool_ptr : Z) (m : dm_mem) : option (dm_mem * Z) :=
  pool ← dm_pools m !! pool_ptr;
  let m := set_pool pool_ptr (pool_id 0 pool) m in
  Some (set_total (u32 (DMD_Total_Pools m - 1)) m, OS_ERR_NONE).

(** The do-while of [OS_GetMem]: next fit from [search]. *)
(* @ Ports/Cortex-M3/os_dmem.c:186-207 OS_GetMem *)
Fixpoint getmem_search (fuel : nat) (h : gmap Z DM_HEADER) (search size memory_ptr : Z)
    : option (Z * Z) :=
  match fuel with
  | O => None
  | S fuel =>
    hd ← h !! memory_ptr;
    let free_size := if dm_memory_free hd
                     then u32 (u32 (dm_next_memory hd - memory_ptr) - DM_OVERHEAD) else 0 in
    let memory_ptr := if free_size <? size then dm_next_memory hd else memory_ptr in
    if (free_size <? size) && negb (memory_ptr =? search)
    then getmem_search fuel h search size memory_ptr
    else Some (memory_ptr, free_size)
  end.

Definition getmem_size (pool : DM_PCB) (size : Z) : Z :=
  if size <? dm_min_allocation pool then dm_min_allocation pool else round4 size.

(** Lines 219-236: cut the found block in two; the rest becomes a free block. *)
(* @ Ports/Cortex-M3/os_dmem.c:219-236 OS_GetMem *)
Definition getmem_split (pool_ptr memory_ptr size : Z) (pool : DM_PCB)
    (h : gmap Z DM_HEADER) : option (gmap Z DM_HEADER * DM_PCB) :=
  let new_ptr := u32 (u32 (memory_ptr + size) + DM_OVERHEAD) in
  cur ← h !! memory_ptr;
  let next := dm_next_memory cur in
  let h := <[new_ptr := DmHeader next memory_ptr true pool_ptr]> h in
  h ← hdr_upd next (hdr_prev new_ptr) h;
  h ← hdr_upd memory_ptr (hdr_next new_ptr) h;
  Some (h, pool_available (u32 (u32 (dm_available pool - size) - DM_OVERHEAD)) pool).

(** Result: the new memory, [*return_pointer] and the status. *)
(* @ Ports/Cortex-M3/os_dmem.c:147-269 OS_GetMem *)
Definition OS_GetMem (pool_ptr size : Z) (m : dm_mem) : option (dm_mem * Z * Z) :=
  pool ← dm_pools m !! pool_ptr;
  let size := getmem_size pool size in
  found ← getmem_search (S (Z.to_nat (dm_pool_size pool / DM_OVERHEAD)))
            (dm_headers m) (dm_search_ptr pool) size (dm_search_ptr pool);
  let '(memory_ptr, free_size) := found in
  if size <=? free_size then
    hp ← (if u32 (u32 (size + DM_OVERHEAD) + dm_min_allocation pool) <=? free_size
          then getmem_split pool_ptr memory_ptr size pool (dm_headers m)
          else Some (dm_headers m, pool_available (u32 (dm_available pool - free_size)) pool));
    let '(h, pool) := hp in
    h ← hdr_upd memory_ptr (hdr_free false) h;
    hd ← h !! memory_ptr;
    let pool := if dm_search_ptr pool =? memory_ptr
                then pool_search (dm_next_memory hd) pool else pool in
    Some (set_pool pool_ptr pool (set_headers h m), u32 (memory_ptr + DM_OVERHEAD), OS_ERR_NONE)
  else Some (m, 0, OS_ERR_MEM_FULL).

(** Lines 306-323: merge with the previous neighbour; the header pointer moves. *)
(* @ Ports/Cortex-M3/os_dmem.c:306-323 OS_FreeMem *)
Definition freemem_merge_prev (header_ptr : Z) (h : gmap Z DM_HEADER) (pool : DM_PCB)
    : option (Z * gmap Z DM_HEADER * DM_PCB) :=
  hd ← h !! header_ptr;
  pv ← h !! dm_previous_memory hd;
  if dm_memory_free pv then
    let pool := pool_available (u32 (dm_available pool + DM_OVERHEAD)) pool in
    h ← hdr_upd (dm_previous_memory hd) (hdr_next (dm_next_memory hd)) h;
    h ← hdr_upd (dm_next_memory hd) (hdr_prev (dm_previous_memory hd)) h;
    Some (dm_previous_memory hd, h, pool_search (dm_previous_memory hd) pool)
  else Some (header_ptr, h, pool).

(** Lines 326-340: merge with the next neighbour. *)
(* @ Ports/Cortex-M3/os_dmem.c:326-340 OS_FreeMem *)
Definition freemem_merge_next (header_ptr : Z) (h : gmap Z DM_HEADER) (pool : DM_PCB)
    : option (gmap Z DM_HEADER * DM_PCB) :=
  hd ← h !! header_ptr;
  nx ← h !! dm_next_memory hd;
  if dm_memory_free nx then
    let pool := pool_available (u32 (dm_available pool + DM_OVERHEAD)) pool in
    h ← hdr_upd (dm_next_memory nx) (hdr_prev header_ptr) h;
    h ← hdr_upd header_ptr (hdr_next (dm_next_memory nx)) h;
    Some (h, pool_search header_ptr pool)
  else Some (h, pool).

(* @ Ports/Cortex-M3/os_dmem.c:273-347 OS_FreeMem *)
Definition OS_FreeMem (memory : Z) (m : dm_mem) : option (dm_mem * Z) :=
  let header_ptr := u32 (memory - DM_OVERHEAD) in
  hd ← dm_headers m !! header_ptr;
  let pool_ptr := dm_memory_pool hd in
  pool ← dm_pools m !! pool_ptr;
  h ← hdr_upd header_ptr (hdr_free true) (dm_headers m);
  let pool := pool_available
    (u32 (u32 (dm_available pool + u32 (dm_next_memory hd - header_ptr)) - DM_OVERHEAD)) pool in
  '(header_ptr, h, pool) ← freemem_merge_prev header_ptr h pool;
  '(h, pool) ← freemem_merge_next header_ptr h pool;
  Some (set_pool pool_ptr pool (set_headers h m), OS_ERR_NONE).

(** ** The system pool

    [sys_pcb] and [sys_pool] are the link-time addresses of [OS_system_mempool]
    and [sysemPool]. *)
Section SystemPool.
Context (sys_pcb sys_pool : Z).

(* @ Ports/Cortex-M3/os_dmem.c:354-361 OS_DMemInit *)
Definition OS_DMemInit (m : dm_mem) : dm_mem :=
  (OS_Create_Memory_Pool sys_pcb [83; 121; 115; 0] sys_pool OS_DMEM_POOL_SIZE 16
     (set_total 0 m)).1.

(* @ Ports/Cortex-M3/os_dmem.c:363-370 OSMMalloc *)
Definition OSMMalloc (size : Z) (m : dm_mem) : option (dm_mem * Z) :=
  r ← OS_GetMem sys_pcb size m;
  let '(m, pointer, err) := r in
  Some (m, if err =? OS_ERR_NONE then pointer else 0).

(** [memset(p, 0, n)] over the user bytes. *)
Definition clear_bytes (p n : Z) (d : gmap Z Z) : gmap Z Z :=
  foldl (λ d i, <[p + i := 0]> d) d (seqZ 0 n).

(* @ Ports/Cortex-M3/os_dmem.c:372-383 OSMCalloc *)
Definition OSMCalloc (count size : Z) (m : dm_mem) : option (dm_mem * Z) :=
  r ← OSMMalloc (u32 (count * size)) m;
  let '(m, p) := r in
  Some (if p =? 0 then m else set_data (clear_bytes p (u32 (count * size)) (dm_data m)) m, p).

(* @ Ports/Cortex-M3/os_dmem.c:385-388 OSMFree *)
Definition OSMFree (ptr : Z) (m : dm_mem) : option dm_mem :=
  r ← OS_FreeMem ptr m; Some r.1.
End SystemPool.

(** ** Abstract view: the pool as a sequence of blocks

    A block is its extent in bytes, header included, and whether it is free.
    The pool is the blocks in address order, then a 16-byte trailer that is
    never free. *)
Notation blk := (Z * bool)%type.

Fixpoint total (bl : list blk) : Z :=
  match bl with [] => 0 | (e, _) :: tl => e + total tl end.
Fixpoint avail (bl : list blk) : Z :=
  match bl with
  | [] => 0
  | (e, f) :: tl => (if f : bool then e - DM_OVERHEAD else 0) + avail tl
  end.
(** Address of the last block of a segment ([prev] if it is empty). *)
Fixpoint last_addr (prev a : Z) (bl : list blk) : Z :=
  match bl with [] => prev | (e, _) :: tl => last_addr a (a + e) tl end.
(** [x] is the address of a block of the segment or its end. *)
Fixpoint boundary (x a : Z) (bl : list blk) : Prop :=
  x = a ∨ match bl with [] => False | (e, _) :: tl => boundary x (a + e) tl end.
(** No two neighbours are both free: [OS_FreeMem] merges eagerly. *)
Fixpoint coalesced (prev_free : bool) (bl : list blk) : Prop :=
  match bl with
  | [] => True
  | (_, f) :: tl => (prev_free && f = false) ∧ coalesced f tl
  end.

(** The headers of a segment; [rep] ends with the trailer, whose successor is
    the pool's [start]. *)
Fixpoint links (h : gmap Z DM_HEADER) (p prev a : Z) (bl : list blk) : Prop :=
  match bl with
  | [] => True
  | (e, f) :: tl => h !! a = Some (DmHeader (a + e) prev f p) ∧ links h p a (a + e) tl
  end.
Fixpoint rep (h : gmap Z DM_HEADER) (p start prev a : Z) (bl : list blk) : Prop :=
  match bl with
  | [] => h !! a = Some (DmHeader start prev false p)
  | (e, f) :: tl => h !! a = Some (DmHeader (a + e) prev f p) ∧ rep h p start a (a + e) tl
  end.

Definition blk_ok (b : blk) : Prop := DM_OVERHEAD <= b.1 ∧ b.1 mod 4 = 0.

(** The control block's counters agree with the blocks. *)
Definition pool_tracks (min start size : Z) (bl : list blk) (pool : DM_PCB) : Prop :=
  dm_min_allocation pool = min ∧ dm_available pool = avail bl
  ∧ dm_pool_size pool = size + DM_OVERHEAD ∧ boundary (dm_search_ptr pool) start bl.

Record pool_inv (m : dm_mem) (p start min : Z) (bl : list blk) : Prop := PoolInv {
  inv_pool : ∃ pool, dm_pools m !! p = Some pool
    ∧ pool_tracks min start (total bl) bl pool;
  inv_rep : rep (dm_headers m) p start (start + total bl) start bl;
  inv_ok : Forall blk_ok bl;
  inv_coalesced : coalesced false bl;
  inv_min : 0 < min ∧ min mod 4 = 0;
  inv_range : 0 < start ∧ start + total bl + DM_OVERHEAD + min < 2 ^ 32 }.

(** What an allocation makes of a free block of extent [e], and a deallocation
    of a used one between [pre] and [post]. *)
Definition alloc_block (min sz e : Z) : list blk :=
  if sz + DM_OVERHEAD + min <=? e - DM_OVERHEAD
  then [(sz + DM_OVERHEAD, false); (e - sz - DM_OVERHEAD, true)] else [(e, false)].
Definition join_next (e : Z) (post : list blk) : list blk :=
  match post with
  | (en, true) :: tl => (e + en, true) :: tl
  | _ => (e, true) :: post
  end.
Definition absorb_prev (pre : list blk) (e : Z) : list blk * Z :=
  match last pre with
  | Some (ep, true) => (removelast pre, ep + e)
  | _ => (pre, e)
  end.
Definition free_block (pre : list blk) (e : Z) (post : list blk) : list blk :=
  (absorb_prev pre e).1 ++ join_next (absorb_prev pre e).2 post.

Definition fits (sz : Z) (b : blk) : bool := b.2 && (sz <=? b.1 - DM_OVERHEAD).

(** ** Segments *)

Lemma total_app l1 l2 : total (l1 ++ l2) = total l1 + total l2.
Proof. induction l1 as [|[e f] l1 IH]; cbn; lia. Qed.
Lemma total_snoc l e f : total (l ++ [(e, f)]) = total l + e.
Proof. rewrite total_app. cbn. lia. Qed.
Lemma avail_app l1 l2 : avail (l1 ++ l2) = avail l1 + avail l2.
Proof. induction l1 as [|[e f] l1 IH]; cbn; lia. Qed.
Lemma total_nonneg bl : Forall blk_ok bl → 16 * Z.of_nat (length bl) <= total bl.
Proof.
  induction 1 as [|[e f] bl [H _] _ IH]; cbn [total length]; [lia|].
  unfold DM_OVERHEAD in H. cbn in H. lia.
Qed.
Lemma avail_bounds bl : Forall blk_ok bl → 0 <= avail bl <= total bl.
Proof.
  induction 1 as [|[e f] bl [H _] _ IH]; cbn [total avail]; [lia|].
  unfold DM_OVERHEAD in *. cbn in H. destruct f; lia.
Qed.
Lemma last_addr_app prev a l1 l2 :
  last_addr prev a (l1 ++ l2) = last_addr (last_addr prev a l1) (a + total l1) l2.
Proof.
  revert prev a. induction l1 as [|[e f] l1 IH]; intros; cbn; [f_equal; lia|].
  rewrite IH. f_equal; lia.
Qed.
Lemma rep_app h p s prev a l1 l2 :
  rep h p s prev a (l1 ++ l2) ↔
  links h p prev a l1 ∧ rep h p s (last_addr prev a l1) (a + total l1) l2.
Proof.
  revert prev a. induction l1 as [|[e f] l1 IH]; intros; cbn.
  - rewrite Z.add_0_r. tauto.
  - rewrite IH. rewrite Z.add_assoc. tauto.
Qed.
Lemma links_app h p prev a l1 l2 :
  links h p prev a (l1 ++ l2) ↔
  links h p prev a l1 ∧ links h p (last_addr prev a l1) (a + total l1) l2.
Proof.
  revert prev a. induction l1 as [|[e f] l1 IH]; intros; cbn.
  - rewrite Z.add_0_r. tauto.
  - rewrite IH. rewrite Z.add_assoc. tauto.
Qed.
Lemma boundary_app x a l1 l2 :
  boundary x a (l1 ++ l2) ↔ boundary x a l1 ∨ boundary x (a + total l1) l2.
Proof.
  revert a. induction l1 as [|[e f] l1 IH]; intros; cbn.
  - rewrite Z.add_0_r. destruct l2 as [|[]]; cbn; tauto.
  - rewrite IH. rewrite Z.add_assoc. tauto.
Qed.
Lemma boundary_head a bl : boundary a a bl.
Proof. destruct bl as [|[]]; cbn; auto. Qed.
Lemma boundary_last a bl : boundary (a + total bl) a bl.
Proof.
  revert a. induction bl as [|[e f] bl IH]; intros; cbn; [left; lia|right].
  rewrite Z.add_assoc. apply IH.
Qed.
Lemma boundary_split x a bl : boundary x a bl → ∃ l1 l2, bl = l1 ++ l2 ∧ x = a + total l1.
Proof.
  revert a. induction bl as [|[e f] bl IH]; cbn; intros a [->|H]; [|done| |].
  - exists [], []. cbn. split; [done|lia].
  - exists [], ((e, f) :: bl). cbn. split; [done|lia].
  - destruct (IH _ H) as (l1 & l2 & -> & ->). exists ((e, f) :: l1), l2. cbn. split; [done|lia].
Qed.
Lemma coalesced_app b l1 l2 :
  coalesced b (l1 ++ l2) ↔
  coalesced b l1 ∧ coalesced (match last l1 with Some (_, f) => f | None => b end) l2.
Proof.
  revert b. induction l1 as [|[e f] l1 IH]; intros b; cbn [app coalesced]; [cbn; tauto|].
  rewrite IH. rewrite last_cons. destruct (last l1) as [[]|]; tauto.
Qed.

(** A header stored outside a segment leaves its representation alone. *)
Lemma links_frame h h' p prev a bl : Forall blk_ok bl →
  (∀ x, a <= x < a + total bl → h' !! x = h !! x) →
  links h p prev a bl → links h' p prev a bl.
Proof.
  intros Hok. revert prev a. induction Hok as [|[e f] bl [He _] Hok IH]; intros prev a Hx; [done|].
  cbn in *. unfold DM_OVERHEAD in He. pose proof (total_nonneg bl Hok).
  intros [Ha Hl]. split; [rewrite Hx by lia; done|].
  apply IH; [|done]. intros. apply Hx. lia.
Qed.
Lemma rep_frame h h' p s prev a bl : Forall blk_ok bl →
  (∀ x, a <= x <= a + total bl → h' !! x = h !! x) →
  rep h p s prev a bl → rep h' p s prev a bl.
Proof.
  intros Hok. revert prev a. induction Hok as [|[e f] bl [He _] Hok IH]; intros prev a Hx.
  - cbn. rewrite Hx by (cbn; lia). done.
  - cbn in *. unfold DM_OVERHEAD in He. pose proof (total_nonneg bl Hok).
    intros [Ha Hl]. split; [rewrite Hx by lia; done|].
    apply IH; [|done]. intros. apply Hx. lia.
Qed.
(** The header at the start of a represented segment; changing its back link. *)
Definition head_next (start a : Z) (bl : list blk) : Z :=
  match bl with [] => start | (e, _) :: _ => a + e end.
Definition head_free (bl : list blk) : bool :=
  match bl with [] => false | (_, f) :: _ => f end.
Lemma rep_head h p s prev a bl : rep h p s prev a bl →
  h !! a = Some (DmHeader (head_next s a bl) prev (head_free bl) p).
Proof. destruct bl as [|[e f] tl]; cbn; [done|]. by intros [? _]. Qed.
Lemma rep_set_prev h p s prev v a bl : Forall blk_ok bl → rep h p s prev a bl →
  rep (<[a := DmHeader (head_next s a bl) v (head_free bl) p]> h) p s v a bl.
Proof.
  intros Hok Hr. destruct Hok as [|[e f] tl [He _] Hok]; cbn in *.
  - by rewrite lookup_insert_eq.
  - destruct Hr as [Ha Hr]. unfold DM_OVERHEAD in He. rewrite lookup_insert_eq. split; [done|].
    eapply rep_frame; [done| |done]. intros. rewrite lookup_insert_ne by lia. done.
Qed.

(** ** The search loop *)

(** The abstract next-fit choice: the first fitting block from the search
    position on, else from the start of the pool; [None] when none fits. *)
Fixpoint split_fit (sz : Z) (bl : list blk) : option (list blk * Z * list blk) :=
  match bl with
  | [] => None
  | b :: tl =>
    if fits sz b then Some ([], b.1, tl)
    else '(pre, e, post) ← split_fit sz tl; Some (b :: pre, e, post)
  end.
Definition next_fit (sz : Z) (l1 l2 : list blk) : option (list blk * Z * list blk) :=
  match split_fit sz l2 with
  | Some (pre, e, post) => Some (l1 ++ pre, e, post)
  | None => '(pre, e, post) ← split_fit sz l1; Some (pre, e, post ++ l2)
  end.

Lemma split_fit_Some sz bl pre e post : split_fit sz bl = Some (pre, e, post) →
  bl = pre ++ (e, true) :: post ∧ Forall (λ b, fits sz b = false) pre ∧ sz <= e - DM_OVERHEAD.
Proof.
  revert pre e post. induction bl as [|[e f] bl IH]; intros pre e' post; cbn; [done|].
  destruct (fits sz (e, f)) eqn:E.
  - intros [= <- <- <-]. unfold fits in E. cbn in E. apply andb_true_iff in E as [-> E].
    split_ands; [done|constructor|by apply Z.leb_le].
  - destruct (split_fit sz bl) as [[[pre0 e0] post0]|]; [|done]. intros [= <- <- <-].
    destruct (IH _ _ _ eq_refl) as (-> & H & ?). split_ands; [done|by constructor|done].
Qed.
Lemma split_fit_None sz bl : split_fit sz bl = None → Forall (λ b, fits sz b = false) bl.
Proof.
  induction bl as [|b bl IH]; cbn; [by constructor|].
  destruct (fits sz b) eqn:E; [done|]. destruct (split_fit sz bl) as [[[]]|]; [done|].
  intros _. constructor; auto.
Qed.
Lemma next_fit_Some sz l1 l2 pre e post : next_fit sz l1 l2 = Some (pre, e, post) →
  l1 ++ l2 = pre ++ (e, true) :: post ∧ sz <= e - DM_OVERHEAD.
Proof.
  unfold next_fit. destruct (split_fit sz l2) as [[[q1 e1] q2]|] eqn:E2.
  - intros [= <- <- <-]. apply split_fit_Some in E2 as (-> & _ & ?). by rewrite <- app_assoc.
  - destruct (split_fit sz l1) as [[[q1 e1] q2]|] eqn:E1; [|done]. intros [= <- <- <-].
    apply split_fit_Some in E1 as (-> & _ & ?). by rewrite <- app_assoc.
Qed.
Lemma next_fit_None sz l1 l2 : next_fit sz l1 l2 = None →
  Forall (λ b, fits sz b = false) (l1 ++ l2).
Proof.
  unfold next_fit. destruct (split_fit sz l2) as [[[]]|] eqn:E2; [done|].
  destruct (split_fit sz l1) as [[[]]|] eqn:E1; [done|]. intros _.
  apply Forall_app. split; by apply split_fit_None.
Qed.

Section Search.
Context (h : gmap Z DM_HEADER) (p : Z) (sz : Z) (Hsz : 0 < sz).

(** The free size the loop computes at a block; it is below [sz] exactly when
    the block does not fit. *)
Lemma free_size_blk a e (f : bool) : 0 <= e - DM_OVERHEAD < 2 ^ 32 →
  (if f then u32 (u32 (a + e - a) - DM_OVERHEAD) else 0) = (if f then e - DM_OVERHEAD else 0).
Proof.
  unfold DM_OVERHEAD, u32. intros. destruct f; [|done].
  replace (a + e - a) with e by lia.
  destruct (Z.ltb_spec e (2 ^ 32)); [small_int; lia|].
  rewrite Zminus_mod_idemp_l. rewrite Z.mod_small; lia.
Qed.
Lemma fits_false_lt a e (f : bool) : 0 <= e - DM_OVERHEAD < 2 ^ 32 → fits sz (e, f) = false →
  ((if f then u32 (u32 (a + e - a) - DM_OVERHEAD) else 0) <? sz) = true.
Proof using Hsz.
  intros He Hf. rewrite free_size_blk by done. unfold fits in Hf; cbn in Hf.
  destruct f; apply Z.ltb_lt; [|lia]. cbn in Hf. apply Z.leb_gt in Hf. lia.
Qed.

(** One segment without a fitting block is walked through to its end. *)
Lemma search_walk search seg : ∀ prev a n,
  Forall blk_ok seg → total seg < 2 ^ 32 → links h p prev a seg →
  Forall (λ b, fits sz b = false) seg →
  (search <= a ∨ a + total seg < search) →
  getmem_search (length seg + n) h search sz a = getmem_search n h search sz (a + total seg).
Proof using Hsz.
  induction seg as [|[e f] seg IH]; intros prev a n Hok Ht Hl Hf Hs.
  { cbn. by rewrite Z.add_0_r. }
  apply Forall_cons in Hok as [[He _] Hok], Hf as [Hf1 Hf].
  cbn in *. pose proof (total_nonneg seg Hok). unfold DM_OVERHEAD in He.
  destruct Hl as [-> Hl]. cbn.
  rewrite fits_false_lt by (unfold DM_OVERHEAD; done || lia). cbn.
  destruct (Z.eqb_spec (a + e) search); [lia|]. cbn.
  rewrite (IH a) by (done || lia). f_equal; lia.
Qed.

Lemma search_here search prev a e tl n :
  0 <= e - DM_OVERHEAD < 2 ^ 32 → sz <= e - DM_OVERHEAD → links h p prev a ((e, true) :: tl) →
  getmem_search (S n) h search sz a = Some (a, e - DM_OVERHEAD).
Proof.
  intros He Hfit [Ha _]. cbn. rewrite Ha. cbn.
  pose proof (free_size_blk a e true He) as ->.
  destruct (Z.ltb_spec (e - DM_OVERHEAD) sz); [lia|done].
Qed.

(** A whole segment: the first fitting block, or its end. *)
Lemma search_segment search prev a seg n :
  Forall blk_ok seg → total seg < 2 ^ 32 → links h p prev a seg →
  (search <= a ∨ a + total seg < search) →
  getmem_search (length seg + n) h search sz a =
  match split_fit sz seg with
  | Some (pre, e, _) => Some (a + total pre, e - DM_OVERHEAD)
  | None => getmem_search n h search sz (a + total seg)
  end.
Proof using Hsz.
  intros Hok Ht Hl Hs. destruct (split_fit sz seg) as [[[pre e] post]|] eqn:E.
  - apply split_fit_Some in E as (-> & Hpre & Hfit).
    apply Forall_app in Hok as [Hok1 Hok2]. apply Forall_cons in Hok2 as [[He _] Hok2].
    rewrite total_app in Ht, Hs. cbn in He, Ht, Hs. unfold DM_OVERHEAD in He.
    pose proof (total_nonneg pre Hok1). pose proof (total_nonneg post Hok2).
    apply links_app in Hl as [Hl1 Hl2].
    rewrite length_app, <- Nat.add_assoc. rewrite (search_walk _ _ prev) by (done || lia).
    eapply search_here; [unfold DM_OVERHEAD; lia|done|done].
  - apply split_fit_None in E. by eapply search_walk.
Qed.

(** The last block before the search position: the loop ends there either way. *)
Lemma search_last prev a e f n : blk_ok (e, f) → e < 2 ^ 32 → links h p prev a [(e, f)] →
  ∃ q fs, getmem_search (S n) h (a + e) sz a = Some (q, fs)
  ∧ if fits sz (e, f) then q = a ∧ fs = e - DM_OVERHEAD else fs < sz.
Proof using Hsz.
  intros [He _] He2 [Ha _]. cbn in *. unfold DM_OVERHEAD in He.
  rewrite Ha. cbn. rewrite free_size_blk by (unfold DM_OVERHEAD; lia).
  unfold fits; cbn. set (fs := if f then e - DM_OVERHEAD else 0).
  destruct (Z.ltb_spec fs sz) as [Hlt|Hge]; [rewrite Z.eqb_refl|]; cbn;
    do 2 eexists; (split; [done|]); subst fs; destruct f; cbn; try lia;
    destruct (Z.leb_spec sz (e - DM_OVERHEAD)); lia.
Qed.
End Search.

Lemma split_fit_snoc sz l b : split_fit sz (l ++ [b]) =
  match split_fit sz l with
  | Some (pre, e, post) => Some (pre, e, post ++ [b])
  | None => if fits sz b then Some (l, b.1, []) else None
  end.
Proof.
  induction l as [|c l IH]; cbn; [by destruct (fits sz b)|].
  destruct (fits sz c); [done|]. rewrite IH.
  destruct (split_fit sz l) as [[[]]|]; cbn; [done|]. by destruct (fits sz b).
Qed.

(** The whole loop: it starts at [search] and goes round through the trailer. *)
Lemma search_spec h p s l1 l2 sz fuel :
  0 < sz → Forall blk_ok (l1 ++ l2) → total (l1 ++ l2) < 2 ^ 32 →
  rep h p s (s + total (l1 ++ l2)) s (l1 ++ l2) → (length (l1 ++ l2) < fuel)%nat →
  ∃ q fs, getmem_search fuel h (s + total l1) sz (s + total l1) = Some (q, fs)
  ∧ match next_fit sz l1 l2 with
    | Some (pre, e, _) => q = s + total pre ∧ fs = e - DM_OVERHEAD
    | None => fs < sz
    end.
Proof.
  intros Hsz Hok Ht Hr Hfuel. unfold next_fit.
  apply rep_app in Hr as [Hl1 Hr2]. apply Forall_app in Hok as [Hok1 Hok2].
  rewrite total_app in *. pose proof (total_nonneg l1 Hok1). pose proof (total_nonneg l2 Hok2).
  set (prev := last_addr _ s l1) in *.
  rewrite <- (app_nil_r l2) in Hr2. apply rep_app in Hr2 as [Hl2 Hend]. cbn in Hend.
  rewrite length_app in Hfuel.
  destruct (fuel - length l2)%nat as [|n] eqn:En; [lia|].
  replace fuel with (length l2 + S n)%nat by lia.
  rewrite (search_segment h p sz Hsz _ prev) by (done || lia).
  destruct (split_fit sz l2) as [[[pre e] post]|].
  { do 2 eexists; split; [done|]. rewrite total_app. split; lia. }
  cbn [getmem_search]. rewrite Hend. cbn [mbind option_bind dm_memory_free dm_next_memory].
  destruct (Z.ltb_spec 0 sz); [cbn|lia].
  destruct l1 as [|b l1 _] using rev_ind.
  { cbn. destruct (Z.eqb_spec s (s + 0)); [cbn; eauto|lia]. }
  apply Forall_app in Hok1 as [Hok1 Hb]. apply Forall_cons in Hb as [Hb _].
  destruct b as [e f]. pose proof Hb as [He _]. cbn in He. unfold DM_OVERHEAD in He.
  apply links_app in Hl1 as [Hl1 Hb1]. rewrite total_app, length_app in *. cbn [total length] in *.
  pose proof (total_nonneg l1 Hok1).
  destruct (Z.eqb_spec s (s + (total l1 + (e + 0)))); [lia|]. cbn [negb].
  replace n with (length l1 + S (n - S (length l1)))%nat by lia.
  rewrite (search_segment h p sz Hsz _ (s + (total l1 + (e + 0) + total l2))) by (done || lia).
  rewrite split_fit_snoc.
  destruct (split_fit sz l1) as [[[pre e1] post]|]; cbn; [by eauto|].
  destruct (search_last h p sz Hsz _ (s + total l1) e f (n - S (length l1)) Hb ltac:(lia) Hb1)
    as (q & fs & Hgo & Hres).
  replace (s + (total l1 + (e + 0))) with (s + total l1 + e) by lia.
  exists q, fs. split; [exact Hgo|]. by destruct (fits sz (e, f)).
Qed.

(** ** Changing part of the block list *)

Lemma hdr_upd_Some a f h x : h !! a = Some x → hdr_upd a f h = Some (<[a := f x]> h).
Proof. unfold hdr_upd. by intros ->. Qed.

(** [mid] becomes [mid']: the headers inside are rewritten, the one that follows
    gets its back link, everything else stays. *)
Lemma rep_replace h h' p s prev a pre mid mid' post :
  Forall blk_ok pre → Forall blk_ok post → total mid' = total mid →
  rep h p s prev a (pre ++ mid ++ post) →
  (let m := a + total pre in let b := m + total mid in
   links h' p (last_addr prev a pre) m mid'
   ∧ h' !! b = Some (DmHeader (head_next s b post)
                       (last_addr (last_addr prev a pre) m mid') (head_free post) p)
   ∧ ∀ x, a <= x < m ∨ b < x <= b + total post → h' !! x = h !! x) →
  rep h' p s prev a (pre ++ mid' ++ post).
Proof.
  cbn zeta. intros Hpre Hpost Ht Hr (Hm & Hb & Hx).
  apply rep_app in Hr as [Hl Hr]. apply rep_app in Hr as [_ Hr].
  apply rep_app. split.
  { eapply links_frame; [done| |done]. intros. apply Hx. lia. }
  apply rep_app. split; [done|]. rewrite Ht.
  set (b := a + total pre + total mid) in *.
  destruct Hpost as [|[e f] post [He _] Hpost]; cbn in *; [done|].
  split; [done|]. destruct Hr as [_ Hr]. unfold DM_OVERHEAD in He.
  eapply rep_frame; [done| |done]. intros. apply Hx. lia.
Qed.

Lemma rep_at h p s prev a pre e f post : rep h p s prev a (pre ++ (e, f) :: post) →
  h !! (a + total pre) = Some (DmHeader (a + total pre + e) (last_addr prev a pre) f p)
  ∧ h !! (a + total pre + e) = Some (DmHeader (head_next s (a + total pre + e) post)
                                       (a + total pre) (head_free post) p).
Proof.
  intros Hr. apply rep_app in Hr as [_ [Ha Hr]]. split; [done|]. by apply rep_head in Hr.
Qed.

Ltac lookup_hdr := repeat first [rewrite lookup_insert_eq | rewrite lookup_insert_ne by lia].

Lemma rep_set_free h p s prev a pre e f v post :
  Forall blk_ok (pre ++ (e, f) :: post) →
  rep h p s prev a (pre ++ (e, f) :: post) →
  ∃ h', hdr_upd (a + total pre) (hdr_free v) h = Some h'
  ∧ rep h' p s prev a (pre ++ (e, v) :: post).
Proof.
  intros Hok Hr. apply Forall_app in Hok as [Hpre Hok]. apply Forall_cons in Hok as [[He _] Hpost].
  cbn in He. unfold DM_OVERHEAD in He. pose proof (rep_at _ _ _ _ _ _ _ _ _ Hr) as [Ha Hb].
  rewrite (hdr_upd_Some _ _ _ _ Ha). eexists; split; [done|].
  apply (rep_replace h _ p s prev a pre [(e, f)] [(e, v)] post); [done..|].
  cbn. rewrite Z.add_0_r. split_ands; [by lookup_hdr|done|by lookup_hdr|].
  intros x Hx. by lookup_hdr.
Qed.

Lemma getmem_split_ok h p s prev a pool pre e post sz :
  Forall blk_ok (pre ++ (e, true) :: post) →
  rep h p s prev a (pre ++ (e, true) :: post) →
  0 < sz → sz + DM_OVERHEAD < e → 0 <= a + total pre → a + total pre + e < 2 ^ 32 →
  ∃ h', getmem_split p (a + total pre) sz pool h
        = Some (h', pool_available (u32 (u32 (dm_available pool - sz) - DM_OVERHEAD)) pool)
  ∧ rep h' p s prev a (pre ++ [(sz + DM_OVERHEAD, true); (e - sz - DM_OVERHEAD, true)] ++ post).
Proof.
  intros Hok Hr Hsz Hfit Ha0 Hub. apply Forall_app in Hok as [Hpre Hok].
  apply Forall_cons in Hok as [_ Hpost].
  pose proof (rep_at _ _ _ _ _ _ _ _ _ Hr) as [Ha Hb].
  unfold getmem_split. rewrite Ha. cbn [mbind option_bind dm_next_memory].
  set (m := a + total pre) in *. unfold DM_OVERHEAD in *.
  rewrite (u32_small (m + sz)), (u32_small (m + sz + 16)) by (unfold is_u32; lia).
  erewrite hdr_upd_Some by (rewrite lookup_insert_ne by lia; exact Hb). cbn [mbind option_bind].
  erewrite hdr_upd_Some by (rewrite !lookup_insert_ne by lia; exact Ha). cbn [mbind option_bind].
  eexists; split; [done|].
  apply (rep_replace h _ p s prev a pre [(e, true)]
           [(sz + 16, true); (e - sz - 16, true)] post); [done|done|cbn; lia|done|].
  cbn. fold m. rewrite !Z.add_0_r. unfold hdr_next, hdr_prev; cbn. split_ands.
  - lookup_hdr. do 2 f_equal. lia.
  - replace (m + (sz + 16)) with (m + sz + 16) by lia. lookup_hdr. do 2 f_equal. lia.
  - done.
  - lookup_hdr. f_equal. f_equal. lia.
  - intros x Hx. by lookup_hdr.
Qed.

(** ** Allocation *)

Lemma round4_ok n : 0 <= n <= 2 ^ 32 - 4 →
  n <= round4 n < n + 4 ∧ round4 n mod 4 = 0 ∧ round4 n <= 2 ^ 32 - 4.
Proof.
  intros Hn. unfold round4. rewrite (u32_small (n + 4 - 1)) by (unfold is_u32; lia).
  pose proof (Z.div_mod (n + 4 - 1) 4 ltac:(lia)).
  pose proof (Z.mod_pos_bound (n + 4 - 1) 4 ltac:(lia)).
  rewrite u32_small by (unfold is_u32; lia).
  split_ands; [lia|lia|apply Z.mod_mul; lia|lia].
Qed.

Lemma getmem_size_ok pool size : 0 <= size <= 2 ^ 32 - 4 →
  0 < dm_min_allocation pool → dm_min_allocation pool mod 4 = 0 →
  let sz := getmem_size pool size in
  size <= sz ∧ dm_min_allocation pool <= sz ∧ sz mod 4 = 0 ∧ (dm_min_allocation pool <= size → sz < size + 4).
Proof.
  intros Hs Hm Hm4. unfold getmem_size. pose proof (round4_ok size Hs).
  split_guard; cbn zeta; lia.
Qed.

Lemma blk_ok_alloc min sz e : blk_ok (e, true) → 0 < min → 0 < sz → sz mod 4 = 0 →
  Forall blk_ok (alloc_block min sz e) ∧ total (alloc_block min sz e) = e.
Proof.
  unfold blk_ok, alloc_block, DM_OVERHEAD. cbn. intros [He He4] Hm Hs Hs4. split_guard; cbn.
  - split; [|lia]. constructor; [cbn|constructor; [cbn|constructor]]; split; try lia.
    + rewrite Z.add_mod, Hs4 by lia. done.
    + rewrite (Zminus_mod (e - sz)), (Zminus_mod e), He4, Hs4. done.
  - split; [|lia]. by constructor.
Qed.

Lemma coalesced_alloc min sz pre e post :
  coalesced false (pre ++ (e, true) :: post) →
  coalesced false (pre ++ alloc_block min sz e ++ post).
Proof.
  rewrite !coalesced_app. intros [Hpre [Hp Hpost]]. split; [done|].
  unfold alloc_block. split_guard; cbn [app coalesced]; rewrite ?andb_false_r;
    cbn; (split; [done|]); [done|].
  destruct post as [|[e2 f2] post]; [done|]. cbn in *. split; tauto.
Qed.

Lemma avail_alloc min sz pre e post :
  avail (pre ++ alloc_block min sz e ++ post) = avail (pre ++ (e, true) :: post)
    - (if sz + DM_OVERHEAD + min <=? e - DM_OVERHEAD then sz + DM_OVERHEAD else e - DM_OVERHEAD).
Proof.
  rewrite !avail_app. unfold alloc_block. split_guard; cbn [avail app]; lia.
Qed.

Lemma boundary_alloc min sz x a pre e post :
  0 <= sz → boundary x a (pre ++ (e, true) :: post) →
  boundary x a (pre ++ alloc_block min sz e ++ post).
Proof.
  intros Hs. rewrite !boundary_app. cbn. intros [H|[->|H]]; [by left| |].
  - right; left. apply boundary_head.
  - right; right. unfold alloc_block. split_guard; cbn [total].
    + by replace (a + total pre + (sz + DM_OVERHEAD + (e - sz - DM_OVERHEAD + 0)))
        with (a + total pre + e) by lia.
    + by rewrite Z.add_0_r.
Qed.

(** The end of the allocated part, where the search pointer may move. *)
Lemma boundary_alloc_next min sz a pre e post :
  boundary (a + total pre + match alloc_block min sz e with (e', _) :: _ => e' | [] => 0 end) a
    (pre ++ alloc_block min sz e ++ post).
Proof.
  rewrite !boundary_app. right. unfold alloc_block. split_guard; cbn.
  - left. right; left. lia.
  - left. right; left. lia.
Qed.

(** What both branches leave of the headers, before the block is marked. *)
Lemma getmem_carve h p s prev a pool pre e post sz :
  Forall blk_ok (pre ++ (e, true) :: post) →
  rep h p s prev a (pre ++ (e, true) :: post) →
  0 < sz → 0 < dm_min_allocation pool →
  0 <= a + total pre → a + total pre + e + DM_OVERHEAD + dm_min_allocation pool < 2 ^ 32 →
  sz <= e - DM_OVERHEAD → e - DM_OVERHEAD <= dm_available pool →
  dm_available pool < 2 ^ 32 →
  ∃ h', (if u32 (u32 (sz + DM_OVERHEAD) + dm_min_allocation pool) <=? e - DM_OVERHEAD
         then getmem_split p (a + total pre) sz pool h
         else Some (h, pool_available (u32 (dm_available pool - (e - DM_OVERHEAD))) pool))
        = Some (h', pool_available (dm_available pool
            - (if sz + DM_OVERHEAD + dm_min_allocation pool <=? e - DM_OVERHEAD
               then sz + DM_OVERHEAD else e - DM_OVERHEAD)) pool)
  ∧ ∃ e' tl, alloc_block (dm_min_allocation pool) sz e = (e', false) :: tl
    ∧ rep h' p s prev a (pre ++ ((e', true) :: tl) ++ post)
    ∧ Forall blk_ok pre.
Proof.
  intros Hok Hr Hsz Hmin Ha Hub Hfit Hav Hav2. pose proof Hok as [Hpre _]%Forall_app.
  assert (Hu : u32 (u32 (sz + DM_OVERHEAD) + dm_min_allocation pool)
               = sz + DM_OVERHEAD + dm_min_allocation pool).
  { unfold DM_OVERHEAD in *. rewrite (u32_small (sz + 16)) by (unfold is_u32; lia).
    apply u32_small. unfold is_u32. lia. }
  rewrite Hu. unfold alloc_block. split_guard.
  - destruct (getmem_split_ok h p s prev a pool pre e post sz) as (h' & -> & Hr');
      try done; try (unfold DM_OVERHEAD in *; lia).
    exists h'. split; [|by do 2 eexists; split_ands].
    unfold DM_OVERHEAD in *.
    rewrite (u32_small (dm_available pool - sz)), u32_small by (unfold is_u32; lia).
    do 3 f_equal. lia.
  - exists h. split; [|by do 2 eexists; split_ands].
    unfold DM_OVERHEAD in *. by rewrite u32_small by (unfold is_u32; lia).
Qed.

Lemma OS_GetMem_spec m p s min bl l1 l2 pool size :
  pool_inv m p s min bl → dm_pools m !! p = Some pool →
  bl = l1 ++ l2 → dm_search_ptr pool = s + total l1 → 0 <= size <= 2 ^ 32 - 4 →
  let sz := getmem_size pool size in
  match next_fit sz l1 l2 with
  | Some (pre, e, post) => ∃ m',
      OS_GetMem p size m = Some (m', s + total pre + DM_OVERHEAD, OS_ERR_NONE)
      ∧ dm_data m' = dm_data m
      ∧ pool_inv m' p s min (pre ++ alloc_block min sz e ++ post)
  | None => OS_GetMem p size m = Some (m, 0, OS_ERR_MEM_FULL)
  end.
Proof.
  intros Hinv Hpool -> Hsearch Hsize sz.
  destruct Hinv as [(pool' & Hp & Hmin & Hav & Hps & Hb) Hrep Hok Hco [Hm0 Hm4] [Hs0 Hub]].
  rewrite Hpool in Hp. injection Hp as <-.
  unfold DM_OVERHEAD in Hub, Hps. pose proof (total_nonneg _ Hok). pose proof (avail_bounds _ Hok).
  pose proof (getmem_size_ok pool size Hsize ltac:(lia) ltac:(by rewrite Hmin)) as (Hsz1 & Hsz2 & Hsz4 & _).
  fold sz in Hsz1, Hsz2, Hsz4.
  unfold OS_GetMem. rewrite Hpool. cbn [mbind option_bind]. rewrite Hsearch. fold sz.
  destruct (search_spec (dm_headers m) p s l1 l2 sz (S (Z.to_nat (dm_pool_size pool / DM_OVERHEAD))))
    as (q & fs & -> & Hfit); [lia|done|lia|done| |].
  { rewrite Hps. unfold DM_OVERHEAD.
    assert (Z.of_nat (length (l1 ++ l2)) <= (total (l1 ++ l2) + 16) / 16)
      by (apply Z.div_le_lower_bound; lia). lia. }
  cbn [mbind option_bind]. destruct (next_fit sz l1 l2) as [[[pre e] post]|] eqn:Enf.
  2:{ split_guard; [lia|done]. }
  destruct Hfit as [-> ->]. apply next_fit_Some in Enf as [Ebl Hfit]. rewrite Ebl in *.
  pose proof Hok as [Hpre [He Hpost]%Forall_cons]%Forall_app.
  pose proof (total_nonneg pre Hpre). pose proof (total_nonneg post Hpost).
  pose proof (avail_bounds pre Hpre). pose proof (avail_bounds post Hpost).
  rewrite total_app, avail_app in *. cbn [total avail] in *. pose proof He as [He1 _]. cbn in He1.
  unfold DM_OVERHEAD in He1.
  split_guard; [|lia].
  destruct (getmem_carve (dm_headers m) p s (s + (total pre + (e + total post))) s pool pre e post sz)
    as (h1 & -> & e' & tl & Hal & Hr1 & _);
    try done; try (unfold DM_OVERHEAD in *; lia).
  cbn [mbind option_bind].
  destruct (blk_ok_alloc min sz e He) as [Hokal Htal]; [lia..|].
  rewrite Hmin, Hal in *. cbn [app] in Hr1.
  assert (Hok1 : ∀ f, Forall blk_ok (pre ++ (e', f) :: tl ++ post)).
  { intros f. apply Forall_cons in Hokal as [? ?]. apply Forall_app. split; [done|].
    constructor; [done|]. apply Forall_app. done. }
  destruct (rep_set_free _ _ _ _ _ _ _ _ false _ (Hok1 true) Hr1) as (h2 & Hupd & Hr2).
  rewrite Hupd. cbn [mbind option_bind].
  destruct (rep_at _ _ _ _ _ _ _ _ _ Hr2) as [Hat _]. rewrite Hat. cbn [mbind option_bind].
  rewrite (u32_small (s + total pre + DM_OVERHEAD)) by (unfold is_u32, DM_OVERHEAD; lia).
  eexists; split; [reflexivity|]. split; [done|].
  rewrite <- Hal in Htal |- *.
  assert (Htot : total (pre ++ alloc_block min sz e ++ post) = total pre + (e + total post)).
  { rewrite !total_app, Htal. lia. }
  split; cbn [dm_pools dm_headers set_pool set_headers]; rewrite ?Htot.
  - eexists. rewrite lookup_insert_eq. split; [done|].
    pose proof (avail_alloc min sz pre e post) as Hav'. rewrite (avail_app pre (_ :: _)) in Hav'.
    cbn [avail] in Hav'. set (taken := if _ <=? _ then _ else _) in *.
    unfold pool_tracks. cbn.
    destruct (Z.eqb_spec (dm_search_ptr pool) (s + total pre)) as [E|E]; cbn;
      (split_ands; [done|lia|done|]).
    + pose proof (boundary_alloc_next min sz s pre e post) as Hbn. by rewrite Hal in Hbn |- *.
    + apply boundary_alloc; [lia|done].
  - by rewrite Hal.
  - rewrite Hal. apply (Hok1 false).
  - by apply coalesced_alloc.
  - done.
  - unfold DM_OVERHEAD in *. lia.
Qed.

(** ** Deallocation *)

Lemma rep_end h p s prev a bl : rep h p s prev a bl →
  h !! (a + total bl) = Some (DmHeader s (last_addr prev a bl) false p).
Proof. rewrite <- (app_nil_r bl) at 1. rewrite rep_app. by intros [_ ?]. Qed.

Lemma absorb_snoc pre ep f e : absorb_prev (pre ++ [(ep, f)]) e =
  if f then (pre, ep + e) else (pre ++ [(ep, false)], e).
Proof. unfold absorb_prev. rewrite last_snoc. destruct f; [|done]. by rewrite removelast_last. Qed.

Lemma merge_prev_ok h p s a pool pre e post min size :
  let bl := pre ++ (e, true) :: post in
  let '(pre', e') := absorb_prev pre e in
  let bl' := pre' ++ (e', true) :: post in
  Forall blk_ok bl → rep h p s (a + total bl) a bl →
  0 <= a → a + total bl + DM_OVERHEAD < 2 ^ 32 → pool_tracks min a size bl pool →
  ∃ h' pool', freemem_merge_prev (a + total pre) h pool = Some (a + total pre', h', pool')
  ∧ rep h' p s (a + total bl') a bl' ∧ Forall blk_ok bl' ∧ pool_tracks min a size bl' pool'
  ∧ total bl' = total bl.
Proof.
  intros bl. destruct pre as [|[ep f] pre _] using rev_ind.
  { unfold absorb_prev; cbn [last]. intros Hok Hr Ha Hub Ht.
    exists h, pool. split_ands; try done. unfold freemem_merge_prev.
    pose proof (rep_at _ _ _ _ _ [] e true post Hr) as [-> _]. cbn [mbind option_bind].
    cbn [dm_previous_memory last_addr]. by rewrite (rep_end _ _ _ _ _ _ Hr). }
  rewrite absorb_snoc. subst bl. rewrite <- app_assoc, total_snoc. cbn [app].
  destruct f; cbn [fst snd]; intros Hok Hr Ha Hub Ht.
  2:{ rewrite <- app_assoc, total_snoc. cbn [app].
    exists h, pool. split_ands; try done. unfold freemem_merge_prev.
    apply rep_app in Hr as [_ [Hm [Hme _]]]. rewrite Z.add_assoc, Hme. cbn [mbind option_bind].
    cbn [dm_previous_memory]. by rewrite Hm. }
  set (bl' := pre ++ (ep + e, true) :: post).
  pose proof Hok as [Hpre [Hep [He Hpost]%Forall_cons]%Forall_cons]%Forall_app.
  destruct Hep as [Hep Hep4], He as [He He4]. cbn in Hep, Hep4, He, He4.
  assert (Htot : total bl' = total (pre ++ (ep, true) :: (e, true) :: post)).
  { subst bl'. rewrite !total_app. cbn. lia. }
  assert (Hav : avail bl' = avail (pre ++ (ep, true) :: (e, true) :: post) + DM_OVERHEAD).
  { subst bl'. rewrite !avail_app. cbn. lia. }
  assert (Hok' : Forall blk_ok bl').
  { apply Forall_app. split; [done|]. constructor; [|done]. split; cbn; [unfold DM_OVERHEAD in *; lia|].
    by rewrite Z.add_mod, Hep4, He4. }
  pose proof (avail_bounds _ Hok') as Hab. unfold DM_OVERHEAD in Hep, He, Hub, Hav.
  rewrite Htot. set (T := a + total (pre ++ _)) in *. set (m := a + total pre) in *.
  pose proof Hr as [_ [Hm [Hme Hrp]]]%rep_app. fold m in Hm, Hme, Hrp. apply rep_head in Hrp.
  unfold freemem_merge_prev. replace (a + (total pre + ep)) with (m + ep) by lia.
  rewrite Hme. cbn [mbind option_bind dm_previous_memory dm_next_memory]. rewrite Hm.
  cbn [mbind option_bind dm_memory_free].
  rewrite (hdr_upd_Some _ _ _ _ Hm). cbn [mbind option_bind].
  erewrite hdr_upd_Some by (rewrite lookup_insert_ne by lia; exact Hrp). cbn [mbind option_bind].
  do 2 eexists; split; [done|]. split_ands; [|done| |done].
  - apply (rep_replace h _ p s T a pre [(ep, true); (e, true)] [(ep + e, true)] post);
      [done|done|cbn; lia|done|]. cbn. fold m. rewrite !Z.add_0_r.
    replace (m + (ep + e)) with (m + ep + e) by lia.
    split_ands; [by lookup_hdr|done|by lookup_hdr|].
    intros x Hx. by lookup_hdr.
  - destruct Ht as (Hmin & Hava & Hsize & Hb). unfold pool_tracks, DM_OVERHEAD in *. cbn.
    split_ands; [done| |done|].
    + rewrite Hava, u32_small; [lia|]. unfold is_u32. lia.
    + apply boundary_app. right. apply boundary_head.
Qed.

Lemma merge_next_ok h p s T a pool pre e post min size :
  let bl := pre ++ (e, true) :: post in
  let bl' := pre ++ join_next e post in
  Forall blk_ok bl → rep h p s T a bl →
  0 <= a → a + total bl + DM_OVERHEAD < 2 ^ 32 → pool_tracks min a size bl pool →
  ∃ h' pool', freemem_merge_next (a + total pre) h pool = Some (h', pool')
  ∧ rep h' p s T a bl' ∧ Forall blk_ok bl' ∧ pool_tracks min a size bl' pool'
  ∧ total bl' = total bl.
Proof.
  intros bl bl' Hok Hr Ha Hub Ht. unfold freemem_merge_next.
  set (m := a + total pre) in *.
  pose proof Hok as [Hpre [[He He4] Hpost]%Forall_cons]%Forall_app. cbn in He, He4.
  pose proof Hr as [_ [Hm Hrn]]%rep_app. fold m in Hm, Hrn. pose proof (rep_head _ _ _ _ _ _ Hrn) as Hn.
  rewrite Hm. cbn [mbind option_bind dm_next_memory]. rewrite Hn.
  cbn [mbind option_bind dm_memory_free].
  assert (Hcase : head_free post = false ∧ bl' = bl ∨ ∃ en tl, post = (en, true) :: tl).
  { destruct post as [|[en [|]] tl]; [by left|by right; eauto|by left]. }
  destruct Hcase as [[-> ->]|(en & tl & Epost)]; [by exists h, pool; split_ands|].
  subst bl bl'. rewrite Epost in *. cbn [join_next head_free head_next dm_next_memory] in *.
  pose proof Hpost as [[Hen Hen4] Htl]%Forall_cons. cbn in Hen, Hen4.
  destruct Hrn as [_ Hrt]. apply rep_head in Hrt.
  assert (Htot : total (pre ++ (e + en, true) :: tl) = total (pre ++ (e, true) :: (en, true) :: tl)).
  { rewrite !total_app. cbn. lia. }
  assert (Hav : avail (pre ++ (e + en, true) :: tl)
                = avail (pre ++ (e, true) :: (en, true) :: tl) + DM_OVERHEAD).
  { rewrite !avail_app. cbn. lia. }
  assert (Hok' : Forall blk_ok (pre ++ (e + en, true) :: tl)).
  { apply Forall_app. split; [done|]. constructor; [|done]. split; cbn; [unfold DM_OVERHEAD in *; lia|].
    by rewrite Z.add_mod, He4, Hen4. }
  pose proof (avail_bounds _ Hok') as Hab. unfold DM_OVERHEAD in He, Hen, Hub, Hav.
  rewrite (hdr_upd_Some _ _ _ _ Hrt). cbn [mbind option_bind].
  erewrite hdr_upd_Some by (rewrite lookup_insert_ne by lia; exact Hm). cbn [mbind option_bind].
  do 2 eexists; split; [done|]. split_ands; [|done| |done].
  - apply (rep_replace h _ p s T a pre [(e, true); (en, true)] [(e + en, true)] tl);
      [done|done|cbn; lia|done|]. cbn. fold m. rewrite !Z.add_0_r.
    replace (m + (e + en)) with (m + e + en) by lia.
    split_ands; [by lookup_hdr|done|by lookup_hdr|].
    intros x Hx. by lookup_hdr.
  - destruct Ht as (Hmin & Hava & Hsize & Hb). unfold pool_tracks, DM_OVERHEAD in *. cbn.
    split_ands; [done| |done|].
    + rewrite Hava, u32_small; [lia|]. unfold is_u32. lia.
    + apply boundary_app. right. apply boundary_head.
Qed.

Lemma coalesced_free pre e post :
  coalesced false (pre ++ (e, false) :: post) → coalesced false (free_block pre e post).
Proof.
  unfold free_block. rewrite coalesced_app. cbn [coalesced]. intros (Hpre & _ & Hpost).
  assert (Hj : ∀ e, coalesced false (join_next e post)).
  { intros e0. destruct post as [|[en [|]] tl]; cbn in *; tauto. }
  destruct pre as [|[ep f] pre _] using rev_ind; [cbn; apply Hj|].
  rewrite absorb_snoc. apply coalesced_app in Hpre as [Hpre [Hep _]].
  destruct f; cbn [fst snd]; rewrite ?coalesced_app; split_ands; try done.
  - rewrite andb_true_r in Hep. rewrite Hep. apply Hj.
  - rewrite last_snoc. apply Hj.
Qed.

Lemma OS_FreeMem_spec m p s min pre e post :
  pool_inv m p s min (pre ++ (e, false) :: post) →
  ∃ m', OS_FreeMem (s + total pre + DM_OVERHEAD) m = Some (m', OS_ERR_NONE)
  ∧ dm_data m' = dm_data m ∧ pool_inv m' p s min (free_block pre e post).
Proof.
  intros [(pool & Hp & Ht) Hrep Hok Hco Hmin [Hs0 Hub]].
  set (bl := pre ++ (e, false) :: post) in *. set (bl1 := pre ++ (e, true) :: post).
  assert (Htot1 : total bl1 = total bl) by (subst bl bl1; rewrite !total_app; done).
  assert (Hav1 : avail bl1 = avail bl + (e - DM_OVERHEAD))
    by (subst bl bl1; rewrite !avail_app; cbn [avail]; lia).
  pose proof Hok as [Hpre [[He He4] Hpost]%Forall_cons]%Forall_app. cbn in He, He4.
  assert (Hok1 : Forall blk_ok bl1) by (apply Forall_app; split; [done|by constructor]).
  pose proof (total_nonneg pre Hpre). pose proof (total_nonneg post Hpost).
  pose proof (avail_bounds _ Hok). pose proof (avail_bounds _ Hok1).
  assert (Htot : total bl = total pre + e + total post) by (subst bl; rewrite total_app; cbn; lia).
  unfold OS_FreeMem. rewrite (u32_small (_ - _)) by (unfold is_u32, DM_OVERHEAD in *; lia).
  replace (s + total pre + DM_OVERHEAD - DM_OVERHEAD) with (s + total pre) by lia.
  destruct (rep_at _ _ _ _ _ _ _ _ _ Hrep) as [Hat _]. rewrite Hat.
  cbn [mbind option_bind dm_memory_pool dm_next_memory]. rewrite Hp. cbn [mbind option_bind].
  destruct (rep_set_free _ _ _ _ _ _ _ _ true _ Hok Hrep) as (h1 & -> & Hr1).
  cbn [mbind option_bind]. fold bl1 in Hr1.
  set (pool1 := pool_available
    (u32 (u32 (dm_available pool + u32 (s + total pre + e - (s + total pre))) - DM_OVERHEAD)) pool).
  assert (Ht1 : pool_tracks min s (total bl) bl1 pool1).
  { destruct Ht as (? & Hava & ? & Hb). unfold pool_tracks, pool1; cbn. split_ands; try done.
    - unfold DM_OVERHEAD in *. rewrite (u32_small (_ - (s + total pre))) by (unfold is_u32; lia).
      rewrite (u32_small (dm_available pool + _)), u32_small by (unfold is_u32; lia). lia.
    - revert Hb. subst bl bl1. by rewrite !boundary_app. }
  pose proof (merge_prev_ok h1 p s s pool1 pre e post min (total bl)) as Hmp.
  unfold free_block. destruct (absorb_prev pre e) as [pre' e'] eqn:Eab. cbn [fst snd].
  cbn zeta in Hmp. fold bl1 in Hmp. destruct (Hmp Hok1 ltac:(by rewrite Htot1) ltac:(lia) ltac:(lia) Ht1)
    as (h2 & pool2 & -> & Hr2 & Hok2 & Ht2 & Htot2). cbn [mbind option_bind].
  fold bl1 in Htot2.
  destruct (merge_next_ok h2 p s _ s pool2 pre' e' post min (total bl) Hok2 Hr2 ltac:(lia) ltac:(lia) Ht2)
    as (h3 & pool3 & -> & Hr3 & Hok3 & Ht3 & Htot3). cbn [mbind option_bind].
  eexists; split; [done|]. split; [done|].
  split; cbn [dm_pools dm_headers set_pool set_headers].
  - eexists. rewrite lookup_insert_eq. split; [done|]. by rewrite Htot3, Htot2, Htot1.
  - by rewrite Htot3.
  - done.
  - pose proof (coalesced_free _ _ _ Hco) as Hc. unfold free_block in Hc. by rewrite Eab in Hc.
  - done.
  - lia.
Qed.

(** ** What the allocator promises its callers *)

(** The blocks handed out: user address and usable bytes. *)
Fixpoint used (a : Z) (bl : list blk) : list (Z * Z) :=
  match bl with
  | [] => []
  | (e, f) :: tl => (if f : bool then [] else [(a + DM_OVERHEAD, e - DM_OVERHEAD)]) ++ used (a + e) tl
  end.

Lemma used_app a l1 l2 : used a (l1 ++ l2) = used a l1 ++ used (a + total l1) l2.
Proof.
  revert a. induction l1 as [|[e f] l1 IH]; intros a; cbn; [by rewrite Z.add_0_r|].
  rewrite IH, Z.add_assoc. by rewrite app_assoc.
Qed.
Lemma used_elem a bl ptr n : (ptr, n) ∈ used a bl →
  ∃ pre e post, bl = pre ++ (e, false) :: post ∧ ptr = a + total pre + DM_OVERHEAD
    ∧ n = e - DM_OVERHEAD.
Proof.
  revert a. induction bl as [|[e f] bl IH]; intros a; cbn; [by intros ?%elem_of_nil|].
  intros [H|H]%elem_of_app.
  - destruct f; [by apply elem_of_nil in H|]. apply list_elem_of_singleton in H as [= -> ->].
    exists [], e, bl. split_ands; [done|cbn; lia|done].
  - destruct (IH _ H) as (pre & e0 & post & -> & -> & ->).
    exists ((e, f) :: pre), e0, post. split_ands; [done|cbn; lia|done].
Qed.
Lemma used_alloc min sz a e : sz <= e - DM_OVERHEAD →
  ∃ n, sz <= n ∧ used a (alloc_block min sz e) = [(a + DM_OVERHEAD, n)].
Proof.
  intros Hfit. unfold alloc_block. split_guard; cbn; eexists; (split; [|done]); lia.
Qed.
Lemma used_free a pre e post :
  used a (pre ++ (e, false) :: post) ≡ₚ
  (a + total pre + DM_OVERHEAD, e - DM_OVERHEAD) :: used a (free_block pre e post).
Proof.
  assert (Hj : ∀ a e, used a (join_next e post) = used (a + e) post).
  { intros a0 e0. destruct post as [|[en [|]] tl]; cbn; [done| |done]. by rewrite Z.add_assoc. }
  rewrite used_app. cbn. rewrite <- Permutation_middle. f_equiv. unfold free_block.
  destruct pre as [|[ep f] pre _] using rev_ind.
  { cbn. by rewrite Hj, Z.add_0_r. }
  rewrite absorb_snoc, total_snoc. destruct f; cbn [fst snd]; rewrite !used_app, Hj; cbn.
  - rewrite app_nil_r. replace (a + (total pre + ep) + e) with (a + total pre + (ep + e)) by lia.
    done.
  - rewrite total_snoc. done.
Qed.
Lemma used_range a bl ptr n : Forall blk_ok bl → (ptr, n) ∈ used a bl →
  a + DM_OVERHEAD <= ptr ∧ 0 <= n ∧ ptr + n <= a + total bl.
Proof.
  intros Hok (pre & e & post & -> & -> & ->)%used_elem.
  apply Forall_app in Hok as [Hpre [[He _] Hpost]%Forall_cons]. cbn in He.
  pose proof (total_nonneg pre Hpre). pose proof (total_nonneg post Hpost).
  rewrite total_app. cbn. lia.
Qed.

(** The memory the allocator has handed out is sound: every allocated block
    lies inside the pool behind its header, and two different allocated blocks
    never overlap, not even with each other's header. *)
Theorem allocated_blocks_disjoint m p s min bl :
  pool_inv m p s min bl →
  (∀ ptr n, (ptr, n) ∈ used s bl → s + DM_OVERHEAD <= ptr ∧ ptr + n <= s + total bl)
  ∧ ∀ l1 l2 l3 p1 n1 p2 n2, used s bl = l1 ++ (p1, n1) :: l2 ++ (p2, n2) :: l3 →
      p1 + n1 + DM_OVERHEAD <= p2.
Proof.
  intros [_ _ Hok _ _ _]. split.
  { intros ptr n H. pose proof (used_range _ _ _ _ Hok H). lia. }
  generalize dependent s. induction Hok as [|[e f] bl [He _] Hok IH]; intros s l1 l2 l3 p1 n1 p2 n2 Hu.
  { by destruct l1. }
  cbn in Hu, He. destruct f; cbn in Hu; [by eapply IH|].
  destruct l1 as [|x l1]; cbn in Hu; [injection Hu as <- <- E2|injection Hu as _ E2].
  - assert (Hin : (p2, n2) ∈ used (s + e) bl).
    { rewrite E2. apply elem_of_app. right. left. }
    pose proof (used_range _ _ _ _ Hok Hin). lia.
  - by eapply IH.
Qed.

(** The request as the allocator rounds it. *)
Definition dm_request (min size : Z) : Z := if size <? min then min else round4 size.

Lemma getmem_size_request pool size : getmem_size pool size = dm_request (dm_min_allocation pool) size.
Proof. done. Qed.

Lemma malloc_cases m p s min bl size : pool_inv m p s min bl → 0 <= size <= 2 ^ 32 - 4 →
  (∃ pre e post m', bl = pre ++ (e, true) :: post ∧ dm_request min size <= e - DM_OVERHEAD
     ∧ OSMMalloc p size m = Some (m', s + total pre + DM_OVERHEAD)
     ∧ dm_data m' = dm_data m
     ∧ pool_inv m' p s min (pre ++ alloc_block min (dm_request min size) e ++ post))
  ∨ (Forall (λ b, fits (dm_request min size) b = false) bl ∧ OSMMalloc p size m = Some (m, 0)).
Proof.
  intros Hinv Hsize. pose proof Hinv as [(pool & Hp & Hmin & _ & _ & Hb) _ _ _ _ _].
  destruct (boundary_split _ _ _ Hb) as (l1 & l2 & -> & Hs).
  pose proof (OS_GetMem_spec _ _ _ _ _ l1 l2 pool size Hinv Hp eq_refl Hs Hsize) as Hspec.
  cbn zeta in Hspec. rewrite getmem_size_request, Hmin in Hspec. unfold OSMMalloc.
  destruct (next_fit _ l1 l2) as [[[pre e] post]|] eqn:E.
  - left. apply next_fit_Some in E as [Ebl Hfit]. destruct Hspec as (m' & -> & Hd & Hinv').
    exists pre, e, post, m'. split_ands; done.
  - right. apply next_fit_None in E. rewrite Hspec. done.
Qed.

(** [OSMMalloc] of [size] bytes returns a fresh block of at least [size]
    bytes, added to the blocks in use and leaving all others as they are, or
    NULL with the memory unchanged, and NULL only when no free block can hold
    the rounded request.  The pool's invariant is kept. *)
Theorem OSMMalloc_spec m p s min bl size :
  pool_inv m p s min bl → 0 <= size <= 2 ^ 32 - 4 →
  (∃ m' ptr n bl', OSMMalloc p size m = Some (m', ptr) ∧ ptr ≠ 0 ∧ size <= n
     ∧ pool_inv m' p s min bl' ∧ used s bl' ≡ₚ (ptr, n) :: used s bl)
  ∨ (OSMMalloc p size m = Some (m, 0)
     ∧ ∀ e, (e, true) ∈ bl → e - DM_OVERHEAD < dm_request min size).
Proof.
  intros Hinv Hsize. pose proof Hinv as [_ _ Hok _ [Hm0 Hm4] [Hs0 _]].
  destruct (malloc_cases _ _ _ _ _ _ Hinv Hsize) as [(pre & e & post & m' & -> & Hfit & E & _ & Hinv')|[Hno E]].
  - left. destruct (used_alloc min (dm_request min size) (s + total pre) e Hfit) as (n & Hn & Hu).
    pose proof Hok as [Hpre [He _]%Forall_cons]%Forall_app. pose proof (total_nonneg pre Hpre).
    assert (Hreq : size <= dm_request min size /\ 0 < dm_request min size /\ dm_request min size mod 4 = 0).
    { unfold dm_request. pose proof (round4_ok size Hsize). split_guard; split_ands; lia. }
    destruct (blk_ok_alloc min (dm_request min size) e He) as [_ Htot]; [lia..|].
    exists m', (s + total pre + DM_OVERHEAD), n, (pre ++ alloc_block min (dm_request min size) e ++ post).
    split_ands; [done|unfold DM_OVERHEAD; lia|lia|done|].
    rewrite !used_app, Hu, Htot. cbn. by rewrite <- Permutation_middle.
  - right. split; [done|]. intros e He. rewrite Forall_forall in Hno.
    specialize (Hno _ He). unfold fits in Hno. cbn in Hno. by apply Z.leb_gt in Hno.
Qed.

(** [OSMFree] of a block in use returns it to the pool: it disappears from
    the blocks in use, every other block stays, the free neighbours are merged
    so that the pool never holds two adjacent free blocks, and the count of
    available bytes stays exact (all part of the invariant). *)
Theorem OSMFree_spec m p s min bl ptr n :
  pool_inv m p s min bl → (ptr, n) ∈ used s bl →
  ∃ m' bl', OSMFree ptr m = Some m' ∧ pool_inv m' p s min bl'
  ∧ used s bl ≡ₚ (ptr, n) :: used s bl'.
Proof.
  intros Hinv (pre & e & post & -> & -> & ->)%used_elem.
  destruct (OS_FreeMem_spec _ _ _ _ _ _ _ Hinv) as (m' & E & _ & Hinv').
  unfold OSMFree. rewrite E. do 2 eexists; split_ands; [done|done|]. apply used_free.
Qed.

Lemma free_alloc_block min sz pre e post : coalesced false (pre ++ (e, true) :: post) →
  let b := alloc_block min sz e in
  ∃ e' rest, b = (e', false) :: rest ∧ free_block pre e' (rest ++ post) = pre ++ (e, true) :: post.
Proof.
  intros Hco. apply coalesced_app in Hco as [_ [Hpre Hpost]]. rewrite andb_true_r in Hpre.
  assert (Hab : ∀ e, absorb_prev pre e = (pre, e)).
  { intros e0. unfold absorb_prev. by destruct (last pre) as [[ep [|]]|]. }
  unfold alloc_block. split_guard; cbn; do 2 eexists; (split; [done|]);
    unfold free_block; rewrite Hab; cbn.
  - do 3 f_equal. lia.
  - destruct post as [|[en [|]] post]; cbn in *; [done| |done]. by destruct Hpost.
Qed.

(** Allocating a block and freeing it gives back the very same sequence of
    blocks: splitting and merging are inverse, so no fragmentation remains. *)
Theorem malloc_free_roundtrip m p s min bl size m1 ptr :
  pool_inv m p s min bl → 0 <= size <= 2 ^ 32 - 4 →
  OSMMalloc p size m = Some (m1, ptr) → ptr ≠ 0 →
  ∃ m2, OSMFree ptr m1 = Some m2 ∧ pool_inv m2 p s min bl.
Proof.
  intros Hinv Hsize E Hptr. pose proof Hinv as [_ _ _ Hco _ _].
  destruct (malloc_cases _ _ _ _ _ _ Hinv Hsize)
    as [(pre & e & post & m' & -> & _ & E' & _ & Hinv')|[_ E']];
    rewrite E in E'; [|by injection E'].
  injection E' as <- ->.
  destruct (free_alloc_block min (dm_request min size) pre e post Hco) as (e' & rest & Eb & Efree).
  rewrite Eb in Hinv'. cbn [app] in Hinv'.
  destruct (OS_FreeMem_spec _ _ _ _ _ _ _ Hinv') as (m2 & E2 & _ & Hinv2).
  unfold OSMFree. rewrite E2. exists m2. split; [done|]. by rewrite Efree in Hinv2.
Qed.

(** ** The system pool over its whole life *)

Lemma pool_inv_init p s m : 0 < s → s + OS_DMEM_POOL_SIZE < 2 ^ 31 →
  pool_inv (OS_DMemInit p s m) p s 16 [(20464, true)].
Proof.
  intros Hs Hub. unfold OS_DMEM_POOL_SIZE in Hub. unfold OS_DMemInit.
  unfold OS_Create_Memory_Pool. change (OS_DMEM_POOL_SIZE / 4 * 4) with 20480.
  change (u32 (20480 - 2 * DM_OVERHEAD)) with 20448. unfold DM_OVERHEAD.
  rewrite (u32_small (s + 20448)), (u32_small (s + 20448 + 16)) by (unfold is_u32; lia).
  split; cbn.
  - eexists. rewrite lookup_insert_eq. split; [done|]. unfold pool_tracks; cbn. auto.
  - replace (s + (20464 + 0)) with (s + 20448 + 16) by lia.
    replace (s + 20464) with (s + 20448 + 16) by lia. split; by lookup_hdr.
  - repeat constructor; cbn; done || lia.
  - done.
  - done.
  - unfold DM_OVERHEAD; lia.
Qed.

(** The memories a program can reach from [OS_DMemInit] by allocating blocks and
    freeing blocks it holds; [held] are the pointers it holds. *)
Section Reachable.
Context (p s : Z).
Inductive dm_reachable : dm_mem → list Z → Prop :=
| reach_init m : dm_reachable (OS_DMemInit p s m) []
| reach_malloc m held size m' ptr : dm_reachable m held → 0 <= size <= 2 ^ 32 - 4 →
    OSMMalloc p size m = Some (m', ptr) →
    dm_reachable m' (if ptr =? 0 then held else ptr :: held)
| reach_free m held1 held2 ptr m' : dm_reachable m (held1 ++ ptr :: held2) →
    OSMFree ptr m = Some m' → dm_reachable m' (held1 ++ held2).
End Reachable.

Lemma OSMMalloc_step m p s min bl size m' ptr :
  pool_inv m p s min bl → 0 <= size <= 2 ^ 32 - 4 → OSMMalloc p size m = Some (m', ptr) →
  ∃ bl', pool_inv m' p s min bl'
  ∧ (used s bl').*1 ≡ₚ (if ptr =? 0 then [] else [ptr]) ++ (used s bl).*1.
Proof.
  intros Hinv Hsize E. pose proof Hinv as [_ _ Hok _ [Hm0 Hm4] [Hs0 _]].
  destruct (malloc_cases _ _ _ _ _ _ Hinv Hsize)
    as [(pre & e & post & m2 & -> & Hfit & E' & _ & Hinv')|[_ E']];
    rewrite E in E'; injection E' as -> ->; [|by exists bl].
  destruct (used_alloc min (dm_request min size) (s + total pre) e Hfit) as (n & Hn & Hu).
  pose proof Hok as [Hpre [He _]%Forall_cons]%Forall_app. pose proof (total_nonneg pre Hpre).
  pose proof (round4_ok size Hsize).
  destruct (blk_ok_alloc min (dm_request min size) e He) as [_ Htot];
    [unfold dm_request; repeat split_guard; lia..|].
  eexists. split; [exact Hinv'|]. unfold DM_OVERHEAD in *. split_guard; [lia|].
  rewrite !used_app, Hu, Htot, !fmap_app. cbn. by rewrite <- Permutation_middle.
Qed.

Lemma dm_reachable_inv p s m held : 0 < s → s + OS_DMEM_POOL_SIZE < 2 ^ 31 →
  dm_reachable p s m held → ∃ bl, pool_inv m p s 16 bl ∧ (used s bl).*1 ≡ₚ held.
Proof.
  intros Hs Hub. induction 1 as [m|m held size m' ptr _ IH Hsize E|m held1 held2 ptr m' _ IH E].
  - exists [(20464, true)]. split; [by apply pool_inv_init|done].
  - destruct IH as (bl & Hinv & Hu).
    destruct (OSMMalloc_step _ _ _ _ _ _ _ _ Hinv Hsize E) as (bl' & Hinv' & Hu').
    exists bl'. split; [done|]. rewrite Hu', Hu. by destruct (ptr =? 0).
  - destruct IH as (bl & Hinv & Hu).
    assert (Hin : ptr ∈ (used s bl).*1). { rewrite Hu. apply elem_of_app. right. left. }
    apply list_elem_of_fmap in Hin as ([p0 n] & -> & Hin). cbn in *.
    destruct (used_elem _ _ _ _ Hin) as (pre & e & post & -> & -> & ->).
    destruct (OS_FreeMem_spec _ _ _ _ _ _ _ Hinv) as (m2 & E2 & _ & Hinv2).
    unfold OSMFree in E. rewrite E2 in E. injection E as <-. eexists; split; [done|].
    rewrite (used_free s pre e post) in Hu. cbn in Hu.
    rewrite <- Permutation_middle in Hu. by apply Permutation_cons_inv in Hu.
Qed.

(** C8: let the pool lie below [2^31], and let a program, after [OS_DMemInit], make any
    sequence of allocations of at most [2^32 - 4] bytes each and deallocations of pointers
    it holds.  Then the block list stays well formed, the blocks in use are exactly those
    the program holds, and neither the next such allocation nor the next deallocation of a
    held pointer reads a header that is not there (no fault, and the search loop ends).
    The limit on the size is needed: the rounding of a larger request wraps to zero, and
    the block handed out is damaged ([OSMMalloc_huge_request_wraps]).  Freeing a pointer
    that is not held is outside the claim. *)
Theorem dmem_never_faults p s m held :
  0 < s → s + OS_DMEM_POOL_SIZE < 2 ^ 31 → dm_reachable p s m held →
  (∃ bl, pool_inv m p s 16 bl ∧ (used s bl).*1 ≡ₚ held)
  ∧ (∀ size, 0 <= size <= 2 ^ 32 - 4 → is_Some (OSMMalloc p size m))
  ∧ ∀ ptr, ptr ∈ held → is_Some (OSMFree ptr m).
Proof.
  intros Hs Hub Hr. destruct (dm_reachable_inv _ _ _ _ Hs Hub Hr) as (bl & Hinv & Hu).
  split_ands; [by eauto| |].
  - intros size Hsize. destruct (malloc_cases _ _ _ _ _ _ Hinv Hsize)
      as [(? & ? & ? & ? & _ & _ & -> & _)|[_ ->]]; by eexists.
  - intros ptr. rewrite <- Hu. intros ([p0 n] & -> & Hin)%list_elem_of_fmap. cbn.
    destruct (used_elem _ _ _ _ Hin) as (pre & e & post & -> & -> & ->).
    destruct (OS_FreeMem_spec _ _ _ _ _ _ _ Hinv) as (m2 & E2 & _).
    unfold OSMFree. rewrite E2. by eexists.
Qed.

Lemma clear_bytes_lookup p n d x : 0 <= n →
  clear_bytes p n d !! x = if bool_decide (p <= x < p + n) then Some 0 else d !! x.
Proof.
  intros Hn. rewrite <- (Z2Nat.id n Hn). generalize (Z.to_nat n). intros k. clear n Hn.
  unfold clear_bytes. induction k as [|k IH].
  - cbn. by rewrite bool_decide_eq_false_2 by lia.
  - rewrite seqZ_S, foldl_snoc. cbn beta.
    destruct (decide (x = p + (0 + Z.of_nat k))) as [->|Hne].
    + rewrite lookup_insert_eq. by rewrite bool_decide_eq_true_2 by lia.
    + rewrite lookup_insert_ne by done. rewrite IH.
      destruct (bool_decide_reflect (p <= x < p + Z.of_nat k));
        [rewrite bool_decide_eq_true_2 by lia|rewrite bool_decide_eq_false_2 by lia]; done.
Qed.

(** When [count * size] fits the machine word, a non-NULL result of
    [OSMCalloc] is a fresh block of at least [count * size] bytes whose first
    [count * size] bytes are zero, and no byte outside that block changes. *)
Theorem OSMCalloc_zeroed m p s min bl count size m' ptr :
  pool_inv m p s min bl → 0 <= count * size <= 2 ^ 32 - 4 →
  OSMCalloc p count size m = Some (m', ptr) → ptr ≠ 0 →
  ∃ bl' n, pool_inv m' p s min bl' ∧ used s bl' ≡ₚ (ptr, n) :: used s bl ∧ count * size <= n
  ∧ (∀ x, ptr <= x < ptr + count * size → dm_data m' !! x = Some 0)
  ∧ ∀ x, ¬ (ptr <= x < ptr + n) → dm_data m' !! x = dm_data m !! x.
Proof.
  intros Hinv Hsize E Hptr. unfold OSMCalloc in E. rewrite (u32_small (count * size)) in E
    by (unfold is_u32; lia).
  pose proof Hinv as [_ _ Hok _ [Hm0 Hm4] _]. pose proof (round4_ok _ Hsize).
  destruct (malloc_cases _ _ _ _ _ _ Hinv Hsize)
    as [(pre & e & post & m1 & -> & Hfit & E1 & Hd & Hinv')|[_ E1]];
    rewrite E1 in E; cbn in E; injection E as <- Ep; [|congruence]. subst ptr.
  destruct (Z.eqb_spec (s + total pre + DM_OVERHEAD) 0); [congruence|].
  destruct (used_alloc min (dm_request min (count * size)) (s + total pre) e Hfit) as (n0 & Hn & Hu).
  pose proof Hok as [Hpre [He _]%Forall_cons]%Forall_app.
  destruct (blk_ok_alloc min (dm_request min (count * size)) e He) as [_ Htot];
    [unfold dm_request; repeat split_guard; lia..|].
  assert (Hle : count * size <= n0) by (unfold dm_request in Hn; revert Hn; split_guard; lia).
  exists (pre ++ alloc_block min (dm_request min (count * size)) e ++ post), n0.
  split_ands; [|  |done| |]; cbn [dm_data set_data].
  - destruct Hinv' as [H1 H2 H3 H4 H5 H6]. by split.
  - rewrite !used_app, Hu, Htot. cbn. by rewrite <- Permutation_middle.
  - intros x Hx. rewrite clear_bytes_lookup by lia. by rewrite bool_decide_eq_true_2 by lia.
  - intros x Hx. rewrite clear_bytes_lookup, bool_decide_eq_false_2, Hd by lia. done.
Qed.

(** Rounding a request of more than [2^32 - 4] bytes wraps to zero, so
    [OSMMalloc(0xFFFFFFFF)] on a fresh pool succeeds and hands out a block with no
    byte in it (its header's successor starts where the user data would). *)
Theorem OSMMalloc_huge_request_wraps :
  ∃ m' x,
  OSMMalloc 0x20000000 (2 ^ 32 - 1) (OS_DMemInit 0x20000000 0x20001000 (DmMem ∅ ∅ ∅ 0))
    = Some (m', 0x20001010)
  ∧ dm_headers m' !! 0x20001000 = Some x ∧ dm_next_memory x = 0x20001010.
Proof. do 2 eexists. split; [vm_compute; reflexivity|]. split; vm_compute; reflexivity. Qed.

(** ** Witnesses: a pool at a concrete address *)

Definition demo_pool : dm_mem := OS_DMemInit 0x20000000 0x20001000 (DmMem ∅ ∅ ∅ 0).
Definition demo_pool1 : dm_mem := default demo_pool (fst <$> OSMMalloc 0x20000000 100 demo_pool).

Lemma demo_pool_inv : pool_inv demo_pool 0x20000000 0x20001000 16 [(20464, true)].
Proof. apply pool_inv_init; unfold OS_DMEM_POOL_SIZE; lia. Qed.
Lemma demo_pool1_eq : OSMMalloc 0x20000000 100 demo_pool = Some (demo_pool1, 0x20001010).
Proof. vm_compute. reflexivity. Qed.
Lemma demo_pool1_inv :
  pool_inv demo_pool1 0x20000000 0x20001000 16 [(116, false); (20348, true)].
Proof.
  destruct (malloc_cases _ _ _ _ _ 100 demo_pool_inv ltac:(lia))
    as [(pre & e & post & m' & Ebl & _ & E & _ & Hinv)|[Hno _]].
  - rewrite demo_pool1_eq in E. injection E as <- E. destruct pre as [|b pre].
    + cbn in Ebl. injection Ebl as <- <-. exact Hinv.
    + by destruct pre.
  - apply Forall_cons in Hno as [Hno _]. vm_compute in Hno. done.
Qed.

Lemma allocated_blocks_disjoint_witness :
  0x20001000 + DM_OVERHEAD <= 0x20001010 ∧ 0x20001010 + 100 <= 0x20001000 + (116 + (20348 + 0)).
Proof.
  apply (proj1 (allocated_blocks_disjoint _ _ _ _ _ demo_pool1_inv) 0x20001010 100). left.
Defined.

Lemma OSMMalloc_spec_witness :
  (∃ m' ptr n bl', OSMMalloc 0x20000000 30 demo_pool1 = Some (m', ptr) ∧ ptr ≠ 0 ∧ 30 <= n
     ∧ pool_inv m' 0x20000000 0x20001000 16 bl'
     ∧ used 0x20001000 bl' ≡ₚ [(ptr, n); (0x20001010, 100)])
  ∨ (OSMMalloc 0x20000000 30 demo_pool1 = Some (demo_pool1, 0)
     ∧ ∀ e, (e, true) ∈ [(116, false); (20348, true)] → e - DM_OVERHEAD < dm_request 16 30).
Proof. apply (OSMMalloc_spec _ _ _ _ _ 30 demo_pool1_inv). lia. Defined.

Lemma OSMFree_spec_witness :
  ∃ m' bl', OSMFree 0x20001010 demo_pool1 = Some m'
  ∧ pool_inv m' 0x20000000 0x20001000 16 bl' ∧ [(0x20001010, 100)] ≡ₚ (0x20001010, 100) :: used 0x20001000 bl'.
Proof. apply (OSMFree_spec _ _ _ _ _ 0x20001010 100 demo_pool1_inv). left. Defined.

Lemma malloc_free_roundtrip_witness :
  ∃ m2, OSMFree 0x20001010 demo_pool1 = Some m2
  ∧ pool_inv m2 0x20000000 0x20001000 16 [(20464, true)].
Proof.
  apply (malloc_free_roundtrip _ _ _ _ _ 100 _ _ demo_pool_inv); [lia|exact demo_pool1_eq|lia].
Defined.

Lemma dmem_never_faults_witness :
  is_Some (OSMFree 0x20001010 demo_pool1).
Proof.
  apply (dmem_never_faults 0x20000000 0x20001000 demo_pool1 [0x20001010]);
    [lia|unfold OS_DMEM_POOL_SIZE; lia| |left].
  exact (reach_malloc 0x20000000 0x20001000 demo_pool [] 100 demo_pool1 0x20001010
           (reach_init _ _ _) ltac:(lia) demo_pool1_eq).
Defined.

Lemma OSMCalloc_zeroed_witness : ∃ m', OSMCalloc 0x20000000 4 10 demo_pool1 = Some (m', 0x20001084)
  ∧ ∀ x, 0x20001084 <= x < 0x20001084 + 40 → dm_data m' !! x = Some 0.
Proof.
  eexists. split; [vm_compute; reflexivity|].
  edestruct (OSMCalloc_zeroed demo_pool1 0x20000000 0x20001000 16 [(116, false); (20348, true)] 4 10)
    as (bl' & n & _ & _ & _ & H & _); [exact demo_pool1_inv|lia|vm_compute; reflexivity|lia|].
  exact H.
Defined.
