(* ===== verification/Aes.v ===== *)
(** AES-128 in CBC mode: [App/NuAgent/Lib/AES.c], and its wrapper for the cloud
    protocol in [App/NuAgent/Sample/aesdemo.c].

    The state is the 16-byte list in the code's column order, the round key table
    ([g_roundKeyTable], a global) is an explicit argument.  The build selects
    [AES_KEY_LENGTH = 128] and [AES_MODE_CBC]. *)
From S2P Require Import Prelude.

Definition Nk : nat := 4.
Definition Nb : nat := 4.
Definition Nr : nat := 10.
Definition BPOLY : Z := 0x1B.

(* @ App/NuAgent/Lib/AES.c:45-63 SBox *)
Definition SBox : list Z := [
   99; 124; 119; 123; 242; 107; 111; 197; 48; 1; 103; 43; 254; 215; 171; 118;
   202; 130; 201; 125; 250; 89; 71; 240; 173; 212; 162; 175; 156; 164; 114; 192;
   183; 253; 147; 38; 54; 63; 247; 204; 52; 165; 229; 241; 113; 216; 49; 21;
   4; 199; 35; 195; 24; 150; 5; 154; 7; 18; 128; 226; 235; 39; 178; 117;
   9; 131; 44; 26; 27; 110; 90; 160; 82; 59; 214; 179; 41; 227; 47; 132;
   83; 209; 0; 237; 32; 252; 177; 91; 106; 203; 190; 57; 74; 76; 88; 207;
   208; 239; 170; 251; 67; 77; 51; 133; 69; 249; 2; 127; 80; 60; 159; 168;
   81; 163; 64; 143; 146; 157; 56; 245; 188; 182; 218; 33; 16; 255; 243; 210;
   205; 12; 19; 236; 95; 151; 68; 23; 196; 167; 126; 61; 100; 93; 25; 115;
   96; 129; 79; 220; 34; 42; 144; 136; 70; 238; 184; 20; 222; 94; 11; 219;
   224; 50; 58; 10; 73; 6; 36; 92; 194; 211; 172; 98; 145; 149; 228; 121;
   231; 200; 55; 109; 141; 213; 78; 169; 108; 86; 244; 234; 101; 122; 174; 8;
   186; 120; 37; 46; 28; 166; 180; 198; 232; 221; 116; 31; 75; 189; 139; 138;
   112; 62; 181; 102; 72; 3; 246; 14; 97; 53; 87; 185; 134; 193; 29; 158;
   225; 248; 152; 17; 105; 217; 142; 148; 155; 30; 135; 233; 206; 85; 40; 223;
   140; 161; 137; 13; 191; 230; 66; 104; 65; 153; 45; 15; 176; 84; 187; 22].

(* @ App/NuAgent/Lib/AES.c:66-84 InvSBox *)
Definition InvSBox : list Z := [
   82; 9; 106; 213; 48; 54; 165; 56; 191; 64; 163; 158; 129; 243; 215; 251;
   124; 227; 57; 130; 155; 47; 255; 135; 52; 142; 67; 68; 196; 222; 233; 203;
   84; 123; 148; 50; 166; 194; 35; 61; 238; 76; 149; 11; 66; 250; 195; 78;
   8; 46; 161; 102; 40; 217; 36; 178; 118; 91; 162; 73; 109; 139; 209; 37;
   114; 248; 246; 100; 134; 104; 152; 22; 212; 164; 92; 204; 93; 101; 182; 146;
   108; 112; 72; 80; 253; 237; 185; 218; 94; 21; 70; 87; 167; 141; 157; 132;
   144; 216; 171; 0; 140; 188; 211; 10; 247; 228; 88; 5; 184; 179; 69; 6;
   208; 44; 30; 143; 202; 63; 15; 2; 193; 175; 189; 3; 1; 19; 138; 107;
   58; 145; 17; 65; 79; 103; 220; 234; 151; 242; 207; 206; 240; 180; 230; 115;
   150; 172; 116; 34; 231; 173; 53; 133; 226; 249; 55; 232; 28; 117; 223; 110;
   71; 241; 26; 113; 29; 41; 197; 137; 111; 183; 98; 14; 170; 24; 190; 27;
   252; 86; 62; 75; 198; 210; 121; 32; 154; 219; 192; 254; 120; 205; 90; 244;
   31; 221; 168; 51; 136; 7; 199; 49; 177; 18; 16; 89; 39; 128; 236; 95;
   96; 81; 127; 169; 25; 181; 74; 13; 45; 229; 122; 159; 147; 201; 156; 239;
   160; 224; 59; 77; 174; 42; 245; 176; 200; 235; 187; 60; 131; 83; 153; 97;
   23; 43; 4; 126; 186; 119; 214; 38; 225; 105; 20; 99; 85; 33; 12; 125].

(** On the four bytes at [pWord]. *)
(* @ App/NuAgent/Lib/AES.c:94-101 RotationWord *)
Definition RotationWord (pWord : list Z) : list Z :=
  match pWord with
  | p0 :: p1 :: p2 :: p3 :: rest => p1 :: p2 :: p3 :: p0 :: rest
  | _ => pWord
  end.

(* @ App/NuAgent/Lib/AES.c:112-120 XorBytes *)
Definition XorBytes (pData1 pData2 : list Z) (nCount : nat) : list Z :=
  zip_with Z.lxor (take nCount pData1) pData2 ++ drop nCount pData1.

(* @ App/NuAgent/Lib/AES.c:136-137 AddRoundKey *)
Definition AddRoundKey (pState pRoundKey : list Z) : list Z :=
  XorBytes pState pRoundKey (4 * Nb).

(* @ App/NuAgent/Lib/AES.c:149-158 SubBytes *)
Definition SubBytes (pState : list Z) (nCount : nat) (bInvert : bool) : list Z :=
  let pSBox := if bInvert then InvSBox else SBox in
  map (byte_at pSBox) (take nCount pState) ++ drop nCount pState.

(** One row of the loop: back the row up, then write it back rotated. *)
(* @ App/NuAgent/Lib/AES.c:179-189 ShiftRows *)
Definition shift_row (bInvert : bool) (pState : list Z) (r : nat) : list Z :=
  let rowData := map (λ c, pState !!! (r + 4 * c)%nat) (seq 0 4) in
  let temp := (if bInvert then 4 - r else r)%nat in
  foldl (λ st c, <[(r + 4 * c)%nat := rowData !!! ((c + temp) mod 4)%nat]> st) pState (seq 0 4).
(* @ App/NuAgent/Lib/AES.c:168-191 ShiftRows *)
Definition ShiftRows (pState : list Z) (bInvert : bool) : list Z :=
  foldl (shift_row bInvert) pState (seq 1 3).

(* @ App/NuAgent/Lib/AES.c:200-212 GfMultBy02 *)
Definition GfMultBy02 (num : Z) : Z :=
  if Z.land num 0x80 =? 0 then u8 (Z.shiftl num 1)
  else u8 (Z.lxor (Z.shiftl num 1) BPOLY).

(** The body of the loop of [MixColumns] on one column. *)
(* @ App/NuAgent/Lib/AES.c:232-257 MixColumns *)
Definition mix_column (p : list Z) (bInvert : bool) : list Z :=
  let p0 := p !!! 0%nat in let p1 := p !!! 1%nat in
  let p2 := p !!! 2%nat in let p3 := p !!! 3%nat in
  let temp := Z.lxor (Z.lxor (Z.lxor p0 p1) p2) p3 in
  let r0 := Z.lxor (Z.lxor temp p0) (GfMultBy02 (Z.lxor p0 p1)) in
  let r1 := Z.lxor (Z.lxor temp p1) (GfMultBy02 (Z.lxor p1 p2)) in
  let r2 := Z.lxor (Z.lxor temp p2) (GfMultBy02 (Z.lxor p2 p3)) in
  let r3 := Z.lxor (Z.lxor temp p3) (GfMultBy02 (Z.lxor p3 p0)) in
  if bInvert then
    let a0Pa2_M4 := GfMultBy02 (GfMultBy02 (Z.lxor p0 p2)) in
    let a1Pa3_M4 := GfMultBy02 (GfMultBy02 (Z.lxor p1 p3)) in
    let temp := GfMultBy02 (Z.lxor a0Pa2_M4 a1Pa3_M4) in
    [Z.lxor r0 (Z.lxor temp a0Pa2_M4); Z.lxor r1 (Z.lxor temp a1Pa3_M4);
     Z.lxor r2 (Z.lxor temp a0Pa2_M4); Z.lxor r3 (Z.lxor temp a1Pa3_M4)]
  else [r0; r1; r2; r3].
(* @ App/NuAgent/Lib/AES.c:222-259 MixColumns *)
Definition MixColumns (pState : list Z) (bInvert : bool) : list Z :=
  foldl (λ st i, store_at (4 * i) (mix_column (slice (4 * i) 4 st) bInvert) st) pState (seq 0 4).

(** Round key [i]: the 16 bytes at [&g_roundKeyTable[4*Nb*i]]. *)
Definition round_key (tbl : list Z) (i : nat) : list Z := slice (4 * Nb * i) (4 * Nb) tbl.

(* @ App/NuAgent/Lib/AES.c:275-285 BlockEncrypt *)
Definition encrypt_round (tbl : list Z) (pState : list Z) (i : nat) : list Z :=
  let pState := SubBytes pState (4 * Nb) false in
  let pState := ShiftRows pState false in
  let pState := if (i =? Nr)%nat then pState else MixColumns pState false in
  AddRoundKey pState (round_key tbl i).
(* @ App/NuAgent/Lib/AES.c:268-291 BlockEncrypt *)
Definition BlockEncrypt (tbl : list Z) (pState : list Z) : list Z :=
  foldl (encrypt_round tbl) (AddRoundKey pState (round_key tbl 0)) (seq 1 Nr).

(* @ App/NuAgent/Lib/AES.c:307-316 BlockDecrypt *)
Definition decrypt_round (tbl : list Z) (pState : list Z) (i : nat) : list Z :=
  let pState := ShiftRows pState true in
  let pState := SubBytes pState (4 * Nb) true in
  let pState := AddRoundKey pState (round_key tbl (i - 1)) in
  if (i =? 1)%nat then pState else MixColumns pState true.
(* @ App/NuAgent/Lib/AES.c:300-322 BlockDecrypt *)
Definition BlockDecrypt (tbl : list Z) (pState : list Z) : list Z :=
  foldl (decrypt_round tbl) (AddRoundKey pState (round_key tbl Nr)) (rev (seq 1 Nr)).

(** One step of the key schedule: the four bytes of word [i], and [Rcon[0]].
    ([Nk > 6] is false for a 128-bit key.) *)
(* @ App/NuAgent/Lib/AES.c:343-361 AES_Init *)
Definition key_step (s : list Z * Z) (i : nat) : list Z * Z :=
  let '(tbl, rcon) := s in
  let w := slice (4 * i - 4) 4 tbl in
  let '(w, rcon) :=
    if (i mod Nk =? 0)%nat then
      let w := XorBytes (SubBytes (RotationWord w) 4 false) [rcon; 0; 0; 0] 4 in
      (w, GfMultBy02 rcon)
    else (w, rcon) in
  let w := XorBytes w (slice (4 * i - 4 * Nk) 4 tbl) 4 in
  (store_at (4 * i) w tbl, rcon).
(* @ App/NuAgent/Lib/AES.c:332-362 AES_Init *)
Definition AES_Init (pKey : list Z) (tbl : list Z) : list Z :=
  let tbl := store_at 0 (take (4 * Nk) pKey) tbl in
  (foldl key_step (tbl, 0x01) (seq Nk (Nb * (Nr + 1) - Nk))).1.

(** The CBC loop over [k] blocks from offset [off] of the ciphertext buffer; [iv]
    is the data [pIV] points to. *)
(* @ App/NuAgent/Lib/AES.c:383-391 AES_Encrypt *)
Fixpoint encrypt_blocks (tbl : list Z) (k off : nat) (iv buf : list Z) : list Z :=
  match k with
  | O => buf
  | S k =>
    let b := BlockEncrypt tbl (XorBytes (slice off (4 * Nb) buf) iv (4 * Nb)) in
    encrypt_blocks tbl k (off + 4 * Nb) b (store_at off b buf)
  end.
(** [pCipherText] is the output buffer's content on entry; when it is the same
    buffer as [pPlainText] the copy is skipped. *)
(* @ App/NuAgent/Lib/AES.c:373-392 AES_Encrypt *)
Definition AES_Encrypt (tbl pPlainText : list Z) (same : bool) (pCipherText : list Z)
    (nDataLen : nat) (pIV : list Z) : list Z :=
  let buf := if same then pPlainText else store_at 0 (take nDataLen pPlainText) pCipherText in
  encrypt_blocks tbl (nDataLen / (4 * Nb)) 0 pIV buf.

(** The loop runs from the last block down, so that the previous ciphertext block
    is still there. *)
(* @ App/NuAgent/Lib/AES.c:415-429 AES_Decrypt *)
Fixpoint decrypt_blocks (tbl : list Z) (k off : nat) (iv buf : list Z) : list Z :=
  match k with
  | O => buf
  | S k' =>
    let b := BlockDecrypt tbl (slice off (4 * Nb) buf) in
    let b := if (k =? 1)%nat then XorBytes b iv (4 * Nb)
             else XorBytes b (slice (off - 4 * Nb) (4 * Nb) buf) (4 * Nb) in
    decrypt_blocks tbl k' (off - 4 * Nb) iv (store_at off b buf)
  end.
(* @ App/NuAgent/Lib/AES.c:403-430 AES_Decrypt *)
Definition AES_Decrypt (tbl : list Z) (pPlainText : list Z) (same : bool)
    (pCipherText : list Z) (nDataLen : nat) (pIV : list Z) : list Z :=
  let buf := if same then pCipherText else store_at 0 (take nDataLen pCipherText) pPlainText in
  decrypt_blocks tbl (nDataLen / (4 * Nb)) (nDataLen - 4 * Nb) pIV buf.

(** ** The wrapper of the demo: zero padding to whole blocks, zero IV *)

Definition AES_ENCRYPT_MAX_BUFFER : Z := 1024.
(* @ App/NuAgent/Sample/aesdemo.c:32-32 IV *)
Definition IV : list Z := replicate 16 0.

(** [malloc] is the heap's answer to [malloc(AES_ENCRYPT_MAX_BUFFER)]: the new
    block's bytes, or [None] for NULL, which the code does not test before the
    [memset].  [None] as a result is an access outside a buffer. *)
(* @ App/NuAgent/Sample/aesdemo.c:60-85 NL6621_AES_Encrypt *)
Definition NL6621_AES_Encrypt (tbl : list Z) (malloc : option (list Z))
    (plaintext ciphertext : list Z) (data_len : Z) : option (list Z * Z) :=
  if data_len =? 0 then Some (ciphertext, -1) else
  if negb (data_len mod 16 =? 0) then
    tempbuf ← malloc;
    tempbuf ← memcpy_to 0 (replicate (Z.to_nat AES_ENCRYPT_MAX_BUFFER) 0) tempbuf;
    src ← memcpy_from 0 data_len plaintext;
    tempbuf ← memcpy_to 0 src tempbuf;
    let templen := u32 ((data_len / 16 + 1) * 16) in
    src ← memcpy_from 0 templen tempbuf;
    dst ← memcpy_from 0 templen ciphertext;
    Some (AES_Encrypt tbl src false ciphertext (Z.to_nat templen) IV, i32 templen)
  else
    src ← memcpy_from 0 data_len plaintext;
    dst ← memcpy_from 0 data_len ciphertext;
    Some (AES_Encrypt tbl src false ciphertext (Z.to_nat data_len) IV, i32 data_len).

(* @ App/NuAgent/Sample/aesdemo.c:87-94 NL6621_AES_Decrypt *)
Definition NL6621_AES_Decrypt (tbl plaintext ciphertext : list Z) (data_len : Z) : list Z * Z :=
  (AES_Decrypt tbl plaintext false ciphertext (Z.to_nat data_len) IV, 0).

(** The cipher computed is AES-128: the key schedule and the block function
    give the ciphertext of the FIPS-197 example (appendix C.1), and decryption
    recovers its plaintext. *)
Theorem aes128_fips197_example :
  let key := seqZ 0 16 in
  let tbl := AES_Init key (replicate 176 0) in
  let pt := map (λ i, 17 * i) (seqZ 0 16) in
  let ct := [0x69; 0xc4; 0xe0; 0xd8; 0x6a; 0x7b; 0x04; 0x30;
             0xd8; 0xcd; 0xb7; 0x80; 0x70; 0xb4; 0xc5; 0x5a] in
  BlockEncrypt tbl pt = ct ∧ BlockDecrypt tbl ct = pt.
Proof. vm_compute. done. Qed.

(** ** Field arithmetic *)

Lemma GfMultBy02_alt a :
  GfMultBy02 a = Z.lxor (u8 (Z.shiftl a 1)) (if Z.testbit a 7 then BPOLY else 0).
Proof.
  unfold GfMultBy02. rewrite !u8_land.
  assert (E : (Z.land a 0x80 =? 0) = negb (Z.testbit a 7)).
  { change 0x80 with (Z.shiftl 1 7).
    destruct (Z.testbit a 7) eqn:T; cbn [negb].
    - apply Z.eqb_neq. intros H. assert (Hb : Z.testbit (Z.land a (Z.shiftl 1 7)) 7 = false)
        by (rewrite H; apply Z.bits_0).
      rewrite Z.land_spec, T in Hb. done.
    - apply Z.eqb_eq. apply Z.bits_inj'. intros n Hn. rewrite Z.land_spec, Z.bits_0.
      destruct (decide (n = 7)) as [->|Hne]; [by rewrite T|].
      change (Z.shiftl 1 7) with (2 ^ 7). rewrite Z.pow2_bits_false by lia. btauto. }
  rewrite E. destruct (Z.testbit a 7); cbn [negb]; [|by rewrite Z.lxor_0_r].
  unfold BPOLY. change 27 with (Z.land 27 255) at 2. bitwise_eq.
Qed.
Lemma GfMultBy02_lxor a b : GfMultBy02 (Z.lxor a b) = Z.lxor (GfMultBy02 a) (GfMultBy02 b).
Proof.
  rewrite !GfMultBy02_alt, !u8_land, Z.shiftl_lxor, Z.lxor_spec.
  destruct (Z.testbit a 7), (Z.testbit b 7); cbn [xorb]; bitwise_eq.
Qed.
Lemma GfMultBy02_byte a : is_byte (GfMultBy02 a).
Proof. unfold GfMultBy02. split_guard; apply u8_byte. Qed.

Create HintDb aes.
#[export] Hint Rewrite GfMultBy02_lxor : aes.
#[export] Hint Resolve GfMultBy02_byte : buf.

(** Multiplication in GF(2^8) by a constant, most significant bit first. *)
Fixpoint gf_mul_pos (k : positive) (a : Z) : Z :=
  match k with
  | xH => a
  | xO k => GfMultBy02 (gf_mul_pos k a)
  | xI k => Z.lxor (GfMultBy02 (gf_mul_pos k a)) a
  end.
Definition gf_mul (k a : Z) : Z := match k with Zpos k => gf_mul_pos k a | _ => 0 end.
(** Row [ks] of the MixColumns matrix applied to a column. *)
Definition gf_row (ks p : list Z) : Z := foldr Z.lxor 0 (zip_with gf_mul ks p).

(** [MixColumns] multiplies each column by the matrix of FIPS-197, and its
    inverse form by the inverse matrix (the code computes both with a few
    doublings of sums). *)
Theorem mix_column_matrix p0 p1 p2 p3 :
  mix_column [p0; p1; p2; p3] false =
    map (λ ks, gf_row ks [p0; p1; p2; p3])
      [[2; 3; 1; 1]; [1; 2; 3; 1]; [1; 1; 2; 3]; [3; 1; 1; 2]]
  ∧ mix_column [p0; p1; p2; p3] true =
    map (λ ks, gf_row ks [p0; p1; p2; p3])
      [[14; 11; 13; 9]; [9; 14; 11; 13]; [13; 9; 14; 11]; [11; 13; 9; 14]].
Proof.
  cbn -[GfMultBy02 Z.lxor]. autorewrite with aes.
  split; cons_eq bitwise_eq.
Qed.

Lemma mix_column_inverse p0 p1 p2 p3 :
  mix_column (mix_column [p0; p1; p2; p3] false) true = [p0; p1; p2; p3].
Proof. cbn -[GfMultBy02 Z.lxor]. autorewrite with aes. cons_eq bitwise_eq. Qed.

(** ** The block cipher *)

Definition is_block (st : list Z) : Prop := length st = 16%nat ∧ bytes_ok st.
Definition is_table (tbl : list Z) : Prop := length tbl = 176%nat ∧ bytes_ok tbl.

Lemma XorBytes_length a b n : (n <= length b)%nat → length (XorBytes a b n) = length a.
Proof.
  intros. unfold XorBytes. rewrite length_app, length_zip_with, length_take, length_drop. lia.
Qed.
Lemma zip_with_lxor_bytes a b : bytes_ok a → bytes_ok b → bytes_ok (zip_with Z.lxor a b).
Proof.
  intros Ha. revert b. induction Ha as [|x a Hx Ha IH]; intros [|y b] Hb; cbn; try constructor;
    apply Forall_cons in Hb as [Hy Hb]; auto using is_byte_lxor.
Qed.
Lemma zip_with_lxor_cancel a b : (length a <= length b)%nat →
  zip_with Z.lxor (zip_with Z.lxor a b) b = a.
Proof.
  revert b. induction a as [|x a IH]; intros [|y b] H; cbn in *; try done; try lia.
  rewrite IH by lia. by rewrite Z.lxor_assoc, Z.lxor_nilpotent, Z.lxor_0_r.
Qed.
Lemma AddRoundKey_eq a b : length a = 16%nat → AddRoundKey a b = zip_with Z.lxor a b.
Proof.
  intros Ha. unfold AddRoundKey, XorBytes, Nb. cbn [Nat.mul Nat.add].
  rewrite take_ge, drop_ge, app_nil_r by lia. done.
Qed.
Lemma AddRoundKey_block a b : is_block a → is_block b → is_block (AddRoundKey a b).
Proof.
  intros [La Ba] [Lb Bb]. rewrite AddRoundKey_eq by done. split.
  - rewrite length_zip_with. lia.
  - by apply zip_with_lxor_bytes.
Qed.
Lemma AddRoundKey_cancel a b : is_block a → is_block b → AddRoundKey (AddRoundKey a b) b = a.
Proof.
  intros Ha Hb. pose proof (AddRoundKey_block a b Ha Hb) as [L _].
  rewrite (AddRoundKey_eq _ _ L), AddRoundKey_eq by apply Ha.
  apply zip_with_lxor_cancel. destruct Ha, Hb. lia.
Qed.

(** The two boxes are inverse permutations of the bytes. *)
Lemma SBox_check : forallb (λ b, (byte_at InvSBox (byte_at SBox b) =? b)
  && (0 <=? byte_at SBox b) && (byte_at SBox b <? 256)
  && (0 <=? byte_at InvSBox b) && (byte_at InvSBox b <? 256)) bytes256 = true.
Proof. vm_compute. done. Qed.
Lemma SBox_inverse b : is_byte b → byte_at InvSBox (byte_at SBox b) = b.
Proof. intros Hb. pose proof (for_all_bytes _ SBox_check b Hb) as H. cbn beta in H. lia. Qed.
Lemma SBox_byte (bInvert : bool) b : is_byte b → is_byte (byte_at (if bInvert then InvSBox else SBox) b).
Proof.
  intros Hb. pose proof (for_all_bytes _ SBox_check b Hb) as H. cbn beta in H.
  unfold is_byte. destruct bInvert; lia.
Qed.

Lemma SubBytes_block st inv : is_block st → is_block (SubBytes st 16 inv).
Proof.
  intros [L B]. unfold SubBytes. rewrite take_ge, drop_ge, app_nil_r by lia. split.
  - by rewrite length_map.
  - apply Forall_map. eapply Forall_impl; [done|]. intros b Hb. by apply SBox_byte.
Qed.
Lemma SubBytes_inverse st : is_block st → SubBytes (SubBytes st 16 false) 16 true = st.
Proof.
  intros H. pose proof (SubBytes_block st false H) as [L' _]. destruct H as [L B].
  unfold SubBytes at 1. rewrite take_ge, drop_ge, app_nil_r by lia.
  unfold SubBytes. rewrite take_ge, drop_ge, app_nil_r by lia. rewrite map_map.
  clear L L'. induction B as [|b st Hb B IH]; [done|]. cbn [map]. by rewrite IH, SBox_inverse.
Qed.

Lemma ShiftRows_inverse st : length st = 16%nat → ShiftRows (ShiftRows st false) true = st.
Proof. intros L. explode st L. reflexivity. Qed.
Lemma ShiftRows_block st inv : is_block st → is_block (ShiftRows st inv).
Proof.
  intros [L B]. explode st L. rewrite !Forall_cons in B. destruct_and!.
  destruct inv; (split; [reflexivity|]); cbn; byte_list.
Qed.

Lemma MixColumns_columns c0 c1 c2 c3 inv :
  length c0 = 4%nat → length c1 = 4%nat → length c2 = 4%nat → length c3 = 4%nat →
  MixColumns (c0 ++ c1 ++ c2 ++ c3) inv =
  mix_column c0 inv ++ mix_column c1 inv ++ mix_column c2 inv ++ mix_column c3 inv.
Proof.
  intros L0 L1 L2 L3. explode c0 L0. explode c1 L1. explode c2 L2. explode c3 L3.
  destruct inv; reflexivity.
Qed.
Lemma MixColumns_16 a b c d e f g h i j k l m n o p inv :
  MixColumns [a; b; c; d; e; f; g; h; i; j; k; l; m; n; o; p] inv =
  mix_column [a; b; c; d] inv ++ mix_column [e; f; g; h] inv
  ++ mix_column [i; j; k; l] inv ++ mix_column [m; n; o; p] inv.
Proof. destruct inv; reflexivity. Qed.
Lemma mix_column_block p0 p1 p2 p3 inv :
  is_byte p0 → is_byte p1 → is_byte p2 → is_byte p3 →
  length (mix_column [p0; p1; p2; p3] inv) = 4%nat ∧ bytes_ok (mix_column [p0; p1; p2; p3] inv).
Proof.
  intros. destruct inv; (split; [reflexivity|]); cbn -[GfMultBy02 Z.lxor]; byte_list.
Qed.
Lemma MixColumns_inverse st : length st = 16%nat → MixColumns (MixColumns st false) true = st.
Proof.
  intros L. explode st L.
  rewrite MixColumns_16.
  rewrite MixColumns_columns by done. by rewrite !mix_column_inverse.
Qed.
Lemma MixColumns_block st inv : is_block st → is_block (MixColumns st inv).
Proof.
  intros [L B]. explode st L. rewrite !Forall_cons in B. destruct_and!.
  rewrite MixColumns_16.
  split; [destruct inv; reflexivity|]. rewrite !Forall_app. split_ands; by apply mix_column_block.
Qed.

Lemma round_key_block tbl i : is_table tbl → (i <= Nr)%nat → is_block (round_key tbl i).
Proof.
  intros [L B] Hi. unfold round_key, Nb, Nr in *. split; [|by apply slice_bytes].
  apply length_slice. lia.
Qed.

Section Rounds.
Context (tbl : list Z) (Htbl : is_table tbl).

(** The state before [AddRoundKey] in encryption round [i]. *)
Definition mixed (st : list Z) (i : nat) : list Z :=
  let st := ShiftRows (SubBytes st 16 false) false in
  if (i =? Nr)%nat then st else MixColumns st false.

Lemma encrypt_round_eq st i :
  encrypt_round tbl st i = AddRoundKey (mixed st i) (round_key tbl i).
Proof using. reflexivity. Qed.
Lemma mixed_block st i : is_block st → is_block (mixed st i).
Proof using.
  intros H. unfold mixed. pose proof (ShiftRows_block _ false (SubBytes_block _ false H)).
  destruct (i =? Nr)%nat; [done|]. by apply MixColumns_block.
Qed.
Lemma encrypt_round_block st i : (i <= Nr)%nat → is_block st → is_block (encrypt_round tbl st i).
Proof using Htbl.
  intros Hi H. apply (AddRoundKey_block (mixed st i)); [by apply mixed_block|].
  by apply round_key_block.
Qed.
Lemma encrypt_prefix_block st j : (j <= Nr)%nat → is_block st →
  is_block (foldl (encrypt_round tbl) (AddRoundKey st (round_key tbl 0)) (seq 1 j)).
Proof using Htbl.
  intros Hj H. induction j as [|j IH].
  - apply AddRoundKey_block; [done|]. apply round_key_block; [done|unfold Nr; lia].
  - rewrite seq_S, foldl_snoc. apply encrypt_round_block; [lia|]. apply IH. lia.
Qed.
Lemma BlockEncrypt_block st : is_block st → is_block (BlockEncrypt tbl st).
Proof using Htbl. by apply encrypt_prefix_block. Qed.

Lemma decrypt_round_block st i : (i <= S Nr)%nat → is_block st → is_block (decrypt_round tbl st i).
Proof using Htbl.
  intros Hi H. unfold decrypt_round.
  pose proof (AddRoundKey_block _ _ (SubBytes_block _ true (ShiftRows_block _ true H))
                (round_key_block tbl (i - 1) Htbl ltac:(lia))).
  destruct (i =? 1)%nat; [assumption|]. by apply MixColumns_block.
Qed.
Lemma BlockDecrypt_block st : is_block st → is_block (BlockDecrypt tbl st).
Proof using Htbl.
  intros H. unfold BlockDecrypt.
  assert (Hl : Forall (λ i, i <= S Nr)%nat (rev (seq 1 Nr))).
  { apply Forall_rev. rewrite Forall_forall. intros i Hi%elem_of_seq. lia. }
  assert (H0 : is_block (AddRoundKey st (round_key tbl Nr)))
    by (apply AddRoundKey_block; [done|]; by apply round_key_block).
  revert H0. generalize (AddRoundKey st (round_key tbl Nr)). induction Hl as [|i l Hi _ IH].
  - intros x Hx. exact Hx.
  - intros x Hx. cbn [foldl]. apply IH. by apply decrypt_round_block.
Qed.

(** Decryption round [i] undoes the substitution, shift and key of round [i],
    and the mixing of round [i - 1]. *)
Lemma decrypt_round_undo x i : (1 <= i <= Nr)%nat → is_block x →
  decrypt_round tbl (ShiftRows (SubBytes (AddRoundKey x (round_key tbl (i - 1))) 16 false) false) i
  = if (i =? 1)%nat then x else MixColumns x true.
Proof using Htbl.
  intros Hi Hx. pose proof (round_key_block tbl (i - 1) Htbl ltac:(lia)) as Hk.
  pose proof (AddRoundKey_block x _ Hx Hk) as Hy.
  unfold decrypt_round. rewrite ShiftRows_inverse by apply SubBytes_block, Hy.
  change (4 * Nb)%nat with 16%nat. rewrite SubBytes_inverse, AddRoundKey_cancel by done. done.
Qed.

(** The rounds [j], [j - 1], ..., [1] of decryption take the state of
    encryption round [j], before its mixing, back to the plaintext. *)
Lemma decrypt_rounds_undo st : is_block st → ∀ j, (j < Nr)%nat →
  let x := foldl (encrypt_round tbl) (AddRoundKey st (round_key tbl 0)) (seq 1 j) in
  foldl (decrypt_round tbl) (ShiftRows (SubBytes x 16 false) false) (rev (seq 1 (S j))) = st.
Proof using Htbl.
  intros Hst j. induction j as [|j IH]; intros Hj; cbv zeta.
  - cbn [seq rev foldl app]. by apply (decrypt_round_undo st 1); [unfold Nr; lia|].
  - rewrite (seq_S (S j)), rev_app_distr. cbn [rev app].
    change (1 + S j)%nat with (S (S j)). cbn [foldl]. rewrite (seq_S j) at 1. rewrite foldl_snoc.
    set (x := foldl _ _ (seq 1 j)) in *.
    pose proof (encrypt_prefix_block st j ltac:(lia) Hst) as Hx. fold x in Hx.
    change (encrypt_round tbl x (1 + j)) with (AddRoundKey (mixed x (S j)) (round_key tbl (S (S j) - 1))).
    rewrite decrypt_round_undo by (lia || by apply mixed_block).
    cbn [Nat.eqb]. unfold mixed. destruct (Nat.eqb_spec (S j) Nr); [lia|].
    rewrite MixColumns_inverse by (apply ShiftRows_block, SubBytes_block, Hx).
    apply IH. lia.
Qed.

Lemma BlockDecrypt_BlockEncrypt st : is_block st → BlockDecrypt tbl (BlockEncrypt tbl st) = st.
Proof using Htbl.
  intros Hst. pose proof (encrypt_prefix_block st 9 ltac:(unfold Nr; lia) Hst) as Hx.
  set (x := foldl _ _ (seq 1 9)) in *.
  assert (E : BlockEncrypt tbl st = AddRoundKey (mixed x Nr) (round_key tbl Nr)).
  { unfold BlockEncrypt. change (seq 1 Nr) with (seq 1 9 ++ [Nr]). rewrite foldl_snoc.
    apply encrypt_round_eq. }
  unfold BlockDecrypt. rewrite E.
  rewrite AddRoundKey_cancel by (by apply mixed_block || by apply round_key_block).
  by apply (decrypt_rounds_undo st Hst 9); unfold Nr; lia.
Qed.
End Rounds.

(** The key schedule fills the table with bytes, whatever was there before. *)
Lemma key_step_table tbl rcon i : is_table tbl → is_byte rcon → (4 <= i < 44)%nat →
  is_table (key_step (tbl, rcon) i).1 ∧ is_byte (key_step (tbl, rcon) i).2.
Proof.
  intros [L B] Hr Hi. unfold key_step, Nk.
  set (w0 := slice (4 * i - 4) 4 tbl). set (w4 := slice (4 * i - 4 * 4) 4 tbl).
  assert (H0 : length w0 = 4%nat) by (apply length_slice; lia).
  assert (H4 : length w4 = 4%nat) by (apply length_slice; lia).
  assert (B0 : bytes_ok w0) by by apply slice_bytes. assert (B4 : bytes_ok w4) by by apply slice_bytes.
  clearbody w0 w4.
  assert (Hfin : ∀ w, length w = 4%nat → bytes_ok w → is_table (store_at (4 * i) (XorBytes w w4 4) tbl)).
  { intros w Lw Bw. split.
    - rewrite length_store_at; [done|]. rewrite XorBytes_length; lia.
    - apply store_at_bytes; [|done]. unfold XorBytes. rewrite take_ge, drop_ge, app_nil_r by lia.
      by apply zip_with_lxor_bytes. }
  destruct (i mod 4 =? 0)%nat; cbn [fst snd]; split; try done; try apply GfMultBy02_byte; auto.
  explode w0 H0. rewrite !Forall_cons in B0. destruct_and!.
  apply Hfin; [reflexivity|].
  cbn -[SBox Z.lxor]. byte_list; apply is_byte_lxor; try done; by apply (SBox_byte false).
Qed.
Lemma AES_Init_table key tbl : length key = 16%nat → bytes_ok key → is_table tbl →
  is_table (AES_Init key tbl).
Proof.
  intros Lk Bk [L B]. unfold AES_Init. change (Nb * (Nr + 1) - Nk)%nat with 40%nat.
  assert (H : ∀ n, (n <= 40)%nat →
    let s := foldl key_step (store_at 0 (take (4 * Nk) key) tbl, 1) (seq Nk n) in
    is_table s.1 ∧ is_byte s.2).
  { induction n as [|n IH]; intros Hn; cbv zeta.
    - cbn. split; [|unfold is_byte; lia]. change (Nk + _)%nat with 16%nat. split.
      + rewrite length_store_at; [done|]. rewrite length_take. lia.
      + apply store_at_bytes; [by apply Forall_take|done].
    - rewrite seq_S, foldl_snoc. destruct (IH ltac:(lia)) as [Ht Hr].
      destruct (foldl _ _ (seq Nk n)) as [t r]. apply key_step_table; [done|done|unfold Nk; lia]. }
  apply (H 40%nat). lia.
Qed.

(** ** CBC *)

#[local] Opaque BlockEncrypt BlockDecrypt.

Lemma XorBytes_block b iv : is_block b → is_block iv → is_block (XorBytes b iv 16).
Proof. apply AddRoundKey_block. Qed.
Lemma XorBytes_cancel b iv : is_block b → is_block iv → XorBytes (XorBytes b iv 16) iv 16 = b.
Proof. apply AddRoundKey_cancel. Qed.

Section Cbc.
Context (tbl : list Z) (Htbl : is_table tbl).

(** The textbook mode over a list of blocks. *)
Fixpoint cbc_encrypt (iv : list Z) (bs : list (list Z)) {struct bs} : list (list Z) :=
  match bs with
  | [] => []
  | b :: bs => let c := BlockEncrypt tbl (XorBytes b iv 16) in c :: cbc_encrypt c bs
  end.
Fixpoint cbc_decrypt (iv : list Z) (cs : list (list Z)) {struct cs} : list (list Z) :=
  match cs with
  | [] => []
  | c :: cs => XorBytes (BlockDecrypt tbl c) iv 16 :: cbc_decrypt c cs
  end.

Lemma cbc_encrypt_blocks iv bs : is_block iv → Forall is_block bs →
  Forall is_block (cbc_encrypt iv bs).
Proof using Htbl.
  intros Hiv Hbs. revert iv Hiv. induction Hbs as [|b bs Hb Hbs IH]; intros iv Hiv; cbn; [done|].
  assert (is_block (BlockEncrypt tbl (XorBytes b iv 16)))
    by (by apply BlockEncrypt_block, XorBytes_block).
  constructor; auto.
Qed.
Lemma cbc_inverse iv bs : is_block iv → Forall is_block bs →
  cbc_decrypt iv (cbc_encrypt iv bs) = bs.
Proof using Htbl.
  intros Hiv Hbs. revert iv Hiv. induction Hbs as [|b bs Hb Hbs IH]; intros iv Hiv; cbn; [done|].
  pose proof (XorBytes_block b iv Hb Hiv) as Hx.
  rewrite BlockDecrypt_BlockEncrypt, XorBytes_cancel by done. f_equal. apply IH. by apply BlockEncrypt_block.
Qed.
Lemma length_cbc_encrypt iv bs : length (cbc_encrypt iv bs) = length bs.
Proof using. revert iv. induction bs as [|b bs IH]; intros iv; cbn; [done|]. by rewrite IH. Qed.

Lemma slice_mid pre b post : length b = 16%nat →
  slice (length pre) (4 * Nb) (pre ++ b ++ post) = b.
Proof using.
  intros Hb. unfold slice. rewrite drop_app_length. change (4 * Nb)%nat with 16%nat.
  by rewrite take_app_length' by done.
Qed.
Lemma store_mid pre b b' post : length b = length b' →
  store_at (length pre) b' (pre ++ b ++ post) = pre ++ b' ++ post.
Proof using.
  intros Hb. unfold store_at. rewrite take_app_length, <- Hb.
  rewrite (app_assoc pre b), drop_app_length' by (rewrite length_app; lia). done.
Qed.

(** The loop in the buffer computes the mode, block after block. *)
Lemma encrypt_blocks_cbc bs : ∀ pre iv post, is_block iv → Forall is_block bs →
  encrypt_blocks tbl (length bs) (length pre) iv (pre ++ concat bs ++ post)
  = pre ++ concat (cbc_encrypt iv bs) ++ post.
Proof using Htbl.
  induction bs as [|b bs IH]; intros pre iv post Hiv Hbs; [done|].
  apply Forall_cons in Hbs as [Hb Hbs]. cbn [length encrypt_blocks concat cbc_encrypt].
  rewrite <- app_assoc, slice_mid by apply Hb. change (4 * Nb)%nat with 16%nat.
  set (c := BlockEncrypt tbl (XorBytes b iv 16)).
  assert (Hc : is_block c) by (by apply BlockEncrypt_block, XorBytes_block).
  rewrite store_mid by (destruct Hb, Hc; lia).
  rewrite (app_assoc pre c). replace (length pre + 16)%nat with (length (pre ++ c))
    by (rewrite length_app; destruct Hc; lia).
  rewrite IH by done. cbn [concat]. by rewrite <- !app_assoc.
Qed.

Lemma concat_length bs : Forall is_block bs → length (concat bs) = (16 * length bs)%nat.
Proof using. induction 1 as [|b bs [Hb _] _ IH]; cbn; [done|]. rewrite length_app. lia. Qed.

(** Splitting off the last ciphertext block, which the loop decrypts first. *)
Lemma cbc_decrypt_snoc iv cs c :
  cbc_decrypt iv (cs ++ [c]) =
  cbc_decrypt iv cs ++ [XorBytes (BlockDecrypt tbl c) (default iv (last cs)) 16].
Proof using.
  revert iv. induction cs as [|c0 cs IH]; intros iv; cbn [app cbc_decrypt]; [done|].
  rewrite IH, last_cons. cbn [app]. destruct (last cs); reflexivity.
Qed.

Lemma decrypt_blocks_cbc cs : ∀ post iv, is_block iv → Forall is_block cs →
  decrypt_blocks tbl (length cs) (16 * length cs - 16) iv (concat cs ++ post)
  = concat (cbc_decrypt iv cs) ++ post.
Proof using Htbl.
  induction cs as [|c cs IH] using rev_ind; intros post iv Hiv Hcs; [done|].
  apply Forall_app in Hcs as [Hcs Hc]. apply Forall_cons in Hc as [Hc _].
  rewrite length_app. cbn [length]. rewrite Nat.add_1_r. cbn [decrypt_blocks].
  replace (16 * S (length cs) - 16)%nat with (length (concat cs))
    by (rewrite concat_length by done; lia).
  rewrite concat_app. cbn [concat]. rewrite app_nil_r, <- !app_assoc, slice_mid by apply Hc.
  rewrite cbc_decrypt_snoc, concat_app. cbn [concat]. rewrite app_nil_r, <- app_assoc.
  change (4 * Nb)%nat with 16%nat.
  set (p := XorBytes (BlockDecrypt tbl c) (default iv (last cs)) 16).
  match goal with |- context [store_at _ ?q _] => assert (Hq : q = p) end.
  { subst p. destruct cs as [|c' cs' _] using rev_ind; [reflexivity|].
    rewrite length_app. cbn [length]. rewrite Nat.add_1_r. cbn [Nat.eqb].
    apply Forall_app in Hcs as [Hcs' Hc']. apply Forall_cons in Hc' as [Hc' _].
    rewrite last_snoc, concat_app. cbn [concat]. rewrite app_nil_r, <- app_assoc, length_app.
    rewrite (proj1 Hc'), Nat.add_sub. pose proof (slice_mid (concat cs') c' (c ++ post) (proj1 Hc')) as E.
    change (4 * Nb)%nat with 16%nat in E. rewrite E. reflexivity. }
  rewrite Hq. assert (Hp : length p = 16%nat).
  { apply XorBytes_block; [by apply BlockDecrypt_block|].
    destruct (last cs) as [c'|] eqn:E; [|done]. apply last_Some in E as [cs' ->].
    apply Forall_app in Hcs as [_ Hc']. by apply Forall_cons in Hc' as [? _]. }
  rewrite store_mid by (destruct Hc; lia).
  rewrite <- (IH (p ++ post) iv Hiv Hcs), concat_length by done. reflexivity.
Qed.
End Cbc.

Lemma chunk_blocks k : ∀ d, length d = (16 * k)%nat → bytes_ok d →
  ∃ bs, d = concat bs ∧ Forall is_block bs ∧ length bs = k.
Proof.
  induction k as [|k IH]; intros d Hd Bd.
  - exists []. destruct d; [auto|discriminate].
  - destruct (IH (drop 16 d)) as (bs & E & Hbs & Hk);
      [rewrite length_drop; lia|by apply Forall_drop|].
    exists (take 16 d :: bs). cbn [concat length]. rewrite <- E, take_drop, Hk.
    split_ands; [done| |done]. constructor; [|done].
    split; [rewrite length_take; lia|by apply Forall_take].
Qed.

Section Roundtrip.
Context (tbl : list Z) (Htbl : is_table tbl).

Lemma copy_in (same : bool) (n : nat) (d rest out : list Z) : length d = n → (n <= length out)%nat →
  (if same then d ++ rest else store_at 0 (take n (d ++ rest)) out)
  = d ++ (if same then rest else drop n out).
Proof using.
  intros <- Hout. destruct same; [done|]. unfold store_at. by rewrite take_app_length.
Qed.

Lemma AES_Encrypt_spec same bs rest out iv : is_block iv → Forall is_block bs →
  (16 * length bs <= length out)%nat →
  AES_Encrypt tbl (concat bs ++ rest) same out (16 * length bs) iv
  = concat (cbc_encrypt tbl iv bs) ++ (if same then rest else drop (16 * length bs) out).
Proof using Htbl.
  intros Hiv Hbs Hout. unfold AES_Encrypt.
  rewrite (copy_in same _ (concat bs)) by (done || by apply concat_length).
  change (4 * Nb)%nat with 16%nat. rewrite Nat.mul_comm, Nat.div_mul by lia.
  rewrite Nat.mul_comm. by apply (encrypt_blocks_cbc tbl Htbl bs []).
Qed.
Lemma AES_Decrypt_spec same cs rest out iv : is_block iv → Forall is_block cs →
  (16 * length cs <= length out)%nat →
  AES_Decrypt tbl out same (concat cs ++ rest) (16 * length cs) iv
  = concat (cbc_decrypt tbl iv cs) ++ (if same then rest else drop (16 * length cs) out).
Proof using Htbl.
  intros Hiv Hcs Hout. unfold AES_Decrypt.
  rewrite (copy_in same _ (concat cs)) by (done || by apply concat_length).
  change (4 * Nb)%nat with 16%nat.
  replace (16 * length cs / 16)%nat with (length cs) by (rewrite Nat.mul_comm, Nat.div_mul; lia).
  by apply (decrypt_blocks_cbc tbl Htbl cs).
Qed.

Lemma cbc_roundtrip same1 same2 d out p iv k : is_block iv → bytes_ok d →
  length d = (16 * k)%nat → (16 * k <= length out)%nat → (16 * k <= length p)%nat →
  take (16 * k) (AES_Decrypt tbl p same2 (AES_Encrypt tbl d same1 out (16 * k) iv) (16 * k) iv) = d.
Proof using Htbl.
  intros Hiv Bd Ld Lo Lp. destruct (chunk_blocks k d Ld Bd) as (bs & -> & Hbs & <-).
  pose proof (AES_Encrypt_spec same1 bs [] out iv Hiv Hbs Lo) as E. rewrite app_nil_r in E.
  rewrite E. pose proof (cbc_encrypt_blocks tbl Htbl iv bs Hiv Hbs) as Hcs.
  set (r := if same1 then _ else _).
  pose proof (AES_Decrypt_spec same2 (cbc_encrypt tbl iv bs) r p iv Hiv Hcs) as D.
  rewrite length_cbc_encrypt in D. rewrite D by done.
  rewrite cbc_inverse by done. by rewrite take_app_length'.
Qed.
End Roundtrip.

(** C24: CBC decryption inverts CBC encryption under the same key and IV, for any
    whole number of blocks, whether each call works in place or copies into
    another buffer, and whatever the round key table held before [AES_Init]. *)
Theorem aes_cbc_roundtrip key tbl0 iv d out p k (in_place1 in_place2 : bool) :
  is_block key → is_table tbl0 → is_block iv → bytes_ok d → length d = (16 * k)%nat →
  (16 * k <= length out)%nat → (16 * k <= length p)%nat →
  let tbl := AES_Init key tbl0 in
  let c := AES_Encrypt tbl d in_place1 out (16 * k) iv in
  take (16 * k) (AES_Decrypt tbl p in_place2 c (16 * k) iv) = d.
Proof.
  intros [Lk Bk] Ht Hiv Bd Ld Lo Lp tbl c. apply cbc_roundtrip; try done. by apply AES_Init_table.
Qed.

Lemma zeros_block n : is_block (replicate 16 0) ∧ bytes_ok (replicate n 0).
Proof.
  split; [split; [done|]|]; apply Forall_replicate; unfold is_byte; lia.
Qed.

Lemma aes_cbc_roundtrip_witness :
  let tbl := AES_Init (seqZ 0 16) (replicate 176 0) in
  let c := AES_Encrypt tbl (seqZ 7 32) true (replicate 32 0) 32 (replicate 16 0) in
  take 32 (AES_Decrypt tbl (replicate 32 0) false c 32 (replicate 16 0)) = seqZ 7 32.
Proof.
  apply (aes_cbc_roundtrip (seqZ 0 16) (replicate 176 0) (replicate 16 0) (seqZ 7 32)
           (replicate 32 0) (replicate 32 0) 2 true false);
    [split; [reflexivity|]|split; [reflexivity|]|apply (zeros_block 0)| |reflexivity|vm_compute; lia..].
  - apply Forall_seqZ. unfold is_byte. lia.
  - apply (zeros_block 176).
  - apply Forall_seqZ. unfold is_byte. lia.
Defined.

(** The length of the padded data. *)
Definition padded (len : Z) : Z := (len + 15) / 16 * 16.
Lemma padded_ok len : 0 <= len →
  len <= padded len < len + 16 ∧ padded len mod 16 = 0
  ∧ (len mod 16 = 0 → padded len = len)
  ∧ (len mod 16 ≠ 0 → padded len = (len / 16 + 1) * 16) ∧ (len <= 1024 → padded len <= 1024).
Proof. intros. unfold padded. Z.div_mod_to_equations. lia. Qed.

Lemma slice_all (b : list Z) n : n = length b → slice 0 n b = b.
Proof. intros ->. unfold slice. rewrite drop_0. by apply take_ge. Qed.

(** The buffer that [AES_Encrypt] is given, and that no access is out of bounds. *)
Lemma NL6621_AES_Encrypt_eq tbl block d out :
  let len := Z.of_nat (length d) in
  0 < len < 2 ^ 31 - 16 → (len mod 16 = 0 ∨ len <= AES_ENCRYPT_MAX_BUFFER) →
  Z.of_nat (length block) = AES_ENCRYPT_MAX_BUFFER → padded len <= Z.of_nat (length out) →
  NL6621_AES_Encrypt tbl (Some block) d out len
  = Some (AES_Encrypt tbl (d ++ replicate (Z.to_nat (padded len - len)) 0) false out
            (Z.to_nat (padded len)) IV, padded len).
Proof.
  intros len Hlen Hmax Hblk Hout. unfold NL6621_AES_Encrypt, AES_ENCRYPT_MAX_BUFFER in *.
  destruct (padded_ok len ltac:(lia)) as (Hp & Hp16 & Hal & Hun & Hsmall).
  destruct (Z.eqb_spec len 0); [lia|].
  destruct (Z.eqb_spec (len mod 16) 0) as [E|E]; cbn [negb].
  - rewrite (Hal E) in *. rewrite !memcpy_from_Some by lia. cbn [mbind option_bind].
    change (Z.to_nat 0) with 0%nat. rewrite slice_all by lia. rewrite Z.sub_diag. cbn [replicate Z.to_nat]. rewrite app_nil_r.
    by rewrite i32_small by lia.
  - destruct Hmax as [?|Hmax]; [done|]. rewrite <- (Hun E) in *. cbn [mbind option_bind].
    rewrite u32_small by (unfold is_u32; lia).
    rewrite memcpy_to_Some by (rewrite ?length_replicate; lia). cbn [mbind option_bind].
    rewrite (memcpy_from_Some 0 len d) by lia. cbn [mbind option_bind].
    change (Z.to_nat 0) with 0%nat. rewrite (slice_all d) by lia.
    assert (Hz : store_at 0 (replicate (Z.to_nat 1024) 0) block = replicate (Z.to_nat 1024) 0).
    { unfold store_at. rewrite drop_ge, app_nil_r by (rewrite length_replicate; lia). done. }
    rewrite Hz, memcpy_to_Some by (rewrite ?length_replicate; lia). cbn [mbind option_bind].
    change (Z.to_nat 0) with 0%nat. unfold store_at. rewrite take_0. cbn [app Nat.add].
    rewrite drop_replicate. set (rest := replicate (Z.to_nat 1024 - length d) 0).
    rewrite (memcpy_from_Some 0 (padded len) (d ++ rest))
      by (subst rest; rewrite ?length_app, ?length_replicate; lia).
    cbn [mbind option_bind]. rewrite memcpy_from_Some by lia. cbn [mbind option_bind].
    rewrite i32_small by lia. change (Z.to_nat 0) with 0%nat.
    assert (Hs : slice 0 (Z.to_nat (padded len)) (d ++ rest)
                 = d ++ replicate (Z.to_nat (padded len - len)) 0).
    { unfold slice, rest. rewrite drop_0, take_app_ge by lia. f_equal.
      rewrite take_replicate. f_equal. lia. }
    by rewrite Hs.
Qed.

(** [NL6621_AES_Encrypt] zero-pads its data to a whole number of blocks and
    stays inside its buffers when the data is at most 1024 bytes (or a whole
    number of blocks) and the allocation succeeds; [NL6621_AES_Decrypt] of what it
    wrote gives the data and its padding back. *)
Theorem NL6621_AES_roundtrip key tbl0 block d out p :
  let tbl := AES_Init key tbl0 in
  let len := Z.of_nat (length d) in
  is_block key → is_table tbl0 → bytes_ok d → 0 < len < 2 ^ 31 - 16 →
  (len mod 16 = 0 ∨ len <= AES_ENCRYPT_MAX_BUFFER) →
  Z.of_nat (length block) = AES_ENCRYPT_MAX_BUFFER →
  padded len <= Z.of_nat (length out) → padded len <= Z.of_nat (length p) →
  ∃ c, NL6621_AES_Encrypt tbl (Some block) d out len = Some (c, padded len)
  ∧ take (Z.to_nat (padded len)) (NL6621_AES_Decrypt tbl p c (padded len)).1
    = d ++ replicate (Z.to_nat (padded len - len)) 0.
Proof.
  intros tbl len [Lk Bk] Ht Bd Hlen Hmax Hblk Hout Hp.
  exists (AES_Encrypt tbl (d ++ replicate (Z.to_nat (padded len - len)) 0) false out
            (Z.to_nat (padded len)) IV).
  split; [by apply NL6621_AES_Encrypt_eq|]. unfold NL6621_AES_Decrypt. cbn [fst].
  destruct (padded_ok len ltac:(lia)) as (Hpl & Hp16 & _).
  pose proof (Z.div_mod (padded len) 16 ltac:(lia)) as Hdm.
  replace (Z.to_nat (padded len)) with (16 * Z.to_nat (padded len / 16))%nat by lia.
  apply cbc_roundtrip.
  - by apply AES_Init_table.
  - apply (zeros_block 0).
  - apply Forall_app. split; [done|]. apply (zeros_block _).
  - rewrite length_app, length_replicate. lia.
  - lia.
  - lia.
Qed.

Lemma NL6621_AES_roundtrip_witness :
  let tbl := AES_Init (replicate 16 0) (replicate 176 0) in
  ∃ c, NL6621_AES_Encrypt tbl (Some (replicate 1024 165)) [72; 105; 33] (replicate 64 0) 3
       = Some (c, 16)
  ∧ take 16 (NL6621_AES_Decrypt tbl (replicate 64 0) c 16).1 = [72; 105; 33] ++ replicate 13 0.
Proof.
  apply (NL6621_AES_roundtrip (replicate 16 0) (replicate 176 0) (replicate 1024 165) [72; 105; 33]
           (replicate 64 0) (replicate 64 0)).
  - apply (zeros_block 0).
  - split; [reflexivity|apply (zeros_block 176)].
  - repeat constructor; unfold is_byte; lia.
  - cbn; lia.
  - right. vm_compute. discriminate.
  - reflexivity.
  - vm_compute. discriminate.
  - vm_compute. discriminate.
Defined.
