(* ===== verification/LwipMem.v ===== *)
(** The heap of the stack: [LwIP/src/core/mem.c], the allocator behind [mem_malloc], [mem_calloc],
    [mem_trim] and [mem_free], as the build configures it (the heap of the array [ram_heap] and not
    the pools, no calls from interrupts, no assertions, no statistics).

    The headers ([struct mem]) lie in the same bytes as the data of the blocks: the state is the
    bytes from the aligned address [ram] on, and a [struct mem *] is its offset in them.  [None] is
    an access outside of them.  The calls hold [mem_mutex] while they touch the heap, so each is one
    function of the state.

    The specification is a set of buffers ([gmap Z (list Z)]): a buffer has the address that was
    returned, the length that was asked for and the contents its owner stored.  Between the two is a
    list of blocks, which gives the invariant: the headers tile the array, no two neighbours are free
    and [lfree] is the lowest free block. *)
From S2P Require Import Prelude.

Definition MEM_ALIGNMENT : Z := 4.
Definition MIN_SIZE_ALIGNED : Z := 12.
Definition SIZEOF_STRUCT_MEM : Z := 8.
Definition MEM_SIZE_ALIGNED : Z := 8 * 1024.
(** The bytes of [ram_heap]. *)
Definition RAM_HEAP_SIZE : Z := MEM_SIZE_ALIGNED + 2 * SIZEOF_STRUCT_MEM + MEM_ALIGNMENT.

(* @ LwIP/src/include/lwip/mem.h:99-101 LWIP_MEM_ALIGN_SIZE *)
Definition LWIP_MEM_ALIGN_SIZE (size : Z) : Z := Z.land (size + MEM_ALIGNMENT - 1) (Z.lnot 3).

(* @ LwIP/src/include/lwip/mem.h:114-116 LWIP_MEM_ALIGN *)
Definition LWIP_MEM_ALIGN (addr : Z) : Z := Z.land (u32 (addr + MEM_ALIGNMENT - 1)) (Z.lnot 3).

(** ** Memory *)

Definition ld8 (a : Z) (r : list Z) : option Z := if a <? 0 then None else r !! Z.to_nat a.
Definition st8 (a v : Z) (r : list Z) : option (list Z) :=
  if bool_decide (0 <= a < Z.of_nat (length r)) then Some (<[Z.to_nat a := v]> r) else None.
Definition ld16 (a : Z) (r : list Z) : option Z :=
  b0 ← ld8 a r; b1 ← ld8 (a + 1) r; Some (of_le16 b0 b1).
Definition st16 (a v : Z) (r : list Z) : option (list Z) :=
  r ← st8 a (byte_of 0 v) r; st8 (a + 1) (byte_of 1 v) r.

(** The fields of the [struct mem] at an offset: two halfwords and a byte. *)
(* @ LwIP/src/core/mem.c:155-162 mem *)
Definition mem_next (m : Z) (r : list Z) : option Z := ld16 m r.
(* @ LwIP/src/core/mem.c:155-162 mem *)
Definition mem_prev (m : Z) (r : list Z) : option Z := ld16 (m + 2) r.
(* @ LwIP/src/core/mem.c:155-162 mem *)
Definition mem_used (m : Z) (r : list Z) : option Z := ld8 (m + 4) r.
(* @ LwIP/src/core/mem.c:155-162 mem *)
Definition set_next (m v : Z) (r : list Z) : option (list Z) := st16 m v r.
(* @ LwIP/src/core/mem.c:155-162 mem *)
Definition set_prev (m v : Z) (r : list Z) : option (list Z) := st16 (m + 2) v r.
(* @ LwIP/src/core/mem.c:155-162 mem *)
Definition set_used (m v : Z) (r : list Z) : option (list Z) := st8 (m + 4) v r.

(** [ram], the bytes there, and [lfree] as an offset. *)
(* @ LwIP/src/core/mem.c:185-190 lfree *)
Record lwip_heap := MkHeap { ram : Z; ram_bytes : list Z; lfree : Z }.

(** More headers than the heap has room for. *)
Definition mem_fuel : nat := 512.

(** ** Operations *)

(** Lines 244 to 255. *)
(* @ LwIP/src/core/mem.c:244-255 plug_holes *)
Definition plug_forward (mem : Z) (r : list Z) (lfree : Z) : option (list Z * Z) :=
  nmem ← mem_next mem r;
  used ← mem_used nmem r;
  if negb (mem =? nmem) && (used =? 0) && negb (nmem =? MEM_SIZE_ALIGNED) then
    let lfree := if lfree =? nmem then mem else lfree in
    next ← mem_next nmem r;
    r ← set_next mem next r;
    next ← mem_next nmem r;
    r ← set_prev next (u16 mem) r;
    Some (r, lfree)
  else Some (r, lfree).

(** Lines 257 to 266. *)
(* @ LwIP/src/core/mem.c:257-266 plug_holes *)
Definition plug_backward (mem : Z) (r : list Z) (lfree : Z) : option (list Z * Z) :=
  pmem ← mem_prev mem r;
  used ← mem_used pmem r;
  if negb (pmem =? mem) && (used =? 0) then
    let lfree := if lfree =? mem then pmem else lfree in
    next ← mem_next mem r;
    r ← set_next pmem next r;
    next ← mem_next mem r;
    r ← set_prev next (u16 pmem) r;
    Some (r, lfree)
  else Some (r, lfree).

(* @ LwIP/src/core/mem.c:234-267 plug_holes *)
Definition plug_holes (mem : Z) (r : list Z) (lfree : Z) : option (list Z * Z) :=
  '(r, lfree) ← plug_forward mem r lfree;
  plug_backward mem r lfree.

(** [ram_heap] is the address of the array and [bytes] what it holds. *)
(* @ LwIP/src/core/mem.c:272-301 mem_init *)
Definition mem_init (ram_heap : Z) (bytes : list Z) : option lwip_heap :=
  let ram := LWIP_MEM_ALIGN ram_heap in
  let r := drop (Z.to_nat (ram - ram_heap)) bytes in
  r ← set_next 0 MEM_SIZE_ALIGNED r;
  r ← set_prev 0 0 r;
  r ← set_used 0 0 r;
  let ram_end := MEM_SIZE_ALIGNED in
  r ← set_used ram_end 1 r;
  r ← set_next ram_end MEM_SIZE_ALIGNED r;
  r ← set_prev ram_end MEM_SIZE_ALIGNED r;
  Some (MkHeap ram r 0).

(* @ LwIP/src/core/mem.c:309-355 mem_free *)
Definition mem_free (rmem : Z) (h : lwip_heap) : option lwip_heap :=
  if rmem =? 0 then Some h
  else if (rmem <? ram h) || (ram h + MEM_SIZE_ALIGNED <=? rmem) then Some h
  else
    let mem := rmem - SIZEOF_STRUCT_MEM - ram h in
    r ← set_used mem 0 (ram_bytes h);
    let lfree := if mem <? lfree h then mem else lfree h in
    '(r, lfree) ← plug_holes mem r lfree;
    Some (MkHeap (ram h) r lfree).

(** The writes that put a free block [mem2] at [ptr2] between the block at [ptr] and the one at
    [next]; [mem_malloc] (lines 566 to 576) also marks the first one used.  The back link of the
    block after [mem2] follows unless that is the end of the heap. *)
(* @ LwIP/src/core/mem.c:432-444 mem_trim *)
Definition link_remainder (mark : bool) (ptr ptr2 next : Z) (r : list Z) : option (list Z) :=
  r ← set_used ptr2 0 r;
  r ← set_next ptr2 next r;
  r ← set_prev ptr2 ptr r;
  r ← set_next ptr ptr2 r;
  r ← (if mark then set_used ptr 1 r else Some r);
  next ← mem_next ptr2 r;
  if next =? MEM_SIZE_ALIGNED then Some r else set_prev next ptr2 r.

(** Result: the heap and the pointer that is returned. *)
(* @ LwIP/src/core/mem.c:367-481 mem_trim *)
Definition mem_trim (rmem newsize : Z) (h : lwip_heap) : option (lwip_heap * Z) :=
  let newsize := u16 (LWIP_MEM_ALIGN_SIZE newsize) in
  let newsize := if newsize <? MIN_SIZE_ALIGNED then MIN_SIZE_ALIGNED else newsize in
  if MEM_SIZE_ALIGNED <? newsize then Some (h, 0)
  else if (rmem <? ram h) || (ram h + MEM_SIZE_ALIGNED <=? rmem) then Some (h, rmem)
  else
    let mem := rmem - SIZEOF_STRUCT_MEM - ram h in
    let ptr := u16 mem in
    mnext ← mem_next mem (ram_bytes h);
    let size := u16 (u32 (mnext - ptr - SIZEOF_STRUCT_MEM)) in
    if size <? newsize then Some (h, 0)
    else if newsize =? size then Some (h, rmem)
    else
      mem2_used ← mem_used mnext (ram_bytes h);
      let ptr2 := u16 (ptr + SIZEOF_STRUCT_MEM + newsize) in
      if mem2_used =? 0 then
        next ← mem_next mnext (ram_bytes h);
        let lfree := if lfree h =? mnext then ptr2 else lfree h in
        r ← link_remainder false ptr ptr2 next (ram_bytes h);
        Some (MkHeap (ram h) r lfree, rmem)
      else if u32 (newsize + SIZEOF_STRUCT_MEM + MIN_SIZE_ALIGNED) <=? size then
        let lfree := if ptr2 <? lfree h then ptr2 else lfree h in
        r ← link_remainder false ptr ptr2 mnext (ram_bytes h);
        Some (MkHeap (ram h) r lfree, rmem)
      else Some (h, rmem).

(** The loop over the blocks from [lfree] on; [None] inside is its regular end. *)
(* @ LwIP/src/core/mem.c:531-548 mem_malloc *)
Fixpoint malloc_scan (fuel : nat) (size ptr : Z) (r : list Z) : option (option Z) :=
  match fuel with
  | O => None
  | S fuel =>
    if ptr <? MEM_SIZE_ALIGNED - size then
      used ← mem_used ptr r;
      next ← mem_next ptr r;
      if (used =? 0) && (size <=? u32 (next - (ptr + SIZEOF_STRUCT_MEM))) then Some (Some ptr)
      else malloc_scan fuel size next r
    else Some None
  end.

(** Lines 594 to 607: the next free block from [cur] on, or the end. *)
(* @ LwIP/src/core/mem.c:594-607 mem_malloc *)
Fixpoint next_free (fuel : nat) (cur : Z) (r : list Z) : option Z :=
  match fuel with
  | O => None
  | S fuel =>
    used ← mem_used cur r;
    if negb (used =? 0) && negb (cur =? MEM_SIZE_ALIGNED) then
      next ← mem_next cur r; next_free fuel next r
    else Some cur
  end.

(** Lines 552 to 587: the block at [ptr] becomes used, split when the rest is large enough. *)
(* @ LwIP/src/core/mem.c:552-587 mem_malloc *)
Definition malloc_take (ptr size : Z) (r : list Z) : option (list Z) :=
  next ← mem_next ptr r;
  if u32 (size + SIZEOF_STRUCT_MEM + MIN_SIZE_ALIGNED) <=? u32 (next - (ptr + SIZEOF_STRUCT_MEM)) then
    let ptr2 := u16 (ptr + SIZEOF_STRUCT_MEM + size) in
    link_remainder true ptr ptr2 next r
  else set_used ptr 1 r.

(* @ LwIP/src/core/mem.c:492-632 mem_malloc *)
Definition mem_malloc (size : Z) (h : lwip_heap) : option (lwip_heap * Z) :=
  if size =? 0 then Some (h, 0)
  else
    let size := u16 (LWIP_MEM_ALIGN_SIZE size) in
    let size := if size <? MIN_SIZE_ALIGNED then MIN_SIZE_ALIGNED else size in
    if MEM_SIZE_ALIGNED <? size then Some (h, 0)
    else
      found ← malloc_scan mem_fuel size (lfree h) (ram_bytes h);
      match found with
      | None => Some (h, 0)
      | Some ptr =>
        r ← malloc_take ptr size (ram_bytes h);
        lfree ← (if ptr =? lfree h then next_free mem_fuel (lfree h) r else Some (lfree h));
        Some (MkHeap (ram h) r lfree, ram h + ptr + SIZEOF_STRUCT_MEM)
      end.

(** The size passed on is a halfword, the size cleared is not. *)
(* @ LwIP/src/core/mem.c:645-656 mem_calloc *)
Definition mem_calloc (count size : Z) (h : lwip_heap) : option (lwip_heap * Z) :=
  '(h, p) ← mem_malloc (u16 (count * size)) h;
  if p =? 0 then Some (h, p)
  else
    r ← memcpy_to (p - ram h) (replicate (Z.to_nat (u32 (count * size))) 0) (ram_bytes h);
    Some (MkHeap (ram h) r (lfree h), p).

(** ** Headers in bytes *)

Lemma LWIP_MEM_ALIGN_SIZE_eq x : LWIP_MEM_ALIGN_SIZE x = (x + 3) / 4 * 4.
Proof.
  unfold LWIP_MEM_ALIGN_SIZE, MEM_ALIGNMENT. replace (x + 4 - 1) with (x + 3) by lia.
  change 3 with (Z.ones 2) at 2. rewrite <- Z.ldiff_land, Z.ldiff_ones_r by lia.
  rewrite Z.shiftr_div_pow2, Z.shiftl_mul_pow2 by lia. done.
Qed.

(** [hdr r a n p u]: a [struct mem] with these fields lies at offset [a]. *)
Definition hdr (r : list Z) (a n p u : Z) : Prop :=
  ld16 a r = Some n ∧ ld16 (a + 2) r = Some p ∧ ld8 (a + 4) r = Some u.

(** [r'] differs from [r] at most in the headers at the offsets [l]. *)
Definition touched (l : list Z) (r r' : list Z) : Prop :=
  length r' = length r ∧ ∀ x, Forall (λ a, x < a ∨ a + 5 <= x) l → ld8 x r' = ld8 x r.

Lemma touched_refl l r : touched l r r.
Proof. done. Qed.
Lemma touched_trans l l' r r' r'' :
  touched l r r' → touched l' r' r'' → touched (l ++ l') r r''.
Proof.
  intros [H1 H2] [H3 H4]. split; [congruence|]. intros x [Hl Hl']%Forall_app.
  rewrite H4, H2; done.
Qed.
Arguments touched_trans {l l' r r' r''}.
Lemma touched_incl l l' r r' : l ⊆ l' → touched l r r' → touched l' r r'.
Proof.
  intros Hl [H1 H2]. split; [done|]. intros x Hx. apply H2.
  rewrite Forall_forall in Hx |- *. auto.
Qed.

Lemma st8_Some a v r : 0 <= a < Z.of_nat (length r) →
  ∃ r', st8 a v r = Some r' ∧ length r' = length r ∧ ld8 a r' = Some v
    ∧ ∀ x, x ≠ a → ld8 x r' = ld8 x r.
Proof.
  intros Ha. unfold st8. rewrite bool_decide_true by done. eexists. split; [done|].
  rewrite length_insert. split; [done|]. unfold ld8. split.
  - rewrite (proj2 (Z.ltb_ge a 0)) by lia. apply list_lookup_insert_eq. lia.
  - intros x Hx. destruct (Z.ltb_spec x 0); [done|]. apply list_lookup_insert_ne. lia.
Qed.
Lemma ld8_range a r v : ld8 a r = Some v → 0 <= a < Z.of_nat (length r).
Proof.
  unfold ld8. destruct (Z.ltb_spec a 0); [done|]. intros ?%lookup_lt_Some. lia.
Qed.
Lemma ld8_in a r : 0 <= a < Z.of_nat (length r) → ∃ v, ld8 a r = Some v.
Proof.
  intros Ha. unfold ld8. rewrite (proj2 (Z.ltb_ge a 0)) by lia.
  apply lookup_lt_is_Some_2. lia.
Qed.
Lemma ld16_bytes a r b0 b1 v : ld8 a r = Some b0 → ld8 (a + 1) r = Some b1 →
  of_le16 b0 b1 = v → ld16 a r = Some v.
Proof. intros H0 H1 <-. unfold ld16. rewrite H0. cbn. by rewrite H1. Qed.
Lemma ld16_frame a r r' : ld8 a r' = ld8 a r → ld8 (a + 1) r' = ld8 (a + 1) r →
  ld16 a r' = ld16 a r.
Proof. unfold ld16. by intros -> ->. Qed.
Lemma ld16_range a r v : ld16 a r = Some v → 0 <= a ∧ a + 1 < Z.of_nat (length r).
Proof.
  unfold ld16. destruct (ld8 a r) eqn:E; [|done]. cbn.
  destruct (ld8 (a + 1) r) eqn:E1; [|done]. apply ld8_range in E, E1. lia.
Qed.
Lemma st16_Some a v r : 0 <= a → a + 1 < Z.of_nat (length r) → 0 <= v < 2 ^ 16 →
  ∃ r', st16 a v r = Some r' ∧ length r' = length r ∧ ld16 a r' = Some v
    ∧ ∀ x, x < a ∨ a + 2 <= x → ld8 x r' = ld8 x r.
Proof.
  intros Ha Hl Hv. unfold st16.
  destruct (st8_Some a (byte_of 0 v) r) as (r1 & -> & Hl1 & Hv1 & Hx1); [lia|]. cbn.
  destruct (st8_Some (a + 1) (byte_of 1 v) r1) as (r2 & -> & Hl2 & Hv2 & Hx2); [lia|].
  eexists. split; [done|]. split; [lia|]. split.
  - eapply ld16_bytes; [rewrite Hx2 by lia; done|done|]. by apply of_le16_bytes.
  - intros x Hx. rewrite Hx2, Hx1 by lia. done.
Qed.

(** Every place has some header; a write changes its field of the header and nothing else. *)
Lemma hdr_any r a : 0 <= a → a + 5 <= Z.of_nat (length r) → ∃ n p u, hdr r a n p u.
Proof.
  intros Ha Hl. unfold hdr, ld16.
  destruct (ld8_in a r) as [b0 ->]; [lia|]. destruct (ld8_in (a + 1) r) as [b1 ->]; [lia|].
  destruct (ld8_in (a + 2) r) as [b2 ->]; [lia|].
  destruct (ld8_in (a + 2 + 1) r) as [b3 ->]; [lia|].
  destruct (ld8_in (a + 4) r) as [b4 ->]; [lia|]. cbn. eauto 10.
Qed.
Lemma hdr_range r a n p u : hdr r a n p u → 0 <= a ∧ a + 5 <= Z.of_nat (length r).
Proof. intros (H & _ & H'). apply ld16_range in H. apply ld8_range in H'. lia. Qed.
Lemma hdr_same r r' a n p u : (∀ x, a <= x < a + 5 → ld8 x r' = ld8 x r) →
  hdr r a n p u → hdr r' a n p u.
Proof.
  intros Hx (H1 & H2 & H3). unfold hdr.
  split_ands; [rewrite <- H1|rewrite <- H2|rewrite <- H3]; try apply ld16_frame; apply Hx; lia.
Qed.
Lemma touched_same l r r' a n : touched l r r' → Forall (λ b, a + n <= b ∨ b + 5 <= a) l →
  ∀ x, a <= x < a + n → ld8 x r' = ld8 x r.
Proof.
  intros [_ Ht] Hl x Hx. apply Ht. eapply Forall_impl; [exact Hl|]. cbn. lia.
Qed.
Lemma hdr_other l r r' a n p u : touched l r r' → Forall (λ b, a + 5 <= b ∨ b + 5 <= a) l →
  hdr r a n p u → hdr r' a n p u.
Proof. intros Ht Hl. apply hdr_same. by apply touched_same with l. Qed.
Lemma set_next_hdr r a n p u v : hdr r a n p u → 0 <= v < 2 ^ 16 →
  ∃ r', set_next a v r = Some r' ∧ hdr r' a v p u ∧ touched [a] r r'.
Proof.
  intros H Hv. pose proof (hdr_range _ _ _ _ _ H) as Hr. destruct H as (H1 & H2 & H3).
  destruct (st16_Some a v r) as (r' & E & Hl & Hv' & Hx); [lia..|].
  exists r'. split; [done|]. split; [|split; [done|]].
  - unfold hdr. split_ands; [done|rewrite <- H2|rewrite <- H3]; try apply ld16_frame; apply Hx; lia.
  - intros x Hx'. rewrite Forall_singleton in Hx'. apply Hx. lia.
Qed.
Lemma set_prev_hdr r a n p u v : hdr r a n p u → 0 <= v < 2 ^ 16 →
  ∃ r', set_prev a v r = Some r' ∧ hdr r' a n v u ∧ touched [a] r r'.
Proof.
  intros H Hv. pose proof (hdr_range _ _ _ _ _ H) as Hr. destruct H as (H1 & H2 & H3).
  destruct (st16_Some (a + 2) v r) as (r' & E & Hl & Hv' & Hx); [lia..|].
  exists r'. split; [done|]. split; [|split; [done|]].
  - unfold hdr. split_ands; [rewrite <- H1|done|rewrite <- H3]; try apply ld16_frame; apply Hx; lia.
  - intros x Hx'. rewrite Forall_singleton in Hx'. apply Hx. lia.
Qed.
Lemma set_used_hdr r a n p u v : hdr r a n p u →
  ∃ r', set_used a v r = Some r' ∧ hdr r' a n p v ∧ touched [a] r r'.
Proof.
  intros H. pose proof (hdr_range _ _ _ _ _ H) as Hr. destruct H as (H1 & H2 & H3).
  destruct (st8_Some (a + 4) v r) as (r' & E & Hl & Hv' & Hx); [lia..|].
  exists r'. split; [done|]. split; [|split; [done|]].
  - unfold hdr. split_ands; [rewrite <- H1|rewrite <- H2|done]; apply ld16_frame; apply Hx; lia.
  - intros x Hx'. rewrite Forall_singleton in Hx'. apply Hx. lia.
Qed.

(** ** The heap as a list of blocks

    A block is its extent in bytes, header included, and the contents of its first bytes if it is
    used.  The heap is the blocks in address order, then the header [ram_end]. *)
Notation blk := (Z * option (list Z))%type.

Definition used_of (b : blk) : Z := match b.2 with Some _ => 1 | None => 0 end.
Definition data_at (r : list Z) (a : Z) (xs : list Z) : Prop :=
  ∀ i x, xs !! i = Some x → ld8 (a + Z.of_nat i) r = Some x.
Definition block_at (r : list Z) (prev a : Z) (b : blk) : Prop :=
  hdr r a (a + b.1) prev (used_of b) ∧
  match b.2 with Some xs => data_at r (a + SIZEOF_STRUCT_MEM) xs | None => True end.
Definition blk_ok (b : blk) : Prop :=
  20 <= b.1 ∧ b.1 mod 4 = 0 ∧
  match b.2 with Some xs => Z.of_nat (length xs) <= b.1 - SIZEOF_STRUCT_MEM | None => True end.

Fixpoint total (bl : list blk) : Z := match bl with [] => 0 | b :: tl => b.1 + total tl end.
(** Offset of the last block of a segment. *)
Fixpoint last_addr (prev a : Z) (bl : list blk) : Z :=
  match bl with [] => prev | b :: tl => last_addr a (a + b.1) tl end.
Fixpoint links (r : list Z) (prev a : Z) (bl : list blk) : Prop :=
  match bl with [] => True | b :: tl => block_at r prev a b ∧ links r a (a + b.1) tl end.
Fixpoint rep (r : list Z) (prev a : Z) (bl : list blk) : Prop :=
  match bl with
  | [] => ∃ p, hdr r a a p 1
  | b :: tl => block_at r prev a b ∧ rep r a (a + b.1) tl
  end.
(** No two neighbours are free. *)
Fixpoint coalesced (prev_free : bool) (bl : list blk) : Prop :=
  match bl with
  | [] => True
  | b :: tl => (prev_free && (used_of b =? 0) = false) ∧ coalesced (used_of b =? 0) tl
  end.
Fixpoint first_free (a : Z) (bl : list blk) : Z :=
  match bl with
  | [] => a
  | (e, Some _) :: tl => first_free (a + e) tl
  | (_, None) :: _ => a
  end.

Record heap_rep (h : lwip_heap) (bl : list blk) : Prop := HeapRep {
  heap_blocks : rep (ram_bytes h) 0 0 bl;
  heap_total : total bl = MEM_SIZE_ALIGNED;
  heap_ok : Forall blk_ok bl;
  heap_coalesced : coalesced false bl;
  heap_lfree : lfree h = first_free 0 bl;
  heap_addr : 0 < ram h ∧ ram h mod 4 = 0 ∧ ram h + RAM_HEAP_SIZE <= 2 ^ 32 }.

(** What the calls make of a block. *)
Definition alloc_block (sz e : Z) (xs : list Z) : list blk :=
  if sz + 20 <=? e - 8 then [(sz + 8, Some xs); (e - sz - 8, None)] else [(e, Some xs)].
Definition join_next (e : Z) (post : list blk) : list blk :=
  match post with (en, None) :: tl => (e + en, None) :: tl | _ => (e, None) :: post end.
Definition absorb_prev (pre : list blk) (e : Z) : list blk * Z :=
  match last pre with Some (ep, None) => (removelast pre, ep + e) | _ => (pre, e) end.
Definition free_block (pre : list blk) (e : Z) (post : list blk) : list blk :=
  (absorb_prev pre e).1 ++ join_next (absorb_prev pre e).2 post.
Definition trim_block (sz e : Z) (xs : list Z) (post : list blk) : list blk :=
  match post with
  | (en, None) :: tl =>
    if sz =? e - 8 then (e, Some xs) :: post
    else (sz + 8, Some xs) :: (e + en - sz - 8, None) :: tl
  | _ =>
    if (sz + 20 <=? e - 8) then (sz + 8, Some xs) :: (e - sz - 8, None) :: post
    else (e, Some xs) :: post
  end.

Definition fits (sz : Z) (b : blk) : bool := (used_of b =? 0) && (sz <=? b.1 - 8).
(** The first block that fits, with what is before and after it. *)
Fixpoint first_fit (sz : Z) (bl : list blk) : option (list blk * Z * list blk) :=
  match bl with
  | [] => None
  | b :: tl =>
    if fits sz b then Some ([], b.1, tl)
    else '(pre, e, post) ← first_fit sz tl; Some (b :: pre, e, post)
  end.

(** ** Segments *)

Lemma heap_total_app l1 l2 : total (l1 ++ l2) = total l1 + total l2.
Proof. induction l1 as [|b l1 IH]; cbn; lia. Qed.
Lemma total_blocks bl : Forall blk_ok bl → 20 * Z.of_nat (length bl) <= total bl.
Proof.
  induction 1 as [|b bl [H _] _ IH]; cbn [total length]; lia.
Qed.
Lemma total_mod bl : Forall blk_ok bl → total bl mod 4 = 0.
Proof.
  induction 1 as [|b bl (_ & H & _) _ IH]; [done|]. cbn [total].
  rewrite Z.add_mod, H, IH by lia. done.
Qed.
Lemma last_addr_snoc prev a l b : last_addr prev a (l ++ [b]) = a + total l.
Proof. revert prev a. induction l as [|c l IH]; intros; cbn; [lia|]. rewrite IH. lia. Qed.
Lemma heap_rep_app r prev a l1 l2 :
  rep r prev a (l1 ++ l2) ↔ links r prev a l1 ∧ rep r (last_addr prev a l1) (a + total l1) l2.
Proof.
  revert prev a. induction l1 as [|b l1 IH]; intros; cbn.
  - rewrite Z.add_0_r. tauto.
  - rewrite IH, Z.add_assoc. tauto.
Qed.
Lemma heap_links_app r prev a l1 l2 :
  links r prev a (l1 ++ l2) ↔ links r prev a l1 ∧ links r (last_addr prev a l1) (a + total l1) l2.
Proof.
  revert prev a. induction l1 as [|b l1 IH]; intros; cbn.
  - rewrite Z.add_0_r. tauto.
  - rewrite IH, Z.add_assoc. tauto.
Qed.
Lemma heap_coalesced_app c l1 l2 :
  coalesced c (l1 ++ l2) ↔
  coalesced c l1 ∧ coalesced (match last l1 with Some b => used_of b =? 0 | None => c end) l2.
Proof.
  revert c. induction l1 as [|b l1 IH]; intros c; cbn [app coalesced]; [cbn; tauto|].
  rewrite IH, last_cons. destruct (last l1); tauto.
Qed.
Lemma coalesced_weaken c bl : coalesced c bl → coalesced false bl.
Proof. destruct bl; cbn; tauto. Qed.
Lemma first_free_used a l1 l2 : Forall (λ b, used_of b = 1) l1 →
  first_free a (l1 ++ l2) = first_free (a + total l1) l2.
Proof.
  intros H. revert a. induction H as [|[e [xs|]] l1 Hu H IH]; intros a; cbn in *; [|rewrite IH|done];
    f_equal; lia.
Qed.
Lemma first_free_split a bl : ∃ l1 l2, bl = l1 ++ l2 ∧ Forall (λ b, used_of b = 1) l1 ∧
  first_free a bl = a + total l1 ∧ match l2 with (_, Some _) :: _ => False | _ => True end.
Proof.
  revert a. induction bl as [|[e [xs|]] bl IH]; intros a.
  - exists [], []. cbn. split_ands; [done|done|lia|done].
  - destruct (IH (a + e)) as (l1 & l2 & -> & H & E & Hl). exists ((e, Some xs) :: l1), l2.
    cbn. rewrite E. split_ands; [done|by constructor|lia|done].
  - exists [], ((e, None) :: bl). cbn. split_ands; [done|done|lia|done].
Qed.
Lemma first_free_bounds a bl : Forall blk_ok bl → a <= first_free a bl <= a + total bl.
Proof.
  intros Hok. revert a. induction Hok as [|[e [xs|]] bl [He _] Hok IH]; intros a; cbn in *; [lia| |].
  - specialize (IH (a + e)). lia.
  - pose proof (total_blocks bl Hok). lia.
Qed.

(** Bytes and headers written outside a segment leave it alone. *)
Lemma data_same r r' a xs : (∀ x, a <= x < a + Z.of_nat (length xs) → ld8 x r' = ld8 x r) →
  data_at r a xs → data_at r' a xs.
Proof.
  intros Hx Hd i x Hi. rewrite <- (Hd i x Hi). apply Hx. apply lookup_lt_Some in Hi. lia.
Qed.
Lemma block_same r r' p a b : (∀ x, a <= x < a + b.1 → ld8 x r' = ld8 x r) → blk_ok b →
  block_at r p a b → block_at r' p a b.
Proof.
  intros Hx (H20 & _ & Hlen) [Hh Hd]. split; [eapply hdr_same; [|done]; intros; apply Hx; lia|].
  destruct (b.2) as [xs|]; [|done]. unfold SIZEOF_STRUCT_MEM in *.
  eapply data_same; [|done]. intros. apply Hx. lia.
Qed.
Lemma links_same r r' p a bl : (∀ x, a <= x < a + total bl → ld8 x r' = ld8 x r) →
  Forall blk_ok bl → links r p a bl → links r' p a bl.
Proof.
  intros Hx Hok. revert p a Hx. induction Hok as [|b bl Hb Hok IH]; intros p a Hx; cbn in *; [done|].
  pose proof (total_blocks bl Hok). pose proof (proj1 Hb). intros [Ha Hr]. split.
  - eapply block_same; [|done..]. intros. apply Hx. lia.
  - apply IH; [|done]. intros. apply Hx. lia.
Qed.
Lemma rep_same r r' p a bl : (∀ x, a <= x < a + (total bl + 5) → ld8 x r' = ld8 x r) →
  Forall blk_ok bl → rep r p a bl → rep r' p a bl.
Proof.
  intros Hx Hok. revert p a Hx. induction Hok as [|b bl Hb Hok IH]; intros p a Hx; cbn in *.
  - intros [q Hq]. exists q. eapply hdr_same; [|done]. intros. apply Hx. lia.
  - pose proof (total_blocks bl Hok). pose proof (proj1 Hb). intros [Ha Hr]. split.
    + eapply block_same; [|done..]. intros. apply Hx. lia.
    + apply IH; [|done]. intros. apply Hx. lia.
Qed.
Lemma heap_links_frame l r r' p a bl : touched l r r' → Forall blk_ok bl →
  Forall (λ x, x + 5 <= a ∨ a + total bl <= x) l → links r p a bl → links r' p a bl.
Proof.
  intros Ht Hok Hl. apply links_same; [|done]. apply touched_same with l; [done|].
  eapply Forall_impl; [exact Hl|]. cbn. lia.
Qed.
Lemma heap_rep_frame l r r' p a bl : touched l r r' → Forall blk_ok bl →
  Forall (λ x, x + 5 <= a ∨ a + total bl + 5 <= x) l → rep r p a bl → rep r' p a bl.
Proof.
  intros Ht Hok Hl. apply rep_same; [|done]. apply touched_same with l; [done|].
  eapply Forall_impl; [exact Hl|]. cbn. lia.
Qed.

(** The header where a segment starts, and a change of its back link. *)
Definition head_next (a : Z) (bl : list blk) : Z := match bl with [] => a | b :: _ => a + b.1 end.
Definition head_used (bl : list blk) : Z := match bl with [] => 1 | b :: _ => used_of b end.

Lemma heap_rep_head r prev a bl : rep r prev a bl →
  ∃ q, hdr r a (head_next a bl) q (head_used bl).
Proof. destruct bl as [|b tl]; cbn; [done|]. intros [[H _] _]. eauto. Qed.
Lemma heap_rep_set_prev r prev a bl v : rep r prev a bl → Forall blk_ok bl → 0 <= v < 2 ^ 16 →
  ∃ r', set_prev a v r = Some r' ∧ rep r' v a bl ∧ touched [a] r r'.
Proof.
  intros Hr Hok Hv. destruct Hok as [|b tl Hb Hok]; cbn in Hr |- *.
  - destruct Hr as [q Hq]. destruct (set_prev_hdr _ _ _ _ _ v Hq Hv) as (r' & E & H & Ht). eauto.
  - destruct Hr as [[Hh Hd] Hr]. destruct (set_prev_hdr _ _ _ _ _ v Hh Hv) as (r' & E & H & Ht).
    pose proof (proj1 Hb). exists r'. split; [done|]. split; [|done]. split; [split; [done|]|].
    + destruct (b.2) as [xs|]; [|done]. intros i x Hx. rewrite <- (Hd i x Hx). apply Ht.
      unfold SIZEOF_STRUCT_MEM. constructor; [lia|constructor].
    + eapply heap_rep_frame; [exact Ht|done| |done]. constructor; [lia|constructor].
Qed.
(** The code leaves the back link of [ram_end] alone. *)
Lemma rep_relink r prev a bl v : rep r prev a bl → Forall blk_ok bl → 0 <= v < 2 ^ 16 →
  a + total bl = MEM_SIZE_ALIGNED →
  ∃ r', (if a =? MEM_SIZE_ALIGNED then Some r else set_prev a v r) = Some r' ∧
    rep r' v a bl ∧ touched [a] r r'.
Proof.
  intros Hr Hok Hv Ha. destruct (Z.eqb_spec a MEM_SIZE_ALIGNED) as [->|Hne].
  - exists r. split_ands; [done| |apply touched_refl].
    pose proof (total_blocks bl Hok). destruct bl; [done|]. cbn in *. lia.
  - by apply heap_rep_set_prev with prev.
Qed.

Lemma data_any r a n : 0 <= a → a + Z.of_nat n <= Z.of_nat (length r) →
  ∃ xs, length xs = n ∧ data_at r a xs.
Proof.
  intros Ha Hn. exists (slice (Z.to_nat a) n r). split; [apply length_slice; lia|].
  intros i x Hx. unfold slice in Hx. unfold ld8. rewrite (proj2 (Z.ltb_ge _ 0)) by lia.
  apply lookup_take_Some in Hx as [Hx _]. rewrite lookup_drop in Hx. rewrite <- Hx. f_equal. lia.
Qed.
Lemma data_frame l r r' a xs : touched l r r' → data_at r a xs →
  Forall (λ x, x + 5 <= a ∨ a + Z.of_nat (length xs) <= x) l → data_at r' a xs.
Proof.
  intros Ht Hd Hl. eapply data_same; [|done]. apply touched_same with l; [done|].
  eapply Forall_impl; [exact Hl|]. cbn. lia.
Qed.

(** ** The loops of [mem_malloc] *)

Lemma hdr_next r a n p u : hdr r a n p u → mem_next a r = Some n.
Proof. by intros (H & _ & _). Qed.
Lemma hdr_prev r a n p u : hdr r a n p u → mem_prev a r = Some p.
Proof. by intros (_ & H & _). Qed.
Lemma hdr_used r a n p u : hdr r a n p u → mem_used a r = Some u.
Proof. by intros (_ & _ & H). Qed.

Lemma first_fit_Some sz bl pre e post : first_fit sz bl = Some (pre, e, post) →
  bl = pre ++ (e, None) :: post ∧ Forall (λ b, fits sz b = false) pre ∧ sz <= e - 8.
Proof.
  revert pre. induction bl as [|[e0 c] bl IH]; intros pre; cbn; [done|].
  destruct (fits sz (e0, c)) eqn:E.
  - intros [= <- <- <-]. unfold fits in E. cbn in E. apply andb_true_iff in E as [Eu E].
    destruct c; [done|]. apply Z.leb_le in E. split_ands; [done|constructor|lia].
  - destruct (first_fit sz bl) as [[[pre0 e1] post0]|]; [|done]. intros [= <- -> ->].
    destruct (IH _ eq_refl) as (-> & H & ?). split_ands; [done|by constructor|done].
Qed.
Lemma first_fit_None sz bl : first_fit sz bl = None → Forall (λ b, fits sz b = false) bl.
Proof.
  induction bl as [|b bl IH]; cbn; [by constructor|].
  destruct (fits sz b) eqn:E; [done|]. destruct (first_fit sz bl) as [[[]]|]; [done|].
  intros _. constructor; auto.
Qed.
Lemma first_fit_small sz bl : Forall blk_ok bl → total bl - 8 < sz → first_fit sz bl = None.
Proof.
  induction 1 as [|b bl [Hb _] Hok IH]; cbn; [done|]. intros Hsz. pose proof (total_blocks bl Hok).
  unfold fits. rewrite (proj2 (Z.leb_gt sz (b.1 - 8))) by lia. rewrite andb_false_r, IH by lia. done.
Qed.
Lemma first_fit_used sz l1 l2 : Forall (λ b, used_of b = 1) l1 →
  first_fit sz (l1 ++ l2) = '(pre, e, post) ← first_fit sz l2; Some (l1 ++ pre, e, post).
Proof.
  induction 1 as [|b l1 Hb H IH]; cbn.
  - by destruct (first_fit sz l2) as [[[]]|].
  - unfold fits. rewrite Hb. cbn. rewrite IH. by destruct (first_fit sz l2) as [[[]]|].
Qed.

Lemma malloc_scan_spec fuel sz r prev a bl : rep r prev a bl → Forall blk_ok bl →
  (length bl < fuel)%nat → a + total bl = MEM_SIZE_ALIGNED → 0 <= a → 12 <= sz →
  malloc_scan fuel sz a r = Some (match first_fit sz bl with
                                  | Some (pre, _, _) => Some (a + total pre) | None => None end).
Proof.
  intros Hr Hok Hf Ha H0 Hsz. revert fuel prev a Hr Hf Ha H0.
  induction Hok as [|b bl Hb Hok IH]; intros [|fuel] prev a Hr Hf Ha H0; cbn [length] in Hf; try lia.
  - cbn in *. rewrite (proj2 (Z.ltb_ge _ _)) by lia. done.
  - cbn [total rep malloc_scan] in *. destruct Hr as [[Hh _] Hr]. pose proof (total_blocks bl Hok).
    pose proof (proj1 Hb). unfold MEM_SIZE_ALIGNED in *. split_guard; cycle 1.
    { rewrite first_fit_small; [done|by constructor|]. cbn. lia. }
    rewrite (hdr_used _ _ _ _ _ Hh), (hdr_next _ _ _ _ _ Hh). cbn [mbind option_bind first_fit].
    unfold SIZEOF_STRUCT_MEM. rewrite u32_small by (unfold is_u32; lia).
    replace (a + b.1 - (a + 8)) with (b.1 - 8) by lia. fold (fits sz b).
    destruct (fits sz b); [do 2 f_equal; cbn; lia|].
    rewrite IH with (prev := a) by (done || lia).
    destruct (first_fit sz bl) as [[[pre e] post]|]; [|done]. cbn. do 2 f_equal. lia.
Qed.
Lemma next_free_spec fuel r prev a bl : rep r prev a bl → Forall blk_ok bl →
  (length bl < fuel)%nat → a + total bl = MEM_SIZE_ALIGNED →
  next_free fuel a r = Some (first_free a bl).
Proof.
  intros Hr Hok. revert fuel prev a Hr.
  induction Hok as [|[e c] bl Hb Hok IH]; intros [|fuel] prev a Hr Hf Ha; cbn [length] in Hf; try lia.
  - cbn in *. destruct Hr as [q Hq]. rewrite (hdr_used _ _ _ _ _ Hq). cbn.
    replace a with MEM_SIZE_ALIGNED by lia. done.
  - cbn [total rep next_free first_free fst] in *. destruct Hr as [[Hh _] Hr].
    pose proof (total_blocks bl Hok). pose proof (proj1 Hb) as He. cbn in He.
    rewrite (hdr_used _ _ _ _ _ Hh). cbn [mbind option_bind]. destruct c as [xs|]; [|done].
    cbn [used_of snd]. rewrite (proj2 (Z.eqb_neq a MEM_SIZE_ALIGNED)) by lia. cbn [negb andb Z.eqb].
    rewrite (hdr_next _ _ _ _ _ Hh). cbn. by apply IH with a; [|lia..].
Qed.

(** ** Allocation *)

(** [touched] of a sequence of writes, and a header or a segment that it leaves alone. *)
Ltac apart := unfold SIZEOF_STRUCT_MEM; solve [repeat (constructor; [cbn; lia|]); constructor].

Lemma link_remainder_spec (mark : bool) r ptr ptr2 next n p u q post :
  hdr r ptr n p u → rep r q next post → Forall blk_ok post →
  next + total post = MEM_SIZE_ALIGNED → ptr + 5 <= ptr2 → ptr2 + 5 <= next →
  ∃ r', link_remainder mark ptr ptr2 next r = Some r' ∧
    hdr r' ptr ptr2 p (if mark then 1 else u) ∧ hdr r' ptr2 next ptr 0 ∧ rep r' ptr2 next post ∧
    touched [ptr2; ptr; next] r r'.
Proof.
  intros Hh Hr Hok Hn Hp Hp2. pose proof (total_blocks post Hok).
  unfold MEM_SIZE_ALIGNED in Hn. pose proof (hdr_range _ _ _ _ _ Hh).
  destruct (heap_rep_head _ _ _ _ Hr) as (q0 & Hq0). pose proof (hdr_range _ _ _ _ _ Hq0).
  destruct (hdr_any r ptr2) as (n2 & p2 & u2 & H2); [lia..|]. unfold link_remainder.
  destruct (set_used_hdr _ _ _ _ _ 0 H2) as (r1 & -> & H2a & T1). cbn [mbind option_bind].
  destruct (set_next_hdr _ _ _ _ _ next H2a) as (r2 & -> & H2b & T2); [lia|]. cbn [mbind option_bind].
  destruct (set_prev_hdr _ _ _ _ _ ptr H2b) as (r3 & -> & H2c & T3); [lia|]. cbn [mbind option_bind].
  assert (T03 : touched [ptr2] r r3).
  { eapply touched_incl; [|exact (touched_trans T1 (touched_trans T2 T3))]. set_solver. }
  assert (Hh3 : hdr r3 ptr n p u) by (eapply hdr_other; [exact T03|apart|done]).
  destruct (set_next_hdr _ _ _ _ _ ptr2 Hh3) as (r4 & -> & Hh4 & T4); [lia|]. cbn [mbind option_bind].
  assert (∃ r5, (if mark then set_used ptr 1 r4 else Some r4) = Some r5 ∧
    hdr r5 ptr ptr2 p (if mark then 1 else u) ∧ touched [ptr] r4 r5) as (r5 & -> & Hh5 & T5).
  { destruct mark; [apply set_used_hdr with u; done|]. exists r4. split_ands; try done. }
  cbn [mbind option_bind].
  assert (T05 : touched [ptr2; ptr] r r5).
  { eapply touched_incl; [|exact (touched_trans T03 (touched_trans T4 T5))]. set_solver. }
  assert (H5 : hdr r5 ptr2 next ptr 0) by (eapply hdr_other; [exact T5|apart|];
    eapply hdr_other; [exact T4|apart|done]).
  assert (Hr5 : rep r5 q next post) by (eapply heap_rep_frame; [exact T05|done|apart|done]).
  rewrite (hdr_next _ _ _ _ _ H5). cbn [mbind option_bind].
  destruct (rep_relink r5 q next post ptr2) as (r6 & -> & Hr6 & T6); [done..|lia|unfold MEM_SIZE_ALIGNED; lia|].
  exists r6. split; [done|]. split_ands; [| |done|].
  - eapply hdr_other; [exact T6|apart|done].
  - eapply hdr_other; [exact T6|apart|done].
  - exact (touched_trans T05 T6).
Qed.

Lemma malloc_take_spec r pre e post sz n :
  rep r 0 0 (pre ++ (e, None) :: post) → Forall blk_ok pre → Forall blk_ok post →
  total pre + e + total post = MEM_SIZE_ALIGNED → 12 <= sz <= e - 8 → Z.of_nat n <= sz →
  ∃ r' xs, malloc_take (total pre) sz r = Some r' ∧ length xs = n ∧
    rep r' 0 0 (pre ++ alloc_block sz e xs ++ post).
Proof.
  intros [Hpre [[Hh _] Hpost]]%heap_rep_app Hokp Hok Ht Hsz Hn. cbn [used_of fst snd] in *.
  rewrite Z.add_0_l in *. set (ptr := total pre) in *. set (p := last_addr 0 0 pre) in *.
  pose proof (total_blocks pre Hokp). pose proof (total_blocks post Hok).
  destruct (heap_rep_head _ _ _ _ Hpost) as (q0 & Hq0%hdr_range). pose proof (hdr_range _ _ _ _ _ Hh).
  destruct (data_any r (ptr + 8) n) as (xs & Hxs & Hd); [lia..|].
  unfold malloc_take, alloc_block, MEM_SIZE_ALIGNED, SIZEOF_STRUCT_MEM, MIN_SIZE_ALIGNED in *.
  rewrite (hdr_next _ _ _ _ _ Hh). cbn [mbind option_bind].
  rewrite !u32_small, u16_small by (unfold is_u32; lia).
  replace (ptr + e - (ptr + 8)) with (e - 8) by lia. rewrite <- Z.add_assoc. change (8 + 12) with 20.
  destruct (Z.leb_spec (sz + 20) (e - 8)).
  - destruct (link_remainder_spec true r ptr (ptr + 8 + sz) (ptr + e) _ _ _ _ post Hh Hpost)
      as (r' & -> & Hp' & Hm2 & Hr' & T); [done|unfold MEM_SIZE_ALIGNED; lia|lia..|].
    exists r', xs. split; [done|]. split; [done|]. apply heap_rep_app. rewrite Z.add_0_l. split.
    + eapply heap_links_frame; [exact T|done|fold ptr; apart|done].
    + fold ptr p. cbn. unfold used_of, block_at; cbn. split_ands; [| | |done|].
      * by replace (ptr + (sz + 8)) with (ptr + 8 + sz) by lia.
      * eapply data_frame; [exact T|exact Hd|apart].
      * replace (ptr + (sz + 8) + (e - sz - 8)) with (ptr + e) by lia.
        by replace (ptr + (sz + 8)) with (ptr + 8 + sz) by lia.
      * replace (ptr + (sz + 8) + (e - sz - 8)) with (ptr + e) by lia.
        by replace (ptr + (sz + 8)) with (ptr + 8 + sz) by lia.
  - destruct (set_used_hdr _ _ _ _ _ 1 Hh) as (r' & -> & Hh' & T).
    exists r', xs. split; [done|]. split; [done|]. apply heap_rep_app. rewrite Z.add_0_l. split.
    + eapply heap_links_frame; [exact T|done|fold ptr; apart|done].
    + fold ptr p. cbn. split; [split|]; [done| |].
      * eapply data_frame; [exact T|exact Hd|apart].
      * eapply heap_rep_frame; [exact T|done|apart|done].
Qed.

Lemma blocks_mid l b l' : Forall blk_ok (l ++ b :: l') ↔ Forall blk_ok l ∧ blk_ok b ∧ Forall blk_ok l'.
Proof. by rewrite Forall_app, Forall_cons. Qed.
Lemma alloc_block_ok sz e xs : 12 <= sz <= e - 8 → sz mod 4 = 0 → e mod 4 = 0 →
  Z.of_nat (length xs) <= sz →
  Forall blk_ok (alloc_block sz e xs) ∧ total (alloc_block sz e xs) = e.
Proof.
  intros Hsz Hm He Hx. unfold alloc_block, SIZEOF_STRUCT_MEM.
  assert ((sz + 8) mod 4 = 0) by (rewrite Z.add_mod, Hm by lia; done).
  assert ((e - sz - 8) mod 4 = 0).
  { replace (e - sz - 8) with (e - (sz + 8)) by lia. rewrite Zminus_mod, He, H. done. }
  destruct (Z.leb_spec (sz + 20) (e - 8)); (split; [|cbn; lia]);
    repeat constructor; cbn; unfold SIZEOF_STRUCT_MEM; try done; lia.
Qed.
Lemma heap_coalesced_alloc sz e xs c post : coalesced c ((e, None) :: post) →
  coalesced c (alloc_block sz e xs ++ post).
Proof.
  cbn. unfold alloc_block. intros [Hc Hp]. destruct (_ <=? _); cbn; rewrite ?andb_false_r;
    (split_ands; [done..|]); [done|]. by apply coalesced_weaken in Hp.
Qed.

Definition malloc_size (size : Z) : Z := Z.max 12 ((size + 3) / 4 * 4).
Lemma malloc_size_spec size : 0 <= size <= 65532 →
  (let sz := u16 (LWIP_MEM_ALIGN_SIZE size) in if sz <? MIN_SIZE_ALIGNED then MIN_SIZE_ALIGNED else sz)
  = malloc_size size ∧ 12 <= malloc_size size ∧ size <= malloc_size size ∧ malloc_size size mod 4 = 0.
Proof.
  intros Hs. rewrite LWIP_MEM_ALIGN_SIZE_eq. cbn zeta. unfold malloc_size, MIN_SIZE_ALIGNED.
  pose proof (Z.div_mod (size + 3) 4). pose proof (Z.mod_pos_bound (size + 3) 4).
  rewrite u16_small by lia. split_ands.
  - destruct (Z.ltb_spec ((size + 3) / 4 * 4) 12); lia.
  - lia.
  - lia.
  - apply Z.max_case_strong; intros; [done|]. apply Z.mod_mul. lia.
Qed.

(** The search for the new [lfree] when the lowest free block was taken. *)
Lemma malloc_lfree r l1 pre mid post : Forall (λ b, used_of b = 1) l1 →
  match pre with (_, Some _) :: _ => False | _ => True end →
  let bl := (l1 ++ pre) ++ mid ++ post in
  rep r 0 0 bl → Forall blk_ok bl → total bl = MEM_SIZE_ALIGNED →
  (if total l1 + total pre =? total l1 then next_free mem_fuel (total l1) r
   else Some (total l1)) = Some (first_free 0 bl).
Proof.
  intros Hu Hp bl Hr Hok Ht. unfold bl in *. rewrite <- app_assoc in *.
  apply heap_rep_app in Hr as [_ Hr]. rewrite first_free_used by done.
  apply Forall_app in Hok as [Hok1 Hok2]. rewrite heap_total_app, Z.add_0_l in *.
  pose proof (total_blocks _ Hok1). pose proof (total_blocks _ Hok2).
  destruct pre as [|[e c] pre]; cbn [app total fst].
  - rewrite Z.add_0_r, Z.eqb_refl. eapply next_free_spec; [done|done| |done].
    unfold mem_fuel, MEM_SIZE_ALIGNED in *. cbn [app] in *. lia.
  - apply Forall_cons in Hok2 as [[He _] Hok2]. cbn [fst] in He.
    destruct c; [done|]. cbn [first_free]. rewrite (proj2 (Z.eqb_neq _ _)); [done|].
    apply Forall_app in Hok2 as [Hok2 _]. pose proof (total_blocks _ Hok2). lia.
Qed.

(** First fit: where the block is, and that there is no answer only if no block fits. *)
Lemma mem_malloc_blocks h bl size : heap_rep h bl → 0 < size <= 65532 →
  match first_fit (malloc_size size) bl with
  | None => mem_malloc size h = Some (h, 0)
  | Some (pre, e, post) => ∃ h' xs,
      mem_malloc size h = Some (h', ram h + total pre + SIZEOF_STRUCT_MEM) ∧
      Z.of_nat (length xs) = size ∧ ram h' = ram h ∧
      heap_rep h' (pre ++ alloc_block (malloc_size size) e xs ++ post)
  end.
Proof.
  intros [Hr Ht Hok Hc Hl Ha] Hs. destruct (malloc_size_spec size) as (Esz & H12 & Hge & Hm); [lia|].
  unfold mem_malloc. rewrite (proj2 (Z.eqb_neq size 0)) by lia. cbn zeta in Esz |- *. rewrite Esz.
  clear Esz. set (sz := malloc_size size) in *.
  destruct (first_free_split 0 bl) as (l1 & l2 & E & Hl1 & Ef & Hhd). rewrite Ef in Hl.
  rewrite E in *. rewrite first_fit_used by done.
  pose proof (proj1 (heap_rep_app _ _ _ _ _) Hr) as [_ Hr2]. rewrite Z.add_0_l in *.
  apply Forall_app in Hok as [Hok1 Hok2]. rewrite heap_total_app in Ht.
  pose proof (total_blocks _ Hok1). pose proof (total_blocks _ Hok2).
  destruct (Z.ltb_spec MEM_SIZE_ALIGNED sz).
  { rewrite first_fit_small by (done || lia). done. }
  rewrite Hl, malloc_scan_spec with (prev := last_addr 0 0 l1) (bl := l2)
    by (done || unfold mem_fuel, MEM_SIZE_ALIGNED in *; lia).
  cbn [mbind option_bind]. destruct (first_fit sz l2) as [[[pre e] post]|] eqn:Eff; [|done].
  destruct (first_fit_Some _ _ _ _ _ Eff) as (-> & _ & He). cbn [mbind option_bind].
  rewrite app_assoc in Hr, Hc. apply blocks_mid in Hok2 as (Hok2 & Hbe & Hok3).
  rewrite heap_total_app in *. cbn [total fst] in *. destruct Hbe as (_ & Hem & _). cbn in Hem.
  destruct (malloc_take_spec _ _ _ _ sz (Z.to_nat size) Hr) as (r' & xs & Etk & Hxs & Hr');
    [by apply Forall_app|done|rewrite heap_total_app; lia|lia..|].
  rewrite heap_total_app in Etk. rewrite Etk. cbn [mbind option_bind].
  destruct (alloc_block_ok sz e xs) as [Hoka Hta]; [lia|done|done|lia|].
  assert (Hokn : Forall blk_ok ((l1 ++ pre) ++ alloc_block sz e xs ++ post)) by
    (rewrite !Forall_app; done).
  assert (Htn : total ((l1 ++ pre) ++ alloc_block sz e xs ++ post) = MEM_SIZE_ALIGNED) by
    (rewrite !heap_total_app; lia).
  rewrite (malloc_lfree r' l1 pre (alloc_block sz e xs) post); [|done| |done..];
    [|by destruct pre as [|[? [?|]] ?]].
  cbn [mbind option_bind]. eexists _, xs. split; [done|]. split; [lia|]. split; [done|].
  split; [done..| |done|done]. apply heap_coalesced_app in Hc as [Hc1 Hc2]. apply heap_coalesced_app.
  split; [done|]. by apply heap_coalesced_alloc.
Qed.

(** ** Deallocation *)

Lemma first_free_mid a l e e' x x' :
  first_free a (l ++ (e, None) :: x) = first_free a (l ++ (e', None) :: x').
Proof. revert a. induction l as [|[e0 [xs|]] l IH]; intros a; cbn; auto. Qed.
Lemma first_free_le a l e x : Forall blk_ok l → a <= first_free a (l ++ (e, None) :: x) <= a + total l.
Proof.
  intros H. revert a. induction H as [|[e0 [xs|]] l [He _] H IH]; intros a; cbn in *; [lia| |].
  - specialize (IH (a + e0)). lia.
  - pose proof (total_blocks l H). lia.
Qed.
Lemma free_ok e : 20 <= e → e mod 4 = 0 → blk_ok (e, None).
Proof. done. Qed.
Lemma free_join_ok e e' : blk_ok (e, None) → blk_ok (e', None) → blk_ok (e + e', None).
Proof.
  intros (H1 & H2 & _) (H3 & H4 & _). cbn in *. apply free_ok; [lia|].
  by rewrite Z.add_mod, H2, H4 by lia.
Qed.

(** Two free neighbours, joined by the writes both halves of [plug_holes] make. *)
Lemma join_blocks_spec r pre e e' post :
  rep r 0 0 (pre ++ (e, None) :: (e', None) :: post) →
  Forall blk_ok (pre ++ (e, None) :: (e', None) :: post) →
  total (pre ++ (e, None) :: (e', None) :: post) = MEM_SIZE_ALIGNED →
  ∃ r', (r ← set_next (total pre) (total pre + e + e') r;
         n ← mem_next (total pre + e) r; set_prev n (u16 (total pre)) r) = Some r' ∧
    rep r' 0 0 (pre ++ (e + e', None) :: post).
Proof.
  intros Hr Hok Ht. apply heap_rep_app in Hr as (Hpre & [Hh _] & [Hh' _] & Hpost).
  rewrite heap_total_app in Ht. cbn [total fst used_of snd] in *. rewrite Z.add_0_l in *.
  apply blocks_mid in Hok as (Hokp & [He _] & [[He' _] Hok]%Forall_cons). cbn [fst] in *.
  pose proof (total_blocks pre Hokp). pose proof (total_blocks post Hok).
  unfold MEM_SIZE_ALIGNED in Ht. set (p := last_addr 0 0 pre) in *.
  destruct (set_next_hdr _ _ _ _ _ (total pre + e + e') Hh) as (r1 & -> & H1 & T1); [lia|].
  cbn [mbind option_bind].
  assert (Hh1 : hdr r1 (total pre + e) (total pre + e + e') (total pre) 0) by
    (eapply hdr_other; [exact T1|apart|done]).
  rewrite (hdr_next _ _ _ _ _ Hh1), u16_small by lia. cbn [mbind option_bind].
  assert (Hp1 : rep r1 (total pre + e) (total pre + e + e') post) by
    (eapply heap_rep_frame; [exact T1|done|apart|done]).
  destruct (heap_rep_set_prev _ _ _ _ (total pre) Hp1 Hok) as (r2 & -> & Hp2 & T2); [lia|].
  exists r2. split; [done|]. apply heap_rep_app. rewrite Z.add_0_l. split.
  - eapply heap_links_frame; [exact (touched_trans T1 T2)|done|apart|done].
  - fold p. cbn. split; [split; [|done]|]; cbn [fst]; rewrite Z.add_assoc; [|done].
    eapply hdr_other; [exact T2|apart|done].
Qed.

Lemma plug_forward_spec r pre e post (l := first_free 0 (pre ++ (e, None) :: post)) :
  rep r 0 0 (pre ++ (e, None) :: post) → Forall blk_ok (pre ++ (e, None) :: post) →
  total (pre ++ (e, None) :: post) = MEM_SIZE_ALIGNED →
  ∃ r', plug_forward (total pre) r l = Some (r', l) ∧ rep r' 0 0 (pre ++ join_next e post).
Proof.
  intros Hr Hok Ht. pose proof Hr as (_ & [Hh _] & Hpost)%heap_rep_app. cbn [fst used_of snd] in *.
  rewrite Z.add_0_l in *. pose proof Hok as (Hokp & [He _] & Hokq)%blocks_mid.
  pose proof (first_free_le 0 pre e post Hokp). fold l in H. cbn [fst] in He.
  pose proof (total_blocks pre Hokp). unfold plug_forward. rewrite (hdr_next _ _ _ _ _ Hh).
  cbn [mbind option_bind]. destruct (heap_rep_head _ _ _ _ Hpost) as (q & Hq).
  rewrite (hdr_used _ _ _ _ _ Hq). cbn [mbind option_bind].
  rewrite (proj2 (Z.eqb_neq (total pre) _)) by lia.
  destruct post as [|[e' [xs|]] post]; [by exists r..|]. cbn [head_used used_of snd negb andb Z.eqb].
  apply Forall_cons in Hokq as [[He' _] Hokq]. pose proof (total_blocks post Hokq).
  rewrite heap_total_app in Ht. cbn [total fst] in *.
  rewrite (proj2 (Z.eqb_neq _ MEM_SIZE_ALIGNED)), (proj2 (Z.eqb_neq l _)) by lia. cbn [negb].
  destruct (join_blocks_spec r pre e e' post Hr Hok) as (r' & E & Hr'); [rewrite heap_total_app; done|].
  rewrite (hdr_next _ _ _ _ _ Hq). cbn [mbind option_bind head_next fst].
  exists r'. split; [|done]. revert E.
  destruct (set_next _ _ r) as [r1|]; [|done]. cbn [mbind option_bind].
  destruct (mem_next _ r1) as [n|]; [|done]. cbn [mbind option_bind]. by intros ->.
Qed.

Lemma plug_backward_spec r pre e post (l := first_free 0 (pre ++ (e, None) :: post)) :
  rep r 0 0 (pre ++ (e, None) :: post) → Forall blk_ok (pre ++ (e, None) :: post) →
  total (pre ++ (e, None) :: post) = MEM_SIZE_ALIGNED →
  ∃ r', plug_backward (total pre) r l = Some (r', l) ∧
    rep r' 0 0 ((absorb_prev pre e).1 ++ ((absorb_prev pre e).2, None) :: post).
Proof.
  intros Hr Hok Ht. pose proof Hr as (Hpre & [Hh _] & _)%heap_rep_app. cbn [fst used_of snd] in *.
  rewrite Z.add_0_l in *. pose proof Hok as (Hokp & [He _] & Hokq)%blocks_mid. cbn [fst] in He.
  unfold plug_backward. rewrite (hdr_prev _ _ _ _ _ Hh). cbn [mbind option_bind].
  destruct pre as [|b pre _] using rev_ind.
  { cbn in *. rewrite (hdr_used _ _ _ _ _ Hh). by exists r. }
  apply heap_links_app in Hpre as (_ & [Hb _] & _). rewrite last_addr_snoc, Z.add_0_l in *.
  unfold absorb_prev. rewrite last_snoc, removelast_last.
  rewrite (hdr_used _ _ _ _ _ Hb). cbn [mbind option_bind].
  apply Forall_app in Hokp as [Hokp [[Hbe _] _]%Forall_cons]. rewrite heap_total_app. cbn [total].
  rewrite (proj2 (Z.eqb_neq _ (total pre + _))) by lia. cbn [negb andb].
  destruct b as [e' [xs|]]; [by exists r|]. cbn [used_of snd Z.eqb fst] in *.
  pose proof (first_free_le 0 pre e' ((e, None) :: post) Hokp).
  unfold l in *. rewrite <- app_assoc in *. cbn [app] in *. rewrite (proj2 (Z.eqb_neq _ _)) by lia.
  destruct (join_blocks_spec r pre e' e post Hr Hok Ht) as (r' & E & Hr').
  exists r'. split; [|done]. revert E. rewrite heap_total_app in Hh. cbn in Hh. rewrite Z.add_0_r in *.
  rewrite (hdr_next _ _ _ _ _ Hh). cbn [mbind option_bind].
  destruct (set_next _ _ r) as [r1|]; [|done]. cbn [mbind option_bind].
  destruct (mem_next _ r1) as [n|]; [|done]. cbn [mbind option_bind]. by intros ->.
Qed.

Lemma join_next_shape e post : ∃ e1 post1, e1 = e + (total post - total post1) ∧
  (∀ d, join_next (d + e) post = (d + e1, None) :: post1) ∧
  (Forall blk_ok post → blk_ok (e, None) → blk_ok (e1, None) ∧ Forall blk_ok post1) ∧
  (coalesced false post → coalesced true post1).
Proof.
  destruct post as [|[e' [xs|]] post]; cbn.
  - exists e, []. split_ands; first [done | cbn; lia].
  - exists e, ((e', Some xs) :: post). split_ands; first [done | cbn; lia | by intros []].
  - exists (e + e'), post. split_ands; [lia|intros; do 2 f_equal; lia| |by intros []].
    intros [Hb Ho]%Forall_cons He. split; [by apply free_join_ok|done].
Qed.
Lemma absorb_free pre e e1 post post1 c :
  (∀ d, join_next (d + e) post = (d + e1, None) :: post1) →
  Forall blk_ok pre → blk_ok (e1, None) → Forall blk_ok post1 →
  coalesced c pre → match pre with [] => c = false | _ => True end → coalesced true post1 →
  free_block pre e post = (absorb_prev pre e1).1 ++ ((absorb_prev pre e1).2, None) :: post1 ∧
  Forall blk_ok (free_block pre e post) ∧ coalesced c (free_block pre e post) ∧
  total (free_block pre e post) = total pre + e1 + total post1.
Proof.
  intros Hj Hpre He1 Hp1 Hc Hnil Hc1. unfold free_block, absorb_prev.
  pose proof (Hj 0) as Hj0. rewrite !Z.add_0_l in Hj0.
  destruct pre as [|[ep [xs|]] pre _] using rev_ind.
  - cbn. rewrite Hj0. cbn. split_ands; [done|by constructor|by rewrite Hnil|done|lia].
  - rewrite last_snoc. cbn [fst snd]. rewrite Hj0. split; [done|]. rewrite Forall_app, Forall_cons.
    split; [done|]. rewrite heap_coalesced_app, last_snoc, !heap_total_app. cbn. split_ands; try done; lia.
  - rewrite last_snoc, removelast_last. cbn [fst snd]. rewrite Hj. split; [done|].
    apply Forall_app in Hpre as [Hpre [Hep _]%Forall_cons].
    apply heap_coalesced_app in Hc as [Hc (Hl & _)].
    rewrite Forall_app, Forall_cons, heap_coalesced_app, !heap_total_app. cbn. cbn in Hl.
    split_ands; try done; [by apply free_join_ok|lia].
Qed.

Lemma set_used_block r pre e c post : rep r 0 0 (pre ++ (e, Some c) :: post) →
  Forall blk_ok (pre ++ (e, Some c) :: post) →
  ∃ r', set_used (total pre) 0 r = Some r' ∧ rep r' 0 0 (pre ++ (e, None) :: post).
Proof.
  intros (Hpre & [Hh _] & Hpost)%heap_rep_app (Hokp & [He _] & Hokq)%blocks_mid. cbn [fst used_of snd] in *.
  rewrite Z.add_0_l in *. pose proof (total_blocks pre Hokp).
  destruct (set_used_hdr _ _ _ _ _ 0 Hh) as (r' & -> & Hh' & T). exists r'. split; [done|].
  apply heap_rep_app. rewrite Z.add_0_l. split; [eapply heap_links_frame; [exact T|done|apart|done]|].
  cbn. split; [done|]. eapply heap_rep_frame; [exact T|done|apart|done].
Qed.
Lemma first_free_release a l e c x : Forall blk_ok (l ++ (e, Some c) :: x) →
  (if a + total l <? first_free a (l ++ (e, Some c) :: x) then a + total l
   else first_free a (l ++ (e, Some c) :: x)) = first_free a (l ++ (e, None) :: x).
Proof.
  intros (Hl & [He _] & Hx)%blocks_mid. cbn [fst] in He. revert a.
  induction Hl as [|[e0 [xs|]] l [H0 _] Hl IH]; intros a; cbn [app first_free total fst] in *.
  - pose proof (first_free_bounds (a + e) x Hx). rewrite (proj2 (Z.ltb_lt _ _)); lia.
  - rewrite Z.add_assoc. apply IH.
  - pose proof (total_blocks l Hl). rewrite (proj2 (Z.ltb_ge _ _)); [done|lia].
Qed.
Lemma first_free_absorb pre e post : first_free 0 (pre ++ (e, None) :: post) =
  first_free 0 ((absorb_prev pre e).1 ++ ((absorb_prev pre e).2, None) :: post).
Proof.
  unfold absorb_prev. destruct pre as [|[ep [xs|]] pre _] using rev_ind; [done|..].
  - by rewrite last_snoc.
  - rewrite last_snoc, removelast_last, <- app_assoc. apply first_free_mid.
Qed.

Lemma mem_free_blocks h pre e xs post : heap_rep h (pre ++ (e, Some xs) :: post) →
  ∃ h', mem_free (ram h + total pre + SIZEOF_STRUCT_MEM) h = Some h' ∧ ram h' = ram h ∧
    heap_rep h' (free_block pre e post).
Proof.
  intros [Hr Ht Hok Hc Hl Ha]. pose proof Hok as (Hokp & Hbe & Hokq)%blocks_mid.
  pose proof (total_blocks pre Hokp). pose proof (total_blocks post Hokq).
  destruct Hbe as (He & Hem & _). cbn [fst] in *. rewrite heap_total_app in Ht. cbn [total fst] in Ht.
  unfold mem_free, SIZEOF_STRUCT_MEM. rewrite (proj2 (Z.eqb_neq _ 0)) by lia.
  rewrite (proj2 (Z.ltb_ge _ (ram h))), (proj2 (Z.leb_gt _ _)) by (unfold MEM_SIZE_ALIGNED in *; lia).
  cbn [orb]. replace (ram h + total pre + 8 - 8 - ram h) with (total pre) by lia.
  destruct (set_used_block _ _ _ _ _ Hr Hok) as (r1 & -> & Hr1). cbn [mbind option_bind].
  assert (Hf : (if total pre <? lfree h then total pre else lfree h)
               = first_free 0 (pre ++ (e, None) :: post)).
  { rewrite Hl. apply (first_free_release 0). done. }
  rewrite Hf. unfold plug_holes. apply free_ok in He; [|done].
  assert (Hok1 : Forall blk_ok (pre ++ (e, None) :: post)) by by apply blocks_mid.
  destruct (plug_forward_spec r1 pre e post) as (r2 & -> & Hr2); [done..|rewrite heap_total_app; cbn; lia|].
  cbn [mbind option_bind]. destruct (join_next_shape e post) as (e1 & post1 & Ee1 & Hj & Hjo & Hjc).
  destruct (Hjo Hokq He) as [He1 Hokp1]. pose proof (Hj 0) as Hj0. rewrite !Z.add_0_l in Hj0.
  rewrite Hj0 in Hr2. rewrite (first_free_mid 0 pre e e1 post post1).
  destruct (plug_backward_spec r2 pre e1 post1) as (r3 & -> & Hr3);
    [done|by apply blocks_mid|rewrite heap_total_app; cbn; lia|].
  cbn [mbind option_bind]. eexists. split; [done|]. split; [done|].
  apply heap_coalesced_app in Hc as [Hc1 [_ Hc2]].
  destruct (absorb_free pre e e1 post post1 false) as (Efb & Hokf & Hcf & Htf);
    [done..|by destruct pre|auto|].
  split; cbn [ram lfree ram_bytes]; [by rewrite Efb|rewrite Htf; lia|done|done| |done].
  rewrite Efb. apply first_free_absorb.
Qed.

(** ** Trimming *)

Lemma first_free_move a l e e' en en' c c' x x' : Forall blk_ok l → 0 < e →
  (if first_free a (l ++ (e, Some c) :: (en, None) :: x) =? a + total l + e
   then a + total l + e' else first_free a (l ++ (e, Some c) :: (en, None) :: x))
  = first_free a (l ++ (e', Some c') :: (en', None) :: x').
Proof.
  intros Hl He. revert a. induction Hl as [|[e0 [xs|]] l [H0 _] Hl IH]; intros a;
    cbn [app first_free total fst] in *.
  - rewrite Z.add_0_r, Z.eqb_refl. done.
  - rewrite Z.add_assoc. apply IH.
  - pose proof (total_blocks l Hl). rewrite (proj2 (Z.eqb_neq _ _)); [done|lia].
Qed.
Lemma first_free_insert a l e e' en' c c' x : Forall blk_ok l → Forall blk_ok x → 0 < e' < e →
  (if a + total l + e' <? first_free a (l ++ (e, Some c) :: x)
   then a + total l + e' else first_free a (l ++ (e, Some c) :: x))
  = first_free a (l ++ (e', Some c') :: (en', None) :: x).
Proof.
  intros Hl Hx He. revert a. induction Hl as [|[e0 [xs|]] l [H0 _] Hl IH]; intros a;
    cbn [app first_free total fst] in *.
  - pose proof (first_free_bounds (a + e) x Hx). rewrite (proj2 (Z.ltb_lt _ _)); lia.
  - rewrite Z.add_assoc. apply IH.
  - pose proof (total_blocks l Hl). rewrite (proj2 (Z.ltb_ge _ _)); [done|lia].
Qed.
Lemma first_free_same a l e c c' x :
  first_free a (l ++ (e, Some c) :: x) = first_free a (l ++ (e, Some c') :: x).
Proof. revert a. induction l as [|[e0 [xs|]] l IH]; intros a; cbn; auto. Qed.

Lemma data_take r a xs n : data_at r a xs → data_at r a (take n xs).
Proof. intros H i x [Hx _]%lookup_take_Some. by apply H. Qed.

(** The two cases that change something: a free remainder of extent [en'] follows the block. *)
Lemma trim_split_spec r pre e xs n sz q next post :
  links r 0 0 pre → block_at r (last_addr 0 0 pre) (total pre) (e, Some xs) → rep r q next post →
  Forall blk_ok pre → Forall blk_ok post → 12 <= sz → total pre + sz + 28 <= next →
  Z.of_nat (length (take n xs)) <= sz → next + total post = MEM_SIZE_ALIGNED →
  ∃ r', link_remainder false (total pre) (total pre + 8 + sz) next r = Some r' ∧
    rep r' 0 0 (pre ++ (sz + 8, Some (take n xs)) ::
                  (next - (total pre + 8 + sz), None) :: post).
Proof.
  intros Hpre [Hh Hd] Hpost Hokp Hok Hsz Hnx Hlen Ht. cbn [fst used_of snd] in *.
  pose proof (total_blocks pre Hokp). pose proof (total_blocks post Hok).
  set (ptr := total pre) in *. set (p := last_addr 0 0 pre) in *.
  destruct (link_remainder_spec false r ptr (ptr + 8 + sz) next _ _ _ _ post Hh Hpost)
    as (r' & -> & Hp' & Hm2 & Hr' & T); [done|done|lia..|].
  exists r'. split; [done|]. apply heap_rep_app. rewrite Z.add_0_l. split.
  { eapply heap_links_frame; [exact T|done|fold ptr; apart|done]. }
  fold ptr p. cbn [rep fst]. unfold used_of, block_at; cbn [fst snd].
  replace (ptr + (sz + 8)) with (ptr + 8 + sz) by lia.
  replace (ptr + 8 + sz + (next - (ptr + 8 + sz))) with next by lia.
  split; [split; [done|]|by split].
  eapply data_frame; [exact T|by apply data_take|apart].
Qed.
Lemma remainder_ok e sz xs : e mod 4 = 0 → sz mod 4 = 0 → 12 <= sz → sz + 28 <= e →
  Z.of_nat (length xs) <= sz → blk_ok (sz + 8, Some xs) ∧ blk_ok (e - sz - 8, None).
Proof.
  intros He Hs ? ? ?. assert (E : (sz + 8) mod 4 = 0) by (rewrite Z.add_mod, Hs by lia; done).
  split; (split; [cbn; lia|split; [|cbn; unfold SIZEOF_STRUCT_MEM; lia || done]]); cbn; [done|].
  replace (e - sz - 8) with (e - (sz + 8)) by lia. by rewrite Zminus_mod, He, E.
Qed.
Lemma take_block_rep h pre e xs n post : heap_rep h (pre ++ (e, Some xs) :: post) →
  heap_rep h (pre ++ (e, Some (take n xs)) :: post).
Proof.
  intros [Hr Ht Hok Hc Hl Ha]. apply blocks_mid in Hok as (Hp & (He & Hm & Hx) & Hq).
  split; [| | | | |done].
  - apply heap_rep_app in Hr as (Hp' & [Hh Hd] & Hr). apply heap_rep_app. split; [done|]. split; [|done].
    split; [done|by apply data_take].
  - rewrite <- Ht, !heap_total_app. done.
  - apply blocks_mid. split_ands; [done| |done]. split; [done|split; [done|]]. cbn in *. rewrite length_take. lia.
  - apply heap_coalesced_app in Hc as [Hc1 Hc2]. by apply heap_coalesced_app.
  - rewrite Hl. apply first_free_same.
Qed.

Lemma trimmed_heap_rep ram r pre E sz xs post (bl := pre ++ (sz + 8, Some xs) :: (E - sz - 8, None) :: post) :
  rep r 0 0 bl → Forall blk_ok pre → Forall blk_ok post → total pre + E + total post = MEM_SIZE_ALIGNED →
  12 <= sz → sz mod 4 = 0 → E mod 4 = 0 → sz + 28 <= E → Z.of_nat (length xs) <= sz →
  coalesced false pre → coalesced true post →
  0 < ram ∧ ram mod 4 = 0 ∧ ram + RAM_HEAP_SIZE <= 2 ^ 32 →
  heap_rep (MkHeap ram r (first_free 0 bl)) bl.
Proof.
  intros Hr Hp Hq Ht Hsz Hm HE Hle Hx Hc1 Hc2 Ha.
  destruct (remainder_ok E sz xs) as [H1 H2]; [done..|].
  split; [done| | | |done|done].
  - unfold bl. rewrite heap_total_app. cbn. lia.
  - apply blocks_mid. split_ands; [done..|by constructor].
  - apply heap_coalesced_app. split; [done|]. cbn. by rewrite andb_false_r.
Qed.

Lemma malloc_size_fits e n xs : blk_ok (e, Some xs) → (n <= length xs)%nat →
  malloc_size (Z.of_nat n) <= e - 8.
Proof.
  intros (He & Hm & Hx) Hn. cbn in *. unfold SIZEOF_STRUCT_MEM in Hx. unfold malloc_size.
  pose proof (Z.div_mod e 4). pose proof (Z.div_mod (Z.of_nat n + 3) 4).
  pose proof (Z.mod_pos_bound (Z.of_nat n + 3) 4). lia.
Qed.

(** [mem_trim] of a used block, its tests evaluated up to the block that follows. *)
Lemma mem_trim_used h pre e xs n post : heap_rep h (pre ++ (e, Some xs) :: post) →
  (n <= length xs)%nat →
  let p := ram h + total pre + SIZEOF_STRUCT_MEM in
  let m := total pre in let sz := malloc_size (Z.of_nat n) in let r := ram_bytes h in
  mem_trim p (Z.of_nat n) h =
    if sz =? e - 8 then Some (h, p)
    else
      used ← mem_used (m + e) r;
      if used =? 0 then
        next ← mem_next (m + e) r;
        r ← link_remainder false m (m + 8 + sz) next r;
        Some (MkHeap (ram h) r (if lfree h =? m + e then m + 8 + sz else lfree h), p)
      else if sz + 20 <=? e - 8 then
        r ← link_remainder false m (m + 8 + sz) (m + e) r;
        Some (MkHeap (ram h) r (if m + 8 + sz <? lfree h then m + 8 + sz else lfree h), p)
      else Some (h, p).
Proof.
  intros [Hr Ht (Hokp & Hbe & Hokq)%blocks_mid _ _ Ha] Hn p m sz r.
  pose proof (malloc_size_fits e n xs Hbe Hn) as Hse. fold sz in Hse. destruct Hbe as (He & _ & Hx).
  pose proof (total_blocks pre Hokp). pose proof (total_blocks post Hokq).
  apply heap_rep_app in Hr as (_ & [Hh _] & _). rewrite heap_total_app in Ht. rewrite Z.add_0_l in *.
  cbn [total fst snd] in *. unfold MEM_SIZE_ALIGNED, SIZEOF_STRUCT_MEM in *.
  destruct (malloc_size_spec (Z.of_nat n)) as (Esz & H12 & _); [lia|].
  unfold mem_trim. cbn zeta in Esz |- *. rewrite Esz. clear Esz. fold sz in H12 |- *. fold m in Hh, Ht |- *.
  unfold MEM_SIZE_ALIGNED, SIZEOF_STRUCT_MEM, MIN_SIZE_ALIGNED.
  rewrite (proj2 (Z.ltb_ge (8 * 1024) sz)), (proj2 (Z.ltb_ge p (ram h))), (proj2 (Z.leb_gt _ p)) by lia.
  cbn [orb]. replace (p - 8 - ram h) with m by lia.
  rewrite (hdr_next _ _ _ _ _ Hh). cbn [mbind option_bind fst].
  rewrite !(u16_small m), (u32_small (m + e - m - 8)), (u16_small (m + e - m - 8)),
    (u16_small (m + 8 + sz)), (u32_small (sz + 8 + 12)) by (unfold is_u32; lia).
  replace (m + e - m - 8) with (e - 8) by lia. rewrite (proj2 (Z.ltb_ge (e - 8) sz)) by lia.
  rewrite <- (Z.add_assoc sz 8 12). done.
Qed.

Lemma mem_trim_blocks h pre e xs n post : heap_rep h (pre ++ (e, Some xs) :: post) →
  (n <= length xs)%nat →
  let p := ram h + total pre + SIZEOF_STRUCT_MEM in
  ∃ h', mem_trim p (Z.of_nat n) h = Some (h', p) ∧ ram h' = ram h ∧
    heap_rep h' (pre ++ trim_block (malloc_size (Z.of_nat n)) e (take n xs) post).
Proof.
  intros Hrep Hn p. unfold p. rewrite (mem_trim_used _ _ _ _ _ _ Hrep Hn). fold p.
  pose proof Hrep as [Hr Ht Hok Hc Hl Ha]. apply blocks_mid in Hok as (Hokp & Hbe & Hokq).
  destruct (malloc_size_spec (Z.of_nat n)) as (_ & H12 & Hge & Hm);
    [destruct Hbe as (_ & _ & Hx); pose proof (total_blocks pre Hokp); pose proof (total_blocks post Hokq);
     rewrite heap_total_app in Ht; cbn in Ht, Hx; unfold MEM_SIZE_ALIGNED, SIZEOF_STRUCT_MEM in *; lia|].
  pose proof (malloc_size_fits e n xs Hbe Hn) as Hse. set (sz := malloc_size (Z.of_nat n)) in *.
  destruct Hbe as (He & Hem & Hx). cbn [fst snd] in *.
  pose proof (total_blocks pre Hokp). pose proof (total_blocks post Hokq).
  pose proof Hr as (Hpre & Hb & Hpost)%heap_rep_app. rewrite Z.add_0_l in *.
  rewrite heap_total_app in Ht. cbn [total fst] in *. unfold MEM_SIZE_ALIGNED, SIZEOF_STRUCT_MEM in *.
  destruct (heap_rep_head _ _ _ _ Hpost) as (q & Hq).
  unfold trim_block. destruct (Z.eqb_spec sz (e - 8)) as [Es|Es].
  { eexists. split; [done|]. split; [done|]. apply (take_block_rep _ _ _ _ n) in Hrep.
    destruct post as [|[en [c|]] tl]; rewrite ?(proj2 (Z.leb_gt (sz + 20) (e - 8))) by lia; done. }
  rewrite (hdr_used _ _ _ _ _ Hq), (hdr_next _ _ _ _ _ Hq). cbn [mbind option_bind].
  assert (Hsz4 : sz + 4 <= e - 8).
  { pose proof (Z.div_mod e 4). pose proof (Z.div_mod sz 4). lia. }
  pose proof (proj1 (heap_coalesced_app _ _ _) Hc) as [Hc1 [_ Hc2]].
  assert (Htk : Z.of_nat (length (take n xs)) <= sz) by (rewrite length_take; lia).
  destruct (Z.eqb_spec (head_used post) 0) as [Eu|Eu].
  - destruct post as [|[en [c|]] tl]; [done..|]. cbn [head_next fst total rep] in *.
    destruct Hc2 as [_ Hc2]. apply Forall_cons in Hokq as [(Hen & Hem' & _) Hokq]. cbn [fst] in *.
    pose proof (total_blocks tl Hokq). destruct Hpost as [_ Hpost].
    destruct (trim_split_spec _ _ _ _ n sz _ _ _ Hpre Hb Hpost) as (r' & -> & Hr');
      [done|done|lia|lia|done|unfold MEM_SIZE_ALIGNED; lia|].
    replace (total pre + e + en - (total pre + 8 + sz)) with (e + en - sz - 8) in Hr' by lia.
    eexists. split; [done|]. split; [done|]. rewrite Hl.
    pose proof (first_free_move 0 pre e (8 + sz) en (e + en - sz - 8) xs (take n xs) tl tl) as Ef.
    rewrite !Z.add_0_l, !Z.add_assoc in Ef. rewrite Ef by (done || lia). rewrite (Z.add_comm 8 sz).
    apply trimmed_heap_rep; try done; [unfold MEM_SIZE_ALIGNED; lia| |lia].
    by rewrite Z.add_mod, Hem, Hem' by lia.
  - replace (match post with [] => _ | _ => _ end) with
      (if sz + 20 <=? e - 8 then (sz + 8, Some (take n xs)) :: (e - sz - 8, None) :: post
       else (e, Some (take n xs)) :: post) by (destruct post as [|[? [?|]] ?]; done).
    destruct (Z.leb_spec (sz + 20) (e - 8)).
    + destruct (trim_split_spec _ _ _ _ n sz _ _ _ Hpre Hb Hpost) as (r' & -> & Hr');
        [done|done|lia|lia|done|unfold MEM_SIZE_ALIGNED; lia|].
      replace (total pre + e - (total pre + 8 + sz)) with (e - sz - 8) in Hr' by lia.
      eexists. split; [done|]. split; [done|]. rewrite Hl.
      pose proof (first_free_insert 0 pre e (8 + sz) (e - sz - 8) xs (take n xs) post) as Ef.
      rewrite !Z.add_0_l, !Z.add_assoc in Ef. rewrite Ef by (done || lia). rewrite (Z.add_comm 8 sz).
      apply trimmed_heap_rep; try done; [unfold MEM_SIZE_ALIGNED; lia|lia|].
      destruct post as [|[? [?|]] ?]; [done| |done]. done.
    + eexists. split; [done|]. split; [done|]. by apply take_block_rep.
Qed.

(** ** Start-up, clearing, and what an owner stores *)

Lemma mem_init_blocks addr bytes : 0 < addr → addr + RAM_HEAP_SIZE + MEM_ALIGNMENT <= 2 ^ 32 →
  Z.of_nat (length bytes) = RAM_HEAP_SIZE →
  ∃ h, mem_init addr bytes = Some h ∧ heap_rep h [(MEM_SIZE_ALIGNED, None)].
Proof.
  unfold RAM_HEAP_SIZE, MEM_ALIGNMENT, MEM_SIZE_ALIGNED, SIZEOF_STRUCT_MEM. intros Ha Hu Hl.
  assert (Er : LWIP_MEM_ALIGN addr = (addr + 3) / 4 * 4).
  { unfold LWIP_MEM_ALIGN, MEM_ALIGNMENT. rewrite u32_small by (unfold is_u32; lia).
    apply LWIP_MEM_ALIGN_SIZE_eq. }
  pose proof (Z.div_mod (addr + 3) 4). pose proof (Z.mod_pos_bound (addr + 3) 4).
  assert (Hram : addr <= (addr + 3) / 4 * 4 <= addr + 3) by lia.
  unfold mem_init. rewrite Er. set (base := (addr + 3) / 4 * 4) in *.
  set (r0 := drop (Z.to_nat (base - addr)) bytes).
  assert (Hr0 : 8197 <= Z.of_nat (length r0)) by (unfold r0; rewrite length_drop; lia).
  destruct (hdr_any r0 0) as (n0 & p0 & u0 & H0'); [lia..|].
  destruct (set_next_hdr _ _ _ _ _ MEM_SIZE_ALIGNED H0') as (r1 & -> & H1 & T1); [done|].
  cbn [mbind option_bind]. destruct (set_prev_hdr _ _ _ _ _ 0 H1) as (r2 & -> & H2 & T2); [done|].
  cbn [mbind option_bind]. destruct (set_used_hdr _ _ _ _ _ 0 H2) as (r3 & -> & H3 & T3).
  cbn [mbind option_bind]. assert (Hr3 : length r3 = length r0).
  { rewrite (proj1 T3), (proj1 T2). apply T1. }
  destruct (hdr_any r3 MEM_SIZE_ALIGNED) as (n1 & p1 & u1 & K0); [done|unfold MEM_SIZE_ALIGNED; lia|].
  destruct (set_used_hdr _ _ _ _ _ 1 K0) as (r4 & -> & K1 & T4). cbn [mbind option_bind].
  destruct (set_next_hdr _ _ _ _ _ MEM_SIZE_ALIGNED K1) as (r5 & -> & K2 & T5); [done|].
  cbn [mbind option_bind].
  destruct (set_prev_hdr _ _ _ _ _ MEM_SIZE_ALIGNED K2) as (r6 & -> & K3 & T6); [done|].
  cbn [mbind option_bind]. eexists. split; [done|]. split; cbn [ram_bytes ram lfree].
  - split; [|by eexists]. split; [|done].
    eapply hdr_other; [exact (touched_trans T4 (touched_trans T5 T6))|unfold MEM_SIZE_ALIGNED; apart|exact H3].
  - done.
  - by constructor.
  - done.
  - done.
  - unfold RAM_HEAP_SIZE, MEM_SIZE_ALIGNED, SIZEOF_STRUCT_MEM, MEM_ALIGNMENT.
    split_ands; [lia|by apply Z.mod_mul|lia].
Qed.

Lemma contents_heap_rep h pre e xs ys post r' : heap_rep h (pre ++ (e, Some xs) :: post) →
  Z.of_nat (length ys) <= e - 8 → data_at r' (total pre + 8) ys →
  (∀ x, x < total pre + 8 ∨ total pre + e <= x → ld8 x r' = ld8 x (ram_bytes h)) →
  heap_rep (MkHeap (ram h) r' (lfree h)) (pre ++ (e, Some ys) :: post).
Proof.
  intros [Hr Ht Hok Hc Hl Ha] Hy Hd Hx. apply blocks_mid in Hok as (Hp & (He & Hm & _) & Hq).
  cbn [fst] in *. split; cbn [ram_bytes ram lfree]; [| | | | |done].
  - apply heap_rep_app in Hr as (Hpre & [Hh _] & Hr). apply heap_rep_app. rewrite Z.add_0_l in *. cbn [fst] in *.
    split; [|split; [split; [|done]|]].
    + eapply links_same; [|done..]. intros. apply Hx. lia.
    + eapply hdr_same; [|done]. intros. apply Hx. lia.
    + eapply rep_same; [|done..]. cbn [fst]. intros. apply Hx. lia.
  - rewrite <- Ht, !heap_total_app. done.
  - apply blocks_mid. split_ands; [done| |done]. split; [done|split; done].
  - apply heap_coalesced_app in Hc as [Hc1 Hc2]. by apply heap_coalesced_app.
  - rewrite Hl. apply first_free_same.
Qed.

Lemma heap_bytes h bl : heap_rep h bl → MEM_SIZE_ALIGNED + 5 <= Z.of_nat (length (ram_bytes h)).
Proof.
  intros [Hr Ht _ _ _ _]. rewrite <- (app_nil_r bl) in Hr. apply heap_rep_app in Hr as (_ & q & Hq).
  apply hdr_range in Hq. lia.
Qed.

Lemma store_at_data i xs r : 0 <= i → i + Z.of_nat (length xs) <= Z.of_nat (length r) →
  data_at (store_at (Z.to_nat i) xs r) i xs ∧
  ∀ x, x < i ∨ i + Z.of_nat (length xs) <= x → ld8 x (store_at (Z.to_nat i) xs r) = ld8 x r.
Proof.
  intros Hi Hl. unfold data_at, store_at, ld8. split.
  - intros j x Hx. rewrite (proj2 (Z.ltb_ge _ 0)) by lia.
    rewrite lookup_app_r; rewrite length_take; [|lia].
    rewrite lookup_app_l; [rewrite <- Hx; f_equal; lia|]. apply lookup_lt_Some in Hx. lia.
  - intros x Hx. destruct (Z.ltb_spec x 0); [done|]. destruct Hx as [Hx|Hx].
    + rewrite lookup_app_l by (rewrite length_take; lia). apply lookup_take_lt. lia.
    + rewrite lookup_app_r by (rewrite length_take; lia). rewrite length_take.
      rewrite lookup_app_r by lia. rewrite lookup_drop. f_equal. lia.
Qed.

Lemma alloc_block_head sz e : ∃ e' tl, ∀ xs, alloc_block sz e xs = (e', Some xs) :: tl.
Proof. unfold alloc_block. destruct (_ <=? _); eauto. Qed.

Lemma mem_calloc_blocks h bl count size : heap_rep h bl → 0 < count * size <= 65532 →
  match first_fit (malloc_size (count * size)) bl with
  | None => mem_calloc count size h = Some (h, 0)
  | Some (pre, e, post) => ∃ h',
      mem_calloc count size h = Some (h', ram h + total pre + SIZEOF_STRUCT_MEM) ∧ ram h' = ram h ∧
      heap_rep h' (pre ++ alloc_block (malloc_size (count * size)) e
                            (replicate (Z.to_nat (count * size)) 0) ++ post)
  end.
Proof.
  intros Hrep Hs. pose proof (mem_malloc_blocks h bl _ Hrep Hs) as Hm. unfold mem_calloc.
  rewrite u16_small, u32_small by (unfold is_u32; lia).
  destruct (first_fit _ bl) as [[[pre e] post]|] eqn:Ef; [|by rewrite Hm].
  destruct Hm as (h1 & xs & -> & Hxs & Hram & Hrep1). cbn [mbind option_bind].
  destruct (first_fit_Some _ _ _ _ _ Ef) as (-> & _ & _). clear Ef.
  destruct Hrep as [_ _ [Hokp _]%blocks_mid _ _ Ha]. pose proof (total_blocks pre Hokp).
  destruct (alloc_block_head (malloc_size (count * size)) e) as (e' & tl & Eb). rewrite Eb in *.
  cbn [app] in *. unfold SIZEOF_STRUCT_MEM.
  rewrite (proj2 (Z.eqb_neq _ 0)) by lia. pose proof (heap_bytes _ _ Hrep1) as Hb.
  pose proof Hrep1 as [_ Ht (_ & (_ & _ & Hlen) & Hokq)%blocks_mid _ _ _].
  rewrite heap_total_app in Ht. cbn [total fst snd] in Ht, Hlen. pose proof (total_blocks _ Hokq).
  unfold SIZEOF_STRUCT_MEM in Hlen.
  replace (ram h + total pre + 8 - ram h1) with (total pre + 8) by lia.
  rewrite memcpy_to_Some by (rewrite ?length_replicate; lia). cbn [mbind option_bind].
  eexists. split; [done|]. split; [done|].
  destruct (store_at_data (total pre + 8) (replicate (Z.to_nat (count * size)) 0) (ram_bytes h1))
    as [Hd Hx]; [lia|rewrite length_replicate; lia|].
  apply contents_heap_rep with xs; [done|rewrite length_replicate; lia|done|].
  intros x Hx'. apply Hx. rewrite length_replicate. lia.
Qed.

(** ** The specification: a set of buffers *)

(** The buffers of a segment that starts at address [a]. *)
Fixpoint buffers (a : Z) (bl : list blk) : gmap Z (list Z) :=
  match bl with
  | [] => ∅
  | (e, Some xs) :: tl => <[a + 8 := xs]> (buffers (a + e) tl)
  | (e, None) :: tl => buffers (a + e) tl
  end.

Lemma buffers_find a bl p xs : buffers a bl !! p = Some xs →
  ∃ pre e post, bl = pre ++ (e, Some xs) :: post ∧ p = a + total pre + 8.
Proof.
  revert a. induction bl as [|[e [ys|]] bl IH]; intros a; cbn; [done| |].
  - destruct (decide (a + 8 = p)) as [<-|Hne].
    + rewrite lookup_insert_eq. intros [= ->]. exists [], e, bl. split; [done|cbn; lia].
    + rewrite lookup_insert_ne by done. intros (pre & e' & post & -> & ->)%IH.
      exists ((e, Some ys) :: pre), e', post. split; [done|cbn; lia].
  - intros (pre & e' & post & -> & ->)%IH. exists ((e, None) :: pre), e', post.
    split; [done|cbn; lia].
Qed.
Lemma buffers_range a bl p xs : Forall blk_ok bl → buffers a bl !! p = Some xs →
  a + 8 <= p ∧ p + Z.of_nat (length xs) <= a + total bl ∧ (p - a) mod 4 = 0.
Proof.
  intros Hok (pre & e & post & -> & ->)%buffers_find.
  apply blocks_mid in Hok as (Hp & (He & _ & Hx) & Hq). cbn in He, Hx. unfold SIZEOF_STRUCT_MEM in *.
  pose proof (total_blocks _ Hp). pose proof (total_blocks _ Hq). rewrite heap_total_app. cbn [total fst].
  split_ands; [lia..|]. replace (a + total pre + 8 - a) with (total pre + 2 * 4) by lia.
  rewrite Z.mod_add by lia. by apply total_mod.
Qed.
Lemma buffers_above a bl p : Forall blk_ok bl → p < a + 8 → buffers a bl !! p = None.
Proof.
  intros Hok Hp. destruct (buffers a bl !! p) eqn:E; [|done].
  apply buffers_range in E as [? _]; [lia|done].
Qed.
Lemma buffers_cong a pre m m' : (∀ b, buffers b m = buffers b m') →
  buffers a (pre ++ m) = buffers a (pre ++ m').
Proof.
  intros Hm. revert a. induction pre as [|[e [xs|]] pre IH]; intros a; cbn; [done|by rewrite IH|done].
Qed.
Lemma buffers_mid a pre e xs post : Forall blk_ok pre →
  buffers a (pre ++ (e, Some xs) :: post) = <[a + total pre + 8 := xs]> (buffers a (pre ++ (e, None) :: post)).
Proof.
  intros Hok. revert a. induction Hok as [|[e0 [ys|]] pre [H0 _] Hok IH]; intros a; cbn in *.
  - by rewrite Z.add_0_r.
  - rewrite IH, Z.add_assoc. pose proof (total_blocks _ Hok). apply insert_insert_ne. lia.
  - by rewrite IH, Z.add_assoc.
Qed.
Lemma buffers_fresh a pre e post : Forall blk_ok (pre ++ (e, None) :: post) →
  buffers a (pre ++ (e, None) :: post) !! (a + total pre + 8) = None.
Proof.
  intros (Hok & [He _] & Hq)%blocks_mid. cbn in He. revert a.
  induction Hok as [|[e0 [ys|]] pre [H0 _] Hok IH]; intros a; cbn in *.
  - apply buffers_above; [done|lia].
  - pose proof (total_blocks _ Hok). rewrite lookup_insert_ne by lia. rewrite Z.add_assoc. apply IH.
  - rewrite Z.add_assoc. apply IH.
Qed.
Lemma buffers_apart a bl p q xs ys : Forall blk_ok bl → p ≠ q →
  buffers a bl !! p = Some xs → buffers a bl !! q = Some ys →
  p + Z.of_nat (length xs) <= q ∨ q + Z.of_nat (length ys) <= p.
Proof.
  intros Hok Hne. revert a. induction Hok as [|[e [zs|]] bl (He & _ & Hx) Hok IH]; intros a; cbn in *;
    [done| |apply IH].
  unfold SIZEOF_STRUCT_MEM in Hx.
  destruct (decide (a + 8 = p)) as [<-|], (decide (a + 8 = q)) as [<-|];
    rewrite ?lookup_insert_eq, ?lookup_insert_ne by done; [done|..].
  - intros [= ->] (H & _)%buffers_range; [lia|done].
  - intros (H & _)%buffers_range [= ->]; [lia|done].
  - apply IH.
Qed.

(** What the calls do to the buffers. *)
Lemma buffers_alloc a pre sz e xs post : Forall blk_ok pre →
  buffers a (pre ++ alloc_block sz e xs ++ post) =
  <[a + total pre + 8 := xs]> (buffers a (pre ++ (e, None) :: post)).
Proof.
  intros Hok. rewrite <- buffers_mid by done. apply buffers_cong. intros b. unfold alloc_block.
  destruct (_ <=? _); [|done]. cbn. do 2 f_equal. lia.
Qed.
Lemma buffers_free a pre e post : buffers a (free_block pre e post) = buffers a (pre ++ (e, None) :: post).
Proof.
  assert (Hj : ∀ b d, buffers b (join_next d post) = buffers b ((d, None) :: post)).
  { intros b d. destruct post as [|[en [c|]] tl]; [done..|]. cbn. f_equal. lia. }
  unfold free_block, absorb_prev. destruct pre as [|[ep [xs|]] pre _] using rev_ind; [apply Hj|..].
  - rewrite last_snoc. apply buffers_cong. intros b. apply Hj.
  - rewrite last_snoc, removelast_last, <- app_assoc. apply buffers_cong. intros b. cbn [fst snd app].
    rewrite Hj. cbn. f_equal. lia.
Qed.
Lemma buffers_trim a pre sz e xs ys post : Forall blk_ok pre →
  buffers a (pre ++ trim_block sz e xs post) =
  <[a + total pre + 8 := xs]> (buffers a (pre ++ (e, Some ys) :: post)).
Proof.
  intros Hok. rewrite (buffers_mid a pre e ys), insert_insert_eq, <- buffers_mid by done.
  apply buffers_cong. intros b. unfold trim_block. cbn [buffers].
  replace (b + e) with (b + (sz + 8) + (e - sz - 8)) by lia.
  destruct post as [|[en [c|]] tl]; [by destruct (sz + 20 <=? e - 8)|..].
  - destruct (sz + 20 <=? e - 8); [done|]. cbn. by replace (b + e) with (b + (sz + 8) + (e - sz - 8)) by lia.
  - destruct (sz =? e - 8); cbn; do 2 f_equal; lia.
Qed.

(** ** Runs of calls *)

(** The calls, and what owners do with their buffers. *)
Inductive heap_op :=
  | Malloc (size : Z) | Calloc (count size : Z) | Trim (p : Z) (n : nat) | Free (p : Z)
  | Store (p : Z) (i : nat) (v : Z).

Definition heap_call (o : heap_op) (h : lwip_heap) : option (lwip_heap * Z) :=
  match o with
  | Malloc n => mem_malloc n h
  | Calloc c n => mem_calloc c n h
  | Trim p n => mem_trim p (Z.of_nat n) h
  | Free p => h ← mem_free p h; Some (h, 0)
  | Store p i v => r ← st8 (p - ram h + Z.of_nat i) v (ram_bytes h); Some (MkHeap (ram h) r (lfree h), 0)
  end.

(** The rules: sizes that do not wrap, pointers to live buffers, trimming that does not grow. *)
Definition allowed (o : heap_op) (bufs : gmap Z (list Z)) : Prop :=
  match o with
  | Malloc n => 0 <= n <= 65532
  | Calloc c n => 0 <= c * n <= 65532
  | Trim p n => match bufs !! p with Some xs => (n <= length xs)%nat | None => False end
  | Free p => p = 0 ∨ is_Some (bufs !! p)
  | Store p i _ => match bufs !! p with Some xs => (i < length xs)%nat | None => False end
  end.

(** The [n] bytes at [p]. *)
Definition contents (p n : Z) (h : lwip_heap) : list Z :=
  slice (Z.to_nat (p - ram h)) (Z.to_nat n) (ram_bytes h).

(** The buffers after a call that answered [ans] and left [h]: what is in a new buffer of
    [mem_malloc] is not specified, so it is what [h] has there. *)
Definition after (o : heap_op) (ans : Z) (h : lwip_heap) (bufs : gmap Z (list Z)) : gmap Z (list Z) :=
  match o with
  | Malloc n => if ans =? 0 then bufs else <[ans := contents ans n h]> bufs
  | Calloc c n => if ans =? 0 then bufs else <[ans := replicate (Z.to_nat (c * n)) 0]> bufs
  | Trim p n => alter (take n) p bufs
  | Free p => delete p bufs
  | Store p i v => alter (<[i := v]>) p bufs
  end.

(** What the answer may be. *)
Definition answer_ok (o : heap_op) (ans : Z) (bufs : gmap Z (list Z)) : Prop :=
  match o with
  | Malloc _ | Calloc _ _ => bufs !! ans = None
  | Trim p _ => ans = p
  | _ => True
  end.

(** The heaps that calls within the rules lead to, with the buffers in use. *)
Inductive heap_reach (addr : Z) (bytes : list Z) : lwip_heap → gmap Z (list Z) → Prop :=
  | reach_init h : mem_init addr bytes = Some h → heap_reach addr bytes h ∅
  | reach_call h bufs o h' ans : heap_reach addr bytes h bufs → allowed o bufs →
      heap_call o h = Some (h', ans) → heap_reach addr bytes h' (after o ans h' bufs).

(** Every buffer lies in the heap, aligned, apart from the others, with its contents. *)
Record buffers_ok (h : lwip_heap) (bufs : gmap Z (list Z)) : Prop := BuffersOk {
  buf_place p xs : bufs !! p = Some xs → p mod MEM_ALIGNMENT = 0 ∧
    ram h + SIZEOF_STRUCT_MEM <= p ∧ p + Z.of_nat (length xs) <= ram h + MEM_SIZE_ALIGNED;
  buf_contents p xs : bufs !! p = Some xs → contents p (Z.of_nat (length xs)) h = xs;
  buf_apart p q xs ys : bufs !! p = Some xs → bufs !! q = Some ys → p ≠ q →
    p + Z.of_nat (length xs) <= q ∨ q + Z.of_nat (length ys) <= p }.

Definition heap_inv (h : lwip_heap) (bufs : gmap Z (list Z)) : Prop :=
  ∃ bl, heap_rep h bl ∧ bufs = buffers (ram h) bl.

Lemma data_slice r a xs : 0 <= a → data_at r a xs → slice (Z.to_nat a) (length xs) r = xs.
Proof.
  intros Ha Hd. apply list_eq. intros i. unfold slice. destruct (decide (i < length xs)%nat) as [Hi|Hi].
  - rewrite lookup_take_lt, lookup_drop by done. destruct (lookup_lt_is_Some_2 xs i Hi) as [x Hx].
    rewrite Hx. pose proof (Hd i x Hx) as H. unfold ld8 in H.
    rewrite (proj2 (Z.ltb_ge _ 0)) in H by lia. rewrite <- H. f_equal. lia.
  - rewrite (lookup_ge_None_2 xs) by lia. apply lookup_ge_None_2. rewrite length_take. lia.
Qed.
Lemma block_contents h pre e xs post : heap_rep h (pre ++ (e, Some xs) :: post) →
  contents (ram h + total pre + 8) (Z.of_nat (length xs)) h = xs.
Proof.
  intros [(_ & [_ Hd] & _)%heap_rep_app _ (Hp & _)%blocks_mid _ _ _]. cbn in Hd. unfold contents.
  pose proof (total_blocks _ Hp). rewrite Nat2Z.id.
  replace (ram h + total pre + 8 - ram h) with (total pre + 8) by lia.
  apply data_slice; [lia|done].
Qed.
Lemma heap_inv_ok h bufs : heap_inv h bufs → buffers_ok h bufs.
Proof.
  intros (bl & Hrep & ->). pose proof Hrep as [_ Ht Hok _ _ (Ha & Hm & _)].
  split.
  - intros p xs (H1 & H2 & H3)%buffers_range; [|done]. unfold SIZEOF_STRUCT_MEM, MEM_ALIGNMENT.
    split_ands; [|lia..]. replace p with (p - ram h + ram h) by lia.
    by rewrite Z.add_mod, H3, Hm by lia.
  - intros p xs (pre & e & post & -> & ->)%buffers_find. by apply block_contents with e post.
  - intros p q xs ys Hp Hq Hne. by apply (buffers_apart (ram h) bl).
Qed.

(** ** Every call within the rules *)

Definition call_ok (o : heap_op) (h : lwip_heap) (bufs : gmap Z (list Z)) : Prop :=
  ∃ h' ans, heap_call o h = Some (h', ans) ∧ answer_ok o ans bufs ∧ heap_inv h' (after o ans h' bufs).

Lemma buffers_null h bl : heap_rep h bl → buffers (ram h) bl !! 0 = None.
Proof. intros [_ _ Hok _ _ Ha]. apply buffers_above; [done|lia]. Qed.
Lemma no_answer h bl o : heap_rep h bl → heap_call o h = Some (h, 0) →
  match o with Malloc _ | Calloc _ _ => True | _ => False end → call_ok o h (buffers (ram h) bl).
Proof.
  intros Hrep E Ho. exists h, 0. split; [done|]. pose proof (buffers_null _ _ Hrep).
  destruct o; try done; (split; [done|]; by exists bl).
Qed.
Lemma buffer_granted h pre e xs post sz h' : heap_rep h (pre ++ (e, None) :: post) → ram h' = ram h →
  heap_rep h' (pre ++ alloc_block sz e xs ++ post) →
  let p := ram h + total pre + SIZEOF_STRUCT_MEM in
  p ≠ 0 ∧ buffers (ram h) (pre ++ (e, None) :: post) !! p = None ∧
  contents p (Z.of_nat (length xs)) h' = xs ∧
  heap_inv h' (<[p := xs]> (buffers (ram h) (pre ++ (e, None) :: post))).
Proof.
  intros [_ _ Hok _ _ Ha] Er Hrep' p. pose proof Hok as (Hp & _)%blocks_mid.
  pose proof (total_blocks _ Hp). split_ands.
  - unfold p, SIZEOF_STRUCT_MEM. lia.
  - by apply buffers_fresh.
  - destruct (alloc_block_head sz e) as (e' & tl & E). rewrite E in Hrep'. cbn [app] in Hrep'.
    unfold p, SIZEOF_STRUCT_MEM. rewrite <- Er. by apply block_contents with e' (tl ++ post).
  - eexists. split; [exact Hrep'|]. rewrite Er. symmetry. by apply buffers_alloc.
Qed.

Lemma malloc_call_ok n h bl : heap_rep h bl → 0 <= n <= 65532 → call_ok (Malloc n) h (buffers (ram h) bl).
Proof.
  intros Hrep Hn. destruct (decide (n = 0)) as [->|]; [by apply no_answer|].
  pose proof (mem_malloc_blocks h bl n Hrep ltac:(lia)) as H.
  destruct (first_fit _ bl) as [[[pre e] post]|] eqn:Ef; [|by apply no_answer].
  destruct (first_fit_Some _ _ _ _ _ Ef) as (-> & _ & _).
  destruct H as (h' & xs & E & Hxs & Er & Hrep').
  destruct (buffer_granted _ _ _ _ _ _ _ Hrep Er Hrep') as (H0 & Hf & Hc & Hi).
  eexists _, _. split; [exact E|]. split; [done|]. cbn [after].
  rewrite (proj2 (Z.eqb_neq _ 0) H0). rewrite <- Hxs, Hc. done.
Qed.
Lemma calloc_call_ok c n h bl : heap_rep h bl → 0 <= c * n <= 65532 →
  call_ok (Calloc c n) h (buffers (ram h) bl).
Proof.
  intros Hrep Hn. destruct (decide (c * n = 0)) as [E|].
  { apply no_answer; [done| |done]. cbn [heap_call]. unfold mem_calloc. by rewrite E. }
  pose proof (mem_calloc_blocks h bl c n Hrep ltac:(lia)) as H.
  destruct (first_fit _ bl) as [[[pre e] post]|] eqn:Ef; [|by apply no_answer].
  destruct (first_fit_Some _ _ _ _ _ Ef) as (-> & _ & _).
  destruct H as (h' & E & Er & Hrep').
  destruct (buffer_granted _ _ _ _ _ _ _ Hrep Er Hrep') as (H0 & Hf & Hc & Hi).
  eexists _, _. split; [exact E|]. split; [done|]. cbn [after].
  rewrite (proj2 (Z.eqb_neq _ 0) H0). done.
Qed.
Lemma trim_call_ok p n h bl xs : heap_rep h bl → buffers (ram h) bl !! p = Some xs → (n <= length xs)%nat →
  call_ok (Trim p n) h (buffers (ram h) bl).
Proof.
  intros Hrep Hp Hn. destruct (buffers_find _ _ _ _ Hp) as (pre & e & post & -> & ->).
  destruct (mem_trim_blocks h pre e xs n post Hrep Hn) as (h' & E & Er & Hrep').
  eexists _, _. split; [exact E|]. split; [done|]. eexists. split; [exact Hrep'|].
  cbn [after]. rewrite Er. destruct Hrep as [_ _ (Hok & _)%blocks_mid _ _ _].
  rewrite (buffers_trim _ _ _ _ _ xs) by done. apply map_eq. intros q.
  destruct (decide (ram h + total pre + 8 = q)) as [<-|].
  - by rewrite lookup_alter_eq, lookup_insert_eq, Hp.
  - by rewrite lookup_alter_ne, lookup_insert_ne.
Qed.
Lemma free_call_ok p h bl : heap_rep h bl → p = 0 ∨ is_Some (buffers (ram h) bl !! p) →
  call_ok (Free p) h (buffers (ram h) bl).
Proof.
  intros Hrep [->|[xs Hp]].
  - exists h, 0. split; [done|]. split; [done|]. exists bl. split; [done|]. cbn [after].
    apply delete_id. by apply buffers_null.
  - destruct (buffers_find _ _ _ _ Hp) as (pre & e & post & -> & ->).
    destruct (mem_free_blocks h pre e xs post Hrep) as (h' & E & Er & Hrep').
    exists h', 0. split; [cbn [heap_call]; unfold SIZEOF_STRUCT_MEM in E; by rewrite E|].
    split; [done|]. eexists. split; [exact Hrep'|]. cbn [after].
    destruct Hrep as [_ _ Hok _ _ _]. pose proof Hok as (Hp' & Hb & Hq)%blocks_mid.
    rewrite Er, buffers_free, buffers_mid by done. apply delete_insert_id.
    apply buffers_fresh. apply blocks_mid. split_ands; [done| |done]. destruct Hb as (? & ? & _).
    by apply free_ok.
Qed.
Lemma store_call_ok p i v h bl xs : heap_rep h bl → buffers (ram h) bl !! p = Some xs → (i < length xs)%nat →
  call_ok (Store p i v) h (buffers (ram h) bl).
Proof.
  intros Hrep Hp Hi. destruct (buffers_find _ _ _ _ Hp) as (pre & e & post & -> & ->).
  pose proof Hrep as [Hr Ht Hok _ _ _]. apply blocks_mid in Hok as (Hokp & (He & _ & Hx) & Hq).
  cbn [fst snd] in *. unfold SIZEOF_STRUCT_MEM in Hx. rewrite heap_total_app in Ht. cbn [total fst] in Ht.
  pose proof (total_blocks _ Hokp). pose proof (total_blocks _ Hq). pose proof (heap_bytes _ _ Hrep).
  destruct (st8_Some (total pre + 8 + Z.of_nat i) v (ram_bytes h)) as (r' & E & Hl & Hv & Hne); [lia|].
  unfold call_ok. cbn [heap_call].
  replace (ram h + total pre + 8 - ram h + Z.of_nat i) with (total pre + 8 + Z.of_nat i) by lia.
  rewrite E. cbn [mbind option_bind]. eexists _, _. split; [done|]. split; [done|].
  exists (pre ++ (e, Some (<[i := v]> xs)) :: post). split.
  - apply contents_heap_rep with xs; [done|rewrite length_insert; lia| |intros x Hx'; apply Hne; lia].
    apply heap_rep_app in Hr as (_ & [_ Hd] & _). cbn in Hd. intros j x Hj.
    destruct (decide (i = j)) as [<-|Hij].
    + rewrite list_lookup_insert_eq in Hj by done. by simplify_eq.
    + rewrite list_lookup_insert_ne in Hj by done. rewrite Hne by lia. by apply Hd.
  - cbn [after ram]. rewrite !(buffers_mid _ _ _ _ post) by done. apply map_eq. intros q.
    destruct (decide (ram h + total pre + 8 = q)) as [<-|].
    + by rewrite lookup_alter_eq, !lookup_insert_eq.
    + by rewrite lookup_alter_ne, !lookup_insert_ne by done.
Qed.
Lemma calls_ok o h bufs : heap_inv h bufs → allowed o bufs → call_ok o h bufs.
Proof.
  intros (bl & Hrep & ->). destruct o as [n|c n|p n|p|p i v]; cbn [allowed].
  - by apply malloc_call_ok.
  - by apply calloc_call_ok.
  - destruct (_ !! p) eqn:E; [|done]. by eapply trim_call_ok.
  - by apply free_call_ok.
  - destruct (_ !! p) eqn:E; [|done]. by eapply store_call_ok.
Qed.

Definition heap_array (addr : Z) (bytes : list Z) : Prop :=
  0 < addr ∧ addr + RAM_HEAP_SIZE + MEM_ALIGNMENT <= 2 ^ 32 ∧ Z.of_nat (length bytes) = RAM_HEAP_SIZE.

Lemma heap_reach_inv addr bytes h bufs : heap_array addr bytes → heap_reach addr bytes h bufs →
  heap_inv h bufs.
Proof.
  intros (Ha & Hu & Hl). induction 1 as [h E|h bufs o h' ans _ IH Hal E].
  - destruct (mem_init_blocks addr bytes Ha Hu Hl) as (h0 & E0 & Hrep). simplify_eq. by eexists.
  - destruct (calls_ok o h bufs IH Hal) as (h1 & ans1 & E1 & _ & Hinv). by simplify_eq.
Qed.

(** C12: In every run of calls that keeps the rules (sizes up to 65532 bytes, pointers to buffers
    in use), the heap of mem.c behaves as a set of separate buffers: each lies aligned inside
    [ram_heap], overlaps no other, and holds what its owner stored, whatever other calls split, join
    and move around it; the next call always returns without touching a byte outside the array, a new
    buffer has an address of its own and [mem_trim] leaves the buffer in place.  The headers lie in
    the same bytes as the data. *)
Theorem lwip_heap_refines_buffers addr bytes h bufs :
  heap_array addr bytes → heap_reach addr bytes h bufs →
  buffers_ok h bufs ∧
  ∀ o, allowed o bufs → ∃ h' ans, heap_call o h = Some (h', ans) ∧ answer_ok o ans bufs ∧
    buffers_ok h' (after o ans h' bufs).
Proof.
  intros Ha Hr. pose proof (heap_reach_inv _ _ _ _ Ha Hr) as Hinv.
  split; [by apply heap_inv_ok|]. intros o Ho.
  destruct (calls_ok o h bufs Hinv Ho) as (h' & ans & E & Hans & Hinv').
  exists h', ans. split_ands; [done..|]. by apply heap_inv_ok.
Qed.

Lemma empty_heap_blocks h bl : heap_rep h bl → buffers (ram h) bl = ∅ → bl = [(MEM_SIZE_ALIGNED, None)].
Proof.
  intros [_ Ht _ Hc _ _] He. destruct bl as [|[e [xs|]] [|[e' [ys|]] tl]]; cbn in *.
  - unfold MEM_SIZE_ALIGNED in Ht. lia.
  - by apply insert_non_empty in He.
  - by apply insert_non_empty in He.
  - by apply insert_non_empty in He.
  - replace e with MEM_SIZE_ALIGNED by lia. done.
  - by apply insert_non_empty in He.
  - by destruct Hc as (_ & ? & _).
Qed.

(** C32: Nothing leaks and free neighbours are always joined: in a run of calls within the rules that
    has given every buffer back, the heap is one free block again: [mem_malloc] then grants any size up
    to the whole heap, from its start. *)
Theorem freed_heap_is_whole addr bytes h n :
  heap_array addr bytes → heap_reach addr bytes h ∅ → 0 < n <= MEM_SIZE_ALIGNED - SIZEOF_STRUCT_MEM →
  ∃ h', mem_malloc n h = Some (h', ram h + SIZEOF_STRUCT_MEM).
Proof.
  intros Ha Hr Hn. destruct (heap_reach_inv _ _ _ _ Ha Hr) as (bl & Hrep & He).
  rewrite (empty_heap_blocks h bl Hrep) in Hrep by done.
  unfold MEM_SIZE_ALIGNED, SIZEOF_STRUCT_MEM in Hn.
  pose proof (mem_malloc_blocks h _ n Hrep ltac:(lia)) as H. cbn [first_fit] in H.
  assert (Hf : fits (malloc_size n) (MEM_SIZE_ALIGNED, None) = true).
  { unfold fits, malloc_size, MEM_SIZE_ALIGNED. cbn [used_of fst snd Z.eqb andb]. apply Z.leb_le.
    pose proof (Z.div_mod (n + 3) 4). pose proof (Z.mod_pos_bound (n + 3) 4). lia. }
  rewrite Hf in H. destruct H as (h' & xs & E & _). exists h'. rewrite E. cbn [total]. by rewrite Z.add_0_r.
Qed.

(** ** A run *)

Definition array0 : list Z := replicate (Z.to_nat 8212) 170.
Definition heap0 : lwip_heap := default (MkHeap 0 [] 0) (mem_init 0x20001002 array0).
Definition after_call (o : heap_op) (h : lwip_heap) : lwip_heap :=
  match heap_call o h with Some (h', _) => h' | None => h end.
Definition heap1 : lwip_heap := after_call (Malloc 100) heap0.
Definition heap2 : lwip_heap := after_call (Calloc 3 5) heap1.
Definition heap3 : lwip_heap := after_call (Free 0x2000100c) heap2.
Definition heap4 : lwip_heap := after_call (Free 0x20001078) heap3.
Definition bufs1 : gmap Z (list Z) := {[0x2000100c := replicate 100 170]}.
Definition bufs2 : gmap Z (list Z) := <[0x20001078 := replicate 15 0]> bufs1.

Lemma reach_next addr bytes h bufs o h' ans bufs' : heap_reach addr bytes h bufs → allowed o bufs →
  heap_call o h = Some (h', ans) → after o ans h' bufs = bufs' → heap_reach addr bytes h' bufs'.
Proof. intros Hr Ha E <-. by apply reach_call with h. Qed.
Lemma heap_array0 : heap_array 0x20001002 array0.
Proof. unfold heap_array. split_ands; vm_compute; congruence. Qed.
Lemma reach1 : heap_reach 0x20001002 array0 heap1 bufs1.
Proof.
  apply (reach_next _ _ heap0 ∅ (Malloc 100) _ 0x2000100c);
    [apply reach_init; vm_compute; reflexivity|cbn; lia|vm_compute; reflexivity..].
Qed.
Lemma reach2 : heap_reach 0x20001002 array0 heap2 bufs2.
Proof.
  apply (reach_next _ _ heap1 bufs1 (Calloc 3 5) _ 0x20001078);
    [apply reach1|cbn; lia|vm_compute; reflexivity..].
Qed.
Lemma reach4 : heap_reach 0x20001002 array0 heap4 ∅.
Proof.
  apply (reach_next _ _ heap3 (delete 0x2000100c bufs2) (Free 0x20001078) _ 0).
  - apply (reach_next _ _ heap2 bufs2 (Free 0x2000100c) _ 0);
      [apply reach2|right; vm_compute; eauto|vm_compute; reflexivity..].
  - right. vm_compute. eauto.
  - vm_compute. reflexivity.
  - vm_compute. reflexivity.
Qed.

Lemma lwip_heap_refines_buffers_witness : buffers_ok heap2 bufs2 ∧
  ∃ h' ans, heap_call (Trim 0x2000100c 50) heap2 = Some (h', ans) ∧ ans = 0x2000100c.
Proof.
  destruct (lwip_heap_refines_buffers 0x20001002 array0 heap2 bufs2 heap_array0 reach2) as [H1 H2].
  split; [exact H1|]. destruct (H2 (Trim 0x2000100c 50)) as (h' & ans & E & Ha & _).
  - vm_compute. lia.
  - exists h', ans. split; [exact E|exact Ha].
Defined.
Lemma freed_heap_is_whole_witness : ∃ h', mem_malloc 8184 heap4 = Some (h', 0x2000100c).
Proof.
  destruct (freed_heap_is_whole 0x20001002 array0 heap4 8184 heap_array0 reach4) as [h' E].
  - vm_compute. split; congruence.
  - exists h'. exact E.
Defined.

(** Outside the rules: [LWIP_MEM_ALIGN_SIZE] wraps at the width of [mem_size_t], so that the largest
    requests are granted 12 bytes; and [mem_calloc] allocates the product modulo 65536 but clears all
    of it, beyond the block and here beyond the array. *)
Example huge_request_gets_12_bytes :
  ∃ h, mem_malloc 65533 heap0 = Some (h, 0x2000100c) ∧ mem_next 0 (ram_bytes h) = Some 20.
Proof. eexists. split; vm_compute; reflexivity. Qed.
Example calloc_overruns : mem_calloc 257 256 heap0 = None.
Proof. vm_compute. reflexivity. Qed.
