(* ===== verification/Pbuf.v ===== *)
(** * Contents of packet buffers ([LwIP/src/core/pbuf.c])

    The copies between packets and buffers, through which the DHCP and DNS servers read and
    write, the copy between packets, and the search routines.  Here a chain is the list of its
    payloads; allocation and reference counts are in [PbufRef]. *)
From S2P Require Import Prelude.

Abbreviation pbuf := (list (list Z)).
Definition tot_len (p : pbuf) : Z := Z.of_nat (length (concat p)).

(** The loop of [pbuf_copy_partial]: [acc] are the bytes copied so far. *)
(* @ LwIP/src/core/pbuf.c:934-950 pbuf_copy_partial *)
Fixpoint copy_partial_loop (p : pbuf) (len offset : nat) (acc : list Z) : list Z :=
  match p with
  | [] => acc
  | payload :: next =>
    if (len =? 0)%nat then acc
    else if negb (offset =? 0)%nat && (length payload <=? offset)%nat
    then copy_partial_loop next len (offset - length payload) acc
    else
      let buf_copy_len := (length payload - offset)%nat in
      let buf_copy_len := if (len <? buf_copy_len)%nat then len else buf_copy_len in
      copy_partial_loop next (len - buf_copy_len) 0 (acc ++ slice offset buf_copy_len payload)
  end.
(** The destination buffer after the copy and the number of bytes copied. *)
(* @ LwIP/src/core/pbuf.c:916-952 pbuf_copy_partial *)
Definition pbuf_copy_partial (buf : pbuf) (dataptr : list Z) (len offset : nat) : list Z * Z :=
  let copied := copy_partial_loop buf len offset [] in
  (store_at 0 copied dataptr, Z.of_nat (length copied)).

(* @ LwIP/src/core/pbuf.c:977-987 pbuf_take *)
Fixpoint take_loop (p : pbuf) (data : list Z) : option pbuf :=
  match data with
  | [] => Some p
  | _ =>
    match p with
    | [] => None
    | payload :: next =>
      let n := Nat.min (length data) (length payload) in
      next' ← take_loop next (drop n data);
      Some (store_at 0 (take n data) payload :: next')
    end
  end.
Definition ERR_OK : Z := 0.
Definition ERR_ARG : Z := -14.
(* @ LwIP/src/core/pbuf.c:964-990 pbuf_take *)
Definition pbuf_take (buf : pbuf) (dataptr : list Z) (len : nat) : option (pbuf * Z) :=
  if (length (concat buf) <? len)%nat then Some (buf, ERR_ARG)
  else b ← take_loop buf (take len dataptr); Some (b, ERR_OK).

Lemma copy_partial_loop_spec p : ∀ len offset acc,
  copy_partial_loop p len offset acc = acc ++ slice offset len (concat p).
Proof.
  induction p as [|b p IH]; intros len offset acc; cbn [copy_partial_loop concat].
  { unfold slice. rewrite drop_nil, take_nil. by rewrite app_nil_r. }
  destruct (Nat.eqb_spec len 0) as [->|Hlen].
  { unfold slice. by rewrite take_0, app_nil_r. }
  destruct (Nat.eqb_spec offset 0) as [->|Hoff]; cbn [negb andb].
  - rewrite IH, <- app_assoc. f_equal. unfold slice. rewrite !drop_0, Nat.sub_0_r.
    destruct (Nat.ltb_spec len (length b)).
    + rewrite Nat.sub_diag, take_0, app_nil_r. by rewrite take_app_le by lia.
    + rewrite take_app_ge by lia. by rewrite take_ge by lia.
  - destruct (Nat.leb_spec (length b) offset).
    + rewrite IH. unfold slice. by rewrite drop_app_ge by lia.
    + rewrite IH, <- app_assoc. f_equal. unfold slice. rewrite drop_0, drop_app_le by lia.
      destruct (Nat.ltb_spec len (length b - offset)).
      * rewrite Nat.sub_diag, take_0, app_nil_r.
        by rewrite take_app_le by (rewrite length_drop; lia).
      * rewrite take_app_ge by (rewrite length_drop; lia). rewrite length_drop.
        by rewrite take_ge by (rewrite length_drop; lia).
Qed.

(** From the start of the chain, the copy is a prefix of the packet. *)
Lemma pbuf_copy_partial_0 p d len : pbuf_copy_partial p d len 0 =
  (store_at 0 (take len (concat p)) d, Z.of_nat (length (take len (concat p)))).
Proof. unfold pbuf_copy_partial. by rewrite copy_partial_loop_spec. Qed.

Lemma take_loop_spec p : ∀ data, (length data <= length (concat p))%nat →
  ∃ p', take_loop p data = Some p' ∧ concat p' = data ++ drop (length data) (concat p)
        ∧ map length p' = map length p.
Proof.
  induction p as [|b p IH]; intros data Hd.
  - destruct data; [|cbn in Hd; lia]. by exists [].
  - destruct data as [|x data]; [by exists (b :: p)|].
    set (d := x :: data) in *. cbn [concat] in Hd. rewrite length_app in Hd.
    cbn [take_loop]. unfold d at 1. fold d. cbv zeta.
    set (n := Nat.min (length d) (length b)).
    destruct (IH (drop n d)) as (p' & E & Hc & Hl); [rewrite length_drop; lia|].
    change (take_loop (b :: p) d) with
      (next' ← take_loop p (drop n d); Some (store_at 0 (take n d) b :: next')).
    rewrite E. eexists; split; [done|]. cbn [concat map].
    rewrite Hc, Hl, length_store_at by (rewrite length_take; lia). split; [|done].
    unfold store_at. rewrite take_0. cbn [app Nat.add]. rewrite length_take, length_drop.
    rewrite Nat.min_l by lia. rewrite <- app_assoc.
    destruct (decide (length d <= length b)%nat) as [Hle|Hgt].
    + replace n with (length d) by lia. rewrite (drop_ge d), (take_ge d) by lia. cbn [app].
      rewrite Nat.sub_diag, drop_0. by rewrite drop_app_le by lia.
    + replace n with (length b) by lia. rewrite (drop_ge b) by lia. cbn [app].
      rewrite app_assoc, take_drop. f_equal. by rewrite drop_app_ge by lia.
Qed.

(** Whatever the segmentation of a packet, [pbuf_copy_partial] delivers the
    requested window of its bytes, and [pbuf_take] of data that fits writes exactly
    that data at its front, keeps the segmentation and leaves the rest alone, so
    that copying it back returns the data. *)
Theorem pbuf_copy_take p data out len offset :
  (length data <= length (concat p))%nat →
  pbuf_copy_partial p out len offset =
    (store_at 0 (slice offset len (concat p)) out, Z.of_nat (length (slice offset len (concat p))))
  ∧ ∃ p', pbuf_take p data (length data) = Some (p', ERR_OK)
    ∧ map length p' = map length p
    ∧ (pbuf_copy_partial p' out (length data) 0).1 = store_at 0 data out.
Proof.
  intros Hd. split.
  - unfold pbuf_copy_partial. by rewrite copy_partial_loop_spec.
  - unfold pbuf_take. destruct (Nat.ltb_spec (length (concat p)) (length data)); [lia|].
    rewrite take_ge by lia. destruct (take_loop_spec p data Hd) as (p' & -> & Hc & Hl).
    exists p'. split_ands; [done|done|]. rewrite pbuf_copy_partial_0, Hc. cbn [fst].
    by rewrite take_app_length.
Qed.

Lemma pbuf_copy_take_witness :
  pbuf_copy_partial [[1; 2]; [3]; [4; 5; 6]] [0; 0; 0; 0] 3 1 = ([2; 3; 4; 0], 3)
  ∧ ∃ p', pbuf_take [[1; 2]; [3]; [4; 5; 6]] [7; 8; 9; 10] 4 = Some (p', ERR_OK)
    ∧ map length p' = [2; 1; 3]%nat
    ∧ (pbuf_copy_partial p' [0; 0; 0; 0] 4 0).1 = [7; 8; 9; 10].
Proof.
  apply (pbuf_copy_take [[1; 2]; [3]; [4; 5; 6]] [7; 8; 9; 10] [0; 0; 0; 0] 3 1). cbn; lia.
Defined.

(** ** Reading single bytes *)

(* @ LwIP/src/core/pbuf.c:1078-1091 pbuf_get_at *)
Fixpoint get_at_loop (q : pbuf) (copy_from : nat) : Z :=
  match q with
  | [] => 0
  | payload :: next =>
    if (length payload <=? copy_from)%nat then get_at_loop next (copy_from - length payload)
    else payload !!! copy_from
  end.
(* @ LwIP/src/core/pbuf.c:1075-1091 pbuf_get_at *)
Definition pbuf_get_at (p : pbuf) (offset : Z) : Z := get_at_loop p (Z.to_nat offset).

Lemma get_at_spec p : ∀ n, get_at_loop p n = default 0 (concat p !! n).
Proof.
  induction p as [|b p IH]; intros n; cbn; [by rewrite lookup_nil|].
  destruct (Nat.leb_spec (length b) n).
  - rewrite IH. by rewrite lookup_app_r by lia.
  - rewrite lookup_app_l by lia. rewrite list_lookup_total_alt.
    by destruct (lookup_lt_is_Some_2 b n) as [x ->].
Qed.

(** ** Comparing and searching *)

(** The packet buffer an offset lies in, and the offset inside it. *)
(* @ LwIP/src/core/pbuf.c:1105-1112 pbuf_memcmp *)
Fixpoint seek (q : pbuf) (start : nat) : pbuf * nat :=
  match q with
  | [] => ([], start)
  | payload :: next =>
    if (length payload <=? start)%nat then seek next (start - length payload) else (q, start)
  end.
(* @ LwIP/src/core/pbuf.c:1116-1123 pbuf_memcmp *)
Fixpoint memcmp_loop (q : pbuf) (start : Z) (s2 : list Z) (i : Z) : Z :=
  match s2 with
  | [] => 0
  | b :: s2 => if negb (pbuf_get_at q (u16 (start + i)) =? b) then u16 (i + 1)
               else memcmp_loop q start s2 (i + 1)
  end.
(* @ LwIP/src/core/pbuf.c:1102-1126 pbuf_memcmp *)
Definition pbuf_memcmp (p : pbuf) (offset : Z) (s2 : list Z) : Z :=
  let '(q, start) := seek p (Z.to_nat offset) in
  match q with
  | [] => 65535
  | _ => memcmp_loop q (Z.of_nat start) s2 0
  end.

(** [None]: out of fuel. *)
(* @ LwIP/src/core/pbuf.c:1144-1151 pbuf_memfind *)
Fixpoint memfind_loop (fuel : nat) (p : pbuf) (mem : list Z) (max i : Z) : option Z :=
  if i <=? max then
    match fuel with
    | O => None
    | S fuel =>
      let plus := pbuf_memcmp p i mem in
      if plus =? 0 then Some i else memfind_loop fuel p mem max (u16 (i + plus))
    end
  else Some 65535.
(** The offset grows by at least one byte in each pass. *)
(* @ LwIP/src/core/pbuf.c:1138-1154 pbuf_memfind *)
Definition pbuf_memfind (p : pbuf) (mem : list Z) (start_offset : Z) : option Z :=
  let mem_len := Z.of_nat (length mem) in
  if mem_len + start_offset <=? tot_len p
  then memfind_loop (S (length (concat p))) p mem (u16 (tot_len p - mem_len)) start_offset
  else Some 65535.

(** [substr] is the string without its terminator. *)
(* @ LwIP/src/core/pbuf.c:1166-1178 pbuf_strstr *)
Definition pbuf_strstr (p : pbuf) (substr : list Z) : option Z :=
  if (Z.of_nat (length substr) =? 0) || (tot_len p =? 65535) then Some 65535
  else if 65535 <=? Z.of_nat (length substr) then Some 65535
  else pbuf_memfind p substr 0.

Lemma seek_spec p : ∀ n, let '(q, start) := seek p n in
  (q = [] ∧ (length (concat p) <= n)%nat) ∨
  (q ≠ [] ∧ (n < length (concat p))%nat ∧ drop start (concat q) = drop n (concat p) ∧ (start <= n)%nat).
Proof.
  induction p as [|b p IH]; intros n; cbn [seek concat]; [left; cbn; split; [done|lia]|].
  destruct (Nat.leb_spec (length b) n) as [Hle|Hlt].
  - specialize (IH (n - length b)%nat). destruct (seek p _) as [q st]. rewrite length_app.
    destruct IH as [[? ?]|(? & ? & E & ?)]; [left; split; [done|lia]|right].
    split; [done|]. split; [lia|]. rewrite E. split; [|lia]. by rewrite drop_app_ge by lia.
  - right. split; [done|]. rewrite length_app. split; [lia|]. done.
Qed.

(** The comparison of the rest of the packet with [s2], byte by byte. *)
Lemma memcmp_loop_spec q st s2 : ∀ i, 0 <= i → 0 <= st → st + i + Z.of_nat (length s2) <= 65535 →
  (Z.to_nat (st + i) + length s2 <= length (concat q))%nat →
  let r := memcmp_loop q st s2 i in
  (r = 0 ∧ slice (Z.to_nat (st + i)) (length s2) (concat q) = s2) ∨
  (i < r <= i + Z.of_nat (length s2) ∧ slice (Z.to_nat (st + i)) (length s2) (concat q) ≠ s2).
Proof.
  induction s2 as [|b s2 IH]; intros i Hi Hst Hs Hl; cbn [memcmp_loop length] in *.
  { left. split; [done|]. unfold slice. by rewrite take_0. }
  rewrite u16_small by lia. unfold pbuf_get_at. rewrite get_at_spec.
  destruct (lookup_lt_is_Some_2 (concat q) (Z.to_nat (st + i))) as [x Hx]; [lia|]. rewrite Hx.
  change (default 0 (Some x)) with x. assert (Es : slice (Z.to_nat (st + i)) (S (length s2)) (concat q)
    = x :: slice (Z.to_nat (st + (i + 1))) (length s2) (concat q)).
  { unfold slice. rewrite (drop_S _ x (Z.to_nat (st + i)) Hx). cbn [take]. f_equal.
    by replace (Z.to_nat (st + (i + 1))) with (S (Z.to_nat (st + i))) by lia. }
  rewrite Es. destruct (Z.eqb_spec x b) as [->|Hne]; cbn [negb].
  - destruct (IH (i + 1)) as [[Er E]|[Er E]]; try lia.
    + left. split; [done|]. by rewrite E.
    + right. split; [lia|]. intros [= E']. done.
  - right. rewrite u16_small by lia. split; [lia|]. by intros [= ? _].
Qed.

Lemma memcmp_spec p off s2 : 0 <= off → tot_len p <= 65535 → 0 < Z.of_nat (length s2) →
  off + Z.of_nat (length s2) <= tot_len p →
  let r := pbuf_memcmp p off s2 in
  (r = 0 ∧ slice (Z.to_nat off) (length s2) (concat p) = s2) ∨
  (0 < r <= Z.of_nat (length s2) ∧ slice (Z.to_nat off) (length s2) (concat p) ≠ s2).
Proof.
  intros Hoff Ht Hs H. unfold pbuf_memcmp, tot_len in *. pose proof (seek_spec p (Z.to_nat off)) as Hk.
  destruct (seek p (Z.to_nat off)) as [q st]. destruct Hk as [[-> ?]|(Hq & Hn & E & Hle)]; [lia|].
  destruct q as [|b q]; [done|].
  assert (Hlen : (length (concat (b :: q)) - st = length (concat p) - Z.to_nat off)%nat).
  { by rewrite <- !length_drop, E. }
  assert (Esl : slice st (length s2) (concat (b :: q)) = slice (Z.to_nat off) (length s2) (concat p)).
  { unfold slice. by rewrite E. }
  destruct (memcmp_loop_spec (b :: q) (Z.of_nat st) s2 0) as [[Er E']|[Er E']]; try lia.
  - left. split; [done|]. rewrite Z.add_0_r, Nat2Z.id, Esl in E'. done.
  - right. split; [lia|]. rewrite Z.add_0_r, Nat2Z.id, Esl in E'. done.
Qed.

Lemma memfind_loop_spec p mem max : tot_len p <= 65535 → 0 < Z.of_nat (length mem) →
  max = tot_len p - Z.of_nat (length mem) → ∀ fuel i, 0 <= i → (Z.to_nat (max + 1 - i) < fuel)%nat →
  ∃ r, memfind_loop fuel p mem max i = Some r ∧
    (r = 65535 ∨ i <= r <= max ∧ slice (Z.to_nat r) (length mem) (concat p) = mem).
Proof.
  intros Ht Hm Hmax. induction fuel as [|fuel IH]; intros i Hi Hf; [lia|]. cbn [memfind_loop].
  destruct (Z.leb_spec i max); [|by exists 65535; auto].
  destruct (memcmp_spec p i mem) as [[Er E]|[Er E]]; try lia.
  - rewrite Er. cbn [Z.eqb]. exists i. split; [done|]. right. split; [lia|done].
  - destruct (Z.eqb_spec (pbuf_memcmp p i mem) 0); [lia|]. rewrite u16_small by lia.
    destruct (IH (i + pbuf_memcmp p i mem)) as (r & -> & Hr); [lia|lia|].
    exists r. split; [done|]. destruct Hr as [->|[? ?]]; [by left|right; split; [lia|done]].
Qed.

(** The search ends, and an index it returns is a place where the bytes stand, at or after
    the start; but it skips as far as the comparison got before it failed, so it misses
    occurrences that overlap a failed attempt: [aab] is not found in [aaab]. *)
Theorem memfind_sound_not_complete p mem start : tot_len p <= 65535 → 0 < Z.of_nat (length mem) →
  0 <= start →
  (∃ r, pbuf_memfind p mem start = Some r ∧
     (r = 65535 ∨ start <= r ∧ slice (Z.to_nat r) (length mem) (concat p) = mem)) ∧
  (let hay := [[97; 97]; [97; 98]] in let needle := [97; 97; 98] in
   pbuf_memfind hay needle 0 = Some 65535 ∧ slice 1 (length needle) (concat hay) = needle).
Proof.
  intros Ht Hm Hs. split; [|split; vm_compute; reflexivity]. unfold pbuf_memfind.
  destruct (Z.leb_spec (Z.of_nat (length mem) + start) (tot_len p)) as [H|H]; [|exists 65535; auto].
  unfold tot_len in *. rewrite u16_small by lia.
  destruct (memfind_loop_spec p mem (tot_len p - Z.of_nat (length mem)) Ht Hm eq_refl
    (S (length (concat p))) start Hs) as (r & E & Hr); [unfold tot_len; lia|].
  exists r. split; [done|]. destruct Hr as [->|[? ?]]; [by left|right; split; [lia|done]].
Qed.
Lemma memfind_sound_not_complete_witness :
  ∃ r, pbuf_memfind [[1; 2]; [3; 4]] [3; 4] 0 = Some r ∧ r = 2 ∧
    slice (Z.to_nat r) 2 (concat [[1; 2]; [3; 4]]) = [3; 4].
Proof.
  destruct (memfind_sound_not_complete [[1; 2]; [3; 4]] [3; 4] 0) as [(r & E & Hr) _];
    [unfold tot_len; cbn; lia|cbn; lia|lia|].
  exists r. split; [exact E|]. assert (Er : Some r = Some 2) by (rewrite <- E; vm_compute; reflexivity).
  injection Er as ->. split; [reflexivity|]. destruct Hr as [Hr|[_ Hr]]; [lia|exact Hr].
Defined.

(** ** Copying a packet *)

Definition ERR_VAL : Z := -6.

(** A packet buffer as long as the total of its chain must be the last. *)
(* @ LwIP/src/core/pbuf.c:890-899 pbuf_copy *)
Definition is_queue (p : pbuf) : bool :=
  match p with
  | payload :: (_ :: _) => (length payload =? length (concat p))%nat
  | _ => false
  end.

(** The loop: the rest of both chains with the offsets into their first buffers.  The result
    has the rest of the target.  [None] follows a null pointer, or is out of fuel. *)
(* @ LwIP/src/core/pbuf.c:863-902 pbuf_copy *)
Fixpoint copy_loop (fuel : nat) (p_to p_from : pbuf) (offset_to offset_from : nat) : option (pbuf * Z) :=
  match fuel, p_to, p_from with
  | S fuel, t :: to', f :: from' =>
    let len := if (length f - offset_from <=? length t - offset_to)%nat
               then (length f - offset_from)%nat else (length t - offset_to)%nat in
    let t := store_at offset_to (slice offset_from len f) t in
    let offset_to := (offset_to + len)%nat in
    let offset_from := (offset_from + len)%nat in
    let '(p_from, offset_from) :=
      if (length f <=? offset_from)%nat then (from', O) else (f :: from', offset_from) in
    if (offset_to =? length t)%nat then
      if bool_decide (to' = []) && negb (bool_decide (p_from = [])) then Some (t :: to', ERR_ARG)
      else if is_queue p_from || is_queue to' then Some (t :: to', ERR_VAL)
      else match p_from with
           | [] => Some (t :: to', ERR_OK)
           | _ => '(to', r) ← copy_loop fuel to' p_from 0 offset_from; Some (t :: to', r)
           end
    else if is_queue p_from || is_queue (t :: to') then Some (t :: to', ERR_VAL)
    else match p_from with
         | [] => Some (t :: to', ERR_OK)
         | _ => copy_loop fuel (t :: to') p_from offset_to offset_from
         end
  | _, _, _ => None
  end.
(** Each pass finishes a buffer of one of the chains. *)
(* @ LwIP/src/core/pbuf.c:850-903 pbuf_copy *)
Definition pbuf_copy (p_to p_from : pbuf) : option (pbuf * Z) :=
  match p_to, p_from with
  | [], _ | _, [] => Some (p_to, ERR_ARG)
  | _, _ => if (length (concat p_to) <? length (concat p_from))%nat then Some (p_to, ERR_ARG)
            else copy_loop (length p_to + length p_from) p_to p_from 0 0
  end.

(** A packet does not end in an empty buffer (unless it is a single one). *)
Definition packet (p : pbuf) : Prop := ∀ l x y, p = l ++ x :: y → y ≠ [] → concat y ≠ [].
Lemma packet_tail x p : packet (x :: p) → packet p.
Proof. intros H l y z -> Hz. apply (H (x :: l) y z); [done|done]. Qed.
Lemma packet_not_queue p : packet p → is_queue p = false.
Proof.
  intros H. destruct p as [|x [|y p]]; [done..|]. cbn [is_queue]. apply Nat.eqb_neq.
  cbn [concat]. rewrite length_app. pose proof (H [] x (y :: p) eq_refl) as Hne.
  cbn [concat] in Hne. destruct (y ++ concat p); [by destruct Hne|]. cbn. lia.
Qed.
Lemma packet_lengths p p' : map length p' = map length p → packet p → packet p'.
Proof.
  intros E H l x y -> Hy. rewrite map_app in E. cbn in E. symmetry in E.
  apply map_eq_app in E as (l0 & r0 & -> & El & E). apply map_eq_cons in E as (x0 & y0 & -> & Ex & Ey).
  assert (Hy0 : y0 ≠ []) by (intros ->; by destruct y). specialize (H l0 x0 y0 eq_refl Hy0).
  intros Hc. apply H. apply length_zero_iff_nil. rewrite length_concat, Ey, <- length_concat.
  by apply length_zero_iff_nil.
Qed.

Lemma is_queue_lengths p p' : map length p' = map length p → packet p → is_queue p' = false.
Proof. intros. by eapply packet_not_queue, packet_lengths. Qed.

(** What one pass writes into the current target buffer. *)
Lemma store_slice ot off n (f t : list Z) : (off + n <= length f)%nat → (ot + n <= length t)%nat →
  store_at ot (slice off n f) t = take ot t ++ slice off n f ++ drop (ot + n) t ∧
  length (store_at ot (slice off n f) t) = length t.
Proof.
  intros. rewrite length_store_at by (rewrite length_slice; lia). split; [|done].
  unfold store_at. by rewrite length_slice.
Qed.

Lemma copy_loop_spec fuel : ∀ t to' f from' ot off, packet (t :: to') → packet (f :: from') →
  (ot <= length t)%nat → (off <= length f)%nat →
  (length (concat (f :: from')) - off <= length (concat (t :: to')) - ot)%nat →
  (length (t :: to') + length (f :: from') <= S fuel)%nat →
  ∃ r, copy_loop fuel (t :: to') (f :: from') ot off = Some (r, ERR_OK) ∧
    map length r = map length (t :: to') ∧
    concat r = take ot (concat (t :: to')) ++ drop off (concat (f :: from')) ++
               drop (ot + (length (concat (f :: from')) - off)) (concat (t :: to')).
Proof.
  induction fuel as [|fuel IH]; intros t to' f from' ot off Pt Pf Hot Hoff Hroom Hfuel;
    [cbn in Hfuel; lia|].
  cbn [copy_loop concat]. cbn [concat] in Hroom. rewrite !length_app in *.
  pose proof (packet_tail _ _ Pt) as Pt'. pose proof (packet_tail _ _ Pf) as Pf'.
  destruct (Nat.leb_spec (length f - off) (length t - ot)) as [Hle|Hgt].
  - set (n := (length f - off)%nat) in *.
    destruct (store_slice ot off n f t) as [Et Elen]; [lia|lia|]. set (t1 := store_at _ _ t) in *.
    assert (Esl : slice off n f = drop off f) by (unfold slice; rewrite take_ge; [done|rewrite length_drop; lia]).
    rewrite Esl in Et. destruct (Nat.leb_spec (length f) (off + n)); [|lia].
    assert (Hq : is_queue from' || is_queue to' = false) by (by rewrite !packet_not_queue).
    assert (Hq1 : is_queue from' || is_queue (t1 :: to') = false).
    { rewrite packet_not_queue by done. apply (is_queue_lengths (t :: to')); [cbn; by rewrite Elen|done]. }
    rewrite Elen, Hq, Hq1. destruct (Nat.eqb_spec (ot + n) (length t)) as [E|E].
    + destruct from' as [|f' from'].
      * rewrite andb_false_r. exists (t1 :: to'). split; [done|]. split; [cbn; by rewrite Elen|].
        cbn [concat]. rewrite Et, !app_nil_r. cbn [length].
        replace (ot + (length f + 0 - off))%nat with (ot + n)%nat by lia.
        rewrite take_app_le, (drop_app_le t) by lia. by rewrite <- !app_assoc.
      * pose proof (Pf [] f (f' :: from') eq_refl) as Hne. 
        assert (length (concat (f' :: from')) ≠ 0%nat) by (intros ?%length_zero_iff_nil; by apply Hne).
        destruct to' as [|t' to']; [exfalso; cbn [concat length] in *; lia|].
        rewrite bool_decide_eq_false_2 by done. cbn [andb].
        destruct (IH t' to' f' from' 0%nat 0%nat) as (r & -> & Er & Ec); try done; [lia|lia|lia|cbn in *; lia|].
        cbn [mbind option_bind]. exists (t1 :: r). split; [done|]. split; [cbn [map]; by rewrite Elen, Er|].
        change (concat (t1 :: r)) with (t1 ++ concat r).
        rewrite Ec, take_0, drop_0, Nat.sub_0_r. cbn [concat app Nat.add]. rewrite Et.
        rewrite (drop_ge t) by lia. rewrite app_nil_r, take_app_le by lia. rewrite <- !app_assoc. f_equal.
        rewrite (drop_app_le f) by lia. rewrite <- !app_assoc. do 2 f_equal.
        rewrite (drop_app_ge t) by (cbn [concat] in *; lia). f_equal. cbn [concat] in *. f_equal. lia.
    + rewrite (drop_app_le f), take_app_le by lia. destruct from' as [|f' from'].
      * exists (t1 :: to'). split; [done|]. split; [cbn; by rewrite Elen|].
        cbn [concat length]. rewrite Et, !app_nil_r.
        replace (ot + (length f + 0 - off))%nat with (ot + n)%nat by lia.
        rewrite (drop_app_le t) by lia. by rewrite <- !app_assoc.
      * assert (Pt1 : packet (t1 :: to')) by (apply packet_lengths with (t :: to'); [cbn; by rewrite Elen|done]).
        destruct (IH t1 to' f' from' (ot + n)%nat 0%nat) as (r & -> & Er & Ec); try done;
          [rewrite Elen; lia|lia|cbn [concat] in *; rewrite !length_app, Elen in *; lia|cbn in *; lia|].
        exists r. split; [done|]. split; [rewrite Er; cbn; by rewrite Elen|].
        rewrite Ec, drop_0, Nat.sub_0_r. cbn [concat].
        assert (Etk : take (ot + n) (t1 ++ concat to') = take ot t ++ drop off f).
        { rewrite take_app_le by (rewrite Elen; lia). rewrite Et, app_assoc.
          rewrite take_app_le by (rewrite length_app, length_take, length_drop; lia).
          apply take_ge. rewrite length_app, length_take, length_drop. lia. }
        rewrite Etk, <- !app_assoc. do 3 f_equal.
        assert (Edr : ∀ m, drop (ot + n + m) (t1 ++ concat to') = drop (ot + n + m) (t ++ concat to')).
        { intros m. rewrite <- !(drop_drop _ m (ot + n)). f_equal. rewrite (drop_app_le t1) by (rewrite Elen; lia). rewrite (drop_app_le t) by lia.
          f_equal. rewrite Et, app_assoc, drop_app_ge by (rewrite length_app, length_take, length_drop; lia).
          rewrite length_app, length_take, length_drop.
          by replace (ot + n - (ot `min` length t + (length f - off)))%nat with 0%nat by lia. }
        rewrite Edr. do 2 f_equal. lia.
  - set (n := (length t - ot)%nat) in *.
    destruct (store_slice ot off n f t) as [Et Elen]; [lia|lia|]. set (t1 := store_at _ _ t) in *.
    rewrite (drop_ge t) in Et by lia. rewrite app_nil_r in Et.
    destruct (Nat.leb_spec (length f) (off + n)); [lia|].
    assert (Hq : is_queue (f :: from') || is_queue to' = false) by (by rewrite !packet_not_queue).
    rewrite Elen, Hq. destruct (Nat.eqb_spec (ot + n) (length t)) as [E|E]; [|lia].
    destruct to' as [|t' to']; [exfalso; cbn [concat length] in *; lia|].
    rewrite bool_decide_eq_false_2 by done. cbn [andb].
    destruct (IH t' to' f from' 0%nat (off + n)%nat) as (r & -> & Er & Ec); try done;
      [lia|lia|cbn [concat] in *; rewrite !length_app in *; lia|cbn in *; lia|].
    cbn [mbind option_bind]. exists (t1 :: r). split; [done|]. split; [cbn [map]; by rewrite Elen, Er|].
    change (concat (t1 :: r)) with (t1 ++ concat r). rewrite Ec, take_0.
    cbn [concat app Nat.add]. rewrite Et, !length_app.
    rewrite take_app_le by lia. rewrite <- !app_assoc. f_equal.
    rewrite (drop_app_ge t) by lia. rewrite !(drop_app_le f) by lia.
    assert (Ed : drop off f = slice off n f ++ drop (off + n) f).
    { unfold slice. rewrite <- drop_drop. by rewrite take_drop. }
    rewrite Ed, <- !app_assoc. do 4 f_equal. lia.
Qed.

(** Copying a packet into one that is long enough, however the two are cut into buffers. *)
Theorem pbuf_copy_spec p_to p_from : p_to ≠ [] → p_from ≠ [] → packet p_to → packet p_from →
  if (length (concat p_to) <? length (concat p_from))%nat
  then pbuf_copy p_to p_from = Some (p_to, ERR_ARG)
  else ∃ r, pbuf_copy p_to p_from = Some (r, ERR_OK) ∧ map length r = map length p_to ∧
         concat r = concat p_from ++ drop (length (concat p_from)) (concat p_to).
Proof.
  intros Ht Hf Pt Pf. destruct p_to as [|t to']; [done|]. destruct p_from as [|f from']; [done|].
  unfold pbuf_copy. destruct (Nat.ltb_spec (length (concat (t :: to'))) (length (concat (f :: from')))); [done|].
  destruct (copy_loop_spec (length (t :: to') + length (f :: from')) t to' f from' 0 0 Pt Pf)
    as (r & E & El & Ec); try lia. exists r. split; [done|]. split; [done|].
  by rewrite Ec, take_0, drop_0, Nat.sub_0_r.
Qed.

(** [fresh] is the contents of the buffer [pbuf_alloc] returned, as long as the packet. *)
(* @ LwIP/src/core/pbuf.c:1008-1025 pbuf_coalesce *)
Definition pbuf_coalesce (p : pbuf) (fresh : option (list Z)) : option pbuf :=
  match p with
  | [] => None
  | [_] => Some p
  | _ => match fresh with
         | None => Some p
         | Some q => '(r, _) ← pbuf_copy [q] p; Some r
         end
  end.

Lemma pbuf_coalesce_spec p q : p ≠ [] → packet p → length q = length (concat p) →
  ∃ r, pbuf_coalesce p (Some q) = Some r ∧ concat r = concat p ∧ length r = 1%nat.
Proof.
  intros Hp Pp Hq. destruct p as [|x [|y p]]; [done|by exists [x]|]. unfold pbuf_coalesce.
  assert (Pq : packet [q]).
  { intros l a b E Hb. destruct l as [|? l]; [injection E as _ <-; done|]. by destruct l. }
  pose proof (pbuf_copy_spec [q] (x :: y :: p) ltac:(done) Hp Pq Pp) as H.
  assert (El : length (concat [q]) = length (concat (x :: y :: p))) by (rewrite <- Hq; cbn; by rewrite app_nil_r).
  rewrite El in H. destruct (Nat.ltb_spec (length (concat (x :: y :: p))) (length (concat (x :: y :: p)))); [lia|].
  destruct H as (r & -> & Er & Ec). cbn [mbind option_bind]. exists r. split; [done|]. split.
  - rewrite Ec, <- El. rewrite drop_all, app_nil_r. done.
  - apply (f_equal length) in Er. by rewrite !length_map in Er.
Qed.
