(* ===== verification/PbufRef.v ===== *)
(** * Allocation and reference counts of packet buffers ([LwIP/src/core/pbuf.c])

    The headers of the live packet buffers are a finite map from addresses; the two pools are
    lists of free addresses.  A freed header leaves the map, so any later use of its address is
    an access outside an object ([None]).  The answer of [mem_malloc] ([LwipMem]) is an argument of
    [pbuf_alloc], and [mem_trim] returns the block it was given.  Custom packet buffers, which only the
    fragmentation creates, are not modelled: the flag [PBUF_FLAG_IS_CUSTOM] is never set here.
    [TCP_QUEUE_OOSEQ] is 0, so an empty pool triggers nothing.  The contents of payloads are
    in [Pbuf]. *)
From S2P Require Import Prelude.

Definition SIZEOF_STRUCT_PBUF : Z := 16.
Definition PBUF_POOL_BUFSIZE : Z := 1536.
Definition align4 (x : Z) : Z := Z.land (x + 3) (Z.lnot 3).

(** ** Data *)

(* @ LwIP/src/include/lwip/pbuf.h:50-55 pbuf_layer *)
Inductive pbuf_layer := PBUF_TRANSPORT | PBUF_IP | PBUF_LINK | PBUF_RAW.
(* @ LwIP/src/include/lwip/pbuf.h:57-62 pbuf_type *)
Inductive pbuf_type := PBUF_RAM | PBUF_ROM | PBUF_REF | PBUF_POOL.
#[export] Instance pbuf_type_eq_dec : EqDecision pbuf_type.
Proof. solve_decision. Defined.

(* @ LwIP/src/include/lwip/pbuf.h:79-110 pbuf *)
Record hdr := MkHdr {
  next : Z; payload : Z; tot_len : Z; len : Z; type : pbuf_type; flags : Z; ref : Z }.
Definition set_next (v : Z) (h : hdr) : hdr :=
  MkHdr v (payload h) (tot_len h) (len h) (type h) (flags h) (ref h).
Definition set_ref (v : Z) (h : hdr) : hdr :=
  MkHdr (next h) (payload h) (tot_len h) (len h) (type h) (flags h) v.
Definition set_lens (tot l : Z) (h : hdr) : hdr :=
  MkHdr (next h) (payload h) tot l (type h) (flags h) (ref h).
Definition set_payload (v : Z) (h : hdr) : hdr :=
  MkHdr (next h) v (tot_len h) (len h) (type h) (flags h) (ref h).

(** [pool_free] and [pbuf_free_list] are the free elements of [MEMP_PBUF_POOL] and
    [MEMP_PBUF]. *)
Record pbufs := MkPbufs { hdrs : gmap Z hdr; pool_free : list Z; pbuf_free_list : list Z }.
Definition put (a : Z) (h : hdr) (s : pbufs) : pbufs :=
  MkPbufs (<[a := h]> (hdrs s)) (pool_free s) (pbuf_free_list s).

(** ** Releasing *)

(** [memp_free] or [mem_free] of a header, by its type. *)
(* @ LwIP/src/core/pbuf.c:668-677 pbuf_free *)
Definition release (p : Z) (h : hdr) (s : pbufs) : pbufs :=
  let m := delete p (hdrs s) in
  match type h with
  | PBUF_POOL => MkPbufs m (p :: pool_free s) (pbuf_free_list s)
  | PBUF_ROM | PBUF_REF => MkPbufs m (pool_free s) (p :: pbuf_free_list s)
  | PBUF_RAM => MkPbufs m (pool_free s) (pbuf_free_list s)
  end.

(* @ LwIP/src/core/pbuf.c:641-689 pbuf_free *)
Fixpoint free_loop (fuel : nat) (p count : Z) (s : pbufs) : option (pbufs * Z) :=
  if p =? 0 then Some (s, count)
  else match fuel with
       | O => None
       | S fuel =>
         h ← hdrs s !! p;
         let r := u16 (ref h - 1) in
         if r =? 0 then free_loop fuel (next h) (u8 (count + 1)) (release p h s)
         else Some (put p (set_ref r h) s, count)
       end.
(** Each pass but the last removes a header, so the number of headers bounds the loop. *)
(* @ LwIP/src/core/pbuf.c:617-693 pbuf_free *)
Definition pbuf_free (p : Z) (s : pbufs) : option (pbufs * Z) :=
  free_loop (S (size (hdrs s))) p 0 s.

(** ** Allocation *)

(* @ LwIP/src/core/pbuf.c:214-233 pbuf_alloc *)
Definition layer_offset (layer : pbuf_layer) : Z :=
  match layer with
  | PBUF_TRANSPORT => 14 + 20 + 20 | PBUF_IP => 14 + 20 | PBUF_LINK => 14 | PBUF_RAW => 0
  end.

(** Lines 270 to 300: the rest of a chain from the pool, behind [r].  The result says
    whether all of it was allocated. *)
(* @ LwIP/src/core/pbuf.c:270-300 pbuf_alloc *)
Fixpoint alloc_rest (fuel : nat) (rem_len r : Z) (s : pbufs) : option (pbufs * bool) :=
  if 0 <? rem_len then
    match fuel, pool_free s with
    | O, _ => None
    | _, [] => Some (s, false)
    | S fuel, q :: free =>
      hr ← hdrs s !! r;
      let l := Z.min (u16 rem_len) PBUF_POOL_BUFSIZE in
      let hq := MkHdr 0 (q + SIZEOF_STRUCT_PBUF) (u16 rem_len) l PBUF_POOL 0 1 in
      let s := MkPbufs (<[q := hq]> (<[r := set_next q hr]> (hdrs s))) free (pbuf_free_list s) in
      alloc_rest fuel (rem_len - l) q s
    end
  else Some (s, true).

(** [new] is the answer of [mem_malloc]; the result is the packet buffer, 0 on failure. *)
(* @ LwIP/src/core/pbuf.c:205-348 pbuf_alloc *)
Definition pbuf_alloc (new : Z) (layer : pbuf_layer) (length : Z) (ty : pbuf_type) (s : pbufs)
    : option (pbufs * Z) :=
  let offset := layer_offset layer in
  match ty with
  | PBUF_POOL =>
    match pool_free s with
    | [] => Some (s, 0)
    | p :: free =>
      let l := Z.min length (PBUF_POOL_BUFSIZE - align4 offset) in
      let h := MkHdr 0 (align4 (p + (SIZEOF_STRUCT_PBUF + offset))) length l PBUF_POOL 0 1 in
      '(s, ok) ← alloc_rest (Z.to_nat length) (length - l) p
                   (MkPbufs (<[p := h]> (hdrs s)) free (pbuf_free_list s));
      if (ok : bool) then Some (s, p)
      else '(s, _) ← pbuf_free p s; Some (s, 0)
    end
  | PBUF_RAM =>
    if new =? 0 then Some (s, 0)
    else Some (put new (MkHdr 0 (align4 (new + SIZEOF_STRUCT_PBUF + offset)) length length PBUF_RAM 0 1) s,
               new)
  | PBUF_ROM | PBUF_REF =>
    match pbuf_free_list s with
    | [] => Some (s, 0)
    | p :: free =>
      Some (MkPbufs (<[p := MkHdr 0 0 length length ty 0 1]> (hdrs s)) (pool_free s) free, p)
    end
  end.

(** ** Lengths *)

(** Lines 455 to 464: the loop over the packet buffers that are kept whole; the last one kept and
    its share. *)
(* @ LwIP/src/core/pbuf.c:455-464 pbuf_realloc *)
Fixpoint realloc_skip (fuel : nat) (rem_len grow q : Z) (s : pbufs) : option (pbufs * Z * Z) :=
  h ← hdrs s !! q;
  if len h <? rem_len then
    match fuel with
    | O => None
    | S fuel =>
      let s := put q (set_lens (u16 (tot_len h + u16 grow)) (len h) h) s in
      realloc_skip fuel (u16 (rem_len - len h)) grow (next h) s
    end
  else Some (s, q, rem_len).
(* @ LwIP/src/core/pbuf.c:429-487 pbuf_realloc *)
Definition pbuf_realloc (p new_len : Z) (s : pbufs) : option pbufs :=
  h ← hdrs s !! p;
  if tot_len h <=? new_len then Some s
  else
    '(s, q, rem_len) ← realloc_skip (size (hdrs s)) new_len (new_len - tot_len h) p s;
    h ← hdrs s !! q;
    let s := put q (set_lens rem_len rem_len h) s in
    s ← (if negb (next h =? 0) then '(s, _) ← pbuf_free (next h) s; Some s else Some s);
    h ← hdrs s !! q;
    Some (put q (set_next 0 h) s).

(** The result is 1 on failure. *)
(* @ LwIP/src/core/pbuf.c:510-581 pbuf_header *)
Definition pbuf_header (p inc : Z) (s : pbufs) : option (pbufs * Z) :=
  if (inc =? 0) || (p =? 0) then Some (s, 0)
  else
    h ← hdrs s !! p;
    let increment_magnitude := u16 (Z.abs inc) in
    if (inc <? 0) && negb (increment_magnitude <=? len h) then Some (s, 1)
    else
      let done := Some (put p (set_payload (payload h - inc)
                     (set_lens (u16 (tot_len h + inc)) (u16 (len h + inc)) h)) s, 0) in
      match type h with
      | PBUF_RAM | PBUF_POOL =>
        if payload h - inc <? p + SIZEOF_STRUCT_PBUF then Some (s, 1) else done
      | PBUF_REF | PBUF_ROM =>
        if (inc <? 0) && (increment_magnitude <=? len h) then done else Some (s, 1)
      end.

(* @ LwIP/src/core/pbuf.c:708-711 pbuf_clen *)
Fixpoint clen_loop (fuel : nat) (p n : Z) (s : pbufs) : option Z :=
  if p =? 0 then Some n
  else match fuel with
       | O => None
       | S fuel => h ← hdrs s !! p; clen_loop fuel (next h) (u8 (n + 1)) s
       end.
(* @ LwIP/src/core/pbuf.c:702-713 pbuf_clen *)
Definition pbuf_clen (p : Z) (s : pbufs) : option Z := clen_loop (size (hdrs s)) p 0 s.

(** ** Chains *)

(* @ LwIP/src/core/pbuf.c:721-731 pbuf_ref *)
Definition pbuf_ref (p : Z) (s : pbufs) : option pbufs :=
  if p =? 0 then Some s
  else h ← hdrs s !! p; Some (put p (set_ref (u16 (ref h + 1)) h) s).

(* @ LwIP/src/core/pbuf.c:752-762 pbuf_cat *)
Fixpoint cat_loop (fuel : nat) (p t : Z) (s : pbufs) : option pbufs :=
  h ← hdrs s !! p;
  ht ← hdrs s !! t;
  let s' := put p (set_lens (u16 (tot_len h + tot_len ht)) (len h) h) s in
  if next h =? 0 then h ← hdrs s' !! p; Some (put p (set_next t h) s')
  else match fuel with
       | O => None
       | S fuel => cat_loop fuel (next h) t s'
       end.
(* @ LwIP/src/core/pbuf.c:743-766 pbuf_cat *)
Definition pbuf_cat (h t : Z) (s : pbufs) : option pbufs :=
  if (h =? 0) || (t =? 0) then Some s else cat_loop (size (hdrs s)) h t s.
(* @ LwIP/src/core/pbuf.c:784-791 pbuf_chain *)
Definition pbuf_chain (h t : Z) (s : pbufs) : option pbufs :=
  s ← pbuf_cat h t s; pbuf_ref t s.

(** The rest of the chain, 0 if it is gone. *)
(* @ LwIP/src/core/pbuf.c:801-830 pbuf_dechain *)
Definition pbuf_dechain (p : Z) (s : pbufs) : option (pbufs * Z) :=
  h ← hdrs s !! p;
  let q := next h in
  if negb (q =? 0) then
    hq ← hdrs s !! q;
    let s := put q (set_lens (u16 (tot_len h - len h)) (len hq) hq) s in
    h ← hdrs s !! p;
    let s := put p (set_lens (len h) (len h) (set_next 0 h)) s in
    '(s, tail_gone) ← pbuf_free q s;
    Some (s, if 0 <? tail_gone then 0 else q)
  else Some (s, 0).

(** ** The graph of the headers

    What matters for ownership: where a header points, its count and its type. *)

Definition link := (Z * Z * pbuf_type)%type.
Definition l_next (k : link) : Z := k.1.1.
Definition l_ref (k : link) : Z := k.1.2.
Definition link_of (h : hdr) : link := (next h, ref h, type h).
Definition links (s : pbufs) : gmap Z link := link_of <$> hdrs s.

(** All pointers from headers. *)
Definition pts (L : gmap Z link) : list Z := map (λ x, l_next x.2) (map_to_list L).
Definition cnt (a : Z) (l : list Z) : Z := Z.of_nat (length (filter (λ x, x = a) l)).

Fixpoint chain (L : gmap Z link) (p : Z) (l : list Z) : Prop :=
  match l with
  | [] => p = 0
  | a :: l => p = a ∧ a ≠ 0 ∧ ∃ k, L !! a = Some k ∧ chain L (l_next k) l
  end.

(** Addresses of the live headers of some types. *)
Definition keys (P : pbuf_type → bool) (L : gmap Z link) : list Z :=
  map fst (filter (λ x, P x.2.2 = true) (map_to_list L)).
Definition is_pool (t : pbuf_type) : bool := bool_decide (t = PBUF_POOL).
Definition is_ref (t : pbuf_type) : bool := bool_decide (t = PBUF_ROM) || bool_decide (t = PBUF_REF).

(** [owned] are the references held by clients, one entry each. *)
Record own (L : gmap Z link) (pool refs owned : list Z) (pool_all refs_all : list Z) : Prop := {
  ow_count : ∀ a k, L !! a = Some k → a ≠ 0 ∧ l_ref k = cnt a (owned ++ pts L) ∧ 0 < l_ref k < 2 ^ 16;
  ow_live : ∀ a, a ∈ owned ++ pts L → a ≠ 0 → is_Some (L !! a);
  ow_chain : ∀ a, is_Some (L !! a) → ∃ l, chain L a l;
  ow_pool : pool ++ keys is_pool L ≡ₚ pool_all;
  ow_refs : refs ++ keys is_ref L ≡ₚ refs_all;
  ow_all : NoDup (0 :: pool_all ++ refs_all);
  ow_ram : ∀ a k, L !! a = Some k → k.2 = PBUF_RAM → a ∉ pool_all ++ refs_all }.

Lemma cnt_nil a : cnt a [] = 0.
Proof. done. Qed.
Lemma cnt_cons a x l : cnt a (x :: l) = (if decide (x = a) then 1 else 0) + cnt a l.
Proof. unfold cnt. rewrite filter_cons. destruct (decide (x = a)); cbn [length]; lia. Qed.
Lemma cnt_app a l l' : cnt a (l ++ l') = cnt a l + cnt a l'.
Proof. unfold cnt. rewrite filter_app, length_app. lia. Qed.
#[export] Instance cnt_perm a : Proper ((≡ₚ) ==> eq) (cnt a).
Proof. intros l l' E. unfold cnt. by rewrite E. Qed.
Lemma cnt_nonneg a l : 0 <= cnt a l.
Proof. unfold cnt. lia. Qed.
Lemma cnt_in a l : a ∈ l ↔ 0 < cnt a l.
Proof.
  induction l as [|x l IH].
  - rewrite cnt_nil. split; [by intros ?%not_elem_of_nil|lia].
  - rewrite elem_of_cons, cnt_cons, IH. pose proof (cnt_nonneg a l). destruct (decide (x = a)); [|naive_solver lia].
    split; [lia|]. intros _. by left.
Qed.

Lemma to_list_at (L : gmap Z link) a k : L !! a = Some k →
  map_to_list L ≡ₚ (a, k) :: map_to_list (delete a L).
Proof.
  intros H. rewrite <- (insert_delete_id L a k H) at 1. apply map_to_list_insert, lookup_delete_eq.
Qed.
Lemma pts_at L a k : L !! a = Some k → pts L ≡ₚ l_next k :: pts (delete a L).
Proof. intros H. unfold pts. by rewrite (to_list_at L a k H). Qed.
Lemma pts_insert L a k : pts (<[a := k]> L) ≡ₚ l_next k :: pts (delete a L).
Proof.
  rewrite (pts_at (<[a := k]> L) a k) by apply lookup_insert_eq. by rewrite delete_insert_eq.
Qed.
Lemma keys_at P L a k : L !! a = Some k →
  keys P L ≡ₚ (if P k.2 then [a] else []) ++ keys P (delete a L).
Proof.
  intros H. unfold keys. rewrite (to_list_at L a k H), filter_cons. cbn [fst snd].
  destruct (P k.2); [by rewrite decide_True|by rewrite decide_False].
Qed.
Lemma keys_insert P L a k : keys P (<[a := k]> L) ≡ₚ (if P k.2 then [a] else []) ++ keys P (delete a L).
Proof.
  rewrite (keys_at P (<[a := k]> L) a k) by apply lookup_insert_eq. by rewrite delete_insert_eq.
Qed.
(** Replacing a header by one of the same type keeps the pools. *)
Lemma keys_same P L a k k' : L !! a = Some k → k'.2 = k.2 → keys P (<[a := k']> L) ≡ₚ keys P L.
Proof. intros H E. rewrite keys_insert, (keys_at P L a k H). by rewrite E. Qed.

Lemma ram_same (P : Z → Prop) (L : gmap Z link) p k k' :
  (∀ a k, L !! a = Some k → k.2 = PBUF_RAM → P a) → L !! p = Some k → k'.2 = k.2 →
  ∀ a k0, <[p := k']> L !! a = Some k0 → k0.2 = PBUF_RAM → P a.
Proof.
  intros H Hk E a k0 Ha Ht. destruct (decide (a = p)) as [->|].
  - rewrite lookup_insert_eq in Ha. injection Ha as <-. apply (H p k); congruence.
  - rewrite lookup_insert_ne in Ha by done. by apply (H a k0).
Qed.

(** *** Chains *)

Lemma chain_det L l : ∀ p l', chain L p l → chain L p l' → l = l'.
Proof.
  induction l as [|a l IH]; intros p l' H H'.
  - destruct l' as [|b l']; [done|]. cbn in *. destruct H' as (-> & ? & _). done.
  - destruct H as (-> & Ha & k & Hk & Hc). destruct l' as [|b l']; [by cbn in H'|].
    destruct H' as (-> & _ & k' & Hk' & Hc'). simplify_eq. f_equal. by eapply IH.
Qed.
Lemma chain_live L l : ∀ p a, chain L p l → a ∈ l → ∃ k, L !! a = Some k.
Proof.
  induction l as [|b l IH]; intros p a H Ha; [by apply not_elem_of_nil in Ha|].
  destruct H as (-> & _ & k & Hk & Hc). apply elem_of_cons in Ha as [->|Ha]; eauto.
Qed.
(** Every member but the first is pointed to. *)
Lemma chain_pts L l : ∀ p a, chain L p l → a ∈ tail l → a ∈ pts L.
Proof.
  induction l as [|b l IH]; intros p a H Ha; [by apply not_elem_of_nil in Ha|].
  destruct H as (-> & _ & k & Hk & Hc). cbn in Ha. destruct l as [|c l]; [by apply not_elem_of_nil in Ha|].
  pose proof Hc as (E & _). apply elem_of_cons in Ha as [->|Ha].
  - rewrite (pts_at L b k Hk), E. constructor.
  - eapply IH; [exact Hc|]. exact Ha.
Qed.
Lemma chain_suffix L l : ∀ p a, chain L p l → a ∈ l → ∃ l1 l2, l = l1 ++ a :: l2 ∧ chain L a (a :: l2).
Proof.
  induction l as [|b l IH]; intros p a H Ha; [by apply not_elem_of_nil in Ha|].
  destruct (decide (a = b)) as [->|].
  - exists [], l. split; [done|]. by destruct H as (-> & H).
  - apply elem_of_cons in Ha as [?|Ha]; [done|]. destruct H as (_ & _ & k & _ & Hc).
    destruct (IH _ _ Hc Ha) as (l1 & l2 & -> & H2). by exists (b :: l1), l2.
Qed.
Lemma chain_nodup L l : ∀ p, chain L p l → NoDup l.
Proof.
  induction l as [|a l IH]; intros p H; [constructor|]. pose proof H as (-> & _ & k & Hk & Hc).
  constructor; [|by eapply IH]. intros Hin.
  destruct (chain_suffix _ _ _ _ Hc Hin) as (l1 & l2 & -> & H2).
  pose proof (chain_det _ _ _ _ H H2) as E. injection E as E. apply (f_equal length) in E.
  rewrite length_app in E. cbn in E. lia.
Qed.
(** A chain does not notice changes elsewhere. *)
Lemma pchain_frame L L' l : ∀ p, chain L p l → (∀ a, a ∈ l → L' !! a = L !! a) → chain L' p l.
Proof.
  induction l as [|a l IH]; intros p H E; [done|]. destruct H as (-> & Ha & k & Hk & Hc).
  cbn. split; [done|]. split; [done|]. exists k. rewrite E by constructor. split; [done|].
  apply IH; [done|]. intros b Hb. apply E. by constructor.
Qed.
Lemma chain_same_next L a k k' l : ∀ p, L !! a = Some k → l_next k' = l_next k → chain L p l →
  chain (<[a := k']> L) p l.
Proof.
  induction l as [|b l IH]; intros p Hk E H; [done|]. destruct H as (-> & Hb & kb & Hkb & Hc).
  cbn. split; [done|]. split; [done|]. destruct (decide (a = b)) as [->|Hne].
  - exists k'. rewrite lookup_insert_eq. split; [done|]. rewrite E. simplify_eq. by apply IH.
  - exists kb. rewrite lookup_insert_ne by done. split; [done|]. by apply IH.
Qed.

(** ** One change at a time *)

Section change.
  Context (L : gmap Z link) (pool refs pool_all refs_all : list Z).
  Notation own L owned := (own L pool refs owned pool_all refs_all).

Lemma own_perm owned owned' : owned ≡ₚ owned' → own L owned → own L owned'.
  Proof.
    intros E [H1 H2 H3 H4 H5 H6 H7]. split; try done.
    - intros a k Hk. rewrite <- E. by apply H1.
    - intros a. rewrite <- E. apply H2.
  Qed.
Lemma own_null owned : own L owned ↔ own L (0 :: owned).
  Proof.
    split; intros [H1 H2 H3 H4 H5 H6 H7]; split; try done.
    - intros a k Hk. destruct (H1 a k Hk) as (Ha & Hr & Hb). cbn [app]. rewrite cnt_cons, decide_False by done. auto.
    - intros a Ha Hn. apply H2; [|done]. cbn [app] in Ha. by apply elem_of_cons in Ha as [->|Ha].
    - intros a k Hk. destruct (H1 a k Hk) as (Ha & Hr & Hb). cbn [app] in Hr.
      rewrite cnt_cons, decide_False in Hr by done. auto.
    - intros a Ha Hn. apply H2; [|done]. cbn [app]. by constructor.
  Qed.

  (** A change that keeps the pointer: the count goes from [r] to [r']. *)
Lemma own_recount owned owned' p n r r' ty : own L owned → L !! p = Some (n, r, ty) →
    (∀ a, a ≠ p → cnt a (owned' ++ pts L) = cnt a (owned ++ pts L)) →
    r' = cnt p (owned' ++ pts L) → 0 < r' < 2 ^ 16 → own (<[p := (n, r', ty)]> L) owned'.
  Proof.
    intros [H1 H2 H3 H4 H5 H6 H7] Hk Ho Hr Hb.
    assert (Hp : pts (<[p := (n, r', ty)]> L) ≡ₚ pts L) by (by rewrite pts_insert, (pts_at L p _ Hk)).
    split; rewrite ?Hp; try done.
    - intros a k Ha. rewrite Hp. destruct (decide (a = p)) as [->|Hne].
      + rewrite lookup_insert_eq in Ha. injection Ha as <-. destruct (H1 p _ Hk) as (? & _). auto.
      + rewrite lookup_insert_ne in Ha by done. rewrite Ho by done. by apply H1.
    - intros a Ha Hn. rewrite Hp in Ha. destruct (decide (a = p)) as [->|Hne].
      + rewrite lookup_insert_eq. eauto.
      + rewrite lookup_insert_ne by done. apply H2; [|done].
        apply cnt_in. rewrite <- Ho by done. by apply cnt_in.
    - intros a Ha. assert (is_Some (L !! a)) as (l & Hl)%H3.
      { destruct (decide (a = p)) as [->|]; [eauto|by rewrite lookup_insert_ne in Ha]. }
      exists l. by apply chain_same_next with (n, r, ty).
    - by rewrite (keys_same _ _ _ _ _ Hk).
    - by rewrite (keys_same _ _ _ _ _ Hk).
    - by apply (ram_same _ _ _ _ _ H7 Hk).
  Qed.

  (** [pbuf_ref], and a [pbuf_free] that is not the last. *)
Lemma own_ref owned p n r ty : own L owned → L !! p = Some (n, r, ty) → r < 2 ^ 16 - 1 →
    own (<[p := (n, r + 1, ty)]> L) (p :: owned).
  Proof.
    intros H Hk Hb. destruct (ow_count _ _ _ _ _ _ H p _ Hk) as (_ & Hr & Hrb). cbn in Hr, Hrb.
    apply own_recount with owned r; [done..| | |lia].
    - intros a Ha. cbn [app]. by rewrite cnt_cons, decide_False by done.
    - cbn [app]. rewrite cnt_cons, decide_True by done. lia.
  Qed.
Lemma own_unref owned p n r ty : own L (p :: owned) → L !! p = Some (n, r, ty) → r ≠ 1 →
    own (<[p := (n, r - 1, ty)]> L) owned.
  Proof.
    intros H Hk Hb. destruct (ow_count _ _ _ _ _ _ H p _ Hk) as (_ & Hr & Hrb).
    cbn [l_ref fst snd app] in Hr, Hrb. rewrite cnt_cons, decide_True in Hr by done.
    apply own_recount with (p :: owned) r; [done..| |lia|lia].
    intros a Ha. cbn [app]. by rewrite cnt_cons, decide_False by done.
  Qed.

  (** Cutting a link: the pointer becomes a reference of the caller. *)
Lemma own_cut owned q n r ty : own L owned → L !! q = Some (n, r, ty) →
    own (<[q := (0, r, ty)]> L) (n :: owned).
  Proof.
    intros [H1 H2 H3 H4 H5 H6 H7] Hk.
    assert (Hp : ∀ a, a ≠ 0 → cnt a ((n :: owned) ++ pts (<[q := (0, r, ty)]> L)) = cnt a (owned ++ pts L)).
    { intros a Ha. rewrite pts_insert, (pts_at L q _ Hk). cbn [l_next fst snd app].
      rewrite !cnt_cons, !cnt_app, !cnt_cons. destruct (decide (0 = a)); [lia|]. lia. }
    split; try done.
    - intros a k Ha. destruct (decide (a = q)) as [->|Hne].
      + rewrite lookup_insert_eq in Ha. injection Ha as <-. destruct (H1 q _ Hk) as (? & Hr & ?).
        rewrite Hp by done. auto.
      + rewrite lookup_insert_ne in Ha by done. destruct (H1 a _ Ha) as (? & ? & ?).
        rewrite Hp by done. auto.
    - intros a Ha Hn. apply cnt_in in Ha. rewrite Hp in Ha by done. apply cnt_in in Ha.
      destruct (decide (a = q)) as [->|]; [rewrite lookup_insert_eq; eauto|].
      rewrite lookup_insert_ne by done. by apply H2.
    - intros a Ha. assert (is_Some (L !! a)) as (l & Hl)%H3.
      { destruct (decide (a = q)) as [->|]; [eauto|by rewrite lookup_insert_ne in Ha]. }
      revert a Ha Hl. induction l as [|b l IH]; intros a Ha Hl; [by exists []|].
      destruct Hl as (-> & Hb & k & Hkb & Hc). destruct (decide (b = q)) as [->|Hne].
      + exists [q]. cbn. split; [done|]. split; [done|]. exists (0, r, ty). by rewrite lookup_insert_eq.
      + destruct (decide (l_next k = 0)) as [E0|Hn0].
        * exists [b]. cbn. split; [done|]. split; [done|]. exists k. by rewrite lookup_insert_ne.
        * destruct (IH (l_next k)) as [l' Hl']; [|done|].
          { destruct l as [|c l]; [by cbn in Hc|]. destruct Hc as (Ec & _ & kc & Hkc & _). rewrite Ec.
            destruct (decide (c = q)) as [->|]; [rewrite lookup_insert_eq; eauto|].
            rewrite lookup_insert_ne by done. eauto. }
          exists (b :: l'). cbn. split; [done|]. split; [done|]. exists k.
          by rewrite lookup_insert_ne by done.
    - by rewrite (keys_same _ _ _ _ _ Hk).
    - by rewrite (keys_same _ _ _ _ _ Hk).
    - by apply (ram_same _ _ _ _ _ H7 Hk).
  Qed.

  (** Making a link at the end of a chain: the caller's reference becomes the pointer. *)
Lemma own_link owned q t r ty lt : own L (t :: owned) → L !! q = Some (0, r, ty) →
    chain L t lt → q ∉ lt → own (<[q := (t, r, ty)]> L) owned.
  Proof.
    intros [H1 H2 H3 H4 H5 H6 H7] Hk Hlt Hq.
    assert (Hp : ∀ a, a ≠ 0 → cnt a (owned ++ pts (<[q := (t, r, ty)]> L)) = cnt a ((t :: owned) ++ pts L)).
    { intros a Ha. rewrite pts_insert, (pts_at L q _ Hk). cbn [l_next fst snd app].
      rewrite !cnt_app, !cnt_cons, !cnt_app, !cnt_cons. destruct (decide (0 = a)); [lia|]. lia. }
    assert (Htail : chain (<[q := (t, r, ty)]> L) t lt).
    { apply pchain_frame with L; [done|]. intros a Ha. apply lookup_insert_ne. by intros ->. }
    split; try done.
    - intros a k Ha. destruct (decide (a = q)) as [->|Hne].
      + rewrite lookup_insert_eq in Ha. injection Ha as <-. destruct (H1 q _ Hk) as (? & Hr & ?).
        rewrite Hp by done. auto.
      + rewrite lookup_insert_ne in Ha by done. destruct (H1 a _ Ha) as (? & ? & ?).
        rewrite Hp by done. auto.
    - intros a Ha Hn. apply cnt_in in Ha. rewrite Hp in Ha by done. apply cnt_in in Ha.
      destruct (decide (a = q)) as [->|]; [rewrite lookup_insert_eq; eauto|].
      rewrite lookup_insert_ne by done. by apply H2.
    - intros a Ha. assert (is_Some (L !! a)) as (l & Hl)%H3.
      { destruct (decide (a = q)) as [->|]; [eauto|by rewrite lookup_insert_ne in Ha]. }
      clear Ha. revert a Hl. induction l as [|b l IH]; intros a Hl; [by exists []|].
      destruct Hl as (-> & Hb & k & Hkb & Hc). destruct (decide (b = q)) as [->|Hne].
      + exists (q :: lt). cbn. split; [done|]. split; [done|]. exists (t, r, ty). by rewrite lookup_insert_eq.
      + destruct (IH (l_next k) Hc) as [l' Hl'].
        exists (b :: l'). cbn. split; [done|]. split; [done|]. exists k.
        by rewrite lookup_insert_ne by done.
    - by rewrite (keys_same _ _ _ _ _ Hk).
    - by rewrite (keys_same _ _ _ _ _ Hk).
    - by apply (ram_same _ _ _ _ _ H7 Hk).
  Qed.
End change.

(** A header that was not live. *)
Lemma own_fresh L pool refs owned pa ra pool' refs' p ty : own L pool refs owned pa ra →
  L !! p = None → p ≠ 0 →
  pool ≡ₚ (if is_pool ty then [p] else []) ++ pool' →
  refs ≡ₚ (if is_ref ty then [p] else []) ++ refs' →
  (ty = PBUF_RAM → p ∉ pa ++ ra) →
  own (<[p := (0, 1, ty)]> L) pool' refs' (p :: owned) pa ra.
Proof.
  intros [H1 H2 H3 H4 H5 H6 H7] Hp Hp0 Epool Erefs Hram.
  assert (Hd : delete p L = L) by (by apply delete_id).
  assert (Hpt : ∀ a, a ≠ 0 → cnt a ((p :: owned) ++ pts (<[p := (0, 1, ty)]> L))
                    = (if decide (p = a) then 1 else 0) + cnt a (owned ++ pts L)).
  { intros a Ha. rewrite pts_insert, Hd. cbn [l_next fst snd app].
    rewrite !cnt_cons, !cnt_app, !cnt_cons. destruct (decide (0 = a)); [lia|]. lia. }
  assert (Hzero : cnt p (owned ++ pts L) = 0).
  { pose proof (cnt_nonneg p (owned ++ pts L)). destruct (decide (0 < cnt p (owned ++ pts L))) as [Hc|]; [|lia].
    apply cnt_in, H2 in Hc as [k Hk]; [congruence|done]. }
  split; try done.
  - intros a k Ha. destruct (decide (a = p)) as [->|Hne].
    + rewrite lookup_insert_eq in Ha. injection Ha as <-. rewrite Hpt, decide_True by done.
      cbn. rewrite Hzero. lia.
    + rewrite lookup_insert_ne in Ha by done. destruct (H1 a _ Ha) as (? & ? & ?).
      rewrite Hpt, decide_False by done. split; [done|]. lia.
  - intros a Ha Hn. apply cnt_in in Ha. rewrite Hpt in Ha by done.
    destruct (decide (p = a)) as [->|]; [rewrite lookup_insert_eq; eauto|].
    rewrite lookup_insert_ne by done. apply H2; [|done]. apply cnt_in. lia.
  - intros a Ha. destruct (decide (a = p)) as [->|Hne].
    + exists [p]. cbn. split; [done|]. split; [done|]. exists (0, 1, ty). by rewrite lookup_insert_eq.
    + rewrite lookup_insert_ne in Ha by done. destruct (H3 a Ha) as [l Hl]. exists l.
      apply pchain_frame with L; [done|]. intros b Hb. apply lookup_insert_ne.
      intros ->. destruct (chain_live _ _ _ _ Hl Hb). congruence.
  - rewrite keys_insert, Hd, <- H4, Epool. cbn [snd]. destruct (is_pool ty); [|done].
    cbn. by rewrite Permutation_middle.
  - rewrite keys_insert, Hd, <- H5, Erefs. cbn [snd]. destruct (is_ref ty); [|done].
    cbn. by rewrite Permutation_middle.
  - intros a k Ha Ht. destruct (decide (a = p)) as [->|Hne].
    + rewrite lookup_insert_eq in Ha. injection Ha as <-. by apply Hram.
    + rewrite lookup_insert_ne in Ha by done. by apply (H7 a k).
Qed.

(** The last reference goes: the header's pointer becomes a reference of the caller. *)
Lemma own_release L pool refs owned pa ra p n ty : own L pool refs (p :: owned) pa ra →
  L !! p = Some (n, 1, ty) →
  own (delete p L) ((if is_pool ty then [p] else []) ++ pool)
    ((if is_ref ty then [p] else []) ++ refs) (n :: owned) pa ra.
Proof.
  intros [H1 H2 H3 H4 H5 H6 H7] Hk. destruct (H1 p _ Hk) as (Hp0 & Hr & _).
  cbn [app l_ref fst snd] in Hr. rewrite cnt_cons, decide_True in Hr by done.
  assert (Hzero : cnt p (owned ++ pts L) = 0) by lia.
  assert (Hpt : ∀ a, cnt a ((n :: owned) ++ pts (delete p L)) = cnt a (owned ++ pts L)).
  { intros a. rewrite (pts_at L p _ Hk). cbn [l_next fst snd app].
    rewrite !cnt_cons, !cnt_app, !cnt_cons. lia. }
  split; try done.
  - intros a k Ha. apply lookup_delete_Some in Ha as [Hne Ha]. destruct (H1 a _ Ha) as (? & Hra & ?).
    cbn [app] in Hra. rewrite cnt_cons, decide_False in Hra by done. rewrite Hpt. auto.
  - intros a Ha Hn. apply cnt_in in Ha. rewrite Hpt in Ha.
    rewrite lookup_delete_ne by (intros ->; lia).
    apply H2; [|done]. cbn [app]. constructor. by apply cnt_in.
  - intros a Ha. assert (a ≠ p) as Hne by (intros ->; by rewrite lookup_delete_eq in Ha; destruct Ha).
    rewrite lookup_delete_ne in Ha by done. destruct (H3 a Ha) as [l Hl]. exists l.
    apply pchain_frame with L; [done|]. intros b Hb. apply lookup_delete_ne. intros ->.
    destruct l as [|c l]; [by apply not_elem_of_nil in Hb|]. pose proof Hl as (-> & _).
    apply elem_of_cons in Hb as [?|Hb]; [done|].
    assert (b ∈ pts L) as Hin by (eapply chain_pts; [exact Hl|done]).
    apply cnt_in in Hin. rewrite cnt_app in Hzero. pose proof (cnt_nonneg b owned). lia.
  - rewrite <- H4, (keys_at is_pool L p _ Hk). cbn [snd]. destruct (is_pool ty); [|done].
    cbn. by rewrite Permutation_middle.
  - rewrite <- H5, (keys_at is_ref L p _ Hk). cbn [snd]. destruct (is_ref ty); [|done].
    cbn. by rewrite Permutation_middle.
  - intros a k Ha. apply lookup_delete_Some in Ha as [_ Ha]. by apply H7.
Qed.

(** ** The operations *)

Definition lens_ok (s : pbufs) : Prop :=
  ∀ a h, hdrs s !! a = Some h → 0 <= len h < 2 ^ 16 ∧ 0 <= tot_len h < 2 ^ 16.

Lemma links_at s a h : hdrs s !! a = Some h → links s !! a = Some (link_of h).
Proof. intros H. unfold links. by rewrite lookup_fmap, H. Qed.
Lemma links_Some s a k : links s !! a = Some k → ∃ h, hdrs s !! a = Some h ∧ link_of h = k.
Proof. unfold links. rewrite lookup_fmap. intros (h & ? & ?)%fmap_Some. eauto. Qed.
Lemma links_put s a h : links (put a h s) = <[a := link_of h]> (links s).
Proof. unfold links, put. cbn. apply fmap_insert. Qed.
Lemma links_put_same s a h h' : hdrs s !! a = Some h → link_of h' = link_of h → links (put a h' s) = links s.
Proof. intros H E. rewrite links_put. apply insert_id. by rewrite (links_at _ _ _ H), E. Qed.
Lemma put_at s a h : hdrs (put a h s) !! a = Some h.
Proof. apply lookup_insert_eq. Qed.
Lemma put_ne s a b h : b ≠ a → hdrs (put a h s) !! b = hdrs s !! b.
Proof. intros. by apply lookup_insert_ne. Qed.
Lemma put_put s a h h' : put a h (put a h' s) = put a h s.
Proof. unfold put. cbn. by rewrite insert_insert_eq. Qed.
Lemma put_id s a h : hdrs s !! a = Some h → put a h s = s.
Proof. intros H. destruct s. unfold put. cbn in *. by rewrite insert_id. Qed.
Lemma lens_put s a h : lens_ok s → 0 <= len h < 2 ^ 16 → 0 <= tot_len h < 2 ^ 16 → lens_ok (put a h s).
Proof.
  intros H Hl Ht b hb Hb. destruct (decide (b = a)) as [->|Hne].
  - rewrite put_at in Hb. by injection Hb as <-.
  - rewrite put_ne in Hb by done. by apply (H b).
Qed.
Lemma u16_range x : 0 <= u16 x < 2 ^ 16.
Proof. unfold u16. apply Z.mod_pos_bound. lia. Qed.

Lemma pchain_length s p l : chain (links s) p l → (length l <= size (hdrs s))%nat.
Proof.
  intros H. rewrite <- (map_size_fmap link_of (hdrs s)). change (link_of <$> hdrs s) with (links s).
  assert (size (links s) = length (map fst (map_to_list (links s)))) as -> by (by rewrite length_map, length_map_to_list).
  apply submseteq_length, NoDup_submseteq; [by eapply chain_nodup|].
  intros a Ha. destruct (chain_live _ _ _ _ H Ha) as [k Hk].
  apply list_elem_of_fmap. exists (a, k). split; [done|]. by apply elem_of_map_to_list.
Qed.

Section ops.
  Context (pa ra : list Z).
  (** The clients hold [owned], and the headers are well formed. *)
Definition owns (s : pbufs) (owned : list Z) : Prop :=
    own (links s) (pool_free s) (pbuf_free_list s) owned pa ra ∧ lens_ok s.

Lemma owns_perm s owned owned' : owned ≡ₚ owned' → owns s owned → owns s owned'.
  Proof. intros E [H ?]. split; [by eapply own_perm|done]. Qed.
Lemma owns_null s owned : owns s owned ↔ owns s (0 :: owned).
  Proof. unfold owns. by rewrite own_null. Qed.
Lemma owns_hdr s owned p : owns s owned → p ∈ owned → p ≠ 0 → ∃ h, hdrs s !! p = Some h.
  Proof.
    intros [H _] Hp H0. destruct (ow_live _ _ _ _ _ _ H p) as [k Hk]; [apply elem_of_app; by left|done|].
    apply links_Some in Hk as (h & ? & _). eauto.
  Qed.
  (** Only lengths, payload and flags change. *)
Lemma owns_put_same s owned a h h' : owns s owned → hdrs s !! a = Some h → link_of h' = link_of h →
    0 <= len h' < 2 ^ 16 → 0 <= tot_len h' < 2 ^ 16 → owns (put a h' s) owned.
  Proof.
    intros [H Hl] Ha E ??. split; [|by apply lens_put]. by rewrite (links_put_same _ _ _ _ Ha E).
  Qed.

Lemma free_loop_spec fuel : ∀ s p owned count, owns s (p :: owned) → (size (hdrs s) < fuel)%nat →
    ∃ s' c, free_loop fuel p count s = Some (s', c) ∧ owns s' owned ∧
      ∀ l a, chain (links s) p l → a ∉ l → hdrs s' !! a = hdrs s !! a.
  Proof.
    induction fuel as [|fuel IH]; intros s p owned count H Hf; [lia|]. cbn [free_loop].
    destruct (Z.eqb_spec p 0) as [->|Hp].
    { exists s, count. split; [done|]. split; [by apply owns_null|done]. }
    destruct (owns_hdr s (p :: owned) p H) as [h Hh]; [by constructor|done|]. rewrite Hh.
    cbn [mbind option_bind]. destruct H as [H Hl]. pose proof (links_at _ _ _ Hh) as Hk.
    destruct (ow_count _ _ _ _ _ _ H p _ Hk) as (_ & _ & Hr). cbn in Hr.
    rewrite u16_small by lia. destruct (Z.eqb_spec (ref h - 1) 0) as [E|E].
    - assert (Hk1 : links s !! p = Some (next h, 1, type h)) by (etransitivity; [exact Hk|]; unfold link_of; do 3 f_equal; lia).
      pose proof (own_release _ _ _ _ _ _ _ _ _ H Hk1) as H1.
      assert (Hrel : owns (release p h s) (next h :: owned)).
      { split.
        - assert (El : links (release p h s) = delete p (links s)).
          { unfold release, links. destruct (type h); cbn; apply fmap_delete. }
          rewrite El. unfold release. by destruct (type h).
        - intros a h' Ha. unfold release in Ha. apply (Hl a).
          destruct (type h); cbn in Ha; by apply lookup_delete_Some in Ha as [_ Ha]. }
      assert (Hsz : (size (hdrs (release p h s)) < fuel)%nat).
      { assert (Es : hdrs (release p h s) = delete p (hdrs s)) by (unfold release; by destruct (type h)).
        rewrite Es, map_size_delete_Some by eauto.
        assert (size (hdrs s) ≠ 0%nat) by (intros E0%map_size_empty_inv; by rewrite E0, lookup_empty in Hh).
        lia. }
      destruct (IH _ _ _ (u8 (count + 1)) Hrel Hsz) as (s' & c & E' & H' & Hframe).
      exists s', c. split; [done|]. split; [done|]. intros l a Hc Ha.
      destruct l as [|b l]; [by cbn in Hc|]. pose proof Hc as (<- & _ & k & Hkk & Hn).
      assert (k = link_of h) as -> by congruence. cbn [link_of l_next fst] in Hn.
      apply not_elem_of_cons in Ha as [Hne Ha]. rewrite (Hframe l a); [|eapply pchain_frame; [exact Hn|]|done].
      + unfold release. destruct (type h); cbn; by apply lookup_delete_ne.
      + intros b Hb. unfold links, release. pose proof (chain_nodup _ _ _ Hc) as Hnd.
        apply NoDup_cons in Hnd as [Hnd _]. assert (b ≠ p) by (by intros ->).
        destruct (type h); cbn; rewrite fmap_delete; by apply lookup_delete_ne.
    - exists (put p (set_ref (ref h - 1) h) s), count. split; [done|]. split.
      + split; [|apply lens_put; [done|apply (Hl p h Hh)..]].
        rewrite links_put. by apply (own_unref _ _ _ _ _ _ _ (next h) (ref h) (type h) H Hk); lia.
      + intros l a Hc Ha. apply put_ne. intros ->. destruct l as [|b l]; [by cbn in Hc|].
        destruct Hc as (<- & _). apply Ha. constructor.
  Qed.
Lemma pbuf_free_spec s p owned : owns s (p :: owned) →
    ∃ s' c, pbuf_free p s = Some (s', c) ∧ owns s' owned ∧
      ∀ l a, chain (links s) p l → a ∉ l → hdrs s' !! a = hdrs s !! a.
  Proof. intros H. apply free_loop_spec; [done|lia]. Qed.

Lemma pbuf_ref_spec s p h owned : owns s owned → hdrs s !! p = Some h → ref h < 2 ^ 16 - 1 → p ≠ 0 →
    ∃ s', pbuf_ref p s = Some s' ∧ owns s' (p :: owned).
  Proof.
    intros [H Hl] Hh Hr Hp. unfold pbuf_ref. destruct (Z.eqb_spec p 0); [done|]. rewrite Hh.
    cbn [mbind option_bind]. eexists. split; [done|]. pose proof (links_at _ _ _ Hh) as Hk.
    destruct (ow_count _ _ _ _ _ _ H p _ Hk) as (_ & _ & Hb). cbn in Hb.
    split; [|apply lens_put; [done|apply (Hl p h Hh)..]].
    rewrite links_put, u16_small by lia. by apply own_ref.
  Qed.

Lemma cat_loop_spec lp : ∀ fuel s p t lt owned, owns s (t :: owned) → t ≠ 0 →
    chain (links s) p lp → p ≠ 0 → chain (links s) t lt → (∀ a, a ∈ lp → a ∉ lt) →
    (length lp <= S fuel)%nat →
    ∃ s', cat_loop fuel p t s = Some s' ∧ owns s' owned ∧
      ∀ a, ref <$> hdrs s' !! a = ref <$> hdrs s !! a.
  Proof.
    induction lp as [|b lp IH]; intros fuel s p t lt owned H Ht Hc Hp Hlt Hd Hf; [done|].
    pose proof Hc as (<- & _ & k & Hk & Hn). destruct (links_Some _ _ _ Hk) as (h & Hh & <-).
    destruct (owns_hdr s (t :: owned) t H) as [ht Hht]; [by constructor|done|].
    cbn [link_of l_next fst] in Hn.
    set (s1 := put p (set_lens (u16 (tot_len h + tot_len ht)) (len h) h) s).
    assert (Hl1 : links s1 = links s) by (by apply links_put_same with h).
    assert (H1 : owns s1 (t :: owned)).
    { apply owns_put_same with h; try done; [apply (proj2 H p h Hh)|apply u16_range]. }
    assert (Href : ∀ a, ref <$> hdrs s1 !! a = ref <$> hdrs s !! a).
    { intros a. destruct (decide (a = p)) as [->|]; [unfold s1; by rewrite put_at, Hh|].
      unfold s1. by rewrite put_ne. }
    assert (Hs1 : hdrs s1 !! p = Some (set_lens (u16 (tot_len h + tot_len ht)) (len h) h)) by apply put_at.
    assert (Hcat : cat_loop fuel p t s =
      if next h =? 0 then Some (put p (set_next t (set_lens (u16 (tot_len h + tot_len ht)) (len h) h)) s1)
      else match fuel with O => None | S fuel => cat_loop fuel (next h) t s1 end).
    { destruct fuel; cbn [cat_loop]; rewrite Hh; cbn [mbind option_bind]; rewrite Hht; cbn [mbind option_bind];
        fold s1; destruct (next h =? 0); try done; by rewrite Hs1. }
    rewrite Hcat. destruct (Z.eqb_spec (next h) 0) as [E|E].
    - eexists. split; [done|]. split.
      + destruct H1 as [H1 Hlen1]. split.
        * rewrite links_put. rewrite Hl1 in *. unfold link_of at 1. cbn [set_next set_lens next ref type].
          apply (own_link _ _ _ _ _ _ p t (ref h) (type h) lt H1); [|done|].
          { etransitivity; [exact Hk|]. unfold link_of. by rewrite E. }
          apply Hd. constructor.
        * apply lens_put; [done| |]; cbn; [apply (proj2 H p h Hh)|apply u16_range].
      + intros a. destruct (decide (a = p)) as [->|]; [by rewrite put_at, Hh|]. by rewrite put_ne.
    - destruct lp as [|b lp]; [done|]. destruct fuel as [|fuel]; [cbn in Hf; lia|].
      destruct (IH fuel s1 (next h) t lt owned) as (s' & E' & H' & Hr'); try done.
      + by rewrite Hl1.
      + by rewrite Hl1.
      + intros a Ha. apply Hd. by constructor.
      + cbn in *. lia.
      + exists s'. split; [done|]. split; [done|]. intros a. by rewrite Hr'.
  Qed.
Lemma pbuf_cat_spec s h t lh lt owned : owns s (t :: owned) → h ≠ 0 → t ≠ 0 →
    chain (links s) h lh → chain (links s) t lt → (∀ a, a ∈ lh → a ∉ lt) →
    ∃ s', pbuf_cat h t s = Some s' ∧ owns s' owned ∧ ∀ a, ref <$> hdrs s' !! a = ref <$> hdrs s !! a.
  Proof.
    intros H Hh Ht Hlh Hlt Hd. unfold pbuf_cat.
    destruct (Z.eqb_spec h 0); [done|]. destruct (Z.eqb_spec t 0); [done|]. cbn [orb].
    apply cat_loop_spec with lh lt; try done. pose proof (pchain_length _ _ _ Hlh). lia.
  Qed.
  (** *** Allocation *)

Lemma pool_not_live s p l owned : owns s owned → pool_free s = p :: l → p ≠ 0 ∧ links s !! p = None.
  Proof.
    intros [H _] E. pose proof (ow_all _ _ _ _ _ _ H) as Hn. pose proof (ow_pool _ _ _ _ _ _ H) as Hp.
    rewrite E in Hp. pose proof Hn as Hn'. rewrite <- Hp in Hn'. cbn in Hn'.
    apply NoDup_cons in Hn' as [H0 Hn']. split; [intros ->; apply H0; constructor|].
    apply NoDup_cons in Hn' as [Hnp _]. destruct (links s !! p) as [k|] eqn:Hk; [|done]. exfalso.
    assert (p ∈ pa) as Hpa by (rewrite <- Hp; constructor).
    pose proof (keys_at is_pool _ _ _ Hk) as Kp. pose proof (keys_at is_ref _ _ _ Hk) as Kr.
    destruct (k.2) eqn:Ht; cbn in Kp, Kr.
    - apply (ow_ram _ _ _ _ _ _ H p k Hk Ht). apply elem_of_app. by left.
    - apply NoDup_cons in Hn as [_ Hn]. apply NoDup_app in Hn as (_ & Hn & _). apply (Hn p Hpa).
      rewrite <- (ow_refs _ _ _ _ _ _ H), Kr. apply elem_of_app. right. constructor.
    - apply NoDup_cons in Hn as [_ Hn]. apply NoDup_app in Hn as (_ & Hn & _). apply (Hn p Hpa).
      rewrite <- (ow_refs _ _ _ _ _ _ H), Kr. apply elem_of_app. right. constructor.
    - apply Hnp. apply elem_of_app. left. apply elem_of_app. right. rewrite Kp. constructor.
  Qed.
Lemma refs_not_live s p l owned : owns s owned → pbuf_free_list s = p :: l → p ≠ 0 ∧ links s !! p = None.
  Proof.
    intros [H _] E. pose proof (ow_all _ _ _ _ _ _ H) as Hn. pose proof (ow_refs _ _ _ _ _ _ H) as Hp.
    rewrite E in Hp. assert (p ∈ ra) as Hra by (rewrite <- Hp; constructor).
    apply NoDup_cons in Hn as [H0 Hn]. split; [intros ->; apply H0, elem_of_app; by right|].
    apply NoDup_app in Hn as (_ & Hdis & Hn). rewrite <- Hp in Hn. cbn in Hn.
    apply NoDup_cons in Hn as [Hnp _]. destruct (links s !! p) as [k|] eqn:Hk; [|done]. exfalso.
    pose proof (keys_at is_pool _ _ _ Hk) as Kp. pose proof (keys_at is_ref _ _ _ Hk) as Kr.
    destruct (k.2) eqn:Ht; cbn in Kp, Kr.
    - apply (ow_ram _ _ _ _ _ _ H p k Hk Ht). apply elem_of_app. by right.
    - apply Hnp, elem_of_app. right. rewrite Kr. constructor.
    - apply Hnp, elem_of_app. right. rewrite Kr. constructor.
    - apply (Hdis p); [|done]. rewrite <- (ow_pool _ _ _ _ _ _ H), Kp. apply elem_of_app. right. constructor.
  Qed.

  (** One more header from a pool. *)
Lemma owns_from_pool s p l owned h : owns s owned → pool_free s = p :: l → link_of h = (0, 1, PBUF_POOL) →
    0 <= len h < 2 ^ 16 → 0 <= tot_len h < 2 ^ 16 →
    owns (MkPbufs (<[p := h]> (hdrs s)) l (pbuf_free_list s)) (p :: owned).
  Proof.
    intros H E Eh Hl Ht. destruct (pool_not_live s p l owned H E) as [Hp Hnl]. destruct H as [H Hlens].
    split; [|by apply (lens_put s p h)].
    change (links (MkPbufs _ _ _)) with (links (put p h s)). rewrite links_put, Eh.
    eapply own_fresh; [exact H|done|done|by rewrite E|done|done].
  Qed.

Lemma alloc_rest_spec fuel : ∀ rem r s p owned hr, owns s (p :: owned) → hdrs s !! r = Some hr →
    next hr = 0 → rem <= Z.of_nat fuel → rem < 2 ^ 16 →
    ∃ s' ok, alloc_rest fuel rem r s = Some (s', ok) ∧ owns s' (p :: owned).
  Proof.
    induction fuel as [|fuel IH]; intros rem r s p owned hr H Hr Hn Hf Hrem; cbn [alloc_rest];
      (destruct (Z.ltb_spec 0 rem); [|by exists s, true]); [lia|].
    destruct (pool_free s) as [|q l] eqn:E; [by exists s, false|]. rewrite Hr. cbn [mbind option_bind].
    rewrite u16_small by lia. set (lq := Z.min rem PBUF_POOL_BUFSIZE).
    assert (Hlq : 1 <= lq <= rem) by (unfold lq, PBUF_POOL_BUFSIZE; lia).
    set (hq := MkHdr 0 (q + SIZEOF_STRUCT_PBUF) rem lq PBUF_POOL 0 1).
    destruct (pool_not_live s q l _ H E) as [Hq Hnl].
    assert (Hqr : q ≠ r) by (intros ->; by rewrite (links_at _ _ _ Hr) in Hnl).
    assert (Hfresh : owns (MkPbufs (<[q := hq]> (hdrs s)) l (pbuf_free_list s)) (q :: p :: owned)).
    { apply owns_from_pool; try done; cbn; lia. }
    set (s1 := MkPbufs (<[q := hq]> (hdrs s)) l (pbuf_free_list s)) in *.
    set (s2 := MkPbufs (<[q := hq]> (<[r := set_next q hr]> (hdrs s))) l (pbuf_free_list s)).
    assert (E2 : s2 = put r (set_next q hr) s1).
    { unfold s2, put, s1. cbn. by rewrite insert_insert_ne. }
    assert (Hr1 : hdrs s1 !! r = Some hr) by (unfold s1; cbn; by rewrite lookup_insert_ne).
    assert (Hq1 : hdrs s1 !! q = Some hq) by apply lookup_insert_eq.
    assert (H2 : owns s2 (p :: owned)).
    { rewrite E2. destruct Hfresh as [Ho Hl]. split.
      - rewrite links_put. unfold link_of. cbn [set_next next ref type].
        apply (own_link _ _ _ _ _ _ r q (ref hr) (type hr) [q] Ho).
        + etransitivity; [by apply links_at|]. unfold link_of. by rewrite Hn.
        + cbn. split; [done|]. split; [done|]. exists (link_of hq). split; [exact (links_at _ _ _ Hq1)|done].
        + intros ->%list_elem_of_singleton. done.
      - apply lens_put; [done|apply (Hl r hr Hr1)..]. }
    apply (IH (rem - lq) q s2 p owned hq H2); try lia; [apply lookup_insert_eq|done].
  Qed.

  (** The memory [mem_malloc] answers with is not in use and not in a pool. *)
Definition fresh (new : Z) (s : pbufs) : Prop :=
    new ≠ 0 → hdrs s !! new = None ∧ new ∉ pa ++ ra.

Lemma align4_54 layer : 0 <= align4 (layer_offset layer) <= 56.
  Proof. by destruct layer. Qed.

Lemma pbuf_alloc_owns new layer length ty s owned : owns s owned → fresh new s → 0 <= length < 2 ^ 16 →
    ∃ s' p, pbuf_alloc new layer length ty s = Some (s', p) ∧
      owns s' (if p =? 0 then owned else p :: owned).
  Proof.
    intros H Hnew Hlen. unfold pbuf_alloc. destruct ty.
    - destruct (Z.eqb_spec new 0) as [E|E]; [by exists s, 0|].
      destruct (Hnew E) as [Hn Hnp]. eexists _, new. split; [done|].
      destruct (Z.eqb_spec new 0); [done|]. destruct H as [H Hl].
      split; [|by apply lens_put]. rewrite links_put.
      eapply own_fresh; [exact H| |done|done|done|done]. unfold links. by rewrite lookup_fmap, Hn.
    - destruct (pbuf_free_list s) as [|p l] eqn:E; [by exists s, 0|].
      destruct (refs_not_live s p l owned H E) as [Hp Hnl]. eexists _, p. split; [done|].
      destruct (Z.eqb_spec p 0); [done|]. destruct H as [H Hl]. split; [|by apply (lens_put s p)].
      change (links (MkPbufs _ _ _)) with (links (put p (MkHdr 0 0 length length PBUF_ROM 0 1) s)).
      rewrite links_put. eapply own_fresh; [exact H|done|done|done|by rewrite E|done].
    - destruct (pbuf_free_list s) as [|p l] eqn:E; [by exists s, 0|].
      destruct (refs_not_live s p l owned H E) as [Hp Hnl]. eexists _, p. split; [done|].
      destruct (Z.eqb_spec p 0); [done|]. destruct H as [H Hl]. split; [|by apply (lens_put s p)].
      change (links (MkPbufs _ _ _)) with (links (put p (MkHdr 0 0 length length PBUF_REF 0 1) s)).
      rewrite links_put. eapply own_fresh; [exact H|done|done|done|by rewrite E|done].
    - destruct (pool_free s) as [|p l] eqn:E; [by exists s, 0|].
      destruct (pool_not_live s p l owned H E) as [Hp _].
      pose proof (align4_54 layer) as Hal.
      set (lp := Z.min length (PBUF_POOL_BUFSIZE - align4 (layer_offset layer))).
      assert (Hlp : 0 <= lp <= length) by (unfold lp, PBUF_POOL_BUFSIZE; lia).
      set (h := MkHdr 0 (align4 (p + (SIZEOF_STRUCT_PBUF + layer_offset layer))) length lp PBUF_POOL 0 1).
      assert (H1 : owns (MkPbufs (<[p := h]> (hdrs s)) l (pbuf_free_list s)) (p :: owned)).
      { apply owns_from_pool; try done; cbn; lia. }
      destruct (alloc_rest_spec (Z.to_nat length) (length - lp) p _ p owned h H1) as (s' & ok & -> & H');
        [apply lookup_insert_eq|done|lia|lia|]. cbn [mbind option_bind]. destruct ok.
      + exists s', p. split; [done|]. by destruct (Z.eqb_spec p 0).
      + destruct (pbuf_free_spec s' p owned H') as (s2 & c & -> & H2 & _). cbn [mbind option_bind].
        by exists s2, 0.
  Qed.

  (** *** Lengths and dechaining *)

Lemma pbuf_header_owns p inc s owned : owns s owned → p ∈ owned → p ≠ 0 →
    ∃ s' r, pbuf_header p inc s = Some (s', r) ∧ owns s' owned.
  Proof.
    intros H Hp Hp0. destruct (owns_hdr s owned p H Hp Hp0) as [h Hh]. unfold pbuf_header.
    destruct ((inc =? 0) || (p =? 0)); [by exists s, 0|]. rewrite Hh. cbn [mbind option_bind].
    destruct ((inc <? 0) && _); [by exists s, 1|].
    assert (Hd : owns (put p (set_payload (payload h - inc)
                 (set_lens (u16 (tot_len h + inc)) (u16 (len h + inc)) h)) s) owned).
    { apply owns_put_same with h; try done; apply u16_range. }
    destruct (type h); case_match; eauto.
  Qed.

Lemma pbuf_dechain_owns p s owned : owns s owned → p ∈ owned → p ≠ 0 →
    ∃ s' r, pbuf_dechain p s = Some (s', r) ∧ owns s' owned.
  Proof.
    intros H Hp Hp0. destruct (owns_hdr s owned p H Hp Hp0) as [h Hh]. unfold pbuf_dechain.
    rewrite Hh. cbn [mbind option_bind]. destruct (Z.eqb_spec (next h) 0) as [E|E]; [by exists s, 0|].
    cbn [negb]. pose proof (links_at _ _ _ Hh) as Hk.
    assert (Hq : ∃ hq, hdrs s !! next h = Some hq).
    { destruct (ow_live _ _ _ _ _ _ (proj1 H) (next h)) as [k Hkq]; [|done|].
      - apply elem_of_app. right. rewrite (pts_at _ _ _ Hk). constructor.
      - apply links_Some in Hkq as (hq & ? & _). eauto. }
    destruct Hq as [hq Hq]. rewrite Hq. cbn [mbind option_bind].
    set (s1 := put (next h) (set_lens (u16 (tot_len h - len h)) (len hq) hq) s).
    assert (H1 : owns s1 owned).
    { apply owns_put_same with hq; try done; [apply (proj2 H _ _ Hq)|apply u16_range]. }
    assert (Hpq : p ≠ next h).
    { destruct (ow_chain _ _ _ _ _ _ (proj1 H) p) as [l Hl]; [by eexists|].
      pose proof (chain_nodup _ _ _ Hl) as Hn. destruct l as [|a l]; [done|].
      destruct Hl as (<- & _ & k & Hkk & Hc). assert (k = link_of h) as -> by congruence.
      cbn in Hc. destruct l as [|b l]; [by cbn in Hc|]. destruct Hc as (-> & _).
      apply NoDup_cons in Hn as [Hn _]. intros ->. apply Hn. constructor. }
    assert (Hh1 : hdrs s1 !! p = Some h) by (unfold s1; by rewrite put_ne). rewrite Hh1.
    cbn [mbind option_bind]. set (s2 := put p _ s1).
    assert (H2 : owns s2 (next h :: owned)).
    { destruct H1 as [Ho Hl]. split; [|apply lens_put; [done|apply (Hl p h Hh1)..]].
      unfold s2. rewrite links_put. unfold link_of. cbn [set_lens set_next next ref type].
      apply (own_cut _ _ _ _ _ _ p (next h) (ref h) (type h) Ho). by apply links_at. }
    destruct (pbuf_free_spec s2 _ owned H2) as (s3 & c & -> & H3 & _). cbn [mbind option_bind]. eauto.
  Qed.

  (** *** Shrinking *)

Definition len_at (s : pbufs) (a : Z) : Z := default 0 (len <$> hdrs s !! a).
Definition sum_len (s : pbufs) (l : list Z) : Z := foldr (λ a n, len_at s a + n) 0 l.

Lemma sum_len_cons s a l : sum_len s (a :: l) = len_at s a + sum_len s l.
  Proof. done. Qed.
Lemma sum_len_ext s s' l : (∀ a, len_at s' a = len_at s a) → sum_len s' l = sum_len s l.
  Proof. intros E. unfold sum_len. induction l as [|a l IH]; cbn; [done|]. by rewrite E, IH. Qed.

Lemma realloc_skip_spec lp : ∀ fuel s p rem grow owned, owns s owned → chain (links s) p lp → p ≠ 0 →
    (length lp <= S fuel)%nat → 0 <= rem < 2 ^ 16 → rem <= sum_len s lp →
    ∃ s' q rem', realloc_skip fuel rem grow p s = Some (s', q, rem') ∧ owns s' owned ∧
      links s' = links s ∧ q ∈ lp ∧ 0 <= rem' < 2 ^ 16.
  Proof.
    induction lp as [|b lp IH]; intros fuel s p rem grow owned H Hc Hp Hf Hr Hsum; [done|].
    pose proof Hc as (<- & _ & k & Hk & Hn). destruct (links_Some _ _ _ Hk) as (h & Hh & <-).
    cbn [link_of l_next fst] in Hn.
    assert (Hskip : realloc_skip fuel rem grow p s = if len h <? rem then
        match fuel with O => None | S fuel => realloc_skip fuel (u16 (rem - len h)) grow (next h)
          (put p (set_lens (u16 (tot_len h + u16 grow)) (len h) h) s) end
      else Some (s, p, rem)) by (destruct fuel; cbn [realloc_skip]; by rewrite Hh).
    rewrite Hskip. destruct (Z.ltb_spec (len h) rem) as [E|E].
    - set (s1 := put p (set_lens (u16 (tot_len h + u16 grow)) (len h) h) s).
      destruct (proj2 H p h Hh) as [Hl _].
      assert (Hlen : ∀ a, len_at s1 a = len_at s a).
      { intros a. unfold len_at. destruct (decide (a = p)) as [->|]; [unfold s1; by rewrite put_at, Hh|].
        unfold s1. by rewrite put_ne. }
      assert (Hl1 : links s1 = links s) by (by apply links_put_same with h).
      assert (Hfirst : len_at s p = len h) by (unfold len_at; by rewrite Hh).
      rewrite sum_len_cons, Hfirst in Hsum.
      destruct lp as [|c lp]; [cbn in Hsum; lia|]. pose proof Hn as (Ec & Hc0 & _).
      destruct fuel as [|fuel]; [cbn in Hf; lia|]. rewrite u16_small by lia.
      destruct (IH fuel s1 (next h) (rem - len h) grow owned) as (s' & q & rem' & E' & H' & L' & Hq & Hr').
      + apply owns_put_same with h; try done. apply u16_range.
      + by rewrite Hl1.
      + by rewrite Ec.
      + cbn in *. lia.
      + lia.
      + rewrite (sum_len_ext s s1) by done. lia.
      + exists s', q, rem'. split; [done|]. split; [done|]. split; [by rewrite L'|]. split; [by constructor|done].
    - exists s, p, rem. split; [done|]. split; [done|]. split; [done|]. split; [constructor|done].
  Qed.

  (** Freeing a chain does not notice a header outside it. *)
Lemma free_loop_frame fuel : ∀ s p l q h count s' c, chain (links s) p l → q ∉ l →
    free_loop fuel p count s = Some (s', c) → free_loop fuel p count (put q h s) = Some (put q h s', c).
  Proof.
    induction fuel as [|fuel IH]; intros s p l q h count s' c Hc Hq E; cbn [free_loop] in *;
      (destruct (Z.eqb_spec p 0) as [->|Hp]; [by injection E as <- <-|]); [done|].
    destruct l as [|b l]; [by cbn in Hc|]. pose proof (chain_nodup _ _ _ Hc) as Hnd.
    destruct Hc as (<- & _ & k & Hk & Hn). destruct (links_Some _ _ _ Hk) as (hp & Hh & <-).
    cbn [link_of l_next fst] in Hn. apply not_elem_of_cons in Hq as [Hqp Hq].
    rewrite put_ne by done. rewrite Hh in *. cbn [mbind option_bind] in *.
    destruct (Z.eqb_spec (u16 (ref hp - 1)) 0) as [E0|E0].
    - assert (Er : release p hp (put q h s) = put q h (release p hp s)).
      { unfold release, put. destruct (type hp); cbn; by rewrite delete_insert_ne. }
      rewrite Er. apply IH with l; [|done|done]. eapply pchain_frame; [exact Hn|].
      intros a Ha. apply NoDup_cons in Hnd as [Hnd _]. assert (a ≠ p) by (by intros ->).
      unfold links, release. destruct (type hp); cbn; rewrite fmap_delete; by apply lookup_delete_ne.
    - injection E as <- <-. do 2 f_equal. unfold put. cbn. by rewrite insert_insert_ne.
  Qed.

Lemma pbuf_realloc_owns p new_len s owned lp : owns s owned → p ∈ owned → p ≠ 0 →
    0 <= new_len < 2 ^ 16 → chain (links s) p lp → new_len <= sum_len s lp →
    ∃ s', pbuf_realloc p new_len s = Some s' ∧ owns s' owned.
  Proof.
    intros H Hp Hp0 Hnew Hlp Hsum. destruct (owns_hdr s owned p H Hp Hp0) as [h Hh]. unfold pbuf_realloc.
    rewrite Hh. cbn [mbind option_bind]. destruct (Z.leb_spec (tot_len h) new_len); [by exists s|].
    pose proof (pchain_length _ _ _ Hlp) as Hlen.
    destruct (realloc_skip_spec lp (size (hdrs s)) s p new_len (new_len - tot_len h) owned)
      as (s1 & q & rem & -> & H1 & Hl1 & Hq & Hr); try done; [lia|]. cbn [mbind option_bind].
    destruct (chain_suffix _ _ _ _ Hlp Hq) as (l1 & l2 & _ & Hc). rewrite <- Hl1 in Hc.
    pose proof (chain_nodup _ _ _ Hc) as Hnd. apply NoDup_cons in Hnd as [Hql2 _].
    destruct Hc as (_ & Hq0 & k & Hk & Hn). destruct (links_Some _ _ _ Hk) as (hq & Hhq & <-).
    cbn [link_of l_next fst] in Hn. rewrite Hhq. cbn [mbind option_bind].
    set (h2 := set_lens rem rem hq). set (s2 := put q h2 s1).
    assert (H2 : owns s2 owned) by (by apply owns_put_same with hq).
    assert (Hh2 : hdrs s2 !! q = Some h2) by apply put_at.
    set (s3 := put q (set_next 0 h2) s2).
    assert (H3 : owns s3 (next hq :: owned)).
    { destruct H2 as [Ho Hl]. split; [|by apply lens_put].
      unfold s3. rewrite links_put. unfold link_of. cbn [set_next next ref type].
      apply (own_cut _ _ _ _ _ _ q (next hq) (ref h2) (type h2) Ho). exact (links_at _ _ _ Hh2). }
    change (next h2) with (next hq). destruct (Z.eqb_spec (next hq) 0) as [E|E]; cbn [negb mbind option_bind].
    - rewrite Hh2. cbn [mbind option_bind]. exists s3. split; [done|]. apply owns_null. by rewrite E in H3.
    - assert (Hc3 : chain (links s3) (next hq) l2).
      { apply pchain_frame with (links s1); [done|]. intros a Ha. assert (a ≠ q) by (by intros ->).
        unfold s3, s2. rewrite !links_put, !lookup_insert_ne by done. done. }
      destruct (pbuf_free_spec s3 _ owned H3) as (s4 & c & E4 & H4 & Hfr).
      assert (E2 : pbuf_free (next hq) s2 = Some (put q h2 s4, c)).
      { unfold pbuf_free in *. assert (Es : size (hdrs s2) = size (hdrs s3)).
        { unfold s3, put. cbn [hdrs]. rewrite map_size_insert_Some by eauto. done. }
        rewrite Es. rewrite <- (put_id s2 q h2) at 1 by done.
        rewrite <- (put_put s2 q h2 (set_next 0 h2)).
        by apply free_loop_frame with l2. }
      rewrite E2. cbn [mbind option_bind]. rewrite put_at. cbn [mbind option_bind].
      exists s4. split; [|done]. rewrite put_put. f_equal. apply put_id.
      rewrite (Hfr l2 q Hc3 Hql2). apply put_at.
  Qed.

  (** ** Clients *)

Inductive pop :=
    | PAlloc (new : Z) (layer : pbuf_layer) (length : Z) (ty : pbuf_type)
    | PFree (p : Z) | PRef (p : Z) | PCat (h t : Z) | PChain (h t : Z) | PDechain (p : Z)
    | PRealloc (p new_len : Z) | PHeader (p inc : Z).

Definition ret0 (x : option pbufs) : option (pbufs * Z) := s ← x; Some (s, 0).
Definition do_op (o : pop) (s : pbufs) : option (pbufs * Z) :=
    match o with
    | PAlloc new layer length ty => pbuf_alloc new layer length ty s
    | PFree p => pbuf_free p s
    | PRef p => ret0 (pbuf_ref p s)
    | PCat h t => ret0 (pbuf_cat h t s)
    | PChain h t => ret0 (pbuf_chain h t s)
    | PDechain p => pbuf_dechain p s
    | PRealloc p new_len => ret0 (pbuf_realloc p new_len s)
    | PHeader p inc => pbuf_header p inc s
    end.

Definition remove_one (p : Z) (l : list Z) : list Z :=
    match list_find (λ x, x = p) l with Some (i, _) => delete i l | None => l end.
  (** The references of the clients after a call with result [r]. *)
Definition owned_after (o : pop) (r : Z) (owned : list Z) : list Z :=
    match o with
    | PAlloc _ _ _ _ => if r =? 0 then owned else r :: owned
    | PFree p => remove_one p owned
    | PRef p => p :: owned
    | PCat _ t => remove_one t owned
    | _ => owned
    end.

Definition ref_room (p : Z) (s : pbufs) : Prop := ∀ h, hdrs s !! p = Some h → ref h < 2 ^ 16 - 1.
Definition disjoint_chains (h t : Z) (s : pbufs) : Prop :=
    ∀ lh lt a, chain (links s) h lh → chain (links s) t lt → a ∈ lh → a ∉ lt.
  (** What the callers have to respect: they pass references they hold, join only separate
      chains, and shrink only to a length the chain has. *)
Definition op_ok (o : pop) (s : pbufs) (owned : list Z) : Prop :=
    match o with
    | PAlloc new _ length _ => fresh new s ∧ 0 <= length < 2 ^ 16
    | PFree p | PDechain p | PHeader p _ => p ∈ owned ∧ p ≠ 0
    | PRef p => p ∈ owned ∧ p ≠ 0 ∧ ref_room p s
    | PCat h t => h ∈ owned ∧ h ≠ 0 ∧ t ∈ owned ∧ t ≠ 0 ∧ disjoint_chains h t s
    | PChain h t => h ∈ owned ∧ h ≠ 0 ∧ t ∈ owned ∧ t ≠ 0 ∧ disjoint_chains h t s ∧ ref_room t s
    | PRealloc p new_len => p ∈ owned ∧ p ≠ 0 ∧ 0 <= new_len < 2 ^ 16 ∧
                            ∀ l, chain (links s) p l → new_len <= sum_len s l
    end.

Lemma remove_one_perm p owned : p ∈ owned → owned ≡ₚ p :: remove_one p owned.
  Proof.
    intros Hp. unfold remove_one. destruct (list_find _ owned) as [[i x]|] eqn:E.
    - apply list_find_Some in E as (Hi & -> & _). by apply delete_Permutation.
    - apply list_find_None in E. rewrite Forall_forall in E. by destruct (E p Hp).
  Qed.
Lemma owned_chain s owned p : owns s owned → p ∈ owned → p ≠ 0 → ∃ l, chain (links s) p l.
  Proof.
    intros H Hp H0. destruct (owns_hdr s owned p H Hp H0) as [h Hh]. apply (ow_chain _ _ _ _ _ _ (proj1 H)).
    exists (link_of h). by apply links_at.
  Qed.

Lemma op_owns o s owned : owns s owned → op_ok o s owned →
    ∃ s' r, do_op o s = Some (s', r) ∧ owns s' (owned_after o r owned).
  Proof.
    intros H Ho. destruct o; cbn in Ho |- *.
    - destruct Ho as [Hn Hl]. by apply pbuf_alloc_owns.
    - destruct Ho as [Hp _]. apply (owns_perm _ _ _ (remove_one_perm p owned Hp)) in H.
      destruct (pbuf_free_spec s p _ H) as (s' & c & ? & ? & _). eauto.
    - destruct Ho as (Hp & H0 & Hr). destruct (owns_hdr s owned p H Hp H0) as [h Hh].
      destruct (pbuf_ref_spec s p h owned H Hh (Hr h Hh) H0) as (s' & -> & ?). cbn. eauto.
    - destruct Ho as (Hh & Hh0 & Ht & Ht0 & Hd). destruct (owned_chain s owned h H Hh Hh0) as [lh Hlh].
      destruct (owned_chain s owned t H Ht Ht0) as [lt Hlt].
      apply (owns_perm _ _ _ (remove_one_perm t owned Ht)) in H.
      destruct (pbuf_cat_spec s h t lh lt _ H Hh0 Ht0 Hlh Hlt) as (s' & -> & ? & _); [|cbn; eauto].
      intros a. by apply Hd.
    - destruct Ho as (Hh & Hh0 & Ht & Ht0 & Hd & Hr). destruct (owned_chain s owned h H Hh Hh0) as [lh Hlh].
      destruct (owned_chain s owned t H Ht Ht0) as [lt Hlt]. destruct (owns_hdr s owned t H Ht Ht0) as [ht Hht].
      pose proof (remove_one_perm t owned Ht) as Hp. apply (owns_perm _ _ _ Hp) in H.
      destruct (pbuf_cat_spec s h t lh lt _ H Hh0 Ht0 Hlh Hlt) as (s' & E & H' & Href); [intros a; by apply Hd|].
      unfold pbuf_chain. rewrite E. cbn [mbind option_bind]. specialize (Href t). rewrite Hht in Href.
      destruct (hdrs s' !! t) as [ht'|] eqn:Et; [|done]. cbn in Href. injection Href as Href.
      destruct (pbuf_ref_spec s' t ht' _ H' Et) as (s2 & -> & H2); [rewrite Href; by apply Hr|done|].
      cbn. eexists _, _. split; [done|]. by apply (owns_perm _ _ _ (symmetry Hp)).
    - destruct Ho as [??]. by apply pbuf_dechain_owns.
    - destruct Ho as (Hp & H0 & Hn & Hs). destruct (owned_chain s owned p H Hp H0) as [l Hl].
      destruct (pbuf_realloc_owns p new_len s owned l H Hp H0 Hn Hl (Hs l Hl)) as (s' & -> & ?). cbn. eauto.
    - destruct Ho as [??]. by apply pbuf_header_owns.
  Qed.

  (** Runs of the clients from the initial pools. *)
Definition pbuf_boot : pbufs := MkPbufs ∅ pa ra.
Inductive pbuf_reach : pbufs → list Z → Prop :=
    | pr_boot : pbuf_reach pbuf_boot []
    | pr_step s owned o s' r : pbuf_reach s owned → op_ok o s owned → do_op o s = Some (s', r) →
        pbuf_reach s' (owned_after o r owned).

Lemma boot_owns : NoDup (0 :: pa ++ ra) → owns pbuf_boot [].
  Proof.
    intros Hn. split; [|intros a h Ha; cbn in Ha; by rewrite lookup_empty in Ha]. unfold links. cbn. rewrite fmap_empty. split.
    - intros a k Ha. by rewrite lookup_empty in Ha.
    - intros a Ha. unfold pts in Ha. rewrite map_to_list_empty in Ha. by apply not_elem_of_nil in Ha.
    - intros a [k Ha]. by rewrite lookup_empty in Ha.
    - unfold keys. by rewrite map_to_list_empty, app_nil_r.
    - unfold keys. by rewrite map_to_list_empty, app_nil_r.
    - done.
    - intros a k Ha. by rewrite lookup_empty in Ha.
  Qed.
Lemma reach_owns s owned : NoDup (0 :: pa ++ ra) → pbuf_reach s owned → owns s owned.
  Proof.
    intros Hn. induction 1 as [|s owned o s' r _ IH Ho E]; [by apply boot_owns|].
    destruct (op_owns o s owned IH Ho) as (s1 & r1 & E1 & H1). rewrite E in E1. by injection E1 as <- <-.
  Qed.

  (** Without references nothing is live: otherwise chains could be followed backwards for
      ever. *)
Lemma owns_nothing s : owns s [] → hdrs s = ∅.
  Proof.
    intros [H _]. apply map_empty. intros a. destruct (hdrs s !! a) as [h|] eqn:Ha; [|done]. exfalso.
    assert (Hlong : ∀ n, ∃ b l, chain (links s) b l ∧ (n < length l)%nat).
    { induction n as [|n (b & l & Hl & Hn)].
      - destruct (ow_chain _ _ _ _ _ _ H a) as [l Hl]; [exists (link_of h); by apply links_at|].
        exists a, l. split; [done|]. destruct l; [|cbn; lia]. cbn in Hl.
        destruct (ow_count _ _ _ _ _ _ H a _ (links_at _ _ _ Ha)) as (? & _). done.
      - destruct l as [|b' l]; [cbn in Hn; lia|]. pose proof Hl as (<- & Hb0 & k & Hk & _).
        destruct (ow_count _ _ _ _ _ _ H b k Hk) as (_ & Hc & Hp). rewrite Hc in Hp. cbn in Hp.
        destruct Hp as [Hp _]. apply cnt_in in Hp. unfold pts in Hp. apply list_elem_of_fmap in Hp as ([c kc] & -> & Hin).
        apply elem_of_map_to_list in Hin. destruct (ow_count _ _ _ _ _ _ H c kc Hin) as (Hc0 & _).
        exists c, (c :: l_next kc :: l). split; [|cbn in *; lia]. cbn. split; [done|]. split; [done|].
        exists kc. done. }
    destruct (Hlong (size (hdrs s))) as (b & l & Hl & Hn). pose proof (pchain_length _ _ _ Hl). lia.
  Qed.
End ops.

(** C11: as long as the clients pass references they hold, join separate chains and shrink to a
    length the chain has, no call on packet buffers uses freed memory; the count of every
    live buffer is the number of references to it; and when the last reference is given
    back, every buffer of both pools is free again. *)
Theorem pbuf_references_exact pa ra s owned : NoDup (0 :: pa ++ ra) → pbuf_reach pa ra s owned →
  (∀ p h, hdrs s !! p = Some h → ref h = cnt p (owned ++ pts (links s))) ∧
  (∀ o, op_ok pa ra o s owned → ∃ s' r, do_op o s = Some (s', r)) ∧
  (owned = [] → hdrs s = ∅ ∧ pool_free s ≡ₚ pa ∧ pbuf_free_list s ≡ₚ ra).
Proof.
  intros Hn Hr. pose proof (reach_owns pa ra s owned Hn Hr) as H. split; [|split].
  - intros p h Hh. by apply (ow_count _ _ _ _ _ _ (proj1 H) p _ (links_at _ _ _ Hh)).
  - intros o Ho. destruct (op_owns pa ra o s owned H Ho) as (s' & r & ? & _). eauto.
  - intros ->. pose proof (owns_nothing pa ra s H) as E. destruct H as [[_ _ _ H4 H5 _ _] _].
    assert (Hk : ∀ P, keys P (links s) = []).
    { intros P. unfold links, keys. by rewrite E, fmap_empty, map_to_list_empty. }
    rewrite Hk, app_nil_r in H4. rewrite Hk, app_nil_r in H5. done.
Qed.

(** ** An instance: a packet of two pool buffers, allocated and freed *)

Definition demo_pool : list Z := [4096; 8192].
Definition demo_alloc : pop := PAlloc 0 PBUF_RAW 2000 PBUF_POOL.
Definition demo_used : pbufs := default (pbuf_boot demo_pool []) (fst <$> do_op demo_alloc (pbuf_boot demo_pool [])).
Definition demo_freed : pbufs := default demo_used (fst <$> do_op (PFree 4096) demo_used).

Lemma demo_nodup : NoDup (0 :: demo_pool ++ []).
Proof. apply NoDup_ListNoDup. repeat constructor; cbn; lia. Qed.
Lemma demo_reach : pbuf_reach demo_pool [] demo_freed [].
Proof.
  assert (H1 : pbuf_reach demo_pool [] demo_used [4096]).
  { apply (pr_step demo_pool [] (pbuf_boot demo_pool []) [] demo_alloc demo_used 4096 (pr_boot _ _)).
    - split; [by intros ?|lia].
    - by vm_compute. }
  apply (pr_step demo_pool [] demo_used [4096] (PFree 4096) demo_freed 2 H1).
  - split; [constructor|done].
  - by vm_compute.
Qed.
Lemma pbuf_references_exact_witness : hdrs demo_used !! 8192 = Some (MkHdr 0 8208 464 464 PBUF_POOL 0 1) ∧
  hdrs demo_freed = ∅ ∧ pool_free demo_freed ≡ₚ demo_pool.
Proof.
  split; [vm_compute; reflexivity|].
  destruct (pbuf_references_exact demo_pool [] demo_freed [] demo_nodup demo_reach) as (_ & _ & H).
  destruct (H eq_refl) as (H1 & H2 & _). split; [exact H1|exact H2].
Defined.
