(* ===== verification/Chksum.v ===== *)
(** * Internet checksums ([LwIP/src/core/ipv4/inet_chksum.c])

    The source has three versions of the summing routine, chosen at compile time; the header
    checksums use whichever was chosen.  The class [StdChksum] is what they rely on, and the
    three versions are its instances.  Memory is little endian; a buffer is its address (the
    versions treat odd and unaligned addresses differently) and its bytes.  The reference is
    the one's complement sum of RFC 1071. *)
From S2P Require Import Prelude.

(* @ LwIP/src/include/ipv4/lwip/inet_chksum.h:53-53 FOLD_U32T *)
Definition FOLD_U32T (u : Z) : Z := u32 (Z.shiftr u 16 + Z.land u 65535).
(* @ LwIP/src/include/ipv4/lwip/inet_chksum.h:47-47 SWAP_BYTES_IN_WORD *)
Definition SWAP_BYTES_IN_WORD (w : Z) : Z :=
  Z.lor (Z.shiftl (Z.land w 255) 8) (Z.shiftr (Z.land w 65280) 8).

(** ** The three versions *)

(* @ LwIP/src/core/ipv4/inet_chksum.c:89-104 lwip_standard_chksum *)
Fixpoint sum_be (l : list Z) (acc : Z) : Z :=
  match l with
  | a :: b :: l => sum_be l (u32 (acc + u16 (Z.lor (Z.shiftl a 8) b)))
  | [a] => u32 (acc + u16 (Z.shiftl a 8))
  | [] => acc
  end.
(* @ LwIP/src/core/ipv4/inet_chksum.c:79-114 lwip_standard_chksum *)
Definition chksum_v1 (addr : Z) (data : list Z) : Z :=
  let acc := FOLD_U32T (sum_be data 0) in
  let acc := if negb (Z.land acc 4294901760 =? 0) then FOLD_U32T acc else acc in
  htons (u16 acc).

(** The bulk of the data: the sum, and the byte that is left over. *)
(* @ LwIP/src/core/ipv4/inet_chksum.c:148-157 lwip_standard_chksum *)
Fixpoint sum_words (l : list Z) (sum : Z) : Z * Z :=
  match l with
  | a :: b :: l => sum_words l (u32 (sum + of_le16 a b))
  | [a] => (sum, a)
  | [] => (sum, 0)
  end.
(** The first byte of a buffer at an odd address goes into the high byte of [t]. *)
(* @ LwIP/src/core/ipv4/inet_chksum.c:136-145 lwip_standard_chksum *)
Definition get_aligned (odd : bool) (data : list Z) : Z * list Z :=
  match odd, data with
  | true, b :: pb => (Z.shiftl b 8, pb)
  | _, _ => (0, data)
  end.
(** Lines 159 to 172: the end bytes, two folds, and the swap. *)
(* @ LwIP/src/core/ipv4/inet_chksum.c:159-172 lwip_standard_chksum *)
Definition finish (odd : bool) (sum t : Z) : Z :=
  let sum := FOLD_U32T (FOLD_U32T (u32 (sum + t))) in
  u16 (if odd then SWAP_BYTES_IN_WORD sum else sum).
(* @ LwIP/src/core/ipv4/inet_chksum.c:133-173 lwip_standard_chksum *)
Definition chksum_v2 (addr : Z) (data : list Z) : Z :=
  let odd := Z.odd addr in
  let '(t, pb) := get_aligned odd data in
  let '(sum, last) := sum_words pb 0 in
  finish odd sum (Z.lor t last).

(** Addition with the carry added back. *)
(* @ LwIP/src/core/ipv4/inet_chksum.c:214-222 lwip_standard_chksum *)
Definition add_carry (sum v : Z) : Z :=
  let tmp := u32 (sum + v) in if tmp <? sum then u32 (tmp + 1) else tmp.
(** Eight bytes at a time; the result has the bytes that are left. *)
(* @ LwIP/src/core/ipv4/inet_chksum.c:213-225 lwip_standard_chksum *)
Fixpoint sum_longs (l : list Z) (sum : Z) : Z * list Z :=
  match l with
  | a :: b :: c :: d :: e :: f :: g :: h :: l =>
    sum_longs l (add_carry (add_carry sum (of_le32 a b c d)) (of_le32 e f g h))
  | _ => (sum, l)
  end.
(* @ LwIP/src/core/ipv4/inet_chksum.c:189-255 lwip_standard_chksum *)
Definition chksum_v3 (addr : Z) (data : list Z) : Z :=
  let odd := Z.odd addr in
  let '(t, ps) := get_aligned odd data in
  let addr := if odd && negb (bool_decide (data = [])) then addr + 1 else addr in
  let '(sum, pl) := match ps with
                    | a :: b :: ps' => if negb (Z.land addr 3 =? 0) then (of_le16 a b, ps') else (0, ps)
                    | _ => (0, ps)
                    end in
  let '(sum, ps) := sum_longs pl sum in
  let '(sum, last) := sum_words ps (FOLD_U32T sum) in
  finish odd sum (Z.lor t last).

(** ** The reference *)

(** The sum of the bytes as little endian words; [hi] tells whether the first byte is a high
    one. *)
Fixpoint sum16 (hi : bool) (l : list Z) : Z :=
  match l with
  | [] => 0
  | b :: l => (if hi then 256 * b else b) + sum16 (negb hi) l
  end.
(** The one's complement value of a sum: 0 only for 0. *)
Definition ones (s : Z) : Z := if s =? 0 then 0 else (s - 1) mod 65535 + 1.

(** [acc] stands for the sum [s]. *)
Definition rep (acc s : Z) : Prop :=
  0 <= acc ∧ 0 <= s ∧ acc mod 65535 = s mod 65535 ∧ (acc = 0 ↔ s = 0).

Lemma rep_ones acc s : rep acc s → acc <= 65535 → acc = ones s.
Proof.
  intros (Ha & Hs & E & Hz) Hb. unfold ones. destruct (Z.eqb_spec s 0) as [->|Hn]; [tauto|].
  assert (acc ≠ 0) by tauto.
  assert (E1 : (acc - 1) mod 65535 = (s - 1) mod 65535).
  { rewrite <- (Zminus_mod_idemp_l acc), <- (Zminus_mod_idemp_l s). by rewrite E. }
  rewrite <- E1, Z.mod_small by lia. lia.
Qed.
Lemma ones_range s : 0 <= s → 0 <= ones s <= 65535 ∧ rep (ones s) s.
Proof.
  intros Hs. unfold ones, rep. destruct (Z.eqb_spec s 0) as [->|Hn]; [lia|].
  pose proof (Z.mod_pos_bound (s - 1) 65535 ltac:(lia)). split; [lia|]. split; [lia|]. split; [done|].
  split; [|lia]. rewrite Zplus_mod_idemp_l. f_equal. lia.
Qed.
Lemma rep_refl s : 0 <= s → rep s s.
Proof. unfold rep. lia. Qed.
Lemma rep_add a s b r : rep a s → rep b r → rep (a + b) (s + r).
Proof.
  intros (? & ? & E & ?) (? & ? & E' & ?). unfold rep. split; [lia|]. split; [lia|].
  split; [|lia]. rewrite Zplus_mod, E, E'. by rewrite <- Zplus_mod.
Qed.
Lemma rep_fold a s : rep a s → a < 2 ^ 32 → rep (FOLD_U32T a) s ∧ FOLD_U32T a <= a / 65536 + 65535.
Proof.
  intros (Ha & Hs & E & Hz) Hb. unfold FOLD_U32T. rewrite Z.shiftr_div_pow2 by lia.
  change 65535 with (Z.ones 16) at 1. change (Z.land a 65535) with (Z.land a (Z.ones 16)).
  rewrite !Z.land_ones by lia. change (2 ^ 16) with 65536.
  pose proof (Z.mod_pos_bound a 65536 ltac:(lia)). pose proof (Z.div_mod a 65536 ltac:(lia)).
  assert (0 <= a / 65536 < 65536) by (split; [apply Z.div_pos; lia|apply Z.div_lt_upper_bound; lia]).
  rewrite u32_small by (unfold is_u32; lia). split; [|lia]. unfold rep. split; [lia|]. split; [lia|]. split; [|lia].
  rewrite <- E. replace a with (a / 65536 + a mod 65536 + a / 65536 * 65535) at 3 by lia.
  by rewrite Z_mod_plus_full.
Qed.
Lemma swap_word w : 0 <= w <= 65535 → SWAP_BYTES_IN_WORD w = 256 * (w mod 256) + w / 256.
Proof.
  intros H. unfold SWAP_BYTES_IN_WORD. change 65280 with (Z.shiftl (Z.ones 8) 8).
  change 255 with (Z.ones 8). rewrite Z.land_ones, Z.shiftr_land by lia.
  rewrite Z.shiftr_shiftl_l, Z.sub_diag, Z.shiftl_0_r by lia.
  rewrite Z.shiftr_div_pow2, (Z.land_ones (w / 2 ^ 8)) by lia. change (2 ^ 8) with 256.
  assert (0 <= w / 256 < 256) by (split; [apply Z.div_pos; lia|apply Z.div_lt_upper_bound; lia]).
  rewrite (Z.mod_small (w / 256)) by lia. pose proof (Z.mod_pos_bound w 256 ltac:(lia)).
  rewrite Z.shiftl_mul_pow2 by lia. change (2 ^ 8) with 256.
  assert (Hd : Z.land (w mod 256 * 256) (w / 256) = 0).
  { apply Z.bits_inj'. intros n Hn. rewrite Z.land_spec, Z.bits_0. change 256 with (2 ^ 8) at 2.
    rewrite <- Z.shiftl_mul_pow2, Z.shiftl_spec by lia. destruct (Z.ltb_spec n 8).
    - by rewrite (Z.testbit_neg_r _ (n - 8)) by lia.
    - rewrite (byte_bits_high (w / 256) n); [by rewrite andb_false_r|unfold is_byte; lia|done]. }
  rewrite <- Z.lxor_lor by done. rewrite <- Z.add_nocarry_lxor by done. lia.
Qed.

Lemma rep_swap w s : rep w s → w <= 65535 → rep (SWAP_BYTES_IN_WORD w) (256 * s) ∧ SWAP_BYTES_IN_WORD w <= 65535.
Proof.
  intros (Hw & Hs & E & Hz) Hb. rewrite swap_word by lia.
  pose proof (Z.mod_pos_bound w 256 ltac:(lia)). pose proof (Z.div_mod w 256 ltac:(lia)).
  assert (0 <= w / 256 < 256) by (split; [apply Z.div_pos; lia|apply Z.div_lt_upper_bound; lia]).
  split; [|lia]. unfold rep. split; [lia|]. split; [lia|]. split; [|lia].
  rewrite <- (Zmult_mod_idemp_r s), <- E, Zmult_mod_idemp_r.
  replace (256 * w) with (256 * (w mod 256) + w / 256 + w / 256 * 65535) by lia.
  by rewrite Z_mod_plus_full.
Qed.
(** Exchanging high and low bytes multiplies a sum by 256. *)
Lemma sum16_nonneg hi l : bytes_ok l → 0 <= sum16 hi l.
Proof.
  intros H. revert hi. induction H as [|b l Hb _ IH]; intros hi; cbn; [lia|].
  specialize (IH (negb hi)). unfold is_byte in Hb. destruct hi; lia.
Qed.
Lemma rep_shift hi l a : bytes_ok l → rep a (256 * sum16 hi l) → rep a (sum16 (negb hi) l).
Proof.
  intros Hl (? & ? & E & Hz). pose proof (sum16_nonneg (negb hi) l Hl).
  assert (G : (256 * sum16 hi l) mod 65535 = sum16 (negb hi) l mod 65535 ∧
              (256 * sum16 hi l = 0 ↔ sum16 (negb hi) l = 0)).
  { clear -Hl. revert hi. induction Hl as [|b l Hb Hl IH]; intros hi; [done|]. cbn [sum16].
    destruct (IH (negb hi)) as [E Z]. pose proof (sum16_nonneg (negb hi) l Hl).
    pose proof (sum16_nonneg (negb (negb hi)) l Hl). unfold is_byte in Hb. split; [|destruct hi; cbn in *; lia].
    rewrite Z.mul_add_distr_l, Zplus_mod, E, <- Zplus_mod. destruct hi; cbn [negb].
    - replace (256 * (256 * b) + sum16 true l) with (b + sum16 true l + b * 65535) by lia.
      by rewrite Z_mod_plus_full.
    - done. }
  unfold rep. destruct G as [G1 G2]. rewrite E, G1. tauto.
Qed.

(** *** Folding and finishing *)
Lemma fold_small a s : rep a s → a <= 131070 → rep (FOLD_U32T a) s ∧ FOLD_U32T a <= 65535.
Proof.
  intros Hr Hb. destruct (rep_fold a s Hr ltac:(lia)) as [R _]. split; [done|].
  destruct Hr as [Ha _]. unfold FOLD_U32T. rewrite Z.shiftr_div_pow2 by lia.
  change (Z.land a 65535) with (Z.land a (Z.ones 16)). rewrite Z.land_ones by lia.
  change (2 ^ 16) with 65536. pose proof (Z.mod_pos_bound a 65536 ltac:(lia)).
  pose proof (Z.div_mod a 65536 ltac:(lia)).
  assert (0 <= a / 65536 < 2) by (split; [apply Z.div_pos; lia|apply Z.div_lt_upper_bound; lia]).
  rewrite u32_small by (unfold is_u32; lia). lia.
Qed.
Lemma fold_twice a s : rep a s → a < 2 ^ 32 →
  rep (FOLD_U32T (FOLD_U32T a)) s ∧ FOLD_U32T (FOLD_U32T a) <= 65535.
Proof.
  intros Hr Hb. destruct (rep_fold a s Hr Hb) as [R B]. apply fold_small; [done|].
  pose proof (Z.div_lt_upper_bound a 65536 65536). destruct Hr as [? _]. lia.
Qed.
Lemma finish_rep odd sum t s :
  rep (sum + t) s → sum + t < 2 ^ 32 →
  finish odd sum t = ones (if odd then 256 * s else s).
Proof.
  intros Hr Hb. unfold finish. destruct Hr as [H0 Hr0].
  rewrite (u32_small (sum + t)) by (unfold is_u32; lia).
  destruct (fold_twice (sum + t) s) as [R B]; [done..|].
  destruct odd.
  - destruct (rep_swap _ _ R B) as [R' B']. rewrite u16_small; [by apply rep_ones|].
    destruct R'. lia.
  - rewrite u16_small; [by apply rep_ones|]. destruct R. lia.
Qed.
Lemma ones_shift hi l : bytes_ok l → ones (256 * sum16 hi l) = ones (sum16 (negb hi) l).
Proof.
  intros Hl. pose proof (sum16_nonneg hi l Hl).
  destruct (ones_range (256 * sum16 hi l) ltac:(lia)) as [B R].
  apply rep_ones; [by apply rep_shift|lia].
Qed.

(** *** The three versions compute the reference *)
Lemma of_be16_add a b : is_byte a → is_byte b → Z.lor (Z.shiftl a 8) b = 256 * a + b.
Proof. intros Ha Hb. rewrite Z.lor_comm. fold (of_le16 b a). rewrite of_le16_add by done. lia. Qed.
(** The sum of [n] bytes is small. *)
Lemma sum16_bound hi l : bytes_ok l → sum16 hi l <= 65280 * Z.of_nat (length l).
Proof.
  intros H. revert hi. induction H as [|b l Hb _ IH]; intros hi; cbn [sum16 length]; [lia|].
  specialize (IH (negb hi)). unfold is_byte in Hb. destruct hi; lia.
Qed.
Lemma sum_be_sum n l acc : (length l <= n)%nat → bytes_ok l →
  0 <= acc → acc + sum16 true l < 2 ^ 32 → sum_be l acc = acc + sum16 true l.
Proof.
  revert l acc. induction n as [|n IH]; intros l acc Hn Hl Ha Hs.
  { destruct l; cbn in *; lia. }
  destruct l as [|a [|b l]]; cbn [sum_be sum16 negb] in *; [lia| |].
  - apply Forall_cons in Hl as [Hb _]. unfold is_byte in Hb.
    rewrite Z.shiftl_mul_pow2 by lia. rewrite u16_small, u32_small by (unfold is_u32; lia). lia.
  - apply Forall_cons in Hl as [Ha' Hl]. apply Forall_cons in Hl as [Hb Hl].
    pose proof (sum16_nonneg true l Hl). rewrite of_be16_add by done. unfold is_byte in *.
    rewrite u16_small, u32_small by (unfold is_u32; lia). rewrite IH; [lia|cbn in Hn; lia|done|lia|lia].
Qed.
Lemma sum_words_sum n l sum : (length l <= n)%nat → bytes_ok l →
  0 <= sum → sum + sum16 false l < 2 ^ 32 →
  (sum_words l sum).1 + (sum_words l sum).2 = sum + sum16 false l ∧
  0 <= (sum_words l sum).1 ∧ is_byte (sum_words l sum).2.
Proof.
  revert l sum. induction n as [|n IH]; intros l acc Hn Hl Ha Hs.
  { destruct l; cbn in *; [unfold is_byte; lia|lia]. }
  destruct l as [|a [|b l]]; cbn [sum_words sum16 negb fst snd] in *; [unfold is_byte; lia| |].
  - apply Forall_cons in Hl as [Hb _]. split; [lia|done].
  - apply Forall_cons in Hl as [Ha' Hl]. apply Forall_cons in Hl as [Hb Hl].
    pose proof (sum16_nonneg false l Hl). rewrite of_le16_add by done. unfold is_byte in *.
    rewrite u32_small by (unfold is_u32; lia).
    destruct (IH l (acc + (a + b * 256))) as (E & H1 & H2); [cbn in Hn; lia|done|lia|lia|].
    rewrite E. lia.
Qed.

(** What the header checksums rely on. *)
Class StdChksum := {
  lwip_standard_chksum : Z → list Z → Z;
  chksum_sum : ∀ addr l, bytes_ok l → Z.of_nat (length l) < 65536 →
    lwip_standard_chksum addr l = ones (sum16 false l) }.

Lemma chksum_v1_sum addr l : bytes_ok l → Z.of_nat (length l) < 65536 →
  chksum_v1 addr l = ones (sum16 false l).
Proof.
  intros Hl Hn. pose proof (sum16_bound true l Hl). pose proof (sum16_nonneg true l Hl).
  unfold chksum_v1. rewrite (sum_be_sum (length l)), Z.add_0_l by (done || lia). cbv zeta.
  set (s := sum16 true l) in *. destruct (rep_fold s s) as [R B]; [by apply rep_refl|lia|].
  assert (B' : FOLD_U32T s <= 131070) by (pose proof (Z.div_lt_upper_bound s 65536 65536); lia).
  assert (G : ∃ w, (if negb (Z.land (FOLD_U32T s) 4294901760 =? 0) then FOLD_U32T (FOLD_U32T s)
                    else FOLD_U32T s) = w ∧ rep w s ∧ w <= 65535).
  { destruct (fold_small _ _ R B') as [R2 B2].
    destruct (Z.eqb_spec (Z.land (FOLD_U32T s) 4294901760) 0) as [E|E]; [|by eexists].
    exists (FOLD_U32T s). do 2 (split; [done|]).
    change 4294901760 with (Z.shiftl (Z.ones 16) 16) in E.
    assert (E' : Z.shiftr (Z.land (FOLD_U32T s) (Z.shiftl (Z.ones 16) 16)) 16 = 0) by (by rewrite E).
    rewrite Z.shiftr_land, Z.shiftr_shiftl_l, Z.shiftr_div_pow2 in E' by lia.
    change (2 ^ 16) with 65536 in E'. destruct R as [R0 _].
    assert (0 <= FOLD_U32T s / 65536 < 2) by (split; [apply Z.div_pos; lia|apply Z.div_lt_upper_bound; lia]).
    change (Z.shiftl (Z.ones 16) (16 - 16)) with (Z.ones 16) in E'.
    rewrite Z.land_ones in E' by lia. rewrite Z.mod_small in E' by lia.
    pose proof (Z.div_mod (FOLD_U32T s) 65536 ltac:(lia)).
    pose proof (Z.mod_pos_bound (FOLD_U32T s) 65536 ltac:(lia)). lia. }
  destruct G as (w & -> & Rw & Bw). destruct (rep_swap _ _ Rw Bw) as [Rs Bs].
  destruct Rw as [Hw _]. rewrite u16_small by lia.
  replace (htons w) with (SWAP_BYTES_IN_WORD w).
  - change false with (negb true). rewrite <- (ones_shift true l Hl). by apply rep_ones.
  - unfold SWAP_BYTES_IN_WORD, htons, byte_of. rewrite Z.shiftr_0_r. do 2 f_equal.
    change 65280 with (Z.shiftl 255 8). by rewrite Z.shiftr_land, Z.shiftr_shiftl_l.
Qed.

(** The bytes after the alignment step. *)
Lemma get_aligned_sum odd l t pb : bytes_ok l → get_aligned odd l = (t, pb) →
  bytes_ok pb ∧ (length pb <= length l)%nat ∧ ∃ h, t = h * 256 ∧ is_byte h ∧
  h * 256 + sum16 false pb = sum16 (odd && negb (bool_decide (l = []))) l.
Proof.
  intros Hl E. unfold get_aligned in E. destruct odd, l as [|b l]; simplify_eq/=;
    try (split; [done|]; split; [lia|]; exists 0; unfold is_byte; lia).
  apply Forall_cons in Hl as [Hb Hl]. split; [done|]. split; [lia|].
  exists b. rewrite Z.shiftl_mul_pow2 by lia. unfold is_byte in *. lia.
Qed.
Lemma lor_last h b : is_byte h → is_byte b → Z.lor (h * 256) b = h * 256 + b.
Proof. intros Hh Hb. rewrite Z.lor_comm. unfold is_byte in *. rewrite (lor_add 8) by lia. lia. Qed.
Lemma finish_sum odd l sum t : bytes_ok l →
  rep (sum + t) (sum16 (odd && negb (bool_decide (l = []))) l) → sum + t < 2 ^ 32 →
  finish odd sum t = ones (sum16 false l).
Proof.
  intros Hl Hr Hb. rewrite (finish_rep _ _ _ _ Hr Hb). destruct odd; [|done].
  destruct l; [done|]. cbn [andb negb bool_decide]. apply (ones_shift true). done.
Qed.
Lemma chksum_v2_sum addr l : bytes_ok l → Z.of_nat (length l) < 65536 →
  chksum_v2 addr l = ones (sum16 false l).
Proof.
  intros Hl Hn. unfold chksum_v2. destruct (get_aligned _ l) as [t pb] eqn:E.
  destruct (get_aligned_sum _ _ _ _ Hl E) as (Hp & Hlen & h & -> & Hh & Es).
  pose proof (sum16_bound false pb Hp). pose proof (sum16_nonneg false pb Hp).
  destruct (sum_words_sum (length pb) pb 0) as (Ew & H1 & H2); [done..|lia|lia|].
  destruct (sum_words pb 0) as [sum last]. cbn [fst snd] in *.
  rewrite lor_last by done. unfold is_byte in *.
  apply finish_sum; [done| |lia]. rewrite <- Es.
  replace (sum + (h * 256 + last)) with (h * 256 + sum16 false pb) by lia. apply rep_refl. lia.
Qed.

Lemma rep_add_carry sum v s r : rep sum s → rep v r → sum < 2 ^ 32 → v < 2 ^ 32 →
  rep (add_carry sum v) (s + r) ∧ add_carry sum v < 2 ^ 32.
Proof.
  intros Hs Hv Bs Bv. pose proof (rep_add _ _ _ _ Hs Hv) as (Ha & Hr & E & Hz).
  destruct Hs as (? & ? & _ & ?), Hv as (? & ? & _ & ?). unfold add_carry.
  destruct (Z.lt_ge_cases (sum + v) (2 ^ 32)) as [B|B].
  - rewrite (u32_small (sum + v)) by (unfold is_u32; lia). destruct (Z.ltb_spec (sum + v) sum); [lia|].
    split; [done|lia].
  - assert (Eu : u32 (sum + v) = sum + v - 2 ^ 32).
    { unfold u32. symmetry. apply (Z.mod_unique _ _ 1); lia. }
    rewrite Eu. destruct (Z.ltb_spec (sum + v - 2 ^ 32) sum); [|lia].
    rewrite u32_small by (unfold is_u32; lia). split; [|lia]. unfold rep.
    split; [lia|]. split; [lia|]. split; [|lia]. rewrite <- E.
    replace (sum + v) with (sum + v - 2 ^ 32 + 1 + 65537 * 65535) at 2 by lia.
    by rewrite Z_mod_plus_full.
Qed.
Lemma rep_le32 a b c d : is_byte a → is_byte b → is_byte c → is_byte d →
  rep (of_le32 a b c d) (sum16 false [a; b; c; d]) ∧ of_le32 a b c d < 2 ^ 32.
Proof.
  intros Ha Hb Hc Hd. pose proof (of_le32_u32 a b c d Ha Hb Hc Hd) as [_ B]. split; [|done].
  rewrite of_le32_add by done. cbn [sum16 negb]. unfold is_byte, rep in *.
  split; [lia|]. split; [lia|]. split; [|lia].
  replace (a + _) with (a + (256 * b + (c + (256 * d + 0))) + (c + d * 256) * 65535) by lia.
  by rewrite Z_mod_plus_full.
Qed.
Lemma sum_longs_sum n l acc s : (length l <= n)%nat → bytes_ok l → rep acc s → acc < 2 ^ 32 →
  ∃ s', rep (sum_longs l acc).1 s' ∧ (sum_longs l acc).1 < 2 ^ 32 ∧
    bytes_ok (sum_longs l acc).2 ∧ (length (sum_longs l acc).2 < 8)%nat ∧
    s' + sum16 false (sum_longs l acc).2 = s + sum16 false l.
Proof.
  revert l acc s. induction n as [|n IH]; intros l acc s Hn Hl Hr Hb.
  { destruct l; [|cbn in Hn; lia]. exists s. cbn. repeat split; try done; try apply Hr. lia. }
  destruct (decide (length l < 8)%nat) as [Hs|Hs].
  { exists s. do 8 (destruct l as [|? l]; [done|]). cbn in Hs. lia. }
  do 8 (destruct l as [|? l]; [cbn in Hs; lia|]).
  rewrite !Forall_cons in Hl. destruct Hl as (H0 & H1 & H2 & H3 & H4 & H5 & H6 & H7 & Hl).
  destruct (rep_le32 _ _ _ _ H0 H1 H2 H3) as [R1 B1]. destruct (rep_le32 _ _ _ _ H4 H5 H6 H7) as [R2 B2].
  destruct (rep_add_carry _ _ _ _ Hr R1 Hb B1) as [R3 B3].
  destruct (rep_add_carry _ _ _ _ R3 R2 B3 B2) as [R4 B4].
  destruct (IH l _ _ ltac:(cbn in Hn; lia) Hl R4 B4) as (s' & ? & ? & ? & ? & E).
  exists s'. cbn [sum_longs]. repeat (split; [done|]). rewrite E. cbn [sum16 negb]. lia.
Qed.
(** The word that aligns the pointer to four bytes. *)
Lemma head_word_sum al ps sum pl : bytes_ok ps →
  match ps with
  | a :: b :: ps' => if negb (al =? 0) then (of_le16 a b, ps') else (0, ps)
  | _ => (0, ps)
  end = (sum, pl) →
  bytes_ok pl ∧ (length pl <= length ps)%nat ∧ rep sum sum ∧ sum < 2 ^ 32 ∧
  sum + sum16 false pl = sum16 false ps.
Proof.
  intros Hp E. assert (rep 0 0) by (by apply rep_refl).
  destruct ps as [|a [|b ps]]; simplify_eq/=; try (split_and?; (done || lia)).
  apply Forall_cons in Hp as [Ha Hp]. apply Forall_cons in Hp as [Hb Hp].
  destruct (al =? 0); simplify_eq/=.
  - split; [by rewrite !Forall_cons|]. split; [lia|]. split; [done|]. split; lia.
  - rewrite of_le16_add by done. unfold is_byte in *. split; [done|]. split; [lia|].
    split; [apply rep_refl; lia|]. lia.
Qed.
Lemma chksum_v3_sum addr l : bytes_ok l → Z.of_nat (length l) < 65536 →
  chksum_v3 addr l = ones (sum16 false l).
Proof.
  intros Hl Hn. unfold chksum_v3. destruct (get_aligned _ l) as [t ps] eqn:E.
  destruct (get_aligned_sum _ _ _ _ Hl E) as (Hp & Hlen & h & -> & Hh & Es).
  cbv zeta. destruct (match ps with [] => _ | _ => _ end) as [sum0 pl] eqn:E0.
  apply head_word_sum in E0 as (Hpl & Hlen' & R0 & B0 & E0); [|done].
  destruct (sum_longs_sum (length pl) pl sum0 sum0) as (s' & R1 & B1 & Hq & Hlq & E1); [done..|].
  destruct (sum_longs pl sum0) as [sum1 q]. cbn [fst snd] in *.
  destruct (rep_fold _ _ R1 B1) as [R2 B2].
  assert (B2' : FOLD_U32T sum1 <= 131070) by (pose proof (Z.div_lt_upper_bound sum1 65536 65536); lia).
  pose proof (sum16_bound false q Hq). pose proof (sum16_nonneg false q Hq).
  destruct R2 as [P2 R2].
  destruct (sum_words_sum (length q) q (FOLD_U32T sum1)) as (Ew & H1 & H2); [done..|lia|].
  destruct (sum_words q _) as [sum last]. cbn [fst snd] in *.
  rewrite lor_last by done. unfold is_byte in *. apply finish_sum; [done| |lia]. rewrite <- Es.
  replace (sum + (h * 256 + last)) with (h * 256 + (FOLD_U32T sum1 + sum16 false q)) by lia.
  apply rep_add; [apply rep_refl; lia|]. rewrite <- E0, <- E1. apply rep_add; [done|by apply rep_refl].
Qed.

Definition version1 : StdChksum := {| chksum_sum := chksum_v1_sum |}.
(** The version that is compiled in, there being no setting in [lwipopts.h]. *)
#[export] Instance version2 : StdChksum := {| chksum_sum := chksum_v2_sum |}.
Definition version3 : StdChksum := {| chksum_sum := chksum_v3_sum |}.

(** ** The header checksums

    A chain of pbufs is the list of the payloads: address and bytes. *)
Definition chain_ok (p : list (Z * list Z)) : Prop :=
  Forall (λ q, bytes_ok q.2 ∧ Z.of_nat (length q.2) < 65536) p.

(** [~x] of a 16-bit value. *)
Definition not16 (x : Z) : Z := 65535 - x.

(* @ LwIP/src/core/ipv4/inet_chksum.c:394-398 inet_chksum *)
Definition inet_chksum `{StdChksum} (addr : Z) (data : list Z) : Z :=
  u16 (Z.lnot (lwip_standard_chksum addr data)).
(* @ LwIP/src/core/ipv4/inet_chksum.c:416-423 inet_chksum_pbuf *)
Fixpoint chain_sum `{StdChksum} (p : list (Z * list Z)) (acc : Z) (swapped : bool) : Z * bool :=
  match p with
  | [] => (acc, swapped)
  | (addr, data) :: p =>
    let acc := FOLD_U32T (u32 (acc + lwip_standard_chksum addr data)) in
    if Nat.odd (length data) then chain_sum p (SWAP_BYTES_IN_WORD acc) (negb swapped)
    else chain_sum p acc swapped
  end.
(* @ LwIP/src/core/ipv4/inet_chksum.c:407-429 inet_chksum_pbuf *)
Definition inet_chksum_pbuf `{StdChksum} (p : list (Z * list Z)) : Z :=
  let '(acc, swapped) := chain_sum p 0 false in
  let acc := if swapped then SWAP_BYTES_IN_WORD acc else acc in
  u16 (Z.lnot (Z.land acc 65535)).
(* @ LwIP/src/core/ipv4/inet_chksum.c:301-315 inet_chksum_pseudo *)
Definition add_pseudo (acc src dest proto proto_len : Z) : Z :=
  let acc := u32 (acc + Z.land src 65535) in
  let acc := u32 (acc + Z.land (Z.shiftr src 16) 65535) in
  let acc := u32 (acc + Z.land dest 65535) in
  let acc := u32 (acc + Z.land (Z.shiftr dest 16) 65535) in
  let acc := u32 (acc + htons (u16 proto)) in
  let acc := u32 (acc + htons proto_len) in
  let acc := FOLD_U32T (FOLD_U32T acc) in
  u16 (Z.lnot (Z.land acc 65535)).
(* @ LwIP/src/core/ipv4/inet_chksum.c:270-316 inet_chksum_pseudo *)
Definition inet_chksum_pseudo `{StdChksum} (p : list (Z * list Z)) (src dest proto proto_len : Z) : Z :=
  let '(acc, swapped) := chain_sum p 0 false in
  let acc := if swapped then SWAP_BYTES_IN_WORD acc else acc in
  add_pseudo acc src dest proto proto_len.
(** The loop stops when [chksum_len] bytes have been summed.  Its swaps go by the length of
    the pbuf, not by the bytes taken.  (Assertions are compiled out, [LwIP/port/include/arch/cc.h].) *)
(* @ LwIP/src/core/ipv4/inet_chksum.c:344-362 inet_chksum_pseudo_partial *)
Fixpoint chain_sum_partial `{StdChksum} (p : list (Z * list Z)) (chksum_len : nat) (acc : Z)
    (swapped : bool) : Z * bool :=
  match p with
  | (addr, data) :: p =>
    if (0 <? chksum_len)%nat then
      let chklen := if (chksum_len <? length data)%nat then chksum_len else length data in
      let acc := FOLD_U32T (u32 (acc + lwip_standard_chksum addr (take chklen data))) in
      if Nat.odd (length data)
      then chain_sum_partial p (chksum_len - chklen) (SWAP_BYTES_IN_WORD acc) (negb swapped)
      else chain_sum_partial p (chksum_len - chklen) acc swapped
    else (acc, swapped)
  | [] => (acc, swapped)
  end.
(* @ LwIP/src/core/ipv4/inet_chksum.c:330-382 inet_chksum_pseudo_partial *)
Definition inet_chksum_pseudo_partial `{StdChksum} (p : list (Z * list Z))
    (src dest proto proto_len : Z) (chksum_len : nat) : Z :=
  let '(acc, swapped) := chain_sum_partial p chksum_len 0 false in
  let acc := if swapped then SWAP_BYTES_IN_WORD acc else acc in
  add_pseudo acc src dest proto proto_len.

(** *** What the loops sum *)
Definition parity (l : list Z) : bool := Nat.odd (length l).
Lemma parity_app l k : parity (l ++ k) = xorb (parity l) (parity k).
Proof. unfold parity. rewrite length_app. apply Nat.odd_add. Qed.
Lemma sum16_app hi l k : sum16 hi (l ++ k) = sum16 hi l + sum16 (xorb hi (parity l)) k.
Proof.
  revert hi. induction l as [|b l IH]; intros hi; cbn [app sum16].
  - by rewrite xorb_false_r.
  - rewrite IH. replace (parity (b :: l)) with (negb (parity l)).
    + destruct hi, (parity l); cbn; lia.
    + unfold parity. cbn [length]. by rewrite Nat.odd_succ, Nat.negb_odd.
Qed.
Lemma rep_flip acc sw l : bytes_ok l → rep acc (sum16 sw l) → acc <= 65535 →
  rep (SWAP_BYTES_IN_WORD acc) (sum16 (negb sw) l) ∧ SWAP_BYTES_IN_WORD acc <= 65535.
Proof. intros Hl Hr Hb. destruct (rep_swap _ _ Hr Hb). split; [by apply rep_shift|done]. Qed.
Lemma rep_chksum `{StdChksum} addr l : bytes_ok l → Z.of_nat (length l) < 65536 →
  rep (lwip_standard_chksum addr l) (sum16 false l) ∧ lwip_standard_chksum addr l <= 65535.
Proof.
  intros Hl Hn. rewrite chksum_sum by done.
  destruct (ones_range (sum16 false l)) as [? ?]; [by apply sum16_nonneg|]. by split; [|lia].
Qed.
(** One turn of either loop. *)
Lemma rep_turn `{StdChksum} addr l pre acc : bytes_ok l → Z.of_nat (length l) < 65536 →
  rep acc (sum16 (parity pre) pre) → acc <= 65535 →
  let acc' := FOLD_U32T (u32 (acc + lwip_standard_chksum addr l)) in
  rep acc' (sum16 (parity pre) (pre ++ l)) ∧ acc' <= 65535.
Proof.
  intros Hl Hn Hr Hb. destruct (rep_chksum addr l Hl Hn) as [R B]. cbv zeta.
  rewrite sum16_app, xorb_nilpotent. pose proof (rep_add _ _ _ _ Hr R) as Ra.
  rewrite u32_small by (destruct Ra; unfold is_u32; lia). apply fold_small; [done|lia].
Qed.
Definition bytes_of (p : list (Z * list Z)) : list Z := concat p.*2.
Lemma bytes_of_ok p : chain_ok p → bytes_ok (bytes_of p).
Proof.
  induction 1 as [|q p [Hq _] _ IH]; [constructor|]. by apply Forall_app.
Qed.

(** The accumulator stands for what was summed, with the bytes the right way round. *)
Definition summed (r : Z * bool) (l : list Z) : Prop := rep r.1 (sum16 r.2 l) ∧ r.1 <= 65535.
Lemma chain_sum_summed `{StdChksum} p acc sw pre : chain_ok p → bytes_ok pre →
  sw = parity pre → summed (acc, sw) pre →
  summed (chain_sum p acc sw) (pre ++ bytes_of p).
Proof.
  intros Hp. revert acc sw pre. induction Hp as [|[addr l] p [Hl Hn] Hp IH]; intros acc sw pre Hpre -> [Hr Hb].
  { by rewrite app_nil_r. }
  cbn [chain_sum]. cbn [fst snd] in *.
  destruct (rep_turn addr l pre acc) as [R B]; [done..|].
  assert (Hok : bytes_ok (pre ++ l)) by (by apply Forall_app).
  pose proof (parity_app pre l) as Hpar. unfold parity at 3 in Hpar.
  change (bytes_of ((addr, l) :: p)) with (l ++ bytes_of p). rewrite app_assoc.
  destruct (Nat.odd (length l)); (apply IH; [done|rewrite Hpar; by destruct (parity pre)|]).
  - by apply rep_flip.
  - done.
Qed.
Lemma chain_sum_partial_summed `{StdChksum} p n acc sw pre : chain_ok p → bytes_ok pre →
  sw = parity pre → summed (acc, sw) pre →
  summed (chain_sum_partial p n acc sw) (pre ++ take n (bytes_of p)).
Proof.
  intros Hp. revert n acc sw pre. induction Hp as [|[addr l] p [Hl Hn] Hp IH]; intros n acc sw pre Hpre -> [Hr Hb].
  { change (bytes_of []) with (@nil Z). by rewrite take_nil, app_nil_r. }
  cbn [chain_sum_partial]. destruct (Nat.ltb_spec 0 n) as [Hn0|Hn0].
  2: { replace n with 0%nat by lia. by rewrite take_0, app_nil_r. }
  change (bytes_of ((addr, l) :: p)) with (l ++ bytes_of p). cbn [fst snd] in *.
  destruct (Nat.ltb_spec n (length l)) as [Hlt|Hge]; cbv zeta.
  - rewrite Nat.sub_diag. rewrite take_app_le by lia.
    assert (Hz : ∀ acc sw, chain_sum_partial p 0 acc sw = (acc, sw)) by (by destruct p as [|[]]).
    assert (Hok : bytes_ok (take n l)) by (by apply Forall_take).
    destruct (rep_turn addr (take n l) pre acc) as [R B]; [done|rewrite length_take; lia|done..|].
    rewrite !Hz. destruct (Nat.odd (length l)); [|by split].
    apply rep_flip; [by apply Forall_app|done..].
  - destruct (rep_turn addr l pre acc) as [R B]; [done..|]. rewrite (firstn_all2 l) by lia.
    rewrite take_app_ge by lia. rewrite app_assoc.
    assert (Hok : bytes_ok (pre ++ l)) by (by apply Forall_app).
    pose proof (parity_app pre l) as Hpar. unfold parity at 3 in Hpar.
    destruct (Nat.odd (length l)); (apply IH; [done|rewrite Hpar; by destruct (parity pre)|]).
    + by apply rep_flip.
    + done.
Qed.
Lemma summed_done r l : bytes_ok l → summed r l →
  let acc := if r.2 then SWAP_BYTES_IN_WORD r.1 else r.1 in rep acc (sum16 false l) ∧ acc <= 65535.
Proof. destruct r as [acc []]; intros Hl [Hr Hb]; [by apply (rep_flip acc true)|done]. Qed.

Lemma lnot16 w : 0 <= w <= 65535 → u16 (Z.lnot w) = not16 w.
Proof.
  intros Hw. unfold u16, Z.lnot, not16. symmetry. apply (Z.mod_unique _ _ (-1)); lia.
Qed.
Lemma land16 w : 0 <= w <= 65535 → Z.land w 65535 = w.
Proof. intros Hw. change 65535 with (Z.ones 16). rewrite Z.land_ones by lia. apply Z.mod_small. lia. Qed.
Lemma inet_chksum_sum `{StdChksum} addr l : bytes_ok l → Z.of_nat (length l) < 65536 →
  inet_chksum addr l = not16 (ones (sum16 false l)).
Proof.
  intros Hl Hn. unfold inet_chksum. rewrite chksum_sum by done. apply lnot16.
  apply ones_range. by apply sum16_nonneg.
Qed.
Lemma inet_chksum_pbuf_sum `{StdChksum} p : chain_ok p →
  inet_chksum_pbuf p = not16 (ones (sum16 false (bytes_of p))).
Proof.
  intros Hp. unfold inet_chksum_pbuf.
  pose proof (chain_sum_summed p 0 false [] Hp ltac:(done) ltac:(done) ltac:(by split; [apply rep_refl|])) as Hs.
  destruct (chain_sum p 0 false) as [acc sw].
  destruct (summed_done _ _ (bytes_of_ok p Hp) Hs) as [R B]. cbn [fst snd] in *.
  rewrite land16 by (destruct R; lia). rewrite <- (rep_ones _ _ R B).
  apply lnot16. destruct R; lia.
Qed.

(** *** The pseudo header *)
Definition pseudo_bytes (src dest proto proto_len : Z) : list Z :=
  le32 src ++ le32 dest ++ [0; proto] ++ [byte_of 1 proto_len; byte_of 0 proto_len].
Lemma byte_of_0 x : byte_of 0 x = x mod 256.
Proof. unfold byte_of. rewrite Z.shiftr_0_r. change 255 with (Z.ones 8). by rewrite Z.land_ones by lia. Qed.
Lemma byte_of_1 x : byte_of 1 x = x / 256 mod 256.
Proof.
  unfold byte_of. rewrite Z.shiftr_div_pow2 by lia. change 255 with (Z.ones 8).
  by rewrite Z.land_ones by lia.
Qed.
Lemma bytes_of_word x : 0 <= x < 65536 → byte_of 0 x + 256 * byte_of 1 x = x.
Proof.
  intros Hx. rewrite byte_of_0, byte_of_1. pose proof (Z.div_mod x 256 ltac:(lia)).
  rewrite (Z.mod_small (x / 256)); [lia|]. split; [apply Z.div_pos; lia|apply Z.div_lt_upper_bound; lia].
Qed.
Lemma land_word x : Z.land x 65535 = byte_of 0 x + 256 * byte_of 1 x.
Proof.
  rewrite byte_of_0, byte_of_1. change 65535 with (Z.ones 16). rewrite Z.land_ones by lia.
  change (2 ^ 16) with (256 * 256). apply Z.rem_mul_r; lia.
Qed.
Lemma byte_of_shift x k : 0 <= k → byte_of k (Z.shiftr x 16) = byte_of (k + 2) x.
Proof. intros Hk. unfold byte_of. rewrite Z.shiftr_shiftr by lia. do 2 f_equal. lia. Qed.
Lemma htons_add x : htons x = 256 * byte_of 0 x + byte_of 1 x.
Proof. unfold htons. apply of_be16_add; apply byte_of_byte. Qed.
Lemma add_pseudo_sum acc s src dest proto len :
  rep acc s → acc <= 65535 → is_byte proto →
  add_pseudo acc src dest proto len = not16 (ones (sum16 false (pseudo_bytes src dest proto len) + s)).
Proof.
  intros Hr Hb Hp. unfold add_pseudo.
  rewrite (land_word src), (land_word dest), !(land_word (Z.shiftr _ _)), !htons_add, !byte_of_shift by lia.
  pose proof (byte_of_byte 0 src). pose proof (byte_of_byte 1 src). pose proof (byte_of_byte 2 src).
  pose proof (byte_of_byte 3 src). pose proof (byte_of_byte 0 dest). pose proof (byte_of_byte 1 dest).
  pose proof (byte_of_byte 2 dest). pose proof (byte_of_byte 3 dest). pose proof (byte_of_byte 0 len).
  pose proof (byte_of_byte 1 len). destruct Hr as [Hacc Hr'].
  assert (E0 : byte_of 0 (u16 proto) = proto).
  { unfold is_byte in Hp. rewrite u16_small, byte_of_0 by lia. apply Z.mod_small. lia. }
  assert (E1 : byte_of 1 (u16 proto) = 0).
  { unfold is_byte in Hp. rewrite u16_small, byte_of_1 by lia. by rewrite Z.div_small by lia. }
  rewrite E0, E1. cbn [Z.add Pos.add]. change (0 + 2) with 2. change (1 + 2) with 3. unfold is_byte in *.
  repeat match goal with |- context [u32 ?x] =>
    lazymatch x with context [u32 _] => fail | _ => rewrite (u32_small x) by (unfold is_u32; lia) end end.
  match goal with |- context [FOLD_U32T (FOLD_U32T ?a)] =>
    replace a with (sum16 false (pseudo_bytes src dest proto len) + acc)
      by (unfold pseudo_bytes, le32; cbn [app sum16 negb]; lia) end.
  destruct (fold_twice (sum16 false (pseudo_bytes src dest proto len) + acc)
              (sum16 false (pseudo_bytes src dest proto len) + s)) as [R B].
  { apply rep_add; [apply rep_refl|by split]. unfold pseudo_bytes, le32. cbn. lia. }
  { unfold pseudo_bytes, le32. cbn. lia. }
  rewrite <- (rep_ones _ _ R B). destruct R. rewrite land16 by lia. by rewrite lnot16 by lia.
Qed.
Lemma inet_chksum_pseudo_sum `{StdChksum} p src dest proto len : chain_ok p → is_byte proto →
  inet_chksum_pseudo p src dest proto len
  = not16 (ones (sum16 false (pseudo_bytes src dest proto len ++ bytes_of p))).
Proof.
  intros Hp Hb. unfold inet_chksum_pseudo.
  pose proof (chain_sum_summed p 0 false [] Hp ltac:(done) ltac:(done) ltac:(by split; [apply rep_refl|])) as Hs.
  destruct (chain_sum p 0 false) as [acc sw].
  destruct (summed_done _ _ (bytes_of_ok p Hp) Hs) as [R B]. cbn [fst snd] in *.
  rewrite (add_pseudo_sum _ _ _ _ _ _ R B Hb). by rewrite sum16_app.
Qed.
(** The partial checksum is that of the message cut after [n] bytes. *)
Lemma inet_chksum_pseudo_partial_sum `{StdChksum} p src dest proto len n :
  chain_ok p → is_byte proto →
  inet_chksum_pseudo_partial p src dest proto len n
  = not16 (ones (sum16 false (pseudo_bytes src dest proto len ++ take n (bytes_of p)))).
Proof.
  intros Hp Hb. unfold inet_chksum_pseudo_partial.
  pose proof (chain_sum_partial_summed p n 0 false [] Hp ltac:(done) ltac:(done)
                ltac:(by split; [apply rep_refl|])) as Hs.
  destruct (chain_sum_partial p n 0 false) as [acc sw].
  destruct (summed_done _ (take n (bytes_of p)) ltac:(apply Forall_take, bytes_of_ok, Hp) Hs) as [R B].
  cbn [fst snd] in *. rewrite (add_pseudo_sum _ _ _ _ _ _ R B Hb). by rewrite sum16_app.
Qed.

(** ** Verifying a checksum *)
Lemma sum16_insert hi l k b b' : l !! k = Some b →
  sum16 hi (<[k := b']> l) = sum16 hi l + (b' - b) * (if xorb hi (Nat.odd k) then 256 else 1).
Proof.
  revert hi k. induction l as [|a l IH]; intros hi [|k] Hk; simplify_eq/=.
  - rewrite xorb_false_r. destruct hi; lia.
  - rewrite (IH _ _ Hk), Nat.odd_succ, <- Nat.negb_odd. destruct hi, (Nat.odd k); cbn [negb xorb]; lia.
Qed.
(** A sum verifies when its one's complement value is 65535. *)
Lemma verify_zero s : 0 < s → not16 (ones s) = 0 ↔ s mod 65535 = 0.
Proof.
  intros Hs. unfold not16, ones. destruct (Z.eqb_spec s 0); [lia|].
  pose proof (Z.div_mod (s - 1) 65535 ltac:(lia)). pose proof (Z.mod_pos_bound (s - 1) 65535 ltac:(lia)).
  split; intros E.
  - apply Z.mod_divide; [lia|]. exists ((s - 1) / 65535 + 1). lia.
  - apply Z.mod_divide in E as [q Hq]; [|lia].
    assert ((s - 1) mod 65535 = 65534) by (symmetry; apply (Z.mod_unique _ _ (q - 1)); lia). lia.
Qed.
Lemma complete_sum s : 0 <= s → 0 < s + not16 (ones s) ∧ (s + not16 (ones s)) mod 65535 = 0.
Proof.
  intros Hs. destruct (ones_range s Hs) as [B (_ & _ & E & Z0)]. unfold not16. split.
  - destruct (decide (s = 0)) as [->|]; [|lia]. cbn. lia.
  - rewrite <- Zplus_mod_idemp_l, <- E, Zplus_mod_idemp_l.
    replace (ones s + (65535 - ones s)) with 65535 by lia. done.
Qed.

(** C28: The three summing routines of [inet_chksum.c] agree.  Whatever the address of the
    buffer (odd, or not a multiple of four), whatever its bytes and its length up to 65535,
    the byte-wise routine, the 16-bit routine with its swap for odd addresses and the
    unrolled 32-bit routine with its carries added back all return the one's complement sum
    of the buffer's little endian words; no accumulator overflows. *)
Theorem chksum_algorithms_agree addr l : bytes_ok l → Z.of_nat (length l) < 65536 →
  chksum_v1 addr l = ones (sum16 false l) ∧
  chksum_v2 addr l = ones (sum16 false l) ∧
  chksum_v3 addr l = ones (sum16 false l).
Proof.
  intros Hl Hn. split; [by apply chksum_v1_sum|]. split; [by apply chksum_v2_sum|by apply chksum_v3_sum].
Qed.
Definition sample : list Z := [69; 0; 0; 60; 28; 70; 64; 0; 64; 6; 255; 255; 172; 16; 10; 99; 172; 16; 10; 12; 7].
Lemma chksum_algorithms_agree_witness :
  chksum_v3 1001 sample = ones (sum16 false sample) ∧ ones (sum16 false sample) ≠ 0.
Proof.
  split; [|vm_compute; discriminate].
  apply (chksum_algorithms_agree 1001 sample); [by repeat (constructor; [vm_compute; intuition discriminate|])|done].
Defined.

(** A checksum computed by [inet_chksum_pseudo] verifies, and detects any damaged byte.
    Take a message with a zero checksum field at an even offset, put the checksum there as
    the sender does, and cut the result into pbufs in any way, odd lengths and odd addresses
    included: the receiver's [inet_chksum_pseudo] gives 0.  If one byte is changed on the way,
    to anything, the receiver's value is not 0, however the damaged message is cut. *)
Theorem pseudo_checksum_verifies `{StdChksum} p q src dest proto len k c :
  chain_ok p → chain_ok q → is_byte proto → Nat.odd k = false →
  bytes_of p !! k = Some 0 → bytes_of p !! S k = Some 0 →
  c = inet_chksum_pseudo p src dest proto len →
  bytes_of q = <[S k := byte_of 1 c]> (<[k := byte_of 0 c]> (bytes_of p)) →
  inet_chksum_pseudo q src dest proto len = 0 ∧
  ∀ r i b b', chain_ok r → bytes_of q !! i = Some b → b' ≠ b →
    bytes_of r = <[i := b']> (bytes_of q) → inet_chksum_pseudo r src dest proto len ≠ 0.
Proof.
  intros Hp Hq Hproto Hk H0 H1 -> Eq.
  assert (Hsum : ∀ l, bytes_ok l → 0 <= sum16 false (pseudo_bytes src dest proto len ++ l)).
  { intros l Hl. apply sum16_nonneg. unfold pseudo_bytes, le32.
    repeat (constructor; [first [apply byte_of_byte|done]|]). done. }
  set (pre := pseudo_bytes src dest proto len) in *.
  rewrite (inet_chksum_pseudo_sum p) in Eq by done. fold pre in Eq.
  set (s := sum16 false (pre ++ bytes_of p)) in *. fold s in Eq.
  set (c := not16 (ones s)) in *. fold c in Eq.
  assert (Hs : 0 <= s) by (by apply Hsum, bytes_of_ok).
  destruct (complete_sum s Hs) as [P M]. fold c in P, M.
  assert (Es : sum16 false (pre ++ bytes_of q) = s + c).
  { unfold s. rewrite Eq, !sum16_app. change (parity pre) with false. cbn [xorb].
    rewrite (sum16_insert _ _ (S k) 0) by (by rewrite list_lookup_insert_ne by lia).
    rewrite (sum16_insert _ _ k 0) by done. rewrite Nat.odd_succ, <- Nat.negb_odd, Hk. cbn [negb xorb].
    destruct (ones_range s Hs) as [B _].
    pose proof (bytes_of_word c ltac:(unfold c, not16; lia)). lia. }
  split.
  - rewrite inet_chksum_pseudo_sum by done. fold pre. rewrite Es. by apply verify_zero.
  - intros r i b b' Hr Hi Hne Er. rewrite inet_chksum_pseudo_sum by done. fold pre.
    pose proof (Hsum _ (bytes_of_ok r Hr)) as Hr0.
    assert (Hb : is_byte b) by (by eapply (Forall_lookup_1 _ _ _ _ (bytes_of_ok q Hq))).
    assert (Hb' : is_byte b').
    { eapply (Forall_lookup_1 _ _ i _ (bytes_of_ok r Hr)). rewrite Er.
      apply list_lookup_insert_eq. by eapply lookup_lt_Some. }
    assert (Er' : sum16 false (pre ++ bytes_of r)
                  = s + c + (b' - b) * (if Nat.odd i then 256 else 1)).
    { rewrite <- Es, Er, !sum16_app, (sum16_insert _ _ i b) by done. change (parity pre) with false.
      cbn [xorb]. lia. }
    unfold is_byte in *. intros E.
    destruct (decide (0 < sum16 false (pre ++ bytes_of r))) as [Hpos|Hz].
    + apply (verify_zero _ Hpos) in E. rewrite Er' in E.
      apply Z.mod_divide in E as [x Hx]; [|lia]. apply Z.mod_divide in M as [y Hy]; [|lia].
      destruct (Nat.odd i); lia.
    + replace (sum16 false (pre ++ bytes_of r)) with 0 in E by lia. done.
Qed.
(** A UDP datagram of nine payload bytes; the receiver has it in two pieces, the second at an
    odd address, and one byte of it damaged. *)
Definition datagram : list Z := [0; 53; 4; 0; 0; 17; 0; 0; 1; 2; 3; 4; 5; 6; 7; 8; 200].
Definition datagram_sum : Z := inet_chksum_pseudo [(1000, datagram)] 16885952 33663168 17 4352.
Definition datagram_sent : list Z := <[7%nat := byte_of 1 datagram_sum]> (<[6%nat := byte_of 0 datagram_sum]> datagram).
Lemma pseudo_checksum_verifies_witness :
  datagram_sum = 16271 ∧
  inet_chksum_pseudo [(2000, take 9 datagram_sent); (3001, drop 9 datagram_sent)] 16885952 33663168 17 4352 = 0 ∧
  inet_chksum_pseudo [(2000, take 9 (<[16%nat := 201]> datagram_sent)); (3001, drop 9 (<[16%nat := 201]> datagram_sent))]
    16885952 33663168 17 4352 ≠ 0.
Proof.
  assert (Hok : ∀ a b l k, bytes_ok l → (length l < 100)%nat → chain_ok [(a, take k l); (b, drop k l)]).
  { intros a b l k Hl Hn. constructor; [|constructor; [|constructor]]; cbn [snd]; split;
      first [by apply Forall_take|by apply Forall_drop|rewrite ?length_take, ?length_drop; lia]. }
  assert (Hd : bytes_ok datagram_sent) by (by apply (bool_decide_eq_true_1 _); vm_compute).
  assert (Hd' : bytes_ok (<[16%nat := 201]> datagram_sent)) by (by apply (bool_decide_eq_true_1 _); vm_compute).
  split; [by vm_compute|].
  destruct (pseudo_checksum_verifies [(1000, datagram)]
    [(2000, take 9 datagram_sent); (3001, drop 9 datagram_sent)] 16885952 33663168 17 4352 6 datagram_sum)
    as [E0 E1].
  - constructor; [|constructor]. split; [by apply (bool_decide_eq_true_1 _); vm_compute|done].
  - by apply Hok; [|vm_compute; lia].
  - unfold is_byte. lia.
  - done.
  - by vm_compute.
  - by vm_compute.
  - reflexivity.
  - by vm_compute.
  - split; [done|]. apply (E1 _ 16%nat 200 201); [by apply Hok; [|vm_compute; lia]|by vm_compute|done|by vm_compute].
Defined.
