(* ===== verification/IpAddr.v ===== *)
(** * Internet addresses ([LwIP/src/core/ipv4/ip_addr.c])

    Conversion of addresses from and to text, and the check of a netmask.  An address is the
    32-bit value of the little endian core, so its first byte in memory is the first number of
    the text.  A C string is the list of its bytes before the terminator; reading past them
    gives the terminator, and the routines never read further. *)
From S2P Require Import Prelude.

Definition IPADDR_NONE : Z := 0xffffffff.

(** ** Text to address *)
(* @ LwIP/src/core/ipv4/ip_addr.c:114-116 isdigit *)
Definition isdigit (c : Z) : bool := (48 <=? c) && (c <=? 57).
(* @ LwIP/src/core/ipv4/ip_addr.c:118-118 islower *)
Definition islower (c : Z) : bool := (97 <=? c) && (c <=? 122).
(* @ LwIP/src/core/ipv4/ip_addr.c:117-117 isxdigit *)
Definition isxdigit (c : Z) : bool :=
  isdigit c || (97 <=? c) && (c <=? 102) || (65 <=? c) && (c <=? 70).
(* @ LwIP/src/core/ipv4/ip_addr.c:119-119 isspace *)
Definition isspace (c : Z) : bool :=
  (c =? 32) || (c =? 12) || (c =? 10) || (c =? 13) || (c =? 9) || (c =? 11).

Definition head (cp : list Z) : Z := match cp with [] => 0 | c :: _ => c end.

(** One number: the inner loop, whose value wraps at 32 bits. *)
(* @ LwIP/src/core/ipv4/ip_addr.c:179-188 ipaddr_aton *)
Fixpoint collect (base : Z) (cp : list Z) (val : Z) : Z * list Z :=
  match cp with
  | [] => (val, [])
  | c :: cp' =>
    if isdigit c then collect base cp' (u32 (val * base + (c - 48)))
    else if (base =? 16) && isxdigit c
    then collect base cp' (Z.lor (u32 (Z.shiftl val 4)) (c + 10 - (if islower c then 97 else 65)))
    else (val, cp)
  end.
(** The base of a number, and where its digits start. *)
(* @ LwIP/src/core/ipv4/ip_addr.c:170-178 ipaddr_aton *)
Definition number_base (cp : list Z) : Z * list Z :=
  if head cp =? 48 then
    let cp := tail cp in
    if (head cp =? 120) || (head cp =? 88) then (16, tail cp) else (8, cp)
  else (10, cp).
(** The outer loop; [room] parts can still be stored. *)
(* @ LwIP/src/core/ipv4/ip_addr.c:160-203 ipaddr_aton *)
Fixpoint aton_parts (room : nat) (cp : list Z) (parts : list Z) : option (list Z * Z * list Z) :=
  if negb (isdigit (head cp)) then None
  else
    let '(base, cp) := number_base cp in
    let '(val, cp) := collect base cp 0 in
    if head cp =? 46 then
      match room with
      | O => None
      | S room => aton_parts room (tail cp) (parts ++ [val])
      end
    else Some (parts, val, cp).
(* @ LwIP/src/core/ipv4/ip_addr.c:151-250 ipaddr_aton *)
Definition ipaddr_aton (cp : list Z) : option Z :=
  match aton_parts 3 cp [] with
  | None => None
  | Some (parts, val, cp) =>
    if negb (head cp =? 0) && negb (isspace (head cp)) then None
    else
      match parts with
      | [] => Some (htonl val)
      | [a] =>
        if val >? 0xffffff then None else Some (htonl (Z.lor val (u32 (Z.shiftl a 24))))
      | [a; b] =>
        if val >? 0xffff then None
        else Some (htonl (Z.lor val (Z.lor (u32 (Z.shiftl a 24)) (u32 (Z.shiftl b 16)))))
      | a :: b :: c :: _ =>
        if val >? 0xff then None
        else Some (htonl (Z.lor val (Z.lor (Z.lor (u32 (Z.shiftl a 24)) (u32 (Z.shiftl b 16)))
                                       (u32 (Z.shiftl c 8)))))
      end
  end.
(* @ LwIP/src/core/ipv4/ip_addr.c:129-138 ipaddr_addr *)
Definition ipaddr_addr (cp : list Z) : Z :=
  match ipaddr_aton cp with Some val => val | None => IPADDR_NONE end.

(** ** Address to text *)
(** The digits of a byte, the last one first. *)
(* @ LwIP/src/core/ipv4/ip_addr.c:292-297 ipaddr_ntoa_r *)
Fixpoint inv_digits (fuel : nat) (ap : Z) : list Z :=
  match fuel with
  | O => []
  | S fuel =>
    let rem := ap mod 10 in
    let ap := ap / 10 in
    (48 + rem) :: (if ap =? 0 then [] else inv_digits fuel ap)
  end.
(** [if (len++ >= buflen) return NULL; *rp++ = c;] *)
(* @ LwIP/src/core/ipv4/ip_addr.c:299-302 ipaddr_ntoa_r *)
Definition put (buflen : nat) (c : Z) (s : list Z) : option (list Z) :=
  if (buflen <=? length s)%nat then None else Some (s ++ [c]).
(* @ LwIP/src/core/ipv4/ip_addr.c:298-303 ipaddr_ntoa_r *)
Fixpoint puts (buflen : nat) (cs : list Z) (s : list Z) : option (list Z) :=
  match cs with [] => Some s | c :: cs => s ← put buflen c s; puts buflen cs s end.
(* @ LwIP/src/core/ipv4/ip_addr.c:291-309 ipaddr_ntoa_r *)
Fixpoint ntoa_loop (buflen : nat) (aps : list Z) (s : list Z) : option (list Z) :=
  match aps with
  | [] => Some s
  | ap :: aps =>
    s ← puts buflen (rev (inv_digits 3 ap)) s;
    s ← put buflen 46 s;
    ntoa_loop buflen aps s
  end.
(** What the buffer holds afterwards, terminator included; [None] is the NULL result. *)
(* @ LwIP/src/core/ipv4/ip_addr.c:276-312 ipaddr_ntoa_r *)
Definition ipaddr_ntoa_r (addr : Z) (buflen : nat) : option (list Z) :=
  s ← ntoa_loop buflen (le32 addr) [];
  Some (take (length s - 1) s ++ [0]).
(* @ LwIP/src/core/ipv4/ip_addr.c:260-265 ipaddr_ntoa *)
Definition ipaddr_ntoa (addr : Z) : option (list Z) := ipaddr_ntoa_r addr 16.

(** ** Netmasks *)
(** [n] bits are left; [mask] is [1 << (n - 1)]. *)
(* @ LwIP/src/core/ipv4/ip_addr.c:96-100 ip4_addr_netmask_valid *)
Fixpoint first_zero (n : nat) (nm : Z) : nat :=
  match n with
  | O => O
  | S m => if Z.land nm (Z.shiftl 1 (Z.of_nat m)) =? 0 then n else first_zero m nm
  end.
(* @ LwIP/src/core/ipv4/ip_addr.c:102-107 ip4_addr_netmask_valid *)
Fixpoint no_one (n : nat) (nm : Z) : bool :=
  match n with
  | O => true
  | S m => if negb (Z.land nm (Z.shiftl 1 (Z.of_nat m)) =? 0) then false else no_one m nm
  end.
(* @ LwIP/src/core/ipv4/ip_addr.c:89-110 ip4_addr_netmask_valid *)
Definition ip4_addr_netmask_valid (netmask : Z) : bool :=
  let nm_hostorder := htonl netmask in
  no_one (first_zero 32 nm_hostorder) nm_hostorder.

(** ** Decimal numbers *)
Definition dec (b : Z) : list Z := rev (inv_digits 3 b).
Definition dotted (a : Z) : list Z :=
  dec (byte_of 0 a) ++ 46 :: dec (byte_of 1 a) ++ 46 :: dec (byte_of 2 a) ++ 46 :: dec (byte_of 3 a).

Lemma isdigit_iff c : isdigit c = true ↔ 48 <= c <= 57.
Proof. unfold isdigit. rewrite andb_true_iff, !Z.leb_le. lia. Qed.
Lemma collect_stop base cp v :
  isdigit (head cp) = false → base ≠ 16 → collect base cp v = (v, cp).
Proof.
  intros Hd Hb. destruct cp as [|c cp]; [done|]. cbn in Hd. cbn [collect]. rewrite Hd.
  by destruct (Z.eqb_spec base 16).
Qed.
Definition value (base : Z) (ds : list Z) (v : Z) : Z := foldl (λ v c, u32 (v * base + (c - 48))) v ds.
Lemma collect_digits base ds cp v : Forall (λ c, isdigit c = true) ds →
  collect base (ds ++ cp) v = collect base cp (value base ds v).
Proof.
  intros H. revert v. induction H as [|c ds Hc _ IH]; intros v; [done|].
  cbn [app collect value foldl]. rewrite Hc. apply IH.
Qed.
(** Bytes are checked one by one. *)
Lemma byte_cases (P : Z → bool) : forallb P (map Z.of_nat (seq 0 256)) = true →
  ∀ b, is_byte b → P b = true.
Proof.
  rewrite forallb_forall. intros H b Hb. apply H. unfold is_byte in Hb.
  apply in_map_iff. exists (Z.to_nat b). split; [lia|]. apply in_seq. lia.
Qed.
Definition dec_good (b : Z) : bool :=
  bool_decide (Forall (λ c, isdigit c = true) (dec b)) && (value 10 (dec b) 0 =? b) &&
  (if b =? 0 then bool_decide (dec b = [48]) else negb (head (dec b) =? 48)) &&
  (1 <=? length (dec b))%nat && (length (dec b) <=? 3)%nat.
Lemma dec_ok b : is_byte b → dec_good b = true.
Proof. apply byte_cases. by vm_compute. Qed.
Lemma dec_digits b : is_byte b → Forall (λ c, isdigit c = true) (dec b) ∧ (1 <= length (dec b) <= 3)%nat.
Proof.
  intros Hb. pose proof (dec_ok b Hb) as H. unfold dec_good in H.
  rewrite !andb_true_iff, bool_decide_eq_true, !Nat.leb_le in H. tauto.
Qed.
(** A decimal number followed by something else is read back. *)
Lemma number_dec b cp : is_byte b → isdigit (head cp) = false → head cp ≠ 120 → head cp ≠ 88 →
  isdigit (head (dec b ++ cp)) = true ∧
  (let '(base, cp') := number_base (dec b ++ cp) in collect base cp' 0) = (b, cp).
Proof.
  intros Hb Hd Hx HX. pose proof (dec_ok b Hb) as H. unfold dec_good in H.
  rewrite !andb_true_iff, bool_decide_eq_true, Z.eqb_eq, !Nat.leb_le in H.
  destruct H as [[[[Hds Hv] Hz] Hl] _]. destruct (Z.eqb_spec b 0) as [->|Hn].
  - apply bool_decide_eq_true in Hz. rewrite Hz. split; [done|]. unfold number_base. cbn.
    destruct (Z.eqb_spec (head cp) 120); [done|]. destruct (Z.eqb_spec (head cp) 88); [done|].
    by apply collect_stop.
  - destruct (dec b) as [|c ds] eqn:E; [cbn in Hl; lia|]. cbn in Hz. apply negb_true_iff in Hz.
    pose proof (Forall_inv Hds) as Hc. split; [done|]. unfold number_base. cbn [app head]. rewrite Hz. rewrite app_comm_cons, collect_digits, Hv by done.
    by apply collect_stop.
Qed.

(** *** Writing *)
Lemma puts_ok buflen cs s : puts buflen cs s =
  if (length s + length cs <=? buflen)%nat || (length cs =? 0)%nat then Some (s ++ cs) else None.
Proof.
  revert s. induction cs as [|c cs IH]; intros s; cbn [puts length].
  { by rewrite orb_true_r, app_nil_r. }
  cbn [Nat.eqb]. rewrite orb_false_r. unfold put at 1.
  destruct (Nat.leb_spec buflen (length s)); cbn.
  - destruct (Nat.leb_spec (length s + S (length cs)) buflen); [lia|done].
  - rewrite IH, length_app, <- app_assoc. cbn [length app].
    destruct cs as [|c' cs]; cbn [length Nat.eqb].
    2: { rewrite orb_false_r.
         by replace (length s + S (S (length cs)))%nat with (length s + 1 + S (length cs))%nat by lia. }
    rewrite orb_true_r. by destruct (Nat.leb_spec (length s + 1) buflen); [|lia].
Qed.
Definition with_dots (aps : list Z) : list Z := concat (map (λ b, dec b ++ [46]) aps).
Lemma ntoa_loop_ok buflen aps s : bytes_ok aps → (length s <= buflen)%nat →
  ntoa_loop buflen aps s =
  if (length s + length (with_dots aps) <=? buflen)%nat then Some (s ++ with_dots aps) else None.
Proof.
  intros H. revert s. induction H as [|b aps Hb _ IH]; intros s Hs.
  { cbn. rewrite Nat.add_0_r, app_nil_r. by destruct (Nat.leb_spec (length s) buflen); [|lia]. }
  cbn [ntoa_loop]. fold (dec b). rewrite puts_ok. destruct (dec_digits b Hb) as [_ Hl].
  destruct (Nat.eqb_spec (length (dec b)) 0); [lia|]. rewrite orb_false_r.
  change (with_dots (b :: aps)) with ((dec b ++ [46]) ++ with_dots aps).
  rewrite !length_app. cbn [length].
  destruct (Nat.leb_spec (length s + length (dec b)) buflen); cbn [mbind option_bind].
  2: { destruct (Nat.leb_spec (length s + (length (dec b) + 1 + length (with_dots aps))) buflen); [lia|done]. }
  unfold put. rewrite length_app. destruct (Nat.leb_spec buflen (length s + length (dec b))); cbn [mbind option_bind].
  { destruct (Nat.leb_spec (length s + (length (dec b) + 1 + length (with_dots aps))) buflen); [lia|done]. }
  rewrite IH by (rewrite !length_app; cbn [length]; lia). rewrite !length_app, <- !app_assoc. cbn [length app].
  by replace (length s + (length (dec b) + 1 + length (with_dots aps)))%nat
    with (length s + length (dec b) + 1 + length (with_dots aps))%nat by lia.
Qed.
Lemma with_dots_le32 a : with_dots (le32 a) = dotted a ++ [46].
Proof. unfold with_dots, dotted, le32. cbn [map concat]. rewrite app_nil_r.
  by repeat (rewrite <- app_assoc; cbn [app]). Qed.
(** The text is written when it fits with its terminator. *)
Lemma ipaddr_ntoa_r_ok a buflen : ipaddr_ntoa_r a buflen =
  if (length (dotted a) <? buflen)%nat then Some (dotted a ++ [0]) else None.
Proof.
  unfold ipaddr_ntoa_r. rewrite ntoa_loop_ok by (apply le32_bytes || (cbn; lia)).
  rewrite with_dots_le32, length_app. cbn [length Nat.add].
  destruct (Nat.leb_spec (length (dotted a) + 1) buflen), (Nat.ltb_spec (length (dotted a)) buflen); try lia; [|done].
  cbn [mbind option_bind app]. rewrite length_app. cbn [length].
  replace (length (dotted a) + 1 - 1)%nat with (length (dotted a)) by lia. by rewrite take_app_length.
Qed.
Lemma dotted_length a : (7 <= length (dotted a) <= 15)%nat.
Proof.
  unfold dotted. rewrite !length_app. cbn [length]. rewrite !length_app. cbn [length]. rewrite length_app.
  cbn [length]. pose proof (dec_digits _ (byte_of_byte 0 a)). pose proof (dec_digits _ (byte_of_byte 1 a)).
  pose proof (dec_digits _ (byte_of_byte 2 a)). pose proof (dec_digits _ (byte_of_byte 3 a)). lia.
Qed.

(** *** Reading back *)
Lemma aton_part room b cp parts : is_byte b → isdigit (head cp) = false → head cp ≠ 120 → head cp ≠ 88 →
  aton_parts room (dec b ++ cp) parts =
  if head cp =? 46 then match room with O => None | S room => aton_parts room (tail cp) (parts ++ [b]) end
  else Some (parts, b, cp).
Proof.
  intros Hb H1 H2 H3. destruct (number_dec b cp Hb H1 H2 H3) as [Hd Hn].
  destruct room; cbn [aton_parts]; rewrite Hd; cbn [negb];
    destruct (number_base (dec b ++ cp)) as [base cp']; by rewrite Hn.
Qed.
Lemma aton_dotted a rest : isdigit (head rest) = false → head rest ≠ 120 → head rest ≠ 88 → head rest ≠ 46 →
  aton_parts 3 (dotted a ++ rest) [] =
  Some ([byte_of 0 a; byte_of 1 a; byte_of 2 a], byte_of 3 a, rest).
Proof.
  intros H1 H2 H3 H4. unfold dotted. pose proof (λ k, byte_of_byte k a) as Hb.
  rewrite <- !app_assoc. cbn [app]. rewrite aton_part by done. cbn [head tail].
  rewrite <- !app_assoc. cbn [app Z.eqb Pos.eqb]. rewrite aton_part by done. cbn [head tail].
  rewrite <- !app_assoc. cbn [app Z.eqb Pos.eqb]. rewrite aton_part by done. cbn [head tail app Z.eqb Pos.eqb].
  rewrite aton_part by done. by destruct (Z.eqb_spec (head rest) 46).
Qed.

(** ** Netmasks *)
Lemma land_bit nm m : 0 <= m → (Z.land nm (Z.shiftl 1 m) =? 0) = negb (Z.testbit nm m).
Proof.
  intros Hm. rewrite Z.shiftl_1_l. destruct (Z.testbit nm m) eqn:E.
  - apply Z.eqb_neq. intros Hz. assert (Hb : Z.testbit (Z.land nm (2 ^ m)) m = true).
    { by rewrite Z.land_spec, E, Z.pow2_bits_true. }
    by rewrite Hz, Z.bits_0 in Hb.
  - apply Z.eqb_eq, Z.bits_inj'. intros n Hn. rewrite Z.land_spec, Z.pow2_bits_eqb, Z.bits_0 by lia.
    destruct (Z.eqb_spec m n) as [->|]; [by rewrite E|apply andb_false_r].
Qed.
Lemma no_one_spec n nm : no_one n nm = true ↔ nm mod 2 ^ Z.of_nat n = 0.
Proof.
  induction n as [|n IH]; cbn [no_one].
  { change (2 ^ Z.of_nat 0) with 1. by rewrite Z.mod_1_r. }
  rewrite land_bit, negb_involutive, Nat2Z.inj_succ, Z.pow_succ_r by lia.
  rewrite (Z.mul_comm 2), Z.rem_mul_r by (lia || apply Z.pow_nonzero; lia).
  rewrite <- (Z.testbit_spec' nm (Z.of_nat n)) by lia.
  pose proof (Z.mod_pos_bound nm (2 ^ Z.of_nat n) ltac:(apply Z.pow_pos_nonneg; lia)).
  assert (0 < 2 ^ Z.of_nat n) by (apply Z.pow_pos_nonneg; lia).
  destruct (Z.testbit nm (Z.of_nat n)); cbn [Z.b2z]; [split; [done|lia]|]. rewrite IH. lia.
Qed.
Lemma first_zero_spec n nm : 0 <= nm < 2 ^ Z.of_nat n → let m := first_zero n nm in
  (m <= n)%nat ∧ nm / 2 ^ Z.of_nat m = 2 ^ Z.of_nat (n - m) - 1 ∧
  (m = O ∨ Z.testbit nm (Z.of_nat m - 1) = false).
Proof.
  intros H. cut (∀ n' k, n = (n' + k)%nat → nm / 2 ^ Z.of_nat n' = 2 ^ Z.of_nat k - 1 →
    let m := first_zero n' nm in (m <= n')%nat ∧ nm / 2 ^ Z.of_nat m = 2 ^ Z.of_nat (n - m) - 1 ∧
    (m = O ∨ Z.testbit nm (Z.of_nat m - 1) = false)).
  { intros G. apply (G n O); [lia|]. by rewrite Z.div_small. }
  induction n' as [|n' IH]; intros k -> E; cbn [first_zero].
  { rewrite Nat.sub_0_r, Nat.add_0_l. cbn zeta. split; [lia|]. split; [exact E|by left]. }
  rewrite land_bit by lia. destruct (Z.testbit nm (Z.of_nat n')) eqn:Eb; cbn [negb]; cbv zeta.
  - destruct (IH (S k)) as (H1 & H2 & H3); [lia| |by split; [lia|]].
    apply Z.testbit_true in Eb; [|lia].
    pose proof (Z.div_mod (nm / 2 ^ Z.of_nat n') 2 ltac:(lia)) as Hd.
    rewrite Z.div_div in Hd by (lia || apply Z.pow_nonzero; lia).
    rewrite Nat2Z.inj_succ, Z.pow_succ_r in E by lia. rewrite (Z.mul_comm 2) in E.
    rewrite E, Eb in Hd. rewrite Nat2Z.inj_succ, Z.pow_succ_r by lia. lia.
  - split; [lia|]. split; [|right; rewrite <- Eb; f_equal; lia].
    by replace (S n' + k - S n')%nat with k by lia.
Qed.
(** [ip4_addr_netmask_valid] accepts exactly the 33 netmasks: those whose host order value
    is a run of ones followed by zeros, 0.0.0.0 and 255.255.255.255 included. *)
Theorem netmask_valid_iff netmask :
  ip4_addr_netmask_valid netmask = true ↔
  ∃ k : nat, (k <= 32)%nat ∧ htonl netmask = 2 ^ 32 - 2 ^ Z.of_nat k.
Proof.
  unfold ip4_addr_netmask_valid. pose proof (htonl_u32 netmask) as Hx. unfold is_u32 in Hx.
  set (x := htonl netmask) in *. rewrite no_one_spec.
  destruct (first_zero_spec 32 x Hx) as (Hm & Hd & Hz). set (m := first_zero 32 x) in *.
  assert (Hp : ∀ k, 0 < 2 ^ Z.of_nat k) by (intros; apply Z.pow_pos_nonneg; lia).
  assert (Hpp : ∀ a b : nat, 2 ^ Z.of_nat (a + b) = 2 ^ Z.of_nat a * 2 ^ Z.of_nat b).
  { intros a b. by rewrite Nat2Z.inj_add, Z.pow_add_r by lia. }
  pose proof (Hpp m (32 - m)%nat) as H32. replace (m + (32 - m))%nat with 32%nat in H32 by lia.
  change (2 ^ Z.of_nat 32) with (2 ^ 32) in H32. split.
  - intros E. exists m. split; [done|]. pose proof (Z.div_mod x (2 ^ Z.of_nat m) ltac:(specialize (Hp m); lia)) as D.
    rewrite Hd, E in D. lia.
  - intros (k & Hk & E). pose proof (Hpp k (32 - k)%nat) as Hk32.
    replace (k + (32 - k))%nat with 32%nat in Hk32 by lia. change (2 ^ Z.of_nat 32) with (2 ^ 32) in Hk32.
    destruct (le_lt_dec m k) as [Hle|Hlt].
    + apply Z.mod_divide; [specialize (Hp m); lia|]. exists (2 ^ Z.of_nat (32 - m) - 2 ^ Z.of_nat (k - m)).
      pose proof (Hpp m (k - m)%nat) as Hkm. replace (m + (k - m))%nat with k in Hkm by lia. lia.
    + exfalso. destruct Hz as [|Hz]; [lia|].
      assert (Hb : Z.testbit x (Z.of_nat m - 1) = true); [|by rewrite Hz in Hb].
      replace x with ((2 ^ Z.of_nat (32 - k) - 1) * 2 ^ Z.of_nat k) by lia.
      rewrite Z.mul_pow2_bits by lia. rewrite Z.sub_1_r, <- Z.ones_equiv.
      apply Z.ones_spec_low. lia.
Qed.
Example netmask_24 : ip4_addr_netmask_valid 0x00ffffff = true ∧ ip4_addr_netmask_valid 0x00ff00ff = false.
Proof. by vm_compute. Qed.

(** Addresses survive text.  [ipaddr_ntoa_r] writes the dotted decimal form of any address
    and its terminator when they fit into the buffer, and returns NULL, having written no byte
    outside it, when they do not; sixteen bytes, the size [ipaddr_ntoa] uses, are always
    enough; and [ipaddr_aton] and [ipaddr_addr] read the address back. *)
Theorem ipaddr_text_roundtrip a : is_u32 a →
  (∀ buflen, ipaddr_ntoa_r a buflen =
     if (length (dotted a) <? buflen)%nat then Some (dotted a ++ [0]) else None) ∧
  ipaddr_ntoa a = Some (dotted a ++ [0]) ∧
  ipaddr_aton (dotted a) = Some a ∧ ipaddr_addr (dotted a) = a.
Proof.
  intros Ha. pose proof (dotted_length a). split; [apply ipaddr_ntoa_r_ok|]. split.
  { unfold ipaddr_ntoa. rewrite ipaddr_ntoa_r_ok. by destruct (Nat.ltb_spec (length (dotted a)) 16); [|lia]. }
  assert (E : ipaddr_aton (dotted a) = Some a); [|unfold ipaddr_addr; by rewrite E].
  unfold ipaddr_aton. rewrite <- (app_nil_r (dotted a)). rewrite aton_dotted by done. cbn [head Z.eqb negb andb].
  pose proof (byte_of_byte 0 a) as H0. pose proof (byte_of_byte 1 a) as H1. pose proof (byte_of_byte 2 a) as H2.
  pose proof (byte_of_byte 3 a) as H3. unfold is_byte in *.
  destruct (Z.gtb_spec (byte_of 3 a) 255); [lia|].
  rewrite !u32_small by (unfold is_u32; rewrite Z.shiftl_mul_pow2; lia).
  f_equal. rewrite <- (htonl_involutive a) at 5 by done. f_equal. unfold htonl.
  apply Z.bits_inj'. intros n Hn. rewrite !Z.lor_spec. btauto.
Qed.
Lemma ipaddr_text_roundtrip_witness :
  dotted 0xfe0aa8c0 = [49; 57; 50; 46; 49; 54; 56; 46; 49; 48; 46; 50; 53; 52] ∧ ipaddr_aton (dotted 0xfe0aa8c0) = Some 0xfe0aa8c0.
Proof.
  split; [by vm_compute|]. apply (ipaddr_text_roundtrip 0xfe0aa8c0). vm_compute. intuition discriminate.
Defined.

(** Only the last number is checked: "300.0.0.1" is taken for 44.0.0.1, and
    "4294967297", which does not fit 32 bits, for 0.0.0.1. *)
Example aton_first_parts_unchecked :
  ipaddr_aton [51; 48; 48; 46; 48; 46; 48; 46; 49] = Some 0x0100002c ∧
  ipaddr_aton [52; 50; 57; 52; 57; 54; 55; 50; 57; 55] = Some 0x01000000.
Proof. by vm_compute. Qed.
