(* ===== verification/Dhcp.v ===== *)
(** The DHCP server of the soft access point: [App/DhcpServer/dhcp_server.c].

    Its state is the static [DhcpServer] (an 8-entry client table), the static
    message buffer [DhcpMsg], and the number of pending tick timers.  A callback
    of the stack is one function of that state; the datagrams it sends are part of
    the result.  Addresses are kept as the code keeps them, as 32-bit words whose
    memory image is in network order.  What other code decides is an argument:
    whether [pbuf_alloc] succeeds, what [udp_new] returns, and what
    [APGetStationStatus] answers.  [ram] are the bytes that follow [DhcpMsg] in
    memory, which the option parser can reach. *)
From S2P Require Import Prelude Pbuf.

Definition DHCPS_ERR_SUCCESS : Z := 0.
Definition DHCPS_ERR_LINKDOWN : Z := -1.
Definition DHCPS_ERR_PARAM : Z := -2.
Definition DHCPS_ERR_MEM : Z := -3.
Definition DHCPS_ERR_NOT_BIND : Z := -4.
Definition DHCPS_ERR_NOT_FOUND : Z := -5.
Definition DHCPS_ERR_INACTIVE : Z := -6.
Definition DHCPS_HISTORY_CLIENT_NUM : nat := 8.
Definition DHCP_DEFAULT_LEASE_TIME : Z := 3600 * 24 * 365 * 10.
Definition DHCP_DEFFAULT_TIMEOUT : Z := 10.
Definition DHCP_MAGIC : Z := 0x63825363.
Definition DHCP_MSG_SIZE : nat := 548.
Definition DHCP_MSG_DISCOVER : Z := 1.
Definition DHCP_MSG_OFFER : Z := 2.
Definition DHCP_MSG_REQUEST : Z := 3.
Definition DHCP_MSG_DECLINE : Z := 4.
Definition DHCP_MSG_ACK : Z := 5.
Definition DHCP_MSG_NAK : Z := 6.
Definition DHCP_MSG_RELEASE : Z := 7.

(* @ App/DhcpServer/dhcp_server.h:67-73 DHCP_CLIENT_STATE *)
Inductive DHCP_CLIENT_STATE := STATE_IDLE | STATE_SELECT | STATE_REQUEST | STATE_BIND.
#[export] Instance DHCP_CLIENT_STATE_eq_dec : EqDecision DHCP_CLIENT_STATE.
Proof. solve_decision. Defined.

(* @ App/DhcpServer/dhcp_server.h:75-83 DHCP_CLIENT *)
Record DHCP_CLIENT := DhcpClient {
  cl_state : DHCP_CLIENT_STATE; cl_timeout : Z; cl_ip : Z; cl_mac : list Z; cl_lease : Z }.

(* @ App/DhcpServer/dhcp_server.h:85-98 DHCP_SERVER *)
Record DHCP_SERVER := DhcpServer {
  ds_enable : Z; ds_socket : Z; ds_server_ip : Z; ds_start_ip : Z; ds_mask : Z;
  ds_gateway : Z; ds_dns1 : Z; ds_dns2 : Z; ds_lease_time : Z; ds_clients : list DHCP_CLIENT }.

(** [dh_msg] is the content of the static [DhcpMsg]; [dh_ticks] counts the pending
    [_DhcpTickHandle] timeouts. *)
Record dhcp_state := DhcpState { dh_srv : DHCP_SERVER; dh_msg : list Z; dh_ticks : nat }.

Definition set_state (v : DHCP_CLIENT_STATE) (c : DHCP_CLIENT) : DHCP_CLIENT :=
  DhcpClient v (cl_timeout c) (cl_ip c) (cl_mac c) (cl_lease c).
Definition set_timeout (v : Z) (c : DHCP_CLIENT) : DHCP_CLIENT :=
  DhcpClient (cl_state c) v (cl_ip c) (cl_mac c) (cl_lease c).
Definition set_mac (v : list Z) (c : DHCP_CLIENT) : DHCP_CLIENT :=
  DhcpClient (cl_state c) (cl_timeout c) (cl_ip c) v (cl_lease c).
Definition set_lease (v : Z) (c : DHCP_CLIENT) : DHCP_CLIENT :=
  DhcpClient (cl_state c) (cl_timeout c) (cl_ip c) (cl_mac c) v.
Definition set_clients (v : list DHCP_CLIENT) (s : DHCP_SERVER) : DHCP_SERVER :=
  DhcpServer (ds_enable s) (ds_socket s) (ds_server_ip s) (ds_start_ip s) (ds_mask s)
    (ds_gateway s) (ds_dns1 s) (ds_dns2 s) (ds_lease_time s) v.

Definition zero_mac : list Z := replicate 6 0.
Definition is_idle (c : DHCP_CLIENT) : bool := bool_decide (cl_state c = STATE_IDLE).
(** [memcmp(a, b, 6) == 0] *)
Definition mac_eq (a b : list Z) : bool := bool_decide (take 6 a = take 6 b).

(** ** Tick *)

Section Station.
Context (APGetStationStatus : list Z → Z).

(** [pClient->Timeout && (--pClient->Timeout == 0)]: decremented when nonzero. *)
(* @ App/DhcpServer/dhcp_server.c:118-142 _DhcpTickHandle *)
Definition tick_client (c : DHCP_CLIENT) : DHCP_CLIENT :=
  match cl_state c with
  | STATE_REQUEST =>
    if cl_timeout c =? 0 then c else
    let c := set_timeout (cl_timeout c - 1) c in
    if cl_timeout c =? 0 then set_state STATE_IDLE (set_mac zero_mac c) else c
  | STATE_BIND =>
    let '(c, over) := if cl_lease c =? 0 then (c, false)
                      else (set_lease (cl_lease c - 1) c, cl_lease c - 1 =? 0) in
    if over then set_state STATE_IDLE c
    else if APGetStationStatus (cl_mac c) =? 0 then set_state STATE_IDLE c
    else c
  | _ => c
  end.
(** The timeout that called the handler has expired; it is re-armed at the end. *)
(* @ App/DhcpServer/dhcp_server.c:106-147 _DhcpTickHandle *)
Definition _DhcpTickHandle (s : dhcp_state) : dhcp_state :=
  let expired := (dh_ticks s - 1)%nat in
  if ds_enable (dh_srv s) =? 0 then DhcpState (dh_srv s) (dh_msg s) expired
  else DhcpState (set_clients (map tick_client (ds_clients (dh_srv s))) (dh_srv s))
         (dh_msg s) (S expired).
End Station.

(** ** Option parser *)

Record parse_result := ParseResult {
  pr_ret : Z; pr_type : Z; pr_reqip : Z; pr_server : Z }.

Definition set_type (v : Z) (r : parse_result) : parse_result :=
  ParseResult (Z.lor (pr_ret r) 1) v (pr_reqip r) (pr_server r).
Definition set_reqip (v : Z) (r : parse_result) : parse_result :=
  ParseResult (Z.lor (pr_ret r) 2) (pr_type r) v (pr_server r).
Definition set_server (v : Z) (r : parse_result) : parse_result :=
  ParseResult (Z.lor (pr_ret r) 4) (pr_type r) (pr_reqip r) v.

(** A 32-bit word copied out of memory with [NST_MOVE_MEM(.., p, 4)]. *)
Definition load32 (m : list Z) (p : nat) : option Z :=
  b0 ← m !! p; b1 ← m !! (p + 1)%nat; b2 ← m !! (p + 2)%nat; b3 ← m !! (p + 3)%nat;
  Some (of_le32 b0 b1 b2 b3).

(** [m] is [DhcpMsg] and what follows it; [p] the offset of [pDhcpOptions].  Each
    round advances [p] by at least one, so [309] rounds of fuel cover the 308
    option bytes. *)
(* @ App/DhcpServer/dhcp_server.c:160-199 _ParseDhcpOptions *)
Fixpoint parse_loop (fuel : nat) (m : list Z) (p : nat) (r : parse_result) : option parse_result :=
  match fuel with
  | O => None
  | S fuel =>
    b ← m !! p;
    if negb (b =? 255) && (p <? DHCP_MSG_SIZE)%nat then
      if b =? 0 then parse_loop fuel m (p + 1) r
      else
        len ← m !! (p + 1)%nat;
        r ← (if b =? 53 then t ← m !! (p + 2)%nat; Some (set_type t r)
             else if b =? 50 then v ← load32 m (p + 2); Some (set_reqip v r)
             else if b =? 54 then v ← load32 m (p + 2); Some (set_server v r)
             else Some r);
        parse_loop fuel m (p + 2 + Z.to_nat len) r
    else Some r
  end.
(* @ App/DhcpServer/dhcp_server.c:149-202 _ParseDhcpOptions *)
Definition _ParseDhcpOptions (msg ram : list Z) (r : parse_result) : option parse_result :=
  parse_loop 309 (msg ++ ram) 240 r.

(** ** Client table *)

(** The pointers of [_ClientTableLookup], as table indices. *)
Record lookup_ptrs := LookupPtrs {
  pFreeClient : option nat; pReqClient : option nat; pMyHistoryClient : option nat;
  pHistoryClient : option nat; pMyClient : option nat; IpUnavailable : bool }.

Definition first_match (old : option nat) (cond : bool) (i : nat) : option nat :=
  match old with None => if cond then Some i else None | _ => old end.

(* @ App/DhcpServer/dhcp_server.c:224-266 _ClientTableLookup *)
Definition lookup_step (MacAddr : list Z) (ReqIpAddr : Z) (acc : nat * lookup_ptrs)
    (c : DHCP_CLIENT) : nat * lookup_ptrs :=
  let '(i, p) := acc in
  (S i,
   if is_idle c then
     LookupPtrs
       (first_match (pFreeClient p) (mac_eq (cl_mac c) zero_mac) i)
       (first_match (pReqClient p) (cl_ip c =? ReqIpAddr) i)
       (first_match (pMyHistoryClient p) (mac_eq (cl_mac c) MacAddr) i)
       (first_match (pHistoryClient p) (negb (mac_eq (cl_mac c) zero_mac)) i)
       (pMyClient p) (IpUnavailable p)
   else
     LookupPtrs (pFreeClient p) (pReqClient p) (pMyHistoryClient p) (pHistoryClient p)
       (if mac_eq (cl_mac c) MacAddr then Some i else pMyClient p)
       (if mac_eq (cl_mac c) MacAddr then IpUnavailable p
        else if cl_ip c =? ReqIpAddr then true else IpUnavailable p)).
Definition lookup_ptrs0 : lookup_ptrs := LookupPtrs None None None None None false.
Definition table_scan (MacAddr : list Z) (ReqIpAddr : Z) (cs : list DHCP_CLIENT) : lookup_ptrs :=
  (foldl (lookup_step MacAddr ReqIpAddr) (0%nat, lookup_ptrs0) cs).2.

(** [if (p->State != BIND) memset(p->MacAddr, 0, 6); p->State = IDLE;] *)
(* @ App/DhcpServer/dhcp_server.c:402-406 _ClientTableLookup *)
Definition drop_client (c : DHCP_CLIENT) : DHCP_CLIENT :=
  set_state STATE_IDLE
    (if bool_decide (cl_state c = STATE_BIND) then c else set_mac zero_mac c).

(** The [switch] on the message type: the table after it and the entry chosen. *)
(* @ App/DhcpServer/dhcp_server.c:268-428 _ClientTableLookup *)
Definition table_choose (server_ip : Z) (p : lookup_ptrs) (MsgType ServerId : Z)
    (cs : list DHCP_CLIENT) : list DHCP_CLIENT * option nat :=
  let to_me := (ServerId =? 0) || (server_ip =? ServerId) in
  if MsgType =? DHCP_MSG_DISCOVER then
    match pMyClient p with
    | Some m =>
      let cs := alter (set_state STATE_IDLE) m cs in
      match pReqClient p with
      | Some r =>
        (alter (λ c, if bool_decide (cl_state c = STATE_BIND) then c else set_mac zero_mac c) m cs,
         Some r)
      | None => (cs, Some m)
      end
    | None =>
      (cs,
       match pReqClient p with
       | Some r => Some r
       | None =>
         match pMyHistoryClient p with
         | Some r => Some r
         | None => match pFreeClient p with Some r => Some r | None => pHistoryClient p end
         end
       end)
    end
  else if MsgType =? DHCP_MSG_REQUEST then
    match pMyClient p with
    | Some m =>
      if IpUnavailable p then (alter drop_client m cs, None)
      else
        match pReqClient p with
        | Some r => (alter drop_client m cs, if to_me then Some r else None)
        | None => (cs, if to_me then Some m else None)
        end
    | None =>
      (cs, if IpUnavailable p then None else if to_me then pReqClient p else None)
    end
  else if (MsgType =? DHCP_MSG_RELEASE) || (MsgType =? DHCP_MSG_DECLINE) then
    (match pMyClient p with Some m => alter drop_client m cs | None => cs end, None)
  else (cs, None).

(* @ App/DhcpServer/dhcp_server.c:204-437 _ClientTableLookup *)
Definition _ClientTableLookup (s : DHCP_SERVER) (MacAddr : list Z) (MsgType ReqIpAddr ServerId : Z)
    : DHCP_SERVER * option nat :=
  let p := table_scan MacAddr ReqIpAddr (ds_clients s) in
  let '(cs, ret) := table_choose (ds_server_ip s) p MsgType ServerId (ds_clients s) in
  match ret with
  | Some i => (set_clients (alter (set_mac MacAddr) i cs) s, Some i)
  | None => (set_clients cs s, None)
  end.

(** ** Replies *)

(* @ App/DhcpServer/dhcp_server.c:37-46 DHCP_SET_OPTION_SUBNET_MASK *)
Definition DHCP_SET_OPTION_SUBNET_MASK (mask : Z) : list Z := [1; 4] ++ le32 mask.
(* @ App/DhcpServer/dhcp_server.c:48-57 DHCP_SET_OPTION_GW *)
Definition DHCP_SET_OPTION_GW (gw : Z) : list Z := [3; 4] ++ le32 gw.
(* @ App/DhcpServer/dhcp_server.c:59-68 DHCP_SET_OPTION_DNS *)
Definition DHCP_SET_OPTION_DNS (dns : Z) : list Z := [6; 4] ++ le32 dns.
(* @ App/DhcpServer/dhcp_server.c:70-79 DHCP_SET_OPTION_SERVER_ID *)
Definition DHCP_SET_OPTION_SERVER_ID (ip : Z) : list Z := [54; 4] ++ le32 ip.
(* @ App/DhcpServer/dhcp_server.c:81-87 DHCP_SET_OPTION_MSG_TYPE *)
Definition DHCP_SET_OPTION_MSG_TYPE (type : Z) : list Z := [53; 1; u8 type].
(* @ App/DhcpServer/dhcp_server.c:89-98 DHCP_SET_OPTION_LEASE_TIME *)
Definition DHCP_SET_OPTION_LEASE_TIME (time : Z) : list Z := [51; 4] ++ le32 (htonl time).
(* @ App/DhcpServer/dhcp_server.c:100-104 DHCP_SET_OPTION_END *)
Definition DHCP_SET_OPTION_END : list Z := [255].

(** The header fields all replies set on the zeroed buffer. *)
(* @ App/DhcpServer/dhcp_server.c:493-504 _DHCPAckGenAndSend *)
Definition reply_header (xid yiaddr siaddr : Z) (mac : list Z) : list Z :=
  let m := replicate DHCP_MSG_SIZE 0 in
  let m := store_at 0 [2; 1; 6] m in
  let m := store_at 4 (le32 (htonl xid)) m in
  let m := store_at 16 (le32 yiaddr) m in
  let m := store_at 20 (le32 siaddr) m in
  let m := store_at 28 (take 6 mac) m in
  store_at 236 (le32 (htonl DHCP_MAGIC)) m.

(** The options of an OFFER or ACK. *)
(* @ App/DhcpServer/dhcp_server.c:509-527 _DHCPAckGenAndSend *)
Definition lease_options (s : DHCP_SERVER) (type : Z) : list Z :=
  DHCP_SET_OPTION_MSG_TYPE type ++ DHCP_SET_OPTION_LEASE_TIME DHCP_DEFAULT_LEASE_TIME
  ++ DHCP_SET_OPTION_SERVER_ID (ds_server_ip s) ++ DHCP_SET_OPTION_SUBNET_MASK (ds_mask s)
  ++ DHCP_SET_OPTION_GW (ds_gateway s) ++ DHCP_SET_OPTION_DNS (ds_dns1 s)
  ++ DHCP_SET_OPTION_END.

(** The buffer afterwards and the datagram broadcast; [ok] is the answer of
    [pbuf_alloc]. *)
Definition send_reply (ok : bool) (msg header opts : list Z) : list Z * list (list Z) :=
  if ok then
    let m := store_at 240 opts header in
    (m, [take (240 + length opts) m])
  else (msg, []).
(* @ App/DhcpServer/dhcp_server.c:439-478 _DHCPNakGenAndSend *)
Definition _DHCPNakGenAndSend (ok : bool) (s : DHCP_SERVER) (msg mac : list Z) (xid : Z)
    : list Z * list (list Z) :=
  send_reply ok msg (reply_header xid 0 (ds_server_ip s) mac)
    (DHCP_SET_OPTION_MSG_TYPE DHCP_MSG_NAK ++ DHCP_SET_OPTION_END).
(* @ App/DhcpServer/dhcp_server.c:480-535 _DHCPAckGenAndSend *)
Definition _DHCPAckGenAndSend (ok : bool) (s : DHCP_SERVER) (msg : list Z) (c : DHCP_CLIENT)
    (mac : list Z) (xid : Z) : list Z * list (list Z) :=
  send_reply ok msg (reply_header xid (cl_ip c) 0 mac) (lease_options s DHCP_MSG_ACK).
(* @ App/DhcpServer/dhcp_server.c:537-592 _DHCPOfferGenAndSend *)
Definition _DHCPOfferGenAndSend (ok : bool) (s : DHCP_SERVER) (msg : list Z) (c : DHCP_CLIENT)
    (mac : list Z) (xid : Z) : list Z * list (list Z) :=
  send_reply ok msg (reply_header xid (cl_ip c) 0 mac) (lease_options s DHCP_MSG_OFFER).

(** ** Client state machine *)

(* @ App/DhcpServer/dhcp_server.c:594-608 _CleanClientHistory *)
Definition _CleanClientHistory (mac : list Z) (cs : list DHCP_CLIENT) : list DHCP_CLIENT :=
  map (λ c, if is_idle c && mac_eq (cl_mac c) mac then set_mac zero_mac c else c) cs.

Definition bind_client (c : DHCP_CLIENT) : DHCP_CLIENT :=
  set_state STATE_BIND (set_lease DHCP_DEFAULT_LEASE_TIME c).
Definition offer_client (c : DHCP_CLIENT) : DHCP_CLIENT :=
  set_state STATE_REQUEST (set_timeout DHCP_DEFFAULT_TIMEOUT c).

(** The switch falls through from IDLE (any type but REQUEST) and SELECT to the
    OFFER. *)
(* @ App/DhcpServer/dhcp_server.c:610-649 _DhcpClientSMEHandle *)
Definition _DhcpClientSMEHandle (ok : bool) (s : DHCP_SERVER) (msg : list Z) (i : nat)
    (MsgType Xid : Z) : DHCP_SERVER * list Z * list (list Z) :=
  match ds_clients s !! i with
  | None => (s, msg, [])
  | Some c =>
    let ack :=
      match cl_state c with
      | STATE_IDLE => MsgType =? DHCP_MSG_REQUEST
      | STATE_SELECT => false
      | STATE_REQUEST | STATE_BIND => true
      end in
    if ack then
      let '(msg, sent) := _DHCPAckGenAndSend ok s msg c (cl_mac c) Xid in
      (set_clients (_CleanClientHistory (cl_mac c) (alter bind_client i (ds_clients s))) s, msg, sent)
    else
      let '(msg, sent) := _DHCPOfferGenAndSend ok s msg c (cl_mac c) Xid in
      (set_clients (alter offer_client i (ds_clients s)) s, msg, sent)
  end.

(** ** Receive callback *)

Definition field32 (m : list Z) (p : nat) : Z := default 0 (load32 m p).

(* @ App/DhcpServer/dhcp_server.c:669-724 DHCPS_RecvCb *)
Definition DHCPS_RecvCb (ram : list Z) (ok : bool) (P : pbuf) (s : dhcp_state)
    : option (dhcp_state * list (list Z)) :=
  let '(msg, MsgLen) := pbuf_copy_partial P (dh_msg s) DHCP_MSG_SIZE 0 in
  let drop := Some (DhcpState (dh_srv s) msg (dh_ticks s), []) in
  if (MsgLen =? 0) || negb (msg !!! 0%nat =? 1) || negb (htonl (field32 msg 236) =? DHCP_MAGIC)
     || negb (msg !!! 1%nat =? 1)
  then drop
  else
    r ← _ParseDhcpOptions msg ram (ParseResult 0 0xff 0 0);
    if Z.land (pr_ret r) 1 =? 0 then drop
    else
      let Xid := htonl (field32 msg 4) in
      let mac := slice 28 6 msg in
      let '(srv, e) := _ClientTableLookup (dh_srv s) mac (pr_type r) (pr_reqip r) (pr_server r) in
      match e with
      | None =>
        let '(msg, sent) :=
          if negb (pr_type r =? DHCP_MSG_RELEASE) && negb (pr_type r =? DHCP_MSG_DECLINE)
          then _DHCPNakGenAndSend ok srv msg mac Xid else (msg, []) in
        Some (DhcpState srv msg (dh_ticks s), sent)
      | Some i =>
        let '(srv, msg, sent) := _DhcpClientSMEHandle ok srv msg i (pr_type r) Xid in
        Some (DhcpState srv msg (dh_ticks s), sent)
      end.

(** ** Management calls *)

Fixpoint delete_client (mac : list Z) (cs : list DHCP_CLIENT) : list DHCP_CLIENT * Z :=
  match cs with
  | [] => ([], DHCPS_ERR_NOT_FOUND)
  | c :: tl =>
    if negb (is_idle c) && mac_eq (cl_mac c) mac then
      if bool_decide (cl_state c = STATE_BIND)
      then (set_state STATE_IDLE c :: tl, DHCPS_ERR_SUCCESS)
      else (c :: tl, DHCPS_ERR_NOT_BIND)
    else let '(tl, r) := delete_client mac tl in (c :: tl, r)
  end.
(** [None] for [MacAddr] is the NULL pointer. *)
(* @ App/DhcpServer/dhcp_server.c:743-779 DHCPS_ClientDelete *)
Definition DHCPS_ClientDelete (MacAddr : option (list Z)) (s : dhcp_state) : dhcp_state * Z :=
  if ds_enable (dh_srv s) =? 0 then (s, DHCPS_ERR_INACTIVE) else
  match MacAddr with
  | None => (s, DHCPS_ERR_PARAM)
  | Some mac =>
    let '(cs, r) := delete_client mac (ds_clients (dh_srv s)) in
    (DhcpState (set_clients cs (dh_srv s)) (dh_msg s) (dh_ticks s), r)
  end.

(** What the server reads of [struct netif]. *)
Record netif := Netif { nif_up : bool; nif_ip : Z; nif_mask : Z }.

Definition zero_client : DHCP_CLIENT := DhcpClient STATE_IDLE 0 0 zero_mac 0.
Definition zero_server : DHCP_SERVER :=
  DhcpServer 0 0 0 0 0 0 0 0 0 (replicate DHCPS_HISTORY_CLIENT_NUM zero_client).

(** [((tmp + i) % (~Mask)) ? ((tmp + i) % (~Mask)) : 1] put back under the network
    part of [Val], all in host order. *)
(* @ App/DhcpServer/dhcp_server.c:837-839 DHCPS_Start *)
Definition pool_address (Val Mask i : Z) : Z :=
  let notMask := u32 (Z.lnot Mask) in
  let tmp := Z.land Val notMask in
  let t := u32 (tmp + i) mod notMask in
  Z.lor (Z.land Val Mask) (if t =? 0 then 1 else t).

(* @ App/DhcpServer/dhcp_server.c:796-866 DHCPS_Start *)
Definition DHCPS_Start (new : Z) (nif : netif) (s : dhcp_state) : dhcp_state * Z :=
  if negb (nif_up nif) then (s, DHCPS_ERR_LINKDOWN) else
  let Mask := htonl (nif_mask nif) in
  let start := htonl (pool_address (htonl (nif_ip nif)) Mask 1) in
  let client i := DhcpClient STATE_IDLE 0 (htonl (pool_address (htonl start) Mask i))
                    zero_mac DHCP_DEFAULT_LEASE_TIME in
  let srv en sock := DhcpServer en sock (nif_ip nif) start (nif_mask nif) (nif_ip nif) (nif_ip nif) 0
                       DHCP_DEFAULT_LEASE_TIME (map client (seqZ 0 8)) in
  if new =? 0
  then (DhcpState (srv 0 new) (dh_msg s) (dh_ticks s), DHCPS_ERR_MEM)
  else (DhcpState (srv 1 new) (dh_msg s) (S (dh_ticks s)), DHCPS_ERR_SUCCESS).

(* @ App/DhcpServer/dhcp_server.c:881-893 DHCPS_Stop *)
Definition DHCPS_Stop (s : dhcp_state) : dhcp_state :=
  DhcpState zero_server (dh_msg s) (dh_ticks s - 1).

(** The state before the first call: the statics are zero. *)
Definition dhcp_boot : dhcp_state := DhcpState zero_server (replicate DHCP_MSG_SIZE 0) 0.

(** ** Invariant of the client table *)

Definition active (c : DHCP_CLIENT) : Prop := cl_state c ≠ STATE_IDLE.
Definition client_ok (c : DHCP_CLIENT) : Prop :=
  length (cl_mac c) = 6%nat ∧ cl_state c ≠ STATE_SELECT
  ∧ (cl_state c = STATE_REQUEST → 0 < cl_timeout c <= DHCP_DEFFAULT_TIMEOUT)
  ∧ (cl_state c = STATE_BIND → 0 < cl_lease c <= DHCP_DEFAULT_LEASE_TIME).
(** No two active entries belong to the same client. *)
Definition owners_distinct (cs : list DHCP_CLIENT) : Prop :=
  ∀ i j ci cj, cs !! i = Some ci → cs !! j = Some cj → active ci → active cj →
    cl_mac ci = cl_mac cj → i = j.
Definition table_inv (cs : list DHCP_CLIENT) : Prop :=
  length cs = DHCPS_HISTORY_CLIENT_NUM ∧ Forall client_ok cs ∧ owners_distinct cs.

(** A change made on behalf of the client [mac]: the invariant is kept, no entry
    changes its address, and the active entries of other clients are untouched. *)
Definition step_ok (mac : list Z) (cs cs' : list DHCP_CLIENT) : Prop :=
  table_inv cs' ∧ map cl_ip cs' = map cl_ip cs
  ∧ ∀ j c, cs !! j = Some c → active c → cl_mac c ≠ mac → cs' !! j = Some c.

Lemma is_idle_true c : is_idle c = true ↔ cl_state c = STATE_IDLE.
Proof. unfold is_idle. by rewrite bool_decide_eq_true. Qed.
Lemma is_idle_false c : is_idle c = false ↔ active c.
Proof. unfold is_idle. by rewrite bool_decide_eq_false. Qed.
Lemma mac_eq_true a b : length a = 6%nat → length b = 6%nat → mac_eq a b = true ↔ a = b.
Proof. intros. unfold mac_eq. rewrite bool_decide_eq_true, !take_ge by lia. done. Qed.
Lemma mac_eq_false a b : length a = 6%nat → length b = 6%nat → mac_eq a b = false ↔ a ≠ b.
Proof. intros. unfold mac_eq. rewrite bool_decide_eq_false, !take_ge by lia. done. Qed.

Lemma step_refl mac cs : table_inv cs → step_ok mac cs cs.
Proof. by intros. Qed.
Lemma step_trans mac cs1 cs2 cs3 : step_ok mac cs1 cs2 → step_ok mac cs2 cs3 → step_ok mac cs1 cs3.
Proof.
  intros (_ & E1 & F1) (I2 & E2 & F2). unfold step_ok. split_ands; [done|congruence|]. intros j c Hj Ha Hm.
  apply F2; [|done|done]. by apply F1.
Qed.

Lemma map_ip_alter f i cs c : cs !! i = Some c → cl_ip (f c) = cl_ip c →
  map cl_ip (alter f i cs) = map cl_ip cs.
Proof.
  intros Hi Hf. apply list_eq. intros j. rewrite !list_lookup_fmap.
  destruct (decide (i = j)) as [<-|Hne].
  - rewrite list_lookup_alter_eq, Hi. cbn. by rewrite Hf.
  - by rewrite list_lookup_alter_ne.
Qed.

(** Changing one entry that is idle or belongs to [mac]. *)
Lemma step_alter mac f i cs c : table_inv cs → cs !! i = Some c →
  (cl_state c = STATE_IDLE ∨ cl_mac c = mac) → cl_ip (f c) = cl_ip c → client_ok (f c) →
  (active (f c) → cl_mac (f c) = mac
    ∧ ∀ j cj, cs !! j = Some cj → active cj → cl_mac cj = mac → j = i) →
  step_ok mac cs (alter f i cs).
Proof.
  intros (HL & Hok & Hd) Hi Hc Hip Hfok Hact. unfold step_ok. split_ands.
  - unfold table_inv. split_ands; [by rewrite length_alter| |].
    + apply Forall_lookup_2. intros j cj. destruct (decide (i = j)) as [<-|Hne].
      * rewrite list_lookup_alter_eq, Hi. by intros [= <-].
      * rewrite list_lookup_alter_ne by done. by apply Forall_lookup_1.
    + intros j k cj ck. destruct (decide (i = j)) as [<-|Hj], (decide (i = k)) as [<-|Hk];
        rewrite ?list_lookup_alter_eq, ?list_lookup_alter_ne, ?Hi by done; cbn.
      * done.
      * intros [= <-] Hck Ha1 Ha2 E. destruct (Hact Ha1) as [Hm Hu].
        symmetry. apply (Hu k ck); congruence.
      * intros Hcj [= <-] Ha1 Ha2 E. destruct (Hact Ha2) as [Hm Hu].
        apply (Hu j cj); congruence.
      * apply Hd.
  - by eapply map_ip_alter.
  - intros j cj Hj Ha Hm. rewrite list_lookup_alter_ne; [done|]. intros ->.
    rewrite Hi in Hj. injection Hj as ->. by destruct Hc.
Qed.
(** Making it idle needs no more. *)
Lemma step_idle mac f i cs c : table_inv cs → cs !! i = Some c →
  (cl_state c = STATE_IDLE ∨ cl_mac c = mac) → cl_state (f c) = STATE_IDLE →
  cl_ip (f c) = cl_ip c → length (cl_mac (f c)) = 6%nat → step_ok mac cs (alter f i cs).
Proof.
  intros Hinv Hi Hc Hf Hip Hlen. eapply step_alter; eauto.
  - unfold client_ok. by rewrite Hf.
  - by intros ?.
Qed.

Lemma step_clean mac m cs : table_inv cs → step_ok mac cs (_CleanClientHistory m cs).
Proof.
  intros (HL & Hok & Hd). unfold _CleanClientHistory.
  set (f := λ c, if is_idle c && mac_eq (cl_mac c) m then set_mac zero_mac c else c).
  assert (Hact : ∀ c, active (f c) → f c = c).
  { intros c. unfold f. destruct (is_idle c) eqn:E; [|done].
    apply is_idle_true in E. destruct (mac_eq _ _); [|done]. by intros []. }
  assert (Hsame : ∀ c, active c → f c = c).
  { intros c Ha. apply is_idle_false in Ha. unfold f. by rewrite Ha. }
  unfold step_ok, table_inv. split_ands.
  - by rewrite length_map.
  - apply Forall_map. eapply Forall_impl; [done|]. intros c (Hl & Hs & Ht & Hle). unfold f.
    destruct (is_idle c) eqn:E; [|done]. destruct (mac_eq _ _); [|done]. done.
  - intros i j ci cj. rewrite !list_lookup_fmap.
    destruct (cs !! i) as [c1|] eqn:E1; [|done]. destruct (cs !! j) as [c2|] eqn:E2; [|done].
    cbn. intros [= <-] [= <-] Ha1 Ha2. 
    pose proof (Hact c1 Ha1) as F1. pose proof (Hact c2 Ha2) as F2.
    rewrite F1 in Ha1. rewrite F2 in Ha2. rewrite F1, F2. eauto.
  - rewrite map_map. apply map_ext. intros c. unfold f. by destruct (_ && _).
  - intros j c Hj Ha _. rewrite list_lookup_fmap, Hj. cbn. by rewrite Hsame.
Qed.

(** ** What the table scan finds *)

Record scan_ok (mac : list Z) (req : Z) (cs : list DHCP_CLIENT) (p : lookup_ptrs) : Prop := ScanOk {
  scan_free i : pFreeClient p = Some i → ∃ c, cs !! i = Some c ∧ cl_state c = STATE_IDLE;
  scan_req i : pReqClient p = Some i → ∃ c, cs !! i = Some c ∧ cl_state c = STATE_IDLE ∧ cl_ip c = req;
  scan_req_none c : pReqClient p = None → c ∈ cs → cl_state c = STATE_IDLE → cl_ip c ≠ req;
  scan_myhist i : pMyHistoryClient p = Some i → ∃ c, cs !! i = Some c ∧ cl_state c = STATE_IDLE;
  scan_hist i : pHistoryClient p = Some i → ∃ c, cs !! i = Some c ∧ cl_state c = STATE_IDLE;
  scan_my i : pMyClient p = Some i → ∃ c, cs !! i = Some c ∧ active c ∧ cl_mac c = mac;
  scan_my_none c : pMyClient p = None → c ∈ cs → active c → cl_mac c ≠ mac;
  scan_unavail : IpUnavailable p = true → ∃ c, c ∈ cs ∧ active c ∧ cl_mac c ≠ mac ∧ cl_ip c = req;
  scan_avail c : IpUnavailable p = false → c ∈ cs → active c → cl_mac c ≠ mac → cl_ip c ≠ req }.

Lemma first_match_Some old cond i j : first_match old cond i = Some j →
  old = Some j ∨ (cond = true ∧ i = j).
Proof. unfold first_match. destruct old; [by left|]. destruct cond; [intros [= <-]; by right|done]. Qed.
Lemma first_match_None old cond i : first_match old cond i = None → old = None ∧ cond = false.
Proof. unfold first_match. destruct old; [done|]. by destruct cond. Qed.

Lemma lookup_snoc_old {A} (l : list A) x i y : l !! i = Some y → (l ++ [x]) !! i = Some y.
Proof. apply lookup_app_l_Some. Qed.
Lemma lookup_snoc_new {A} (l : list A) x : (l ++ [x]) !! length l = Some x.
Proof. by rewrite lookup_app_r, Nat.sub_diag by lia. Qed.

Lemma table_scan_ok mac req cs : length mac = 6%nat → Forall client_ok cs →
  scan_ok mac req cs (table_scan mac req cs).
Proof.
  intros Hm Hok. unfold table_scan.
  assert (H : (foldl (lookup_step mac req) (0%nat, lookup_ptrs0) cs).1 = length cs
    ∧ scan_ok mac req cs (foldl (lookup_step mac req) (0%nat, lookup_ptrs0) cs).2); [|apply H].
  induction cs as [|c cs IH] using rev_ind.
  { split; [done|]. by split; cbn; try done; intros ? _ ?%elem_of_nil. }
  apply Forall_app in Hok as [Hok Hc]. apply Forall_cons in Hc as [Hc _].
  destruct (IH Hok) as [Hlen Hs]. rewrite foldl_snoc.
  destruct (foldl _ _ cs) as [n p]. cbn in Hlen. subst n. cbn [snd] in Hs.
  cbn [lookup_step fst snd]. split; [rewrite length_app; cbn; lia|].
  destruct Hc as [Hcl _].
  destruct Hs as [H1 H2 H3 H4 H5 H6 H7 H8 H9].
  assert (Hold : ∀ i, (∃ c0, cs !! i = Some c0 ∧ cl_state c0 = STATE_IDLE) →
                   ∃ c0, (cs ++ [c]) !! i = Some c0 ∧ cl_state c0 = STATE_IDLE).
  { intros i (c0 & ? & ?). eauto using lookup_snoc_old. }
  destruct (is_idle c) eqn:Ei.
  - apply is_idle_true in Ei. pose proof (lookup_snoc_new cs c).
    split; cbn; try setoid_rewrite elem_of_app; try setoid_rewrite list_elem_of_singleton.
    + intros i [?|[_ <-]]%first_match_Some; eauto.
    + intros i [E|[E <-]]%first_match_Some; [|apply Z.eqb_eq in E; eauto].
      destruct (H2 _ E) as (c0 & ? & ?). eauto using lookup_snoc_old.
    + intros c0 [E1 E2]%first_match_None [Hin| ->]; [by apply H3|]. by apply Z.eqb_neq in E2.
    + intros i [?|[_ <-]]%first_match_Some; eauto.
    + intros i [?|[_ <-]]%first_match_Some; eauto.
    + intros i E. destruct (H6 _ E) as (c0 & ? & ?). eauto using lookup_snoc_old.
    + intros c0 E [Hin| ->]; [by apply H7|]. by intros [].
    + intros E. destruct (H8 E) as (c0 & ? & ?). eauto.
    + intros c0 E [Hin| ->]; [by apply H9|]. by intros [].
  - apply is_idle_false in Ei. pose proof (lookup_snoc_new cs c).
    split; cbn; try setoid_rewrite elem_of_app; try setoid_rewrite list_elem_of_singleton.
    + eauto.
    + intros i E. destruct (H2 _ E) as (c0 & ? & ?). eauto using lookup_snoc_old.
    + intros c0 E [Hin| ->] Hid; [by apply H3|done].
    + eauto.
    + eauto.
    + destruct (mac_eq (cl_mac c) mac) eqn:E.
      * intros i [= <-]. apply mac_eq_true in E; eauto.
      * intros i E2. destruct (H6 _ E2) as (c0 & ? & ?). eauto using lookup_snoc_old.
    + destruct (mac_eq (cl_mac c) mac) eqn:E; [done|]. apply mac_eq_false in E; [|done..].
      intros c0 E2 [Hin| ->]; [by apply H7|done].
    + destruct (mac_eq (cl_mac c) mac) eqn:E.
      * intros E2. destruct (H8 E2) as (c0 & ? & ?). eauto.
      * apply mac_eq_false in E; [|done..]. destruct (Z.eqb_spec (cl_ip c) req).
        -- intros _. exists c. eauto.
        -- intros E2. destruct (H8 E2) as (c0 & ? & ?). eauto.
    + destruct (mac_eq (cl_mac c) mac) eqn:E.
      * apply mac_eq_true in E; [|done..]. intros c0 E2 [Hin| ->]; [by apply H9|done].
      * destruct (Z.eqb_spec (cl_ip c) req); [done|]. intros c0 E2 [Hin| ->]; [by apply H9|done].
Qed.

Definition no_owner (mac : list Z) (cs : list DHCP_CLIENT) : Prop :=
  ∀ j c, cs !! j = Some c → active c → cl_mac c ≠ mac.

Lemma no_owner_alter mac g m cs c : table_inv cs → cs !! m = Some c → active c →
  cl_mac c = mac → cl_state (g c) = STATE_IDLE → no_owner mac (alter g m cs).
Proof.
  intros (_ & _ & Hd) Hm Ha Hc Hg j cj. destruct (decide (m = j)) as [<-|Hne].
  - rewrite list_lookup_alter_eq, Hm. intros [= <-]. by intros [].
  - rewrite list_lookup_alter_ne by done. intros Hj Haj E. apply Hne. eapply Hd; eauto; congruence.
Qed.
Lemma idle_alter g m (cs : list DHCP_CLIENT) c r cr : cs !! m = Some c → active c → cs !! r = Some cr →
  cl_state cr = STATE_IDLE → alter g m cs !! r = Some cr.
Proof. intros Hm Ha Hr Hi. rewrite list_lookup_alter_ne; [done|]. intros ->. congruence. Qed.
Lemma drop_client_spec c : cl_state (drop_client c) = STATE_IDLE ∧ cl_ip (drop_client c) = cl_ip c
  ∧ (length (cl_mac c) = 6%nat → length (cl_mac (drop_client c)) = 6%nat).
Proof. unfold drop_client. by destruct (bool_decide _). Qed.

(** The entry returned: idle, or the client's own; only DISCOVER and REQUEST get one. *)
Definition chosen_ok (mac : list Z) (type req : Z) (cs : list DHCP_CLIENT) (i : nat) : Prop :=
  ∃ c, cs !! i = Some c ∧ (type = DHCP_MSG_DISCOVER ∧ cl_state c = STATE_IDLE
                           ∨ type = DHCP_MSG_REQUEST ∧ (cl_ip c = req ∨ active c))
  ∧ (cl_state c = STATE_IDLE ∨ cl_mac c = mac)
  ∧ ∀ j cj, cs !! j = Some cj → active cj → cl_mac cj = mac → j = i.

Lemma chosen_idle mac type req cs i c : cs !! i = Some c → cl_state c = STATE_IDLE →
  no_owner mac cs → type = DHCP_MSG_DISCOVER ∨ (type = DHCP_MSG_REQUEST ∧ cl_ip c = req) →
  chosen_ok mac type req cs i.
Proof.
  intros Hi Hs Hno Ht. exists c. split_ands; [done|destruct Ht as [->|[-> ?]]; auto|by left|].
  intros j cj Hj Ha E. by destruct (Hno j cj Hj Ha).
Qed.

Lemma table_choose_ok ip p mac type req sid cs : table_inv cs → scan_ok mac req cs p →
  let '(cs1, e) := table_choose ip p type sid cs in
  step_ok mac cs cs1 ∧ ∀ i, e = Some i → chosen_ok mac type req cs1 i.
Proof.
  intros Hinv Hs. pose proof Hinv as (_ & Hok & Hd). unfold table_choose.
  assert (Hlen : ∀ i c, cs !! i = Some c → length (cl_mac c) = 6%nat).
  { intros i c Hi. by apply (Forall_lookup_1 _ _ _ _ Hok Hi). }
  assert (Hnone : pMyClient p = None → no_owner mac cs).
  { intros E j c Hj Ha. eapply (scan_my_none _ _ _ _ Hs); eauto using list_elem_of_lookup_2. }
  assert (Hdrop : ∀ m c, cs !! m = Some c → active c → cl_mac c = mac →
            step_ok mac cs (alter drop_client m cs) ∧ no_owner mac (alter drop_client m cs)).
  { intros m c Hm Ha Hc. destruct (drop_client_spec c) as (H1 & H2 & H3). split.
    - eapply step_idle; eauto.
    - by eapply no_owner_alter. }
  cbv zeta. generalize ((sid =? 0) || (ip =? sid)). intros to_me.
  destruct (Z.eqb_spec type DHCP_MSG_DISCOVER) as [->|Hdis].
  { destruct (pMyClient p) as [m|] eqn:Em.
    - destruct (scan_my _ _ _ _ Hs _ Em) as (c & Hm & Ha & Hc).
      pose proof (step_idle mac (set_state STATE_IDLE) m cs c Hinv Hm (or_intror Hc) eq_refl eq_refl
                    (Hlen _ _ Hm)) as Hst.
      pose proof (no_owner_alter mac (set_state STATE_IDLE) m cs c Hinv Hm Ha Hc eq_refl) as Hno.
      pose proof (proj1 Hst) as Hinv1.
      assert (Hm1 : alter (set_state STATE_IDLE) m cs !! m = Some (set_state STATE_IDLE c))
        by (by rewrite list_lookup_alter_eq, Hm).
      destruct (pReqClient p) as [r|] eqn:Er.
      + destruct (scan_req _ _ _ _ Hs _ Er) as (cr & Hr & Hri & _).
        set (g := λ c, if bool_decide (cl_state c = STATE_BIND) then c else set_mac zero_mac c).
        assert (Hst2 : step_ok mac (alter (set_state STATE_IDLE) m cs)
                         (alter g m (alter (set_state STATE_IDLE) m cs))).
        { eapply step_idle; [done|exact Hm1|by left|done..]. }
        split; [by eapply step_trans|]. intros i [= <-].
        assert (Hmr : m ≠ r) by (intros ->; congruence).
        eapply chosen_idle; [|exact Hri| |by left].
        * rewrite !list_lookup_alter_ne by done. done.
        * intros j cj. destruct (decide (m = j)) as [<-|Hne].
          -- rewrite list_lookup_alter_eq, Hm1. intros [= <-]. by intros [].
          -- rewrite list_lookup_alter_ne by done. apply Hno.
      + split; [done|]. intros i [= <-]. by eapply chosen_idle; [exact Hm1| | |left].
    - split; [by apply step_refl|]. intros i E. specialize (Hnone eq_refl).
      assert (∃ c, cs !! i = Some c ∧ cl_state c = STATE_IDLE) as (c & Hi & Hci).
      { destruct (pReqClient p) eqn:Er.
        { injection E as <-. destruct (scan_req _ _ _ _ Hs _ Er) as (? & ? & ? & ?). eauto. }
        destruct (pMyHistoryClient p) eqn:Eh.
        { injection E as <-. by apply (scan_myhist _ _ _ _ Hs). }
        destruct (pFreeClient p) eqn:Ef.
        - injection E as <-. by apply (scan_free _ _ _ _ Hs).
        - by apply (scan_hist _ _ _ _ Hs). }
      eapply chosen_idle; eauto. }
  destruct (Z.eqb_spec type DHCP_MSG_REQUEST) as [->|Hreq].
  { destruct (pMyClient p) as [m|] eqn:Em.
    - destruct (scan_my _ _ _ _ Hs _ Em) as (c & Hm & Ha & Hc).
      destruct (Hdrop m c Hm Ha Hc) as [Hst Hno].
      destruct (IpUnavailable p); [by split|].
      destruct (pReqClient p) as [r|] eqn:Er.
      + split; [done|]. destruct to_me; [|done]. intros i [= <-].
        destruct (scan_req _ _ _ _ Hs _ Er) as (cr & Hr & Hri & Hrip).
        eapply chosen_idle; eauto using idle_alter.
      + split; [by apply step_refl|]. destruct to_me; [|done]. intros i [= <-].
        exists c. split_ands; [done|right; auto|by right|].
        intros j cj Hj Haj E. eapply Hd; eauto; congruence.
    - split; [by apply step_refl|]. destruct (IpUnavailable p); [done|].
      destruct to_me; [|done]. intros i E.
      destruct (scan_req _ _ _ _ Hs _ E) as (cr & Hr & Hri & Hrip). eapply chosen_idle; eauto. }
  destruct (_ || _); [|by split; [apply step_refl|]].
  split; [|done]. destruct (pMyClient p) as [m|] eqn:Em; [|by apply step_refl].
  destruct (scan_my _ _ _ _ Hs _ Em) as (c & Hm & Ha & Hc). by eapply Hdrop.
Qed.

Definition same_config (s s' : DHCP_SERVER) : Prop := s' = set_clients (ds_clients s') s.

Lemma lookup_ok s mac type req sid : table_inv (ds_clients s) → length mac = 6%nat →
  let '(s', e) := _ClientTableLookup s mac type req sid in
  same_config s s' ∧ step_ok mac (ds_clients s) (ds_clients s')
  ∧ ∀ i, e = Some i → ∃ c, ds_clients s' !! i = Some c ∧ cl_mac c = mac
    ∧ (type = DHCP_MSG_DISCOVER ∧ cl_state c = STATE_IDLE
       ∨ type = DHCP_MSG_REQUEST ∧ (cl_ip c = req ∨ active c))
    ∧ ∀ j cj, ds_clients s' !! j = Some cj → active cj → cl_mac cj = mac → j = i.
Proof.
  intros Hinv Hm. unfold _ClientTableLookup.
  pose proof (table_choose_ok (ds_server_ip s) _ mac type req sid _ Hinv
                (table_scan_ok mac req _ Hm (proj1 (proj2 Hinv)))) as Hch.
  destruct (table_choose _ _ _ _ _) as [cs1 [i|]]; destruct Hch as [Hst Hch].
  2:{ split_ands; [done|done|]. by intros. }
  destruct (Hch i eq_refl) as (c & Hi & Ht & Hown & Hu). pose proof (proj1 Hst) as Hinv1.
  assert (Hst2 : step_ok mac cs1 (alter (set_mac mac) i cs1)).
  { eapply step_alter; [done|done|done|done| |by intros _].
    pose proof (Forall_lookup_1 _ _ _ _ (proj1 (proj2 Hinv1)) Hi) as (_ & ? & ? & ?).
    by split_ands. }
  split_ands; [done|by eapply step_trans|]. intros j [= <-]. exists (set_mac mac c).
  cbn [ds_clients set_clients]. rewrite list_lookup_alter_eq, Hi. split_ands; [done|done|done|].
  intros j cj. destruct (decide (i = j)) as [<-|Hne]; [done|].
  rewrite list_lookup_alter_ne by done. apply Hu.
Qed.

(** ** Replies, as a client reads them *)

Definition reply_yiaddr (d : list Z) : Z := field32 d 16.
Definition reply_chaddr (d : list Z) : list Z := slice 28 6 d.
Definition reply_type (d : list Z) : Z := byte_at d 242.

Lemma field32_le32 x : is_u32 x → of_le32 (byte_of 0 x) (byte_of 1 x) (byte_of 2 x) (byte_of 3 x) = x.
Proof. apply of_le32_bytes. Qed.

Lemma send_reply_sent ok msg h o d : d ∈ (send_reply ok msg h o).2 →
  d = take (240 + length o) (store_at 240 o h).
Proof.
  unfold send_reply. destruct ok; cbn; [by intros ?%list_elem_of_singleton|by intros ?%elem_of_nil].
Qed.
Lemma nak_reply ok s msg mac xid d : length mac = 6%nat →
  d ∈ (_DHCPNakGenAndSend ok s msg mac xid).2 →
  reply_chaddr d = mac ∧ reply_type d = DHCP_MSG_NAK.
Proof.
  intros Hm ->%send_reply_sent. explode mac Hm. split; vm_compute; reflexivity.
Qed.
Lemma lease_reply s type mac xid ip d : length mac = 6%nat → is_u32 ip → is_byte type →
  let o := lease_options s type in
  d = take (240 + length o) (store_at 240 o (reply_header xid ip 0 mac)) →
  reply_chaddr d = mac ∧ reply_type d = type ∧ reply_yiaddr d = ip.
Proof.
  intros Hm Hip Ht o ->. explode mac Hm. split_ands; [vm_compute; reflexivity| |].
  - transitivity (u8 type); [vm_compute; reflexivity|by apply u8_small].
  - transitivity (of_le32 (byte_of 0 ip) (byte_of 1 ip) (byte_of 2 ip) (byte_of 3 ip));
      [vm_compute; reflexivity|by apply of_le32_bytes].
Qed.

(** What one reply promises to the client [mac], given the table after it. *)
Definition reply_ok (mac : list Z) (cs : list DHCP_CLIENT) (d : list Z) : Prop :=
  reply_chaddr d = mac
  ∧ (reply_type d = DHCP_MSG_NAK
     ∨ ∃ i c, cs !! i = Some c ∧ cl_mac c = mac ∧ cl_ip c = reply_yiaddr d
       ∧ (reply_type d = DHCP_MSG_OFFER ∧ cl_state c = STATE_REQUEST
          ∨ reply_type d = DHCP_MSG_ACK ∧ cl_state c = STATE_BIND)).

Lemma length_store_reply opts h : (240 + length opts <= length h)%nat →
  length (store_at 240 opts h) = length h.
Proof. apply length_store_at. Qed.
Lemma length_reply_header xid y si mac : length mac = 6%nat →
  length (reply_header xid y si mac) = DHCP_MSG_SIZE.
Proof. intros Hm. explode mac Hm. reflexivity. Qed.
Lemma send_reply_length ok msg xid y si mac opts : length msg = DHCP_MSG_SIZE →
  length mac = 6%nat → (length opts <= 308)%nat →
  length (send_reply ok msg (reply_header xid y si mac) opts).1 = DHCP_MSG_SIZE.
Proof.
  intros Hl Hm Ho. unfold send_reply. destruct ok; [|done]. cbn [fst].
  rewrite length_store_at; rewrite length_reply_header by done; [done|].
  change DHCP_MSG_SIZE with (240 + 308)%nat. lia.
Qed.

Definition ips_u32 (cs : list DHCP_CLIENT) : Prop := Forall is_u32 (map cl_ip cs).

Lemma sme_ok ok s msg i type xid mac c :
  table_inv (ds_clients s) → ips_u32 (ds_clients s) → length msg = DHCP_MSG_SIZE →
  ds_clients s !! i = Some c → cl_mac c = mac →
  (type = DHCP_MSG_DISCOVER ∧ cl_state c = STATE_IDLE ∨ type = DHCP_MSG_REQUEST) →
  (∀ j cj, ds_clients s !! j = Some cj → active cj → cl_mac cj = mac → j = i) →
  let '(s', msg', sent) := _DhcpClientSMEHandle ok s msg i type xid in
  same_config s s' ∧ step_ok mac (ds_clients s) (ds_clients s') ∧ length msg' = DHCP_MSG_SIZE
  ∧ Forall (reply_ok mac (ds_clients s')) sent.
Proof.
  intros Hinv Hips Hmsg Hi Hc Ht Hu. unfold _DhcpClientSMEHandle. rewrite Hi.
  pose proof (Forall_lookup_1 _ _ _ _ (proj1 (proj2 Hinv)) Hi) as (Hlen & Hsel & _).
  assert (Hip : is_u32 (cl_ip c)).
  { eapply (Forall_lookup_1 _ _ i); [exact Hips|]. by rewrite list_lookup_fmap, Hi. }
  assert (Hlenmac : length mac = 6%nat) by congruence.
  set (ack := match cl_state c with STATE_IDLE => _ | _ => _ end).
  destruct ack.
  - unfold _DHCPAckGenAndSend. rewrite Hc.
    pose proof (send_reply_length ok msg xid (cl_ip c) 0 mac (lease_options s DHCP_MSG_ACK)
                  Hmsg Hlenmac ltac:(cbn; lia)) as Hl.
    pose proof (send_reply_sent ok msg (reply_header xid (cl_ip c) 0 mac) (lease_options s DHCP_MSG_ACK)) as Hd.
    destruct (send_reply _ _ _ _) as [msg' sent]. cbn [fst snd] in Hl, Hd.
    assert (Hst : step_ok mac (ds_clients s) (alter bind_client i (ds_clients s))).
    { eapply step_alter; [done|done|by right|done| |by intros _].
      unfold client_ok, bind_client; cbn. by split_ands. }
    split_ands; [done|by eapply step_trans, step_clean, Hst|done|].
    rewrite Forall_forall. intros d Hin. specialize (Hd d Hin).
    destruct (lease_reply s DHCP_MSG_ACK mac xid (cl_ip c) d Hlenmac Hip) as (H1 & H2 & H3);
      [unfold is_byte, DHCP_MSG_ACK; lia|done|].
    split; [done|right]. exists i, (bind_client c). cbn [ds_clients set_clients].
    unfold _CleanClientHistory. rewrite list_lookup_fmap, list_lookup_alter_eq, Hi. cbn.
    split_ands; [done|done|done|by right].
  - unfold _DHCPOfferGenAndSend. rewrite Hc.
    pose proof (send_reply_length ok msg xid (cl_ip c) 0 mac (lease_options s DHCP_MSG_OFFER)
                  Hmsg Hlenmac ltac:(cbn; lia)) as Hl.
    pose proof (send_reply_sent ok msg (reply_header xid (cl_ip c) 0 mac) (lease_options s DHCP_MSG_OFFER)) as Hd.
    destruct (send_reply _ _ _ _) as [msg' sent]. cbn [fst snd] in Hl, Hd.
    assert (Hst : step_ok mac (ds_clients s) (alter offer_client i (ds_clients s))).
    { eapply step_alter; [done|done|by right|done| |by intros _].
      unfold client_ok, offer_client; cbn. split_ands; try done. }
    split_ands; [done|done|done|].
    rewrite Forall_forall. intros d Hin. specialize (Hd d Hin).
    destruct (lease_reply s DHCP_MSG_OFFER mac xid (cl_ip c) d Hlenmac Hip) as (H1 & H2 & H3);
      [unfold is_byte, DHCP_MSG_OFFER; lia|done|].
    split; [done|right]. exists i, (offer_client c). cbn [ds_clients set_clients].
    rewrite list_lookup_alter_eq, Hi. cbn. split_ands; [done|done|done|by left].
Qed.

(** The state a datagram is handled in. *)
Definition dhcp_wf (s : dhcp_state) : Prop :=
  table_inv (ds_clients (dh_srv s)) ∧ ips_u32 (ds_clients (dh_srv s))
  ∧ length (dh_msg s) = DHCP_MSG_SIZE.
(** The client a datagram names: [Chaddr] of what the copy leaves in [DhcpMsg]. *)
Definition request_mac (P : pbuf) (s : dhcp_state) : list Z :=
  slice 28 6 (pbuf_copy_partial P (dh_msg s) DHCP_MSG_SIZE 0).1.

Lemma copied_length P msg : length msg = DHCP_MSG_SIZE →
  length (pbuf_copy_partial P msg DHCP_MSG_SIZE 0).1 = DHCP_MSG_SIZE.
Proof.
  intros H. rewrite pbuf_copy_partial_0. cbn [fst].
  rewrite length_store_at; [done|]. rewrite length_take. lia.
Qed.
Lemma ips_step mac cs cs' : step_ok mac cs cs' → ips_u32 cs → ips_u32 cs'.
Proof. intros (_ & E & _). unfold ips_u32. by rewrite E. Qed.

Lemma recv_ok ram ok P s s' sent : dhcp_wf s →
  DHCPS_RecvCb ram ok P s = Some (s', sent) →
  dhcp_wf s' ∧ same_config (dh_srv s) (dh_srv s') ∧ dh_ticks s' = dh_ticks s
  ∧ step_ok (request_mac P s) (ds_clients (dh_srv s)) (ds_clients (dh_srv s'))
  ∧ Forall (reply_ok (request_mac P s) (ds_clients (dh_srv s'))) sent.
Proof.
  intros (Hinv & Hips & Hmsg) E. unfold DHCPS_RecvCb, request_mac in *.
  pose proof (copied_length P (dh_msg s) Hmsg) as Hl.
  destruct (pbuf_copy_partial P (dh_msg s) DHCP_MSG_SIZE 0) as [msg n]. cbn [fst] in *.
  set (mac := slice 28 6 msg) in *.
  assert (Hmac : length mac = 6%nat).
  { apply length_slice. rewrite Hl. unfold DHCP_MSG_SIZE. lia. }
  assert (Hdrop : ∀ srv m, srv = dh_srv s → length m = DHCP_MSG_SIZE →
    let s1 := DhcpState srv m (dh_ticks s) in
    dhcp_wf s1 ∧ same_config (dh_srv s) (dh_srv s1) ∧ dh_ticks s1 = dh_ticks s
    ∧ step_ok mac (ds_clients (dh_srv s)) (ds_clients (dh_srv s1))
    ∧ Forall (reply_ok mac (ds_clients (dh_srv s1))) []).
  { intros srv m -> Hlm s1. split_ands; [by split_ands|by destruct (dh_srv s)|done|by apply step_refl|done]. }
  destruct (_ || _); [injection E as <- <-; by apply Hdrop|].
  destruct (_ParseDhcpOptions _ _ _) as [r|]; [|done]. cbn [mbind option_bind] in E.
  destruct (Z.land (pr_ret r) 1 =? 0); [injection E as <- <-; by apply Hdrop|].
  pose proof (lookup_ok (dh_srv s) mac (pr_type r) (pr_reqip r) (pr_server r) Hinv Hmac) as Hlk.
  destruct (_ClientTableLookup _ _ _ _ _) as [srv [i|]]; destruct Hlk as (Hcfg & Hst & Hent).
  - destruct (Hent i eq_refl) as (c & Hi & Hc & Ht & Hu).
    pose proof (sme_ok ok srv msg i (pr_type r) (htonl (field32 msg 4)) mac c (proj1 Hst)
      (ips_step _ _ _ Hst Hips) Hl Hi Hc ltac:(tauto) Hu) as Hsme.
    destruct (_DhcpClientSMEHandle _ _ _ _ _ _) as [[srv2 msg2] out].
    destruct Hsme as (Hcfg2 & Hst2 & Hl2 & Hout). injection E as <- <-. cbn [dh_srv dh_ticks dh_msg].
    pose proof (step_trans _ _ _ _ Hst Hst2) as Hst3.
    split_ands; [|rewrite Hcfg2, Hcfg; done|done|done|done].
    unfold dhcp_wf; split_ands; [apply Hst3|by eapply ips_step|done].
  - set (sm := if _ && _ then _ else _) in E.
    assert (Hsm : length sm.1 = DHCP_MSG_SIZE ∧ Forall (reply_ok mac (ds_clients srv)) sm.2).
    { subst sm. destruct (_ && _); [|by split].
      split; [apply send_reply_length; [done|done|cbn; lia]|].
      rewrite Forall_forall. intros d Hd. destruct (nak_reply _ _ _ _ _ _ Hmac Hd). split; auto. }
    destruct sm as [m out]. injection E as <- <-. destruct Hsm as [Hlm Hout].
    cbn [dh_srv dh_ticks dh_msg]. split_ands; [|done|done|done|done].
    unfold dhcp_wf; split_ands; [apply Hst|by eapply ips_step|done].
Qed.

(** ** Claims on the receive path *)

(** C31: handling any datagram keeps the client table well formed and the server's
    configuration and the addresses of all entries as they were; entries in use by
    other clients are not touched at all; and every reply goes to the client that
    asked and, unless it is a NAK, carries the address of an entry that client
    then holds (in state REQUEST after an OFFER, BIND after an ACK). *)
Theorem DHCPS_RecvCb_spec ram ok P s s' sent : dhcp_wf s →
  DHCPS_RecvCb ram ok P s = Some (s', sent) →
  let mac := request_mac P s in
  dhcp_wf s' ∧ same_config (dh_srv s) (dh_srv s')
  ∧ map cl_ip (ds_clients (dh_srv s')) = map cl_ip (ds_clients (dh_srv s))
  ∧ (∀ j c, ds_clients (dh_srv s) !! j = Some c → active c → cl_mac c ≠ mac →
       ds_clients (dh_srv s') !! j = Some c)
  ∧ Forall (reply_ok mac (ds_clients (dh_srv s'))) sent.
Proof.
  intros Hwf E mac. destruct (recv_ok _ _ _ _ _ _ Hwf E) as (H1 & H2 & _ & (_ & H4 & H5) & H6). auto.
Qed.

(** The parser's bound: the option area ends at 548 and one option can skip 257
    bytes, so it stays within 257 bytes after the message. *)
Lemma parse_loop_total m : bytes_ok m → (DHCP_MSG_SIZE + 257 <= length m)%nat →
  ∀ fuel p r, (p <= 804)%nat → (DHCP_MSG_SIZE - p < fuel)%nat → is_Some (parse_loop fuel m p r).
Proof.
  intros Hb Hl. unfold DHCP_MSG_SIZE in *.
  assert (Hget : ∀ p, (p <= 804)%nat → ∃ b, m !! p = Some b ∧ is_byte b).
  { intros p Hp. destruct (lookup_lt_is_Some_2 m p ltac:(lia)) as [b E].
    exists b. split; [done|]. by eapply Forall_lookup_1. }
  induction fuel as [|fuel IH]; intros p r Hp Hf; [lia|]. cbn [parse_loop].
  destruct (Hget p Hp) as (b & -> & Hbb). cbn [mbind option_bind].
  destruct (Nat.ltb_spec p DHCP_MSG_SIZE) as [Hlt|Hge]; rewrite ?andb_false_r; [|by eexists].
  unfold DHCP_MSG_SIZE in Hlt. destruct (b =? 255); cbn [negb andb]; [by eexists|].
  destruct (b =? 0); [apply IH; lia|].
  destruct (Hget (p + 1)%nat ltac:(lia)) as (len & -> & Hlen). cbn [mbind option_bind].
  assert (H32 : ∃ v, load32 m (p + 2) = Some v).
  { unfold load32.
    destruct (Hget (p + 2)%nat ltac:(lia)) as (? & -> & _), (Hget (p + 2 + 1)%nat ltac:(lia)) as (? & -> & _),
      (Hget (p + 2 + 2)%nat ltac:(lia)) as (? & -> & _), (Hget (p + 2 + 3)%nat ltac:(lia)) as (? & -> & _).
    by eexists. }
  destruct H32 as (v & Hv). rewrite Hv.
  destruct (Hget (p + 2)%nat ltac:(lia)) as (t & -> & _). cbn [mbind option_bind].
  unfold is_byte in Hlen.
  destruct (b =? 53); cbn [mbind option_bind]; [apply IH; lia|].
  destruct (b =? 50); cbn [mbind option_bind]; [apply IH; lia|].
  destruct (b =? 54); cbn [mbind option_bind]; apply IH; lia.
Qed.

(** The option parser terminates on every message and never reads more than
    257 bytes past the end of the message buffer (309 rounds are enough for the
    308 option bytes). *)
Theorem ParseDhcpOptions_terminates msg ram r :
  bytes_ok msg → bytes_ok ram → length msg = DHCP_MSG_SIZE → (257 <= length ram)%nat →
  is_Some (_ParseDhcpOptions msg ram r).
Proof.
  intros H1 H2 H3 H4. apply parse_loop_total.
  - by apply Forall_app.
  - rewrite length_app. lia.
  - lia.
  - unfold DHCP_MSG_SIZE. lia.
Qed.

(** A message full of option bytes whose last option has the largest length. *)
Definition overrun_msg : list Z :=
  replicate 240 0 ++ replicate 307 0 ++ [1].

(** The bounds check of the parser comes after the read it should protect: for
    a message whose last option byte is a tag, with length byte 255 right behind
    the buffer, the parser reads the byte 256 positions past the message, so 256
    bytes behind [DhcpMsg] are not enough for it. *)
Theorem ParseDhcpOptions_reads_past_message :
  length overrun_msg = DHCP_MSG_SIZE ∧
  (∀ r, _ParseDhcpOptions overrun_msg (255 :: replicate 255 0) r = None) ∧
  (∀ r, _ParseDhcpOptions overrun_msg (255 :: replicate 256 0) r = Some r).
Proof.
  split; [reflexivity|]. split; intros r; vm_compute; by destruct r.
Qed.

(** What the server sends it can parse: the options of an OFFER or ACK yield
    its type and the server's address, and a NAK its type alone. *)
Theorem reply_options_roundtrip ok s msg c mac xid ram type :
  length mac = 6%nat → is_u32 (ds_server_ip s) →
  type = DHCP_MSG_OFFER ∨ type = DHCP_MSG_ACK →
  let m := (if type =? DHCP_MSG_ACK then _DHCPAckGenAndSend true s msg c mac xid
            else _DHCPOfferGenAndSend true s msg c mac xid).1 in
  _ParseDhcpOptions m ram (ParseResult 0 0xff 0 0) = Some (ParseResult 5 type 0 (ds_server_ip s))
  ∧ _ParseDhcpOptions (_DHCPNakGenAndSend ok s m mac xid).1 ram (ParseResult 0 0xff 0 0)
    = Some (if ok then ParseResult 1 DHCP_MSG_NAK 0 0 else ParseResult 5 type 0 (ds_server_ip s)).
Proof.
  intros Hmac Hip Ht m. explode mac Hmac.
  assert (H : _ParseDhcpOptions m ram (ParseResult 0 0xff 0 0)
    = Some (ParseResult 5 type 0 (of_le32 (byte_of 0 (ds_server_ip s)) (byte_of 1 (ds_server_ip s))
              (byte_of 2 (ds_server_ip s)) (byte_of 3 (ds_server_ip s))))).
  { subst m. destruct Ht as [-> | ->]; vm_compute; reflexivity. }
  rewrite of_le32_bytes in H by done. split; [exact H|].
  destruct ok; [vm_compute; reflexivity|exact H].
Qed.

Lemma reply_options_roundtrip_witness :
  _ParseDhcpOptions (_DHCPAckGenAndSend true zero_server [] zero_client [1; 2; 3; 4; 5; 6] 7).1 []
    (ParseResult 0 0xff 0 0) = Some (ParseResult 5 DHCP_MSG_ACK 0 0).
Proof.
  apply (reply_options_roundtrip true zero_server [] zero_client [1; 2; 3; 4; 5; 6] 7 [] DHCP_MSG_ACK);
    [reflexivity|unfold is_u32; cbn; lia|by right].
Defined.

(** ** Every other entry point keeps the table well formed *)

(** An entry stays as it is for its owner or becomes idle. *)
Lemma owners_map f cs : owners_distinct cs →
  (∀ c, active (f c) → active c ∧ cl_mac (f c) = cl_mac c) → owners_distinct (map f cs).
Proof.
  intros Hd Hf i j ci cj. rewrite !list_lookup_fmap.
  destruct (cs !! i) as [c1|] eqn:E1; [|done]. destruct (cs !! j) as [c2|] eqn:E2; [|done].
  cbn. intros [= <-] [= <-] Ha1 Ha2 E.
  destruct (Hf c1 Ha1) as [? M1], (Hf c2 Ha2) as [? M2]. eapply Hd; eauto; congruence.
Qed.

Lemma tick_client_ok ap c : client_ok c →
  client_ok (tick_client ap c) ∧ cl_ip (tick_client ap c) = cl_ip c
  ∧ (active (tick_client ap c) → active c ∧ cl_mac (tick_client ap c) = cl_mac c).
Proof.
  intros (Hl & Hs & Ht & Hle). unfold tick_client, client_ok, active.
  destruct (cl_state c) eqn:E; [by rewrite E|by rewrite E| |].
  - destruct (Ht eq_refl) as [Ht1 Ht2]. split_guard; [lia|]. cbn.
    destruct (Z.eqb_spec (cl_timeout c - 1) 0); cbn; rewrite ?E; split_ands; try done;
      try (intros _; lia).
  - destruct (Hle eq_refl) as [Hl1 Hl2]. destruct (Z.eqb_spec (cl_lease c) 0); [lia|].
    destruct (Z.eqb_spec (cl_lease c - 1) 0); cbn; [by split_ands|].
    destruct (_ =? 0); cbn; rewrite ?E; split_ands; try done; try (intros _; lia).
Qed.
Lemma tick_table ap cs : table_inv cs →
  table_inv (map (tick_client ap) cs) ∧ map cl_ip (map (tick_client ap) cs) = map cl_ip cs.
Proof.
  intros (HL & Hok & Hd). unfold table_inv. split_ands.
  - by rewrite length_map.
  - apply Forall_map. eapply Forall_impl; [done|]. intros c Hc. by apply tick_client_ok.
  - intros i j ci cj Hi Hj. rewrite !list_lookup_fmap in Hi, Hj.
    destruct (cs !! i) as [c1|] eqn:E1; [|done]. destruct (cs !! j) as [c2|] eqn:E2; [|done].
    cbn in Hi, Hj. injection Hi as <-. injection Hj as <-. intros Ha1 Ha2 E.
    destruct (tick_client_ok ap c1 (Forall_lookup_1 _ _ _ _ Hok E1)) as (_ & _ & H1).
    destruct (tick_client_ok ap c2 (Forall_lookup_1 _ _ _ _ Hok E2)) as (_ & _ & H2).
    destruct (H1 Ha1) as [? M1], (H2 Ha2) as [? M2]. eapply Hd; eauto; congruence.
  - rewrite map_map. apply map_ext_in. intros c Hc%list_elem_of_In.
    rewrite Forall_forall in Hok. by apply tick_client_ok, Hok.
Qed.

Lemma delete_client_cases mac cs : let '(cs', r) := delete_client mac cs in
  cs' = cs ∨ ∃ i c, cs !! i = Some c ∧ cl_state c = STATE_BIND ∧ mac_eq (cl_mac c) mac = true
    ∧ cs' = alter (set_state STATE_IDLE) i cs ∧ r = DHCPS_ERR_SUCCESS.
Proof.
  induction cs as [|c cs IH]; cbn; [by left|].
  destruct (negb (is_idle c) && mac_eq (cl_mac c) mac) eqn:E.
  - apply andb_true_iff in E as [_ E]. destruct (bool_decide_reflect (cl_state c = STATE_BIND)); [|by left].
    right. exists 0%nat, c. by split_ands.
  - destruct (delete_client mac cs) as [cs' r]. destruct IH as [->|(i & c' & ? & ? & ? & -> & ->)]; [by left|].
    right. exists (S i), c'. by split_ands.
Qed.
Lemma delete_table mac cs : table_inv cs →
  table_inv (delete_client mac cs).1 ∧ map cl_ip (delete_client mac cs).1 = map cl_ip cs.
Proof.
  intros Hinv. pose proof (delete_client_cases mac cs) as H. destruct (delete_client mac cs) as [cs' r].
  destruct H as [->|(i & c & Hi & Hs & _ & -> & _)]; [done|].
  pose proof (step_idle (cl_mac c) (set_state STATE_IDLE) i cs c Hinv Hi ltac:(by right) eq_refl eq_refl)
    as Hst. destruct Hst as (? & ? & _); [|done].
  apply (Forall_lookup_1 _ _ _ _ (proj1 (proj2 Hinv)) Hi).
Qed.

Lemma all_idle_table cs : length cs = DHCPS_HISTORY_CLIENT_NUM →
  Forall (λ c, cl_state c = STATE_IDLE ∧ cl_mac c = zero_mac) cs → table_inv cs.
Proof.
  intros HL Hf. unfold table_inv. split_ands; [done| |].
  - eapply Forall_impl; [done|]. intros c [Hs Hm]. unfold client_ok. by rewrite Hs, Hm.
  - intros i j ci cj Hi _ Ha. rewrite Forall_forall in Hf.
    destruct (Hf ci (list_elem_of_lookup_2 _ _ _ Hi)) as [Hs _]. by destruct Ha.
Qed.

Lemma start_clients_inv start Mask :
  let client i := DhcpClient STATE_IDLE 0 (htonl (pool_address (htonl start) Mask i))
                    zero_mac DHCP_DEFAULT_LEASE_TIME in
  table_inv (map client (seqZ 0 8)) ∧ ips_u32 (map client (seqZ 0 8)).
Proof.
  intros client. split; [apply all_idle_table; [done|]; by repeat constructor|].
  unfold ips_u32. cbn. repeat (apply List.Forall_cons; [apply htonl_u32|]). apply List.Forall_nil.
Qed.
Lemma zero_server_inv : table_inv (ds_clients zero_server) ∧ ips_u32 (ds_clients zero_server).
Proof.
  split; [apply all_idle_table; [done|]; by repeat constructor|].
  apply Forall_map, Forall_replicate. unfold is_u32; cbn; lia.
Qed.
Lemma start_wf nif u s : dhcp_wf s → dhcp_wf (DHCPS_Start u nif s).1.
Proof.
  intros (H1 & H2 & H3). unfold DHCPS_Start, dhcp_wf. destruct (nif_up nif); cbn [negb]; [|done].
  destruct (start_clients_inv (htonl (pool_address (htonl (nif_ip nif)) (htonl (nif_mask nif)) 1))
              (htonl (nif_mask nif))) as [Ha Hb].
  by destruct (u =? 0).
Qed.

(** The server's life: the entry points the stack, the timer and the application
    call, in any order and with any answer of the code around it. *)
Inductive dhcp_step : dhcp_state → dhcp_state → Prop :=
| step_recv ram ok P s s' sent : DHCPS_RecvCb ram ok P s = Some (s', sent) → dhcp_step s s'
| step_tick ap s : dhcp_step s (_DhcpTickHandle ap s)
| step_delete mac s : dhcp_step s (DHCPS_ClientDelete mac s).1.
Inductive dhcp_reachable : dhcp_state → Prop :=
| reach_boot : dhcp_reachable dhcp_boot
| reach_start u nif s : dhcp_reachable s → dhcp_reachable (DHCPS_Start u nif s).1
| reach_stop s : dhcp_reachable s → dhcp_reachable (DHCPS_Stop s)
| reach_step s s' : dhcp_reachable s → dhcp_step s s' → dhcp_reachable s'.

Lemma dhcp_step_wf s s' : dhcp_wf s → dhcp_step s s' →
  dhcp_wf s' ∧ map cl_ip (ds_clients (dh_srv s')) = map cl_ip (ds_clients (dh_srv s)).
Proof.
  intros Hwf Hst. destruct Hst as [ram ok P s s' sent E|ap s|mac s].
  { destruct (recv_ok _ _ _ _ _ _ Hwf E) as (H1 & _ & _ & (_ & H2 & _) & _). by split. }
  all: destruct Hwf as (Hinv & Hips & Hm).
  - unfold _DhcpTickHandle. destruct (ds_enable _ =? 0); [by split|].
    destruct (tick_table ap _ Hinv) as [H1 H2]. unfold dhcp_wf, ips_u32. cbn. by rewrite H2.
  - unfold DHCPS_ClientDelete. destruct (ds_enable _ =? 0); [by split|]. destruct mac as [mac|]; [|by split].
    destruct (delete_table mac _ Hinv) as [H1 H2].
    destruct (delete_client mac _) as [cs r]. unfold dhcp_wf, ips_u32. cbn in *. by rewrite H2.
Qed.

Lemma dhcp_reachable_wf s : dhcp_reachable s → dhcp_wf s.
Proof.
  induction 1 as [|u nif s _ IH|s _ IH|s s' _ IH Hst].
  - split; [apply zero_server_inv|split; [apply zero_server_inv|apply length_replicate]].
  - by apply start_wf.
  - split; [apply zero_server_inv|split; [apply zero_server_inv|apply IH]].
  - by eapply dhcp_step_wf.
Qed.

(** In every state the server can reach, through any datagrams, ticks,
    deletions, stops and starts, no two active table entries belong to the same
    client, no entry rests in state SELECT, an OFFER is pending at most 10 ticks,
    a lease at most the default lease time, and the table has 8 entries. *)
Theorem dhcp_table_invariant s : dhcp_reachable s →
  let cs := ds_clients (dh_srv s) in
  length cs = DHCPS_HISTORY_CLIENT_NUM
  ∧ (∀ i j ci cj, cs !! i = Some ci → cs !! j = Some cj → active ci → active cj →
       cl_mac ci = cl_mac cj → i = j)
  ∧ ∀ i c, cs !! i = Some c → cl_state c ≠ STATE_SELECT
    ∧ (cl_state c = STATE_REQUEST → 0 < cl_timeout c <= 10)
    ∧ (cl_state c = STATE_BIND → 0 < cl_lease c <= 315360000).
Proof.
  intros ((HL & Hok & Hd) & _ & _)%dhcp_reachable_wf cs. split_ands; [done|done|].
  intros i c Hi. by destruct (Forall_lookup_1 _ _ _ _ Hok Hi) as (_ & ? & ? & ?).
Qed.

(** ** Time *)

Lemma iter_tick_client ap n c : client_ok c → cl_state c = STATE_REQUEST →
  Z.of_nat n < cl_timeout c →
  Nat.iter n (tick_client ap) c = set_timeout (cl_timeout c - Z.of_nat n) c.
Proof.
  intros Hok Hs. induction n as [|n IH]; intros Hn.
  - cbn. rewrite Z.sub_0_r. by destruct c.
  - rewrite Nat.iter_succ, IH by lia. unfold tick_client. cbn. rewrite Hs.
    destruct (Z.eqb_spec (cl_timeout c - Z.of_nat n) 0); [lia|]. cbn.
    destruct (Z.eqb_spec (cl_timeout c - Z.of_nat n - 1) 0); [lia|].
    unfold set_timeout; cbn. f_equal. lia.
Qed.
Lemma tick_idle ap c : cl_state c = STATE_IDLE → tick_client ap c = c.
Proof. intros Hs. unfold tick_client. by rewrite Hs. Qed.
Lemma iter_tick_idle ap n c : cl_state c = STATE_IDLE → Nat.iter n (tick_client ap) c = c.
Proof. intros Hs. induction n as [|n IH]; [done|]. rewrite Nat.iter_succ, IH. by apply tick_idle. Qed.

Lemma iter_tick_server ap n s : ds_enable (dh_srv s) ≠ 0 →
  dh_srv (Nat.iter n (_DhcpTickHandle ap) s)
  = set_clients (map (Nat.iter n (tick_client ap)) (ds_clients (dh_srv s))) (dh_srv s).
Proof.
  intros He. induction n as [|n IH].
  - cbn. rewrite map_id. by destruct (dh_srv s).
  - rewrite Nat.iter_succ. unfold _DhcpTickHandle at 1. rewrite IH. cbn [ds_enable set_clients].
    destruct (Z.eqb_spec (ds_enable (dh_srv s)) 0); [done|]. cbn [dh_srv ds_clients set_clients].
    by rewrite map_map.
Qed.

(** An offer that the client never answers is withdrawn: ten ticks after any
    moment an entry is in state REQUEST, without further datagrams, it is idle
    again and belongs to nobody, whatever the radio reports about stations. *)
Theorem offer_expires ap s i c : dhcp_reachable s → ds_enable (dh_srv s) ≠ 0 →
  ds_clients (dh_srv s) !! i = Some c → cl_state c = STATE_REQUEST →
  ∃ c', ds_clients (dh_srv (Nat.iter 10 (_DhcpTickHandle ap) s)) !! i = Some c'
  ∧ cl_state c' = STATE_IDLE ∧ cl_mac c' = zero_mac ∧ cl_ip c' = cl_ip c.
Proof.
  intros ((_ & Hok & _) & _)%dhcp_reachable_wf He Hi Hs.
  pose proof (Forall_lookup_1 _ _ _ _ Hok Hi) as Hc. pose proof Hc as (_ & _ & Ht & _).
  destruct (Ht Hs) as [Ht1 Ht2]. unfold DHCP_DEFFAULT_TIMEOUT in Ht2.
  rewrite iter_tick_server by done. cbn [ds_clients set_clients]. rewrite list_lookup_fmap, Hi.
  eexists; split; [done|].
  set (n := Z.to_nat (cl_timeout c - 1)).
  replace 10%nat with ((9 - n) + S n)%nat by lia. rewrite Nat.iter_add, Nat.iter_succ.
  rewrite (iter_tick_client ap n c Hc Hs) by lia.
  set (c1 := set_timeout _ c).
  assert (E : tick_client ap c1 = set_state STATE_IDLE (set_mac zero_mac (set_timeout 0 c1))).
  { unfold tick_client. subst c1 n. cbn. rewrite Hs.
    replace (cl_timeout c - Z.of_nat (Z.to_nat (cl_timeout c - 1))) with 1 by lia. done. }
  rewrite E, iter_tick_idle by done. done.
Qed.

(** ** The address pool *)

(** Host part [h] and host mask [2 ^ k - 1] of the interface, in host order. *)
Lemma land_ones_low a k : 0 <= k → Z.land a (2 ^ k - 1) = a mod 2 ^ k.
Proof. intros. rewrite <- Z.land_ones by lia. f_equal. rewrite Z.ones_equiv. lia. Qed.

Lemma host_mask k : 0 <= k <= 32 → u32 (Z.lnot (2 ^ 32 - 2 ^ k)) = 2 ^ k - 1.
Proof.
  intros Hk. unfold u32.
  replace (Z.lnot (2 ^ 32 - 2 ^ k)) with (2 ^ k - 1 + (-1) * 2 ^ 32) by (unfold Z.lnot; lia).
  rewrite Z.mod_add by lia. apply Z.mod_small.
  pose proof (Z.pow_le_mono_r 2 k 32). pose proof (Z.pow_pos_nonneg 2 k). lia.
Qed.
Lemma net_part v k : 0 <= k <= 32 → is_u32 v → Z.land v (2 ^ 32 - 2 ^ k) = v - v mod 2 ^ k.
Proof.
  intros Hk Hv. replace (2 ^ 32 - 2 ^ k) with (Z.shiftl (Z.ones (32 - k)) k).
  2:{ rewrite Z.shiftl_mul_pow2, Z.ones_equiv by lia. unfold Z.pred.
      rewrite Z.mul_add_distr_r, <- Z.pow_add_r by lia. replace (32 - k + k) with 32 by lia. lia. }
  replace (v - v mod 2 ^ k) with (Z.shiftl (Z.shiftr v k) k).
  2:{ rewrite Z.shiftl_mul_pow2, Z.shiftr_div_pow2 by lia.
      pose proof (Z.div_mod v (2 ^ k)). pose proof (Z.pow_pos_nonneg 2 k). lia. }
  apply Z.bits_inj'. intros n Hn. rewrite Z.land_spec.
  destruct (decide (n < k)).
  - rewrite !(Z.shiftl_spec_low _ _ n) by lia. apply andb_false_r.
  - rewrite !Z.shiftl_spec by lia. rewrite Z.shiftr_spec by lia.
    replace (n - k + k) with n by lia. destruct (decide (n < 32)).
    + rewrite Z.ones_spec_low by lia. apply andb_true_r.
    + rewrite Z.ones_spec_high by lia. rewrite andb_false_r. symmetry.
      destruct (decide (v = 0)) as [->|]; [apply Z.bits_0|].
      apply Z.bits_above_log2; [unfold is_u32 in Hv; lia|].
      apply Z.log2_lt_pow2; [unfold is_u32 in Hv; lia|].
      apply (Z.lt_le_trans _ (2 ^ 32)); [apply Hv|]. apply Z.pow_le_mono_r; lia.
Qed.
Lemma lor_disjoint a b k : 0 <= k → a mod 2 ^ k = 0 → 0 <= b < 2 ^ k → Z.lor a b = a + b.
Proof.
  intros Hk Ha Hb. symmetry. rewrite <- Z.lxor_lor, <- Z.add_nocarry_lxor; [done|..];
    apply Z.bits_inj'; intros n Hn; rewrite Z.land_spec, Z.bits_0.
  all: destruct (decide (n < k));
    [rewrite <- (Z.mod_pow2_bits_low a k n), Ha, Z.bits_0 by lia; done|].
  all: replace b with (b mod 2 ^ k) by (apply Z.mod_small; lia).
  all: rewrite Z.mod_pow2_bits_high by lia; apply andb_false_r.
Qed.

Lemma pool_address_eq v k i : 0 <= k <= 32 → is_u32 v → 0 <= i →
  0 < v mod 2 ^ k + i < 2 ^ k - 1 →
  pool_address v (2 ^ 32 - 2 ^ k) i = v + i.
Proof.
  intros Hk Hv Hi Hr. unfold pool_address.
  rewrite host_mask, net_part, land_ones_low by (done || lia).
  assert (Hp : 2 ^ k <= 2 ^ 32) by (apply Z.pow_le_mono_r; lia).
  rewrite (u32_small (_ + i)) by (unfold is_u32; lia).
  rewrite (Z.mod_small (_ + i)) by lia. split_guard; [lia|].
  rewrite (lor_disjoint _ _ k); [lia|lia| |lia].
  pose proof (Z.div_mod v (2 ^ k)). replace (v - v mod 2 ^ k) with (v / 2 ^ k * 2 ^ k) by lia.
  apply Z.mod_mul. lia.
Qed.

(** The interface of a subnet with host mask [2 ^ k - 1] whose own host number
    leaves room for the eight entries behind it. *)
Definition roomy (nif : netif) (k : Z) : Prop :=
  nif_up nif = true ∧ is_u32 (nif_ip nif) ∧ 0 <= k <= 32
  ∧ nif_mask nif = htonl (2 ^ 32 - 2 ^ k) ∧ htonl (nif_ip nif) mod 2 ^ k + 8 < 2 ^ k - 1.

Lemma mask_u32 k : 0 < k <= 32 → is_u32 (2 ^ 32 - 2 ^ k).
Proof.
  intros Hk. pose proof (Z.pow_le_mono_r 2 k 32). pose proof (Z.pow_pos_nonneg 2 k).
  unfold is_u32. lia.
Qed.
Lemma start_addresses new nif k s : roomy nif k →
  map cl_ip (ds_clients (dh_srv (DHCPS_Start new nif s).1))
  = map (λ i, htonl (htonl (nif_ip nif) + 1 + i)) (seqZ 0 8).
Proof.
  intros (Hup & Hip & Hk & Hmask & Hroom). unfold DHCPS_Start. rewrite Hup, Hmask. cbn [negb].
  set (v := htonl (nif_ip nif)) in *. pose proof (htonl_u32 (nif_ip nif)) as Hv. fold v in Hv.
  pose proof (Z.pow_pos_nonneg 2 k ltac:(lia) ltac:(lia)) as Hpos.
  pose proof (Z.mod_pos_bound v (2 ^ k) Hpos) as Hmod.
  assert (Hk0 : 0 < k). { destruct (decide (k = 0)) as [->|]; [cbn in Hroom; lia|lia]. }
  rewrite htonl_involutive by (apply mask_u32; lia).
  rewrite (pool_address_eq v k 1) by (done || lia).
  pose proof (Z.div_mod v (2 ^ k) ltac:(lia)) as Hdm.
  assert (Hv1 : (v + 1) mod 2 ^ k = v mod 2 ^ k + 1).
  { symmetry. apply (Z.mod_unique _ _ (v / 2 ^ k)); lia. }
  assert (Hp32 : 2 ^ k * 2 ^ (32 - k) = 2 ^ 32) by (rewrite <- Z.pow_add_r by lia; f_equal; lia).
  assert (Hv1u : is_u32 (v + 1)).
  { unfold is_u32 in *. assert (v / 2 ^ k < 2 ^ (32 - k)) by (apply Z.div_lt_upper_bound; lia). nia. }
  destruct (new =? 0); cbn [fst dh_srv ds_clients]; rewrite map_map; apply map_ext_in;
    intros i Hi%list_elem_of_In%elem_of_seqZ; cbn [cl_ip]; rewrite htonl_involutive by done;
    by rewrite (pool_address_eq (v + 1) k i) by (done || lia).
Qed.

(** On an interface whose host number leaves room for eight more in its
    subnet, [DHCPS_Start] gives the entries eight different addresses, the ones
    that follow the server's own, all in the server's subnet, none of them the
    network or the broadcast address. *)
Theorem DHCPS_Start_addresses new nif k s : roomy nif k →
  let v := htonl (nif_ip nif) in
  let ips := map (λ c, htonl (cl_ip c)) (ds_clients (dh_srv (DHCPS_Start new nif s).1)) in
  ips = map (λ i, v + 1 + i) (seqZ 0 8)
  ∧ Forall (λ a, a ≠ v ∧ a / 2 ^ k = v / 2 ^ k ∧ 0 < a mod 2 ^ k < 2 ^ k - 1) ips.
Proof.
  intros Hroomy v ips. pose proof (start_addresses new nif k s Hroomy) as E.
  destruct Hroomy as (Hup & Hip & Hk & Hmask & Hroom). fold v in E, Hroom.
  pose proof (htonl_u32 (nif_ip nif)) as Hv. fold v in Hv.
  pose proof (Z.pow_pos_nonneg 2 k ltac:(lia) ltac:(lia)) as Hpos.
  pose proof (Z.mod_pos_bound v (2 ^ k) Hpos) as Hmod.
  pose proof (Z.div_mod v (2 ^ k) ltac:(lia)) as Hdm.
  assert (Hp32 : 2 ^ k * 2 ^ (32 - k) = 2 ^ 32) by (rewrite <- Z.pow_add_r by lia; f_equal; lia).
  assert (Hq : v / 2 ^ k < 2 ^ (32 - k)).
  { apply Z.div_lt_upper_bound; [lia|]. unfold is_u32 in Hv. lia. }
  assert (Hips : ips = map (λ i, v + 1 + i) (seqZ 0 8)).
  { subst ips. rewrite <- (map_map cl_ip htonl), E, map_map. apply map_ext_in.
    intros i Hi%list_elem_of_In%elem_of_seqZ. apply htonl_involutive. unfold is_u32 in *. nia. }
  split; [done|]. rewrite Hips. apply Forall_map, Forall_seqZ. intros i Hi. cbn.
  assert (Hm : (v + 1 + i) mod 2 ^ k = v mod 2 ^ k + 1 + i).
  { symmetry. apply (Z.mod_unique _ _ (v / 2 ^ k)); lia. }
  split_ands; [lia| |lia|lia].
  symmetry. apply (Z.div_unique _ _ _ (v mod 2 ^ k + 1 + i)); lia.
Qed.

Definition nif_demo : netif := Netif true (htonl 0xC0A80101) (htonl (2 ^ 32 - 2 ^ 8)).
Lemma nif_demo_roomy : roomy nif_demo 8.
Proof. unfold roomy. split_ands; try (vm_compute; done); vm_compute; intuition discriminate. Qed.
Lemma DHCPS_Start_addresses_witness :
  map (λ c, htonl (cl_ip c)) (ds_clients (dh_srv (DHCPS_Start 0x20002000 nif_demo dhcp_boot).1))
  = map (λ i, 0xC0A80101 + 1 + i) (seqZ 0 8).
Proof. apply (DHCPS_Start_addresses 0x20002000 nif_demo 8 dhcp_boot nif_demo_roomy). Defined.

(** Near the end of the subnet the pool wraps and repeats addresses: a server
    at host 250 of a /24 puts host 1 into two of its entries. *)
Theorem DHCPS_Start_duplicate_address :
  map (λ c, htonl (cl_ip c) - 0xC0A80100)
    (ds_clients (dh_srv (DHCPS_Start 0x20002000 (Netif true (htonl 0xC0A801FA) (htonl 0xFFFFFF00)) dhcp_boot).1))
  = [251; 252; 253; 254; 1; 1; 2; 3].
Proof. vm_compute. reflexivity. Qed.

Lemma run_ips s s' : dhcp_wf s → rtc dhcp_step s s' →
  dhcp_wf s' ∧ map cl_ip (ds_clients (dh_srv s')) = map cl_ip (ds_clients (dh_srv s)).
Proof.
  intros Hwf Hrun. induction Hrun as [s|s1 s2 s3 Hst _ IH]; [by split|].
  destruct (dhcp_step_wf _ _ Hwf Hst) as [H1 H2]. destruct (IH H1) as [H3 H4].
  split; [done|congruence].
Qed.

(** C1: leases are exclusive: from a start on a roomy interface, after any sequence
    of datagrams, ticks and deletions, two different active entries have different
    clients and different addresses, and none has the server's address. *)
Theorem leases_exclusive new nif k s0 s :
  dhcp_reachable s0 → roomy nif k → rtc dhcp_step (DHCPS_Start new nif s0).1 s →
  ∀ i j ci cj, ds_clients (dh_srv s) !! i = Some ci → ds_clients (dh_srv s) !! j = Some cj →
    active ci → active cj → i ≠ j →
    cl_mac ci ≠ cl_mac cj ∧ cl_ip ci ≠ cl_ip cj ∧ cl_ip ci ≠ nif_ip nif.
Proof.
  intros Hr Hroomy Hrun i j ci cj Hi Hj Hai Haj Hij.
  pose proof (start_wf nif new s0 (dhcp_reachable_wf _ Hr)) as Hwf.
  destruct (run_ips _ _ Hwf Hrun) as [((_ & _ & Hd) & _ & _) Eips].
  rewrite (start_addresses new nif k s0 Hroomy) in Eips.
  destruct Hroomy as (_ & Hip & Hk & _ & Hroom).
  set (v := htonl (nif_ip nif)) in *. pose proof (htonl_u32 (nif_ip nif)) as Hv. fold v in Hv.
  pose proof (Z.pow_pos_nonneg 2 k ltac:(lia) ltac:(lia)) as Hpos.
  pose proof (Z.mod_pos_bound v (2 ^ k) Hpos) as Hmod.
  pose proof (Z.div_mod v (2 ^ k) ltac:(lia)) as Hdm.
  assert (Hp32 : 2 ^ k * 2 ^ (32 - k) = 2 ^ 32) by (rewrite <- Z.pow_add_r by lia; f_equal; lia).
  assert (Hq : v / 2 ^ k < 2 ^ (32 - k)).
  { apply Z.div_lt_upper_bound; [lia|]. unfold is_u32 in Hv. lia. }
  assert (Hat : ∀ n c, ds_clients (dh_srv s) !! n = Some c →
            0 <= Z.of_nat n < 8 ∧ cl_ip c = htonl (v + 1 + Z.of_nat n)).
  { intros n c Hn. assert (Hm : map cl_ip (ds_clients (dh_srv s)) !! n = Some (cl_ip c))
      by (by rewrite list_lookup_fmap, Hn).
    rewrite Eips, list_lookup_fmap in Hm. destruct (seqZ 0 8 !! n) as [x|] eqn:Ex; [|done].
    apply lookup_seqZ in Ex as [-> Hn8]. cbn in Hm. injection Hm as <-. split; [lia|]. f_equal; lia. }
  destruct (Hat i ci Hi) as [Hi8 Ei], (Hat j cj Hj) as [Hj8 Ej].
  assert (Hinj : ∀ a b, is_u32 a → is_u32 b → htonl a = htonl b → a = b).
  { intros a b Ha Hb E. rewrite <- (htonl_involutive a Ha), E. by apply htonl_involutive. }
  assert (Hu : ∀ n, 0 <= n < 8 → is_u32 (v + 1 + n)) by (intros n Hn; unfold is_u32 in *; nia).
  split_ands.
  - intros E. apply Hij. by eapply Hd.
  - rewrite Ei, Ej. intros E. apply Hinj in E; [lia|auto..].
  - rewrite Ei. intros E. assert (E' : v + 1 + Z.of_nat i = v); [|lia].
    apply Hinj; [auto|done|]. subst v. by rewrite htonl_involutive.
Qed.

(** ** A stale buffer *)

(** A 240-byte request header for [mac] followed by [opts]. *)
Definition request_packet (mac opts : list Z) : list Z :=
  store_at 236 (le32 (htonl DHCP_MAGIC)) (store_at 28 mac (store_at 0 [1; 1; 6] (replicate 240 0)))
  ++ opts.
Definition dhcp_demo0 : dhcp_state := (DHCPS_Start 0x20002000 nif_demo dhcp_boot).1.
Definition after (r : option (dhcp_state * list (list Z))) : dhcp_state :=
  match r with Some (s, _) => s | None => dhcp_boot end.
Definition demo_mac : list Z := [2; 4; 6; 8; 10; 12].
Definition demo_discover : pbuf := [request_packet demo_mac [53; 1; 1; 255]].
Definition demo_release : pbuf := [request_packet demo_mac [53; 1; 7; 255]].
Definition dhcp_demo1 : dhcp_state := after (DHCPS_RecvCb [] true demo_discover dhcp_demo0).

(** The receive path checks the fields of [DhcpMsg], not the length of what was
    received: after a datagram that got no reply, a datagram of a single byte is
    taken for a repetition of it.  Here a DISCOVER that found no packet buffer is
    answered when the one-byte datagram arrives. *)
Theorem one_byte_datagram_replays :
  ∃ s1 s2 offer,
  DHCPS_RecvCb [] false demo_discover dhcp_demo0 = Some (s1, [])
  ∧ DHCPS_RecvCb [] true [[1]] s1 = Some (s2, [offer])
  ∧ reply_type offer = DHCP_MSG_OFFER ∧ reply_chaddr offer = demo_mac.
Proof.
  do 3 eexists. split; [vm_compute; reflexivity|]. split; [vm_compute; reflexivity|].
  split; vm_compute; reflexivity.
Qed.

(** ** Witnesses *)

Lemma dhcp_demo0_reach : dhcp_reachable dhcp_demo0.
Proof. apply reach_start, reach_boot. Qed.
Lemma dhcp_demo1_step : dhcp_step dhcp_demo0 dhcp_demo1.
Proof.
  unfold dhcp_demo1, after. destruct (DHCPS_RecvCb [] true demo_discover dhcp_demo0) as [[s o]|] eqn:E;
    [by eapply step_recv|vm_compute in E; discriminate].
Qed.
Lemma dhcp_demo1_reach : dhcp_reachable dhcp_demo1.
Proof. eapply reach_step; [apply dhcp_demo0_reach|apply dhcp_demo1_step]. Qed.

Lemma DHCPS_RecvCb_spec_witness :
  ∃ s' sent, DHCPS_RecvCb [] true demo_discover dhcp_demo0 = Some (s', sent)
  ∧ length sent = 1%nat ∧ Forall (reply_ok demo_mac (ds_clients (dh_srv s'))) sent.
Proof.
  destruct (DHCPS_RecvCb [] true demo_discover dhcp_demo0) as [[s' sent]|] eqn:E;
    [|vm_compute in E; discriminate].
  exists s', sent. split; [reflexivity|]. split; [vm_compute in E; injection E as <- <-; reflexivity|].
  exact (proj2 (proj2 (proj2 (proj2 (DHCPS_RecvCb_spec [] true demo_discover dhcp_demo0 s' sent
    (dhcp_reachable_wf _ dhcp_demo0_reach) E))))).
Defined.

Lemma ParseDhcpOptions_terminates_witness :
  is_Some (_ParseDhcpOptions overrun_msg (replicate 257 200) (ParseResult 0 0xff 0 0)).
Proof.
  apply ParseDhcpOptions_terminates;
    [|apply Forall_replicate; unfold is_byte; lia|reflexivity|rewrite length_replicate; lia].
  unfold overrun_msg. rewrite !Forall_app.
  split; [apply Forall_replicate; unfold is_byte; lia|].
  split; [apply Forall_replicate; unfold is_byte; lia|]. repeat constructor; unfold is_byte; lia.
Defined.

Lemma dhcp_table_invariant_witness : length (ds_clients (dh_srv dhcp_demo1)) = 8%nat.
Proof. apply (dhcp_table_invariant dhcp_demo1 dhcp_demo1_reach). Defined.

Lemma offer_expires_witness :
  ∃ c', ds_clients (dh_srv (Nat.iter 10 (_DhcpTickHandle (λ _, 1)) dhcp_demo1)) !! 0%nat = Some c'
  ∧ cl_state c' = STATE_IDLE ∧ cl_mac c' = zero_mac ∧ htonl (cl_ip c') = 0xC0A80102.
Proof.
  destruct (offer_expires (λ _, 1) dhcp_demo1 0
    (DhcpClient STATE_REQUEST 10 (htonl 0xC0A80102) demo_mac 315360000)) as (c' & H1 & H2 & H3 & H4).
  - exact dhcp_demo1_reach.
  - vm_compute. discriminate.
  - vm_compute. reflexivity.
  - reflexivity.
  - exists c'. split; [exact H1|]. split; [exact H2|]. split; [exact H3|]. rewrite H4.
    vm_compute. reflexivity.
Defined.

Definition demo_discover2 : pbuf := [request_packet [9; 9; 9; 9; 9; 9] [53; 1; 1; 255]].
Definition dhcp_demo2 : dhcp_state := after (DHCPS_RecvCb [] true demo_discover2 dhcp_demo1).
Lemma leases_exclusive_witness :
  ∃ c0 c1, ds_clients (dh_srv dhcp_demo2) !! 0%nat = Some c0
  ∧ ds_clients (dh_srv dhcp_demo2) !! 1%nat = Some c1 ∧ cl_ip c0 ≠ cl_ip c1.
Proof.
  do 2 eexists. split; [vm_compute; reflexivity|]. split; [vm_compute; reflexivity|].
  eapply (leases_exclusive 0x20002000 nif_demo 8 dhcp_boot dhcp_demo2 reach_boot nif_demo_roomy _ 0%nat 1%nat);
    [vm_compute; reflexivity|vm_compute; reflexivity|discriminate|discriminate|lia].
  Unshelve.
  eapply rtc_l; [exact dhcp_demo1_step|]. apply rtc_once.
  unfold dhcp_demo2, after. destruct (DHCPS_RecvCb [] true demo_discover2 dhcp_demo1) as [[s o]|] eqn:E;
    [by eapply step_recv|vm_compute in E; discriminate].
Defined.
