(* ===== verification/Crc.v ===== *)
(** Checksums of [Sys/util.c]: the table-driven CRC-8 and the CRC-32 computed by
    XOR equations of bits, both against the bit-serial definition. *)
From S2P Require Import Prelude.

(* @ Sys/util.c:421-455 __crc8_tbl *)
Definition __crc8_tbl : list Z := [
   0; 145; 227; 114; 7; 150; 228; 117; 14; 159; 237; 124; 9; 152; 234; 123;
   28; 141; 255; 110; 27; 138; 248; 105; 18; 131; 241; 96; 21; 132; 246; 103;
   56; 169; 219; 74; 63; 174; 220; 77; 54; 167; 213; 68; 49; 160; 210; 67;
   36; 181; 199; 86; 35; 178; 192; 81; 42; 187; 201; 88; 45; 188; 206; 95;
   112; 225; 147; 2; 119; 230; 148; 5; 126; 239; 157; 12; 121; 232; 154; 11;
   108; 253; 143; 30; 107; 250; 136; 25; 98; 243; 129; 16; 101; 244; 134; 23;
   72; 217; 171; 58; 79; 222; 172; 61; 70; 215; 165; 52; 65; 208; 162; 51;
   84; 197; 183; 38; 83; 194; 176; 33; 90; 203; 185; 40; 93; 204; 190; 47;
   224; 113; 3; 146; 231; 118; 4; 149; 238; 127; 13; 156; 233; 120; 10; 155;
   252; 109; 31; 142; 251; 106; 24; 137; 242; 99; 17; 128; 245; 100; 22; 135;
   216; 73; 59; 170; 223; 78; 60; 173; 214; 71; 53; 164; 209; 64; 50; 163;
   196; 85; 39; 182; 195; 82; 32; 177; 202; 91; 41; 184; 205; 92; 46; 191;
   144; 1; 115; 226; 151; 6; 116; 229; 158; 15; 125; 236; 153; 8; 122; 235;
   140; 29; 111; 254; 139; 26; 104; 249; 130; 19; 97; 240; 133; 20; 102; 247;
   168; 57; 75; 218; 175; 62; 76; 221; 166; 55; 69; 212; 161; 48; 66; 211;
   180; 37; 87; 198; 179; 34; 80; 193; 186; 43; 89; 200; 189; 44; 94; 207].

(* @ Sys/util.c:457-468 NST_GetCrc8 *)
Definition NST_GetCrc8 (ptr : list Z) (len : nat) : Z :=
  foldl (λ crc8 data, byte_at __crc8_tbl (Z.lxor crc8 data)) 0 (take len ptr).

Declare Scope bit_scope.
Delimit Scope bit_scope with bits.
Local Notation "a ⊕ b" := (xorb a b) (at level 50, left associativity) : bit_scope.

(** The 32 equations: [c i] is [crc_buf[i]], [d i] is [in_data_buf[i]]. *)
(* @ Sys/util.c:494-531 _cal_crc32 *)
Definition crc_out (c d : Z → bool) : list bool := ([
   d 1 ⊕ d 7 ⊕ c 30 ⊕ c 24;
   d 0 ⊕ d 1 ⊕ d 6 ⊕ d 7 ⊕ c 31 ⊕ c 30 ⊕ c 25 ⊕ c 24;
   d 0 ⊕ d 1 ⊕ d 5 ⊕ d 6 ⊕ d 7 ⊕ c 31 ⊕ c 30 ⊕ c 26 ⊕ c 25 ⊕ c 24;
   d 0 ⊕ d 4 ⊕ d 5 ⊕ d 6 ⊕ c 31 ⊕ c 27 ⊕ c 26 ⊕ c 25;
   d 1 ⊕ d 3 ⊕ d 4 ⊕ d 5 ⊕ d 7 ⊕ c 30 ⊕ c 28 ⊕ c 27 ⊕ c 26 ⊕ c 24;
   d 0 ⊕ d 1 ⊕ d 2 ⊕ d 3 ⊕ d 4 ⊕ d 6 ⊕ d 7 ⊕ c 31 ⊕ c 30 ⊕ c 29 ⊕ c 28 ⊕ c 27 ⊕ c 25 ⊕ c 24;
   d 0 ⊕ d 1 ⊕ d 2 ⊕ d 3 ⊕ d 5 ⊕ d 6 ⊕ c 31 ⊕ c 30 ⊕ c 29 ⊕ c 28 ⊕ c 26 ⊕ c 25;
   d 0 ⊕ d 2 ⊕ d 4 ⊕ d 5 ⊕ d 7 ⊕ c 31 ⊕ c 29 ⊕ c 27 ⊕ c 26 ⊕ c 24;
   d 3 ⊕ d 4 ⊕ d 6 ⊕ d 7 ⊕ c 28 ⊕ c 27 ⊕ c 25 ⊕ c 24 ⊕ c 0;
   d 2 ⊕ d 3 ⊕ d 5 ⊕ d 6 ⊕ c 29 ⊕ c 28 ⊕ c 26 ⊕ c 25 ⊕ c 1;
   d 2 ⊕ d 4 ⊕ d 5 ⊕ d 7 ⊕ c 29 ⊕ c 27 ⊕ c 26 ⊕ c 24 ⊕ c 2;
   d 3 ⊕ d 4 ⊕ d 6 ⊕ d 7 ⊕ c 28 ⊕ c 27 ⊕ c 25 ⊕ c 24 ⊕ c 3;
   d 1 ⊕ d 2 ⊕ d 3 ⊕ d 5 ⊕ d 6 ⊕ d 7 ⊕ c 30 ⊕ c 29 ⊕ c 28 ⊕ c 26 ⊕ c 25 ⊕ c 24 ⊕ c 4;
   d 0 ⊕ d 1 ⊕ d 2 ⊕ d 4 ⊕ d 5 ⊕ d 6 ⊕ c 31 ⊕ c 30 ⊕ c 29 ⊕ c 27 ⊕ c 26 ⊕ c 25 ⊕ c 5;
   d 0 ⊕ d 1 ⊕ d 3 ⊕ d 4 ⊕ d 5 ⊕ c 31 ⊕ c 30 ⊕ c 28 ⊕ c 27 ⊕ c 26 ⊕ c 6;
   d 0 ⊕ d 2 ⊕ d 3 ⊕ d 4 ⊕ c 31 ⊕ c 29 ⊕ c 28 ⊕ c 27 ⊕ c 7;
   d 2 ⊕ d 3 ⊕ d 7 ⊕ c 29 ⊕ c 28 ⊕ c 24 ⊕ c 8;
   d 1 ⊕ d 2 ⊕ d 6 ⊕ c 30 ⊕ c 29 ⊕ c 25 ⊕ c 9;
   d 0 ⊕ d 1 ⊕ d 5 ⊕ c 31 ⊕ c 30 ⊕ c 26 ⊕ c 10;
   d 0 ⊕ d 4 ⊕ c 31 ⊕ c 27 ⊕ c 11;
   d 3 ⊕ c 28 ⊕ c 12;
   d 2 ⊕ c 29 ⊕ c 13;
   d 7 ⊕ c 24 ⊕ c 14;
   d 1 ⊕ d 6 ⊕ d 7 ⊕ c 30 ⊕ c 25 ⊕ c 24 ⊕ c 15;
   d 0 ⊕ d 5 ⊕ d 6 ⊕ c 31 ⊕ c 26 ⊕ c 25 ⊕ c 16;
   d 4 ⊕ d 5 ⊕ c 27 ⊕ c 26 ⊕ c 17;
   d 1 ⊕ d 3 ⊕ d 4 ⊕ d 7 ⊕ c 30 ⊕ c 28 ⊕ c 27 ⊕ c 24 ⊕ c 18;
   d 0 ⊕ d 2 ⊕ d 3 ⊕ d 6 ⊕ c 31 ⊕ c 29 ⊕ c 28 ⊕ c 25 ⊕ c 19;
   d 1 ⊕ d 2 ⊕ d 5 ⊕ c 30 ⊕ c 29 ⊕ c 26 ⊕ c 20;
   d 0 ⊕ d 1 ⊕ d 4 ⊕ c 31 ⊕ c 30 ⊕ c 27 ⊕ c 21;
   d 0 ⊕ d 3 ⊕ c 31 ⊕ c 28 ⊕ c 22;
   d 2 ⊕ c 23 ⊕ c 29])%bits.

(** [crc_result = 0; for (i ..) if (crc_out[i]) crc_result |= (1 << i);] *)
(* @ Sys/util.c:533-538 _cal_crc32 *)
Definition of_bits (bs : list bool) : Z :=
  foldr (λ (b : bool) r, Z.lor (if b then 1 else 0) (Z.shiftl r 1)) 0 bs.
(* @ Sys/util.c:470-540 _cal_crc32 *)
Definition _cal_crc32 (crc_result data_8 : Z) : Z :=
  i32 (of_bits (crc_out (Z.testbit crc_result) (Z.testbit data_8))).

(** [for (i ..) if ((crc_result >> i) & 1) val |= (1 << (31 - i));] *)
(* @ Sys/util.c:552-559 NST_GetCrc32 *)
Definition reverse32 (crc_result : Z) : Z :=
  i32 (of_bits (map (λ i, Z.testbit crc_result (31 - i)) (seqZ 0 32))).
(* @ Sys/util.c:542-562 NST_GetCrc32 *)
Definition NST_GetCrc32 (pData : list Z) (DataSize : nat) : Z :=
  Z.lnot (reverse32 (foldl _cal_crc32 (i32 0xFFFFFFFF) (take DataSize pData))).

(** ** Bit-serial definitions

    Reflected CRCs: the register is shifted right once per data bit, least
    significant bit first, and the polynomial [poly] (reflected) is added when the
    bit shifted out differs from the data bit. *)
Definition crc_bit (poly crc : Z) (b : bool) : Z :=
  Z.lxor (Z.shiftr crc 1) (if xorb (Z.testbit crc 0) b then poly else 0).
Definition crc_byte (poly crc d : Z) : Z :=
  foldl (λ c k, crc_bit poly c (Z.testbit d k)) crc (seqZ 0 8).
(** CRC-32 of IEEE 802.3. *)
Definition crc32_ieee (ds : list Z) : Z :=
  Z.lxor (foldl (crc_byte 0xEDB88320) 0xFFFFFFFF ds) 0xFFFFFFFF.

Lemma crc8_table_check :
  forallb (λ x, (byte_at __crc8_tbl x =? crc_byte 0xE0 x 0) && (0 <=? byte_at __crc8_tbl x)
    && (byte_at __crc8_tbl x <? 256)) bytes256 = true.
Proof. vm_compute. reflexivity. Qed.

Lemma crc8_table_eq x : is_byte x → byte_at __crc8_tbl x = crc_byte 0xE0 x 0.
Proof. intros Hx. pose proof (for_all_bytes _ crc8_table_check x Hx) as H. cbn beta in H. lia. Qed.
Lemma crc8_table_byte x : is_byte x → is_byte (byte_at __crc8_tbl x).
Proof.
  intros Hx. pose proof (for_all_bytes _ crc8_table_check x Hx) as H. cbn beta in H.
  unfold is_byte. lia.
Qed.
Lemma crc8_step_check : forallb (λ c, forallb (λ d,
  crc_byte 0xE0 c d =? crc_byte 0xE0 (Z.lxor c d) 0) bytes256) bytes256 = true.
Proof. vm_compute. reflexivity. Qed.
Lemma crc8_step c d : is_byte c → is_byte d →
  byte_at __crc8_tbl (Z.lxor c d) = crc_byte 0xE0 c d.
Proof.
  intros Hc Hd. rewrite crc8_table_eq by auto with buf.
  pose proof (for_all_bytes _ crc8_step_check c Hc) as H. cbn beta in H.
  pose proof (for_all_bytes _ H d Hd) as H'. cbn beta in H'. lia.
Qed.

(** The table-driven [NST_GetCrc8] computes the bit-serial CRC-8 with reflected
    polynomial 0xE0 (x^8 + x^2 + x + 1) and initial value 0, for any data. *)
Theorem NST_GetCrc8_bitwise ptr len : bytes_ok ptr → (len <= length ptr)%nat →
  NST_GetCrc8 ptr len = foldl (crc_byte 0xE0) 0 (take len ptr).
Proof.
  intros Hb _. unfold NST_GetCrc8. apply (Forall_take _ len) in Hb.
  assert (H : ∀ c, is_byte c → foldl (λ crc8 data, byte_at __crc8_tbl (Z.lxor crc8 data)) c (take len ptr)
                             = foldl (crc_byte 0xE0) c (take len ptr)).
  { induction Hb as [|d ds Hd _ IH]; intros c Hc; [done|]. cbn [foldl].
    rewrite <- crc8_step by done. apply IH. apply crc8_table_byte. auto with buf. }
  apply H. unfold is_byte. lia.
Qed.

Lemma NST_GetCrc8_bitwise_witness :
  NST_GetCrc8 [49; 50; 51] 3 = foldl (crc_byte 0xE0) 0 [49; 50; 51].
Proof. apply (NST_GetCrc8_bitwise [49; 50; 51] 3); [repeat constructor; unfold is_byte; lia|cbn; lia]. Defined.

(** ** CRC-32: the 32 equations are eight bit-serial steps *)

(** The register of the bit-serial form as its bits, least significant first. *)
Definition bits32 (r : Z) : list bool := map (Z.testbit r) (seqZ 0 32).
Definition poly_bits : list bool := bits32 0xEDB88320.
Definition step_bits (l : list bool) (b : bool) : list bool :=
  zip_with (λ (x p : bool), if p then xorb x (xorb (hd false l) b) else x)
    (tail l ++ [false]) poly_bits.

Lemma bits32_crc_bit r b : is_u32 r →
  bits32 (crc_bit 0xEDB88320 r b) = step_bits (bits32 r) b.
Proof.
  intros Hr. unfold bits32, crc_bit.
  assert (H : ∀ n, 0 <= n → Z.testbit (Z.lxor (Z.shiftr r 1) (if xorb (Z.testbit r 0) b then 0xEDB88320 else 0)) n
    = if Z.testbit 0xEDB88320 n then xorb (Z.testbit r (n + 1)) (xorb (Z.testbit r 0) b)
      else Z.testbit r (n + 1)).
  { intros n Hn. rewrite Z.lxor_spec, Z.shiftr_spec by done.
    destruct (xorb (Z.testbit r 0) b); cbv iota; rewrite ?Z.bits_0, ?xorb_false_r;
      [|by destruct (Z.testbit 0xEDB88320 n)].
    destruct (Z.testbit 0xEDB88320 n); by rewrite ?xorb_false_r. }
  assert (H32 : Z.testbit r 32 = false).
  { destruct (decide (r = 0)) as [->|]; [done|]. unfold is_u32 in Hr.
    apply Z.bits_above_log2; [lia|]. apply Z.log2_lt_pow2; lia. }
  rewrite (map_ext_in _ (λ n, if Z.testbit 0xEDB88320 n then xorb (Z.testbit r (n + 1)) (xorb (Z.testbit r 0) b)
      else Z.testbit r (n + 1))).
  2:{ intros n Hn%list_elem_of_In%elem_of_seqZ. apply H. lia. }
  unfold step_bits, poly_bits, bits32. rewrite <- H32. reflexivity.
Qed.
Lemma crc_bit_u32 r b : is_u32 r → is_u32 (crc_bit 0xEDB88320 r b).
Proof.
  intros Hr. unfold crc_bit.
  assert (Hl : ∀ x y, is_u32 x → is_u32 y → is_u32 (Z.lxor x y)).
  { intros x y Hx Hy. rewrite <- (u32_small _ Hx), <- (u32_small _ Hy). unfold u32.
    rewrite <- !Z.land_ones by lia. replace (Z.lxor _ _) with (Z.land (Z.lxor x y) (Z.ones 32)) by bitwise_eq.
    rewrite Z.land_ones by lia. apply Z.mod_pos_bound. lia. }
  apply Hl.
  - rewrite Z.shiftr_div_pow2 by lia. unfold is_u32 in *. change (2 ^ 1) with 2.
    split; [apply Z.div_pos; lia|apply Z.div_lt_upper_bound; lia].
  - destruct (xorb _ _); unfold is_u32; lia.
Qed.
Lemma bits32_crc_byte r d : is_u32 r →
  bits32 (crc_byte 0xEDB88320 r d) = foldl step_bits (bits32 r) (map (Z.testbit d) (seqZ 0 8))
  ∧ is_u32 (crc_byte 0xEDB88320 r d).
Proof.
  unfold crc_byte. generalize (seqZ 0 8). intros ks. revert r.
  induction ks as [|k ks IH]; intros r Hr; [done|]. cbn [foldl map].
  destruct (IH _ (crc_bit_u32 r (Z.testbit d k) Hr)) as [-> ?]. by rewrite bits32_crc_bit.
Qed.

(** The equations, for an arbitrary register and byte given by their bits. *)
Lemma crc_out_steps (c d : Z → bool) :
  rev (crc_out c d) =
  foldl step_bits (map (λ i, c (31 - i)) (seqZ 0 32)) (map d (seqZ 0 8)).
Proof.
  cbv -[xorb]. repeat (apply (f_equal2 (@cons bool)); [btauto|]). reflexivity.
Qed.

(** A 32-bit signed register [c] and the IEEE register [r], one the mirror image of
    the other. *)
Definition mirror (c r : Z) : Prop := ∀ i, 0 <= i < 32 → Z.testbit c i = Z.testbit r (31 - i).

Lemma of_bits_bit bs i : 0 <= i →
  Z.testbit (of_bits bs) i = default false (bs !! Z.to_nat i).
Proof.
  revert i. induction bs as [|b bs IH]; intros i Hi; cbn [of_bits foldr].
  - by rewrite Z.bits_0, lookup_nil.
  - fold (of_bits bs). rewrite Z.lor_spec, Z.shiftl_spec by lia.
    destruct (decide (i = 0)) as [->|].
    + rewrite (Z.testbit_neg_r _ (0 - 1)), orb_false_r by lia. by destruct b.
    + rewrite IH by lia. replace (Z.to_nat i) with (S (Z.to_nat (i - 1))) by lia.
      cbn [lookup list_lookup]. replace (Z.testbit _ i) with false; [done|].
      destruct b; [|by rewrite Z.bits_0]. symmetry. apply Z.bits_above_log2; cbn; lia.
Qed.
Lemma i32_bit x i : 0 <= i < 32 → Z.testbit (i32 x) i = Z.testbit x i.
Proof.
  intros Hi. rewrite <- (Z.mod_pow2_bits_low (i32 x) 32), <- (Z.mod_pow2_bits_low x 32) by lia.
  f_equal. unfold i32. rewrite Zminus_mod_idemp_l. f_equal. lia.
Qed.
Lemma mirror_bits c r : mirror c r →
  map (λ i, Z.testbit c (31 - i)) (seqZ 0 32) = bits32 r.
Proof.
  intros H. apply map_ext_in. intros i Hi%list_elem_of_In%elem_of_seqZ.
  rewrite H by lia. f_equal. lia.
Qed.

Lemma map_seqZ_lookup (f : Z → bool) i : 0 <= i < 32 →
  map f (seqZ 0 32) !! Z.to_nat i = Some (f i).
Proof.
  intros Hi. change (map f) with (fmap (M := list) f).
  rewrite list_lookup_fmap, (lookup_seqZ_lt 0 32) by lia. cbn. f_equal. f_equal. lia.
Qed.
Lemma of_bits_mirror x : mirror (i32 (of_bits (rev (bits32 x)))) x.
Proof.
  intros i Hi. rewrite i32_bit, of_bits_bit by lia.
  change (rev (bits32 x)) with (map (λ i, Z.testbit x (31 - i)) (seqZ 0 32)).
  by rewrite map_seqZ_lookup.
Qed.
Lemma cal_crc32_mirror c r d : is_u32 r → mirror c r →
  mirror (_cal_crc32 c d) (crc_byte 0xEDB88320 r d).
Proof.
  intros Hr Hm. unfold _cal_crc32.
  rewrite <- (rev_involutive (crc_out _ _)), crc_out_steps, (mirror_bits _ _ Hm).
  rewrite <- (proj1 (bits32_crc_byte r d Hr)). apply of_bits_mirror.
Qed.
Lemma foldl_cal_crc32 ds c r : is_u32 r → mirror c r →
  mirror (foldl _cal_crc32 c ds) (foldl (crc_byte 0xEDB88320) r ds)
  ∧ is_u32 (foldl (crc_byte 0xEDB88320) r ds).
Proof.
  revert c r. induction ds as [|d ds IH]; intros c r Hr Hm; [done|]. cbn [foldl].
  apply IH; [apply (bits32_crc_byte r d Hr)|by apply cal_crc32_mirror].
Qed.
Lemma u32_bit x n : 0 <= n → Z.testbit (u32 x) n = (n <? 32) && Z.testbit x n.
Proof.
  intros Hn. unfold u32. destruct (Z.ltb_spec n 32).
  - by rewrite Z.mod_pow2_bits_low.
  - by rewrite Z.mod_pow2_bits_high by lia.
Qed.

(** [NST_GetCrc32], whose step is written as 32 XOR equations on a signed 32-bit
    register in mirrored bit order, returns (as an unsigned word) the IEEE 802.3 CRC-32
    of the first [DataSize] bytes, for any data. *)
Theorem NST_GetCrc32_ieee pData DataSize :
  u32 (NST_GetCrc32 pData DataSize) = crc32_ieee (take DataSize pData).
Proof.
  unfold NST_GetCrc32, crc32_ieee.
  destruct (foldl_cal_crc32 (take DataSize pData) (i32 0xFFFFFFFF) 0xFFFFFFFF) as [Hm Hr].
  { unfold is_u32. lia. }
  { intros i Hi. rewrite i32_bit by done. change 0xFFFFFFFF with (Z.ones 32).
    rewrite !Z.testbit_ones_nonneg by lia. lia. }
  revert Hm Hr. generalize (foldl _cal_crc32 (i32 0xFFFFFFFF) (take DataSize pData)).
  generalize (foldl (crc_byte 0xEDB88320) 0xFFFFFFFF (take DataSize pData)). intros r c Hm Hr.
  rewrite <- (u32_small _ Hr). apply Z.bits_inj'. intros n Hn.
  change 0xFFFFFFFF with (Z.ones 32).
  rewrite Z.lxor_spec, !u32_bit, Z.lnot_spec, Z.testbit_ones_nonneg by lia.
  destruct (Z.ltb_spec n 32); [|done]. unfold reverse32.
  rewrite i32_bit, of_bits_bit, map_seqZ_lookup by lia. cbn [default andb].
  rewrite Hm by lia. replace (31 - (31 - n)) with n by lia. by destruct (Z.testbit r n).
Qed.

Example NST_GetCrc32_check_value :
  u32 (NST_GetCrc32 [49; 50; 51; 52; 53; 54; 55; 56; 57] 9) = 0xCBF43926.
Proof. vm_compute. reflexivity. Qed.
