(* ===== verification/LinkedList.v ===== *)
(** The intrusive circular doubly linked list of [Include/util.h]: nodes are
    structures at addresses, the head is itself a node of the ring.  The operations
    refine a double-ended queue of node addresses.

    The critical sections that the operations open when [lock_required] is set protect
    against preemption; each operation is one atomic step here. *)
From S2P Require Import Prelude.

(* @ Include/util.h:360-366 NST_linked_list *)
Record NST_linked_list := MkNode { pprev : Z; pnext : Z }.

(** The memory of a list: every node structure, the head included, by address, and the
    two other fields of the [NST_list_head] at address [phead]. *)
(* @ Include/util.h:369-379 NST_list_head *)
Record NST_list_head := MkHead {
  links : gmap Z NST_linked_list; count : Z; lock_required : Z }.

Definition get_prev (m : gmap Z NST_linked_list) (p : Z) : option Z := pprev <$> m !! p.
Definition get_next (m : gmap Z NST_linked_list) (p : Z) : option Z := pnext <$> m !! p.
(** [p->pprev = v] and [p->pnext = v]; [None] when no node lives at [p]. *)
Definition set_prev (p v : Z) (m : gmap Z NST_linked_list) : option (gmap Z NST_linked_list) :=
  n ← m !! p; Some (<[p := MkNode v (pnext n)]> m).
Definition set_next (p v : Z) (m : gmap Z NST_linked_list) : option (gmap Z NST_linked_list) :=
  n ← m !! p; Some (<[p := MkNode (pprev n) v]> m).

Section operations.
Context (phead : Z).

(* @ Include/util.h:395-399 util_init_list *)
Definition util_init_list (st : NST_list_head) : option NST_list_head :=
  m ← set_next phead phead (links st); m ← set_prev phead phead m;
  Some (MkHead m (count st) (lock_required st)).

(* @ Include/util.h:415-422 util_init_list_head *)
Definition util_init_list_head (lock : Z) (st : NST_list_head) : option NST_list_head :=
  st ← util_init_list st; Some (MkHead (links st) 0 lock).

(* @ Include/util.h:438-441 util_free_list_head *)
Definition util_free_list_head (st : NST_list_head) : option NST_list_head :=
  m ← set_next phead 0 (links st); m ← set_prev phead 0 m;
  Some (MkHead m (count st) (lock_required st)).

(** Returns the first node, or [NULL] (0). *)
(* @ Include/util.h:457-476 util_peek_list *)
Definition util_peek_list (st : NST_list_head) : option Z :=
  n ← get_next (links st) phead; Some (if n =? phead then 0 else n).

(* @ Include/util.h:493-512 util_enqueue_list_tail *)
Definition util_enqueue_list_tail (pnode : Z) (st : NST_list_head) : option NST_list_head :=
  pold_last ← get_prev (links st) phead;
  m ← set_prev pnode pold_last (links st);
  m ← set_next pnode phead m;
  m ← set_next pold_last pnode m;
  m ← set_prev phead pnode m;
  Some (MkHead m (u16 (count st + 1)) (lock_required st)).

(* @ Include/util.h:529-548 util_enqueue_list_head *)
Definition util_enqueue_list_head (pnode : Z) (st : NST_list_head) : option NST_list_head :=
  pold_first ← get_next (links st) phead;
  m ← set_prev pnode phead (links st);
  m ← set_next pnode pold_first m;
  m ← set_prev pold_first pnode m;
  m ← set_next phead pnode m;
  Some (MkHead m (u16 (count st + 1)) (lock_required st)).

(* @ Include/util.h:564-584 util_unlink_list *)
Definition util_unlink_list (pnode : Z) (st : NST_list_head) : option NST_list_head :=
  pmy_prev ← get_prev (links st) pnode;
  pmy_next ← get_next (links st) pnode;
  m ← set_prev pmy_next pmy_prev (links st);
  m ← set_next pmy_prev pmy_next m;
  m ← set_prev pnode 0 m;
  m ← set_next pnode 0 m;
  Some (MkHead m (u16 (count st - 1)) (lock_required st)).

(* @ Include/util.h:600-624 util_dequeue_list *)
Definition util_dequeue_list (st : NST_list_head) : option (Z * NST_list_head) :=
  pnode ← get_next (links st) phead;
  if negb (pnode =? 0) && negb (pnode =? phead)
  then st ← util_unlink_list pnode st; Some (pnode, st)
  else Some (0, st).

(* @ Include/util.h:640-643 util_is_list_empty *)
Definition util_is_list_empty (st : NST_list_head) : Z := bz (count st =? 0).

(** ** The abstract double-ended queue *)

Inductive op :=
  | EnqueueTail (pnode : Z) | EnqueueHead (pnode : Z) | Unlink (pnode : Z)
  | Dequeue | Peek | IsEmpty.

Definition run (o : op) (st : NST_list_head) : option (Z * NST_list_head) :=
  match o with
  | EnqueueTail p => st' ← util_enqueue_list_tail p st; Some (0, st')
  | EnqueueHead p => st' ← util_enqueue_list_head p st; Some (0, st')
  | Unlink p => st' ← util_unlink_list p st; Some (0, st')
  | Dequeue => util_dequeue_list st
  | Peek => r ← util_peek_list st; Some (r, st)
  | IsEmpty => Some (util_is_list_empty st, st)
  end.
Definition spec (o : op) (ns : list Z) : Z * list Z :=
  match o with
  | EnqueueTail p => (0, ns ++ [p])
  | EnqueueHead p => (0, p :: ns)
  | Unlink p => (0, filter (.≠ p) ns)
  | Dequeue => (hd 0 ns, tail ns)
  | Peek => (hd 0 ns, ns)
  | IsEmpty => (bz (bool_decide (ns = [])), ns)
  end.
(** A node may be queued when it is a structure in memory that is not queued already
    and unlinked when it is queued; the count is 16 bits wide. *)
Definition allowed (o : op) (st : NST_list_head) (ns : list Z) : Prop :=
  match o with
  | EnqueueTail p | EnqueueHead p =>
      p ≠ 0 ∧ p ∉ phead :: ns ∧ is_Some (links st !! p) ∧ Z.of_nat (length ns) < 2 ^ 16 - 1
  | Unlink p => p ∈ ns
  | _ => True
  end.

(** ** The ring *)

Definition linked (m : gmap Z NST_linked_list) (a b : Z) : Prop :=
  get_next m a = Some b ∧ get_prev m b = Some a.
Fixpoint path (m : gmap Z NST_linked_list) (l : list Z) : Prop :=
  match l with
  | a :: ((b :: _) as l') => linked m a b ∧ path m l'
  | _ => True
  end.
(** The links of [st] form the ring [phead, ns, phead]. *)
Definition ring (st : NST_list_head) (ns : list Z) : Prop :=
  path (links st) (phead :: ns ++ [phead]) ∧ NoDup (phead :: ns) ∧ 0 ∉ phead :: ns ∧
  count st = Z.of_nat (length ns) ∧ Z.of_nat (length ns) < 2 ^ 16.
End operations.

(** ** Memory lemmas *)

Lemma set_prev_spec p v m : is_Some (m !! p) →
  ∃ m', set_prev p v m = Some m' ∧ (∀ q, get_next m' q = get_next m q) ∧
    (∀ q, get_prev m' q = if decide (q = p) then Some v else get_prev m q) ∧
    (∀ q, is_Some (m' !! q) ↔ is_Some (m !! q)).
Proof.
  intros [n Hn]. unfold set_prev, get_next, get_prev. rewrite Hn. eexists. split; [done|].
  split_ands; intros q; (destruct (decide (q = p)) as [->|];
    [rewrite lookup_insert_eq|rewrite lookup_insert_ne by done]); rewrite ?Hn; done.
Qed.
Lemma set_next_spec p v m : is_Some (m !! p) →
  ∃ m', set_next p v m = Some m' ∧ (∀ q, get_prev m' q = get_prev m q) ∧
    (∀ q, get_next m' q = if decide (q = p) then Some v else get_next m q) ∧
    (∀ q, is_Some (m' !! q) ↔ is_Some (m !! q)).
Proof.
  intros [n Hn]. unfold set_next, get_next, get_prev. rewrite Hn. eexists. split; [done|].
  split_ands; intros q; (destruct (decide (q = p)) as [->|];
    [rewrite lookup_insert_eq|rewrite lookup_insert_ne by done]); rewrite ?Hn; done.
Qed.
Lemma get_next_Some m p v : get_next m p = Some v → is_Some (m !! p).
Proof. unfold get_next. destruct (m !! p); [eauto|done]. Qed.
Lemma get_prev_Some m p v : get_prev m p = Some v → is_Some (m !! p).
Proof. unfold get_prev. destruct (m !! p); [eauto|done]. Qed.

(** ** Paths *)

Lemma path_app m A a B : path m (A ++ a :: B) ↔ path m (A ++ [a]) ∧ path m (a :: B).
Proof.
  induction A as [|x A IH]; [cbn; tauto|]. destruct A as [|y A].
  - cbn [app path]. tauto.
  - cbn [app path] in *. tauto.
Qed.
(** A path only depends on the next links of all but its last node and the previous
    links of all but its first. *)
Lemma path_frame m m' l : path m l →
  (∀ q, q ∈ removelast l → get_next m' q = get_next m q) →
  (∀ q, q ∈ tail l → get_prev m' q = get_prev m q) → path m' l.
Proof.
  induction l as [|a l IH]; [done|]. destruct l as [|b l]; [done|].
  intros [[Hn Hp] Hl] Hnext Hprev. split.
  - split; [rewrite Hnext; [done|cbn; set_solver]|rewrite Hprev; [done|cbn; set_solver]].
  - apply IH; [done| |].
    + intros q Hq. apply Hnext. change (removelast (a :: b :: l)) with (a :: removelast (b :: l)).
      set_solver.
    + intros q Hq. apply Hprev. cbn in *. set_solver.
Qed.

(** Both ends of the cycle name the head, so its first and last parts have no
    duplicates although the cycle has one. *)
Definition once (A : list Z) (a b : Z) (B : list Z) : Prop :=
  NoDup (A ++ a :: removelast (b :: B)) ∧ NoDup (tail (A ++ [a]) ++ b :: B).

Lemma cycle_once h ns A a b B : NoDup (h :: ns) →
  h :: ns ++ [h] = A ++ a :: b :: B → once A a b B.
Proof.
  intros Hnd Heq. split.
  - replace (A ++ a :: removelast (b :: B)) with (removelast (A ++ a :: b :: B)).
    + rewrite <- Heq. change (h :: ns ++ [h]) with ((h :: ns) ++ [h]). by rewrite removelast_last.
    + rewrite removelast_app by done. done.
  - replace (tail (A ++ [a]) ++ b :: B) with (tail (A ++ a :: b :: B)) by (destruct A; cbn; by rewrite <- ?app_assoc).
    rewrite <- Heq. cbn [tail]. apply (NoDup_Permutation_proper (h :: ns)); [|done].
    by rewrite Permutation_cons_append.
Qed.

Lemma insert_path m m' A a b B p : once A a b B → p ∉ A ++ a :: b :: B →
  path m (A ++ a :: b :: B) →
  (∀ q, get_next m' q = if decide (q = p) then Some b else
        if decide (q = a) then Some p else get_next m q) →
  (∀ q, get_prev m' q = if decide (q = p) then Some a else
        if decide (q = b) then Some p else get_prev m q) →
  path m' (A ++ a :: p :: b :: B).
Proof.
  intros [H1%NoDup_app H2%NoDup_app] Hp Hpath Hn Hv.
  destruct H1 as (_ & H1 & [H1' _]%NoDup_cons), H2 as (_ & H2 & [H2' _]%NoDup_cons).
  apply path_app in Hpath as [HA [_ HB]].
  apply path_app. split; [|change (linked m' a p ∧ linked m' p b ∧ path m' (b :: B)); split_ands].
  - apply (path_frame m); [done| |]; intros q Hq.
    + rewrite removelast_last in Hq. rewrite Hn, !decide_False; [done| |]; intros ->;
        [by apply (H1 a Hq); left|apply Hp; set_solver].
    + rewrite Hv, !decide_False; [done| |]; intros ->; [by apply (H2 b Hq); left|].
      apply Hp. destruct A; cbn in Hq; set_solver.
  - split; [rewrite Hn, decide_False, decide_True|rewrite Hv, decide_True]; try done.
    intros ->. apply Hp. set_solver.
  - split; [rewrite Hn, decide_True|rewrite Hv, decide_False, decide_True]; try done.
    intros ->. apply Hp. set_solver.
  - apply (path_frame m); [done| |]; intros q Hq.
    + rewrite Hn, !decide_False; [done| |]; intros ->; [done|]. apply Hp.
      assert (p ∈ b :: B); [|set_solver].
      rewrite (app_removelast_last b (l := b :: B)) by done. set_solver.
    + cbn in Hq. rewrite Hv, !decide_False; [done| |]; intros ->; [done|]. apply Hp. set_solver.
Qed.

Lemma remove_path m m' A a p b B : NoDup (A ++ a :: p :: removelast (b :: B)) →
  NoDup (tail (A ++ [a]) ++ p :: b :: B) → path m (A ++ a :: p :: b :: B) →
  (∀ q, q ≠ p → get_next m' q = if decide (q = a) then Some b else get_next m q) →
  (∀ q, q ≠ p → get_prev m' q = if decide (q = b) then Some a else get_prev m q) →
  path m' (A ++ a :: b :: B).
Proof.
  intros H1%NoDup_app H2%NoDup_app Hpath Hn Hv.
  destruct H1 as (_ & H1 & [H1' [H1p _]%NoDup_cons]%NoDup_cons),
    H2 as (_ & H2 & [H2' [H2p _]%NoDup_cons]%NoDup_cons).
  apply path_app in Hpath as [HA (_ & _ & HB)].
  apply path_app. split; [|change (linked m' a b ∧ path m' (b :: B)); split_ands].
  - apply (path_frame m); [done| |]; intros q Hq.
    + rewrite removelast_last in Hq. rewrite Hn, !decide_False; [done| |]; intros ->;
        apply (H1 _ Hq); set_solver.
    + rewrite Hv, !decide_False; [done| |]; intros ->; apply (H2 _ Hq); set_solver.
  - split.
    + rewrite Hn, decide_True; try done. intros ->. set_solver.
    + rewrite Hv, decide_True; try done. intros ->. set_solver.
  - apply (path_frame m); [done| |]; intros q Hq.
    + rewrite Hn, !decide_False; [done| |]; intros ->; [apply H1'; set_solver|done].
    + cbn in Hq. rewrite Hv, !decide_False; [done| |]; intros ->; [done|]. apply H2'. set_solver.
Qed.

Lemma path_alloc m l q : path m l → (2 <= length l)%nat → q ∈ l → is_Some (m !! q).
Proof.
  induction l as [|a l IH]; [cbn; lia|]. destruct l as [|b l]; [cbn; lia|].
  intros [[Hn Hp] Hl] _ [->|Hq]%elem_of_cons; [by eapply get_next_Some|].
  destruct l as [|c l].
  - apply elem_of_cons in Hq as [->|Hq]; [by eapply get_prev_Some|by apply not_elem_of_nil in Hq].
  - apply IH; [done|cbn; lia|done].
Qed.

(** Run the next store of an operation. *)
Ltac store :=
  lazymatch goal with
  | |- context [set_prev ?p ?v ?m] =>
      let H := fresh in let m' := fresh "m" in
      destruct (set_prev_spec p v m) as (m' & H & ? & ? & ?); [|rewrite H; cbn [mbind option_bind]]
  end.
Ltac store_next :=
  lazymatch goal with
  | |- context [set_next ?p ?v ?m] =>
      let H := fresh in let m' := fresh "m" in
      destruct (set_next_spec p v m) as (m' & H & ? & ? & ?); [|rewrite H; cbn [mbind option_bind]]
  end.
(** Links of the final memory in terms of the initial one, case by case. *)
Ltac links :=
  intros; repeat match goal with H : ∀ q, get_next _ q = _ |- _ => rewrite H; clear H
    | H : ∀ q, get_prev _ q = _ |- _ => rewrite H; clear H end;
  repeat case_decide; subst; first [done | exfalso; set_solver].
Ltac alloc := repeat match goal with H : ∀ q, is_Some _ ↔ is_Some _ |- _ => apply H; clear H end.

Section correctness.
Context (phead : Z).

Lemma enqueue_tail_ring p st ns : ring phead st ns → allowed phead (EnqueueTail p) st ns →
  ∃ st', util_enqueue_list_tail phead p st = Some st' ∧ ring phead st' (ns ++ [p]).
Proof.
  intros (Hp & Hnd & H0 & Hc & Hlt) (Hp0 & Hnew & Hal & Hfit).
  destruct (exists_last (l := phead :: ns)) as (A & a & HA); [done|].
  assert (Hcy : phead :: ns ++ [phead] = A ++ a :: phead :: []).
  { change (phead :: ns ++ [phead]) with ((phead :: ns) ++ [phead]). by rewrite HA, <- app_assoc. }
  assert (Honce := cycle_once _ _ _ _ _ _ Hnd Hcy). rewrite Hcy in Hp.
  assert (Hnp : p ∉ A ++ a :: phead :: []) by (rewrite <- Hcy; set_solver).
  assert (Hin : ∀ q, q ∈ A ++ a :: phead :: [] → is_Some (links st !! q)).
  { intros q. apply path_alloc; [done|]. rewrite length_app. cbn. lia. }
  assert (Hprev : get_prev (links st) phead = Some a)
    by (apply path_app in Hp as [_ [[_ Hl] _]]; done).
  unfold util_enqueue_list_tail. rewrite Hprev. cbn [mbind option_bind].
  store; [done|]. store_next; [by alloc|].
  store_next; [alloc; apply Hin; set_solver|]. store; [alloc; apply Hin; set_solver|].
  eexists. split; [done|]. unfold ring. cbn [links count].
  split_ands.
  - rewrite app_comm_cons, app_comm_cons, HA, <- !app_assoc.
    apply (insert_path (links st)); [done|done|done|links|links].
  - rewrite app_comm_cons. apply NoDup_app. split_ands; [done| |apply NoDup_singleton].
    intros q Hq ->%list_elem_of_singleton. done.
  - set_solver.
  - rewrite Hc, length_app, u16_small; cbn; lia.
  - rewrite length_app. cbn. lia.
Qed.

Lemma enqueue_head_ring p st ns : ring phead st ns → allowed phead (EnqueueHead p) st ns →
  ∃ st', util_enqueue_list_head phead p st = Some st' ∧ ring phead st' (p :: ns).
Proof.
  intros (Hp & Hnd & H0 & Hc & Hlt) (Hp0 & Hnew & Hal & Hfit).
  destruct (ns ++ [phead]) as [|b B] eqn:HB; [by destruct ns|].
  assert (Hcy : phead :: ns ++ [phead] = [] ++ phead :: b :: B) by (by rewrite HB).
  assert (Honce := cycle_once _ _ _ _ _ _ Hnd Hcy).
  assert (Hnp : p ∉ [] ++ phead :: b :: B) by (rewrite <- Hcy; set_solver).
  assert (Hin : ∀ q, q ∈ phead :: b :: B → is_Some (links st !! q)).
  { intros q. apply path_alloc; [done|]. cbn. lia. }
  assert (Hnext : get_next (links st) phead = Some b) by apply Hp.
  unfold util_enqueue_list_head. rewrite Hnext. cbn [mbind option_bind].
  store; [done|]. store_next; [by alloc|].
  store; [alloc; apply Hin; set_solver|]. store_next; [alloc; apply Hin; set_solver|].
  eexists. split; [done|]. unfold ring. cbn [links count app]. rewrite HB. split_ands.
  - apply (insert_path (links st) _ [] phead b B); [done|done|done|links|links].
  - apply NoDup_cons in Hnd as [Hh Hns]. repeat (apply NoDup_cons; split); set_solver.
  - set_solver.
  - rewrite Hc. cbn. rewrite u16_small; lia.
  - cbn. lia.
Qed.

Lemma filter_ne_id (p : Z) (X : list Z) : p ∉ X → filter (.≠ p) X = X.
Proof.
  induction X as [|x X IH]; [done|]. intros [Hx HX]%not_elem_of_cons.
  rewrite filter_cons_True by done. by rewrite IH.
Qed.
Lemma filter_ne_split (p : Z) (X Y : list Z) : NoDup (X ++ p :: Y) → filter (.≠ p) (X ++ p :: Y) = X ++ Y.
Proof.
  intros (_ & H & [HY _]%NoDup_cons)%NoDup_app. rewrite filter_app, filter_cons_False by auto.
  rewrite !filter_ne_id; [done|done|]. intros Hp. apply (H p Hp). by left.
Qed.

Lemma unlink_ring p st ns : ring phead st ns → p ∈ ns →
  ∃ st', util_unlink_list p st = Some st' ∧ ring phead st' (filter (.≠ p) ns).
Proof.
  intros (Hp & Hnd & H0 & Hc & Hlt) (X & Y & ->)%list_elem_of_split.
  rewrite filter_ne_split by (by apply NoDup_cons in Hnd as [_ ?]).
  destruct (exists_last (l := phead :: X)) as (A & a & HA); [done|].
  destruct (Y ++ [phead]) as [|b B] eqn:HB; [by destruct Y|].
  assert (Hcy : phead :: (X ++ p :: Y) ++ [phead] = A ++ a :: p :: b :: B).
  { rewrite app_comm_cons, app_comm_cons, HA, <- !app_assoc. cbn [app]. by rewrite HB. }
  destruct (cycle_once _ _ _ _ _ _ Hnd Hcy) as [Ho1 _].
  destruct (cycle_once _ _ (A ++ [a]) p b B Hnd) as [_ Ho2]; [by rewrite Hcy, <- app_assoc|].
  assert (Ho3 : tail ((A ++ [a]) ++ [p]) ++ b :: B = tail (A ++ [a]) ++ p :: b :: B).
  { destruct A; cbn; by rewrite <- ?app_assoc. }
  rewrite Ho3 in Ho2. rewrite Hcy in Hp.
  assert (Hin : ∀ q, q ∈ A ++ a :: p :: b :: B → is_Some (links st !! q)).
  { intros q. apply path_alloc; [done|]. rewrite length_app. cbn. lia. }
  destruct (proj1 (path_app _ _ _ _) Hp) as [_ ([_ Hpv] & [Hnx _] & _)].
  unfold util_unlink_list. rewrite Hpv. cbn [mbind option_bind]. rewrite Hnx. cbn [mbind option_bind].
  store; [apply Hin; set_solver|]. store_next; [alloc; apply Hin; set_solver|].
  store; [alloc; apply Hin; set_solver|]. store_next; [alloc; apply Hin; set_solver|].
  eexists. split; [done|]. unfold ring. cbn [links count]. split_ands.
  - rewrite <- app_assoc, HB, app_comm_cons, HA, <- app_assoc. cbn [app].
    apply (remove_path (links st) _ A a p b B); [done|done|done| |];
      intros q Hq; links.
  - rewrite app_comm_cons, <- Permutation_middle in Hnd. by apply NoDup_cons in Hnd as [_ ?].
  - intros Hq. apply H0. rewrite app_comm_cons, <- Permutation_middle. by right.
  - rewrite Hc, !length_app in *. cbn in *. rewrite u16_small; lia.
  - rewrite !length_app in *. cbn in Hlt. lia.
Qed.

Lemma init_ring st lock : is_Some (links st !! phead) → phead ≠ 0 →
  ∃ st', util_init_list_head phead lock st = Some st' ∧ ring phead st' [].
Proof.
  intros Hh H0. unfold util_init_list_head, util_init_list.
  store_next; [done|]. store; [by alloc|]. eexists. split; [done|].
  unfold ring. cbn [links count app]. split_ands; [|apply NoDup_singleton|set_solver|done|done].
  split; [|done]. split; links.
Qed.

(** The first node of the ring, as [util_peek_list] and [util_dequeue_list] find it. *)
Lemma ring_first st ns : ring phead st ns →
  get_next (links st) phead = Some (hd phead ns) ∧ ((hd phead ns =? phead) = bool_decide (ns = []))
  ∧ (hd phead ns =? 0) = false.
Proof.
  intros (Hp & [Hh _]%NoDup_cons & H0 & _). destruct ns as [|x ns].
  - split_ands; [apply Hp|cbn; lia|cbn]. apply Z.eqb_neq. intros ->. set_solver.
  - split_ands; [apply Hp| |]; cbn [hd]; apply Z.eqb_neq; intros ->; set_solver.
Qed.

(** On a well-formed ring every list operation of [util.h] is memory safe and
    does to the ring what the corresponding operation of a double-ended queue does to the
    sequence of queued nodes, with the same result: enqueue at either end, unlink a queued
    node, dequeue and peek the first one ([NULL] when empty), emptiness test; the ring
    invariant (links in both directions, no node twice, count) holds again afterwards. *)
Theorem list_refines_deque o st ns : ring phead st ns → allowed phead o st ns →
  ∃ st', run phead o st = Some ((spec o ns).1, st') ∧ ring phead st' (spec o ns).2.
Proof.
  intros Hr Ha. destruct (ring_first _ _ Hr) as (Hf & He & H0).
  destruct o as [p|p|p| | |]; cbn [run spec fst snd].
  - destruct (enqueue_tail_ring p st ns Hr Ha) as (st' & -> & ?). eauto.
  - destruct (enqueue_head_ring p st ns Hr Ha) as (st' & -> & ?). eauto.
  - destruct (unlink_ring p st ns Hr Ha) as (st' & -> & ?). eauto.
  - unfold util_dequeue_list. rewrite Hf. cbn [mbind option_bind]. rewrite He, H0.
    destruct ns as [|x ns]; [eauto|]. cbn [hd negb andb].
    destruct (unlink_ring x st (x :: ns) Hr ltac:(by left)) as (st' & H & Hr').
    assert (Hfl : filter (.≠ x) (x :: ns) = ns).
    { apply (filter_ne_split x [] ns). by destruct Hr as (_ & [_ ?]%NoDup_cons & _). }
    rewrite Hfl in Hr'. change (bool_decide (x :: ns = [])) with false. cbn [negb].
    rewrite H. eauto.
  - unfold util_peek_list. rewrite Hf. cbn [mbind option_bind]. rewrite He.
    destruct ns; eauto.
  - exists st. split; [|done]. unfold util_is_list_empty. destruct Hr as (_ & _ & _ & -> & _).
    do 3 f_equal. by destruct ns.
Qed.
End correctness.

Definition two_nodes : NST_list_head :=
  MkHead (<[4 := MkNode 0 0]> (<[8 := MkNode 0 0]> (<[12 := MkNode 7 9]> ∅))) 3 0.
Lemma list_refines_deque_witness :
  ∃ st st1, util_init_list_head 4 1 two_nodes = Some st ∧
    run 4 (EnqueueTail 8) st = Some (0, st1) ∧ ring 4 st1 [8].
Proof.
  destruct (init_ring 4 two_nodes 1) as (st & H & Hr); [by vm_compute; eauto|done|].
  exists st.
  destruct (list_refines_deque 4 (EnqueueTail 8) st [] Hr) as (st1 & H1 & Hr1).
  - cbn [allowed]; split_ands; [done|set_solver| |cbn; lia].
    assert (Hst : util_init_list_head 4 1 two_nodes
      = Some (MkHead (<[4 := MkNode 4 4]> (<[8 := MkNode 0 0]> (<[12 := MkNode 7 9]> ∅))) 0 1))
      by (vm_compute; reflexivity).
    rewrite Hst in H. injection H as <-. vm_compute. eauto.
  - exists st1. split; [exact H|]. split; [exact H1|exact Hr1].
Defined.
