(* ===== verification/CStr.v ===== *)
(** C strings: the library routines that [Sys/util.c] and [Lib/str_lib.c] define
    themselves, and the memory helpers of [Sys/util.c] and [Include/util.h].

    A pointer that is only advanced is the rest of its buffer, a [list Z] of bytes; a
    buffer that is written is the list and an index.  [None] is an access past the end
    of a buffer, so a theorem that a routine returns [Some] says it stays in bounds. *)
From S2P Require Import Prelude.

(** A buffer that holds the string [str]: its bytes, the terminator, anything. *)
Definition holds (s str : list Z) : Prop :=
  Forall (.≠ 0) str ∧ ∃ rest, s = str ++ 0 :: rest.

(** [*p] and [*p = v] at an index; [None] outside the buffer. *)
Definition rd (b : list Z) (i : Z) : option Z :=
  if (0 <=? i) && (i <? Z.of_nat (length b)) then b !! Z.to_nat i else None.
Definition wr (i v : Z) (b : list Z) : option (list Z) :=
  if (0 <=? i) && (i <? Z.of_nat (length b)) then Some (<[Z.to_nat i := v]> b) else None.

(** ** Reading routines *)

(** [strlen] of the C library. *)
Fixpoint strlen (s : list Z) : option Z :=
  match s with
  | [] => None
  | c :: s => if c =? 0 then Some 0 else n ← strlen s; Some (n + 1)
  end.

(** The index of the first [c], [Some None] being [NULL]. *)
(* @ App/NuAgent/Lib/str_lib.c:26-34 strchr *)
Fixpoint strchr (s : list Z) (c : Z) : option (option Z) :=
  match s with
  | [] => None
  | x :: s' =>
      if negb (x =? 0) && negb (x =? c)
      then r ← strchr s' c; Some (n ← r; Some (n + 1))
      else Some (if x =? c then Some 0 else None)
  end.

(** The [do .. while] of [strncmp] for [n > 0]. *)
(* @ App/NuAgent/Lib/str_lib.c:40-52 strncmp *)
Fixpoint strncmp_loop (s1 s2 : list Z) (n : nat) : option Z :=
  match n, s1, s2 with
  | O, _, _ => Some 0
  | S n, x :: s1, y :: s2 =>
      if negb (x =? y) then
        Some (if x =? 0 then -1 else if y =? 0 then 1 else x - y)
      else if x =? 0 then Some 0 else strncmp_loop s1 s2 n
  | _, _, _ => None
  end.
(* @ App/NuAgent/Lib/str_lib.c:37-53 strncmp *)
Definition strncmp (s1 s2 : list Z) (n : Z) : option Z :=
  if negb (n =? 0) then strncmp_loop s1 s2 (Z.to_nat n) else Some 0.

(** [tolower] and [toupper] of the C library in the C locale. *)
Definition tolower (c : Z) : Z := if (65 <=? c) && (c <=? 90) then c + 32 else c.
Definition toupper (c : Z) : Z := if (97 <=? c) && (c <=? 122) then c - 32 else c.
Definition isspace (c : Z) : bool := (c =? 32) || ((9 <=? c) && (c <=? 13)).

(* @ App/NuAgent/Lib/str_lib.c:102-113 strncmpi *)
Fixpoint strncmpi_loop (s1 s2 : list Z) (n : nat) : option Z :=
  match s1, s2, n with
  | x :: s1, y :: s2, S n =>
      let c1 := tolower x in let c2 := tolower y in
      if (c1 =? 0) || (c2 =? 0) then Some (c1 - c2)
      else if c1 =? c2 then match n with O => Some (c1 - c2) | _ => strncmpi_loop s1 s2 n end
      else Some (c1 - c2)
  | _, _, _ => None
  end.
(* @ App/NuAgent/Lib/str_lib.c:93-114 strncmpi *)
Definition strncmpi (s1 s2 : list Z) (n : Z) : option Z :=
  if n =? 0 then Some 0 else strncmpi_loop s1 s2 (Z.to_nat n).

(** Is [c] among the bytes of the string [accept]? *)
(* @ Sys/util.c:650-653 strspn *)
Fixpoint accepts (accept : list Z) (c : Z) : option bool :=
  match accept with
  | [] => None
  | a :: accept => if a =? 0 then Some false else if c =? a then Some true else accepts accept c
  end.
(* @ Sys/util.c:642-660 strspn *)
Fixpoint strspn (s accept : list Z) : option Z :=
  match s with
  | [] => None
  | c :: s =>
      if c =? 0 then Some 0
      else b ← accepts accept c;
           if negb b then Some 0 else n ← strspn s accept; Some (n + 1)
  end.
(* @ Sys/util.c:721-732 strpbrk *)
Fixpoint strpbrk (s1 s2 : list Z) : option (option Z) :=
  match s1 with
  | [] => None
  | c :: s1 =>
      if c =? 0 then Some None
      else b ← accepts s2 c;
           if b : bool then Some (Some 0) else r ← strpbrk s1 s2; Some (n ← r; Some (n + 1))
  end.

(** ** Writing routines *)

(** [dest] from index [i]; [dest] and [src] do not overlap. *)
(* @ Sys/util.c:605-615 strcpy *)
Fixpoint strcpy_at (i : Z) (dest src : list Z) : option (list Z) :=
  match src with
  | [] => None
  | c :: src => dest ← wr i c dest; if c =? 0 then Some dest else strcpy_at (i + 1) dest src
  end.
Definition strcpy (dest src : list Z) : option (list Z) := strcpy_at 0 dest src.

(** [c = *s2++; *++s1 = c;] until the terminator is copied. *)
(* @ Sys/util.c:632-637 strcat *)
Fixpoint strcat_loop (s1 : Z) (dest src : list Z) : option (list Z) :=
  match src with
  | [] => None
  | c :: src =>
      dest ← wr (s1 + 1) c dest; if c =? 0 then Some dest else strcat_loop (s1 + 1) dest src
  end.
(** The scan leaves [s1] one past the terminator of [dest]. *)
(* @ Sys/util.c:617-640 strcat *)
Definition strcat (dest src : list Z) : option (list Z) :=
  n ← strlen dest; strcat_loop (n + 1 - 2) dest src.

(** One [c = *s2++; *++s1 = c;]: the state is the rest of [s2], the index after the last
    byte written, and the destination. *)
Definition cpst : Type := list Z * Z * list Z.
(* @ Sys/util.c:675-676 strncpy *)
Definition copy1 (st : cpst) : option (Z * cpst) :=
  let '(s2, i, d) := st in
  match s2 with
  | [] => None
  | c :: s2 => d ← wr i c d; Some (c, (s2, i + 1, d))
  end.
(** The loop unrolled four times; the result says whether it left by [break]. *)
(* @ Sys/util.c:671-693 strncpy *)
Fixpoint copy4 (n4 : nat) (st : cpst) : option (bool * cpst) :=
  '(c, st) ← copy1 st; if c =? 0 then Some (true, st) else
  '(c, st) ← copy1 st; if c =? 0 then Some (true, st) else
  '(c, st) ← copy1 st; if c =? 0 then Some (true, st) else
  '(c, st) ← copy1 st; if c =? 0 then Some (true, st) else
  match n4 with
  | S (S _ as n4) => copy4 n4 st
  | _ => Some (false, st)
  end.
(** [do *++s1 = '\0'; while (--n > 0);] *)
(* @ Sys/util.c:714-719 strncpy *)
Fixpoint zero_fill (n : nat) (i : Z) (d : list Z) : option (list Z) :=
  d ← wr i 0 d; match n with S (S _ as n) => zero_fill n (i + 1) d | _ => Some d end.
(* @ Sys/util.c:705-719 strncpy *)
Fixpoint last_chars (n : nat) (st : cpst) : option (list Z) :=
  '(c, st) ← copy1 st; let '(_, i, d) := st in
  match n with
  | S (S _ as n) => if negb (c =? 0) then last_chars n st else zero_fill n i d
  | _ => Some d
  end.
(* @ Sys/util.c:662-720 strncpy *)
Definition strncpy (s1 s2 : list Z) (n : Z) : option (list Z) :=
  let tail n st :=
    let n := Z.land n 3 in
    if n =? 0 then Some st.2 else last_chars (Z.to_nat n) st in
  if 4 <=? n then
    '(brk, st) ← copy4 (Z.to_nat (Z.shiftr n 2)) (s2, 0, s1);
    if brk : bool then
      let '(_, i, d) := st in
      let n := u32 (n - (i - 1) - 1) in
      if n =? 0 then Some d else zero_fill (Z.to_nat n) i d
    else tail n st
  else tail n (s2, 0, s1).

(* @ App/NuAgent/Lib/str_lib.c:79-91 strtoupper *)
Fixpoint strtoupper_at (i : Z) (dst src : list Z) : option (list Z) :=
  match src with
  | [] => None
  | c :: src =>
      if c =? 0 then wr i 0 dst
      else dst ← wr i (toupper c) dst; strtoupper_at (i + 1) dst src
  end.

(** Trailing blanks: [i] is unsigned, so it wraps below 0. *)
(* @ App/NuAgent/Lib/str_lib.c:68-72 strrmvspace *)
Fixpoint trim_right (fuel : nat) (i : Z) (dst : list Z) : option (list Z) :=
  match fuel with
  | O => None
  | S fuel =>
      c ← rd dst i;
      if isspace c then dst ← wr i 0 dst; trim_right fuel (u32 (i - 1)) dst else Some dst
  end.
(** [for (i = 0; isspace(src[i]); i++);] *)
(* @ App/NuAgent/Lib/str_lib.c:65-65 strrmvspace *)
Fixpoint skip_blanks (src : list Z) : option (list Z) :=
  match src with
  | [] => None
  | c :: src' => if isspace c then skip_blanks src' else Some src
  end.
(* @ App/NuAgent/Lib/str_lib.c:55-76 strrmvspace *)
Definition strrmvspace (dst src : list Z) : option (list Z) :=
  c ← rd src 0;
  if c =? 0 then wr 0 0 dst
  else src ← skip_blanks src;
       dst ← strcpy dst src;
       n ← strlen dst;
       trim_right (S (length dst)) (u32 (n - 1)) dst.

(** ** Numbers *)

(* @ Sys/util.c:564-570 BtoH *)
Definition BtoH (ch : Z) : Z :=
  if (48 <=? ch) && (ch <=? 57) then ch - 48
  else if (65 <=? ch) && (ch <=? 70) then ch - 65 + 10
  else if (97 <=? ch) && (ch <=? 102) then ch - 97 + 10
  else 255.
(* @ Sys/util.c:589-603 AtoH *)
Fixpoint AtoH_loop (src : list Z) (i : Z) (dest : list Z) (destlen : nat) {struct destlen} : option (list Z) :=
  match destlen with
  | O => Some dest
  | S destlen =>
      match src with
      | h :: l :: src =>
          dest ← wr i (u8 (Z.shiftl (BtoH h) 4)) dest;
          v ← rd dest i;
          dest ← wr i (u8 (v + BtoH l)) dest;
          AtoH_loop src (i + 1) dest destlen
      | _ => None
      end
  end.
Definition AtoH (src dest : list Z) (destlen : nat) : option (list Z) :=
  AtoH_loop src 0 dest destlen.

Definition digits36 : list Z := seqZ 48 10 ++ seqZ 97 26 ++ [0].
(** [utoa(val, buf + off, radix)] with [radix] already non-zero; the recursion is on the
    quotient, and [p] is found by scanning for the terminator just written. *)
(* @ App/NuAgent/Lib/str_lib.c:116-140 utoa *)
Fixpoint utoa_at (fuel : nat) (val : Z) (buf : list Z) (off radix : Z) : option (list Z) :=
  match fuel with
  | O => None
  | S fuel =>
      let radix := if radix =? 0 then 10 else radix in
      if val <? u32 radix then
        c ← rd digits36 val; buf ← wr off c buf; wr (off + 1) 0 buf
      else
        buf ← utoa_at fuel (val / u32 radix) buf off radix;
        n ← strlen (drop (Z.to_nat off) buf);
        utoa_at fuel (val mod u32 radix) buf (off + n) radix
  end.
Definition utoa_fuel : nat := 33.
Definition utoa (val : Z) (buf : list Z) (radix : Z) : option (list Z) :=
  utoa_at utoa_fuel val buf 0 radix.
(* @ App/NuAgent/Lib/str_lib.c:142-168 itoa *)
Definition itoa (val : Z) (buf : list Z) (radix : Z) : option (list Z) :=
  let radix := if radix =? 0 then 10 else radix in
  if val <? 0 then buf ← wr 0 45 buf; utoa_at utoa_fuel (u32 (- val)) buf 1 radix
  else utoa_at utoa_fuel val buf 0 radix.

(* @ App/NuAgent/Lib/str_lib.c:179-198 atou_hex *)
Fixpoint atou_hex_loop (s : list Z) (value : Z) : option Z :=
  match s with
  | [] => None
  | c :: s =>
      if c =? 0 then Some value
      else if (48 <=? c) && (c <=? 57) then atou_hex_loop s (u32 (value * 16 + (c - 48)))
      else if (65 <=? c) && (c <=? 70) then atou_hex_loop s (u32 (value * 16 + (c - 65 + 10)))
      else if (97 <=? c) && (c <=? 102) then atou_hex_loop s (u32 (value * 16 + (c - 97 + 10)))
      else Some value
  end.
(* @ App/NuAgent/Lib/str_lib.c:170-201 atou_hex *)
Definition atou_hex (s : list Z) : option Z := atou_hex_loop s 0.

(** ** Memory *)

(** [*pDst = *pSrc] inside one memory. *)
Definition move1 (d s : Z) (m : list Z) : option (list Z) := v ← rd m s; wr d v m.
(* @ Sys/util.c:243-252 NST_MoveMemOvlap *)
Fixpoint move_down (d s : Z) (Size : nat) (m : list Z) : option (list Z) :=
  match Size with
  | O => Some m
  | S Size => m ← move1 d s m; move_down (d - 1) (s - 1) Size m
  end.
(* @ Sys/util.c:253-260 NST_MoveMemOvlap *)
Fixpoint move_up (d s : Z) (Size : nat) (m : list Z) : option (list Z) :=
  match Size with
  | O => Some m
  | S Size => m ← move1 d s m; move_up (d + 1) (s + 1) Size m
  end.
(* @ Sys/util.c:241-261 NST_MoveMemOvlap *)
Definition NST_MoveMemOvlap (pDst pSrc : Z) (Size : nat) (m : list Z) : option (list Z) :=
  if pSrc <? pDst
  then move_down (pDst + Z.of_nat Size - 1) (pSrc + Z.of_nat Size - 1) Size m
  else move_up pDst pSrc Size m.

(* @ Include/util.h:59-81 NSTCompareMemory *)
Fixpoint NSTCompareMemory (pMem1 pMem2 : list Z) (Length : nat) : option Z :=
  match Length, pMem1, pMem2 with
  | O, _, _ => Some 0
  | S Length, x :: pMem1, y :: pMem2 =>
      if y <? x then Some 1 else if x <? y then Some 2 else NSTCompareMemory pMem1 pMem2 Length
  | _, _, _ => None
  end.
(* @ Include/util.h:657-666 NST_MemEqual *)
Fixpoint NST_MemEqual (pSrc1 pSrc2 : list Z) (Len : nat) : option Z :=
  match Len, pSrc1, pSrc2 with
  | O, _, _ => Some 0
  | S Len, x :: pSrc1, y :: pSrc2 => if negb (x =? y) then Some 1 else NST_MemEqual pSrc1 pSrc2 Len
  | _, _, _ => None
  end.

(** ** Reads and writes at an index *)

Lemma rd_lookup b i v : b !! i = Some v → rd b (Z.of_nat i) = Some v.
Proof.
  intros H. pose proof (lookup_lt_Some _ _ _ H). unfold rd.
  rewrite (proj2 (Z.leb_le _ _)), (proj2 (Z.ltb_lt _ _)) by lia. cbn. by rewrite Nat2Z.id.
Qed.
Lemma wr_insert b i v : (i < length b)%nat → wr (Z.of_nat i) v b = Some (<[i := v]> b).
Proof.
  intros H. unfold wr. rewrite (proj2 (Z.leb_le _ _)), (proj2 (Z.ltb_lt _ _)) by lia.
  cbn. by rewrite Nat2Z.id.
Qed.
Lemma insert_copied k (a b : list Z) v : a !! k = Some v → (k < length b)%nat →
  <[k := v]> (take k a ++ drop k b) = take (S k) a ++ drop (S k) b.
Proof.
  intros Ha Hb. pose proof (lookup_lt_Some _ _ _ Ha).
  destruct (lookup_lt_is_Some_2 b k Hb) as [w Hw].
  rewrite (take_S_r _ _ v Ha), <- app_assoc, (drop_S _ _ _ Hw).
  rewrite insert_app_r_alt by (rewrite length_take; lia).
  rewrite length_take, Nat.min_l, Nat.sub_diag by lia. done.
Qed.
Lemma length_copied k (a b : list Z) : (k <= length a)%nat → (k <= length b)%nat →
  length (take k a ++ drop k b) = length b.
Proof. intros. rewrite length_app, length_take, length_drop. lia. Qed.

(** ** [strncpy] *)

(** The state after [k] bytes of [s2] have been copied over [s1]. *)
Definition copied (s1 s2 : list Z) (k : nat) : cpst :=
  (drop k s2, Z.of_nat k, take k s2 ++ drop k s1).

Lemma copy1_copied s1 s2 k c : s2 !! k = Some c → (k < length s1)%nat →
  copy1 (copied s1 s2 k) = Some (c, copied s1 s2 (S k)).
Proof.
  intros Hc Hk. pose proof (lookup_lt_Some _ _ _ Hc). unfold copied, copy1.
  rewrite (drop_S _ _ _ Hc), wr_insert by (rewrite length_copied; lia). cbn [mbind option_bind].
  rewrite insert_copied by done. do 3 f_equal. f_equal. lia.
Qed.

Section strncpy.
Context (s1 s2 : list Z).
(** [s2] can be read up to index [z] and is not zero before. *)
Context (z : nat) (Hz : ∀ k, (k < z)%nat → ∃ c, s2 !! k = Some c ∧ c ≠ 0).

Ltac one_copy :=
  match goal with |- context [copy1 (copied s1 s2 ?k)] =>
    let c := fresh "c" in let Hc := fresh in let Hn := fresh in
    destruct (Hz k) as (c & Hc & Hn); [lia|];
    rewrite (copy1_copied s1 s2 k c Hc) by lia; cbn [mbind option_bind];
    rewrite (proj2 (Z.eqb_neq c 0) Hn)
  end.

(** No terminator within the next [4 * n4] bytes. *)
Lemma copy4_all n4 k : (1 <= n4)%nat → (k + 4 * n4 <= z)%nat → (k + 4 * n4 <= length s1)%nat →
  copy4 n4 (copied s1 s2 k) = Some (false, copied s1 s2 (k + 4 * n4)).
Proof.
  revert k. induction n4 as [|n4 IH]; intros k H1 Hk Hl; [lia|]. cbn [copy4].
  do 4 one_copy. destruct n4 as [|n4]; [do 2 f_equal; f_equal; lia|].
  rewrite IH by lia. do 3 f_equal. lia.
Qed.
(** The terminator at [z] is one of them. *)
Lemma copy4_hit n4 k : s2 !! z = Some 0 → (k <= z)%nat → (z < k + 4 * n4)%nat →
  (k + 4 * n4 <= length s1)%nat → copy4 n4 (copied s1 s2 k) = Some (true, copied s1 s2 (S z)).
Proof.
  intros H0. revert k. induction n4 as [|n4 IH]; intros k H1 Hk Hl; [lia|]. cbn [copy4].
  do 4 (match goal with |- context [copy1 (copied s1 s2 ?k)] => destruct (decide (z = k)) as [Hzk|] end;
    [rewrite <- Hzk, (copy1_copied s1 s2 z 0 H0) by lia; reflexivity|one_copy]).
  destruct n4 as [|n4]; [lia|]. apply IH; lia.
Qed.
Lemma zero_fill_spec n i d : (1 <= n)%nat → (i + n <= length d)%nat →
  zero_fill n (Z.of_nat i) d = Some (take i d ++ replicate n 0 ++ drop (i + n) d).
Proof.
  revert i d. induction n as [|n IH]; intros i d H1 Hl; [lia|]. cbn [zero_fill].
  rewrite wr_insert by lia. cbn [mbind option_bind].
  destruct (lookup_lt_is_Some_2 d i ltac:(lia)) as [w Hw].
  assert (Hd : <[i := 0]> d = take i d ++ 0 :: drop (S i) d) by (apply insert_take_drop; lia).
  destruct n as [|n].
  - rewrite Hd, (Nat.add_1_r i). reflexivity.
  - replace (Z.of_nat i + 1) with (Z.of_nat (S i)) by lia.
    rewrite IH by (rewrite ?length_insert; lia). f_equal.
    rewrite cons_middle, app_assoc in Hd. rewrite Hd.
    rewrite take_app_length', drop_app_ge, drop_drop by (rewrite ?length_app, ?length_take; cbn [length]; lia).
    rewrite <- app_assoc, length_app, length_take. cbn [replicate app length].
    do 4 f_equal. f_equal. lia.
Qed.
Lemma last_chars_all n k : (1 <= n)%nat → (k + n <= z)%nat → (k + n <= length s1)%nat →
  last_chars n (copied s1 s2 k) = Some (take (k + n) s2 ++ drop (k + n) s1).
Proof.
  revert k. induction n as [|n IH]; intros k H1 Hk Hl; [lia|]. cbn [last_chars]. one_copy.
  unfold copied at 1. destruct n as [|n].
  - do 2 f_equal; f_equal; lia.
  - cbn [negb]. fold (copied s1 s2 (S k)). rewrite IH by lia. do 2 f_equal; f_equal; lia.
Qed.
(** What [strncpy] leaves when the terminator is at [z < n]. *)
Definition padded (n : nat) : list Z := take z s2 ++ replicate (n - z) 0 ++ drop n s1.
Lemma fill_padded n : s2 !! z = Some 0 → (z < n)%nat → (n <= length s1)%nat → (S z < n)%nat →
  zero_fill (n - S z) (Z.of_nat (S z)) (take (S z) s2 ++ drop (S z) s1) = Some (padded n).
Proof.
  intros H0 Hzn Hl Hs. pose proof (lookup_lt_Some _ _ _ H0).
  rewrite zero_fill_spec by (rewrite ?length_copied; lia). f_equal. unfold padded.
  rewrite take_app_length', drop_app_ge, drop_drop, length_take by (rewrite ?length_take; lia).
  rewrite (take_S_r _ _ 0 H0), <- app_assoc. cbn [app]. f_equal.
  replace (n - z)%nat with (S (n - S z)) by lia. cbn [replicate app]. do 3 f_equal. lia.
Qed.
Lemma last_chars_hit n k : s2 !! z = Some 0 → (k <= z < k + n)%nat → (k + n <= length s1)%nat →
  last_chars n (copied s1 s2 k) = Some (padded (k + n)).
Proof.
  intros H0. pose proof (lookup_lt_Some _ _ _ H0).
  revert k. induction n as [|n IH]; intros k Hk Hl; [lia|]. cbn [last_chars].
  destruct (decide (z = k)) as [Hzk|].
  - rewrite <- Hzk in *. rewrite (copy1_copied s1 s2 z 0 H0) by lia. cbn [mbind option_bind].
    unfold copied. destruct n as [|n].
    + unfold padded. replace (z + 1 - z)%nat with 1%nat by lia. f_equal.
      rewrite (take_S_r _ _ 0 H0), <- app_assoc. cbn. do 3 f_equal. lia.
    + cbn [negb Z.eqb]. pose proof (fill_padded (z + S (S n)) H0) as Hf.
      replace (z + S (S n) - S z)%nat with (S n) in Hf by lia. apply Hf; lia.
  - one_copy. unfold copied at 1. destruct n as [|n]; [lia|]. cbn [negb].
    fold (copied s1 s2 (S k)). rewrite IH by lia. do 2 f_equal. lia.
Qed.
End strncpy.

(** What reading [s2] as a string of at most [n] bytes sees: the string ends inside the
    first [n] bytes, or [n] bytes are there. *)
Definition readable (s2 str : list Z) (n : nat) : Prop :=
  Forall (.≠ 0) str ∧ (holds s2 str ∨ (n <= length str)%nat ∧ take n str = take n s2).

Lemma readable_nonzero s2 str z : Forall (.≠ 0) str → (z <= length str)%nat →
  take z s2 = take z str → ∀ k, (k < z)%nat → ∃ c, s2 !! k = Some c ∧ c ≠ 0.
Proof.
  intros Hf Hl Ht k Hk. destruct (lookup_lt_is_Some_2 str k ltac:(lia)) as [c Hc].
  exists c. split; [|by apply (proj1 (Forall_lookup _ _) Hf k)].
  rewrite <- (lookup_take_lt _ z), Ht, lookup_take_lt by lia. done.
Qed.

Lemma shiftr2_land3 n : n = 4 * Z.shiftr n 2 + Z.land n 3.
Proof.
  change 3 with (Z.ones 2). rewrite Z.land_ones, Z.shiftr_div_pow2 by lia.
  pose proof (Z.div_mod n (2 ^ 2)). lia.
Qed.

(** No terminator among the first [n] bytes. *)
Lemma strncpy_full s1 s2 str n : Forall (.≠ 0) str →
  (Z.to_nat n <= length str)%nat ∧ take (Z.to_nat n) s2 = take (Z.to_nat n) str →
  is_u32 n → (Z.to_nat n <= length s1)%nat →
  strncpy s1 s2 n = Some (take (Z.to_nat n) s2 ++ drop (Z.to_nat n) s1).
Proof.
  intros Hf [Hle Ht] Hn Hl. unfold strncpy. pose proof (shiftr2_land3 n) as Hq.
  assert (0 <= Z.land n 3 < 4) by (change 3 with (Z.ones 2); rewrite Z.land_ones by lia;
    apply Z.mod_pos_bound; lia).
  unfold is_u32 in Hn. change (s2, 0, s1) with (copied s1 s2 0).
  pose proof (readable_nonzero s2 str (Z.to_nat n) Hf Hle Ht) as Hz.
  set (q := if 4 <=? n then Z.to_nat (Z.shiftr n 2) else 0%nat).
  assert (Htail : (if Z.land n 3 =? 0 then Some (copied s1 s2 (4 * q)).2
            else last_chars (Z.to_nat (Z.land n 3)) (copied s1 s2 (4 * q)))
          = Some (take (Z.to_nat n) s2 ++ drop (Z.to_nat n) s1)).
  { assert (Hqn : (4 * q + Z.to_nat (Z.land n 3) = Z.to_nat n)%nat)
      by (unfold q; destruct (Z.leb_spec 4 n); lia).
    destruct (Z.eqb_spec (Z.land n 3) 0) as [H0|]; [cbn [copied snd]; do 2 f_equal; f_equal; lia|].
    rewrite (last_chars_all s1 s2 (Z.to_nat n) Hz) by lia. by rewrite Hqn. }
  unfold q in Htail. destruct (Z.leb_spec 4 n); [|exact Htail].
  rewrite (copy4_all s1 s2 (Z.to_nat n) Hz) by lia. exact Htail.
Qed.
(** The terminator is one of the first [n] bytes. *)
Lemma strncpy_short s1 s2 str n : Forall (.≠ 0) str →
  (∃ rest, s2 = str ++ 0 :: rest) ∧ (length str < Z.to_nat n)%nat →
  is_u32 n → (Z.to_nat n <= length s1)%nat →
  strncpy s1 s2 n = Some (padded s1 s2 (length str) (Z.to_nat n)).
Proof.
  intros Hf [[rest Hs2] Hgt] Hn Hl. unfold strncpy. pose proof (shiftr2_land3 n) as Hq.
  assert (0 <= Z.land n 3 < 4) by (change 3 with (Z.ones 2); rewrite Z.land_ones by lia;
    apply Z.mod_pos_bound; lia).
  unfold is_u32 in Hn. change (s2, 0, s1) with (copied s1 s2 0).
  set (z := length str) in *.
  assert (Hz0 : s2 !! z = Some 0) by (rewrite Hs2; by apply list_lookup_middle).
  assert (Ht : take z s2 = take z str).
  { rewrite Hs2, take_app_length' by done. by rewrite take_ge. }
  pose proof (readable_nonzero s2 str z Hf (le_n _) Ht) as Hz.
  destruct (Z.leb_spec 4 n) as [H4|H4].
  + destruct (decide (z < 4 * Z.to_nat (Z.shiftr n 2))%nat).
    * rewrite (copy4_hit s1 s2 z Hz) by (done || lia). cbn [mbind option_bind copied].
      unfold u32. rewrite Z.mod_small by lia.
      destruct (Z.eqb_spec (n - (Z.of_nat (S z) - 1) - 1) 0).
      -- unfold padded. replace (Z.to_nat n) with (S z) by lia. f_equal.
         rewrite (take_S_r _ _ 0 Hz0), <- app_assoc.
         replace (S z - z)%nat with 1%nat by lia. done.
      -- pose proof (fill_padded s1 s2 z (Z.to_nat n) Hz0) as Hfp.
         replace (Z.to_nat n - S z)%nat with (Z.to_nat (n - (Z.of_nat (S z) - 1) - 1)) in Hfp by lia.
         apply Hfp; lia.
    * rewrite (copy4_all s1 s2 z Hz) by lia. cbn [mbind option_bind].
      destruct (Z.eqb_spec (Z.land n 3) 0); [lia|].
      rewrite (last_chars_hit s1 s2 z Hz) by (done || lia). do 2 f_equal. lia.
  + destruct (Z.eqb_spec (Z.land n 3) 0); [lia|].
    rewrite (last_chars_hit s1 s2 z Hz) by (done || lia). do 2 f_equal. lia.
Qed.

(** [strncpy], with its loop unrolled four times, its remainder loop and its zero
    filling, does what the C standard says for every 32-bit [n] and every source: the
    first [n] bytes of the string padded with zeros, the rest of the destination
    untouched, nothing accessed out of bounds. *)
Theorem strncpy_spec s1 s2 str n : readable s2 str (Z.to_nat n) → is_u32 n →
  (Z.to_nat n <= length s1)%nat →
  strncpy s1 s2 n = Some (take (Z.to_nat n) (str ++ replicate (Z.to_nat n) 0)
                          ++ drop (Z.to_nat n) s1).
Proof.
  intros [Hf Hr] Hn Hl.
  destruct (decide (Z.to_nat n <= length str)%nat) as [Hle|Hgt].
  - assert (Ht : take (Z.to_nat n) s2 = take (Z.to_nat n) str).
    { destruct Hr as [[_ [rest ->]]|[_ ->]]; [|done]. by rewrite take_app_le. }
    rewrite (strncpy_full s1 s2 str), take_app_le, <- Ht by done. done.
  - destruct Hr as [[_ Hs2]|[? _]]; [|lia].
    rewrite (strncpy_short s1 s2 str) by (done || (split; [done|lia])). f_equal.
    destruct Hs2 as [rest ->]. unfold padded.
    rewrite take_app_length, take_app_ge, take_replicate, Nat.min_l, <- app_assoc by lia. done.
Qed.

Lemma strncpy_spec_witness :
  strncpy [9; 9; 9; 9; 9; 9; 9; 9] [65; 66; 67; 68; 69; 0; 7] 7 = Some [65; 66; 67; 68; 69; 0; 0; 9].
Proof.
  apply (strncpy_spec [9; 9; 9; 9; 9; 9; 9; 9] [65; 66; 67; 68; 69; 0; 7] [65; 66; 67; 68; 69] 7).
  - split; [repeat constructor; lia|]. left. split; [repeat constructor; lia|]. by exists [7].
  - split; reflexivity || lia.
  - cbn. lia.
Defined.

(** ** [NST_MoveMemOvlap] is [memmove] *)

Lemma length_wr i v b b' : wr i v b = Some b' → length b' = length b.
Proof. unfold wr. destruct (_ && _); [|done]. intros [= <-]. apply length_insert. Qed.

Lemma move1_spec d s m v : (d < length m)%nat → m !! s = Some v →
  move1 (Z.of_nat d) (Z.of_nat s) m = Some (<[d := v]> m).
Proof.
  intros Hd Hv. unfold move1. rewrite (rd_lookup m s v Hv). cbn [mbind option_bind].
  by apply wr_insert.
Qed.
(** What a copy of [n] elements from [s] to [d] means, element by element. *)
Definition moved (m r : list Z) (d s n : nat) : Prop :=
  ∀ k, r !! k = if bool_decide (d <= k < d + n)%nat then m !! (s + (k - d))%nat else m !! k.

Lemma move_up_spec n d s m : (d <= s)%nat → (s + n <= length m)%nat →
  ∃ r, move_up (Z.of_nat d) (Z.of_nat s) n m = Some r ∧ moved m r d s n.
Proof.
  revert d s m. induction n as [|n IH]; intros d s m Hds Hs; cbn [move_up].
  - exists m. split; [done|]. intros k. rewrite bool_decide_false by lia. done.
  - destruct (lookup_lt_is_Some_2 m s ltac:(lia)) as [v Hv].
    rewrite (move1_spec d s m v) by (done || lia). cbn [mbind option_bind].
    destruct (IH (S d) (S s) (<[d := v]> m)) as (r & Hr & Hm); [lia|by rewrite length_insert; lia|].
    replace (Z.of_nat d + 1) with (Z.of_nat (S d)) by lia.
    replace (Z.of_nat s + 1) with (Z.of_nat (S s)) by lia.
    exists r. split; [done|]. intros k. rewrite Hm. destruct (decide (k = d)) as [->|Hk].
    + rewrite bool_decide_false, bool_decide_true, Nat.sub_diag, Nat.add_0_r by lia.
      by rewrite list_lookup_insert_eq by lia.
    + destruct (decide (d <= k < d + S n)%nat).
      * rewrite !bool_decide_true by lia. rewrite list_lookup_insert_ne by lia. f_equal. lia.
      * rewrite !bool_decide_false by lia. by rewrite list_lookup_insert_ne by lia.
Qed.
Lemma move_down_spec n d s m : (s < d)%nat → (d + n <= length m)%nat →
  ∃ r, move_down (Z.of_nat (d + n) - 1) (Z.of_nat (s + n) - 1) n m = Some r ∧ moved m r d s n.
Proof.
  revert m. induction n as [|n IH]; intros m Hds Hs; cbn [move_down].
  - exists m. split; [done|]. intros k. rewrite bool_decide_false by lia. done.
  - destruct (lookup_lt_is_Some_2 m (s + n) ltac:(lia)) as [v Hv].
    replace (Z.of_nat (d + S n) - 1) with (Z.of_nat (d + n)) by lia.
    replace (Z.of_nat (s + S n) - 1) with (Z.of_nat (s + n)) by lia.
    rewrite (move1_spec (d + n) (s + n) m v) by (done || lia). cbn [mbind option_bind].
    destruct (IH (<[(d + n)%nat := v]> m)) as (r & -> & Hm); [lia|by rewrite length_insert; lia|].
    exists r. split; [done|]. intros k. rewrite Hm. destruct (decide (k = (d + n)%nat)) as [->|Hk].
    + rewrite bool_decide_false, bool_decide_true by lia.
      rewrite list_lookup_insert_eq by lia. rewrite <- Hv. f_equal. lia.
    + destruct (decide (d <= k < d + n)%nat).
      * rewrite !bool_decide_true by lia. by rewrite list_lookup_insert_ne by lia.
      * rewrite !bool_decide_false by lia. by rewrite list_lookup_insert_ne by lia.
Qed.
Lemma moved_store_at m r d s n : (d + n <= length m)%nat → (s + n <= length m)%nat →
  moved m r d s n → r = store_at d (slice s n m) m.
Proof.
  intros Hd Hs Hm. apply list_eq. intros k. rewrite Hm. unfold store_at, slice.
  rewrite length_take, length_drop, Nat.min_l by lia.
  destruct (decide (k < d)%nat).
  - rewrite bool_decide_false, lookup_app_l, lookup_take_lt by (rewrite ?length_take; lia). done.
  - rewrite lookup_app_r, length_take, Nat.min_l by (rewrite ?length_take; lia).
    destruct (decide (k < d + n)%nat).
    + rewrite bool_decide_true, lookup_app_l, lookup_take_lt, lookup_drop
        by (rewrite ?length_take, ?length_drop; lia). done.
    + rewrite bool_decide_false, lookup_app_r, lookup_drop
        by (rewrite ?length_take, ?length_drop; lia).
      rewrite length_take, length_drop, Nat.min_l by lia. f_equal. lia.
Qed.

(** [NST_MoveMemOvlap] is [memmove]: for any two ranges inside one memory, however
    they overlap, the destination receives the old contents of the source and every
    other byte is unchanged. *)
Theorem NST_MoveMemOvlap_memmove (pDst pSrc Size : nat) m :
  (pDst + Size <= length m)%nat → (pSrc + Size <= length m)%nat →
  NST_MoveMemOvlap (Z.of_nat pDst) (Z.of_nat pSrc) Size m
  = Some (store_at pDst (slice pSrc Size m) m).
Proof.
  intros Hd Hs. unfold NST_MoveMemOvlap.
  assert (H : ∃ r, (if Z.of_nat pSrc <? Z.of_nat pDst
    then move_down (Z.of_nat (pDst + Size) - 1) (Z.of_nat (pSrc + Size) - 1) Size m
    else move_up (Z.of_nat pDst) (Z.of_nat pSrc) Size m) = Some r ∧ moved m r pDst pSrc Size).
  { destruct (Z.ltb_spec (Z.of_nat pSrc) (Z.of_nat pDst));
      [apply move_down_spec; lia|apply move_up_spec; lia]. }
  destruct H as (r & H & Hm). rewrite !Nat2Z.inj_add in H. rewrite H.
  by rewrite (moved_store_at m r pDst pSrc Size).
Qed.

Lemma NST_MoveMemOvlap_memmove_witness :
  NST_MoveMemOvlap 1 0 4 [1; 2; 3; 4; 5; 6] = Some [1; 1; 2; 3; 4; 6] ∧
  NST_MoveMemOvlap 0 1 4 [1; 2; 3; 4; 5; 6] = Some [2; 3; 4; 5; 5; 6].
Proof.
  split; [apply (NST_MoveMemOvlap_memmove 1 0 4 [1; 2; 3; 4; 5; 6])
         |apply (NST_MoveMemOvlap_memmove 0 1 4 [1; 2; 3; 4; 5; 6])]; cbn; lia.
Defined.

(** ** Number printing *)

Definition digit (v : Z) : Z := if v <? 10 then 48 + v else 87 + v.
(** The digits of [v] in base [radix], most significant first. *)
Fixpoint digits (fuel : nat) (radix v : Z) : list Z :=
  match fuel with
  | O => []
  | S fuel => if v <? radix then [digit v] else digits fuel radix (v / radix) ++ [digit (v mod radix)]
  end.

Lemma digits36_lookup v : 0 <= v < 36 → rd digits36 v = Some (digit v).
Proof.
  intros Hv. assert (H : v ∈ seqZ 0 36) by (apply elem_of_seqZ; lia). revert v H Hv.
  assert (H : Forall (λ v, rd digits36 v = Some (digit v)) (seqZ 0 36))
    by (vm_compute; repeat constructor).
  intros v Hin _. by apply (proj1 (Forall_forall _ _) H).
Qed.
Lemma digit_nonzero v : 0 <= v → digit v ≠ 0.
Proof. unfold digit. split_guard; lia. Qed.
Lemma digits_nonzero fuel radix v : 0 <= v → 2 <= radix → Forall (.≠ 0) (digits fuel radix v).
Proof.
  revert v. induction fuel as [|fuel IH]; intros v Hv Hr; [done|]. cbn [digits]. split_guard.
  - repeat constructor. by apply digit_nonzero.
  - apply Forall_app. split; [apply IH; [apply Z.div_pos; lia|done]|].
    repeat constructor. apply digit_nonzero. apply Z.mod_pos_bound. lia.
Qed.
Lemma strlen_holds s str : holds s str → strlen s = Some (Z.of_nat (length str)).
Proof.
  intros [Hf [rest ->]]. induction Hf as [|c str Hc Hf IH]; [done|].
  cbn [app strlen]. rewrite (proj2 (Z.eqb_neq c 0) Hc), IH. cbn [mbind option_bind length]. f_equal. lia.
Qed.

(** A string stored at [off] in [buf], with its terminator. *)
Definition put_str (off : nat) (str buf : list Z) : list Z := store_at off (str ++ [0]) buf.
Lemma put_str_app A str x B off : length A = off → length x = S (length str) →
  put_str off str (A ++ x ++ B) = A ++ str ++ 0 :: B.
Proof.
  intros <- Hx. unfold put_str, store_at.
  rewrite take_app_length, drop_app_ge by (rewrite ?length_app; cbn [length]; lia).
  rewrite drop_app_length' by (rewrite ?length_app; cbn [length]; lia).
  by rewrite <- app_assoc.
Qed.
Lemma put_digit off c buf : (off + 2 <= length buf)%nat →
  (buf' ← wr (Z.of_nat off) c buf; wr (Z.of_nat off + 1) 0 buf') = Some (put_str off [c] buf).
Proof.
  intros Hl. rewrite wr_insert by lia. cbn [mbind option_bind].
  replace (Z.of_nat off + 1) with (Z.of_nat (S off)) by lia.
  rewrite wr_insert by (rewrite length_insert; lia). f_equal.
  destruct (lookup_lt_is_Some_2 buf off ltac:(lia)) as [x Hx].
  destruct (lookup_lt_is_Some_2 buf (S off) ltac:(lia)) as [y Hy].
  assert (Hb : buf = take off buf ++ [x; y] ++ drop (S (S off)) buf).
  { rewrite <- (take_drop off buf) at 1. by rewrite (drop_S _ _ _ Hx), (drop_S _ _ _ Hy). }
  assert (Hla : length (take off buf) = off) by (rewrite length_take; lia).
  revert Hb Hla. generalize (take off buf), (drop (S (S off)) buf). intros A B -> Hla.
  rewrite put_str_app, !insert_app_r_alt, Hla by (rewrite ?Hla; done || lia).
  replace (off - off)%nat with O by lia. by replace (S off - off)%nat with 1%nat by lia.
Qed.
Lemma length_digits_pos fuel radix v : (1 <= fuel)%nat → (1 <= length (digits fuel radix v))%nat.
Proof. destruct fuel; [lia|]. intros _. cbn [digits]. split_guard; [cbn; lia|]. rewrite length_app. cbn. lia. Qed.
Lemma length_put_str off str buf : (off + S (length str) <= length buf)%nat →
  length (put_str off str buf) = length buf.
Proof. intros. unfold put_str. rewrite length_store_at; rewrite ?length_app; cbn [length]; lia. Qed.
(** Appending at the terminator. *)
Lemma put_str_append off a b buf : (off + S (length a + length b) <= length buf)%nat →
  (1 <= length b)%nat → put_str (off + length a) b (put_str off a buf) = put_str off (a ++ b) buf.
Proof.
  intros Hl Hb.
  assert (Hdec : ∃ A X y Y B, buf = A ++ (X ++ [y]) ++ Y ++ B ∧ length A = off ∧
    length X = length a ∧ length Y = length b).
  { destruct (lookup_lt_is_Some_2 (drop (off + length a) buf) 0) as [y Hy];
      [rewrite length_drop; lia|].
    exists (take off buf), (take (length a) (drop off buf)), y,
      (take (length b) (drop (S (off + length a)) buf)), (drop (length b) (drop (S (off + length a)) buf)).
    rewrite !length_take, !length_drop, take_drop. split_ands; [|lia..].
    rewrite <- (take_drop off buf) at 1. f_equal. rewrite <- (take_drop (length a) (drop off buf)) at 1.
    rewrite <- app_assoc. f_equal. rewrite drop_drop. rewrite lookup_drop, Nat.add_0_r in Hy.
    by rewrite (drop_S _ _ _ Hy). }
  destruct Hdec as (A & X & y & Y & B & -> & HA & HX & HY).
  rewrite (put_str_app A a (X ++ [y]) (Y ++ B)) by (rewrite ?length_app; cbn [length]; lia).
  replace (A ++ a ++ 0 :: Y ++ B) with ((A ++ a) ++ (0 :: Y) ++ B) by (by rewrite <- app_assoc).
  rewrite put_str_app by (rewrite ?length_app; cbn [length]; lia).
  replace (A ++ (X ++ [y]) ++ Y ++ B) with (A ++ (X ++ [y] ++ Y) ++ B) by (by rewrite <- !app_assoc).
  rewrite put_str_app by (rewrite ?length_app; cbn [length]; lia).
  by rewrite <- !app_assoc.
Qed.
Lemma holds_put_str off str buf : Forall (.≠ 0) str → (off <= length buf)%nat →
  holds (drop off (put_str off str buf)) str.
Proof.
  intros Hf Hl. split; [done|]. unfold put_str, store_at.
  rewrite drop_app_length' by (rewrite length_take; lia).
  eexists. by rewrite <- app_assoc.
Qed.

Lemma utoa_at_spec fuel v off buf radix : 2 <= radix <= 36 → 0 <= v < radix ^ Z.of_nat fuel →
  (1 <= fuel)%nat → (off + S (length (digits fuel radix v)) <= length buf)%nat →
  utoa_at fuel v buf (Z.of_nat off) radix = Some (put_str off (digits fuel radix v) buf).
Proof.
  intros Hr. revert v off buf. induction fuel as [|fuel IH]; intros v off buf Hv Hf Hl; [lia|].
  cbn [utoa_at digits] in *. rewrite (proj2 (Z.eqb_neq radix 0)) by lia.
  unfold u32. rewrite (Z.mod_small radix) by lia.
  destruct (Z.ltb_spec v radix) as [Hlt|Hge].
  - rewrite digits36_lookup by lia. cbn [mbind option_bind]. apply put_digit. cbn in Hl. lia.
  - assert (Hfuel : (1 <= fuel)%nat) by (destruct fuel; [cbn in Hv; lia|lia]).
    assert (Hd : 0 <= v / radix < radix ^ Z.of_nat fuel).
    { split; [apply Z.div_pos; lia|]. apply Z.div_lt_upper_bound; [lia|].
      rewrite <- Z.pow_succ_r by lia. replace (Z.succ (Z.of_nat fuel)) with (Z.of_nat (S fuel)) by lia. lia. }
    rewrite length_app in Hl. cbn [length] in Hl.
    assert (Hm : 0 <= v mod radix < radix) by (apply Z.mod_pos_bound; lia).
    rewrite IH by lia. cbn [mbind option_bind]. rewrite Nat2Z.id.
    pose proof (digits_nonzero fuel radix (v / radix) ltac:(lia) ltac:(lia)) as Hnz.
    rewrite (strlen_holds _ _ (holds_put_str off _ buf Hnz ltac:(lia))). cbn [mbind option_bind].
    assert (Hone : digits fuel radix (v mod radix) = [digit (v mod radix)]).
    { destruct fuel; [lia|]. cbn [digits]. by rewrite (proj2 (Z.ltb_lt _ _)) by lia. }
    rewrite <- Nat2Z.inj_add, IH, Hone.
    + f_equal. apply put_str_append; cbn; lia.
    + split; [lia|]. apply (Z.lt_le_trans _ radix); [lia|]. rewrite <- (Z.pow_1_r radix) at 1.
      apply Z.pow_le_mono_r; lia.
    + done.
    + rewrite Hone, length_put_str; cbn; lia.
Qed.

(** ** Number parsing *)

Lemma atou_hex_digit c v s : 0 <= v < 16 → c = digit v →
  ∀ acc, atou_hex_loop (c :: s) acc = atou_hex_loop s (u32 (acc * 16 + v)).
Proof.
  intros Hv -> acc. unfold digit. cbn [atou_hex_loop].
  destruct (Z.ltb_spec v 10) as [H|H].
  - rewrite (proj2 (Z.eqb_neq _ 0)), !(proj2 (Z.leb_le _ _)) by lia. cbn [andb]. do 2 f_equal. lia.
  - rewrite (proj2 (Z.eqb_neq _ 0)) by lia. rewrite (proj2 (Z.leb_gt (87 + v) 57)) by lia.
    rewrite (proj2 (Z.leb_gt (87 + v) 70)), !andb_false_r by lia.
    rewrite !(proj2 (Z.leb_le _ _)) by lia. cbn [andb]. do 2 f_equal. lia.
Qed.
Lemma atou_hex_digits fuel v tl acc : (1 <= fuel)%nat → 0 <= v < 16 ^ Z.of_nat fuel → 0 <= acc →
  let n := Z.of_nat (length (digits fuel 16 v)) in acc * 16 ^ n + v < 2 ^ 32 →
  atou_hex_loop (digits fuel 16 v ++ tl) acc = atou_hex_loop tl (acc * 16 ^ n + v).
Proof.
  revert v tl. induction fuel as [|fuel IH]; intros v tl Hf Hv Ha n Hlt; [lia|].
  unfold n in *. cbn [digits] in *. destruct (Z.ltb_spec v 16) as [H|H].
  - cbn [app length]. rewrite (atou_hex_digit _ v) by (done || lia). cbn in Hlt.
    rewrite u32_small by (unfold is_u32; cbn; lia). done.
  - assert (Hfuel : (1 <= fuel)%nat) by (destruct fuel; [cbn in Hv; lia|lia]).
    assert (Hm : 0 <= v mod 16 < 16) by (apply Z.mod_pos_bound; lia).
    pose proof (Z.div_mod v 16 ltac:(lia)) as Hdm.
    assert (Hd : 0 <= v / 16 < 16 ^ Z.of_nat fuel).
    { split; [apply Z.div_pos; lia|]. apply Z.div_lt_upper_bound; [lia|].
      rewrite <- Z.pow_succ_r by lia. replace (Z.succ (Z.of_nat fuel)) with (Z.of_nat (S fuel)) by lia. lia. }
    rewrite length_app, Nat2Z.inj_add, Z.pow_add_r in * by lia.
    change (16 ^ Z.of_nat (length [digit (v mod 16)])) with 16 in *.
    rewrite <- app_assoc, IH by (done || lia || nia). cbn [app].
    rewrite (atou_hex_digit _ (v mod 16)) by (done || lia).
    rewrite u32_small by (unfold is_u32; split; nia). f_equal. nia.
Qed.

(** Printing any 32-bit number with [utoa] in base 16 into a buffer with room for
    its digits and reading the buffer back with [atou_hex] gives the number; [utoa]
    terminates and stays in its buffer. *)
Theorem utoa_atou_hex_roundtrip v buf : is_u32 v → (9 <= length buf)%nat →
  ∃ buf', utoa v buf 16 = Some buf' ∧ atou_hex buf' = Some v ∧ length buf' = length buf.
Proof.
  intros Hv Hl. unfold is_u32 in Hv. unfold utoa.
  assert (Hlen : ∀ fuel w n, (1 <= n)%nat → 0 <= w < 16 ^ Z.of_nat n → (length (digits fuel 16 w) <= n)%nat).
  { induction fuel as [|fuel IH]; intros w n Hn Hw; [cbn; lia|]. cbn [digits]. split_guard; [cbn; lia|].
    rewrite length_app. cbn [length]. destruct n as [|n]; [cbn in Hw; lia|].
    destruct (decide (n = O)) as [->|]; [cbn in Hw; lia|].
    rewrite Nat2Z.inj_succ, Z.pow_succ_r in Hw by lia.
    assert (length (digits fuel 16 (w / 16)) <= n)%nat; [|lia]. apply IH; [lia|].
    split; [apply Z.div_pos; lia|]. apply Z.div_lt_upper_bound; lia. }
  assert (H8 : (length (digits utoa_fuel 16 v) <= 8)%nat) by (apply Hlen; cbn; lia).
  assert (Hv' : 0 <= v < 16 ^ Z.of_nat utoa_fuel).
  { split; [lia|]. apply (Z.lt_le_trans _ (2 ^ 32)); [lia|]. vm_compute. discriminate. }
  exists (put_str 0 (digits utoa_fuel 16 v) buf). split_ands.
  - apply (utoa_at_spec utoa_fuel v 0 buf 16); [lia|done|unfold utoa_fuel; lia|lia].
  - destruct (holds_put_str 0 (digits utoa_fuel 16 v) buf) as [_ [rest Hr]];
      [by apply digits_nonzero; lia|lia|].
    rewrite drop_0 in Hr. rewrite Hr. unfold atou_hex.
    rewrite atou_hex_digits by (done || lia || (unfold utoa_fuel; lia)). reflexivity.
  - apply length_put_str. lia.
Qed.

Lemma utoa_atou_hex_roundtrip_witness :
  utoa 0xDEADBEEF (replicate 9 7) 16 = Some [100; 101; 97; 100; 98; 101; 101; 102; 0] ∧
  ∃ buf', utoa 0xDEADBEEF (replicate 9 7) 16 = Some buf' ∧ atou_hex buf' = Some 0xDEADBEEF ∧ length buf' = 9%nat.
Proof.
  split; [vm_compute; reflexivity|].
  apply (utoa_atou_hex_roundtrip 0xDEADBEEF (replicate 9 7)); [split; lia|cbn; lia].
Defined.

(** The other direction of hexadecimal text: two characters per byte, as [AtoH] reads
    station addresses and keys. *)
Lemma BtoH_digit v : 0 <= v < 16 → BtoH (digit v) = v.
Proof.
  intros Hv. assert (H : Forall (λ v, BtoH (digit v) = v) (seqZ 0 16)) by (vm_compute; repeat constructor).
  apply (proj1 (Forall_forall _ _) H). apply elem_of_seqZ. lia.
Qed.
Definition hex2 (b : Z) : list Z := [digit (b / 16); digit (b mod 16)].
Lemma AtoH_hex bs pre dest tl : bytes_ok bs → length dest = length bs →
  AtoH_loop (concat (map hex2 bs) ++ tl) (Z.of_nat (length pre)) (pre ++ dest) (length bs)
  = Some (pre ++ bs).
Proof.
  intros Hb. revert pre dest. induction Hb as [|b bs Hb Hbs IH]; intros pre dest Hl.
  { destruct dest; [done|discriminate Hl]. }
  destruct dest as [|x dest]; [discriminate Hl|]. injection Hl as Hl. unfold is_byte in Hb.
  assert (Hq : 0 <= b / 16 < 16) by (split; [apply Z.div_pos; lia|apply Z.div_lt_upper_bound; lia]).
  assert (Hm : 0 <= b mod 16 < 16) by (apply Z.mod_pos_bound; lia).
  cbn [concat map hex2 app length AtoH_loop]. rewrite !BtoH_digit by done.
  rewrite wr_insert by (rewrite length_app; cbn; lia). cbn [mbind option_bind].
  rewrite insert_app_r_alt, Nat.sub_diag by lia. cbn [insert list_insert].
  assert (Hs : u8 (Z.shiftl (b / 16) 4) = b / 16 * 16).
  { rewrite Z.shiftl_mul_pow2 by lia. unfold u8. apply Z.mod_small. lia. }
  rewrite Hs, (rd_lookup _ _ (b / 16 * 16)) by (by apply list_lookup_middle). cbn [mbind option_bind].
  rewrite wr_insert by (rewrite length_app; cbn; lia). cbn [mbind option_bind].
  rewrite insert_app_r_alt, Nat.sub_diag by lia. cbn [insert list_insert].
  assert (Hv : u8 (b / 16 * 16 + b mod 16) = b).
  { pose proof (Z.div_mod b 16). unfold u8. rewrite Z.mod_small; lia. }
  rewrite Hv. replace (Z.of_nat (length pre) + 1) with (Z.of_nat (length (pre ++ [b])))
    by (rewrite length_app; cbn; lia).
  replace (pre ++ b :: dest) with ((pre ++ [b]) ++ dest) by (by rewrite <- app_assoc).
  rewrite (IH (pre ++ [b]) dest Hl). by rewrite <- app_assoc.
Qed.

(** [AtoH] reads back the hexadecimal text of any bytes (two characters each),
    whatever follows the text, and fills the destination exactly. *)
Theorem AtoH_reads_hex bs dest tl : bytes_ok bs → length dest = length bs →
  AtoH (concat (map hex2 bs) ++ tl) dest (length bs) = Some bs.
Proof. intros Hb Hl. apply (AtoH_hex bs [] dest tl Hb Hl). Qed.

Lemma AtoH_reads_hex_witness : AtoH [55; 102; 48; 52; 33] [9; 9] 2 = Some [127; 4].
Proof.
  apply (AtoH_reads_hex [127; 4] [9; 9] [33]); [repeat constructor; unfold is_byte; lia|done].
Defined.

(** ** [strrmvspace] *)

Lemma strcpy_at_spec str rest i dest : Forall (.≠ 0) str →
  (i + S (length str) <= length dest)%nat →
  strcpy_at (Z.of_nat i) dest (str ++ 0 :: rest) = Some (put_str i str dest).
Proof.
  intros Hf. revert i dest. induction Hf as [|c str Hc Hf IH]; intros i dest Hl; cbn [app strcpy_at].
  - rewrite wr_insert by (cbn in Hl; lia). cbn. f_equal. unfold put_str, store_at. cbn.
    rewrite insert_take_drop by (cbn in Hl; lia). by rewrite Nat.add_1_r.
  - rewrite wr_insert by (cbn in Hl; lia). cbn [mbind option_bind].
    rewrite (proj2 (Z.eqb_neq c 0) Hc). replace (Z.of_nat i + 1) with (Z.of_nat (S i)) by lia.
    rewrite IH by (rewrite length_insert; cbn in Hl; lia). f_equal.
    cbn [length] in Hl. unfold put_str, store_at.
    assert (Hins : <[i := c]> dest = (take i dest ++ [c]) ++ drop (S i) dest).
    { rewrite insert_take_drop by lia. by rewrite <- app_assoc. }
    rewrite Hins.
    rewrite take_app_length' by (rewrite length_app, length_take; cbn [length]; lia).
    rewrite drop_app_ge by (rewrite ?length_app, ?length_take; cbn [length]; lia).
    rewrite drop_drop, !length_app, length_take, <- app_assoc. cbn [app length].
    do 4 f_equal. lia.
Qed.
Lemma skip_blanks_spec bl c str : Forall (λ x, isspace x = true) bl → isspace c = false →
  skip_blanks (bl ++ c :: str) = Some (c :: str).
Proof. intros H Hc. induction H as [|x bl Hx _ IH]; cbn [app skip_blanks]; [by rewrite Hc|by rewrite Hx]. Qed.

(** On a string of blanks only, [strrmvspace] does not leave the empty string: after
    copying it the index [strlen(dst) - 1] is 4294967295 and the byte there is read and
    may be overwritten, outside any buffer of less than 4 GB. *)
Theorem strrmvspace_blanks_out_of_bounds src bl rest dst :
  src = bl ++ 0 :: rest → bl ≠ [] → Forall (λ c, isspace c = true) bl →
  0 < Z.of_nat (length dst) < 2 ^ 32 → strrmvspace dst src = None.
Proof.
  intros -> Hne Hbl Hd. unfold strrmvspace. destruct bl as [|b bl]; [done|].
  assert (Hb : b ≠ 0) by (apply Forall_inv in Hbl; intros ->; discriminate Hbl).
  assert (Hrd : rd ((b :: bl) ++ 0 :: rest) 0 = Some b) by reflexivity.
  rewrite Hrd. cbn [mbind option_bind]. rewrite (proj2 (Z.eqb_neq b 0) Hb).
  rewrite skip_blanks_spec by done. cbn [mbind option_bind].
  assert (Hcp : strcpy dst (0 :: rest) = Some (put_str 0 [] dst)).
  { apply (strcpy_at_spec [] rest 0 dst); [done|cbn; lia]. }
  rewrite Hcp. cbn [mbind option_bind].
  rewrite (strlen_holds _ []) by (apply (holds_put_str 0 [] dst); [done|lia]).
  cbn [mbind option_bind length trim_right]. change (u32 (Z.of_nat 0 - 1)) with 4294967295.
  unfold rd. rewrite length_put_str by (cbn; lia).
  rewrite (proj2 (Z.ltb_ge _ _)) by lia. by rewrite andb_false_r.
Qed.

Lemma strrmvspace_blanks_out_of_bounds_witness :
  strrmvspace [1; 2; 3; 4] [32; 9; 0] = None ∧ strrmvspace [1; 2; 3; 4] [32; 65; 32; 0] = Some [65; 0; 0; 4].
Proof.
  split; [|vm_compute; reflexivity].
  apply (strrmvspace_blanks_out_of_bounds _ [32; 9] []); [done|discriminate|repeat constructor|cbn; lia].
Defined.

(** ** Search and comparison routines *)

Lemma accepts_spec accept a c : holds accept a → accepts accept c = Some (bool_decide (c ∈ a)).
Proof.
  intros [Hf [rest ->]]. induction Hf as [|x a Hx _ IH]; [done|]. cbn [app accepts].
  rewrite (proj2 (Z.eqb_neq x 0) Hx). destruct (Z.eqb_spec c x) as [->|Hc].
  - by rewrite bool_decide_true by left.
  - rewrite IH. f_equal. apply bool_decide_ext. set_solver.
Qed.
(** [strspn] is the length of the longest prefix of accepted bytes. *)
Lemma strspn_spec s str accept a : holds s str → holds accept a →
  ∃ p q, str = p ++ q ∧ Forall (.∈ a) p ∧ (∀ c, head q = Some c → c ∉ a) ∧
    strspn s accept = Some (Z.of_nat (length p)).
Proof.
  intros [Hf [rest ->]] Ha. induction Hf as [|x str Hx _ IH]; cbn [app strspn].
  - exists [], []. by split_ands.
  - rewrite (proj2 (Z.eqb_neq x 0) Hx), (accepts_spec _ _ _ Ha). cbn [mbind option_bind].
    destruct (decide (x ∈ a)) as [Hin|Hout].
    + rewrite bool_decide_true by done. destruct IH as (p & q & -> & Hp & Hq & ->).
      exists (x :: p), q. cbn. split_ands; [done|by constructor|done|f_equal; lia].
    + rewrite bool_decide_false by done. exists [], (x :: str).
      split_ands; [done|done|by intros c [= <-]|done].
Qed.
(** [strchr] finds the first occurrence, the terminator included. *)
Lemma strchr_spec s str c : holds s str →
  (strchr s c = Some None ∧ c ≠ 0 ∧ c ∉ str) ∨
  ∃ i, strchr s c = Some (Some (Z.of_nat i)) ∧ (str ++ [0]) !! i = Some c ∧ c ∉ take i str.
Proof.
  intros [Hf [rest ->]]. induction Hf as [|x str Hx _ IH]; cbn [app strchr].
  - destruct (Z.eqb_spec 0 c) as [<-|]; cbn; [right; exists 0%nat; split_ands; [done|done|set_solver]|left; set_solver].
  - rewrite (proj2 (Z.eqb_neq x 0) Hx). destruct (Z.eqb_spec x c) as [->|Hc]; cbn [negb andb].
    + right. exists 0%nat. split_ands; [done|done|set_solver].
    + destruct IH as [(-> & ? & ?)|(i & -> & ? & ?)]; [left; split_ands; [done|done|set_solver]|].
      right. exists (S i). split_ands; [cbn; do 2 f_equal; lia|done|]. cbn [take]. set_solver.
Qed.
(** [NST_MemEqual] is 1 exactly when the blocks differ, whatever its name says. *)
Lemma NST_MemEqual_spec a b : length a = length b →
  NST_MemEqual a b (length a) = Some (bz (bool_decide (a ≠ b))).
Proof.
  revert b. induction a as [|x a IH]; intros [|y b] Hl; try done. injection Hl as Hl.
  cbn [length NST_MemEqual]. destruct (Z.eqb_spec x y) as [->|Hne]; cbn [negb].
  - rewrite IH by done. do 2 f_equal. apply bool_decide_ext. naive_solver.
  - rewrite bool_decide_true; [done|]. by intros [= ? ?].
Qed.
