(* ===== verification/Base64.v ===== *)
(** The Base64 codec of [Lib/base64.c].

    The output buffer of [base64_encode] is allocated once with the size [olen] the code
    computes; every store through [pos] is checked against it, so [Some] says that the
    size was enough.  Whether [malloc] succeeds is an argument. *)
From S2P Require Import Prelude.

(* @ App/NuAgent/Lib/base64.c:17-18 base64_table *)
Definition base64_table : list Z :=
  seqZ 65 26 ++ seqZ 97 26 ++ seqZ 48 10 ++ [43; 47].

(** What a call returns: the buffer and [out_len]; a null pointer; or a null pointer
    after [free(NULL)], which the allocator of this program does not accept. *)
Inductive codec_result := Done (out : list Z) (out_len : Z) | Null | NullAfterFreeNull.

(** The stores [*pos++ = x] for every [x] of [xs], in a buffer of [olen] bytes. *)
Definition emit (olen : Z) (out xs : list Z) : option (list Z) :=
  if Z.of_nat (length out + length xs) <=? olen then Some (out ++ xs) else None.

(* @ App/NuAgent/Lib/base64.c:40-42 base64_encode *)
Definition encoded_size (len : Z) : Z :=
  let olen := u32 (Z.quot (i32 (len * 4)) 3 + 4) in
  let olen := u32 (olen + olen / 72) in u32 (olen + 1).

Definition sextets (a b c : Z) : list Z :=
  [Z.shiftr a 2; Z.lor (Z.shiftl (Z.land a 0x03) 4) (Z.shiftr b 4);
   Z.lor (Z.shiftl (Z.land b 0x0f) 2) (Z.shiftr c 6); Z.land c 0x3f].
Definition sym (s : Z) : Z := byte_at base64_table s.

(** The line feed after 72 characters. *)
(* @ App/NuAgent/Lib/base64.c:59-63 base64_encode *)
Definition line_feed (olen line_len : Z) (out : list Z) : option (Z * list Z) :=
  let line_len := line_len + 4 in
  if 72 <=? line_len then out ← emit olen out [10]; Some (0, out) else Some (line_len, out).

(** The loop over whole groups and the remainder of one or two bytes. *)
(* @ App/NuAgent/Lib/base64.c:53-81 base64_encode *)
Fixpoint encode_loop (olen : Z) (inp : list Z) (line_len : Z) (out : list Z) {struct inp}
    : option (list Z) :=
  match inp with
  | a :: b :: c :: inp' =>
      out ← emit olen out (map sym (sextets a b c));
      '(line_len, out) ← line_feed olen line_len out;
      encode_loop olen inp' line_len out
  | [] => if line_len =? 0 then Some out else emit olen out [10]
  | [a] =>
      out ← emit olen out [sym (Z.shiftr a 2); sym (Z.shiftl (Z.land a 0x03) 4); 61; 61];
      if line_len + 4 =? 0 then Some out else emit olen out [10]
  | [a; b] =>
      out ← emit olen out [sym (Z.shiftr a 2);
        sym (Z.lor (Z.shiftl (Z.land a 0x03) 4) (Z.shiftr b 4));
        sym (Z.shiftl (Z.land b 0x0f) 2); 61];
      if line_len + 4 =? 0 then Some out else emit olen out [10]
  end.
(* @ App/NuAgent/Lib/base64.c:32-87 base64_encode *)
Definition base64_encode (malloc_ok : bool) (src : list Z) : option codec_result :=
  let olen := encoded_size (Z.of_nat (length src)) in
  if negb malloc_ok then Some NullAfterFreeNull else
  out ← encode_loop olen src 0 [];
  buf ← emit olen out [0];
  Some (Done buf (Z.of_nat (length out))).

(** [memset], the inverse of the table, and the padding character. *)
(* @ App/NuAgent/Lib/base64.c:106-109 base64_decode *)
Definition dtable : list Z :=
  <[61%nat := 0]> (foldl (λ t i, <[Z.to_nat (byte_at base64_table i) := i]> t)
                         (replicate 256 0x80) (seqZ 0 64)).

(* @ App/NuAgent/Lib/base64.c:111-115 base64_decode *)
Definition significant (src : list Z) : nat :=
  length (List.filter (λ c, negb (byte_at dtable c =? 0x80)) src).

Record dstate := DState { d_count : nat; d_in : list Z; d_block : list Z; d_out : list Z }.
(** One iteration; [room] is the size of the allocated buffer. *)
(* @ App/NuAgent/Lib/base64.c:127-141 base64_decode *)
Definition decode_step (room : Z) (st : dstate) (c : Z) : option dstate :=
  let tmp := byte_at dtable c in
  if tmp =? 0x80 then Some st else
  let inb := <[d_count st := c]> (d_in st) in
  let block := <[d_count st := tmp]> (d_block st) in
  let count := S (d_count st) in
  if (count =? 4)%nat then
    let b i := byte_at block i in
    out ← emit room (d_out st)
      [u8 (Z.lor (Z.shiftl (b 0) 2) (Z.shiftr (b 1) 4));
       u8 (Z.lor (Z.shiftl (b 1) 4) (Z.shiftr (b 2) 2));
       u8 (Z.lor (Z.shiftl (b 2) 6) (b 3))];
    Some (DState 0 inb block out)
  else Some (DState count inb block (d_out st)).
Fixpoint decode_loop (room : Z) (st : dstate) (src : list Z) : option dstate :=
  match src with
  | [] => Some st
  | c :: src => st ← decode_step room st c; decode_loop room st src
  end.
(** [junk] is what the uninitialised arrays [in] and [block] hold. *)
(* @ App/NuAgent/Lib/base64.c:100-152 base64_decode *)
Definition base64_decode (malloc_ok : bool) (junk : list Z) (src : list Z) : option codec_result :=
  let count := significant src in
  if negb (count mod 4 =? 0)%nat then Some Null else
  if negb malloc_ok then Some NullAfterFreeNull else
  st ← decode_loop (Z.of_nat count) (DState 0 junk junk []) src;
  let n := Z.of_nat (length (d_out st)) in
  let n := if 0 <? n then
             if byte_at (d_in st) 2 =? 61 then n - 2
             else if byte_at (d_in st) 3 =? 61 then n - 1 else n
           else n in
  Some (Done (d_out st) n).

(** ** Table facts *)

Lemma table_check : forallb (λ s, (byte_at dtable (sym s) =? s) && negb (sym s =? 61)
  && negb (sym s =? 10) && (0 <=? sym s) && (sym s <? 256)) (seqZ 0 64) = true.
Proof. vm_compute. reflexivity. Qed.
Lemma sym_spec s : 0 <= s < 64 → byte_at dtable (sym s) = s ∧ sym s ≠ 61 ∧ sym s ≠ 10.
Proof.
  intros Hs. pose proof (proj1 (forallb_forall _ _) table_check s) as H. cbv beta in H.
  assert (Hin : s ∈ seqZ 0 64) by (apply elem_of_seqZ; lia).
  apply list_elem_of_In in Hin. specialize (H Hin). lia.
Qed.
Lemma dtable_pad : byte_at dtable 61 = 0. Proof. reflexivity. Qed.
Lemma dtable_lf : byte_at dtable 10 = 0x80. Proof. reflexivity. Qed.

(** ** Bits of a group *)

Definition is_sextet (s : Z) : Prop := 0 <= s < 64.
Lemma sextet_check : forallb (λ a, forallb (λ b,
  (let s1 := Z.lor (Z.shiftl (Z.land a 0x03) 4) (Z.shiftr b 4) in
   let s2 := Z.lor (Z.shiftl (Z.land a 0x0f) 2) (Z.shiftr b 6) in
   (0 <=? Z.shiftr a 2) && (Z.shiftr a 2 <? 64) && (0 <=? s1) && (s1 <? 64) && (0 <=? s2) && (s2 <? 64)
   && (u8 (Z.lor (Z.shiftl (Z.shiftr a 2) 2) (Z.shiftr s1 4)) =? a)
   && (Z.land (Z.shiftl s1 4) 255 =? Z.land (Z.shiftl (Z.shiftr b 4) 4) 255)
   && (Z.shiftr s2 2 =? Z.land a 0x0f)
   && (Z.land (Z.shiftl s2 6) 255 =? Z.shiftl (Z.shiftr b 6) 6)
   && (Z.lor (Z.land (Z.shiftl (Z.shiftr a 4) 4) 255) (Z.land a 0x0f) =? a)
   && (u8 (Z.lor (Z.shiftl (Z.shiftr b 6) 6) (Z.land b 0x3f)) =? b)
   && (0 <=? Z.land b 0x3f) && (Z.land b 0x3f <? 64))) bytes256) bytes256 = true.
Proof. vm_compute. reflexivity. Qed.

Lemma u8_lor_land x y : u8 (Z.lor x y) = Z.lor (Z.land x 255) (Z.land y 255).
Proof. rewrite u8_land. bitwise_eq. Qed.

Lemma sextets_back a b c : is_byte a → is_byte b → is_byte c →
  Forall is_sextet (sextets a b c) ∧
  let s i := byte_at (sextets a b c) i in
  u8 (Z.lor (Z.shiftl (s 0) 2) (Z.shiftr (s 1) 4)) = a ∧
  u8 (Z.lor (Z.shiftl (s 1) 4) (Z.shiftr (s 2) 2)) = b ∧
  u8 (Z.lor (Z.shiftl (s 2) 6) (s 3)) = c.
Proof.
  intros Ha Hb Hc.
  assert (H : ∀ x y, is_byte x → is_byte y → _ = true)
    by (exact (λ x y Hx Hy, for_all_bytes _ (for_all_bytes _ sextet_check x Hx) y Hy)).
  pose proof (H a b Ha Hb) as Hab. pose proof (H b c Hb Hc) as Hbc. clear H.
  cbv beta zeta in Hab, Hbc. rewrite !andb_true_iff, !Z.eqb_eq in Hab, Hbc.
  destruct Hab as (((((((((((((A1 & A2) & A3) & A4) & A5) & A6) & A7) & A8) & A9) & A10) & A11) & A12) & A13) & A14).
  destruct Hbc as (((((((((((((B1 & B2) & B3) & B4) & B5) & B6) & B7) & B8) & B9) & B10) & B11) & B12) & B13) & B14).
  unfold sextets. split; [repeat constructor; unfold is_sextet; lia|].
  cbv -[Z.lor Z.land Z.shiftl Z.shiftr u8]. split_ands; [exact A7| |].
  - rewrite u8_lor_land, A8, B9, <- Z.land_assoc. exact B11.
  - rewrite u8_lor_land, B10, <- (Z.land_assoc c). rewrite <- B12 at 3.
    rewrite u8_lor_land, <- B10, <- !(Z.land_assoc _ 255 255), <- (Z.land_assoc c). reflexivity.
Qed.

(** ** The encoded text *)

Fixpoint text (inp : list Z) (line_len : Z) : list Z :=
  match inp with
  | a :: b :: c :: inp' =>
      map sym (sextets a b c) ++
      (if 72 <=? line_len + 4 then 10 :: text inp' 0 else text inp' (line_len + 4))
  | [] => if line_len =? 0 then [] else [10]
  | [a] => take 2 (map sym (sextets a 0 0)) ++ [61; 61] ++ (if line_len + 4 =? 0 then [] else [10])
  | [a; b] => take 3 (map sym (sextets a b 0)) ++ [61] ++ (if line_len + 4 =? 0 then [] else [10])
  end.

Lemma list_ind3 (P : list Z → Prop) : P [] → (∀ a, P [a]) → (∀ a b, P [a; b]) →
  (∀ a b c l, P l → P (a :: b :: c :: l)) → ∀ l, P l.
Proof.
  intros H0 H1 H2 H3. fix IH 1. intros [|a [|b [|c l]]]; [done|apply H1|apply H2|].
  apply H3, IH.
Qed.
Lemma emit_fits olen out xs : Z.of_nat (length (out ++ xs)) <= olen → emit olen out xs = Some (out ++ xs).
Proof. rewrite length_app. intros. unfold emit. by rewrite (proj2 (Z.leb_le _ _)) by lia. Qed.

Lemma encode_loop_text inp : ∀ olen l out, Z.of_nat (length (out ++ text inp l)) <= olen →
  encode_loop olen inp l out = Some (out ++ text inp l).
Proof.
  induction inp as [|a|a b|a b c inp IH] using list_ind3; intros olen l out Hl; cbn [encode_loop text] in *.
  - destruct (l =? 0); [by rewrite app_nil_r|by apply emit_fits].
  - cbn [map sextets take app] in *. unfold sextets in Hl |- *. cbn [map take app] in Hl |- *.
    rewrite Z.shiftr_0_l, Z.lor_0_r in Hl |- *. rewrite length_app in Hl. cbn [length] in Hl.
    rewrite emit_fits by (rewrite length_app; cbn [length]; lia). cbn [mbind option_bind].
    destruct (l + 4 =? 0); [done|]. cbn [length] in Hl.
    rewrite emit_fits by (rewrite !length_app; cbn [length]; lia). by rewrite <- app_assoc.
  - unfold sextets in Hl |- *. cbn [map take app] in Hl |- *.
    rewrite Z.shiftr_0_l, Z.lor_0_r in Hl |- *. rewrite length_app in Hl. cbn [length] in Hl.
    rewrite emit_fits by (rewrite length_app; cbn [length]; lia). cbn [mbind option_bind].
    destruct (l + 4 =? 0); [done|]. cbn [length] in Hl.
    rewrite emit_fits by (rewrite !length_app; cbn [length]; lia). by rewrite <- app_assoc.
  - rewrite !length_app in Hl. rewrite emit_fits by (rewrite length_app; lia). cbn [mbind option_bind].
    unfold line_feed. destruct (72 <=? l + 4).
    + cbn [length] in Hl. rewrite emit_fits by (rewrite !length_app; cbn [length]; lia).
      cbn [mbind option_bind]. rewrite IH by (rewrite !length_app; cbn [length]; lia).
      by rewrite <- !app_assoc.
    + cbn [mbind option_bind]. rewrite IH by (rewrite !length_app; lia). by rewrite <- !app_assoc.
Qed.

(** Four characters per group, one line feed per 72 characters and one at the end. *)
Lemma length_text inp l : 0 <= l < 72 →
  let c := (Z.of_nat (length inp) + 2) / 3 in
  Z.of_nat (length (text inp l)) <= 4 * c + (l + 4 * c) / 72 + 1.
Proof.
  revert l. induction inp as [|a|a b|a b c inp IH] using list_ind3; intros l Hl c'; unfold c' in *.
  - cbn [text length]. destruct (l =? 0); cbn [length]; change ((Z.of_nat 0 + 2) / 3) with 0;
      assert (0 <= l / 72) by (apply Z.div_pos; lia); rewrite Z.mul_0_r, Z.add_0_r; lia.
  - change ((Z.of_nat (length [a]) + 2) / 3) with 1. assert (0 <= (l + 4 * 1) / 72) by (apply Z.div_pos; lia).
    cbn [text map sextets take app length]. destruct (_ =? 0); cbn [length]; lia.
  - change ((Z.of_nat (length [a; b]) + 2) / 3) with 1. assert (0 <= (l + 4 * 1) / 72) by (apply Z.div_pos; lia).
    cbn [text map sextets take app length]. destruct (_ =? 0); cbn [length]; lia.
  - replace ((Z.of_nat (length (a :: b :: c :: inp)) + 2) / 3) with ((Z.of_nat (length inp) + 2) / 3 + 1).
    2:{ cbn [length]. replace (Z.of_nat (S (S (S (length inp)))) + 2) with (Z.of_nat (length inp) + 2 + 1 * 3) by lia.
        by rewrite Z.div_add. }
    cbn [text]. rewrite length_app. cbn [map sextets length].
    set (q := (Z.of_nat (length inp) + 2) / 3) in *. destruct (Z.leb_spec 72 (l + 4)).
    + cbn [length]. specialize (IH 0 ltac:(lia)). cbv zeta in IH.
      assert ((0 + 4 * q) / 72 + 1 <= (l + 4 * (q + 1)) / 72); [|lia].
      rewrite <- Z.div_add by lia. apply Z.div_le_mono; lia.
    + specialize (IH (l + 4) ltac:(lia)). cbv zeta in IH.
      replace (l + 4 * (q + 1)) with (l + 4 + 4 * q) by lia. lia.
Qed.
Lemma encoded_size_enough len : 0 <= len < 2 ^ 29 →
  let c := (len + 2) / 3 in 4 * c + (4 * c) / 72 + 2 <= encoded_size len.
Proof.
  intros Hl c. unfold c, encoded_size, u32. rewrite i32_small by lia.
  rewrite Z.quot_div_nonneg by lia.
  assert (H1 : 4 * ((len + 2) / 3) <= len * 4 / 3 + 3).
  { pose proof (Z.div_mod (len + 2) 3). pose proof (Z.mod_pos_bound (len + 2) 3).
    pose proof (Z.div_mod (len * 4) 3). pose proof (Z.mod_pos_bound (len * 4) 3). lia. }
  assert (H2 : 0 <= len * 4 / 3 <= len * 2) by (split; [apply Z.div_pos; lia|apply Z.div_le_upper_bound; lia]).
  rewrite !(Z.mod_small (len * 4 / 3 + 4)) by lia.
  assert (H3 : 0 <= (len * 4 / 3 + 4) / 72 <= len + 1) by (split; [apply Z.div_pos; lia|apply Z.div_le_upper_bound; lia]).
  assert (H4 : 4 * ((len + 2) / 3) / 72 <= (len * 4 / 3 + 4) / 72) by (apply Z.div_le_mono; lia).
  rewrite !(Z.mod_small (len * 4 / 3 + 4 + (len * 4 / 3 + 4) / 72)) by lia.
  rewrite Z.mod_small by lia. lia.
Qed.

(** ** Decoding the text *)

Lemma decode_skip room st src : decode_loop room st (10 :: src) = decode_loop room st src.
Proof. reflexivity. Qed.
(** A character of the alphabet or the padding, and the value it decodes to. *)
Definition codes (c t : Z) : Prop := byte_at dtable c = t ∧ t ≠ 0x80.
Lemma codes_sym s : is_sextet s → codes (sym s) s.
Proof. intros Hs. destruct (sym_spec s Hs) as [H _]. split; [done|unfold is_sextet in Hs; lia]. Qed.
Lemma codes_pad : codes 61 0. Proof. split; [apply dtable_pad|done]. Qed.
Lemma not_lf c t : codes c t → c ≠ 10.
Proof. intros [H Ht] ->. rewrite dtable_lf in H. congruence. Qed.

Lemma decode_step_code room n inb block out c t : codes c t →
  decode_step room (DState n inb block out) c =
  let inb := <[n := c]> inb in let block := <[n := t]> block in
  if (S n =? 4)%nat then
    out ← emit room out [u8 (Z.lor (Z.shiftl (byte_at block 0) 2) (Z.shiftr (byte_at block 1) 4));
      u8 (Z.lor (Z.shiftl (byte_at block 1) 4) (Z.shiftr (byte_at block 2) 2));
      u8 (Z.lor (Z.shiftl (byte_at block 2) 6) (byte_at block 3))];
    Some (DState 0 inb block out)
  else Some (DState (S n) inb block out).
Proof. intros [<- Ht]. unfold decode_step. by rewrite (proj2 (Z.eqb_neq _ _) Ht). Qed.
Lemma decode_group room inb block out src c0 c1 c2 c3 t0 t1 t2 t3 :
  length inb = 4%nat → length block = 4%nat →
  codes c0 t0 → codes c1 t1 → codes c2 t2 → codes c3 t3 →
  decode_loop room (DState 0 inb block out) (c0 :: c1 :: c2 :: c3 :: src) =
  (out ← emit room out [u8 (Z.lor (Z.shiftl t0 2) (Z.shiftr t1 4));
     u8 (Z.lor (Z.shiftl t1 4) (Z.shiftr t2 2)); u8 (Z.lor (Z.shiftl t2 6) t3)];
   decode_loop room (DState 0 [c0; c1; c2; c3] [t0; t1; t2; t3] out) src).
Proof.
  intros Hi Hb H0 H1 H2 H3. explode inb Hi. explode block Hb. cbn [decode_loop].
  rewrite (decode_step_code _ _ _ _ _ _ _ H0). cbn [Nat.eqb mbind option_bind].
  rewrite (decode_step_code _ _ _ _ _ _ _ H1). cbn [Nat.eqb mbind option_bind].
  rewrite (decode_step_code _ _ _ _ _ _ _ H2). cbn [Nat.eqb mbind option_bind].
  rewrite (decode_step_code _ _ _ _ _ _ _ H3). cbn [Nat.eqb insert list_insert]. cbv zeta.
  change (byte_at _ 0) with t0. change (byte_at _ 1) with t1.
  change (byte_at _ 2) with t2. change (byte_at _ 3) with t3.
  destruct (emit _ _ _); reflexivity.
Qed.

Definition pad (inb : list Z) : nat :=
  if byte_at inb 2 =? 61 then 2 else if byte_at inb 3 =? 61 then 1 else 0.

Lemma group_codes a b c : is_byte a → is_byte b → is_byte c →
  ∃ s0 s1 s2 s3, sextets a b c = [s0; s1; s2; s3] ∧
    (is_sextet s0 ∧ is_sextet s1 ∧ is_sextet s2 ∧ is_sextet s3) ∧
    [u8 (Z.lor (Z.shiftl s0 2) (Z.shiftr s1 4)); u8 (Z.lor (Z.shiftl s1 4) (Z.shiftr s2 2));
     u8 (Z.lor (Z.shiftl s2 6) s3)] = [a; b; c].
Proof.
  intros Ha Hb Hc. destruct (sextets_back a b c Ha Hb Hc) as [Hs H]. revert Hs H.
  unfold sextets. generalize (Z.shiftr a 2), (Z.lor (Z.shiftl (Z.land a 0x03) 4) (Z.shiftr b 4)),
    (Z.lor (Z.shiftl (Z.land b 0x0f) 2) (Z.shiftr c 6)), (Z.land c 0x3f).
  intros s0 s1 s2 s3 Hs (E0 & E1 & E2). exists s0, s1, s2, s3. split; [done|].
  rewrite !Forall_cons in Hs. split; [tauto|]. cons_eq ltac:(assumption).
Qed.
Lemma pad_symbols inb c0 c1 s2 s3 : inb = [c0; c1; sym s2; sym s3] → is_sextet s2 → is_sextet s3 →
  pad inb = 0%nat.
Proof.
  intros -> H2 H3. unfold pad. change (byte_at _ 2) with (sym s2). change (byte_at _ 3) with (sym s3).
  destruct (sym_spec s2 H2) as (_ & N2 & _), (sym_spec s3 H3) as (_ & N3 & _).
  by rewrite (proj2 (Z.eqb_neq _ _) N2), (proj2 (Z.eqb_neq _ _) N3).
Qed.

(** Decoding an encoded text gives the bytes back, with the zeros the padding stands for. *)
Lemma decode_text inp : bytes_ok inp → ∀ l room inb block out, length inb = 4%nat → length block = 4%nat →
  Z.of_nat (length out) + 3 * ((Z.of_nat (length inp) + 2) / 3) <= room →
  ∃ inb' block' zs, decode_loop room (DState 0 inb block out) (text inp l)
      = Some (DState 0 inb' block' (out ++ inp ++ zs)) ∧
    (inp = [] → inb' = inb ∧ zs = []) ∧ (inp ≠ [] → length zs = pad inb').
Proof.
  assert (Hlf : ∀ (b : bool) room st, decode_loop room st (if b then [] else [10]) = Some st) by (by intros []).
  assert (H0 : is_byte 0) by (unfold is_byte; lia).
  induction inp as [|a|a b|a b c inp IH] using list_ind3; intros Hb l room inb block out Hi Hk Hroom.
  - exists inb, block, []. cbn [text]. rewrite Hlf, !app_nil_r. split_ands; done.
  - apply Forall_cons in Hb as [Ha _].
    change ((Z.of_nat (length [a]) + 2) / 3) with 1 in Hroom.
    destruct (group_codes a 0 0 Ha H0 H0) as (s0 & s1 & s2 & s3 & Hs & (S0 & S1 & S2 & S3) & HE).
    cbn [text]. rewrite Hs. injection Hs as _ _ E2 E3.
    change (0 = s2) in E2. change (0 = s3) in E3. subst s2 s3. cbn [map take app].
    rewrite (decode_group _ _ _ _ _ _ _ _ _ _ _ 0 0 Hi Hk (codes_sym _ S0) (codes_sym _ S1) codes_pad codes_pad).
    rewrite HE, emit_fits by (rewrite length_app; cbn [length]; lia). cbn [mbind option_bind].
    rewrite Hlf. eexists _, _, [0; 0]. split_ands; done.
  - apply Forall_cons in Hb as [Ha [Hb _]%Forall_cons].
    change ((Z.of_nat (length [a; b]) + 2) / 3) with 1 in Hroom.
    destruct (group_codes a b 0 Ha Hb H0) as (s0 & s1 & s2 & s3 & Hs & (S0 & S1 & S2 & S3) & HE).
    cbn [text]. rewrite Hs. injection Hs as _ _ _ E3.
    change (0 = s3) in E3. subst s3. cbn [map take app].
    rewrite (decode_group _ _ _ _ _ _ _ _ _ _ _ _ 0 Hi Hk (codes_sym _ S0) (codes_sym _ S1) (codes_sym _ S2) codes_pad).
    rewrite HE, emit_fits by (rewrite length_app; cbn [length]; lia). cbn [mbind option_bind].
    rewrite Hlf. eexists _, _, [0]. split_ands; [done|done|]. intros _. unfold pad.
    change (byte_at _ 2) with (sym s2). destruct (sym_spec s2 S2) as (_ & N2 & _).
    by rewrite (proj2 (Z.eqb_neq _ _) N2).
  - apply Forall_cons in Hb as [Ha [Hb [Hc Hinp]%Forall_cons]%Forall_cons].
    destruct (group_codes a b c Ha Hb Hc) as (s0 & s1 & s2 & s3 & Hs & (S0 & S1 & S2 & S3) & HE).
    replace (Z.of_nat (length (a :: b :: c :: inp)) + 2) with (Z.of_nat (length inp) + 2 + 1 * 3) in Hroom
      by (cbn [length]; lia). rewrite Z.div_add in Hroom by lia.
    assert (0 <= (Z.of_nat (length inp) + 2) / 3) by (apply Z.div_pos; lia).
    cbn [text]. rewrite Hs. cbn [map app].
    rewrite (decode_group _ _ _ _ _ _ _ _ _ _ _ _ _ Hi Hk (codes_sym _ S0) (codes_sym _ S1) (codes_sym _ S2) (codes_sym _ S3)).
    rewrite HE, emit_fits by (rewrite length_app; cbn [length]; lia). cbn [mbind option_bind].
    assert (Hgo : ∀ l', ∃ inb' block' zs,
      decode_loop room (DState 0 [sym s0; sym s1; sym s2; sym s3] [s0; s1; s2; s3] (out ++ [a; b; c])) (text inp l')
        = Some (DState 0 inb' block' (out ++ (a :: b :: c :: inp) ++ zs)) ∧ length zs = pad inb').
    { intros l'. destruct (IH Hinp l' room [sym s0; sym s1; sym s2; sym s3] [s0; s1; s2; s3] (out ++ [a; b; c]))
        as (inb' & block' & zs & Hd & He & Hne); [done|done|rewrite length_app; cbn [length]; lia|].
      exists inb', block', zs. rewrite Hd, <- !app_assoc. split; [done|].
      destruct inp as [|x inp]; [|by apply Hne]. destruct (He eq_refl) as [-> ->].
      by rewrite (pad_symbols _ (sym s0) (sym s1) s2 s3). }
    destruct (72 <=? l + 4); [rewrite decode_skip|];
      [destruct (Hgo 0) as (i & k & z & -> & ?)|destruct (Hgo (l + 4)) as (i & k & z & -> & ?)];
      exists i, k, z; split_ands; done.
Qed.

Lemma significant_app xs ys : significant (xs ++ ys) = (significant xs + significant ys)%nat.
Proof. unfold significant. by rewrite List.filter_app, length_app. Qed.
Lemma significant_codes cs : Forall (λ c, ∃ t, codes c t) cs → significant cs = length cs.
Proof.
  intros H. unfold significant. induction H as [|c cs (t & Hc & Ht) _ IH]; [done|]. cbn [List.filter].
  rewrite Hc, (proj2 (Z.eqb_neq _ _) Ht). cbn [negb length]. by rewrite IH.
Qed.
Lemma significant_text inp : bytes_ok inp → ∀ l,
  Z.of_nat (significant (text inp l)) = 4 * ((Z.of_nat (length inp) + 2) / 3).
Proof.
  assert (Hlf : ∀ b : bool, significant (if b then [] else [10]) = O) by (by intros []).
  assert (H0 : is_byte 0) by (unfold is_byte; lia).
  assert (Hg : ∀ a b c, is_byte a → is_byte b → is_byte c →
    Forall (λ c, ∃ t, codes c t) (map sym (sextets a b c))).
  { intros a b c Ha Hb Hc. destruct (group_codes a b c Ha Hb Hc) as (s0 & s1 & s2 & s3 & -> & (? & ? & ? & ?) & _).
    cbn [map]. repeat (apply List.Forall_cons; [eexists; by apply codes_sym|]). apply List.Forall_nil. }
  assert (Hp : ∃ t, codes 61 t) by (exists 0; apply codes_pad).
  induction inp as [|a|a b|a b c inp IH] using list_ind3; intros Hb l; cbn [text].
  - by rewrite Hlf.
  - apply Forall_cons in Hb as [Ha _].
    rewrite !significant_app, Hlf, !significant_codes; [done|by repeat constructor|].
    apply Forall_take, Hg; done.
  - apply Forall_cons in Hb as [Ha [Hb _]%Forall_cons].
    rewrite !significant_app, Hlf, !significant_codes; [done|by repeat constructor|].
    apply Forall_take, Hg; done.
  - apply Forall_cons in Hb as [Ha [Hb [Hc Hinp]%Forall_cons]%Forall_cons].
    replace (Z.of_nat (length (a :: b :: c :: inp)) + 2) with (Z.of_nat (length inp) + 2 + 1 * 3)
      by (cbn [length]; lia). rewrite Z.div_add by lia.
    rewrite significant_app, significant_codes by (by apply Hg). cbn [map sextets length].
    destruct (72 <=? l + 4).
    + change (significant (10 :: text inp 0)) with (significant (text inp 0)). specialize (IH Hinp 0). lia.
    + specialize (IH Hinp (l + 4)). lia.
Qed.

(** Decoding what [base64_encode] produced gives back the bytes, for every input of
    less than 2^29 bytes, line feeds and padding included; the buffer of the size the
    encoder computes holds the text and its terminator, and the decoder stays in its own. *)
Theorem base64_roundtrip src junk : bytes_ok src → Z.of_nat (length src) < 2 ^ 29 → length junk = 4%nat →
  ∃ enc n out, base64_encode true src = Some (Done enc (Z.of_nat n)) ∧
    enc = take n enc ++ [0] ∧ Z.of_nat (length enc) <= encoded_size (Z.of_nat (length src)) ∧
    base64_decode true junk (take n enc) = Some (Done out (Z.of_nat (length src))) ∧
    take (length src) out = src.
Proof.
  intros Hb Hlen Hj. set (t := text src 0).
  pose proof (length_text src 0 ltac:(lia)) as Ht. cbv zeta in Ht. rewrite Z.add_0_l in Ht.
  pose proof (encoded_size_enough (Z.of_nat (length src)) ltac:(lia)) as Hsz. cbv zeta in Hsz.
  set (c := (Z.of_nat (length src) + 2) / 3) in *. fold t in Ht.
  pose proof (significant_text src Hb 0) as Hsig. fold t c in Hsig.
  destruct (decode_text src Hb 0 (4 * c) junk junk [] Hj Hj) as (inb & block & zs & Hd & He & Hne).
  { fold c. assert (0 <= c) by (apply Z.div_pos; lia). cbn [length]. lia. }
  exists (t ++ [0]), (length t), (src ++ zs). rewrite take_app_length, take_app_length.
  assert (Hfit : Z.of_nat (length (t ++ [0])) <= encoded_size (Z.of_nat (length src)))
    by (rewrite length_app; cbn [length]; lia).
  split_ands; try done.
  - unfold base64_encode. cbn [negb].
    rewrite encode_loop_text by (fold t; rewrite length_app in Hfit; cbn [app length] in *; lia).
    cbn [mbind option_bind app]. fold t. by rewrite emit_fits.
  - unfold base64_decode. assert (Hmod : (significant t mod 4 = 0)%nat).
    { apply Nat2Z.inj. rewrite Nat2Z.inj_mod, Hsig, Z.mul_comm. by apply Z.mod_mul. }
    fold t in Hd. rewrite Hmod, Hsig, Hd. cbn [Nat.eqb negb mbind option_bind d_out d_in app]. do 2 f_equal.
    rewrite length_app. destruct src as [|x src].
    + destruct (He eq_refl) as [_ ->]. done.
    + rewrite (proj2 (Z.ltb_lt _ _)) by (cbn [length]; lia).
      rewrite Hne by done. unfold pad. destruct (_ =? 61); [lia|]. destruct (_ =? 61); lia.
Qed.

Lemma base64_roundtrip_witness :
  ∃ enc n out, base64_encode true [78; 85; 255; 0] = Some (Done enc (Z.of_nat n)) ∧
    enc = take n enc ++ [0] ∧ Z.of_nat (length enc) <= encoded_size 4 ∧
    base64_decode true [1; 2; 3; 4] (take n enc) = Some (Done out 4) ∧ take 4 out = [78; 85; 255; 0].
Proof.
  apply (base64_roundtrip [78; 85; 255; 0] [1; 2; 3; 4]); [repeat constructor; unfold is_byte; lia|cbn; lia|done].
Defined.
