(* ===== verification/Dns.v ===== *)
(** The one-name DNS server of the soft access point: [App/DnsServer/dns_server.c].

    Memory is kept where the code depends on it: the name comparison walks through the
    bytes of the static [DnsServer] structure and through the received message, which is
    an allocated block followed by whatever the heap holds ([ram]).  [None] is a read
    past all of it.  [malloc] and the success of [pbuf_alloc] and [udp_new] are
    arguments; the datagrams a callback sends are its result. *)
From S2P Require Import Prelude CStr Pbuf.

Definition DNSS_ERR_SUCCESS : Z := 0.
Definition DNSS_ERR_LINKDOWN : Z := -1.
Definition DNSS_ERR_PARAM : Z := -2.
Definition DNSS_ERR_MEM : Z := -3.
Definition DNS_DEFAULT_TTL : Z := 3600.
Definition DNS_RRTYPE_A : Z := 1.
Definition DNS_RRCLASS_IN : Z := 1.
Definition DNS_FLAG1_RESPONSE : Z := 0x80.
Definition DNS_FLAG1_OPCODE_STANDARD : Z := 0.
Definition DNS_FLAG2_ERR_NONE : Z := 0.
Definition DNS_FLAG2_ERR_NAME : Z := 3.
Definition DNS_NAME_OFFSET : Z := 0xC000.

(* @ App/DnsServer/dns_server.h:69-75 DNS_SERVER *)
Record DNS_SERVER := DnsServer { dns_socket : Z; dns_name : list Z; dns_hostip : Z }.
(** The bytes of the structure; [DnsName] starts at offset 4. *)
Definition image (s : DNS_SERVER) : list Z :=
  le32 (dns_socket s) ++ dns_name s ++ le32 (dns_hostip s).

(** ** Name comparison *)

(** [while (n > 0)]: [Some None] is the mismatch, otherwise both pointers advanced. *)
(* @ App/DnsServer/dns_server.c:53-64 _DnsCompareName *)
Fixpoint cmp_label (n : nat) (mem : list Z) (MyDns : Z) (Query : list Z)
    : option (option (Z * list Z)) :=
  match n with
  | O => Some (Some (MyDns, Query))
  | S n =>
      Src ← rd mem MyDns; Dest ← head Query;
      if negb (toupper Src =? toupper Dest) then Some None
      else cmp_label n mem (MyDns + 1) (tail Query)
  end.
(* @ App/DnsServer/dns_server.c:69-69 _DnsCompareName *)
Definition cmp_end (mem : list Z) (MyDns : Z) : option Z :=
  c ← rd mem (MyDns - 1); Some (if c =? 0 then 0 else 1).
(* @ App/DnsServer/dns_server.c:41-67 _DnsCompareName *)
Fixpoint cmp_loop (fuel : nat) (mem : list Z) (MyDns : Z) (Query : list Z) : option Z :=
  match fuel with
  | O => None
  | S fuel =>
      n ← head Query; let Query := tail Query in
      if Z.land n 0xc0 =? 0xc0 then cmp_end mem MyDns
      else r ← cmp_label (Z.to_nat n) mem MyDns Query;
           match r with
           | None => Some 1
           | Some (MyDns, Query) =>
               let MyDns := MyDns + 1 in
               c ← head Query;
               if negb (c =? 0) then cmp_loop fuel mem MyDns Query else cmp_end mem MyDns
           end
  end.
(* @ App/DnsServer/dns_server.c:32-70 _DnsCompareName *)
Definition _DnsCompareName (s : DNS_SERVER) (Query : list Z) : option Z :=
  len ← strlen Query;
  if 32 <? u32 (len - 1) then Some 1
  else cmp_loop (S (length Query)) (image s) 4 Query.

(** ** Replies *)

(* @ App/DnsServer/dns_server.h:77-86 DNS_HEADER *)
Record DNS_HEADER := DnsHeader {
  TansactionId : Z; DnsFlag1 : Z; DnsFlag2 : Z; Quentions : Z; AnswerRR : Z;
  AuthorityRR : Z; AdditionalRR : Z }.
Definition header_bytes (h : DNS_HEADER) : list Z :=
  le16 (TansactionId h) ++ [DnsFlag1 h; DnsFlag2 h] ++ le16 (Quentions h) ++ le16 (AnswerRR h)
  ++ le16 (AuthorityRR h) ++ le16 (AdditionalRR h).
(* @ App/DnsServer/dns_server.h:88-92 DNS_QUERY *)
Record DNS_QUERY := DnsQuery { q_Type : Z; q_Class : Z }.
Definition query_bytes (q : DNS_QUERY) : list Z := le16 (q_Type q) ++ le16 (q_Class q).
(* @ App/DnsServer/dns_server.h:94-99 DNS_ANSWER *)
Record DNS_ANSWER := DnsAnswer { a_Type : Z; a_Class : Z; a_Ttl : Z }.
Definition answer_bytes (a : DNS_ANSWER) : list Z :=
  le16 (a_Type a) ++ le16 (a_Class a) ++ le32 (a_Ttl a).

Section reply.
(** [OSMMalloc]: a block of the size asked for, with arbitrary contents, or [NULL]. *)
Context (malloc : Z → option (list Z)) (pbuf_ok : bool).

(** Round a size up to a word, as both generators do. *)
Definition word_size (n : Z) : Z := Z.shiftl (Z.shiftr (n + 3) 2) 2.

(** [pbuf_alloc], [pbuf_take], [udp_sendto], [pbuf_free], [OSMFree]: the datagram is the
    first [Len] bytes of the block. *)
(* @ App/DnsServer/dns_server.c:189-200 _DNSAnswerGenAndSend *)
Definition send (Len : Z) (blk : list Z) : list (list Z) :=
  if pbuf_ok then [take (Z.to_nat Len) blk] else [].

(* @ App/DnsServer/dns_server.c:72-120 _DNSNameErrGenAndSend *)
Definition _DNSNameErrGenAndSend (q : DNS_QUERY) (QueryName : list Z) (id : Z)
    : option (list (list Z)) :=
  n ← strlen QueryName;
  match malloc (word_size (12 + (n + 1) + 4)) with
  | None => Some []
  | Some blk =>
      blk ← memcpy_to 0 (header_bytes (DnsHeader id DNS_FLAG1_RESPONSE DNS_FLAG2_ERR_NAME (htons 1) 0 0 0)) blk;
      blk ← memcpy_to 12 (take (Z.to_nat (n + 1)) QueryName) blk;
      blk ← memcpy_to (12 + (n + 1)) (query_bytes q) blk;
      Some (send (12 + (n + 1) + 4) blk)
  end.
(* @ App/DnsServer/dns_server.c:122-201 _DNSAnswerGenAndSend *)
Definition _DNSAnswerGenAndSend (s : DNS_SERVER) (q : DNS_QUERY) (QueryName : list Z) (id : Z)
    : option (list (list Z)) :=
  n ← strlen QueryName;
  match malloc (word_size (12 + (n + 1) + 4 + 2 + 8 + 2 + 4)) with
  | None => Some []
  | Some blk =>
      blk ← memcpy_to 0 (header_bytes (DnsHeader id DNS_FLAG1_RESPONSE DNS_FLAG2_ERR_NONE (htons 1) (htons 1) 0 0)) blk;
      blk ← memcpy_to 12 (take (Z.to_nat (n + 1)) QueryName) blk;
      let at_ := 12 + (n + 1) in
      blk ← memcpy_to at_ (query_bytes q) blk;
      blk ← memcpy_to (at_ + 4) (le16 (htons (Z.lor DNS_NAME_OFFSET 12))) blk;
      blk ← memcpy_to (at_ + 6) (answer_bytes (DnsAnswer (htons DNS_RRTYPE_A) (htons DNS_RRCLASS_IN)
                                    (htonl DNS_DEFAULT_TTL))) blk;
      blk ← memcpy_to (at_ + 14) (le16 (htons 4)) blk;
      blk ← memcpy_to (at_ + 16) (le32 (dns_hostip s)) blk;
      Some (send (at_ + 20) blk)
  end.

(** ** The receive callback *)

(** The message is copied to a block; [ram] follows it in memory. *)
(* @ App/DnsServer/dns_server.c:221-279 DNSS_RecvCb *)
Definition DNSS_RecvCb (ram : list Z) (P : pbuf) (s : DNS_SERVER) : option (list (list Z)) :=
  match malloc (tot_len P) with
  | None => Some []
  | Some blk =>
      let mem := (pbuf_copy_partial P blk (Z.to_nat (tot_len P)) 0).1 ++ ram in
      f1 ← rd mem 2;
      if negb (Z.land f1 DNS_FLAG1_RESPONSE =? 0) ||
         negb (Z.land f1 (Z.shiftl 0xf 3) =? DNS_FLAG1_OPCODE_STANDARD) then Some []
      else
      id0 ← rd mem 0; id1 ← rd mem 1;
      let pDnsName := drop 12 mem in
      n ← strlen pDnsName;
      b ← memcpy_from (12 + n + 1) 4 mem;
      let q := DnsQuery (of_le16 (byte_at b 0) (byte_at b 1)) (of_le16 (byte_at b 2) (byte_at b 3)) in
      if negb (q_Class q =? htons DNS_RRCLASS_IN) && negb (q_Type q =? htons DNS_RRTYPE_A) then Some []
      else
      r ← _DnsCompareName s pDnsName;
      if negb (r =? 0) then _DNSNameErrGenAndSend q pDnsName (of_le16 id0 id1)
      else _DNSAnswerGenAndSend s q pDnsName (of_le16 id0 id1)
  end.
End reply.

(** ** Configuration *)

(** [memset] and [NST_MOVE_MEM] on the 32-byte field. *)
(* @ App/DnsServer/dns_server.c:303-304 DNSS_Config *)
Definition set_name (DnsName : list Z) : option (list Z) :=
  n ← strlen DnsName; memcpy_to 0 (take (Z.to_nat n) DnsName) (replicate 32 0).
(** [DnsName = None] is the null pointer. *)
(* @ App/DnsServer/dns_server.c:295-307 DNSS_Config *)
Definition DNSS_Config (DnsName : option (list Z)) (s : DNS_SERVER) : option (DNS_SERVER * Z) :=
  match DnsName with
  | None => Some (s, DNSS_ERR_PARAM)
  | Some DnsName =>
      n ← strlen DnsName;
      if 32 <? n then Some (s, DNSS_ERR_PARAM)
      else nm ← set_name DnsName; Some (DnsServer (dns_socket s) nm (dns_hostip s), DNSS_ERR_SUCCESS)
  end.
(** [Netif] is [None] for the null pointer, otherwise whether it is up and its address;
    [new] is what [udp_new] returns.  [udp_bind] and [udp_recv] act on the socket only. *)
(* @ App/DnsServer/dns_server.c:326-356 DNSS_Start *)
Definition DNSS_Start (new : Z) (Netif : option (bool * Z)) (DnsName : list Z) (s : DNS_SERVER)
    : option (DNS_SERVER * Z) :=
  match Netif with
  | None => Some (s, DNSS_ERR_PARAM)
  | Some (up, ip_addr) =>
      n ← strlen DnsName;
      if 32 <? n then Some (s, DNSS_ERR_PARAM)
      else if negb up then Some (s, DNSS_ERR_LINKDOWN)
      else nm ← set_name DnsName;
           Some (DnsServer new nm ip_addr, if new =? 0 then DNSS_ERR_MEM else DNSS_ERR_SUCCESS)
  end.
(** [udp_remove] frees the socket; the pointer stays as it is. *)
(* @ App/DnsServer/dns_server.c:371-374 DNSS_Stop *)
Definition DNSS_Stop (s : DNS_SERVER) : DNS_SERVER * bool := (s, negb (dns_socket s =? 0)).

(** ** Names on the wire *)

(** A query name: each label preceded by its length, a zero byte at the end. *)
Definition labels_bytes (ls : list (list Z)) : list Z :=
  concat (map (λ l, Z.of_nat (length l) :: l) ls).
Definition encode_name (ls : list (list Z)) : list Z := labels_bytes ls ++ [0].
Definition label_ok (l : list Z) : Prop := (1 <= length l < 64)%nat ∧ Forall (.≠ 0) l.
(** A name as the configuration holds it: labels separated by dots. *)
Fixpoint dotted (ls : list (list Z)) : list Z :=
  match ls with [] => [] | [l] => l | l :: ls => l ++ 46 :: dotted ls end.

Definition same_label (a b : list Z) : bool := bool_decide (map toupper a = map toupper b).
(** What the comparison accepts: label by label, without regard to case, the byte after
    each label but the last being skipped whatever it is, a zero after the last one. *)
Fixpoint name_match (my : list Z) (ls : list (list Z)) : bool :=
  match ls with
  | [] => false
  | [l] => same_label (take (length l) my) l && (my !!! length l =? 0)
  | l :: ls => same_label (take (length l) my) l && name_match (drop (S (length l)) my) ls
  end.

Lemma labels_nonzero ls : Forall label_ok ls → Forall (.≠ 0) (labels_bytes ls).
Proof.
  intros H. unfold labels_bytes. induction H as [|l ls [Hl Hnz] _ IH]; [done|].
  cbn [map concat app]. constructor; [lia|]. by apply Forall_app.
Qed.
Lemma strlen_encode ls tl : Forall label_ok ls →
  strlen (encode_name ls ++ tl) = Some (Z.of_nat (length (labels_bytes ls))).
Proof.
  intros H. apply strlen_holds. split; [by apply labels_nonzero|]. exists tl.
  unfold encode_name. by rewrite <- app_assoc.
Qed.

Lemma cmp_label_spec l : ∀ mem (my : nat) tl, (my + length l <= length mem)%nat →
  cmp_label (length l) mem (Z.of_nat my) (l ++ tl) =
  Some (if same_label (slice my (length l) mem) l
        then Some (Z.of_nat (my + length l), tl) else None).
Proof.
  induction l as [|c l IH]; intros mem my tl Hl; cbn [length cmp_label app].
  - by rewrite Nat.add_0_r.
  - cbn [length] in Hl. destruct (lookup_lt_is_Some_2 mem my ltac:(lia)) as [x Hx].
    rewrite (rd_lookup _ _ _ Hx). cbn [mbind option_bind head tail]. unfold slice, same_label.
    rewrite (drop_S _ _ _ Hx). cbn [take map].
    destruct (Z.eqb_spec (toupper x) (toupper c)) as [He|Hne]; cbn [negb].
    + replace (Z.of_nat my + 1) with (Z.of_nat (S my)) by lia. rewrite IH by lia. f_equal.
      unfold same_label, slice. rewrite He.
      replace (S my + length l)%nat with (my + S (length l))%nat by lia.
      assert (Hb : bool_decide (toupper c :: map toupper (take (length l) (drop (S my) mem))
                     = toupper c :: map toupper l)
                   = bool_decide (map toupper (take (length l) (drop (S my) mem)) = map toupper l)).
      { apply bool_decide_ext. split; [by intros [= ?]|by intros ->]. }
      by rewrite Hb.
    + rewrite bool_decide_false; [done|]. by intros [= ? ?].
Qed.

Lemma land_c0_small n : 0 <= n < 64 → Z.land n 0xc0 =? 0xc0 = false.
Proof.
  intros Hn. assert (H : Forall (λ n, Z.land n 0xc0 =? 0xc0 = false) (seqZ 0 64))
    by (vm_compute; repeat constructor).
  apply (proj1 (Forall_forall _ _) H). apply elem_of_seqZ. lia.
Qed.
Lemma cmp_loop_spec ls : ∀ fuel mem (my : nat) tl, Forall label_ok ls → ls ≠ [] →
  (length ls < fuel)%nat → (my + length (labels_bytes ls) <= length mem)%nat →
  cmp_loop fuel mem (Z.of_nat my) (encode_name ls ++ tl) = Some (bz (negb (name_match (drop my mem) ls))).
Proof.
  induction ls as [|l ls IH]; intros fuel mem my tl Hok Hne Hf Hl; [done|].
  apply Forall_cons in Hok as [[Hlen Hnz] Hok]. destruct fuel as [|fuel]; [cbn in Hf; lia|].
  unfold encode_name, labels_bytes in *. cbn [map concat app length] in Hl |- *.
  rewrite length_app in Hl. cbn [cmp_loop head tail mbind option_bind].
  rewrite land_c0_small, Nat2Z.id by lia. rewrite <- !app_assoc, cmp_label_spec by lia.
  cbn [mbind option_bind]. unfold slice. replace (name_match (drop my mem) (l :: ls)) with
    (same_label (take (length l) (drop my mem)) l &&
     match ls with [] => drop my mem !!! length l =? 0
     | _ => name_match (drop (S (length l)) (drop my mem)) ls end) by (by destruct ls).
  destruct (same_label _ _); cbn [andb]; [|done].
  destruct ls as [|l' ls].
  - cbn [map concat app head mbind option_bind Z.eqb negb]. unfold cmp_end.
    replace (Z.of_nat (my + length l) + 1 - 1) with (Z.of_nat (my + length l)) by lia.
    destruct (lookup_lt_is_Some_2 mem (my + length l) ltac:(cbn in Hl; lia)) as [x Hx].
    rewrite (rd_lookup _ _ _ Hx). cbn [mbind option_bind].
    assert (Hd : drop my mem !!! length l = x).
    { apply list_lookup_total_correct. by rewrite lookup_drop. }
    rewrite Hd. by destruct (x =? 0).
  - apply Forall_cons_1 in Hok as Hok'. destruct Hok' as [[Hlen' _] _].
    cbn [map concat app head mbind option_bind]. rewrite (proj2 (Z.eqb_neq _ 0)) by lia. cbn [negb].
    replace (Z.of_nat (my + length l) + 1) with (Z.of_nat (my + S (length l))) by lia.
    specialize (IH fuel mem (my + S (length l))%nat tl Hok ltac:(done)).
    cbn [map concat app length] in IH, Hl, Hf. rewrite <- app_assoc in IH.
    rewrite <- app_assoc. cbn [app] in IH |- *. rewrite drop_drop.
    rewrite <- app_assoc in IH. rewrite IH; [done| |]; lia.
Qed.

(** A server whose name field and address are as declared. *)
Definition server_ok (s : DNS_SERVER) : Prop := length (dns_name s) = 32%nat.
Lemma length_image s : server_ok s → length (image s) = 40%nat.
Proof. intros H. unfold image. rewrite !length_app, H. reflexivity. Qed.
Lemma drop_image s : drop 4 (image s) = dns_name s ++ le32 (dns_hostip s).
Proof. reflexivity. Qed.

Definition accepts_name (s : DNS_SERVER) (ls : list (list Z)) : bool :=
  (Z.of_nat (length (labels_bytes ls)) <=? 33) && name_match (drop 4 (image s)) ls.

Lemma length_labels ls : (length ls <= length (labels_bytes ls))%nat.
Proof. unfold labels_bytes. induction ls; cbn; [lia|]. rewrite length_app. lia. Qed.

Lemma DnsCompareName_spec s ls tl : server_ok s → Forall label_ok ls → ls ≠ [] →
  Z.of_nat (length (labels_bytes ls)) < 2 ^ 32 →
  _DnsCompareName s (encode_name ls ++ tl) = Some (bz (negb (accepts_name s ls))).
Proof.
  intros Hs Hok Hne Hlt. unfold _DnsCompareName, accepts_name.
  rewrite (strlen_encode ls tl Hok). cbn [mbind option_bind].
  assert (1 <= length (labels_bytes ls))%nat by (pose proof (length_labels ls); destruct ls; cbn [length] in *; [done|lia]).
  rewrite u32_small by (unfold is_u32; lia).
  destruct (Z.ltb_spec 32 (Z.of_nat (length (labels_bytes ls)) - 1)).
  - by rewrite (proj2 (Z.leb_gt _ _)) by lia.
  - rewrite (proj2 (Z.leb_le _ _)) by lia. cbn [andb].
    pose proof (length_labels ls).
    apply (cmp_loop_spec ls _ (image s) 4 tl); [done|done| |rewrite length_image by done; lia].
    unfold encode_name. rewrite !length_app. lia.
Qed.

Lemma name_match_dotted ms : ∀ ls rest, Forall label_ok ls → ls ≠ [] →
  map (map toupper) ls = map (map toupper) ms → name_match (dotted ms ++ 0 :: rest) ls = true.
Proof.
  induction ms as [|m ms IH]; intros [|l ls] rest Hok Hne Heq; try done.
  injection Heq as Hl Hls. assert (Hlen : length l = length m).
  { rewrite <- (length_map toupper l), <- (length_map toupper m). by rewrite Hl. }
  apply Forall_cons in Hok as [_ Hok].
  destruct ls as [|l' ls], ms as [|m' ms]; try done.
  - cbn [dotted name_match]. rewrite Hlen, take_app_length. unfold same_label.
    rewrite bool_decide_true by done. cbn [andb].
    by rewrite list_lookup_total_middle.
  - change (dotted (m :: m' :: ms)) with (m ++ 46 :: dotted (m' :: ms)).
    change (name_match ?my (l :: l' :: ls)) with
      (same_label (take (length l) my) l && name_match (drop (S (length l)) my) (l' :: ls)).
    rewrite <- app_assoc, Hlen, take_app_length. unfold same_label at 1.
    rewrite bool_decide_true by done. cbn [andb app].
    replace (S (length m)) with (length m + 1)%nat by lia. rewrite <- drop_drop, drop_app_length. cbn [drop].
    by apply IH.
Qed.

Lemma set_name_spec nm tl : Forall (.≠ 0) nm → (length nm <= 32)%nat →
  set_name (nm ++ 0 :: tl) = Some (nm ++ replicate (32 - length nm) 0).
Proof.
  intros Hnz Hl. unfold set_name. rewrite (strlen_holds _ nm) by (split; eauto).
  cbn [mbind option_bind]. rewrite Nat2Z.id, take_app_length, memcpy_to_Some by (rewrite ?length_replicate; lia).
  unfold store_at. cbn [Z.to_nat take app]. rewrite drop_replicate. f_equal.
Qed.
Lemma dotted_nonzero ms : Forall label_ok ms → Forall (.≠ 0) (dotted ms).
Proof.
  intros H. induction H as [|m ms [_ Hm] Hms IH]; [done|]. destruct ms as [|m' ms]; [done|].
  change (dotted (m :: m' :: ms)) with (m ++ 46 :: dotted (m' :: ms)).
  apply Forall_app. split; [done|]. by constructor.
Qed.
Lemma length_dotted ms : ms ≠ [] → S (length (dotted ms)) = length (labels_bytes ms).
Proof.
  intros Hne. induction ms as [|m ms IH]; [done|]. destruct ms as [|m' ms].
  - cbn. by rewrite app_nil_r.
  - change (dotted (m :: m' :: ms)) with (m ++ 46 :: dotted (m' :: ms)).
    unfold labels_bytes in *. rewrite length_app. cbn [map concat length] in *.
    rewrite length_app. rewrite IH by done. cbn [length app]. rewrite length_app. lia.
Qed.
Lemma length_labels_upper ls ms : map (map toupper) ls = map (map toupper) ms →
  length (labels_bytes ls) = length (labels_bytes ms).
Proof.
  revert ms. induction ls as [|l ls IH]; intros [|m ms] H; try done. injection H as Hl Hls.
  unfold labels_bytes in *. cbn [map concat length]. rewrite !length_app, (IH ms Hls).
  cbn [length]. rewrite <- (length_map toupper l), Hl, length_map. done.
Qed.

(** A server started with the dotted name [ms] (at most 31 characters, network up,
    socket available) recognises the query for that name in any mix of upper and lower
    case, whatever follows the name in the message. *)
Theorem DNSS_Start_knows_own_name new ip ms ls tl tl' s0 : Forall label_ok ms → Forall label_ok ls →
  ms ≠ [] → map (map toupper) ls = map (map toupper) ms → (length (dotted ms) <= 31)%nat → new ≠ 0 →
  ∃ s, DNSS_Start new (Some (true, ip)) (dotted ms ++ 0 :: tl) s0 = Some (s, DNSS_ERR_SUCCESS) ∧
    _DnsCompareName s (encode_name ls ++ tl') = Some 0.
Proof.
  intros Hms Hls Hne Heq Hlen Hnew. unfold DNSS_Start.
  pose proof (dotted_nonzero ms Hms) as Hnz.
  rewrite (strlen_holds _ (dotted ms)) by (split; eauto). cbn [mbind option_bind negb].
  rewrite (proj2 (Z.ltb_ge _ _)) by lia. rewrite set_name_spec by (done || lia).
  cbn [mbind option_bind]. rewrite (proj2 (Z.eqb_neq new 0)) by done. eexists. split; [done|].
  assert (Hne' : ls ≠ []) by (intros ->; by destruct ms).
  pose proof (length_dotted ms Hne). pose proof (length_labels_upper ls ms Heq).
  rewrite DnsCompareName_spec; [| |done|done|lia].
  - unfold accepts_name. rewrite (proj2 (Z.leb_le _ _)) by lia. rewrite drop_image. cbn [andb dns_name].
    replace (32 - length (dotted ms))%nat with (S (31 - length (dotted ms))) by lia.
    cbn [replicate]. rewrite <- app_assoc. cbn [app]. by rewrite name_match_dotted.
  - unfold server_ok. cbn [dns_name]. rewrite length_app, length_replicate. lia.
Qed.

Lemma DNSS_Start_knows_own_name_witness :
  ∃ s, DNSS_Start 0x20001000 (Some (true, 0x010A0A0A)) (dotted [[97; 98]; [99]] ++ 0 :: [7])
         (DnsServer 0 [] 0) = Some (s, DNSS_ERR_SUCCESS) ∧
    _DnsCompareName s (encode_name [[65; 98]; [67]] ++ [1; 2]) = Some 0.
Proof.
  apply (DNSS_Start_knows_own_name 0x20001000 0x010A0A0A [[97; 98]; [99]] [[65; 98]; [67]] [7] [1; 2]);
    [repeat constructor; cbn; lia|repeat constructor; cbn; lia|discriminate|vm_compute; reflexivity
    |cbn; lia|lia].
Defined.

(** ** What goes out *)

(** Consecutive stores from the start of a block fill it from the left. *)
Lemma memcpy_to_extend xs pre blk i : (length pre + length xs <= length blk)%nat → i = Z.of_nat (length pre) →
  memcpy_to i xs (pre ++ drop (length pre) blk) = Some ((pre ++ xs) ++ drop (length (pre ++ xs)) blk).
Proof.
  intros Hl ->. rewrite memcpy_to_Some by (rewrite ?length_app, ?length_drop; lia). f_equal.
  unfold store_at. rewrite Nat2Z.id, take_app_length, <- app_assoc. do 2 f_equal.
  rewrite drop_app_ge, drop_drop by lia. rewrite length_app. f_equal. lia.
Qed.
Lemma memcpy_to_first xs blk : (length xs <= length blk)%nat →
  memcpy_to 0 xs blk = Some (xs ++ drop (length xs) blk).
Proof. intros Hl. apply (memcpy_to_extend xs [] blk 0); [cbn; lia|done]. Qed.
Lemma byte_of_of_le16 a b : is_byte a → is_byte b → le16 (of_le16 a b) = [a; b].
Proof.
  intros Ha Hb. assert (H : of_le16 a b = of_le32 a b 0 0).
  { unfold of_le16, of_le32. by rewrite !Z.shiftl_0_l, !Z.lor_0_r. }
  destruct (byte_of_of_le32 a b 0 0 Ha Hb) as (H0 & H1 & _); [unfold is_byte; lia..|].
  unfold le16. rewrite H, H0, H1. done.
Qed.

Section replies.
Context (malloc : Z → option (list Z)).
(** The allocator's contract: a block of the size asked for. *)
Context (malloc_size : ∀ n, 0 <= n → ∃ b, malloc n = Some b ∧ length b = Z.to_nat n).

Lemma word_size_ge n : 0 <= n → n <= word_size n.
Proof.
  intros Hn. unfold word_size. rewrite Z.shiftl_mul_pow2, Z.shiftr_div_pow2 by lia.
  change (2 ^ 2) with 4. pose proof (Z.div_mod (n + 3) 4). pose proof (Z.mod_pos_bound (n + 3) 4). lia.
Qed.

Definition error_reply (id : list Z) (name question : list Z) : list Z :=
  id ++ [0x80; 3; 0; 1; 0; 0; 0; 0; 0; 0] ++ name ++ question.
Definition answer_reply (id : list Z) (name question : list Z) (ip : Z) : list Z :=
  id ++ [0x80; 0; 0; 1; 0; 1; 0; 0; 0; 0] ++ name ++ question
  ++ [0xC0; 12] ++ [0; 1; 0; 1; 0; 0; 0x0E; 0x10] ++ [0; 4] ++ le32 ip.

Context (ls : list (list Z)) (Hok : Forall label_ok ls) (tl : list Z) (q : DNS_QUERY) (id : Z).
Lemma take_name : take (Z.to_nat (Z.of_nat (length (labels_bytes ls)) + 1)) (encode_name ls ++ tl) = encode_name ls.
Proof.
  apply take_app_length'. unfold encode_name. rewrite length_app. cbn [length]. lia.
Qed.
Lemma length_encode : Z.of_nat (length (encode_name ls)) = Z.of_nat (length (labels_bytes ls)) + 1.
Proof. unfold encode_name. rewrite length_app. cbn [length]. lia. Qed.

Lemma name_error_sent :
  _DNSNameErrGenAndSend malloc true q (encode_name ls ++ tl) id =
  Some [error_reply (le16 id) (encode_name ls) (query_bytes q)].
Proof.
  unfold _DNSNameErrGenAndSend. rewrite (strlen_encode ls tl Hok). cbn [mbind option_bind].
  set (n := Z.of_nat (length (labels_bytes ls))).
  pose proof (word_size_ge (12 + (n + 1) + 4) ltac:(lia)) as Hw. pose proof length_encode as He. fold n in He.
  destruct (malloc_size (word_size (12 + (n + 1) + 4)) ltac:(lia)) as (blk & -> & Hb).
  rewrite memcpy_to_first by (cbn [length app header_bytes]; change (length (header_bytes _)) with 12%nat; lia).
  cbn [mbind option_bind]. rewrite (take_name : take (Z.to_nat (n + 1)) _ = _).
  set (h := header_bytes _). assert (Hh : length h = 12%nat) by reflexivity.
  rewrite memcpy_to_extend by (rewrite ?Hh; lia). cbn [mbind option_bind].
  rewrite memcpy_to_extend by (rewrite ?length_app, ?Hh; change (length (query_bytes q)) with 4%nat; lia).
  cbn [mbind option_bind]. unfold send. do 2 f_equal.
  rewrite take_app_length' by (rewrite !length_app, Hh; change (length (query_bytes q)) with 4%nat; lia).
  rewrite <- app_assoc. reflexivity.
Qed.
Lemma answer_sent s :
  _DNSAnswerGenAndSend malloc true s q (encode_name ls ++ tl) id =
  Some [answer_reply (le16 id) (encode_name ls) (query_bytes q) (dns_hostip s)].
Proof.
  unfold _DNSAnswerGenAndSend. rewrite (strlen_encode ls tl Hok). cbn [mbind option_bind].
  set (n := Z.of_nat (length (labels_bytes ls))).
  pose proof (word_size_ge (12 + (n + 1) + 4 + 2 + 8 + 2 + 4) ltac:(lia)) as Hw.
  pose proof length_encode as He. fold n in He.
  destruct (malloc_size (word_size (12 + (n + 1) + 4 + 2 + 8 + 2 + 4)) ltac:(lia)) as (blk & -> & Hb).
  rewrite memcpy_to_first by (change (length (header_bytes _)) with 12%nat; lia).
  cbn [mbind option_bind]. rewrite (take_name : take (Z.to_nat (n + 1)) _ = _).
  set (h := header_bytes _). assert (Hh : length h = 12%nat) by reflexivity.
  set (a := answer_bytes _). assert (Ha : length a = 8%nat) by reflexivity.
  assert (Hq : length (query_bytes q) = 4%nat) by reflexivity.
  assert (H16 : ∀ x, length (le16 x) = 2%nat) by reflexivity.
  assert (H32 : ∀ x, length (le32 x) = 4%nat) by reflexivity.
  do 6 (rewrite memcpy_to_extend by (rewrite ?length_app, ?Hh, ?Ha, ?Hq, ?H16, ?H32; lia);
    cbn [mbind option_bind]).
  unfold send. do 2 f_equal.
  rewrite take_app_length' by (rewrite !length_app, ?Hh, ?Ha, ?Hq, ?H16, ?H32; lia).
  rewrite <- !app_assoc. reflexivity.
Qed.
End replies.

(** A query datagram: transaction id, flags, four counts, the name, type and class,
    anything after it. *)
Definition query_message (id0 id1 f1 f2 : Z) (counts : list Z) (ls : list (list Z)) (t0 t1 c0 c1 : Z)
    (extra : list Z) : list Z :=
  [id0; id1; f1; f2] ++ counts ++ encode_name ls ++ [t0; t1; c0; c1] ++ extra.

Lemma copied_message P blk : length blk = Z.to_nat (tot_len P) →
  (pbuf_copy_partial P blk (Z.to_nat (tot_len P)) 0).1 = concat P.
Proof.
  unfold tot_len. intros Hb. rewrite pbuf_copy_partial_0. cbn [fst].
  rewrite Nat2Z.id in *. rewrite firstn_all. unfold store_at. cbn [take app Nat.add].
  rewrite drop_ge by lia. by rewrite app_nil_r.
Qed.

Lemma of_le16_htons1 a b : is_byte a → is_byte b →
  (of_le16 a b =? htons 1) = bool_decide ([a; b] = [0; 1]).
Proof.
  intros Ha Hb. destruct (Z.eqb_spec (of_le16 a b) (htons 1)) as [H|H].
  - rewrite bool_decide_true; [done|]. rewrite <- byte_of_of_le16, H by done. reflexivity.
  - rewrite bool_decide_false; [done|]. intros [= -> ->]. by apply H.
Qed.

(** C33: [DNSS_RecvCb] on any standard query, however the stack has segmented it and
    whatever lies behind it in memory, sends exactly one datagram when memory is
    available and the class is IN or the type is A: the address record for the server's
    own address when the name is accepted, the name error otherwise; both repeat the
    transaction id and the question.  A response or another opcode is ignored. *)
Theorem DNSS_RecvCb_replies malloc ram P s id0 id1 f1 f2 counts ls t0 t1 c0 c1 extra :
  (∀ n, 0 <= n → ∃ b, malloc n = Some b ∧ length b = Z.to_nat n) → server_ok s →
  concat P = query_message id0 id1 f1 f2 counts ls t0 t1 c0 c1 extra →
  bytes_ok [id0; id1; f1; f2; t0; t1; c0; c1] → length counts = 8%nat → Forall label_ok ls → ls ≠ [] →
  Z.of_nat (length (labels_bytes ls)) < 2 ^ 32 →
  DNSS_RecvCb malloc true ram P s = Some
    (if negb (Z.land f1 0x80 =? 0) || negb (Z.land f1 0x78 =? 0) then []
     else if negb (bool_decide ([c0; c1] = [0; 1])) && negb (bool_decide ([t0; t1] = [0; 1])) then []
     else [if accepts_name s ls
           then answer_reply [id0; id1] (encode_name ls) [t0; t1; c0; c1] (dns_hostip s)
           else error_reply [id0; id1] (encode_name ls) [t0; t1; c0; c1]]).
Proof.
  intros Hmalloc Hs HP Hby Hcounts Hok Hne Hlt. unfold DNSS_RecvCb.
  destruct (Hmalloc (tot_len P)) as (blk & -> & Hblk); [unfold tot_len; lia|].
  rewrite copied_message, HP by done. set (after := [t0; t1; c0; c1] ++ extra ++ ram).
  explode counts Hcounts. set (mem := query_message _ _ _ _ _ _ _ _ _ _ _ ++ ram).
  assert (Hmem : drop 12 mem = encode_name ls ++ after).
  { unfold mem, query_message, after. cbn [app drop]. by rewrite <- !app_assoc. }
  assert (H2 : rd mem 2 = Some f1) by (by apply (rd_lookup mem 2)).
  assert (H0 : rd mem 0 = Some id0) by (by apply (rd_lookup mem 0)).
  assert (H1 : rd mem 1 = Some id1) by (by apply (rd_lookup mem 1)).
  rewrite H2. cbn [mbind option_bind]. change (Z.land f1 (Z.shiftl 15 3)) with (Z.land f1 0x78).
  unfold DNS_FLAG1_RESPONSE, DNS_FLAG1_OPCODE_STANDARD. destruct (_ || _); [done|].
  rewrite H0, H1. cbn [mbind option_bind]. cbv zeta. rewrite Hmem, (strlen_encode ls after Hok).
  cbn [mbind option_bind].
  assert (Hq : memcpy_from (12 + Z.of_nat (length (labels_bytes ls)) + 1) 4 mem = Some [t0; t1; c0; c1]).
  { assert (Hlen : (length (labels_bytes ls) + 17 <= length mem)%nat).
    { unfold mem, query_message, encode_name. rewrite !length_app. cbn [length]. lia. }
    rewrite memcpy_from_Some by lia. unfold slice.
    replace (Z.to_nat (12 + Z.of_nat (length (labels_bytes ls)) + 1))
      with (12 + length (encode_name ls))%nat by (unfold encode_name; rewrite length_app; cbn [length]; lia).
    by rewrite <- drop_drop, Hmem, drop_app_length. }
  rewrite Hq. cbn [mbind option_bind].
  change (byte_at _ 0) with t0. change (byte_at _ 1) with t1.
  change (byte_at _ 2) with c0. change (byte_at _ 3) with c1. cbn [q_Class q_Type].
  rewrite !Forall_cons in Hby. destruct Hby as (Bi0 & Bi1 & _ & _ & Bt0 & Bt1 & Bc0 & Bc1 & _).
  unfold DNS_RRCLASS_IN, DNS_RRTYPE_A. rewrite !of_le16_htons1 by done.
  destruct (negb (bool_decide ([c0; c1] = [0; 1])) && _); [done|].
  rewrite (DnsCompareName_spec s ls after Hs Hok Hne Hlt). cbn [mbind option_bind].
  assert (Hqb : query_bytes (DnsQuery (of_le16 t0 t1) (of_le16 c0 c1)) = [t0; t1; c0; c1]).
  { unfold query_bytes. cbn [q_Type q_Class]. by rewrite !byte_of_of_le16. }
  destruct (accepts_name s ls); cbn [negb bz Z.eqb].
  - by rewrite (answer_sent malloc Hmalloc ls Hok after), byte_of_of_le16, Hqb.
  - by rewrite (name_error_sent malloc Hmalloc ls Hok after), byte_of_of_le16, Hqb.
Qed.

Definition demo_malloc (n : Z) : option (list Z) := Some (replicate (Z.to_nat n) 0xAA).
Definition demo_server : DNS_SERVER :=
  DnsServer 0x20001000 ([97; 98; 46; 99] ++ replicate 28 0) (0x010A0A0A).
(** A mail-exchanger query of class IN for the server's own name gets an address. *)
Definition demo_query : pbuf :=
  [[0x12; 0x34; 1; 0; 0; 1; 0; 0; 0; 0; 0; 0; 2]; [65; 66; 1; 67; 0; 0; 15; 0; 1]].
Lemma DNSS_RecvCb_replies_witness :
  DNSS_RecvCb demo_malloc true [] demo_query demo_server = Some
    [[0x12; 0x34; 0x80; 0; 0; 1; 0; 1; 0; 0; 0; 0] ++ [2; 65; 66; 1; 67; 0; 0; 15; 0; 1]
     ++ [0xC0; 12; 0; 1; 0; 1; 0; 0; 0x0E; 0x10; 0; 4; 10; 10; 10; 1]].
Proof.
  apply (DNSS_RecvCb_replies demo_malloc [] demo_query demo_server 0x12 0x34 1 0 [0; 1; 0; 0; 0; 0; 0; 0]
           [[65; 66]; [67]] 0 15 0 1 []); try reflexivity.
  - intros n Hn. exists (replicate (Z.to_nat n) 0xAA). split; [reflexivity|apply length_replicate].
  - repeat constructor; unfold is_byte; lia.
  - repeat constructor; cbn; lia.
  - discriminate.
Defined.
