(* ===== verification/SimuUart.v ===== *)
(** The serial ports: the UART simulated with GPIO pins and timers
    ([Device/simu_uart.c]) and the driver above it ([System/nuagent_uart.c]).

    Both are clients of a byte queue, so they are written and verified against the
    interface [ByteFifo] of RingBuffer.v; the ring buffer is its instance.  Interrupt
    handlers are functions of the state; the level of the receive pin is an argument,
    the level of the transmit pin part of the state.  Timer 0 paces the receiver, timer 1
    the transmitter: both reload themselves, so only whether they are running matters
    between interrupts. *)
From S2P Require Import Prelude RingBuffer.

Definition UART_RECV_BUF_SIZE : Z := 512.

Section uart.
Context {Q : Type} {fifo : ByteFifo Q}.

(** ** Transmitter *)

(* @ App/NuAgent/Device/simu_uart.c:29-37 send_one_byte *)
Record tx_state := Tx {
  tx_byte : Z; tx_bit : Z; tx_over_flag : Z; SimuUartTxBuf : Q;
  tx_line : bool; tx_timer : bool }.

(** [ring] is the buffer [ring_buf_alloc] prepares; the pin is driven high. *)
(* @ App/NuAgent/Device/simu_uart.c:47-63 simu_uart_tx_init *)
Definition simu_uart_tx_init (ring : Q) (timer : bool) : tx_state := Tx 0 0 0 ring true timer.

(** One interrupt of timer 1. *)
(* @ App/NuAgent/Device/simu_uart.c:65-102 SimuUartOutPut *)
Definition SimuUartOutPut (st : tx_state) : option tx_state :=
  if negb (tx_over_flag st =? 0) then
    let '(line, over) :=
      if tx_bit st =? 0 then (false, tx_over_flag st)
      else if tx_bit st <? 9 then
        (negb (Z.land (Z.shiftr (tx_byte st) (tx_bit st - 1)) 1 =? 0), tx_over_flag st)
      else (true, 0) in
    Some (Tx (tx_byte st) (u8 (tx_bit st + 1)) over (SimuUartTxBuf st) line (tx_timer st))
  else if negb (fifo_is_empty (SimuUartTxBuf st)) then
    '(q, xs, _) ← fifo_pop (SimuUartTxBuf st) 1;
    Some (Tx (xs !!! 0%nat) 0 1 q (tx_line st) (tx_timer st))
  else Some (Tx (tx_byte st) (tx_bit st) (tx_over_flag st) (SimuUartTxBuf st) true false).

(** The byte is dropped when the buffer is full: the result of the write is ignored. *)
(* @ App/NuAgent/Device/simu_uart.c:104-107 SimuSendOneByte *)
Definition SimuSendOneByte (ch : Z) (st : tx_state) : option tx_state :=
  '(q, _) ← fifo_push (SimuUartTxBuf st) ch;
  Some (Tx (tx_byte st) (tx_bit st) (tx_over_flag st) q (tx_line st) (tx_timer st)).

(** ** Receiver *)

(** [rx_irq]: the pin interrupt is enabled; [rx_timer]: timer 0 is running;
    [rx_posts]: the posts to [recv_sem] so far. *)
(* @ App/NuAgent/Device/simu_uart.c:39-42 data_cnt *)
Record rx_state := Rx {
  data_cnt : Z; rx_byte : Z; recv_stop_flag : Z; bytes_cnt : Z;
  rx_irq : bool; rx_timer : bool; uartrxbuf : Q; rx_posts : nat }.

(** The driver's side of a received byte. *)
(* @ App/NuAgent/System/nuagent_uart.c:76-83 uart_data_recv *)
Definition uart_data_recv (Dummy : Z) (q : Q) : option (Q * nat) :=
  '(q, _) ← fifo_push q Dummy;
  Some (q, if UART_RECV_BUF_SIZE / 2 <=? fifo_count q then 1%nat else 0%nat).

(** One interrupt of timer 0, with [gpio_value] the level of the pin. *)
(* @ App/NuAgent/Device/simu_uart.c:139-187 simu_uart_timer_task *)
Definition simu_uart_timer_task (gpio_value : bool) (st : rx_state) : option (rx_state * Z) :=
  let '(Rx cnt byte stop bytes irq tmr q posts) := st in
  let continue byte := Some (Rx (i32 (cnt + 1)) byte stop bytes irq true q posts, 0) in
  if stop =? 0 then
    if cnt =? 0 then
      if gpio_value then Some (Rx cnt byte 1 bytes true tmr q posts, -1) else continue 0
    else if (1 <=? cnt) && (cnt <=? 8) then
      let byte := Z.shiftr byte 1 in
      continue (if gpio_value then Z.lor byte 0x80 else byte)
    else if 9 <=? cnt then
      '(q, post) ← (if gpio_value then uart_data_recv byte q else Some (q, 0%nat));
      let bytes := u32 (bytes + 1) in
      if 8 <? bytes
      then Some (Rx 0 byte 0 0 true false q (posts + post)%nat, 0)
      else Some (Rx 0 byte stop bytes irq tmr q (posts + post)%nat, 0)
    else continue byte
  else Some (st, 0).

(** The falling edge; [it_set] is what [EXTI_GetITStatus] reports. *)
(* @ App/NuAgent/Device/simu_uart.c:189-218 Simu_UartIRQ_Func *)
Definition Simu_UartIRQ_Func (it_set gpio_value : bool) (st : rx_state) : rx_state :=
  let '(Rx cnt byte stop bytes _ tmr q posts) := st in
  if it_set && negb gpio_value then Rx 0 byte 0 0 false true q posts
  else Rx cnt byte stop bytes true false q posts.

(** ** Driver *)

(** [uart_type = 1] is the real port: its bytes go to the peripheral. *)
(* @ App/NuAgent/System/nuagent_uart.c:51-57 uart_data_send *)
Fixpoint send_loop (uart_type : Z) (data : list Z) (st : tx_state) (usart : list Z)
    : option (tx_state * list Z) :=
  match data with
  | [] => Some (st, usart)
  | b :: data =>
      if uart_type =? 1 then send_loop uart_type data st (usart ++ [b])
      else st ← SimuSendOneByte b st; send_loop uart_type data st usart
  end.
(* @ App/NuAgent/System/nuagent_uart.c:47-67 uart_data_send *)
Definition uart_data_send (data : list Z) (len : nat) (uart_type : Z) (st : tx_state)
    : option (tx_state * list Z) :=
  '(st, out) ← send_loop uart_type (take len data) st [];
  Some (if uart_type =? 0
        then Tx (tx_byte st) (tx_bit st) (tx_over_flag st) (SimuUartTxBuf st) (tx_line st) true
        else st, out).

(** The periodic software timer. *)
(* @ App/NuAgent/System/nuagent_uart.c:93-98 uart_recv_timer_handle *)
Definition uart_recv_timer_handle (st : rx_state) : rx_state :=
  let '(Rx cnt byte stop bytes irq tmr q posts) := st in
  if 0 <? fifo_count q then Rx cnt byte stop bytes irq tmr q (S posts) else st.

(** One round of the receive task after [OSSemPend] returned: [recv_data] is filled with
    the queued bytes. *)
(* @ App/NuAgent/System/nuagent_uart.c:149-156 UartTaskThread *)
Definition UartTask_round (recv_data : list Z) (st : rx_state) : option (list Z * Z * rx_state) :=
  let '(Rx cnt byte stop bytes irq tmr q posts) := st in
  let recv_size := u16 (fifo_count q) in
  if 0 <? recv_size then
    recv_data ← memcpy_to 0 (replicate (Z.to_nat UART_RECV_BUF_SIZE) 0) recv_data;
    '(q, xs, _) ← fifo_pop q recv_size;
    recv_data ← memcpy_to 0 xs recv_data;
    Some (recv_data, recv_size, Rx cnt byte stop bytes irq tmr q posts)
  else Some (recv_data, recv_size, st).

(** ** The wire

    One bit time of a line from the transmitter to the receiver: timer 1 ticks and the
    transmitter drives its pin; a falling edge interrupts the receiver when it listens;
    in the middle of the bit timer 0, when running, samples the pin. *)
Definition bit_time (tx : tx_state) (rx : rx_state) : option (tx_state * rx_state) :=
  tx' ← (if tx_timer tx then SimuUartOutPut tx else Some tx);
  let rx := if tx_line tx && negb (tx_line tx') && rx_irq rx
            then Simu_UartIRQ_Func true (tx_line tx') rx else rx in
  '(rx, _) ← (if rx_timer rx then simu_uart_timer_task (tx_line tx') rx else Some (rx, 0));
  Some (tx', rx).
Fixpoint bit_times (n : nat) (tx : tx_state) (rx : rx_state) : option (tx_state * rx_state) :=
  match n with
  | O => Some (tx, rx)
  | S n => '(tx, rx) ← bit_time tx rx; bit_times n tx rx
  end.
End uart.
Arguments tx_state : clear implicits.
Arguments rx_state : clear implicits.

(** ** A frame *)

(** The data bits of [b], least significant first. *)
Definition data_bits (b : Z) : list bool :=
  map (λ i, negb (Z.land (Z.shiftr b i) 1 =? 0)) (seqZ 0 8).
(** What the receiver does to its shift register with one sampled bit. *)
Definition shift_in (r : Z) (v : bool) : Z := if v then Z.lor (Z.shiftr r 1) 0x80 else Z.shiftr r 1.

Lemma shift_in_check : forallb (λ b, foldl shift_in 0 (data_bits b) =? b) bytes256 = true.
Proof. vm_compute. reflexivity. Qed.
Lemma shift_in_bits b : is_byte b → foldl shift_in 0 (data_bits b) = b.
Proof. intros Hb. pose proof (for_all_bytes _ shift_in_check b Hb) as H. cbv beta in H. lia. Qed.

Section loopback.
Context {Q : Type} {fifo : ByteFifo Q}.

(** Between frames: nothing in the shift register, the line high. *)
Definition tx_idle (tx : tx_state Q) : Prop :=
  tx_over_flag tx = 0 ∧ tx_line tx = true ∧ fifo_wf (SimuUartTxBuf tx).
(** The receiver waits for a falling edge, or has just seen a stop bit and looks for a
    start bit in the next bit time. *)
Definition rx_ready (rx : rx_state Q) : Prop :=
  fifo_wf (uartrxbuf rx) ∧
  ((recv_stop_flag rx = 1 ∧ rx_irq rx = true) ∨
   (recv_stop_flag rx = 0 ∧ data_cnt rx = 0 ∧ rx_timer rx = true)).

Lemma fifo_pop1 (q : Q) b bs : fifo_wf q → fifo_items q = b :: bs →
  ∃ q', fifo_pop q 1 = Some (q', [b], 1) ∧ fifo_wf q' ∧ fifo_items q' = bs ∧ is_byte b.
Proof.
  intros Hwf Hi. destruct (fifo_pop_ok q 1 Hwf ltac:(lia)) as (q' & Hp & Hwf' & Hi' & _).
  pose proof (fifo_bytes q Hwf) as Hb. rewrite Hi in *. cbn [length] in *.
  replace (Z.min 1 (Z.of_nat (S (length bs)))) with 1 in * by lia.
  apply Forall_cons in Hb as [Hb _]. by exists q'.
Qed.

(** The bit time in which the transmitter fetches the next byte: the line stays high and
    a receiver that is not in a frame goes to wait for an edge. *)
Lemma fetch_time tx rx b bs : tx_idle tx → tx_timer tx = true → rx_ready rx →
  fifo_items (SimuUartTxBuf tx) = b :: bs →
  ∃ q rx', bit_time tx rx = Some (Tx b 0 1 q true true, rx') ∧ fifo_wf q ∧ fifo_items q = bs ∧
    recv_stop_flag rx' = 1 ∧ rx_irq rx' = true ∧ uartrxbuf rx' = uartrxbuf rx ∧ rx_posts rx' = rx_posts rx ∧
    is_byte b.
Proof.
  intros (Ho & Hl & Hq) Ht (Hw & Hr) Hi. destruct (fifo_pop1 _ _ _ Hq Hi) as (q & Hp & Hq' & Hi' & Hb).
  unfold bit_time. rewrite Ht. unfold SimuUartOutPut. rewrite Ho. cbn [Z.eqb negb].
  rewrite (fifo_empty_spec _ Hq), Hi. cbn [bool_decide negb]. rewrite bool_decide_false by done. cbn [negb].
  rewrite Hp, Hl, Ht. cbn [mbind option_bind tx_line negb andb].
  destruct rx as [cnt byte stop bytes irq tmr rq ps]. cbn [recv_stop_flag rx_irq data_cnt rx_timer] in *.
  destruct Hr as [[-> ->]|(-> & -> & ->)].
  - exists q, (Rx cnt byte 1 bytes true tmr rq ps). destruct tmr; by split_ands.
  - exists q, (Rx 0 byte 1 bytes true true rq ps). by split_ands.
Qed.

(** The start bit: the edge interrupt restarts the receiver, which samples it at once. *)
Lemma start_time b q rx : recv_stop_flag rx = 1 → rx_irq rx = true →
  bit_time (Tx b 0 1 q true true) rx =
  Some (Tx b 1 1 q false true, Rx 1 0 0 0 false true (uartrxbuf rx) (rx_posts rx)).
Proof. intros Hs Hi. destruct rx. cbn in Hs, Hi. subst. reflexivity. Qed.

Definition data_bit (b i : Z) : bool := negb (Z.land (Z.shiftr b i) 1 =? 0).
Lemma data_time b k q line r rq ps : 1 <= k <= 8 →
  bit_time (Tx b k 1 q line true) (Rx k r 0 0 false true rq ps) =
  Some (Tx b (k + 1) 1 q (data_bit b (k - 1)) true,
        Rx (k + 1) (shift_in r (data_bit b (k - 1))) 0 0 false true rq ps).
Proof.
  intros Hk. unfold bit_time, SimuUartOutPut. cbn [tx_timer tx_over_flag tx_bit tx_byte Z.eqb negb].
  rewrite (proj2 (Z.eqb_neq k 0)), (proj2 (Z.ltb_lt k 9)) by lia. fold (data_bit b (k - 1)).
  cbn [mbind option_bind tx_line]. rewrite andb_false_r. cbn [rx_timer].
  unfold simu_uart_timer_task. cbn [Z.eqb].
  rewrite (proj2 (Z.eqb_neq k 0)), !(proj2 (Z.leb_le _ _)) by lia. cbn [andb].
  rewrite i32_small by lia. unfold u8. rewrite Z.mod_small by lia. reflexivity.
Qed.
Lemma data_times n b k q line r rq ps : 1 <= k → k + Z.of_nat n <= 9 →
  ∃ line', bit_times n (Tx b k 1 q line true) (Rx k r 0 0 false true rq ps) =
  Some (Tx b (k + Z.of_nat n) 1 q line' true,
        Rx (k + Z.of_nat n) (foldl shift_in r (map (data_bit b) (seqZ (k - 1) (Z.of_nat n)))) 0 0 false true rq ps).
Proof.
  revert k line r. induction n as [|n IH]; intros k line r Hk Hn.
  - exists line. cbn. by rewrite Z.add_0_r.
  - cbn [bit_times]. rewrite data_time by lia. cbn [mbind option_bind].
    destruct (IH (k + 1) (data_bit b (k - 1)) (shift_in r (data_bit b (k - 1)))) as [line' H]; [lia..|].
    exists line'. rewrite H, (seqZ_cons (k - 1)) by lia. cbn [map foldl].
    replace (k + 1 + Z.of_nat n) with (k + Z.of_nat (S n)) by lia.
    replace (k + 1 - 1) with (Z.succ (k - 1)) by lia.
    by replace (Z.pred (Z.of_nat (S n))) with (Z.of_nat n) by lia.
Qed.

(** The stop bit: the byte is queued. *)
Lemma stop_time b q line r rq ps : fifo_wf rq → 0 < fifo_room rq →
  ∃ rx', bit_time (Tx b 9 1 q line true) (Rx 9 r 0 0 false true rq ps) = Some (Tx b 10 0 q true true, rx') ∧
    rx_ready rx' ∧ fifo_items (uartrxbuf rx') = fifo_items rq ++ [u8 r] ∧
    fifo_room (uartrxbuf rx') = fifo_room rq - 1.
Proof.
  intros Hw Hr. destruct (fifo_push_ok rq r Hw Hr) as (rq' & Hp & Hw' & Hi & Hroom).
  unfold bit_time. cbn. rewrite andb_false_r. cbn. unfold uart_data_recv. rewrite Hp. cbn.
  eexists. split; [reflexivity|]. split_ands; [|done|done]. split; [done|]. by right.
Qed.

Lemma bit_times_app m n (tx : tx_state Q) (rx : rx_state Q) :
  bit_times (m + n) tx rx = ('(tx, rx) ← bit_times m tx rx; bit_times n tx rx).
Proof.
  revert tx rx. induction m as [|m IH]; intros tx rx; [done|]. cbn [Nat.add bit_times].
  destruct (bit_time tx rx) as [[tx' rx']|]; [apply IH|done].
Qed.

(** One byte takes eleven bit times: the fetch, the start bit, eight data bits, the stop bit. *)
Lemma frame tx rx b bs : tx_idle tx → tx_timer tx = true → rx_ready rx →
  fifo_items (SimuUartTxBuf tx) = b :: bs → 0 < fifo_room (uartrxbuf rx) →
  ∃ tx' rx', bit_times 11 tx rx = Some (tx', rx') ∧ tx_idle tx' ∧ tx_timer tx' = true ∧ rx_ready rx' ∧
    fifo_items (SimuUartTxBuf tx') = bs ∧ fifo_items (uartrxbuf rx') = fifo_items (uartrxbuf rx) ++ [b] ∧
    fifo_room (uartrxbuf rx') = fifo_room (uartrxbuf rx) - 1.
Proof.
  intros Htx Ht Hrx Hi Hroom.
  destruct (fetch_time tx rx b bs Htx Ht Hrx Hi) as (q & rx1 & H1 & Hq & Hbs & Hs & Hirq & Hbuf & _ & Hb).
  destruct Hrx as [Hw _]. rewrite <- Hbuf in *.
  destruct (data_times 8 b 1 q false 0 (uartrxbuf rx1) (rx_posts rx1)) as [line H8]; [lia..|].
  change (map (data_bit b) (seqZ (1 - 1) (Z.of_nat 8))) with (data_bits b) in H8.
  rewrite shift_in_bits in H8 by done. change (1 + Z.of_nat 8) with 9 in H8.
  destruct (stop_time b q line b (uartrxbuf rx1) (rx_posts rx1) Hw Hroom) as (rx' & H9 & Hr' & Hi' & Hroom').
  exists (Tx b 10 0 q true true), rx'. split.
  - change 11%nat with (1 + (1 + (8 + 1)))%nat.
    rewrite bit_times_app. cbn [bit_times]. rewrite H1. cbn [mbind option_bind].
    rewrite bit_times_app. cbn [bit_times]. rewrite (start_time b q rx1 Hs Hirq). cbn [mbind option_bind].
    rewrite bit_times_app, H8. cbn [mbind option_bind bit_times]. by rewrite H9.
  - rewrite u8_small in Hi' by done. by split_ands.
Qed.

Lemma frames bs : ∀ tx rx, tx_idle tx → tx_timer tx = true → rx_ready rx →
  fifo_items (SimuUartTxBuf tx) = bs → Z.of_nat (length bs) <= fifo_room (uartrxbuf rx) →
  ∃ tx' rx', bit_times (11 * length bs) tx rx = Some (tx', rx') ∧ tx_idle tx' ∧ rx_ready rx' ∧
    fifo_items (SimuUartTxBuf tx') = [] ∧ fifo_items (uartrxbuf rx') = fifo_items (uartrxbuf rx) ++ bs.
Proof.
  induction bs as [|b bs IH]; intros tx rx Htx Ht Hrx Hi Hroom.
  - exists tx, rx. rewrite app_nil_r. by split_ands.
  - cbn [length] in *. destruct (frame tx rx b bs) as (tx1 & rx1 & H1 & Htx1 & Ht1 & Hrx1 & Hi1 & Hi1' & Hroom1);
      [done..|lia|].
    destruct (IH tx1 rx1) as (tx' & rx' & H2 & Htx' & Hrx' & He & Hi'); [done..|lia|].
    exists tx', rx'. replace (11 * S (length bs))%nat with (11 + 11 * length bs)%nat by lia.
    rewrite bit_times_app, H1. cbn [mbind option_bind]. rewrite Hi', Hi1', <- app_assoc in *. by split_ands.
Qed.

(** Queueing data for the simulated port. *)
Lemma send_loop_queues data : ∀ tx out, bytes_ok data → fifo_wf (SimuUartTxBuf tx) →
  Z.of_nat (length data) <= fifo_room (SimuUartTxBuf tx) →
  ∃ q, send_loop 0 data tx out =
      Some (Tx (tx_byte tx) (tx_bit tx) (tx_over_flag tx) q (tx_line tx) (tx_timer tx), out) ∧
    fifo_wf q ∧ fifo_items q = fifo_items (SimuUartTxBuf tx) ++ data.
Proof.
  induction data as [|b data IH]; intros tx out Hb Hw Hr; cbn [send_loop].
  - exists (SimuUartTxBuf tx). rewrite app_nil_r. by destruct tx.
  - apply Forall_cons in Hb as [Hb Hd]. cbn [length] in Hr.
    destruct (fifo_push_ok (SimuUartTxBuf tx) b Hw ltac:(lia)) as (q1 & Hp & Hw1 & Hi1 & Hr1).
    cbn [Z.eqb]. unfold SimuSendOneByte. rewrite Hp. cbn [mbind option_bind].
    destruct (IH (Tx (tx_byte tx) (tx_bit tx) (tx_over_flag tx) q1 (tx_line tx) (tx_timer tx)) out)
      as (q & -> & Hw' & Hi'); [done|done|cbn [SimuUartTxBuf]; lia|].
    exists q. cbn [SimuUartTxBuf tx_byte tx_bit tx_over_flag tx_line tx_timer] in *.
    rewrite Hi', Hi1, u8_small, <- app_assoc by done. by split_ands.
Qed.

(** C39: data handed to [uart_data_send] for the simulated port comes out of the receive
    task of a listening peer of the same speed, unchanged and in order, after eleven bit
    times per byte: queueing, the timer-driven transmitter, the wire, the edge interrupt,
    the sampling receiver and the task round compose, for any data that fits the two
    queues (any implementation of [ByteFifo]) and the 512-byte receive window. *)
Theorem serial_loopback tx rx data recv_data : tx_idle tx → fifo_items (SimuUartTxBuf tx) = [] →
  rx_ready rx → fifo_items (uartrxbuf rx) = [] → bytes_ok data →
  Z.of_nat (length data) <= fifo_room (SimuUartTxBuf tx) →
  Z.of_nat (length data) <= fifo_room (uartrxbuf rx) →
  Z.of_nat (length data) <= UART_RECV_BUF_SIZE → length recv_data = 1024%nat →
  ∃ tx1 tx2 rx2 rd rx3, uart_data_send data (length data) 0 tx = Some (tx1, []) ∧
    bit_times (11 * length data) tx1 rx = Some (tx2, rx2) ∧
    UartTask_round recv_data rx2 = Some (rd, Z.of_nat (length data), rx3) ∧
    take (length data) rd = data ∧ fifo_items (uartrxbuf rx3) = [] ∧ tx_idle tx2 ∧ rx_ready rx3.
Proof.
  intros Htx Hte Hrx Hre Hb Hr1 Hr2 Hr3 Hrd. destruct (Htx) as (Ho & Hl & Hw).
  destruct (send_loop_queues data tx [] Hb Hw Hr1) as (q & Hs & Hwq & Hiq).
  unfold uart_data_send. rewrite firstn_all, Hs. cbn [mbind option_bind Z.eqb].
  rewrite Hte in Hiq. cbn [app] in Hiq.
  destruct (frames data (Tx (tx_byte tx) (tx_bit tx) (tx_over_flag tx) q (tx_line tx) true) rx)
    as (tx2 & rx2 & Hbt & Htx2 & Hrx2 & Hi2 & Hi2'); [by split_ands|done|done|done|done|].
  rewrite Hre in Hi2'. cbn [app] in Hi2'. destruct Hrx2 as [Hw2 Hst].
  do 2 eexists. exists rx2. destruct rx2 as [cnt byte stop bytes irq tmr rq ps].
  cbn [uartrxbuf] in *. pose proof (fifo_count_spec rq Hw2) as Hcnt. rewrite Hi2' in Hcnt.
  unfold UartTask_round. rewrite Hcnt. unfold UART_RECV_BUF_SIZE in *.
  rewrite u16_small by lia. destruct data as [|x data].
  - exists recv_data. eexists. by split_ands.
  - rewrite (proj2 (Z.ltb_lt _ _)) by (cbn [length]; lia).
    rewrite memcpy_to_Some by (rewrite ?length_replicate; lia). cbn [mbind option_bind].
    destruct (fifo_pop_ok rq (Z.of_nat (length (x :: data))) Hw2 ltac:(lia)) as (rq' & Hp & Hw' & Hi' & _).
    rewrite Hi2', Z.min_id, Nat2Z.id, firstn_all in *. rewrite Hp. cbn [mbind option_bind].
    rewrite drop_ge in Hi' by lia. set (d := x :: data) in *.
    rewrite memcpy_to_Some by (rewrite ?length_store_at by (rewrite length_replicate; lia); lia).
    cbn [mbind option_bind]. do 2 eexists. split_ands; try done.
    exact (take_app_length d _).
Qed.
End loopback.

Definition demo_ring : ring_buffer_t := RingBuf 16 5 5 (replicate 16 0).
Lemma serial_loopback_witness :
  let tx := simu_uart_tx_init demo_ring false in
  let rx := Rx 0 0 1 0 true false demo_ring 0%nat in
  ∃ tx1 tx2 rx2 rd rx3, uart_data_send [0x4E; 0xA5; 0] 3 0 tx = Some (tx1, []) ∧
    bit_times 33 tx1 rx = Some (tx2, rx2) ∧
    UartTask_round (replicate 1024 7) rx2 = Some (rd, 3, rx3) ∧
    take 3 rd = [0x4E; 0xA5; 0] ∧ fifo_items (uartrxbuf rx3) = [] ∧ tx_idle tx2 ∧ rx_ready rx3.
Proof.
  intros tx rx.
  assert (Hwf : ring_wf demo_ring).
  { unfold ring_wf, demo_ring. cbn [rb_size rb_head rb_tail rb_buffer]. split_ands; try lia; [reflexivity|].
    repeat constructor; unfold is_byte; lia. }
  apply (serial_loopback tx rx [0x4E; 0xA5; 0] (replicate 1024 7)).
  - unfold tx_idle; split_ands; [reflexivity|reflexivity|exact Hwf].
  - reflexivity.
  - split; [exact Hwf|]. left. split; reflexivity.
  - reflexivity.
  - repeat constructor; unfold is_byte; lia.
  - vm_compute. discriminate.
  - vm_compute. discriminate.
  - vm_compute. discriminate.
  - reflexivity.
Defined.
