(* ===== verification/Param.v ===== *)
(** The system parameters and the configuration and control interface of
    [Sys/param.c].

    The configuration structures are records of fixed-size byte fields; every copy into
    one is checked against its size.  Control calls post a message to the MAC task
    through [PostTaskMsg], which is not part of the repository's sources: [posts] are the
    messages handed to it.  A pointer argument is [None] (null) or the bytes behind it. *)
From S2P Require Import Prelude CStr.

Definition PARAM_NET_MODE_STA_BSS : Z := 0.
Definition PARAM_NET_MODE_STA_ADHOC : Z := 1.
Definition PARAM_NET_MODE_SOFTAP : Z := 2.
Definition PARAM_NET_MODE_MAX : Z := 3.
Definition PARAM_PHY_MODE_MAX : Z := 3.
Definition PARAM_ENC_MODE_MAX : Z := 5.
Definition PARAM_AUTH_MODE_MAX : Z := 4.
Definition PARAM_WSC_MODE_PIN : Z := 1.
Definition PARAM_WSC_MODE_PBC : Z := 2.
Definition PARAM_RATE_MODE_CCK : Z := 0.
Definition PARAM_RATE_MODE_OFDM : Z := 1.
Definition PARAM_RATE_MODE_HT : Z := 2.
Definition PARAM_RATE_IDX_3 : Z := 4.
Definition PARAM_RATE_IDX_7 : Z := 8.
Definition PARAM_TX_PWR_LEVEL_10 : Z := 9.
Definition PS_MODE_SOFT : Z := 3.
Definition PROTECT_MODE_NONE : Z := 2.
Definition WAKEUP_MODE_GPIO0 : Z := 0.
Definition WAKEUP_MODE_32K_TIMER : Z := 0x80000000.

(** [SDK_TSK_MSG_ID]: the messages of the MAC task and of the system task. *)
(* @ Include/global.h:25-54 SDK_TSK_MSG_ID *)
Inductive SDK_TSK_MSG_ID :=
  | MLME_SCAN_REQUEST_ID | MLME_DIRECT_CFG_ID | MLME_START_ID | MLME_STOP_ID
  | MLME_PS_MODE_SET_ID | MLME_DEEP_SLEEP_SET_ID | MLME_TX_RATE_SET_ID
  | MLME_TX_PWR_LEVEL_SET_ID | MLME_AUTO_WAKEUP_ID | MLME_BCN_PRD_SET_ID
  | MLME_LISTEN_INTVL_SET_ID | MLME_PEER_AGE_OUT_SET_ID | MLME_PEER_KICK_OUT_ID
  | MLME_PROTECT_MODE_SET_ID | MLME_WPS_START_SET_ID | MLME_WPS_STOP_SET_ID
  | MLME_SNIFFER_START_ID | MLME_VENDOR_IE_SET_ID
  | SYS_LINK_UP_ID | SYS_LINK_DOWN_ID | SYS_DHCP_TIMEOUT_ID | SYS_SCAN_DONE_ID
  | SYS_STA_JOIN_FAIL_ID | SYS_DIRECT_CFG_DONE_ID.
#[export] Instance SDK_TSK_MSG_ID_eq_dec : EqDecision SDK_TSK_MSG_ID.
Proof. solve_decision. Defined.
(** The size of [msgBody] in [NST_TskMsg]. *)
(* @ Include/global.h:57-62 NST_TskMsg *)
Definition msgBody_size : Z := 32.

(* @ Include/param.h:99-113 WIFI_CFG *)
Record WIFI_CFG := WifiCfg {
  Ssid : list Z; SSIDBrdEnable : Z; PhyMode : Z; Channel : Z; Encry : Z; AuthMode : Z;
  Protocol : Z; KeyLength : Z; KeyIndex : Z; PSK : list Z; WscEn : Z; ConTryTimes : Z; WmmEn : Z }.
(* @ Include/param.h:115-123 IP_CFG *)
Record IP_CFG := IpCfg {
  Ip : list Z; Netmask : list Z; GateWay : list Z; Dns : list Z; bDhcp : Z; DhcpTryTimes : Z }.
(* @ Include/param.h:125-132 CFG_PARAM *)
Record CFG_PARAM := CfgParam {
  WiFiCfg : WIFI_CFG; IPCfg : IP_CFG; bDhcpServer : Z; bDnsServer : Z; DnsName : list Z }.

(** The globals the interface works on. *)
Record sys := Sys {
  SysParam : CFG_PARAM; PermanentAddress : list Z; SysEvtCB : Z;
  posts : list (SDK_TSK_MSG_ID * list Z) }.

(** Field updates. *)
Definition with_wifi (f : WIFI_CFG → WIFI_CFG) (s : sys) : sys :=
  let c := SysParam s in
  Sys (CfgParam (f (WiFiCfg c)) (IPCfg c) (bDhcpServer c) (bDnsServer c) (DnsName c))
    (PermanentAddress s) (SysEvtCB s) (posts s).
Definition with_ip (ip : IP_CFG) (s : sys) : sys :=
  let c := SysParam s in
  Sys (CfgParam (WiFiCfg c) ip (bDhcpServer c) (bDnsServer c) (DnsName c))
    (PermanentAddress s) (SysEvtCB s) (posts s).
Definition with_servers (dhcp dns : Z) (name : list Z) (s : sys) : sys :=
  let c := SysParam s in
  Sys (CfgParam (WiFiCfg c) (IPCfg c) dhcp dns name) (PermanentAddress s) (SysEvtCB s) (posts s).
Definition set_Ssid v w := WifiCfg v (SSIDBrdEnable w) (PhyMode w) (Channel w) (Encry w) (AuthMode w)
  (Protocol w) (KeyLength w) (KeyIndex w) (PSK w) (WscEn w) (ConTryTimes w) (WmmEn w).
Definition set_SSIDBrdEnable v w := WifiCfg (Ssid w) v (PhyMode w) (Channel w) (Encry w) (AuthMode w)
  (Protocol w) (KeyLength w) (KeyIndex w) (PSK w) (WscEn w) (ConTryTimes w) (WmmEn w).
Definition set_PhyMode v w := WifiCfg (Ssid w) (SSIDBrdEnable w) v (Channel w) (Encry w) (AuthMode w)
  (Protocol w) (KeyLength w) (KeyIndex w) (PSK w) (WscEn w) (ConTryTimes w) (WmmEn w).
Definition set_Channel v w := WifiCfg (Ssid w) (SSIDBrdEnable w) (PhyMode w) v (Encry w) (AuthMode w)
  (Protocol w) (KeyLength w) (KeyIndex w) (PSK w) (WscEn w) (ConTryTimes w) (WmmEn w).
Definition set_Encry v w := WifiCfg (Ssid w) (SSIDBrdEnable w) (PhyMode w) (Channel w) v (AuthMode w)
  (Protocol w) (KeyLength w) (KeyIndex w) (PSK w) (WscEn w) (ConTryTimes w) (WmmEn w).
Definition set_AuthMode v w := WifiCfg (Ssid w) (SSIDBrdEnable w) (PhyMode w) (Channel w) (Encry w) v
  (Protocol w) (KeyLength w) (KeyIndex w) (PSK w) (WscEn w) (ConTryTimes w) (WmmEn w).
Definition set_Protocol v w := WifiCfg (Ssid w) (SSIDBrdEnable w) (PhyMode w) (Channel w) (Encry w) (AuthMode w)
  v (KeyLength w) (KeyIndex w) (PSK w) (WscEn w) (ConTryTimes w) (WmmEn w).
Definition set_Key idx len psk w := WifiCfg (Ssid w) (SSIDBrdEnable w) (PhyMode w) (Channel w) (Encry w) (AuthMode w)
  (Protocol w) len idx psk (WscEn w) (ConTryTimes w) (WmmEn w).
Definition set_WscEn v w := WifiCfg (Ssid w) (SSIDBrdEnable w) (PhyMode w) (Channel w) (Encry w) (AuthMode w)
  (Protocol w) (KeyLength w) (KeyIndex w) (PSK w) v (ConTryTimes w) (WmmEn w).
Definition set_ConTryTimes v w := WifiCfg (Ssid w) (SSIDBrdEnable w) (PhyMode w) (Channel w) (Encry w) (AuthMode w)
  (Protocol w) (KeyLength w) (KeyIndex w) (PSK w) (WscEn w) v (WmmEn w).
Definition set_WmmEn v w := WifiCfg (Ssid w) (SSIDBrdEnable w) (PhyMode w) (Channel w) (Encry w) (AuthMode w)
  (Protocol w) (KeyLength w) (KeyIndex w) (PSK w) (WscEn w) (ConTryTimes w) v.

(** [PostTaskMsg(gpMacMngTskMsgQ, id, body, len)] *)
Definition post (id : SDK_TSK_MSG_ID) (body : list Z) (s : sys) : sys :=
  Sys (SysParam s) (PermanentAddress s) (SysEvtCB s) (posts s ++ [(id, body)]).

(** ** Configuration *)

(** The digits [sprintf] writes for [%02x]. *)
Definition hex02 (b : Z) : list Z := hex2 b.
Definition ascii_NuAgent : list Z := [78; 117; 65; 103; 101; 110; 116; 45].
Definition ascii_123456789 : list Z := seqZ 49 9.
Definition ascii_local_nufront : list Z := [108; 111; 99; 97; 108; 46; 110; 117; 102; 114; 111; 110; 116].
(** A string written into a zeroed field of [n] bytes. *)
Definition field (n : nat) (str : list Z) : list Z := store_at 0 (str ++ [0]) (replicate n 0).

(* @ Sys/param.c:46-89 InfLoadDefaultParam *)
Definition InfLoadDefaultParam (s : sys) : sys :=
  let mac i := byte_at (PermanentAddress s) i in
  Sys (CfgParam
        (WifiCfg (field 33 (ascii_NuAgent ++ hex02 (mac 2) ++ hex02 (mac 3) ++ hex02 (mac 4) ++ hex02 (mac 5)))
           1 0 11 3 3 2 9 0 (field 64 ascii_123456789) 0 0 0)
        (IpCfg [10; 10; 10; 1] [255; 255; 255; 0] [10; 10; 100; 254] [10; 10; 100; 254] 1 0)
        1 1 (field 33 ascii_local_nufront))
    (PermanentAddress s) (SysEvtCB s) (posts s).

(** The copy of the whole structure, or the error. *)
(* @ Sys/param.c:104-111 InfConfigQuery *)
Definition InfConfigQuery (pParam : bool) (s : sys) : option CFG_PARAM * Z :=
  if negb pParam then (None, -1) else (Some (SysParam s), 0).

(* @ Sys/param.c:126-133 InfNetModeSet *)
Definition InfNetModeSet (Mode : Z) (s : sys) : sys * Z :=
  if PARAM_NET_MODE_MAX <=? u8 Mode then (s, -1) else (with_wifi (set_Protocol (u8 Mode)) s, 0).
(* @ Sys/param.c:148-155 InfPhyModeSet *)
Definition InfPhyModeSet (Mode : Z) (s : sys) : sys * Z :=
  if PARAM_PHY_MODE_MAX <=? u8 Mode then (s, -1) else (with_wifi (set_PhyMode (u8 Mode)) s, 0).
(* @ Sys/param.c:171-182 InfSsidSet *)
Definition InfSsidSet (pSsid : option (list Z)) (SsidLen : Z) (s : sys) : option (sys * Z) :=
  let fail := Some (with_wifi (λ w, set_Ssid (<[0%nat := 0]> (Ssid w)) w) s, -1) in
  match pSsid with
  | None => fail
  | Some p =>
      if (32 <? SsidLen) || (SsidLen =? 0) then fail else
      xs ← memcpy_from 0 SsidLen p;
      b ← memcpy_to 0 xs (Ssid (WiFiCfg (SysParam s)));
      b ← memcpy_to SsidLen [0] b;
      Some (with_wifi (set_Ssid b) s, 0)
  end.
(* @ Sys/param.c:197-201 InfSsidBrdcastSet *)
Definition InfSsidBrdcastSet (Enable : Z) (s : sys) : sys * Z :=
  (with_wifi (set_SSIDBrdEnable (bz (negb (Enable =? 0)))) s, 0).
(* @ Sys/param.c:216-223 InfChannelSet *)
Definition InfChannelSet (Ch : Z) (s : sys) : sys * Z :=
  if (Ch <? 1) || (13 <? Ch) then (s, -1) else (with_wifi (set_Channel Ch) s, 0).
(* @ Sys/param.c:238-245 InfEncModeSet *)
Definition InfEncModeSet (EncMode : Z) (s : sys) : sys * Z :=
  if PARAM_ENC_MODE_MAX <=? u8 EncMode then (s, -1) else (with_wifi (set_Encry (u8 EncMode)) s, 0).
(* @ Sys/param.c:261-268 InfAuthModeSet *)
Definition InfAuthModeSet (Mode : Z) (s : sys) : sys * Z :=
  if PARAM_AUTH_MODE_MAX <=? u8 Mode then (s, -1) else (with_wifi (set_AuthMode (u8 Mode)) s, 0).
(* @ Sys/param.c:285-298 InfKeySet *)
Definition InfKeySet (Index : Z) (KeyBuf : option (list Z)) (KeyLen : Z) (s : sys) : option (sys * Z) :=
  match KeyBuf with
  | None => Some (s, -1)
  | Some p =>
      if (3 <? Index) || (64 <? KeyLen) then Some (s, -1) else
      xs ← memcpy_from 0 KeyLen p;
      b ← memcpy_to 0 xs (PSK (WiFiCfg (SysParam s)));
      b ← (if KeyLen <? 64 then memcpy_to KeyLen [0] b else Some b);
      Some (with_wifi (set_Key Index KeyLen b) s, 0)
  end.
(* @ Sys/param.c:314-318 InfConTryTimesSet *)
Definition InfConTryTimesSet (TryTimes : Z) (s : sys) : sys * Z :=
  (with_wifi (set_ConTryTimes TryTimes) s, 0).
(* @ Sys/param.c:332-336 InfWmmEnableSet *)
Definition InfWmmEnableSet (Enable : Z) (s : sys) : sys * Z := (with_wifi (set_WmmEn (u8 Enable)) s, 0).
(* @ Sys/param.c:352-356 InfWscEnSet *)
Definition InfWscEnSet (En : Z) (s : sys) : sys * Z := (with_wifi (set_WscEn (u8 En)) s, 0).
(* @ Sys/param.c:372-379 InfIpSet *)
Definition InfIpSet (IpParam : option IP_CFG) (s : sys) : sys * Z :=
  match IpParam with None => (s, -1) | Some ip => (with_ip ip s, 0) end.
(* @ Sys/param.c:394-398 InfDhcpSrvSet *)
Definition InfDhcpSrvSet (Enable : Z) (s : sys) : sys * Z :=
  let c := SysParam s in (with_servers (bz (negb (Enable =? 0))) (bDnsServer c) (DnsName c) s, 0).
(** The name is copied without a terminator. *)
(* @ Sys/param.c:415-428 InfDnsSrvSet *)
Definition InfDnsSrvSet (Enable : Z) (Name : option (list Z)) (NameLen : Z) (s : sys) : option (sys * Z) :=
  let c := SysParam s in
  if negb (Enable =? 0) then
    match Name with
    | None => Some (s, -1)
    | Some p =>
        if 32 <? NameLen then Some (s, -1) else
        xs ← memcpy_from 0 NameLen p;
        b ← memcpy_to 0 xs (DnsName c);
        Some (with_servers (bDhcpServer c) 1 b s, 0)
    end
  else Some (with_servers (bDhcpServer c) 0 (DnsName c) s, 0).
(* @ Sys/param.c:443-450 InfMacAddrSet *)
Definition InfMacAddrSet (Addr : option (list Z)) (s : sys) : option (sys * Z) :=
  match Addr with
  | None => Some (s, -1)
  | Some a =>
      xs ← memcpy_from 0 6 a; b ← memcpy_to 0 xs (PermanentAddress s);
      Some (Sys (SysParam s) b (SysEvtCB s) (posts s), 0)
  end.
(** A callback is its code address. *)
(* @ Sys/param.c:468-475 InfSysEvtCBSet *)
Definition InfSysEvtCBSet (pFuncCb : Z) (s : sys) : sys * Z :=
  if pFuncCb =? 0 then (s, -1) else (Sys (SysParam s) (PermanentAddress s) pFuncCb (posts s), 0).

(** ** Control *)

(* @ Sys/param.c:498-502 InfWiFiStart *)
Definition InfWiFiStart (s : sys) : sys * Z := (post MLME_START_ID [] s, 0).
(* @ Sys/param.c:518-522 InfWiFiStop *)
Definition InfWiFiStop (s : sys) : sys * Z := (post MLME_STOP_ID [] s, 0).
(** The table is its address and its [InfoCount]; [INT8] values are stored as bytes. *)
(* @ Sys/param.c:546-562 InfScanStart *)
Definition InfScanStart (pScanTable InfoCount MinRssiFilter ScanType : Z) (s : sys) : sys * Z :=
  if (pScanTable =? 0) || (InfoCount =? 0) then (s, -1) else
  let MinRssiFilter := if 0 <? MinRssiFilter then 0 else MinRssiFilter in
  (post MLME_SCAN_REQUEST_ID (le32 pScanTable ++ [u8 MinRssiFilter; u8 ScanType]) s, 0).
(* @ Sys/param.c:584-610 InfTxRateSet *)
Definition InfTxRateSet (RateMode RateIdx : Z) (s : sys) : sys * Z :=
  let send := (post MLME_TX_RATE_SET_ID [u8 RateMode; u8 RateIdx] s, 0) in
  if RateMode =? PARAM_RATE_MODE_CCK then if PARAM_RATE_IDX_3 <? RateIdx then (s, -1) else send
  else if (RateMode =? PARAM_RATE_MODE_OFDM) || (RateMode =? PARAM_RATE_MODE_HT)
  then if PARAM_RATE_IDX_7 <? RateIdx then (s, -1) else send
  else (s, -1).
(* @ Sys/param.c:626-633 InfTxPwrLevelSet *)
Definition InfTxPwrLevelSet (TxPwrLevel : Z) (s : sys) : sys * Z :=
  if PARAM_TX_PWR_LEVEL_10 <? TxPwrLevel then (s, -1)
  else (post MLME_TX_PWR_LEVEL_SET_ID [u8 TxPwrLevel] s, 0).
(* @ Sys/param.c:654-661 InfPowerSaveSet *)
Definition InfPowerSaveSet (PowerSaveMode : Z) (s : sys) : sys * Z :=
  if PS_MODE_SOFT <? PowerSaveMode then (s, -1) else (post MLME_PS_MODE_SET_ID [PowerSaveMode] s, 0).
(* @ Sys/param.c:680-687 InfDeepSleepSet *)
Definition InfDeepSleepSet (WakeUpMode : Z) (s : sys) : sys * Z :=
  if (WAKEUP_MODE_GPIO0 <? WakeUpMode) && (Z.land WakeUpMode WAKEUP_MODE_32K_TIMER =? 0) then (s, -1)
  else (post MLME_DEEP_SLEEP_SET_ID (le32 WakeUpMode) s, 0).
(** The read the chip is asked for: offset and word count. *)
(* @ Sys/param.c:738-745 InfEfuseInfoGet *)
Definition InfEfuseInfoGet (Offset Cnt : Z) (pEfuseInfo : bool) : option (Z * Z) * Z :=
  if negb pEfuseInfo || (7 <? Offset) then (None, -1) else (Some (Offset, Cnt), 0).
(* @ Sys/param.c:761-771 InfBeaconPeriodSet *)
Definition InfBeaconPeriodSet (BcnPrd NotifyPeerEn : Z) (s : sys) : sys * Z :=
  (post MLME_BCN_PRD_SET_ID (le16 BcnPrd ++ [NotifyPeerEn]) s, 0).
(* @ Sys/param.c:788-800 InfListenIntervalSet *)
Definition InfListenIntervalSet (ListenIntv ListenDtim : Z) (s : sys) : sys * Z :=
  if ListenIntv =? 0 then (s, -1)
  else (post MLME_LISTEN_INTVL_SET_ID [ListenIntv; u8 ListenDtim] s, 0).
(** [pCustomStr] is the address of the buffer, 0 for none. *)
(* @ Sys/param.c:829-840 InfDirectCfgStart *)
Definition InfDirectCfgStart (MinRssiFilter TryPeerNum pCustomStr : Z) (s : sys) : sys * Z :=
  (post MLME_DIRECT_CFG_ID ([u8 MinRssiFilter; TryPeerNum] ++
     (if negb (pCustomStr =? 0) then le32 pCustomStr else [0; 0; 0; 0])) s, 0).
(* @ Sys/param.c:858-867 InfSnifferStart *)
Definition InfSnifferStart (pFuncCb : Z) (BindBssid : list Z) (Ch : Z) (s : sys) : option (sys * Z) :=
  xs ← memcpy_from 0 6 BindBssid;
  Some (post MLME_SNIFFER_START_ID (le32 pFuncCb ++ xs ++ [Ch]) s, 0).
(* @ Sys/param.c:886-890 InfPeerAgeOutSet *)
Definition InfPeerAgeOutSet (Time : Z) (s : sys) : sys * Z := (post MLME_PEER_AGE_OUT_SET_ID (le32 Time) s, 0).
(* @ Sys/param.c:907-913 InfPeerKickOut *)
Definition InfPeerKickOut (pMacAddr : option (list Z)) (s : sys) : option (sys * Z) :=
  match pMacAddr with
  | None => Some (s, -1)
  | Some a => xs ← memcpy_from 0 6 a; Some (post MLME_PEER_KICK_OUT_ID xs s, 0)
  end.
(* @ Sys/param.c:932-939 InfProtectModeSet *)
Definition InfProtectModeSet (Mode : Z) (s : sys) : sys * Z :=
  if PROTECT_MODE_NONE <? Mode then (s, -1) else (post MLME_PROTECT_MODE_SET_ID [u8 Mode] s, 0).
(* @ Sys/param.c:958-974 InfWPSStart *)
Definition InfWPSStart (WscMode PinCode : Z) (s : sys) : sys * Z :=
  if PARAM_WSC_MODE_PBC <? WscMode then (s, -1) else
  (post MLME_WPS_START_SET_ID
     ((if WscMode =? PARAM_WSC_MODE_PIN then le32 PinCode else [0; 0; 0; 0]) ++ [WscMode]) s, 0).
(* @ Sys/param.c:989-994 InfWPSStop *)
Definition InfWPSStop (s : sys) : sys * Z := (post MLME_WPS_STOP_SET_ID [] s, 0).
(* @ Sys/param.c:1038-1047 InfVendorIESet *)
Definition InfVendorIESet (pIePtr IeLen : Z) (s : sys) : sys * Z :=
  (post MLME_VENDOR_IE_SET_ID (le32 pIePtr ++ [IeLen]) s, 0).
(** Launch ticks of 125/1024 ms to milliseconds; [UINT64] is the signed [__int64]. *)
Definition i64 (x : Z) : Z := (x + 2 ^ 63) mod 2 ^ 64 - 2 ^ 63.
(* @ Sys/param.c:1062-1066 InfSysTimeGet *)
Definition InfSysTimeGet (Ticks : Z) : Z :=
  i64 (i64 (Z.quot Ticks 1024 * 125) + Z.quot (i64 (Z.rem Ticks 1024 * 125)) 1024).

(** ** The interface as one set of calls *)

Inductive inf_call :=
  | CLoadDefault | CNetMode (m : Z) | CPhyMode (m : Z) | CSsid (p : option (list Z)) (n : Z)
  | CSsidBrdcast (e : Z) | CChannel (c : Z) | CEncMode (m : Z) | CAuthMode (m : Z)
  | CKey (i : Z) (p : option (list Z)) (n : Z) | CConTryTimes (n : Z) | CWmm (e : Z) | CWscEn (e : Z)
  | CIp (ip : option IP_CFG) | CDhcpSrv (e : Z) | CDnsSrv (e : Z) (p : option (list Z)) (n : Z)
  | CMacAddr (p : option (list Z)) | CSysEvtCB (f : Z)
  | CWiFiStart | CWiFiStop | CScan (t n r ty : Z) | CTxRate (m i : Z) | CTxPwr (l : Z) | CPowerSave (m : Z)
  | CDeepSleep (m : Z) | CBeaconPeriod (b e : Z) | CListenInterval (n d : Z) | CDirectCfg (r n p : Z)
  | CSniffer (f : Z) (b : list Z) (ch : Z) | CPeerAgeOut (t : Z) | CPeerKickOut (p : option (list Z))
  | CProtectMode (m : Z) | CWPSStart (m pin : Z) | CWPSStop | CVendorIE (p n : Z).

Definition inf_run (c : inf_call) (s : sys) : option (sys * Z) :=
  match c with
  | CLoadDefault => Some (InfLoadDefaultParam s, 0)
  | CNetMode m => Some (InfNetModeSet m s) | CPhyMode m => Some (InfPhyModeSet m s)
  | CSsid p n => InfSsidSet p n s | CSsidBrdcast e => Some (InfSsidBrdcastSet e s)
  | CChannel ch => Some (InfChannelSet ch s) | CEncMode m => Some (InfEncModeSet m s)
  | CAuthMode m => Some (InfAuthModeSet m s) | CKey i p n => InfKeySet i p n s
  | CConTryTimes n => Some (InfConTryTimesSet n s) | CWmm e => Some (InfWmmEnableSet e s)
  | CWscEn e => Some (InfWscEnSet e s) | CIp ip => Some (InfIpSet ip s)
  | CDhcpSrv e => Some (InfDhcpSrvSet e s) | CDnsSrv e p n => InfDnsSrvSet e p n s
  | CMacAddr p => InfMacAddrSet p s | CSysEvtCB f => Some (InfSysEvtCBSet f s)
  | CWiFiStart => Some (InfWiFiStart s) | CWiFiStop => Some (InfWiFiStop s)
  | CScan t n r ty => Some (InfScanStart t n r ty s) | CTxRate m i => Some (InfTxRateSet m i s)
  | CTxPwr l => Some (InfTxPwrLevelSet l s) | CPowerSave m => Some (InfPowerSaveSet m s)
  | CDeepSleep m => Some (InfDeepSleepSet m s) | CBeaconPeriod b e => Some (InfBeaconPeriodSet b e s)
  | CListenInterval n d => Some (InfListenIntervalSet n d s)
  | CDirectCfg r n p => Some (InfDirectCfgStart r n p s)
  | CSniffer f b ch => InfSnifferStart f b ch s | CPeerAgeOut t => Some (InfPeerAgeOutSet t s)
  | CPeerKickOut p => InfPeerKickOut p s | CProtectMode m => Some (InfProtectModeSet m s)
  | CWPSStart m pin => Some (InfWPSStart m pin s) | CWPSStop => Some (InfWPSStop s)
  | CVendorIE p n => Some (InfVendorIESet p n s)
  end.

(** A buffer argument of which [n] bytes are read. *)
Definition buffer_ok (p : option (list Z)) (n : Z) : Prop :=
  match p with None => True | Some p => n <= Z.of_nat (length p) ∧ bytes_ok p end.
Definition ip_ok (ip : IP_CFG) : Prop :=
  (length (Ip ip) = 4 ∧ length (Netmask ip) = 4 ∧ length (GateWay ip) = 4 ∧ length (Dns ip) = 4)%nat ∧
  bytes_ok (Ip ip) ∧ bytes_ok (Netmask ip) ∧ bytes_ok (GateWay ip) ∧ bytes_ok (Dns ip) ∧
  is_byte (bDhcp ip) ∧ is_byte (DhcpTryTimes ip).
(** The arguments have their C types and every buffer is as long as its length says. *)
Definition call_ok (c : inf_call) : Prop :=
  match c with
  | CSsid p n => is_byte n ∧ buffer_ok p n
  | CKey i p n => is_byte i ∧ is_byte n ∧ buffer_ok p n
  | CDnsSrv e p n => is_byte n ∧ buffer_ok p n
  | CMacAddr p | CPeerKickOut p => buffer_ok p 6
  | CSniffer f b ch => buffer_ok (Some b) 6 ∧ is_byte ch
  | CIp (Some ip) => ip_ok ip
  | CConTryTimes n | CPowerSave n | CWPSStart n _ | CVendorIE _ n | CBeaconPeriod _ n
  | CListenInterval n _ | CDirectCfg _ n _ | CChannel n => is_byte n
  | _ => True
  end.

(** A well-formed configuration: fields of their sizes, both names terminated, every mode
    one of its enumeration. *)
Definition wifi_ok (w : WIFI_CFG) : Prop :=
  (length (Ssid w) = 33%nat ∧ bytes_ok (Ssid w) ∧ Ssid w !! 32%nat = Some 0) ∧
  (length (PSK w) = 64%nat ∧ bytes_ok (PSK w)) ∧
  (0 <= SSIDBrdEnable w <= 1 ∧ 0 <= PhyMode w < PARAM_PHY_MODE_MAX ∧ 0 <= Channel w <= 13 ∧
   0 <= Encry w < PARAM_ENC_MODE_MAX ∧ 0 <= AuthMode w < PARAM_AUTH_MODE_MAX ∧
   0 <= Protocol w < PARAM_NET_MODE_MAX ∧ 0 <= KeyLength w <= 64 ∧ 0 <= KeyIndex w <= 3) ∧
  (is_byte (WscEn w) ∧ is_byte (ConTryTimes w) ∧ is_byte (WmmEn w)).
Definition cfg_ok (c : CFG_PARAM) : Prop :=
  wifi_ok (WiFiCfg c) ∧ ip_ok (IPCfg c) ∧ 0 <= bDhcpServer c <= 1 ∧ 0 <= bDnsServer c <= 1 ∧
  length (DnsName c) = 33%nat ∧ bytes_ok (DnsName c) ∧ DnsName c !! 32%nat = Some 0.
Definition post_ok (m : SDK_TSK_MSG_ID * list Z) : Prop :=
  bytes_ok m.2 ∧ Z.of_nat (length m.2) <= msgBody_size.
Definition sys_ok (s : sys) : Prop :=
  cfg_ok (SysParam s) ∧ (length (PermanentAddress s) = 6%nat ∧ bytes_ok (PermanentAddress s)) ∧
  Forall post_ok (posts s).

(** The calls that go to the MAC task; the others set the configuration. *)
Definition controls (c : inf_call) : bool :=
  match c with
  | CWiFiStart | CWiFiStop | CScan _ _ _ _ | CTxRate _ _ | CTxPwr _ | CPowerSave _ | CDeepSleep _ | CBeaconPeriod _ _
  | CListenInterval _ _ | CDirectCfg _ _ _ | CSniffer _ _ _ | CPeerAgeOut _ | CPeerKickOut _ | CProtectMode _
  | CWPSStart _ _ | CWPSStop | CVendorIE _ _ => true
  | _ => false
  end.
(** The first byte of the network's name set to zero. *)
Definition name_cleared (s : sys) : sys := with_wifi (λ w, set_Ssid (<[0%nat := 0]> (Ssid w)) w) s.
(** What one call may do. *)
Definition call_effect (c : inf_call) (s s' : sys) (r : Z) : Prop :=
  sys_ok s' ∧ (r = 0 ∨ r = -1) ∧
  (r = -1 → s' = match c with CSsid _ _ => name_cleared s | _ => s end) ∧
  (r = 0 → if controls c then ∃ m, s' = Sys (SysParam s) (PermanentAddress s) (SysEvtCB s) (posts s ++ [m])
           else posts s' = posts s).

Lemma with_wifi_ok f s : sys_ok s → wifi_ok (f (WiFiCfg (SysParam s))) → sys_ok (with_wifi f s).
Proof. intros ((Hw & H) & H') Hf. split; [split; [exact Hf|exact H]|exact H']. Qed.
Lemma post_sys_ok id body s : sys_ok s → bytes_ok body → Z.of_nat (length body) <= msgBody_size →
  sys_ok (post id body s).
Proof.
  intros (Hc & Ha & Hp) Hb Hl. split; [exact Hc|split; [exact Ha|]].
  apply Forall_app. split; [exact Hp|]. by repeat constructor.
Qed.
Lemma le32_le16_bytes x y : bytes_ok (le32 x) ∧ bytes_ok (le16 y).
Proof. split; [apply le32_bytes|]. repeat (apply List.Forall_cons; [apply byte_of_byte|]). apply List.Forall_nil. Qed.

(** A copy of [n] bytes into a field: size, bytes, and what lies behind. *)
Lemma copy_into xs b n : bytes_ok xs → bytes_ok b → (length xs <= n)%nat → (n < length b)%nat →
  ∃ b', memcpy_to 0 xs b = Some b' ∧ length b' = length b ∧ bytes_ok b' ∧
    ∀ i, (length xs <= i)%nat → b' !! i = b !! i.
Proof.
  intros Hx Hb Hn Hl. exists (store_at 0 xs b).
  split_ands; [apply memcpy_to_Some; lia|by rewrite length_store_at by lia|by apply store_at_bytes|].
  intros i Hi. unfold store_at. rewrite take_0. cbn [app Nat.add].
  rewrite lookup_app_r by lia. rewrite lookup_drop. f_equal. lia.
Qed.

(** Prove [call_effect] of a call that only tests its argument and sets a field or posts. *)
Ltac wifi_fields := match goal with H : sys_ok _ |- _ =>
  let W := fresh "W" in pose proof H as W; destruct W as ((W & _) & _);
  destruct W as ((? & ? & ?) & (? & ?) & (? & ? & ? & ? & ? & ? & ? & ?) & (? & ? & ?)) end.
Ltac accepted := eexists _, _; split; [reflexivity|]; split;
  [|split; [by left|split; [discriminate|intros _; cbn [controls]; first [done | by eexists]]]].
Ltac rejected := eexists _, _; split; [reflexivity|]; split; [assumption|split; [by right|by split]].
Ltac set_wifi := accepted; apply with_wifi_ok; [assumption|]; wifi_fields;
  unfold wifi_ok; cbn [Ssid SSIDBrdEnable PhyMode Channel Encry AuthMode Protocol KeyLength KeyIndex PSK
    WscEn ConTryTimes WmmEn]; split_ands; try assumption; try lia; try apply u8_byte.
Ltac posted := accepted; apply post_sys_ok; [assumption| |cbn; unfold msgBody_size; lia];
  repeat first [apply Forall_app; split | apply le32_bytes | apply (proj2 (le32_le16_bytes 0 _))
    | apply List.Forall_nil | apply List.Forall_cons; [first [assumption | apply u8_byte | unfold is_byte; lia]|]].

Definition ok_call (c : inf_call) : Prop := ∀ s, sys_ok s → call_ok c →
  ∃ s' r, inf_run c s = Some (s', r) ∧ call_effect c s s' r.

Lemma mode_calls_ok m :
  ok_call (CNetMode m) ∧ ok_call (CPhyMode m) ∧ ok_call (CEncMode m) ∧ ok_call (CAuthMode m) ∧
  ok_call (CChannel m) ∧ ok_call (CSsidBrdcast m) ∧ ok_call (CConTryTimes m) ∧ ok_call (CWmm m) ∧
  ok_call (CWscEn m).
Proof.
  pose proof (u8_byte m) as Hm. unfold is_byte in Hm.
  split_ands; intros s Hs Hc; cbn [inf_run]; unfold InfNetModeSet, InfPhyModeSet, InfEncModeSet,
    InfAuthModeSet, InfChannelSet, InfSsidBrdcastSet, InfConTryTimesSet, InfWmmEnableSet, InfWscEnSet.
  1-4: split_guard; [rejected|unfold set_Protocol, set_PhyMode, set_Encry, set_AuthMode; set_wifi].
  - destruct (Z.ltb_spec m 1), (Z.ltb_spec 13 m); cbn [orb]; [rejected..|unfold set_Channel; set_wifi].
  - unfold set_SSIDBrdEnable. destruct (m =? 0); cbn [negb bz]; set_wifi.
  - unfold set_ConTryTimes. set_wifi.
  - unfold set_WmmEn. set_wifi.
  - unfold set_WscEn. set_wifi.
Qed.

Lemma control_calls_ok a b d e l :
  ok_call CWiFiStart ∧ ok_call CWiFiStop ∧ ok_call CWPSStop ∧ ok_call (CScan a b d e) ∧
  ok_call (CTxRate a b) ∧ ok_call (CTxPwr a) ∧ ok_call (CPowerSave a) ∧ ok_call (CDeepSleep a) ∧
  ok_call (CBeaconPeriod a b) ∧ ok_call (CListenInterval a b) ∧ ok_call (CDirectCfg a b d) ∧
  ok_call (CPeerAgeOut a) ∧ ok_call (CProtectMode a) ∧ ok_call (CWPSStart a b) ∧ ok_call (CVendorIE a b) ∧
  ok_call (CSniffer a l b) ∧ ok_call (CPeerKickOut (Some l)) ∧ ok_call (CPeerKickOut None).
Proof.
  split_ands; intros s Hs Hc; cbn [inf_run call_ok] in *; unfold InfWiFiStart, InfWiFiStop, InfWPSStop,
    InfScanStart, InfTxRateSet, InfTxPwrLevelSet, InfPowerSaveSet, InfDeepSleepSet, InfBeaconPeriodSet,
    InfListenIntervalSet, InfDirectCfgStart, InfPeerAgeOutSet, InfProtectModeSet, InfWPSStart,
    InfVendorIESet, InfSnifferStart, InfPeerKickOut, PARAM_RATE_MODE_CCK.
  1-3: posted.
  - destruct (_ || _); [rejected|posted].
  - destruct (a =? 0); [|destruct (_ || _); [|rejected]]; (split_guard; [rejected|posted]).
  - split_guard; [rejected|posted].
  - split_guard; [rejected|posted].
  - destruct (_ && _); [rejected|posted].
  - posted.
  - split_guard; [rejected|posted].
  - destruct (negb _); posted.
  - posted.
  - split_guard; [rejected|posted].
  - split_guard; [rejected|]. destruct (_ =? _); posted.
  - posted.
  - destruct Hc as [[Hl Hb] Hch]. rewrite memcpy_from_Some by lia. cbn [mbind option_bind].
    accepted. apply post_sys_ok; [done| |].
    + apply Forall_app. split; [apply le32_bytes|]. apply Forall_app. split; [by apply slice_bytes|by apply Forall_singleton].
    + rewrite !length_app, length_slice by lia. cbn. unfold msgBody_size. lia.
  - destruct Hc as [Hl Hb]. rewrite memcpy_from_Some by lia. cbn [mbind option_bind].
    accepted. apply post_sys_ok; [done|by apply slice_bytes|]. rewrite length_slice by lia. cbn. unfold msgBody_size. lia.
  - rejected.
Qed.

Lemma store_ok xs b i : is_byte i → bytes_ok b → (Z.to_nat i < length b)%nat →
  xs = 0 → memcpy_to i [xs] b = Some (<[Z.to_nat i := 0]> b) ∧ bytes_ok (<[Z.to_nat i := 0]> b).
Proof.
  intros Hi Hb Hl ->. unfold is_byte in Hi. rewrite memcpy_to_Some by (cbn [length]; lia). split.
  - f_equal. unfold store_at. cbn [length app]. rewrite insert_take_drop by lia. by rewrite Nat.add_1_r.
  - apply Forall_insert; [done|]. unfold is_byte. lia.
Qed.

Lemma ssid_call_ok p n : ok_call (CSsid p n).
Proof.
  intros s Hs Hc. cbn [inf_run call_ok] in *. unfold InfSsidSet. destruct Hc as [Hn Hp].
  assert (Hfail : ∃ s' r, Some (with_wifi (λ w, set_Ssid (<[0%nat := 0]> (Ssid w)) w) s, -1) = Some (s', r)
      ∧ call_effect (CSsid p n) s s' r).
  { eexists _, _. split; [reflexivity|]. split; [|split; [by right|by split]].
    apply with_wifi_ok; [done|]. wifi_fields. unfold set_Ssid, wifi_ok.
    cbn [Ssid SSIDBrdEnable PhyMode Channel Encry AuthMode Protocol KeyLength KeyIndex PSK WscEn ConTryTimes WmmEn].
    split_ands; try done; try lia.
    - by rewrite length_insert.
    - apply Forall_insert; [done|]. unfold is_byte. lia.
    - by rewrite list_lookup_insert_ne. }
  destruct p as [p|]; [|exact Hfail]. destruct Hp as [Hl Hb].
  destruct (Z.ltb_spec 32 n); [exact Hfail|]. destruct (Z.eqb_spec n 0); [exact Hfail|]. cbn [orb]. clear Hfail.
  unfold is_byte in Hn. rewrite memcpy_from_Some by lia. cbn [mbind option_bind].
  pose proof Hs as Hs'. wifi_fields.
  destruct (copy_into (slice (Z.to_nat 0) (Z.to_nat n) p) (Ssid (WiFiCfg (SysParam s))) (Z.to_nat n))
    as (b & -> & Hlb & Hbb & Hrest); [by apply slice_bytes|done|rewrite length_slice by lia; lia|lia|].
  cbn [mbind option_bind]. destruct (store_ok 0 b n) as [-> Hb']; [unfold is_byte; lia|done|lia|done|].
  cbn [mbind option_bind]. unfold set_Ssid. set_wifi.
  - by rewrite length_insert, Hlb.
  - destruct (decide (Z.to_nat n = 32%nat)) as [->|].
    + rewrite list_lookup_insert_eq; [done|lia].
    + rewrite list_lookup_insert_ne, Hrest; [done|rewrite length_slice by lia; lia|done].
Qed.
Lemma key_call_ok i p n : ok_call (CKey i p n).
Proof.
  intros s Hs Hc. cbn [inf_run call_ok] in *. unfold InfKeySet. destruct Hc as (Hi & Hn & Hp).
  destruct p as [p|]; [|rejected]. destruct Hp as [Hl Hb].
  destruct (Z.ltb_spec 3 i); [rejected|]. destruct (Z.ltb_spec 64 n); [rejected|]. cbn [orb].
  unfold is_byte in Hn, Hi. rewrite memcpy_from_Some by lia. cbn [mbind option_bind].
  pose proof Hs as Hs'. wifi_fields. set (b0 := PSK (WiFiCfg (SysParam s))) in *.
  assert (Hb1 : ∃ b, memcpy_to 0 (slice (Z.to_nat 0) (Z.to_nat n) p) b0 = Some b ∧ length b = 64%nat ∧ bytes_ok b).
  { exists (store_at 0 (slice (Z.to_nat 0) (Z.to_nat n) p) b0).
    assert (length (slice (Z.to_nat 0) (Z.to_nat n) p) = Z.to_nat n) by (apply length_slice; lia).
    split_ands; [apply memcpy_to_Some; lia|by rewrite length_store_at by lia|].
    apply store_at_bytes; [by apply slice_bytes|done]. }
  destruct Hb1 as (b & -> & Hlb & Hbb). cbn [mbind option_bind].
  destruct (Z.ltb_spec n 64).
  - destruct (store_ok 0 b n) as [-> Hb']; [unfold is_byte; lia|done|lia|done|].
    cbn [mbind option_bind]. unfold set_Key. set_wifi. by rewrite length_insert.
  - cbn [mbind option_bind]. unfold set_Key. set_wifi.
Qed.

Lemma hex2_bytes b : is_byte b → bytes_ok (hex2 b).
Proof.
  intros Hb. assert (H : forallb (λ b, forallb (λ c, (0 <=? c) && (c <? 256)) (hex2 b)) bytes256 = true)
    by (vm_compute; reflexivity).
  pose proof (for_all_bytes _ H b Hb) as Hf. cbv beta in Hf. apply Forall_forall. intros c Hc.
  rewrite forallb_forall in Hf. apply list_elem_of_In in Hc. specialize (Hf c Hc). unfold is_byte. lia.
Qed.
Lemma field_ok n str : (S (length str) < n)%nat → bytes_ok str →
  length (field n str) = n ∧ bytes_ok (field n str) ∧ field n str !! (n - 1)%nat = Some 0.
Proof.
  intros Hl Hb. unfold field.
  assert (Hsl : length (str ++ [0]) = S (length str)) by (rewrite length_app; cbn; lia).
  split_ands.
  - rewrite length_store_at, length_replicate; [done|]. rewrite length_replicate. lia.
  - apply store_at_bytes; [apply Forall_app; split; [done|by apply Forall_singleton]|].
    apply Forall_replicate. unfold is_byte. lia.
  - unfold store_at. rewrite take_0, Hsl. cbn [app Nat.add].
    rewrite lookup_app_r, Hsl, drop_replicate by lia. apply lookup_replicate. lia.
Qed.
(** The state after power-on with this permanent address. *)
Definition booted (mac : list Z) : sys :=
  InfLoadDefaultParam (Sys (CfgParam (WifiCfg [] 0 0 0 0 0 0 0 0 [] 0 0 0) (IpCfg [] [] [] [] 0 0) 0 0 []) mac 0 []).
Lemma default_wifi_ok mac : length mac = 6%nat → bytes_ok mac → cfg_ok (SysParam (booted mac)).
Proof.
  intros Hl Hm. unfold booted. explode mac Hl. rewrite !Forall_cons in Hm. destruct Hm as (? & ? & M2 & M3 & M4 & M5 & _).
  cbn [InfLoadDefaultParam SysParam PermanentAddress].
  destruct (field_ok 33 (ascii_NuAgent ++ hex02 z1 ++ hex02 z2 ++ hex02 z3 ++ hex02 z4)) as (F1 & F2 & F3).
  { cbn. lia. } { unfold hex02. rewrite !Forall_app. split_ands; try (by apply hex2_bytes).
    repeat constructor; unfold is_byte; lia. }
  destruct (field_ok 64 ascii_123456789) as (G1 & G2 & _); [apply Nat.ltb_lt; reflexivity|repeat constructor; unfold is_byte; lia|].
  destruct (field_ok 33 ascii_local_nufront) as (D1 & D2 & D3); [apply Nat.ltb_lt; reflexivity|repeat constructor; unfold is_byte; lia|].
  unfold cfg_ok, wifi_ok. cbn [WiFiCfg IPCfg bDhcpServer bDnsServer DnsName Ssid PSK].
  change (byte_at [z; z0; z1; z2; z3; z4] 2) with z1. change (byte_at [z; z0; z1; z2; z3; z4] 3) with z2.
  change (byte_at [z; z0; z1; z2; z3; z4] 4) with z3. change (byte_at [z; z0; z1; z2; z3; z4] 5) with z4.
  cbn [WiFiCfg IPCfg Ssid SSIDBrdEnable PhyMode Channel Encry AuthMode Protocol KeyLength KeyIndex PSK WscEn ConTryTimes WmmEn].
  repeat match goal with |- _ ∧ _ => split end; try assumption; try lia; try reflexivity; try discriminate;
    try exact F1; try exact G1; try (unfold is_byte; lia).
  unfold ip_ok. cbn [Ip Netmask GateWay Dns bDhcp DhcpTryTimes].
  split_ands; try reflexivity; try discriminate; try (unfold is_byte; lia);
    repeat first [apply List.Forall_nil | apply List.Forall_cons; [unfold is_byte; lia|]].
Qed.

Lemma other_calls_ok a l n ip :
  ok_call CLoadDefault ∧ ok_call (CIp (Some ip)) ∧ ok_call (CIp None) ∧ ok_call (CDhcpSrv a) ∧
  ok_call (CDnsSrv a (Some l) n) ∧ ok_call (CDnsSrv a None n) ∧ ok_call (CMacAddr (Some l)) ∧
  ok_call (CMacAddr None) ∧ ok_call (CSysEvtCB a).
Proof.
  assert (Hbz : 0 <= bz (negb (a =? 0)) <= 1) by (destruct (a =? 0); cbn; lia).
  split_ands; intros s Hs Hc; cbn [inf_run call_ok] in *;
    unfold InfIpSet, InfDhcpSrvSet, InfDnsSrvSet, InfMacAddrSet, InfSysEvtCBSet.
  - accepted. destruct Hs as (_ & [Hl Hb] & Hp). split; [exact (default_wifi_ok _ Hl Hb)|done].
  - accepted. destruct Hs as ((Hw & _ & H) & H'). split; [split; [exact Hw|split; [exact Hc|exact H]]|exact H'].
  - rejected.
  - accepted. destruct Hs as ((Hw & Hi & _ & H) & H'). split; [split; [exact Hw|split; [exact Hi|split; [exact Hbz|exact H]]]|exact H'].
  - destruct Hc as (Hn & Hl & Hb). destruct (negb (a =? 0)).
    + destruct (Z.ltb_spec 32 n); [rejected|]. unfold is_byte in Hn.
      rewrite memcpy_from_Some by lia. cbn [mbind option_bind].
      destruct (Hs) as ((Hw & Hi & Hd & Hdn & Hl3 & Hb3 & H32) & H').
      destruct (copy_into (slice (Z.to_nat 0) (Z.to_nat n) l) (DnsName (SysParam s)) (Z.to_nat n))
        as (b & -> & Hlb & Hbb & Hrest); [by apply slice_bytes|done|rewrite length_slice by lia; lia|lia|].
      cbn [mbind option_bind]. accepted. unfold sys_ok, cfg_ok. cbn [SysParam with_servers WiFiCfg IPCfg bDhcpServer bDnsServer DnsName].
      split; [|exact H']. split_ands; try assumption; try lia.
      rewrite Hrest; [done|]. rewrite length_slice by lia. lia.
    + accepted. destruct Hs as ((Hw & Hi & Hd & _ & H) & H').
      split; [split; [exact Hw|split; [exact Hi|split; [exact Hd|split; [cbn; lia|exact H]]]]|exact H'].
  - destruct (negb (a =? 0)); [rejected|]. accepted. destruct Hs as ((Hw & Hi & Hd & _ & H) & H').
    split; [split; [exact Hw|split; [exact Hi|split; [exact Hd|split; [cbn; lia|exact H]]]]|exact H'].
  - destruct Hc as (Hl & Hb). destruct (Hs) as (Hcfg & [Hla Hba] & Hp).
    rewrite memcpy_from_Some by lia. cbn [mbind option_bind].
    rewrite memcpy_to_Some by (rewrite ?length_slice by lia; lia). cbn [mbind option_bind].
    accepted. split; [exact Hcfg|split; [|exact Hp]]. split.
    + cbn [PermanentAddress]. rewrite length_store_at; [done|]. rewrite length_slice by lia. lia.
    + apply store_at_bytes; [by apply slice_bytes|done].
  - rejected.
  - destruct (a =? 0); [rejected|]. accepted. exact Hs.
Qed.

(** The goal is an instance of a member of the conjunction [L]. *)
Ltac from_conj H :=
  first [exact H | match type of H with ?P ∧ ?Q => first [exact (proj1 H) | from_conj (proj2 H)] end].
Tactic Notation "from_list" open_constr(L) :=
  from_conj L.

(** C30: every call of the configuration and control interface that sets something or posts
    a message (the 34 of [inf_call]), from a well-formed state and with buffers as long as
    their lengths say, stays inside all fields and buffers, returns 0 or -1, keeps the
    configuration well-formed (field sizes, both names terminated, every mode within its
    enumeration) and posts only bodies that fit a task message.  A rejected call changes
    nothing, [InfSsidSet] excepted, which clears the first byte of the name and changes
    nothing else; an accepted control call posts exactly one message and changes nothing
    else, and an accepted configuration call posts none.  The six queries are not among the
    calls: [InfConfigQuery], [InfSysTimeGet], [InfPeerRssiGet], [InfCurChGet] and
    [InfStaWpsPinGet] set nothing here, and [InfEfuseInfoGet] writes as many words as it is
    asked for through the caller's pointer, with no check of their number. *)
Theorem param_calls_preserve c s : sys_ok s → call_ok c →
  ∃ s' r, inf_run c s = Some (s', r) ∧ call_effect c s s' r.
Proof.
  intros Hs Hc. revert s Hs Hc. change (ok_call c).
  destruct c as [|m|m|p n|e|ch|m|m|i p n|n|e|e|[ip|]|e|e [p|] n|[p|]|f| | |t n r ty|m i|l|m|m|b e|n d
    |r n p|f b ch|t|[p|]|m|m pin| |p n];
    first [exact (ssid_call_ok p n) | exact (key_call_ok i p n) | from_list (mode_calls_ok _)
          | from_list (other_calls_ok _ _ _ _) | from_list (control_calls_ok _ _ _ _ _)].
  Unshelve. all: first [exact 0 | exact [] | exact (IpCfg [] [] [] [] 0 0)].
Qed.

Lemma booted_ok mac : length mac = 6%nat → bytes_ok mac → sys_ok (booted mac).
Proof. intros Hl Hm. split; [by apply default_wifi_ok|]. split; [by split|]. by apply List.Forall_nil. Qed.

Lemma param_calls_preserve_witness :
  ∃ s' r, inf_run (CKey 3 (Some [65; 66]) 2) (booted [1; 2; 3; 4; 5; 6]) = Some (s', r) ∧
    call_effect (CKey 3 (Some [65; 66]) 2) (booted [1; 2; 3; 4; 5; 6]) s' r.
Proof.
  apply (param_calls_preserve (CKey 3 (Some [65; 66]) 2)).
  - apply booted_ok; [reflexivity|]. repeat (apply List.Forall_cons; [unfold is_byte; lia|]). apply List.Forall_nil.
  - cbn [call_ok]. unfold is_byte, buffer_ok. split_ands; try lia.
    + cbn. lia.
    + repeat (apply List.Forall_cons; [unfold is_byte; lia|]). apply List.Forall_nil.
Defined.

(** ** The two names *)

(** What a string copy leaves in a field: the new bytes in front of the old ones. *)
Lemma InfDnsSrvSet_bytes Enable p n s : Enable ≠ 0 → 0 <= n <= 32 → n <= Z.of_nat (length p) →
  length (DnsName (SysParam s)) = 33%nat →
  InfDnsSrvSet Enable (Some p) n s = Some (with_servers (bDhcpServer (SysParam s)) 1
    (take (Z.to_nat n) p ++ drop (Z.to_nat n) (DnsName (SysParam s))) s, 0).
Proof.
  intros He Hn Hp Hl. unfold InfDnsSrvSet. destruct (Z.eqb_spec Enable 0); [done|]. cbn [negb].
  destruct (Z.ltb_spec 32 n); [lia|]. rewrite memcpy_from_Some by lia. cbn [mbind option_bind].
  assert (Hlen : length (slice (Z.to_nat 0) (Z.to_nat n) p) = Z.to_nat n) by (apply length_slice; lia).
  rewrite memcpy_to_Some by lia. cbn [mbind option_bind]. do 4 f_equal.
  unfold store_at. rewrite Hlen. change (Z.to_nat 0) with 0%nat. rewrite take_0. cbn [app Nat.add].
  unfold slice. by rewrite drop_0.
Qed.

(** [InfDnsSrvSet] copies the name without its terminator, so a name that replaces a
    longer one is served with the old name's tail: the field holds the new name followed
    by what the old one had after that many characters. *)
Theorem InfDnsSrvSet_keeps_old_tail Enable new old s : Enable ≠ 0 →
  holds (DnsName (SysParam s)) old → length (DnsName (SysParam s)) = 33%nat →
  Forall (.≠ 0) new → (length new <= length old)%nat →
  ∃ s', InfDnsSrvSet Enable (Some new) (Z.of_nat (length new)) s = Some (s', 0) ∧
    bDnsServer (SysParam s') = 1 ∧ holds (DnsName (SysParam s')) (new ++ drop (length new) old).
Proof.
  intros He [Ho [rest Hf]] Hl Hn Hlen.
  assert (length old <= 32)%nat by (rewrite Hf, length_app in Hl; cbn [length] in Hl; lia).
  eexists. split; [apply InfDnsSrvSet_bytes; [done|lia|lia|done]|].
  split; [reflexivity|]. cbn [SysParam with_servers DnsName].
  rewrite Nat2Z.id, firstn_all. split.
  - apply Forall_app. split; [done|by apply Forall_drop].
  - exists rest. rewrite Hf, drop_app_le by done. by rewrite <-app_assoc.
Qed.
Lemma InfDnsSrvSet_keeps_old_tail_witness :
  ∃ s', InfDnsSrvSet 1 (Some [109; 121]) 2 (booted [1; 2; 3; 4; 5; 6]) = Some (s', 0) ∧
    bDnsServer (SysParam s') = 1 ∧ holds (DnsName (SysParam s')) ([109; 121] ++ drop 2 ascii_local_nufront).
Proof.
  apply (InfDnsSrvSet_keeps_old_tail 1 [109; 121] ascii_local_nufront (booted [1; 2; 3; 4; 5; 6])).
  - lia.
  - split; [repeat (apply List.Forall_cons; [lia|]); apply List.Forall_nil|]. eexists. vm_compute. reflexivity.
  - reflexivity.
  - repeat (apply List.Forall_cons; [lia|]). apply List.Forall_nil.
  - apply Nat.leb_le. reflexivity.
Defined.

(** [InfSysTimeGet] is the whole milliseconds of [Ticks] ticks of 125/1024 ms, over the
    whole range of a non-negative 64-bit counter although the product would overflow. *)
Theorem InfSysTimeGet_exact Ticks : 0 <= Ticks < 2 ^ 63 → InfSysTimeGet Ticks = Ticks * 125 / 1024.
Proof.
  intros Ht. unfold InfSysTimeGet. rewrite !Z.quot_div_nonneg, Z.rem_mod_nonneg by lia.
  assert (Hi : ∀ x, 0 <= x < 2 ^ 63 → i64 x = x) by (intros x Hx; unfold i64; rewrite Z.mod_small; lia).
  pose proof (Z.div_mod Ticks 1024 ltac:(lia)) as Hdm. pose proof (Z.mod_pos_bound Ticks 1024 ltac:(lia)).
  set (q := Ticks / 1024) in *. set (r := Ticks mod 1024) in *. clearbody q r.
  change (2 ^ 63) with 9223372036854775808 in *.
  rewrite (Hi (q * 125)), (Hi (r * 125)) by lia. rewrite Z.quot_div_nonneg by lia.
  replace (Ticks * 125) with (r * 125 + q * 125 * 1024) by lia. rewrite Z.div_add by lia.
  assert (0 <= r * 125 / 1024 <= 125)
    by (split; [apply Z.div_pos; lia|apply Z.div_le_upper_bound; lia]).
  rewrite Hi; lia.
Qed.
Lemma InfSysTimeGet_exact_witness : InfSysTimeGet 9223372036854775807 = 9223372036854775807 * 125 / 1024.
Proof. apply InfSysTimeGet_exact. lia. Defined.
