(* ===== verification/Udp.v ===== *)
(** The UDP control blocks of the IP stack: their memory pool ([LwIP/src/core/memp.c], as
    far as the pool of UDP control blocks goes), the list of bound blocks and the choice of
    the receiver ([LwIP/src/core/udp.c]).

    Blocks live at addresses in a finite map.  A free block holds the link of the free
    list in its first word, which is the local address while it is in use; nothing keeps
    a block that is already free from being freed again.  [None] is an access to an
    address where no block lives, or a walk along a list that never ends.  The build
    options are those of [port/include/lwipopts.h]: no UDP-Lite, no [SO_REUSE], no
    statistics, no SNMP. *)
From S2P Require Import Prelude.

Definition ERR_OK : Z := 0.
Definition ERR_USE : Z := -8.
Definition MEMP_NUM_UDP_PCB : nat := 6.
Definition UDP_TTL : Z := 255.
Definition UDP_FLAGS_CONNECTED : Z := 4.
Definition UDP_LOCAL_PORT_RANGE_START : Z := 0xc000.
Definition UDP_LOCAL_PORT_RANGE_END : Z := 0xffff.
Definition DHCP_CLIENT_PORT : Z := 68.
Definition DHCP_SERVER_PORT : Z := 67.
Definition NETIF_FLAG_UP : Z := 1.
Definition NETIF_FLAG_BROADCAST : Z := 2.

(** [recv] is the callback's address (0 for none). *)
(* @ LwIP/src/include/lwip/udp.h:91-117 udp_pcb *)
Record udp_pcb := UdpPcb {
  local_ip : Z; remote_ip : Z; so_options : Z; tos : Z; ttl : Z;
  next : Z; flags : Z; local_port : Z; remote_port : Z; recv : Z; recv_arg : Z }.
Definition zero_pcb : udp_pcb := UdpPcb 0 0 0 0 0 0 0 0 0 0 0.

Definition set_word0 (v : Z) (p : udp_pcb) : udp_pcb :=
  UdpPcb v (remote_ip p) (so_options p) (tos p) (ttl p) (next p) (flags p) (local_port p) (remote_port p) (recv p) (recv_arg p).
Definition set_ttl (v : Z) (p : udp_pcb) : udp_pcb :=
  UdpPcb (local_ip p) (remote_ip p) (so_options p) (tos p) v (next p) (flags p) (local_port p) (remote_port p) (recv p) (recv_arg p).
Definition set_link (v : Z) (p : udp_pcb) : udp_pcb :=
  UdpPcb (local_ip p) (remote_ip p) (so_options p) (tos p) (ttl p) v (flags p) (local_port p) (remote_port p) (recv p) (recv_arg p).
Definition set_local (ip port : Z) (p : udp_pcb) : udp_pcb :=
  UdpPcb ip (remote_ip p) (so_options p) (tos p) (ttl p) (next p) (flags p) port (remote_port p) (recv p) (recv_arg p).
Definition set_remote (ip port f : Z) (p : udp_pcb) : udp_pcb :=
  UdpPcb (local_ip p) ip (so_options p) (tos p) (ttl p) (next p) f (local_port p) port (recv p) (recv_arg p).
Definition set_recv (f arg : Z) (p : udp_pcb) : udp_pcb :=
  UdpPcb (local_ip p) (remote_ip p) (so_options p) (tos p) (ttl p) (next p) (flags p) (local_port p) (remote_port p) f arg.

(** The pool's free list head, the blocks, the head of the bound list and the last
    automatic port. *)
Record udp := Udp { memp_tab : Z; mem : gmap Z udp_pcb; udp_pcbs : Z; udp_port : Z }.
Definition with_mem (m : gmap Z udp_pcb) (u : udp) : udp := Udp (memp_tab u) m (udp_pcbs u) (udp_port u).
Definition with_tab (t : Z) (u : udp) : udp := Udp t (mem u) (udp_pcbs u) (udp_port u).
Definition with_head (h : Z) (u : udp) : udp := Udp (memp_tab u) (mem u) h (udp_port u).
Definition with_port (p : Z) (u : udp) : udp := Udp (memp_tab u) (mem u) (udp_pcbs u) p.
(** Assign through the pointer [a]. *)
Definition upd (a : Z) (f : udp_pcb → udp_pcb) (u : udp) : option udp :=
  p ← mem u !! a; Some (with_mem (<[a := f p]> (mem u)) u).

(** ** The pool *)

(** The pool's part of the loop: [num] blocks of [size] bytes from [memp] on. *)
(* @ LwIP/src/core/memp.c:359-368 memp_init *)
Fixpoint memp_init_loop (num : nat) (memp size : Z) (u : udp) : udp :=
  match num with
  | O => u
  | S num =>
      let u := with_mem (<[memp := set_word0 (memp_tab u) zero_pcb]> (mem u)) u in
      memp_init_loop num (memp + size) size (with_tab memp u)
  end.
(* @ LwIP/src/core/memp.c:353-358 memp_init *)
Definition memp_init (base size : Z) : udp :=
  memp_init_loop MEMP_NUM_UDP_PCB base size (Udp 0 ∅ 0 UDP_LOCAL_PORT_RANGE_START).
(* @ LwIP/src/core/memp.c:389-425 memp_malloc *)
Definition memp_malloc (u : udp) : option (udp * Z) :=
  let memp := memp_tab u in
  if negb (memp =? 0) then p ← mem u !! memp; Some (with_tab (local_ip p) u, memp)
  else Some (u, 0).
(* @ LwIP/src/core/memp.c:434-467 memp_free *)
Definition memp_free (a : Z) (u : udp) : option udp :=
  if a =? 0 then Some u else
  u ← upd a (set_word0 (memp_tab u)) u; Some (with_tab a u).

(** ** Making, binding and removing control blocks *)

(* @ LwIP/src/core/udp.c:975-990 udp_new *)
Definition udp_new (u : udp) : option (udp * Z) :=
  '(u, pcb) ← memp_malloc u;
  if negb (pcb =? 0)
  then u ← upd pcb (λ _, set_ttl UDP_TTL zero_pcb) u; Some (u, pcb)
  else Some (u, pcb).

(** [for (ipcb = udp_pcbs; ipcb != NULL; ipcb = ipcb->next)]: the blocks passed. *)
(* @ LwIP/src/core/udp.c:892-897 udp_connect *)
Fixpoint walk (fuel : nat) (m : gmap Z udp_pcb) (a : Z) : option (list Z) :=
  if a =? 0 then Some [] else
  match fuel with
  | O => None
  | S fuel => p ← m !! a; l ← walk fuel m (next p); Some (a :: l)
  end.

(** [for (pcb = udp_pcbs; pcb != NULL; pcb = pcb->next)] with the test of the port. *)
(* @ LwIP/src/core/udp.c:108-109 udp_new_port *)
Fixpoint port_used (fuel : nat) (m : gmap Z udp_pcb) (pcb port : Z) : option bool :=
  if pcb =? 0 then Some false else
  match fuel with
  | O => None
  | S fuel => p ← m !! pcb; if local_port p =? port then Some true else port_used fuel m (next p) port
  end.
Definition walk_fuel (u : udp) : nat := S (size (mem u)).
(* @ LwIP/src/core/udp.c:103-116 udp_new_port *)
Fixpoint udp_new_port_loop (fuel : nat) (n : Z) (u : udp) : option (udp * Z) :=
  match fuel with
  | O => None
  | S fuel =>
      let u := with_port (if udp_port u =? UDP_LOCAL_PORT_RANGE_END then UDP_LOCAL_PORT_RANGE_START
                          else u16 (udp_port u + 1)) u in
      used ← port_used (walk_fuel u) (mem u) (udp_pcbs u) (udp_port u);
      if (used : bool) then
        let n := u16 (n + 1) in
        if UDP_LOCAL_PORT_RANGE_END - UDP_LOCAL_PORT_RANGE_START <? n then Some (u, 0)
        else udp_new_port_loop fuel n u
      else Some (u, udp_port u)
  end.
Definition port_fuel : nat := Z.to_nat 16385.
(* @ LwIP/src/core/udp.c:97-102 udp_new_port *)
Definition udp_new_port (u : udp) : option (udp * Z) := udp_new_port_loop port_fuel 0 u.

(** The scan of the bound list: [None] inside is [ERR_USE], otherwise [rebind]. *)
(* @ LwIP/src/core/udp.c:776-806 udp_bind *)
Fixpoint bind_scan (fuel : nat) (m : gmap Z udp_pcb) (pcb ipaddr port ipcb : Z) (rebind : bool)
    : option (option bool) :=
  if ipcb =? 0 then Some (Some rebind) else
  match fuel with
  | O => None
  | S fuel =>
      p ← m !! ipcb;
      if pcb =? ipcb then bind_scan fuel m pcb ipaddr port (next p) true
      else if (local_port p =? port) &&
              ((local_ip p =? 0) || (ipaddr =? 0) || (local_ip p =? ipaddr)) then Some None
      else bind_scan fuel m pcb ipaddr port (next p) rebind
  end.
(* @ LwIP/src/core/udp.c:764-833 udp_bind *)
Definition udp_bind (pcb ipaddr port : Z) (u : udp) : option (udp * Z) :=
  r ← bind_scan (walk_fuel u) (mem u) pcb ipaddr port (udp_pcbs u) false;
  match r with
  | None => Some (u, ERR_USE)
  | Some rebind =>
      p ← mem u !! pcb;
      u ← upd pcb (set_local ipaddr (local_port p)) u;
      '(u, port) ← (if port =? 0 then udp_new_port u else Some (u, port));
      if port =? 0 then Some (u, ERR_USE) else
      u ← upd pcb (set_local ipaddr port) u;
      if negb rebind then
        u ← upd pcb (set_link (udp_pcbs u)) u; Some (with_head pcb u, ERR_OK)
      else Some (u, ERR_OK)
  end.

(* @ LwIP/src/core/udp.c:851-902 udp_connect *)
Definition udp_connect (pcb ipaddr port : Z) (u : udp) : option (udp * Z) :=
  p ← mem u !! pcb;
  '(u, err) ← (if local_port p =? 0 then udp_bind pcb (local_ip p) (local_port p) u else Some (u, ERR_OK));
  if negb (err =? ERR_OK) then Some (u, err) else
  u ← upd pcb (λ p, set_remote ipaddr port (Z.lor (flags p) UDP_FLAGS_CONNECTED) p) u;
  l ← walk (walk_fuel u) (mem u) (udp_pcbs u);
  if bool_decide (pcb ∈ l) then Some (u, ERR_OK) else
  u ← upd pcb (set_link (udp_pcbs u)) u; Some (with_head pcb u, ERR_OK).

(* @ LwIP/src/core/udp.c:928-934 udp_recv *)
Definition udp_recv (pcb f arg : Z) (u : udp) : option udp := upd pcb (set_recv f arg) u.

(* @ LwIP/src/core/udp.c:909-917 udp_disconnect *)
Definition udp_disconnect (pcb : Z) (u : udp) : option udp :=
  upd pcb (λ p, set_remote 0 0 (Z.land (flags p) (Z.lnot UDP_FLAGS_CONNECTED)) p) u.

(* @ LwIP/src/core/udp.c:956-962 udp_remove *)
Fixpoint remove_loop (fuel : nat) (pcb pcb2 : Z) (u : udp) : option udp :=
  if pcb2 =? 0 then Some u else
  match fuel with
  | O => None
  | S fuel =>
      p2 ← mem u !! pcb2;
      u ← (if negb (next p2 =? 0) && (next p2 =? pcb)
           then p ← mem u !! pcb; upd pcb2 (set_link (next p)) u else Some u);
      p2 ← mem u !! pcb2;
      remove_loop fuel pcb (next p2) u
  end.
(* @ LwIP/src/core/udp.c:944-965 udp_remove *)
Definition udp_remove (pcb : Z) (u : udp) : option udp :=
  u ← (if udp_pcbs u =? pcb then p ← mem u !! pcb; Some (with_head (next p) u)
       else remove_loop (walk_fuel u) pcb (udp_pcbs u) u);
  memp_free pcb u.

(** ** The receiver of a datagram *)

(** What is read of the interface. *)
Record inp_view := InpView { in_ip : Z; in_mask : Z; in_flags : Z; in_dhcp_pcb : Z }.

(* @ LwIP/src/core/ipv4/ip_addr.c:54-82 ip4_addr_isbroadcast *)
Definition ip4_addr_isbroadcast (addr : Z) (nif : inp_view) : bool :=
  if (u32 (Z.lnot addr) =? 0) || (addr =? 0) then true
  else if Z.land (in_flags nif) NETIF_FLAG_BROADCAST =? 0 then false
  else if addr =? in_ip nif then false
  else (Z.land addr (in_mask nif) =? Z.land (in_ip nif) (in_mask nif)) &&
       (Z.land addr (u32 (Z.lnot (in_mask nif))) =? u32 (Z.lnot (in_mask nif))).

(* @ LwIP/src/core/udp.c:240-255 udp_input *)
Definition local_match (p : udp_pcb) (broadcast : bool) (dst dest mask : Z) : bool :=
  (local_port p =? dest) &&
  ((negb broadcast && (local_ip p =? 0)) || (local_ip p =? dst) ||
   (broadcast && ((local_ip p =? 0) || (Z.land (local_ip p) mask =? Z.land dst mask)))).
(** The loop: the fully matching block if there is one (moved to the front), otherwise the
    first unconnected one that matches. *)
(* @ LwIP/src/core/udp.c:228-282 udp_input *)
Fixpoint demux_loop (fuel : nat) (broadcast : bool) (dst dest srcip src mask : Z)
    (pcb prev uncon : Z) (u : udp) : option (udp * Z) :=
  if pcb =? 0 then Some (u, uncon) else
  match fuel with
  | O => None
  | S fuel =>
      p ← mem u !! pcb;
      let m := local_match p broadcast dst dest mask in
      let uncon := if m && (uncon =? 0) && (Z.land (flags p) UDP_FLAGS_CONNECTED =? 0) then pcb else uncon in
      if m && (remote_port p =? src) && ((remote_ip p =? 0) || (remote_ip p =? srcip)) then
        if negb (prev =? 0) then
          u ← upd prev (set_link (next p)) u;
          u ← upd pcb (set_link (udp_pcbs u)) u;
          Some (with_head pcb u, pcb)
        else Some (u, pcb)
      else demux_loop fuel broadcast dst dest srcip src mask (next p) pcb uncon u
  end.
(** The block a datagram for [dst]:[dest] from [srcip]:[src] is handed to (0 for none). *)
(* @ LwIP/src/core/udp.c:181-287 udp_input *)
Definition udp_demux (dst dest srcip src : Z) (inp : inp_view) (u : udp) : option (udp * Z) :=
  let broadcast := ip4_addr_isbroadcast dst inp in
  if dest =? DHCP_CLIENT_PORT then
    if (src =? DHCP_SERVER_PORT) && negb (in_dhcp_pcb inp =? 0) then
      p ← mem u !! in_dhcp_pcb inp;
      Some (u, if (remote_ip p =? 0) || (remote_ip p =? srcip) then in_dhcp_pcb inp else 0)
    else Some (u, 0)
  else demux_loop (walk_fuel u) broadcast dst dest srcip src (in_mask inp) (udp_pcbs u) 0 0 u.

(** ** The abstract socket table *)

(** What a client sees of a block. *)
Record sock := Sock {
  s_ip : Z; s_port : Z; s_remote_ip : Z; s_remote_port : Z; s_flags : Z; s_recv : Z; s_arg : Z }.
Definition sock_of (p : udp_pcb) : sock :=
  Sock (local_ip p) (local_port p) (remote_ip p) (remote_port p) (flags p) (recv p) (recv_arg p).
Definition new_sock : sock := Sock 0 0 0 0 0 0 0.
Abbreviation table := (list (Z * sock)).

(** Free blocks in the order they are handed out, bound sockets in search order, and
    sockets not bound yet. *)
Record socks := Socks { free : list Z; bound : table; fresh : table }.
Definition live (t : socks) : list Z := (bound t).*1 ++ (fresh t).*1.

Definition alter_sock (a : Z) (f : sock → sock) (l : table) : table :=
  map (λ '(b, s), (b, if b =? a then f s else s)) l.
Definition remove_sock (a : Z) (l : table) : table := filter (λ x, x.1 ≠ a) l.
(** Another socket on the same port, one of the addresses being the wildcard or both equal. *)
Definition conflicts (a ip port : Z) (l : table) : bool :=
  existsb (λ '(b, s), negb (a =? b) && (s_port s =? port) &&
    ((s_ip s =? 0) || (ip =? 0) || (s_ip s =? ip))) l.

Inductive sock_op :=
  | New | Bind (a ip port : Z) | Recv (a f arg : Z) | Disconnect (a : Z) | Remove (a : Z).
Definition sock_run (o : sock_op) (u : udp) : option (udp * Z) :=
  match o with
  | New => udp_new u
  | Bind a ip port => udp_bind a ip port u
  | Recv a f arg => u ← udp_recv a f arg u; Some (u, 0)
  | Disconnect a => u ← udp_disconnect a u; Some (u, 0)
  | Remove a => u ← udp_remove a u; Some (u, 0)
  end.
Definition alter (a : Z) (f : sock → sock) (t : socks) : socks :=
  Socks (free t) (alter_sock a f (bound t)) (alter_sock a f (fresh t)).
Definition s_bind (ip port : Z) (s : sock) : sock :=
  Sock ip port (s_remote_ip s) (s_remote_port s) (s_flags s) (s_recv s) (s_arg s).
Definition sock_spec (o : sock_op) (t : socks) : socks * Z :=
  match o with
  | New =>
      match free t with
      | [] => (t, 0)
      | a :: fr => (Socks fr (bound t) ((a, new_sock) :: fresh t), a)
      end
  | Bind a ip port =>
      if conflicts a ip port (bound t) then (t, ERR_USE)
      else let t := alter a (s_bind ip port) t in
           (Socks (free t) (filter (λ x, x.1 = a) (fresh t) ++ bound t) (remove_sock a (fresh t)), ERR_OK)
  | Recv a f arg => (alter a (λ s, Sock (s_ip s) (s_port s) (s_remote_ip s) (s_remote_port s) (s_flags s) f arg) t, 0)
  | Disconnect a =>
      (alter a (λ s, Sock (s_ip s) (s_port s) 0 0 (Z.land (s_flags s) (Z.lnot UDP_FLAGS_CONNECTED)) (s_recv s) (s_arg s)) t, 0)
  | Remove a => (Socks (a :: free t) (remove_sock a (bound t)) (remove_sock a (fresh t)), 0)
  end.
(** Operations take a socket that has been made and not been removed. *)
Definition sock_legal (o : sock_op) (t : socks) : Prop :=
  match o with
  | New => True
  | Bind a _ port => a ∈ live t ∧ port ≠ 0
  | Recv a _ _ | Disconnect a | Remove a => a ∈ live t
  end.

(** ** Representation *)

(** [l] is the list that starts at [h] and goes on by [nx]. *)
Fixpoint chain (nx : udp_pcb → Z) (m : gmap Z udp_pcb) (h : Z) (l : list Z) : Prop :=
  match l with
  | [] => h = 0
  | a :: l => h = a ∧ a ≠ 0 ∧ ∃ p, m !! a = Some p ∧ chain nx m (nx p) l
  end.
Definition entry_ok (m : gmap Z udp_pcb) (x : Z * sock) : Prop :=
  x.1 ≠ 0 ∧ ∃ p, m !! x.1 = Some p ∧ sock_of p = x.2.
Definition udp_rep (u : udp) (t : socks) : Prop :=
  chain local_ip (mem u) (memp_tab u) (free t) ∧ chain next (mem u) (udp_pcbs u) (bound t).*1 ∧
  Forall (entry_ok (mem u)) (bound t ++ fresh t) ∧ NoDup (free t ++ live t).

Section chains.
Context (nx : udp_pcb → Z).

Lemma chain_frame m h l a p : a ∉ l → chain nx m h l → chain nx (<[a := p]> m) h l.
Proof.
  revert h. induction l as [|b l IH]; intros h Ha H; [done|].
  apply not_elem_of_cons in Ha as [Hne Ha]. destruct H as (-> & Hb & q & Hq & H).
  split; [done|]. split; [done|]. exists q. rewrite lookup_insert_ne by done. split; [done|]. by apply IH.
Qed.
Lemma chain_same m h l a p q : m !! a = Some p → nx q = nx p → chain nx m h l → chain nx (<[a := q]> m) h l.
Proof.
  intros Hp Hq. revert h. induction l as [|b l IH]; intros h H; [done|].
  destruct H as (-> & Hb & r & Hr & H). split; [done|]. split; [done|].
  destruct (decide (b = a)) as [->|].
  - exists q. rewrite lookup_insert_eq. split; [done|]. rewrite Hq. simplify_eq. by apply IH.
  - exists r. rewrite lookup_insert_ne by done. split; [done|]. by apply IH.
Qed.
Lemma chain_nonzero m h l : chain nx m h l → Forall (λ a, a ≠ 0 ∧ is_Some (m !! a)) l.
Proof.
  revert h. induction l as [|b l IH]; intros h H; [done|]. destruct H as (-> & Hb & r & Hr & H).
  constructor; [by eauto|]. by eapply IH.
Qed.
Lemma chain_length m h l : chain nx m h l → NoDup l → (length l <= size m)%nat.
Proof.
  intros Hc Hn. apply chain_nonzero in Hc.
  rewrite <- (size_list_to_set (C := gset Z) l Hn), <- size_dom. apply subseteq_size.
  intros a Ha. rewrite elem_of_list_to_set in Ha. apply elem_of_dom.
  rewrite Forall_forall in Hc. by apply Hc.
Qed.
End chains.

Lemma alter_sock_fst a f l : (alter_sock a f l).*1 = l.*1.
Proof. induction l as [|[b s] l IH]; [done|]. cbn. by f_equal. Qed.
Lemma remove_sock_fst a l : (remove_sock a l).*1 = filter (.≠ a) l.*1.
Proof.
  induction l as [|[b s] l IH]; [done|]. unfold remove_sock in *. change (((b, s) :: l).*1) with (b :: l.*1).
  rewrite (filter_cons (.≠ a)). rewrite (filter_cons (λ x : Z * sock, x.1 ≠ a) (b, s) l).
  change ((b, s).1) with b. destruct (decide (b ≠ a)); [|exact IH].
  exact (f_equal (cons b) IH).
Qed.
Lemma live_alter a f t : live (alter a f t) = live t.
Proof. unfold live, alter. cbn. by rewrite !alter_sock_fst. Qed.
Lemma filter_id {A} (P : A → Prop) `{!∀ x, Decision (P x)} l : Forall P l → filter P l = l.
Proof. induction 1; [done|]. rewrite filter_cons_True by done. by f_equal. Qed.
Lemma remove_sock_id a l : a ∉ l.*1 → remove_sock a l = l.
Proof.
  intros Ha. apply filter_id, Forall_forall. intros x Hx Hxa. apply Ha. rewrite <- Hxa.
  by apply list_elem_of_fmap_2.
Qed.

Lemma live_block u t a : udp_rep u t → a ∈ live t →
  a ≠ 0 ∧ a ∉ free t ∧ ∃ p, mem u !! a = Some p.
Proof.
  intros (_ & _ & He & Hn) Ha. assert (Hx : ∃ s, (a, s) ∈ bound t ++ fresh t).
  { unfold live in Ha. rewrite <- fmap_app in Ha. apply list_elem_of_fmap in Ha as ([b s] & -> & H). by exists s. }
  destruct Hx as [s Hs]. rewrite Forall_forall in He. destruct (He _ Hs) as (H0 & p & Hp & _).
  split; [done|]. split; [|by exists p]. apply NoDup_app in Hn as (_ & Hn & _).
  intros Hf. by apply (Hn a Hf).
Qed.

Lemma entries_alter m a q g l p : m !! a = Some p → sock_of q = g (sock_of p) →
  Forall (entry_ok m) l → Forall (entry_ok (<[a := q]> m)) (alter_sock a g l).
Proof.
  intros Hp Hq H. unfold alter_sock. apply Forall_map. eapply Forall_impl; [exact H|].
  intros [b s] (Hb & r & Hr & Hs). unfold entry_ok. cbn in *. split; [done|].
  destruct (Z.eqb_spec b a) as [->|].
  - exists q. rewrite lookup_insert_eq. simplify_eq. done.
  - exists r. by rewrite lookup_insert_ne.
Qed.
Lemma upd_Some a f u p : mem u !! a = Some p → upd a f u = Some (with_mem (<[a := f p]> (mem u)) u).
Proof. intros Hp. unfold upd. by rewrite Hp. Qed.
(** Assigning through the pointer of a live block, the link apart, changes its entry. *)
Lemma alter_rep u t a g f p : udp_rep u t → a ∈ live t → mem u !! a = Some p →
  next (f p) = next p → sock_of (f p) = g (sock_of p) →
  ∃ u', upd a f u = Some u' ∧ udp_rep u' (alter a g t) ∧ mem u' = <[a := f p]> (mem u) ∧
    memp_tab u' = memp_tab u ∧ udp_pcbs u' = udp_pcbs u ∧ udp_port u' = udp_port u.
Proof.
  intros Hr Ha Hp Hn Hs. destruct (live_block u t a Hr Ha) as (H0 & Hf & _).
  unfold upd. rewrite Hp. cbn [mbind option_bind]. eexists. split; [done|]. split; [|done].
  destruct Hr as (Hfree & Hb & He & Hnd). unfold udp_rep. rewrite live_alter.
  cbn [with_mem mem memp_tab udp_pcbs alter free bound fresh]. rewrite alter_sock_fst.
  split_ands; [by apply chain_frame|by eapply chain_same| |done].
  unfold alter_sock. rewrite <- map_app. by eapply entries_alter.
Qed.

Lemma entries_frame m a q l : a ∉ l.*1 → Forall (entry_ok m) l → Forall (entry_ok (<[a := q]> m)) l.
Proof.
  intros Ha H. apply Forall_forall. intros [b s] Hx. rewrite Forall_forall in H.
  destruct (H _ Hx) as (Hb & r & Hr & Hs). split; [done|]. exists r. cbn in *.
  rewrite lookup_insert_ne; [done|]. intros <-. apply Ha. apply list_elem_of_fmap. by exists (a, s).
Qed.

Lemma udp_new_rep u t : udp_rep u t →
  ∃ u', udp_new u = Some (u', (sock_spec New t).2) ∧ udp_rep u' (sock_spec New t).1.
Proof.
  intros Hr. destruct Hr as (Hfree & Hb & He & Hnd). unfold udp_new, memp_malloc. cbn [sock_spec].
  destruct (free t) as [|a fr] eqn:Hft.
  - cbn in Hfree. rewrite Hfree. cbn. eexists. split; [done|]. unfold udp_rep. rewrite Hft. done.
  - destruct Hfree as (Htab & H0 & p & Hp & Hfr). rewrite Htab.
    destruct (Z.eqb_spec a 0); [done|]. cbn [negb]. rewrite Hp. cbn [mbind option_bind].
    destruct (Z.eqb_spec a 0); [done|]. cbn [negb]. unfold upd. cbn [with_tab mem]. rewrite Hp.
    cbn [mbind option_bind fst snd]. eexists. split; [done|].
    cbn [app] in Hnd. apply NoDup_cons in Hnd as [Ha Hnd]. rewrite elem_of_app in Ha.
    unfold live in *. rewrite elem_of_app in Ha.
    unfold udp_rep, live. cbn [with_mem with_tab mem memp_tab udp_pcbs free bound fresh fmap list_fmap].
    split_ands.
    + apply chain_frame; [tauto|done].
    + apply chain_frame; [tauto|done].
    + apply Forall_app in He as [He1 He2]. rewrite Forall_app, Forall_cons. split_ands.
      * apply entries_frame; [tauto|done].
      * split; [done|]. eexists. rewrite lookup_insert_eq. done.
      * apply entries_frame; [tauto|done].
    + change (list_fmap _ _ fst (fresh t)) with ((fresh t).*1).
      rewrite <- !Permutation_middle. apply NoDup_cons. rewrite !elem_of_app. split; [tauto|done].
Qed.

Lemma chain_agree nx m m' h l : (∀ x, x ∈ l → m' !! x = m !! x) → chain nx m h l → chain nx m' h l.
Proof.
  revert h. induction l as [|b l IH]; intros h Ha H; [done|]. destruct H as (-> & Hb & q & Hq & H).
  split; [done|]. split; [done|]. exists q. rewrite Ha by (by left). split; [done|].
  apply IH; [|done]. intros x Hx. apply Ha. by right.
Qed.
Lemma rep_fuel u t : udp_rep u t → (length (bound t) <= walk_fuel u)%nat.
Proof.
  intros (_ & Hb & _ & Hn). unfold walk_fuel. apply chain_length in Hb.
  - rewrite length_fmap in Hb. lia.
  - unfold live in Hn. apply NoDup_app in Hn as (_ & _ & Hn). by apply NoDup_app in Hn as (Hn & _ & _).
Qed.

Lemma bind_scan_spec m a ip port l : ∀ h fuel rebind, chain next m h l.*1 → Forall (entry_ok m) l →
  (length l <= fuel)%nat → bind_scan fuel m a ip port h rebind =
    Some (if conflicts a ip port l then None else Some (rebind || bool_decide (a ∈ l.*1))).
Proof.
  induction l as [|[b s] l IH]; intros h fuel rebind Hc He Hf.
  - cbn in Hc. rewrite Hc. destruct fuel; cbn; rewrite orb_false_r; done.
  - change (((b, s) :: l).*1) with (b :: l.*1) in *. destruct Hc as (-> & H0 & p & Hp & Hc).
    apply Forall_cons in He as [(_ & q & Hq & Hs) He]. cbn in Hq, Hs. simplify_eq. destruct fuel as [|fuel]; [cbn in Hf; lia|].
    cbn [bind_scan]. rewrite (proj2 (Z.eqb_neq b 0)) by done. rewrite Hp. cbn [mbind option_bind].
    cbn [conflicts existsb sock_of s_port s_ip length] in *. destruct (Z.eqb_spec a b) as [->|Hab]; cbn [negb andb orb].
    + rewrite IH by (done || lia).
      change (existsb _ l) with (conflicts b ip port l). destruct (conflicts b ip port l); [done|].
      rewrite (bool_decide_true (b ∈ b :: l.*1)) by (by left). by rewrite orb_true_r.
    + destruct (_ && _); [done|]. cbn [orb]. rewrite IH by (done || lia).
      change (existsb _ l) with (conflicts a ip port l). destruct (conflicts a ip port l); [done|]. do 3 f_equal. apply bool_decide_ext.
      rewrite elem_of_cons. tauto.
Qed.

Lemma filter_eq_one a (l : table) : NoDup l.*1 → a ∈ l.*1 →
  ∃ s, filter (λ x, x.1 = a) l = [(a, s)] ∧ (a, s) ∈ l.
Proof.
  induction l as [|[b s] l IH]; intros Hn Ha; [by apply not_elem_of_nil in Ha|].
  change (((b, s) :: l).*1) with (b :: l.*1) in *. apply NoDup_cons in Hn as [Hb Hn].
  apply elem_of_cons in Ha as [->|Ha].
  - exists s. rewrite (filter_cons_True (λ x : Z * sock, x.1 = b)) by done. split; [|by left]. f_equal.
    rewrite <- (filter_id (λ x : Z * sock, x.1 ≠ b) l) at 1.
    + rewrite list_filter_filter. apply elem_of_nil_inv. intros x. rewrite list_elem_of_filter. tauto.
    + apply Forall_forall. intros x Hx Hxb. apply Hb. rewrite <- Hxb. by apply list_elem_of_fmap_2.
  - destruct (IH Hn Ha) as (s' & Hs & Hin). exists s'. rewrite (filter_cons_False (λ x : Z * sock, x.1 = a)); [split; [done|by right]|].
    cbn. intros ->. done.
Qed.

Lemma rep_nodup u t : udp_rep u t → NoDup (bound t).*1 ∧ NoDup (fresh t).*1 ∧
  ∀ a, a ∈ (bound t).*1 → a ∉ (fresh t).*1.
Proof.
  intros (_ & _ & _ & Hn). unfold live in Hn. apply NoDup_app in Hn as (_ & _ & Hn).
  apply NoDup_app in Hn as (H1 & H2 & H3). done.
Qed.
(** Putting a live, unbound block at the head of the bound list. *)
Lemma link_rep u t a p : udp_rep u t → a ∈ (fresh t).*1 → mem u !! a = Some p →
  udp_rep (with_head a (with_mem (<[a := set_link (udp_pcbs u) p]> (mem u)) u))
    (Socks (free t) (filter (λ x, x.1 = a) (fresh t) ++ bound t) (remove_sock a (fresh t))).
Proof.
  intros Hr Ha Hp. destruct (live_block u t a Hr) as (H0 & Hf & _).
  { unfold live. apply elem_of_app. by right. }
  destruct (rep_nodup u t Hr) as (Hnb & Hnf & Hd).
  destruct (filter_eq_one a (fresh t) Hnf Ha) as (s & Hs & Hin). rewrite Hs.
  assert (Hab : a ∉ (bound t).*1) by (intros Hx; by apply (Hd a Hx)).
  destruct Hr as (Hfree & Hb & He & Hn). unfold udp_rep, live.
  cbn [with_head with_mem mem memp_tab udp_pcbs free bound fresh].
  change ((([(a, s)] : table) ++ bound t).*1) with (a :: (bound t).*1). split_ands.
  - by apply chain_frame.
  - split; [done|]. split; [done|]. eexists. rewrite lookup_insert_eq. split; [done|].
    cbn [set_link next]. by apply chain_frame.
  - apply Forall_app in He as [He1 He2]. rewrite !Forall_app. split_ands.
    + apply Forall_singleton. rewrite Forall_forall in He2. destruct (He2 _ Hin) as (_ & q & Hq & Hqs).
      split; [done|]. eexists. rewrite lookup_insert_eq. split; [done|]. cbn in *. by simplify_eq.
    + by apply entries_frame.
    + apply entries_frame; [rewrite remove_sock_fst, list_elem_of_filter; tauto|].
      unfold remove_sock. eapply Forall_impl; [apply Forall_forall|]; [|intros x Hx; exact Hx].
      intros x Hx. apply list_elem_of_filter in Hx as [_ Hx]. rewrite Forall_forall in He2. by apply He2.
  - assert (Hperm : (fresh t).*1 ≡ₚ a :: (remove_sock a (fresh t)).*1).
    { pose proof (filter_app_complement (λ x : Z * sock, x.1 = a) (fresh t)) as Hc.
      rewrite Hs in Hc. apply (fmap_Permutation fst) in Hc. symmetry. exact Hc. }
    unfold live in Hn. rewrite Hperm in Hn. by rewrite <- Permutation_middle in Hn.
Qed.

Lemma filter_absent a (l : table) : a ∉ l.*1 → filter (λ x, x.1 = a) l = [].
Proof.
  intros Ha. apply elem_of_nil_inv. intros x Hx. apply list_elem_of_filter in Hx as [<- Hx].
  apply Ha. by apply list_elem_of_fmap_2.
Qed.

Lemma bind_at b ip port u p rebind : mem u !! b = Some p → port ≠ 0 →
  bind_scan (walk_fuel u) (mem u) b ip port (udp_pcbs u) false = Some (Some rebind) →
  udp_bind b ip port u = Some (if rebind then with_mem (<[b := set_local ip port p]> (mem u)) u
    else with_head b (with_mem (<[b := set_link (udp_pcbs u) (set_local ip port p)]> (mem u)) u), ERR_OK).
Proof.
  intros Hp H0 Hs. unfold udp_bind. rewrite Hs. cbn [mbind option_bind]. rewrite Hp. cbn [mbind option_bind].
  rewrite (upd_Some _ _ _ p Hp). cbn [mbind option_bind]. rewrite (proj2 (Z.eqb_neq port 0)) by done.
  cbn [mbind option_bind]. rewrite (proj2 (Z.eqb_neq port 0)) by done.
  erewrite upd_Some by (cbn [with_mem mem]; apply lookup_insert_eq).
  cbn [mbind option_bind with_mem mem]. rewrite insert_insert_eq. destruct rebind; cbn [negb]; [done|].
  erewrite upd_Some by (cbn [with_mem mem]; apply lookup_insert_eq).
  cbn [mbind option_bind with_mem mem]. by rewrite insert_insert_eq.
Qed.
Lemma udp_bind_rep a ip port u t : udp_rep u t → sock_legal (Bind a ip port) t →
  ∃ u', udp_bind a ip port u = Some (u', (sock_spec (Bind a ip port) t).2) ∧
    udp_rep u' (sock_spec (Bind a ip port) t).1.
Proof.
  intros Hr [Ha Hport]. destruct (live_block u t a Hr Ha) as (H0 & Hf & p & Hp).
  destruct (alter_rep u t a (s_bind ip port) (set_local ip port) p Hr Ha Hp) as (u1 & Hu & Hr1 & _); [done|done|].
  rewrite (upd_Some _ _ _ p Hp) in Hu. injection Hu as <-.
  pose proof Hr as (_ & Hb & He & _). apply Forall_app in He as [He _].
  pose proof (bind_scan_spec (mem u) a ip port (bound t) (udp_pcbs u) (walk_fuel u) false Hb He (rep_fuel u t Hr)) as Hscan.
  cbn [sock_spec]. destruct (conflicts a ip port (bound t)).
  { unfold udp_bind. rewrite Hscan. by eexists. }
  rewrite (bind_at _ _ _ _ p _ Hp Hport Hscan). cbn [orb fst snd]. destruct (rep_nodup _ _ Hr) as (Hnb & Hnf & Hd).
  destruct (bool_decide_reflect (a ∈ (bound t).*1)) as [Hab|Hab].
  - eexists. split; [done|]. cbn [alter free bound fresh].
    rewrite filter_absent, remove_sock_id by (rewrite alter_sock_fst; by apply Hd). exact Hr1.
  - eexists. split; [done|].
    eapply (link_rep _ (alter a (s_bind ip port) t) a) in Hr1;
      [|cbn [alter fresh]; rewrite alter_sock_fst; unfold live in Ha; rewrite elem_of_app in Ha; tauto
       |cbn [with_mem mem]; apply lookup_insert_eq].
    cbn [with_mem mem udp_pcbs] in Hr1. rewrite insert_insert_eq in Hr1. exact Hr1.
Qed.

(** Only links differ. *)
Definition same_socks (m m' : gmap Z udp_pcb) : Prop :=
  ∀ b p, m !! b = Some p → ∃ v, m' !! b = Some (set_link v p).
Lemma set_link_id p : set_link (next p) p = p.
Proof. by destruct p. Qed.
Lemma same_socks_refl m : same_socks m m.
Proof. intros b p H. exists (next p). by rewrite set_link_id. Qed.
Lemma same_socks_trans m1 m2 m3 : same_socks m1 m2 → same_socks m2 m3 → same_socks m1 m3.
Proof.
  intros H1 H2 b p Hp. destruct (H1 b p Hp) as [v Hv]. destruct (H2 _ _ Hv) as [w Hw]. by exists w.
Qed.
Lemma same_socks_insert m a v p : m !! a = Some p → same_socks m (<[a := set_link v p]> m).
Proof.
  intros Hp b q Hq. destruct (decide (b = a)) as [->|].
  - simplify_eq. exists v. by rewrite lookup_insert_eq.
  - exists (next q). by rewrite lookup_insert_ne, set_link_id.
Qed.
Lemma entries_same m m' l : same_socks m m' → Forall (entry_ok m) l → Forall (entry_ok m') l.
Proof.
  intros Hm H. eapply Forall_impl; [exact H|]. intros x (H0 & p & Hp & Hs).
  destruct (Hm _ _ Hp) as [v Hv]. split; [done|]. by exists (set_link v p).
Qed.

(** The loop of [udp_remove] takes every block but the first off the list. *)
Lemma remove_loop_spec a l : ∀ h fuel u, a ≠ 0 → is_Some (mem u !! a) →
  chain next (mem u) h l → NoDup l → h ≠ a → (length l <= fuel)%nat →
  ∃ m', remove_loop fuel a h u = Some (with_mem m' u) ∧ chain next m' h (filter (.≠ a) l) ∧
    same_socks (mem u) m' ∧ ∀ b, b ∉ l → m' !! b = mem u !! b.
Proof.
  induction l as [l IH] using (induction_ltof1 _ length). unfold ltof in IH.
  intros h fuel u Ha0 Hsome Hc Hn Hh Hf. destruct l as [|b l].
  { cbn in Hc. exists (mem u). rewrite Hc. split; [by destruct fuel, u|].
    split; [done|]. split; [apply same_socks_refl|done]. }
  destruct Hc as (-> & Hb0 & p & Hp & Hc). apply NoDup_cons in Hn as [Hbl Hn].
  destruct fuel as [|fuel]; [cbn in Hf; lia|]. cbn [length] in Hf. cbn [remove_loop].
  rewrite (proj2 (Z.eqb_neq b 0)), Hp by done. cbn [mbind option_bind].
  rewrite (filter_cons_True (.≠ a)) by done. destruct (Z.eqb_spec (next p) a) as [Hnx|Hnx].
  - rewrite (proj2 (Z.eqb_neq (next p) 0)) by congruence. cbn [negb andb].
    destruct l as [|a' l]; [cbn in Hc; congruence|]. destruct Hc as (Hna & _ & q & Hq & Hc).
    assert (a' = a) as -> by congruence. rewrite Hq. cbn [mbind option_bind].
    rewrite (upd_Some _ _ _ p Hp). cbn [mbind option_bind with_mem mem]. rewrite lookup_insert_eq.
    cbn [mbind option_bind set_link next]. apply NoDup_cons in Hn as [Hal Hn]. apply not_elem_of_cons in Hbl as [Hba Hbl].
    set (m1 := <[b := set_link (next q) p]> (mem u)).
    destruct (IH l) with (h := next q) (fuel := fuel) (u := with_mem m1 u) as (m' & Hrun & Hc' & Hs & Hfr).
    { cbn. lia. } { done. } { cbn. unfold m1. rewrite lookup_insert_ne by done. by eexists. }
    { cbn. by apply chain_frame. } { done. }
    { intros Hqa. destruct l as [|x l]; [by cbn in Hc; congruence|]. destruct Hc as (Hx & _). apply Hal. rewrite <- Hqa, Hx. by left. }
    { cbn in Hf. lia. }
    exists m'. split; [exact Hrun|]. rewrite (filter_cons_False (.≠ a)) by tauto. split; [|split].
    + split; [done|]. split; [done|]. exists (set_link (next q) p). split; [|exact Hc'].
      rewrite Hfr by done. cbn. unfold m1. by rewrite lookup_insert_eq.
    + eapply same_socks_trans; [|exact Hs]. cbn. by apply same_socks_insert.
    + intros c Hc1. rewrite !not_elem_of_cons in Hc1. rewrite Hfr by tauto. cbn. unfold m1.
      by rewrite lookup_insert_ne by (intros ->; tauto).
  - rewrite andb_false_r. cbn [mbind option_bind]. rewrite Hp. cbn [mbind option_bind].
    destruct (IH l) with (h := next p) (fuel := fuel) (u := u) as (m' & Hrun & Hc' & Hs & Hfr);
      [cbn; lia|done|done|done|done|done|lia|].
    exists m'. split; [exact Hrun|]. split; [|split; [done|]].
    + split; [done|]. split; [done|]. exists p. split; [|exact Hc']. by rewrite Hfr.
    + intros c Hc1. apply not_elem_of_cons in Hc1. apply Hfr. tauto.
Qed.

Lemma unlink_spec u l a p : chain next (mem u) (udp_pcbs u) l → NoDup l → a ≠ 0 → mem u !! a = Some p →
  (length l <= walk_fuel u)%nat →
  ∃ u1, (if udp_pcbs u =? a then p ← mem u !! a; Some (with_head (next p) u)
         else remove_loop (walk_fuel u) a (udp_pcbs u) u) = Some u1 ∧
    chain next (mem u1) (udp_pcbs u1) (filter (.≠ a) l) ∧ same_socks (mem u) (mem u1) ∧
    (∀ b, b ∉ l → mem u1 !! b = mem u !! b) ∧ memp_tab u1 = memp_tab u.
Proof.
  intros Hc Hn H0 Hp Hf. destruct (Z.eqb_spec (udp_pcbs u) a) as [Ha|Ha].
  - rewrite Hp. cbn [mbind option_bind]. eexists. split; [done|]. cbn [with_head mem udp_pcbs memp_tab].
    destruct l as [|b l]; [cbn in Hc; congruence|]. destruct Hc as (Hb & _ & q & Hq & Hc).
    assert (b = a) as -> by congruence. simplify_eq. apply NoDup_cons in Hn as [Hal Hn].
    rewrite (filter_cons_False (.≠ udp_pcbs u)) by tauto. rewrite filter_id.
    + split; [done|]. split; [apply same_socks_refl|done].
    + apply Forall_forall. intros x Hx ->. done.
  - destruct (remove_loop_spec a l (udp_pcbs u) (walk_fuel u) u) as (m' & Hr & H1 & H2 & H3); [done..|].
    rewrite Hr. eexists. split; [done|]. done.
Qed.

Lemma udp_remove_rep a u t : udp_rep u t → a ∈ live t →
  ∃ u', udp_remove a u = Some u' ∧ udp_rep u' (sock_spec (Remove a) t).1 ∧ memp_tab u' = a.
Proof.
  intros Hr Ha. destruct (live_block u t a Hr Ha) as (H0 & Hf & p & Hp).
  destruct (rep_nodup u t Hr) as (Hnb & Hnf & Hd). pose proof (rep_fuel u t Hr) as Hfuel.
  destruct Hr as (Hfree & Hb & He & Hn).
  destruct (unlink_spec u (bound t).*1 a p) as (u1 & Hu & Hc & Hs & Hfr & Htab);
    [done|done|done|done|by rewrite length_fmap|].
  unfold udp_remove. rewrite Hu. cbn [mbind option_bind]. unfold memp_free.
  rewrite (proj2 (Z.eqb_neq a 0)) by done. destruct (Hs _ _ Hp) as [v Hv].
  rewrite (upd_Some _ _ _ _ Hv). cbn [mbind option_bind]. eexists. split; [done|]. split; [|done].
  unfold udp_rep, live. cbn [with_tab with_mem mem memp_tab udp_pcbs sock_spec fst free bound fresh].
  rewrite !remove_sock_fst. rewrite Htab. split_ands.
  - split; [done|]. split; [done|]. eexists. rewrite lookup_insert_eq. split; [done|].
    cbn [set_word0 local_ip]. apply chain_frame; [done|]. eapply chain_agree; [|exact Hfree].
    intros x Hx. apply Hfr. intros Hxb. apply NoDup_app in Hn as (_ & Hn & _). apply (Hn x Hx).
    unfold live. apply elem_of_app. by left.
  - apply chain_frame; [rewrite list_elem_of_filter; tauto|done].
  - apply Forall_app. apply (entries_same _ _ _ Hs) in He. apply Forall_app in He as [He1 He2].
    assert (Hrem : ∀ l, Forall (entry_ok (mem u1)) l →
      Forall (entry_ok (<[a := set_word0 (memp_tab u) (set_link v p)]> (mem u1))) (remove_sock a l)).
    { intros l Hl. apply entries_frame; [rewrite remove_sock_fst, list_elem_of_filter; tauto|].
      apply Forall_forall. intros x Hx. unfold remove_sock in Hx. apply list_elem_of_filter in Hx as [_ Hx].
      rewrite Forall_forall in Hl. by apply Hl. }
    split; by apply Hrem.
  - cbn [app]. unfold live in Hn. rewrite <- filter_app. apply NoDup_cons. split.
    + rewrite elem_of_app, list_elem_of_filter. tauto.
    + apply NoDup_app in Hn as (Hn1 & Hn2 & Hn3). apply NoDup_app. split; [done|].
      split; [|by apply NoDup_filter]. intros x Hx. rewrite list_elem_of_filter. intros [_ Hx2]. by apply (Hn2 x).
Qed.

Lemma udp_recv_rep a f arg u t : udp_rep u t → a ∈ live t →
  ∃ u', udp_recv a f arg u = Some u' ∧ udp_rep u' (sock_spec (Recv a f arg) t).1.
Proof.
  intros Hr Hl. destruct (live_block u t a Hr Hl) as (_ & _ & p & Hp).
  destruct (alter_rep u t a (λ s, Sock (s_ip s) (s_port s) (s_remote_ip s) (s_remote_port s) (s_flags s) f arg)
    (set_recv f arg) p Hr Hl Hp) as (u' & Hu & Hr' & _); [done|done|].
  unfold udp_recv. rewrite Hu. by eexists.
Qed.

(** A new socket bound to [port] of every address, with its callback. *)
Definition serving (port cb : Z) : sock := Sock 0 port 0 0 0 cb 0.
Definition port_taken (port : Z) (l : table) : bool := existsb (λ x, s_port x.2 =? port) l.
Lemma no_conflict a ip port l : port_taken port l = false → conflicts a ip port l = false.
Proof.
  unfold port_taken, conflicts. induction l as [|[b s] l IH]; [done|]. cbn [existsb snd]. intros H.
  apply orb_false_iff in H as [-> H]. rewrite andb_false_r. cbn [andb orb]. by apply IH.
Qed.
Lemma alter_sock_id a f l : a ∉ l.*1 → alter_sock a f l = l.
Proof.
  induction l as [|[b s] l IH]; [done|]. change (((b, s) :: l).*1) with (b :: l.*1).
  rewrite not_elem_of_cons. intros [Hab Hal]. unfold alter_sock in *. cbn [map].
  rewrite (proj2 (Z.eqb_neq b a)) by congruence. by rewrite IH.
Qed.
(** What the servers do to open their socket. *)
Lemma open_server u t a fr port cb : udp_rep u t → free t = a :: fr → port ≠ 0 → port_taken port (bound t) = false →
  ∃ u1 u2 u3, udp_new u = Some (u1, a) ∧ udp_bind a 0 port u1 = Some (u2, ERR_OK) ∧
    udp_recv a cb 0 u2 = Some u3 ∧ a ≠ 0 ∧
    udp_rep u3 (Socks fr ((a, serving port cb) :: bound t) (fresh t)).
Proof.
  intros Hr Hf Hp Hpt. assert (Hni : a ∉ (bound t).*1 ∧ a ∉ (fresh t).*1).
  { destruct Hr as (_ & _ & _ & Hn). rewrite Hf in Hn. cbn [app] in Hn. apply NoDup_cons in Hn as [Hn _].
    unfold live in Hn. rewrite !elem_of_app in Hn. tauto. }
  destruct Hni as [Hab Haf]. destruct (udp_new_rep u t Hr) as (u1 & H1 & Hr1).
  cbn [sock_spec] in H1, Hr1. rewrite Hf in H1, Hr1. cbn [fst snd] in H1, Hr1.
  assert (Hfst : ((a, new_sock) :: fresh t).*1 = a :: (fresh t).*1) by done.
  destruct (udp_bind_rep a 0 port u1 _ Hr1) as (u2 & H2 & Hr2).
  { split; [|done]. unfold live. cbn [bound fresh]. rewrite Hfst, elem_of_app, elem_of_cons. tauto. }
  cbn [sock_spec bound] in H2, Hr2. rewrite no_conflict in H2, Hr2 by done. cbn [fst snd alter free bound fresh] in H2, Hr2.
  rewrite (alter_sock_id a _ (bound t) Hab) in Hr2.
  assert (Hal : alter_sock a (s_bind 0 port) ((a, new_sock) :: fresh t) = (a, serving port 0) :: fresh t).
  { cbn. rewrite Z.eqb_refl. f_equal. by apply alter_sock_id. }
  rewrite Hal in Hr2. unfold remove_sock in Hr2.
  rewrite (filter_cons_True (λ x : Z * sock, x.1 = a)) in Hr2 by done.
  rewrite (filter_cons_False (λ x : Z * sock, x.1 ≠ a)) in Hr2 by (cbn; tauto).
  fold (remove_sock a (fresh t)) in Hr2. rewrite (filter_absent a (fresh t)), remove_sock_id in Hr2 by done.
  destruct (udp_recv_rep a cb 0 u2 _ Hr2) as (u3 & H3 & Hr3).
  { unfold live. cbn [bound fresh app]. change (((a, serving port 0) :: bound t).*1) with (a :: (bound t).*1).
    apply elem_of_app. left. by left. }
  exists u1, u2, u3. split; [done|]. split; [done|]. split; [done|]. split.
  { destruct Hr as (Hc & _). rewrite Hf in Hc. by destruct Hc as (_ & H0 & _). }
  cbn [sock_spec fst] in Hr3. unfold alter in Hr3. cbn [free bound fresh app] in Hr3. rewrite (alter_sock_id a _ (fresh t)) in Hr3 by done.
  replace (alter_sock a _ ((a, serving port 0) :: bound t)) with ((a, serving port cb) :: bound t) in Hr3; [done|].
  cbn. rewrite Z.eqb_refl. f_equal. symmetry. by apply alter_sock_id.
Qed.

(** ** The pool at start, and a block freed twice *)

Fixpoint pool_blocks (num : nat) (memp size : Z) (acc : list Z) : list Z :=
  match num with O => acc | S num => pool_blocks num (memp + size) size (memp :: acc) end.
Lemma memp_init_loop_rep num size : 0 < size → ∀ memp u fr, 0 < memp →
  udp_rep u (Socks fr [] []) → Forall (λ a, 0 < a < memp) fr →
  udp_rep (memp_init_loop num memp size u) (Socks (pool_blocks num memp size fr) [] []).
Proof.
  intros Hs. induction num as [|num IH]; intros memp u fr Hm Hr Hlt; [done|].
  cbn [memp_init_loop pool_blocks]. rewrite Forall_forall in Hlt.
  assert (Hni : memp ∉ fr) by (intros Hx; apply Hlt in Hx; lia). apply IH; [lia| |].
  - destruct Hr as (Hf & Hb & _ & Hn). cbn [free bound fresh] in *. unfold udp_rep.
    cbn [with_tab with_mem mem memp_tab udp_pcbs free bound fresh live app fmap list_fmap] in *.
    split; [|split; [exact Hb|split; [done|rewrite app_nil_r in *; by apply NoDup_cons]]].
    split; [done|]. split; [lia|]. eexists. rewrite lookup_insert_eq. split; [done|].
      cbn [set_word0 local_ip]. by apply chain_frame.
  - apply Forall_cons. split; [lia|]. apply Forall_forall. intros x Hx. apply Hlt in Hx. lia.
Qed.
Lemma memp_init_rep base size : 0 < base → 0 < size →
  udp_rep (memp_init base size) (Socks (pool_blocks MEMP_NUM_UDP_PCB base size []) [] []).
Proof.
  intros Hb Hs. apply memp_init_loop_rep; [done|done| |done]. unfold udp_rep. cbn. split_ands; try done.
  by apply NoDup_nil.
Qed.

(** A block [b] freed twice: the free list is a loop on [b]; [bs] are the bound sockets. *)
Definition freed_twice (u : udp) (b : Z) (bs : table) : Prop :=
  b ≠ 0 ∧ memp_tab u = b ∧ (∃ p, mem u !! b = Some p ∧ local_ip p = b) ∧
  chain next (mem u) (udp_pcbs u) bs.*1 ∧ Forall (entry_ok (mem u)) bs ∧ b ∉ bs.*1 ∧ NoDup bs.*1.
Lemma remove_free_block u t b fr : udp_rep u t → free t = b :: fr →
  ∃ u', udp_remove b u = Some u' ∧ freed_twice u' b (bound t).
Proof.
  intros Hr Hf. pose proof (rep_fuel _ _ Hr) as Hfuel. destruct (rep_nodup _ _ Hr) as (Hnb & _ & _).
  destruct Hr as (Hfree & Hb & He & Hn). rewrite Hf in Hfree, Hn. cbn [app] in Hn.
  apply NoDup_cons in Hn as [Hni _]. unfold live in Hni. rewrite !elem_of_app in Hni.
  destruct Hfree as (Htab & H0 & p & Hp & _).
  destruct (unlink_spec u _ b p Hb Hnb H0 Hp) as (u1 & Hu1 & Hc & Hs & Hfr & Htab1); [by rewrite length_fmap|].
  destruct (Hs _ _ Hp) as [v Hv]. unfold udp_remove. rewrite Hu1. cbn [mbind option_bind].
  unfold memp_free. rewrite (proj2 (Z.eqb_neq b 0)) by done. rewrite (upd_Some _ _ _ _ Hv).
  cbn [mbind option_bind]. eexists. split; [reflexivity|]. apply Forall_app in He as [He _].
  unfold freed_twice. cbn [with_tab with_mem memp_tab mem udp_pcbs]. split; [done|]. split; [done|]. split.
  { eexists. rewrite lookup_insert_eq. split; [done|]. cbn [set_word0 local_ip]. congruence. }
  rewrite filter_id in Hc; [|apply Forall_forall; intros x Hx ->; tauto].
  split_ands; [apply chain_frame; tauto| |tauto|done].
  apply entries_frame; [tauto|]. by eapply entries_same.
Qed.
Lemma freed_twice_new u b bs : freed_twice u b bs → udp_new u =
  Some (with_mem (<[b := set_ttl UDP_TTL zero_pcb]> (mem u)) u, b).
Proof.
  intros (H0 & Htab & (p & Hp & Hl) & _). unfold udp_new, memp_malloc. rewrite Htab.
  rewrite (proj2 (Z.eqb_neq b 0)), Hp by done. cbn [negb mbind option_bind].
  rewrite (proj2 (Z.eqb_neq b 0)) by done. cbn [negb].
  rewrite (upd_Some b _ _ p) by done. cbn [mbind option_bind with_tab mem]. rewrite Hl, <- Htab.
  destruct u; reflexivity.
Qed.

(** Two servers opened one after the other on a block that was freed twice both get that
    block, without an error; in the end the bound list holds this one block on the second
    port, all other sockets being lost. *)
Lemma open_freed_twice u b bs port1 cb1 port2 cb2 : freed_twice u b bs →
  port1 ≠ 0 → port2 ≠ 0 → port_taken port1 bs = false →
  ∃ u1 u2 u3 v1 v2 v3, udp_new u = Some (u1, b) ∧ udp_bind b 0 port1 u1 = Some (u2, ERR_OK) ∧
    udp_recv b cb1 0 u2 = Some u3 ∧ udp_new u3 = Some (v1, b) ∧ udp_bind b 0 port2 v1 = Some (v2, ERR_OK) ∧
    udp_recv b cb2 0 v2 = Some v3 ∧ chain next (mem v3) (udp_pcbs v3) [b] ∧
    entry_ok (mem v3) (b, serving port2 cb2).
Proof.
  intros Hft H1 H2 Hp1. pose proof (freed_twice_new _ _ _ Hft) as Hnew.
  destruct Hft as (H0 & Htab & (p & Hp & Hl) & Hc & He & Hni & Hn).
  set (z := set_ttl UDP_TTL zero_pcb) in *. set (u1 := with_mem (<[b := z]> (mem u)) u) in *.
  assert (Hz : mem u1 !! b = Some z) by apply lookup_insert_eq.
  assert (Hscan : bind_scan (walk_fuel u1) (mem u1) b 0 port1 (udp_pcbs u1) false = Some (Some false)).
  { rewrite (bind_scan_spec _ _ _ _ bs);
      [by rewrite no_conflict, bool_decide_false|by apply chain_frame|by apply entries_frame|].
    apply (chain_frame _ _ _ _ b z Hni), chain_length in Hc; [|done]. rewrite length_fmap in Hc.
    unfold walk_fuel. cbn [u1 with_mem mem]. lia. }
  pose proof (bind_at _ _ _ _ _ _ Hz H1 Hscan) as Hb1. set (u2 := with_head b _) in Hb1.
  set (p1 := set_link (udp_pcbs u1) (set_local 0 port1 z)) in *.
  set (u3 := with_mem (<[b := set_recv cb1 0 p1]> (mem u2)) u2). exists u1, u2, u3. set (v1 := with_mem (<[b := z]> (mem u3)) (with_tab 0 u3)).
  assert (Hz2 : mem v1 !! b = Some z) by apply lookup_insert_eq.
  assert (Hscan2 : bind_scan (walk_fuel v1) (mem v1) b 0 port2 (udp_pcbs v1) false = Some (Some true)).
  { change (udp_pcbs v1) with b. unfold walk_fuel. cbn [bind_scan]. rewrite (proj2 (Z.eqb_neq b 0)), Hz2 by done.
    cbn [mbind option_bind]. rewrite Z.eqb_refl. by destruct (size (mem v1)). }
  pose proof (bind_at _ _ _ _ _ _ Hz2 H2 Hscan2) as Hb2. set (v2 := with_mem _ v1) in Hb2.
  exists v1, v2, (with_mem (<[b := set_recv cb2 0 (set_local 0 port2 z)]> (mem v2)) v2). split; [exact Hnew|]. split; [exact Hb1|]. split.
  { unfold udp_recv. by rewrite (upd_Some b _ u2 p1) by apply lookup_insert_eq. }
  split; [|split; [exact Hb2|]].
  - unfold udp_new, memp_malloc. change (memp_tab u3) with (memp_tab u). rewrite Htab, (proj2 (Z.eqb_neq b 0)) by done.
    cbn [negb]. unfold u3. cbn [with_mem mem]. rewrite lookup_insert_eq. cbn [mbind option_bind].
    rewrite (proj2 (Z.eqb_neq b 0)) by done. cbn [negb].
    erewrite upd_Some by (cbn [with_tab with_mem mem]; apply lookup_insert_eq). reflexivity.
  - split; [unfold udp_recv; by rewrite (upd_Some b _ v2 (set_local 0 port2 z)) by apply lookup_insert_eq|]. split.
    + split; [done|]. split; [done|]. eexists. split; [apply lookup_insert_eq|]. done.
    + split; [done|]. eexists. split; [apply lookup_insert_eq|]. done.
Qed.

(** Freeing a control block that is already free is not noticed: removing the same
    block twice succeeds, and then two calls of [udp_new] in a row return that one block to
    two different users, after which the pool is empty, the other free blocks being lost. *)
Theorem udp_remove_twice a u t : udp_rep u t → a ∈ live t →
  ∃ u1 u2 u3 u4, udp_remove a u = Some u1 ∧ udp_remove a u1 = Some u2 ∧
    udp_new u2 = Some (u3, a) ∧ udp_new u3 = Some (u4, a) ∧ memp_tab u4 = 0.
Proof.
  intros Hr Ha. destruct (udp_remove_rep a u t Hr Ha) as (u1 & Hu1 & Hr1 & _).
  destruct (remove_free_block u1 _ a (free t) Hr1 eq_refl) as (u2 & Hu2 & Hft).
  pose proof (freed_twice_new _ _ _ Hft) as Hnew. destruct Hft as (H0 & Htab & _).
  exists u1, u2. do 2 eexists. split; [done|]. split; [done|]. split; [exact Hnew|].
  unfold udp_new, memp_malloc. cbn [with_mem memp_tab mem].
  rewrite Htab, (proj2 (Z.eqb_neq a 0)) by done. cbn [negb]. rewrite lookup_insert_eq. cbn [mbind option_bind].
  rewrite (proj2 (Z.eqb_neq a 0)) by done. cbn [negb].
  erewrite upd_Some by (cbn [with_tab with_mem mem]; apply lookup_insert_eq). split; reflexivity.
Qed.

(** ** The receiver *)

Lemma last_cons {A} (x : A) l d : List.last (x :: l) d = List.last l x.
Proof.
  revert x d. induction l as [|y l IH]; intros x d; [done|].
  change (List.last (x :: y :: l) d) with (List.last (y :: l) d). by rewrite !IH.
Qed.

Section receiver.
Context (broadcast : bool) (dst dest srcip src mask : Z).

Definition sock_match (s : sock) : bool :=
  (s_port s =? dest) &&
  ((negb broadcast && (s_ip s =? 0)) || (s_ip s =? dst) ||
   (broadcast && ((s_ip s =? 0) || (Z.land (s_ip s) mask =? Z.land dst mask)))).
Definition sock_full (x : Z * sock) : bool :=
  sock_match x.2 && (s_remote_port x.2 =? src) && ((s_remote_ip x.2 =? 0) || (s_remote_ip x.2 =? srcip)).
Definition sock_open (x : Z * sock) : bool :=
  sock_match x.2 && (Z.land (s_flags x.2) UDP_FLAGS_CONNECTED =? 0).
Definition first_addr (o : option (Z * sock)) : Z := match o with Some x => x.1 | None => 0 end.
(** The first socket connected to the sender, or else the first unconnected one. *)
Definition receiver (l : table) : Z :=
  match List.find sock_full l with Some x => x.1 | None => first_addr (List.find sock_open l) end.

(** Moving [a] from behind [b] to the front. *)
Definition move_front (b a : Z) (u : udp) : option udp :=
  p ← mem u !! a; u' ← upd b (set_link (next p)) u; u' ← upd a (set_link (udp_pcbs u')) u';
  Some (with_head a u').

Lemma demux_loop_spec u l : ∀ h prev uncon fuel, chain next (mem u) h l.*1 → Forall (entry_ok (mem u)) l →
  (length l <= fuel)%nat →
  match List.find sock_full l with
  | None => demux_loop fuel broadcast dst dest srcip src mask h prev uncon u =
      Some (u, if uncon =? 0 then first_addr (List.find sock_open l) else uncon)
  | Some x => ∃ l1 l2, l = l1 ++ x :: l2 ∧
      demux_loop fuel broadcast dst dest srcip src mask h prev uncon u =
        let prev := List.last l1.*1 prev in
        if prev =? 0 then Some (u, x.1) else u' ← move_front prev x.1 u; Some (u', x.1)
  end.
Proof.
  induction l as [|[b s] l IH]; intros h prev uncon fuel Hc He Hf.
  - cbn in Hc. rewrite Hc. destruct fuel; cbn; (destruct (Z.eqb_spec uncon 0) as [->|]; done).
  - change (((b, s) :: l).*1) with (b :: l.*1) in Hc. destruct Hc as (-> & H0 & p & Hp & Hc).
    apply Forall_cons in He as [(_ & q & Hq & Hs) He]. cbn in Hq, Hs. simplify_eq.
    destruct fuel as [|fuel]; [cbn in Hf; lia|]. cbn [length] in Hf.
    cbn [demux_loop]. rewrite (proj2 (Z.eqb_neq b 0)), Hp by done. cbn [mbind option_bind].
    change (local_match p broadcast dst dest mask) with (sock_match (sock_of p)).
    cbn [List.find]. unfold sock_full at 1, sock_open at 1. cbn [snd sock_of s_remote_port s_remote_ip s_flags].
    change (Sock _ _ _ _ _ _ _) with (sock_of p).
    destruct (sock_match (sock_of p) && _ && (_ || _)) eqn:Hfull.
    + exists [], l. split; [done|]. cbn [List.last fmap list_fmap fst]. unfold move_front. rewrite Hp.
      cbn [mbind option_bind]. destruct (prev =? 0); [done|]. cbn [negb].
      destruct (upd prev _ u) as [u1|]; [|done]. cbn [mbind option_bind].
      by destruct (upd b _ u1).
    + set (uncon' := if sock_match (sock_of p) && (uncon =? 0) && _ then b else uncon).
      specialize (IH (next p) b uncon' fuel Hc He ltac:(lia)).
      destruct (List.find sock_full l) as [x|].
      * destruct IH as (l1 & l2 & -> & IH). exists ((b, sock_of p) :: l1), l2. split; [done|].
        rewrite IH. change (((b, sock_of p) :: l1).*1) with (b :: l1.*1).
        by rewrite last_cons.
      * rewrite IH. do 2 f_equal. unfold uncon'. clear -H0.
        destruct (sock_match (sock_of p)); cbn [andb]; [|done].
        destruct (Z.eqb_spec uncon 0) as [->|Hu]; cbn [andb].
        -- destruct (Z.land _ _ =? 0); cbn [first_addr fst]; [|done].
           by rewrite (proj2 (Z.eqb_neq b 0)).
        -- by rewrite (proj2 (Z.eqb_neq uncon 0)).
Qed.

(** Taking [a], the successor of [b], out of a chain. *)
Lemma chain_skip m l1 b a l2 : ∀ h pa pb, chain next m h (l1 ++ b :: a :: l2) → NoDup (l1 ++ b :: a :: l2) →
  m !! b = Some pb → m !! a = Some pa →
  chain next (<[b := set_link (next pa) pb]> m) h (l1 ++ b :: l2).
Proof.
  induction l1 as [|x l1 IH]; intros h pa pb Hc Hn Hb Ha.
  - destruct Hc as (-> & H0 & p & Hp & Hpa & H1 & q & Hq & Hc). simplify_eq.
    cbn [app] in Hn. apply NoDup_cons in Hn as [Hn1 Hn]. apply not_elem_of_cons in Hn1 as [_ Hn1].
    split; [done|]. split; [done|]. eexists. rewrite lookup_insert_eq. split; [done|].
    cbn [set_link next]. by apply chain_frame.
  - destruct Hc as (-> & H0 & p & Hp & Hc). cbn [app] in Hn. apply NoDup_cons in Hn as [Hn1 Hn].
    assert (Hxb : x ≠ b) by (intros ->; apply Hn1; apply elem_of_app; right; by left).
    split; [done|]. split; [done|]. exists p. rewrite lookup_insert_ne by done. split; [done|].
    by apply IH with (pa := pa).
Qed.
Lemma rep_same_socks u u' t t' : udp_rep u t → same_socks (mem u) (mem u') → memp_tab u' = memp_tab u →
  (∀ x, x ∉ (bound t).*1 → mem u' !! x = mem u !! x) → free t' = free t → fresh t' = fresh t →
  bound t' ≡ₚ bound t → chain next (mem u') (udp_pcbs u') (bound t').*1 → udp_rep u' t'.
Proof.
  intros (Hf & _ & He & Hn) Hs Htab Hfr Ht1 Ht2 Hperm Hc. unfold udp_rep, live. rewrite Htab, Ht1, Ht2. split_ands.
  - eapply chain_agree; [|exact Hf]. intros x Hx. apply Hfr. intros Hb.
    apply NoDup_app in Hn as (_ & Hn & _). apply (Hn x Hx). unfold live. apply elem_of_app. by left.
  - exact Hc.
  - rewrite Hperm. by eapply entries_same.
  - unfold live in Hn. by rewrite Hperm.
Qed.
Lemma move_front_rep u t l1 b sb x l2 : udp_rep u t → bound t = (l1 ++ [(b, sb)]) ++ x :: l2 →
  ∃ u', move_front b x.1 u = Some u' ∧ udp_rep u' (Socks (free t) (x :: (l1 ++ [(b, sb)]) ++ l2) (fresh t)).
Proof.
  destruct x as [a s]. cbn [fst]. intros Hr Hbt. pose proof Hr as (_ & Hc & He & _).
  destruct (rep_nodup _ _ Hr) as (Hn & _ & _).
  assert (Hadr : (bound t).*1 = l1.*1 ++ b :: a :: l2.*1).
  { rewrite Hbt, !fmap_app. cbn. by rewrite <- app_assoc. }
  rewrite Forall_forall in He.
  destruct (He (a, s)) as (Ha0 & pa & Ha & Hsa); [rewrite Hbt; set_solver|].
  destruct (He (b, sb)) as (Hb0 & pb & Hb & _); [rewrite Hbt; set_solver|].
  cbn in Ha0, Ha, Hb, Hb0. rewrite Hadr in Hc, Hn.
  assert (Hab : b ≠ a).
  { intros ->. apply NoDup_app in Hn as (_ & _ & Hn). apply NoDup_cons in Hn as [Hn _]. apply Hn. by left. }
  unfold move_front. rewrite Ha. cbn [mbind option_bind]. rewrite (upd_Some _ _ _ _ Hb). cbn [mbind option_bind].
  rewrite (upd_Some a _ _ pa) by (cbn [with_mem mem]; by rewrite lookup_insert_ne). cbn [mbind option_bind].
  eexists. split; [done|]. eapply rep_same_socks; [exact Hr|..]; cbn [with_head with_mem mem memp_tab udp_pcbs free bound fresh].
  - eapply same_socks_trans; apply same_socks_insert; [done|]. by rewrite lookup_insert_ne.
  - done.
  - intros y Hy. rewrite Hadr, elem_of_app, !elem_of_cons in Hy.
    rewrite !lookup_insert_ne by (intros ->; tauto). done.
  - done.
  - done.
  - rewrite Hbt. by apply Permutation_middle.
  - change (((a, s) :: ?l).*1) with (a :: l.*1).
    assert (Hadr2 : ((l1 ++ [(b, sb)]) ++ l2).*1 = l1.*1 ++ b :: l2.*1).
    { rewrite !fmap_app. cbn. by rewrite <- app_assoc. }
    split; [done|]. split; [done|]. eexists. rewrite lookup_insert_eq. split; [done|].
    cbn [set_link next]. change (fmap fst) with (fmap (M := list) (@fst Z sock)). rewrite Hadr2.
    apply chain_frame; [|by apply (chain_skip _ _ _ a)].
    rewrite <- Permutation_middle in Hn. rewrite <- Permutation_middle. 
    apply NoDup_cons in Hn as [_ Hn]. rewrite <- Permutation_middle in Hn.
    apply NoDup_cons in Hn as [Hn _]. rewrite elem_of_cons. intros [Hx|Hx]; [congruence|done].
Qed.

(** A datagram goes to the first bound socket that is connected to its sender, or else
    to the first unconnected one that matches, or to none; the walk ends, the table keeps
    its sockets, and a connected receiver is moved to the front. *)
Theorem udp_demux_receiver inp u t : udp_rep u t → dest ≠ DHCP_CLIENT_PORT →
  broadcast = ip4_addr_isbroadcast dst inp → mask = in_mask inp →
  ∃ u' t', udp_demux dst dest srcip src inp u = Some (u', receiver (bound t)) ∧ udp_rep u' t' ∧
    free t' = free t ∧ fresh t' = fresh t ∧ bound t' ≡ₚ bound t.
Proof.
  intros Hr Hd Hb Hm. unfold udp_demux. rewrite (proj2 (Z.eqb_neq _ _) Hd). rewrite <- Hb, <- Hm.
  pose proof Hr as (_ & Hc & He & _). apply Forall_app in He as [He _].
  pose proof (demux_loop_spec u (bound t) (udp_pcbs u) 0 0 (walk_fuel u) Hc He (rep_fuel u t Hr)) as Hl.
  unfold receiver. destruct (List.find sock_full (bound t)) as [x|].
  - destruct Hl as (l1 & l2 & Hbt & ->). destruct l1 as [|[b sb] l1 _] using rev_ind.
    + cbn [fmap list_fmap List.last Z.eqb]. by exists u, t.
    + rewrite fmap_app. cbn [fmap list_fmap fst]. rewrite List.last_last. cbn zeta.
      assert (Hb0 : b ≠ 0).
      { rewrite Forall_forall in He. apply (He (b, sb)). rewrite Hbt. set_solver. }
      rewrite (proj2 (Z.eqb_neq b 0)) by done.
      destruct (move_front_rep u t l1 b sb x l2 Hr Hbt) as (u' & -> & Hr'). cbn [mbind option_bind].
      eexists _, _. split; [done|]. split; [exact Hr'|]. cbn [free bound fresh]. split; [done|]. split; [done|].
      rewrite Hbt. by apply Permutation_middle.
  - rewrite Hl. cbn [Z.eqb]. by exists u, t.
Qed.
End receiver.

(** ** Automatic ports *)

Definition next_port (p : Z) : Z := if p =? UDP_LOCAL_PORT_RANGE_END then UDP_LOCAL_PORT_RANGE_START else u16 (p + 1).
Definition in_range (p : Z) : Prop := UDP_LOCAL_PORT_RANGE_START <= p <= UDP_LOCAL_PORT_RANGE_END.

Lemma next_port_in_range p : in_range p → in_range (next_port p).
Proof.
  unfold in_range, next_port, UDP_LOCAL_PORT_RANGE_START, UDP_LOCAL_PORT_RANGE_END. intros Hp.
  destruct (Z.eqb_spec p 0xffff); [lia|]. rewrite u16_small by lia. lia.
Qed.
(** The offset of a port in the cycle that starts after [p0]. *)
Definition offset (p0 p : Z) : Z := (p - p0 - 1) mod 2 ^ 14.
Lemma offset_next p0 p k : in_range p0 → in_range p → 0 <= k < 2 ^ 14 - 1 → offset p0 p = k →
  offset p0 (next_port p) = k + 1.
Proof.
  unfold in_range, next_port, offset, UDP_LOCAL_PORT_RANGE_START, UDP_LOCAL_PORT_RANGE_END.
  intros H0 Hp Hk Ho. destruct (Z.eqb_spec p 0xffff) as [->|].
  - replace (0xc000 - p0 - 1) with ((0xffff - p0 - 1) + 1 + (-1) * 2 ^ 14) by lia.
    rewrite Z.mod_add by lia. rewrite <- Z.add_mod_idemp_l, Ho by lia. apply Z.mod_small. lia.
  - rewrite u16_small by lia. replace (p + 1 - p0 - 1) with (p - p0 - 1 + 1) by lia.
    rewrite <- Z.add_mod_idemp_l, Ho by lia. apply Z.mod_small. lia.
Qed.

Lemma port_used_spec m port l : ∀ h fuel, chain next m h l.*1 → Forall (entry_ok m) l →
  (length l <= fuel)%nat → port_used fuel m h port = Some (port_taken port l).
Proof.
  induction l as [|[b s] l IH]; intros h fuel Hc He Hf.
  - cbn in Hc. rewrite Hc. by destruct fuel.
  - change (((b, s) :: l).*1) with (b :: l.*1) in Hc. destruct Hc as (-> & H0 & p & Hp & Hc).
    apply Forall_cons in He as [(_ & q & Hq & Hs) He]. cbn in Hq, Hs. simplify_eq.
    destruct fuel as [|fuel]; [cbn in Hf; lia|]. cbn [length] in Hf. cbn [port_used].
    rewrite (proj2 (Z.eqb_neq b 0)), Hp by done. cbn [mbind option_bind port_taken existsb snd sock_of s_port].
    destruct (local_port p =? port); [done|]. cbn [orb]. apply IH; [done|done|lia].
Qed.
Lemma port_taken_elem port l : port_taken port l = true ↔ port ∈ map (λ x : Z * sock, s_port x.2) l.
Proof.
  unfold port_taken. rewrite existsb_exists. split.
  - intros (x & Hx & Hp). apply Z.eqb_eq in Hp as <-. apply list_elem_of_In. by apply (in_map (λ x : Z * sock, s_port x.2)).
  - intros H. apply list_elem_of_In, in_map_iff in H as (x & <- & Hx). exists x. split; [done|apply Z.eqb_refl].
Qed.
Lemma with_port_rep p u t : udp_rep u t → udp_rep (with_port p u) t.
Proof. done. Qed.

(** The loop after [n] ports that were all taken. *)
Lemma udp_new_port_loop_spec t p0 : in_range p0 → (length (bound t) < Z.to_nat (2 ^ 14))%nat →
  ∀ fuel n seen u, udp_rep u t → in_range (udp_port u) → n = Z.of_nat (length seen) →
  (length (bound t) < fuel + length seen)%nat → NoDup seen → Forall (λ p, in_range p ∧ port_taken p (bound t) = true) seen →
  Forall (λ p, offset p0 p < n) seen → (0 < n → offset p0 (udp_port u) = n - 1) → (n = 0 → udp_port u = p0) →
  ∃ u', udp_new_port_loop fuel n u = Some (u', udp_port u') ∧ udp_rep u' t ∧ u' = with_port (udp_port u') u ∧
    in_range (udp_port u') ∧ port_taken (udp_port u') (bound t) = false.
Proof.
  intros H0 Hlen. induction fuel as [|fuel IH]; intros n seen u Hr Hp Hn Hf Hnd Hseen Hoff Hk Hk0.
  - exfalso. assert (Hle : (length seen <= length (map (λ x : Z * sock, s_port x.2) (bound t)))%nat).
    { apply NoDup_incl_length; [by apply NoDup_ListNoDup|]. intros x Hx. apply list_elem_of_In, port_taken_elem.
      rewrite Forall_forall in Hseen. apply Hseen. by apply list_elem_of_In. }
    rewrite length_map in Hle. lia.
  - cbn [udp_new_port_loop]. fold (next_port (udp_port u)). set (q := next_port (udp_port u)).
    assert (Hq : in_range q) by (by apply next_port_in_range).
    pose proof Hr as (_ & Hc & He & _). apply Forall_app in He as [He _].
    change (walk_fuel (with_port q u)) with (walk_fuel u).
    cbn [with_port mem udp_pcbs udp_port]. rewrite (port_used_spec _ _ (bound t)) by (done || by apply rep_fuel).
    cbn [mbind option_bind]. destruct (port_taken q (bound t)) eqn:Htk; [|by exists (with_port q u)].
    assert (Hseen_len : (length seen <= length (bound t))%nat).
    { rewrite <- (length_map (λ x : Z * sock, s_port x.2)).
      apply NoDup_incl_length; [by apply NoDup_ListNoDup|]. intros x Hx. apply list_elem_of_In, port_taken_elem.
      rewrite Forall_forall in Hseen. apply Hseen. by apply list_elem_of_In. }
    assert (Hoq : offset p0 q = n).
    { destruct (decide (n = 0)) as [->|Hn0].
      - unfold q. rewrite Hk0 by done. unfold offset, next_port, in_range, UDP_LOCAL_PORT_RANGE_END, UDP_LOCAL_PORT_RANGE_START in *.
        destruct (Z.eqb_spec p0 0xffff) as [->|]; [done|]. rewrite u16_small by lia.
        replace (p0 + 1 - p0 - 1) with 0 by lia. done.
      - unfold q. rewrite (offset_next p0 (udp_port u) (n - 1)); [lia|done|done|lia|]. apply Hk. lia. }
    assert (Hqs : q ∉ seen).
    { intros Hx. rewrite Forall_forall in Hoff. apply Hoff in Hx. lia. }
    assert (Hle : (S (length seen) <= length (bound t))%nat).
    { change (S (length seen)) with (length (q :: seen)). rewrite <- (length_map (λ x : Z * sock, s_port x.2)).
      apply NoDup_incl_length; [apply NoDup_ListNoDup; by apply NoDup_cons|]. intros x Hx.
      apply list_elem_of_In, port_taken_elem. apply list_elem_of_In, elem_of_cons in Hx as [->|Hx]; [done|].
      rewrite Forall_forall in Hseen. by apply Hseen. }
    change (Z.to_nat (2 ^ 14)) with (Z.to_nat 16384) in Hlen.
    rewrite u16_small by (change (2 ^ 16) with 65536; lia).
    change (UDP_LOCAL_PORT_RANGE_END - UDP_LOCAL_PORT_RANGE_START) with 16383.
    rewrite (proj2 (Z.ltb_ge 16383 (n + 1))) by lia.
    destruct (IH (n + 1) (q :: seen) (with_port q u)) as (u' & H1 & H2 & H3 & H4 & H5).
    + done.
    + done.
    + cbn [length]. lia.
    + cbn [length]. lia.
    + by apply NoDup_cons.
    + apply Forall_cons. done.
    + apply Forall_cons. split; [lia|]. eapply Forall_impl; [exact Hoff|]. cbv beta. lia.
    + intros _. cbn [with_port udp_port]. lia.
    + lia.
    + exists u'. done.
Qed.

Lemma udp_new_port_picks u t : udp_rep u t → in_range (udp_port u) →
  (length (bound t) < Z.to_nat (2 ^ 14))%nat →
  ∃ port, udp_new_port u = Some (with_port port u, port) ∧ in_range port ∧ port_taken port (bound t) = false.
Proof.
  intros Hr Hp Hl. unfold udp_new_port.
  destruct (udp_new_port_loop_spec t (udp_port u) Hp Hl port_fuel 0 [] u) as (u' & H1 & H2 & H3 & H4 & H5);
    try done.
  - unfold port_fuel. cbn [length]. change (Z.to_nat (2 ^ 14)) with (Z.to_nat 16384) in Hl. lia.
  - by apply NoDup_nil.
  - exists (udp_port u'). by rewrite H1, <- H3.
Qed.
(** [udp_new_port] ends and returns a port of the dynamic range that no bound socket
    uses, whatever ports are taken, as long as fewer than 16384 sockets are bound (the pool
    has six). *)
Theorem udp_new_port_free u t : udp_rep u t → in_range (udp_port u) →
  (length (bound t) < Z.to_nat (2 ^ 14))%nat →
  ∃ u' port, udp_new_port u = Some (u', port) ∧ udp_rep u' t ∧ in_range port ∧
    port_taken port (bound t) = false ∧ mem u' = mem u.
Proof.
  intros Hr Hp Hl. destruct (udp_new_port_picks u t Hr Hp Hl) as (port & E & Hin & Hfree).
  exists (with_port port u), port. by split_ands.
Qed.

(** ** Every operation on the table *)

(** Sockets that are bound have a port, and the last automatic port is one of the range. *)
Definition numbered (u : udp) (t : socks) : Prop :=
  in_range (udp_port u) ∧ port_taken 0 (bound t) = false ∧ (length (bound t) < Z.to_nat (2 ^ 14))%nat.

Lemma port_taken_free p l : port_taken p l = false ↔ Forall (λ x, s_port x.2 ≠ p) l.
Proof.
  unfold port_taken. induction l as [|x l IH]; [by split|]. cbn [existsb]. rewrite orb_false_iff, Forall_cons, IH.
  by rewrite Z.eqb_neq.
Qed.
Lemma port_free_alter p a f l : (∀ s, s_port s ≠ p → s_port (f s) ≠ p) →
  Forall (λ x : Z * sock, s_port x.2 ≠ p) l → Forall (λ x, s_port x.2 ≠ p) (alter_sock a f l).
Proof.
  intros Hf H. unfold alter_sock. apply Forall_map. eapply Forall_impl; [exact H|]. intros [b s] Hs. cbn in *.
  destruct (b =? a); [by apply Hf|done].
Qed.
Lemma port_free_binds a ip port l : port ≠ 0 →
  Forall (λ x, s_port x.2 ≠ 0) (filter (λ x, x.1 = a) (alter_sock a (s_bind ip port) l)).
Proof.
  intros Hp. apply Forall_forall. intros x [Ha Hx]%list_elem_of_filter. unfold alter_sock in Hx.
  apply list_elem_of_In, in_map_iff in Hx as ([b s] & <- & _). cbn in *. subst. by rewrite Z.eqb_refl.
Qed.
(** Operations keep bound sockets on ports. *)
Lemma sock_spec_ports o t : sock_legal o t → port_taken 0 (bound t) = false →
  port_taken 0 (bound (sock_spec o t).1) = false.
Proof.
  rewrite !port_taken_free. intros Hl Ht. destruct o as [|a ip port|a f arg|a|a]; cbn [sock_spec].
  - by destruct (free t).
  - destruct Hl as [_ Hp]. destruct (conflicts _ _ _ _); [done|]. cbn [fst bound alter fresh]. apply Forall_app.
    split; [by apply port_free_binds|]. by apply port_free_alter.
  - cbn. by apply port_free_alter.
  - cbn. by apply port_free_alter.
  - cbn. apply Forall_forall. intros x [_ Hx]%list_elem_of_filter. rewrite Forall_forall in Ht. by apply Ht.
Qed.

Lemma upd_port a f u u' : upd a f u = Some u' → udp_port u' = udp_port u.
Proof. unfold upd. destruct (mem u !! a); [|done]. by intros [= <-]. Qed.
Lemma remove_loop_port a h fuel u u' : remove_loop fuel a h u = Some u' → udp_port u' = udp_port u.
Proof.
  revert h u. induction fuel as [|fuel IH]; intros h u; cbn [remove_loop]; destruct (h =? 0); try done; try by intros [= <-].
  destruct (mem u !! h) as [p|]; [|done]. cbn [mbind option_bind]. destruct (_ && _).
  - destruct (mem u !! a) as [q|]; [|done]. cbn [mbind option_bind]. destruct (upd _ _ u) as [u1|] eqn:E; [|done].
    cbn [mbind option_bind]. destruct (mem u1 !! h); [|done]. cbn [mbind option_bind]. intros H%IH. by rewrite H, (upd_port _ _ _ _ E).
  - cbn [mbind option_bind]. destruct (mem u !! h); [|done]. apply IH.
Qed.
(** Only the choice of a port moves the counter. *)
Lemma sock_run_port o u t r : sock_legal o t → sock_run o u = Some r → udp_port r.1 = udp_port u.
Proof.
  intros Hl. destruct o as [|a ip port|a f arg|a|a]; cbn [sock_run].
  - unfold udp_new, memp_malloc. destruct (memp_tab u =? 0); cbn [negb mbind option_bind]; [by intros [= <-]|].
    destruct (mem u !! memp_tab u); [|done]. cbn [mbind option_bind]. destruct (_ =? 0); cbn [negb]; [by intros [= <-]|].
    destruct (upd _ _ _) as [u1|] eqn:E; [|done]. intros [= <-]. by apply upd_port in E.
  - destruct Hl as [_ Hp]. unfold udp_bind. destruct (bind_scan _ _ _ _ _ _ _) as [[re|]|]; [|by intros [= <-]|done].
    cbn [mbind option_bind]. destruct (mem u !! a); [|done]. cbn [mbind option_bind].
    destruct (upd _ _ u) as [u1|] eqn:E1; [|done]. cbn [mbind option_bind]. rewrite (proj2 (Z.eqb_neq port 0)) by done.
    cbn [mbind option_bind]. rewrite (proj2 (Z.eqb_neq port 0)) by done.
    destruct (upd _ _ u1) as [u2|] eqn:E2; [|done]. cbn [mbind option_bind].
    apply upd_port in E1, E2. destruct re; cbn [negb]; [intros [= <-]; cbn; congruence|].
    destruct (upd _ _ u2) as [u3|] eqn:E3; [|done]. apply upd_port in E3. intros [= <-]. cbn. congruence.
  - unfold udp_recv. destruct (upd _ _ _) as [u1|] eqn:E; [|done]. intros [= <-]. by apply upd_port in E.
  - unfold udp_disconnect. destruct (upd _ _ _) as [u1|] eqn:E; [|done]. intros [= <-]. by apply upd_port in E.
  - unfold udp_remove. destruct (if udp_pcbs u =? a then _ else _) as [u1|] eqn:E; [|done]. cbn [mbind option_bind].
    assert (H1 : udp_port u1 = udp_port u).
    { destruct (_ =? a); [|by apply remove_loop_port in E]. destruct (mem u !! a); [|done]. by injection E as <-. }
    unfold memp_free. destruct (a =? 0); [intros [= <-]; exact H1|].
    destruct (upd _ _ u1) as [u2|] eqn:E2; [|done]. intros [= <-]. apply upd_port in E2. cbn in *. congruence.
Qed.

Lemma port_taken_alter p a f l : (∀ s, s_port (f s) = s_port s) → port_taken p (alter_sock a f l) = port_taken p l.
Proof.
  intros Hf. unfold port_taken, alter_sock. induction l as [|[b s] l IH]; [done|]. cbn [map existsb snd]. rewrite IH.
  by destruct (b =? a); rewrite ?Hf.
Qed.
(** Binding to port 0 is binding to a free port of the range. *)
Lemma udp_bind_auto a ip u t : udp_rep u t → a ∈ live t → numbered u t →
  ∃ port, in_range port ∧ port_taken port (bound t) = false ∧ udp_bind a ip 0 u = udp_bind a ip port (with_port port u).
Proof.
  intros Hr Ha (Hp & H0 & Hlen). destruct (live_block u t a Hr Ha) as (_ & _ & p & Hmp).
  pose proof Hr as (_ & Hb & He & _). apply Forall_app in He as [He _].
  assert (Hscan : ∀ port, port_taken port (bound t) = false → bind_scan (walk_fuel u) (mem u) a ip port (udp_pcbs u) false =
    Some (Some (bool_decide (a ∈ (bound t).*1)))).
  { intros port Hport. rewrite (bind_scan_spec (mem u) a ip port (bound t)) by (done || by apply rep_fuel). by rewrite no_conflict. }
  set (g := λ s, Sock ip (s_port s) (s_remote_ip s) (s_remote_port s) (s_flags s) (s_recv s) (s_arg s)).
  destruct (alter_rep u t a g (set_local ip (local_port p)) p Hr Ha Hmp) as (u1 & Hu & Hr1 & _); [done|done|].
  pose proof (upd_Some _ (set_local ip (local_port p)) _ p Hmp) as Hu'. rewrite Hu' in Hu. injection Hu as <-.
  destruct (udp_new_port_picks _ _ Hr1 Hp) as (port & E & Hin & Hfree); [cbn; unfold alter_sock; by rewrite length_map|].
  cbn [alter bound] in Hfree. rewrite port_taken_alter in Hfree by done.
  assert (Hnz : port ≠ 0) by (unfold in_range, UDP_LOCAL_PORT_RANGE_START in Hin; lia).
  exists port. split; [done|]. split; [done|].
  rewrite (bind_at a ip port (with_port port u) p _ Hmp Hnz (Hscan port Hfree)).
  unfold udp_bind. rewrite Hscan by done. cbn [mbind option_bind]. rewrite Hmp. cbn [mbind option_bind]. rewrite Hu'.
  cbn [mbind option_bind Z.eqb]. rewrite E. cbn [mbind option_bind]. rewrite (proj2 (Z.eqb_neq port 0)) by done.
  erewrite upd_Some by (cbn [with_port with_mem mem]; apply lookup_insert_eq).
  cbn [mbind option_bind with_port with_mem mem]. rewrite insert_insert_eq. destruct (bool_decide _); cbn [negb]; [done|].
  erewrite upd_Some by (cbn [with_port with_mem mem]; apply lookup_insert_eq).
  cbn [mbind option_bind with_mem with_port mem]. by rewrite insert_insert_eq.
Qed.

(** What is asked for, and the operation of the table it comes to: the port 0 stands for a port
    of the range that no bound socket has. *)
Inductive settles (t : socks) : sock_op → sock_op → Prop :=
  | settles_auto a ip port : in_range port → port_taken port (bound t) = false →
      settles t (Bind a ip 0) (Bind a ip port)
  | settles_same o : (∀ a ip, o ≠ Bind a ip 0) → settles t o o.
(** Operations take a socket that has been made and not been removed. *)
Definition on_live (o : sock_op) (t : socks) : Prop :=
  match o with New => True | Bind a _ _ | Recv a _ _ | Disconnect a | Remove a => a ∈ live t end.

Lemma sock_run_rep o u t : udp_rep u t → sock_legal o t →
  ∃ u', sock_run o u = Some (u', (sock_spec o t).2) ∧ udp_rep u' (sock_spec o t).1.
Proof.
  intros Hr Hl. destruct o as [|a ip port|a f arg|a|a].
  - by apply udp_new_rep.
  - by apply udp_bind_rep.
  - destruct (udp_recv_rep a f arg u t Hr Hl) as (u' & Hu & Hr'). cbn [sock_run]. rewrite Hu. by eexists.
  - destruct (live_block u t a Hr Hl) as (_ & _ & p & Hp). cbn [sock_run sock_spec].
    destruct (alter_rep u t a (λ s, Sock (s_ip s) (s_port s) 0 0 (Z.land (s_flags s) (Z.lnot UDP_FLAGS_CONNECTED)) (s_recv s) (s_arg s))
      (λ p, set_remote 0 0 (Z.land (flags p) (Z.lnot UDP_FLAGS_CONNECTED)) p) p Hr Hl Hp)
      as (u' & Hu & Hr' & _); [done|done|].
    unfold udp_disconnect. rewrite Hu. by eexists.
  - destruct (udp_remove_rep a u t Hr Hl) as (u' & Hu & Hr' & _). cbn [sock_run]. rewrite Hu. by eexists.
Qed.
Lemma settled o u t : udp_rep u t → on_live o t → numbered u t →
  ∃ o' v, settles t o o' ∧ sock_legal o' t ∧ sock_run o u = sock_run o' v ∧ udp_rep v t ∧ in_range (udp_port v).
Proof.
  intros Hr Hl Hn. assert (Hd : (∃ a ip, o = Bind a ip 0) ∨ ∀ a ip, o ≠ Bind a ip 0).
  { destruct o as [|a ip port|a f arg|a|a]; try (by right). destruct (decide (port = 0)) as [->|]; [by left; eauto|right; congruence]. }
  destruct Hd as [(a & ip & ->)|Hd].
  - destruct (udp_bind_auto a ip u t Hr Hl Hn) as (port & Hin & Hfree & E). exists (Bind a ip port), (with_port port u).
    split; [by constructor|]. split; [|done]. split; [done|]. unfold in_range, UDP_LOCAL_PORT_RANGE_START in Hin. lia.
  - exists o, u. split; [by constructor|]. split; [|split; [done|split; [done|apply Hn]]].
    destruct o; try done. split; [done|]. intros ->. by eapply Hd.
Qed.

(** C21: the pool and the bound list refine a socket table.  Take control blocks that have been
    made and not been removed, fewer than 16384 of them bound, all to ports that are not 0, and
    the last automatic port in its range (all of it holds at the start, and each operation keeps
    the last two).  Making, binding, redirecting, disconnecting and removing a control block then
    never touches a block that does not exist, always ends, and gives exactly the result and the
    table of the abstract operation.  Binding to port 0 is binding to a port of the range 49152 to
    65535 that no bound socket has, so that the binding cannot fail.  Connecting is not among the
    operations. *)
Theorem udp_refines_socket_table o u t : udp_rep u t → on_live o t → numbered u t →
  ∃ o' u', settles t o o' ∧ sock_run o u = Some (u', (sock_spec o' t).2) ∧ udp_rep u' (sock_spec o' t).1 ∧
    in_range (udp_port u') ∧ port_taken 0 (bound (sock_spec o' t).1) = false.
Proof.
  intros Hr Hl Hn. destruct (settled o u t Hr Hl Hn) as (o' & v & Hs & Hl' & E & Hv & Hp).
  destruct (sock_run_rep o' v t Hv Hl') as (u' & Eu & Hu'). exists o', u'. rewrite E.
  split; [done|]. split; [done|]. split; [done|]. split; [|by apply sock_spec_ports, Hn].
  pose proof (sock_run_port o' v t _ Hl' Eu) as E'. cbn [fst] in E'. by rewrite E'.
Qed.

(** ** Instances *)

Definition made (u : udp) : udp := match udp_new u with Some (u', _) => u' | None => u end.
Definition pool_demo : udp := made (memp_init 1000 32).
Definition table_demo : socks := Socks [1128; 1096; 1064; 1032; 1000] [] [(1160, new_sock)].
Lemma pool_demo_rep : udp_rep pool_demo table_demo.
Proof.
  destruct (udp_new_rep (memp_init 1000 32) (Socks (pool_blocks MEMP_NUM_UDP_PCB 1000 32 []) [] [])) as (u' & Hu & Hr).
  { apply memp_init_rep; lia. }
  unfold pool_demo, made. rewrite Hu. exact Hr.
Qed.
Lemma pool_demo_numbered : numbered pool_demo table_demo.
Proof. split; [split; vm_compute; discriminate|]. split; [done|]. apply Nat.ltb_lt. vm_compute. reflexivity. Qed.
Lemma udp_refines_socket_table_witness :
  ∃ o' u', settles table_demo (Bind 1160 0 0) o' ∧ sock_run (Bind 1160 0 0) pool_demo = Some (u', ERR_OK) ∧
    udp_rep u' (sock_spec o' table_demo).1.
Proof.
  destruct (udp_refines_socket_table (Bind 1160 0 0) pool_demo table_demo pool_demo_rep
    (list_elem_of_here 1160 []) pool_demo_numbered) as (o' & u' & S & E & R & _ & _).
  exists o', u'. split; [exact S|]. split; [|exact R]. rewrite E. by inversion S as [a ip port Hin Hf|]; subst; [|naive_solver].
Defined.
Lemma udp_remove_twice_witness : ∃ u1 u2 u3 u4, udp_remove 1160 pool_demo = Some u1 ∧
  udp_remove 1160 u1 = Some u2 ∧ udp_new u2 = Some (u3, 1160) ∧ udp_new u3 = Some (u4, 1160) ∧ memp_tab u4 = 0.
Proof. apply (udp_remove_twice 1160 pool_demo table_demo pool_demo_rep). apply list_elem_of_here. Defined.
Definition bound_pool : udp := match udp_bind 1160 0 67 pool_demo with Some (u, _) => u | None => pool_demo end.
Definition bound_table : socks := (sock_spec (Bind 1160 0 67) table_demo).1.
Lemma bound_pool_rep : udp_rep bound_pool bound_table.
Proof.
  destruct (udp_bind_rep 1160 0 67 pool_demo table_demo pool_demo_rep) as (u' & Hu & Hr).
  { split; [apply list_elem_of_here|lia]. }
  unfold bound_pool. rewrite Hu. exact Hr.
Qed.
Lemma udp_demux_receiver_witness : ∃ u' t',
  udp_demux 0xffffffff 67 0 68 (InpView 0x010A0A0A 0x00ffffff 2 0) bound_pool = Some (u', 1160) ∧
  udp_rep u' t' ∧ free t' = free bound_table ∧ fresh t' = fresh bound_table ∧ bound t' ≡ₚ bound bound_table.
Proof.
  apply (udp_demux_receiver true 0xffffffff 67 0 68 0x00ffffff (InpView 0x010A0A0A 0x00ffffff 2 0)
    bound_pool bound_table bound_pool_rep); [discriminate|reflexivity|reflexivity].
Defined.
Lemma udp_new_port_free_witness : ∃ u' port, udp_new_port pool_demo = Some (u', port) ∧ udp_rep u' table_demo ∧
  in_range port ∧ port_taken port [] = false ∧ mem u' = mem pool_demo.
Proof.
  apply (udp_new_port_free pool_demo table_demo pool_demo_rep).
  - split; vm_compute; discriminate.
  - apply Nat.ltb_lt. vm_compute. reflexivity.
Defined.
