(* ===== verification/Ip.v ===== *)
(** * Sending IP packets ([LwIP/src/core/ipv4/ip.c], [ip_frag.c], [udp.c])

    Routing, the IP header with its checksum, fragmentation, and the sending side of UDP.  A
    packet is a chain whose first pbuf is given with the memory behind it: pointers into it
    (the payload, the IP header) are offsets, so that what is written through one is seen
    through the other.  What leaves the stack, and what becomes of a packet, is a list of
    events. *)
From S2P Require Import Prelude Chksum Udp.

Definition ERR_MEM : Z := -1.
Definition ERR_BUF : Z := -2.
Definition ERR_RTE : Z := -4.
Definition ERR_VAL : Z := -6.
Definition IP_HLEN : nat := 20.
Definition UDP_HLEN : nat := 8.
Definition IP_PROTO_ICMP : Z := 1.
Definition IP_PROTO_TCP : Z := 6.
Definition IP_PROTO_UDP : Z := 17.
Definition IP_OFFMASK : Z := 0x1fff.
Definition IP_MF : Z := 0x2000.
Definition UDP_FLAGS_NOCHKSUM : Z := 1.

(** ** Packets *)

(** The first pbuf: the memory behind its header, that memory's address, the payload's offset
    and length, and whether the payload may grow to the front (PBUF_RAM, PBUF_POOL). *)
Record packet := Packet {
  buf : list Z; base : Z; off : nat; len : nat; grows : bool; more : list (Z * list Z) }.
Definition payload (p : packet) : list Z := slice (off p) (len p) (buf p).
Definition payloads (p : packet) : list (Z * list Z) := (base p + Z.of_nat (off p), payload p) :: more p.
Definition contents (p : packet) : list Z := payload p ++ bytes_of (more p).
Definition tot_len (p : packet) : nat := len p + length (bytes_of (more p)).
Definition with_buf (b : list Z) (p : packet) : packet := Packet b (base p) (off p) (len p) (grows p) (more p).
Definition with_payload (o n : nat) (p : packet) : packet := Packet (buf p) (base p) o n (grows p) (more p).

(** The payload pointer moved by [n] bytes to the back; [None] is the result 1. *)
(* @ LwIP/src/core/pbuf.c:524-580 pbuf_header *)
Definition hide_header (n : nat) (p : packet) : option packet :=
  if (n <=? len p)%nat then Some (with_payload (off p + n) (len p - n) p) else None.
(* @ LwIP/src/core/pbuf.c:524-580 pbuf_header *)
Definition show_header (n : nat) (p : packet) : option packet :=
  if (n =? 0)%nat || (grows p && (n <=? off p)%nat) then Some (with_payload (off p - n) (len p + n) p) else None.

(** Reading and writing memory at an offset; [None] is an access outside it. *)
Definition rd8 (i : nat) (b : list Z) : option Z := b !! i.
Definition rd16 (i : nat) (b : list Z) : option Z := x ← b !! i; y ← b !! S i; Some (of_le16 x y).
Definition rd32 (i : nat) (b : list Z) : option Z :=
  x0 ← b !! i; x1 ← b !! S i; x2 ← b !! S (S i); x3 ← b !! S (S (S i)); Some (of_le32 x0 x1 x2 x3).
Definition wr (i : nat) (xs b : list Z) : option (list Z) :=
  if (i + length xs <=? length b)%nat then Some (store_at i xs b) else None.

(** ** Interfaces and events *)

(** An interface: its identity, addresses and flags, and its MTU. *)
(* @ LwIP/src/include/lwip/netif.h:136-192 netif *)
Record nif := Nif { n_id : Z; n_view : inp_view; n_mtu : Z }.
(* @ LwIP/src/include/lwip/netif.h:282-282 netif_is_up *)
Definition is_up (n : nif) : bool := negb (Z.land (in_flags (n_view n)) NETIF_FLAG_UP =? 0).
(** A raw control block; its callback is a number, 0 for none. *)
(* @ LwIP/src/include/lwip/raw.h:63-75 raw_pcb *)
Record raw_pcb := RawPcb { r_local : Z; r_proto : Z; r_recv : Z }.
(* @ LwIP/src/core/ipv4/ip.c:111-111 ip_id *)
Record stack := Stack {
  netif_list : list nif; netif_default : option nif; ip_id : Z; raw_pcbs : list raw_pcb; pcbs : udp }.
Definition with_id (i : Z) (s : stack) : stack :=
  Stack (netif_list s) (netif_default s) i (raw_pcbs s) (pcbs s).
Definition with_raw (l : list raw_pcb) (s : stack) : stack :=
  Stack (netif_list s) (netif_default s) (ip_id s) l (pcbs s).
Definition with_pcbs (u : udp) (s : stack) : stack :=
  Stack (netif_list s) (netif_default s) (ip_id s) (raw_pcbs s) u.

(** What the stack does with packets: a call of an interface's output function, the call of a
    callback, or the end of a packet (freed, or handed to reassembly or TCP). *)
Inductive event :=
| EvOutput (n : Z) (bytes : list Z) (dest : Z)
| EvFree (b : Z)
| EvReass (p : packet)
| EvTcp (p : packet)
| EvRaw (pcb : raw_pcb) (p : packet) (eaten : bool)
| EvUdp (pcb recv arg : Z) (p : packet) (srcip src : Z).

(** ** Routing *)
(* @ LwIP/src/include/ipv4/lwip/ip_addr.h:194-197 ip_addr_netcmp *)
Definition netcmp (a b mask : Z) : bool := Z.land a mask =? Z.land b mask.
(* @ LwIP/src/core/ipv4/ip.c:135-143 ip_route *)
Fixpoint route_loop (dest : Z) (l : list nif) : option nif :=
  match l with
  | [] => None
  | n :: l =>
    if is_up n && netcmp dest (in_ip (n_view n)) (in_mask (n_view n)) then Some n else route_loop dest l
  end.
(* @ LwIP/src/core/ipv4/ip.c:122-153 ip_route *)
Definition ip_route (dest : Z) (s : stack) : option nif :=
  match route_loop dest (netif_list s) with
  | Some n => Some n
  | None =>
    match netif_default s with
    | Some n => if is_up n then Some n else None
    | None => None
    end
  end.

Section output.
(** The summing routine in use, the address of the buffers that are allocated, and what the
    output functions of the interfaces answer. *)
Context `{StdChksum}.
Variable ram : Z.
Variable link : nif → list Z → Z → Z.

(** ** Fragmentation *)
(** The header of a fragment. *)
(* @ LwIP/src/core/ipv4/ip_frag.c:808-812 ip_frag *)
Definition frag_hdr (original : list Z) (tmp : Z) (cop : nat) : list Z :=
  let iphdr := store_at 6 (le16 (htons tmp)) (take IP_HLEN original) in
  let iphdr := store_at 2 (le16 (htons (u16 (Z.of_nat cop + 20)))) iphdr in
  let iphdr := store_at 10 [0; 0] iphdr in
  store_at 10 (le16 (inet_chksum ram iphdr)) iphdr.
(** [data] is what is left to send, [mem] how many more fragments can be allocated.  The code
    refers to the data where it lies, buffer by buffer; here a fragment's data are bytes of the
    packet's contents, and the walk along the chain is not a step of its own. *)
(* @ LwIP/src/core/ipv4/ip_frag.c:720-853 ip_frag *)
Fixpoint frag_loop (fuel : nat) (original data : list Z) (ofo omf mtu : Z) (n : nif) (dest : Z)
    (mem : nat) : option (list event * Z) :=
  match data with
  | [] => Some ([], ERR_OK)
  | _ =>
    match fuel with
    | O => None
    | S fuel =>
      let left := Z.of_nat (length data) in
      let nfb := u16 (Z.quot (mtu - 20) 8) in
      let last := left <=? mtu - 20 in
      let tmp := Z.lor omf (Z.land IP_OFFMASK ofo) in
      let tmp := if last then tmp else Z.lor tmp IP_MF in
      let cop := if last then length data else Z.to_nat (u16 (nfb * 8)) in
      match mem with
      | O => Some ([], ERR_MEM)
      | S mem =>
        let frame := frag_hdr original tmp cop ++ take cop data in
        '(evs, err) ← frag_loop fuel original (drop cop data) (u16 (ofo + nfb)) omf mtu n dest mem;
        Some (EvOutput (n_id n) frame dest :: evs, err)
      end
    end
  end.
(* @ LwIP/src/core/ipv4/ip_frag.c:664-859 ip_frag *)
Definition ip_frag (p : packet) (n : nif) (dest : Z) (mem : nat) : option (list event * Z) :=
  (* a datagram shorter than a header would wrap the length *)
  if (tot_len p <? IP_HLEN)%nat then None else
  tmp ← rd16 (off p + 6) (buf p);
  let tmp := htons tmp in
  frag_loop (length (contents p)) (contents p) (drop IP_HLEN (contents p))
    (Z.land tmp IP_OFFMASK) (Z.land tmp IP_MF) (n_mtu n) n dest mem.

(** ** The IP header *)
(** The sum of the header's words as it is written, folded and inverted. *)
(* @ LwIP/src/core/ipv4/ip.c:717-757 ip_output_if *)
Definition chksum_inline (proto ttl dest tos v_hl len id src : Z) : Z :=
  let chk_sum := u32 (0 + Z.lor (Z.shiftl proto 8) ttl) in
  let chk_sum := u32 (chk_sum + Z.land dest 0xFFFF) in
  let chk_sum := u32 (chk_sum + Z.shiftr dest 16) in
  let chk_sum := u32 (chk_sum + Z.lor (Z.shiftl tos 8) v_hl) in
  let chk_sum := u32 (chk_sum + len) in
  let chk_sum := u32 (chk_sum + id) in
  let chk_sum := u32 (chk_sum + Z.land src 0xFFFF) in
  let chk_sum := u32 (chk_sum + Z.shiftr src 16) in
  let chk_sum := u32 (Z.shiftr chk_sum 16 + Z.land chk_sum 0xFFFF) in
  let chk_sum := u32 (Z.shiftr chk_sum 16 + chk_sum) in
  u16 (Z.lnot chk_sum).
(* @ LwIP/src/core/ipv4/ip.c:711-757 ip_output_if *)
Definition ip_header (tot : nat) (src dest ttl tos proto id : Z) : list Z :=
  let v_hl := Z.lor (Z.shiftl 4 4) 5 in
  let len := htons (u16 (Z.of_nat tot)) in
  let id := htons id in
  [v_hl; tos] ++ le16 len ++ le16 id ++ [0; 0] ++ [ttl; proto] ++
  le16 (chksum_inline proto ttl dest tos v_hl len id src) ++ le32 src ++ le32 dest.
(** [dest] is [None] for IP_HDRINCL. *)
(* @ LwIP/src/core/ipv4/ip.c:639-797 ip_output_if *)
Definition ip_output_if (p : packet) (src : Z) (dest : option Z) (ttl tos proto : Z) (n : nif)
    (mem : nat) (s : stack) : option (stack * list event * Z) :=
  '(s, p, dest, ok) ←
    match dest with
    | Some dest =>
      match show_header IP_HLEN p with
      | None => Some (s, p, dest, false)
      | Some p =>
        let src := if src =? 0 then in_ip (n_view n) else src in
        b ← wr (off p) (ip_header (tot_len p) src dest ttl tos proto (ip_id s)) (buf p);
        Some (with_id (u16 (ip_id s + 1)) s, with_buf b p, dest, true)
      end
    | None => dest ← rd32 (off p + 16) (buf p); Some (s, p, dest, true)
    end;
  if negb ok then Some (s, [], ERR_BUF)
  else if negb (n_mtu n =? 0) && (n_mtu n <? Z.of_nat (tot_len p)) then
    '(evs, err) ← ip_frag p n dest mem; Some (s, evs, err)
  else Some (s, [EvOutput (n_id n) (contents p) dest], link n (contents p) dest).
(* @ LwIP/src/core/ipv4/ip.c:816-834 ip_output *)
Definition ip_output (p : packet) (src : Z) (dest : Z) (ttl tos proto : Z) (mem : nat) (s : stack)
  : option (stack * list event * Z) :=
  match ip_route dest s with
  | None => Some (s, [], ERR_RTE)
  | Some n => ip_output_if p src (Some dest) ttl tos proto n mem s
  end.

(** ** Sending UDP *)
(** A PBUF_RAM whose payload is [data], behind room for [hlen] bytes of headers rounded up to
    a word; [room] is memory [pbuf_alloc] can give, if there is any. *)
(* @ LwIP/src/core/pbuf.c:305-319 pbuf_alloc *)
Definition ram_pbuf (room : option (list Z)) (hlen : nat) (data : list Z) : option packet :=
  junk ← room;
  let front := take ((hlen + 3) / 4 * 4) junk in
  Some (Packet (front ++ data) ram (length front) (length data) true []).
(** The header's bytes are written next. *)
(* @ LwIP/src/core/udp.c:587-606 udp_sendto_if *)
Definition add_udp_header (p : packet) (room : option (list Z)) : option packet :=
  match show_header UDP_HLEN p with
  | Some q => Some q
  | None =>
    q ← ram_pbuf room 34 (repeat 0 UDP_HLEN);
    Some (if (tot_len p =? 0)%nat then q
          else Packet (buf q) (base q) (off q) (len q) (grows q) (payloads p))
  end.
(* @ LwIP/src/core/udp.c:610-722 udp_sendto_if *)
Definition fill_udp_header (q : packet) (nochksum : bool) (src_ip dst_ip src_port dst_port : Z) : option packet :=
  let hdr chk := le16 (htons src_port) ++ le16 (htons dst_port) ++
                 le16 (htons (u16 (Z.of_nat (tot_len q)))) ++ le16 chk in
  b ← wr (off q) (hdr 0) (buf q);
  let q := with_buf b q in
  if nochksum then Some q
  else
    let udpchksum := inet_chksum_pseudo (payloads q) src_ip dst_ip IP_PROTO_UDP (u16 (Z.of_nat (tot_len q))) in
    let udpchksum := if udpchksum =? 0 then 0xffff else udpchksum in
    b ← wr (off q) (hdr udpchksum) (buf q); Some (with_buf b q).
(* @ LwIP/src/core/udp.c:547-743 udp_sendto_if *)
Definition udp_sendto_if (pcb : Z) (p : packet) (dst_ip dst_port : Z) (n : nif) (room : option (list Z))
    (mem : nat) (s : stack) : option (stack * list event * Z) :=
  c ← Udp.mem (pcbs s) !! pcb;
  '(u, err) ← (if local_port c =? 0 then udp_bind pcb (local_ip c) (local_port c) (pcbs s) else Some (pcbs s, ERR_OK));
  let s := with_pcbs u s in
  if negb (err =? ERR_OK) then Some (s, [], err)
  else
    match add_udp_header p room with
    | None => Some (s, [], ERR_MEM)
    | Some q =>
      c ← Udp.mem u !! pcb;
      if negb (local_ip c =? 0) && negb (local_ip c =? in_ip (n_view n)) then Some (s, [], ERR_VAL)
      else
        let src_ip := if local_ip c =? 0 then in_ip (n_view n) else local_ip c in
        q ← fill_udp_header q (negb (Z.land (flags c) UDP_FLAGS_NOCHKSUM =? 0)) src_ip dst_ip
              (local_port c) dst_port;
        ip_output_if q src_ip (Some dst_ip) (ttl c) (tos c) IP_PROTO_UDP n mem s
    end.
(* @ LwIP/src/core/udp.c:489-526 udp_sendto *)
Definition udp_sendto (pcb : Z) (p : packet) (dst_ip dst_port : Z) (room : option (list Z))
    (mem : nat) (s : stack) : option (stack * list event * Z) :=
  match ip_route dst_ip s with
  | None => Some (s, [], ERR_RTE)
  | Some n => udp_sendto_if pcb p dst_ip dst_port n room mem s
  end.
(* @ LwIP/src/core/udp.c:452-457 udp_send *)
Definition udp_send (pcb : Z) (p : packet) (room : option (list Z)) (mem : nat) (s : stack)
  : option (stack * list event * Z) :=
  c ← Udp.mem (pcbs s) !! pcb; udp_sendto pcb p (remote_ip c) (remote_port c) room mem s.
End output.

(** ** Words and headers *)
Lemma htons_u16 x : 0 <= htons x < 65536.
Proof.
  rewrite htons_add. pose proof (byte_of_byte 0 x). pose proof (byte_of_byte 1 x). unfold is_byte in *. lia.
Qed.
Lemma byte_of_htons x : byte_of 0 (htons x) = byte_of 1 x ∧ byte_of 1 (htons x) = byte_of 0 x.
Proof.
  rewrite htons_add. pose proof (byte_of_byte 0 x). pose proof (byte_of_byte 1 x). unfold is_byte in *.
  revert H H0. generalize (byte_of 0 x) as a, (byte_of 1 x) as b. intros a b Ha Hb.
  rewrite byte_of_0, byte_of_1. split.
  - symmetry. apply (Z.mod_unique _ _ a); lia.
  - replace ((256 * a + b) / 256) with a; [apply Z.mod_small; lia|].
    apply (Z.div_unique _ _ _ b); lia.
Qed.
Lemma htons_involutive x : 0 <= x < 65536 → htons (htons x) = x.
Proof.
  intros Hx. rewrite htons_add. destruct (byte_of_htons x) as [-> ->]. pose proof (bytes_of_word x Hx). lia.
Qed.
Lemma le16_ok x : bytes_ok (le16 x).
Proof. unfold le16. repeat (constructor; [apply byte_of_byte|]). constructor. Qed.
Lemma sum16_le16 x : 0 <= x < 65536 → sum16 false (le16 x) = x.
Proof. intros Hx. cbn. pose proof (bytes_of_word x Hx). lia. Qed.
Lemma sum16_le32 x : is_u32 x → sum16 false (le32 x) = Z.land x 0xFFFF + Z.shiftr x 16.
Proof.
  intros Hx. unfold is_u32 in Hx. rewrite land_word. cbn.
  assert (0 <= Z.shiftr x 16 < 65536).
  { rewrite Z.shiftr_div_pow2 by lia. split; [apply Z.div_pos; lia|apply Z.div_lt_upper_bound; lia]. }
  pose proof (land16 (Z.shiftr x 16) ltac:(lia)) as E. rewrite land_word, !byte_of_shift in E by lia.
  change (0 + 2) with 2 in E. change (1 + 2) with 3 in E. lia.
Qed.

(** The sum computed while the header is written. *)
Lemma chksum_inline_sum proto ttl dest tos v_hl len id src :
  is_byte proto → is_byte ttl → is_byte tos → is_byte v_hl → 0 <= len < 65536 → 0 <= id < 65536 →
  is_u32 src → is_u32 dest →
  let s := v_hl + 256 * tos + len + id + ttl + 256 * proto + sum16 false (le32 src) + sum16 false (le32 dest) in
  chksum_inline proto ttl dest tos v_hl len id src = not16 (ones s) ∧ 0 <= s.
Proof.
  intros H1 H2 H3 H4 H5 H6 H7 H8. cbv zeta. unfold chksum_inline.
  rewrite !of_be16_add by done. rewrite !sum16_le32 by done. unfold is_byte, is_u32 in *.
  assert (Hl : ∀ x, 0 <= Z.land x 0xFFFF < 65536).
  { intros x. change 0xFFFF with (Z.ones 16). rewrite Z.land_ones by lia. apply Z.mod_pos_bound. lia. }
  assert (Hs : ∀ x, 0 <= x < 2 ^ 32 → 0 <= Z.shiftr x 16 < 65536).
  { intros x Hx. rewrite Z.shiftr_div_pow2 by lia. split; [apply Z.div_pos; lia|apply Z.div_lt_upper_bound; lia]. }
  pose proof (Hl src). pose proof (Hl dest). pose proof (Hs src H7). pose proof (Hs dest H8).
  cbv zeta. rewrite Z.add_0_l. do 8 match goal with |- context [u32 ?x] =>
    lazymatch x with context [u32 _] => fail | _ => rewrite (u32_small x) by (unfold is_u32; lia) end end.
  match goal with |- u16 (Z.lnot (u32 (Z.shiftr (u32 (Z.shiftr ?a 16 + _)) 16 + _))) = _ ∧ _ => set (w := a) end.
  assert (Hw : 0 <= w < 2 ^ 32) by (unfold w; lia).
  match goal with |- context [ones ?x] => replace x with w by (unfold w; lia) end. split; [|lia].
  fold (FOLD_U32T w). destruct (rep_fold w w) as [R B]; [apply rep_refl; lia|lia|].
  set (f := FOLD_U32T w) in *.
  assert (f <= 131070) by (pose proof (Z.div_lt_upper_bound w 65536 65536); lia).
  destruct R as (Hf0 & _ & E & Hz). rewrite Z.shiftr_div_pow2 by lia. change (2 ^ 16) with 65536.
  destruct (Z.lt_ge_cases f 65536) as [Hlt|Hge].
  - rewrite (Z.div_small f) by lia. rewrite Z.add_0_l, u32_small by (unfold is_u32; lia).
    rewrite lnot16 by lia. f_equal. apply rep_ones; [unfold rep; tauto|lia].
  - replace (f / 65536) with 1 by (apply (Z.div_unique _ _ _ (f - 65536)); lia).
    rewrite u32_small by (unfold is_u32; lia).
    replace (u16 (Z.lnot (1 + f))) with (not16 (f + 1 - 65536)).
    + f_equal. apply rep_ones; [|lia]. unfold rep. split; [lia|]. split; [lia|]. split; [|lia].
      rewrite <- E. replace f with (f + 1 - 65536 + 1 * 65535) at 2 by lia. by rewrite Z_mod_plus_full.
    + unfold u16, not16, Z.lnot. apply (Z.mod_unique _ _ (-2)); lia.
Qed.

(** A header the stack writes verifies. *)
Lemma ip_header_spec `{StdChksum} a tot src dest ttl tos proto id :
  is_byte proto → is_byte ttl → is_byte tos → is_u32 src → is_u32 dest →
  let h := ip_header tot src dest ttl tos proto id in
  length h = IP_HLEN ∧ bytes_ok h ∧ inet_chksum a h = 0.
Proof.
  intros Hp Ht Hto Hs Hd h. split; [done|].
  assert (Hok : bytes_ok h).
  { unfold h, ip_header. repeat first [apply Forall_app; split|apply le16_ok|apply le32_bytes|done
      |constructor; [done || (vm_compute; intuition discriminate)|]]. }
  split; [done|]. rewrite inet_chksum_sum by done.
  pose proof (htons_u16 (u16 (Z.of_nat tot))). pose proof (htons_u16 id).
  destruct (chksum_inline_sum proto ttl dest tos 69 (htons (u16 (Z.of_nat tot))) (htons id) src Hp Ht Hto
              ltac:(unfold is_byte; lia) ltac:(assumption) ltac:(assumption) Hs Hd) as [E Hs0].
  set (s := 69 + _ + _ + _ + _ + _ + _ + _) in *. destruct (complete_sum s Hs0) as [P M].
  destruct (ones_range s Hs0) as [B _].
  assert (Es : sum16 false h = s + not16 (ones s)).
  { unfold h, ip_header. change (Z.lor (Z.shiftl 4 4) 5) with 69. rewrite E, !sum16_app.
    repeat match goal with |- context [parity ?l] => change (parity l) with false end. cbn [xorb].
    rewrite !sum16_le16 by (unfold not16; lia). unfold s. cbn [sum16 negb]. lia. }
  rewrite Es. by apply verify_zero.
Qed.

(** *** A checksum put into a field of zeros *)
Lemma store16_insert k a b l : (k + 2 <= length l)%nat → store_at k [a; b] l = <[S k := b]> (<[k := a]> l).
Proof.
  intros Hk. unfold store_at. cbn [length]. apply list_eq. intros i.
  destruct (decide (i < k)%nat).
  { rewrite lookup_app_l, lookup_take_lt by (rewrite ?length_take; lia).
    by rewrite !list_lookup_insert_ne by lia. }
  rewrite lookup_app_r by (rewrite length_take; lia). rewrite length_take.
  replace (i - k `min` length l)%nat with (i - k)%nat by lia.
  destruct (decide (i = k)) as [->|]; [|destruct (decide (i = S k)) as [->|]].
  - rewrite Nat.sub_diag. rewrite list_lookup_insert_ne by lia. by rewrite list_lookup_insert_eq by lia.
  - replace (S k - k)%nat with 1%nat by lia. by rewrite list_lookup_insert_eq by (rewrite length_insert; lia).
  - destruct (i - k)%nat as [|[|j]] eqn:E; [lia|lia|].
    change (([a; b] ++ drop (k + 2) l) !! S (S j)) with (drop (k + 2) l !! j). rewrite lookup_drop. rewrite !list_lookup_insert_ne by lia. f_equal. lia.
Qed.
Lemma sum16_store16 k c l : (k + 2 <= length l)%nat → Nat.odd k = false → 0 <= c < 65536 →
  l !! k = Some 0 → l !! S k = Some 0 → sum16 false (store_at k (le16 c) l) = sum16 false l + c.
Proof.
  intros Hk Ho Hc H0 H1. unfold le16. rewrite store16_insert by done.
  rewrite (sum16_insert _ _ (S k) 0) by (by rewrite list_lookup_insert_ne by lia).
  rewrite (sum16_insert _ _ k 0) by done. rewrite Nat.odd_succ, <- Nat.negb_odd, Ho. cbn [negb xorb].
  pose proof (bytes_of_word c Hc). lia.
Qed.
Lemma stored_checksum_verifies `{StdChksum} a a' k l : bytes_ok l → Z.of_nat (length l) < 65536 →
  (k + 2 <= length l)%nat → Nat.odd k = false → l !! k = Some 0 → l !! S k = Some 0 →
  inet_chksum a (store_at k (le16 (inet_chksum a' l)) l) = 0.
Proof.
  intros Hl Hn Hk Ho H0 H1. pose proof (sum16_nonneg false l Hl) as Hs. destruct (ones_range _ Hs) as [B _].
  assert (Hlen : length (store_at k (le16 (inet_chksum a' l)) l) = length l).
  { rewrite length_store_at; [done|cbn; lia]. }
  rewrite inet_chksum_sum; [|by apply store_at_bytes; [apply le16_ok|]|by rewrite Hlen].
  rewrite (inet_chksum_sum a' l) by done. rewrite sum16_store16 by (done || (unfold not16; lia)).
  destruct (complete_sum _ Hs). by apply verify_zero.
Qed.

(** ** Fragments *)
(** Fields of a datagram in host order. *)
Definition h_len (f : list Z) : Z := htons (of_le16 (f !!! 2%nat) (f !!! 3%nat)).
Definition h_frag (f : list Z) : Z := htons (of_le16 (f !!! 6%nat) (f !!! 7%nat)).
Definition copied (i : nat) : Prop := i ∈ [0; 1; 4; 5; 8; 9; 12; 13; 14; 15; 16; 17; 18; 19]%nat.

(** [f] carries the data [d] of the datagram [original] at offset [o] (in units of eight
    bytes) with the more-fragments flag [mf], within the MTU and with a header that
    verifies and is otherwise the original's. *)
Record fragment `{StdChksum} (mtu : Z) (original f : list Z) (o mf : Z) (d : list Z) : Prop := {
  fr_data : drop IP_HLEN f = d;
  fr_size : Z.of_nat (length f) <= mtu;
  fr_len : h_len f = Z.of_nat (length f);
  fr_off : Z.land (h_frag f) IP_OFFMASK = o;
  fr_mf : Z.land (h_frag f) IP_MF = mf;
  fr_sum : ∀ a, inet_chksum a (take IP_HLEN f) = 0;
  fr_rest : ∀ i, copied i → f !! i = original !! i }.
(** The fragments of [data], the first at offset [o]: all but the last announce another one
    and are a multiple of eight bytes. *)
Inductive fragments `{StdChksum} (mtu : Z) (original : list Z) (omf : Z) : Z → list Z → list (list Z) → Prop :=
| frag_last o d f : d ≠ [] → fragment mtu original f o omf d → fragments mtu original omf o d [f]
| frag_more o k d d' f fs : (0 < k)%nat → length d = (8 * k)%nat → fragment mtu original f o IP_MF d →
    fragments mtu original omf (o + Z.of_nat k) d' fs → fragments mtu original omf o (d ++ d') (f :: fs).

Lemma fragments_data `{StdChksum} mtu original omf o d fs :
  fragments mtu original omf o d fs → concat (map (drop IP_HLEN) fs) = d.
Proof.
  induction 1 as [o d f _ F|o k d d' f fs _ _ F _ IH]; cbn [map concat]; rewrite (fr_data _ _ _ _ _ _ F).
  - apply app_nil_r.
  - by rewrite IH.
Qed.

Lemma land_offmask x : Z.land x IP_OFFMASK = x mod 8192.
Proof. change IP_OFFMASK with (Z.ones 13). by rewrite Z.land_ones. Qed.
Lemma frag_field b o : 0 <= b <= 1 → 0 <= o < 8192 → let tmp := Z.lor (b * IP_MF) (Z.land IP_OFFMASK o) in
  tmp = b * IP_MF + o ∧ Z.land tmp IP_OFFMASK = o ∧ Z.land tmp IP_MF = b * IP_MF.
Proof.
  intros Hb Ho tmp. assert (E : tmp = b * IP_MF + o).
  { unfold tmp. rewrite (Z.land_comm IP_OFFMASK), land_offmask, Z.mod_small by lia.
    rewrite Z.lor_comm. change IP_MF with (2 ^ 13). rewrite lor_add by lia. lia. }
  split; [done|]. split.
  - rewrite E, land_offmask. change IP_MF with 8192. rewrite Z.add_comm, Z_mod_plus_full. apply Z.mod_small. lia.
  - unfold tmp. rewrite Z.land_lor_distr_l.
    assert (E0 : Z.land (Z.land IP_OFFMASK o) IP_MF = 0) by (rewrite (Z.land_comm IP_OFFMASK), <- Z.land_assoc; apply Z.land_0_r).
    rewrite E0, Z.lor_0_r. assert (b = 0 ∨ b = 1) as [-> | ->] by lia; done.
Qed.
Lemma frag_field_more b o : 0 <= b <= 1 →
  Z.lor (Z.lor (b * IP_MF) (Z.land IP_OFFMASK o)) IP_MF = Z.lor (1 * IP_MF) (Z.land IP_OFFMASK o).
Proof.
  intros Hb. assert (b = 0 ∨ b = 1) as [-> | ->] by lia; apply Z.bits_inj'; intros n Hn;
    change (0 * IP_MF) with 0; change (1 * IP_MF) with IP_MF; rewrite !Z.lor_spec, ?Z.bits_0; btauto.
Qed.

Lemma frag_hdr_spec `{StdChksum} ram original tmp cop mtu d b o :
  bytes_ok original → (20 <= length original)%nat → 0 <= b <= 1 → 0 <= o < 8192 →
  tmp = Z.lor (b * IP_MF) (Z.land IP_OFFMASK o) → cop = length d →
  Z.of_nat cop + 20 <= mtu → mtu < 65536 →
  fragment mtu original (frag_hdr ram original tmp cop ++ d) o (b * IP_MF) d.
Proof.
  intros Hok Hlen Hb Ho -> -> Hm Hm'. destruct (frag_field b o Hb Ho) as (Et & Eo & Em).
  set (tmp := Z.lor _ _) in *. assert (0 <= tmp < 65536) by (rewrite Et; unfold IP_MF; lia).
  do 20 (destruct original as [|? original]; [cbn in Hlen; lia|]).
  assert (Hh : ∃ h, store_at 10 [0; 0] (store_at 2 (le16 (htons (u16 (Z.of_nat (length d) + 20))))
      (store_at 6 (le16 (htons tmp)) (take IP_HLEN (z :: z0 :: z1 :: z2 :: z3 :: z4 :: z5 :: z6 :: z7 :: z8
         :: z9 :: z10 :: z11 :: z12 :: z13 :: z14 :: z15 :: z16 :: z17 :: z18 :: original)))) = h ∧
      h = [z; z0] ++ le16 (htons (u16 (Z.of_nat (length d) + 20))) ++ [z3; z4] ++ le16 (htons tmp) ++
          [z7; z8; 0; 0; z11; z12; z13; z14; z15; z16; z17; z18]) by (eexists; split; reflexivity).
  destruct Hh as (h & Eh & Eh').
  assert (Hhok : bytes_ok h).
  { rewrite <- Eh. repeat apply store_at_bytes; try apply le16_ok; [|by apply Forall_take].
    repeat (constructor; [unfold is_byte; lia|]). constructor. }
  assert (El : length h = 20%nat) by (by rewrite Eh').
  assert (Ef : frag_hdr ram (z :: z0 :: z1 :: z2 :: z3 :: z4 :: z5 :: z6 :: z7 :: z8
         :: z9 :: z10 :: z11 :: z12 :: z13 :: z14 :: z15 :: z16 :: z17 :: z18 :: original) tmp (length d)
       = store_at 10 (le16 (inet_chksum ram h)) h).
  { unfold frag_hdr. by rewrite Eh. }
  rewrite Ef. assert (Elen : length (store_at 10 (le16 (inet_chksum ram h)) h) = 20%nat).
  { rewrite length_store_at; [done|rewrite El; cbn; lia]. }
  assert (Ec : ∃ c0 c1, store_at 10 (le16 (inet_chksum ram h)) h =
    [z; z0] ++ le16 (htons (u16 (Z.of_nat (length d) + 20))) ++ [z3; z4] ++ le16 (htons tmp) ++
          [z7; z8; c0; c1; z11; z12; z13; z14; z15; z16; z17; z18]).
  { exists (byte_of 0 (inet_chksum ram h)), (byte_of 1 (inet_chksum ram h)).
    generalize (inet_chksum ram h). intros c. by rewrite Eh'. }
  destruct Ec as (c0 & c1 & Ec).
  split.
  - by rewrite drop_app_length' by done.
  - rewrite length_app, Elen. lia.
  - rewrite length_app, Elen, Ec. unfold h_len. cbn [app le16 lookup_total list_lookup_total].
    rewrite of_le16_bytes by apply htons_u16. rewrite u16_small by lia. rewrite htons_involutive by lia. lia.
  - rewrite Ec. unfold h_frag. cbn [app le16 lookup_total list_lookup_total].
    rewrite of_le16_bytes by apply htons_u16. by rewrite htons_involutive by lia.
  - rewrite Ec. unfold h_frag. cbn [app le16 lookup_total list_lookup_total].
    rewrite of_le16_bytes by apply htons_u16. by rewrite htons_involutive by lia.
  - intros a. rewrite take_app_length' by done. apply stored_checksum_verifies; rewrite ?El; try done; try lia.
    + by rewrite Eh'.
    + by rewrite Eh'.
  - intros i Hi. rewrite Ec. unfold copied in Hi. repeat (apply elem_of_cons in Hi as [->|Hi]; [done|]).
    by apply elem_of_nil in Hi.
Qed.

Lemma frag_size mtu : 28 <= mtu < 65536 →
  u16 (Z.quot (mtu - 20) 8) = (mtu - 20) / 8 ∧ u16 ((mtu - 20) / 8 * 8) = (mtu - 20) / 8 * 8 ∧
  1 <= (mtu - 20) / 8 ∧ (mtu - 20) / 8 * 8 <= mtu - 20.
Proof.
  intros Hm. rewrite Z.quot_div_nonneg by lia. pose proof (Z.div_mod (mtu - 20) 8 ltac:(lia)).
  pose proof (Z.mod_pos_bound (mtu - 20) 8 ltac:(lia)).
  assert (1 <= (mtu - 20) / 8) by (apply Z.div_le_lower_bound; lia). rewrite !u16_small by lia. lia.
Qed.
Lemma frag_loop_spec `{StdChksum} ram fuel original data o b mtu n dest mem :
  bytes_ok original → (20 <= length original)%nat → 0 <= b <= 1 → 28 <= mtu < 65536 → 0 <= o →
  8 * o + Z.of_nat (length data) <= 65535 → (length data <= fuel)%nat → (length data <= mem)%nat →
  ∃ fs, frag_loop ram fuel original data o (b * IP_MF) mtu n dest mem
          = Some (map (λ f, EvOutput (n_id n) f dest) fs, ERR_OK) ∧
        (data ≠ [] → fragments mtu original (b * IP_MF) o data fs).
Proof.
  intros Hok Hlen Hb Hm. destruct (frag_size mtu Hm) as (E1 & E2 & H1 & H2).
  revert data o mem. induction fuel as [|fuel IH]; intros data o mem Ho Hsz Hf Hmem.
  { destruct data; [|cbn in Hf; lia]. exists []. by split. }
  destruct data as [|x data]; [exists []; by split|]. cbn [frag_loop]. rewrite E1, E2.
  set (dt := x :: data) in *. assert (Hdt : (0 < length dt)%nat) by (unfold dt; cbn; lia).
  destruct mem as [|mem]; [lia|].
  destruct (Z.leb_spec (Z.of_nat (length dt)) (mtu - 20)) as [Hl|Hl].
  - rewrite drop_all, firstn_all. assert (E0 : frag_loop ram fuel original [] (u16 (o + (mtu - 20) / 8)) (b * IP_MF) mtu n dest mem = Some ([], ERR_OK)).
    { by destruct fuel. }
    rewrite E0. cbn [mbind option_bind].
    exists [frag_hdr ram original (Z.lor (b * IP_MF) (Z.land IP_OFFMASK o)) (length dt) ++ dt].
    split; [done|]. intros _. constructor; [done|]. eapply frag_hdr_spec; try done; lia.
  - set (k := Z.to_nat ((mtu - 20) / 8)). replace (Z.to_nat ((mtu - 20) / 8 * 8)) with (8 * k)%nat by lia.
    assert (Hk : length (take (8 * k) dt) = (8 * k)%nat) by (rewrite length_take; lia).
    pose proof (length_drop dt (8 * k)) as Hd.
    destruct (IH (drop (8 * k) dt) (o + (mtu - 20) / 8) mem) as (fs & E & Hfs); [lia..|].
    rewrite (u16_small (o + (mtu - 20) / 8)) by lia. rewrite E. cbn [mbind option_bind].
    eexists (_ :: fs). split; [done|]. intros _. rewrite <- (take_drop (8 * k) dt) at 1.
    rewrite frag_field_more by done. eapply (frag_more _ _ _ _ k); [lia|done| |].
    + apply (frag_hdr_spec _ _ _ _ _ _ 1); try done; lia.
    + replace (o + Z.of_nat k) with (o + (mtu - 20) / 8) by lia. apply Hfs.
      intros Hn. rewrite Hn in Hd. change (length []) with 0%nat in Hd. lia.
Qed.

Definition packet_ok (p : packet) : Prop :=
  bytes_ok (buf p) ∧ (off p + len p <= length (buf p))%nat ∧ chain_ok (more p) ∧
  Z.of_nat (tot_len p) < 65536.
Lemma payload_length p : packet_ok p → length (payload p) = len p.
Proof. intros (_ & H & _). by apply length_slice. Qed.
Lemma contents_length p : packet_ok p → length (contents p) = tot_len p.
Proof. intros H. unfold contents. by rewrite length_app, payload_length. Qed.
Lemma contents_ok p : packet_ok p → bytes_ok (contents p).
Proof. intros (H & _ & Hm & _). apply Forall_app. split; [by apply slice_bytes|by apply bytes_of_ok]. Qed.
Lemma contents_lookup p i : packet_ok p → (i < len p)%nat → contents p !! i = buf p !! (off p + i)%nat.
Proof.
  intros H Hi. unfold contents. rewrite lookup_app_l by (by rewrite payload_length).
  unfold payload, slice. by rewrite lookup_take_lt, lookup_drop by lia.
Qed.
Lemma rd16_contents p i : packet_ok p → (i + 1 < len p)%nat →
  rd16 (off p + i) (buf p) = Some (of_le16 (contents p !!! i) (contents p !!! S i)).
Proof.
  intros H Hi. unfold rd16. destruct H as (H1 & H2 & H3). assert (Hp : packet_ok p) by done.
  destruct (lookup_lt_is_Some_2 (buf p) (off p + i)) as [x Hx]; [lia|].
  destruct (lookup_lt_is_Some_2 (buf p) (S (off p + i))) as [y Hy]; [lia|].
  rewrite Hx, Hy. cbn [mbind option_bind]. do 2 f_equal; symmetry; apply list_lookup_total_correct;
    rewrite contents_lookup by (done || lia); [done|]. by rewrite <- plus_n_Sm.
Qed.

(** The fragments [ip_frag] sends. *)
Lemma ip_frag_fragments `{StdChksum} ram p n dest mem b :
  packet_ok p → (IP_HLEN <= len p)%nat → (IP_HLEN < tot_len p)%nat → 28 <= n_mtu n < 65536 →
  Z.land (h_frag (contents p)) IP_MF = b * IP_MF → 0 <= b <= 1 →
  8 * Z.land (h_frag (contents p)) IP_OFFMASK + (Z.of_nat (tot_len p) - 20) <= 65535 →
  (tot_len p <= mem)%nat →
  ∃ fs, ip_frag ram p n dest mem = Some (map (λ f, EvOutput (n_id n) f dest) fs, ERR_OK) ∧
    fragments (n_mtu n) (contents p) (b * IP_MF) (Z.land (h_frag (contents p)) IP_OFFMASK)
      (drop IP_HLEN (contents p)) fs.
Proof.
  intros Hp Hl Ht Hm Eb Hb Hsz Hmem. unfold IP_HLEN in *. pose proof (contents_length p Hp) as Hc.
  unfold ip_frag, IP_HLEN. destruct (Nat.ltb_spec (tot_len p) 20); [lia|].
  rewrite rd16_contents by (done || lia). cbn [mbind option_bind]. cbv zeta.
  fold (h_frag (contents p)). rewrite Eb.
  set (o := Z.land (h_frag (contents p)) IP_OFFMASK) in *.
  assert (Ho : 0 <= o) by (unfold o; rewrite land_offmask; by apply Z.mod_pos_bound).
  pose proof (length_drop (contents p) 20) as Hd.
  destruct (frag_loop_spec ram (length (contents p)) (contents p) (drop 20 (contents p)) o b (n_mtu n) n dest mem)
    as (fs & E & Hfs); [by apply contents_ok|lia|lia|lia|lia|lia|lia|lia|].
  exists fs. split; [done|]. apply Hfs. intros Hn. rewrite Hn in Hd. change (length []) with 0%nat in Hd. lia.
Qed.
(** C15: A datagram that is too long for the interface is cut into fragments that make it up
    again.  When the fragments can be allocated and the offsets fit the header, [ip_frag]
    hands to the interface, in order, datagrams within the MTU whose headers verify and are
    otherwise the original's; each announces its place, all but the last have the
    more-fragments flag (the last has the original's) and a multiple of eight bytes; and their
    data put together is the datagram's data.  The loop ends: an MTU of 28 is enough for it. *)
Theorem fragments_reassemble `{StdChksum} ram p n dest mem b :
  packet_ok p → (IP_HLEN <= len p)%nat → (IP_HLEN < tot_len p)%nat → 28 <= n_mtu n < 65536 →
  Z.land (h_frag (contents p)) IP_MF = b * IP_MF → 0 <= b <= 1 →
  8 * Z.land (h_frag (contents p)) IP_OFFMASK + (Z.of_nat (tot_len p) - 20) <= 65535 →
  (tot_len p <= mem)%nat →
  ∃ fs, ip_frag ram p n dest mem = Some (map (λ f, EvOutput (n_id n) f dest) fs, ERR_OK) ∧
    fragments (n_mtu n) (contents p) (b * IP_MF) (Z.land (h_frag (contents p)) IP_OFFMASK)
      (drop IP_HLEN (contents p)) fs ∧
    concat (map (drop IP_HLEN) fs) = drop IP_HLEN (contents p).
Proof.
  intros Hp Hl Ht Hm Eb Hb Hsz Hmem.
  destruct (ip_frag_fragments ram p n dest mem b Hp Hl Ht Hm Eb Hb Hsz Hmem) as (fs & E & Hf).
  exists fs. split; [done|]. split; [done|]. by apply fragments_data in Hf.
Qed.

(** A datagram of 50 bytes after a link header, for an interface whose MTU is 44. *)
Definition demo_nif : nif := Nif 1 (InpView 0x0100a8c0 0x00ffffff 3 0) 44.
Definition demo_packet : packet :=
  Packet (repeat 0 14 ++ ip_header 70 0x0100a8c0 0x0200a8c0 255 0 17 9 ++ map Z.of_nat (seq 0 50)) 4096 14 70 true [].
Lemma fragments_reassemble_witness :
  ∃ fs, ip_frag 8192 demo_packet demo_nif 0x0200a8c0 70 = Some (map (λ f, EvOutput 1 f 0x0200a8c0) fs, ERR_OK) ∧
    concat (map (drop IP_HLEN) fs) = map Z.of_nat (seq 0 50).
Proof.
  destruct (fragments_reassemble 8192 demo_packet demo_nif 0x0200a8c0 70 0) as (fs & E & _ & D).
  - split; [by apply (bool_decide_eq_true_1 _); vm_compute|]. split; [vm_compute; lia|]. split; [constructor|done].
  - vm_compute. lia.
  - vm_compute. lia.
  - cbn. lia.
  - done.
  - lia.
  - vm_compute. discriminate.
  - vm_compute. lia.
  - exists fs. split; [exact E|]. rewrite D. by vm_compute.
Defined.

(** ** Contents under header moves and writes *)
Lemma slice_store_front i xs n b : (i + length xs + n <= length b)%nat →
  slice i (length xs + n) (store_at i xs b) = xs ++ slice (i + length xs) n b.
Proof.
  intros H. unfold slice, store_at. rewrite drop_app_length' by (rewrite length_take; lia).
  rewrite take_app_ge by lia. f_equal. f_equal. lia.
Qed.
Lemma slice_0 b n : slice 0 n b = take n b.
Proof. done. Qed.
Lemma slice_split i n m b : slice i (n + m) b = slice i n b ++ slice (i + n) m b.
Proof. unfold slice. rewrite <- drop_drop. by rewrite take_take_drop. Qed.
Lemma bytes_of_payloads p : bytes_of (payloads p) = contents p.
Proof. done. Qed.
Lemma payloads_ok p : packet_ok p → chain_ok (payloads p).
Proof.
  intros Hp. pose proof Hp as (H1 & H2 & H3 & H4). constructor; [|done]. cbn [snd].
  split; [by apply slice_bytes|]. rewrite payload_length by done. unfold tot_len in H4. lia.
Qed.
Lemma hide_header_spec n p q : packet_ok p → hide_header n p = Some q →
  packet_ok q ∧ contents q = drop n (contents p) ∧ (n + tot_len q = tot_len p)%nat ∧
  q = with_payload (off p + n) (len p - n) p ∧ (n <= len p)%nat.
Proof.
  intros Hp. pose proof Hp as (H1 & H2 & H3 & H4). unfold hide_header. destruct (Nat.leb_spec n (len p)); [|done].
  intros [= <-]. unfold packet_ok, tot_len in *. cbn [with_payload buf off len more base grows].
  split; [by split_and!; try done; lia|]. split; [|split; [lia|done]].
  unfold contents. rewrite drop_app_le by (by rewrite payload_length). f_equal.
  unfold payload, slice. cbn [with_payload buf off len more base grows].
  by rewrite skipn_firstn_comm, drop_drop.
Qed.
Lemma hide_header_Some n p : (n <= len p)%nat → hide_header n p = Some (with_payload (off p + n) (len p - n) p).
Proof. intros H. unfold hide_header. by destruct (Nat.leb_spec n (len p)); [|lia]. Qed.
Lemma show_header_spec n p q : packet_ok p → Z.of_nat (n + tot_len p) < 65536 → show_header n p = Some q →
  packet_ok q ∧ drop n (contents q) = contents p ∧ (tot_len q = n + tot_len p)%nat ∧ (n <= len q)%nat ∧
  q = with_payload (off p - n) (len p + n) p ∧ (n <= off p)%nat.
Proof.
  intros Hp Hs. pose proof Hp as (H1 & H2 & H3 & H4). unfold show_header.
  destruct ((n =? 0)%nat || _) eqn:E; [|done]. intros [= <-].
  assert (Hn : (n <= off p)%nat).
  { apply orb_true_iff in E as [E|E]; [apply Nat.eqb_eq in E; lia|].
    apply andb_true_iff in E as [_ E]. by apply Nat.leb_le in E. }
  assert (Hq : packet_ok (with_payload (off p - n) (len p + n) p)).
  { unfold packet_ok, tot_len in *. cbn [with_payload buf off len more base grows]. split_and!; try done; lia. }
  split; [done|]. unfold tot_len in *. cbn [with_payload buf off len more base grows].
  split; [|split_and!; try done; lia].
  unfold contents. rewrite drop_app_le by (rewrite payload_length by done; cbn; lia). f_equal.
  unfold payload, slice. cbn [with_payload buf off len more base grows].
  rewrite skipn_firstn_comm, drop_drop. f_equal; [lia|]. f_equal. lia.
Qed.
(** Writing over the front of the contents. *)
Lemma write_front hdr q : packet_ok q → bytes_ok hdr → (length hdr <= len q)%nat →
  ∃ b, wr (off q) hdr (buf q) = Some b ∧ packet_ok (with_buf b q) ∧ length b = length (buf q) ∧
    contents (with_buf b q) = hdr ++ drop (length hdr) (contents q).
Proof.
  intros Hq Hh Hl. pose proof Hq as (H1 & H2 & H3 & H4). unfold wr.
  destruct (Nat.leb_spec (off q + length hdr) (length (buf q))); [|lia].
  eexists. split; [done|]. assert (El := length_store_at (off q) hdr (buf q) ltac:(lia)). split.
  { unfold packet_ok, tot_len in *. cbn [with_buf buf off len more base grows]. rewrite El.
    split_and!; try done. by apply store_at_bytes. }
  split; [done|]. unfold contents. rewrite drop_app_le by (by rewrite payload_length).
  rewrite app_assoc. f_equal. unfold payload. cbn [with_buf buf off len more base grows].
  replace (len q) with (length hdr + (len q - length hdr))%nat at 1 by lia.
  rewrite slice_store_front by lia. f_equal. unfold slice. by rewrite skipn_firstn_comm, drop_drop.
Qed.

(** ** UDP datagrams *)
Definition udp_segment (sport dport chk : Z) (data : list Z) : list Z :=
  le16 (htons sport) ++ le16 (htons dport) ++ le16 (htons (u16 (Z.of_nat (UDP_HLEN + length data)))) ++
  le16 chk ++ data.
Definition verifies `{StdChksum} (src dst chk : Z) (seg : list Z) : Prop :=
  chk = 0 ∨ ∀ q, chain_ok q → bytes_of q = seg →
    inet_chksum_pseudo q src dst IP_PROTO_UDP (u16 (Z.of_nat (length seg))) = 0.
(** What is an IP datagram with a UDP segment in it. *)
Definition udp_frame `{StdChksum} (src dst sport dport : Z) (data f : list Z) : Prop :=
  ∃ ttl tos id chk, is_byte ttl ∧ is_byte tos ∧ 0 <= chk < 65536 ∧
    verifies src dst chk (udp_segment sport dport chk data) ∧
    f = ip_header (28 + length data) src dst ttl tos IP_PROTO_UDP id ++ udp_segment sport dport chk data.

Lemma udp_segment_ok sport dport chk data : bytes_ok data → bytes_ok (udp_segment sport dport chk data).
Proof. intros H. unfold udp_segment. repeat (apply Forall_app; split); try apply le16_ok. done. Qed.
Lemma udp_segment_length sport dport chk data : length (udp_segment sport dport chk data) = (8 + length data)%nat.
Proof. done. Qed.
(** The checksum put in the header, 0 as 0xffff, verifies. *)
Lemma udp_segment_verifies `{StdChksum} p src dst sport dport data : chain_ok p → bytes_ok data →
  bytes_of p = udp_segment sport dport 0 data →
  let c := inet_chksum_pseudo p src dst IP_PROTO_UDP (u16 (Z.of_nat (UDP_HLEN + length data))) in
  let c := if c =? 0 then 0xffff else c in
  0 <= c < 65536 ∧ verifies src dst c (udp_segment sport dport c data).
Proof.
  intros Hp Hd Ep c0 c. set (len := u16 (Z.of_nat (UDP_HLEN + length data))) in *.
  set (pre := pseudo_bytes src dst IP_PROTO_UDP len). set (s := sum16 false (pre ++ bytes_of p)).
  assert (Hpre : 0 < sum16 false pre).
  { unfold pre, pseudo_bytes, le32, IP_PROTO_UDP. cbn [app sum16 negb].
    pose proof (λ k, byte_of_byte k src). pose proof (λ k, byte_of_byte k dst). pose proof (λ k, byte_of_byte k len).
    unfold is_byte in *. pose proof (H0 0). pose proof (H0 1). pose proof (H0 2). pose proof (H0 3).
    pose proof (H1 0). pose proof (H1 1). pose proof (H1 2). pose proof (H1 3). pose proof (H2 0). pose proof (H2 1). lia. }
  assert (Hs : 0 < s).
  { unfold s. rewrite sum16_app. pose proof (sum16_nonneg (xorb false (parity pre)) _ (bytes_of_ok p Hp)). lia. }
  assert (E0 : c0 = not16 (ones s)) by (by apply inet_chksum_pseudo_sum).
  destruct (complete_sum s ltac:(lia)) as [_ M]. destruct (ones_range s ltac:(lia)) as [B _].
  assert (Hc : 0 <= c < 65536 ∧ (s + c) mod 65535 = 0).
  { unfold c. rewrite E0. destruct (Z.eqb_spec (not16 (ones s)) 0) as [E|E]; [|unfold not16 in *; lia].
    split; [lia|]. rewrite E, Z.add_0_r in M. change 65535 with (1 * 65535) at 1. by rewrite Z_mod_plus_full. }
  destruct Hc as [Hc Hm]. split; [done|]. right. intros q Hq Eq.
  rewrite inet_chksum_pseudo_sum by done. rewrite Eq, udp_segment_length.
  change (u16 (Z.of_nat (8 + length data))) with len. fold pre.
  replace (sum16 false (pre ++ udp_segment sport dport c data)) with (s + c); [apply verify_zero; [lia|done]|].
  unfold s. rewrite Ep. unfold udp_segment. rewrite !sum16_app.
  repeat match goal with |- context [parity ?l] => change (parity l) with false end. cbn [xorb].
  rewrite !sum16_le16 by (lia || apply htons_u16). lia.
Qed.
Lemma fill_udp_header_spec `{StdChksum} q nochk src dst sport dport data : packet_ok q →
  (UDP_HLEN <= len q)%nat → drop UDP_HLEN (contents q) = data → tot_len q = (UDP_HLEN + length data)%nat →
  ∃ b chk, fill_udp_header q nochk src dst sport dport = Some (with_buf b q) ∧ packet_ok (with_buf b q) ∧
    length b = length (buf q) ∧ contents (with_buf b q) = udp_segment sport dport chk data ∧
    0 <= chk < 65536 ∧ verifies src dst chk (udp_segment sport dport chk data).
Proof.
  intros Hq Hl Hd Ht. unfold fill_udp_header.
  set (hdr := λ chk, le16 (htons sport) ++ le16 (htons dport) ++ le16 (htons (u16 (Z.of_nat (tot_len q)))) ++ le16 chk).
  assert (Hh : ∀ chk, bytes_ok (hdr chk)) by (intros chk; repeat (apply Forall_app; split); apply le16_ok).
  assert (Eh : ∀ chk, hdr chk ++ data = udp_segment sport dport chk data).
  { intros chk. unfold hdr, udp_segment. rewrite Ht. by rewrite <- !app_assoc. }
  destruct (write_front (hdr 0) q Hq (Hh 0) Hl) as (b & E & Hb & Hlb & Hc).
  change (length (hdr 0)) with UDP_HLEN in Hc. rewrite Hd, Eh in Hc.
  fold (hdr 0). rewrite E. cbn [mbind option_bind].
  destruct nochk.
  { exists b, 0. split_and!; try done; try lia. by left. }
  assert (Hdok : bytes_ok data) by (rewrite <- Hd; by apply Forall_drop, contents_ok).
  change (tot_len (with_buf b q)) with (tot_len q). rewrite Ht.
  destruct (udp_segment_verifies (payloads (with_buf b q)) src dst sport dport data) as [Hr Hv];
    [by apply payloads_ok|done|by rewrite bytes_of_payloads|].
  cbv zeta in Hr, Hv. set (c := if _ =? 0 then _ else _) in *.
  destruct (write_front (hdr c) (with_buf b q) Hb (Hh c) Hl) as (b' & E' & Hb' & Hlb' & Hc').
  change (length (hdr c)) with UDP_HLEN in Hc'. rewrite Hc in Hc'.
  change (drop UDP_HLEN (udp_segment sport dport 0 data)) with data in Hc'. rewrite Eh in Hc'.
  exists b', c. unfold hdr in E'. rewrite Ht in E'. rewrite E'. cbn [mbind option_bind].
  split_and!; try done; try lia. cbn in Hlb'. by rewrite Hlb'.
Qed.

(** [udp_sendto_if] on a bound socket, for a packet with room for the headers: the datagram
    it builds. *)
Lemma udp_sendto_if_datagram `{StdChksum} ram link pcb p dst dport n room mem s c :
  packet_ok p → grows p = true → (28 <= off p)%nat → Z.of_nat (28 + tot_len p) < 65536 →
  Udp.mem (pcbs s) !! pcb = Some c → local_port c ≠ 0 → local_ip c = 0 ∨ local_ip c = in_ip (n_view n) →
  is_byte (ttl c) → is_byte (tos c) → in_ip (n_view n) ≠ 0 → is_u32 (in_ip (n_view n)) → is_u32 dst →
  ∃ s' q chk, udp_sendto_if ram link pcb p dst dport n room mem s =
      (if negb (n_mtu n =? 0) && (n_mtu n <? Z.of_nat (28 + tot_len p))
       then '(evs, err) ← ip_frag ram q n dst mem; Some (s', evs, err)
       else Some (s', [EvOutput (n_id n) (contents q) dst], link n (contents q) dst)) ∧
    packet_ok q ∧ (IP_HLEN <= len q)%nat ∧ tot_len q = (28 + tot_len p)%nat ∧
    contents q = ip_header (28 + length (contents p)) (in_ip (n_view n)) dst (ttl c) (tos c) IP_PROTO_UDP (ip_id s) ++
      udp_segment (local_port c) dport chk (contents p) ∧
    0 <= chk < 65536 ∧ verifies (in_ip (n_view n)) dst chk (udp_segment (local_port c) dport chk (contents p)) ∧
    pcbs s' = pcbs s ∧ ip_id s' = u16 (ip_id s + 1).
Proof.
  intros Hp Hg Ho Ht Hc Hport Hip Httl Htos Hn0 Hn Hdst. unfold udp_sendto_if. rewrite Hc. cbn [mbind option_bind].
  rewrite (proj2 (Z.eqb_neq _ _) Hport). cbn [mbind option_bind Z.eqb negb ERR_OK with_pcbs].
  assert (Hs8 : show_header UDP_HLEN p = Some (with_payload (off p - 8) (len p + 8) p)).
  { unfold show_header. rewrite Hg. by destruct (Nat.leb_spec UDP_HLEN (off p)); [|unfold UDP_HLEN in *; lia]. }
  unfold add_udp_header. rewrite Hs8. rewrite Hc. cbn [mbind option_bind].
  set (q := with_payload _ _ p) in *.
  destruct (show_header_spec UDP_HLEN p q Hp ltac:(unfold UDP_HLEN; lia) Hs8) as (Hq & Hdq & Htq & Hlq & _ & _).
  assert (Esrc : (if local_ip c =? 0 then in_ip (n_view n) else local_ip c) = in_ip (n_view n)).
  { destruct (Z.eqb_spec (local_ip c) 0); [done|]. by destruct Hip. }
  assert (Eval : negb (local_ip c =? 0) && negb (local_ip c =? in_ip (n_view n)) = false).
  { destruct Hip as [-> | ->]; [done|]. by rewrite Z.eqb_refl, andb_false_r. }
  rewrite Eval, Esrc.
  destruct (fill_udp_header_spec q (negb (Z.land (flags c) UDP_FLAGS_NOCHKSUM =? 0)) (in_ip (n_view n)) dst
              (local_port c) dport (contents p)) as (b & chk & E & Hb & Hlb & Hcont & Hchk & Hver);
    [done|done|done|by rewrite contents_length|].
  rewrite E. cbn [mbind option_bind]. set (q' := with_buf b q) in *.
  assert (Htq' : tot_len q' = (8 + tot_len p)%nat) by done.
  unfold ip_output_if. assert (Hs20 : show_header IP_HLEN q' = Some (with_payload (off q' - 20) (len q' + 20) q')).
  { unfold show_header. change (grows q') with (grows p). rewrite Hg. change (off q') with (off p - 8)%nat.
    by destruct (Nat.leb_spec IP_HLEN (off p - 8)); [|unfold IP_HLEN in *; lia]. }
  rewrite Hs20. set (r := with_payload _ _ q') in *.
  destruct (show_header_spec IP_HLEN q' r Hb ltac:(unfold IP_HLEN; lia) Hs20) as (Hr & Hdr & Htr & Hlr & _ & _).
  rewrite (proj2 (Z.eqb_neq _ _) Hn0).
  assert (Htr' : tot_len r = (28 + tot_len p)%nat) by (rewrite Htr, Htq'; unfold IP_HLEN; lia). rewrite Htr'.
  destruct (ip_header_spec 0 (28 + tot_len p) (in_ip (n_view n)) dst (ttl c) (tos c) IP_PROTO_UDP
      (ip_id (with_pcbs (pcbs s) s))) as (Hhl & Hhok & _);
    [unfold is_byte, IP_PROTO_UDP; lia|done..|].
  destruct (write_front _ r Hr Hhok ltac:(rewrite Hhl; done)) as (b2 & E2 & Hb2 & Hlb2 & Hc2).
  rewrite E2. cbn [mbind option_bind negb].
  change (tot_len (with_buf b2 r)) with (tot_len r). rewrite Htr'.
  eexists _, (with_buf b2 r), chk. split; [done|]. split; [done|].
  split; [exact Hlr|]. split; [exact Htr'|].
  rewrite Hc2, Hhl, Hdr, Hcont, contents_length by done. split; [done|]. split; [lia|]. split; [exact Hver|done].
Qed.
(** A datagram that fits the MTU is one frame. *)
Lemma udp_sendto_if_frame `{StdChksum} ram link pcb p dst dport n room mem s c :
  packet_ok p → grows p = true → (28 <= off p)%nat → Z.of_nat (28 + tot_len p) < 65536 →
  n_mtu n = 0 ∨ Z.of_nat (28 + tot_len p) <= n_mtu n →
  Udp.mem (pcbs s) !! pcb = Some c → local_port c ≠ 0 → local_ip c = 0 ∨ local_ip c = in_ip (n_view n) →
  is_byte (ttl c) → is_byte (tos c) → in_ip (n_view n) ≠ 0 → is_u32 (in_ip (n_view n)) → is_u32 dst →
  ∃ s' f, udp_sendto_if ram link pcb p dst dport n room mem s
          = Some (s', [EvOutput (n_id n) f dst], link n f dst) ∧
    udp_frame (in_ip (n_view n)) dst (local_port c) dport (contents p) f ∧
    pcbs s' = pcbs s ∧ ip_id s' = u16 (ip_id s + 1).
Proof.
  intros Hp Hg Ho Ht Hm Hc Hport Hip Httl Htos Hn0 Hn Hdst.
  destruct (udp_sendto_if_datagram ram link pcb p dst dport n room mem s c Hp Hg Ho Ht Hc Hport Hip Httl Htos Hn0 Hn Hdst)
    as (s' & q & chk & E & _ & _ & _ & Hcq & Hchk & Hver & Hpc & Hid).
  assert (Emtu : negb (n_mtu n =? 0) && (n_mtu n <? Z.of_nat (28 + tot_len p)) = false).
  { destruct Hm as [-> | Hm]; [done|]. apply andb_false_iff. right. apply Z.ltb_ge. lia. }
  rewrite Emtu in E. exists s', (contents q). split; [exact E|]. split; [|done].
  exists (ttl c), (tos c), (ip_id s), chk. split; [done|]. split; [done|]. split; [lia|]. by split.
Qed.
