(* ===== verification/IpInput.v ===== *)
(** * Receiving IP packets ([LwIP/src/core/ipv4/ip.c], [icmp.c], [raw.c], [udp.c])

    [ip_input] and what it calls: the answers of ICMP, the raw control blocks and the
    receiving side of UDP, down to the calls of the callbacks and of the interfaces' output
    functions.  Reassembly and TCP get the packet by an event. *)
From S2P Require Import Prelude Chksum Udp Ip.

Definition ICMP_ER : Z := 0.
Definition ICMP_DUR : Z := 3.
Definition ICMP_ECHO : Z := 8.
Definition ICMP_DUR_PROTO : Z := 2.
Definition ICMP_DUR_PORT : Z := 3.
Definition ICMP_TTL : Z := 255.
(** Sizes of the echo header, of the data returned, and of the IP and link headers. *)
Definition SIZEOF_ECHO : nat := 8.
Definition ICMP_DEST_UNREACH_DATASIZE : nat := 8.
Definition PBUF_IP_HLEN : nat := 20.
Definition PBUF_LINK_HLEN : nat := 14.

(* @ LwIP/src/include/ipv4/lwip/ip_addr.h:208-208 ip_addr_ismulticast *)
Definition ismulticast (addr : Z) : bool := Z.land addr 0xf0 =? 0xe0.

Section input.
Context `{StdChksum}.
Variable ram : Z.
Variable link : nif → list Z → Z → Z.
(** What the raw callback with this number answers for a packet. *)
Variable raw_recv : Z → packet → bool.
(** The memory [pbuf_alloc] can give, if there is any, and how many fragments can be
    allocated. *)
Variable room : option (list Z).
Variable mem : nat.

(** ** ICMP *)
(* @ LwIP/src/core/ipv4/icmp.c:289-336 icmp_send_response *)
Definition icmp_send_response (p : packet) (type code : Z) (s : stack) : option (stack * list event) :=
  match room with
  | None => Some (s, [])
  | Some _ =>
    data ← (if (off p + 28 <=? length (buf p))%nat then Some (slice (off p) 28 (buf p)) else None);
    let icmp := [type; code; 0; 0; 0; 0; 0; 0] ++ data in
    let icmp := store_at 2 (le16 (inet_chksum ram icmp)) icmp in
    q ← ram_pbuf ram room (PBUF_LINK_HLEN + PBUF_IP_HLEN) icmp;
    iphdr_src ← rd32 (off p + 12) (buf p);
    '(s, evs, _) ← ip_output ram link q 0 iphdr_src ICMP_TTL 0 IP_PROTO_ICMP mem s;
    Some (s, evs ++ [EvFree (base q)])
  end.
(* @ LwIP/src/core/ipv4/icmp.c:259-263 icmp_dest_unreach *)
Definition icmp_dest_unreach (p : packet) (t : Z) (s : stack) : option (stack * list event) :=
  icmp_send_response p ICMP_DUR t s.

(** The new checksum of the reply. *)
(* @ LwIP/src/core/ipv4/icmp.c:193-198 icmp_input *)
Definition adjust_chksum (chksum : Z) : Z :=
  if htons (0xffff - Z.shiftl ICMP_ECHO 8) <=? chksum
  then u16 (chksum + htons (Z.shiftl ICMP_ECHO 8) + 1)
  else u16 (chksum + htons (Z.shiftl ICMP_ECHO 8)).
(** A packet with room for the headers, if [p] has none: a copy; the second component is
    where its IP header is.  [None] is the way out [memerr]. *)
(* @ LwIP/src/core/ipv4/icmp.c:144-183 icmp_input *)
Definition echo_buffer (p : packet) (hlen : nat) : option (packet * list event) :=
  match show_header (PBUF_IP_HLEN + PBUF_LINK_HLEN) p with
  | Some q => q ← hide_header (PBUF_IP_HLEN + PBUF_LINK_HLEN) q; Some (q, [])
  | None =>
    p ← show_header hlen p;
    r ← ram_pbuf ram room PBUF_LINK_HLEN (contents p);
    r ← hide_header hlen r;
    Some (r, [EvFree (base p)])
  end.
(** Lines 188 to 226: the reply is made in place and sent. *)
(* @ LwIP/src/core/ipv4/icmp.c:188-226 icmp_input *)
Definition echo_reply (p : packet) (hlen : nat) (src dest : Z) (inp : nif) (s : stack)
  : option (stack * list event) :=
  let iphdr := (off p - hlen)%nat in
  b ← wr (iphdr + 12) (le32 dest) (buf p);
  b ← wr (iphdr + 16) (le32 src) b;
  b ← wr (off p) [ICMP_ER] b;
  chksum ← rd16 (off p + 2) b;
  b ← wr (off p + 2) (le16 (adjust_chksum chksum)) b;
  b ← wr (iphdr + 8) [ICMP_TTL] b;
  b ← wr (iphdr + 10) [0; 0] b;
  b ← wr (iphdr + 10) (le16 (inet_chksum (base p + Z.of_nat iphdr) (slice iphdr IP_HLEN b))) b;
  match show_header hlen (with_buf b p) with
  | None => Some (s, [])
  | Some q =>
    '(s, evs, _) ← ip_output_if ram link q dest None ICMP_TTL 0 IP_PROTO_ICMP inp mem s;
    Some (s, evs)
  end.
(** [p] points to the IP header; [src] and [dest] are the current packet's addresses. *)
(* @ LwIP/src/core/ipv4/icmp.c:75-248 icmp_input *)
Definition icmp_input (p : packet) (src dest : Z) (inp : nif) (s : stack) : option (stack * list event) :=
  v_hl ← rd8 (off p) (buf p);
  let hlen := Z.to_nat (Z.land v_hl 15 * 4) in
  let free := Some (s, [EvFree (base p)]) in
  match hide_header hlen p with
  | None => free
  | Some p =>
    if (tot_len p <? 4)%nat then free
    else
      type ← rd8 (off p) (buf p);
      if type =? ICMP_ER then free
      else if type =? ICMP_ECHO then
        if ismulticast dest || ip4_addr_isbroadcast dest (n_view inp) then free
        else if (tot_len p <? SIZEOF_ECHO)%nat then free
        else if negb (inet_chksum_pbuf (payloads p) =? 0) then free
        else
          match echo_buffer p hlen with
          | None => free
          | Some (p, evs) =>
            '(s, evs') ← echo_reply p hlen src dest inp s;
            Some (s, evs ++ evs' ++ [EvFree (base p)])
          end
      else free
  end.

(** ** Raw control blocks *)
(** [prev] are the blocks already passed over, the last one first. *)
(* @ LwIP/src/core/raw.c:87-123 raw_input *)
Fixpoint raw_loop (p : packet) (proto dest : Z) (prev l : list raw_pcb)
  : list raw_pcb * list event * bool :=
  match l with
  | [] => (rev prev, [], false)
  | c :: l =>
    if (r_proto c =? proto) && ((r_local c =? 0) || (r_local c =? dest)) && negb (r_recv c =? 0) then
      if raw_recv (r_recv c) p then (c :: rev prev ++ l, [EvRaw c p true], true)
      else
        let '(l, evs, eaten) := raw_loop p proto dest (c :: prev) l in (l, EvRaw c p false :: evs, eaten)
    else raw_loop p proto dest (c :: prev) l
  end.

(** ** UDP *)
(* @ LwIP/src/core/udp.c:149-432 udp_input *)
Definition udp_input (p : packet) (srcip dst : Z) (inp : nif) (s : stack) : option (stack * list event) :=
  v_hl ← rd8 (off p) (buf p);
  let hlen := Z.to_nat (Z.land v_hl 15 * 4) in
  let free := Some (s, [EvFree (base p)]) in
  match (if (tot_len p <? hlen + UDP_HLEN)%nat then None else hide_header hlen p) with
  | None => free
  | Some p =>
    let broadcast := ip4_addr_isbroadcast dst (n_view inp) in
    src ← rd16 (off p) (buf p);
    dest ← rd16 (off p + 2) (buf p);
    let src := htons src in
    let dest := htons dest in
    '(u, pcb) ← udp_demux dst dest srcip src (n_view inp) (pcbs s);
    let s := with_pcbs u s in
    let free := Some (s, [EvFree (base p)]) in
    if negb (pcb =? 0) || (in_ip (n_view inp) =? dst) then
      chksum ← rd16 (off p + 6) (buf p);
      if negb (chksum =? 0) &&
         negb (inet_chksum_pseudo (payloads p) srcip dst IP_PROTO_UDP (u16 (Z.of_nat (tot_len p))) =? 0)
      then free
      else
        match hide_header UDP_HLEN p with
        | None => free
        | Some p =>
          if negb (pcb =? 0) then
            c ← Udp.mem u !! pcb;
            if negb (recv c =? 0) then Some (s, [EvUdp pcb (recv c) (recv_arg c) p srcip src]) else free
          else
            '(s, evs) ← (if negb broadcast && negb (ismulticast dst)
                         then icmp_dest_unreach (default p (show_header (hlen + UDP_HLEN) p)) ICMP_DUR_PORT s
                         else Some (s, []));
            Some (s, evs ++ [EvFree (base p)])
        end
    else free
  end.

(** ** IP *)
(** The interface a packet is accepted on. *)
(* @ LwIP/src/core/ipv4/ip.c:410-419 ip_input *)
Definition accepts (dest : Z) (n : nif) : bool :=
  is_up n && negb (in_ip (n_view n) =? 0) &&
  ((dest =? in_ip (n_view n)) || ip4_addr_isbroadcast dest (n_view n)).
(* @ LwIP/src/core/ipv4/ip.c:432-441 ip_input *)
Fixpoint accept_loop (dest : Z) (inp : nif) (l : list nif) : option nif :=
  match l with
  | [] => None
  | n :: l =>
    if n_id n =? n_id inp then accept_loop dest inp l
    else if accepts dest n then Some n else accept_loop dest inp l
  end.
(* @ LwIP/src/core/ipv4/ip.c:400-441 ip_input *)
Definition accepted_on (dest : Z) (inp : nif) (s : stack) : option nif :=
  if accepts dest inp then Some inp else accept_loop dest inp (netif_list s).
(** The payload cut to [n] bytes. *)
(* @ LwIP/src/core/pbuf.c:455-485 pbuf_realloc *)
Fixpoint trim_chain (n : nat) (l : list (Z * list Z)) : list (Z * list Z) :=
  match l with
  | [] => []
  | (a, d) :: l => if (length d <? n)%nat then (a, d) :: trim_chain (n - length d) l else [(a, take n d)]
  end.
(* @ LwIP/src/core/pbuf.c:429-487 pbuf_realloc *)
Definition pbuf_realloc (p : packet) (n : nat) : packet :=
  if (tot_len p <=? n)%nat then p
  else if (len p <? n)%nat then Packet (buf p) (base p) (off p) (len p) (grows p) (trim_chain (n - len p) (more p))
  else Packet (buf p) (base p) (off p) n (grows p) [].
(** The protocols. *)
(* @ LwIP/src/core/ipv4/ip.c:552-604 ip_input *)
Definition deliver (p : packet) (proto src dest : Z) (inp : nif) (s : stack) : option (stack * list event) :=
  let '(raws, evs, eaten) := raw_loop p proto dest [] (raw_pcbs s) in
  let s := with_raw raws s in
  if eaten : bool then Some (s, evs)
  else
    '(s, evs') ←
      (if proto =? IP_PROTO_UDP then udp_input p src dest inp s
       else if proto =? IP_PROTO_TCP then Some (s, [EvTcp p])
       else if proto =? IP_PROTO_ICMP then icmp_input p src dest inp s
       else
         '(s, evs) ← (if negb (ip4_addr_isbroadcast dest (n_view inp)) && negb (ismulticast dest)
                      then icmp_dest_unreach p ICMP_DUR_PROTO s else Some (s, []));
         Some (s, evs ++ [EvFree (base p)]));
    Some (s, evs ++ evs').
(* @ LwIP/src/core/ipv4/ip.c:303-612 ip_input *)
Definition ip_input (p : packet) (inp : nif) (s : stack) : option (stack * list event) :=
  let iphdr := off p in
  let free := Some (s, [EvFree (base p)]) in
  v_hl ← rd8 iphdr (buf p);
  if negb (Z.shiftr v_hl 4 =? 4) then free
  else
    let iphdr_hlen := Z.to_nat (Z.land v_hl 15 * 4) in
    iphdr_len ← rd16 (iphdr + 2) (buf p);
    let iphdr_len := Z.to_nat (htons iphdr_len) in
    if (len p <? iphdr_hlen)%nat || (tot_len p <? iphdr_len)%nat then free
    else if negb (inet_chksum (base p + Z.of_nat iphdr) (slice iphdr iphdr_hlen (buf p)) =? 0) then free
    else
      let p := pbuf_realloc p iphdr_len in
      dest ← rd32 (iphdr + 16) (buf p);
      src ← rd32 (iphdr + 12) (buf p);
      proto ← rd8 (iphdr + 9) (buf p);
      let netif := accepted_on dest inp s in
      '(netif, check_ip_src) ←
        match netif with
        | Some n => Some (Some n, true)
        | None =>
          if proto =? IP_PROTO_UDP then
            port ← rd16 (iphdr + iphdr_hlen + 2) (buf p);
            Some (if port =? htons DHCP_CLIENT_PORT then (Some inp, false) else (None, true))
          else Some (None, true)
        end;
      if check_ip_src && negb (src =? 0) && (ip4_addr_isbroadcast src (n_view inp) || ismulticast src) then free
      else
        match netif with
        | None => free
        | Some _ =>
          offset ← rd16 (iphdr + 6) (buf p);
          if negb (Z.land offset (htons (Z.lor IP_OFFMASK IP_MF)) =? 0) then Some (s, [EvReass p])
          else deliver p proto src dest inp s
        end.
End input.

(** ** Reading the contents *)
Lemma rd8_at p i x : packet_ok p → (i < len p)%nat → contents p !! i = Some x → rd8 (off p + i) (buf p) = Some x.
Proof. intros Hp Hi Hx. unfold rd8. by rewrite <- contents_lookup. Qed.
Lemma rd16_at p i x y : packet_ok p → (S i < len p)%nat → contents p !! i = Some x → contents p !! S i = Some y →
  rd16 (off p + i) (buf p) = Some (of_le16 x y).
Proof.
  intros Hp Hi Hx Hy. unfold rd16. rewrite <- contents_lookup, Hx by (done || lia). rewrite plus_n_Sm.
  by rewrite <- contents_lookup, Hy by (done || lia).
Qed.
Lemma rd32_at p i a : packet_ok p → (S (S (S i)) < len p)%nat → is_u32 a → slice i 4 (contents p) = le32 a →
  rd32 (off p + i) (buf p) = Some a.
Proof.
  intros Hp Hi Ha Hs. unfold rd32.
  assert (Hl : ∀ k, (k < 4)%nat → buf p !! (off p + i + k)%nat = le32 a !! k).
  { intros k Hk. rewrite <- Hs. unfold slice. rewrite lookup_take_lt, lookup_drop by lia.
    rewrite contents_lookup by (done || lia). f_equal. lia. }
  pose proof (Hl 0%nat ltac:(lia)) as E0. pose proof (Hl 1%nat ltac:(lia)) as E1.
  pose proof (Hl 2%nat ltac:(lia)) as E2. pose proof (Hl 3%nat ltac:(lia)) as E3.
  replace (off p + i + 0)%nat with (off p + i)%nat in E0 by lia. replace (off p + i + 1)%nat with (S (off p + i)) in E1 by lia.
  replace (off p + i + 2)%nat with (S (S (off p + i))) in E2 by lia.
  replace (off p + i + 3)%nat with (S (S (S (off p + i)))) in E3 by lia. rewrite E0.
  rewrite E1, E2, E3. cbn. by rewrite of_le32_bytes.
Qed.

(** Trimming an unchained packet. *)
Lemma pbuf_realloc_spec p n : packet_ok p → more p = [] → (n <= tot_len p)%nat →
  packet_ok (pbuf_realloc p n) ∧ more (pbuf_realloc p n) = [] ∧ contents (pbuf_realloc p n) = take n (contents p) ∧
  len (pbuf_realloc p n) = n ∧ off (pbuf_realloc p n) = off p ∧ buf (pbuf_realloc p n) = buf p ∧
  base (pbuf_realloc p n) = base p ∧ grows (pbuf_realloc p n) = grows p.
Proof.
  intros Hp Hm Hn. pose proof (contents_length p Hp) as Hcl. pose proof Hp as (H1 & H2 & H3 & H4).
  assert (Ht : tot_len p = len p) by (unfold tot_len; rewrite Hm; cbn; lia).
  unfold pbuf_realloc. destruct (Nat.leb_spec (tot_len p) n).
  { split_and!; try done; [|lia]. symmetry. apply take_ge. lia. }
  destruct (Nat.ltb_spec (len p) n); [lia|].
  split; [|split_and!; try done].
  - unfold packet_ok, tot_len in *. cbn. split_and!; try done; try lia. constructor.
  - unfold contents, payload, slice. cbn [buf off len more base grows]. rewrite Hm.
    change (bytes_of []) with (@nil Z). rewrite !app_nil_r, take_take. f_equal. lia.
Qed.
Lemma u16_small_nat n : Z.of_nat n < 65536 → u16 (Z.of_nat n) = Z.of_nat n.
Proof. intros. apply u16_small. lia. Qed.

(** *** A datagram without options *)
Definition header (tos l0 l1 i0 i1 f0 f1 ttl proto k0 k1 src dst : Z) : list Z :=
  [69; tos; l0; l1; i0; i1; f0; f1; ttl; proto; k0; k1] ++ le32 src ++ le32 dst.
(** Its length field covers [rest], it is no fragment, and it verifies. *)
Definition header_for `{StdChksum} (h rest : list Z) : Prop :=
  h_len h = Z.of_nat (IP_HLEN + length rest) ∧
  Z.land (of_le16 (h !!! 6%nat) (h !!! 7%nat)) (htons (Z.lor IP_OFFMASK IP_MF)) = 0 ∧
  ∀ a, inet_chksum a h = 0.
Lemma ip_input_checked `{StdChksum} ram link raw room mem p inp s rest pad
    tos l0 l1 i0 i1 f0 f1 ttl proto k0 k1 src dst n' :
  let h := header tos l0 l1 i0 i1 f0 f1 ttl proto k0 k1 src dst in
  packet_ok p → more p = [] → contents p = h ++ rest ++ pad →
  h_len h = Z.of_nat (IP_HLEN + length rest) → (∀ a, inet_chksum a h = 0) →
  is_u32 src → is_u32 dst → accepted_on dst inp s = Some n' →
  src = 0 ∨ ip4_addr_isbroadcast src (n_view inp) = false ∧ ismulticast src = false →
  let q := pbuf_realloc p (IP_HLEN + length rest) in
  ip_input ram link raw room mem p inp s =
    (if negb (Z.land (of_le16 f0 f1) (htons (Z.lor IP_OFFMASK IP_MF)) =? 0) then Some (s, [EvReass q])
     else deliver ram link raw room mem q proto src dst inp s) ∧
  packet_ok q ∧ more q = [] ∧ base q = base p ∧ off q = off p ∧ buf q = buf p ∧ grows q = grows p ∧
  contents q = h ++ rest ∧ len q = (IP_HLEN + length rest)%nat.
Proof.
  intros h Hp Hm Hc Hl Hsum Hsrc Hdst Hacc Hok q.
  pose proof (contents_length p Hp) as Hcl. pose proof Hp as (_ & _ & _ & Hsz).
  assert (Hlen : len p = (20 + (length rest + length pad))%nat).
  { rewrite Hc, !length_app in Hcl. change (length h) with 20%nat in Hcl. unfold tot_len in Hcl.
    rewrite Hm in Hcl. cbn in Hcl. lia. }
  assert (Htl : tot_len p = len p) by (unfold tot_len; rewrite Hm; cbn; lia).
  destruct (pbuf_realloc_spec p (IP_HLEN + length rest) Hp Hm) as (Q1 & Q2 & Q3 & Q4 & Q5 & Q6 & Q7 & Q8);
    [unfold IP_HLEN; lia|]. fold q in Q1, Q2, Q3, Q4, Q5, Q6, Q7, Q8.
  assert (Hcq : contents q = h ++ rest).
  { rewrite Q3, Hc, app_assoc. apply take_app_length'. by rewrite length_app. }
  split; [|split_and!; done].
  pose proof (rd8_at p 0 69 Hp ltac:(lia) ltac:(by rewrite Hc)) as Hrd. rewrite Nat.add_0_r in Hrd.
  unfold ip_input. rewrite Hrd. cbn [mbind option_bind].
  change (Z.shiftr 69 4 =? 4) with true. change (Z.to_nat (Z.land 69 15 * 4)) with 20%nat. cbn [negb].
  rewrite (rd16_at p 2 l0 l1) by (done || lia || by rewrite Hc). cbn [mbind option_bind].
  change (htons (of_le16 l0 l1)) with (h_len h). rewrite Hl, Nat2Z.id.
  destruct (Nat.ltb_spec (len p) 20); [lia|]. destruct (Nat.ltb_spec (tot_len p) (IP_HLEN + length rest)); [unfold IP_HLEN in *; lia|].
  assert (Esl : slice (off p) 20 (buf p) = h).
  { transitivity (take 20 (contents p)); [|rewrite Hc; by apply take_app_length'].
    unfold contents, payload, slice. rewrite take_app_le by (rewrite length_take, length_drop; destruct Hp as (_ & ? & _); lia).
    rewrite take_take. f_equal. lia. }
  rewrite Esl, Hsum. cbn [orb Z.eqb negb]. fold q. rewrite Q6.
  rewrite (rd32_at p 16 dst) by (done || lia || by rewrite Hc). cbn [mbind option_bind].
  rewrite (rd32_at p 12 src) by (done || lia || by rewrite Hc). cbn [mbind option_bind].
  rewrite (rd8_at p 9 proto) by (done || lia || by rewrite Hc). cbn [mbind option_bind].
  rewrite Hacc. cbn [mbind option_bind andb].
  assert (Esrc : negb (src =? 0) && (ip4_addr_isbroadcast src (n_view inp) || ismulticast src) = false).
  { destruct Hok as [-> | [-> ->]]; [done|apply andb_false_r]. }
  rewrite Esrc. by rewrite (rd16_at p 6 f0 f1) by (done || lia || by rewrite Hc).
Qed.
Lemma ip_input_header `{StdChksum} ram link raw room mem p inp s rest pad
    tos l0 l1 i0 i1 f0 f1 ttl proto k0 k1 src dst n' :
  let h := header tos l0 l1 i0 i1 f0 f1 ttl proto k0 k1 src dst in
  packet_ok p → more p = [] → contents p = h ++ rest ++ pad → header_for h rest →
  is_u32 src → is_u32 dst → accepted_on dst inp s = Some n' →
  src = 0 ∨ ip4_addr_isbroadcast src (n_view inp) = false ∧ ismulticast src = false →
  let q := pbuf_realloc p (IP_HLEN + length rest) in
  ip_input ram link raw room mem p inp s = deliver ram link raw room mem q proto src dst inp s ∧
  packet_ok q ∧ more q = [] ∧ base q = base p ∧ off q = off p ∧ buf q = buf p ∧ grows q = grows p ∧
  contents q = h ++ rest ∧ len q = (IP_HLEN + length rest)%nat.
Proof.
  intros h Hp Hm Hc (Hl & Hfrag & Hsum) Hsrc Hdst Hacc Hok q.
  destruct (ip_input_checked ram link raw room mem p inp s rest pad tos l0 l1 i0 i1 f0 f1 ttl proto k0 k1 src dst n'
    Hp Hm Hc Hl Hsum Hsrc Hdst Hacc Hok) as (E & Hq). split; [|exact Hq]. rewrite E.
  change (of_le16 f0 f1) with (of_le16 (h !!! 6%nat) (h !!! 7%nat)). by rewrite Hfrag.
Qed.
(** A header the stack writes is one. *)
Lemma ip_header_for `{StdChksum} rest src dst ttl tos proto id :
  is_byte proto → is_byte ttl → is_byte tos → is_u32 src → is_u32 dst →
  Z.of_nat (IP_HLEN + length rest) < 65536 →
  header_for (ip_header (IP_HLEN + length rest) src dst ttl tos proto id) rest.
Proof.
  intros H1 H2 H3 H4 H5 Hn. split; [|split; [done|by intros a; apply ip_header_spec]].
  unfold h_len. cbn [ip_header app le16 lookup_total list_lookup_total].
  rewrite of_le16_bytes by apply htons_u16. by rewrite u16_small_nat, htons_involutive by lia.
Qed.

(** ** UDP *)
Lemma udp_input_delivers `{StdChksum} ram link room k p src dst inp s sport dport data h chk t sk r :
  packet_ok p → (28 <= len p)%nat → h !! 0%nat = Some 69 → length h = IP_HLEN →
  0 <= sport < 65536 → 0 <= dport < 65536 → 0 <= chk < 65536 → dport ≠ DHCP_CLIENT_PORT →
  contents p = h ++ udp_segment sport dport chk data →
  verifies src dst chk (udp_segment sport dport chk data) →
  udp_rep (pcbs s) t → (r, sk) ∈ bound t → s_recv sk ≠ 0 →
  r = receiver (ip4_addr_isbroadcast dst (n_view inp)) dst dport src sport (in_mask (n_view inp)) (bound t) →
  ∃ u' t' q, udp_input ram link room k p src dst inp s
      = Some (with_pcbs u' s, [EvUdp r (s_recv sk) (s_arg sk) q src sport]) ∧
    contents q = data ∧ packet_ok q ∧ base q = base p ∧ udp_rep u' t' ∧ bound t' ≡ₚ bound t.
Proof.
  intros Hp Hlen H0 Hhl Hsp Hdp Hchk Hdh Hc Hver Hrep Hin Hrecv Hr.
  pose proof (contents_length p Hp) as Hcl. pose proof Hp as (_ & _ & _ & Hsz).
  assert (Htl : tot_len p = (28 + length data)%nat).
  { rewrite Hc, length_app, Hhl, udp_segment_length in Hcl. unfold IP_HLEN in Hcl. lia. }
  pose proof (rd8_at p 0 69 Hp ltac:(lia) ltac:(rewrite Hc, lookup_app_l; [done|by rewrite Hhl; unfold IP_HLEN; lia])) as Hrd.
  rewrite Nat.add_0_r in Hrd.
  unfold udp_input. rewrite Hrd. cbn [mbind option_bind].
  change (Z.to_nat (Z.land 69 15 * 4)) with 20%nat. cbv zeta.
  destruct (Nat.ltb_spec (tot_len p) (20 + UDP_HLEN)); [unfold UDP_HLEN in *; lia|].
  rewrite hide_header_Some by lia. set (q := with_payload (off p + 20) (len p - 20) p).
  destruct (hide_header_spec 20 p q Hp (hide_header_Some 20 p ltac:(lia))) as (Hq & Hcq & Htq & _ & _).
  rewrite Hc in Hcq. rewrite drop_app_length' in Hcq by done.
  assert (Hlq : (8 <= len q)%nat) by (unfold q; cbn; lia).
  change (off p + 20)%nat with (off q). change (buf p) with (buf q).
  pose proof (rd16_at q 0 (byte_of 0 (htons sport)) (byte_of 1 (htons sport)) Hq ltac:(lia)
    ltac:(by rewrite Hcq) ltac:(by rewrite Hcq)) as Hrd0. rewrite Nat.add_0_r in Hrd0.
  rewrite Hrd0. cbn [mbind option_bind].
  rewrite (rd16_at q 2 (byte_of 0 (htons dport)) (byte_of 1 (htons dport))) by (done || lia || by rewrite Hcq).
  cbn [mbind option_bind]. rewrite !of_le16_bytes, !htons_involutive by (done || apply htons_u16).
  destruct (udp_demux_receiver (ip4_addr_isbroadcast dst (n_view inp)) dst dport src sport (in_mask (n_view inp))
              (n_view inp) (pcbs s) t Hrep Hdh eq_refl eq_refl) as (u' & t' & E & Hrep' & _ & _ & Hperm).
  rewrite E, <- Hr. cbn [mbind option_bind].
  assert (Hent : entry_ok (mem u') (r, sk)).
  { destruct Hrep' as (_ & _ & He & _). rewrite Forall_forall in He. apply He, elem_of_app. left. by rewrite Hperm. }
  destruct Hent as (Hr0 & c & Hcc & Hsk). cbn in Hr0, Hcc, Hsk.
  rewrite (proj2 (Z.eqb_neq r 0) Hr0). cbn [negb orb].
  rewrite (rd16_at q 6 (byte_of 0 chk) (byte_of 1 chk)) by (done || lia || by rewrite Hcq).
  cbn [mbind option_bind]. rewrite of_le16_bytes by done.
  assert (Ev : negb (chk =? 0) && negb (inet_chksum_pseudo (payloads q) src dst IP_PROTO_UDP (u16 (Z.of_nat (tot_len q))) =? 0) = false).
  { destruct Hver as [-> | Hver]; [done|]. replace (tot_len q) with (length (udp_segment sport dport chk data)).
    - rewrite Hver; [apply andb_false_r|by apply payloads_ok|by rewrite bytes_of_payloads].
    - rewrite udp_segment_length. lia. }
  rewrite Ev. rewrite hide_header_Some by (unfold UDP_HLEN; lia).
  destruct (hide_header_spec UDP_HLEN q _ Hq (hide_header_Some UDP_HLEN q ltac:(unfold UDP_HLEN; lia)))
    as (Hq2 & Hcq2 & _).
  rewrite Hcc. cbn [mbind option_bind]. rewrite <- Hsk in *. cbn [sock_of s_recv s_arg] in *.
  rewrite (proj2 (Z.eqb_neq _ _) Hrecv). cbn [negb].
  eexists u', t', _. split; [done|]. rewrite Hcq2, Hcq. by split_and!.
Qed.

Lemma udp_frame_shape `{StdChksum} src dst sport dport data f : udp_frame src dst sport dport data f →
  ∃ ttl tos id chk, is_byte ttl ∧ is_byte tos ∧ 0 <= chk < 65536 ∧
    verifies src dst chk (udp_segment sport dport chk data) ∧
    f = ip_header (IP_HLEN + length (udp_segment sport dport chk data)) src dst ttl tos IP_PROTO_UDP id ++
        udp_segment sport dport chk data.
Proof. done. Qed.
(** Without raw control blocks the packet goes to its protocol. *)
Lemma deliver_udp `{StdChksum} ram link raw room k p src dst inp s : raw_pcbs s = [] →
  deliver ram link raw room k p IP_PROTO_UDP src dst inp s = udp_input ram link room k p src dst inp s.
Proof.
  intros Hr. unfold deliver. rewrite Hr. cbn [raw_loop rev].
  assert (Es : with_raw [] s = s) by (destruct s; cbn in *; by subst). rewrite Es.
  change (IP_PROTO_UDP =? IP_PROTO_UDP) with true. cbv iota. by destruct (udp_input _ _ _ _ _ _ _ _ _) as [[s' evs]|].
Qed.

(** Such a frame, in one buffer and with padding behind it, reaches the callback. *)
Lemma udp_frame_delivered `{StdChksum} ram link raw room k src dst sport dport data f inp s t sk r P pad :
  udp_frame src dst sport dport data f → Z.of_nat (28 + length data) < 65536 → bytes_ok data →
  0 <= sport < 65536 → is_u32 src → is_u32 dst → 0 <= dport < 65536 → dport ≠ DHCP_CLIENT_PORT →
  is_Some (accepted_on dst inp s) → ip4_addr_isbroadcast src (n_view inp) = false → ismulticast src = false →
  raw_pcbs s = [] → udp_rep (pcbs s) t → (r, sk) ∈ bound t → s_recv sk ≠ 0 →
  r = receiver (ip4_addr_isbroadcast dst (n_view inp)) dst dport src sport (in_mask (n_view inp)) (bound t) →
  packet_ok P → more P = [] → contents P = f ++ pad →
  ∃ u' t' q, ip_input ram link raw room k P inp s =
      Some (with_pcbs u' s, [EvUdp r (s_recv sk) (s_arg sk) q src sport]) ∧
    contents q = data ∧ base q = base P ∧ udp_rep u' t' ∧ bound t' ≡ₚ bound t.
Proof.
  intros Hf Hsz Hd Hsp Hsrc Hdst Hdp Hdh [n' Hacc] Hb Hmc Hraw Hrep Hin Hrecv Hr HP HmP HcP.
  destruct (udp_frame_shape _ _ _ _ _ _ Hf) as (ttl0 & tos0 & id & chk & Httl0 & Htos0 & Hchk & Hver & Ef).
  rewrite Ef, <- app_assoc in HcP. set (seg := udp_segment sport dport chk data) in *.
  assert (Hfor : header_for (ip_header (IP_HLEN + length seg) src dst ttl0 tos0 IP_PROTO_UDP id) seg).
  { by apply ip_header_for. }
  edestruct (ip_input_header ram link raw room k P inp s seg pad)
    as (E2 & Hq & Hmq & Hbq & _ & _ & _ & Hcq & Hlq); [done|done|exact HcP|exact Hfor|done|done|exact Hacc|by right|].
  rewrite E2, deliver_udp by done.
  destruct (udp_input_delivers ram link room k _ src dst inp s sport dport data
      (ip_header (IP_HLEN + length seg) src dst ttl0 tos0 IP_PROTO_UDP id) chk
      t sk r Hq ltac:(rewrite Hlq; unfold seg; rewrite udp_segment_length; unfold IP_HLEN; lia) eq_refl eq_refl Hsp Hdp Hchk Hdh Hcq Hver
      Hrep Hin Hrecv Hr) as (u' & t' & q & E3 & Hdq & _ & Hb3 & Hrep' & Hperm).
  exists u', t', q. split; [exact E3|]. split; [done|]. split; [by rewrite Hb3|done].
Qed.
(** C2: UDP works end to end.  A bound socket sends a packet that has room for the headers and
    fits the MTU: [udp_sendto_if] hands one datagram to the interface.  Whoever receives that
    datagram, in one buffer, with any link padding behind it, and accepts its destination
    (with [dst] and [dport] not the DHCP client's, and a source that is not a broadcast
    address there) hands exactly the sent bytes, with the sender's address and port, to the
    callback of the socket the table designates: the header and UDP checksums verify, the
    padding is gone, and the receiver's table has the same sockets afterwards.  The receiver has
    no raw control blocks, which would be offered the packet first. *)
Theorem udp_datagram_delivered `{StdChksum} ram link pcb p dst dport n room k s c
    ram' link' raw' room' k' inp s2 t sk r :
  packet_ok p → grows p = true → (28 <= off p)%nat → Z.of_nat (28 + tot_len p) < 65536 →
  n_mtu n = 0 ∨ Z.of_nat (28 + tot_len p) <= n_mtu n →
  Udp.mem (pcbs s) !! pcb = Some c → 0 < local_port c < 65536 →
  local_ip c = 0 ∨ local_ip c = in_ip (n_view n) → is_byte (ttl c) → is_byte (tos c) →
  let src := in_ip (n_view n) in
  src ≠ 0 → is_u32 src → is_u32 dst → 0 <= dport < 65536 → dport ≠ DHCP_CLIENT_PORT →
  is_Some (accepted_on dst inp s2) →
  ip4_addr_isbroadcast src (n_view inp) = false → ismulticast src = false →
  raw_pcbs s2 = [] → udp_rep (pcbs s2) t → (r, sk) ∈ bound t → s_recv sk ≠ 0 →
  r = receiver (ip4_addr_isbroadcast dst (n_view inp)) dst dport src (local_port c)
        (in_mask (n_view inp)) (bound t) →
  ∃ s' f, udp_sendto_if ram link pcb p dst dport n room k s = Some (s', [EvOutput (n_id n) f dst], link n f dst) ∧
  ∀ P pad, packet_ok P → more P = [] → contents P = f ++ pad →
  ∃ u' t' q, ip_input ram' link' raw' room' k' P inp s2 =
      Some (with_pcbs u' s2, [EvUdp r (s_recv sk) (s_arg sk) q src (local_port c)]) ∧
    contents q = contents p ∧ base q = base P ∧ udp_rep u' t' ∧ bound t' ≡ₚ bound t.
Proof.
  intros Hp Hg Ho Hsz Hm Hc Hport Hip Httl Htos src Hsrc0 Hsrc Hdst Hdp Hdh Hacc Hb Hmc Hraw Hrep Hin Hrecv Hr.
  destruct (udp_sendto_if_frame ram link pcb p dst dport n room k s c Hp Hg Ho Hsz Hm Hc ltac:(lia) Hip Httl Htos
              Hsrc0 Hsrc Hdst) as (s' & f & E & Hf & _).
  exists s', f. split; [exact E|]. intros P pad HP HmP HcP.
  apply (udp_frame_delivered ram' link' raw' room' k' src dst (local_port c) dport (contents p) f inp s2 t sk r P pad);
    try done; [by rewrite contents_length|by apply contents_ok|lia].
Qed.

(** A station with one socket, bound to port 67 with a callback, on each side. *)
Definition server_pool : udp := match udp_recv 1160 7777 5 bound_pool with Some u => u | None => bound_pool end.
Definition server_table : socks := (sock_spec (Recv 1160 7777 5) bound_table).1.
Lemma server_pool_rep : udp_rep server_pool server_table.
Proof.
  destruct (udp_recv_rep 1160 7777 5 bound_pool bound_table bound_pool_rep) as (u' & Hu & Hr).
  { apply (bool_decide_eq_true_1 _). by vm_compute. }
  unfold server_pool. rewrite Hu. exact Hr.
Qed.
Definition client_if : nif := Nif 1 (InpView 0x0200a8c0 0x00ffffff 3 0) 1500.
Definition server_if : nif := Nif 1 (InpView 0x0100a8c0 0x00ffffff 3 0) 1500.
Definition client : stack := Stack [client_if] (Some client_if) 3 [] bound_pool.
Definition server : stack := Stack [server_if] (Some server_if) 0 [] server_pool.
Definition hello : packet := Packet (repeat 0 50 ++ [104; 101; 108; 108; 111]) 4096 50 5 true [].
Definition hello_frame : list Z :=
  match udp_sendto_if 8192 (λ _ _ _, 0) 1160 hello 0x0100a8c0 67 client_if None 0 client with
  | Some (_, [EvOutput _ f _], _) => f
  | _ => []
  end.
Lemma udp_datagram_delivered_witness :
  ∃ u' t' q, ip_input 8192 (λ _ _ _, 0) (λ _ _, false) None 0
      (Packet (repeat 7 14 ++ hello_frame ++ repeat 0 9) 65536 14 (length hello_frame + 9) true []) server_if server
      = Some (with_pcbs u' server, [EvUdp 1160 7777 5 q 0x0200a8c0 67]) ∧
    contents q = [104; 101; 108; 108; 111] ∧ base q = 65536 ∧ udp_rep u' t' ∧ bound t' ≡ₚ bound server_table.
Proof.
  destruct (udp_datagram_delivered 8192 (λ _ _ _, 0) 1160 hello 0x0100a8c0 67 client_if None 0 client
    (default zero_pcb (Udp.mem bound_pool !! 1160)) 8192 (λ _ _ _, 0) (λ _ _, false) None 0 server_if server server_table
    (Sock 0 67 0 0 0 7777 5) 1160) as (s' & f & E & D).
  - split_and!; [by apply (bool_decide_eq_true_1 _); vm_compute|vm_compute; lia|constructor|by vm_compute].
  - done.
  - cbn. lia.
  - by vm_compute.
  - right. vm_compute. discriminate.
  - by vm_compute.
  - vm_compute. by split.
  - left. by vm_compute.
  - vm_compute. split; [discriminate|done].
  - vm_compute. split; [discriminate|done].
  - discriminate.
  - vm_compute. split; [discriminate|done].
  - vm_compute. split; [discriminate|done].
  - lia.
  - discriminate.
  - exists server_if. by vm_compute.
  - by vm_compute.
  - by vm_compute.
  - done.
  - exact server_pool_rep.
  - assert (Es : bound server_table = [(1160, Sock 0 67 0 0 0 7777 5)]) by (by vm_compute).
    rewrite Es. apply list_elem_of_here.
  - discriminate.
  - by vm_compute.
  - assert (Ef : f = hello_frame) by (unfold hello_frame; by rewrite E).
    destruct (D (Packet (repeat 7 14 ++ hello_frame ++ repeat 0 9) 65536 14 (length hello_frame + 9) true []) (repeat 0 9))
      as (u' & t' & q & Hi & Hc & Hb & Hr & Hperm).
    + split_and!; [by apply (bool_decide_eq_true_1 _); vm_compute|vm_compute; lia|constructor|by vm_compute].
    + done.
    + rewrite Ef. by vm_compute.
    + exists u', t', q. split; [exact Hi|]. split; [exact Hc|]. split; [exact Hb|].
      split; [exact Hr|exact Hperm].
Defined.

(** ** Echo requests *)
Lemma sum16_pos hi l : bytes_ok l → 0 < sum16 hi l ↔ Exists (λ b, b ≠ 0) l.
Proof.
  intros H. revert hi. induction H as [|b l Hb Hl IH]; intros hi; cbn [sum16].
  { rewrite Exists_nil. lia. }
  rewrite Exists_cons, <- (IH (negb hi)). pose proof (sum16_nonneg (negb hi) l Hl). unfold is_byte in Hb.
  destruct hi; lia.
Qed.
Lemma inet_chksum_zero `{StdChksum} a l : bytes_ok l → Z.of_nat (length l) < 65536 →
  inet_chksum a l = 0 ↔ 0 < sum16 false l ∧ sum16 false l mod 65535 = 0.
Proof.
  intros Hl Hn. rewrite inet_chksum_sum by done. pose proof (sum16_nonneg false l Hl).
  destruct (decide (sum16 false l = 0)) as [->|Hz]; [by split; [|lia]|].
  rewrite verify_zero by lia. intuition lia.
Qed.
Lemma adjust_chksum_spec c : 0 <= c < 65536 →
  0 <= adjust_chksum c < 65536 ∧ (adjust_chksum c = c + 8 ∨ adjust_chksum c = c + 8 - 65535).
Proof.
  intros Hc. unfold adjust_chksum. change (htons (0xffff - Z.shiftl ICMP_ECHO 8)) with 65527.
  change (htons (Z.shiftl ICMP_ECHO 8)) with 8. destruct (Z.leb_spec 65527 c).
  - replace (u16 (c + 8 + 1)) with (c + 8 + 1 - 65536); [lia|]. unfold u16. apply (Z.mod_unique _ _ 1); lia.
  - rewrite u16_small by lia. lia.
Qed.

(** An echo request with the given type, checksum and the rest, and its reply. *)
Definition echo (type code chk : Z) (rest : list Z) : list Z := [type; code] ++ le16 chk ++ rest.
Lemma echo_sum type code chk rest : 0 <= chk < 65536 →
  sum16 false (echo type code chk rest) = type + 256 * code + chk + sum16 false rest.
Proof.
  intros Hc. unfold echo. rewrite !sum16_app.
  repeat match goal with |- context [parity ?l] => change (parity l) with false end. cbn [xorb].
  rewrite sum16_le16 by done. cbn [sum16 negb]. lia.
Qed.
Lemma echo_ok type code chk rest : is_byte type → is_byte code → bytes_ok rest → bytes_ok (echo type code chk rest).
Proof. intros. unfold echo. repeat (apply Forall_app; split); [|apply le16_ok|done]. by rewrite !Forall_cons. Qed.
(** The adjusted checksum verifies unless the whole reply is zero. *)
Lemma echo_adjusted `{StdChksum} a code chk rest : is_byte code → 0 <= chk < 65536 → bytes_ok rest →
  Z.of_nat (4 + length rest) < 65536 → inet_chksum a (echo ICMP_ECHO code chk rest) = 0 →
  let m := echo ICMP_ER code (adjust_chksum chk) rest in
  inet_chksum a m = 0 ↔ Exists (λ b, b ≠ 0) m.
Proof.
  intros Hcode Hchk Hrest Hn E m. destruct (adjust_chksum_spec chk Hchk) as [Ha Hadj].
  assert (Hb8 : is_byte ICMP_ECHO) by (unfold is_byte, ICMP_ECHO; lia).
  assert (Hb0 : is_byte ICMP_ER) by (unfold is_byte, ICMP_ER; lia).
  assert (Hm : bytes_ok m) by (by apply echo_ok).
  apply inet_chksum_zero in E as [_ E]; [|by apply echo_ok|exact Hn].
  rewrite echo_sum in E by done. rewrite inet_chksum_zero by (done || exact Hn). rewrite <- (sum16_pos false m Hm).
  unfold m. rewrite echo_sum by done. unfold ICMP_ECHO, ICMP_ER in *.
  assert (Em : (0 + 256 * code + adjust_chksum chk + sum16 false rest) mod 65535 = 0); [|tauto].
  destruct Hadj as [-> | ->].
  - etransitivity; [|exact E]. f_equal. lia.
  - etransitivity; [|exact E]. replace (8 + 256 * code + chk + sum16 false rest)
      with (0 + 256 * code + (chk + 8 - 65535) + sum16 false rest + 1 * 65535) by lia. by rewrite Z_mod_plus_full.
Qed.

(** *** Writing into a window of a buffer *)
Lemma slice_store_in i n j xs b : (i + n <= length b)%nat → (j + length xs <= n)%nat →
  slice i n (store_at (i + j) xs b) = store_at j xs (slice i n b).
Proof.
  intros Hn Hj. unfold slice, store_at. rewrite drop_app_le by (rewrite length_take; lia).
  rewrite skipn_firstn_comm. replace (i + j - i)%nat with j by lia.
  rewrite take_app_ge by (rewrite length_take, length_drop; lia).
  rewrite length_take, length_drop. replace (j `min` (length b - i))%nat with j by lia.
  rewrite take_app_ge by lia. rewrite take_take. replace (j `min` n)%nat with j by lia.
  do 2 f_equal. rewrite (skipn_firstn_comm _ n), drop_drop. f_equal; [lia|]. f_equal. lia.
Qed.
Lemma wr_in o n k xs b l : (o + n <= length b)%nat → slice o n b = l → (k + length xs <= n)%nat → bytes_ok xs → bytes_ok b →
  ∃ b', wr (o + k) xs b = Some b' ∧ slice o n b' = store_at k xs l ∧ length b' = length b ∧ bytes_ok b'.
Proof.
  intros Hn <- Hk Hx Hb. unfold wr. destruct (Nat.leb_spec (o + k + length xs) (length b)); [|lia].
  eexists. split; [done|]. split; [by apply slice_store_in|]. split; [apply length_store_at; lia|by apply store_at_bytes].
Qed.

(** The header of the reply before its checksum. *)
Definition reply_header (tos l0 l1 i0 i1 f0 f1 src dst : Z) : list Z :=
  header tos l0 l1 i0 i1 f0 f1 ICMP_TTL IP_PROTO_ICMP 0 0 dst src.
Lemma echo_reply_sends `{StdChksum} ram link mem p inp s tos l0 l1 i0 i1 f0 f1 ttl k0 k1 src dst code chk rest :
  packet_ok p → more p = [] → grows p = true →
  contents p = header tos l0 l1 i0 i1 f0 f1 ttl IP_PROTO_ICMP k0 k1 src dst ++ echo ICMP_ECHO code chk rest →
  is_u32 src → is_u32 dst → 0 <= chk < 65536 →
  n_mtu inp = 0 ∨ Z.of_nat (tot_len p) <= n_mtu inp →
  let h0 := reply_header tos l0 l1 i0 i1 f0 f1 src dst in
  echo_reply ram link mem (with_payload (off p + 20) (len p - 20) p) 20 src dst inp s =
  Some (s, [EvOutput (n_id inp)
    (store_at 10 (le16 (inet_chksum (base p + Z.of_nat (off p)) h0)) h0 ++ echo ICMP_ER code (adjust_chksum chk) rest) src]).
Proof.
  intros Hp Hm Hg Hc Hsrc Hdst Hchk Hmtu h0. pose proof (contents_length p Hp) as Hcl.
  pose proof Hp as (Hbok & Hbl & Hmo & Hsz). assert (Htl : tot_len p = len p) by (unfold tot_len; rewrite Hm; cbn; lia).
  assert (Hlen : len p = (24 + length rest)%nat) by (rewrite <- Htl, <- Hcl, Hc; done).
  assert (Hw : slice (off p) (len p) (buf p) = contents p).
  { unfold contents, payload. rewrite Hm. change (bytes_of []) with (@nil Z). by rewrite app_nil_r. }
  assert (B1 : bytes_ok [ICMP_ER]) by (by apply (bool_decide_eq_true_1 _); vm_compute).
  assert (B2 : bytes_ok [ICMP_TTL]) by (by apply (bool_decide_eq_true_1 _); vm_compute).
  assert (B3 : bytes_ok [0; 0]) by (by apply (bool_decide_eq_true_1 _); vm_compute).
  unfold echo_reply. cbn [with_payload off buf base]. replace (off p + 20 - 20)%nat with (off p) by lia.
  destruct (wr_in (off p) (len p) 12 (le32 dst) (buf p) _ Hbl Hw ltac:(cbn; lia) (le32_bytes _) Hbok) as (b1 & E & W1 & L1 & O1).
  rewrite E. cbn [mbind option_bind]. clear E. rewrite <- L1 in Hbl.
  destruct (wr_in (off p) (len p) 16 (le32 src) b1 _ Hbl W1 ltac:(cbn; lia) (le32_bytes _) O1) as (b2 & E & W2 & L2 & O2).
  rewrite E. cbn [mbind option_bind]. clear E. rewrite <- L2 in Hbl.
  destruct (wr_in (off p) (len p) 20 [ICMP_ER] b2 _ Hbl W2 ltac:(cbn; lia) B1 O2) as (b3 & E & W3 & L3 & O3).
  rewrite E. cbn [mbind option_bind]. clear E. rewrite <- L3 in Hbl.
  assert (Er : rd16 (off p + 20 + 2) b3 = Some chk).
  { set (p3 := with_buf b3 p). assert (Hp3 : packet_ok p3).
    { unfold packet_ok, p3, tot_len in *. cbn [with_buf buf off len more base grows]. by split_and!. }
    assert (Hc3 : contents p3 = slice (off p) (len p) b3).
    { unfold contents, payload. cbn [p3 with_buf buf off len more]. rewrite Hm. by rewrite app_nil_r. }
    replace (off p + 20 + 2)%nat with (off p3 + 22)%nat by (cbn; lia). change b3 with (buf p3).
    rewrite (rd16_at p3 22 (byte_of 0 chk) (byte_of 1 chk)); [by rewrite of_le16_bytes|done|cbn; lia| |];
      rewrite Hc3, W3, Hc; done. }
  rewrite Er. cbn [mbind option_bind]. clear Er. destruct (adjust_chksum_spec chk Hchk) as [Ha _].
  replace (off p + 20 + 2)%nat with (off p + 22)%nat by lia.
  destruct (wr_in (off p) (len p) 22 (le16 (adjust_chksum chk)) b3 _ Hbl W3 ltac:(cbn; lia) (le16_ok _) O3) as (b4 & E & W4 & L4 & O4).
  rewrite E. cbn [mbind option_bind]. clear E. rewrite <- L4 in Hbl.
  destruct (wr_in (off p) (len p) 8 [ICMP_TTL] b4 _ Hbl W4 ltac:(cbn; lia) B2 O4) as (b5 & E & W5 & L5 & O5).
  rewrite E. cbn [mbind option_bind]. clear E. rewrite <- L5 in Hbl.
  destruct (wr_in (off p) (len p) 10 [0; 0] b5 _ Hbl W5 ltac:(cbn; lia) B3 O5) as (b6 & E & W6 & L6 & O6).
  rewrite E. cbn [mbind option_bind]. clear E. rewrite <- L6 in Hbl.
  assert (E6 : slice (off p) (len p) b6 = h0 ++ echo ICMP_ER code (adjust_chksum chk) rest).
  { rewrite W6, Hc. reflexivity. }
  assert (Eh : slice (off p) IP_HLEN b6 = h0).
  { transitivity (take 20 (slice (off p) (len p) b6)); [|rewrite E6; by apply take_app_length'].
    unfold slice. rewrite take_take. f_equal. unfold IP_HLEN. lia. }
  rewrite Eh. set (c := inet_chksum _ h0).
  destruct (wr_in (off p) (len p) 10 (le16 c) b6 _ Hbl E6 ltac:(cbn; lia) (le16_ok _) O6) as (b7 & E & W7 & L7 & O7).
  rewrite E. cbn [mbind option_bind]. clear E. rewrite <- L7 in Hbl.
  unfold show_header. cbn [with_buf with_payload grows off len buf]. rewrite Hg.
  destruct (Nat.leb_spec 20 (off p + 20)); [|lia]. cbn [orb andb Nat.eqb].
  replace (off p + 20 - 20)%nat with (off p) by lia. replace (len p - 20 + 20)%nat with (len p) by lia.
  set (r := with_payload (off p) (len p) _).
  assert (Hr : packet_ok r).
  { unfold packet_ok, r, tot_len in *. cbn [with_buf with_payload buf off len more base grows]. by split_and!. }
  assert (Hcr : contents r = store_at 10 (le16 c) h0 ++ echo ICMP_ER code (adjust_chksum chk) rest).
  { unfold contents, payload, r. cbn [with_buf with_payload buf off len more]. rewrite Hm.
    change (bytes_of []) with (@nil Z). rewrite app_nil_r, W7. reflexivity. }
  unfold ip_output_if. rewrite (rd32_at r 16 src Hr); [|cbn; lia|done|by rewrite Hcr].
  cbn [mbind option_bind negb]. change (tot_len r) with (tot_len p).
  assert (Emtu : negb (n_mtu inp =? 0) && (n_mtu inp <? Z.of_nat (tot_len p)) = false).
  { destruct Hmtu as [-> | Hmtu]; [done|]. apply andb_false_iff. right. apply Z.ltb_ge. lia. }
  rewrite Emtu, Hcr. reflexivity.
Qed.

Lemma inet_chksum_pbuf_of `{StdChksum} a p : chain_ok p → Z.of_nat (length (bytes_of p)) < 65536 →
  inet_chksum_pbuf p = inet_chksum a (bytes_of p).
Proof. intros Hp Hn. rewrite inet_chksum_pbuf_sum by done. by rewrite inet_chksum_sum by (done || by apply bytes_of_ok). Qed.
(** A packet with room in front is its own reply buffer. *)
Lemma echo_buffer_same ram room p hlen : grows p = true → (34 <= off p)%nat → echo_buffer ram room p hlen = Some (p, []).
Proof.
  intros Hg Ho. unfold echo_buffer, show_header. rewrite Hg. change (PBUF_IP_HLEN + PBUF_LINK_HLEN)%nat with 34%nat.
  destruct (Nat.leb_spec 34 (off p)); [|lia]. cbn [orb andb Nat.eqb]. unfold hide_header. cbn [with_payload len off].
  destruct (Nat.leb_spec 34 (len p + 34)); [|lia]. cbn [mbind option_bind]. do 2 f_equal.
  unfold with_payload. destruct p as [b a o n g m]. cbn in *. f_equal; lia.
Qed.
Lemma deliver_icmp `{StdChksum} ram link raw room k p src dst inp s : raw_pcbs s = [] →
  deliver ram link raw room k p IP_PROTO_ICMP src dst inp s = icmp_input ram link room k p src dst inp s.
Proof.
  intros Hr. unfold deliver. rewrite Hr. cbn [raw_loop rev].
  assert (Es : with_raw [] s = s) by (destruct s; cbn in *; by subst). rewrite Es.
  change (IP_PROTO_ICMP =? IP_PROTO_UDP) with false. change (IP_PROTO_ICMP =? IP_PROTO_TCP) with false.
  change (IP_PROTO_ICMP =? IP_PROTO_ICMP) with true. cbv iota. by destruct (icmp_input _ _ _ _ _ _ _ _ _) as [[s' evs]|].
Qed.
(** [icmp_input] on an echo request for this station. *)
Lemma icmp_input_echo `{StdChksum} ram link room k p inp s tos l0 l1 i0 i1 f0 f1 ttl k0 k1 src dst code chk rest :
  let m := echo ICMP_ECHO code chk rest in
  packet_ok p → more p = [] → grows p = true → (14 <= off p)%nat →
  contents p = header tos l0 l1 i0 i1 f0 f1 ttl IP_PROTO_ICMP k0 k1 src dst ++ m → (4 <= length rest)%nat →
  is_u32 src → is_u32 dst → 0 <= chk < 65536 → (∀ a, inet_chksum a m = 0) →
  ip4_addr_isbroadcast dst (n_view inp) = false → ismulticast dst = false →
  n_mtu inp = 0 ∨ Z.of_nat (tot_len p) <= n_mtu inp →
  let h0 := reply_header tos l0 l1 i0 i1 f0 f1 src dst in
  icmp_input ram link room k p src dst inp s =
  Some (s, [EvOutput (n_id inp)
    (store_at 10 (le16 (inet_chksum (base p + Z.of_nat (off p)) h0)) h0 ++ echo ICMP_ER code (adjust_chksum chk) rest) src;
    EvFree (base p)]).
Proof.
  intros m Hp Hm Hg Ho Hc Hr Hsrc Hdst Hchk Hsum Hb Hmc Hmtu h0.
  pose proof (contents_length p Hp) as Hcl. pose proof Hp as (_ & _ & _ & Hsz).
  assert (Htl : tot_len p = len p) by (unfold tot_len; rewrite Hm; cbn; lia).
  assert (Hlen : len p = (24 + length rest)%nat) by (rewrite <- Htl, <- Hcl, Hc; done).
  pose proof (rd8_at p 0 69 Hp ltac:(lia) ltac:(by rewrite Hc)) as Hrd. rewrite Nat.add_0_r in Hrd.
  unfold icmp_input. rewrite Hrd. cbn [mbind option_bind]. change (Z.to_nat (Z.land 69 15 * 4)) with 20%nat. cbv zeta.
  rewrite hide_header_Some by lia. set (q := with_payload (off p + 20) (len p - 20) p).
  destruct (hide_header_spec 20 p q Hp (hide_header_Some 20 p ltac:(lia))) as (Hq & Hcq & Htq & _ & _).
  rewrite Hc, drop_app_length' in Hcq by done.
  assert (Hlq : len q = (4 + length rest)%nat) by (unfold q; cbn; lia).
  destruct (Nat.ltb_spec (tot_len q) 4); [lia|].
  pose proof (rd8_at q 0 ICMP_ECHO Hq ltac:(lia) ltac:(by rewrite Hcq)) as Hrd0. rewrite Nat.add_0_r in Hrd0.
  rewrite Hrd0. cbn [mbind option_bind]. change (ICMP_ECHO =? ICMP_ER) with false.
  change (ICMP_ECHO =? ICMP_ECHO) with true. cbv iota. rewrite Hmc, Hb. cbn [orb].
  destruct (Nat.ltb_spec (tot_len q) SIZEOF_ECHO); [unfold SIZEOF_ECHO in *; lia|].
  rewrite (inet_chksum_pbuf_of 0) by (apply payloads_ok || (rewrite bytes_of_payloads, contents_length; [|]); (done || lia)).
  rewrite bytes_of_payloads, Hcq, Hsum. cbn [Z.eqb negb].
  rewrite echo_buffer_same by (done || (unfold q; cbn; lia)).
  unfold q. rewrite (echo_reply_sends ram link k p inp s tos l0 l1 i0 i1 f0 f1 ttl k0 k1 src dst code chk rest) by done.
  reflexivity.
Qed.

(** C13: A ping is answered.  An echo request for this station (one buffer with room for a
    link header, a header without options that verifies, no fragment, an ICMP checksum that
    verifies, a proper source) is answered by exactly one datagram, and its buffer is freed:
    to the source, with source and destination exchanged, TTL 255 and a header that verifies,
    and the request's ICMP message with type echo reply, its code, identifier, sequence
    number and data untouched.  The checksum, which is adjusted and not recomputed, verifies
    exactly when the reply has a byte that is not zero. *)
Theorem ping_answered `{StdChksum} ram link raw room k P inp s pad
    tos l0 l1 i0 i1 f0 f1 ttl k0 k1 src dst code chk rest :
  let h := header tos l0 l1 i0 i1 f0 f1 ttl IP_PROTO_ICMP k0 k1 src dst in
  let m := echo ICMP_ECHO code chk rest in
  packet_ok P → more P = [] → grows P = true → (14 <= off P)%nat → contents P = h ++ m ++ pad →
  header_for h m → (4 <= length rest)%nat → is_u32 src → is_u32 dst → 0 <= chk < 65536 →
  (∀ a, inet_chksum a m = 0) → is_Some (accepted_on dst inp s) →
  ip4_addr_isbroadcast dst (n_view inp) = false → ismulticast dst = false →
  ip4_addr_isbroadcast src (n_view inp) = false → ismulticast src = false → raw_pcbs s = [] →
  n_mtu inp = 0 ∨ Z.of_nat (24 + length rest) <= n_mtu inp →
  let m' := echo ICMP_ER code (adjust_chksum chk) rest in
  ∃ c0 c1, let h' := header tos l0 l1 i0 i1 f0 f1 ICMP_TTL IP_PROTO_ICMP c0 c1 dst src in
    ip_input ram link raw room k P inp s = Some (s, [EvOutput (n_id inp) (h' ++ m') src; EvFree (base P)]) ∧
    (∀ a, inet_chksum a h' = 0) ∧
    ∀ a, inet_chksum a m' = 0 ↔ Exists (λ b, b ≠ 0) m'.
Proof.
  intros h m HP HmP Hg Ho HcP Hfor Hr Hsrc Hdst Hchk Hsum [n' Hacc] Hb Hmc Hsb Hsm Hraw Hmtu m'.
  destruct (ip_input_header ram link raw room k P inp s m pad tos l0 l1 i0 i1 f0 f1 ttl IP_PROTO_ICMP k0 k1 src dst n')
    as (E & Hq & Hmq & Hbq & Hoq & _ & Hgq & Hcq & Hlq); [done|done|done|done|done|done|done|by right|].
  set (q := pbuf_realloc P (IP_HLEN + length m)) in *.
  rewrite E, deliver_icmp by done. pose proof (contents_ok q Hq) as Hok. rewrite Hcq in Hok.
  assert (Htq : tot_len q = (24 + length rest)%nat) by (rewrite <- contents_length, Hcq by done; done).
  rewrite (icmp_input_echo ram link room k q inp s tos l0 l1 i0 i1 f0 f1 ttl k0 k1 src dst code chk rest Hq Hmq)
    by (done || (rewrite ?Hgq, ?Hoq, ?Htq; done)).
  set (h0 := reply_header tos l0 l1 i0 i1 f0 f1 src dst). set (c := inet_chksum _ h0).
  exists (byte_of 0 c), (byte_of 1 c). rewrite Hbq. split; [reflexivity|].
  apply Forall_app in Hok as [Hh Hm]. unfold header in Hh. cbn [app] in Hh.
  rewrite !Forall_cons in Hh. destruct Hh as (_ & Ht & Hl0 & Hl1 & Hi0 & Hi1 & Hf0 & Hf1 & _ & _ & _ & _ & _).
  split.
  - intros a. change (header _ _ _ _ _ _ _ _ _ _ _ dst src) with (store_at 10 (le16 c) h0).
    apply stored_checksum_verifies; try done; [|cbn; lia].
    unfold h0, reply_header, header. cbn [app]. rewrite !Forall_cons.
    repeat (split; [first [assumption|unfold is_byte, ICMP_TTL, IP_PROTO_ICMP; lia]|]). apply Forall_app. split; apply le32_bytes.
  - intros a. unfold m, echo in Hm. cbn [app] in Hm. rewrite !Forall_cons in Hm.
    destruct Hm as (_ & Hcode & Hm). apply (echo_adjusted a); try done; [by apply Forall_app in Hm as [_ Hm]|].
    destruct Hq as (_ & _ & _ & Hsz). lia.
Qed.

(** A ping from 192.168.0.2 for the station 192.168.0.1, with ten bytes of padding. *)
Definition ping_data : list Z := [0; 1; 0; 7; 97; 98; 99; 100].
Definition ping_sum : Z := inet_chksum 0 (echo ICMP_ECHO 0 0 ping_data).
Definition ping_header (n src dst : Z) : list Z :=
  let h k0 k1 := header 0 0 n 18 52 64 0 64 IP_PROTO_ICMP k0 k1 src dst in
  let c := inet_chksum 0 (h 0 0) in h (byte_of 0 c) (byte_of 1 c).
Definition ping (h m : list Z) : packet := Packet (repeat 7 14 ++ h ++ m ++ repeat 0 10) 65536 14 (length (h ++ m) + 10) true [].
Lemma ping_answered_witness :
  let P := ping (ping_header 32 0x0200a8c0 0x0100a8c0) (echo ICMP_ECHO 0 ping_sum ping_data) in
  ∃ c0 c1, ip_input 8192 (λ _ _ _, 0) (λ _ _, false) None 0 P server_if server =
    Some (server, [EvOutput 1 (header 0 0 32 18 52 64 0 255 IP_PROTO_ICMP c0 c1 0x0100a8c0 0x0200a8c0 ++
      echo ICMP_ER 0 (adjust_chksum ping_sum) ping_data) 0x0200a8c0; EvFree 65536]) ∧
    inet_chksum 0 (echo ICMP_ER 0 (adjust_chksum ping_sum) ping_data) = 0.
Proof.
  intros P.
  destruct (ping_answered 8192 (λ _ _ _, 0) (λ _ _, false) None 0 P server_if server (repeat 0 10)
    0 0 32 18 52 64 0 64 (byte_of 0 (inet_chksum 0 (header 0 0 32 18 52 64 0 64 IP_PROTO_ICMP 0 0 0x0200a8c0 0x0100a8c0)))
    (byte_of 1 (inet_chksum 0 (header 0 0 32 18 52 64 0 64 IP_PROTO_ICMP 0 0 0x0200a8c0 0x0100a8c0)))
    0x0200a8c0 0x0100a8c0 0 ping_sum ping_data) as (c0 & c1 & E & _ & Hm).
  - split_and!; [by apply (bool_decide_eq_true_1 _); vm_compute|vm_compute; lia|constructor|by vm_compute].
  - done.
  - done.
  - cbn. lia.
  - by vm_compute.
  - split; [by vm_compute|]. split; [by vm_compute|]. intros a.
    rewrite inet_chksum_sum; [by vm_compute|by apply (bool_decide_eq_true_1 _); vm_compute|by vm_compute].
  - cbn. lia.
  - vm_compute. by split.
  - vm_compute. by split.
  - vm_compute. by split.
  - intros a. rewrite inet_chksum_sum; [by vm_compute|by apply (bool_decide_eq_true_1 _); vm_compute|by vm_compute].
  - exists server_if. by vm_compute.
  - by vm_compute.
  - by vm_compute.
  - by vm_compute.
  - by vm_compute.
  - done.
  - right. by vm_compute.
  - exists c0, c1. split; [exact E|]. apply Hm. do 2 right. left. by vm_compute.
Defined.

(** The one ping whose reply does not verify: identifier, sequence number and data zero.  Its
    checksum is 0xfff7 in memory order, the adjusted one 0, and that of zeros is 0xffff. *)
Example zero_ping_reply_fails :
  inet_chksum 0 (echo ICMP_ECHO 0 0xfff7 (repeat 0 12)) = 0 ∧ adjust_chksum 0xfff7 = 0 ∧
  inet_chksum 0 (echo ICMP_ER 0 0 (repeat 0 12)) = 0xffff.
Proof. by vm_compute. Qed.

(** A header of [n] words with the options [opts] and its checksum. *)
Definition optioned_header (n total : Z) (opts : list Z) : list Z :=
  let h k0 k1 := [Z.lor 64 n; 0; 0; total; 18; 52; 0; 0; 64; IP_PROTO_ICMP; k0; k1] ++ le32 0x0200a8c0 ++ le32 0x0100a8c0 ++ opts in
  let c := inet_chksum 0 (h 0 0) in h (byte_of 0 c) (byte_of 1 c).
(** A ping whose header has an option: the header of the reply covers six words, its checksum
    only five, so it does not verify. *)
Example optioned_ping_reply_fails :
  let P := ping (optioned_header 6 36 [7; 4; 1; 0]) (echo ICMP_ECHO 0 ping_sum ping_data) in
  ∃ f, ip_input 8192 (λ _ _ _, 0) (λ _ _, false) None 0 P server_if server = Some (server, [EvOutput 1 f 0x0200a8c0; EvFree 65536]) ∧
    take 1 f = [70] ∧ (inet_chksum 0 (take 24 f) =? 0) = false.
Proof. eexists. split; [by vm_compute|]. split; by vm_compute. Qed.
(** Nothing asks for a header of five words.  A header that claims two, in a packet of sixteen
    bytes without room before it: the reply is made in a buffer of sixteen bytes, and its
    destination address would be bytes sixteen to nineteen.  The write leaves the buffer. *)
Definition short_header : list Z :=
  let c := inet_chksum 0 [66; 0; 0; 16; 0; 0; 0; 0] in [66; 0; 0; 16; byte_of 0 c; byte_of 1 c; 0; 0].
Definition short_ping : packet :=
  let e k := [ICMP_ECHO; IP_PROTO_ICMP] ++ le16 k ++ le32 0x0200a8c0 in
  Packet (repeat 7 14 ++ short_header ++ e (inet_chksum 0 (e 0)) ++ le32 0x0100a8c0 ++ repeat 0 26) 65536 14 46 true [].
Example short_header_overruns :
  ip_input 8192 (λ _ _ _, 0) (λ _ _, false) (Some (repeat 0 64)) 0 short_ping server_if server = None ∧
  ip_input 8192 (λ _ _ _, 0) (λ _ _, false) None 0 short_ping server_if server = Some (server, [EvFree 65536]).
Proof. split; by vm_compute. Qed.

(** ** Every packet is consumed once *)
(** Whether an event ends the packet whose buffer is at [b]. *)
Definition consumes (b : Z) (e : event) : bool :=
  match e with
  | EvFree b' => b' =? b
  | EvReass p | EvTcp p | EvRaw _ p true | EvUdp _ _ _ p _ _ => base p =? b
  | _ => false
  end.
Definition consumed (b : Z) (evs : list event) : nat := length (List.filter (consumes b) evs).
Lemma consumed_app b e e' : consumed b (e ++ e') = (consumed b e + consumed b e')%nat.
Proof. unfold consumed. by rewrite List.filter_app, length_app. Qed.
Definition is_output (e : event) : Prop := match e with EvOutput _ _ _ => True | _ => False end.
Lemma outputs_consume_nothing b evs : Forall is_output evs → consumed b evs = 0%nat.
Proof. induction 1 as [|e evs He _ IH]; [done|]. unfold consumed in *. by destruct e; cbn in *. Qed.

(** An interface has no MTU or one that fragments fit in. *)
Definition nif_ok (n : nif) : Prop := n_mtu n = 0 ∨ 28 <= n_mtu n < 65536.
Definition stack_ok (s : stack) : Prop :=
  Forall nif_ok (netif_list s) ∧ (∀ n, netif_default s = Some n → nif_ok n).
Lemma route_ok dest s n : stack_ok s → ip_route dest s = Some n → nif_ok n.
Proof.
  intros [Hl Hd]. unfold ip_route. destruct (route_loop dest (netif_list s)) as [m|] eqn:E.
  - intros [= <-]. clear Hd. induction Hl as [|x l Hx _ IH]; [done|]. cbn in E. destruct (_ && _); [by simplify_eq|auto].
  - destruct (netif_default s) as [m|]; [|done]. destruct (is_up m); [|done]. intros [= <-]. by apply Hd.
Qed.
Lemma frag_loop_total `{StdChksum} ram fuel original data o omf mtu n dest mem :
  28 <= mtu < 65536 → (length data <= fuel)%nat →
  ∃ evs e, frag_loop ram fuel original data o omf mtu n dest mem = Some (evs, e) ∧ Forall is_output evs.
Proof.
  intros Hm. destruct (frag_size mtu Hm) as (E1 & E2 & H1 & H2).
  revert data o mem. induction fuel as [|fuel IH]; intros data o mem Hf.
  { destruct data; [|cbn in Hf; lia]. by exists [], ERR_OK. }
  destruct data as [|x data]; [by exists [], ERR_OK|]. cbn [frag_loop]. rewrite E1, E2.
  set (dt := x :: data) in *. assert (Hdt : (0 < length dt)%nat) by (unfold dt; cbn; lia).
  destruct mem as [|mem]; [by exists [], ERR_MEM|]. set (cop := if _ <=? _ then length dt else _).
  assert (Hcop : (0 < cop)%nat) by (unfold cop; destruct (_ <=? _); lia).
  destruct (IH (drop cop dt) (u16 (o + (mtu - 20) / 8)) mem) as (evs & e & E & Hev); [rewrite length_drop; lia|].
  rewrite E. cbn [mbind option_bind]. eexists _, e. split; [done|]. by constructor.
Qed.
Lemma rd_Some i b : (i < length b)%nat → is_Some (rd8 i b).
Proof. apply lookup_lt_is_Some_2. Qed.
Lemma rd16_Some i b : (S i < length b)%nat → ∃ x, rd16 i b = Some x.
Proof.
  intros Hi. unfold rd16. destruct (lookup_lt_is_Some_2 b i) as [x ->]; [lia|].
  destruct (lookup_lt_is_Some_2 b (S i)) as [y ->]; [lia|]. by eexists.
Qed.
Lemma rd32_Some i b : (S (S (S i)) < length b)%nat → ∃ x, rd32 i b = Some x.
Proof.
  intros Hi. unfold rd32. destruct (lookup_lt_is_Some_2 b i) as [x ->]; [lia|].
  destruct (lookup_lt_is_Some_2 b (S i)) as [y ->]; [lia|].
  destruct (lookup_lt_is_Some_2 b (S (S i))) as [z ->]; [lia|].
  destruct (lookup_lt_is_Some_2 b (S (S (S i)))) as [w ->]; [lia|]. by eexists.
Qed.
Lemma wr_Some i xs b : (i + length xs <= length b)%nat → ∃ b', wr i xs b = Some b' ∧ length b' = length b.
Proof.
  intros Hi. unfold wr. destruct (Nat.leb_spec (i + length xs) (length b)); [|lia].
  eexists. split; [done|]. by apply length_store_at.
Qed.
(** [ip_output_if] and [ip_output] return, and only call output functions. *)
Lemma ip_output_if_total `{StdChksum} ram link p src dest ttl tos proto n mem s :
  nif_ok n → (off p + len p <= length (buf p))%nat →
  match dest with Some _ => True | None => (off p + 20 <= length (buf p))%nat end →
  ∃ s' evs e, ip_output_if ram link p src dest ttl tos proto n mem s = Some (s', evs, e) ∧
    Forall is_output evs ∧ pcbs s' = pcbs s.
Proof.
  intros Hn Hl Hd. unfold ip_output_if.
  assert (Hsend : ∀ s' p' d, (off p' + 20 <= length (buf p'))%nat → pcbs s' = pcbs s →
    ∃ s2 evs e, (if negb true then Some (s', [], ERR_BUF)
      else if negb (n_mtu n =? 0) && (n_mtu n <? Z.of_nat (tot_len p')) then
        '(evs, err) ← ip_frag ram p' n d mem; Some (s', evs, err)
      else Some (s', [EvOutput (n_id n) (contents p') d], link n (contents p') d)) = Some (s2, evs, e) ∧
      Forall is_output evs ∧ pcbs s2 = pcbs s).
  { intros s' p' d Hp' Hs'. cbn [negb]. destruct (negb (n_mtu n =? 0) && _) eqn:E.
    2: { eexists _, _, _. split; [done|]. split; [by repeat constructor|done]. }
    apply andb_true_iff in E as [E0 E1]. apply negb_true_iff, Z.eqb_neq in E0. apply Z.ltb_lt in E1.
    destruct Hn as [|Hn]; [done|]. unfold ip_frag.
    destruct (Nat.ltb_spec (tot_len p') IP_HLEN); [unfold IP_HLEN in *; lia|].
    destruct (rd16_Some (off p' + 6) (buf p')) as [x ->]; [lia|]. cbn [mbind option_bind].
    destruct (frag_loop_total ram (length (contents p')) (contents p') (drop IP_HLEN (contents p'))
      (Z.land (htons x) IP_OFFMASK) (Z.land (htons x) IP_MF) (n_mtu n) n d mem Hn) as (evs & e & Ef & Hev);
      [rewrite length_drop; lia|]. rewrite Ef. cbn [mbind option_bind]. eauto 10. }
  destruct dest as [d|].
  - destruct (show_header IP_HLEN p) as [q|] eqn:Es; cbn [mbind option_bind].
    2: { eexists _, _, _. cbn [negb]. split; [done|]. by split. }
    assert (Hq : (off q + 20 <= length (buf q))%nat).
    { unfold show_header in Es. destruct (_ || _) eqn:E; [|done]. simplify_eq. cbn.
      apply orb_true_iff in E as [E|E]; [done|]. apply andb_true_iff in E as [_ E]. apply Nat.leb_le in E.
      unfold IP_HLEN in *. lia. }
    match goal with |- context [wr (off q) ?h (buf q)] => destruct (wr_Some (off q) h (buf q)) as (b & -> & Hb); [exact Hq|] end.
    cbn [mbind option_bind]. apply Hsend; [|done]. cbn. lia.
  - destruct (rd32_Some (off p + 16) (buf p)) as [x ->]; [lia|]. cbn [mbind option_bind]. by apply Hsend.
Qed.
Lemma ip_output_total `{StdChksum} ram link p src dest ttl tos proto mem s :
  stack_ok s → (off p + len p <= length (buf p))%nat →
  ∃ s' evs e, ip_output ram link p src dest ttl tos proto mem s = Some (s', evs, e) ∧
    Forall is_output evs ∧ pcbs s' = pcbs s.
Proof.
  intros Hs Hl. unfold ip_output. destruct (ip_route dest s) as [n|] eqn:E.
  - apply ip_output_if_total; [by eapply route_ok|done|done].
  - eexists _, _, _. split; [done|]. by split.
Qed.

(** Room for any header. *)
Definition room_ok (room : option (list Z)) : Prop :=
  match room with Some junk => (64 <= length junk)%nat | None => True end.
Lemma option_cases {A} (o : option A) : o = None ∨ ∃ x, o = Some x.
Proof. destruct o; eauto. Qed.
Lemma ram_pbuf_room ram room hlen data : room_ok room → (hlen <= 60)%nat →
  match ram_pbuf ram room hlen data with
  | None => room = None
  | Some q => base q = ram ∧ len q = length data ∧ (off q + len q = length (buf q))%nat ∧ (hlen <= off q)%nat ∧
              grows q = true ∧ more q = []
  end.
Proof.
  intros Hroom Hh. unfold ram_pbuf. destruct room as [junk|]; [|done]. cbn [mbind option_bind].
  cbn [base len off buf grows more]. cbn in Hroom. split_and!; try done; [by rewrite length_app|].
  rewrite length_take. pose proof (Nat.div_mod (hlen + 3) 4 ltac:(lia)).
  pose proof (Nat.mod_upper_bound (hlen + 3) 4 ltac:(lia)). lia.
Qed.

Section consumed.
Context `{StdChksum}.
Context (ram b : Z) (link : nif → list Z → Z → Z) (raw : Z → packet → bool) (room : option (list Z)) (mem : nat).
Hypothesis Hram : ram ≠ b.
Hypothesis Hroom : room_ok room.

(** The packet is consumed once, and the UDP table is still one. *)
Definition once (t : socks) (r : option (stack * list event)) : Prop :=
  ∃ s' evs t', r = Some (s', evs) ∧ consumed b evs = 1%nat ∧ udp_rep (pcbs s') t' ∧ bound t' ≡ₚ bound t.
(** Nothing is consumed. *)
Definition aside (s : stack) (r : option (stack * list event)) : Prop :=
  ∃ s' evs, r = Some (s', evs) ∧ consumed b evs = 0%nat ∧ pcbs s' = pcbs s.

Lemma once_free t s : udp_rep (pcbs s) t → once t (Some (s, [EvFree b])).
Proof. intros Hr. exists s, [EvFree b], t. unfold consumed. cbn. by rewrite Z.eqb_refl. Qed.
Lemma once_after t s r : udp_rep (pcbs s) t → aside s r →
  once t ('(s, evs) ← r; Some (s, evs ++ [EvFree b])).
Proof.
  intros Hr (s' & evs & -> & Hc & Hp). cbn [mbind option_bind]. exists s', (evs ++ [EvFree b]), t.
  split; [done|]. rewrite consumed_app, Hc, Hp. unfold consumed. cbn. by rewrite Z.eqb_refl.
Qed.
Lemma send_response_aside p type code s : stack_ok s → (off p + 28 <= length (buf p))%nat →
  aside s (icmp_send_response ram link room mem p type code s).
Proof.
  intros Hs Hp. unfold icmp_send_response. destruct (option_cases room) as [Er|[junk Er]]; rewrite Er; [by exists s, []|].
  destruct (Nat.leb_spec (off p + 28) (length (buf p))); [|lia]. cbn [mbind option_bind].
  set (data := store_at 2 _ _). rewrite <- Er.
  pose proof (ram_pbuf_room ram room (PBUF_LINK_HLEN + PBUF_IP_HLEN) data Hroom ltac:(unfold PBUF_LINK_HLEN, PBUF_IP_HLEN; lia)) as Hq.
  destruct (ram_pbuf ram room _ data) as [q|]; [|congruence]. destruct Hq as (Hb & _ & Hl & _).
  cbn [mbind option_bind]. destruct (rd32_Some (off p + 12) (buf p)) as [x ->]; [lia|]. cbn [mbind option_bind].
  destruct (ip_output_total ram link q 0 x ICMP_TTL 0 IP_PROTO_ICMP mem s Hs ltac:(lia)) as (s' & evs & e & -> & Hev & Hp').
  cbn [mbind option_bind]. eexists _, _. split; [done|]. split; [|done].
  rewrite consumed_app, outputs_consume_nothing, Hb by done. unfold consumed. cbn.
  by rewrite (proj2 (Z.eqb_neq ram b)).
Qed.
Lemma echo_reply_aside p hlen src dest inp s : nif_ok inp → (hlen <= off p)%nat → (20 <= hlen)%nat → (8 <= len p)%nat →
  (off p + len p <= length (buf p))%nat → aside s (echo_reply ram link mem p hlen src dest inp s).
Proof.
  intros Hn Ho Hh Hl8 Hl. unfold echo_reply.
  destruct (wr_Some (off p - hlen + 12) (le32 dest) (buf p)) as (b1 & -> & L1); [cbn; lia|]. cbn [mbind option_bind].
  destruct (wr_Some (off p - hlen + 16) (le32 src) b1) as (b2 & -> & L2); [cbn; lia|]. cbn [mbind option_bind].
  destruct (wr_Some (off p) [ICMP_ER] b2) as (b3 & -> & L3); [cbn; lia|]. cbn [mbind option_bind].
  destruct (rd16_Some (off p + 2) b3) as [c ->]; [lia|]. cbn [mbind option_bind].
  destruct (wr_Some (off p + 2) (le16 (adjust_chksum c)) b3) as (b4 & -> & L4); [cbn; lia|]. cbn [mbind option_bind].
  destruct (wr_Some (off p - hlen + 8) [ICMP_TTL] b4) as (b5 & -> & L5); [cbn; lia|]. cbn [mbind option_bind].
  destruct (wr_Some (off p - hlen + 10) [0; 0] b5) as (b6 & -> & L6); [cbn; lia|]. cbn [mbind option_bind].
  set (c' := le16 (inet_chksum _ _)).
  destruct (wr_Some (off p - hlen + 10) c' b6) as (b7 & -> & L7); [cbn; lia|]. cbn [mbind option_bind].
  destruct (show_header hlen (with_buf b7 p)) as [q|] eqn:Es; [|by exists s, []].
  unfold show_header in Es. destruct (_ || _); [|done]. simplify_eq.
  destruct (ip_output_if_total ram link (with_payload (off p - hlen) (len p + hlen) (with_buf b7 p)) dest None ICMP_TTL 0
    IP_PROTO_ICMP inp mem s Hn) as (s' & evs & e & Ee & Hev & Hp'); [cbn; lia|cbn; lia|].
  cbn [with_buf off len] in *. rewrite Ee. cbn [mbind option_bind]. eexists _, _. split; [done|].
  by rewrite outputs_consume_nothing.
Qed.

Lemma echo_buffer_once p hlen : grows p = true → base p = b → more p = [] → (hlen <= off p)%nat →
  (off p + len p <= length (buf p))%nat →
  match echo_buffer ram room p hlen with
  | None => True
  | Some (q, evs) => (hlen <= off q)%nat ∧ len q = len p ∧ (off q + len q <= length (buf q))%nat ∧
      consumed b (evs ++ [EvFree (base q)]) = 1%nat
  end.
Proof.
  intros Hg Hb Hm Ho Hl. destruct (le_lt_dec 34 (off p)) as [H34|H34].
  { rewrite echo_buffer_same by done. split_and!; try done. rewrite Hb. unfold consumed. cbn. by rewrite Z.eqb_refl. }
  unfold echo_buffer, show_header. rewrite Hg. change (PBUF_IP_HLEN + PBUF_LINK_HLEN)%nat with 34%nat.
  destruct (Nat.leb_spec 34 (off p)); [lia|]. cbn [orb andb Nat.eqb].
  destruct (Nat.leb_spec hlen (off p)); [|lia]. rewrite orb_true_r. cbn [mbind option_bind].
  set (p' := with_payload (off p - hlen) (len p + hlen) p).
  pose proof (ram_pbuf_room ram room PBUF_LINK_HLEN (contents p') Hroom ltac:(unfold PBUF_LINK_HLEN; lia)) as Hr.
  destruct (ram_pbuf ram room _ (contents p')) as [r|]; [|done]. destruct Hr as (Rb & Rl & Rs & Ro & Rg & Rm).
  assert (Hc : length (contents p') = (len p + hlen)%nat).
  { unfold contents, payload, p'. cbn [with_payload buf off len more]. rewrite Hm. change (bytes_of []) with (@nil Z).
    rewrite app_nil_r. apply length_slice. lia. }
  cbn [mbind option_bind]. rewrite hide_header_Some by lia. cbn [mbind option_bind with_payload off len buf base].
  split; [lia|]. split; [lia|]. split; [lia|]. rewrite Rb. unfold p'. cbn [with_payload base]. rewrite Hb.
  unfold consumed. cbn. rewrite Z.eqb_refl. by rewrite (proj2 (Z.eqb_neq ram b)).
Qed.
Lemma icmp_input_once p src dest inp s t v : stack_ok s → nif_ok inp → grows p = true → base p = b → more p = [] →
  (off p + len p <= length (buf p))%nat → buf p !! off p = Some v → 5 <= Z.land v 15 → udp_rep (pcbs s) t →
  once t (icmp_input ram link room mem p src dest inp s).
Proof.
  intros Hs Hn Hg Hb Hm Hl Hv Hhl Hr. pose proof (once_free t s Hr) as Hfree.
  unfold icmp_input. change (rd8 (off p) (buf p) = Some v) in Hv. rewrite Hv. cbn [mbind option_bind]. rewrite Hb.
  set (hlen := Z.to_nat (Z.land v 15 * 4)). assert (Hh : (20 <= hlen)%nat) by lia. cbv zeta. unfold hide_header.
  destruct (Nat.leb_spec hlen (len p)); [|done]. set (q := with_payload (off p + hlen) (len p - hlen) p).
  assert (Htq : tot_len q = len q) by (unfold tot_len, q; cbn; rewrite Hm; cbn; lia).
  assert (Hlq : (off q + len q <= length (buf q))%nat) by (unfold q; cbn; lia).
  destruct (Nat.ltb_spec (tot_len q) 4); [done|].
  destruct (rd_Some (off q) (buf q)) as [ty ->]; [lia|]. cbn [mbind option_bind].
  destruct (ty =? ICMP_ER); [done|]. destruct (ty =? ICMP_ECHO); [|done]. destruct (_ || _); [done|].
  destruct (Nat.ltb_spec (tot_len q) SIZEOF_ECHO) as [|Hsz]; [done|]. destruct (negb _); [done|].
  pose proof (echo_buffer_once q hlen Hg Hb Hm ltac:(unfold q; cbn; lia) Hlq) as He.
  destruct (echo_buffer ram room q hlen) as [[q' evs]|]; [|done]. destruct He as (E1 & E2 & E3 & E4).
  unfold SIZEOF_ECHO in Hsz.
  destruct (echo_reply_aside q' hlen src dest inp s Hn E1 Hh ltac:(lia) E3) as (s' & evs' & -> & Hc & Hp').
  cbn [mbind option_bind]. exists s', (evs ++ evs' ++ [EvFree (base q')]), t. split; [done|]. split; [|by rewrite Hp'].
  rewrite !consumed_app in *. lia.
Qed.
Lemma udp_input_once p src dst inp s t v : stack_ok s → grows p = true → base p = b → more p = [] →
  (off p + len p <= length (buf p))%nat → buf p !! off p = Some v → 5 <= Z.land v 15 → udp_rep (pcbs s) t →
  (in_dhcp_pcb (n_view inp) = 0 ∨ in_dhcp_pcb (n_view inp) ∈ (bound t).*1) →
  once t (udp_input ram link room mem p src dst inp s).
Proof.
  intros Hs Hg Hb Hm Hl Hv Hhl Hr Hdh. pose proof (once_free t s Hr) as Hfree.
  unfold udp_input. change (rd8 (off p) (buf p) = Some v) in Hv. rewrite Hv. cbn [mbind option_bind]. rewrite Hb.
  set (hlen := Z.to_nat (Z.land v 15 * 4)). assert (Hh : (20 <= hlen)%nat) by lia. cbv zeta.
  destruct (Nat.ltb_spec (tot_len p) (hlen + UDP_HLEN)) as [|Ht]; [done|]. unfold hide_header at 1.
  destruct (Nat.leb_spec hlen (len p)); [|done]. set (q := with_payload (off p + hlen) (len p - hlen) p).
  assert (Htp : tot_len p = len p) by (unfold tot_len; rewrite Hm; cbn; lia).
  assert (Hlq : (off q + len q <= length (buf q))%nat) by (unfold q; cbn; lia). unfold UDP_HLEN in Ht.
  assert (H8 : (8 <= len q)%nat) by (unfold q; cbn; lia).
  destruct (rd16_Some (off q) (buf q)) as [sp ->]; [lia|]. cbn [mbind option_bind].
  destruct (rd16_Some (off q + 2) (buf q)) as [dp ->]; [lia|]. cbn [mbind option_bind].
  assert (Hdem : ∃ u' t' r, udp_demux dst (htons dp) src (htons sp) (n_view inp) (pcbs s) = Some (u', r) ∧
    udp_rep u' t' ∧ bound t' ≡ₚ bound t ∧ (r = 0 ∨ ∃ c, Udp.mem u' !! r = Some c)).
  { destruct (decide (htons dp = DHCP_CLIENT_PORT)) as [Ed|Ed].
    - unfold udp_demux. rewrite Ed, Z.eqb_refl. destruct (_ && _) eqn:Ea.
      2: { exists (pcbs s), t, 0. split; [done|]. split; [done|]. split; [done|by left]. }
      apply andb_true_iff in Ea as [_ Ea]. apply negb_true_iff, Z.eqb_neq in Ea. destruct Hdh as [|Hdh]; [done|].
      destruct (live_block (pcbs s) t (in_dhcp_pcb (n_view inp)) Hr) as (_ & _ & c & Hc); [unfold live; apply elem_of_app; by left|].
      rewrite Hc. cbn [mbind option_bind]. eexists (pcbs s), t, _. split; [done|]. split; [done|]. split; [done|].
      destruct (_ || _); [right; by exists c|by left].
    - destruct (udp_demux_receiver (ip4_addr_isbroadcast dst (n_view inp)) dst (htons dp) src (htons sp)
        (in_mask (n_view inp)) (n_view inp) (pcbs s) t Hr Ed eq_refl eq_refl) as (u' & t' & E & Hr' & _ & _ & Hperm).
      eexists u', t', _. split; [exact E|]. split; [done|]. split; [done|].
      assert (Hfind : ∀ f x, List.find f (bound t) = Some x → ∃ c, Udp.mem u' !! x.1 = Some c).
      { intros f x Hf. apply find_some in Hf as [Hin _]. apply list_elem_of_In in Hin. rewrite <- Hperm in Hin.
        destruct Hr' as (_ & _ & He & _). rewrite Forall_forall in He. destruct (He x) as (_ & c & Hc & _); [|by exists c].
        apply elem_of_app. by left. }
      unfold receiver. destruct (List.find _ (bound t)) as [x|] eqn:E1; [right; by eapply Hfind|].
      unfold first_addr. destruct (List.find (sock_open _ _ _ _) (bound t)) as [x|] eqn:E2; [right; by eapply Hfind|by left]. }
  destruct Hdem as (u' & t' & r & -> & Hr' & Hperm & Hrc). cbn [mbind option_bind].
  change (base q) with (base p). rewrite Hb.
  assert (Hfree' : ∀ s', pcbs s' = u' → once t (Some (s', [EvFree b]))).
  { intros s' <-. destruct (once_free t' s' Hr') as (? & ? & ? & ? & ? & ? & Hp). eexists _, _, _. split_and!; try done. by rewrite Hp. }
  destruct (negb (r =? 0) || _); [|by apply Hfree'].
  destruct (rd16_Some (off q + 6) (buf q)) as [ck ->]; [lia|]. cbn [mbind option_bind].
  destruct (negb (ck =? 0) && _); [by apply Hfree'|]. unfold hide_header.
  destruct (Nat.leb_spec UDP_HLEN (len q)); [|by apply Hfree']. set (q2 := with_payload (off q + UDP_HLEN) (len q - UDP_HLEN) q).
  change (base q2) with (base p). rewrite Hb.
  destruct (Z.eqb_spec r 0) as [->|Hr0]; cbn [negb].
  - assert (Ha : aside (with_pcbs u' s) (if negb (ip4_addr_isbroadcast dst (n_view inp)) && negb (ismulticast dst)
      then icmp_dest_unreach ram link room mem (default q2 (show_header (hlen + UDP_HLEN) q2)) ICMP_DUR_PORT (with_pcbs u' s)
      else Some (with_pcbs u' s, []))).
    { destruct (_ && _); [|by eexists _, []]. apply send_response_aside; [done|].
      unfold show_header. change (grows q2) with (grows p). rewrite Hg. cbn [andb].
      change (off q2) with (off p + hlen + UDP_HLEN)%nat.
      destruct (Nat.leb_spec (hlen + UDP_HLEN) (off p + hlen + UDP_HLEN)); [|lia].
      rewrite orb_true_r. cbn [default id with_payload off buf q2 q]. change (buf q2) with (buf p). lia. }
    destruct (once_after t' (with_pcbs u' s) _ Hr' Ha) as (? & ? & ? & E & Hc & Hu & Hp).
    eexists _, _, _. split; [exact E|]. split; [done|]. split; [done|]. by rewrite Hp.
  - destruct Hrc as [|[c Hc]]; [done|]. rewrite Hc. cbn [mbind option_bind].
    destruct (negb (recv c =? 0)); [|by apply Hfree'].
    eexists _, _, t'. split; [done|]. split; [|done]. unfold consumed. cbn. rewrite Hb. by rewrite Z.eqb_refl.
Qed.
Lemma raw_loop_once p proto dest prev l : base p = b →
  let '(_, evs, eaten) := raw_loop raw p proto dest prev l in consumed b evs = if eaten : bool then 1%nat else 0%nat.
Proof.
  intros Hb. revert prev. induction l as [|c l IH]; intros prev; [done|]. cbn [raw_loop].
  destruct (_ && _ && _); [|apply IH]. destruct (raw (r_recv c) p).
  - unfold consumed. cbn. by rewrite Hb, Z.eqb_refl.
  - specialize (IH (c :: prev)). destruct (raw_loop _ _ _ _ _ l) as [[l' evs] eaten]. exact IH.
Qed.
Lemma deliver_once p proto src dst inp s t v : stack_ok s → nif_ok inp → grows p = true → base p = b → more p = [] →
  (off p + len p <= length (buf p))%nat → (off p + 28 <= length (buf p))%nat →
  buf p !! off p = Some v → 5 <= Z.land v 15 → udp_rep (pcbs s) t →
  (in_dhcp_pcb (n_view inp) = 0 ∨ in_dhcp_pcb (n_view inp) ∈ (bound t).*1) →
  once t (deliver ram link raw room mem p proto src dst inp s).
Proof.
  intros Hs Hn Hg Hb Hm Hl H28 Hv Hhl Hr Hdh. unfold deliver.
  pose proof (raw_loop_once p proto dst [] (raw_pcbs s) Hb) as Hraw.
  destruct (raw_loop raw p proto dst [] (raw_pcbs s)) as [[l evs] eaten].
  destruct eaten; [eexists _, _, t; by split_and!|].
  assert (Hpre : ∀ r, once t r → once t ('(s, evs') ← r; Some (s, evs ++ evs'))).
  { intros r (s' & evs' & t' & -> & Hc & Hu & Hp). cbn [mbind option_bind]. eexists _, _, t'. split; [done|].
    rewrite consumed_app, Hraw, Hc. by split_and!. }
  apply Hpre. destruct (proto =? IP_PROTO_UDP); [by eapply udp_input_once|].
  destruct (proto =? IP_PROTO_TCP).
  { eexists _, _, t. split; [done|]. split; [|by split]. unfold consumed. cbn. by rewrite Hb, Z.eqb_refl. }
  destruct (proto =? IP_PROTO_ICMP); [by eapply icmp_input_once|]. rewrite Hb. apply (once_after t (with_raw l s)); [done|].
  destruct (_ && _); [by apply send_response_aside|by eexists _, []].
Qed.
End consumed.

(** C6: [ip_input] consumes every packet exactly once and stays inside its buffer.  For a
    packet received in one buffer that has at least 64 bytes behind the IP header's start
    and whose header claims at least five words, whatever else its bytes are (truncated,
    damaged, a fragment, an unknown protocol, for another station), whether memory for
    answers can be allocated or not, and whatever raw callbacks decide: no access leaves the
    buffers, every loop ends, the packet is freed once or handed over once (to a callback, to
    TCP or to reassembly), and the UDP table keeps its sockets. *)
Theorem ip_input_consumes_once `{StdChksum} ram link raw room k P inp s t v :
  ram ≠ base P → room_ok room → stack_ok s → nif_ok inp → grows P = true → more P = [] →
  (off P + len P <= length (buf P))%nat → (off P + 64 <= length (buf P))%nat →
  buf P !! off P = Some v → 5 <= Z.land v 15 → udp_rep (pcbs s) t →
  (in_dhcp_pcb (n_view inp) = 0 ∨ in_dhcp_pcb (n_view inp) ∈ (bound t).*1) →
  ∃ s' evs t', ip_input ram link raw room k P inp s = Some (s', evs) ∧ consumed (base P) evs = 1%nat ∧
    udp_rep (pcbs s') t' ∧ bound t' ≡ₚ bound t.
Proof.
  intros Hram Hroom Hs Hn Hg Hm Hl H64 Hv Hhl Hr Hdh. fold (once (base P) t (ip_input ram link raw room k P inp s)).
  pose proof (once_free (base P) t s Hr) as Hfree. unfold ip_input.
  change (rd8 (off P) (buf P) = Some v) in Hv. rewrite Hv. cbn [mbind option_bind].
  destruct (negb (Z.shiftr v 4 =? 4)); [done|]. destruct (rd16_Some (off P + 2) (buf P)) as [l ->]; [lia|].
  cbn [mbind option_bind]. set (hlen := Z.to_nat (Z.land v 15 * 4)).
  assert (Hv15 : Z.land v 15 <= 15).
  { change 15 with (Z.ones 4) at 1. rewrite Z.land_ones by lia. pose proof (Z.mod_pos_bound v (2 ^ 4)). lia. }
  assert (Hh : (20 <= hlen <= 60)%nat) by lia.
  destruct (_ || _) eqn:E; [done|]. apply orb_false_iff in E as [E1 E2]. apply Nat.ltb_ge in E1, E2.
  destruct (negb _); [done|]. set (q := pbuf_realloc P _).
  assert (Htl : tot_len P = len P) by (unfold tot_len; rewrite Hm; cbn; lia).
  assert (Hq : buf q = buf P ∧ base q = base P ∧ off q = off P ∧ grows q = true ∧ more q = [] ∧ (len q <= len P)%nat).
  { unfold q, pbuf_realloc. rewrite Htl. destruct (Nat.leb_spec (len P) (Z.to_nat (htons l))); [done|].
    destruct (Nat.ltb_spec (len P) (Z.to_nat (htons l))); [lia|]. cbn. split_and!; try done; lia. }
  destruct Hq as (Qb & Qa & Qo & Qg & Qm & Ql). cbv zeta. rewrite Qb.
  destruct (rd32_Some (off P + 16) (buf P)) as [dst ->]; [lia|]. cbn [mbind option_bind].
  destruct (rd32_Some (off P + 12) (buf P)) as [src ->]; [lia|]. cbn [mbind option_bind].
  destruct (rd_Some (off P + 9) (buf P)) as [proto ->]; [lia|]. cbn [mbind option_bind].
  assert (Hacc : ∃ nf chk, match accepted_on dst inp s with
      | Some n => Some (Some n, true)
      | None => if proto =? IP_PROTO_UDP then
                  port ← rd16 (off P + hlen + 2) (buf P);
                  Some (if port =? htons DHCP_CLIENT_PORT then (Some inp, false) else (None, true))
                else Some (None, true)
      end = Some (nf, chk)).
  { destruct (accepted_on dst inp s); [by eexists _, _|]. destruct (proto =? IP_PROTO_UDP); [|by eexists _, _].
    destruct (rd16_Some (off P + hlen + 2) (buf P)) as [port ->]; [lia|]. cbn [mbind option_bind].
    destruct (_ =? _); by eexists _, _. }
  destruct Hacc as (nf & chk & ->). cbn [mbind option_bind]. destruct (chk && _ && _); [done|].
  destruct nf as [nf|]; [|done]. destruct (rd16_Some (off P + 6) (buf P)) as [fr ->]; [lia|]. cbn [mbind option_bind].
  destruct (negb _).
  { exists s, [EvReass q], t. unfold consumed. cbn. rewrite Qa, Z.eqb_refl. by split. }
  apply (deliver_once ram (base P) link raw room k Hram Hroom q proto src dst inp s t v Hs Hn Qg Qa Qm);
    rewrite ?Qb, ?Qo; try done; lia.
Qed.
(** The ping in a buffer that goes on for forty bytes. *)
Lemma ip_input_consumes_once_witness :
  let p := ping (ping_header 32 0x0200a8c0 0x0100a8c0) (echo ICMP_ECHO 0 ping_sum ping_data) in
  let P := with_buf (buf p ++ repeat 0 40) p in
  ∃ s' evs t', ip_input 8192 (λ _ _ _, 0) (λ _ _, false) None 0 P server_if server = Some (s', evs) ∧
    consumed 65536 evs = 1%nat ∧ udp_rep (pcbs s') t' ∧ bound t' ≡ₚ bound server_table.
Proof.
  intros p P. apply (ip_input_consumes_once 8192 (λ _ _ _, 0) (λ _ _, false) None 0 P server_if server server_table 69).
  - discriminate.
  - exact I.
  - split; [constructor; [right; cbn; lia|constructor]|]. intros n [= <-]. right. cbn. lia.
  - right. cbn. lia.
  - done.
  - done.
  - vm_compute. lia.
  - vm_compute. lia.
  - by vm_compute.
  - by vm_compute.
  - exact server_pool_rep.
  - left. done.
Defined.
