(* ===== verification/IpReass.v ===== *)
(** * Reassembly of IP fragments ([LwIP/src/core/ipv4/ip_frag.c])

    Datagrams under reassembly are a list of [ip_reassdata] from a pool of five; the fragments
    of each are chained, ordered by their offset, through a helper structure that overlies the
    first eight bytes of the fragment's IP header (nobody reads those before the saved header
    is copied back over all twenty).  Pointers are addresses, 0 is NULL, and following one into
    memory that was freed is [None].

    The structures are shown to stand for lists of fragments ([rep]), on which [spec_reass] says
    what the code does and [ideal_reass] what it means to do; the two differ in the cases of
    [front_clash] and [missed_gap], and the examples at the end show both. *)
From S2P Require Import Prelude Chksum Udp Ip IpInput.

Definition IP_REASS_MAX_PBUFS : Z := 10.
Definition IP_REASS_MAXAGE : Z := 3.
Definition IP_REASS_FLAG_LASTFRAG : Z := 1.
Definition ICMP_TE : Z := 11.
Definition ICMP_TE_FRAG : Z := 1.

(* @ LwIP/src/include/ipv4/lwip/ip_frag.h:54-61 ip_reassdata *)
Record reassdata := Reassdata {
  g_next : Z; g_p : Z; g_iphdr : list Z; g_datagram_len : Z; g_flags : Z; g_timer : Z }.
(* @ LwIP/src/core/ipv4/ip_frag.c:90-94 ip_reass_helper *)
Record helper := Helper { next_pbuf : Z; h_start : Z; h_end : Z }.
(** The list's head, the count of buffers held, the structures in use and the free ones, and
    the buffers held with their helpers. *)
(* @ LwIP/src/core/ipv4/ip_frag.c:105-107 reassdatagrams *)
Record reass := Reass {
  reassdatagrams : Z; ip_reass_pbufcount : Z;
  g_mem : gmap Z reassdata; g_pool : list Z; g_frags : gmap Z (packet * helper) }.

Definition set_datagrams (x : Z) (r : reass) : reass :=
  Reass x (ip_reass_pbufcount r) (g_mem r) (g_pool r) (g_frags r).
Definition set_pbufcount (x : Z) (r : reass) : reass :=
  Reass (reassdatagrams r) x (g_mem r) (g_pool r) (g_frags r).
Definition put_data (a : Z) (d : reassdata) (r : reass) : reass :=
  Reass (reassdatagrams r) (ip_reass_pbufcount r) (<[a := d]> (g_mem r)) (g_pool r) (g_frags r).
Definition put_frag (a : Z) (f : packet * helper) (r : reass) : reass :=
  Reass (reassdatagrams r) (ip_reass_pbufcount r) (g_mem r) (g_pool r) (<[a := f]> (g_frags r)).
Definition drop_frag (a : Z) (r : reass) : reass :=
  Reass (reassdatagrams r) (ip_reass_pbufcount r) (g_mem r) (g_pool r) (delete a (g_frags r)).
Definition with_next (x : Z) (d : reassdata) : reassdata :=
  Reassdata x (g_p d) (g_iphdr d) (g_datagram_len d) (g_flags d) (g_timer d).
Definition with_p (x : Z) (d : reassdata) : reassdata :=
  Reassdata (g_next d) x (g_iphdr d) (g_datagram_len d) (g_flags d) (g_timer d).
Definition with_iphdr (x : list Z) (d : reassdata) : reassdata :=
  Reassdata (g_next d) (g_p d) x (g_datagram_len d) (g_flags d) (g_timer d).
Definition with_last (len flags : Z) (d : reassdata) : reassdata :=
  Reassdata (g_next d) (g_p d) (g_iphdr d) len flags (g_timer d).
Definition with_timer (x : Z) (d : reassdata) : reassdata :=
  Reassdata (g_next d) (g_p d) (g_iphdr d) (g_datagram_len d) (g_flags d) x.

(** The buffers of a packet, in 8 bits. *)
(* @ LwIP/src/core/pbuf.c:702-713 pbuf_clen *)
Definition clen (p : packet) : Z := u8 (Z.of_nat (S (length (more p)))).
(** Source, destination and identification agree. *)
(* @ LwIP/src/core/ipv4/ip_frag.c:100-103 IP_ADDRESSES_AND_ID_MATCH *)
Definition same_datagram (a b : list Z) : bool :=
  bool_decide (slice 12 4 a = slice 12 4 b) && bool_decide (slice 16 4 a = slice 16 4 b) &&
  bool_decide (slice 4 2 a = slice 4 2 b).
(** The first twenty bytes of a packet, and its fields there: offset and length of the data. *)
Definition fraghdr_of (p : packet) : option (list Z) :=
  if (off p + IP_HLEN <=? length (buf p))%nat then Some (slice (off p) IP_HLEN (buf p)) else None.
(* @ LwIP/src/core/ipv4/ip_frag.c:495-495 ip_reass *)
Definition frag_offset (h : list Z) : Z := u16 (Z.land (h_frag h) IP_OFFMASK * 8).
(* @ LwIP/src/core/ipv4/ip_frag.c:496-496 ip_reass *)
Definition frag_len (h : list Z) : Z := u16 (h_len h - Z.land (h !!! 0%nat) 15 * 4).

(** ** Giving up a datagram *)

(* @ LwIP/src/core/ipv4/ip_frag.c:301-317 ip_reass_dequeue_datagram *)
Definition ip_reass_dequeue_datagram (ipr prev : Z) (r : reass) : option reass :=
  d ← g_mem r !! ipr;
  r ← (if reassdatagrams r =? ipr then Some (set_datagrams (g_next d) r)
       else pd ← g_mem r !! prev; Some (put_data prev (with_next (g_next d) pd) r));
  Some (Reass (reassdatagrams r) (ip_reass_pbufcount r) (delete ipr (g_mem r)) (ipr :: g_pool r) (g_frags r)).

(** The chain from [p] is freed. *)
(* @ LwIP/src/core/ipv4/ip_frag.c:189-199 ip_reass_free_complete_datagram *)
Fixpoint free_chain (fuel : nat) (p freed : Z) (r : reass) : option (reass * list event * Z) :=
  if p =? 0 then Some (r, [], freed)
  else
    match fuel with
    | O => None
    | S fuel =>
      '(q, h) ← g_frags r !! p;
      '(r, evs, freed) ← free_chain fuel (next_pbuf h) (u16 (freed + clen q)) (drop_frag p r);
      Some (r, EvFree p :: evs, freed)
    end.

Section reass.
Context `{StdChksum}.
Variable ram : Z.
Variable link : nif → list Z → Z → Z.
Variable room : option (list Z).
Variable mem : nat.

(* @ LwIP/src/core/ipv4/icmp.c:273-277 icmp_time_exceeded *)
Definition icmp_time_exceeded (p : packet) (t : Z) (s : stack) : option (stack * list event) :=
  icmp_send_response ram link room mem p ICMP_TE t s.

(* @ LwIP/src/core/ipv4/ip_frag.c:155-206 ip_reass_free_complete_datagram *)
Definition ip_reass_free_complete_datagram (ipr prev : Z) (s : stack) (r : reass)
  : option (reass * stack * list event * Z) :=
  d ← g_mem r !! ipr;
  '(p, h) ← g_frags r !! g_p d;
  '(r, s, evs, first, freed) ←
    (if h_start h =? 0 then
       b ← wr (off p) (g_iphdr d) (buf p);
       '(s, evs) ← icmp_time_exceeded (with_buf b p) ICMP_TE_FRAG s;
       Some (drop_frag (g_p d) (put_data ipr (with_p (next_pbuf h) d) r), s, evs ++ [EvFree (g_p d)],
             next_pbuf h, u16 (clen p))
     else Some (r, s, [], g_p d, 0));
  '(r, evs', freed) ← free_chain (size (g_frags r)) first freed r;
  r ← ip_reass_dequeue_datagram ipr prev r;
  Some (set_pbufcount (u16 (ip_reass_pbufcount r - freed)) r, s, evs ++ evs', freed).

(** The walk that looks for the oldest datagram other than the fragment's: the oldest so far,
    [prev] as the code computes it, and the number of other datagrams. *)
(* @ LwIP/src/core/ipv4/ip_frag.c:231-250 ip_reass_remove_oldest_datagram *)
Fixpoint oldest_loop (fuel : nat) (fraghdr : list Z) (x oldest prev other : Z) (r : reass)
  : option (Z * Z * Z) :=
  if x =? 0 then Some (oldest, prev, other)
  else
    match fuel with
    | O => None
    | S fuel =>
      d ← g_mem r !! x;
      '(oldest, other) ←
        (if same_datagram (g_iphdr d) fraghdr then Some (oldest, other)
         else if oldest =? 0 then Some (x, other + 1)
         else o ← g_mem r !! oldest; Some (if g_timer d <=? g_timer o then x else oldest, other + 1));
      let prev := if negb (g_next d =? 0) then x else prev in
      oldest_loop fuel fraghdr (g_next d) oldest prev other r
    end.
(* @ LwIP/src/core/ipv4/ip_frag.c:218-257 ip_reass_remove_oldest_datagram *)
Fixpoint ip_reass_remove_oldest_datagram (fuel : nat) (fraghdr : list Z) (needed freed : Z)
    (s : stack) (r : reass) : option (reass * stack * list event * Z) :=
  match fuel with
  | O => None
  | S fuel =>
    '(oldest, prev, other) ← oldest_loop (S (size (g_mem r))) fraghdr (reassdatagrams r) 0 0 0 r;
    '(r, s, evs, current) ←
      (if negb (oldest =? 0) then ip_reass_free_complete_datagram oldest prev s r else Some (r, s, [], 0));
    let freed := freed + current in
    if (freed <? needed) && (1 <? other) then
      '(r, s, evs', freed) ← ip_reass_remove_oldest_datagram fuel fraghdr needed freed s r;
      Some (r, s, evs ++ evs', freed)
    else Some (r, s, evs, freed)
  end.

(** ** A new datagram *)
(* @ LwIP/src/core/ipv4/ip_frag.c:283-294 ip_reass_enqueue_new_datagram *)
Definition init_datagram (ipr : Z) (pool : list Z) (fraghdr : list Z) (r : reass) : reass :=
  Reass ipr (ip_reass_pbufcount r)
    (<[ipr := Reassdata (reassdatagrams r) 0 fraghdr 0 0 IP_REASS_MAXAGE]> (g_mem r)) pool (g_frags r).
(** The third component is the result, 0 for NULL. *)
(* @ LwIP/src/core/ipv4/ip_frag.c:266-295 ip_reass_enqueue_new_datagram *)
Definition ip_reass_enqueue_new_datagram (fraghdr : list Z) (n : Z) (s : stack) (r : reass)
  : option (reass * stack * list event * Z) :=
  match g_pool r with
  | ipr :: pool => Some (init_datagram ipr pool fraghdr r, s, [], ipr)
  | [] =>
    '(r, s, evs, freed) ← ip_reass_remove_oldest_datagram (S (size (g_mem r))) fraghdr n 0 s r;
    match g_pool r with
    | ipr :: pool => Some (if n <=? freed then (init_datagram ipr pool fraghdr r, s, evs, ipr) else (r, s, evs, 0))
    | [] => Some (r, s, evs, 0)
    end
  end.
End reass.

(** ** The place of a fragment *)
(** Where the walk over the chain ends. *)
Inductive place := Dropped | Before (q prev : Z) (valid : bool) | AtEnd (prev : Z) (valid : bool).
(* @ LwIP/src/core/ipv4/ip_frag.c:352-393 ip_reass_chain_frag_into_datagram_and_validate *)
Fixpoint place_loop (fuel : nat) (start end_ : Z) (q prev : Z) (valid : bool) (F : gmap Z (packet * helper))
  : option place :=
  if q =? 0 then Some (AtEnd prev valid)
  else
    match fuel with
    | O => None
    | S fuel =>
      '(_, t) ← F !! q;
      if start <? h_start t then
        if negb (prev =? 0) then
          '(_, hp) ← F !! prev;
          Some (if (start <? h_end hp) || (h_start t <? end_) then Dropped else Before q prev valid)
        else Some (Before q prev valid)
      else if start =? h_start t then Some Dropped
      else if start <? h_end t then Some Dropped
      else
        valid ← (if negb (prev =? 0) then '(_, hp) ← F !! prev; Some (if h_end hp =? h_start t then valid else false)
                 else Some valid);
        place_loop fuel start end_ (next_pbuf t) q valid F
    end.
(** From a fragment on, every one starts where the one before ends. *)
(* @ LwIP/src/core/ipv4/ip_frag.c:428-438 ip_reass_chain_frag_into_datagram_and_validate *)
Fixpoint no_holes (fuel : nat) (end_ q : Z) (F : gmap Z (packet * helper)) : option bool :=
  if q =? 0 then Some true
  else
    match fuel with
    | O => None
    | S fuel =>
      '(_, h) ← F !! q;
      if end_ =? h_start h then no_holes fuel (h_end h) (next_pbuf h) F else Some false
    end.
(** The fragment is chained in behind [prev], or as the first one of the datagram [a]. *)
(* @ LwIP/src/core/ipv4/ip_frag.c:358-414 ip_reass_chain_frag_into_datagram_and_validate *)
Definition link_new (a q : Z) (p : packet) (s e prev : Z) (d : reassdata) (r : reass) : option reass :=
  let r := put_frag (base p) (p, Helper q s e) r in
  if negb (prev =? 0)
  then '(pp, hp) ← g_frags r !! prev; Some (put_frag prev (pp, Helper (base p) (h_start hp) (h_end hp)) r)
  else Some (put_data a (with_p (base p) d) r).
(* @ LwIP/src/core/ipv4/ip_frag.c:328-465 ip_reass_chain_frag_into_datagram_and_validate *)
Definition ip_reass_chain_frag_into_datagram_and_validate (ipr : Z) (new_p : packet) (fraghdr : list Z)
    (r : reass) : option (reass * list event * bool) :=
  let offset := frag_offset fraghdr in
  let end_ := u16 (offset + frag_len fraghdr) in
  d ← g_mem r !! ipr;
  pl ← place_loop (S (size (g_frags r))) offset end_ (g_p d) 0 true (g_frags r);
  let dropped := Some (set_pbufcount (u16 (ip_reass_pbufcount r - clen new_p)) r, [EvFree (base new_p)], false) in
  match pl with
  | Dropped => dropped
  | Before _ _ _ | AtEnd _ _ =>
    '(q, prev, valid) ←
      match pl with
      | Before q prev valid => Some (q, prev, valid)
      | AtEnd prev valid =>
        if negb (prev =? 0) then '(_, hp) ← g_frags r !! prev; Some (0, prev, if h_end hp =? offset then valid else false)
        else Some (0, prev, valid)
      | Dropped => None
      end;
    r ← link_new ipr q new_p offset end_ prev d r;
    if negb (Z.land (g_flags d) IP_REASS_FLAG_LASTFRAG =? 0) then
      if valid : bool then
        d ← g_mem r !! ipr;
        '(_, h0) ← g_frags r !! g_p d;
        valid ← (if negb (h_start h0 =? 0) then Some false else no_holes (S (size (g_frags r))) end_ q (g_frags r));
        Some (r, [], valid)
      else Some (r, [], false)
    else Some (r, [], false)
  end.

(** ** Reassembly *)
(* @ LwIP/src/core/ipv4/ip_frag.c:518-529 ip_reass *)
Fixpoint find_datagram (fuel : nat) (fraghdr : list Z) (x prev : Z) (r : reass) : option (Z * Z) :=
  if x =? 0 then Some (0, prev)
  else
    match fuel with
    | O => None
    | S fuel =>
      d ← g_mem r !! x;
      if same_datagram (g_iphdr d) fraghdr then Some (x, prev) else find_datagram fuel fraghdr (g_next d) x r
    end.
(** The buffers from [q] on, without their headers; they leave the reassembly. *)
(* @ LwIP/src/core/ipv4/ip_frag.c:585-592 ip_reass *)
Fixpoint chain_rest (fuel : nat) (q : Z) (F : gmap Z (packet * helper))
  : option (list (Z * list Z) * gmap Z (packet * helper)) :=
  if q =? 0 then Some ([], F)
  else
    match fuel with
    | O => None
    | S fuel =>
      '(p, h) ← F !! q;
      let p' := default p (hide_header IP_HLEN p) in
      '(l, F) ← chain_rest fuel (next_pbuf h) (delete q F);
      Some (payloads p' ++ l, F)
    end.

(** The fragment is in a buffer whose header has the length [h]: the header is put back. *)
(* @ LwIP/src/core/ipv4/ip_frag.c:574-580 ip_reass *)
Definition restore_header `{StdChksum} (p : packet) (h : list Z) (n : Z) : option packet :=
  b ← wr (off p) h (buf p);
  b ← wr (off p + 2) (le16 (htons n)) b;
  b ← wr (off p + 6) [0; 0] b;
  b ← wr (off p + 10) [0; 0] b;
  b ← wr (off p + 10) (le16 (inet_chksum (base p + Z.of_nat (off p)) (slice (off p) IP_HLEN b))) b;
  Some (with_buf b p).
Definition with_more (l : list (Z * list Z)) (p : packet) : packet :=
  Packet (buf p) (base p) (off p) (len p) (grows p) (more p ++ l).
(** Lines 568 to 600: the datagram [ipr] is complete. *)
(* @ LwIP/src/core/ipv4/ip_frag.c:568-600 ip_reass *)
Definition finish_datagram `{StdChksum} (ipr prev : Z) (r : reass) : option (reass * packet) :=
  d ← g_mem r !! ipr;
  '(p, h) ← g_frags r !! g_p d;
  p ← restore_header p (g_iphdr d) (u16 (g_datagram_len d + 20));
  '(l, F) ← chain_rest (size (g_frags r)) (next_pbuf h) (delete (g_p d) (g_frags r));
  let p := with_more l p in
  r ← ip_reass_dequeue_datagram ipr prev
        (Reass (reassdatagrams r) (ip_reass_pbufcount r) (g_mem r) (g_pool r) F);
  Some (set_pbufcount (u16 (ip_reass_pbufcount r - clen p)) r, p).

(** Lines 538 to 562: the datagram is there; its header, length and flag are brought up to
    date. *)
(* @ LwIP/src/core/ipv4/ip_frag.c:538-562 ip_reass *)
Definition note_fragment (found : bool) (ipr : Z) (fraghdr : list Z) (n : Z) (r : reass) : option reass :=
  d ← g_mem r !! ipr;
  let d := if found && (Z.land (h_frag fraghdr) IP_OFFMASK =? 0) &&
              negb (Z.land (h_frag (g_iphdr d)) IP_OFFMASK =? 0) then with_iphdr fraghdr d else d in
  let d := if Z.land (h_frag fraghdr) IP_MF =? 0
           then with_last (u16 (frag_offset fraghdr + frag_len fraghdr))
                  (Z.lor (g_flags d) IP_REASS_FLAG_LASTFRAG) d
           else d in
  Some (put_data ipr d (set_pbufcount (u16 (ip_reass_pbufcount r + n)) r)).

(** The fragment [p] enters the datagram [ipr]; the last component is the complete packet. *)
(* @ LwIP/src/core/ipv4/ip_frag.c:538-604 ip_reass *)
Definition place_fragment `{StdChksum} (found : bool) (ipr prev : Z) (p : packet) (fraghdr : list Z) (r : reass)
  : option (reass * list event * option packet) :=
  r ← note_fragment found ipr fraghdr (clen p) r;
  '(r, evs, complete) ← ip_reass_chain_frag_into_datagram_and_validate ipr p fraghdr r;
  if complete : bool then '(r, p) ← finish_datagram ipr prev r; Some (r, evs, Some p)
  else Some (r, evs, None).

Section ip_reass.
Context `{StdChksum}.
Variable ram : Z.
Variable link : nif → list Z → Z → Z.
Variable raw_recv : Z → packet → bool.
Variable room : option (list Z).
Variable mem : nat.

(** Room for [n] more buffers; the boolean tells whether there is. *)
(* @ LwIP/src/core/ipv4/ip_frag.c:500-514 ip_reass *)
Definition make_room (fraghdr : list Z) (n : Z) (s : stack) (r : reass)
  : option (reass * stack * list event * bool) :=
  if IP_REASS_MAX_PBUFS <? ip_reass_pbufcount r + n then
    '(r, s, evs, freed) ← ip_reass_remove_oldest_datagram ram link room mem (S (size (g_mem r))) fraghdr n 0 s r;
    Some (r, s, evs, negb ((freed =? 0) || (IP_REASS_MAX_PBUFS <? ip_reass_pbufcount r + n)))
  else Some (r, s, [], true).
(** The last component is the result, [None] for NULL. *)
(* @ LwIP/src/core/ipv4/ip_frag.c:473-611 ip_reass *)
Definition ip_reass (p : packet) (s : stack) (r : reass)
  : option (reass * stack * list event * option packet) :=
  fraghdr ← fraghdr_of p;
  if negb (Z.land (fraghdr !!! 0%nat) 15 * 4 =? 20) then Some (r, s, [EvFree (base p)], None)
  else
    let n := clen p in
    '(r, s, evs, ok) ← make_room fraghdr n s r;
    if negb ok then Some (r, s, evs ++ [EvFree (base p)], None)
    else
      '(ipr, prev) ← find_datagram (S (size (g_mem r))) fraghdr (reassdatagrams r) 0 r;
      let found := negb (ipr =? 0) in
      '(r, s, evs', ipr) ←
        (if found then Some (r, s, [], ipr)
         else ip_reass_enqueue_new_datagram ram link room mem fraghdr n s r);
      if ipr =? 0 then Some (r, s, evs ++ evs' ++ [EvFree (base p)], None)
      else
        '(r, evs'', q) ← place_fragment found ipr prev p fraghdr r; Some (r, s, evs ++ evs' ++ evs'', q).

(** The timer, once a second. *)
(* @ LwIP/src/core/ipv4/ip_frag.c:125-143 ip_reass_tmr *)
Fixpoint tmr_loop (fuel : nat) (x prev : Z) (s : stack) (r : reass) : option (reass * stack * list event) :=
  if x =? 0 then Some (r, s, [])
  else
    match fuel with
    | O => None
    | S fuel =>
      d ← g_mem r !! x;
      if 0 <? g_timer d then tmr_loop fuel (g_next d) x s (put_data x (with_timer (g_timer d - 1) d) r)
      else
        '(r, s, evs, _) ← ip_reass_free_complete_datagram ram link room mem x prev s r;
        '(r, s, evs') ← tmr_loop fuel (g_next d) prev s r;
        Some (r, s, evs ++ evs')
    end.
(* @ LwIP/src/core/ipv4/ip_frag.c:119-144 ip_reass_tmr *)
Definition ip_reass_tmr (s : stack) (r : reass) : option (reass * stack * list event) :=
  tmr_loop (S (size (g_mem r))) (reassdatagrams r) 0 s r.

(** [ip_input] with reassembly: the addresses were taken from the fragment's header. *)
(* @ LwIP/src/core/ipv4/ip.c:506-604 ip_input *)
Definition ip_input_reass (p : packet) (inp : nif) (s : stack) (r : reass)
  : option (reass * stack * list event) :=
  '(s, evs) ← ip_input ram link raw_recv room mem p inp s;
  match evs with
  | [EvReass p] =>
    src ← rd32 (off p + 12) (buf p);
    dest ← rd32 (off p + 16) (buf p);
    '(r, s, evs, q) ← ip_reass p s r;
    match q with
    | None => Some (r, s, evs)
    | Some p =>
      proto ← rd8 (off p + 9) (buf p);
      '(s, evs') ← deliver ram link raw_recv room mem p proto src dest inp s;
      Some (r, s, evs ++ evs')
    end
  | _ => Some (r, s, evs)
  end.
(** Packets received one after the other. *)
Fixpoint receive (ps : list packet) (inp : nif) (s : stack) (r : reass) : option (reass * stack * list event) :=
  match ps with
  | [] => Some (r, s, [])
  | p :: ps =>
    '(r, s, evs) ← ip_input_reass p inp s r;
    '(r, s, evs') ← receive ps inp s r;
    Some (r, s, evs ++ evs')
  end.
End ip_reass.

(** At the start nothing is held and the five structures are free. *)
Definition reass_boot (pool : list Z) : reass := Reass 0 0 ∅ pool ∅.

(** ** What the structures stand for *)
Record frag := Frag { f_pkt : packet; f_start : Z; f_end : Z }.
Record dgram := Dgram { d_hdr : list Z; d_len : Z; d_flags : Z; d_timer : Z; d_frags : list frag }.
Definition f_base (f : frag) : Z := base (f_pkt f).
Definition bases (ds : list (Z * dgram)) : list Z := concat (map (λ x, map f_base (d_frags x.2)) ds).
Definition held (l : list frag) : Z := foldr (λ f n, clen (f_pkt f) + n) 0 l.
Definition held_all (ds : list (Z * dgram)) : Z := foldr (λ x n, held (d_frags x.2) + n) 0 ds.

(** The chain from [p] holds the fragments [l]. *)
Fixpoint fseg (F : gmap Z (packet * helper)) (p : Z) (l : list frag) : Prop :=
  match l with
  | [] => p = 0
  | f :: l => p = f_base f ∧ p ≠ 0 ∧ ∃ n, F !! p = Some (f_pkt f, Helper n (f_start f) (f_end f)) ∧ fseg F n l
  end.
(** The list from [x] holds the datagrams [ds], each with its address. *)
Fixpoint dseg (M : gmap Z reassdata) (F : gmap Z (packet * helper)) (x : Z) (ds : list (Z * dgram)) : Prop :=
  match ds with
  | [] => x = 0
  | (a, d) :: ds => x = a ∧ a ≠ 0 ∧ ∃ n p,
      M !! a = Some (Reassdata n p (d_hdr d) (d_len d) (d_flags d) (d_timer d)) ∧
      fseg F p (d_frags d) ∧ dseg M F n ds
  end.
(** A fragment's buffer goes on for a header and the eight bytes an error message quotes, and
    its buffers can be counted in 8 bits. *)
Definition pkt_ok (p : packet) : Prop := (off p + 28 <= length (buf p))%nat ∧ (length (more p) < 255)%nat.
Definition dgram_ok (d : dgram) : Prop := length (d_hdr d) = IP_HLEN ∧ Forall (λ f, pkt_ok (f_pkt f)) (d_frags d).
(** Memory holds [ds] and nothing else, [pool] is free, and the buffers, and [x] more, are
    counted. *)
Record core (x : Z) (r : reass) (pool : list Z) (ds : list (Z * dgram)) : Prop := {
  c_seg : dseg (g_mem r) (g_frags r) (reassdatagrams r) ds;
  c_pool : g_pool r = pool;
  c_nodup : NoDup (ds.*1 ++ pool);
  c_null : 0 ∉ pool;
  c_bases : NoDup (bases ds);
  c_mem : ∀ a, is_Some (g_mem r !! a) → a ∈ ds.*1;
  c_frags : ∀ a, is_Some (g_frags r !! a) → a ∈ bases ds;
  c_ok : Forall (λ x, dgram_ok x.2) ds;
  c_count : ip_reass_pbufcount r = x + held_all ds }.
Definition rep (r : reass) (pool : list Z) (ds : list (Z * dgram)) : Prop :=
  core 0 r pool ds ∧ Forall (λ x, d_frags x.2 ≠ []) ds.

Lemma rep_boot pool : NoDup pool → 0 ∉ pool → rep (reass_boot pool) pool [].
Proof.
  intros Hp H0. split; [split; try done; cbn|done].
  - constructor.
  - intros a [x Hx]. by rewrite lookup_empty in Hx.
  - intros a [x Hx]. by rewrite lookup_empty in Hx.
Qed.

Lemma fseg_frame F F' p l : (∀ a, a ∈ map f_base l → F' !! a = F !! a) → fseg F p l → fseg F' p l.
Proof.
  revert p. induction l as [|f l IH]; intros p Hf; [done|]. intros (-> & H0 & n & Hn & Hl).
  split; [done|]. split; [done|]. exists n. split.
  - rewrite Hf; [done|]. apply list_elem_of_here.
  - apply IH; [|done]. intros a Ha. apply Hf. by apply list_elem_of_further.
Qed.
Lemma dseg_frame M M' F F' x ds : (∀ a, a ∈ ds.*1 → M' !! a = M !! a) →
  (∀ a, a ∈ bases ds → F' !! a = F !! a) → dseg M F x ds → dseg M' F' x ds.
Proof.
  revert x. induction ds as [|[a d] ds IH]; intros x HM HF; [done|]. intros (-> & H0 & n & p & Ha & Hp & Hds).
  split; [done|]. split; [done|]. exists n, p. split; [|split].
  - rewrite HM; [done|]. apply list_elem_of_here.
  - eapply fseg_frame; [|done]. intros b Hb. apply HF. cbn. apply elem_of_app. by left.
  - apply IH; [| |done].
    + intros b Hb. apply HM. by apply list_elem_of_further.
    + intros b Hb. apply HF. cbn. apply elem_of_app. by right.
Qed.
Lemma fseg_app F p l1 l2 : fseg F p (l1 ++ l2) → ∃ q, fseg F q l2 ∧ (l1 = [] → q = p).
Proof.
  revert p. induction l1 as [|f l1 IH]; intros p H; [by exists p|]. destruct H as (_ & _ & n & _ & H).
  destruct (IH n H) as (q & Hq & _). by exists q.
Qed.
Lemma fseg_in F p l f : fseg F p l → f ∈ l → f_base f ≠ 0 ∧ ∃ n, F !! f_base f = Some (f_pkt f, Helper n (f_start f) (f_end f)).
Proof.
  revert p. induction l as [|g l IH]; intros p; [by intros _ ?%elem_of_nil|]. intros (-> & H0 & n & Hn & Hl).
  intros [->|Hf]%elem_of_cons; [by eauto|by eapply IH].
Qed.
Lemma fseg_head F p f l : fseg F p (f :: l) → p = f_base f.
Proof. by intros []. Qed.
Lemma fseg_nonnull F p l : fseg F p l → l ≠ [] → p ≠ 0.
Proof. destruct l; [done|]. by intros (_ & ? & _). Qed.
Lemma dseg_in M F x ds a d : dseg M F x ds → (a, d) ∈ ds →
  a ≠ 0 ∧ ∃ n p, M !! a = Some (Reassdata n p (d_hdr d) (d_len d) (d_flags d) (d_timer d)) ∧ fseg F p (d_frags d).
Proof.
  revert x. induction ds as [|[b e] ds IH]; intros x; [by intros _ ?%elem_of_nil|].
  intros (-> & H0 & n & p & Ha & Hp & Hds). intros [[= -> ->]|Hf]%elem_of_cons; [by eauto|by eapply IH].
Qed.
(** Lists in memory are no longer than the memory. *)
Lemma bounded {A} (m : gmap Z A) l : NoDup l → (∀ a, a ∈ l → is_Some (m !! a)) → (length l <= size m)%nat.
Proof.
  intros Hn Hm. rewrite <- size_dom. rewrite <- (size_list_to_set l (C := gset Z)) by done.
  apply subseteq_size. intros a Ha%elem_of_list_to_set. by apply elem_of_dom, Hm.
Qed.
Lemma core_length x r pool ds : core x r pool ds → (length ds <= size (g_mem r))%nat.
Proof.
  intros R. rewrite <- (length_map fst). apply bounded.
  - pose proof (c_nodup _ _ _ _ R) as H. by apply NoDup_app in H as [H _].
  - intros a Ha. apply list_elem_of_fmap in Ha as ([b d] & -> & Hd).
    destruct (dseg_in _ _ _ _ _ _ (c_seg _ _ _ _ R) Hd) as (_ & n & p & Hb & _). by eexists.
Qed.
Lemma bases_in ds a d f : (a, d) ∈ ds → f ∈ d_frags d → f_base f ∈ bases ds.
Proof.
  intros Hd Hf. unfold bases. apply list_elem_of_In, in_concat. exists (map f_base (d_frags d)). split.
  - apply (in_map (λ x, map f_base (d_frags x.2)) ds (a, d)). by apply list_elem_of_In.
  - by apply in_map, list_elem_of_In.
Qed.
Lemma bases_app ds1 ds2 : bases (ds1 ++ ds2) = bases ds1 ++ bases ds2.
Proof. unfold bases. by rewrite map_app, concat_app. Qed.
Lemma frags_length x r pool ds a d : core x r pool ds → (a, d) ∈ ds → (length (d_frags d) <= size (g_frags r))%nat.
Proof.
  intros R Hd. rewrite <- (length_map f_base). apply bounded.
  - pose proof (c_bases _ _ _ _ R) as H. apply list_elem_of_split in Hd as (l1 & l2 & ->).
    rewrite bases_app in H. apply NoDup_app in H as (_ & _ & H). cbn in H. by apply NoDup_app in H as (H & _).
  - intros b Hb. apply list_elem_of_fmap in Hb as (f & -> & Hf).
    destruct (dseg_in _ _ _ _ _ _ (c_seg _ _ _ _ R) Hd) as (_ & n & p & _ & Hp).
    destruct (fseg_in _ _ _ _ Hp Hf) as (_ & k & Hb). by eexists.
Qed.

(** ** Reassembly on lists *)
(** The fragments before and after the place of a new one, and whether no hole was seen up to
    there; [None] if it overlaps. *)
Fixpoint spec_place (start end_ : Z) (prev : option frag) (valid : bool) (l : list frag)
  : option (list frag * list frag * bool) :=
  match l with
  | [] => Some ([], [], valid)
  | t :: l =>
    if start <? f_start t then
      match prev with
      | Some f => if (start <? f_end f) || (f_start t <? end_) then None else Some ([], t :: l, valid)
      | None => Some ([], t :: l, valid)
      end
    else if start =? f_start t then None
    else if start <? f_end t then None
    else
      let valid := match prev with Some f => if f_end f =? f_start t then valid else false | None => valid end in
      '(l1, l2, valid) ← spec_place start end_ (Some t) valid l; Some (t :: l1, l2, valid)
  end.
Fixpoint spec_no_holes (end_ : Z) (l : list frag) : bool :=
  match l with
  | [] => true
  | f :: l => if end_ =? f_start f then spec_no_holes (f_end f) l else false
  end.
Definition with_frags (l : list frag) (d : dgram) : dgram := Dgram (d_hdr d) (d_len d) (d_flags d) (d_timer d) l.
(** A fragment enters its datagram: the new datagram, the events, and whether it is complete. *)
Definition spec_add (p : packet) (h : list Z) (d : dgram) : dgram * list event * bool :=
  let start := frag_offset h in
  let end_ := u16 (start + frag_len h) in
  match spec_place start end_ None true (d_frags d) with
  | None => (d, [EvFree (base p)], false)
  | Some (l1, l2, valid) =>
    let valid := match l2, last l1 with [], Some f => if f_end f =? start then valid else false | _, _ => valid end in
    let l := l1 ++ Frag p start end_ :: l2 in
    (with_frags l d, [],
     negb (Z.land (d_flags d) IP_REASS_FLAG_LASTFRAG =? 0) && valid &&
     match l with f :: _ => f_start f =? 0 | [] => false end && spec_no_holes end_ l2)
  end.
Definition spec_note (found : bool) (h : list Z) (d : dgram) : dgram :=
  let hdr := if found && (Z.land (h_frag h) IP_OFFMASK =? 0) && negb (Z.land (h_frag (d_hdr d)) IP_OFFMASK =? 0)
             then h else d_hdr d in
  if Z.land (h_frag h) IP_MF =? 0
  then Dgram hdr (u16 (frag_offset h + frag_len h)) (Z.lor (d_flags d) IP_REASS_FLAG_LASTFRAG) (d_timer d) (d_frags d)
  else Dgram hdr (d_len d) (d_flags d) (d_timer d) (d_frags d).
(** The packet put together. *)
Definition spec_packet `{StdChksum} (d : dgram) : option packet :=
  match d_frags d with
  | [] => None
  | f :: l => p ← restore_header (f_pkt f) (d_hdr d) (u16 (d_len d + 20));
              Some (with_more (concat (map (λ f, payloads (default (f_pkt f) (hide_header IP_HLEN (f_pkt f)))) l)) p)
  end.

(** *** The loops *)
Definition frag_ref (F : gmap Z (packet * helper)) (prev : Z) (o : option frag) : Prop :=
  match o with
  | None => prev = 0
  | Some f => prev = f_base f ∧ prev ≠ 0 ∧ ∃ n, F !! prev = Some (f_pkt f, Helper n (f_start f) (f_end f))
  end.
Lemma no_holes_spec F fuel e q l : fseg F q l → (length l < fuel)%nat → no_holes fuel e q F = Some (spec_no_holes e l).
Proof.
  revert e q l. induction fuel as [|fuel IH]; intros e q l Hl Hf; [lia|].
  destruct l as [|f l]; [by cbn in Hl; subst|]. destruct Hl as (-> & H0 & n & Hn & Hl).
  cbn [no_holes spec_no_holes]. rewrite (proj2 (Z.eqb_neq _ 0) H0), Hn. cbn [mbind option_bind h_start h_end next_pbuf].
  destruct (e =? f_start f); [|done]. apply IH; [done|]. cbn in Hf. lia.
Qed.
Definition last_base (prev : Z) (l : list frag) : Z := match last l with Some f => f_base f | None => prev end.
Lemma last_base_cons prev f l : last_base prev (f :: l) = last_base (f_base f) l.
Proof. unfold last_base. destruct l as [|g l]; [done|]. change (last (f :: g :: l)) with (last (g :: l)).
  destruct (last (g :: l)) eqn:E; [done|]. by apply last_None in E. Qed.
(** The walk ends at the place. *)
Lemma place_loop_spec F fuel start end_ q prev pf valid l : fseg F q l → frag_ref F prev pf → (length l < fuel)%nat →
  place_loop fuel start end_ q prev valid F = Some
    match spec_place start end_ pf valid l with
    | None => Dropped
    | Some (l1, [], v) => AtEnd (last_base prev l1) v
    | Some (l1, t :: _, v) => Before (f_base t) (last_base prev l1) v
    end.
Proof.
  revert q prev pf valid l. induction fuel as [|fuel IH]; intros q prev pf valid l Hl Hp Hf; [lia|].
  destruct l as [|t l]; [by cbn in Hl; subst|]. destruct Hl as (-> & H0 & n & Hn & Hl).
  cbn [place_loop spec_place]. rewrite (proj2 (Z.eqb_neq _ 0) H0), Hn. cbn [mbind option_bind h_start h_end next_pbuf].
  assert (Hrec : ∀ v, place_loop fuel start end_ n (f_base t) v F = Some
    match spec_place start end_ (Some t) v l with
    | None => Dropped
    | Some (l1, [], v) => AtEnd (last_base (f_base t) l1) v
    | Some (l1, u :: _, v) => Before (f_base u) (last_base (f_base t) l1) v
    end).
  { intros v. apply IH; [done| |cbn in Hf; lia]. split; [done|]. split; [done|]. by exists n. }
  assert (Hend : ∀ v, match spec_place start end_ (Some t) v l with
    | None => Dropped
    | Some (l1, [], v) => AtEnd (last_base (f_base t) l1) v
    | Some (l1, u :: _, v) => Before (f_base u) (last_base (f_base t) l1) v
    end = match ('(l1, l2, valid) ← spec_place start end_ (Some t) v l; Some (t :: l1, l2, valid)) with
    | None => Dropped
    | Some (l1, [], v) => AtEnd (last_base prev l1) v
    | Some (l1, u :: _, v) => Before (f_base u) (last_base prev l1) v
    end).
  { intros v. destruct (spec_place start end_ (Some t) v l) as [[[l1 [|u l2]] v']|]; [| |done];
      cbn [mbind option_bind]; by rewrite last_base_cons. }
  destruct pf as [f|].
  - destruct Hp as (-> & Hp0 & k & Hk). rewrite (proj2 (Z.eqb_neq _ 0) Hp0), Hk. cbn [negb mbind option_bind h_start h_end].
    destruct (start <? f_start t); [by destruct (_ || _)|]. destruct (start =? f_start t); [done|].
    destruct (start <? f_end t); [done|]. by rewrite Hrec, Hend.
  - cbn in Hp. subst prev. cbn [Z.eqb negb mbind option_bind].
    destruct (start <? f_start t); [done|]. destruct (start =? f_start t); [done|].
    destruct (start <? f_end t); [done|]. by rewrite Hrec, Hend.
Qed.
Lemma spec_place_app start end_ pf valid l l1 l2 v : spec_place start end_ pf valid l = Some (l1, l2, v) → l = l1 ++ l2.
Proof.
  revert pf valid l1. induction l as [|t l IH]; intros pf valid l1; cbn [spec_place]; [by intros [= <- <- _]|].
  destruct (start <? f_start t).
  { destruct pf; [destruct (_ || _); [done|]|]; by intros [= <- <- _]. }
  destruct (start =? f_start t); [done|]. destruct (start <? f_end t); [done|].
  destruct (spec_place start end_ (Some t) _ l) as [[[m1 m2] w]|] eqn:E; [|done]. cbn [mbind option_bind].
  intros [= <- <- <-]. by rewrite (IH _ _ _ E).
Qed.

(** Linking a new fragment in. *)
Lemma fseg_link F q q2 b n l1 l2 f0 l0 : l1 = l0 ++ [f0] → fseg F q (l1 ++ l2) → fseg F q2 l2 →
  NoDup (map f_base (l1 ++ l2)) → f_base n = b → b ≠ 0 → b ∉ map f_base (l1 ++ l2) →
  fseg (<[f_base f0 := (f_pkt f0, Helper b (f_start f0) (f_end f0))]> (<[b := (f_pkt n, Helper q2 (f_start n) (f_end n))]> F))
    q (l1 ++ n :: l2).
Proof.
  intros -> Hl Hq2 Hnd Hb Hb0 Hnb. revert q Hl Hnd Hnb. induction l0 as [|f l0 IH]; intros q Hl Hnd Hnb.
  - cbn [app map] in *. apply NoDup_cons in Hnd as [Hf0 Hnd].
    destruct Hl as (-> & H0 & k & Hk & Hl). assert (Hne : f_base f0 ≠ b).
    { intros E. apply Hnb. rewrite <- E. apply list_elem_of_here. }
    split; [done|]. split; [done|]. exists b. split; [by rewrite lookup_insert_eq|].
    split; [done|]. split; [done|]. exists q2. split.
    { rewrite lookup_insert_ne by done. by rewrite lookup_insert_eq. }
    eapply fseg_frame; [|exact Hq2]. intros a Ha. rewrite lookup_insert_ne by (by intros <-).
    apply lookup_insert_ne. intros <-. apply Hnb. by apply list_elem_of_further.
  - cbn [app map] in *. apply NoDup_cons in Hnd as [Hf Hnd]. apply not_elem_of_cons in Hnb as [Hnb1 Hnb].
    destruct Hl as (-> & H0 & k & Hk & Hl). split; [done|]. split; [done|]. exists k. split; [|by apply IH].
    rewrite lookup_insert_ne; [by rewrite lookup_insert_ne|]. intros E. apply Hf. rewrite <- E, map_app.
    apply elem_of_app. left. rewrite map_app. apply elem_of_app. right. apply list_elem_of_here.
Qed.
Lemma chain_rest_spec F fuel q l : fseg F q l → NoDup (map f_base l) → (length l <= fuel)%nat →
  ∃ F', chain_rest fuel q F =
      Some (concat (map (λ f, payloads (default (f_pkt f) (hide_header IP_HLEN (f_pkt f)))) l), F') ∧
    (∀ a, a ∉ map f_base l → F' !! a = F !! a) ∧ (∀ a, a ∈ map f_base l → F' !! a = None).
Proof.
  revert F q l. induction fuel as [|fuel IH]; intros F q l Hl Hnd Hf.
  { destruct l; [|cbn in Hf; lia]. cbn in Hl. subst. exists F. split; [done|]. split; [done|]. by intros a ?%elem_of_nil. }
  destruct l as [|f l].
  { cbn in Hl. subst. exists F. split; [done|]. split; [done|]. by intros a ?%elem_of_nil. }
  destruct Hl as (-> & H0 & n & Hn & Hl). cbn [map] in Hnd. apply NoDup_cons in Hnd as [Hfl Hnd].
  cbn [chain_rest]. rewrite (proj2 (Z.eqb_neq _ 0) H0), Hn. cbn [mbind option_bind next_pbuf].
  destruct (IH (delete (f_base f) F) n l) as (F' & -> & H1 & H2); [|done|cbn in Hf; lia|].
  { eapply fseg_frame; [|exact Hl]. intros a Ha. apply lookup_delete_ne. by intros <-. }
  cbn [mbind option_bind]. exists F'. split; [done|]. cbn [map]. split.
  - intros a [Ha1 Ha2]%not_elem_of_cons. rewrite H1 by done. by apply lookup_delete_ne.
  - intros a [->|Ha]%elem_of_cons; [|by apply H2]. rewrite H1 by done. apply lookup_delete_eq.
Qed.

(** *** The list of datagrams *)
Definition data_of (n p : Z) (d : dgram) : reassdata :=
  Reassdata n p (d_hdr d) (d_len d) (d_flags d) (d_timer d).
Definition last_addr (prev : Z) (ds : list (Z * dgram)) : Z :=
  match last ds with Some x => x.1 | None => prev end.
Lemma last_addr_cons prev x ds : last_addr prev (x :: ds) = last_addr x.1 ds.
Proof.
  unfold last_addr. destruct ds as [|y ds]; [done|]. change (last (x :: y :: ds)) with (last (y :: ds)).
  destruct (last (y :: ds)) eqn:E; [done|]. by apply last_None in E.
Qed.
Lemma dseg_split M F x pre a d post : dseg M F x (pre ++ (a, d) :: post) →
  a ≠ 0 ∧ ∃ n p, M !! a = Some (data_of n p d) ∧ fseg F p (d_frags d) ∧ dseg M F n post ∧ (pre = [] → x = a).
Proof.
  revert x. induction pre as [|[b e] pre IH]; intros x.
  - intros (-> & H0 & n & p & Ha & Hp & Hd). split; [done|]. by exists n, p.
  - intros (_ & _ & n & _ & _ & _ & Hd). destruct (IH n Hd) as (H0 & n' & p & H1 & H2 & H3 & _).
    split; [done|]. by exists n', p.
Qed.
Lemma dseg_alter M F F' x pre a d d' post n p p' : dseg M F x (pre ++ (a, d) :: post) →
  M !! a = Some (data_of n p d) → a ∉ pre.*1 → a ∉ post.*1 →
  (∀ b, b ∈ bases pre ++ bases post → F' !! b = F !! b) → fseg F' p' (d_frags d') →
  dseg (<[a := data_of n p' d']> M) F' x (pre ++ (a, d') :: post).
Proof.
  revert x. induction pre as [|[b e] pre IH]; intros x.
  - intros (-> & H0 & n' & p0 & Ha & Hp & Hd) HM _ Hpost HF Hp'. assert (n' = n) as -> by (unfold data_of in HM; congruence).
    split; [done|]. split; [done|]. exists n, p'. split; [by rewrite lookup_insert_eq|]. split; [done|].
    eapply dseg_frame; [| |exact Hd].
    + intros b Hb. apply lookup_insert_ne. by intros <-.
    + intros b Hb. by apply HF.
  - intros (-> & H0 & n' & p0 & Ha & Hp & Hd) HM Hpre Hpost HF Hp'. cbn in Hpre.
    apply not_elem_of_cons in Hpre as [Hne Hpre].
    split; [done|]. split; [done|]. exists n', p0. split; [by rewrite lookup_insert_ne|]. split.
    + eapply fseg_frame; [|exact Hp]. intros c Hc. apply HF. cbn. apply elem_of_app. left. apply elem_of_app. by left.
    + apply IH; try done. intros c Hc. apply HF. cbn. rewrite <- app_assoc. apply elem_of_app. by right.
Qed.
Lemma dseg_unlink M F x pre a d post n p : dseg M F x (pre ++ (a, d) :: post) → M !! a = Some (data_of n p d) →
  NoDup (pre.*1 ++ a :: post.*1) →
  match last pre with
  | None => x = a ∧ dseg (delete a M) F n (pre ++ post)
  | Some (b, e) => x ≠ a ∧ ∃ pd, M !! b = Some pd ∧ dseg (delete a (<[b := with_next n pd]> M)) F x (pre ++ post)
  end.
Proof.
  intros Hd HM Hnd.
  assert (Hpost : ∀ M', (∀ c, c ∈ post.*1 → M' !! c = M !! c) → dseg M' F n post).
  { intros M' Hf. destruct (dseg_split _ _ _ _ _ _ _ Hd) as (_ & n' & p' & HM' & _ & Hp & _).
    assert (n' = n) as -> by (unfold data_of in *; congruence). by eapply dseg_frame. }
  apply NoDup_app in Hnd as (Hpre & Hdis & Hnd). apply NoDup_cons in Hnd as [Ha _].
  revert x Hd Hpre Hdis. induction pre as [|[b e] pre IH]; intros x Hd Hpre Hdis.
  { cbn. destruct Hd as (-> & _). split; [done|]. apply Hpost. intros c Hc. apply lookup_delete_ne. by intros <-. }
  destruct Hd as (-> & H0 & n' & p0 & Hb & Hp & Hd). cbn in Hpre. apply NoDup_cons in Hpre as [Hbpre Hpre].
  assert (Hba : b ≠ a). { intros ->. apply (Hdis a); [apply list_elem_of_here|apply list_elem_of_here]. }
  destruct pre as [|y pre].
  - cbn [last]. split; [done|]. eexists. split; [exact Hb|]. split; [done|]. split; [done|].
    exists n, p0. split; [by rewrite lookup_delete_ne, lookup_insert_eq|]. split; [done|].
    apply Hpost. intros c Hc. rewrite lookup_delete_ne by (by intros <-). apply lookup_insert_ne.
    intros <-. apply (Hdis b); [apply list_elem_of_here|by apply list_elem_of_further].
  - specialize (IH n' Hd Hpre). change (last ((b, e) :: y :: pre)) with (last (y :: pre)).
    destruct (last (y :: pre)) as [[b' e']|] eqn:El; [|by apply last_None in El].
    destruct IH as (_ & pd & Hpd & Hseg); [intros c Hc; apply Hdis; by apply list_elem_of_further|].
    split; [done|]. exists pd. split; [done|]. split; [done|]. split; [done|]. exists n', p0.
    split; [|by split]. assert (Hbb : b ≠ b').
    { intros ->. apply Hbpre. apply list_elem_of_fmap. exists (b', e'). split; [done|].
      apply last_Some in El as [k ->]. apply elem_of_app. right. apply list_elem_of_here. }
    by rewrite lookup_delete_ne, lookup_insert_ne.
Qed.
(** What [find_datagram] finds. *)
Definition matches (h : list Z) (x : Z * dgram) : bool := same_datagram (d_hdr x.2) h.
Lemma find_datagram_spec F fuel h x prev r ds : dseg (g_mem r) F x ds → (length ds < fuel)%nat →
  (Forall (λ x, matches h x = false) ds ∧ ∃ pr, find_datagram fuel h x prev r = Some (0, pr)) ∨
  (∃ pre a d post, ds = pre ++ (a, d) :: post ∧ Forall (λ x, matches h x = false) pre ∧ matches h (a, d) = true ∧
     find_datagram fuel h x prev r = Some (a, last_addr prev pre)).
Proof.
  revert x prev ds. induction fuel as [|fuel IH]; intros x prev ds Hd Hf; [lia|].
  destruct ds as [|[a d] ds]; [left; cbn in Hd; subst; by eauto|].
  destruct Hd as (-> & H0 & n & p & Ha & Hp & Hd). cbn [find_datagram].
  rewrite (proj2 (Z.eqb_neq _ 0) H0), Ha. cbn [mbind option_bind g_iphdr g_next].
  destruct (same_datagram (d_hdr d) h) eqn:E.
  { right. exists [], a, d, ds. by split_and!. }
  destruct (IH n a ds Hd) as [[Hno Hfd]|(pre & b & e & post & -> & Hno & Hm & Hfd)]; [cbn in Hf; lia| |].
  - left. split; [by constructor|done].
  - right. exists ((a, d) :: pre), b, e, post. rewrite last_addr_cons. split_and!; try done. by constructor.
Qed.

(** *** One fragment *)
Lemma clen_bound p : 0 <= clen p < 256.
Proof. unfold clen, u8. apply Z.mod_pos_bound. lia. Qed.
Lemma held_nonneg l : 0 <= held l.
Proof. induction l as [|f l IH]; cbn; [lia|]. pose proof (clen_bound (f_pkt f)). unfold held in IH. lia. Qed.
Lemma held_app l1 l2 : held (l1 ++ l2) = held l1 + held l2.
Proof. induction l1 as [|f l1 IH]; [done|]. cbn. unfold held in IH. rewrite IH. unfold held. lia. Qed.
Lemma held_cons f l : held (f :: l) = clen (f_pkt f) + held l.
Proof. done. Qed.
Lemma held_all_cons x ds : held_all (x :: ds) = held (d_frags x.2) + held_all ds.
Proof. done. Qed.
Lemma held_all_app ds1 ds2 : held_all (ds1 ++ ds2) = held_all ds1 + held_all ds2.
Proof. induction ds1 as [|f l1 IH]; [done|]. cbn. unfold held_all in IH. rewrite IH. unfold held_all. lia. Qed.
Lemma held_all_nonneg ds : 0 <= held_all ds.
Proof. induction ds as [|x ds IH]; cbn; [lia|]. pose proof (held_nonneg (d_frags x.2)). unfold held_all in IH. lia. Qed.
Lemma bases_mid pre a d post : bases (pre ++ (a, d) :: post) = bases pre ++ map f_base (d_frags d) ++ bases post.
Proof. rewrite bases_app. done. Qed.
Lemma core_split x r pool pre a d post : core x r pool (pre ++ (a, d) :: post) →
  a ≠ 0 ∧ a ∉ pre.*1 ∧ a ∉ post.*1 ∧ NoDup (map f_base (d_frags d)) ∧
  (∀ b, b ∈ map f_base (d_frags d) → b ∉ bases pre ++ bases post) ∧
  ∃ n p, g_mem r !! a = Some (data_of n p d) ∧ fseg (g_frags r) p (d_frags d).
Proof.
  intros R. destruct (dseg_split _ _ _ _ _ _ _ (c_seg _ _ _ _ R)) as (H0 & n & p & Ha & Hp & _).
  pose proof (c_nodup _ _ _ _ R) as Hn. rewrite fmap_app in Hn. apply NoDup_app in Hn as (Hn & _ & _).
  apply NoDup_app in Hn as (_ & Hd & Hn). cbn in Hn. apply NoDup_cons in Hn as [Hpost _].
  pose proof (c_bases _ _ _ _ R) as Hb. rewrite bases_mid in Hb.
  apply NoDup_app in Hb as (_ & Hb1 & Hb). apply NoDup_app in Hb as (Hb2 & Hb3 & _).
  split; [done|]. split; [intros Hin; apply (Hd a Hin); apply list_elem_of_here|]. split; [done|]. split; [done|].
  split; [|by exists n, p].
  intros b Hbd [Hbp|Hbp]%elem_of_app; [|by apply (Hb3 b)]. apply (Hb1 b Hbp). apply elem_of_app. by left.
Qed.
Lemma place_link F pp q l1 l2 n : fseg F pp (l1 ++ l2) → fseg F q l2 → NoDup (map f_base (l1 ++ l2)) →
  f_base n ≠ 0 → f_base n ∉ map f_base (l1 ++ l2) →
  let F1 := <[f_base n := (f_pkt n, Helper q (f_start n) (f_end n))]> F in
  match last l1 with
  | None => fseg F1 (f_base n) (l1 ++ n :: l2) ∧ fseg F1 q l2
  | Some f0 => ∃ k, F !! f_base f0 = Some (f_pkt f0, Helper k (f_start f0) (f_end f0)) ∧ f_base f0 ≠ 0 ∧ f_base f0 ≠ f_base n ∧
      let F2 := <[f_base f0 := (f_pkt f0, Helper (f_base n) (f_start f0) (f_end f0))]> F1 in
      fseg F2 pp (l1 ++ n :: l2) ∧ fseg F2 q l2
  end.
Proof.
  intros Hl Hq Hnd H0 Hn F1. rewrite map_app in Hn. assert (Hq1 : fseg F1 q l2).
  { eapply fseg_frame; [|exact Hq]. intros b Hb. apply lookup_insert_ne. intros <-. apply Hn, elem_of_app. by right. }
  destruct (last l1) as [f0|] eqn:El.
  - apply last_Some in El as [l0 ->].
    assert (Hin : f_base f0 ∈ map f_base (l0 ++ [f0])) by (rewrite map_app; apply elem_of_app; right; apply list_elem_of_here).
    destruct (fseg_in _ _ _ f0 Hl) as (Hf0 & k & Hk).
    { apply elem_of_app. left. apply elem_of_app. right. apply list_elem_of_here. }
    assert (Hne : f_base f0 ≠ f_base n). { intros E. apply Hn. rewrite <- E. apply elem_of_app. by left. }
    exists k. split; [done|]. split; [done|]. split; [done|]. split.
    + unfold F1. eapply fseg_link; try done. by rewrite map_app.
    + eapply fseg_frame; [|exact Hq1]. intros b Hb. apply lookup_insert_ne. intros <-.
      rewrite map_app in Hnd. apply NoDup_app in Hnd as (_ & Hd & _). by apply (Hd (f_base f0)).
  - apply last_None in El as ->. split; [|done]. split; [done|]. split; [done|]. exists q.
    split; [by apply lookup_insert_eq|done].
Qed.
Lemma core_mem_bound x r pool pre a d post d' (M : gmap Z reassdata) : core x r pool (pre ++ (a, d) :: post) →
  (∀ b, is_Some (M !! b) → b = a ∨ is_Some (g_mem r !! b)) →
  ∀ b, is_Some (M !! b) → b ∈ (pre ++ (a, d') :: post).*1.
Proof.
  intros R HM b Hb. destruct (HM b Hb) as [->|Hb'].
  - rewrite fmap_app. apply elem_of_app. right. apply list_elem_of_here.
  - apply (c_mem _ _ _ _ R) in Hb'. by rewrite fmap_app in *.
Qed.
(** A fragment is put in its place: the datagram [d] becomes [d'], whose chain starts at
    [p']. *)
Lemma core_replace x y r r' pool pre a d d' post n p p' :
  core x r pool (pre ++ (a, d) :: post) → g_mem r !! a = Some (data_of n p d) →
  g_mem r' = <[a := data_of n p' d']> (g_mem r) → g_pool r' = pool → reassdatagrams r' = reassdatagrams r →
  fseg (g_frags r') p' (d_frags d') → NoDup (map f_base (d_frags d')) → dgram_ok d' →
  (∀ b, b ∈ bases pre ++ bases post → g_frags r' !! b = g_frags r !! b ∧ b ∉ map f_base (d_frags d')) →
  (∀ b, is_Some (g_frags r' !! b) → b ∈ map f_base (d_frags d') ∨ b ∈ bases pre ++ bases post) →
  ip_reass_pbufcount r' = y + held_all (pre ++ (a, d') :: post) →
  core y r' pool (pre ++ (a, d') :: post).
Proof.
  intros R Ha HM Hpool Hhd Hseg Hnd Hok Hfr Hdom Hcnt. destruct (core_split _ _ _ _ _ _ _ R) as (H0 & Hpre & Hpost & _).
  split.
  - rewrite HM, Hhd. eapply (dseg_alter (g_mem r) (g_frags r)); [apply (c_seg _ _ _ _ R)|exact Ha|done|done| |done]. intros b Hb. by apply Hfr.
  - done.
  - pose proof (c_nodup _ _ _ _ R) as H. by rewrite fmap_app in *.
  - apply R.
  - pose proof (c_bases _ _ _ _ R) as H. rewrite bases_mid in *. apply NoDup_app in H as (H1 & H2 & H3).
    apply NoDup_app in H3 as (_ & _ & H3). apply NoDup_app. split; [done|]. split.
    + intros b Hb [Hb'|Hb']%elem_of_app.
      * by apply (Hfr b); [apply elem_of_app; left|].
      * apply (H2 b Hb). apply elem_of_app. by right.
    + apply NoDup_app. split; [done|]. split; [|done]. intros b Hb Hb'. apply (Hfr b); [apply elem_of_app; by right|done].
  - apply (core_mem_bound _ _ _ _ _ _ _ _ _ R). intros b. rewrite HM. destruct (decide (b = a)) as [->|]; [by left|].
    rewrite lookup_insert_ne by done. by right.
  - intros b Hb. rewrite bases_mid. destruct (Hdom b Hb) as [?|[?|?]%elem_of_app]; rewrite !elem_of_app; tauto.
  - pose proof (c_ok _ _ _ _ R) as H. apply Forall_app in H as [H1 H2]. apply Forall_app. split; [done|].
    apply Forall_cons in H2 as [_ H2]. by constructor.
  - done.
Qed.
(** The code's place, with its links around it. *)
Lemma place_around F pp q l1 l2 s v : fseg F pp (l1 ++ l2) → fseg F q l2 →
  match (match l2 with [] => AtEnd (last_base 0 l1) v | t :: _ => Before (f_base t) (last_base 0 l1) v end) with
  | Before q prev valid => Some (q, prev, valid)
  | AtEnd prev valid =>
    if negb (prev =? 0) then '(_, hp) ← F !! prev; Some (0, prev, if h_end hp =? s then valid else false)
    else Some (0, prev, valid)
  | Dropped => None
  end = Some (q, last_base 0 l1,
    match l2, last l1 with [], Some f => if f_end f =? s then v else false | _, _ => v end).
Proof.
  intros Hl Hq. destruct l2 as [|t l2]; [|by rewrite (fseg_head _ _ _ _ Hq)]. cbn in Hq. subst q.
  unfold last_base. destruct (last l1) as [f0|] eqn:E; [|done]. apply last_Some in E as [l0 ->].
  destruct (fseg_in _ _ _ f0 Hl) as (Hf0 & k & Hk).
  { rewrite app_nil_r. apply elem_of_app. right. apply list_elem_of_here. }
  rewrite (proj2 (Z.eqb_neq _ 0) Hf0), Hk. done.
Qed.
Lemma link_new_spec r a n pp q p s e l1 l2 d : g_mem r !! a = Some (data_of n pp d) →
  fseg (g_frags r) pp (l1 ++ l2) → fseg (g_frags r) q l2 → NoDup (map f_base (l1 ++ l2)) →
  base p ≠ 0 → base p ∉ map f_base (l1 ++ l2) →
  let l := l1 ++ Frag p s e :: l2 in
  ∃ r' p', link_new a q p s e (last_base 0 l1) (data_of n pp d) r = Some r' ∧
    g_mem r' = <[a := data_of n p' (with_frags l d)]> (g_mem r) ∧
    fseg (g_frags r') p' l ∧ fseg (g_frags r') q l2 ∧ g_pool r' = g_pool r ∧
    reassdatagrams r' = reassdatagrams r ∧ ip_reass_pbufcount r' = ip_reass_pbufcount r ∧
    (∀ b, b ≠ base p → b ∉ map f_base (l1 ++ l2) → g_frags r' !! b = g_frags r !! b).
Proof.
  intros Ha Hp Hq Hnd H0 Hb l. pose proof (place_link _ _ q l1 l2 (Frag p s e) Hp Hq Hnd H0 Hb) as Hlink. cbv zeta in Hlink.
  change (f_base (Frag p s e)) with (base p) in Hlink. cbn [f_pkt f_start f_end] in Hlink.
  unfold link_new, last_base. destruct (last l1) as [f0|] eqn:El.
  - destruct Hlink as (k & Hk & Hf0 & Hne & Hs1 & Hs2). rewrite (proj2 (Z.eqb_neq _ 0) Hf0). cbn [negb put_frag g_frags].
    rewrite lookup_insert_ne by done. rewrite Hk. cbn [mbind option_bind h_start h_end].
    eexists _, pp. split; [done|]. cbn [put_frag g_mem g_frags g_pool reassdatagrams ip_reass_pbufcount].
    split; [symmetry; by apply insert_id|]. split_and!; try done.
    intros b Hbp Hbl. rewrite !lookup_insert_ne; [done|done|]. intros <-. apply Hbl.
    apply last_Some in El as [l0 ->]. rewrite !map_app. apply elem_of_app. left. apply elem_of_app. right. apply list_elem_of_here.
  - destruct Hlink as (Hs1 & Hs2). eexists _, (base p). split; [done|].
    cbn [put_data put_frag g_mem g_frags g_pool reassdatagrams ip_reass_pbufcount].
    split_and!; try done. intros b Hbp _. by apply lookup_insert_ne.
Qed.
Lemma core_linked r r' pool pre a d post n pp p' l1 l2 p s e : let l := l1 ++ Frag p s e :: l2 in
  core (clen p) r pool (pre ++ (a, d) :: post) → g_mem r !! a = Some (data_of n pp d) →
  d_frags d = l1 ++ l2 → base p ∉ bases (pre ++ (a, d) :: post) → pkt_ok p →
  g_mem r' = <[a := data_of n p' (with_frags l d)]> (g_mem r) → fseg (g_frags r') p' l →
  g_pool r' = g_pool r → reassdatagrams r' = reassdatagrams r → ip_reass_pbufcount r' = ip_reass_pbufcount r →
  (∀ b, b ≠ base p → b ∉ map f_base (l1 ++ l2) → g_frags r' !! b = g_frags r !! b) →
  core 0 r' pool (pre ++ (a, with_frags l d) :: post).
Proof.
  intros l R Ha El Hb Hok M2 S2 P2 D2 C2 F2. destruct (core_split _ _ _ _ _ _ _ R) as (_ & _ & _ & Hnd & Hdis & _).
  rewrite El in Hnd, Hdis. rewrite bases_mid, El, !not_elem_of_app in Hb. destruct Hb as (Hb1 & Hb2 & Hb3).
  assert (El' : map f_base l ≡ₚ base p :: map f_base (l1 ++ l2)) by (unfold l; rewrite !map_app; cbn; by rewrite Permutation_middle).
  assert (Hokd : Forall (λ f, pkt_ok (f_pkt f)) (l1 ++ l2) ∧ length (d_hdr d) = IP_HLEN).
  { pose proof (c_ok _ _ _ _ R) as HF. rewrite Forall_forall in HF. destruct (HF (a, d)) as [H1 H2]; [|by rewrite <- El].
    apply elem_of_app. right. apply list_elem_of_here. }
  destruct Hokd as [Hfr Hhdr]. apply Forall_app in Hfr as [Hfr1 Hfr2].
  apply (core_replace _ 0 r r' pool pre a d _ post n pp p' R Ha M2); try done.
  - rewrite P2. apply R.
  - cbn [with_frags d_frags]. rewrite El'. by apply NoDup_cons.
  - split; [done|]. cbn [with_frags d_frags]. apply Forall_app. split; [done|]. by constructor.
  - intros b Hbb. assert (b ≠ base p) by (intros ->; apply elem_of_app in Hbb as [|]; done).
    assert (b ∉ map f_base (l1 ++ l2)) by (intros Hbl; by apply (Hdis b)).
    split; [by apply F2|]. cbn [with_frags d_frags]. by rewrite El', not_elem_of_cons.
  - intros b Hb. cbn [with_frags d_frags]. rewrite El', elem_of_cons.
    destruct (decide (b = base p)); [tauto|]. destruct (decide (b ∈ map f_base (l1 ++ l2))); [tauto|].
    rewrite F2 in Hb by done. apply (c_frags _ _ _ _ R) in Hb. rewrite bases_mid, El in Hb. rewrite !elem_of_app in *. tauto.
  - rewrite C2, (c_count _ _ _ _ R), !held_all_app, !held_all_cons. cbn [snd with_frags d_frags]. rewrite El.
    unfold l. rewrite !held_app, held_cons. cbn [f_pkt]. lia.
Qed.
Lemma not_dropped {A} (x y : A) pl : pl ≠ Dropped →
  match pl with Dropped => x | Before _ _ _ | AtEnd _ _ => y end = y.
Proof. by destruct pl. Qed.
Lemma core_add r pool pre a d post p h d' evs c :
  core (clen p) r pool (pre ++ (a, d) :: post) → base p ≠ 0 → base p ∉ bases (pre ++ (a, d) :: post) → pkt_ok p →
  held_all (pre ++ (a, d) :: post) < 65536 → spec_add p h d = (d', evs, c) →
  ∃ r', ip_reass_chain_frag_into_datagram_and_validate a p h r = Some (r', evs, c) ∧
    core 0 r' pool (pre ++ (a, d') :: post).
Proof.
  intros R H0 Hb Hok Hheld. destruct (core_split _ _ _ _ _ _ _ R) as (Ha0 & _ & _ & Hnd & _ & n & pp & Ha & Hp).
  pose proof (frags_length _ _ _ _ a d R ltac:(apply elem_of_app; right; apply list_elem_of_here)) as Hlen.
  pose proof (c_count _ _ _ _ R) as Hcnt. pose proof (held_all_nonneg (pre ++ (a, d) :: post)) as Hh0.
  unfold ip_reass_chain_frag_into_datagram_and_validate, spec_add. rewrite Ha. cbn [mbind option_bind data_of g_p g_flags].
  set (s := frag_offset h). set (e := u16 (s + frag_len h)).
  rewrite (place_loop_spec _ _ _ _ _ _ None _ _ Hp eq_refl) by lia. cbn [mbind option_bind].
  destruct (spec_place s e None true (d_frags d)) as [[[l1 l2] v]|] eqn:Epl.
  2: { intros [= <- <- <-]. eexists. split; [done|]. destruct R. split; try done. cbn. rewrite Hcnt, u16_small by lia. lia. }
  pose proof (spec_place_app _ _ _ _ _ _ _ _ Epl) as El.
  destruct (fseg_app (g_frags r) pp l1 l2) as (q & Hq & _); [by rewrite <- El|].
  pose proof Hb as Hb'. rewrite bases_mid, !not_elem_of_app in Hb'. destruct Hb' as (_ & Hb2 & _).
  rewrite El in Hp, Hnd, Hb2.
  destruct (link_new_spec r a n pp q p s e l1 l2 d Ha Hp Hq Hnd H0 Hb2) as (r2 & p2 & Es & M2 & S2 & Sq2 & P2 & D2 & C2 & F2).
  assert (Hcore : core 0 r2 pool (pre ++ (a, with_frags (l1 ++ Frag p s e :: l2) d) :: post)) by (by eapply core_linked).
  pose proof (place_around (g_frags r) pp q l1 l2 s v Hp Hq) as Hpl.
  set (v2 := match l2, last l1 with [], Some f => if f_end f =? s then v else false | _, _ => v end) in *.
  intros Hspec. exists r2. assert (Hd' : d' = with_frags (l1 ++ Frag p s e :: l2) d ∧ evs = []) by (by injection Hspec as <- <- _).
  destruct Hd' as [-> ->]. split; [|done].
  rewrite not_dropped by (by destruct l2). rewrite Hpl. cbn [mbind option_bind]. rewrite Es. cbn [mbind option_bind].
  injection Hspec as <-. destruct (negb (Z.land (d_flags d) _ =? 0)); [|done]. destruct v2; [|done]. cbn [andb].
  rewrite M2, lookup_insert_eq. cbn [mbind option_bind data_of g_p].
  pose proof (frags_length _ _ _ _ a _ Hcore ltac:(apply elem_of_app; right; apply list_elem_of_here)) as Hlen2.
  cbn [with_frags d_frags] in Hlen2. rewrite length_app in Hlen2. cbn [length] in Hlen2.
  destruct (l1 ++ Frag p s e :: l2) as [|f l] eqn:E; [by destruct l1|].
  destruct S2 as (-> & _ & k & Hk & _). rewrite Hk. cbn [mbind option_bind h_start].
  destruct (f_start f =? 0); [|done]. cbn [negb]. by rewrite (no_holes_spec _ _ _ _ l2) by (done || lia).
Qed.

(** *** A complete datagram *)
Lemma store_at_sub o k xs h b : (o + length h <= length b)%nat → (k + length xs <= length h)%nat →
  store_at (o + k) xs (store_at o h b) = store_at o (store_at k xs h) b.
Proof.
  intros Hb Hk. assert (Ho : length (take o b) = o) by (rewrite length_take; lia).
  assert (E : store_at o h b = take o b ++ h ++ drop (o + length h) b) by done.
  assert (E' : store_at o (store_at k xs h) b = take o b ++ store_at k xs h ++ drop (o + length h) b).
  { transitivity (take o b ++ store_at k xs h ++ drop (o + length (store_at k xs h)) b); [done|].
    by rewrite length_store_at by lia. }
  rewrite E', E. unfold store_at. rewrite (take_app_ge (take o b)) by lia. rewrite (drop_app_ge (take o b)) by lia. rewrite Ho.
  replace (o + k - o)%nat with k by lia. replace (o + k + length xs - o)%nat with (k + length xs)%nat by lia.
  rewrite take_app_le by lia. rewrite drop_app_le by lia. by rewrite <- !app_assoc.
Qed.
(** The saved header with the length [n], no offset and its checksum. *)
Definition restored `{StdChksum} (a : Z) (h : list Z) (n : Z) : list Z :=
  let h := store_at 10 [0; 0] (store_at 6 [0; 0] (store_at 2 (le16 (htons n)) h)) in
  store_at 10 (le16 (inet_chksum a h)) h.
Lemma length_store_same k xs h n : length h = n → (k + length xs <= n)%nat → length (store_at k xs h) = n.
Proof. intros <- ?. by apply length_store_at. Qed.
Lemma restore_header_spec `{StdChksum} p h n : (off p + IP_HLEN <= length (buf p))%nat → length h = IP_HLEN →
  restore_header p h n =
    Some (with_buf (store_at (off p) (restored (base p + Z.of_nat (off p)) h n) (buf p)) p).
Proof.
  intros Hp Hh. unfold restore_header, IP_HLEN in *.
  assert (Hwr : ∀ k xs l, length l = 20%nat → (k + length xs <= 20)%nat →
    wr (off p + k) xs (store_at (off p) l (buf p)) = Some (store_at (off p) (store_at k xs l) (buf p))).
  { intros k xs l Hl Hk. unfold wr. rewrite length_store_at by lia.
    destruct (Nat.leb_spec (off p + k + length xs) (length (buf p))); [|lia]. rewrite store_at_sub by lia. done. }
  assert (H1 : length (store_at 2 (le16 (htons n)) h) = 20%nat) by (apply length_store_same; cbn; lia).
  assert (H2 : length (store_at 6 [0; 0] (store_at 2 (le16 (htons n)) h)) = 20%nat) by (apply length_store_same; cbn; lia).
  assert (H3 : length (store_at 10 [0; 0] (store_at 6 [0; 0] (store_at 2 (le16 (htons n)) h))) = 20%nat)
    by (apply length_store_same; cbn; lia).
  assert (E0 : wr (off p) h (buf p) = Some (store_at (off p) h (buf p))).
  { unfold wr. rewrite Hh. by destruct (Nat.leb_spec (off p + 20) (length (buf p))); [|lia]. }
  rewrite E0. cbn [mbind option_bind].
  rewrite Hwr by (done || (cbn; lia)). cbn [mbind option_bind]. rewrite Hwr by (done || (cbn; lia)). cbn [mbind option_bind].
  rewrite Hwr by (done || (cbn; lia)). cbn [mbind option_bind].
  assert (Es : ∀ l, length l = 20%nat → slice (off p) 20 (store_at (off p) l (buf p)) = l).
  { intros l Hl. rewrite <- Hl at 1. apply slice_store_at. lia. }
  rewrite Es by done. by rewrite Hwr by (done || (cbn; lia)).
Qed.
Lemma length_chained l : Forall (λ f, pkt_ok (f_pkt f)) l → 
  Z.of_nat (length (concat (map (λ f, payloads (default (f_pkt f) (hide_header IP_HLEN (f_pkt f)))) l))) = held l.
Proof.
  induction 1 as [|f l [_ Hf] _ IH]; [done|]. cbn [map concat]. rewrite length_app, held_cons, Nat2Z.inj_add, IH. f_equal.
  unfold clen. assert (E : length (payloads (default (f_pkt f) (hide_header IP_HLEN (f_pkt f)))) = S (length (more (f_pkt f)))).
  { unfold payloads, hide_header. by destruct (_ <=? _)%nat. }
  rewrite E. unfold u8. rewrite Z.mod_small; lia.
Qed.
(** What is left when a datagram has gone from the list, from memory and from the buffers. *)
Lemma core_removed x r F M hd pool pre a d post : core x r pool (pre ++ (a, d) :: post) →
  (∀ b, b ∈ map f_base (d_frags d) → F !! b = None) → (∀ b, b ∉ map f_base (d_frags d) → F !! b = g_frags r !! b) →
  dseg M (g_frags r) hd (pre ++ post) → (∀ b, is_Some (M !! b) → b ≠ a ∧ is_Some (g_mem r !! b)) →
  core (x + held (d_frags d)) (Reass hd (ip_reass_pbufcount r) M (a :: g_pool r) F) (a :: pool) (pre ++ post).
Proof.
  intros R F1 F2 HM Hdom. destruct (core_split _ _ _ _ _ _ _ R) as (Ha0 & _ & _ & _ & Hdis & _).
  split; cbn [reassdatagrams ip_reass_pbufcount g_mem g_pool g_frags].
  - eapply dseg_frame; [done| |exact HM]. intros b Hb. apply F2. intros Hbd. rewrite bases_app in Hb. by apply (Hdis b).
  - f_equal. apply R.
  - pose proof (c_nodup _ _ _ _ R) as Hn. rewrite fmap_app, <- app_assoc in *. by rewrite <- (Permutation_middle post.*1).
  - rewrite not_elem_of_cons. split; [done|apply R].
  - pose proof (c_bases _ _ _ _ R) as H. rewrite bases_mid in H. rewrite bases_app.
    apply NoDup_app in H as (H1 & H2 & H3). apply NoDup_app in H3 as (_ & _ & H3). apply NoDup_app.
    split; [done|]. split; [|done]. intros b Hb Hb'. apply (H2 b Hb). apply elem_of_app. by right.
  - intros b [Hne Hb]%Hdom. apply (c_mem _ _ _ _ R) in Hb. rewrite fmap_app in *. cbn in Hb.
    rewrite elem_of_app, elem_of_cons in Hb. rewrite elem_of_app. tauto.
  - intros b Hb. destruct (decide (b ∈ map f_base (d_frags d))) as [Hd|Hd].
    + rewrite F1 in Hb by done. by destruct Hb.
    + rewrite F2 in Hb by done. apply (c_frags _ _ _ _ R) in Hb. rewrite bases_mid in Hb. rewrite bases_app.
      rewrite !elem_of_app in *. tauto.
  - pose proof (c_ok _ _ _ _ R) as H. apply Forall_app in H as [H1 H2]. apply Forall_cons in H2 as [_ H2]. by apply Forall_app.
  - rewrite (c_count _ _ _ _ R), !held_all_app, held_all_cons. cbn [snd]. lia.
Qed.
Lemma lookup_delete_Some' {A} (m : gmap Z A) a b : is_Some (delete a m !! b) → b ≠ a ∧ is_Some (m !! b).
Proof.
  destruct (decide (b = a)) as [->|Hne]; [rewrite lookup_delete_eq; by intros []|].
  by rewrite lookup_delete_ne by done.
Qed.
(** Taking a datagram out of the list, its buffers gone. *)
Lemma core_dequeue x r F pool pre a d post prev0 n p p' :
  core x r pool (pre ++ (a, d) :: post) → g_mem r !! a = Some (data_of n p d) →
  (∀ b, b ∈ map f_base (d_frags d) → F !! b = None) →
  (∀ b, b ∉ map f_base (d_frags d) → F !! b = g_frags r !! b) →
  ∃ r', ip_reass_dequeue_datagram a (last_addr prev0 pre)
      (Reass (reassdatagrams r) (ip_reass_pbufcount r) (<[a := data_of n p' d]> (g_mem r)) (g_pool r) F) = Some r' ∧
    ip_reass_pbufcount r' = ip_reass_pbufcount r ∧
    core (x + held (d_frags d)) r' (a :: pool) (pre ++ post).
Proof.
  intros R Ha F1 F2. destruct (core_split _ _ _ _ _ _ _ R) as (_ & Hpre & _).
  assert (Hn : NoDup (pre.*1 ++ a :: post.*1)).
  { pose proof (c_nodup _ _ _ _ R) as Hn. rewrite fmap_app in Hn. by apply NoDup_app in Hn as (Hn & _). }
  pose proof (dseg_unlink _ _ _ _ _ _ _ n p (c_seg _ _ _ _ R) Ha Hn) as Hun.
  unfold ip_reass_dequeue_datagram. cbn [g_mem reassdatagrams set_datagrams put_data ip_reass_pbufcount g_pool g_frags].
  rewrite lookup_insert_eq. cbn [mbind option_bind data_of g_next]. unfold last_addr.
  destruct (last pre) as [[b e]|] eqn:El.
  - destruct Hun as (Hx & pd & Hpd & Hds). rewrite (proj2 (Z.eqb_neq _ _) Hx). apply last_Some in El as [l ->].
    assert (Hba : b ≠ a).
    { intros ->. apply Hpre. rewrite fmap_app. apply elem_of_app. right. apply list_elem_of_here. }
    cbn [fst]. rewrite lookup_insert_ne by done. rewrite Hpd. cbn [mbind option_bind].
    eexists. split; [done|]. cbn [reassdatagrams ip_reass_pbufcount g_mem g_pool g_frags set_datagrams put_data]. split; [done|].
    rewrite insert_insert_ne, delete_insert_eq by done. apply core_removed; try done.
    intros c [Hne Hc]%lookup_delete_Some'. split; [done|].
    destruct (decide (c = b)) as [->|]; [by rewrite Hpd|]. by rewrite lookup_insert_ne in Hc by done.
  - destruct Hun as (-> & Hds). rewrite Z.eqb_refl. cbn [mbind option_bind].
    eexists. split; [done|]. cbn [reassdatagrams ip_reass_pbufcount g_mem g_pool g_frags set_datagrams put_data]. split; [done|].
    rewrite delete_insert_eq. apply core_removed; try done. by apply lookup_delete_Some'.
Qed.
Lemma core_finish `{StdChksum} r pool pre a d post prev0 :
  core 0 r pool (pre ++ (a, d) :: post) → d_frags d ≠ [] → held_all (pre ++ (a, d) :: post) < 256 →
  ∃ r' q, finish_datagram a (last_addr prev0 pre) r = Some (r', q) ∧ spec_packet d = Some q ∧
    core 0 r' (a :: pool) (pre ++ post).
Proof.
  intros R Hne Hheld. destruct (core_split _ _ _ _ _ _ _ R) as (Ha0 & Hpre & Hpost & Hnd & Hdis & n & pp & Ha & Hp).
  assert (Hin : (a, d) ∈ pre ++ (a, d) :: post) by (apply elem_of_app; right; apply list_elem_of_here).
  pose proof (frags_length _ _ _ _ a d R Hin) as Hlen.
  assert (Hokd : dgram_ok d) by (pose proof (c_ok _ _ _ _ R) as HF; rewrite Forall_forall in HF; by apply (HF _ Hin)).
  destruct Hokd as [Hhdr Hoks].
  unfold finish_datagram, spec_packet. rewrite Ha. cbn [mbind option_bind data_of g_p g_iphdr g_datagram_len].
  destruct (d_frags d) as [|f l] eqn:El; [done|]. destruct Hp as (-> & Hp0 & k & Hk & Hl). rewrite Hk. cbn [mbind option_bind].
  apply Forall_cons in Hoks as [[Hof1 Hof2] Hoks]. rewrite restore_header_spec by (done || (unfold IP_HLEN; lia)). cbn [mbind option_bind next_pbuf].
  set (p := with_buf _ (f_pkt f)). cbn [map] in Hnd. apply NoDup_cons in Hnd as [Hfl Hnd].
  destruct (chain_rest_spec (delete (f_base f) (g_frags r)) (size (g_frags r)) k l) as (F & -> & F1 & F2).
  { eapply fseg_frame; [|exact Hl]. intros b Hb. apply lookup_delete_ne. by intros <-. }
  { done. }
  { cbn in Hlen. lia. }
  cbn [mbind option_bind]. set (q := with_more _ p).
  rewrite <- (insert_id (g_mem r) a (data_of n (f_base f) d)) by done.
  destruct (core_dequeue 0 r F pool pre a d post prev0 n (f_base f) (f_base f) R Ha) as (r' & -> & Hc & R').
  { rewrite El. cbn [map]. intros b [->|Hb]%elem_of_cons; [|by apply F2]. rewrite F1 by done. apply lookup_delete_eq. }
  { rewrite El. cbn [map]. intros b [Hb1 Hb2]%not_elem_of_cons. rewrite F1 by done. by apply lookup_delete_ne. }
  cbn [mbind option_bind]. eexists _, q. split; [done|]. split; [done|].
  rewrite held_all_app, held_all_cons in Hheld. cbn [snd] in Hheld.
  pose proof (held_all_nonneg pre). pose proof (held_all_nonneg post).
  assert (Hq : clen q = held (d_frags d)).
  { assert (Ef : clen (f_pkt f) = Z.of_nat (S (length (more (f_pkt f))))) by (unfold clen, u8; rewrite Z.mod_small; lia).
    pose proof (length_chained l Hoks) as Hch. rewrite El, held_cons, Ef in *. unfold clen.
    cbn [q with_more p with_buf more]. rewrite length_app. unfold u8; rewrite Z.mod_small; lia. }
  destruct R'. split; try done. cbn. rewrite c_count0, Hq, held_all_app.
  pose proof (held_nonneg (d_frags d)). rewrite u16_small by lia. lia.
Qed.

(** *** Reassembly implements the lists *)
Lemma spec_note_frags found h d : d_frags (spec_note found h d) = d_frags d.
Proof. unfold spec_note. by destruct (_ =? 0). Qed.
Lemma core_note r pool pre a d post found h n : core 0 r pool (pre ++ (a, d) :: post) → length h = IP_HLEN →
  0 <= n < 256 → held_all (pre ++ (a, d) :: post) < 256 →
  ∃ r', note_fragment found a h n r = Some r' ∧ core n r' pool (pre ++ (a, spec_note found h d) :: post).
Proof.
  intros R Hh Hn Hheld. destruct (core_split _ _ _ _ _ _ _ R) as (_ & _ & _ & Hnd & Hdis & k & p & Ha & Hp).
  pose proof (held_all_nonneg (pre ++ (a, d) :: post)).
  unfold note_fragment. rewrite Ha. cbn [mbind option_bind]. eexists. split; [done|].
  assert (Hd' : (let d0 := if found && (Z.land (h_frag h) IP_OFFMASK =? 0) &&
              negb (Z.land (h_frag (g_iphdr (data_of k p d))) IP_OFFMASK =? 0) then with_iphdr h (data_of k p d) else data_of k p d in
    if Z.land (h_frag h) IP_MF =? 0
           then with_last (u16 (frag_offset h + frag_len h))
                  (Z.lor (g_flags d0) IP_REASS_FLAG_LASTFRAG) d0 else d0) = data_of k p (spec_note found h d)).
  { unfold spec_note. cbn [data_of g_iphdr]. by destruct (_ && _ && _), (Z.land (h_frag h) IP_MF =? 0). }
  cbv zeta in Hd' |- *. rewrite Hd'. clear Hd'.
  apply (core_replace 0 n r _ pool pre a d _ post k p p R Ha); try done;
    rewrite ?spec_note_frags; cbn [put_data set_pbufcount g_pool g_frags ip_reass_pbufcount]; try done.
  - apply R.
  - pose proof (c_ok _ _ _ _ R) as HF. rewrite Forall_forall in HF. destruct (HF (a, d)) as [H1 H2].
    { apply elem_of_app. right. apply list_elem_of_here. }
    split; [|by rewrite spec_note_frags]. unfold spec_note. by destruct (_ && _ && _), (_ =? 0).
  - intros b Hb. split; [done|]. intros Hd. by apply (Hdis b).
  - intros b Hb. apply (c_frags _ _ _ _ R) in Hb. rewrite bases_mid, !elem_of_app in Hb. rewrite elem_of_app. tauto.
  - rewrite !held_all_app, !held_all_cons in *. cbn [snd] in *. rewrite spec_note_frags.
    rewrite (c_count _ _ _ _ R), !held_all_app, !held_all_cons. cbn [snd]. rewrite u16_small by lia. lia.
Qed.
Lemma core_new r a pool ds h : core 0 r (a :: pool) ds → length h = IP_HLEN →
  core 0 (init_datagram a pool h r) pool ((a, Dgram h 0 0 IP_REASS_MAXAGE []) :: ds).
Proof.
  intros R Hh. pose proof (c_nodup _ _ _ _ R) as Hn. pose proof (c_null _ _ _ _ R) as H0.
  apply not_elem_of_cons in H0 as [Ha0 H0]. rewrite <- Permutation_middle in Hn. apply NoDup_cons in Hn as [Ha Hn].
  rewrite not_elem_of_app in Ha. destruct Ha as [Ha1 Ha2].
  split; cbn [init_datagram g_mem g_frags g_pool reassdatagrams ip_reass_pbufcount]; try done.
  - split; [done|]. split; [done|]. exists (reassdatagrams r), 0. split; [by rewrite lookup_insert_eq|].
    split; [done|]. eapply dseg_frame; [|done|apply (c_seg _ _ _ _ R)]. intros b Hb. apply lookup_insert_ne. by intros <-.
  - cbn. rewrite NoDup_cons, not_elem_of_app. tauto.
  - apply R.
  - intros b Hb. cbn. rewrite elem_of_cons. destruct (decide (b = a)) as [->|Hne]; [by left|].
    rewrite lookup_insert_ne in Hb by done. right. by apply (c_mem _ _ _ _ R).
  - apply R.
  - constructor; [by split|apply R].
  - rewrite (c_count _ _ _ _ R). done.
Qed.
Lemma place_fragment_spec `{StdChksum} r pool pre a d post found prev0 p h d' evs c :
  core 0 r pool (pre ++ (a, d) :: post) → length h = IP_HLEN → held_all (pre ++ (a, d) :: post) + clen p < 256 →
  base p ≠ 0 → base p ∉ bases (pre ++ (a, d) :: post) → pkt_ok p →
  spec_add p h (spec_note found h d) = (d', evs, c) → d_frags d' ≠ [] →
  if c then ∃ r' q, place_fragment found a (last_addr prev0 pre) p h r = Some (r', evs, Some q) ∧
      spec_packet d' = Some q ∧ core 0 r' (a :: pool) (pre ++ post)
  else ∃ r', place_fragment found a (last_addr prev0 pre) p h r = Some (r', evs, None) ∧
      core 0 r' pool (pre ++ (a, d') :: post).
Proof.
  intros R Hh Hheld H0 Hb Hok Hadd Hne. pose proof (clen_bound p) as Hcl.
  pose proof (held_all_nonneg (pre ++ (a, d) :: post)).
  destruct (core_note r pool pre a d post found h (clen p) R Hh Hcl ltac:(lia)) as (r1 & E1 & R1).
  unfold place_fragment. rewrite E1. cbn [mbind option_bind].
  assert (Hheld1 : held_all (pre ++ (a, spec_note found h d) :: post) = held_all (pre ++ (a, d) :: post)).
  { rewrite !held_all_app, !held_all_cons. cbn [snd]. by rewrite spec_note_frags. }
  destruct (core_add r1 pool pre a _ post p h d' evs c R1 H0) as (r2 & E2 & R2); [|done|lia|done|].
  { rewrite bases_mid, spec_note_frags. by rewrite bases_mid in Hb. }
  rewrite E2. cbn [mbind option_bind]. destruct c; [|by exists r2].
  assert (Hd' : held (d_frags d') <= held (d_frags d) + clen p).
  { unfold spec_add in Hadd. rewrite spec_note_frags in Hadd.
    destruct (spec_place _ _ _ _ _) as [[[l1 l2] v]|] eqn:Epl; [|done]. injection Hadd as <- _ _.
    apply spec_place_app in Epl as ->. cbn [with_frags d_frags]. rewrite !held_app, held_cons. cbn [f_pkt]. lia. }
  destruct (core_finish r2 pool pre a d' post prev0 R2 Hne) as (r3 & q & E3 & Eq & R3).
  { rewrite held_all_app, held_all_cons in *. cbn [snd] in *. lia. }
  rewrite E3. cbn [mbind option_bind]. by exists r3, q.
Qed.

(** A fragment that may be kept: its header has no options, it is not held already, and there
    is room. *)
Record acceptable (p : packet) (h : list Z) (ds : list (Z * dgram)) : Prop := {
  ac_hdr : fraghdr_of p = Some h;
  ac_hl : Z.land (h !!! 0%nat) 15 = 5;
  ac_new : base p ≠ 0 ∧ base p ∉ bases ds;
  ac_buf : (off p + 28 <= length (buf p))%nat;
  ac_more : (length (more p) < 255)%nat;
  ac_room : held_all ds + clen p <= IP_REASS_MAX_PBUFS }.
Lemma acceptable_ok p h ds : acceptable p h ds → pkt_ok p ∧ length h = IP_HLEN.
Proof.
  intros A. pose proof (ac_hdr _ _ _ A) as E. unfold fraghdr_of in E.
  destruct (Nat.leb_spec (off p + IP_HLEN) (length (buf p))); [|done]. injection E as <-.
  split; [split; apply A|]. by apply length_slice.
Qed.
Lemma spec_add_some p h d d' evs c : spec_add p h d = (d', evs, c) → d_frags d ≠ [] ∨ d_frags d = [] → d_frags d' ≠ [].
Proof.
  unfold spec_add. destruct (d_frags d) as [|f l] eqn:E.
  - cbn. intros [= <- _ _] _. done.
  - destruct (spec_place _ _ _ _ (f :: l)) as [[[l1 l2] v]|]; intros [= <- _ _] _; [by destruct l1|by rewrite E].
Qed.
Lemma first_match h pre a d post pre2 b e post2 z : pre ++ (a, d) :: post = pre2 ++ (b, e) :: post2 →
  Forall (λ x, matches h x = false) pre → Forall (λ x, matches h x = false) pre2 →
  matches h (a, d) = true → matches h (b, e) = true → Some (b, last_addr z pre2) = Some (a, last_addr z pre).
Proof.
  intros E Hpre Hpre2 Hm Hm2. revert pre z E Hpre. induction pre2 as [|x pre2 IH]; intros [|y pre] z E Hpre.
  - by simplify_eq/=.
  - simplify_eq/=. apply Forall_cons in Hpre as [Hpre _]. by rewrite Hm2 in Hpre.
  - simplify_eq/=. apply Forall_cons in Hpre2 as [Hpre2 _]. by rewrite Hm in Hpre2.
  - injection E as -> E. apply Forall_cons in Hpre2 as [_ Hpre2]. apply Forall_cons in Hpre as [_ Hpre].
    rewrite !last_addr_cons. by apply IH.
Qed.
Section steps.
Context `{StdChksum}.
Variables (ram : Z) (link : nif → list Z → Z → Z) (room : option (list Z)) (mem : nat).
Lemma ip_reass_enter p h pool ds r s : core 0 r pool ds → acceptable p h ds →
  ip_reass ram link room mem p s r =
    ('(ipr, prev) ← find_datagram (S (size (g_mem r))) h (reassdatagrams r) 0 r;
     '(r, s, evs', ipr') ← (if negb (ipr =? 0) then Some (r, s, [], ipr)
                           else ip_reass_enqueue_new_datagram ram link room mem h (clen p) s r);
     if ipr' =? 0 then Some (r, s, evs' ++ [EvFree (base p)], None)
     else '(r, evs'', q) ← place_fragment (negb (ipr =? 0)) ipr' prev p h r; Some (r, s, evs' ++ evs'', q)).
Proof.
  intros R A. unfold ip_reass. rewrite (ac_hdr _ _ _ A). cbn [mbind option_bind]. rewrite (ac_hl _ _ _ A).
  cbn [Z.mul Z.eqb Pos.mul Pos.eqb negb]. unfold make_room. rewrite (c_count _ _ _ _ R).
  pose proof (ac_room _ _ _ A). destruct (Z.ltb_spec IP_REASS_MAX_PBUFS (0 + held_all ds + clen p)); [lia|]. done.
Qed.
(** A fragment of a datagram under reassembly. *)
Lemma ip_reass_known r pool pre a d post p h s d' evs c : rep r pool (pre ++ (a, d) :: post) →
  acceptable p h (pre ++ (a, d) :: post) → Forall (λ x, matches h x = false) pre → matches h (a, d) = true →
  spec_add p h (spec_note true h d) = (d', evs, c) →
  if c then ∃ r' q, ip_reass ram link room mem p s r = Some (r', s, evs, Some q) ∧ spec_packet d' = Some q ∧
      rep r' (a :: pool) (pre ++ post)
  else ∃ r', ip_reass ram link room mem p s r = Some (r', s, evs, None) ∧ rep r' pool (pre ++ (a, d') :: post).
Proof.
  intros [R Hne] A Hpre Hm Hadd. destruct (acceptable_ok _ _ _ A) as [Hok Hh]. destruct (ac_new _ _ _ A) as [H0 Hb].
  pose proof (ac_room _ _ _ A) as Hroom. unfold IP_REASS_MAX_PBUFS in Hroom.
  destruct (core_split _ _ _ _ _ _ _ R) as (Ha0 & _ & _ & _ & _ & n & pp & Ha & _).
  rewrite (ip_reass_enter p h pool _ r s R A). pose proof (core_length _ _ _ _ R) as Hlen.
  assert (Hf : find_datagram (S (size (g_mem r))) h (reassdatagrams r) 0 r = Some (a, last_addr 0 pre)).
  { destruct (find_datagram_spec (g_frags r) (S (size (g_mem r))) h (reassdatagrams r) 0 r _ (c_seg _ _ _ _ R))
      as [[Hno _]|(pre2 & b & e & post2 & E & Hno & Hm2 & Hf)]; [lia| |].
    - apply Forall_app in Hno as [_ Hno]. apply Forall_cons in Hno as [Hno _]. by rewrite Hm in Hno.
    - rewrite Hf. by eapply first_match. }
  rewrite Hf. cbn [mbind option_bind]. rewrite (proj2 (Z.eqb_neq _ _) Ha0). cbn [negb mbind option_bind].
  rewrite (proj2 (Z.eqb_neq _ _) Ha0).
  assert (Hd' : d_frags d' ≠ []).
  { eapply spec_add_some; [exact Hadd|]. destruct (d_frags (spec_note true h d)); [by right|by left]. }
  pose proof (place_fragment_spec r pool pre a d post true 0 p h d' evs c R Hh ltac:(lia) H0 Hb Hok Hadd Hd') as Hpl.
  apply Forall_app in Hne as [Hne1 Hne2]. apply Forall_cons in Hne2 as [_ Hne2].
  destruct c.
  - destruct Hpl as (r' & q & -> & Eq & R'). exists r', q. split; [done|]. split; [done|]. split; [done|]. by apply Forall_app.
  - destruct Hpl as (r' & -> & R'). exists r'. split; [done|]. split; [done|]. apply Forall_app. split; [done|]. by constructor.
Qed.
(** The first fragment of a datagram. *)
Lemma ip_reass_first r a pool ds p h s d' evs c : rep r (a :: pool) ds → acceptable p h ds →
  Forall (λ x, matches h x = false) ds →
  spec_add p h (spec_note false h (Dgram h 0 0 IP_REASS_MAXAGE [])) = (d', evs, c) →
  if c then ∃ r' q, ip_reass ram link room mem p s r = Some (r', s, evs, Some q) ∧ spec_packet d' = Some q ∧
      rep r' (a :: pool) ds
  else ∃ r', ip_reass ram link room mem p s r = Some (r', s, evs, None) ∧ rep r' pool ((a, d') :: ds).
Proof.
  intros [R Hne] A Hno Hadd. destruct (acceptable_ok _ _ _ A) as [Hok Hh]. destruct (ac_new _ _ _ A) as [H0 Hb].
  pose proof (ac_room _ _ _ A) as Hroom. unfold IP_REASS_MAX_PBUFS in Hroom. pose proof (core_length _ _ _ _ R) as Hlen.
  rewrite (ip_reass_enter p h _ _ r s R A). pose proof (core_new r a pool ds h R Hh) as R1.
  assert (Ha0 : a ≠ 0). { pose proof (c_null _ _ _ _ R) as Hn. intros ->. apply Hn, list_elem_of_here. }
  destruct (find_datagram_spec (g_frags r) (S (size (g_mem r))) h (reassdatagrams r) 0 r _ (c_seg _ _ _ _ R))
    as [[_ [pr Hf]]|(pre2 & b & e & post2 & -> & _ & Hm & _)]; [lia| |].
  2: { apply Forall_app in Hno as [_ Hno]. apply Forall_cons in Hno as [Hno _]. by rewrite Hm in Hno. }
  rewrite Hf. cbn [mbind option_bind Z.eqb negb]. unfold ip_reass_enqueue_new_datagram. rewrite (c_pool _ _ _ _ R).
  cbn [mbind option_bind]. rewrite (proj2 (Z.eqb_neq _ _) Ha0).
  assert (Hd' : d_frags d' ≠ []).
  { eapply spec_add_some; [exact Hadd|]. destruct (d_frags (spec_note _ h _)); [by right|by left]. }
  pose proof (place_fragment_spec _ pool [] a _ ds false pr p h d' evs c R1 Hh ltac:(cbn [app]; rewrite held_all_cons; cbn [snd d_frags held foldr]; lia) H0 Hb Hok Hadd Hd') as Hpl.
  cbn [last_addr last app] in Hpl. destruct c.
  - destruct Hpl as (r' & q & E & Eq & R'). exists r', q. unfold last_addr in E. cbn [last] in E. rewrite E. by split_and!.
  - destruct Hpl as (r' & E & R'). exists r'. unfold last_addr in E. cbn [last] in E. rewrite E. split; [done|]. split; [done|]. by constructor.
Qed.
End steps.

(** A fragment on the list of datagrams, entered by [add]: the list, the events, and the
    datagram that is complete with it, with its address. *)
Fixpoint known_with (add : packet → list Z → dgram → dgram * list event * bool) (p : packet) (h : list Z) (ds : list (Z * dgram))
  : option (list (Z * dgram) * list event * option (Z * dgram)) :=
  match ds with
  | [] => None
  | (a, d) :: ds =>
    if same_datagram (d_hdr d) h then
      let '(d', evs, c) := add p h (spec_note true h d) in
      Some (if c : bool then (ds, evs, Some (a, d')) else ((a, d') :: ds, evs, None))
    else '(ds, evs, c) ← known_with add p h ds; Some ((a, d) :: ds, evs, c)
  end.
Definition reass_with (add : packet → list Z → dgram → dgram * list event * bool) (p : packet) (h : list Z)
  (pool : list Z) (ds : list (Z * dgram)) : list Z * list (Z * dgram) * list event * option dgram :=
  match known_with add p h ds, pool with
  | Some (ds, evs, Some (a, d)), _ => (a :: pool, ds, evs, Some d)
  | Some (ds, evs, None), _ => (pool, ds, evs, None)
  | None, [] => ([], ds, [EvFree (base p)], None)
  | None, a :: pool' =>
    let '(d', evs, c) := add p h (spec_note false h (Dgram h 0 0 IP_REASS_MAXAGE [])) in
    if c : bool then (pool, ds, evs, Some d') else (pool', (a, d') :: ds, evs, None)
  end.
Definition spec_reass := reass_with spec_add.
Lemma known_with_split add p h ds : (Forall (λ x, matches h x = false) ds ∧ known_with add p h ds = None) ∨
  ∃ pre a d post d' evs c, ds = pre ++ (a, d) :: post ∧ Forall (λ x, matches h x = false) pre ∧ matches h (a, d) = true ∧
    add p h (spec_note true h d) = (d', evs, c) ∧
    known_with add p h ds = Some (if c : bool then (pre ++ post, evs, Some (a, d')) else (pre ++ (a, d') :: post, evs, None)).
Proof.
  induction ds as [|[a d] ds IH]; [by left|]. cbn [known_with]. destruct (same_datagram (d_hdr d) h) eqn:E.
  - right. destruct (add p h (spec_note true h d)) as [[d' evs] c] eqn:Ea.
    exists [], a, d, ds, d', evs, c. by destruct c.
  - destruct IH as [[Hno ->]|(pre & b & e & post & d' & evs & c & -> & Hno & Hm & Ea & ->)].
    + left. split; [by constructor|done].
    + right. exists ((a, d) :: pre), b, e, post, d', evs, c. cbn [mbind option_bind].
      split; [done|]. split; [by constructor|]. split; [done|]. split; [done|]. by destruct c.
Qed.

(** ** What the insertion means *)
(** A datagram's fragments by their place, none empty and no two overlapping, from [low] on. *)
Fixpoint in_order (low : Z) (l : list frag) : Prop :=
  match l with
  | [] => True
  | f :: l => low <= f_start f < f_end f ∧ in_order (f_end f) l
  end.
(** The fragment shares a byte with those from [s] up to [e]. *)
Definition meets (s e : Z) (f : frag) : bool := (s <? f_end f) && (f_start f <? e).
Definition below (s : Z) (l : list frag) : list frag := List.filter (λ f, f_start f <? s) l.
Definition above (s : Z) (l : list frag) : list frag := List.filter (λ f, s <? f_start f) l.
(** A fragment that shares a byte with one that is held is freed; any other enters at its
    place, and the datagram is complete when its end is known and the fragments cover it from
    offset 0 on. *)
Definition ideal_add (p : packet) (h : list Z) (d : dgram) : dgram * list event * bool :=
  let s := frag_offset h in
  let e := u16 (s + frag_len h) in
  if existsb (meets s e) (d_frags d) then (d, [EvFree (base p)], false)
  else let l := below s (d_frags d) ++ Frag p s e :: above s (d_frags d) in
       (with_frags l d, [], negb (Z.land (d_flags d) IP_REASS_FLAG_LASTFRAG =? 0) && spec_no_holes 0 l).
(** Where the code departs from this: a fragment in front of all others that reaches into the
    first is kept, and the gap before a fragment put between two others is not looked at. *)
Definition front_clash (s e : Z) (l : list frag) : bool :=
  match l with f :: _ => (s <? f_start f) && (f_start f <? e) | [] => false end.
Definition missed_gap (s : Z) (l : list frag) : bool :=
  match above s l, last (below s l) with _ :: _, Some f => negb (f_end f =? s) | _, _ => false end.

Lemma in_order_weaken a b l : a <= b → in_order b l → in_order a l.
Proof. destruct l; cbn; [done|]. intros ? [? ?]. split; [lia|done]. Qed.
Lemma in_order_after s low l : s < low → in_order low l → below s l = [] ∧ above s l = l.
Proof.
  revert low. induction l as [|f l IH]; intros low Hs; [done|]. cbn [in_order]. intros [Hf Hl].
  destruct (IH (f_end f)) as [B A]; [lia|done|]. unfold below, above in *. cbn [List.filter].
  rewrite (proj2 (Z.ltb_ge _ _)), (proj2 (Z.ltb_lt _ _)), A by lia. done.
Qed.
Lemma in_order_apart s e low l : e <= low → in_order low l → existsb (meets s e) l = false.
Proof.
  revert low. induction l as [|f l IH]; intros low He; [done|]. cbn [in_order existsb]. intros [Hf Hl].
  unfold meets at 1. rewrite (proj2 (Z.ltb_ge (f_start f) e)), andb_false_r by lia. apply (IH (f_end f)); [lia|done].
Qed.
Lemma in_order_insert p s e low l : in_order low l → low <= s → s < e → existsb (meets s e) l = false →
  in_order low (below s l ++ Frag p s e :: above s l).
Proof.
  revert low. induction l as [|f l IH]; intros low; [cbn; lia|]. intros Hi Hs He Hm. pose proof Hi as [Hf Hl].
  cbn [existsb] in Hm. apply orb_false_iff in Hm as [Hm Hms]. unfold meets in Hm.
  destruct (Z.ltb_spec (f_start f) s) as [L|L].
  - unfold below, above. cbn [List.filter]. rewrite (proj2 (Z.ltb_lt _ _) L), (proj2 (Z.ltb_ge _ _)) by lia.
    split; [done|]. apply (IH (f_end f)); [done|lia..|done].
  - assert (s < f_start f ∧ e <= f_start f) as [A B] by lia.
    destruct (in_order_after s (f_start f) (f :: l)) as [-> ->]; [done|cbn; split; [lia|done]|].
    cbn. split_and!; try lia. done.
Qed.

(** The place the code finds behind a fragment it has passed. *)
Lemma spec_place_ideal s e t v l : s < e → in_order (f_end t) l → f_end t <= s →
  spec_place s e (Some t) v l =
    if existsb (meets s e) l then None
    else Some (below s l, above s l, v && spec_no_holes (f_end t) (below s l)).
Proof.
  intros He. revert t v. induction l as [|f l IH]; intros t v Hi Ht; [by cbn; rewrite andb_true_r|].
  pose proof Hi as [Hf Hl]. cbn [spec_place existsb]. unfold meets at 1.
  destruct (Z.ltb_spec s (f_start f)) as [L|L].
  - rewrite (proj2 (Z.ltb_ge s (f_end t))), (proj2 (Z.ltb_lt s (f_end f))) by lia. cbn [orb andb].
    destruct (Z.ltb_spec (f_start f) e); [done|]. cbn [orb].
    rewrite (in_order_apart s e (f_end f)) by (lia || done).
    destruct (in_order_after s (f_start f) (f :: l)) as [-> ->]; [done|cbn; split; [lia|done]|]. cbn. by rewrite andb_true_r.
  - destruct (Z.eqb_spec s (f_start f)) as [E|E].
    { by rewrite (proj2 (Z.ltb_lt s (f_end f))), (proj2 (Z.ltb_lt (f_start f) e)) by lia. }
    destruct (Z.ltb_spec s (f_end f)) as [G|G].
    { by rewrite (proj2 (Z.ltb_lt (f_start f) e)) by lia. }
    cbn [andb orb]. rewrite IH by done. destruct (existsb _ l); [done|]. cbn [mbind option_bind].
    unfold below, above. cbn [List.filter]. rewrite (proj2 (Z.ltb_lt (f_start f) s)), (proj2 (Z.ltb_ge s (f_start f))) by lia.
    cbn [spec_no_holes]. by destruct (f_end t =? f_start f), v.
Qed.
(** The same from the front of the list. *)
Lemma spec_place_front s e l : s < e → in_order 0 l → front_clash s e l = false →
  spec_place s e None true l =
    if existsb (meets s e) l then None
    else Some (below s l, above s l, match below s l with [] => true | f :: l => spec_no_holes (f_end f) l end).
Proof.
  intros He. destruct l as [|f l]; [done|]. intros Hi Hc. pose proof Hi as [Hf Hl].
  cbn [spec_place existsb front_clash] in *. unfold meets at 1.
  destruct (Z.ltb_spec s (f_start f)) as [L|L].
  - cbn [andb] in Hc. rewrite Hc, andb_false_r. cbn [orb]. rewrite (in_order_apart s e (f_end f)) by (lia || done).
    by destruct (in_order_after s (f_start f) (f :: l)) as [-> ->]; [done|cbn; split; [lia|done]|].
  - destruct (Z.eqb_spec s (f_start f)) as [E|E].
    { by rewrite (proj2 (Z.ltb_lt s (f_end f))), (proj2 (Z.ltb_lt (f_start f) e)) by lia. }
    destruct (Z.ltb_spec s (f_end f)) as [G|G].
    { by rewrite (proj2 (Z.ltb_lt (f_start f) e)) by lia. }
    cbn [andb orb]. rewrite spec_place_ideal by done. destruct (existsb _ l); [done|]. cbn [mbind option_bind].
    unfold below, above. cbn [List.filter]. by rewrite (proj2 (Z.ltb_lt (f_start f) s)), (proj2 (Z.ltb_ge s (f_start f))) by lia.
Qed.
Lemma spec_no_holes_app e l1 f l2 : spec_no_holes e (l1 ++ f :: l2) =
  spec_no_holes e l1 && (match last l1 with Some g => f_end g | None => e end =? f_start f) && spec_no_holes (f_end f) l2.
Proof.
  revert e. induction l1 as [|g l1 IH]; intros e; cbn [app spec_no_holes]; [by destruct (_ =? _)|].
  destruct (e =? f_start g); [|done]. rewrite IH. by destruct l1 as [|g' l1]; [|rewrite last_cons_cons; destruct (last (g' :: l1)) eqn:E; [|apply last_None in E]].
Qed.
(** The code's insertion is the intended one but for the two cases above. *)
Lemma spec_add_ideal p h d d' evs c : in_order 0 (d_frags d) → 0 <= frag_offset h →
  frag_offset h < u16 (frag_offset h + frag_len h) →
  front_clash (frag_offset h) (u16 (frag_offset h + frag_len h)) (d_frags d) = false →
  spec_add p h d = (d', evs, c) →
  (d', evs) = (ideal_add p h d).1 ∧ in_order 0 (d_frags d') ∧
  (missed_gap (frag_offset h) (d_frags d) = false → c = (ideal_add p h d).2).
Proof.
  intros Hi H0 He Hc. unfold spec_add, ideal_add. cbv zeta.
  set (s := frag_offset h) in *. set (e := u16 (s + frag_len h)) in *.
  rewrite spec_place_front by done. destruct (existsb _ _) eqn:Hm; intros [= <- <- <-]; [done|].
  split; [done|]. split; [by apply in_order_insert|]. unfold missed_gap. intros Hg. cbn [snd].
  rewrite <- !andb_assoc. f_equal. rewrite spec_no_holes_app. cbn [f_start f_end].
  revert Hg. generalize (below s (d_frags d)) as b, (above s (d_frags d)) as a, (spec_no_holes e (above s (d_frags d))) as n.
  intros b a n Hg. destruct b as [|f b].
  { cbn [app last spec_no_holes f_start]. rewrite (Z.eqb_sym 0). by destruct a. }
  destruct (last (f :: b)) as [g|] eqn:El; [|by apply last_None in El].
  cbn [app spec_no_holes]. rewrite (Z.eqb_sym 0). destruct a as [|u a].
  - by destruct (f_end g =? s), (f_start f =? 0), (spec_no_holes (f_end f) b).
  - apply negb_false_iff in Hg. rewrite Hg. by destruct (f_start f =? 0), (spec_no_holes (f_end f) b).
Qed.

(** The whole step with the intended insertion. *)
Definition ideal_reass := reass_with ideal_add.
Definition ordered (ds : list (Z * dgram)) : Prop := Forall (λ x, in_order 0 (d_frags x.2)) ds.
Definition has_data (h : list Z) : Prop := frag_offset h < u16 (frag_offset h + frag_len h).
(** The fragment falls in neither of the two cases in its datagram. *)
Definition plain (h : list Z) (d : dgram) : Prop :=
  front_clash (frag_offset h) (u16 (frag_offset h + frag_len h)) (d_frags d) = false ∧
  missed_gap (frag_offset h) (d_frags d) = false.
Definition plain_in (h : list Z) (ds : list (Z * dgram)) : Prop := Forall (λ x, matches h x = true → plain h x.2) ds.

Lemma spec_add_plain p h d : in_order 0 (d_frags d) → has_data h → plain h d →
  spec_add p h d = ideal_add p h d ∧ in_order 0 (d_frags (spec_add p h d).1.1).
Proof.
  intros Hi He [Hc Hg]. destruct (spec_add p h d) as [[d' evs] c] eqn:E.
  destruct (spec_add_ideal p h d d' evs c Hi) as (E1 & Ho & E2); [|done..|].
  { apply Z.mod_pos_bound. done. }
  split; [|done]. rewrite (E2 Hg), E1. by destruct (ideal_add p h d) as [[? ?] ?].
Qed.
Lemma known_plain p h ds : ordered ds → has_data h → plain_in h ds →
  known_with spec_add p h ds = known_with ideal_add p h ds ∧
  match known_with spec_add p h ds with Some (ds', _, _) => ordered ds' | None => True end.
Proof.
  intros Ho He. induction Ho as [|[a d] ds Hi Ho IH]; intros Hp; [done|]. apply Forall_cons in Hp as [Hx Hp].
  unfold matches in Hx. cbn [known_with snd] in *. destruct (same_datagram (d_hdr d) h).
  - destruct (spec_add_plain p h (spec_note true h d)) as [E Hi'];
      [by rewrite spec_note_frags|done|unfold plain; rewrite spec_note_frags; by apply Hx|].
    rewrite <- E. destruct (spec_add p h (spec_note true h d)) as [[d' evs] c]. split; [done|].
    destruct c; [done|]. by constructor.
  - destruct (IH Hp) as [<- Ho']. split; [done|]. destruct (known_with spec_add p h ds) as [[[ds' ?] ?]|]; [|done].
    by constructor.
Qed.
Lemma reass_plain p h pool ds : ordered ds → has_data h → plain_in h ds →
  spec_reass p h pool ds = ideal_reass p h pool ds ∧ ordered (spec_reass p h pool ds).1.1.2.
Proof.
  intros Ho He Hp. destruct (known_plain p h ds Ho He Hp) as [E Ho']. unfold spec_reass, ideal_reass, reass_with.
  rewrite <- E. destruct (known_with spec_add p h ds) as [[[ds' evs] [[a d]|]]|]; [done..|].
  destruct pool as [|a pool]; [done|].
  destruct (spec_add_plain p h (spec_note false h (Dgram h 0 0 IP_REASS_MAXAGE []))) as [E1 Hi'];
    rewrite ?spec_note_frags; [done|done|unfold plain; by rewrite spec_note_frags|].
  rewrite <- E1. destruct (spec_add p h (spec_note false h _)) as [[d' evs] c]. split; [done|].
  destruct c; [done|]. by constructor.
Qed.

Lemma ip_reass_on_lists `{StdChksum} ram link room mem p h s r pool ds : rep r pool ds → acceptable p h ds →
  pool ≠ [] ∨ Exists (λ x, matches h x = true) ds →
  let '(pool', ds', evs, res) := spec_reass p h pool ds in
  ∃ r' q, ip_reass ram link room mem p s r = Some (r', s, evs, q) ∧ rep r' pool' ds' ∧
    match res with
    | None => q = None
    | Some d => ∃ p', q = Some p' ∧ spec_packet d = Some p'
    end.
Proof.
  intros R A Hroom. unfold spec_reass, reass_with.
  destruct (known_with_split spec_add p h ds) as [[Hno ->]|(pre & a & d & post & d' & evs & c & -> & Hno & Hm & Ea & ->)].
  - destruct pool as [|a pool].
    { destruct Hroom as [|He]; [done|]. apply Exists_exists in He as (x & Hx & Hm). rewrite Forall_forall in Hno.
      by rewrite (Hno x Hx) in Hm. }
    destruct (spec_add p h (spec_note false h _)) as [[d' evs] c] eqn:Ea.
    pose proof (ip_reass_first ram link room mem r a pool ds p h s d' evs c R A Hno Ea) as Hf. destruct c.
    + destruct Hf as (r' & q & E & Eq & R'). exists r', (Some q). split; [done|]. split; [done|]. by exists q.
    + destruct Hf as (r' & E & R'). by exists r', None.
  - pose proof (ip_reass_known ram link room mem r pool pre a d post p h s d' evs c R A Hno Hm Ea) as Hf. destruct c.
    + destruct Hf as (r' & q & E & Eq & R'). exists r', (Some q). split; [done|]. split; [done|]. by exists q.
    + destruct Hf as (r' & E & R'). by exists r', None.
Qed.

(** C14: Reassembly refines lists of fragments.  Let the pool, the list and the chains of helpers
    be intact ([rep]), let a fragment without header options come whose buffer is not held, and let
    there be room: at most ten buffers held with it, and a structure free or its datagram begun.
    Then [ip_reass] runs without touching freed memory, and does to the datagrams what
    [spec_reass] does to the lists they stand for: it finds the datagram by addresses and
    identification or takes a new one, keeps the fragment or frees it, counts every buffer it
    holds, and hands out a datagram it takes to be complete with the restored header, and
    forgets it.  [spec_reass] follows the code's own choice of the place, and that choice is
    compared with the intended one, [ideal_reass], which frees a fragment that shares a byte with
    one that is held, puts any other in its place, and takes a datagram to be complete when its
    last fragment came (kept or not) and those held cover it from offset 0 on.  The two are equal
    for a fragment with data that ends below 2^16, on fragments in order, and the fragments stay in order, except in two
    cases: a fragment in front of all others that reaches into the first of them is kept
    ([front_clash]), and a gap left before a fragment put between two others is not noticed
    ([missed_gap]), so that a datagram with a hole can be handed out. *)
Theorem ip_reass_refines_lists `{StdChksum} ram link room mem p h s r pool ds : rep r pool ds → acceptable p h ds →
  pool ≠ [] ∨ Exists (λ x, matches h x = true) ds →
  let '(pool', ds', evs, res) := spec_reass p h pool ds in
  (∃ r' q, ip_reass ram link room mem p s r = Some (r', s, evs, q) ∧ rep r' pool' ds' ∧
    match res with
    | None => q = None
    | Some d => ∃ p', q = Some p' ∧ spec_packet d = Some p'
    end) ∧
  (ordered ds → has_data h → plain_in h ds → ideal_reass p h pool ds = (pool', ds', evs, res) ∧ ordered ds').
Proof.
  intros R A Hroom. pose proof (ip_reass_on_lists ram link room mem p h s r pool ds R A Hroom) as T.
  pose proof (reass_plain p h pool ds) as I. destruct (spec_reass p h pool ds) as [[[pool' ds'] evs] res].
  split; [exact T|]. intros Ho Hh Hp. by destruct (I Ho Hh Hp) as [<- ?].
Qed.

(** ** Timing out *)
Lemma ip_output_if_keeps `{StdChksum} ram link p src dest ttl tos proto n mem s s' evs e :
  ip_output_if ram link p src dest ttl tos proto n mem s = Some (s', evs, e) →
  netif_list s' = netif_list s ∧ netif_default s' = netif_default s.
Proof.
  unfold ip_output_if. destruct dest as [dest|].
  - destruct (show_header IP_HLEN p) as [q|]; cbn [mbind option_bind negb]; [|by intros [= <- _ _]].
    destruct (wr _ _ _); [|done]. cbn [mbind option_bind negb]. destruct (_ && _).
    + destruct (ip_frag _ _ _ _ _) as [[? ?]|]; [|done]. by intros [= <- _ _].
    + by intros [= <- _ _].
  - destruct (rd32 _ _); [|done]. cbn [mbind option_bind negb]. destruct (_ && _).
    + destruct (ip_frag _ _ _ _ _) as [[? ?]|]; [|done]. by intros [= <- _ _].
    + by intros [= <- _ _].
Qed.
Lemma send_response_keeps `{StdChksum} ram link room mem p type code s s' evs :
  icmp_send_response ram link room mem p type code s = Some (s', evs) →
  netif_list s' = netif_list s ∧ netif_default s' = netif_default s.
Proof.
  unfold icmp_send_response. destruct room as [junk|]; [|by intros [= <- _]].
  destruct (off p + 28 <=? _)%nat; [|done]. cbn [mbind option_bind]. destruct (ram_pbuf _ _ _ _) as [q|]; [|done].
  cbn [mbind option_bind]. destruct (rd32 _ _); [|done]. cbn [mbind option_bind]. unfold ip_output.
  destruct (ip_route _ s) as [n|]; [|by intros [= <- _]]. destruct (ip_output_if _ _ _ _ _ _ _ _ _ _ _) as [[[s2 ?] ?]|] eqn:E; [|done].
  intros [= <- _]. by apply ip_output_if_keeps in E.
Qed.
Lemma stack_ok_same s s' : netif_list s' = netif_list s → netif_default s' = netif_default s → stack_ok s → stack_ok s'.
Proof. unfold stack_ok. by intros -> ->. Qed.

(** Freeing a chain. *)
Lemma free_chain_spec fuel p l freed r : fseg (g_frags r) p l → NoDup (map f_base l) → (length l <= fuel)%nat →
  0 <= freed → freed + held l < 65536 →
  ∃ F, free_chain fuel p freed r = Some (Reass (reassdatagrams r) (ip_reass_pbufcount r) (g_mem r) (g_pool r) F,
      map (λ f, EvFree (f_base f)) l, freed + held l) ∧
    (∀ b, b ∉ map f_base l → F !! b = g_frags r !! b) ∧ (∀ b, b ∈ map f_base l → F !! b = None).
Proof.
  revert p l freed r. induction fuel as [|fuel IH]; intros p l freed r Hl Hnd Hf H0 Hh.
  { destruct l; [|cbn in Hf; lia]. cbn in Hl. subst. exists (g_frags r). cbn. rewrite Z.add_0_r. split; [by destruct r|].
    split; [done|]. by intros b ?%elem_of_nil. }
  destruct l as [|f l].
  { cbn in Hl. subst. exists (g_frags r). cbn. rewrite Z.add_0_r. split; [by destruct r|]. split; [done|]. by intros b ?%elem_of_nil. }
  destruct Hl as (-> & Hp0 & n & Hn & Hl). cbn [map] in Hnd. apply NoDup_cons in Hnd as [Hfl Hnd].
  rewrite held_cons in Hh. pose proof (clen_bound (f_pkt f)). pose proof (held_nonneg l).
  cbn [free_chain]. rewrite (proj2 (Z.eqb_neq _ 0) Hp0), Hn. cbn [mbind option_bind next_pbuf].
  rewrite u16_small by lia.
  destruct (IH n l (freed + clen (f_pkt f)) (drop_frag (f_base f) r)) as (F & -> & F1 & F2); [|done|cbn in Hf; lia|lia|lia|].
  { eapply fseg_frame; [|exact Hl]. intros b Hb. apply lookup_delete_ne. by intros <-. }
  cbn [mbind option_bind drop_frag reassdatagrams ip_reass_pbufcount g_mem g_pool g_frags] in *.
  exists F. split; [by rewrite held_cons, Z.add_assoc|]. cbn [map]. split.
  - intros b [Hb1 Hb2]%not_elem_of_cons. rewrite F1 by done. by apply lookup_delete_ne.
  - intros b [->|Hb]%elem_of_cons; [|by apply F2]. rewrite F1 by done. apply lookup_delete_eq.
Qed.
(** How often the buffer [b] is in a list of buffers without repetition. *)
Definition once_in (b : Z) (l : list Z) : nat := if bool_decide (b ∈ l) then 1 else 0.
Lemma once_in_app b l1 l2 : NoDup (l1 ++ l2) → once_in b (l1 ++ l2) = (once_in b l1 + once_in b l2)%nat.
Proof.
  intros (_ & Hd & _)%NoDup_app. unfold once_in. pose proof (Hd b).
  repeat case_bool_decide; rewrite elem_of_app in *; try lia; tauto.
Qed.
Lemma once_in_perm b l1 l2 : l1 ≡ₚ l2 → once_in b l1 = once_in b l2.
Proof. intros E. unfold once_in. by rewrite (bool_decide_ext (b ∈ l1) (b ∈ l2)) by (by rewrite E). Qed.
Lemma consumed_free b c evs : consumed b (EvFree c :: evs) = (once_in b [c] + consumed b evs)%nat.
Proof.
  unfold consumed, once_in. cbn [List.filter consumes]. rewrite (bool_decide_ext _ (c = b)) by (rewrite list_elem_of_singleton; done).
  destruct (Z.eqb_spec c b); [by rewrite bool_decide_eq_true_2|by rewrite bool_decide_eq_false_2].
Qed.
Lemma consumed_frees b l : NoDup (map f_base l) → consumed b (map (λ f, EvFree (f_base f)) l) = once_in b (map f_base l).
Proof.
  induction l as [|f l IH]; [done|]. cbn [map]. intros Hnd. rewrite consumed_free.
  change (f_base f :: map f_base l) with ([f_base f] ++ map f_base l) in *. rewrite once_in_app by done.
  apply NoDup_app in Hnd as (_ & _ & Hnd). by rewrite IH.
Qed.

Section timeout.
Context `{StdChksum}.
Variables (ram : Z) (link : nif → list Z → Z → Z) (room : option (list Z)) (mem : nat).
Hypothesis Hroom : room_ok room.

(** Sending the error message: it returns, and no held buffer is consumed. *)
Lemma time_exceeded_total p t s : stack_ok s → (off p + 28 <= length (buf p))%nat →
  ∃ s' evs, icmp_time_exceeded ram link room mem p t s = Some (s', evs) ∧ stack_ok s' ∧ pcbs s' = pcbs s ∧
    ∀ b, b ≠ ram → consumed b evs = 0%nat.
Proof.
  intros Hs Hp. unfold icmp_time_exceeded.
  destruct (send_response_aside ram (ram + 1) link room mem ltac:(lia) Hroom p ICMP_TE t s Hs Hp) as (s' & evs & E & _ & Hpc).
  exists s', evs. split; [done|]. destruct (send_response_keeps _ _ _ _ _ _ _ _ _ _ E) as [H1 H2].
  split; [by eapply stack_ok_same|]. split; [done|]. intros b Hb.
  destruct (send_response_aside ram b link room mem ltac:(done) Hroom p ICMP_TE t s Hs Hp) as (s2 & evs2 & E2 & Hc & _).
  rewrite E in E2. by injection E2 as _ <-.
Qed.
(** The first buffer, if it holds the start of the datagram, is quoted in an error message and
    freed; then the others. *)
Lemma free_buffers r a n d s : g_mem r !! a = Some (data_of n (match d_frags d with f :: _ => f_base f | [] => 0 end) d) →
  fseg (g_frags r) (match d_frags d with f :: _ => f_base f | [] => 0 end) (d_frags d) → d_frags d ≠ [] →
  NoDup (map f_base (d_frags d)) → (length (d_frags d) <= size (g_frags r))%nat → dgram_ok d →
  held (d_frags d) < 256 → stack_ok s → ram ∉ map f_base (d_frags d) →
  ∃ p' F s' evs, (∀ prev, ip_reass_free_complete_datagram ram link room mem a prev s r =
      (r' ← ip_reass_dequeue_datagram a prev
         (Reass (reassdatagrams r) (ip_reass_pbufcount r) (<[a := data_of n p' d]> (g_mem r)) (g_pool r) F);
       Some (set_pbufcount (u16 (ip_reass_pbufcount r' - held (d_frags d))) r', s', evs, held (d_frags d)))) ∧
    (∀ b, b ∈ map f_base (d_frags d) → F !! b = None) ∧ (∀ b, b ∉ map f_base (d_frags d) → F !! b = g_frags r !! b) ∧
    stack_ok s' ∧ pcbs s' = pcbs s ∧ ∀ b, b ≠ ram → consumed b evs = once_in b (map f_base (d_frags d)).
Proof.
  intros Ha Hp Hne Hnd Hlen [Hhdr Hoks] Hheld Hs Hram. unfold ip_reass_free_complete_datagram. rewrite Ha.
  cbn [mbind option_bind data_of g_p g_iphdr]. destruct (d_frags d) as [|f l] eqn:El; [done|].
  destruct Hp as (_ & Hp0 & k & Hk & Hl). rewrite Hk. cbn [mbind option_bind h_start next_pbuf].
  pose proof Hnd as [Hfl Hnd']%NoDup_cons. pose proof Hoks as [[Hof _] _]%Forall_cons.
  rewrite held_cons in *. pose proof (clen_bound (f_pkt f)). pose proof (held_nonneg l).
  destruct (f_start f =? 0) eqn:E0.
  - assert (Hw : wr (off (f_pkt f)) (d_hdr d) (buf (f_pkt f)) = Some (store_at (off (f_pkt f)) (d_hdr d) (buf (f_pkt f)))).
    { unfold wr. rewrite Hhdr. unfold IP_HLEN. by destruct (Nat.leb_spec (off (f_pkt f) + 20) (length (buf (f_pkt f)))); [|lia]. }
    rewrite Hw. cbn [mbind option_bind].
    destruct (time_exceeded_total (with_buf (store_at (off (f_pkt f)) (d_hdr d) (buf (f_pkt f))) (f_pkt f)) ICMP_TE_FRAG s Hs)
      as (s' & evs & -> & Hs' & Hpc & Hcon).
    { cbn [with_buf off buf]. rewrite length_store_at; [done|]. rewrite Hhdr. unfold IP_HLEN. lia. }
    cbn [mbind option_bind]. set (r1 := drop_frag _ _). rewrite u16_small by lia.
    destruct (free_chain_spec (size (g_frags r1)) k l (clen (f_pkt f)) r1) as (F & EF & F1 & F2); [|done| |lia|lia|].
    { eapply fseg_frame; [|exact Hl]. intros b Hb. apply lookup_delete_ne. by intros <-. }
    { unfold r1. cbn [drop_frag put_data g_frags]. rewrite map_size_delete_Some by (by eexists). cbn in Hlen. lia. }
    eexists k, F, s', _. split; [|split; [|split; [|split; [done|split; [done|]]]]].
    + intros prev. rewrite EF. reflexivity.
    + cbn [map]. intros b [->|Hb]%elem_of_cons; [|by apply F2]. rewrite F1 by done. apply lookup_delete_eq.
    + cbn [map]. intros b [Hb1 Hb2]%not_elem_of_cons. rewrite F1 by done. by apply lookup_delete_ne.
    + intros b Hb. rewrite !consumed_app, Hcon by done. rewrite consumed_free, consumed_frees by done. cbn [map].
      change (f_base f :: map f_base l) with ([f_base f] ++ map f_base l) in *. rewrite once_in_app by done. unfold consumed. cbn. lia.
  - cbn [mbind option_bind]. destruct (free_chain_spec (size (g_frags r)) (f_base f) (f :: l) 0 r) as (F & EF & F1 & F2);
      [by split; [|split; [|exists k]]|done|done|lia|rewrite held_cons; lia|].
    exists (f_base f), F, s, (map (λ f, EvFree (f_base f)) (f :: l)). split; [|split; [done|split; [done|split; [done|split; [done|]]]]].
    + intros prev. rewrite EF. cbn [mbind option_bind app]. rewrite insert_id by done. rewrite Z.add_0_l, held_cons. reflexivity.
    + intros b _. by apply consumed_frees.
Qed.
Lemma free_complete_spec r pool pre a d post prev0 s : rep r pool (pre ++ (a, d) :: post) → stack_ok s →
  held_all (pre ++ (a, d) :: post) <= IP_REASS_MAX_PBUFS → ram ∉ map f_base (d_frags d) →
  ∃ r' s' evs, ip_reass_free_complete_datagram ram link room mem a (last_addr prev0 pre) s r = Some (r', s', evs, held (d_frags d)) ∧
    rep r' (a :: pool) (pre ++ post) ∧ stack_ok s' ∧ pcbs s' = pcbs s ∧
    ∀ b, b ≠ ram → consumed b evs = once_in b (map f_base (d_frags d)).
Proof.
  intros [R Hne] Hs Hheld Hram. destruct (core_split _ _ _ _ _ _ _ R) as (Ha0 & Hpre & Hpost & Hnd & Hdis & n & pp & Ha & Hp).
  assert (Hin : (a, d) ∈ pre ++ (a, d) :: post) by (apply elem_of_app; right; apply list_elem_of_here).
  pose proof (frags_length _ _ _ _ a d R Hin) as Hlen. unfold IP_REASS_MAX_PBUFS in Hheld.
  assert (Hokd : dgram_ok d) by (pose proof (c_ok _ _ _ _ R) as HF; rewrite Forall_forall in HF; by apply (HF _ Hin)).
  destruct Hokd as [Hhdr Hoks].
  assert (Hd0 : d_frags d ≠ []) by (exact (proj1 (Forall_forall _ _) Hne _ Hin)).
  assert (Epp : pp = match d_frags d with f :: _ => f_base f | [] => 0 end).
  { destruct (d_frags d) as [|f l]; [done|]. by apply fseg_head in Hp. }
  rewrite Epp in Ha, Hp. rewrite held_all_app, held_all_cons in Hheld. cbn [snd] in Hheld.
  pose proof (held_all_nonneg pre). pose proof (held_all_nonneg post). pose proof (held_nonneg (d_frags d)).
  destruct (free_buffers r a n d s Ha Hp Hd0 Hnd Hlen (conj Hhdr Hoks) ltac:(lia) Hs Hram)
    as (p' & F & s' & evs & E & F1 & F2 & Hs' & Hpc & Hcon).
  destruct (core_dequeue 0 r F pool pre a d post prev0 n _ p' R Ha F1 F2) as (r' & Ed & Hc & R').
  rewrite E, Ed. cbn [mbind option_bind]. eexists _, s', evs. split; [done|].
  apply Forall_app in Hne as [Hne1 Hne2]. apply Forall_cons in Hne2 as [_ Hne2].
  split; [|done]. split; [|by apply Forall_app]. destruct R'. split; try done. cbn.
  rewrite c_count0, held_all_app. rewrite u16_small by lia. lia.
Qed.
(** One tick on the list: the datagrams whose time is over are gone. *)
Definition age (d : dgram) : dgram := Dgram (d_hdr d) (d_len d) (d_flags d) (d_timer d - 1) (d_frags d).
Definition tick (ds : list (Z * dgram)) : list (Z * dgram) :=
  map (λ x, (x.1, age x.2)) (List.filter (λ x, 0 <? d_timer x.2) ds).
Definition expired (ds : list (Z * dgram)) : list (Z * dgram) := List.filter (λ x, negb (0 <? d_timer x.2)) ds.
Definition head_addr (ds : list (Z * dgram)) : Z := match ds with (a, _) :: _ => a | [] => 0 end.
Lemma dseg_head M F x ds : dseg M F x ds → x = head_addr ds.
Proof. destruct ds as [|[a d] ds]; [done|]. by intros []. Qed.
Lemma rep_age r pool pre a d post : rep r pool (pre ++ (a, d) :: post) →
  ∃ p, g_mem r !! a = Some (data_of (head_addr post) p d) ∧ a ≠ 0 ∧
    rep (put_data a (with_timer (d_timer d - 1) (data_of (head_addr post) p d)) r) pool (pre ++ (a, age d) :: post).
Proof.
  intros [R Hne]. destruct (core_split _ _ _ _ _ _ _ R) as (Ha0 & Hpre & Hpost & Hnd & Hdis & _).
  destruct (dseg_split _ _ _ _ _ _ _ (c_seg _ _ _ _ R)) as (_ & n & p & Ha & Hp & Hn & _). apply dseg_head in Hn as ->.
  exists p. split; [done|]. split; [done|]. split.
  - apply (core_replace 0 0 r _ pool pre a d _ post (head_addr post) p p R Ha); try done.
    + apply R.
    + pose proof (c_ok _ _ _ _ R) as HF. apply Forall_app in HF as [_ HF]. by apply Forall_cons in HF as [[? ?] _].
    + intros b Hb. split; [done|]. intros Hd. by apply (Hdis b).
    + intros b Hb. apply (c_frags _ _ _ _ R) in Hb. rewrite bases_mid, !elem_of_app in Hb. rewrite elem_of_app. cbn [age d_frags]. tauto.
    + cbn [put_data ip_reass_pbufcount]. rewrite (c_count _ _ _ _ R), !held_all_app, !held_all_cons. done.
  - apply Forall_app in Hne as [H1 H2]. apply Forall_app. split; [done|].
    pose proof H2 as [H3 H4]%Forall_cons. by constructor.
Qed.
Lemma bases_filter f ds : NoDup (bases ds) → NoDup (bases (List.filter f ds)) ∧
  ∀ b, b ∈ bases (List.filter f ds) → b ∈ bases ds.
Proof.
  induction ds as [|x ds IH]; [done|]. change (bases (x :: ds)) with (map f_base (d_frags x.2) ++ bases ds).
  intros (H1 & H2 & H3)%NoDup_app. destruct (IH H3) as [I1 I2]. cbn [List.filter]. destruct (f x).
  - change (bases (x :: List.filter f ds)) with (map f_base (d_frags x.2) ++ bases (List.filter f ds)). split.
    + apply NoDup_app. split; [done|]. split; [|done]. intros b Hb Hb'. by apply (H2 b Hb), I2.
    + intros b. rewrite !elem_of_app. intros [?|?%I2]; tauto.
  - split; [done|]. intros b Hb. apply elem_of_app. right. by apply I2.
Qed.
Lemma tmr_loop_spec fuel r pool pre ds s : rep r pool (pre ++ ds) → stack_ok s → (length ds < fuel)%nat →
  held_all (pre ++ ds) <= IP_REASS_MAX_PBUFS → ram ∉ bases ds →
  ∃ r' s' evs pool', tmr_loop ram link room mem fuel (head_addr ds) (last_addr 0 pre) s r = Some (r', s', evs) ∧
    rep r' pool' (pre ++ tick ds) ∧ pool' ≡ₚ (expired ds).*1 ++ pool ∧ stack_ok s' ∧ pcbs s' = pcbs s ∧
    ∀ b, b ≠ ram → consumed b evs = once_in b (bases (expired ds)).
Proof.
  revert r pool pre ds s. induction fuel as [|fuel IH]; intros r pool pre ds s R Hs Hf Hh Hram; [lia|].
  destruct ds as [|[a d] post].
  { eexists r, s, [], pool. split; [done|]. by split_and!. }
  destruct (rep_age r pool pre a d post R) as (p & Ha & Ha0 & Rage).
  cbn [tmr_loop head_addr]. rewrite (proj2 (Z.eqb_neq _ 0) Ha0), Ha. cbn [mbind option_bind data_of g_timer g_next].
  change (bases ((a, d) :: post)) with (map f_base (d_frags d) ++ bases post) in Hram. apply not_elem_of_app in Hram as [Hram1 Hram2].
  unfold tick, expired. cbn [List.filter snd]. destruct (0 <? d_timer d); cbn [negb map].
  - change (pre ++ (a, age d) :: post) with (pre ++ [(a, age d)] ++ post) in Rage. rewrite app_assoc in Rage.
    destruct (IH _ pool (pre ++ [(a, age d)]) post s Rage Hs) as (r' & s' & evs & pool' & E & R' & Hrest); [cbn in Hf; lia| |done|].
    { rewrite !held_all_app, held_all_cons in *. cbn [snd age d_frags held_all foldr] in *. lia. }
    unfold last_addr in E. rewrite last_snoc in E. exists r', s', evs, pool'. split; [exact E|].
    split; [|exact Hrest]. by rewrite <- app_assoc in R'.
  - destruct (free_complete_spec r pool pre a d post 0 s R Hs Hh Hram1) as (r1 & s1 & evs1 & -> & R1 & Hs1 & Hp1 & Hc1).
    cbn [mbind option_bind]. destruct (IH r1 (a :: pool) pre post s1 R1 Hs1) as (r' & s' & evs & pool' & E & R' & Hpool & Hs' & Hp' & Hc');
      [cbn in Hf; lia| |done|].
    { rewrite !held_all_app, held_all_cons in *. pose proof (held_nonneg (d_frags d)). cbn [snd] in *. lia. }
    rewrite E. cbn [mbind option_bind]. exists r', s', (evs1 ++ evs), pool'. split; [done|]. split; [done|].
    split; [rewrite Hpool; cbn; by rewrite <- Permutation_middle|]. split; [done|]. split; [by rewrite Hp'|].
    intros b Hb. rewrite consumed_app, Hc1, Hc' by done. cbn [bases map concat snd]. rewrite once_in_app; [done|].
    pose proof (c_bases _ _ _ _ (proj1 R)) as Hnd. rewrite bases_mid in Hnd. apply NoDup_app in Hnd as (_ & _ & Hnd).
    apply NoDup_app in Hnd as (Hd1 & Hd2 & Hd3). destruct (bases_filter (λ x, negb (0 <? d_timer x.2)) post Hd3) as [Hf1 Hf2].
    apply NoDup_app. split; [done|]. split; [|done]. intros c Hc Hc2. by apply (Hd2 c Hc), Hf2.
Qed.
(** [n] ticks of the timer. *)
Fixpoint timer_ticks (n : nat) (s : stack) (r : reass) : option (reass * stack * list event) :=
  match n with
  | O => Some (r, s, [])
  | S n => '(r, s, evs) ← ip_reass_tmr ram link room mem s r; '(r, s, evs') ← timer_ticks n s r; Some (r, s, evs ++ evs')
  end.
Definition young (n : nat) (ds : list (Z * dgram)) : Prop := Forall (λ x, 0 <= d_timer x.2 < Z.of_nat n) ds.
Lemma ip_reass_tmr_spec r pool ds s : rep r pool ds → stack_ok s → held_all ds <= IP_REASS_MAX_PBUFS → ram ∉ bases ds →
  ∃ r' s' evs pool', ip_reass_tmr ram link room mem s r = Some (r', s', evs) ∧ rep r' pool' (tick ds) ∧
    pool' ≡ₚ (expired ds).*1 ++ pool ∧ stack_ok s' ∧ pcbs s' = pcbs s ∧
    ∀ b, b ≠ ram → consumed b evs = once_in b (bases (expired ds)).
Proof.
  intros R Hs Hh Hram. unfold ip_reass_tmr. rewrite (dseg_head _ _ _ _ (c_seg _ _ _ _ (proj1 R))).
  pose proof (core_length _ _ _ _ (proj1 R)). apply (tmr_loop_spec _ r pool [] ds s); try done. lia.
Qed.
Lemma tick_expired ds : ds.*1 ≡ₚ (expired ds).*1 ++ (tick ds).*1 ∧ bases ds ≡ₚ bases (expired ds) ++ bases (tick ds) ∧
  held_all (tick ds) <= held_all ds.
Proof.
  induction ds as [|[a d] ds (H1 & H2 & H3)]; [done|]. unfold tick, expired in *. cbn [List.filter snd].
  change (bases ((a, d) :: ds)) with (map f_base (d_frags d) ++ bases ds). rewrite held_all_cons.
  pose proof (held_nonneg (d_frags d)). cbn [snd]. destruct (0 <? d_timer d); cbn [negb map].
  - split; [cbn; by rewrite H1, Permutation_middle|]. split; [|cbn [held_all foldr snd age d_frags] in *; unfold held_all in *; lia].
    rewrite H2. unfold bases at 4. cbn [map concat snd age d_frags]. by rewrite Permutation_app_swap_app.
  - split; [cbn; by rewrite H1|]. split; [|lia]. unfold bases at 2. cbn [map concat snd]. rewrite H2. by rewrite app_assoc.
Qed.
Lemma young_tick n ds : young (S n) ds → young n (tick ds).
Proof.
  unfold young, tick. induction 1 as [|[a d] ds Hd _ IH]; [done|]. cbn [List.filter snd] in *.
  destruct (Z.ltb_spec 0 (d_timer d)); [|done]. cbn [map]. constructor; [|done]. cbn. lia.
Qed.

(** C19: An incomplete datagram does not stay for ever.  Let the list of datagrams and their
    chains be intact ([rep]), hold at most ten buffers, and let the buffer for an error message be
    none of them.  When no fragment comes for as many seconds as the oldest timers allow (four for
    a new datagram), the timer frees every buffer held exactly once, gives every structure back to
    the pool, and counts no buffer any more, whether the error messages can be sent or not; it
    never touches freed memory, and the sockets are left alone.  The list is intact from the start
    and as long as the fragments that come have no header options and find room
    ([ip_reass_on_lists]); making room by giving up the
    oldest datagram can break it ([overflow_loses_the_list]), and then nothing is claimed. *)
Theorem incomplete_datagrams_time_out n r pool ds s : rep r pool ds → stack_ok s →
  held_all ds <= IP_REASS_MAX_PBUFS → ram ∉ bases ds → young n ds →
  ∃ r' s' evs pool', timer_ticks n s r = Some (r', s', evs) ∧ rep r' pool' [] ∧ pool' ≡ₚ ds.*1 ++ pool ∧
    ip_reass_pbufcount r' = 0 ∧ pcbs s' = pcbs s ∧
    ∀ b, b ≠ ram → consumed b evs = if bool_decide (b ∈ bases ds) then 1%nat else 0%nat.
Proof.
  revert r pool ds s. induction n as [|n IH]; intros r pool ds s R Hs Hh Hram Hy.
  - destruct ds as [|x ds]; [|apply Forall_cons in Hy as [Hx _]; lia].
    exists r, s, [], pool. split; [done|]. split; [done|]. split; [done|]. split; [apply (c_count _ _ _ _ (proj1 R))|done].
  - destruct (ip_reass_tmr_spec r pool ds s R Hs Hh Hram) as (r1 & s1 & evs1 & pool1 & E1 & R1 & Hp1 & Hs1 & Hu1 & Hc1).
    destruct (tick_expired ds) as (T1 & T2 & T3).
    assert (Hram1 : ram ∉ bases (tick ds)). { intros Hb. apply Hram. rewrite T2. apply elem_of_app. by right. }
    destruct (IH r1 pool1 (tick ds) s1 R1 Hs1 ltac:(lia) Hram1 (young_tick n ds Hy))
      as (r2 & s2 & evs2 & pool2 & E2 & R2 & Hp2 & Hcnt & Hu2 & Hc2).
    cbn [timer_ticks]. rewrite E1. cbn [mbind option_bind]. rewrite E2. cbn [mbind option_bind].
    exists r2, s2, (evs1 ++ evs2), pool2. split; [done|]. split; [done|].
    split; [rewrite Hp2, Hp1, T1, !app_assoc; f_equiv; apply Permutation_app_comm|]. split; [done|]. split; [by rewrite Hu2|].
    intros b Hb. rewrite consumed_app, Hc1, Hc2 by done. fold (once_in b (bases (tick ds))). fold (once_in b (bases ds)).
    rewrite <- once_in_app by (rewrite <- T2; apply (c_bases _ _ _ _ (proj1 R))).
    symmetry. by apply once_in_perm.
Qed.
End timeout.

(** ** Concrete fragments *)
(** Eight bytes of the datagram [id] from 192.168.0.2, at the place [k], in the buffer [a]. *)
Definition eight (id k : Z) (final : bool) (a : Z) : packet :=
  let h := ip_header 28 0x0200a8c0 0x0100a8c0 64 0 IP_PROTO_UDP id in
  let h := store_at 6 (le16 (htons (Z.lor k (if final then 0 else IP_MF)))) h in
  Packet (h ++ repeat (100 + k) 8) a 0 28 true [].
Definition eight_hdr (id k : Z) (final : bool) : list Z := take IP_HLEN (buf (eight id k final 1)).
Definition takes (p : packet) (r : reass) : option (reass * stack * list event * option packet) :=
  ip_reass 8192 (λ _ _ _, 0) None 0 p server r.
Definition takes_all (ps : list packet) (r : reass) : option (reass * list event * option packet) :=
  foldl (λ x p, '(r, evs, q) ← x; '(r, s, evs', q') ← takes p r; Some (r, evs ++ evs', q')) (Some (r, [], None)) ps.
Definition five : list Z := [1; 2; 3; 4; 5].
Definition half_received : reass :=
  match takes (eight 9 0 false 1000) (reass_boot five) with Some (r, _, _, _) => r | None => reass_boot [] end.
Definition half_dgram : dgram := Dgram (eight_hdr 9 0 false) 0 0 IP_REASS_MAXAGE [Frag (eight 9 0 false 1000) 0 8].
Lemma half_received_rep : rep half_received [2; 3; 4; 5] [(1, half_dgram)].
Proof.
  assert (R : rep (reass_boot five) five []).
  { apply rep_boot; apply (bool_decide_eq_true_1 _); by vm_compute. }
  destruct (ip_reass_first 8192 (λ _ _ _, 0) None 0 (reass_boot five) 1 [2; 3; 4; 5] [] (eight 9 0 false 1000)
    (eight_hdr 9 0 false) server half_dgram [] false R) as (r' & E & R'); [|constructor|by vm_compute|].
  - split; [by vm_compute|by vm_compute| |cbn; lia|cbn; lia|vm_compute; discriminate].
    split; [done|apply not_elem_of_nil].
  - unfold half_received, takes. by rewrite E.
Qed.
Lemma ip_reass_refines_lists_witness :
  ∃ r' q, takes (eight 9 1 true 2000) half_received = Some (r', server, [], Some q) ∧
    rep r' [1; 2; 3; 4; 5] [] ∧ drop IP_HLEN (contents q) = repeat 100 8 ++ repeat 101 8 ∧
    is_Some (ideal_reass (eight 9 1 true 2000) (eight_hdr 9 1 true) [2; 3; 4; 5] [(1, half_dgram)]).2.
Proof.
  pose proof (ip_reass_refines_lists 8192 (λ _ _ _, 0) None 0 (eight 9 1 true 2000) (eight_hdr 9 1 true) server
    half_received [2; 3; 4; 5] [(1, half_dgram)] half_received_rep) as T.
  assert (E : spec_reass (eight 9 1 true 2000) (eight_hdr 9 1 true) [2; 3; 4; 5] [(1, half_dgram)] =
    ([1; 2; 3; 4; 5], [], [], Some (Dgram (eight_hdr 9 0 false) 16 1 3
      [Frag (eight 9 0 false 1000) 0 8; Frag (eight 9 1 true 2000) 8 16]))) by (by vm_compute).
  rewrite E in T. destruct T as [(r' & q & Er & R' & p' & Eq & Ep) I].
  - split; [by vm_compute|by vm_compute| |cbn; lia|cbn; lia|vm_compute; discriminate].
    split; [done|]. apply (bool_decide_eq_true_1 _). by vm_compute.
  - by left.
  - exists r', p'. rewrite Eq in Er. split; [exact Er|]. split; [exact R'|].
    assert (Ep' : drop IP_HLEN (contents p') = default [] (drop IP_HLEN <$> (contents <$> Some p'))) by done.
    split; [rewrite Ep', <- Ep; by vm_compute|]. destruct I as [-> _]; [|by vm_compute| |by eexists].
    + constructor; [|constructor]. cbn [half_dgram snd d_frags in_order f_start f_end]. lia.
    + constructor; [|constructor]. intros _. split; vm_compute; reflexivity.
Defined.
Lemma incomplete_datagrams_time_out_witness :
  ∃ r' s' evs pool', timer_ticks 8192 (λ _ _ _, 0) None 0 4 server half_received = Some (r', s', evs) ∧
    rep r' pool' [] ∧ pool' ≡ₚ five ∧ consumed 1000 evs = 1%nat.
Proof.
  destruct (incomplete_datagrams_time_out 8192 (λ _ _ _, 0) None 0 I 4 half_received [2; 3; 4; 5] [(1, half_dgram)] server
    half_received_rep) as (r' & s' & evs & pool' & E & R & P & _ & _ & C).
  - assert (Hn : nif_ok server_if) by (right; vm_compute; split; [discriminate|done]).
    split; [by repeat constructor|]. by intros n [= <-].
  - vm_compute. discriminate.
  - apply (bool_decide_eq_true_1 _). by vm_compute.
  - constructor; [vm_compute; split; [discriminate|done]|constructor].
  - exists r', s', evs, pool'. split; [exact E|]. split; [exact R|]. split; [exact P|]. rewrite C by done. by vm_compute.
Defined.

(** ** What the code does not notice *)
(** Fragments that arrive as the first, the last, and the one before the last of four are taken
    for the datagram: the hole before a fragment put in front of another is not looked at. *)
Example hole_goes_unnoticed :
  ∃ r q, takes_all [eight 7 0 false 1000; eight 7 3 true 2000; eight 7 2 false 3000] (reass_boot five) = Some (r, [], Some q) ∧
    h_len (contents q) = 52 ∧ length (contents q) = 44%nat.
Proof. eexists _, _. split; [by vm_compute|]. split; by vm_compute. Qed.
(** Sixteen bytes of the datagram 7 at its front, when the eight bytes behind the first eight are
    there: they overlap, and the fragment is kept. *)
Definition wide : packet :=
  let h := store_at 6 (le16 (htons IP_MF)) (ip_header 36 0x0200a8c0 0x0100a8c0 64 0 IP_PROTO_UDP 7) in
  Packet (h ++ repeat 100 16) 2000 0 36 true [].
Example overlapping_front_is_kept :
  existsb (meets 0 16) [Frag (eight 7 1 true 1000) 8 16] = true ∧
  ∃ r, takes_all [eight 7 1 true 1000; wide] (reass_boot five) = Some (r, [], None) ∧ ip_reass_pbufcount r = 2.
Proof. split; [by vm_compute|]. eexists. split; by vm_compute. Qed.
(** A fragment that is thrown away, because one with its offset is there, has set the length. *)
Example dropped_fragment_ends_datagram :
  ∃ r q, takes_all [eight 7 0 false 1000; eight 7 0 true 2000; eight 7 1 false 3000] (reass_boot five)
      = Some (r, [EvFree 2000], Some q) ∧
    h_len (contents q) = 28 ∧ length (contents q) = 36%nat.
Proof. eexists _, _. split; [by vm_compute|]. split; by vm_compute. Qed.
(** With ten buffers held for three datagrams, the oldest is freed while the element before the
    one to continue is remembered: the list is left with a freed structure in it, and the
    following fragment runs into it. *)
Definition ten_held : list packet :=
  map (λ k, eight 1 k false (1000 + k)) [0; 1; 2; 3] ++ map (λ k, eight 2 k false (2000 + k)) [0; 1; 2] ++
  map (λ k, eight 3 k false (3000 + k)) [0; 1; 2].
Example overflow_loses_the_list :
  is_Some (takes_all ten_held (reass_boot five)) ∧
  takes_all (ten_held ++ [eight 1 4 false 4000]) (reass_boot five) = None.
Proof. split; [eexists|]; by vm_compute. Qed.
