(* ===== verification/Datagram.v ===== *)
(** * Datagrams longer than the MTU, from socket to socket

    The sender's path ([Ip]) and the receiver's ([IpInput], [IpReass]) composed: the fragments
    that [udp_sendto_if] hands to the interface, received in order, are put together and
    delivered as what was sent. *)
From S2P Require Import Prelude Chksum Udp Ip IpInput IpReass.

(** ** A fragment on the wire *)

(** A buffer holds the frame [f], with link padding behind it. *)
Record arrives (f : list Z) (P : packet) : Prop := {
  ar_ok : packet_ok P;
  ar_one : more P = [];
  ar_buf : (off P + 28 <= length (buf P))%nat;
  ar_frame : ∃ pad, contents P = f ++ pad }.

(** One byte a fragment's header has from the datagram's. *)
Ltac copied_byte G i :=
  let E := fresh "E" in
  pose proof (G i _ ltac:(unfold copied; repeat constructor) eq_refl) as E; cbn in E; injection E as ->.
Lemma fragment_shape `{StdChksum} mtu tot src dst ttl tos proto id seg f o mf d :
  fragment mtu (ip_header tot src dst ttl tos proto id ++ seg) f o mf d →
  ∃ l0 l1 f0 f1 k0 k1, f = header tos l0 l1 (byte_of 0 (htons id)) (byte_of 1 (htons id)) f0 f1 ttl proto k0 k1 src dst ++ d.
Proof.
  intros F. pose proof (fr_rest _ _ _ _ _ _ F) as R. pose proof (fr_data _ _ _ _ _ _ F) as Hd.
  assert (Hl : (20 <= length f)%nat).
  { pose proof (R 19%nat ltac:(unfold copied; repeat constructor)) as E. apply lookup_lt_is_Some. rewrite E. by eexists. }
  do 20 (destruct f as [|? f]; [cbn in Hl; lia|]).
  assert (G : ∀ i x, copied i → (ip_header tot src dst ttl tos proto id ++ seg) !! i = Some x →
    (z :: z0 :: z1 :: z2 :: z3 :: z4 :: z5 :: z6 :: z7 :: z8 :: z9 :: z10 :: z11 :: z12 :: z13 :: z14 :: z15 :: z16 :: z17 :: z18 :: f) !! i = Some x).
  { intros i x Hi <-. by apply R. }
  clear R F. exists z1, z2, z5, z6, z9, z10. cbn [drop IP_HLEN] in Hd. rewrite <- Hd.
  copied_byte G 0%nat. copied_byte G 1%nat. copied_byte G 4%nat. copied_byte G 5%nat. copied_byte G 8%nat.
  copied_byte G 9%nat. copied_byte G 12%nat. copied_byte G 13%nat. copied_byte G 14%nat. copied_byte G 15%nat.
  copied_byte G 16%nat. copied_byte G 17%nat. copied_byte G 18%nat. copied_byte G 19%nat.
  reflexivity.
Qed.

Lemma byte_of_land k x y : byte_of k (Z.land x y) = Z.land (byte_of k x) (byte_of k y).
Proof.
  unfold byte_of. apply Z.bits_inj'. intros n Hn. rewrite !Z.land_spec, Z.shiftr_land, Z.land_spec. btauto.
Qed.
Lemma htons_land x y : htons (Z.land x y) = Z.land (htons x) (htons y).
Proof.
  unfold htons. rewrite !byte_of_land. apply Z.bits_inj'. intros n Hn.
  rewrite !Z.lor_spec, !Z.land_spec, !Z.lor_spec, !Z.shiftl_spec by lia. rewrite Z.land_spec.
  destruct (Z.lt_ge_cases n 8).
  - rewrite !(Z.testbit_neg_r _ (n - 8)) by lia. btauto.
  - rewrite !(byte_bits_high (byte_of 1 _)) by (try apply byte_of_byte; lia). btauto.
Qed.
(** The test for a fragment does not miss one. *)
Lemma fragment_bits x : 0 <= x < 65536 → Z.land x (htons (Z.lor IP_OFFMASK IP_MF)) = 0 →
  Z.land (htons x) IP_OFFMASK = 0 ∧ Z.land (htons x) IP_MF = 0.
Proof.
  intros Hx E. assert (E' : Z.land (htons x) 0x3fff = 0).
  { change 0x3fff with (htons (htons (Z.lor IP_OFFMASK IP_MF))). by rewrite <- htons_land, E. }
  split.
  - change IP_OFFMASK with (Z.land 0x3fff IP_OFFMASK). by rewrite Z.land_assoc, E'.
  - change IP_MF with (Z.land 0x3fff IP_MF). by rewrite Z.land_assoc, E'.
Qed.
Lemma fraghdr_of_contents p : packet_ok p → (IP_HLEN <= len p)%nat → fraghdr_of p = Some (take IP_HLEN (contents p)).
Proof.
  intros (_ & Hl & _) H. unfold fraghdr_of. destruct (Nat.leb_spec (off p + IP_HLEN) (length (buf p))); [|lia].
  f_equal. unfold contents, payload, slice. rewrite take_app_le by (rewrite length_take, length_drop; lia).
  rewrite take_take. f_equal. lia.
Qed.

(** ** Fragments in order *)
(** [l] covers the places from [s] to [e] without a hole. *)
Fixpoint pieces (s : Z) (l : list frag) (e : Z) : Prop :=
  match l with
  | [] => s = e
  | f :: l => f_start f = s ∧ s < f_end f ∧ pieces (f_end f) l e
  end.
Lemma pieces_le s l e : pieces s l e → s <= e ∧ (l ≠ [] → s < e).
Proof.
  revert s. induction l as [|f l IH]; intros s; [cbn; intros ->; split; [lia|done]|].
  intros (_ & H1 & H2). destruct (IH _ H2). split; [lia|]. intros _. lia.
Qed.
Lemma pieces_snoc s l e p e2 : pieces s l e → e < e2 → pieces s (l ++ [Frag p e e2]) e2.
Proof.
  revert s. induction l as [|f l IH]; intros s; cbn [app pieces]; [intros -> He; by split_and!|].
  intros (-> & H1 & H2) He. split; [done|]. split; [done|]. by apply IH.
Qed.
Lemma pieces_last s l e f : pieces s l e → last l = Some f → f_end f = e.
Proof.
  revert s. induction l as [|g l IH]; intros s; [done|]. intros (_ & _ & H). destruct l as [|x l].
  - intros [= <-]. exact H.
  - change (last (g :: x :: l)) with (last (x :: l)). by apply (IH (f_end g)).
Qed.
(** The walk goes to the end and sees no hole. *)
Lemma spec_place_end s l e e2 pf : pieces s l e → match pf with Some f => f_end f = s | None => True end →
  spec_place e e2 pf true l = Some (l, [], true).
Proof.
  revert s pf. induction l as [|t l IH]; intros s pf; [done|]. intros (Es & H1 & H2) Hpf.
  destruct (pieces_le _ _ _ H2) as [H3 _]. cbn [spec_place]. rewrite Es.
  destruct (Z.ltb_spec e s); [lia|]. destruct (Z.eqb_spec e s); [lia|]. destruct (Z.ltb_spec e (f_end t)); [lia|].
  assert (Ev : match pf with Some f => if f_end f =? s then true else false | None => true end = true).
  { destruct pf as [f|]; [|done]. by rewrite Hpf, Z.eqb_refl. }
  rewrite Ev. by rewrite (IH (f_end t) (Some t) H2 eq_refl).
Qed.
Lemma spec_add_end p h d e e2 : pieces 0 (d_frags d) e → frag_offset h = e → u16 (e + frag_len h) = e2 →
  spec_add p h d = (with_frags (d_frags d ++ [Frag p e e2]) d, [], negb (Z.land (d_flags d) IP_REASS_FLAG_LASTFRAG =? 0)).
Proof.
  intros Hp Ho He. unfold spec_add. cbv zeta. rewrite Ho, He. rewrite (spec_place_end 0 _ e _ None) by done.
  assert (Ev : match last (d_frags d) with Some f => if f_end f =? e then true else false | None => true end = true).
  { destruct (last (d_frags d)) as [f|] eqn:El; [|done]. by rewrite (pieces_last _ _ _ _ Hp El), Z.eqb_refl. }
  rewrite Ev. cbn [spec_no_holes]. rewrite !andb_true_r.
  assert (E0 : match d_frags d ++ [Frag p e e2] with f :: _ => f_start f =? 0 | [] => false end = true).
  { destruct (d_frags d) as [|f l]; cbn in *; [by subst|]. destruct Hp as (-> & _). done. }
  by rewrite E0, andb_true_r.
Qed.

(** ** The packet put together *)
Definition frag_data (f : frag) : list Z := drop IP_HLEN (contents (f_pkt f)).
Definition frag_pkt_ok (f : frag) : Prop := packet_ok (f_pkt f) ∧ (IP_HLEN <= len (f_pkt f))%nat.
Lemma bytes_of_app l1 l2 : bytes_of (l1 ++ l2) = bytes_of l1 ++ bytes_of l2.
Proof. unfold bytes_of. by rewrite map_app, concat_app. Qed.
Lemma chained_data l : Forall frag_pkt_ok l →
  let L := concat (map (λ f, payloads (default (f_pkt f) (hide_header IP_HLEN (f_pkt f)))) l) in
  chain_ok L ∧ bytes_of L = concat (map frag_data l).
Proof.
  induction 1 as [|f l [Hf Hl] _ [IH1 IH2]]; [by split; [constructor|]|]. cbn [map concat].
  rewrite hide_header_Some by done. cbn [default id].
  destruct (hide_header_spec IP_HLEN (f_pkt f) _ Hf (hide_header_Some IP_HLEN (f_pkt f) Hl)) as (Hq & Hc & _).
  split; [apply Forall_app; split; [by apply payloads_ok|done]|].
  rewrite bytes_of_app, IH2, bytes_of_payloads, Hc. done.
Qed.
Lemma restored_ok `{StdChksum} a h n : bytes_ok h → length h = IP_HLEN →
  bytes_ok (restored a h n) ∧ length (restored a h n) = IP_HLEN.
Proof.
  intros Hb Hl. unfold restored, IP_HLEN in *.
  assert (H1 : length (store_at 2 (le16 (htons n)) h) = 20%nat) by (apply length_store_same; cbn; lia).
  assert (H2 : length (store_at 6 [0; 0] (store_at 2 (le16 (htons n)) h)) = 20%nat) by (apply length_store_same; cbn; lia).
  assert (H3 : length (store_at 10 [0; 0] (store_at 6 [0; 0] (store_at 2 (le16 (htons n)) h))) = 20%nat)
    by (apply length_store_same; cbn; lia).
  assert (H0 : bytes_ok [0; 0]) by (repeat constructor; unfold is_byte; lia).
  split; [|apply length_store_same; [done|cbn; lia]]. repeat apply store_at_bytes; try apply le16_ok; done.
Qed.
Lemma assembled `{StdChksum} d f l q : d_frags d = f :: l → Forall frag_pkt_ok (f :: l) → bytes_ok (d_hdr d) →
  length (d_hdr d) = IP_HLEN → spec_packet d = Some q → Z.of_nat (IP_HLEN + length (concat (map frag_data (f :: l)))) < 65536 →
  packet_ok q ∧ len q = len (f_pkt f) ∧
  ∃ a, contents q = restored a (d_hdr d) (u16 (d_len d + 20)) ++ concat (map frag_data (f :: l)).
Proof.
  intros El Hoks Hb Hh Hq Hsz. unfold spec_packet in Hq. rewrite El in Hq. pose proof Hoks as [[Hf Hl] Hoks']%Forall_cons.
  pose proof Hf as (_ & Hfb & _). rewrite restore_header_spec in Hq by (done || lia). cbn [mbind option_bind] in Hq.
  set (p := f_pkt f) in *. set (a := base p + Z.of_nat (off p)) in *. set (h := restored a (d_hdr d) (u16 (d_len d + 20))) in *.
  destruct (restored_ok a (d_hdr d) (u16 (d_len d + 20)) Hb Hh) as [Hhb Hhl]. fold h in Hhb, Hhl.
  destruct (write_front h p Hf Hhb ltac:(by rewrite Hhl)) as (b & Ew & Hp' & Hlb & Hc).
  assert (Eb : b = store_at (off p) h (buf p)).
  { unfold wr in Ew. destruct (_ <=? _)%nat; [|done]. by injection Ew as <-. }
  rewrite <- Eb in Hq. destruct (chained_data l Hoks') as [HL1 HL2]. set (L := concat (map _ l)) in *.
  injection Hq as <-. assert (Hcq : contents (with_more L (with_buf b p)) = contents (with_buf b p) ++ bytes_of L).
  { unfold contents. cbn [with_more more payload with_buf buf off len]. by rewrite bytes_of_app, app_assoc. }
  assert (Hct : contents (with_more L (with_buf b p)) = h ++ concat (map frag_data (f :: l))).
  { rewrite Hcq, HL2, Hc, Hhl. cbn [map concat]. by rewrite <- app_assoc. }
  split; [|split; [done|by exists a]]. destruct Hp' as (B1 & B2 & B3 & B4).
  split; [done|]. split; [done|]. split; [by apply Forall_app|].
  assert (Et : tot_len (with_more L (with_buf b p)) = length (contents (with_more L (with_buf b p)))).
  { unfold tot_len, contents. rewrite length_app. f_equal. unfold payload. by rewrite length_slice. }
  rewrite Et, Hct, length_app, Hhl. done.
Qed.

(** ** Receiving one *)
Section path.
Context `{StdChksum}.
Variables (ram : Z) (link : nif → list Z → Z → Z) (raw : Z → packet → bool) (room : option (list Z)) (k : nat).
Variables (inp : nif) (s : stack) (mtu : Z) (tot : nat) (src dst ttl tos proto id : Z) (seg : list Z).
Hypothesis Hsrc : is_u32 src.
Hypothesis Hdst : is_u32 dst.
Hypothesis Hacc : is_Some (accepted_on dst inp s).
Hypothesis Hok : src = 0 ∨ ip4_addr_isbroadcast src (n_view inp) = false ∧ ismulticast src = false.
Let original : list Z := ip_header tot src dst ttl tos proto id ++ seg.

(** What [ip_input] does with the result of the reassembly. *)
Definition after_reass (x : option (reass * stack * list event * option packet))
  : option (reass * stack * list event) :=
  '(r, s, evs, q) ← x;
  match q with
  | None => Some (r, s, evs)
  | Some p =>
    proto ← rd8 (off p + 9) (buf p);
    '(s, evs') ← deliver ram link raw room k p proto src dst inp s; Some (r, s, evs ++ evs')
  end.
Lemma input_fragment f o mf d P r : fragment mtu original f o mf d → arrives f P → (o ≠ 0 ∨ mf ≠ 0) →
  let q := pbuf_realloc P (length f) in
  ip_input_reass ram link raw room k P inp s r = after_reass (ip_reass ram link room k q s r) ∧
  packet_ok q ∧ base q = base P ∧ contents q = f ∧ len q = length f ∧ fraghdr_of q = Some (take IP_HLEN f) ∧
  more q = [] ∧ (off q + 28 <= length (buf q))%nat.
Proof.
  intros F [Hp Hone Hbuf [pad Hc]] Hfr q. destruct (fragment_shape _ _ _ _ _ _ _ _ _ _ _ _ _ F) as (l0 & l1 & f0 & f1 & k0 & k1 & Ef).
  set (i0 := byte_of 0 (htons id)) in *. set (i1 := byte_of 1 (htons id)) in *. destruct Hacc as [n' Hacc'].
  pose proof (fr_len _ _ _ _ _ _ F) as Hlen. pose proof (fr_sum _ _ _ _ _ _ F) as Hsum.
  assert (Hlf : length f = (IP_HLEN + length d)%nat) by (by rewrite Ef).
  rewrite Ef, <- app_assoc in Hc.
  destruct (ip_input_checked ram link raw room k P inp s d pad tos l0 l1 i0 i1 f0 f1 ttl proto k0 k1 src dst n'
    Hp Hone Hc) as (E & Q1 & Q2 & Q3 & Q4 & Q5 & Q6 & Q7 & Q8); try done.
  { rewrite <- Hlf, <- Hlen, Ef. done. }
  { intros a. rewrite <- (Hsum a), Ef. done. }
  rewrite <- Hlf in *. fold q in E, Q1, Q2, Q3, Q4, Q5, Q6, Q7, Q8. rewrite <- Ef in Q7.
  split; [|split_and!; try done].
  2: { rewrite fraghdr_of_contents by (done || (rewrite Q8; lia)). by rewrite Q7. }
  2: { by rewrite Q4, Q5. }
  assert (Hb6 : f !! 6%nat = Some f0 ∧ f !! 7%nat = Some f1) by (by rewrite Ef).
  assert (Hbytes : is_byte f0 ∧ is_byte f1).
  { pose proof (contents_ok q Q1) as HB. rewrite Q7 in HB. split; eapply (Forall_lookup_1 _ _ _ _ HB); apply Hb6. }
  assert (Hx : 0 <= of_le16 f0 f1 < 65536).
  { rewrite of_le16_add by apply Hbytes. destruct Hbytes as [B0 B1]. unfold is_byte in *. lia. }
  assert (Hhf : h_frag f = htons (of_le16 f0 f1)) by (by rewrite Ef).
  pose proof (fr_off _ _ _ _ _ _ F) as Ho. pose proof (fr_mf _ _ _ _ _ _ F) as Hmf. rewrite Hhf in Ho, Hmf.
  destruct (Z.eqb_spec (Z.land (of_le16 f0 f1) (htons (Z.lor IP_OFFMASK IP_MF))) 0) as [E0|_].
  { destruct (fragment_bits _ Hx E0). lia. }
  unfold ip_input_reass. rewrite E. cbn [negb mbind option_bind].
  assert (Hs : slice 12 4 (contents q) = le32 src ∧ slice 16 4 (contents q) = le32 dst) by (by rewrite Q7, Ef).
  rewrite (rd32_at q 12 src) by (done || (rewrite Q8, Hlf; unfold IP_HLEN; lia) || apply Hs). cbn [mbind option_bind].
  rewrite (rd32_at q 16 dst) by (done || (rewrite Q8, Hlf; unfold IP_HLEN; lia) || apply Hs). cbn [mbind option_bind].
  done.
Qed.
(** What the header of a fragment says. *)
Lemma fragment_hdr f o mf d : fragment mtu original f o mf d → 0 <= o → 8 * o + Z.of_nat (length d) <= 65535 →
  let h := take IP_HLEN f in
  frag_offset h = 8 * o ∧ u16 (8 * o + frag_len h) = 8 * o + Z.of_nat (length d) ∧ Z.land (h !!! 0%nat) 15 = 5 ∧
  Z.land (h_frag h) IP_MF = mf ∧ Z.land (h_frag h) IP_OFFMASK = o ∧
  ∀ x, same_datagram x h = same_datagram x (take IP_HLEN original).
Proof.
  intros F Ho Hsz h. pose proof (fr_off _ _ _ _ _ _ F) as Fo. pose proof (fr_mf _ _ _ _ _ _ F) as Fm.
  pose proof (fr_len _ _ _ _ _ _ F) as Fl.
  destruct (fragment_shape _ _ _ _ _ _ _ _ _ _ _ _ _ F) as (l0 & l1 & f0 & f1 & k0 & k1 & Ef).
  assert (Eh : h = header tos l0 l1 (byte_of 0 (htons id)) (byte_of 1 (htons id)) f0 f1 ttl proto k0 k1 src dst).
  { unfold h. by rewrite Ef. }
  assert (E1 : h_frag h = h_frag f ∧ h_len h = h_len f) by (by rewrite Eh, Ef). destruct E1 as [E1 E2].
  assert (El : Z.of_nat (length f) = 20 + Z.of_nat (length d)) by (rewrite Ef, length_app; cbn; lia).
  split_and!.
  - unfold frag_offset. rewrite E1, Fo, u16_small; lia.
  - unfold frag_len. rewrite E2, Fl, El. replace (Z.land (h !!! 0%nat) 15 * 4) with 20 by (by rewrite Eh).
    rewrite (u16_small (20 + _ - 20)) by lia. rewrite u16_small by lia. lia.
  - by rewrite Eh.
  - by rewrite E1.
  - by rewrite E1.
  - intros x. by rewrite Eh.
Qed.
Lemma after_reass_end x : ('(r, s, evs) ← after_reass x; Some (r, s, evs ++ [])) = after_reass x.
Proof. destruct (after_reass x) as [[[r s'] evs]|]; [|done]. cbn. by rewrite app_nil_r. Qed.
Definition trimmed (f : list Z) (P : packet) : packet := pbuf_realloc P (length f).

(** One fragment of a datagram whose fragments came in order so far. *)
Lemma next_fragment f o mf d P r pool a l ds hdr : fragment mtu original f o mf d → arrives f P → 0 < o →
  8 * o + Z.of_nat (length d) <= 65535 → mf = 0 ∨ mf = IP_MF → d ≠ [] →
  rep r pool ((a, Dgram hdr 0 0 IP_REASS_MAXAGE l) :: ds) → pieces 0 l (8 * o) →
  same_datagram hdr (take IP_HLEN original) = true → base P ≠ 0 → base P ∉ map f_base l ++ bases ds →
  held l + held_all ds + 1 <= IP_REASS_MAX_PBUFS →
  let l' := l ++ [Frag (trimmed f P) (8 * o) (8 * o + Z.of_nat (length d))] in
  if mf =? 0
  then ∃ r' q, ip_reass ram link room k (trimmed f P) s r = Some (r', s, [], Some q) ∧
    spec_packet (Dgram hdr (8 * o + Z.of_nat (length d)) 1 IP_REASS_MAXAGE l') = Some q ∧ rep r' (a :: pool) ds
  else ∃ r', ip_reass ram link room k (trimmed f P) s r = Some (r', s, [], None) ∧
    rep r' pool ((a, Dgram hdr 0 0 IP_REASS_MAXAGE l') :: ds).
Proof.
  intros F A Ho Hsz Hmf Hd R Hp Hm H0 Hb Hroom l'.
  destruct (input_fragment f o mf d P r F A ltac:(lia)) as (_ & Q1 & Q2 & Q3 & Q4 & Q5 & Q6 & Q7). fold (trimmed f P) in *.
  destruct (fragment_hdr f o mf d F ltac:(lia) Hsz) as (H1 & H2 & H3 & H4 & H5 & H6). set (h := take IP_HLEN f) in *.
  set (d0 := Dgram hdr 0 0 IP_REASS_MAXAGE l) in *.
  assert (Acc : acceptable (trimmed f P) h ((a, d0) :: ds)).
  { split; [done|done| |done|by rewrite Q6; cbn; lia|].
    - rewrite Q2. by split.
    - rewrite held_all_cons. cbn [snd d0 d_frags]. unfold clen. rewrite Q6. change (u8 (Z.of_nat (S (length [])))) with 1. lia. }
  assert (En : spec_note true h d0 = if mf =? 0 then Dgram hdr (8 * o + Z.of_nat (length d)) 1 IP_REASS_MAXAGE l else d0).
  { unfold spec_note. rewrite H4, H5, H1, H2. destruct (Z.eqb_spec o 0); [lia|]. cbn [andb d0 d_hdr d_len d_flags d_timer d_frags].
    by destruct (mf =? 0). }
  assert (Hlt : 8 * o < 8 * o + Z.of_nat (length d)) by (destruct d; [done|cbn; lia]).
  assert (Hp1 : pieces 0 (d_frags (spec_note true h d0)) (8 * o)) by (by rewrite spec_note_frags).
  pose proof (ip_reass_known ram link room k r pool [] a d0 ds (trimmed f P) h s _ _ _ R Acc ltac:(constructor)
    ltac:(unfold matches; cbn [snd d0 d_hdr]; by rewrite H6) (spec_add_end _ h _ _ _ Hp1 H1 H2)) as Hk.
  rewrite En in Hk. destruct (mf =? 0); exact Hk.
Qed.
Lemma first_fragment f d P r pool a ds : fragment mtu original f 0 IP_MF d → arrives f P →
  Z.of_nat (length d) <= 65535 → d ≠ [] → rep r (a :: pool) ds →
  Forall (λ x, matches (take IP_HLEN original) x = false) ds → base P ≠ 0 → base P ∉ bases ds →
  held_all ds + 1 <= IP_REASS_MAX_PBUFS →
  let h := take IP_HLEN f in
  same_datagram h (take IP_HLEN original) = true ∧
  ∃ r', ip_reass ram link room k (trimmed f P) s r = Some (r', s, [], None) ∧
    rep r' pool ((a, Dgram h 0 0 IP_REASS_MAXAGE [Frag (trimmed f P) 0 (Z.of_nat (length d))]) :: ds).
Proof.
  intros F A Hsz Hd R Hno H0 Hb Hroom h.
  destruct (input_fragment f 0 IP_MF d P r F A ltac:(by right)) as (_ & Q1 & Q2 & Q3 & Q4 & Q5 & Q6 & Q7). fold (trimmed f P) in *.
  destruct (fragment_hdr f 0 IP_MF d F ltac:(lia) ltac:(lia)) as (H1 & H2 & H3 & H4 & H5 & H6). fold h in Q5, H1, H2, H3, H4, H5, H6.
  rewrite <- H6. split.
  { unfold same_datagram. by rewrite !bool_decide_eq_true_2. }
  assert (Acc : acceptable (trimmed f P) h ds).
  { split; [done|done| |done|by rewrite Q6; cbn; lia|].
    - rewrite Q2. by split.
    - unfold clen. rewrite Q6. change (u8 (Z.of_nat (S (length [])))) with 1. lia. }
  set (d0 := Dgram h 0 0 IP_REASS_MAXAGE []).
  assert (En : spec_note false h d0 = d0) by (unfold spec_note; by rewrite H4).
  pose proof (ip_reass_first ram link room k r a pool ds (trimmed f P) h s _ _ _ R Acc
    ltac:(eapply Forall_impl; [exact Hno|]; intros x Hx; unfold matches in *; by rewrite H6)
    (spec_add_end _ h (spec_note false h d0) 0 _ ltac:(by rewrite En) H1 H2)) as Hk.
  rewrite En in Hk. exact Hk.
Qed.
(** Buffers with addresses of their own. *)
Definition fresh_buffers (Ps : list packet) (held_bases : list Z) : Prop :=
  NoDup (map base Ps) ∧ Forall (λ P, base P ≠ 0 ∧ base P ∉ held_bases) Ps.
Lemma fresh_cons P Ps l : fresh_buffers (P :: Ps) l →
  base P ≠ 0 ∧ base P ∉ l ∧ fresh_buffers Ps (l ++ [base P]).
Proof.
  intros [H1 H2]. cbn [map] in H1. apply NoDup_cons in H1 as [H1 H1']. apply Forall_cons in H2 as [[H3 H4] H2].
  split; [done|]. split; [done|]. split; [done|]. apply Forall_forall. intros Q HQ.
  rewrite Forall_forall in H2. destruct (H2 Q HQ) as [? ?]. split; [done|]. rewrite not_elem_of_app, list_elem_of_singleton.
  split; [done|]. intros E. apply H1. rewrite <- E. by apply list_elem_of_fmap_2.
Qed.
Lemma fresh_perm Ps l l' : l ≡ₚ l' → fresh_buffers Ps l → fresh_buffers Ps l'.
Proof.
  intros E [H1 H2]. split; [done|]. eapply Forall_impl; [exact H2|]. intros P [? ?]. split; [done|]. by rewrite <- E.
Qed.
Definition pieces_of (fs : list (list Z)) (Ps : list packet) : list packet := zip_with trimmed fs Ps.
(** The fragments after the first, in order. *)
Lemma rest_in_order o data fs : fragments mtu original 0 o data fs → ∀ r pool a l ds Ps hdr,
  0 < o → 8 * o + Z.of_nat (length data) <= 65535 →
  rep r pool ((a, Dgram hdr 0 0 IP_REASS_MAXAGE l) :: ds) → pieces 0 l (8 * o) →
  same_datagram hdr (take IP_HLEN original) = true → Forall2 arrives fs Ps →
  fresh_buffers Ps (map f_base l ++ bases ds) → held l + held_all ds + Z.of_nat (length fs) <= IP_REASS_MAX_PBUFS →
  ∃ r' q frs, receive ram link raw room k Ps inp s r = after_reass (Some (r', s, [], Some q)) ∧ rep r' (a :: pool) ds ∧
    spec_packet (Dgram hdr (8 * o + Z.of_nat (length data)) 1 IP_REASS_MAXAGE (l ++ frs)) = Some q ∧
    map f_pkt frs = pieces_of fs Ps.
Proof.
  induction 1 as [o d f Hd F|o n d d' f fs Hn Hlen F Hfs IH]; intros r pool a l ds Ps hdr Ho Hsz R Hp Hm HA Hfresh Hroom.
  - inversion HA as [|? P ? ? A HA']; subst. inversion HA'; subst. destruct (fresh_cons _ _ _ Hfresh) as (H0 & Hb & _).
    destruct (input_fragment f o 0 d P r F A ltac:(lia)) as (E & _).
    destruct (next_fragment f o 0 d P r pool a l ds hdr F A Ho Hsz ltac:(by left) Hd R Hp Hm H0 Hb) as (r' & q & Er & Eq & R');
      [cbn [length] in Hroom; lia|].
    exists r', q, [Frag (trimmed f P) (8 * o) (8 * o + Z.of_nat (length d))].
    split; [|by split_and!]. cbn [receive]. rewrite E. fold (trimmed f P). rewrite Er. apply after_reass_end.
  - inversion HA as [|? P ? Ps' A HA']; subst. destruct (fresh_cons _ _ _ Hfresh) as (H0 & Hb & Hfresh').
    rewrite length_app in Hsz. assert (Hd : d ≠ []) by (destruct d; [cbn in Hlen; lia|done]).
    destruct (input_fragment f o IP_MF d P r F A ltac:(by left; lia)) as (E & Q1 & Q2 & Q3 & Q4 & Q5 & Q6 & _).
    destruct (next_fragment f o IP_MF d P r pool a l ds hdr F A Ho ltac:(lia) ltac:(by right) Hd R Hp Hm H0 Hb) as (r1 & Er & R1);
      [cbn [length] in Hroom; lia|].
    set (x := Frag (trimmed f P) (8 * o) (8 * o + Z.of_nat (length d))) in *.
    assert (Hx : f_base x = base P) by done.
    assert (Hcl : clen (f_pkt x) = 1) by (unfold clen; change (more (f_pkt x)) with (more (trimmed f P)); unfold trimmed; by rewrite Q6).
    destruct (IH r1 pool a (l ++ [x]) ds Ps' hdr) as (r' & q & frs & Erec & R' & Eq & Efrs); try done; try lia.
    { replace (8 * (o + Z.of_nat n)) with (8 * o + Z.of_nat (length d)) by lia. apply pieces_snoc; [done|lia]. }
    { eapply fresh_perm; [|exact Hfresh']. rewrite map_app. cbn [map]. rewrite Hx, <- !app_assoc. f_equiv. by rewrite Permutation_app_comm. }
    { rewrite held_app, held_cons, Hcl. cbn [length] in Hroom. change (held []) with 0. lia. }
    exists r', q, (x :: frs). split.
    + cbn [receive]. rewrite E. fold (trimmed f P). rewrite Er. cbn [after_reass mbind option_bind]. rewrite Erec.
      transitivity (after_reass (Some (r', s, [], Some q))); [|reflexivity].
      generalize (after_reass (Some (r', s, [], Some q))) as y. intros [[[? ?] ?]|]; reflexivity.
    + split; [done|]. split; [|unfold pieces_of; cbn [map zip_with]; by f_equal].
      rewrite <- Eq, <- app_assoc. cbn [app]. do 2 f_equal. rewrite length_app. lia.
Qed.
(** Trimmed of their padding, the buffers hold the fragments. *)
Lemma pieces_of_contents omf o data fs Ps : fragments mtu original omf o data fs → Forall2 arrives fs Ps →
  map contents (pieces_of fs Ps) = fs ∧ Forall (λ p, packet_ok p ∧ (IP_HLEN <= len p)%nat) (pieces_of fs Ps).
Proof.
  intros F. revert Ps. assert (one : ∀ f o mf d P, fragment mtu original f o mf d → arrives f P →
    contents (trimmed f P) = f ∧ packet_ok (trimmed f P) ∧ (IP_HLEN <= len (trimmed f P))%nat).
  { clear. intros f o mf d P F [Hp Hone _ [pad Hc]].
    destruct (fragment_shape _ _ _ _ _ _ _ _ _ _ _ _ _ F) as (l0 & l1 & f0 & f1 & k0 & k1 & Ef).
    assert (Hl : (IP_HLEN <= length f)%nat) by (rewrite Ef, length_app; apply Nat.le_add_r).
    pose proof (contents_length P Hp) as Hcl. rewrite Hc, length_app in Hcl.
    destruct (pbuf_realloc_spec P (length f) Hp Hone ltac:(lia)) as (Q1 & _ & Q2 & Q3 & _). unfold trimmed.
    rewrite Q3, Q2, Hc, take_app_length. done. }
  induction F as [o d f _ F|o n d d' f fs _ _ F _ IH]; intros Ps HA; inversion HA as [|? P ? Ps' A HA']; subst;
    destruct (one _ _ _ _ _ F A) as (E1 & E2 & E3); unfold pieces_of in *; cbn [map zip_with]; rewrite E1.
  - inversion HA'; subst. split; [done|]. constructor; [by split|constructor].
  - destruct (IH _ HA') as [I1 I2]. rewrite I1. split; [done|]. by constructor.
Qed.
(** What is put together from them. *)
Lemma put_together f fs P Ps data d n fl t frs q : fragments mtu original 0 0 data (f :: fs) →
  Forall2 arrives (f :: fs) (P :: Ps) → Z.of_nat (IP_HLEN + length data) < 65536 →
  fragment mtu original f 0 IP_MF d → (8 <= length d)%nat → map f_pkt frs = pieces_of (f :: fs) (P :: Ps) →
  spec_packet (Dgram (take IP_HLEN f) n fl t frs) = Some q →
  ∃ h, packet_ok q ∧ (28 <= len q)%nat ∧ contents q = h ++ data ∧
    length h = IP_HLEN ∧ h !! 0%nat = Some 69 ∧ h !! 9%nat = Some proto.
Proof.
  intros F HA Hsz F1 Hd Hf Hq. destruct (pieces_of_contents _ _ _ _ _ F HA) as [Hpc Hpo].
  pose proof (fragments_data _ _ _ _ _ _ F) as Hdata. rewrite <- Hf in Hpc, Hpo.
  destruct frs as [|x frs]; [done|]. unfold pieces_of in Hf. cbn [map zip_with] in Hf. injection Hf as Hx _.
  assert (Ed : concat (map frag_data (x :: frs)) = data).
  { rewrite <- Hdata, <- Hpc, map_map, map_map. done. }
  assert (Hpk : Forall frag_pkt_ok (x :: frs)) by (by apply Forall_map in Hpo).
  destruct (fragment_shape _ _ _ _ _ _ _ _ _ _ _ _ _ F1) as (l0 & l1 & f0 & f1 & k0 & k1 & Ef).
  assert (Eh : take IP_HLEN f = header tos l0 l1 (byte_of 0 (htons id)) (byte_of 1 (htons id)) f0 f1 ttl proto k0 k1 src dst).
  { by rewrite Ef. }
  cbn [map] in Hpc. injection Hpc as Hcx _. pose proof Hpk as [[Hxo Hxl] _]%Forall_cons.
  assert (Hlx : (28 <= len (f_pkt x))%nat).
  { pose proof HA as [[HP Hone _ [pad Hc]] _]%Forall2_cons.
    pose proof (contents_length P HP) as Hcl. rewrite Hc, length_app in Hcl.
    destruct (pbuf_realloc_spec P (length f) HP Hone ltac:(lia)) as (_ & _ & _ & Q & _).
    rewrite Hx. unfold trimmed. rewrite Q, Ef, length_app. change (length (header _ _ _ _ _ _ _ _ _ _ _ _ _)) with 20%nat. lia. }
  assert (Hb : bytes_ok (take IP_HLEN f)) by (rewrite <- Hcx; by apply Forall_take, contents_ok).
  destruct (assembled (Dgram (take IP_HLEN f) n fl t (x :: frs)) x frs q eq_refl Hpk Hb ltac:(by rewrite Eh) Hq)
    as (Hqo & Hql & adr & Hc); [by rewrite Ed|].
  rewrite Ed in Hc. cbn [d_hdr d_len] in Hc. eexists. split; [done|]. split; [by rewrite Hql|]. split; [exact Hc|].
  rewrite Eh. done.
Qed.
(** All the fragments, received in order, are one packet with the data of the datagram. *)
Lemma fragments_received data fs Ps r pool a ds : fragments mtu original 0 0 data fs → (1 < length fs)%nat →
  Z.of_nat (IP_HLEN + length data) < 65536 →
  rep r (a :: pool) ds → Forall (λ x, matches (take IP_HLEN original) x = false) ds →
  Forall2 arrives fs Ps → fresh_buffers Ps (bases ds) → held_all ds + Z.of_nat (length fs) <= IP_REASS_MAX_PBUFS →
  ∃ r' q h, receive ram link raw room k Ps inp s r = after_reass (Some (r', s, [], Some q)) ∧ rep r' (a :: pool) ds ∧
    packet_ok q ∧ (28 <= len q)%nat ∧ contents q = h ++ data ∧
    length h = IP_HLEN ∧ h !! 0%nat = Some 69 ∧ h !! 9%nat = Some proto.
Proof.
  intros F Hn Hsz R Hno HA Hfresh Hroom.
  inversion F as [o d f Hd F1|o n d d' f fs' Hn' Hlen F1 Hfs]; subst; [cbn in Hn; lia|].
  inversion HA as [|? P ? Ps' A HA']; subst. destruct (fresh_cons _ _ _ Hfresh) as (H0 & Hb & Hfresh').
  pose proof Hsz as Hsz'. rewrite length_app in Hsz. assert (Hd : d ≠ []) by (destruct d; [cbn in Hlen; lia|done]). unfold IP_HLEN in Hsz.
  destruct (input_fragment f 0 IP_MF d P r F1 A ltac:(by right)) as (E & Q1 & Q2 & Q3 & Q4 & Q5 & Q6 & Q7). fold (trimmed f P) in *.
  destruct (first_fragment f d P r pool a ds F1 A ltac:(lia) Hd R Hno H0 Hb) as (Hm & r1 & Er & R1);
    [cbn [length] in Hroom; lia|].
  set (h := take IP_HLEN f) in *. set (x := Frag (trimmed f P) 0 (Z.of_nat (length d))) in *.
  assert (Hcl : clen (f_pkt x) = 1) by (unfold clen; change (more (f_pkt x)) with (more (trimmed f P)); by rewrite Q6).
  destruct (rest_in_order (0 + Z.of_nat n) d' fs' Hfs r1 pool a [x] ds Ps' h) as (r' & q & frs & Erec & R' & Eq & Efrs);
    try done; try lia.
  { replace (8 * (0 + Z.of_nat n)) with (Z.of_nat (length d)) by lia. split; [done|]. split; [cbn; lia|done]. }
  { eapply fresh_perm; [|exact Hfresh']. cbn [map app]. change (f_base x) with (base (trimmed f P)). rewrite Q2.
    by rewrite Permutation_app_comm. }
  { rewrite held_cons, Hcl. cbn [length] in Hroom. change (held []) with 0. lia. }
  destruct (put_together f fs' P Ps' (d ++ d') d _ _ _ ([x] ++ frs) q F HA Hsz' F1 ltac:(lia) ltac:(cbn [app map]; by rewrite Efrs) Eq)
    as (h' & Hh').
  exists r', q, h'. split; [|split; [done|exact Hh']].
  cbn [receive]. rewrite E. fold (trimmed f P). rewrite Er. cbn [after_reass mbind option_bind]. rewrite Erec.
  transitivity (after_reass (Some (r', s, [], Some q))); [|reflexivity].
  generalize (after_reass (Some (r', s, [], Some q))) as y. intros [[[? ?] ?]|]; reflexivity.
Qed.
End path.

(** ** From socket to socket *)
Lemma fragments_small `{StdChksum} mtu original omf o data fs : fragments mtu original omf o data fs →
  Forall (λ f, Z.of_nat (length f) <= mtu) fs.
Proof. induction 1 as [o d f _ F|o k d d' f fs _ _ F _ IH]; repeat constructor; try exact (fr_size _ _ _ _ _ _ F); done. Qed.
Lemma fragments_many `{StdChksum} mtu original omf o data fs : fragments mtu original omf o data fs →
  mtu < Z.of_nat (IP_HLEN + length data) → (1 < length fs)%nat.
Proof.
  intros F Hm. destruct F as [o d f Hd F|o k d d' f fs _ _ _ F].
  - exfalso. pose proof (fr_size _ _ _ _ _ _ F). pose proof (fr_data _ _ _ _ _ _ F) as E. apply (f_equal length) in E.
    rewrite length_drop in E. destruct d; [done|]. cbn [length] in *. lia.
  - destruct F; cbn; lia.
Qed.
(** The receiving station. *)
Lemma fragments_delivered `{StdChksum} ram link raw room k mtu tot src dst ttl tos id chk sport dport data fs
    inp s t sk rcv r a pool ds Ps :
  let seg := udp_segment sport dport chk data in
  let original := ip_header tot src dst ttl tos IP_PROTO_UDP id ++ seg in
  fragments mtu original 0 0 seg fs → mtu < Z.of_nat (28 + length data) < 65536 →
  0 <= sport < 65536 → 0 <= dport < 65536 → 0 <= chk < 65536 → dport ≠ DHCP_CLIENT_PORT → verifies src dst chk seg →
  is_u32 src → is_u32 dst → is_Some (accepted_on dst inp s) →
  ip4_addr_isbroadcast src (n_view inp) = false → ismulticast src = false → raw_pcbs s = [] →
  udp_rep (pcbs s) t → (rcv, sk) ∈ bound t → s_recv sk ≠ 0 →
  rcv = receiver (ip4_addr_isbroadcast dst (n_view inp)) dst dport src sport (in_mask (n_view inp)) (bound t) →
  rep r (a :: pool) ds → Forall (λ x, matches (take IP_HLEN original) x = false) ds →
  Forall2 arrives fs Ps → fresh_buffers Ps (bases ds) → held_all ds + Z.of_nat (length fs) <= IP_REASS_MAX_PBUFS →
  ∃ u' t' q r', receive ram link raw room k Ps inp s r =
      Some (r', with_pcbs u' s, [EvUdp rcv (s_recv sk) (s_arg sk) q src sport]) ∧
    contents q = data ∧ rep r' (a :: pool) ds ∧ udp_rep u' t' ∧ bound t' ≡ₚ bound t.
Proof.
  intros seg original F Hsz Hsp Hdp Hchk Hdh Hver Hsrc Hdst Hacc Hb Hmc Hraw Hrep Hin Hrecv Hr R Hno HA Hfresh Hroom.
  assert (Hlen : length seg = (8 + length data)%nat) by apply udp_segment_length.
  destruct (fragments_received ram link raw room k inp s mtu tot src dst ttl tos IP_PROTO_UDP id seg Hsrc Hdst Hacc
    ltac:(by right) seg fs Ps r pool a ds F) as (r' & q & h & Er & R' & Hq & Hlq & Hc & Hhl & H0 & H9); try done.
  { apply (fragments_many _ _ _ _ _ _ F). unfold IP_HLEN. lia. }
  { unfold IP_HLEN. lia. }
  destruct (udp_input_delivers ram link room k q src dst inp s sport dport data h chk t sk rcv Hq Hlq H0 Hhl Hsp Hdp Hchk
    Hdh Hc Hver Hrep Hin Hrecv Hr) as (u' & t' & q' & Eu & Hcq & _ & _ & Hrep' & Hperm).
  exists u', t', q', r'. split; [|by split_and!]. rewrite Er. unfold after_reass. cbn [mbind option_bind].
  rewrite (rd8_at q 9 IP_PROTO_UDP Hq) by (lia || (rewrite Hc, lookup_app_l; [done|rewrite Hhl; unfold IP_HLEN; lia])).
  cbn [mbind option_bind]. rewrite deliver_udp by done. rewrite Eu. reflexivity.
Qed.

(** C3: UDP datagrams longer than the MTU work end to end.  A bound socket sends a packet that
    has room for the headers but not the size of one frame: [udp_sendto_if] hands its fragments
    to the interface.  A station that accepts the destination and receives them in order, each
    in a buffer of its own and with any link padding behind it, while other datagrams may be
    under reassembly, keeps all but the last and then hands exactly the sent bytes, with the
    sender's address and port, to the callback of the socket its table designates; afterwards
    the other datagrams and the pool are as before, nothing of this one is held, and its table
    has the same sockets.  There is room: a structure of the pool is free, and with the fragments
    at most ten buffers are held.  The receiver has no raw control blocks. *)
Theorem long_datagram_delivered `{StdChksum} ram link pcb p dst dport n room k s c
    ram' link' raw' room' k' inp s2 t sk rcv rs a pool ds :
  packet_ok p → grows p = true → (28 <= off p)%nat → Z.of_nat (28 + tot_len p) < 65536 →
  28 <= n_mtu n < Z.of_nat (28 + tot_len p) → (28 + tot_len p <= k)%nat →
  Udp.mem (pcbs s) !! pcb = Some c → 0 < local_port c < 65536 →
  local_ip c = 0 ∨ local_ip c = in_ip (n_view n) → is_byte (ttl c) → is_byte (tos c) →
  let src := in_ip (n_view n) in
  src ≠ 0 → is_u32 src → is_u32 dst → 0 <= dport < 65536 → dport ≠ DHCP_CLIENT_PORT →
  is_Some (accepted_on dst inp s2) →
  ip4_addr_isbroadcast src (n_view inp) = false → ismulticast src = false →
  raw_pcbs s2 = [] → udp_rep (pcbs s2) t → (rcv, sk) ∈ bound t → s_recv sk ≠ 0 →
  rcv = receiver (ip4_addr_isbroadcast dst (n_view inp)) dst dport src (local_port c)
        (in_mask (n_view inp)) (bound t) →
  rep rs (a :: pool) ds →
  Forall (λ x, same_datagram (d_hdr x.2) (ip_header (28 + tot_len p) src dst (ttl c) (tos c) IP_PROTO_UDP (ip_id s)) = false) ds →
  ∃ s' fs, udp_sendto_if ram link pcb p dst dport n room k s
      = Some (s', map (λ f, EvOutput (n_id n) f dst) fs, ERR_OK) ∧
    Forall (λ f, Z.of_nat (length f) <= n_mtu n) fs ∧
  ∀ Ps, Forall2 arrives fs Ps → fresh_buffers Ps (bases ds) →
    held_all ds + Z.of_nat (length fs) <= IP_REASS_MAX_PBUFS →
  ∃ u' t' q rs', receive ram' link' raw' room' k' Ps inp s2 rs =
      Some (rs', with_pcbs u' s2, [EvUdp rcv (s_recv sk) (s_arg sk) q src (local_port c)]) ∧
    contents q = contents p ∧ rep rs' (a :: pool) ds ∧ udp_rep u' t' ∧ bound t' ≡ₚ bound t.
Proof.
  intros Hp Hg Ho Hsz Hm Hk Hc Hport Hip Httl Htos src Hsrc0 Hsrc Hdst Hdp Hdh Hacc Hb Hmc Hraw Hrep Hin Hrecv Hr R Hno.
  destruct (udp_sendto_if_datagram ram link pcb p dst dport n room k s c Hp Hg Ho Hsz Hc ltac:(lia) Hip Httl Htos
              Hsrc0 Hsrc Hdst) as (s' & q0 & chk & E & Hq0 & Hl0 & Ht0 & Hc0 & Hchk & Hver & _).
  fold src in Hc0, Hver. set (seg := udp_segment (local_port c) dport chk (contents p)) in *.
  assert (Hh : h_frag (contents q0) = 0) by (by rewrite Hc0). pose proof (contents_length p Hp) as Hcl.
  destruct (ip_frag_fragments ram q0 n dst k 0) as (fs & Ef & F); try done; try lia.
  { unfold IP_HLEN. lia. }
  { by rewrite Hh. }
  { rewrite Hh, Ht0. change (Z.land 0 IP_OFFMASK) with 0. lia. }
  rewrite Hh, Hc0 in F. change (Z.land 0 IP_OFFMASK) with 0 in F. change (0 * IP_MF) with 0 in F.
  change (drop IP_HLEN (ip_header _ _ _ _ _ _ _ ++ seg)) with seg in F.
  exists s', fs. split; [|split; [by apply (fragments_small _ _ _ _ _ _ F)|]].
  { rewrite E. destruct (Z.eqb_spec (n_mtu n) 0); [lia|]. destruct (Z.ltb_spec (n_mtu n) (Z.of_nat (28 + tot_len p))); [|lia].
    cbn [negb andb]. by rewrite Ef. }
  intros Ps HA Hfresh Hroom. rewrite <- Hcl in *.
  eapply (fragments_delivered _ _ _ _ _ _ _ _ _ _ _ _ _ _ _ _ _ _ _ _ _ _ _ _ _ _ _ F); try done; lia.
Qed.

(** Fifty bytes through an interface whose MTU is 44 are three fragments; another datagram is
    under reassembly at the receiver. *)
Definition narrow_if : nif := Nif 1 (InpView 0x0200a8c0 0x00ffffff 3 0) 44.
Definition long_hello : packet := Packet (repeat 0 50 ++ map Z.of_nat (seq 0 50)) 4096 50 50 true [].
Definition hello_fragments : list (list Z) :=
  match udp_sendto_if 8192 (λ _ _ _, 0) 1160 long_hello 0x0100a8c0 67 narrow_if None 78 client with
  | Some (_, evs, _) => omap (λ e, match e with EvOutput _ f _ => Some f | _ => None end) evs
  | None => []
  end.
Definition on_the_wire (a : Z) (f : list Z) : packet :=
  Packet (repeat 7 14 ++ f ++ repeat 0 9) a 14 (length f + 9) true [].
Definition hello_packets : list packet := zip_with on_the_wire [65536; 131072; 196608] hello_fragments.
Lemma on_the_wire_arrives a f : bytes_ok f → (20 <= length f < 1000)%nat → arrives f (on_the_wire a f).
Proof.
  intros Hf Hl. assert (E : contents (on_the_wire a f) = f ++ repeat 0 9).
  { unfold contents, payload, slice, on_the_wire. cbn [off len buf more].
    rewrite drop_app_length' by done. rewrite app_nil_r. apply take_ge. rewrite length_app, repeat_length. lia. }
  split; [|done| |by exists (repeat 0 9)].
  - split; [|split; [|split; [constructor|]]]; cbn [on_the_wire buf off len].
    + repeat (apply Forall_app; split); try done; apply (bool_decide_eq_true_1 _); by vm_compute.
    + rewrite !length_app, !repeat_length. lia.
    + change (Z.of_nat (length f + 9 + 0) < 65536). lia.
  - cbn [on_the_wire buf off]. rewrite !length_app, !repeat_length. lia.
Qed.
Lemma hello_packets_arrive : Forall2 arrives hello_fragments hello_packets.
Proof.
  assert (Hl : length hello_fragments = 3%nat) by (by vm_compute).
  assert (Hok : Forall (λ f, bytes_ok f ∧ (20 <= length f < 1000)%nat) hello_fragments).
  { apply (bool_decide_eq_true_1 _). by vm_compute. }
  unfold hello_packets. revert Hl Hok. generalize hello_fragments as fs. intros [|f0 [|f1 [|f2 [|]]]] Hl Hok; try done.
  repeat apply Forall_cons in Hok as [[? ?] Hok]. cbn [zip_with]. by repeat apply Forall2_cons_2; try apply on_the_wire_arrives.
Qed.
Lemma long_datagram_delivered_witness :
  length hello_packets = 3%nat ∧
  ∃ u' t' q rs', receive 8192 (λ _ _ _, 0) (λ _ _, false) None 0 hello_packets server_if server half_received
      = Some (rs', with_pcbs u' server, [EvUdp 1160 7777 5 q 0x0200a8c0 67]) ∧
    contents q = map Z.of_nat (seq 0 50) ∧ rep rs' [2; 3; 4; 5] [(1, half_dgram)] ∧
    udp_rep u' t' ∧ bound t' ≡ₚ bound server_table.
Proof.
  split; [by vm_compute|].
  destruct (long_datagram_delivered 8192 (λ _ _ _, 0) 1160 long_hello 0x0100a8c0 67 narrow_if None 78 client
    (default zero_pcb (Udp.mem bound_pool !! 1160)) 8192 (λ _ _ _, 0) (λ _ _, false) None 0 server_if server server_table
    (Sock 0 67 0 0 0 7777 5) 1160 half_received 2 [3; 4; 5] [(1, half_dgram)]) as (s' & fs & E & _ & D).
  - split_and!; [by apply (bool_decide_eq_true_1 _); vm_compute|vm_compute; lia|constructor|by vm_compute].
  - done.
  - cbn. lia.
  - by vm_compute.
  - vm_compute. split; [discriminate|done].
  - vm_compute. lia.
  - by vm_compute.
  - vm_compute. by split.
  - left. by vm_compute.
  - vm_compute. split; [discriminate|done].
  - vm_compute. split; [discriminate|done].
  - discriminate.
  - vm_compute. split; [discriminate|done].
  - vm_compute. split; [discriminate|done].
  - lia.
  - discriminate.
  - exists server_if. by vm_compute.
  - by vm_compute.
  - by vm_compute.
  - done.
  - exact server_pool_rep.
  - assert (Es : bound server_table = [(1160, Sock 0 67 0 0 0 7777 5)]) by (by vm_compute).
    rewrite Es. apply list_elem_of_here.
  - discriminate.
  - by vm_compute.
  - exact half_received_rep.
  - constructor; [by vm_compute|constructor].
  - assert (Ef : fs = hello_fragments).
    { unfold hello_fragments. rewrite E. clear. induction fs as [|f fs IH]; [done|]. cbn. by f_equal. }
    apply (D hello_packets).
    + rewrite Ef. exact hello_packets_arrive.
    + split; [apply (bool_decide_eq_true_1 _); by vm_compute|].
      apply (bool_decide_eq_true_1 _). by vm_compute.
    + rewrite Ef. vm_compute. discriminate.
Defined.
