(* ===== verification/EthArp.v ===== *)
(** * The Ethernet side of an interface ([LwIP/src/netif/etharp.c])

    The table of the neighbours' hardware addresses, what is sent to fill it and what it makes
    of the packets that leave and arrive.  The build has ten entries, keeps one packet for an
    address that is asked for ([ARP_QUEUEING] is 0), and neither static entries nor tags. *)
From S2P Require Import Prelude Chksum Udp Ip IpInput IpReass.

Definition ARP_TABLE_SIZE : nat := 10.
Definition ARP_MAXAGE : Z := 240.
Definition ARP_AGE_REREQUEST_USED : Z := ARP_MAXAGE - 12.
Definition ARP_MAXPENDING : Z := 2.
Definition ERR_ARG : Z := -14.
Definition ETHARP_FLAG_TRY_HARD : Z := 1.
Definition ETHARP_FLAG_FIND_ONLY : Z := 2.
Definition HWTYPE_ETHERNET : Z := 1.
Definition ETHARP_HWADDR_LEN : Z := 6.
Definition ETHTYPE_ARP : Z := 0x0806.
Definition ETHTYPE_IP : Z := 0x0800.
Definition ARP_REQUEST : Z := 1.
Definition ARP_REPLY : Z := 2.
Definition NETIF_FLAG_ETHARP : Z := 0x20.
Definition SIZEOF_ETH_HDR : nat := 14.
Definition SIZEOF_ETHARP_PACKET : nat := 42.
(* @ LwIP/src/netif/etharp.c:65-65 ethbroadcast *)
Definition ethbroadcast : list Z := repeat 0xff 6.
(* @ LwIP/src/netif/etharp.c:66-66 ethzero *)
Definition ethzero : list Z := repeat 0 6.

(** ** The table *)
(* @ LwIP/src/netif/etharp.c:95-103 etharp_state *)
Inductive etharp_state := EMPTY | PENDING | STABLE | STABLE_REREQUESTING.
#[export] Instance etharp_state_eq_dec : EqDecision etharp_state.
Proof. solve_decision. Defined.
(* @ LwIP/src/netif/etharp.c:105-118 etharp_entry *)
Record etharp_entry := Entry {
  e_q : option packet; ipaddr : Z; e_netif : Z; ethaddr : list Z; state : etharp_state; ctime : Z }.
(* @ LwIP/src/netif/etharp.c:120-123 arp_table *)
Record arp := Arp { arp_table : list etharp_entry; etharp_cached_entry : nat }.
(** [state >= ETHARP_STATE_STABLE] *)
Definition stable (e : etharp_entry) : bool :=
  match state e with STABLE | STABLE_REREQUESTING => true | _ => false end.
Definition set_q (q : option packet) (e : etharp_entry) : etharp_entry :=
  Entry q (ipaddr e) (e_netif e) (ethaddr e) (state e) (ctime e).
Definition set_state (x : etharp_state) (e : etharp_entry) : etharp_entry :=
  Entry (e_q e) (ipaddr e) (e_netif e) (ethaddr e) x (ctime e).
Definition set_ctime (x : Z) (e : etharp_entry) : etharp_entry :=
  Entry (e_q e) (ipaddr e) (e_netif e) (ethaddr e) (state e) x.
Definition set_ipaddr (x : Z) (e : etharp_entry) : etharp_entry :=
  Entry (e_q e) x (e_netif e) (ethaddr e) (state e) (ctime e).
Definition set_eth (n : Z) (x : list Z) (e : etharp_entry) : etharp_entry :=
  Entry (e_q e) (ipaddr e) n x (state e) (ctime e).
Definition with_table (t : list etharp_entry) (a : arp) : arp := Arp t (etharp_cached_entry a).
(* @ LwIP/src/netif/etharp.c:138-138 ETHARP_SET_HINT *)
Definition ETHARP_SET_HINT (i : nat) (a : arp) : arp := Arp (arp_table a) i.

(** An Ethernet interface: the gateway and the hardware address besides what IP knows. *)
(* @ LwIP/src/include/lwip/netif.h:136-192 netif *)
Record ether_if := EtherIf { ip_if : nif; gw : Z; hwaddr : list Z }.
Definition if_ip (n : ether_if) : Z := in_ip (n_view (ip_if n)).
Definition if_id (n : ether_if) : Z := n_id (ip_if n).

(** What the module does: frames given to the driver, buffers allocated (or referenced) and
    freed, addresses reported to the DHCP client, and what IP does. *)
Inductive ether := Sent (n : Z) (frame : list Z) | Taken (b : Z) | Freed (b : Z) | ArpReply (ip : Z) | Ip (e : event).

Definition free_q (q : option packet) : list ether := match q with Some p => [Freed (base p)] | None => [] end.
(* @ LwIP/src/netif/etharp.c:176-197 etharp_free_entry *)
Definition etharp_free_entry (i : nat) (t : list etharp_entry) : option (list etharp_entry * list ether) :=
  e ← t !! i;
  Some (<[i := set_state EMPTY (set_q None e)]> t, free_q (e_q e)).
(** One entry, when the timer runs. *)
(* @ LwIP/src/netif/etharp.c:213-240 etharp_tmr *)
Definition tmr_entry (i : nat) (t : list etharp_entry) : option (list etharp_entry * list ether) :=
  e ← t !! i;
  if decide (state e = EMPTY) then Some (t, [])
  else
    let e := set_ctime (u8 (ctime e + 1)) e in
    let t := <[i := e]> t in
    if (ARP_MAXAGE <=? ctime e) || (bool_decide (state e = PENDING) && (ARP_MAXPENDING <=? ctime e))
    then etharp_free_entry i t
    else if decide (state e = STABLE_REREQUESTING) then Some (<[i := set_state STABLE e]> t, [])
    else Some (t, []).
(** [f] at every index, from the first on. *)
Fixpoint for_each (f : nat → list etharp_entry → option (list etharp_entry * list ether)) (l : list nat)
    (t : list etharp_entry) : option (list etharp_entry * list ether) :=
  match l with
  | [] => Some (t, [])
  | i :: l => '(t, evs) ← f i t; '(t, evs') ← for_each f l t; Some (t, evs ++ evs')
  end.
(* @ LwIP/src/netif/etharp.c:206-242 etharp_tmr *)
Definition etharp_tmr (a : arp) : option (arp * list ether) :=
  '(t, evs) ← for_each tmr_entry (seq 0 ARP_TABLE_SIZE) (arp_table a); Some (with_table t a, evs).
(* @ LwIP/src/netif/etharp.c:579-589 etharp_cleanup_netif *)
Definition etharp_cleanup_netif (n : Z) (a : arp) : option (arp * list ether) :=
  '(t, evs) ← for_each (λ i t, e ← t !! i;
      if bool_decide (state e ≠ EMPTY) && (e_netif e =? n) then etharp_free_entry i t else Some (t, []))
    (seq 0 ARP_TABLE_SIZE) (arp_table a);
  Some (with_table t a, evs).

(** ** Finding an entry *)
(** The candidates of the search: 10 for none, and their ages. *)
(* @ LwIP/src/netif/etharp.c:268-274 etharp_find_entry *)
Record candidates := Cands {
  c_empty : nat; old_pending : nat; age_pending : Z; old_stable : nat; age_stable : Z; old_queue : nat; age_queue : Z }.
(* @ LwIP/src/netif/etharp.c:292-337 etharp_find_entry *)
Definition candidate (i : nat) (e : etharp_entry) (c : candidates) : candidates :=
  if (c_empty c =? ARP_TABLE_SIZE)%nat && bool_decide (state e = EMPTY)
  then Cands i (old_pending c) (age_pending c) (old_stable c) (age_stable c) (old_queue c) (age_queue c)
  else
    match state e with
    | EMPTY => c
    | PENDING =>
      match e_q e with
      | Some _ =>
        if age_queue c <=? ctime e
        then Cands (c_empty c) (old_pending c) (age_pending c) (old_stable c) (age_stable c) i (ctime e) else c
      | None =>
        if age_pending c <=? ctime e
        then Cands (c_empty c) i (ctime e) (old_stable c) (age_stable c) (old_queue c) (age_queue c) else c
      end
    | _ =>
      if age_stable c <=? ctime e
      then Cands (c_empty c) (old_pending c) (age_pending c) i (ctime e) (old_queue c) (age_queue c) else c
    end.
(* @ LwIP/src/netif/etharp.c:291-338 etharp_find_entry *)
Fixpoint find_loop (ip : Z) (i : nat) (t : list etharp_entry) (c : candidates) : nat + candidates :=
  match t with
  | [] => inr c
  | e :: t =>
    if bool_decide (state e ≠ EMPTY) && (ip =? ipaddr e) then inl i else find_loop ip (S i) t (candidate i e c)
  end.
(* @ LwIP/src/netif/etharp.c:265-402 etharp_find_entry *)
Definition etharp_find_entry (ip flags : Z) (t : list etharp_entry)
  : option (list etharp_entry * list ether * option nat) :=
  let N := ARP_TABLE_SIZE in
  match find_loop ip 0 t (Cands N N 0 N 0 N 0) with
  | inl i => Some (t, [], Some i)
  | inr c =>
    if negb (Z.land flags ETHARP_FLAG_FIND_ONLY =? 0) ||
       (negb (c_empty c <? N)%nat && (Z.land flags ETHARP_FLAG_TRY_HARD =? 0))
    then Some (t, [], None)
    else
      let recycle i := '(t, evs) ← etharp_free_entry i t; Some (t, evs, Some i) in
      '(t, evs, r) ←
        (if (c_empty c <? N)%nat then Some (t, [], Some (c_empty c))
         else if (old_stable c <? N)%nat then recycle (old_stable c)
         else if (old_pending c <? N)%nat then recycle (old_pending c)
         else if (old_queue c <? N)%nat then recycle (old_queue c)
         else Some (t, [], None));
      match r with
      | None => Some (t, evs, None)
      | Some i => e ← t !! i; Some (<[i := set_ctime 0 (set_ipaddr ip e)]> t, evs, Some i)
      end
  end.

(** [n] bytes at [i]. *)
Definition rdn (i n : nat) (b : list Z) : option (list Z) :=
  if (i + n <=? length b)%nat then Some (slice i n b) else None.

Section etharp.
(** What the driver answers, and the addresses of the buffers that [pbuf_alloc] gives for an
    ARP packet and for a copy ([None] when it fails). *)
Variable linkoutput : Z → list Z → Z.
Variables arp_room copy_room : option Z.

(** ** Sending *)
(* @ LwIP/src/netif/etharp.c:415-427 etharp_send_ip *)
Definition etharp_send_ip (n : ether_if) (p : packet) (src dst : list Z) : option (list ether * Z) :=
  b ← wr (off p) (dst ++ src ++ le16 (htons ETHTYPE_IP)) (buf p);
  let frame := contents (with_buf b p) in
  Some ([Sent (if_id n) frame], linkoutput (if_id n) frame).
(* @ LwIP/src/netif/etharp.c:1175-1247 etharp_raw *)
Definition etharp_raw (n : ether_if) (ethsrc ethdst hwsrc : list Z) (ipsrc : Z) (hwdst : list Z) (ipdst opcode : Z)
  : list ether * Z :=
  match arp_room with
  | None => ([], ERR_MEM)
  | Some p =>
    let frame := ethdst ++ ethsrc ++ le16 (htons ETHTYPE_ARP) ++ le16 (htons HWTYPE_ETHERNET) ++
      le16 (htons ETHTYPE_IP) ++ [ETHARP_HWADDR_LEN; 4] ++ le16 (htons opcode) ++ hwsrc ++ le32 ipsrc ++
      hwdst ++ le32 ipdst in
    ([Taken p; Sent (if_id n) frame; Freed p], linkoutput (if_id n) frame)
  end.
(* @ LwIP/src/netif/etharp.c:1258-1265 etharp_request *)
Definition etharp_request (n : ether_if) (ip : Z) : list ether * Z :=
  etharp_raw n (hwaddr n) ethbroadcast (hwaddr n) (if_ip n) ethzero ip ARP_REQUEST.

(** An address and its hardware address enter the table; the packet that waited leaves. *)
(* @ LwIP/src/netif/etharp.c:447-514 etharp_update_arp_entry *)
Definition etharp_update_arp_entry (n : ether_if) (ip : Z) (eth : list Z) (flags : Z) (a : arp)
  : option (arp * list ether * Z) :=
  if (ip =? 0) || ip4_addr_isbroadcast ip (n_view (ip_if n)) || ismulticast ip then Some (a, [], ERR_ARG)
  else
    '(t, evs, r) ← etharp_find_entry ip flags (arp_table a);
    match r with
    | None => Some (with_table t a, evs, ERR_MEM)
    | Some i =>
      e ← t !! i;
      let e := set_ctime 0 (set_eth (if_id n) eth (set_state STABLE e)) in
      match e_q e with
      | None => Some (with_table (<[i := e]> t) a, evs, ERR_OK)
      | Some p =>
        '(sent, _) ← etharp_send_ip n p (hwaddr n) eth;
        Some (with_table (<[i := set_q None e]> t) a, evs ++ sent ++ [Freed (base p)], ERR_OK)
      end
    end.

(** The copy of a packet in one new buffer. *)
(* @ LwIP/src/netif/etharp.c:1095-1101 etharp_query *)
Definition copy_packet (q : packet) : option packet :=
  a ← copy_room; Some (Packet (contents q) a 0 (tot_len q) true []).
(** [rom]: every buffer of the packet is a [PBUF_ROM]; otherwise the first is not. *)
(* @ LwIP/src/netif/etharp.c:1015-1154 etharp_query *)
Definition etharp_query (n : ether_if) (ip : Z) (q : option packet) (rom : bool) (a : arp)
  : option (arp * list ether * Z) :=
  if ip4_addr_isbroadcast ip (n_view (ip_if n)) || ismulticast ip || (ip =? 0) then Some (a, [], ERR_ARG)
  else
    '(t, evs, r) ← etharp_find_entry ip ETHARP_FLAG_TRY_HARD (arp_table a);
    match r with
    | None => Some (with_table t a, evs, ERR_MEM)
    | Some i =>
      e ← t !! i;
      let e := if decide (state e = EMPTY) then set_state PENDING e else e in
      let a := with_table (<[i := e]> t) a in
      let '(req, result) := if bool_decide (state e = PENDING) || bool_decide (q = None)
                            then etharp_request n ip else ([], ERR_MEM) in
      let evs := evs ++ req in
      match q with
      | None => Some (a, evs, result)
      | Some q =>
        if stable e then
          '(sent, result) ← etharp_send_ip n q (hwaddr n) (ethaddr e);
          Some (ETHARP_SET_HINT i a, evs ++ sent, result)
        else
          match (if rom then Some q else copy_packet q) with
          | None => Some (a, evs, ERR_MEM)
          | Some p => Some (with_table (<[i := set_q (Some p) e]> (arp_table a)) a, evs ++ Taken (base p) :: free_q (e_q e), ERR_OK)
          end
      end
    end.
(* @ LwIP/src/netif/etharp.c:841-858 etharp_output_to_arp_index *)
Definition etharp_output_to_arp_index (n : ether_if) (q : packet) (i : nat) (a : arp)
  : option (arp * list ether * Z) :=
  e ← arp_table a !! i;
  let '(a, evs) :=
    if bool_decide (state e = STABLE) && (ARP_AGE_REREQUEST_USED <=? ctime e)
    then let '(evs, r) := etharp_request n (ipaddr e) in
         (if r =? ERR_OK then with_table (<[i := set_state STABLE_REREQUESTING e]> (arp_table a)) a else a, evs)
    else (a, []) in
  '(sent, r) ← etharp_send_ip n q (hwaddr n) (ethaddr e);
  Some (a, evs ++ sent, r).
(** The entry for a known address. *)
(* @ LwIP/src/netif/etharp.c:963-970 etharp_output *)
Fixpoint stable_loop (ip : Z) (i : nat) (t : list etharp_entry) : option nat :=
  match t with
  | [] => None
  | e :: t => if stable e && (ip =? ipaddr e) then Some i else stable_loop ip (S i) t
  end.
(* @ LwIP/src/include/ipv4/lwip/ip_addr.h:210-210 ip_addr_islinklocal *)
Definition islinklocal (ip : Z) : bool := Z.land ip 0xffff =? 0xfea9.
(** The Ethernet address of a multicast group. *)
(* @ LwIP/src/netif/etharp.c:908-913 etharp_output *)
Definition mcastaddr (ip : Z) : list Z := [0x01; 0x00; 0x5e; Z.land (byte_of 1 ip) 0x7f; byte_of 2 ip; byte_of 3 ip].
(* @ LwIP/src/netif/etharp.c:878-980 etharp_output *)
Definition etharp_output (n : ether_if) (q : packet) (ip : Z) (a : arp) : option (arp * list ether * Z) :=
  match show_header SIZEOF_ETH_HDR q with
  | None => Some (a, [], ERR_BUF)
  | Some q =>
    let direct dest := '(sent, r) ← etharp_send_ip n q (hwaddr n) dest; Some (a, sent, r) in
    if ip4_addr_isbroadcast ip (n_view (ip_if n)) then direct ethbroadcast
    else if ismulticast ip then direct (mcastaddr ip)
    else
      let outside := negb (netcmp ip (if_ip n) (in_mask (n_view (ip_if n)))) && negb (islinklocal ip) in
      if outside && (gw n =? 0) then Some (a, [], ERR_RTE)
      else
        let dst_addr := if outside then gw n else ip in
        c ← arp_table a !! etharp_cached_entry a;
        if stable c && (dst_addr =? ipaddr c) then etharp_output_to_arp_index n q (etharp_cached_entry a) a
        else
          match stable_loop dst_addr 0 (arp_table a) with
          | Some i => etharp_output_to_arp_index n q i (ETHARP_SET_HINT i a)
          | None => etharp_query n dst_addr (Some q) false a
          end
  end.
(* @ LwIP/src/netif/etharp.c:602-620 etharp_find_addr *)
Definition etharp_find_addr (ip : Z) (a : arp) : option (arp * list ether * option (nat * list Z)) :=
  '(t, evs, r) ← etharp_find_entry ip ETHARP_FLAG_FIND_ONLY (arp_table a);
  match r with
  | None => Some (with_table t a, evs, None)
  | Some i => e ← t !! i; Some (with_table t a, evs, if stable e then Some (i, ethaddr e) else None)
  end.

(** ** Receiving *)
(** The answer, written over the request. *)
(* @ LwIP/src/netif/etharp.c:777-807 etharp_arp_input *)
Definition arp_answer (n : ether_if) (p : packet) : option (list ether) :=
  let h := off p in
  b ← wr (h + 20) (le16 (htons ARP_REPLY)) (buf p);
  sip ← rdn (h + 28) 4 b; b ← wr (h + 38) sip b;
  b ← wr (h + 28) (le32 (if_ip n)) b;
  shw ← rdn (h + 22) 6 b; b ← wr (h + 32) shw b;
  shw ← rdn (h + 22) 6 b; b ← wr h shw b;
  b ← wr (h + 22) (hwaddr n) b;
  b ← wr (h + 6) (hwaddr n) b;
  Some [Sent (if_id n) (contents (with_buf b p))].
(* @ LwIP/src/netif/etharp.c:687-836 etharp_arp_input *)
Definition etharp_arp_input (n : ether_if) (p : packet) (a : arp) : option (arp * list ether) :=
  let h := off p in
  let free := [Freed (base p)] in
  if (len p <? SIZEOF_ETHARP_PACKET)%nat then Some (a, free)
  else
    hwtype ← rd16 (h + 14) (buf p);
    proto ← rd16 (h + 16) (buf p);
    hwlen ← rd8 (h + 18) (buf p);
    protolen ← rd8 (h + 19) (buf p);
    opcode ← rd16 (h + 20) (buf p);
    shwaddr ← rdn (h + 22) 6 (buf p);
    sipaddr ← rd32 (h + 28) (buf p);
    dipaddr ← rd32 (h + 38) (buf p);
    if negb (hwtype =? htons HWTYPE_ETHERNET) || negb (hwlen =? ETHARP_HWADDR_LEN) || negb (protolen =? 4) ||
       negb (proto =? htons ETHTYPE_IP) then Some (a, free)
    else
      let for_us := if if_ip n =? 0 then false else dipaddr =? if_ip n in
      '(a, evs, _) ← etharp_update_arp_entry n sipaddr shwaddr
                       (if for_us then ETHARP_FLAG_TRY_HARD else ETHARP_FLAG_FIND_ONLY) a;
      if opcode =? htons ARP_REQUEST then
        if for_us then answer ← arp_answer n p; Some (a, evs ++ answer ++ free) else Some (a, evs ++ free)
      else if opcode =? htons ARP_REPLY then Some (a, evs ++ ArpReply sipaddr :: free)
      else Some (a, evs ++ free).
End etharp.

Section ethernet.
Context `{StdChksum}.
Variable linkoutput : Z → list Z → Z.
Variables (ram : Z) (link : nif → list Z → Z → Z) (raw_recv : Z → packet → bool) (room : option (list Z)) (mem : nat).
(** A frame from the driver.  The marks for broadcast frames are not read by anything. *)
(* @ LwIP/src/netif/etharp.c:1276-1398 ethernet_input *)
Definition ethernet_input (p : packet) (n : ether_if) (a : arp) (s : stack) (r : reass)
  : option (arp * stack * reass * list ether) :=
  let free := Some (a, s, r, [Freed (base p)]) in
  if (len p <=? SIZEOF_ETH_HDR)%nat then free
  else
    type ← rd16 (off p + 12) (buf p);
    let arp_if := negb (Z.land (in_flags (n_view (ip_if n))) NETIF_FLAG_ETHARP =? 0) in
    if type =? htons ETHTYPE_IP then
      if negb arp_if then free
      else
        match hide_header SIZEOF_ETH_HDR p with
        | None => free
        | Some p => '(r, s, evs) ← ip_input_reass ram link raw_recv room mem p (ip_if n) s r; Some (a, s, r, map Ip evs)
        end
    else if type =? htons ETHTYPE_ARP then
      if negb arp_if then free
      else '(a, evs) ← etharp_arp_input linkoutput n p a; Some (a, s, r, evs)
    else free.
End ethernet.
(** Nothing is known at the start. *)
Definition arp_boot : arp := Arp (replicate ARP_TABLE_SIZE (Entry None 0 0 ethzero EMPTY 0)) 0.

(** ** The invariant *)
Definition live (e : etharp_entry) : bool := bool_decide (state e ≠ EMPTY).
Record entry_ok (e : etharp_entry) : Prop := {
  eo_eth : length (ethaddr e) = 6%nat ∧ bytes_ok (ethaddr e);
  eo_q : is_Some (e_q e) → state e = PENDING;
  eo_packet : ∀ p, e_q e = Some p → packet_ok p ∧ (SIZEOF_ETH_HDR <= len p)%nat;
  eo_age : 0 <= ctime e;
  eo_live : state e ≠ EMPTY → ctime e < ARP_MAXAGE;
  eo_pending : state e = PENDING → ctime e < ARP_MAXPENDING }.
(** No address is in two live entries. *)
Definition distinct (t : list etharp_entry) : Prop := ∀ i j e e', t !! i = Some e → t !! j = Some e' →
  state e ≠ EMPTY → state e' ≠ EMPTY → ipaddr e = ipaddr e' → i = j.
Record table_ok (t : list etharp_entry) : Prop := {
  to_len : length t = ARP_TABLE_SIZE;
  to_entries : Forall entry_ok t;
  to_distinct : distinct t }.
Definition arp_ok (a : arp) : Prop := table_ok (arp_table a) ∧ (etharp_cached_entry a < ARP_TABLE_SIZE)%nat.
Lemma arp_boot_ok : arp_ok arp_boot.
Proof.
  split; [|cbn; unfold ARP_TABLE_SIZE; lia]. assert (Hb : entry_ok (Entry None 0 0 ethzero EMPTY 0)).
  { split; try done; cbn; [|by intros []]. split; [done|]. repeat constructor; unfold is_byte; lia. }
  split; [done|by apply Forall_replicate|]. intros i j e e' He. apply lookup_replicate in He as [-> _]. by cbn.
Qed.
Lemma entry_at t i e : table_ok t → t !! i = Some e → entry_ok e ∧ (i < ARP_TABLE_SIZE)%nat.
Proof.
  intros [Hl He _] H. split; [by eapply Forall_lookup_1|]. rewrite <- Hl. by eapply lookup_lt_Some.
Qed.
Lemma table_insert t i e e' : table_ok t → t !! i = Some e → entry_ok e' →
  state e' = EMPTY ∨ (state e ≠ EMPTY ∧ ipaddr e' = ipaddr e) ∨
    (∀ j x, t !! j = Some x → state x ≠ EMPTY → ipaddr x ≠ ipaddr e') →
  table_ok (<[i := e']> t).
Proof.
  intros [Hl He Hd] H Ho Hc. split; [by rewrite length_insert|by apply Forall_insert|].
  assert (Hi : (i < length t)%nat) by by eapply lookup_lt_Some.
  assert (Hne : ∀ j x, j ≠ i → t !! j = Some x → state x ≠ EMPTY → state e' ≠ EMPTY → ipaddr x ≠ ipaddr e').
  { intros j x Hj Hx Hs Hs'. destruct Hc as [Hc|[[Hse Hc]|Hc]]; [done| |by eapply Hc]. rewrite Hc. intros E.
    by apply Hj, (Hd j i x e). }
  intros j k x y Hx Hy Hsx Hsy E. destruct (decide (j = i)) as [->|Hj], (decide (k = i)) as [->|Hk]; try done.
  - rewrite list_lookup_insert_eq in Hx by done. rewrite list_lookup_insert_ne in Hy by done. injection Hx as <-.
    by destruct (Hne k y).
  - rewrite list_lookup_insert_eq in Hy by done. rewrite list_lookup_insert_ne in Hx by done. injection Hy as <-.
    by destruct (Hne j x).
  - rewrite list_lookup_insert_ne in Hx, Hy by done. by apply (Hd j k x y).
Qed.

(** Buffers: those that wait in the table, and what the events say of buffers. *)
Definition waiting (e : etharp_entry) : list Z := match e_q e with Some p => [base p] | None => [] end.
Definition queued (t : list etharp_entry) : list Z := concat (map waiting t).
Definition freed (evs : list ether) : list Z := omap (λ x, match x with Freed b => Some b | _ => None end) evs.
Definition taken (evs : list ether) : list Z := omap (λ x, match x with Taken b => Some b | _ => None end) evs.
Definition occ (b : Z) (l : list Z) : nat := count_occ Z.eq_dec l b.
Lemma occ_app b l1 l2 : occ b (l1 ++ l2) = (occ b l1 + occ b l2)%nat.
Proof. apply count_occ_app. Qed.
(** Every buffer that came in, was taken or waited is freed or waits, as often. *)
Definition balanced (inb : list Z) (t : list etharp_entry) (evs : list ether) (t' : list etharp_entry) : Prop :=
  ∀ b, (occ b inb + occ b (taken evs) + occ b (queued t) = occ b (freed evs) + occ b (queued t'))%nat.
Lemma freed_app l1 l2 : freed (l1 ++ l2) = freed l1 ++ freed l2.
Proof. apply omap_app. Qed.
Lemma taken_app l1 l2 : taken (l1 ++ l2) = taken l1 ++ taken l2.
Proof. apply omap_app. Qed.
Lemma freed_free_q e : freed (free_q (e_q e)) = waiting e.
Proof. unfold waiting. by destruct (e_q e). Qed.
Lemma taken_free_q q : taken (free_q q) = [].
Proof. by destruct q. Qed.
Lemma queued_insert t i e e' b : t !! i = Some e →
  (occ b (queued t) + occ b (waiting e') = occ b (queued (<[i := e']> t)) + occ b (waiting e))%nat.
Proof.
  intros H. pose proof (lookup_lt_Some _ _ _ H). rewrite <- (take_drop_middle t i e H) at 1.
  rewrite insert_take_drop by done. unfold queued. rewrite !map_app, !concat_app, !occ_app. cbn [map concat].
  rewrite !occ_app. lia.
Qed.
Lemma balanced_trans i1 i2 t1 t2 t3 evs evs' : balanced i1 t1 evs t2 → balanced i2 t2 evs' t3 →
  balanced (i1 ++ i2) t1 (evs ++ evs') t3.
Proof.
  unfold balanced. intros H1 H2 b. specialize (H1 b). specialize (H2 b). rewrite freed_app, taken_app, !occ_app. lia.
Qed.
Lemma balanced_refl t : balanced [] t [] t.
Proof. by intros b. Qed.
(** Entries that change without their packets. *)
Lemma balanced_insert t i e e' : t !! i = Some e → waiting e' = waiting e → balanced [] t [] (<[i := e']> t).
Proof. intros H E b. pose proof (queued_insert t i e e' b H) as Hq. rewrite E in Hq. cbn. lia. Qed.

(** *** Freeing and the timer *)
Lemma entry_ok_state x e : entry_ok e → x ≠ PENDING → x ≠ EMPTY → state e ≠ PENDING → state e ≠ EMPTY → entry_ok (set_state x e).
Proof.
  intros [H1 H2 H3 H4 H5 H6] Hx Hx' He He'. split; cbn; [done|by intros ?%H2|done|done|intros _; by apply H5|done].
Qed.
Lemma emptied_ok e : entry_ok e → entry_ok (set_state EMPTY (set_q None e)).
Proof. intros [H1 H2 H3 H4 H5 H6]. split; cbn; [done|by intros []|done..]. Qed.
Lemma free_entry_spec t i e : table_ok t → t !! i = Some e →
  etharp_free_entry i t = Some (<[i := set_state EMPTY (set_q None e)]> t, free_q (e_q e)) ∧
  table_ok (<[i := set_state EMPTY (set_q None e)]> t) ∧
  balanced [] t (free_q (e_q e)) (<[i := set_state EMPTY (set_q None e)]> t).
Proof.
  intros Ht Hi. unfold etharp_free_entry. rewrite Hi. split; [done|]. destruct (entry_at _ _ _ Ht Hi) as [He _].
  split; [apply (table_insert t i e); try done; [by apply emptied_ok|by left]|].
  intros b. rewrite freed_free_q, taken_free_q. pose proof (queued_insert t i e (set_state EMPTY (set_q None e)) b Hi) as Hq.
  cbn in *. lia.
Qed.
(** What a walk over the table does, from what it does to one entry. *)
Lemma for_each_spec f g h : (∀ i t e, table_ok t → t !! i = Some e →
    f i t = Some (<[i := g e]> t, h e) ∧ table_ok (<[i := g e]> t) ∧ balanced [] t (h e) (<[i := g e]> t)) →
  ∀ post pre, table_ok (pre ++ post) →
  for_each f (seq (length pre) (length post)) (pre ++ post) = Some (pre ++ map g post, concat (map h post)) ∧
  table_ok (pre ++ map g post) ∧ balanced [] (pre ++ post) (concat (map h post)) (pre ++ map g post).
Proof.
  intros Hf. induction post as [|e post IH]; intros pre Ht; [done|]. cbn [length seq for_each map concat].
  assert (Hi : (pre ++ e :: post) !! length pre = Some e) by by apply list_lookup_middle.
  assert (Ei : <[length pre := g e]> (pre ++ e :: post) = (pre ++ [g e]) ++ post).
  { rewrite insert_app_r_alt by lia. rewrite Nat.sub_diag. cbn. by rewrite <- app_assoc. }
  destruct (Hf (length pre) (pre ++ e :: post) e Ht Hi) as (E & Ht1 & B1). rewrite E. cbn [mbind option_bind].
  rewrite Ei in *. destruct (IH (pre ++ [g e]) Ht1) as (E2 & Ht2 & B2). rewrite length_app in E2. cbn [length] in E2.
  rewrite Nat.add_1_r in E2. rewrite E2. cbn [mbind option_bind]. rewrite <- (app_assoc pre [g e] (map g post)) in *.
  split; [done|]. split; [done|]. exact (balanced_trans [] [] _ _ _ _ _ B1 B2).
Qed.
Lemma for_each_table f g h t : (∀ i t e, table_ok t → t !! i = Some e →
    f i t = Some (<[i := g e]> t, h e) ∧ table_ok (<[i := g e]> t) ∧ balanced [] t (h e) (<[i := g e]> t)) →
  table_ok t → for_each f (seq 0 ARP_TABLE_SIZE) t = Some (map g t, concat (map h t)) ∧
  table_ok (map g t) ∧ balanced [] t (concat (map h t)) (map g t).
Proof. intros Hf Ht. pose proof (for_each_spec f g h Hf t [] Ht) as H. cbn [length app] in H. by rewrite (to_len t Ht) in H. Qed.

(** An entry one tick later. *)
Definition expires (e : etharp_entry) : bool :=
  live e && ((ARP_MAXAGE <=? ctime e + 1) || (bool_decide (state e = PENDING) && (ARP_MAXPENDING <=? ctime e + 1))).
Definition emptied (e : etharp_entry) : etharp_entry := set_state EMPTY (set_q None e).
Definition aged (e : etharp_entry) : etharp_entry :=
  if expires e then emptied (set_ctime (ctime e + 1) e)
  else if decide (state e = EMPTY) then e
  else set_state (if decide (state e = STABLE_REREQUESTING) then STABLE else state e) (set_ctime (ctime e + 1) e).
Definition expiry (e : etharp_entry) : list ether := if expires e then free_q (e_q e) else [].
Lemma aged_ok e : entry_ok e → entry_ok (aged e).
Proof.
  intros He. unfold aged. destruct (expires e) eqn:Ex.
  - destruct He as [H1 H2 H3 H4 H5 H6]. split; cbn; [done|by intros []|done|lia|done|done].
  - destruct (decide (state e = EMPTY)) as [|Hl]; [done|]. destruct He as [H1 H2 H3 H4 H5 H6].
    unfold expires, live in Ex. rewrite bool_decide_eq_true_2 in Ex by done. apply orb_false_iff in Ex as [Ex1 Ex2].
    apply Z.leb_gt in Ex1. split; cbn; [done| |done|lia|lia|].
    + intros Hq. rewrite decide_False; [by apply H2|]. by rewrite H2.
    + intros Hp. destruct (decide _); [done|]. rewrite bool_decide_eq_true_2 in Ex2 by done. by apply Z.leb_gt in Ex2.
Qed.
Lemma aged_waiting e : waiting e = freed (expiry e) ++ waiting (aged e).
Proof.
  unfold expiry, aged, waiting. destruct (expires e); [by destruct (e_q e)|]. by destruct (decide (state e = EMPTY)).
Qed.
Lemma aged_same e : state (aged e) = EMPTY ∨ (state e ≠ EMPTY ∧ ipaddr (aged e) = ipaddr e).
Proof.
  unfold aged. destruct (expires e); [by left|]. destruct (decide (state e = EMPTY)); [by left|by right].
Qed.
Lemma tmr_entry_spec i t e : table_ok t → t !! i = Some e →
  tmr_entry i t = Some (<[i := aged e]> t, expiry e) ∧ table_ok (<[i := aged e]> t) ∧
  balanced [] t (expiry e) (<[i := aged e]> t).
Proof.
  intros Ht Hi. destruct (entry_at _ _ _ Ht Hi) as [He _]. pose proof (lookup_lt_Some _ _ _ Hi) as Hl. split; [|split].
  - unfold tmr_entry, aged, expiry, expires, live. rewrite Hi. cbn [mbind option_bind].
    destruct (decide (state e = EMPTY)) as [Hs|Hs].
    { rewrite (bool_decide_eq_false_2 (state e ≠ EMPTY)) by (intros H; by apply H). cbn [andb]. by rewrite list_insert_id. }
    rewrite (bool_decide_eq_true_2 (state e ≠ EMPTY)) by done. pose proof (eo_live _ He Hs) as Ha. pose proof (eo_age _ He). unfold ARP_MAXAGE in Ha.
    assert (Eu : u8 (ctime e + 1) = ctime e + 1) by (apply u8_small; unfold is_byte; lia).
    cbn [ctime set_ctime state andb]. rewrite Eu. destruct (_ || _).
    + unfold etharp_free_entry. rewrite list_lookup_insert_eq by done. cbn [mbind option_bind e_q set_ctime].
      by rewrite list_insert_insert_eq.
    + destruct (decide _); [by rewrite list_insert_insert_eq|]. by destruct e.
  - apply (table_insert t i e); try done; [by apply aged_ok|]. destruct (aged_same e) as [|]; [by left|by right; left].
  - intros b. pose proof (queued_insert t i e (aged e) b Hi) as Hq. rewrite (aged_waiting e), occ_app in Hq.
    assert (taken (expiry e) = []) as -> by (unfold expiry; destruct (expires e); [by destruct (e_q e)|done]). cbn. lia.
Qed.
Lemma etharp_tmr_spec a : arp_ok a →
  etharp_tmr a = Some (with_table (map aged (arp_table a)) a, concat (map expiry (arp_table a))) ∧
  arp_ok (with_table (map aged (arp_table a)) a) ∧
  balanced [] (arp_table a) (concat (map expiry (arp_table a))) (map aged (arp_table a)).
Proof.
  intros [Ht Hc]. unfold etharp_tmr.
  destruct (for_each_table tmr_entry aged expiry (arp_table a) tmr_entry_spec Ht) as (E & Ht' & B). rewrite E.
  cbn [mbind option_bind]. by split_and!.
Qed.
(** An interface goes away. *)
Definition leaves (n : Z) (e : etharp_entry) : bool := live e && (e_netif e =? n).
Lemma etharp_cleanup_spec n a : arp_ok a →
  let g e := if leaves n e then emptied e else e in
  let h e := if leaves n e then free_q (e_q e) else [] in
  etharp_cleanup_netif n a = Some (with_table (map g (arp_table a)) a, concat (map h (arp_table a))) ∧
  arp_ok (with_table (map g (arp_table a)) a) ∧ balanced [] (arp_table a) (concat (map h (arp_table a))) (map g (arp_table a)).
Proof.
  intros [Ht Hc] g h. unfold etharp_cleanup_netif.
  match goal with |- context [for_each ?f] => destruct (for_each_table f g h (arp_table a)) as (E & Ht' & B) end; [|done|].
  - intros i t e Ht' Hi. rewrite Hi. cbn [mbind option_bind]. unfold g, h, leaves, live. fold (live e). unfold live.
    destruct (bool_decide (state e ≠ EMPTY) && (e_netif e =? n)); [by apply free_entry_spec|].
    rewrite list_insert_id by done. by split_and!.
  - rewrite E. cbn [mbind option_bind]. by split_and!.
Qed.

(** *** Finding *)
(** [e], at [i], is an oldest entry of those with [P]. *)
Definition oldest (P : etharp_entry → bool) (t : list etharp_entry) (i : nat) (e : etharp_entry) : Prop :=
  t !! i = Some e ∧ P e = true ∧ Forall (λ x, P x = true → ctime x <= ctime e) t.
Definition asked (e : etharp_entry) : bool := bool_decide (state e = PENDING) && bool_decide (e_q e = None).
Definition asked_waiting (e : etharp_entry) : bool := bool_decide (state e = PENDING) && negb (bool_decide (e_q e = None)).
Definition none (P : etharp_entry → bool) (t : list etharp_entry) : Prop := Forall (λ x, P x = false) t.
Definition full (t : list etharp_entry) : Prop := Forall (λ x, live x = true) t.
(** The entry that is given up for a new address: a free one, else an oldest known one, else
    an oldest one that is asked for, rather without than with a packet. *)
Inductive victim (t : list etharp_entry) (i : nat) (e : etharp_entry) : Prop :=
| victim_free : t !! i = Some e → state e = EMPTY → victim t i e
| victim_stable : full t → oldest stable t i e → victim t i e
| victim_asked : full t → none stable t → oldest asked t i e → victim t i e
| victim_waiting : full t → none stable t → none asked t → oldest asked_waiting t i e → victim t i e.

Definition best (P : etharp_entry → bool) (t : list etharp_entry) (k : nat) (age : Z) : Prop :=
  (k = ARP_TABLE_SIZE ∧ none P t ∧ age = 0) ∨ (k < ARP_TABLE_SIZE)%nat ∧ ∃ e, oldest P t k e ∧ age = ctime e.
Lemma best_snoc P t k age e : (length t < ARP_TABLE_SIZE)%nat → 0 <= ctime e → best P t k age →
  best P (t ++ [e]) (if P e && (age <=? ctime e) then length t else k) (if P e && (age <=? ctime e) then ctime e else age).
Proof.
  intros Hl He [(-> & Hn & ->)|(Hk & x & (Hx & HP & Hold) & ->)].
  - destruct (P e) eqn:Pe; cbn [andb].
    + rewrite (proj2 (Z.leb_le 0 _) He). right. split; [done|]. exists e. split; [|done]. split; [by apply list_lookup_middle|].
      split; [done|]. apply Forall_app. split; [|by repeat constructor].
      eapply Forall_impl; [exact Hn|]. cbn. congruence.
    + left. split; [done|]. split; [|done]. apply Forall_app. split; [done|by repeat constructor].
  - right. destruct (P e) eqn:Pe; cbn [andb].
    + destruct (Z.leb_spec (ctime x) (ctime e)).
      * split; [done|]. exists e. split; [|done]. split; [by apply list_lookup_middle|]. split; [done|].
        apply Forall_app. split; [|by repeat constructor]. eapply Forall_impl; [exact Hold|]. cbn. intros y Hy Py.
        specialize (Hy Py). lia.
      * split; [done|]. exists x. split; [|done]. split; [by apply lookup_app_l_Some|]. split; [done|].
        apply Forall_app. split; [done|]. repeat constructor. lia.
    + split; [done|]. exists x. split; [|done]. split; [by apply lookup_app_l_Some|]. split; [done|].
      apply Forall_app. split; [done|]. repeat constructor. congruence.
Qed.
Record cands_ok (t : list etharp_entry) (c : candidates) : Prop := {
  co_empty : (c_empty c = ARP_TABLE_SIZE ∧ full t) ∨
    (c_empty c < ARP_TABLE_SIZE)%nat ∧ ∃ e, t !! c_empty c = Some e ∧ state e = EMPTY;
  co_stable : best stable t (old_stable c) (age_stable c);
  co_asked : best asked t (old_pending c) (age_pending c);
  co_waiting : best asked_waiting t (old_queue c) (age_queue c) }.
Lemma candidate_ok t e c : (length t < ARP_TABLE_SIZE)%nat → 0 <= ctime e → cands_ok t c →
  cands_ok (t ++ [e]) (candidate (length t) e c).
Proof.
  intros Hl He [H1 H2 H3 H4].
  pose proof (best_snoc stable t _ _ e Hl He H2) as B2. pose proof (best_snoc asked t _ _ e Hl He H3) as B3.
  pose proof (best_snoc asked_waiting t _ _ e Hl He H4) as B4.
  assert (B1 : let k := if (c_empty c =? ARP_TABLE_SIZE)%nat && bool_decide (state e = EMPTY) then length t else c_empty c in
    (k = ARP_TABLE_SIZE ∧ full (t ++ [e])) ∨ (k < ARP_TABLE_SIZE)%nat ∧ ∃ x, (t ++ [e]) !! k = Some x ∧ state x = EMPTY).
  { destruct H1 as [[-> Hf]|(Hk & x & Hx & Hs)].
    - rewrite Nat.eqb_refl. cbn [andb]. destruct (decide (state e = EMPTY)) as [Hs|Hs].
      + rewrite bool_decide_eq_true_2 by done. right. split; [done|]. exists e. split; [by apply list_lookup_middle|done].
      + rewrite bool_decide_eq_false_2 by done. left. split; [done|]. apply Forall_app. split; [done|].
        repeat constructor. by apply bool_decide_eq_true_2.
    - rewrite (proj2 (Nat.eqb_neq _ _)) by lia. right. split; [done|]. exists x. split; [by apply lookup_app_l_Some|done]. }
  unfold candidate. unfold stable, asked, asked_waiting in B2, B3, B4.
  destruct (state e) eqn:Es; cbn [andb] in B2, B3, B4.
  - rewrite !(bool_decide_eq_true_2 (EMPTY = EMPTY)) in * by done. rewrite !(bool_decide_eq_false_2 (EMPTY = PENDING)) in * by done.
    destruct ((c_empty c =? ARP_TABLE_SIZE)%nat && true); split; done.
  - rewrite !(bool_decide_eq_false_2 (PENDING = EMPTY)) in * by done. rewrite !(bool_decide_eq_true_2 (PENDING = PENDING)) in * by done.
    rewrite andb_false_r in *. cbn [andb] in *. destruct (e_q e).
    + rewrite (bool_decide_eq_false_2 (Some _ = None)) in * by done. cbn [andb negb] in *. destruct (age_queue c <=? ctime e); split; done.
    + rewrite (bool_decide_eq_true_2 (None = None)) in * by done. cbn [andb negb] in *. destruct (age_pending c <=? ctime e); split; done.
  - rewrite !(bool_decide_eq_false_2 (STABLE = EMPTY)) in * by done. rewrite !(bool_decide_eq_false_2 (STABLE = PENDING)) in * by done.
    rewrite andb_false_r in *. cbn [andb] in *. destruct (age_stable c <=? ctime e); split; done.
  - rewrite !(bool_decide_eq_false_2 (STABLE_REREQUESTING = EMPTY)) in * by done.
    rewrite !(bool_decide_eq_false_2 (STABLE_REREQUESTING = PENDING)) in * by done.
    rewrite andb_false_r in *. cbn [andb] in *. destruct (age_stable c <=? ctime e); split; done.
Qed.
Definition holds (ip : Z) (e : etharp_entry) : bool := live e && (ip =? ipaddr e).
Lemma find_loop_spec ip post : ∀ pre c, length (pre ++ post) = ARP_TABLE_SIZE → Forall entry_ok post → cands_ok pre c →
  none (holds ip) pre →
  match find_loop ip (length pre) post c with
  | inl k => ∃ e, (pre ++ post) !! k = Some e ∧ holds ip e = true
  | inr c' => cands_ok (pre ++ post) c' ∧ none (holds ip) (pre ++ post)
  end.
Proof.
  induction post as [|e post IH]; intros pre c Hl Ho Hc Hn; [cbn; by rewrite app_nil_r|]. cbn [find_loop].
  change (bool_decide (state e ≠ EMPTY) && (ip =? ipaddr e)) with (holds ip e).
  apply Forall_cons in Ho as [He Ho]. destruct (holds ip e) eqn:Eh.
  - exists e. split; [by apply list_lookup_middle|done].
  - rewrite length_app in Hl. cbn [length] in Hl.
    assert (Hpre : cands_ok (pre ++ [e]) (candidate (length pre) e c)) by (apply candidate_ok; [lia|apply He|done]).
    assert (Hnone : none (holds ip) (pre ++ [e])) by (apply Forall_app; split; [done|by repeat constructor]).
    specialize (IH (pre ++ [e]) (candidate (length pre) e c)). rewrite <- app_assoc in IH. cbn [app] in IH.
    rewrite (length_app pre [e]) in IH. cbn [length] in IH. rewrite Nat.add_1_r in IH. apply IH; try done. rewrite length_app. cbn [length]. lia.
Qed.
Lemma best_found P t k age : best P t k age → (k < ARP_TABLE_SIZE)%nat → ∃ e, oldest P t k e.
Proof. intros [(-> & _)|(_ & e & H & _)] Hk; [lia|by exists e]. Qed.
Lemma best_none P t k age : best P t k age → ¬ (k < ARP_TABLE_SIZE)%nat → none P t.
Proof. intros [(_ & H & _)|(Hk & _)] Hn; done. Qed.
Lemma victim_at t i e : victim t i e → t !! i = Some e.
Proof. by intros [H ?|? (H & _)|? ? (H & _)|? ? ? (H & _)]. Qed.
(** The entry of a victim, for the address [ip]. *)
Definition renewed (ip : Z) (e : etharp_entry) : etharp_entry := set_ctime 0 (set_ipaddr ip (emptied e)).
Lemma renewed_ok ip e : entry_ok e → entry_ok (renewed ip e).
Proof. intros [H1 H2 H3 H4 H5 H6]. split; cbn; [done|by intros []|done..]. Qed.
Lemma renewed_spec ip t i e : table_ok t → t !! i = Some e →
  table_ok (<[i := renewed ip e]> t) ∧ balanced [] t (free_q (e_q e)) (<[i := renewed ip e]> t).
Proof.
  intros Ht Hi. destruct (entry_at _ _ _ Ht Hi) as [He _]. split.
  - apply (table_insert t i e); try done; [by apply renewed_ok|by left].
  - intros b. rewrite freed_free_q, taken_free_q. pose proof (queued_insert t i e (renewed ip e) b Hi) as Hq. cbn in *. lia.
Qed.
Lemma every_kind t : table_ok t → full t → none stable t → none asked t → none asked_waiting t → False.
Proof.
  intros Ht Hf H1 H2 H3. pose proof (to_len t Ht) as Hl. destruct t as [|e t]; [done|].
  apply Forall_cons in Hf as [Hf _], H1 as [H1 _], H2 as [H2 _], H3 as [H3 _].
  unfold live, stable, asked, asked_waiting in *. apply bool_decide_eq_true_1 in Hf.
  destruct (state e); try done. rewrite (bool_decide_eq_true_2 (PENDING = PENDING)) in H2, H3 by done. cbn [andb] in H2, H3. rewrite H2 in H3. done.
Qed.
Definition no_cands : candidates :=
  Cands ARP_TABLE_SIZE ARP_TABLE_SIZE 0 ARP_TABLE_SIZE 0 ARP_TABLE_SIZE 0.
Lemma no_cands_ok : cands_ok [] no_cands.
Proof. assert (H : ∀ P, none P []) by (intros P; apply Forall_nil_2). split; left; [split; [done|apply Forall_nil_2]|done..]. Qed.
(** Looking only. *)
Lemma find_entry_only ip t : table_ok t →
  (∃ i e, t !! i = Some e ∧ holds ip e = true ∧ etharp_find_entry ip ETHARP_FLAG_FIND_ONLY t = Some (t, [], Some i)) ∨
  (none (holds ip) t ∧ etharp_find_entry ip ETHARP_FLAG_FIND_ONLY t = Some (t, [], None)).
Proof.
  intros Ht. pose proof (find_loop_spec ip t [] no_cands (to_len t Ht) (to_entries t Ht) no_cands_ok ltac:(constructor)) as H.
  unfold etharp_find_entry. fold no_cands. cbn [length app] in H. destruct (find_loop ip 0 t no_cands) as [i|c].
  - destruct H as (e & Hi & Hh). left. by exists i, e.
  - right. by destruct H.
Qed.
(** Looking or making room. *)
Lemma find_entry_hard ip t : table_ok t →
  (∃ i e, t !! i = Some e ∧ holds ip e = true ∧ etharp_find_entry ip ETHARP_FLAG_TRY_HARD t = Some (t, [], Some i)) ∨
  (none (holds ip) t ∧ ∃ i e, victim t i e ∧
    etharp_find_entry ip ETHARP_FLAG_TRY_HARD t = Some (<[i := renewed ip e]> t, free_q (e_q e), Some i)).
Proof.
  intros Ht. pose proof (find_loop_spec ip t [] no_cands (to_len t Ht) (to_entries t Ht) no_cands_ok ltac:(constructor)) as H.
  unfold etharp_find_entry. fold no_cands. cbn [length app] in H. destruct (find_loop ip 0 t no_cands) as [i|c].
  { destruct H as (e & Hi & Hh). left. by exists i, e. }
  destruct H as [[H1 H2 H3 H4] Hn]. right. split; [done|]. change (Z.land ETHARP_FLAG_TRY_HARD ETHARP_FLAG_FIND_ONLY =? 0) with true.
  change (Z.land ETHARP_FLAG_TRY_HARD ETHARP_FLAG_TRY_HARD =? 0) with false. rewrite andb_false_r. cbn [negb orb].
  assert (Hrec : ∀ i e, t !! i = Some e →
    ('(t, evs, r) ← ('(t, evs) ← etharp_free_entry i t; Some (t, evs, Some i));
     match r with None => Some (t, evs, None) | Some i => e ← t !! i; Some (<[i := set_ctime 0 (set_ipaddr ip e)]> t, evs, Some i) end)
    = Some (<[i := renewed ip e]> t, free_q (e_q e), Some i)).
  { intros i e Hi. pose proof (lookup_lt_Some _ _ _ Hi). unfold etharp_free_entry. rewrite Hi. cbn [mbind option_bind].
    rewrite list_lookup_insert_eq by done. cbn [mbind option_bind]. by rewrite list_insert_insert_eq. }
  destruct (Nat.ltb_spec (c_empty c) ARP_TABLE_SIZE) as [Hk|Hk].
  { destruct H1 as [[E _]|(_ & e & He & Hs)]; [lia|]. exists (c_empty c), e. split; [by apply victim_free|].
    destruct (entry_at _ _ _ Ht He) as [Ho _]. assert (Eq : e_q e = None).
    { destruct (e_q e) eqn:E; [|done]. pose proof (eo_q e Ho ltac:(by rewrite E)). congruence. }
    cbn [mbind option_bind]. rewrite He. cbn [mbind option_bind]. rewrite Eq. repeat f_equal. unfold renewed, emptied.
    destruct e; cbn in *; by subst. }
  assert (Hf : full t) by (destruct H1 as [[_ Hf]|[? _]]; [done|lia]).
  destruct (Nat.ltb_spec (old_stable c) ARP_TABLE_SIZE) as [Hk2|Hk2].
  { destruct (best_found _ _ _ _ H2 Hk2) as (e & He). exists (old_stable c), e. split; [by apply victim_stable|]. apply Hrec, He. }
  assert (N2 : none stable t) by (apply (best_none _ _ _ _ H2); lia).
  destruct (Nat.ltb_spec (old_pending c) ARP_TABLE_SIZE) as [Hk3|Hk3].
  { destruct (best_found _ _ _ _ H3 Hk3) as (e & He). exists (old_pending c), e. split; [by apply victim_asked|]. apply Hrec, He. }
  assert (N3 : none asked t) by (apply (best_none _ _ _ _ H3); lia).
  destruct (Nat.ltb_spec (old_queue c) ARP_TABLE_SIZE) as [Hk4|Hk4].
  { destruct (best_found _ _ _ _ H4 Hk4) as (e & He). exists (old_queue c), e. split; [by apply victim_waiting|]. apply Hrec, He. }
  exfalso. apply (every_kind t Ht Hf N2 N3). apply (best_none _ _ _ _ H4). lia.
Qed.

(** *** Sending *)
Definition mac (m : list Z) : Prop := length m = 6%nat ∧ bytes_ok m.
Definition ip_frame (src dst data : list Z) : list Z := dst ++ src ++ le16 (htons ETHTYPE_IP) ++ data.
Lemma send_ip_spec linkoutput n p src dst : packet_ok p → (SIZEOF_ETH_HDR <= len p)%nat → mac src → mac dst →
  let f := ip_frame src dst (drop SIZEOF_ETH_HDR (contents p)) in
  etharp_send_ip linkoutput n p src dst = Some ([Sent (if_id n) f], linkoutput (if_id n) f).
Proof.
  intros Hp Hl [Hs Hsb] [Hd Hdb] f. unfold etharp_send_ip. set (h := dst ++ src ++ le16 (htons ETHTYPE_IP)).
  assert (Hh : length h = SIZEOF_ETH_HDR) by (unfold h; rewrite !length_app, Hs, Hd; done).
  assert (Hb : bytes_ok h) by (unfold h; repeat (apply Forall_app; split); try done; apply le16_ok).
  destruct (write_front h p Hp Hb ltac:(by rewrite Hh)) as (b & E & _ & _ & Hc). rewrite E. cbn [mbind option_bind].
  rewrite Hc, Hh. unfold f, ip_frame, h. by rewrite <- !app_assoc.
Qed.
(** An entry whose hardware address has come to be known, and the packet that leaves. *)
Definition learned (n : ether_if) (eth : list Z) (e : etharp_entry) : etharp_entry :=
  set_q None (set_ctime 0 (set_eth (if_id n) eth (set_state STABLE e))).
Definition send_waiting (n : ether_if) (eth : list Z) (e : etharp_entry) : list ether :=
  match e_q e with
  | Some p => [Sent (if_id n) (ip_frame (hwaddr n) eth (drop SIZEOF_ETH_HDR (contents p))); Freed (base p)]
  | None => []
  end.
Lemma learned_ok n eth e : entry_ok e → mac eth → entry_ok (learned n eth e).
Proof. intros [H1 H2 H3 H4 H5 H6] He. split; cbn; [done|by intros []|done|done|done|done]. Qed.
Lemma send_waiting_buffers n eth e : freed (send_waiting n eth e) = waiting e ∧ taken (send_waiting n eth e) = [].
Proof. unfold send_waiting, waiting. by destruct (e_q e). Qed.
Definition unicast (n : ether_if) (ip : Z) : Prop :=
  ip ≠ 0 ∧ ip4_addr_isbroadcast ip (n_view (ip_if n)) = false ∧ ismulticast ip = false.
Lemma not_unicast n ip : ¬ unicast n ip → (ip =? 0) || ip4_addr_isbroadcast ip (n_view (ip_if n)) || ismulticast ip = true.
Proof.
  intros H. destruct (Z.eqb_spec ip 0); [done|]. destruct (ip4_addr_isbroadcast _ _) eqn:E1; [done|].
  destruct (ismulticast ip) eqn:E2; [done|]. by destruct H.
Qed.
Section specs.
Variables (linkoutput : Z → list Z → Z) (arp_room copy_room : option Z).
Variable n : ether_if.
Hypothesis Hhw : mac (hwaddr n).
Abbreviation update := (etharp_update_arp_entry linkoutput n).

(** What [etharp_update_arp_entry] does once the entry [e] is found or made at [i]. *)
Lemma update_entry ip eth flags a t evs i e : unicast n ip → mac eth →
  etharp_find_entry ip flags (arp_table a) = Some (t, evs, Some i) → t !! i = Some e → entry_ok e →
  update ip eth flags a = Some (with_table (<[i := learned n eth e]> t) a, evs ++ send_waiting n eth e, ERR_OK).
Proof.
  intros (H0 & Hb & Hm) Heth Hf Hi He. unfold etharp_update_arp_entry. rewrite (proj2 (Z.eqb_neq _ _) H0), Hb, Hm, Hf.
  cbn [orb mbind option_bind]. rewrite Hi. cbn [mbind option_bind]. unfold send_waiting, learned.
  cbn [e_q set_ctime set_eth set_state]. destruct (e_q e) as [p|] eqn:Eq.
  - destruct (eo_packet _ He p Eq) as [Hp Hl]. rewrite send_ip_spec by done. done.
  - rewrite app_nil_r. unfold set_q, set_ctime, set_eth, set_state in *. cbn in *. by rewrite Eq.
Qed.
Lemma learned_found ip eth t i e : table_ok t → mac eth → t !! i = Some e → holds ip e = true →
  table_ok (<[i := learned n eth e]> t) ∧ balanced [] t (send_waiting n eth e) (<[i := learned n eth e]> t).
Proof.
  intros Ht Heth Hi Hh. destruct (entry_at _ _ _ Ht Hi) as [He _]. apply andb_true_iff in Hh as [Hl _].
  apply bool_decide_eq_true_1 in Hl. split.
  - apply (table_insert t i e); try done; [by apply learned_ok|by right; left].
  - intros b. destruct (send_waiting_buffers n eth e) as [-> ->]. pose proof (queued_insert t i e (learned n eth e) b Hi). cbn in *. lia.
Qed.
Lemma none_holds ip t : none (holds ip) t → ∀ j x, t !! j = Some x → state x ≠ EMPTY → ipaddr x ≠ ip.
Proof.
  intros Hn j x Hx Hs E. pose proof (Forall_lookup_1 _ _ _ _ Hn Hx) as H. unfold holds, live in H. cbn in H.
  rewrite bool_decide_eq_true_2 in H by done. cbn in H. apply Z.eqb_neq in H. by apply H.
Qed.
Lemma learned_new ip eth t i e : table_ok t → mac eth → t !! i = Some e → none (holds ip) t →
  table_ok (<[i := learned n eth (renewed ip e)]> t) ∧
  balanced [] t (free_q (e_q e)) (<[i := learned n eth (renewed ip e)]> t).
Proof.
  intros Ht Heth Hi Hn. destruct (entry_at _ _ _ Ht Hi) as [He _]. split.
  - apply (table_insert t i e); try done; [by apply learned_ok; [apply renewed_ok|]|]. right. right. by apply none_holds.
  - intros b. rewrite freed_free_q, taken_free_q. pose proof (queued_insert t i e (learned n eth (renewed ip e)) b Hi). cbn in *. lia.
Qed.
(** What learning does to the table. *)
Lemma update_only ip eth a : arp_ok a → unicast n ip → mac eth →
  (∃ i e, arp_table a !! i = Some e ∧ holds ip e = true ∧
    update ip eth ETHARP_FLAG_FIND_ONLY a
      = Some (with_table (<[i := learned n eth e]> (arp_table a)) a, send_waiting n eth e, ERR_OK)) ∨
  (none (holds ip) (arp_table a) ∧ update ip eth ETHARP_FLAG_FIND_ONLY a = Some (a, [], ERR_MEM)).
Proof.
  intros [Ht Hc] Hu Heth. destruct (find_entry_only ip _ Ht) as [(i & e & Hi & Hh & E)|[Hn E]].
  - left. exists i, e. split; [done|]. split; [done|]. destruct (entry_at _ _ _ Ht Hi). by apply (update_entry ip eth _ a _ [] i e).
  - right. split; [done|]. unfold etharp_update_arp_entry. destruct Hu as (H0 & Hb & Hm).
    rewrite (proj2 (Z.eqb_neq _ _) H0), Hb, Hm, E. by destruct a.
Qed.
Lemma update_hard ip eth a : arp_ok a → unicast n ip → mac eth →
  (∃ i e, arp_table a !! i = Some e ∧ holds ip e = true ∧
    update ip eth ETHARP_FLAG_TRY_HARD a
      = Some (with_table (<[i := learned n eth e]> (arp_table a)) a, send_waiting n eth e, ERR_OK)) ∨
  (none (holds ip) (arp_table a) ∧ ∃ i e, victim (arp_table a) i e ∧
    update ip eth ETHARP_FLAG_TRY_HARD a
      = Some (with_table (<[i := learned n eth (renewed ip e)]> (arp_table a)) a, free_q (e_q e), ERR_OK)).
Proof.
  intros [Ht Hc] Hu Heth. destruct (find_entry_hard ip _ Ht) as [(i & e & Hi & Hh & E)|[Hn (i & e & Hv & E)]].
  - left. exists i, e. split; [done|]. split; [done|]. destruct (entry_at _ _ _ Ht Hi). by apply (update_entry ip eth _ a _ [] i e).
  - right. split; [done|]. exists i, e. split; [done|]. pose proof (victim_at _ _ _ Hv) as Hi. destruct (entry_at _ _ _ Ht Hi) as [He _].
    pose proof (lookup_lt_Some _ _ _ Hi).
    rewrite (update_entry ip eth _ a _ _ i (renewed ip e) Hu Heth E) by (by apply list_lookup_insert_eq || by apply renewed_ok).
    rewrite list_insert_insert_eq. cbn [send_waiting renewed emptied set_ctime set_ipaddr set_state set_q e_q]. by rewrite app_nil_r.
Qed.
Lemma update_ok ip eth flags a : arp_ok a → mac eth → flags = ETHARP_FLAG_FIND_ONLY ∨ flags = ETHARP_FLAG_TRY_HARD →
  ∃ t' evs r, update ip eth flags a = Some (with_table t' a, evs, r) ∧ table_ok t' ∧ balanced [] (arp_table a) evs t'.
Proof.
  intros Ha Heth Hf. pose proof Ha as [Ht _].
  destruct (decide ((ip =? 0) || ip4_addr_isbroadcast ip (n_view (ip_if n)) || ismulticast ip = true)) as [Hu|Hu].
  { exists (arp_table a), [], ERR_ARG. unfold etharp_update_arp_entry. rewrite Hu. by destruct a. }
  assert (Hu' : unicast n ip).
  { apply not_true_is_false in Hu. apply orb_false_iff in Hu as [Hu H3]. apply orb_false_iff in Hu as [H1 H2].
    by apply Z.eqb_neq in H1. }
  destruct Hf as [-> | ->].
  - destruct (update_only ip eth a Ha Hu' Heth) as [(i & e & Hi & Hh & ->)|[_ ->]].
    + destruct (learned_found ip eth _ i e Ht Heth Hi Hh). by eexists _, _, _.
    + exists (arp_table a), [], ERR_MEM. by destruct a.
  - destruct (update_hard ip eth a Ha Hu' Heth) as [(i & e & Hi & Hh & ->)|(Hn & i & e & Hv & ->)].
    + destruct (learned_found ip eth _ i e Ht Heth Hi Hh). by eexists _, _, _.
    + destruct (learned_new ip eth _ i e Ht Heth (victim_at _ _ _ Hv) Hn). by eexists _, _, _.
Qed.
End specs.

(** *** Asking and sending *)
Definition arp_frame (ethdst ethsrc hwsrc : list Z) (ipsrc : Z) (hwdst : list Z) (ipdst opcode : Z) : list Z :=
  ethdst ++ ethsrc ++ le16 (htons ETHTYPE_ARP) ++ le16 (htons HWTYPE_ETHERNET) ++ le16 (htons ETHTYPE_IP) ++
  [ETHARP_HWADDR_LEN; 4] ++ le16 (htons opcode) ++ hwsrc ++ le32 ipsrc ++ hwdst ++ le32 ipdst.
Definition request_frame (n : ether_if) (ip : Z) : list Z :=
  arp_frame ethbroadcast (hwaddr n) (hwaddr n) (if_ip n) ethzero ip ARP_REQUEST.
Definition frames (evs : list ether) : list (list Z) := omap (λ x, match x with Sent _ f => Some f | _ => None end) evs.
Lemma frames_app l1 l2 : frames (l1 ++ l2) = frames l1 ++ frames l2.
Proof. apply omap_app. Qed.
Lemma frames_free_q q : frames (free_q q) = [].
Proof. by destruct q. Qed.
Lemma request_spec linkoutput r n ip :
  (etharp_request linkoutput r n ip).1 =
    match r with Some b => [Taken b; Sent (if_id n) (request_frame n ip); Freed b] | None => [] end.
Proof. unfold etharp_request, etharp_raw. by destruct r. Qed.
Lemma request_balanced linkoutput r n ip t : balanced [] t (etharp_request linkoutput r n ip).1 t.
Proof. intros b. rewrite request_spec. destruct r; [|done]. cbn. destruct (Z.eq_dec _ b); lia. Qed.
Lemma balanced_app t1 t2 t3 evs evs' : balanced [] t1 evs t2 → balanced [] t2 evs' t3 → balanced [] t1 (evs ++ evs') t3.
Proof. apply (balanced_trans [] []). Qed.

(** The entry a packet is queued on. *)
Definition pending (e : etharp_entry) : etharp_entry := if decide (state e = EMPTY) then set_state PENDING e else e.
Lemma query_entry ip t : table_ok t → ∃ t' evs i e,
  etharp_find_entry ip ETHARP_FLAG_TRY_HARD t = Some (t', evs, Some i) ∧ t' !! i = Some e ∧
  table_ok (<[i := pending e]> t') ∧ balanced [] t evs (<[i := pending e]> t') ∧ frames evs = [] ∧
  entry_ok (pending e) ∧ ipaddr (pending e) = ip ∧ (state (pending e) = PENDING ∨ (t !! i = Some (pending e) ∧ stable (pending e) = true)).
Proof.
  intros Ht. destruct (find_entry_hard ip t Ht) as [(i & e & Hi & Hh & E)|[Hn (i & e & Hv & E)]].
  - exists t, [], i, e. destruct (entry_at _ _ _ Ht Hi) as [He _]. apply andb_true_iff in Hh as [Hl Hip].
    apply bool_decide_eq_true_1 in Hl. apply Z.eqb_eq in Hip. unfold pending. rewrite decide_False by done.
    rewrite list_insert_id by done. split_and!; try done. unfold stable. destruct (state e); try done; [by left|by right|by right].
  - pose proof (victim_at _ _ _ Hv) as Hi. pose proof (lookup_lt_Some _ _ _ Hi). destruct (entry_at _ _ _ Ht Hi) as [He _].
    exists (<[i := renewed ip e]> t), (free_q (e_q e)), i, (renewed ip e).
    assert (Ep : pending (renewed ip e) = set_state PENDING (renewed ip e)) by done. rewrite Ep.
    assert (Ho : entry_ok (set_state PENDING (renewed ip e))).
    { destruct He as [H1 H2 H3 H4 H5 H6]. by split; cbn. }
    rewrite list_insert_insert_eq. split_and!; try done; [by apply list_lookup_insert_eq| | |by destruct (e_q e)|by left].
    + apply (table_insert t i e); try done. right. right. by apply none_holds.
    + intros b. rewrite freed_free_q, taken_free_q. pose proof (queued_insert t i e (set_state PENDING (renewed ip e)) b Hi). cbn in *. lia.
Qed.
Lemma queue_packet t i e p : table_ok t → t !! i = Some e → state e = PENDING → packet_ok p → (SIZEOF_ETH_HDR <= len p)%nat →
  table_ok (<[i := set_q (Some p) e]> t) ∧ balanced [] t (Taken (base p) :: free_q (e_q e)) (<[i := set_q (Some p) e]> t).
Proof.
  intros Ht Hi Hs Hp Hl. destruct (entry_at _ _ _ Ht Hi) as [He _]. split.
  - apply (table_insert t i e); try done; [|right; left; split; [congruence|done]].
    destruct He as [H1 H2 H3 H4 H5 H6]. split; cbn; try done. by intros ? [= <-].
  - intros b. pose proof (queued_insert t i e (set_q (Some p) e) b Hi) as Hq.
    change (Taken (base p) :: free_q (e_q e)) with ([Taken (base p)] ++ free_q (e_q e)).
    rewrite freed_app, taken_app, freed_free_q, taken_free_q, !occ_app. cbn in *. lia.
Qed.
Lemma copy_ok c q : packet_ok q → (SIZEOF_ETH_HDR <= len q)%nat →
  let p := Packet (contents q) c 0 (tot_len q) true [] in
  packet_ok p ∧ (SIZEOF_ETH_HDR <= len p)%nat ∧ contents p = contents q.
Proof.
  intros Hq Hl p. pose proof (contents_length q Hq) as Hc. pose proof Hq as (_ & _ & _ & Hs). split; [|split].
  - split; [by apply contents_ok|]. split; [cbn; lia|]. split; [constructor|]. unfold tot_len at 1. cbn. lia.
  - cbn. unfold tot_len. lia.
  - unfold contents at 1, payload, slice. cbn [p buf off len more]. rewrite drop_0, app_nil_r. apply take_ge. lia.
Qed.
Lemma mac_constants : mac ethbroadcast ∧ mac ethzero.
Proof. split; (split; [done|]); apply (bool_decide_eq_true_1 _); by vm_compute. Qed.
Lemma mcast_mac ip : mac (mcastaddr ip).
Proof.
  split; [done|]. assert (H : is_byte (Z.land (byte_of 1 ip) 0x7f)).
  { change 0x7f with (Z.ones 7). rewrite Z.land_ones by lia. pose proof (Z.mod_pos_bound (byte_of 1 ip) (2 ^ 7)). unfold is_byte. lia. }
  unfold mcastaddr. repeat (apply Forall_cons; split); try apply byte_of_byte; try done; unfold is_byte; lia.
Qed.
Section calls.
Variables (linkoutput : Z → list Z → Z) (arp_room copy_room : option Z).
Variable n : ether_if.
Hypothesis Hhw : mac (hwaddr n).

Lemma with_table_ok t a : arp_ok a → table_ok t → arp_ok (with_table t a).
Proof. by intros [_ H]. Qed.
(** A call that returns, leaves the table well-formed and accounts for the buffers. *)
Definition sound (inb : list Z) (a : arp) (x : option (arp * list ether * Z)) : Prop :=
  ∃ a' evs r, x = Some (a', evs, r) ∧ arp_ok a' ∧ balanced inb (arp_table a) evs (arp_table a').
Definition packet_out (q : packet) : Prop := packet_ok q ∧ (SIZEOF_ETH_HDR <= len q)%nat.
Lemma sent_balanced t id f : balanced [] t [Sent id f] t.
Proof. by intros b. Qed.
Lemma query_ok ip q rom a : arp_ok a → (∀ p, q = Some p → packet_out p) →
  sound [] a (etharp_query linkoutput arp_room copy_room n ip q rom a).
Proof.
  intros Ha Hq. pose proof Ha as [Ht Hc]. unfold etharp_query.
  destruct (ip4_addr_isbroadcast ip _ || ismulticast ip || (ip =? 0)); [by exists a, [], ERR_ARG|].
  destruct (query_entry ip _ Ht) as (t' & evs & i & e & E & Hi & Ht' & B & _ & Hp & _ & Hs). rewrite E. cbn [mbind option_bind].
  rewrite Hi. cbn [mbind option_bind]. fold (pending e). set (e1 := pending e) in *. set (t1 := <[i := e1]> t') in *.
  assert (Hi1 : t1 !! i = Some e1) by (apply list_lookup_insert_eq; by eapply lookup_lt_Some).
  assert (Ha1 : arp_ok (with_table t1 a)) by by apply with_table_ok.
  assert (HR : ∃ req res, (if bool_decide (state e1 = PENDING) || bool_decide (q = None) then etharp_request linkoutput arp_room n ip
                 else ([], ERR_MEM)) = (req, res) ∧ balanced [] t1 req t1).
  { destruct (_ || _); [|by eexists _, _]. pose proof (request_balanced linkoutput arp_room n ip t1) as Hb.
    destruct (etharp_request _ _ _ _) as [req res]. by exists req, res. }
  destruct HR as (req & res & -> & BR). pose proof (balanced_app _ _ _ _ _ B BR) as B2.
  destruct q as [q|]; [|by exists (with_table t1 a), (evs ++ req), res]. destruct (Hq q eq_refl) as [Hqo Hql].
  destruct (stable e1) eqn:Est.
  { rewrite send_ip_spec; [|done..|apply Hp]. cbn [mbind option_bind].
    eexists (ETHARP_SET_HINT i (with_table t1 a)), _, _. split; [done|]. split.
    - split; [done|]. cbn. destruct (entry_at _ _ _ Ht' Hi1). done.
    - eapply balanced_app; [exact B2|apply sent_balanced]. }
  assert (Hpend : state e1 = PENDING) by (destruct Hs as [Hs|[_ Hs]]; [done|congruence]).
  destruct (if rom then Some q else copy_packet copy_room q) as [p|] eqn:Ep; [|by exists (with_table t1 a), (evs ++ req), ERR_MEM].
  assert (Hpo : packet_ok p ∧ (SIZEOF_ETH_HDR <= len p)%nat).
  { destruct rom; [by simplify_eq|]. unfold copy_packet in Ep. destruct copy_room as [c|]; [|done]. injection Ep as <-.
    destruct (copy_ok c q Hqo Hql) as (H1 & H2 & _). done. }
  destruct (queue_packet t1 i e1 p Ht' Hi1 Hpend (proj1 Hpo) (proj2 Hpo)) as [Ht2 B3].
  eexists _, _, _. split; [done|]. split; [by apply with_table_ok|]. by eapply balanced_app.
Qed.
Lemma output_index_ok q i e a : arp_ok a → packet_out q → arp_table a !! i = Some e → stable e = true →
  sound [] a (etharp_output_to_arp_index linkoutput arp_room n q i a).
Proof.
  intros Ha [Hq Hl] Hi Hst. pose proof Ha as [Ht Hc]. destruct (entry_at _ _ _ Ht Hi) as [He _].
  unfold etharp_output_to_arp_index. rewrite Hi. cbn [mbind option_bind].
  destruct (bool_decide (state e = STABLE) && (ARP_AGE_REREQUEST_USED <=? ctime e)) eqn:Eb.
  - apply andb_true_iff in Eb as [Es _]. apply bool_decide_eq_true_1 in Es.
    pose proof (request_balanced linkoutput arp_room n (ipaddr e) (arp_table a)) as Hb.
    destruct (etharp_request _ _ _ _) as [req res]. cbn [fst] in Hb.
    rewrite send_ip_spec; [|done..|apply He]. cbn [mbind option_bind]. eexists _, _, _. split; [done|].
    destruct (res =? ERR_OK).
    + split.
      * apply with_table_ok; [done|]. apply (table_insert _ i e); try done; [|right; left; split; [congruence|done]].
        apply entry_ok_state; try done; congruence.
      * eapply balanced_app; [exact Hb|]. apply (balanced_app _ (<[i := set_state STABLE_REREQUESTING e]> (arp_table a)) _ []);
          [by apply (balanced_insert _ i e)|apply sent_balanced].
    + split; [done|]. eapply balanced_app; [exact Hb|apply sent_balanced].
  - rewrite send_ip_spec; [|done..|apply He]. cbn [mbind option_bind]. eexists _, _, _. split; [done|]. split; [done|].
    apply sent_balanced.
Qed.
(** The address of a known neighbour. *)
Definition knows (ip : Z) (e : etharp_entry) : bool := stable e && (ip =? ipaddr e).
Lemma stable_loop_spec ip post : ∀ pre, none (knows ip) pre →
  match stable_loop ip (length pre) post with
  | Some i => ∃ e, (pre ++ post) !! i = Some e ∧ knows ip e = true ∧ none (knows ip) (take i (pre ++ post))
  | None => none (knows ip) (pre ++ post)
  end.
Proof.
  induction post as [|e post IH]; intros pre Hn; [cbn; by rewrite app_nil_r|]. cbn [stable_loop].
  change (stable e && (ip =? ipaddr e)) with (knows ip e). destruct (knows ip e) eqn:Ek.
  - exists e. split; [by apply list_lookup_middle|]. split; [done|]. by rewrite take_app_length.
  - specialize (IH (pre ++ [e])). rewrite length_app, Nat.add_1_r, <- app_assoc in IH. apply IH.
    apply Forall_app. split; [done|]. by repeat constructor.
Qed.
Lemma output_ok q ip a : arp_ok a → packet_ok q → Z.of_nat (SIZEOF_ETH_HDR + tot_len q) < 65536 →
  sound [] a (etharp_output linkoutput arp_room copy_room n q ip a).
Proof.
  intros Ha Hq Hs. pose proof Ha as [Ht Hc]. unfold etharp_output. destruct (show_header SIZEOF_ETH_HDR q) as [p|] eqn:Ep; [|by exists a, [], ERR_BUF].
  destruct (show_header_spec SIZEOF_ETH_HDR q p Hq Hs Ep) as (Hp & _ & _ & Hl & _).
  assert (Hdirect : ∀ m, mac m → sound [] a ('(sent, r) ← etharp_send_ip linkoutput n p (hwaddr n) m; Some (a, sent, r))).
  { intros m Hm. rewrite send_ip_spec by done. eexists _, _, _. split; [done|]. split; [done|]. apply sent_balanced. }
  destruct (ip4_addr_isbroadcast ip _).
  { apply Hdirect, mac_constants. }
  destruct (ismulticast ip).
  { apply Hdirect, mcast_mac. }
  set (outside := negb (netcmp _ _ _) && _). destruct (outside && (gw n =? 0)); [by exists a, [], ERR_RTE|].
  set (dst := if outside then gw n else ip).
  destruct (lookup_lt_is_Some_2 (arp_table a) (etharp_cached_entry a)) as [c Hce]; [by rewrite (to_len _ Ht)|].
  rewrite Hce. cbn [mbind option_bind]. destruct (stable c) eqn:Esc; [destruct (dst =? ipaddr c)|]; cbn [andb].
  { by apply (output_index_ok p _ c). }
  all: pose proof (stable_loop_spec dst (arp_table a) [] ltac:(constructor)) as Hsl; cbn [length app] in Hsl.
  all: destruct (stable_loop dst 0 (arp_table a)) as [i|]; [|by apply query_ok; [done|intros ? [= <-]]].
  all: destruct Hsl as (e & Hi & Hk & _); apply andb_true_iff in Hk as [Hk _].
  all: refine (output_index_ok p i e (ETHARP_SET_HINT i a) _ _ _ _); [split; [done|apply (entry_at _ _ _ Ht Hi)]|by split|done|done].
Qed.
End calls.

(** *** Receiving *)
(** The bytes [l] at the offset [o] of the buffer [b]. *)
Record window (o : nat) (b l : list Z) : Prop := {
  w_in : (o + length l <= length b)%nat;
  w_slice : slice o (length l) b = l;
  w_bytes : bytes_ok b }.
Lemma window_wr o b l k xs : window o b l → (k + length xs <= length l)%nat → bytes_ok xs →
  ∃ b', wr (o + k) xs b = Some b' ∧ window o b' (store_at k xs l) ∧ length b' = length b.
Proof.
  intros [H1 H2 H3] Hk Hx. destruct (wr_in o (length l) k xs b l H1 H2 Hk Hx H3) as (b' & E & W & L & O).
  exists b'. split; [done|]. split; [|done]. split; rewrite ?(length_store_at k xs l) by done; [lia|done|done].
Qed.
Lemma window_rdn o b l k m : window o b l → (k + m <= length l)%nat → rdn (o + k) m b = Some (slice k m l).
Proof.
  intros [H1 H2 H3] Hk. transitivity (Some (slice k m (slice o (length l) b))); [|by rewrite H2]. unfold rdn. destruct (Nat.leb_spec (o + k + m) (length b)); [|lia]. f_equal.
  unfold slice. rewrite skipn_firstn_comm, take_take, drop_drop. f_equal. lia.
Qed.
Lemma window_ok o b l : window o b l → bytes_ok l.
Proof. intros [_ <- H]. by apply slice_bytes. Qed.
Lemma slice_mac k l : bytes_ok l → (k + 6 <= length l)%nat → mac (slice k 6 l).
Proof. intros Hb Hl. split; [by apply length_slice|by apply slice_bytes]. Qed.
(** What [arp_answer] makes of the request. *)
Definition answered (n : ether_if) (l : list Z) : list Z :=
  let l := store_at 20 (le16 (htons ARP_REPLY)) l in
  let l := store_at 38 (slice 28 4 l) l in
  let l := store_at 28 (le32 (if_ip n)) l in
  let l := store_at 32 (slice 22 6 l) l in
  let l := store_at 0 (slice 22 6 l) l in
  store_at 6 (hwaddr n) (store_at 22 (hwaddr n) l).
Lemma answer_spec n p : packet_ok p → (SIZEOF_ETHARP_PACKET <= len p)%nat → mac (hwaddr n) →
  arp_answer n p = Some [Sent (if_id n) (answered n (payload p) ++ bytes_of (more p))].
Proof.
  intros Hpo Hl [Hw Hwb]. pose proof (payload_length p Hpo) as Hpl. destruct Hpo as (Hb & Hn & Hm & Hs).
  unfold SIZEOF_ETHARP_PACKET in Hl.
  assert (W : window (off p) (buf p) (payload p)) by (split; [by rewrite Hpl|by rewrite Hpl|done]).
  assert (step : ∀ b l k xs, window (off p) b l → length l = len p → bytes_ok xs → (k + length xs <= 42)%nat →
    ∃ b', wr (off p + k) xs b = Some b' ∧ window (off p) b' (store_at k xs l) ∧ length (store_at k xs l) = len p).
  { intros b l k xs Hwin Hll Hx Hk. destruct (window_wr _ b l k xs Hwin) as (b' & E & W' & _); [lia|done|]. exists b'.
    split; [done|]. split; [done|]. rewrite length_store_at; lia. }
  assert (Hrd : ∀ b l k m, window (off p) b l → length l = len p → (k + m <= 42)%nat →
    rdn (off p + k) m b = Some (slice k m l) ∧ bytes_ok (slice k m l) ∧ length (slice k m l) = m).
  { intros b l k m Hwin Hll Hk. split; [apply window_rdn; [done|lia]|]. split; [by apply slice_bytes, (window_ok _ _ _ Hwin)|].
    apply length_slice. lia. }
  unfold arp_answer, answered.
  destruct (step _ _ 20%nat (le16 (htons ARP_REPLY)) W Hpl (le16_ok _) ltac:(cbn; lia)) as (b1 & -> & W1 & L1). cbn [mbind option_bind].
  destruct (Hrd _ _ 28%nat 4%nat W1 L1 ltac:(lia)) as (-> & R1 & N1). cbn [mbind option_bind].
  destruct (step _ _ 38%nat _ W1 L1 R1 ltac:(lia)) as (b2 & -> & W2 & L2). cbn [mbind option_bind].
  destruct (step _ _ 28%nat (le32 (if_ip n)) W2 L2 (le32_bytes _) ltac:(cbn; lia)) as (b3 & -> & W3 & L3). cbn [mbind option_bind].
  destruct (Hrd _ _ 22%nat 6%nat W3 L3 ltac:(lia)) as (-> & R2 & N2). cbn [mbind option_bind].
  destruct (step _ _ 32%nat _ W3 L3 R2 ltac:(lia)) as (b4 & -> & W4 & L4). cbn [mbind option_bind].
  destruct (Hrd _ _ 22%nat 6%nat W4 L4 ltac:(lia)) as (-> & R3 & N3). cbn [mbind option_bind].
  destruct (step _ _ 0%nat _ W4 L4 R3 ltac:(lia)) as (b5 & E5 & W5 & L5). rewrite Nat.add_0_r in E5. rewrite E5. cbn [mbind option_bind].
  destruct (step _ _ 22%nat (hwaddr n) W5 L5 Hwb ltac:(lia)) as (b6 & -> & W6 & L6). cbn [mbind option_bind].
  destruct (step _ _ 6%nat (hwaddr n) W6 L6 Hwb ltac:(lia)) as (b7 & -> & W7 & L7). cbn [mbind option_bind].
  do 3 f_equal. pose proof (w_slice _ _ _ W7) as E7. rewrite L7 in E7. unfold contents, payload at 1. cbn [with_buf buf off len more].
  by rewrite E7.
Qed.
Lemma arp_input_ok linkoutput n p a : mac (hwaddr n) → packet_ok p → arp_ok a →
  ∃ a' evs, etharp_arp_input linkoutput n p a = Some (a', evs) ∧ arp_ok a' ∧ balanced [base p] (arp_table a) evs (arp_table a').
Proof.
  intros Hhw Hp Ha. unfold etharp_arp_input. pose proof Hp as (Hb & Hn & _).
  assert (Hfree : ∀ t, balanced [base p] t [Freed (base p)] t) by (intros t b; cbn; lia).
  destruct (Nat.ltb_spec (len p) SIZEOF_ETHARP_PACKET) as [|Hl]; [by exists a, [Freed (base p)]|].
  unfold SIZEOF_ETHARP_PACKET in Hl.
  destruct (rd16_Some (off p + 14) (buf p) ltac:(lia)) as [hwtype ->]. cbn [mbind option_bind].
  destruct (rd16_Some (off p + 16) (buf p) ltac:(lia)) as [proto ->]. cbn [mbind option_bind].
  destruct (rd_Some (off p + 18) (buf p) ltac:(lia)) as [hwlen ->]. cbn [mbind option_bind].
  destruct (rd_Some (off p + 19) (buf p) ltac:(lia)) as [protolen ->]. cbn [mbind option_bind].
  destruct (rd16_Some (off p + 20) (buf p) ltac:(lia)) as [opcode ->]. cbn [mbind option_bind].
  unfold rdn at 1. destruct (Nat.leb_spec (off p + 22 + 6) (length (buf p))); [|lia]. cbn [mbind option_bind].
  destruct (rd32_Some (off p + 28) (buf p) ltac:(lia)) as [sip ->]. cbn [mbind option_bind].
  destruct (rd32_Some (off p + 38) (buf p) ltac:(lia)) as [dip ->]. cbn [mbind option_bind].
  destruct (_ || _ || _ || _); [by exists a, [Freed (base p)]|].
  set (for_us := if if_ip n =? 0 then false else dip =? if_ip n).
  assert (Hm : mac (slice (off p + 22) 6 (buf p))) by (apply slice_mac; [done|lia]).
  destruct (update_ok linkoutput n Hhw sip _ (if for_us then ETHARP_FLAG_TRY_HARD else ETHARP_FLAG_FIND_ONLY) a Ha Hm)
    as (t' & evs & r & -> & Ht' & B); [destruct for_us; auto|]. cbn [mbind option_bind].
  assert (Hdone : ∀ mid, (∀ t, balanced [] t mid t) → balanced [base p] (arp_table a) (evs ++ mid ++ [Freed (base p)]) t').
  { intros mid Hmid b. specialize (B b). specialize (Hmid t' b). rewrite !freed_app, !taken_app, !occ_app in *. cbn in *. lia. }
  assert (Ha' : arp_ok (with_table t' a)) by by apply with_table_ok.
  destruct (opcode =? htons ARP_REQUEST); [destruct for_us|destruct (opcode =? htons ARP_REPLY)].
  - rewrite answer_spec by done. cbn [mbind option_bind]. eexists _, _. split; [done|]. split; [done|]. apply Hdone. by intros t b.
  - eexists _, _. split; [done|]. split; [done|]. apply (Hdone []). by intros t b.
  - eexists _, _. split; [done|]. split; [done|]. apply (Hdone [ArpReply sip]). by intros t b.
  - eexists _, _. split; [done|]. split; [done|]. apply (Hdone []). by intros t b.
Qed.

(** *** Frames that are understood *)
Lemma mac_six m : mac m → ∃ x0 x1 x2 x3 x4 x5, m = [x0; x1; x2; x3; x4; x5].
Proof. intros [H _]. do 7 (destruct m as [|? m]; try done). by repeat eexists. Qed.
Lemma arp_frame_length d s hw ip hd dip op : mac d → mac s → mac hw → mac hd →
  length (arp_frame d s hw ip hd dip op) = SIZEOF_ETHARP_PACKET.
Proof. intros [H1 _] [H2 _] [H3 _] [H4 _]. unfold arp_frame. rewrite !length_app, H1, H2, H3, H4. done. Qed.
Definition for_us (n : ether_if) (dip : Z) : bool := if if_ip n =? 0 then false else dip =? if_ip n.
(** The answer to [arp_frame d s hw ip hd dip ARP_REQUEST]. *)
Definition reply_frame (n : ether_if) (hw : list Z) (ip : Z) : list Z :=
  arp_frame hw (hwaddr n) (hwaddr n) (if_ip n) hw ip ARP_REPLY.
Lemma answered_frame n d s hw ip hd dip op pad : mac d → mac s → mac hw → mac hd → mac (hwaddr n) →
  answered n (arp_frame d s hw ip hd dip op ++ pad) = reply_frame n hw ip ++ pad.
Proof.
  intros Hd Hs Hhw Hhd Hn. destruct (mac_six d Hd) as (? & ? & ? & ? & ? & ? & ->). destruct (mac_six s Hs) as (? & ? & ? & ? & ? & ? & ->).
  destruct (mac_six hw Hhw) as (? & ? & ? & ? & ? & ? & ->). destruct (mac_six hd Hhd) as (? & ? & ? & ? & ? & ? & ->).
  unfold reply_frame, answered. destruct (mac_six _ Hn) as (? & ? & ? & ? & ? & ? & ->). reflexivity.
Qed.
Lemma arp_input_frame linkoutput n p a d s hw ip hd dip op pad : mac (hwaddr n) → packet_ok p → more p = [] →
  contents p = arp_frame d s hw ip hd dip op ++ pad → mac d → mac s → mac hw → mac hd → is_u32 ip → is_u32 dip → 0 <= op < 65536 →
  etharp_arp_input linkoutput n p a =
  '(a, evs, _) ← etharp_update_arp_entry linkoutput n ip hw
     (if for_us n dip then ETHARP_FLAG_TRY_HARD else ETHARP_FLAG_FIND_ONLY) a;
  Some (a, evs ++ (if op =? ARP_REQUEST then if for_us n dip then [Sent (if_id n) (reply_frame n hw ip ++ pad)] else []
                   else if op =? ARP_REPLY then [ArpReply ip] else []) ++ [Freed (base p)]).
Proof.
  intros Hn Hp Hm Hc Hd Hs Hhw Hhd Hip Hdip Hop. pose proof (arp_frame_length d s hw ip hd dip op Hd Hs Hhw Hhd) as Hfl.
  pose proof (contents_length p Hp) as Hcl. rewrite Hc, length_app, Hfl in Hcl.
  assert (Hlen : (SIZEOF_ETHARP_PACKET <= len p)%nat) by (unfold tot_len in Hcl; rewrite Hm in Hcl; cbn in Hcl; unfold SIZEOF_ETHARP_PACKET in *; lia).
  assert (Hpay : contents p = payload p) by (unfold contents; rewrite Hm; apply app_nil_r).
  pose proof (answer_spec n p Hp Hlen Hn) as Hans. rewrite <- Hpay, Hm, Hc, answered_frame in Hans by done.
  change (bytes_of []) with (@nil Z) in Hans. rewrite app_nil_r in Hans.
  assert (Eop : ∀ x, 0 <= x < 65536 → (htons op =? htons x) = (op =? x)).
  { intros x Hx. destruct (Z.eqb_spec op x) as [->|Hne]; [apply Z.eqb_refl|]. apply Z.eqb_neq. intros E. apply Hne.
    by rewrite <- (htons_involutive op), E, htons_involutive by done. }
  pose proof Hp as (_ & Hbl & _). unfold SIZEOF_ETHARP_PACKET in Hlen.
  unfold etharp_arp_input. destruct (Nat.ltb_spec (len p) SIZEOF_ETHARP_PACKET); [unfold SIZEOF_ETHARP_PACKET in *; lia|].
  destruct (mac_six d Hd) as (? & ? & ? & ? & ? & ? & ->). destruct (mac_six s Hs) as (? & ? & ? & ? & ? & ? & ->).
  destruct (mac_six hw Hhw) as (w0 & w1 & w2 & w3 & w4 & w5 & Ew). destruct (mac_six hd Hhd) as (? & ? & ? & ? & ? & ? & ->).
  assert (Hrd : ∀ i x y, (S i < 42)%nat → contents p !! i = Some x → contents p !! S i = Some y → rd16 (off p + i) (buf p) = Some (of_le16 x y)).
  { intros i ? ? Hi. apply rd16_at; [done|lia]. }
  rewrite Ew in Hc. unfold arp_frame in Hc. cbn [app] in Hc.
  erewrite (Hrd 14%nat), (Hrd 16%nat) by (lia || (rewrite Hc; reflexivity)). cbn [mbind option_bind].
  erewrite (rd8_at p 18), (rd8_at p 19) by (done || lia || (rewrite Hc; reflexivity)). cbn [mbind option_bind].
  erewrite (Hrd 20%nat) by (lia || (rewrite Hc; reflexivity)). cbn [mbind option_bind].
  assert (W : window (off p) (buf p) (contents p)).
  { rewrite Hpay. split; [by rewrite payload_length|by rewrite payload_length|apply Hp]. }
  rewrite (window_rdn (off p) (buf p) (contents p) 22 6 W) by (rewrite contents_length by done; unfold tot_len; lia).
  cbn [mbind option_bind].
  rewrite (rd32_at p 28 ip Hp), (rd32_at p 38 dip Hp) by (lia || done || (rewrite Hc; reflexivity)). cbn [mbind option_bind].
  assert (Ehw : slice 22 6 (contents p) = hw) by (rewrite Hc, Ew; reflexivity). rewrite Ehw.
  rewrite !of_le16_bytes by apply htons_u16. rewrite !Eop by done. rewrite !Z.eqb_refl. cbn [negb orb].
  change (if if_ip n =? 0 then false else dip =? if_ip n) with (for_us n dip).
  destruct (etharp_update_arp_entry linkoutput n ip hw _ a) as [[[a' evs] r]|]; [|done]. cbn [mbind option_bind].
  rewrite Hans. destruct (op =? ARP_REQUEST); [by destruct (for_us n dip)|]. by destruct (op =? ARP_REPLY).
Qed.

(** ** What is known *)
(** The hardware address of [ip], if it is known. *)
Definition known (t : list etharp_entry) (ip : Z) : option (list Z) :=
  match List.find (knows ip) t with Some e => Some (ethaddr e) | None => None end.
Lemma knows_holds ip e : knows ip e = true → holds ip e = true ∧ state e ≠ EMPTY ∧ ipaddr e = ip.
Proof.
  intros [H1 H2]%andb_true_iff. unfold holds, live, stable in *. apply Z.eqb_eq in H2 as ->. rewrite Z.eqb_refl.
  destruct (state e); try done; by rewrite bool_decide_eq_true_2.
Qed.
Lemma known_at t i e ip : distinct t → t !! i = Some e → knows ip e = true → known t ip = Some (ethaddr e).
Proof.
  intros Hd Hi Hk. unfold known. destruct (List.find (knows ip) t) as [x|] eqn:Ef.
  - apply find_some in Ef as [Hin Hx]. apply list_elem_of_In, list_elem_of_lookup in Hin as [j Hj].
    destruct (knows_holds _ _ Hk) as (_ & He & E1), (knows_holds _ _ Hx) as (_ & He' & E2).
    assert (i = j) as -> by (apply (Hd i j e x); congruence). congruence.
  - assert (Hin : In e t) by (apply list_elem_of_In; by eapply list_elem_of_lookup_2). pose proof (find_none _ _ Ef e Hin). congruence.
Qed.
Lemma known_none t ip : none (knows ip) t → known t ip = None.
Proof.
  intros Hn. unfold known. destruct (List.find (knows ip) t) as [x|] eqn:Ef; [|done]. apply find_some in Ef as [Hin Hx].
  apply list_elem_of_In in Hin. pose proof (proj1 (Forall_forall _ _) Hn x Hin). cbn in *. congruence.
Qed.
Lemma known_other t i e e' ip : t !! i = Some e → knows ip e = false → knows ip e' = false → known (<[i := e']> t) ip = known t ip.
Proof.
  intros Hi He He'. unfold known. assert (E : List.find (knows ip) (<[i := e']> t) = List.find (knows ip) t); [|by rewrite E].
  revert i Hi. induction t as [|x t IH]; intros [|i] Hi; [done..| |].
  - injection Hi as ->. change (<[0%nat := e']> (e :: t)) with (e' :: t). cbn [List.find]. by rewrite He, He'.
  - change (<[S i := e']> (x :: t)) with (x :: <[i := e']> t). cbn [List.find]. by rewrite (IH i Hi).
Qed.
Lemma known_lost t i e e' ip : distinct t → t !! i = Some e → knows ip e = true → knows ip e' = false →
  known (<[i := e']> t) ip = None.
Proof.
  intros Hd Hi He He'. apply known_none, Forall_lookup. intros j x Hx. apply list_lookup_insert_Some in Hx as [(-> & <- & _)|[Hj Hx]]; [done|].
  cbn. destruct (knows ip x) eqn:Hk; [|done]. destruct (knows_holds _ _ He) as (_ & H1 & E1), (knows_holds _ _ Hk) as (_ & H2 & E2).
  exfalso. apply Hj. apply (Hd i j e x); congruence.
Qed.
Lemma knows_learned n eth ip e : ipaddr e = ip → knows ip (learned n eth e) = true ∧ ∀ ip', ip' ≠ ip → knows ip' (learned n eth e) = false.
Proof. intros <-. unfold knows, stable. cbn. split; [apply Z.eqb_refl|]. intros ip' Hne. by apply Z.eqb_neq. Qed.
Lemma victim_full t i e : victim t i e → state e = EMPTY ∨ full t.
Proof. intros [? ?|? _|? ? _|? ? ? _]; [by left|by right..]. Qed.
Lemma holds_ip ip e : holds ip e = true → ipaddr e = ip.
Proof. intros [_ H]%andb_true_iff. by apply Z.eqb_eq in H. Qed.

(** C16: What a neighbour says of itself is remembered.  For a unicast address,
    [etharp_update_arp_entry] (told to make room) always ends with the address known under the
    new hardware address; a packet that waited for it, and nothing else, is sent there.  Exactly
    one entry of the table changes: the one that held the address, or, when none did, a free
    one; in a full table an oldest one of the known entries; only when none is known an oldest
    one that is asked for without a packet waiting; and only when there is none of these either
    an oldest one with a packet, which is freed.  So every other address is known as before, but
    for that of the known entry that was given up.  No address is ever in two entries. *)
Theorem arp_learns linkoutput n ip eth a : arp_ok a → mac (hwaddr n) → mac eth → unicast n ip →
  ∃ a' evs, etharp_update_arp_entry linkoutput n ip eth ETHARP_FLAG_TRY_HARD a = Some (a', evs, ERR_OK) ∧
    arp_ok a' ∧ known (arp_table a') ip = Some eth ∧
    frames evs = match List.find (holds ip) (arp_table a) with
                 | Some e => match e_q e with
                             | Some p => [ip_frame (hwaddr n) eth (drop SIZEOF_ETH_HDR (contents p))]
                             | None => []
                             end
                 | None => []
                 end ∧
    (∃ i e, arp_table a !! i = Some e ∧ (∀ j, j ≠ i → arp_table a' !! j = arp_table a !! j) ∧
       (holds ip e = true ∨ none (holds ip) (arp_table a) ∧ victim (arp_table a) i e ∧ evs = free_q (e_q e))) ∧
    ∀ ip', ip' ≠ ip → known (arp_table a') ip' = known (arp_table a) ip' ∨
      (full (arp_table a) ∧ known (arp_table a') ip' = None ∧ ∃ i e, oldest stable (arp_table a) i e ∧ ipaddr e = ip').
Proof.
  intros Ha Hhw Heth Hu. pose proof Ha as [Ht Hc].
  destruct (update_hard linkoutput n Hhw ip eth a Ha Hu Heth) as [(i & e & Hi & Hh & ->)|(Hn & i & e & Hv & ->)].
  - destruct (learned_found n ip eth _ i e Ht Heth Hi Hh) as [Ht' _]. eexists _, _. split; [done|]. split; [by apply with_table_ok|].
    destruct (knows_learned n eth ip e (holds_ip _ _ Hh)) as [Hk Hko]. pose proof (lookup_lt_Some _ _ _ Hi).
    split; [|split; [|split]].
    + apply (known_at _ i (learned n eth e)); [apply Ht'|by apply list_lookup_insert_eq|done].
    + assert (Ef : List.find (holds ip) (arp_table a) = Some e).
      { destruct (List.find (holds ip) (arp_table a)) as [x|] eqn:Ef.
        - apply find_some in Ef as [Hin Hx]. apply list_elem_of_In, list_elem_of_lookup in Hin as [j Hj].
          pose proof (holds_ip _ _ Hx). pose proof (holds_ip _ _ Hh). apply andb_true_iff in Hx as [Hx _], Hh as [Hh _].
          apply bool_decide_eq_true_1 in Hx, Hh. assert (i = j) as -> by (apply (to_distinct _ Ht i j e x); congruence). congruence.
        - assert (Hin : In e (arp_table a)) by (apply list_elem_of_In; by eapply list_elem_of_lookup_2).
          pose proof (find_none _ _ Ef e Hin). congruence. }
      rewrite Ef. unfold send_waiting. by destruct (e_q e).
    + exists i, e. split; [done|]. split; [intros j Hj; by apply list_lookup_insert_ne|by left].
    + intros ip' Hne. left. apply (known_other _ i e); [done| |by apply Hko]. unfold knows. rewrite (holds_ip _ _ Hh).
      rewrite (proj2 (Z.eqb_neq _ _) Hne). apply andb_false_r.
  - pose proof (victim_at _ _ _ Hv) as Hi. destruct (learned_new n ip eth _ i e Ht Heth Hi Hn) as [Ht' _].
    eexists _, _. split; [done|]. split; [by apply with_table_ok|]. destruct (knows_learned n eth ip (renewed ip e) eq_refl) as [Hk Hko].
    pose proof (lookup_lt_Some _ _ _ Hi). split; [|split; [|split]].
    + apply (known_at _ i (learned n eth (renewed ip e))); [apply Ht'|by apply list_lookup_insert_eq|done].
    + destruct (List.find (holds ip) (arp_table a)) as [x|] eqn:Ef; [|by rewrite frames_free_q]. apply find_some in Ef as [Hin Hx].
      apply list_elem_of_In in Hin. pose proof (proj1 (Forall_forall _ _) Hn x Hin). cbn in *. congruence.
    + exists i, e. split; [done|]. split; [intros j Hj; by apply list_lookup_insert_ne|by right].
    + intros ip' Hne. destruct (knows ip' e) eqn:Ek; [right|left; by apply (known_other _ i e); [..|apply Hko]].
      destruct (knows_holds _ _ Ek) as (_ & Hs & Eip). destruct (victim_full _ _ _ Hv) as [|Hf]; [done|]. split; [done|].
      split; [apply (known_lost _ i e); [apply Ht|done..|by apply Hko]|]. exists i, e. split; [|done].
      apply andb_true_iff in Ek as [Ek _].
      destruct Hv as [_ He|_ Ho|_ Hns Ho|_ Hns _ Ho]; [done|done|..]; pose proof (Forall_lookup_1 _ _ _ _ Hns Hi); cbn in *; congruence.
Qed.

(** ** Runs *)
(** What the outside answers during a call. *)
Record outside := Outside { driver : Z → list Z → Z; arp_room : option Z; copy_room : option Z }.
Inductive arp_call :=
| Output (q : packet) (ip : Z)
| Query (ip : Z) (q : option packet) (rom : bool)
| Receive (p : packet)
| Tick
| Down (n : Z).
Definition arp_do (w : outside) (n : ether_if) (c : arp_call) (a : arp) : option (arp * list ether) :=
  match c with
  | Output q ip => '(a, evs, _) ← etharp_output (driver w) (arp_room w) (copy_room w) n q ip a; Some (a, evs)
  | Query ip q rom => '(a, evs, _) ← etharp_query (driver w) (arp_room w) (copy_room w) n ip q rom a; Some (a, evs)
  | Receive p => etharp_arp_input (driver w) n p a
  | Tick => etharp_tmr a
  | Down i => etharp_cleanup_netif i a
  end.
Fixpoint arp_run (cs : list (outside * ether_if * arp_call)) (a : arp) : option (arp * list ether) :=
  match cs with
  | [] => Some (a, [])
  | (w, n, c) :: cs => '(a, evs) ← arp_do w n c a; '(a, evs') ← arp_run cs a; Some (a, evs ++ evs')
  end.
(** Packets are well-formed, and one given to [etharp_query] has its Ethernet header. *)
Definition call_ok (x : outside * ether_if * arp_call) : Prop :=
  mac (hwaddr x.1.2) ∧
  match x.2 with
  | Output q _ => packet_ok q ∧ Z.of_nat (SIZEOF_ETH_HDR + tot_len q) < 65536
  | Query _ (Some q) _ => packet_out q
  | Receive p => packet_ok p
  | _ => True
  end.
(** The buffers that come from the driver. *)
Definition arrived (x : outside * ether_if * arp_call) : list Z := match x.2 with Receive p => [base p] | _ => [] end.
Lemma arp_do_ok w n c a : call_ok (w, n, c) → arp_ok a →
  ∃ a' evs, arp_do w n c a = Some (a', evs) ∧ arp_ok a' ∧ balanced (arrived (w, n, c)) (arp_table a) evs (arp_table a').
Proof.
  intros [Hn Hc] Ha. destruct c as [q ip|ip q rom|p| |i]; cbn [fst snd] in Hn, Hc; cbn [arp_do arrived snd].
  - destruct (output_ok (driver w) (arp_room w) (copy_room w) n Hn q ip a Ha (proj1 Hc) (proj2 Hc)) as (a' & evs & r & -> & H).
    by exists a', evs.
  - destruct (query_ok (driver w) (arp_room w) (copy_room w) n Hn ip q rom a Ha) as (a' & evs & r & -> & H); [by intros p ->|].
    by exists a', evs.
  - by apply arp_input_ok.
  - destruct (etharp_tmr_spec a Ha) as (-> & H & B). eexists _, _. split; [done|]. by split.
  - destruct (etharp_cleanup_spec i a Ha) as (-> & H & B). eexists _, _. split; [done|]. by split.
Qed.
(** C7: The Ethernet side never faults and loses no buffer.  From the empty table, whatever
    packets are sent, frames received, timer ticks and interfaces that go away, whatever the
    driver answers and whether buffers can be allocated or not: every call returns without an
    access outside a packet or the table; the table stays well-formed (ten entries, no address
    twice, packets only on entries that are asked for, ages in their bounds); and every buffer
    that arrived, was allocated or was referenced has been freed as often, or waits in the
    table, which holds at most one packet an entry. *)
Theorem arp_never_faults cs : Forall call_ok cs →
  ∃ a evs, arp_run cs arp_boot = Some (a, evs) ∧ arp_ok a ∧
    ∀ b, (occ b (concat (map arrived cs)) + occ b (taken evs) = occ b (freed evs) + occ b (queued (arp_table a)))%nat.
Proof.
  intros Hcs. assert (H : ∀ a, arp_ok a → ∃ a' evs, arp_run cs a = Some (a', evs) ∧ arp_ok a' ∧
    balanced (concat (map arrived cs)) (arp_table a) evs (arp_table a')).
  { induction Hcs as [|[[w n] c] cs Hc _ IH]; intros a Ha; [by exists a, []|]. cbn [arp_run map concat].
    destruct (arp_do_ok w n c a Hc Ha) as (a1 & evs1 & -> & Ha1 & B1). cbn [mbind option_bind].
    destruct (IH a1 Ha1) as (a2 & evs2 & -> & Ha2 & B2). cbn [mbind option_bind]. eexists _, _. split; [done|]. split; [done|].
    by eapply balanced_trans. }
  destruct (H arp_boot arp_boot_ok) as (a & evs & E & Ha & B). exists a, evs. split; [done|]. split; [done|].
  intros b. specialize (B b). cbn in B. lia.
Qed.

(** ** Ageing *)
Fixpoint arp_ticks (n : nat) (a : arp) : option (arp * list ether) :=
  match n with
  | O => Some (a, [])
  | S n => '(a, evs) ← etharp_tmr a; '(a, evs') ← arp_ticks n a; Some (a, evs ++ evs')
  end.
(** The ticks an entry has left. *)
Definition remaining (e : etharp_entry) : Z :=
  match state e with EMPTY => 0 | PENDING => ARP_MAXPENDING - ctime e | _ => ARP_MAXAGE - ctime e end.
Ltac decide_states := repeat match goal with |- context [decide ?P] => destruct (decide P); try done end.
Lemma remaining_aged e : entry_ok e → remaining (aged e) = Z.max 0 (remaining e - 1).
Proof.
  intros He. unfold aged. pose proof (eo_live _ He) as H1. pose proof (eo_pending _ He) as H2. pose proof (eo_age _ He) as H3.
  unfold remaining, expires, live, ARP_MAXAGE, ARP_MAXPENDING in *.
  destruct (state e) eqn:Es.
  - rewrite bool_decide_eq_false_2 by (intros H; by apply H). cbn [andb]. rewrite decide_True by done. rewrite Es. lia.
  - rewrite !bool_decide_eq_true_2 by done. cbn [andb]. specialize (H1 ltac:(done)). specialize (H2 eq_refl).
    rewrite (proj2 (Z.leb_gt 240 (ctime e + 1))) by lia. cbn [orb]. destruct (Z.leb_spec 2 (ctime e + 1)); decide_states; cbn; lia.
  - rewrite bool_decide_eq_true_2 by done. rewrite bool_decide_eq_false_2 by done. cbn [andb]. rewrite orb_false_r.
    specialize (H1 ltac:(done)). destruct (Z.leb_spec 240 (ctime e + 1)); decide_states; cbn; lia.
  - rewrite bool_decide_eq_true_2 by done. rewrite bool_decide_eq_false_2 by done. cbn [andb]. rewrite orb_false_r.
    specialize (H1 ltac:(done)). destruct (Z.leb_spec 240 (ctime e + 1)); decide_states; cbn; lia.
Qed.
Lemma remaining_spec e : entry_ok e → 0 <= remaining e <= ARP_MAXAGE ∧ (remaining e = 0 ↔ state e = EMPTY) ∧
  (state e = PENDING → remaining e <= ARP_MAXPENDING).
Proof.
  intros He. pose proof (eo_live _ He) as H1. pose proof (eo_pending _ He) as H2. pose proof (eo_age _ He) as H3.
  unfold remaining, ARP_MAXAGE, ARP_MAXPENDING in *. destruct (state e);
    try specialize (H1 ltac:(done)); try specialize (H2 eq_refl); repeat split; intros; try done; lia.
Qed.
Lemma aged_pending e : state (aged e) = PENDING → state e = PENDING.
Proof.
  unfold aged. destruct (expires e); [done|]. destruct (decide (state e = EMPTY)); [congruence|]. cbn.
  by destruct (decide (state e = STABLE_REREQUESTING)).
Qed.
Lemma aged_stable e : stable e = true → ctime e + 1 < ARP_MAXAGE →
  stable (aged e) = true ∧ ctime (aged e) = ctime e + 1 ∧ ipaddr (aged e) = ipaddr e ∧ ethaddr (aged e) = ethaddr e.
Proof.
  intros Hs Ha. unfold aged, expires, live, stable in *. rewrite (proj2 (Z.leb_gt _ _)) by done.
  destruct (state e) eqn:Es; try done; rewrite (bool_decide_eq_false_2 (_ = PENDING)) by done; cbn [orb andb]; rewrite andb_false_r;
    decide_states; cbn; done.
Qed.
Lemma iter_ok n e : entry_ok e → entry_ok (Nat.iter n aged e) ∧ remaining (Nat.iter n aged e) = Z.max 0 (remaining e - Z.of_nat n) ∧
  (state (Nat.iter n aged e) = PENDING → state e = PENDING).
Proof.
  intros He. induction n as [|n (IH1 & IH2 & IH3)]; cbn [Nat.iter nat_rect].
  - split; [done|]. split; [|done]. destruct (remaining_spec e He). cbn. lia.
  - change (nat_rect _ e _ n) with (Nat.iter n aged e). split; [by apply aged_ok|]. split; [|by intros ?%aged_pending%IH3].
    rewrite remaining_aged by done. rewrite IH2. lia.
Qed.
Lemma iter_stable n e : stable e = true → ctime e + Z.of_nat n < ARP_MAXAGE →
  let e' := Nat.iter n aged e in
  stable e' = true ∧ ctime e' = ctime e + Z.of_nat n ∧ ipaddr e' = ipaddr e ∧ ethaddr e' = ethaddr e.
Proof.
  intros Hs. induction n as [|n IH]; intros Ha; cbn [Nat.iter nat_rect]; [split_and!; try done; cbn; lia|].
  change (nat_rect _ e _ n) with (Nat.iter n aged e). destruct IH as (I1 & I2 & I3 & I4); [lia|].
  destruct (aged_stable _ I1) as (J1 & J2 & J3 & J4); [lia|]. cbv zeta. rewrite J2, J3, J4, I2, I3, I4. split_and!; try done; lia.
Qed.
Lemma arp_ticks_spec n a : arp_ok a → ∃ evs,
  arp_ticks n a = Some (with_table (map (Nat.iter n aged) (arp_table a)) a, evs) ∧
  arp_ok (with_table (map (Nat.iter n aged) (arp_table a)) a) ∧
  balanced [] (arp_table a) evs (map (Nat.iter n aged) (arp_table a)) ∧ taken evs = [].
Proof.
  assert (Hno : ∀ t, taken (concat (map expiry t)) = []).
  { induction t as [|e t IH]; [done|]. cbn [map concat]. rewrite taken_app, IH. unfold expiry. destruct (expires e); [by destruct (e_q e)|done]. }
  revert a. induction n as [|n IH]; intros a Ha.
  - exists []. rewrite map_id. split; [by destruct a|]. split; [by destruct a|]. by split.
  - destruct (etharp_tmr_spec a Ha) as (E & Ha1 & B1). cbn [arp_ticks]. rewrite E. cbn [mbind option_bind].
    destruct (IH _ Ha1) as (evs & E2 & Ha2 & B2 & T2). rewrite E2. cbn [mbind option_bind].
    assert (Em : map (Nat.iter n aged) (map aged (arp_table a)) = map (Nat.iter (S n) aged) (arp_table a)).
    { rewrite map_map. apply map_ext. intros e. symmetry. apply Nat.iter_succ_r. }
    cbn [with_table arp_table etharp_cached_entry] in *. rewrite Em in *. eexists. split; [done|]. split; [done|].
    split; [by eapply balanced_app|]. by rewrite taken_app, T2, Hno.
Qed.
(** C20: Nothing stays in the table for ever.  When the timer has run [n] times and nothing
    else has happened: after two runs no packet waits any more, and each that did has been
    freed once; after 240 runs (20 minutes) every entry is free, so that a neighbour that went
    away is forgotten; and an address that was confirmed, or learned, less than [240 - n] runs
    ago is still known. *)
Theorem arp_entries_expire n a : arp_ok a →
  ∃ a' evs, arp_ticks n a = Some (a', evs) ∧ arp_ok a' ∧
    ((2 <= n)%nat → queued (arp_table a') = [] ∧ ∀ b, occ b (freed evs) = occ b (queued (arp_table a))) ∧
    ((240 <= n)%nat → Forall (λ e, state e = EMPTY) (arp_table a')) ∧
    ∀ i e, arp_table a !! i = Some e → stable e = true → ctime e + Z.of_nat n < ARP_MAXAGE →
      known (arp_table a') (ipaddr e) = Some (ethaddr e).
Proof.
  intros Ha. pose proof Ha as [Ht _]. destruct (arp_ticks_spec n a Ha) as (evs & E & Ha' & B & T).
  eexists _, evs. split; [exact E|]. split; [done|]. set (t' := map (Nat.iter n aged) (arp_table a)) in *.
  assert (Hall : Forall (λ e', ∃ e, e' = Nat.iter n aged e ∧ entry_ok e) t').
  { apply Forall_map. eapply Forall_impl; [apply (to_entries _ Ht)|]. intros e He. by exists e. }
  change (arp_table (with_table t' a)) with t'. split; [|split].
  - intros Hn. assert (Eq : queued t' = []).
    { clear -Hall Hn. induction Hall as [|e' t' (e & -> & He) _ IH]; [done|]. unfold queued in *. cbn [map concat]. rewrite IH, app_nil_r.
      destruct (iter_ok n e He) as (H1 & H2 & H3). unfold waiting. destruct (e_q (Nat.iter n aged e)) eqn:Eq; [|done].
      pose proof (eo_q _ H1 ltac:(by rewrite Eq)) as Hp. destruct (remaining_spec _ He) as (_ & _ & Hr). specialize (Hr (H3 Hp)).
      destruct (remaining_spec _ H1) as (_ & Hz & _). unfold ARP_MAXPENDING in Hr.
      assert (state (Nat.iter n aged e) = EMPTY) by (apply Hz; lia). congruence. }
    split; [done|]. intros b. specialize (B b). rewrite T, Eq in B. cbn in B. lia.
  - intros Hn. eapply Forall_impl; [exact Hall|]. intros e' (e & -> & He). destruct (iter_ok n e He) as (H1 & H2 & _).
    destruct (remaining_spec _ He) as ([_ Hr] & _). destruct (remaining_spec _ H1) as (_ & Hz & _). apply Hz. unfold ARP_MAXAGE in Hr. lia.
  - intros i e Hi Hs Hage. destruct (iter_stable n e Hs Hage) as (I1 & _ & I3 & I4). rewrite <- I4.
    apply (known_at t' i); [apply Ha'|unfold t'; by apply list_lookup_fmap_Some_2 || (rewrite list_lookup_fmap, Hi; done)|].
    unfold knows. by rewrite I1, I3, Z.eqb_refl.
Qed.

(** ** Concrete tables *)
Definition mac_a : list Z := [2; 0; 0; 0; 0; 1].
Definition mac_b : list Z := [2; 0; 0; 0; 0; 2].
Definition eth_a : ether_if := EtherIf (Nif 1 (InpView 0x0200a8c0 0x00ffffff 0x33 0) 1500) 0x0100a8c0 mac_a.
Definition eth_b : ether_if := EtherIf (Nif 1 (InpView 0x0100a8c0 0x00ffffff 0x33 0) 1500) 0 mac_b.
Lemma mac_demo : mac mac_a ∧ mac mac_b.
Proof. split; (split; [done|]); apply (bool_decide_eq_true_1 _); by vm_compute. Qed.
Lemma unicast_demo : unicast eth_a 0x0100a8c0 ∧ unicast eth_b 0x0200a8c0.
Proof. split; (split; [discriminate|]); split; by vm_compute. Qed.
Definition quiet : outside := Outside (λ _ _, 0) (Some 4096) (Some 8192).
(** Five bytes with room for headers, for an address nobody has told yet. *)
Definition first_packet : packet := Packet (repeat 0 50 ++ [104; 101; 108; 108; 111]) 1024 50 5 true [].
Lemma first_packet_ok : packet_ok first_packet.
Proof. split_and!; [by apply (bool_decide_eq_true_1 _); vm_compute|vm_compute; lia|constructor|by vm_compute]. Qed.
Definition asking : arp := match arp_do quiet eth_a (Output first_packet 0x0100a8c0) arp_boot with Some (a, _) => a | None => arp_boot end.
Lemma asking_ok : arp_ok asking.
Proof.
  destruct (arp_do_ok quiet eth_a (Output first_packet 0x0100a8c0) arp_boot) as (a & evs & E & Ha & _).
  - split; [apply mac_demo|]. split; [apply first_packet_ok|by vm_compute].
  - apply arp_boot_ok.
  - unfold asking. by rewrite E.
Qed.
Lemma arp_never_faults_witness :
  ∃ a evs, arp_run [(quiet, eth_a, Output first_packet 0x0100a8c0); (quiet, eth_a, Tick); (quiet, eth_a, Receive first_packet)] arp_boot
      = Some (a, evs) ∧ arp_ok a ∧ occ 1024 (freed evs) = 1%nat.
Proof.
  destruct (arp_never_faults [(quiet, eth_a, Output first_packet 0x0100a8c0); (quiet, eth_a, Tick); (quiet, eth_a, Receive first_packet)])
    as (a & evs & E & Ha & B).
  - repeat apply Forall_cons_2; try apply Forall_nil_2; (split; [apply mac_demo|]); cbn [snd]; [|done|apply first_packet_ok].
    split; [apply first_packet_ok|by vm_compute].
  - exists a, evs. split; [exact E|]. split; [done|].
    assert (Ev : Some (freed evs) = Some [4096; 1024]).
    { transitivity (option_map (λ x, freed x.2) (Some (a, evs))); [done|]. rewrite <- E. by vm_compute. }
    injection Ev as ->. by vm_compute.
Defined.
Lemma arp_learns_witness :
  ∃ a' evs, etharp_update_arp_entry (λ _ _, 0) eth_a 0x0100a8c0 mac_b ETHARP_FLAG_TRY_HARD asking = Some (a', evs, ERR_OK) ∧
    arp_ok a' ∧ known (arp_table a') 0x0100a8c0 = Some mac_b ∧
    frames evs = [ip_frame mac_a mac_b [104; 101; 108; 108; 111]].
Proof.
  destruct (arp_learns (λ _ _, 0) eth_a 0x0100a8c0 mac_b asking asking_ok (proj1 mac_demo) (proj2 mac_demo) (proj1 unicast_demo))
    as (a' & evs & E & Ha & Hk & Hf & _).
  exists a', evs. split; [exact E|]. split; [done|]. split; [exact Hk|]. rewrite Hf. by vm_compute.
Defined.
Lemma arp_entries_expire_witness :
  ∃ a' evs, arp_ticks 2 asking = Some (a', evs) ∧ queued (arp_table asking) = [8192] ∧ queued (arp_table a') = [] ∧
    occ 8192 (freed evs) = 1%nat.
Proof.
  destruct (arp_entries_expire 2 asking asking_ok) as (a' & evs & E & _ & Hw & _). destruct (Hw (le_n 2)) as [Hq Hf].
  exists a', evs. split; [exact E|]. split; [by vm_compute|]. split; [exact Hq|]. rewrite Hf. by vm_compute.
Defined.
