(* ===== verification/Ethernet.v ===== *)
(** * From socket to socket over Ethernet

    The UDP and IP path ([Ip], [IpInput]) and the Ethernet side ([EthArp]) composed: two
    stations on one network, the sender not knowing the receiver's hardware address yet. *)
From S2P Require Import Prelude Chksum Udp Ip IpInput IpReass EthArp.

(** A buffer holds the frame [f] at its front. *)
Definition carries (f : list Z) (pad : list Z) (P : packet) : Prop :=
  packet_ok P ∧ more P = [] ∧ contents P = f ++ pad.

(** ** The sender asks *)
Section station.
Variables (driver : Z → list Z → Z) (n : ether_if).
Hypothesis Hhw : mac (hwaddr n).
Lemma knows_none ip t i e : none (knows ip) t → t !! i = Some e → stable e && (ip =? ipaddr e) = false.
Proof. intros Hn Hi. exact (Forall_lookup_1 _ _ _ _ Hn Hi). Qed.
Lemma query_unknown q ip r c a : arp_ok a → packet_out q → unicast n ip → none (knows ip) (arp_table a) →
  ∃ a' evs i e p, etharp_query driver (Some r) (Some c) n ip (Some q) false a = Some (a', evs, ERR_OK) ∧
    frames evs = [request_frame n ip] ∧ arp_table a' !! i = Some e ∧ holds ip e = true ∧
    e_q e = Some p ∧ contents p = contents q.
Proof.
  intros Ha [Hq Hl] (H0 & Hb & Hm) Hn. pose proof Ha as [Ht Hc]. unfold etharp_query.
  rewrite Hb, Hm, (proj2 (Z.eqb_neq _ _) H0). cbn [orb].
  destruct (query_entry ip _ Ht) as (t' & evs & i & e & E & Hi & Ht' & B & Hfr & Hp & Hip & Hs). rewrite E. cbn [mbind option_bind].
  rewrite Hi. cbn [mbind option_bind]. fold (pending e). set (e1 := pending e) in *.
  assert (Hpend : state e1 = PENDING).
  { destruct Hs as [Hs|[Hi' Hs]]; [done|]. pose proof (knows_none ip _ _ _ Hn Hi') as Hk. rewrite Hs, Hip, Z.eqb_refl in Hk. done. }
  rewrite (bool_decide_eq_true_2 _ Hpend). cbn [orb]. pose proof (request_spec driver (Some r) n ip) as Hreq.
  destruct (etharp_request driver (Some r) n ip) as [req res]. cbn [fst] in Hreq.
  assert (Est : stable e1 = false) by (unfold stable; by rewrite Hpend). rewrite Est.
  cbn [copy_packet mbind option_bind with_table arp_table]. pose proof (lookup_lt_Some _ _ _ Hi).
  destruct (copy_ok c q Hq Hl) as (_ & _ & Hcc).
  set (pk := Packet (contents q) c 0 (tot_len q) true []) in *.
  eexists _, _, i, (set_q (Some pk) e1), pk. split; [done|]. split; [|split; [|split; [|split; [done|exact Hcc]]]].
  - rewrite !frames_app, Hfr, Hreq. cbn. by rewrite frames_free_q.
  - cbn [with_table arp_table]. apply list_lookup_insert_eq. by rewrite length_insert.
  - unfold holds, live. cbn. by rewrite Hpend, Hip, Z.eqb_refl.
Qed.
Lemma output_unknown q ip r c a : arp_ok a → packet_ok q → grows q = true → (SIZEOF_ETH_HDR <= off q)%nat →
  Z.of_nat (SIZEOF_ETH_HDR + tot_len q) < 65536 → unicast n ip → netcmp ip (if_ip n) (in_mask (n_view (ip_if n))) = true →
  none (knows ip) (arp_table a) →
  ∃ a' evs i e p, etharp_output driver (Some r) (Some c) n q ip a = Some (a', evs, ERR_OK) ∧ arp_ok a' ∧
    frames evs = [request_frame n ip] ∧ arp_table a' !! i = Some e ∧ holds ip e = true ∧
    e_q e = Some p ∧ drop SIZEOF_ETH_HDR (contents p) = contents q.
Proof.
  intros Ha Hq Hg Ho Hs Hu Hnet Hn. pose proof Ha as [Ht Hc].
  destruct (output_ok driver (Some r) (Some c) n Hhw q ip a Ha Hq Hs) as (a' & evs & res & E & Ha' & _).
  assert (Es : show_header SIZEOF_ETH_HDR q = Some (with_payload (off q - 14) (len q + 14) q)).
  { unfold show_header. rewrite Hg. destruct (Nat.leb_spec SIZEOF_ETH_HDR (off q)); [done|lia]. }
  destruct (show_header_spec _ q _ Hq Hs Es) as (Hp & Hdrop & _ & Hl & _). set (p := with_payload _ _ q) in *.
  destruct (query_unknown p ip r c a Ha (conj Hp Hl) Hu Hn) as (a2 & evs2 & i & e & pp & E2 & Hf & Hi & Hh & Hqq & Hcc).
  assert (Eo : etharp_output driver (Some r) (Some c) n q ip a = etharp_query driver (Some r) (Some c) n ip (Some p) false a).
  { unfold etharp_output. rewrite Es. destruct Hu as (_ & -> & ->). rewrite Hnet. cbn [negb andb].
    destruct (lookup_lt_is_Some_2 (arp_table a) (etharp_cached_entry a)) as [x Hx]; [by rewrite (to_len _ Ht)|].
    rewrite Hx. cbn [mbind option_bind]. rewrite (knows_none ip _ _ _ Hn Hx).
    pose proof (stable_loop_spec ip (arp_table a) [] ltac:(constructor)) as Hsl. cbn [length app] in Hsl.
    destruct (stable_loop ip 0 (arp_table a)) as [j|]; [|done]. destruct Hsl as (y & Hy & Hk & _).
    pose proof (knows_none ip _ _ _ Hn Hy) as Hk'. unfold knows in Hk. congruence. }
  rewrite Eo, E2 in E. injection E as -> -> <-. exists a', evs, i, e, pp. rewrite Eo, E2. split_and!; try done. by rewrite Hcc.
Qed.

(** ** The answer *)
Lemma update_resolves ip eth a i e : arp_ok a → unicast n ip → mac eth → arp_table a !! i = Some e → holds ip e = true →
  etharp_update_arp_entry driver n ip eth ETHARP_FLAG_TRY_HARD a
    = Some (with_table (<[i := learned n eth e]> (arp_table a)) a, send_waiting n eth e, ERR_OK).
Proof.
  intros Ha Hu Heth Hi Hh. pose proof Ha as [Ht _].
  destruct (update_hard driver n Hhw ip eth a Ha Hu Heth) as [(j & x & Hj & Hx & ->)|(Hn & _)].
  - assert (i = j) as <-.
    { pose proof (holds_ip _ _ Hx). pose proof (holds_ip _ _ Hh). apply andb_true_iff in Hx as [Hx _], Hh as [Hh _].
      apply bool_decide_eq_true_1 in Hx, Hh. apply (to_distinct _ Ht i j e x); congruence. }
    by simplify_eq.
  - pose proof (Forall_lookup_1 _ _ _ _ Hn Hi). cbn in *. congruence.
Qed.
Lemma update_known ip eth a : arp_ok a → unicast n ip → mac eth →
  ∃ a' evs, etharp_update_arp_entry driver n ip eth ETHARP_FLAG_TRY_HARD a = Some (a', evs, ERR_OK) ∧
    arp_ok a' ∧ known (arp_table a') ip = Some eth.
Proof.
  intros Ha Hu Heth. pose proof Ha as [Ht Hc].
  destruct (update_hard driver n Hhw ip eth a Ha Hu Heth) as [(i & e & Hi & Hh & ->)|(Hn & i & e & Hv & ->)].
  - destruct (learned_found n ip eth _ i e Ht Heth Hi Hh) as [Ht' _]. eexists _, _. split; [done|]. split; [by split|].
    apply (known_at _ i (learned n eth e)); [apply Ht'|by apply list_lookup_insert_eq; eapply lookup_lt_Some|].
    by apply knows_learned, holds_ip.
  - pose proof (victim_at _ _ _ Hv) as Hi. destruct (learned_new n ip eth _ i e Ht Heth Hi Hn) as [Ht' _].
    eexists _, _. split; [done|]. split; [by split|].
    apply (known_at _ i (learned n eth (renewed ip e))); [apply Ht'|by apply list_lookup_insert_eq; eapply lookup_lt_Some|].
    by apply knows_learned.
Qed.
End station.

(** ** Frames *)
Section frames.
Context `{StdChksum}.
Variables (driver : Z → list Z → Z) (ram : Z) (link : nif → list Z → Z → Z) (raw : Z → packet → bool)
  (room : option (list Z)) (k : nat).
Variable n : ether_if.
Hypothesis Hhw : mac (hwaddr n).
Hypothesis Hflag : Z.land (in_flags (n_view (ip_if n))) NETIF_FLAG_ETHARP ≠ 0.
Abbreviation input := (ethernet_input driver ram link raw room k).
(** The type of a frame. *)
Lemma ether_type P d s rest ty : packet_ok P → more P = [] → mac d → mac s →
  contents P = (d ++ s ++ le16 (htons ty)) ++ rest → 0 <= ty < 65536 →
  rd16 (off P + 12) (buf P) = Some (htons ty) ∧ (SIZEOF_ETH_HDR + length rest)%nat = len P.
Proof.
  intros HP Hm [Hd _] [Hs _] Hc Hty. pose proof (contents_length P HP) as Hcl.
  assert (Hl : (SIZEOF_ETH_HDR + length rest)%nat = len P).
  { unfold tot_len in Hcl. rewrite Hm, Hc, !length_app, Hd, Hs in Hcl. cbn in Hcl. unfold SIZEOF_ETH_HDR. lia. }
  split; [|done]. unfold SIZEOF_ETH_HDR in Hl.
  rewrite (rd16_at P 12 (byte_of 0 (htons ty)) (byte_of 1 (htons ty)) HP); [by rewrite of_le16_bytes by apply htons_u16|lia|..];
    rewrite Hc, <- !app_assoc, lookup_app_r, lookup_app_r by lia; rewrite Hd, Hs; done.
Qed.
Lemma input_arp P d s hw ip hd dip op pad a st r : carries (arp_frame d s hw ip hd dip op) pad P → mac d → mac s → mac hw → mac hd →
  input P n a st r = ('(a, evs) ← etharp_arp_input driver n P a; Some (a, st, r, evs)).
Proof.
  intros (HP & Hm & Hc) Hd Hs Hw Hhd.
  destruct (ether_type P d s (drop 14 (arp_frame d s hw ip hd dip op) ++ pad) ETHTYPE_ARP HP Hm Hd Hs) as [Hty Hl]; [|done|].
  { rewrite Hc. unfold arp_frame. destruct Hd as [Hd _], Hs as [Hs _]. rewrite (app_assoc d s), (app_assoc (d ++ s)).
    rewrite <- (app_assoc _ _ pad). rewrite drop_app_length' by (rewrite !length_app, Hd, Hs; done). by rewrite <- !app_assoc. }
  unfold ethernet_input. destruct (Nat.leb_spec (len P) SIZEOF_ETH_HDR) as [Hle|_].
  { rewrite <- Hl, length_app, length_drop, arp_frame_length in Hle by done. unfold SIZEOF_ETH_HDR, SIZEOF_ETHARP_PACKET in Hle. lia. }
  rewrite Hty. cbn [mbind option_bind]. change (htons ETHTYPE_ARP =? htons ETHTYPE_IP) with false.
  rewrite Z.eqb_refl, (proj2 (Z.eqb_neq _ _) Hflag). done.
Qed.
Lemma input_ip P d s data pad a st r : carries (ip_frame s d data) pad P → mac d → mac s → (0 < length data)%nat →
  ∃ q, packet_ok q ∧ more q = [] ∧ contents q = data ++ pad ∧ base q = base P ∧
    input P n a st r = ('(r, st, evs) ← ip_input_reass ram link raw room k q (ip_if n) st r; Some (a, st, r, map Ip evs)).
Proof.
  intros (HP & Hm & Hc) Hd Hs Hdata. unfold ip_frame in Hc.
  destruct (ether_type P d s (data ++ pad) ETHTYPE_IP HP Hm Hd Hs) as [Hty Hl]; [by rewrite Hc, <- !app_assoc|done|].
  rewrite length_app in Hl. assert (Hh : (SIZEOF_ETH_HDR <= len P)%nat) by lia.
  destruct (hide_header_spec _ P _ HP (hide_header_Some _ P Hh)) as (Hq & Hcq & _). eexists. split; [exact Hq|]. split; [done|].
  split.
  { rewrite Hcq, Hc. destruct Hd as [Hd _], Hs as [Hs _]. rewrite (app_assoc d s), (app_assoc (d ++ s)), <- app_assoc.
    by rewrite drop_app_length' by (rewrite !length_app, Hd, Hs; done). }
  split; [done|]. unfold ethernet_input. destruct (Nat.leb_spec (len P) SIZEOF_ETH_HDR); [lia|]. rewrite Hty. cbn [mbind option_bind].
  rewrite Z.eqb_refl, (proj2 (Z.eqb_neq _ _) Hflag). cbn [negb]. by rewrite hide_header_Some.
Qed.
End frames.

(** ** The exchange *)
Section exchange.
Context `{StdChksum}.
Variables (driver : Z → list Z → Z) (ram : Z) (link : nif → list Z → Z → Z) (raw : Z → packet → bool)
  (room : option (list Z)) (k : nat).
Variable n : ether_if.
Hypothesis Hhw : mac (hwaddr n).
Hypothesis Hflag : Z.land (in_flags (n_view (ip_if n))) NETIF_FLAG_ETHARP ≠ 0.
Hypothesis Hip : if_ip n ≠ 0.
Hypothesis Hip32 : is_u32 (if_ip n).
Abbreviation input := (ethernet_input driver ram link raw room k).
(** The station that is asked for remembers who asks, and answers. *)
Lemma request_answered m P pad a st r : arp_ok a → mac (hwaddr m) → is_u32 (if_ip m) → unicast n (if_ip m) →
  carries (request_frame m (if_ip n)) pad P →
  ∃ a' evs, input P n a st r
      = Some (a', st, r, evs ++ [Sent (if_id n) (reply_frame n (hwaddr m) (if_ip m) ++ pad); Freed (base P)]) ∧
    arp_ok a' ∧ known (arp_table a') (if_ip m) = Some (hwaddr m).
Proof.
  intros Ha Hm Hm32 Hu HP. destruct mac_constants as [Mb Mz].
  rewrite (input_arp driver ram link raw room k n Hflag P _ _ _ _ _ _ _ pad a st r HP) by done.
  pose proof HP as (HPo & HPm & HPc).
  rewrite (arp_input_frame driver n P a _ _ _ _ _ _ _ pad Hhw HPo HPm HPc) by (done || (unfold ARP_REQUEST; lia)).
  assert (Ef : for_us n (if_ip n) = true) by (unfold for_us; by rewrite (proj2 (Z.eqb_neq _ _) Hip), Z.eqb_refl). rewrite Ef.
  destruct (update_known driver n Hhw (if_ip m) (hwaddr m) a Ha Hu Hm) as (a' & evs & -> & Ha' & Hk). cbn [mbind option_bind].
  by exists a', evs.
Qed.
(** The station that asked learns the answer, and the packet leaves. *)
Lemma reply_resolves m P pad a st r i e p : arp_ok a → mac (hwaddr m) → is_u32 (if_ip m) → unicast n (if_ip m) →
  arp_table a !! i = Some e → holds (if_ip m) e = true → e_q e = Some p →
  carries (reply_frame m (hwaddr n) (if_ip n)) pad P →
  ∃ a', input P n a st r
      = Some (a', st, r, [Sent (if_id n) (ip_frame (hwaddr n) (hwaddr m) (drop SIZEOF_ETH_HDR (contents p))); Freed (base p);
                          ArpReply (if_ip m); Freed (base P)]) ∧
    arp_ok a' ∧ known (arp_table a') (if_ip m) = Some (hwaddr m).
Proof.
  intros Ha Hm Hm32 Hu Hi Hh Hq HP. pose proof Ha as [Ht Hc].
  rewrite (input_arp driver ram link raw room k n Hflag P _ _ _ _ _ _ _ pad a st r HP) by done.
  pose proof HP as (HPo & HPm & HPc).
  rewrite (arp_input_frame driver n P a _ _ _ _ _ _ _ pad Hhw HPo HPm HPc) by (done || (unfold ARP_REPLY; lia)).
  assert (Ef : for_us n (if_ip n) = true) by (unfold for_us; by rewrite (proj2 (Z.eqb_neq _ _) Hip), Z.eqb_refl). rewrite Ef.
  rewrite (update_resolves driver n Hhw (if_ip m) (hwaddr m) a i e Ha Hu Hm Hi Hh). cbn [mbind option_bind].
  destruct (learned_found n (if_ip m) (hwaddr m) _ i e Ht Hm Hi Hh) as [Ht' _]. eexists. split; [unfold send_waiting; by rewrite Hq|].
  split; [by split|]. apply (known_at _ i (learned n (hwaddr m) e)); [apply Ht'|by apply list_lookup_insert_eq; eapply lookup_lt_Some|].
  by apply knows_learned, holds_ip.
Qed.
(** A UDP datagram in a frame reaches its callback. *)
Lemma frame_delivered d src sport dport data f P pad a st r t sk rcv : mac d →
  udp_frame src (if_ip n) sport dport data f → Z.of_nat (28 + length data) < 65536 → bytes_ok data →
  0 <= sport < 65536 → is_u32 src → 0 <= dport < 65536 → dport ≠ DHCP_CLIENT_PORT →
  is_Some (accepted_on (if_ip n) (ip_if n) st) → ip4_addr_isbroadcast src (n_view (ip_if n)) = false → ismulticast src = false →
  raw_pcbs st = [] → udp_rep (pcbs st) t → (rcv, sk) ∈ bound t → s_recv sk ≠ 0 →
  rcv = receiver (ip4_addr_isbroadcast (if_ip n) (n_view (ip_if n))) (if_ip n) dport src sport (in_mask (n_view (ip_if n))) (bound t) →
  carries (ip_frame d (hwaddr n) f) pad P →
  ∃ u' t' q, input P n a st r = Some (a, with_pcbs u' st, r, [Ip (EvUdp rcv (s_recv sk) (s_arg sk) q src sport)]) ∧
    contents q = data ∧ udp_rep u' t' ∧ bound t' ≡ₚ bound t.
Proof.
  intros Hd Hf Hsz Hdata Hsp Hsrc Hdp Hdh Hacc Hb Hmc Hraw Hrep Hin Hrecv Hr HP.
  assert (Hfl : (0 < length f)%nat).
  { destruct (udp_frame_shape _ _ _ _ _ _ Hf) as (? & ? & ? & ? & _ & _ & _ & _ & ->). rewrite length_app. cbn. lia. }
  destruct (input_ip driver ram link raw room k n Hflag P (hwaddr n) d f pad a st r HP Hhw Hd Hfl) as (q & Hq & Hqm & Hqc & _ & ->).
  destruct (udp_frame_delivered ram link raw room k src (if_ip n) sport dport data f (ip_if n) st t sk rcv q pad)
    as (u' & t' & q' & E & Hc & _ & Hrep' & Hperm); try done.
  exists u', t', q'. split; [|done]. unfold ip_input_reass. rewrite E. reflexivity.
Qed.
End exchange.

(** C4: Two stations that do not know each other's hardware address exchange a UDP datagram.
    The sender's socket hands a datagram to its interface; [etharp_output], not knowing the
    receiver, broadcasts a request and keeps a copy.  The receiver, given the request (with
    any padding, in any single buffer), remembers the sender and answers with its address.
    The sender, given the answer, remembers the receiver and sends the kept datagram to it,
    in a frame with both hardware addresses; and the receiver, given that frame, hands exactly
    the sent bytes, with the sender's address and port, to the callback of the socket its
    table designates.  Each station's driver may answer what it likes, and each may know and
    wait for other addresses. *)
Theorem udp_over_ethernet `{StdChksum} ram link raw pcb p dport room k s c nA driverA r_arp r_copy
    nB driverB ram' link' raw' room' k' sB rB t sk rcv aA aB :
  let src := if_ip nA in let dst := if_ip nB in
  packet_ok p → grows p = true → (28 <= off p)%nat → Z.of_nat (42 + tot_len p) < 65536 →
  n_mtu (ip_if nA) = 0 ∨ Z.of_nat (28 + tot_len p) <= n_mtu (ip_if nA) →
  Udp.mem (pcbs s) !! pcb = Some c → 0 < local_port c < 65536 → local_ip c = 0 ∨ local_ip c = src →
  is_byte (ttl c) → is_byte (tos c) → src ≠ 0 → is_u32 src → dst ≠ 0 → is_u32 dst →
  0 <= dport < 65536 → dport ≠ DHCP_CLIENT_PORT →
  mac (hwaddr nA) → mac (hwaddr nB) →
  Z.land (in_flags (n_view (ip_if nA))) NETIF_FLAG_ETHARP ≠ 0 → Z.land (in_flags (n_view (ip_if nB))) NETIF_FLAG_ETHARP ≠ 0 →
  unicast nA dst → unicast nB src → netcmp dst src (in_mask (n_view (ip_if nA))) = true →
  is_Some (accepted_on dst (ip_if nB) sB) → raw_pcbs sB = [] → udp_rep (pcbs sB) t → (rcv, sk) ∈ bound t → s_recv sk ≠ 0 →
  rcv = receiver (ip4_addr_isbroadcast dst (n_view (ip_if nB))) dst dport src (local_port c) (in_mask (n_view (ip_if nB))) (bound t) →
  arp_ok aA → arp_ok aB → known (arp_table aA) dst = None →
  ∃ s' f, udp_sendto_if ram link pcb p dst dport (ip_if nA) room k s
      = Some (s', [EvOutput (if_id nA) f dst], link (ip_if nA) f dst) ∧
  ∀ Q, packet_ok Q → contents Q = f → grows Q = true → (SIZEOF_ETH_HDR <= off Q)%nat →
  ∃ aA1 evs1, etharp_output driverA (Some r_arp) (Some r_copy) nA Q dst aA = Some (aA1, evs1, ERR_OK) ∧
    frames evs1 = [request_frame nA dst] ∧
  ∀ P1 pad1, carries (request_frame nA dst) pad1 P1 →
  ∃ aB1 evs2, ethernet_input driverB ram' link' raw' room' k' P1 nB aB sB rB
      = Some (aB1, sB, rB, evs2 ++ [Sent (if_id nB) (reply_frame nB (hwaddr nA) src ++ pad1); Freed (base P1)]) ∧
    known (arp_table aB1) src = Some (hwaddr nA) ∧
  ∀ P2 pad2 st r, carries (reply_frame nB (hwaddr nA) src ++ pad1) pad2 P2 →
  ∃ aA2 b, ethernet_input driverA ram link raw room k P2 nA aA1 st r
      = Some (aA2, st, r, [Sent (if_id nA) (ip_frame (hwaddr nA) (hwaddr nB) f); Freed b; ArpReply dst; Freed (base P2)]) ∧
    known (arp_table aA2) dst = Some (hwaddr nB) ∧
  ∀ P3 pad3, carries (ip_frame (hwaddr nA) (hwaddr nB) f) pad3 P3 →
  ∃ u' t' q, ethernet_input driverB ram' link' raw' room' k' P3 nB aB1 sB rB
      = Some (aB1, with_pcbs u' sB, rB, [Ip (EvUdp rcv (s_recv sk) (s_arg sk) q src (local_port c))]) ∧
    contents q = contents p ∧ udp_rep u' t' ∧ bound t' ≡ₚ bound t.
Proof.
  intros src dst Hp Hg Ho Hsz Hm Hc Hport Hip Httl Htos Hs0 Hs32 Hd0 Hd32 Hdp Hdh HmA HmB HfA HfB HuA HuB Hnet
    Hacc Hraw Hrep Hin Hrecv Hr HaA HaB Hunk.
  destruct (udp_sendto_if_frame ram link pcb p dst dport (ip_if nA) room k s c Hp Hg Ho ltac:(lia) Hm Hc ltac:(lia) Hip Httl Htos
              Hs0 Hs32 Hd32) as (s' & f & E & Hf & _).
  exists s', f. split; [exact E|]. intros Q HQ HQc HQg HQo.
  assert (Hfl : length f = (28 + tot_len p)%nat).
  { destruct (udp_frame_shape _ _ _ _ _ _ Hf) as (? & ? & ? & ? & _ & _ & _ & _ & ->).
    rewrite length_app, udp_segment_length, contents_length by done. cbn. lia. }
  assert (Hnone : none (knows dst) (arp_table aA)).
  { apply Forall_lookup. intros i e Hi. cbn. destruct (knows dst e) eqn:Ek; [|done].
    by rewrite (known_at _ i e dst (to_distinct _ (proj1 HaA)) Hi Ek) in Hunk. }
  destruct (output_unknown driverA nA HmA Q dst r_arp r_copy aA HaA HQ HQg HQo) as (aA1 & evs1 & i & e & pk & E1 & HaA1 & Hfr & Hi & Hh & Hq & Hck);
    try done. { rewrite <- contents_length, HQc, Hfl by done. unfold SIZEOF_ETH_HDR. lia. }
  exists aA1, evs1. split; [exact E1|]. split; [exact Hfr|]. intros P1 pad1 HP1.
  destruct (request_answered driverB ram' link' raw' room' k' nB HmB HfB Hd0 Hd32 nA P1 pad1 aB sB rB HaB HmA Hs32 HuB HP1)
    as (aB1 & evs2 & E2 & HaB1 & Hk1).
  exists aB1, evs2. split; [exact E2|]. split; [exact Hk1|]. intros P2 pad2 st r (HP2 & Hm2 & Hc2).
  destruct (reply_resolves driverA ram link raw room k nA HmA HfA Hs0 Hs32 nB P2 (pad1 ++ pad2) aA1 st r i e pk HaA1 HmB Hd32 HuA Hi Hh Hq)
    as (aA2 & E3 & _ & Hk2); [by split_and!; try done; rewrite Hc2, app_assoc|].
  rewrite Hck, HQc in E3. exists aA2, (base pk). split; [exact E3|]. split; [exact Hk2|]. intros P3 pad3 HP3.
  eapply (frame_delivered driverB ram' link' raw' room' k' nB HmB HfB Hd32 (hwaddr nA) src (local_port c) dport (contents p) f P3 pad3);
    try done; [rewrite contents_length by done; lia|by apply contents_ok|lia|apply HuB|apply HuB].
Qed.

(** ** Two stations *)
Definition wired (a : Z) (f : list Z) : packet := Packet f a 0 (length f) true [].
Lemma wired_carries a f : bytes_ok f → Z.of_nat (length f) < 65536 → carries f [] (wired a f).
Proof.
  intros Hf Hl. split; [|split; [done|]].
  - split; [done|]. split; [done|]. split; [constructor|]. change (Z.of_nat (length f + 0) < 65536). lia.
  - unfold contents, payload, slice, wired. cbn [off len buf more]. rewrite drop_0, firstn_all. done.
Qed.
Definition wire_frame : list Z :=
  match udp_sendto_if 8192 (λ _ _ _, 0) 1160 hello (if_ip eth_b) 67 (ip_if eth_a) None 0 client with
  | Some (_, [EvOutput _ f _], _) => f
  | _ => []
  end.
Definition outgoing : packet := Packet (repeat 0 20 ++ wire_frame) 1024 20 (length wire_frame) true [].
Lemma udp_over_ethernet_witness :
  ∃ aA1 evs1 aB1 evs2 aA2 evs3 u' t' q,
    etharp_output (λ _ _, 0) (Some 4096) (Some 8192) eth_a outgoing 0x0100a8c0 arp_boot = Some (aA1, evs1, ERR_OK) ∧
    ethernet_input (λ _ _, 0) 8192 (λ _ _ _, 0) (λ _ _, false) None 0 (wired 16384 (request_frame eth_a 0x0100a8c0)) eth_b
      arp_boot server (reass_boot five) = Some (aB1, server, reass_boot five, evs2) ∧
    ethernet_input (λ _ _, 0) 8192 (λ _ _ _, 0) (λ _ _, false) None 0 (wired 16384 (reply_frame eth_b mac_a 0x0200a8c0)) eth_a
      aA1 client (reass_boot five) = Some (aA2, client, reass_boot five, evs3) ∧
    ethernet_input (λ _ _, 0) 8192 (λ _ _ _, 0) (λ _ _, false) None 0 (wired 16384 (ip_frame mac_a mac_b wire_frame)) eth_b
      aB1 server (reass_boot five)
      = Some (aB1, with_pcbs u' server, reass_boot five, [Ip (EvUdp 1160 7777 5 q 0x0200a8c0 67)]) ∧
    contents q = [104; 101; 108; 108; 111] ∧ udp_rep u' t'.
Proof.
  destruct (udp_over_ethernet 8192 (λ _ _ _, 0) (λ _ _, false) 1160 hello 67 None 0 client
    (default zero_pcb (Udp.mem bound_pool !! 1160)) eth_a (λ _ _, 0) 4096 8192
    eth_b (λ _ _, 0) 8192 (λ _ _ _, 0) (λ _ _, false) None 0 server (reass_boot five) server_table
    (Sock 0 67 0 0 0 7777 5) 1160 arp_boot arp_boot) as (s' & f & E & D).
  - split_and!; [by apply (bool_decide_eq_true_1 _); vm_compute|vm_compute; lia|constructor|by vm_compute].
  - done.
  - cbn. lia.
  - by vm_compute.
  - right. vm_compute. discriminate.
  - by vm_compute.
  - vm_compute. by split.
  - left. by vm_compute.
  - vm_compute. split; [discriminate|done].
  - vm_compute. split; [discriminate|done].
  - discriminate.
  - vm_compute. split; [discriminate|done].
  - discriminate.
  - vm_compute. split; [discriminate|done].
  - lia.
  - discriminate.
  - apply mac_demo.
  - apply mac_demo.
  - discriminate.
  - discriminate.
  - apply unicast_demo.
  - apply unicast_demo.
  - by vm_compute.
  - exists (ip_if eth_b). by vm_compute.
  - done.
  - exact server_pool_rep.
  - assert (Es : bound server_table = [(1160, Sock 0 67 0 0 0 7777 5)]) by (by vm_compute).
    rewrite Es. apply list_elem_of_here.
  - discriminate.
  - by vm_compute.
  - apply arp_boot_ok.
  - apply arp_boot_ok.
  - by vm_compute.
  - assert (Ef : f = wire_frame) by (unfold wire_frame; by rewrite E). rewrite Ef in D. clear E Ef.
    destruct (D outgoing) as (aA1 & evs1 & E1 & _ & D1).
    { split_and!; [by apply (bool_decide_eq_true_1 _); vm_compute|vm_compute; lia|constructor|by vm_compute]. }
    { by vm_compute. }
    { done. }
    { vm_compute. lia. }
    destruct (D1 (wired 16384 (request_frame eth_a 0x0100a8c0)) []) as (aB1 & evs2 & E2 & _ & D2).
    { apply wired_carries; [apply (bool_decide_eq_true_1 _); by vm_compute|by vm_compute]. }
    destruct (D2 (wired 16384 (reply_frame eth_b mac_a 0x0200a8c0)) [] client (reass_boot five)) as (aA2 & b & E3 & _ & D3).
    { rewrite app_nil_r. apply wired_carries; [apply (bool_decide_eq_true_1 _); by vm_compute|by vm_compute]. }
    destruct (D3 (wired 16384 (ip_frame mac_a mac_b wire_frame)) []) as (u' & t' & q & E4 & Hc & Hr & _).
    { apply wired_carries; [apply (bool_decide_eq_true_1 _); by vm_compute|by vm_compute]. }
    eexists aA1, evs1, aB1, _, aA2, _, u', t', q.
    split; [exact E1|]. split; [exact E2|]. split; [exact E3|]. split; [exact E4|]. split; [exact Hc|exact Hr].
Defined.
