(* ===== verification/Net.v ===== *)
(** The network side of the system task: link up and link down ([LwIP/port/lwIP.c]) with
    the interface calls they make ([LwIP/src/core/netif.c]) and the dispatch of the system
    messages ([Sys/sys_mgmt.c]), composed with the configuration ([Param]), the DHCP and
    the DNS server ([Dhcp], [Dns]) and the control blocks of the stack ([Udp]).

    The lwIP DHCP client runs in the stack's own task: what the system task sees of it,
    each time it polls, is an argument ([poll]); its control block is not part of the
    model.  The callbacks of the two servers are addresses, the arguments of the section. *)
From S2P Require Import Prelude CStr Pbuf Dhcp Dns Param Udp.

Definition SUBNET_MASK_ADR : Z := 0xFFFFFF00.
Definition DHCP_SERVER_UDP_PORT : Z := 67.
Definition DNS_SERVER_PORT : Z := 53.

(* @ Include/param.h:154-162 SYS_EVT_ID *)
Inductive SYS_EVT_ID :=
  | SYS_EVT_LINK_DOWN | SYS_EVT_LINK_UP | SYS_EVT_JOIN_FAIL | SYS_EVT_DHCP_FAIL
  | SYS_EVT_SCAN_DONE | SYS_EVT_DIRECT_CFG_DONE.

(** The fields of the interface the system task uses. *)
Record NET_IF := NetIf { if_ip : Z; if_mask : Z; if_gw : Z; if_flags : Z }.
(** [tcp_active] and [tcp_listen] are the local addresses of the connections and of the
    listening blocks, [dhcp_on] whether the DHCP client runs, [events] the calls of
    [SysEvtCB]. *)
Record net := Net {
  n_sys : sys; n_if : NET_IF; n_dns0 : Z; dhcp_on : bool;
  n_dhcps : dhcp_state; n_dnss : DNS_SERVER; n_udp : udp;
  tcp_active : list Z; tcp_listen : list Z; events : list SYS_EVT_ID }.
Definition with_if (i : NET_IF) (n : net) : net :=
  Net (n_sys n) i (n_dns0 n) (dhcp_on n) (n_dhcps n) (n_dnss n) (n_udp n) (tcp_active n) (tcp_listen n) (events n).
Definition with_tcp (a l : list Z) (n : net) : net :=
  Net (n_sys n) (n_if n) (n_dns0 n) (dhcp_on n) (n_dhcps n) (n_dnss n) (n_udp n) a l (events n).
Definition with_dns0 (d : Z) (n : net) : net :=
  Net (n_sys n) (n_if n) d (dhcp_on n) (n_dhcps n) (n_dnss n) (n_udp n) (tcp_active n) (tcp_listen n) (events n).
Definition with_client (b : bool) (n : net) : net :=
  Net (n_sys n) (n_if n) (n_dns0 n) b (n_dhcps n) (n_dnss n) (n_udp n) (tcp_active n) (tcp_listen n) (events n).
Definition with_sys (s : sys) (n : net) : net :=
  Net s (n_if n) (n_dns0 n) (dhcp_on n) (n_dhcps n) (n_dnss n) (n_udp n) (tcp_active n) (tcp_listen n) (events n).
Definition with_dhcps (d : dhcp_state) (u : udp) (n : net) : net :=
  Net (n_sys n) (n_if n) (n_dns0 n) (dhcp_on n) d (n_dnss n) u (tcp_active n) (tcp_listen n) (events n).
Definition with_dnss (d : DNS_SERVER) (u : udp) (n : net) : net :=
  Net (n_sys n) (n_if n) (n_dns0 n) (dhcp_on n) (n_dhcps n) d u (tcp_active n) (tcp_listen n) (events n).
(** Call [SysEvtCB] if there is one. *)
Definition notify (e : SYS_EVT_ID) (n : net) : net :=
  if SysEvtCB (n_sys n) =? 0 then n else
  Net (n_sys n) (n_if n) (n_dns0 n) (dhcp_on n) (n_dhcps n) (n_dnss n) (n_udp n) (tcp_active n) (tcp_listen n) (events n ++ [e]).
Definition cfg (n : net) : CFG_PARAM := SysParam (n_sys n).

(** ** The interface *)

(** [IP4_ADDR] of the four bytes of a configuration field. *)
(* @ LwIP/src/include/ipv4/lwip/ip_addr.h:147-151 IP4_ADDR *)
Definition IP4_ADDR (b : list Z) : Z :=
  Z.lor (Z.shiftl (Z.land (byte_at b 3) 0xff) 24) (Z.lor (Z.shiftl (Z.land (byte_at b 2) 0xff) 16)
    (Z.lor (Z.shiftl (Z.land (byte_at b 1) 0xff) 8) (Z.land (byte_at b 0) 0xff))).

(** Connections of the old address are aborted (which takes them off the active list),
    listening blocks of the old address move to the new one. *)
(* @ LwIP/src/core/netif.c:322-377 netif_set_ipaddr *)
Definition netif_set_ipaddr (ipaddr : Z) (n : net) : net :=
  let i := n_if n in
  let n := if ipaddr =? if_ip i then n else
    with_tcp (filter (λ l, l ≠ if_ip i) (tcp_active n))
      (map (λ l, if negb (l =? 0) && (l =? if_ip i) then ipaddr else l) (tcp_listen n)) n in
  with_if (NetIf ipaddr (if_mask i) (if_gw i) (if_flags i)) n.
(* @ LwIP/src/core/netif.c:408-421 netif_set_netmask *)
Definition netif_set_netmask (netmask : Z) (n : net) : net :=
  let i := n_if n in with_if (NetIf (if_ip i) netmask (if_gw i) (if_flags i)) n.
(* @ LwIP/src/core/netif.c:387-397 netif_set_gw *)
Definition netif_set_gw (gw : Z) (n : net) : net :=
  let i := n_if n in with_if (NetIf (if_ip i) (if_mask i) gw (if_flags i)) n.
(* @ LwIP/src/core/netif.c:220-227 netif_set_addr *)
Definition netif_set_addr (ipaddr netmask gw : Z) (n : net) : net :=
  netif_set_gw gw (netif_set_netmask netmask (netif_set_ipaddr ipaddr n)).
Definition netif_is_up (n : net) : bool := negb (Z.land (if_flags (n_if n)) NETIF_FLAG_UP =? 0).
(* @ LwIP/src/core/netif.c:453-480 netif_set_up *)
Definition netif_set_up (n : net) : net :=
  let i := n_if n in
  if netif_is_up n then n
  else with_if (NetIf (if_ip i) (if_mask i) (if_gw i) (Z.lor (if_flags i) NETIF_FLAG_UP)) n.
(* @ LwIP/src/core/netif.c:490-505 netif_set_down *)
Definition netif_set_down (n : net) : net :=
  let i := n_if n in
  if netif_is_up n
  then with_if (NetIf (if_ip i) (if_mask i) (if_gw i) (Z.land (if_flags i) (Z.lnot NETIF_FLAG_UP))) n
  else n.

(** ** Link up *)

(* @ LwIP/port/lwIP.c:84-120 LoadStaticParam *)
Definition LoadStaticParam (n : net) : net :=
  let ip := IPCfg (cfg n) in
  let n := netif_set_ipaddr (IP4_ADDR (Ip ip)) n in
  let n := netif_set_netmask (IP4_ADDR (Netmask ip)) n in
  let n := netif_set_gw (IP4_ADDR (GateWay ip)) n in
  let n := with_dns0 (IP4_ADDR (Param.Dns ip)) n in
  netif_set_up n.

(** What a poll finds: the interface as the client has left it, [LinkReady], and the
    client's [tries], an 8-bit counter. *)
Record poll := Poll { p_if : NET_IF; p_ready : bool; p_tries : Z }.
(** The loop of [ifUpWhenDhcp]; [None]: still waiting after all these polls. *)
(* @ LwIP/port/lwIP.c:131-149 ifUpWhenDhcp *)
Fixpoint dhcp_wait (polls : list poll) (n : net) : option (net * Z) :=
  if negb (if_ip (n_if n) =? 0) then Some (netif_set_up n, 0) else
  match polls with
  | [] => None
  | p :: polls =>
      let n := with_if (p_if p) n in
      let limit := DhcpTryTimes (IPCfg (cfg n)) in
      if negb (p_ready p) || (negb (limit =? 0) && (limit <? p_tries p)) then
        Some (with_sys (post SYS_DHCP_TIMEOUT_ID [] (n_sys n)) (with_client false n), -1)
      else dhcp_wait polls n
  end.
(* @ LwIP/port/lwIP.c:127-130 ifUpWhenDhcp *)
Definition ifUpWhenDhcp (polls : list poll) (n : net) : option (net * Z) :=
  dhcp_wait polls (with_client true n).

Section net.
Context (dhcps_cb dnss_cb : Z).

Definition dhcps_view (n : net) : netif := Netif (netif_is_up n) (if_ip (n_if n)) (if_mask (n_if n)).
(** [DHCPS_Start] with the calls it makes on the stack; the results of [udp_bind] are not
    looked at. *)
(* @ App/DhcpServer/dhcp_server.c:846-857 DHCPS_Start *)
Definition net_DHCPS_Start (n : net) : option (net * Z) :=
  if negb (netif_is_up n) then
    let '(d, r) := DHCPS_Start 0 (dhcps_view n) (n_dhcps n) in Some (with_dhcps d (n_udp n) n, r)
  else
    '(u, new) ← udp_new (n_udp n);
    let '(d, r) := DHCPS_Start new (dhcps_view n) (n_dhcps n) in
    if new =? 0 then Some (with_dhcps d u n, r) else
    '(u, _) ← udp_bind new 0 DHCP_SERVER_UDP_PORT u;
    u ← udp_recv new dhcps_cb 0 u;
    Some (with_dhcps d u n, r).
(* @ App/DhcpServer/dhcp_server.c:889-892 DHCPS_Stop *)
Definition net_DHCPS_Stop (n : net) : option net :=
  let sock := ds_socket (dh_srv (n_dhcps n)) in
  u ← (if negb (sock =? 0) then udp_remove sock (n_udp n) else Some (n_udp n));
  Some (with_dhcps (DHCPS_Stop (n_dhcps n)) u n).
(* @ App/DnsServer/dns_server.c:343-355 DNSS_Start *)
Definition net_DNSS_Start (n : net) : option (net * Z) :=
  let start new := DNSS_Start new (Some (netif_is_up n, if_ip (n_if n))) (DnsName (cfg n)) (n_dnss n) in
  len ← strlen (DnsName (cfg n));
  if (32 <? len) || negb (netif_is_up n) then
    '(d, r) ← start 0; Some (with_dnss d (n_udp n) n, r)
  else
    '(u, new) ← udp_new (n_udp n);
    '(d, r) ← start new;
    if new =? 0 then Some (with_dnss d u n, r) else
    '(u, _) ← udp_bind new 0 DNS_SERVER_PORT u;
    u ← udp_recv new dnss_cb 0 u;
    Some (with_dnss d u n, r).
(* @ App/DnsServer/dns_server.c:371-374 DNSS_Stop *)
Definition net_DNSS_Stop (n : net) : option net :=
  let '(d, remove) := DNSS_Stop (n_dnss n) in
  u ← (if remove then udp_remove (dns_socket (n_dnss n)) (n_udp n) else Some (n_udp n));
  Some (with_dnss d u n).

(** Station with the DHCP client enabled. *)
Definition dhcp_client_mode (n : net) : bool :=
  (Protocol (WiFiCfg (cfg n)) =? PARAM_NET_MODE_STA_BSS) && negb (bDhcp (IPCfg (cfg n)) =? 0).
Definition softap (n : net) : bool := Protocol (WiFiCfg (cfg n)) =? PARAM_NET_MODE_SOFTAP.

(* @ LwIP/port/lwIP.c:153-183 L2LinkUp *)
Definition L2LinkUp (polls : list poll) (n : net) : option (net * Z) :=
  '(n, Ret) ← (if dhcp_client_mode n then ifUpWhenDhcp polls n else Some (LoadStaticParam n, 0));
  '(n, Ret) ←
    (if softap n then
       '(n, Ret) ← (if negb (bDhcpServer (cfg n) =? 0) then net_DHCPS_Start n else Some (n, Ret));
       (if negb (bDnsServer (cfg n) =? 0) then net_DNSS_Start n else Some (n, Ret))
     else Some (n, Ret));
  Some (n, if Ret =? 0 then 0 else -1).

(* @ LwIP/port/lwIP.c:185-221 L2LinkDown *)
Definition L2LinkDown (n : net) : option net :=
  let n := netif_set_down n in
  let n := if dhcp_client_mode n then with_client false n else n in
  let n := netif_set_addr 0 (htonl SUBNET_MASK_ADR) 0 n in
  if softap n then
    n ← (if negb (bDhcpServer (cfg n) =? 0) then net_DHCPS_Stop n else Some n);
    (if negb (bDnsServer (cfg n) =? 0) then net_DNSS_Stop n else Some n)
  else Some n.

(** ** The system task *)

(** A message with what a link-up would poll. *)
(* @ Sys/sys_mgmt.c:76-133 DefaultProc *)
Definition DefaultProc (msgId : SDK_TSK_MSG_ID) (polls : list poll) (n : net) : option net :=
  match msgId with
  | SYS_LINK_UP_ID =>
      '(n, r) ← L2LinkUp polls n; Some (if negb (r =? 0) then n else notify SYS_EVT_LINK_UP n)
  | SYS_LINK_DOWN_ID => n ← L2LinkDown n; Some (notify SYS_EVT_LINK_DOWN n)
  | SYS_STA_JOIN_FAIL_ID => Some (notify SYS_EVT_JOIN_FAIL n)
  | SYS_DHCP_TIMEOUT_ID => Some (notify SYS_EVT_DHCP_FAIL n)
  | SYS_SCAN_DONE_ID => Some (notify SYS_EVT_SCAN_DONE n)
  | SYS_DIRECT_CFG_DONE_ID => Some (notify SYS_EVT_DIRECT_CFG_DONE n)
  | _ => Some n
  end.
(** The loop of the task, over the messages it takes from its queue. *)
(* @ Sys/sys_mgmt.c:145-156 SysMgmtMain *)
Fixpoint SysMgmtMain (msgs : list (SDK_TSK_MSG_ID * list poll)) (n : net) : option net :=
  match msgs with
  | [] => Some n
  | (id, polls) :: msgs => n ← DefaultProc id polls n; SysMgmtMain msgs n
  end.

(** ** What link up does *)

Definition static_if (n : net) (fl : Z) : NET_IF :=
  let ip := IPCfg (cfg n) in
  NetIf (IP4_ADDR (Ip ip)) (IP4_ADDR (Netmask ip)) (IP4_ADDR (GateWay ip)) fl.
Lemma LoadStaticParam_spec n : ∃ fl act lis,
  LoadStaticParam n = Net (n_sys n) (static_if n fl) (IP4_ADDR (Param.Dns (IPCfg (cfg n)))) (dhcp_on n)
    (n_dhcps n) (n_dnss n) (n_udp n) act lis (events n) ∧ Z.land fl NETIF_FLAG_UP ≠ 0.
Proof.
  unfold LoadStaticParam, netif_set_up, netif_set_gw, netif_set_netmask, netif_set_ipaddr, netif_is_up.
  set (ip := IP4_ADDR (Ip (IPCfg (cfg n)))).
  destruct (Z.eqb_spec ip (if_ip (n_if n)));
    cbn [with_dns0 with_if with_tcp n_if if_flags if_ip if_mask if_gw cfg n_sys];
    (destruct (Z.eqb_spec (Z.land (if_flags (n_if n)) NETIF_FLAG_UP) 0) as [Hz|Hz]; cbn [negb];
      [exists (Z.lor (if_flags (n_if n)) NETIF_FLAG_UP)|exists (if_flags (n_if n))]);
    do 2 eexists; (split; [reflexivity|]); try done;
    rewrite Z.land_lor_distr_l, Hz, Z.lor_0_l; discriminate.
Qed.

(** The socket table before a link up leaves room for both servers. *)
Definition room_for_servers (t : socks) (a b : Z) (fr : list Z) : Prop :=
  free t = a :: b :: fr ∧ port_taken DHCP_SERVER_UDP_PORT (bound t) = false ∧
  port_taken DNS_SERVER_PORT (bound t) = false.
(** Access point with both servers enabled. *)
Definition serving_softap (n : net) : Prop :=
  softap n = true ∧ bDhcpServer (cfg n) ≠ 0 ∧ bDnsServer (cfg n) ≠ 0.
Definition server_table (t : socks) (a b : Z) (fr : list Z) : socks :=
  Socks fr ((b, serving DNS_SERVER_PORT dnss_cb) :: (a, serving DHCP_SERVER_UDP_PORT dhcps_cb) :: bound t) (fresh t).

Lemma cfg_name n : cfg_ok (cfg n) → ∃ nm, holds (DnsName (cfg n)) nm ∧ (length nm <= 32)%nat.
Proof.
  intros (_ & _ & _ & _ & Hl & _ & H0). revert H0 Hl. generalize (DnsName (cfg n)) as l. clear.
  assert (H : ∀ k l, l !! k = Some 0 → ∃ nm, holds l nm ∧ (length nm <= k)%nat).
  { induction k as [|k IH]; intros [|c l] H; try done.
    - injection H as ->. exists []. split; [|done]. split; [apply List.Forall_nil|by exists l].
    - destruct (decide (c = 0)) as [->|Hc].
      + exists []. split; [|cbn; lia]. split; [apply List.Forall_nil|by exists l].
      + destruct (IH l H) as (nm & [Hn [r ->]] & Hlen). exists (c :: nm). split; [|cbn; lia].
        split; [by constructor|by exists r]. }
  intros l H0 _. by apply H.
Qed.

Lemma softap_not_client n : softap n = true → dhcp_client_mode n = false.
Proof. unfold softap, dhcp_client_mode. intros H%Z.eqb_eq. by rewrite H. Qed.

Lemma net_DHCPS_Start_ok n t a fr : udp_rep (n_udp n) t → free t = a :: fr → netif_is_up n = true →
  port_taken DHCP_SERVER_UDP_PORT (bound t) = false →
  ∃ u, net_DHCPS_Start n = Some (with_dhcps (DHCPS_Start a (dhcps_view n) (n_dhcps n)).1 u n, 0) ∧ a ≠ 0 ∧
    udp_rep u (Socks fr ((a, serving DHCP_SERVER_UDP_PORT dhcps_cb) :: bound t) (fresh t)).
Proof.
  intros Hr Hf Hup Hp. destruct (open_server (n_udp n) t a fr DHCP_SERVER_UDP_PORT dhcps_cb Hr Hf)
    as (u1 & u2 & u3 & H1 & H2 & H3 & Ha & Hr3); [done|done|].
  unfold net_DHCPS_Start. rewrite Hup, H1. cbn [negb mbind option_bind].
  unfold DHCPS_Start, dhcps_view. rewrite Hup. cbn [nif_up nif_ip nif_mask negb].
  rewrite (proj2 (Z.eqb_neq a 0) Ha), H2. cbn [mbind option_bind]. rewrite H3. cbn [mbind option_bind fst].
  eexists. split; [reflexivity|]. done.
Qed.
Lemma net_DNSS_Start_ok n t a fr : udp_rep (n_udp n) t → free t = a :: fr → netif_is_up n = true →
  port_taken DNS_SERVER_PORT (bound t) = false → cfg_ok (cfg n) →
  ∃ u nm, net_DNSS_Start n = Some (with_dnss (DnsServer a nm (if_ip (n_if n))) u n, 0) ∧ a ≠ 0 ∧
    set_name (DnsName (cfg n)) = Some nm ∧
    udp_rep u (Socks fr ((a, serving DNS_SERVER_PORT dnss_cb) :: bound t) (fresh t)).
Proof.
  intros Hr Hf Hup Hp Hcfg. destruct (open_server (n_udp n) t a fr DNS_SERVER_PORT dnss_cb Hr Hf)
    as (u1 & u2 & u3 & H1 & H2 & H3 & Ha & Hr3); [done|done|].
  destruct (cfg_name n Hcfg) as (nm & Hnm & Hlen). pose proof (strlen_holds _ _ Hnm) as Hs.
  destruct Hnm as [Hnz [rest Hrest]]. pose proof (set_name_spec nm rest Hnz Hlen) as Hset. rewrite <- Hrest in Hset.
  unfold net_DNSS_Start. rewrite Hs. cbn [mbind option_bind]. rewrite (proj2 (Z.ltb_ge 32 _)) by lia.
  rewrite Hup, H1. cbn [negb orb mbind option_bind]. unfold DNSS_Start. rewrite Hs. cbn [mbind option_bind].
  rewrite (proj2 (Z.ltb_ge 32 _)) by lia. rewrite Hset. cbn [negb mbind option_bind].
  rewrite (proj2 (Z.eqb_neq a 0) Ha), H2. cbn [mbind option_bind]. rewrite H3. cbn [mbind option_bind].
  eexists _, _. split; [reflexivity|]. done.
Qed.

Lemma L2LinkUp_softap polls n t a b fr : udp_rep (n_udp n) t → room_for_servers t a b fr →
  serving_softap n → cfg_ok (cfg n) →
  ∃ n' fl nm, L2LinkUp polls n = Some (n', 0) ∧ Z.land fl NETIF_FLAG_UP ≠ 0 ∧
    n_sys n' = n_sys n ∧ n_if n' = static_if n fl ∧ events n' = events n ∧
    n_dhcps n' = (DHCPS_Start a (Netif true (if_ip (static_if n fl)) (if_mask (static_if n fl))) (n_dhcps n)).1 ∧
    n_dnss n' = DnsServer b nm (if_ip (static_if n fl)) ∧ set_name (DnsName (cfg n)) = Some nm ∧
    udp_rep (n_udp n') (server_table t a b fr) ∧ a ≠ 0 ∧ b ≠ 0.
Proof.
  intros Hr (Hfree & Hp67 & Hp53) (Hap & Hd & Hn) Hcfg.
  destruct (LoadStaticParam_spec n) as (fl & act & lis & Hl & Hfl).
  unfold L2LinkUp. rewrite softap_not_client by done. cbn [mbind option_bind]. rewrite Hl.
  set (n1 := Net (n_sys n) (static_if n fl) _ _ _ _ _ _ _ _).
  assert (Hup : netif_is_up n1 = true) by (unfold netif_is_up; cbn; by rewrite (proj2 (Z.eqb_neq _ _) Hfl)).
  change (softap n1) with (softap n). rewrite Hap. change (cfg n1) with (cfg n).
  rewrite (proj2 (Z.eqb_neq _ _) Hd). cbn [negb].
  destruct (net_DHCPS_Start_ok n1 t a (b :: fr) Hr Hfree Hup Hp67) as (u & -> & Ha & Hr1). cbn [mbind option_bind].
  set (n2 := with_dhcps _ u n1). change (cfg n2) with (cfg n). rewrite (proj2 (Z.eqb_neq _ _) Hn). cbn [negb].
  destruct (net_DNSS_Start_ok n2 _ b fr Hr1 eq_refl Hup) as (v & nm & -> & Hb & Hset & Hr2); [exact Hp53|exact Hcfg|].
  cbn [mbind option_bind Z.eqb]. exists (with_dnss (DnsServer b nm (if_ip (n_if n2))) v n2), fl, nm.
  split_ands; try done. unfold n2. cbn [with_dnss n_dhcps with_dhcps]. unfold dhcps_view. by rewrite Hup.
Qed.

(** A wildcard socket that is alone on its port receives everything for the port. *)
Lemma no_receiver broadcast dst dest srcip src mask l : port_taken dest l = false →
  List.find (sock_full broadcast dst dest srcip src mask) l = None ∧
  List.find (sock_open broadcast dst dest mask) l = None.
Proof.
  induction l as [|[x s] l IH]; [done|]. unfold port_taken. cbn [existsb snd]. intros H.
  apply orb_false_iff in H as [Hp Hl]. cbn [List.find]. unfold sock_full at 1, sock_open at 1, sock_match. cbn [snd].
  rewrite Hp. cbn [andb]. by apply IH.
Qed.
Lemma receiver_serving broadcast dst dest srcip src mask l1 a cb l2 :
  port_taken dest l1 = false → port_taken dest l2 = false →
  receiver broadcast dst dest srcip src mask (l1 ++ (a, serving dest cb) :: l2) = a.
Proof.
  intros H1 H2. unfold receiver.
  assert (Hm : sock_match broadcast dst dest mask (serving dest cb) = true).
  { unfold sock_match, serving. cbn [s_port s_ip]. rewrite !Z.eqb_refl.
    destruct broadcast; cbn [negb andb orb]; by rewrite ?orb_true_r. }
  induction l1 as [|[x s] l1 IH].
  - cbn [app List.find]. unfold sock_full at 1, sock_open at 1. cbn [snd]. rewrite Hm. cbn [serving s_flags andb].
    destruct (_ && _); [done|]. by destruct (no_receiver broadcast dst dest srcip src mask l2 H2) as [-> _].
  - unfold port_taken in H1. cbn [existsb snd] in H1. apply orb_false_iff in H1 as [Hp Hl].
    cbn [app List.find]. unfold sock_full at 1, sock_open at 1, sock_match. cbn [snd]. rewrite Hp. cbn [andb].
    by apply IH.
Qed.

(** C22: let the link come up in access-point mode with both servers enabled, a well-formed
    configuration, two free control blocks ([a] and [b]), and no socket bound to port 67 or 53.
    Then the interface is up with the configured address, mask and gateway, the DHCP server is
    the one [DHCPS_Start] makes for that address, the DNS server answers with it, and every
    datagram for port 67 reaches [DHCPS_RecvCb], every one for port 53 [DNSS_RecvCb], whoever
    sent it to whatever address; the other sockets are as they were.  When one of the ports is
    taken, the claim says nothing: [DHCPS_Start] does not look at the result of [udp_bind], and
    its server is left deaf. *)
Theorem softap_link_up_serves polls n t a b fr : udp_rep (n_udp n) t → room_for_servers t a b fr →
  serving_softap n → cfg_ok (cfg n) →
  let ip := IP4_ADDR (Ip (IPCfg (cfg n))) in let mask := IP4_ADDR (Netmask (IPCfg (cfg n))) in
  ∃ n' t', L2LinkUp polls n = Some (n', 0) ∧ netif_is_up n' = true ∧
    if_ip (n_if n') = ip ∧ if_mask (n_if n') = mask ∧ if_gw (n_if n') = IP4_ADDR (GateWay (IPCfg (cfg n))) ∧
    n_dhcps n' = (DHCPS_Start a (Netif true ip mask) (n_dhcps n)).1 ∧
    dns_hostip (n_dnss n') = ip ∧ set_name (DnsName (cfg n)) = Some (dns_name (n_dnss n')) ∧
    udp_rep (n_udp n') t' ∧ fresh t' = fresh t ∧
    bound t' = (b, serving DNS_SERVER_PORT dnss_cb) :: (a, serving DHCP_SERVER_UDP_PORT dhcps_cb) :: bound t ∧
    (∀ broadcast dst srcip src m, receiver broadcast dst DHCP_SERVER_UDP_PORT srcip src m (bound t') = a ∧
       receiver broadcast dst DNS_SERVER_PORT srcip src m (bound t') = b).
Proof.
  intros Hr Hroom Hap Hcfg ip mask.
  destruct (L2LinkUp_softap polls n t a b fr Hr Hroom Hap Hcfg)
    as (n' & fl & nm & Hup & Hfl & _ & Hif & _ & Hd & Hn & Hset & Hr' & _).
  destruct Hroom as (_ & H67 & H53). exists n', (server_table t a b fr).
  unfold netif_is_up. rewrite Hif, Hd, Hn. cbn [static_if if_flags if_ip if_mask if_gw dns_hostip dns_name].
  rewrite (proj2 (Z.eqb_neq _ _) Hfl). split_ands; try done. intros broadcast dst srcip src m.
  cbn [server_table bound]. split.
  - by apply (receiver_serving _ _ _ _ _ _ [(b, serving DNS_SERVER_PORT dnss_cb)]).
  - by apply (receiver_serving _ _ _ _ _ _ []).
Qed.

(** ** What link down does *)

Lemma netif_down_spec n : ∃ fl act lis,
  netif_set_addr 0 (htonl SUBNET_MASK_ADR) 0 (netif_set_down n) =
    Net (n_sys n) (NetIf 0 (htonl SUBNET_MASK_ADR) 0 fl) (n_dns0 n) (dhcp_on n) (n_dhcps n) (n_dnss n) (n_udp n) act lis (events n) ∧
  Z.land fl NETIF_FLAG_UP = 0.
Proof.
  unfold netif_set_down, netif_set_addr, netif_set_gw, netif_set_netmask, netif_set_ipaddr, netif_is_up.
  destruct (Z.eqb_spec (Z.land (if_flags (n_if n)) NETIF_FLAG_UP) 0) as [Hz|Hz]; cbn [negb with_if n_if if_ip if_flags];
    destruct (Z.eqb_spec 0 (if_ip (n_if n)));
    do 3 eexists; (split; [reflexivity|]); try done; rewrite <- Z.land_assoc; by rewrite Z.land_0_r.
Qed.

Lemma L2LinkDown_softap n t a b : softap n = true → bDhcpServer (cfg n) ≠ 0 → bDnsServer (cfg n) ≠ 0 →
  ds_socket (dh_srv (n_dhcps n)) = a → dns_socket (n_dnss n) = b → a ≠ 0 → b ≠ 0 → a ≠ b →
  udp_rep (n_udp n) t → a ∈ live t → b ∈ live t →
  ∃ n' fl, L2LinkDown n = Some n' ∧ Z.land fl NETIF_FLAG_UP = 0 ∧
    n_if n' = NetIf 0 (htonl SUBNET_MASK_ADR) 0 fl ∧ n_sys n' = n_sys n ∧ events n' = events n ∧
    n_dhcps n' = DHCPS_Stop (n_dhcps n) ∧ n_dnss n' = n_dnss n ∧
    udp_rep (n_udp n') (Socks (b :: a :: free t) (remove_sock b (remove_sock a (bound t)))
      (remove_sock b (remove_sock a (fresh t)))) ∧ memp_tab (n_udp n') = b.
Proof.
  intros Hap Hd Hn Ha Hb Ha0 Hb0 Hab Hr Hla Hlb.
  destruct (netif_down_spec n) as (fl & act & lis & Hdown & Hfl).
  unfold L2LinkDown.
  assert (Hmode : dhcp_client_mode (netif_set_down n) = false).
  { unfold netif_set_down. destruct (netif_is_up n); apply softap_not_client; exact Hap. }
  rewrite Hmode, Hdown. set (n1 := Net (n_sys n) _ _ _ _ _ _ _ _ _).
  change (softap n1) with (softap n). rewrite Hap. change (cfg n1) with (cfg n).
  rewrite (proj2 (Z.eqb_neq _ _) Hd). cbn [negb]. unfold net_DHCPS_Stop. change (n_dhcps n1) with (n_dhcps n).
  change (n_udp n1) with (n_udp n). rewrite Ha, (proj2 (Z.eqb_neq a 0) Ha0). cbn [negb].
  destruct (udp_remove_rep a (n_udp n) t Hr Hla) as (u1 & -> & Hr1 & _). cbn [mbind option_bind].
  set (n2 := with_dhcps _ u1 n1). change (cfg n2) with (cfg n). rewrite (proj2 (Z.eqb_neq _ _) Hn). cbn [negb].
  unfold net_DNSS_Stop, DNSS_Stop. change (n_dnss n2) with (n_dnss n). change (n_udp n2) with u1.
  rewrite Hb, (proj2 (Z.eqb_neq b 0) Hb0). cbn [negb].
  destruct (udp_remove_rep b u1 _ Hr1) as (u2 & -> & Hr2 & Htab).
  { unfold live. cbn [sock_spec fst bound fresh]. rewrite !remove_sock_fst, <- filter_app, list_elem_of_filter.
    split; [congruence|exact Hlb]. }
  cbn [mbind option_bind]. do 2 eexists. split; [reflexivity|]. split; [exact Hfl|]. done.
Qed.

(** One session, up and down, in access-point mode. *)
Lemma softap_session p1 p2 n t a b fr : udp_rep (n_udp n) t → room_for_servers t a b fr →
  serving_softap n → cfg_ok (cfg n) →
  ∃ n', SysMgmtMain [(SYS_LINK_UP_ID, p1); (SYS_LINK_DOWN_ID, p2)] n = Some n' ∧
    n_sys n' = n_sys n ∧ events n' = events n ++
      (if SysEvtCB (n_sys n) =? 0 then [] else [SYS_EVT_LINK_UP; SYS_EVT_LINK_DOWN]) ∧
    netif_is_up n' = false ∧ if_ip (n_if n') = 0 ∧ dh_srv (n_dhcps n') = zero_server ∧
    dh_ticks (n_dhcps n') = dh_ticks (n_dhcps n) ∧ dns_socket (n_dnss n') = b ∧
    udp_rep (n_udp n') (Socks (b :: a :: fr) (bound t) (fresh t)).
Proof.
  intros Hr Hroom Hap Hcfg.
  destruct (L2LinkUp_softap p1 n t a b fr Hr Hroom Hap Hcfg)
    as (n1 & fl & nm & Hup & Hfl & Hsys & Hif & Hev & Hd & Hn & _ & Hr1 & Ha & Hb).
  destruct Hap as (Hap & Hed & Hen). cbn [SysMgmtMain DefaultProc]. rewrite Hup. cbn [mbind option_bind Z.eqb negb].
  set (n1' := notify SYS_EVT_LINK_UP n1).
  assert (Hsame : n_sys n1' = n_sys n ∧ n_udp n1' = n_udp n1 ∧ n_dhcps n1' = n_dhcps n1 ∧ n_dnss n1' = n_dnss n1 ∧
    events n1' = events n ++ (if SysEvtCB (n_sys n) =? 0 then [] else [SYS_EVT_LINK_UP])).
  { unfold n1', notify. rewrite Hsys. destruct (SysEvtCB (n_sys n) =? 0);
      cbn [n_sys n_udp n_dhcps n_dnss events]; rewrite Hev; [by rewrite app_nil_r|done]. }
  destruct Hsame as (S1 & S2 & S3 & S4 & S5).
  assert (Hnd : a ≠ b ∧ a ∉ (bound t).*1 ∧ b ∉ (bound t).*1 ∧ a ∉ (fresh t).*1 ∧ b ∉ (fresh t).*1).
  { destruct Hroom as (Hfree & _). destruct Hr as (_ & _ & _ & Hn0). rewrite Hfree in Hn0. cbn [app] in Hn0.
    apply NoDup_cons in Hn0 as [Hn1 Hn0]. apply NoDup_cons in Hn0 as [Hn2 _]. unfold live in *.
    rewrite elem_of_cons, !elem_of_app in Hn1. rewrite !elem_of_app in Hn2. tauto. }
  destruct Hnd as (Hab & Hab1 & Hbb1 & Haf & Hbf).
  destruct (L2LinkDown_softap n1' (server_table t a b fr) a b) as (n2 & fl2 & Hdown & Hfl2 & Hif2 & Hsys2 & Hev2 & Hd2 & Hn2 & Hr2 & _).
  { unfold softap, cfg. by rewrite S1. } { unfold cfg. by rewrite S1. } { unfold cfg. by rewrite S1. }
  { rewrite S3, Hd. unfold DHCPS_Start. cbn [nif_up negb]. destruct (a =? 0); done. }
  { rewrite S4, Hn. done. } { done. } { done. } { done. } { by rewrite S2. }
  { unfold live, server_table. cbn [bound fresh fmap list_fmap fst app]. right. left. }
  { unfold live, server_table. cbn [bound fresh fmap list_fmap fst app]. left. }
  rewrite Hdown. cbn [mbind option_bind]. eexists. split; [reflexivity|].
  assert (Hbt : remove_sock b (remove_sock a (bound (server_table t a b fr))) = bound t).
  { cbn [server_table bound]. unfold remove_sock at 2.
    rewrite (filter_cons_True (λ x : Z * sock, x.1 ≠ a)) by (cbn; congruence).
    rewrite (filter_cons_False (λ x : Z * sock, x.1 ≠ a)) by (cbn; tauto).
    fold (remove_sock a (bound t)). unfold remove_sock at 1.
    rewrite (filter_cons_False (λ x : Z * sock, x.1 ≠ b)) by (cbn; tauto).
    fold (remove_sock b (remove_sock a (bound t))). by rewrite !remove_sock_id by (rewrite ?remove_sock_id by done; done). }
  assert (Hft : remove_sock b (remove_sock a (fresh (server_table t a b fr))) = fresh t)
    by (cbn [server_table fresh]; by rewrite !remove_sock_id by (rewrite ?remove_sock_id by done; done)).
  rewrite Hbt, Hft in Hr2. cbn [server_table free] in Hr2.
  unfold notify, netif_is_up. rewrite Hsys2, S1.
  destruct (SysEvtCB (n_sys n) =? 0); cbn [n_sys events n_if n_dhcps n_dnss n_udp];
    rewrite Hev2, S5, Hif2, Hd2, Hn2, S3, S4, Hd, Hn, ?Hsys2, ?S1; cbn [if_flags if_ip dns_socket];
    rewrite Hfl2; (split_ands; try done); try (by rewrite <- app_assoc);
    unfold DHCPS_Start, DHCPS_Stop; cbn [nif_up negb]; rewrite (proj2 (Z.eqb_neq a 0)) by done;
    cbn [fst dh_srv dh_ticks]; try done; lia.
Qed.

Lemma SysMgmtMain_app ms1 ms2 n : SysMgmtMain (ms1 ++ ms2) n = n' ← SysMgmtMain ms1 n; SysMgmtMain ms2 n'.
Proof.
  revert n. induction ms1 as [|[id p] ms1 IH]; intros n; [done|]. cbn [app SysMgmtMain].
  destruct (DefaultProc id p n); [|done]. cbn [mbind option_bind]. apply IH.
Qed.
Definition session (p : list poll) : list (SDK_TSK_MSG_ID * list poll) := [(SYS_LINK_UP_ID, p); (SYS_LINK_DOWN_ID, p)].
Definition session_events (n : net) : list SYS_EVT_ID :=
  if SysEvtCB (n_sys n) =? 0 then [] else [SYS_EVT_LINK_UP; SYS_EVT_LINK_DOWN].

(** C23: any number of access-point sessions can follow each other: each link up succeeds and
    each link down undoes it, the application hears of each once and in order, no control
    block is lost, no timer stays behind, and the sockets of others are as they were. *)
Theorem softap_sessions_repeat p k n t a b fr : udp_rep (n_udp n) t → room_for_servers t a b fr →
  serving_softap n → cfg_ok (cfg n) →
  ∃ n' t', SysMgmtMain (concat (replicate k (session p))) n = Some n' ∧ n_sys n' = n_sys n ∧
    events n' = events n ++ concat (replicate k (session_events n)) ∧
    dh_ticks (n_dhcps n') = dh_ticks (n_dhcps n) ∧
    (k ≠ 0%nat → netif_is_up n' = false ∧ if_ip (n_if n') = 0 ∧ dh_srv (n_dhcps n') = zero_server) ∧
    udp_rep (n_udp n') t' ∧ free t' ≡ₚ free t ∧ bound t' = bound t ∧ fresh t' = fresh t.
Proof.
  revert n t a b. induction k as [|k IH]; intros n t a b Hr Hroom Hap Hcfg.
  { exists n, t. cbn. rewrite app_nil_r. split_ands; done. }
  destruct (softap_session p p n t a b fr Hr Hroom Hap Hcfg) as (n1 & H1 & Hs1 & He1 & Hup1 & Hip1 & Hz1 & Ht1 & _ & Hr1).
  destruct Hroom as (Hfree & H67 & H53).
  assert (Hcb : session_events n1 = session_events n) by (unfold session_events; by rewrite Hs1).
  destruct (IH n1 _ b a Hr1) as (n' & t' & H2 & Hs2 & He2 & Ht2 & Hz2 & Hr2 & Hf2 & Hb2 & Hfr2).
  { done. } { unfold serving_softap, softap, cfg. by rewrite Hs1. } { unfold cfg. by rewrite Hs1. }
  exists n', t'. change (concat (replicate (S k) (session p))) with (session p ++ concat (replicate k (session p))).
  rewrite SysMgmtMain_app. fold (session p) in H1. rewrite H1. cbn [mbind option_bind]. split; [exact H2|].
  split; [congruence|]. split.
  { rewrite He2, He1, Hcb, <- app_assoc. done. }
  split; [congruence|]. split; [|split_ands; try done].
  - intros _. destruct k as [|k]; [|by apply Hz2]. cbn in H2. injection H2 as <-. done.
  - rewrite Hf2, Hfree. apply perm_swap.
Qed.

(** A link down that finds the servers stopped frees the DNS server's block again. *)
Lemma L2LinkDown_again n t b fr : softap n = true → bDhcpServer (cfg n) ≠ 0 → bDnsServer (cfg n) ≠ 0 →
  ds_socket (dh_srv (n_dhcps n)) = 0 → dns_socket (n_dnss n) = b → udp_rep (n_udp n) t → free t = b :: fr →
  ∃ n', L2LinkDown n = Some n' ∧ n_sys n' = n_sys n ∧ events n' = events n ∧ freed_twice (n_udp n') b (bound t).
Proof.
  intros Hap Hd Hn Ha Hb Hr Hf. destruct (netif_down_spec n) as (fl & act & lis & Hdown & _).
  destruct (remove_free_block (n_udp n) t b fr Hr Hf) as (u & Hu & Hft). pose proof Hft as (Hb0 & _).
  unfold L2LinkDown. assert (Hmode : dhcp_client_mode (netif_set_down n) = false).
  { unfold netif_set_down. destruct (netif_is_up n); apply softap_not_client; exact Hap. }
  rewrite Hmode, Hdown. set (n1 := Net (n_sys n) _ _ _ _ _ _ _ _ _).
  change (softap n1) with (softap n). rewrite Hap. change (cfg n1) with (cfg n).
  rewrite (proj2 (Z.eqb_neq _ _) Hd). cbn [negb]. unfold net_DHCPS_Stop. change (n_dhcps n1) with (n_dhcps n).
  rewrite Ha. cbn [Z.eqb negb mbind option_bind]. set (n2 := with_dhcps _ _ n1). change (cfg n2) with (cfg n).
  rewrite (proj2 (Z.eqb_neq _ _) Hn). cbn [negb]. unfold net_DNSS_Stop, DNSS_Stop.
  change (n_dnss n2) with (n_dnss n). change (n_udp n2) with (n_udp n).
  rewrite Hb, (proj2 (Z.eqb_neq b 0) Hb0). cbn [negb]. rewrite Hu. cbn [mbind option_bind]. by eexists.
Qed.
Lemma L2LinkUp_shared polls n b bs : freed_twice (n_udp n) b bs → port_taken DHCP_SERVER_UDP_PORT bs = false →
  serving_softap n → cfg_ok (cfg n) →
  ∃ n', L2LinkUp polls n = Some (n', 0) ∧ n_sys n' = n_sys n ∧ events n' = events n ∧
    ds_enable (dh_srv (n_dhcps n')) = 1 ∧ ds_socket (dh_srv (n_dhcps n')) = b ∧ dns_socket (n_dnss n') = b ∧
    chain next (mem (n_udp n')) (udp_pcbs (n_udp n')) [b] ∧ entry_ok (mem (n_udp n')) (b, serving DNS_SERVER_PORT dnss_cb).
Proof.
  intros Hft H67 (Hap & Hd & Hn) Hcfg. pose proof Hft as (Hb0 & _).
  destruct (open_freed_twice (n_udp n) b bs DHCP_SERVER_UDP_PORT dhcps_cb DNS_SERVER_PORT dnss_cb Hft)
    as (u1 & u2 & u3 & v1 & v2 & v3 & G1 & G2 & G3 & G4 & G5 & G6 & Hc & He); [done|done|done|].
  destruct (LoadStaticParam_spec n) as (fl & act & lis & Hl & Hfl).
  destruct (cfg_name n Hcfg) as (nm & Hnm & Hlen). pose proof (strlen_holds _ _ Hnm) as Hs.
  destruct Hnm as [Hnz [rest Hrest]]. pose proof (set_name_spec nm rest Hnz Hlen) as Hset. rewrite <- Hrest in Hset.
  unfold L2LinkUp. rewrite softap_not_client by done. cbn [mbind option_bind]. rewrite Hl.
  set (n1 := Net (n_sys n) (static_if n fl) _ _ _ _ _ _ _ _).
  assert (Hup : netif_is_up n1 = true) by (unfold netif_is_up; cbn; by rewrite (proj2 (Z.eqb_neq _ _) Hfl)).
  change (softap n1) with (softap n). rewrite Hap. change (cfg n1) with (cfg n).
  rewrite (proj2 (Z.eqb_neq _ _) Hd). cbn [negb]. unfold net_DHCPS_Start. rewrite Hup.
  change (n_udp n1) with (n_udp n). rewrite G1. cbn [negb mbind option_bind].
  unfold DHCPS_Start, dhcps_view. rewrite Hup. cbn [nif_up nif_ip nif_mask negb].
  rewrite (proj2 (Z.eqb_neq b 0) Hb0), G2. cbn [mbind option_bind]. rewrite G3. cbn [mbind option_bind].
  set (n2 := with_dhcps _ _ n1). change (cfg n2) with (cfg n). rewrite (proj2 (Z.eqb_neq _ _) Hn). cbn [negb].
  unfold net_DNSS_Start. change (cfg n2) with (cfg n). change (netif_is_up n2) with (netif_is_up n1).
  rewrite Hs. cbn [mbind option_bind]. rewrite (proj2 (Z.ltb_ge 32 _)) by lia.
  rewrite Hup. change (n_udp n2) with u3. rewrite G4. cbn [negb orb mbind option_bind].
  unfold DNSS_Start. rewrite Hs. cbn [mbind option_bind]. rewrite (proj2 (Z.ltb_ge 32 _)) by lia.
  rewrite Hset. cbn [negb mbind option_bind]. rewrite (proj2 (Z.eqb_neq b 0) Hb0), G5. cbn [mbind option_bind].
  rewrite G6. cbn [mbind option_bind Z.eqb]. eexists. split; [reflexivity|]. done.
Qed.
Lemma demux_lost u b port cb dst dest srcip src inp : chain next (mem u) (udp_pcbs u) [b] →
  entry_ok (mem u) (b, serving port cb) → dest ≠ port → dest ≠ DHCP_CLIENT_PORT →
  udp_demux dst dest srcip src inp u = Some (u, 0).
Proof.
  intros Hc He Hp Hd. unfold udp_demux. rewrite (proj2 (Z.eqb_neq _ _) Hd).
  pose proof (demux_loop_spec (ip4_addr_isbroadcast dst inp) dst dest srcip src (in_mask inp) u
    [(b, serving port cb)] (udp_pcbs u) 0 0 (walk_fuel u) Hc) as Hl.
  assert (Hnone : port_taken dest [(b, serving port cb)] = false).
  { unfold port_taken. cbn [existsb snd serving s_port]. by rewrite (proj2 (Z.eqb_neq _ _)) by congruence. }
  destruct (no_receiver (ip4_addr_isbroadcast dst inp) dst dest srcip src (in_mask inp) _ Hnone) as [Hf Ho].
  rewrite Hf, Ho in Hl. apply Hl; [by constructor|]. unfold walk_fuel. cbn. lia.
Qed.

(** One link down too many breaks the next session without any error: after up, down,
    down, up in access-point mode the link up is reported as a success and the DHCP server
    believes it runs, but it shares one control block with the DNS server, and no datagram
    for any port but 53 (and the DHCP client's) finds a receiver any more. *)
Theorem second_link_down_loses_dhcp p n t a b fr : udp_rep (n_udp n) t → room_for_servers t a b fr →
  serving_softap n → cfg_ok (cfg n) → SysEvtCB (n_sys n) ≠ 0 →
  ∃ n', SysMgmtMain (session p ++ [(SYS_LINK_DOWN_ID, p); (SYS_LINK_UP_ID, p)]) n = Some n' ∧
    events n' = events n ++ [SYS_EVT_LINK_UP; SYS_EVT_LINK_DOWN; SYS_EVT_LINK_DOWN; SYS_EVT_LINK_UP] ∧
    ds_enable (dh_srv (n_dhcps n')) = 1 ∧ ds_socket (dh_srv (n_dhcps n')) = dns_socket (n_dnss n') ∧
    ∀ dst dest srcip src inp, dest ≠ DNS_SERVER_PORT → dest ≠ DHCP_CLIENT_PORT →
      udp_demux dst dest srcip src inp (n_udp n') = Some (n_udp n', 0).
Proof.
  intros Hr Hroom Hap Hcfg Hcb. apply Z.eqb_neq in Hcb.
  destruct (softap_session p p n t a b fr Hr Hroom Hap Hcfg) as (n1 & H1 & Hs1 & He1 & _ & _ & Hz1 & _ & Hb1 & Hr1).
  rewrite Hcb in He1. destruct Hroom as (_ & H67 & _).
  assert (Hap1 : serving_softap n1) by (unfold serving_softap, softap, cfg; by rewrite Hs1).
  destruct (L2LinkDown_again n1 (Socks (b :: a :: fr) (bound t) (fresh t)) b (a :: fr)) as (n2 & H2 & Hs2 & He2 & Hft);
    [by apply Hap1|by apply Hap1|by apply Hap1|by rewrite Hz1|exact Hb1|exact Hr1|done|].
  set (n2' := notify SYS_EVT_LINK_DOWN n2).
  assert (Hn2 : n_sys n2' = n_sys n ∧ n_udp n2' = n_udp n2 ∧ events n2' = events n2 ++ [SYS_EVT_LINK_DOWN]).
  { unfold n2', notify. rewrite Hs2, Hs1, Hcb. cbn [n_sys n_udp events]. split; [congruence|done]. }
  destruct Hn2 as (S1 & S2 & S3). rewrite <- S2 in Hft.
  destruct (L2LinkUp_shared p n2' b (bound t) Hft H67) as (n3 & H3 & Hs3 & He3 & Hen & Hso & Hdn & Hc & Hent).
  { unfold serving_softap, softap, cfg. by rewrite S1. } { unfold cfg. by rewrite S1. }
  exists (notify SYS_EVT_LINK_UP n3). rewrite SysMgmtMain_app. fold (session p) in H1. rewrite H1. cbn [mbind option_bind].
  cbn [SysMgmtMain DefaultProc]. rewrite H2. cbn [mbind option_bind]. fold n2'. rewrite H3.
  cbn [mbind option_bind Z.eqb negb]. split; [done|]. unfold notify. rewrite Hs3, S1, Hcb.
  cbn [events n_dhcps n_dnss n_udp]. split; [rewrite He3, S3, He2, He1, <- !app_assoc; done|].
  split; [done|]. split; [congruence|]. intros. by eapply demux_lost.
Qed.
End net.

(** ** The DHCP client's limit *)

(** While the polls find no address, the link up and the limit not exceeded, the system
    task keeps waiting. *)
Lemma dhcp_wait_waits polls n : if_ip (n_if n) = 0 →
  Forall (λ p, if_ip (p_if p) = 0 ∧ p_ready p = true ∧
    (DhcpTryTimes (IPCfg (cfg n)) = 0 ∨ p_tries p <= DhcpTryTimes (IPCfg (cfg n)))) polls →
  dhcp_wait polls n = None.
Proof.
  intros H0 H. revert n H0 H. induction polls as [|p polls IH]; intros n H0 H; cbn [dhcp_wait];
    rewrite H0; cbn [Z.eqb negb]; [done|]. apply Forall_cons in H as [(Hp & Hr & Hl) H].
  rewrite Hr. cbn [negb orb]. change (cfg (with_if (p_if p) n)) with (cfg n).
  assert (Hg : negb (DhcpTryTimes (IPCfg (cfg n)) =? 0) && (DhcpTryTimes (IPCfg (cfg n)) <? p_tries p) = false).
  { destruct Hl as [->|Hl]; [done|]. rewrite (proj2 (Z.ltb_ge _ _)) by done. apply andb_false_r. }
  rewrite Hg. apply IH; [exact Hp|exact H].
Qed.
(** The largest limit is no limit: [tries] is 8 bits wide, so it never exceeds 255, and the
    system task waits for ever although a maximum was configured. *)
Theorem dhcp_limit_255_is_infinite polls n : if_ip (n_if n) = 0 → DhcpTryTimes (IPCfg (cfg n)) = 255 →
  Forall (λ p, if_ip (p_if p) = 0 ∧ p_ready p = true ∧ is_byte (p_tries p)) polls →
  ifUpWhenDhcp polls n = None.
Proof.
  intros H0 Hl H. apply dhcp_wait_waits; [exact H0|]. change (cfg (with_client true n)) with (cfg n).
  eapply Forall_impl; [exact H|]. intros p (H1 & H2 & H3). rewrite Hl. unfold is_byte in H3.
  split_ands; [done|done|right; lia].
Qed.

(** ** A device with the default configuration *)

Definition device : net :=
  Net (InfSysEvtCBSet 0x1001 (booted [1; 2; 3; 4; 5; 6])).1 (NetIf 0 0 0 NETIF_FLAG_BROADCAST) 0 false
    dhcp_boot (DnsServer 0 (replicate 32 0) 0) (memp_init 1000 32) [] [] [].
Definition device_socks : socks := Socks [1160; 1128; 1096; 1064; 1032; 1000] [] [].
Lemma device_ok : udp_rep (n_udp device) device_socks ∧ room_for_servers device_socks 1160 1128 [1096; 1064; 1032; 1000] ∧
  serving_softap device ∧ cfg_ok (cfg device).
Proof.
  split; [apply (memp_init_rep 1000 32); lia|]. split; [done|]. split.
  - unfold serving_softap. split_ands; [reflexivity|vm_compute; discriminate|vm_compute; discriminate].
  - apply (booted_ok [1; 2; 3; 4; 5; 6]); [reflexivity|].
    repeat (apply List.Forall_cons; [unfold is_byte; lia|]). apply List.Forall_nil.
Qed.
Lemma softap_link_up_serves_witness : ∃ n', L2LinkUp 0x2001 0x3001 [] device = Some (n', 0) ∧
  netif_is_up n' = true ∧ if_ip (n_if n') = 0x010A0A0A.
Proof.
  destruct device_ok as (H1 & H2 & H3 & H4).
  destruct (softap_link_up_serves 0x2001 0x3001 [] device device_socks 1160 1128 [1096; 1064; 1032; 1000] H1 H2 H3 H4)
    as (n' & t' & Hup & Hif & Hip & _). exists n'. split; [exact Hup|]. split; [exact Hif|]. rewrite Hip. reflexivity.
Defined.
Lemma softap_sessions_repeat_witness :
  ∃ n', SysMgmtMain 0x2001 0x3001 (concat (replicate 2 (session []))) device = Some n' ∧
    events n' = [SYS_EVT_LINK_UP; SYS_EVT_LINK_DOWN; SYS_EVT_LINK_UP; SYS_EVT_LINK_DOWN].
Proof.
  destruct device_ok as (H1 & H2 & H3 & H4).
  destruct (softap_sessions_repeat 0x2001 0x3001 [] 2 device device_socks 1160 1128 [1096; 1064; 1032; 1000] H1 H2 H3 H4)
    as (n' & t' & Hrun & _ & Hev & _). exists n'. split; [exact Hrun|]. rewrite Hev. reflexivity.
Defined.
Lemma second_link_down_loses_dhcp_witness :
  ∃ n', SysMgmtMain 0x2001 0x3001 (session [] ++ [(SYS_LINK_DOWN_ID, []); (SYS_LINK_UP_ID, [])]) device = Some n' ∧
    ds_enable (dh_srv (n_dhcps n')) = 1 ∧
    udp_demux 0xffffffff 67 0 68 (InpView 0x010A0A0A 0x00ffffff 2 0) (n_udp n') = Some (n_udp n', 0).
Proof.
  destruct device_ok as (H1 & H2 & H3 & H4).
  destruct (second_link_down_loses_dhcp 0x2001 0x3001 [] device device_socks 1160 1128 [1096; 1064; 1032; 1000] H1 H2 H3 H4)
    as (n' & Hrun & _ & Hen & _ & Hlost); [vm_compute; discriminate|].
  exists n'. split; [exact Hrun|]. split; [exact Hen|]. apply Hlost; discriminate.
Defined.
