(* ===== verification/Flash.v ===== *)
(** The serial flash memory and what the agent stores in it: the QSPI driver of
    [BSP/BspDemo.c] and the configuration store of [App/NuAgent/System/nuagent_drv.c].

    The chip is hardware: a class gives the transactions of the controller ([chip_send] for
    bytes written, [chip_recv] for a read after a command) and, separately, what the data
    sheet says of them.  Waiting for the controller and for the chip's busy bit is the
    transaction itself; delays have no effect here.  [None] is an access outside a buffer. *)
From S2P Require Import Prelude.

Definition FLASH_PAGE_SIZE : Z := 256.
Definition FLASH_SECTOR_SIZE : Z := 4096.
Definition MAX_FLASH_RD_SIZE : Z := 65536.
Definition FLASH_CMD_SEQ_READ : Z := 0x03.
Definition FLASH_CMD_WREN : Z := 0x06.
Definition FLASH_CMD_SECTOR_ERASE : Z := 0x20.
Definition FLASH_CMD_PAGE_WRITE : Z := 0x02.

Class FlashChip (M : Type) := {
  chip_send : list Z → M → M;
  chip_recv : list Z → nat → M → list Z }.

(** The three address bytes of a command. *)
Definition addr3 (a : Z) : list Z := [byte_of 2 a; byte_of 1 a; byte_of 0 a].

Section driver.
Context {M : Type} `{FlashChip M}.

(** The bytes read; [Len - DnldByteCnt] is [left]. *)
(* @ BSP/BspDemo.c:581-610 QSpiFlashRead *)
Fixpoint read_loop (fuel : nat) (ReadAddr left : Z) (m : M) : list Z :=
  match fuel with
  | O => []
  | S fuel =>
      if 0 <? left then
        let RdCnt := if MAX_FLASH_RD_SIZE <? left then MAX_FLASH_RD_SIZE else left in
        chip_recv (FLASH_CMD_SEQ_READ :: addr3 ReadAddr) (Z.to_nat RdCnt) m ++
        read_loop fuel (u32 (ReadAddr + RdCnt)) (left - RdCnt) m
      else []
  end.
(* @ BSP/BspDemo.c:571-580 QSpiFlashRead *)
Definition QSpiFlashRead (ReadStartPos Len : Z) (m : M) : list Z :=
  read_loop (S (Z.to_nat (Len / MAX_FLASH_RD_SIZE)) + 1) ReadStartPos Len m.
(* @ BSP/BspDemo.c:666-675 QSPI_FlashWriteEnable *)
Definition QSPI_FlashWriteEnable (m : M) : M := chip_send [FLASH_CMD_WREN] m.
(* @ BSP/BspDemo.c:697-727 QSpiFlashWriteOnePage *)
Definition QSpiFlashWriteOnePage (Adr : Z) (data : list Z) (m : M) : M :=
  chip_send (FLASH_CMD_PAGE_WRITE :: addr3 Adr ++ data) (QSPI_FlashWriteEnable m).
(* @ BSP/BspDemo.c:729-748 QSpiFlashEraseSector *)
Definition QSpiFlashEraseSector (SectorAddr : Z) (m : M) : M :=
  chip_send (FLASH_CMD_SECTOR_ERASE :: addr3 SectorAddr) (QSPI_FlashWriteEnable m).

(** [while (j--)]: the value of the unsigned counter afterwards; [wrap] is its largest. *)
(* @ BSP/BspDemo.c:800-807 QSpiWriteAny *)
Fixpoint write_retry (wrap : Z) (j : nat) (WriteAddr : Z) (data : list Z) (m : M) : M * Z :=
  match j with
  | O => (m, wrap)
  | S j =>
      let m := QSpiFlashWriteOnePage WriteAddr data m in
      if bool_decide (QSpiFlashRead WriteAddr (Z.of_nat (length data)) m = data) then (m, Z.of_nat j)
      else write_retry wrap j WriteAddr data m
  end.
(* @ BSP/BspDemo.c:798-824 QSpiWriteAny *)
Fixpoint write_any_loop (fuel : nat) (WriteAddr : Z) (pData : list Z) (DataLen pageremain : Z) (m : M)
    : option (M * Z) :=
  match fuel with
  | O => None
  | S fuel =>
      xs ← memcpy_from 0 pageremain pData;
      let '(m, j) := write_retry 65535 10 WriteAddr xs m in
      if j =? 0 then Some (m, -1) else
      if DataLen =? pageremain then Some (m, 0) else
      let DataLen := u16 (DataLen - pageremain) in
      write_any_loop fuel (u32 (WriteAddr + pageremain)) (drop (Z.to_nat pageremain) pData) DataLen
        (if FLASH_PAGE_SIZE <? DataLen then FLASH_PAGE_SIZE else DataLen) m
  end.
(* @ BSP/BspDemo.c:788-797 QSpiWriteAny *)
Definition QSpiWriteAny (WriteAddr : Z) (pData : list Z) (DataLen : Z) (m : M) : option (M * Z) :=
  let pageremain := FLASH_PAGE_SIZE - WriteAddr mod FLASH_PAGE_SIZE in
  write_any_loop (S (Z.to_nat DataLen)) WriteAddr pData DataLen
    (if DataLen <=? pageremain then DataLen else pageremain) m.

(* @ BSP/BspDemo.c:764-784 QSpiWriteOneSector *)
Fixpoint write_sector_loop (PageCnt : nat) (WriteAddr : Z) (pBuf : list Z) (m : M) : option (M * Z) :=
  match PageCnt with
  | O => Some (m, 0)
  | S PageCnt =>
      xs ← memcpy_from 0 FLASH_PAGE_SIZE pBuf;
      let '(m, j) := write_retry (2 ^ 32 - 1) 10 WriteAddr xs m in
      if j =? 0 then Some (m, -1)
      else write_sector_loop PageCnt (u32 (WriteAddr + FLASH_PAGE_SIZE)) (drop (Z.to_nat FLASH_PAGE_SIZE) pBuf) m
  end.
(* @ BSP/BspDemo.c:752-763 QSpiWriteOneSector *)
Definition QSpiWriteOneSector (SectorAddr : Z) (pBuf : list Z) (m : M) : option (M * Z) :=
  write_sector_loop (Z.to_nat (FLASH_SECTOR_SIZE / FLASH_PAGE_SIZE)) SectorAddr pBuf (QSpiFlashEraseSector SectorAddr m).

(** ** Writing anywhere *)

(** [for (i=0; i<n; i++) if (buf[i] != 0XFF) break;]: [i] afterwards. *)
(* @ App/NuAgent/System/nuagent_drv.c:80-83 WriteFlash *)
Fixpoint first_unerased (buf : list Z) : Z :=
  match buf with
  | [] => 0
  | b :: buf => if negb (b =? 0xFF) then 0 else 1 + first_unerased buf
  end.
(* @ App/NuAgent/System/nuagent_drv.c:76-118 WriteFlash *)
Fixpoint write_flash_loop (fuel : nat) (pData : list Z) (DataLen WriteAddr sector_num sector_off secre_main : Z)
    (m : M) : option M :=
  match fuel with
  | O => None
  | S fuel =>
      let base := sector_num * FLASH_SECTOR_SIZE in
      let flash_buf := QSpiFlashRead base FLASH_SECTOR_SIZE m in
      old ← memcpy_from sector_off secre_main flash_buf;
      xs ← memcpy_from 0 secre_main pData;
      '(m, r) ←
        (if first_unerased old <? secre_main then
           let m := QSpiFlashEraseSector base m in
           flash_buf ← memcpy_to sector_off xs flash_buf;
           QSpiWriteAny base flash_buf FLASH_SECTOR_SIZE m
         else QSpiWriteAny WriteAddr pData secre_main m);
      if negb (r =? 0) then Some m else
      if DataLen =? secre_main then Some m else
      let DataLen := u32 (DataLen - secre_main) in
      write_flash_loop fuel (drop (Z.to_nat secre_main) pData) DataLen (u32 (WriteAddr + secre_main))
        (u8 (sector_num + 1)) 0 (if FLASH_SECTOR_SIZE <? DataLen then FLASH_SECTOR_SIZE else DataLen) m
  end.
(** [malloc] tells whether [OSMMalloc] found memory; the code goes on with the null pointer
    when it did not. *)
(* @ App/NuAgent/System/nuagent_drv.c:50-75 WriteFlash *)
Definition WriteFlash (malloc : bool) (pData : list Z) (DataLen BurnStartPos : Z) (m : M) : option M :=
  let sector_num := u8 (BurnStartPos / FLASH_SECTOR_SIZE) in
  let sector_off := BurnStartPos mod FLASH_SECTOR_SIZE in
  let secre_main := FLASH_SECTOR_SIZE - sector_off in
  if negb malloc then None else
  write_flash_loop (S (Z.to_nat DataLen)) pData DataLen BurnStartPos sector_num sector_off
    (if DataLen <=? secre_main then DataLen else secre_main) m.
(* @ App/NuAgent/System/nuagent_drv.c:32-35 ReadFlash *)
Definition ReadFlash (DataLen ReadStartPos : Z) (m : M) : list Z := QSpiFlashRead ReadStartPos DataLen m.

(** ** The agent's configuration store *)

(* @ App/NuAgent/Include/nu_agent.h:7-13 Agent_config_t *)
Record Agent_config_t := AgentConfig {
  magicNumber : Z; flag : Z; wifipasscode : list Z; wifi_ssid : list Z; wifi_key : list Z }.
Definition agent_config_size : Z := 88.
(** The structure in memory, and the structure a buffer holds. *)
Definition agent_bytes (c : Agent_config_t) : list Z :=
  le32 (magicNumber c) ++ le32 (flag c) ++ wifipasscode c ++ wifi_ssid c ++ wifi_key c.
Definition word_at (i : Z) (b : list Z) : Z :=
  of_le32 (byte_at b i) (byte_at b (i + 1)) (byte_at b (i + 2)) (byte_at b (i + 3)).
Definition agent_of_bytes (b : list Z) : Agent_config_t :=
  AgentConfig (word_at 0 b) (word_at 4 b) (slice 8 16 b) (slice 24 32 b) (slice 56 32 b).
Definition AGENT_CONFIG_DATA_ADDR : Z := 0x64000.
Definition XPG_CFG_FLAG_CONNECTED : Z := 1.

(* @ App/NuAgent/System/nuagent_drv.c:132-136 nl6621_GetConfigData *)
Definition nl6621_GetConfigData (m : M) : Agent_config_t :=
  agent_of_bytes (ReadFlash agent_config_size AGENT_CONFIG_DATA_ADDR m).
(* @ App/NuAgent/System/nuagent_drv.c:139-143 nl6621_SaveConfigData *)
Definition nl6621_SaveConfigData (malloc : bool) (c : Agent_config_t) (m : M) : option M :=
  WriteFlash malloc (agent_bytes c) agent_config_size AGENT_CONFIG_DATA_ADDR m.
(** 32 bytes are copied from each buffer, whatever the strings in them. *)
(* @ App/NuAgent/System/nuagent_drv.c:167-180 Agent_SaveSSIDAndKey *)
Definition Agent_SaveSSIDAndKey (malloc : bool) (pSSID pKey : list Z) (c : Agent_config_t) (m : M)
    : option (Agent_config_t * M) :=
  ssid ← memcpy_from 0 32 pSSID;
  key ← memcpy_from 0 32 pKey;
  let c := AgentConfig (magicNumber c) XPG_CFG_FLAG_CONNECTED (wifipasscode c) ssid key in
  m ← nl6621_SaveConfigData malloc c m;
  Some (c, m).
End driver.

(** ** The data sheet

    [chip_byte m a] is the byte at [a], [chip_wel m] the write-enable latch, [chip_cycles m s] the
    erase cycles sector [s] has been through (its life is a number of them).  A page program can
    only clear bits and stays inside its page; an erase sets a sector to 0xFF. *)
Class FlashChipOk (M : Type) `{FlashChip M} := {
  chip_byte : M → Z → Z;
  chip_wel : M → bool;
  chip_cycles : M → Z → Z;
  chip_byte_is m a : is_byte (chip_byte m a);
  chip_wren_byte m a : chip_byte (chip_send [FLASH_CMD_WREN] m) a = chip_byte m a;
  chip_wren_wel m : chip_wel (chip_send [FLASH_CMD_WREN] m) = true;
  chip_program m a data b : chip_wel m = true → 0 <= a < 2 ^ 24 →
    a mod 256 + Z.of_nat (length data) <= 256 → bytes_ok data → 0 <= b →
    chip_byte (chip_send (FLASH_CMD_PAGE_WRITE :: addr3 a ++ data) m) b =
      if (a <=? b) && (b <? a + Z.of_nat (length data))
      then Z.land (chip_byte m b) (data !!! Z.to_nat (b - a)) else chip_byte m b;
  chip_erase m a b : chip_wel m = true → 0 <= a < 2 ^ 24 → 0 <= b →
    chip_byte (chip_send (FLASH_CMD_SECTOR_ERASE :: addr3 a) m) b =
      if b / 4096 =? a / 4096 then 0xFF else chip_byte m b;
  chip_wren_cycles m s : chip_cycles (chip_send [FLASH_CMD_WREN] m) s = chip_cycles m s;
  chip_program_cycles m a data s :
    chip_cycles (chip_send (FLASH_CMD_PAGE_WRITE :: addr3 a ++ data) m) s = chip_cycles m s;
  chip_erase_cycles m a s : chip_wel m = true → 0 <= a < 2 ^ 24 →
    chip_cycles (chip_send (FLASH_CMD_SECTOR_ERASE :: addr3 a) m) s =
      chip_cycles m s + (if s =? a / 4096 then 1 else 0);
  chip_read m a n : 0 <= a → a + Z.of_nat n <= 2 ^ 24 →
    chip_recv (FLASH_CMD_SEQ_READ :: addr3 a) n m = map (chip_byte m) (seqZ a (Z.of_nat n)) }.

Section verified.
Context {M : Type} `{FlashChipOk M}.

(** The bytes from [a] on, and "[data] is at [a] and nothing else has changed". *)
Definition bytes_at (m : M) (a n : Z) : list Z := map (chip_byte m) (seqZ a n).
Definition stored (m m' : M) (a : Z) (data : list Z) : Prop :=
  ∀ b, 0 <= b → chip_byte m' b =
    if (a <=? b) && (b <? a + Z.of_nat (length data)) then data !!! Z.to_nat (b - a) else chip_byte m b.

Lemma length_bytes_at m a n : 0 <= n → Z.of_nat (length (bytes_at m a n)) = n.
Proof. intros Hn. unfold bytes_at. rewrite length_map, length_seqZ. lia. Qed.
Lemma bytes_at_bytes m a n : bytes_ok (bytes_at m a n).
Proof. apply Forall_map, Forall_forall. intros x _. apply chip_byte_is. Qed.
Lemma lookup_bytes_at m a n i : (i < Z.to_nat n)%nat → bytes_at m a n !! i = Some (chip_byte m (a + Z.of_nat i)).
Proof. intros Hi. unfold bytes_at. change (map ?f ?l) with (f <$> l). rewrite list_lookup_fmap, lookup_seqZ_lt by lia. done. Qed.
Lemma bytes_at_app m a n1 n2 : 0 <= n1 → 0 <= n2 → bytes_at m a (n1 + n2) = bytes_at m a n1 ++ bytes_at m (a + n1) n2.
Proof. intros. unfold bytes_at. by rewrite seqZ_app, map_app by lia. Qed.

Lemma chip_read_bytes m a n : 0 <= a → 0 <= n → a + n <= 2 ^ 24 →
  chip_recv (FLASH_CMD_SEQ_READ :: addr3 a) (Z.to_nat n) m = bytes_at m a n.
Proof. intros. rewrite chip_read by lia. by rewrite Z2Nat.id. Qed.

Lemma read_loop_spec fuel : ∀ a left m, 0 <= a → 0 <= left → a + left <= 2 ^ 24 →
  left / MAX_FLASH_RD_SIZE < Z.of_nat fuel - 1 → read_loop fuel a left m = bytes_at m a left.
Proof.
  unfold MAX_FLASH_RD_SIZE. induction fuel as [|fuel IH]; intros a left m Ha Hl Hal Hf.
  { pose proof (Z.div_pos left 65536). lia. }
  cbn [read_loop]. destruct (Z.ltb_spec 0 left).
  - unfold MAX_FLASH_RD_SIZE. destruct (Z.ltb_spec 65536 left).
    + rewrite chip_read_bytes by lia.
      rewrite u32_small by (unfold is_u32; lia). rewrite IH.
      * rewrite <- bytes_at_app by lia. f_equal. lia.
      * lia.
      * lia.
      * lia.
      * replace left with (left - 65536 + 1 * 65536) in Hf by lia. rewrite Z.div_add in Hf by lia. lia.
    + rewrite chip_read_bytes, Z.sub_diag by lia.
      assert (Hnil : ∀ x, read_loop fuel x 0 m = []) by (intros x; by destruct fuel).
      rewrite Hnil, app_nil_r. done.
  - assert (left = 0) as -> by lia. done.
Qed.
Lemma QSpiFlashRead_spec a n m : 0 <= a → 0 <= n → a + n <= 2 ^ 24 → QSpiFlashRead a n m = bytes_at m a n.
Proof.
  intros. apply read_loop_spec; try lia.
Qed.

Lemma land_ff b : is_byte b → Z.land 0xFF b = b.
Proof. intros Hb. rewrite Z.land_comm. by apply is_byte_land. Qed.

(** Programming erased bytes inside one page stores them, at the first attempt. *)
Lemma write_retry_spec wrap a data m : 0 <= a → a + Z.of_nat (length data) <= 2 ^ 24 → a < 2 ^ 24 →
  a mod 256 + Z.of_nat (length data) <= 256 → bytes_ok data →
  (∀ b, a <= b < a + Z.of_nat (length data) → chip_byte m b = 0xFF) →
  ∃ m', write_retry wrap 10 a data m = (m', 9) ∧ stored m m' a data.
Proof.
  intros Ha Hl Ha' Hp Hd Her.
  assert (Hst : stored m (QSpiFlashWriteOnePage a data m) a data).
  { intros b Hb. unfold QSpiFlashWriteOnePage, QSPI_FlashWriteEnable.
    rewrite chip_program by (done || apply chip_wren_wel || lia). rewrite chip_wren_byte.
    destruct (Z.leb_spec a b), (Z.ltb_spec b (a + Z.of_nat (length data))); cbn [andb]; try done.
    rewrite Her by lia. apply land_ff. rewrite Forall_forall in Hd. apply Hd.
    apply list_elem_of_lookup_total_2. lia. }
  cbn [write_retry]. set (m1 := QSpiFlashWriteOnePage a data m) in *.
  assert (Hrd : QSpiFlashRead a (Z.of_nat (length data)) m1 = data).
  { rewrite QSpiFlashRead_spec by lia. apply list_eq. intros i.
    destruct (decide (i < length data)%nat) as [Hi|Hi].
    - rewrite lookup_bytes_at by lia. rewrite Hst by lia.
      rewrite (proj2 (Z.leb_le _ _)), (proj2 (Z.ltb_lt _ _)) by lia. cbn [andb].
      replace (Z.to_nat (a + Z.of_nat i - a)) with i by lia. rewrite list_lookup_lookup_total_lt by lia. done.
    - rewrite !lookup_ge_None_2; [done|lia|]. pose proof (length_bytes_at m1 a (Z.of_nat (length data))). lia. }
  rewrite bool_decide_true by done. by exists m1.
Qed.

Lemma stored_nil m a : stored m m a [].
Proof. intros b Hb. change (Z.of_nat _) with 0. destruct (Z.leb_spec a b), (Z.ltb_spec b (a + 0)); done || lia. Qed.
Lemma stored_app m m1 m2 a d1 d2 : stored m m1 a d1 → stored m1 m2 (a + Z.of_nat (length d1)) d2 →
  stored m m2 a (d1 ++ d2).
Proof.
  intros H1 H2 b Hb. rewrite H2, H1, length_app, Nat2Z.inj_add by done.
  destruct (Z.leb_spec (a + Z.of_nat (length d1)) b), (Z.ltb_spec b (a + Z.of_nat (length d1) + Z.of_nat (length d2))),
    (Z.leb_spec a b), (Z.ltb_spec b (a + Z.of_nat (length d1))),
    (Z.ltb_spec b (a + (Z.of_nat (length d1) + Z.of_nat (length d2)))); cbn [andb]; try lia; try done.
  - rewrite lookup_total_app_r by lia. f_equal. lia.
  - rewrite lookup_total_app_l by lia. done.
Qed.

(** [data] may be longer than the [n] bytes written. *)
Lemma write_any_loop_spec fuel : ∀ a data n m, 0 <= n <= Z.of_nat (length data) →
  0 <= a → a + n <= 2 ^ 24 → a < 2 ^ 24 → n < 65536 → bytes_ok data → (∀ b, a <= b < a + n → chip_byte m b = 0xFF) →
  ∀ k, 0 <= k <= n → a mod 256 + k <= 256 → (k < n → (a + k) mod 256 = 0 ∧ 0 < k) → n < Z.of_nat fuel →
  ∃ m', write_any_loop fuel a data n k m = Some (m', 0) ∧ stored m m' a (take (Z.to_nat n) data).
Proof.
  induction fuel as [|fuel IH]; intros a data n m Hn Ha Han Ha' Hn16 Hd Her k Hk Hpage Hnext Hf; [lia|].
  cbn [write_any_loop]. rewrite memcpy_from_Some by lia. cbn [mbind option_bind]. change (Z.to_nat 0) with 0%nat.
  set (d1 := slice 0 (Z.to_nat k) data).
  assert (Hl1 : length d1 = Z.to_nat k) by (apply length_slice; lia).
  assert (Hd1 : d1 = take (Z.to_nat k) data) by (unfold d1, slice; by rewrite drop_0).
  destruct (write_retry_spec 65535 a d1 m) as (m1 & Hw & Hst); [lia|lia|lia|lia|by apply slice_bytes| |].
  { intros b Hb. apply Her. lia. }
  rewrite Hw. cbn [Z.eqb]. destruct (Z.eqb_spec n k) as [->|Hnk].
  - exists m1. split; [done|]. by rewrite <- Hd1.
  - destruct (Hnext ltac:(lia)) as [Hmod Hk0]. rewrite u16_small, u32_small by (unfold is_u32; lia).
    assert (Hdata : take (Z.to_nat n) data = d1 ++ take (Z.to_nat (n - k)) (drop (Z.to_nat k) data)).
    { rewrite Hd1, take_take_drop. f_equal. lia. }
    assert (Hak : a + k < 2 ^ 24) by lia.
    destruct (IH (a + k) (drop (Z.to_nat k) data) (n - k) m1) with
      (k := if FLASH_PAGE_SIZE <? n - k then FLASH_PAGE_SIZE else n - k) as (m' & Hrun & Hst'); try lia.
    + rewrite length_drop. lia.
    + by apply Forall_drop.
    + intros b Hb. rewrite Hst by lia. rewrite Hl1. rewrite (proj2 (Z.ltb_ge b _)) by lia.
      rewrite andb_false_r. apply Her. lia.
    + unfold FLASH_PAGE_SIZE. destruct (Z.ltb_spec 256 (n - k)); lia.
    + unfold FLASH_PAGE_SIZE. rewrite Hmod. destruct (Z.ltb_spec 256 (n - k)); lia.
    + unfold FLASH_PAGE_SIZE. destruct (Z.ltb_spec 256 (n - k)); [|lia]. intros _. split; [|lia].
      rewrite <- Z.add_mod_idemp_l, Hmod by lia. done.
    + exists m'. split; [exact Hrun|]. rewrite Hdata. apply (stored_app m m1); [done|].
      rewrite Hl1, Z2Nat.id by lia. done.
Qed.
Lemma QSpiWriteAny_spec a data n m : 0 <= a < 2 ^ 24 → a + n <= 2 ^ 24 → 0 <= n <= Z.of_nat (length data) →
  n < 65536 → bytes_ok data → (∀ b, a <= b < a + n → chip_byte m b = 0xFF) →
  ∃ m', QSpiWriteAny a data n m = Some (m', 0) ∧ stored m m' a (take (Z.to_nat n) data).
Proof.
  intros Ha Hl Hlen Hn Hd Her. unfold QSpiWriteAny, FLASH_PAGE_SIZE. pose proof (Z.mod_pos_bound a 256 ltac:(lia)).
  apply write_any_loop_spec; try done; try lia; destruct (Z.leb_spec n (256 - a mod 256)); try lia.
  intros _. split; [|lia]. pose proof (Z.div_mod a 256 ltac:(lia)).
  replace (a + (256 - a mod 256)) with ((a / 256 + 1) * 256) by lia. by rewrite Z.mod_mul by lia.
Qed.

(** ** Erase cycles *)

(** The part of the [n] bytes from [a] on that lies in sector [s] is erased. *)
Definition target_blank (m : M) (a n s : Z) : Prop :=
  ∀ b, a <= b < a + n → b / FLASH_SECTOR_SIZE = s → chip_byte m b = 0xFF.
(** Each sector whose part of the target was not blank was erased once, no other sector was. *)
Definition erased_once (m m' : M) (a n : Z) : Prop := ∀ s,
  (target_blank m a n s → chip_cycles m' s = chip_cycles m s) ∧
  (¬ target_blank m a n s → chip_cycles m' s = chip_cycles m s + 1).

Lemma write_retry_cycles wrap j a data m s : chip_cycles (write_retry wrap j a data m).1 s = chip_cycles m s.
Proof.
  revert m. induction j as [|j IH]; intros m; [done|]. cbn [write_retry].
  assert (E : chip_cycles (QSpiFlashWriteOnePage a data m) s = chip_cycles m s).
  { unfold QSpiFlashWriteOnePage, QSPI_FlashWriteEnable. by rewrite chip_program_cycles, chip_wren_cycles. }
  destruct (bool_decide _); [done|]. by rewrite IH.
Qed.
Lemma write_any_loop_cycles fuel : ∀ a data n k m m' r s,
  write_any_loop fuel a data n k m = Some (m', r) → chip_cycles m' s = chip_cycles m s.
Proof.
  induction fuel as [|fuel IH]; intros a data n k m m' r s; [done|]. cbn [write_any_loop].
  destruct (memcpy_from 0 k data) as [xs|]; [|done]. cbn [mbind option_bind].
  pose proof (write_retry_cycles 65535 10 a xs m s) as E. destruct (write_retry _ _ _ _ _) as [m1 j]. cbn [fst] in E.
  destruct (j =? 0); [by intros [= <- _]|]. destruct (n =? k); [by intros [= <- _]|].
  intros Hr. rewrite <- E. by eapply IH.
Qed.
Lemma erase_cycles m s0 s : 0 <= s0 < 4096 →
  chip_cycles (QSpiFlashEraseSector (s0 * 4096) m) s = chip_cycles m s + (if s =? s0 then 1 else 0).
Proof.
  intros. unfold QSpiFlashEraseSector, QSPI_FlashWriteEnable.
  rewrite chip_erase_cycles, chip_wren_cycles, Z.div_mul by (lia || apply chip_wren_wel). done.
Qed.

(** A target cut at a sector boundary. *)
Lemma erased_once_app m m1 m2 a n1 n2 d : 0 <= n1 → 0 <= n2 → (a + n1) mod FLASH_SECTOR_SIZE = 0 → 0 <= a →
  Z.of_nat (length d) = n1 → stored m m1 a d → erased_once m m1 a n1 → erased_once m1 m2 (a + n1) n2 →
  erased_once m m2 a (n1 + n2).
Proof.
  unfold FLASH_SECTOR_SIZE. intros Hn1 Hn2 Hb Ha Hd Hst H1 H2 s. destruct (H1 s) as [H1b H1n], (H2 s) as [H2b H2n].
  unfold target_blank, FLASH_SECTOR_SIZE in *. set (c := (a + n1) / 4096). assert (Hc : a + n1 = c * 4096).
  { pose proof (Z.div_mod (a + n1) 4096). lia. }
  destruct (decide (s < c)) as [Hs|Hs].
  - rewrite H2b by (intros b Hb' Es; pose proof (Z.div_le_mono (c * 4096) b 4096); rewrite Z.div_mul in *; lia).
    assert (E : (∀ b, a <= b < a + (n1 + n2) → b / 4096 = s → chip_byte m b = 0xFF) ↔
                (∀ b, a <= b < a + n1 → b / 4096 = s → chip_byte m b = 0xFF)).
    { split; intros Hx b Hb' Es; apply Hx; try done; [lia|].
      pose proof (Z.div_mod b 4096). pose proof (Z.mod_pos_bound b 4096). lia. }
    rewrite E. split; [done|apply H1n].
  - rewrite H1b in * by (intros b Hb' Es; pose proof (Z.div_mod b 4096); pose proof (Z.mod_pos_bound b 4096); lia).
    assert (E : (∀ b, a <= b < a + (n1 + n2) → b / 4096 = s → chip_byte m b = 0xFF) ↔
                (∀ b, a + n1 <= b < a + n1 + n2 → b / 4096 = s → chip_byte m1 b = 0xFF)).
    { split; intros Hx b Hb' Es.
      - rewrite Hst by lia. rewrite (proj2 (Z.ltb_ge b _)), andb_false_r by lia. apply Hx; [lia|done].
      - pose proof (Z.div_mod b 4096). pose proof (Z.mod_pos_bound b 4096).
        specialize (Hx b ltac:(lia) Es). rewrite Hst in Hx by lia.
        rewrite (proj2 (Z.ltb_ge b _)), andb_false_r in Hx by lia. done. }
    rewrite E. split; [done|]. exact H2n.
Qed.

(** ** Writing anywhere, with the other bytes of the sector kept *)

Lemma first_unerased_spec buf :
  (first_unerased buf < Z.of_nat (length buf) ∧ ¬ Forall (λ b, b = 0xFF) buf) ∨
  (first_unerased buf = Z.of_nat (length buf) ∧ Forall (λ b, b = 0xFF) buf).
Proof.
  induction buf as [|b buf IH]; [by right|]. cbn [first_unerased length]. rewrite Forall_cons.
  destruct (Z.eqb_spec b 0xFF) as [->|]; cbn [negb].
  - destruct IH as [[? ?]|[? ?]]; [left; split; [lia|tauto]|right; split; [lia|done]].
  - left. split; [lia|tauto].
Qed.
(** The test over the buffer, as a fact of the chip. *)
Lemma blank_slice m s a off k : 0 <= s → 0 <= off → 0 <= k → off + k <= FLASH_SECTOR_SIZE →
  a = s * FLASH_SECTOR_SIZE + off →
  Forall (λ b, b = 0xFF) (slice (Z.to_nat off) (Z.to_nat k) (bytes_at m (s * FLASH_SECTOR_SIZE) FLASH_SECTOR_SIZE))
    ↔ ∀ b, a <= b < a + k → chip_byte m b = 0xFF.
Proof.
  unfold FLASH_SECTOR_SIZE. intros Hs Hoff Hk Hok ->. rewrite Forall_lookup. unfold slice. split.
  - intros Hf b Hb. apply (Hf (Z.to_nat (b - (s * 4096 + off)))).
    rewrite lookup_take_lt, lookup_drop, lookup_bytes_at by lia. do 2 f_equal. lia.
  - intros Hb i x [Hx Hi]%lookup_take_Some. rewrite lookup_drop, lookup_bytes_at in Hx by lia.
    injection Hx as <-. apply Hb. lia.
Qed.
Lemma erased_once_step m m1 s a off k (erased : bool) : 0 <= s → 0 <= off → 0 <= k →
  off + k <= FLASH_SECTOR_SIZE → a = s * FLASH_SECTOR_SIZE + off →
  (erased = true ↔ ¬ ∀ b, a <= b < a + k → chip_byte m b = 0xFF) →
  (∀ s', chip_cycles m1 s' = chip_cycles m s' + (if erased && (s' =? s) then 1 else 0)) →
  erased_once m m1 a k.
Proof.
  unfold FLASH_SECTOR_SIZE. intros Hs Hoff Hk Hok Ha He Hc s'. unfold target_blank, FLASH_SECTOR_SIZE. rewrite Hc.
  assert (Hsec : ∀ b, a <= b < a + k → b / 4096 = s).
  { intros b Hb. symmetry. apply (Z.div_unique _ _ _ (b - s * 4096)); lia. }
  destruct (Z.eqb_spec s' s) as [->|Hne]; cycle 1.
  { rewrite andb_false_r. split; [lia|]. intros Hn. destruct Hn. intros b Hb Es. rewrite Hsec in Es by done. congruence. }
  rewrite andb_true_r. destruct erased; split; try lia.
  - intros Hb. destruct (proj1 He eq_refl). intros b Hx. by apply Hb; [|apply Hsec].
  - intros Hn. destruct Hn. intros b Hx _. destruct (decide (chip_byte m b = 0xFF)) as [|Hff]; [done|].
    assert (false = true) by (apply He; auto). done.
Qed.

Lemma chip_erase_sector m s b : 0 <= s < 4096 → 0 <= b →
  chip_byte (QSpiFlashEraseSector (s * 4096) m) b = if b / 4096 =? s then 0xFF else chip_byte m b.
Proof.
  intros. unfold QSpiFlashEraseSector, QSPI_FlashWriteEnable.
  rewrite chip_erase, chip_wren_byte, Z.div_mul by (lia || apply chip_wren_wel). done.
Qed.

Lemma lookup_total_store_at i xs b j : (i + length xs <= length b)%nat →
  store_at i xs b !!! j = if decide (i <= j < i + length xs)%nat then xs !!! (j - i)%nat else b !!! j.
Proof.
  intros Hl. rewrite !list_lookup_total_alt. unfold store_at.
  assert (Ht : length (take i b) = i) by (rewrite length_take; lia).
  destruct (decide _) as [Hin|Hout].
  - rewrite lookup_app_r, Ht, lookup_app_l by lia. done.
  - destruct (decide (j < i)%nat).
    + rewrite lookup_app_l, lookup_take_lt by lia. done.
    + rewrite lookup_app_r, Ht, lookup_app_r, lookup_drop by lia. do 2 f_equal. lia.
Qed.
Lemma lookup_total_bytes_at m a n i : (i < Z.to_nat n)%nat → bytes_at m a n !!! i = chip_byte m (a + Z.of_nat i).
Proof. intros. rewrite list_lookup_total_alt, lookup_bytes_at by done. done. Qed.

(** The branch that erases: read the sector, erase it, change the slice, write it back. *)
Lemma rewrite_sector_spec m s off xs : 0 <= s < 256 → 0 <= off → off + Z.of_nat (length xs) <= 4096 → bytes_ok xs →
  let base := s * FLASH_SECTOR_SIZE in
  ∃ m', (flash_buf ← memcpy_to off xs (bytes_at m base FLASH_SECTOR_SIZE);
         QSpiWriteAny base flash_buf FLASH_SECTOR_SIZE (QSpiFlashEraseSector base m)) = Some (m', 0) ∧
    stored m m' (base + off) xs.
Proof.
  intros Hs Hoff Hl Hxs base. pose proof (length_bytes_at m base FLASH_SECTOR_SIZE ltac:(done)) as Hlen.
  unfold FLASH_SECTOR_SIZE in *. assert (Hbase : base = s * 4096) by done. rewrite memcpy_to_Some by lia. cbn [mbind option_bind].
  set (buf := store_at (Z.to_nat off) xs _).
  assert (Hbl : Z.of_nat (length buf) = 4096) by (unfold buf; rewrite length_store_at by lia; done).
  destruct (QSpiWriteAny_spec base buf 4096 (QSpiFlashEraseSector base m)) as (m' & Hw & Hst); try lia.
  { apply store_at_bytes; [done|apply bytes_at_bytes]. }
  { intros b Hb. unfold base. rewrite chip_erase_sector by lia. rewrite (proj2 (Z.eqb_eq _ _)); [done|].
    symmetry. apply (Z.div_unique _ _ _ (b - base)); lia. }
  rewrite take_ge in Hst by lia. exists m'. split; [exact Hw|]. intros b Hb. rewrite Hst by done.
  rewrite Hbl. replace (chip_byte _ b) with (if b / 4096 =? s then 0xFF else chip_byte m b) by (symmetry; apply chip_erase_sector; lia).
  destruct (Z.leb_spec base b), (Z.ltb_spec b (base + 4096)); cbn [andb].
  - unfold buf. rewrite lookup_total_store_at by lia.
    destruct (decide _), (Z.leb_spec (base + off) b), (Z.ltb_spec b (base + off + Z.of_nat (length xs))); cbn [andb]; try lia;
      first [f_equal; lia | rewrite lookup_total_bytes_at by lia; f_equal; lia].
  - rewrite (proj2 (Z.ltb_ge b _)), andb_false_r by lia. rewrite (proj2 (Z.eqb_neq _ _)); [done|].
    intros E. pose proof (Z.div_mod b 4096). pose proof (Z.mod_pos_bound b 4096). lia.
  - rewrite (proj2 (Z.leb_gt _ b)) by lia. cbn [andb]. rewrite (proj2 (Z.eqb_neq _ _)); [done|].
    intros E. pose proof (Z.div_mod b 4096). pose proof (Z.mod_pos_bound b 4096). lia.
  - lia.
Qed.

(** One round of the loop: the part of the data that lies in one sector. *)
Lemma flash_step data a s off k m : bytes_ok data →
  a = s * FLASH_SECTOR_SIZE + off → 0 <= s < 256 → 0 <= off → 0 <= k <= Z.of_nat (length data) →
  off + k <= FLASH_SECTOR_SIZE → a + k <= 2 ^ 20 →
  ∃ old xs m1, memcpy_from off k (bytes_at m (s * FLASH_SECTOR_SIZE) FLASH_SECTOR_SIZE) = Some old ∧
    memcpy_from 0 k data = Some xs ∧ xs = take (Z.to_nat k) data ∧ length xs = Z.to_nat k ∧
    (if first_unerased old <? k then
       flash_buf ← memcpy_to off xs (bytes_at m (s * FLASH_SECTOR_SIZE) FLASH_SECTOR_SIZE);
       QSpiWriteAny (s * FLASH_SECTOR_SIZE) flash_buf FLASH_SECTOR_SIZE (QSpiFlashEraseSector (s * FLASH_SECTOR_SIZE) m)
     else QSpiWriteAny a data k m) = Some (m1, 0) ∧
    stored m m1 a xs ∧ erased_once m m1 a k.
Proof.
  unfold FLASH_SECTOR_SIZE. intros Hd Ha Hs Hoff Hk Hok Han.
  pose proof (length_bytes_at m (s * 4096) 4096 ltac:(lia)) as Hlen.
  rewrite (memcpy_from_Some off), (memcpy_from_Some 0) by lia. change (Z.to_nat 0) with 0%nat.
  set (xs := slice 0 (Z.to_nat k) data). set (old := slice (Z.to_nat off) (Z.to_nat k) _).
  assert (Hxl : length xs = Z.to_nat k) by (apply length_slice; lia).
  assert (Hol : length old = Z.to_nat k) by (apply length_slice; lia).
  assert (Hxt : xs = take (Z.to_nat k) data) by (unfold xs, slice; by rewrite drop_0).
  pose proof (blank_slice m s a off k ltac:(lia) Hoff ltac:(lia) Hok Ha) as Hbl. unfold FLASH_SECTOR_SIZE in Hbl. fold old in Hbl.
  exists old, xs. destruct (first_unerased_spec old) as [[Hlt Hnb]|[Heq Hb]].
  - rewrite (proj2 (Z.ltb_lt _ k)) by lia.
    destruct (rewrite_sector_spec m s off xs) as (m1 & E & Hst); [lia|lia|lia|by apply slice_bytes|].
    exists m1. split_ands; try done; [by rewrite Ha|].
    apply (erased_once_step m m1 s a off k true); try done; try lia; [split; [by rewrite <- Hbl|done]|]. intros s'. cbn [andb].
    rewrite <- erase_cycles by lia. unfold FLASH_SECTOR_SIZE in E. revert E.
    destruct (memcpy_to _ _ _) as [buf|]; [|done]. cbn [mbind option_bind]. apply write_any_loop_cycles.
  - rewrite (proj2 (Z.ltb_ge _ k)) by lia. pose proof (proj1 Hbl Hb) as Hff.
    destruct (QSpiWriteAny_spec a data k m) as (m1 & E & Hst); [lia|lia|lia|lia|done|exact Hff|].
    exists m1. split_ands; try done.
    apply (erased_once_step m m1 s a off k false); [lia|lia|lia|done|done|split; [done|intros Hn; by destruct Hn]|].
    intros s'. cbn [andb]. rewrite Z.add_0_r. by eapply write_any_loop_cycles.
Qed.
Lemma write_flash_loop_spec fuel : ∀ data n a s off k m, n = Z.of_nat (length data) → bytes_ok data →
  a = s * FLASH_SECTOR_SIZE + off → 0 <= s < 256 → 0 <= off → 0 <= k <= n → off + k <= FLASH_SECTOR_SIZE →
  (k < n → off + k = FLASH_SECTOR_SIZE ∧ 0 < k) → a + n <= 2 ^ 20 → a < 2 ^ 20 → n < Z.of_nat fuel →
  ∃ m', write_flash_loop fuel data n a s off k m = Some m' ∧ stored m m' a data ∧ erased_once m m' a n.
Proof.
  unfold FLASH_SECTOR_SIZE. induction fuel as [|fuel IH]; intros data n a s off k m Hn Hd Ha Hs Hoff Hk Hok Hnext Han Ha' Hf; [lia|].
  destruct (flash_step data a s off k m) as (old & xs & m1 & Hold & Hxs & Hxd & Hxl & Hrun1 & Hst & Her); try done; try lia.
  cbn [write_flash_loop]. unfold FLASH_SECTOR_SIZE in *. rewrite QSpiFlashRead_spec by lia.
  rewrite Hold, Hxs. cbn [mbind option_bind]. rewrite Hrun1. cbn [mbind option_bind Z.eqb negb].
  destruct (Z.eqb_spec n k) as [->|Hnk].
  - exists m1. split; [done|]. split; [|done]. by rewrite Hxd, take_ge in Hst by lia.
  - destruct (Hnext ltac:(lia)) as [Hmod Hk0]. rewrite !u32_small by (unfold is_u32; lia). rewrite u8_small by (unfold is_byte; lia).
    assert (Hdata : data = xs ++ drop (Z.to_nat k) data) by (by rewrite Hxd, take_drop).
    destruct (IH (drop (Z.to_nat k) data) (n - k) (a + k) (s + 1) 0
      (if 4096 <? n - k then 4096 else n - k) m1) as (m' & Hrun & Hst' & Her');
      try (destruct (Z.ltb_spec 4096 (n - k)); lia).
    + rewrite length_drop. lia.
    + by apply Forall_drop.
    + exists m'. split; [exact Hrun|]. split.
      * rewrite Hdata. apply (stored_app m m1); [done|]. rewrite Hxl, Z2Nat.id by lia. done.
      * replace n with (k + (n - k)) by lia. apply (erased_once_app m m1 m' a k (n - k) xs); try done; try lia.
        unfold FLASH_SECTOR_SIZE. replace (a + k) with ((s + 1) * 4096) by lia. by apply Z.mod_mul.
Qed.

(** A well-formed configuration survives the trip through its bytes, and the store. *)
Definition agent_ok (c : Agent_config_t) : Prop :=
  is_u32 (magicNumber c) ∧ is_u32 (flag c) ∧
  (length (wifipasscode c) = 16 ∧ length (wifi_ssid c) = 32 ∧ length (wifi_key c) = 32)%nat ∧
  bytes_ok (wifipasscode c) ∧ bytes_ok (wifi_ssid c) ∧ bytes_ok (wifi_key c).
Lemma agent_bytes_ok c : agent_ok c → bytes_ok (agent_bytes c) ∧ length (agent_bytes c) = 88%nat.
Proof.
  intros (_ & _ & (Hp & Hs & Hk) & Bp & Bs & Bk). unfold agent_bytes. split.
  - rewrite !Forall_app. split_ands; done || apply le32_bytes.
  - rewrite !length_app, Hp, Hs, Hk. done.
Qed.
Lemma slice_middle (l1 l2 l3 : list Z) i n : length l1 = i → length l2 = n → slice i n (l1 ++ l2 ++ l3) = l2.
Proof. intros <- <-. unfold slice. by rewrite drop_app_length, take_app_length. Qed.
Lemma agent_of_agent_bytes c : agent_ok c → agent_of_bytes (agent_bytes c) = c.
Proof.
  intros (Hm & Hf & (Hp & Hs & Hk) & _). destruct c as [mg fl pc ss ky]. cbn in *. unfold agent_of_bytes, agent_bytes.
  cbn [magicNumber flag wifipasscode wifi_ssid wifi_key].
  f_equal.
  - apply (of_le32_bytes mg Hm).
  - apply (of_le32_bytes fl Hf).
  - change (slice 8 16 ((le32 mg ++ le32 fl) ++ pc ++ ss ++ ky) = pc). by apply slice_middle.
  - change (slice 24 32 ((le32 mg ++ le32 fl) ++ pc ++ ss ++ ky) = ss). rewrite (app_assoc _ pc).
    apply slice_middle; [rewrite length_app; cbn; lia|done].
  - change (slice 56 32 ((le32 mg ++ le32 fl) ++ pc ++ ss ++ ky) = ky). rewrite (app_assoc _ pc), (app_assoc _ ss).
    rewrite <- (app_nil_r ky) at 1. apply slice_middle; [rewrite !length_app; cbn; lia|done].
Qed.
Lemma stored_read m m' a data : stored m m' a data → 0 <= a → a + Z.of_nat (length data) <= 2 ^ 24 →
  QSpiFlashRead a (Z.of_nat (length data)) m' = data.
Proof.
  intros Hst Ha Hl. rewrite QSpiFlashRead_spec by lia. apply list_eq. intros i.
  destruct (decide (i < length data)%nat) as [Hi|Hi].
  - rewrite lookup_bytes_at by lia. rewrite Hst by lia.
    rewrite (proj2 (Z.leb_le _ _)), (proj2 (Z.ltb_lt _ _)) by lia. cbn [andb].
    replace (Z.to_nat (a + Z.of_nat i - a)) with i by lia. rewrite list_lookup_lookup_total_lt by lia. done.
  - rewrite !lookup_ge_None_2; [done|lia|]. pose proof (length_bytes_at m' a (Z.of_nat (length data))). lia.
Qed.
Lemma write_flash_ok data a m : bytes_ok data → 0 <= a < 2 ^ 20 → a + Z.of_nat (length data) <= 2 ^ 20 →
  ∃ m', WriteFlash true data (Z.of_nat (length data)) a m = Some m' ∧ stored m m' a data ∧
    erased_once m m' a (Z.of_nat (length data)).
Proof.
  intros Hd Ha Hl. pose proof (Z.mod_pos_bound a 4096 ltac:(lia)). pose proof (Z.div_mod a 4096 ltac:(lia)).
  unfold WriteFlash, FLASH_SECTOR_SIZE. cbn [negb]. rewrite u8_small by (unfold is_byte; lia).
  apply write_flash_loop_spec; unfold FLASH_SECTOR_SIZE; try done; try lia;
    destruct (Z.leb_spec (Z.of_nat (length data)) (4096 - a mod 4096)); lia.
Qed.
(** C29: On a chip that follows its data sheet, and when the heap gives [WriteFlash] its buffer for
    a sector, [WriteFlash] of [data] at any address of the first megabyte stores exactly those bytes,
    across page and sector boundaries, and leaves every other byte of the chip as it was.  A sector is
    erased only when the part of the target in it is not blank, and then once: the erase cycles of
    every sector say so. *)
Theorem WriteFlash_stores data a m : bytes_ok data → 0 <= a < 2 ^ 20 → a + Z.of_nat (length data) <= 2 ^ 20 →
  ∃ m', WriteFlash true data (Z.of_nat (length data)) a m = Some m' ∧ stored m m' a data ∧
    erased_once m m' a (Z.of_nat (length data)).
Proof. apply write_flash_ok. Qed.
Lemma SaveConfigData_ok c m : agent_ok c → ∃ m', nl6621_SaveConfigData true c m = Some m' ∧
  stored m m' AGENT_CONFIG_DATA_ADDR (agent_bytes c) ∧ nl6621_GetConfigData m' = c.
Proof.
  intros Hc. destruct (agent_bytes_ok c Hc) as [Hb Hl].
  destruct (write_flash_ok (agent_bytes c) AGENT_CONFIG_DATA_ADDR m) as (m' & Hw & Hst);
    [done|done|rewrite Hl; done|].
  rewrite Hl in Hw. destruct Hst as [Hst _]. exists m'. split; [exact Hw|]. split; [exact Hst|].
  unfold nl6621_GetConfigData, ReadFlash. change agent_config_size with (Z.of_nat 88). rewrite <- Hl.
  rewrite (stored_read m m') by (done || (rewrite Hl; done)). by apply agent_of_agent_bytes.
Qed.
End verified.

(** ** The result of a write that keeps failing *)

Section failing.
Context {M : Type} `{FlashChip M}.

Lemma write_retry_failed wrap r a data : ∀ j m,
  (∀ i, (1 <= i <= j)%nat → QSpiFlashRead a (Z.of_nat (length data)) (Nat.iter i (QSpiFlashWriteOnePage a data) m) ≠ data) →
  write_retry wrap (j + r) a data m = write_retry wrap r a data (Nat.iter j (QSpiFlashWriteOnePage a data) m).
Proof.
  induction j as [|j IH]; intros m Hf; [done|]. cbn [Nat.add write_retry].
  rewrite bool_decide_false by (apply (Hf 1%nat); lia). rewrite IH.
  - by rewrite <- Nat.iter_succ_r.
  - intros i Hi. rewrite <- Nat.iter_succ_r. apply Hf. lia.
Qed.

(** The result of [QSpiWriteAny] is the wrong way round when the first nine attempts on a page do
    not verify.  If the tenth does, [j] has just reached 0 and the call reports failure; if no
    attempt ever does, [j--] has taken the unsigned counter past 0 to 65535 and the call reports
    success for data that is not in the chip. *)
Theorem QSpiWriteAny_result_after_nine_failures a data m :
  Z.of_nat (length data) <= FLASH_PAGE_SIZE - a mod FLASH_PAGE_SIZE →
  let after i := Nat.iter i (QSpiFlashWriteOnePage a data) m in
  let verified i := QSpiFlashRead a (Z.of_nat (length data)) (after i) = data in
  (∀ i, (1 <= i <= 9)%nat → ¬ verified i) →
  QSpiWriteAny a data (Z.of_nat (length data)) m =
    Some (after 10%nat, if bool_decide (verified 10%nat) then -1 else 0).
Proof.
  intros Hp after verified Hf. unfold QSpiWriteAny. rewrite (proj2 (Z.leb_le _ _)) by done.
  cbn [write_any_loop]. rewrite memcpy_from_Some by lia. cbn [mbind option_bind].
  replace (slice _ _ data) with data by (unfold slice; rewrite drop_0, take_ge by lia; done).
  change 10%nat with (9 + 1)%nat at 1. rewrite write_retry_failed by exact Hf. cbn [write_retry].
  change (QSpiFlashWriteOnePage a data (Nat.iter 9 (QSpiFlashWriteOnePage a data) m)) with (after 10%nat).
  unfold verified. destruct (bool_decide _); cbn [Z.of_nat Z.eqb]; [done|]. by rewrite Z.eqb_refl.
Qed.
End failing.

(** ** A chip in memory *)

(** Enough of a chip to follow the data sheet: the memory, the write-enable latch, the cycles. *)
Record sim := Sim { sim_mem : Z → Z; sim_wel : bool; sim_cycles : Z → Z }.
Definition sim_addr (b2 b1 b0 : Z) : Z := of_le32 b0 b1 b2 0.
Definition sim_send (bytes : list Z) (c : sim) : sim :=
  match bytes with
  | [cmd] => if cmd =? FLASH_CMD_WREN then Sim (sim_mem c) true (sim_cycles c) else c
  | cmd :: b2 :: b1 :: b0 :: data =>
      let a := sim_addr b2 b1 b0 in
      if negb (sim_wel c) then c else
      if cmd =? FLASH_CMD_PAGE_WRITE then
        Sim (λ b, if (a <=? b) && (b <? a + Z.of_nat (length data))
                  then Z.land (sim_mem c b) (data !!! Z.to_nat (b - a)) else sim_mem c b) false (sim_cycles c)
      else if cmd =? FLASH_CMD_SECTOR_ERASE then
        Sim (λ b, if b / 4096 =? a / 4096 then 0xFF else sim_mem c b) false
          (λ s, sim_cycles c s + (if s =? a / 4096 then 1 else 0))
      else c
  | _ => c
  end.
Definition sim_recv (bytes : list Z) (n : nat) (c : sim) : list Z :=
  match bytes with
  | [cmd; b2; b1; b0] =>
      if cmd =? FLASH_CMD_SEQ_READ then map (λ b, u8 (sim_mem c b)) (seqZ (sim_addr b2 b1 b0) (Z.of_nat n))
      else replicate n 0xFF
  | _ => replicate n 0xFF
  end.
#[export] Instance sim_chip : FlashChip sim := { chip_send := sim_send; chip_recv := sim_recv }.

Lemma sim_addr_addr3 a : 0 <= a < 2 ^ 24 → sim_addr (byte_of 2 a) (byte_of 1 a) (byte_of 0 a) = a.
Proof.
  intros Ha. assert (H3 : byte_of 3 a = 0).
  { unfold byte_of. by rewrite Z.shiftr_div_pow2, Z.div_small by lia. }
  pose proof (of_le32_bytes a ltac:(unfold is_u32; lia)) as Hb. by rewrite H3 in Hb.
Qed.
#[export] Instance sim_chip_ok : FlashChipOk sim.
Proof.
  refine {| chip_byte := λ c a, u8 (sim_mem c a); chip_wel := sim_wel; chip_cycles := sim_cycles |}; try done.
  - intros. apply u8_byte.
  - intros c a data b Hw Ha Hp Hd Hb.
    cbn -[FLASH_CMD_PAGE_WRITE]. rewrite Hw, sim_addr_addr3 by done. cbn [negb Z.eqb sim_mem].
    cbn. destruct (Z.leb_spec a b), (Z.ltb_spec b (a + Z.of_nat (length data))); cbn [andb]; try done.
    set (v := data !!! _). assert (Hv : is_byte v).
    { rewrite Forall_forall in Hd. apply Hd. apply list_elem_of_lookup_total_2. lia. }
    rewrite !u8_land. apply is_byte_land in Hv. rewrite <- Hv at 2. bitwise_eq.
  - intros c a b Hw Ha Hb. cbn. rewrite Hw, sim_addr_addr3 by done. cbn. by destruct (_ =? _).
  - intros c a data s. cbn -[FLASH_CMD_PAGE_WRITE]. by destruct (sim_wel c).
  - intros c a s Hw Ha. cbn. rewrite Hw, sim_addr_addr3 by done. done.
  - intros c a n Ha Hl. cbn. destruct (decide (n = 0%nat)) as [->|]; [done|].
    by rewrite sim_addr_addr3 by lia.
Qed.

(** A chip full of zeroes at the agent's address, and 300 bytes across a sector boundary. *)
Definition zero_chip : sim := Sim (λ _, 0) false (λ _, 0).
Lemma WriteFlash_stores_witness :
  ∃ m', WriteFlash true (replicate 300 7) 300 0x63f00 zero_chip = Some m' ∧ stored zero_chip m' 0x63f00 (replicate 300 7) ∧
    erased_once zero_chip m' 0x63f00 300.
Proof.
  apply (WriteFlash_stores (M := sim) (replicate 300 7) 0x63f00).
  - apply Forall_replicate. by split.
  - by split.
  - by vm_compute.
Defined.

(** A bit that is already clear cannot be set again by programming: [1] over a zero byte never
    verifies, and the call reports success. *)
Lemma QSpiWriteAny_result_after_nine_failures_witness :
  QSpiWriteAny 0x64000 [1] 1 zero_chip =
    Some (Nat.iter 10 (QSpiFlashWriteOnePage 0x64000 [1]) zero_chip, 0).
Proof.
  refine (eq_trans (QSpiWriteAny_result_after_nine_failures (M := sim) 0x64000 [1] zero_chip _ _) _).
  - by vm_compute.
  - intros i Hi. do 10 (destruct i as [|i]; [first [lia | by vm_compute]|]). lia.
  - rewrite bool_decide_false; [done|by vm_compute].
Defined.
