(* ===== verification/Agent.v ===== *)
(** The agent's connection manager: [App/NuAgent/Wifi/wifi_conn.c], the local network commands
    of [App/NuAgent/User/lan.c], the UDP receive loop of [System/network_adapter.c] and the
    start-up and reset button of [System/agent_core.c], composed with the configuration calls
    ([Param]), the events of the system task ([Net]) and the flash store ([Flash]).

    The agent runs in its own task; the system task calls [AppEvtCallBack] and the MAC
    library writes [SysParam] while the agent sleeps.  So a state carries what is going to
    happen in each coming sleep ([future]) and what each coming socket call returns ([calls]),
    and an operation ends in one of four ways: it returns, it is still waiting when those run
    out, it resets the chip, or it reads outside an object ([Fault]). *)
From S2P Require Import Prelude CStr Param Dhcp Dns Udp Net Flash.

Definition SYS_STATUS_WIFI_SOFTAP : Z := 1.
Definition SYS_STATUS_WIFI_DIRECTCONFING : Z := 2.
Definition SYS_STATUS_WIFI_STA_CONNECTED : Z := 3.
Definition SYS_STATUS_ONBOARDING : Z := 1.
Definition SYS_STATUS_ONBOARDING_SUCCESS : Z := 2.
Definition PARAM_ENC_MODE_AUTO : Z := 4.
Definition LAN_NETDATA_CMD_SOFTAP_CONFIG : Z := 0x11.
Definition LAN_NETDATA_CMD_DEV_DISCOVER : Z := 0x31.
Definition UDP_SCAN_RESPONSE_TIME : nat := 5.
Definition UDP_SERVER_BUFFER_SIZE : Z := 2048.
Definition USER_RESET_BUTTON_PRESS : Z := 0.
Definition USER_RESET_PRESS_TIMEOUT : nat := 7.
Definition RESET_INIT_MAGIC : Z := 0x12345678.

(** What can happen while the agent sleeps: the callback, or new parameters from the MAC. *)
Inductive happening := Evt (e : SYS_EVT_ID) | MacConfig (w : WIFI_CFG).

(** What the agent does with its UDP sockets: one is opened, made a broadcast socket, sent on,
    closed.  The socket of the receive loop is [None]. *)
Inductive net_act :=
  | Opened (sock : Z) | OptSet (sock : Z) | Sent (sock : option Z) (data : list Z) | Closed (sock : Z).

Section agent.
Context {M : Type} `{FlashChip M}.

(** The globals of the files, the flash chip, whether the heap has a free sector buffer, and
    the two lists of the environment; [sent] and [open_socks] are what the agent has done. *)
(* @ App/NuAgent/Wifi/wifi_conn.c:3-9 Agent_config_data *)
Record agent := AgentState {
  a_sys : sys; Agent_config_data : Agent_config_t; a_flash : M; heap_ok : bool;
  status : Z; onboarding : Z; DirectCfgFlag : Z; wifi_sta_connect_ap_flag : Z;
  link_status : SYS_EVT_ID; system_reset_flag : Z; UDPServerRecv_data : list Z;
  future : list (list happening); calls : list Z; sent : list net_act; open_socks : Z }.

Inductive run (A : Type) :=
  | Ret (x : A) (a : agent) | Waiting (a : agent) | ChipReset (a : agent) | Fault.
#[global] Arguments Ret {A}. #[global] Arguments Waiting {A}.
#[global] Arguments ChipReset {A}. #[global] Arguments Fault {A}.
Definition ag (A : Type) : Type := agent → run A.
#[export] Instance ag_ret : MRet ag := λ A x a, Ret x a.
#[export] Instance ag_bind : MBind ag := λ A B f m a,
  match m a with
  | Ret x a => f x a | Waiting a => Waiting a | ChipReset a => ChipReset a | Fault => Fault
  end.
Definition gets {A} (f : agent → A) : ag A := λ a, Ret (f a) a.
Definition modify (f : agent → agent) : ag unit := λ a, Ret tt (f a).
Definition stop : ag unit := ChipReset.
(** A call of the configuration interface. *)
Definition inf (f : sys → option (sys * Z)) : ag Z := λ a,
  match f (a_sys a) with
  | Some (s, r) => Ret r (AgentState s (Agent_config_data a) (a_flash a) (heap_ok a) (status a) (onboarding a)
      (DirectCfgFlag a) (wifi_sta_connect_ap_flag a) (link_status a) (system_reset_flag a)
      (UDPServerRecv_data a) (future a) (calls a) (sent a) (open_socks a))
  | None => Fault
  end.
(** A value computed from memory that may lie outside an object. *)
Definition load {A} (o : option A) : ag A := λ a, match o with Some x => Ret x a | None => Fault end.

Definition set_sys v a := AgentState v (Agent_config_data a) (a_flash a) (heap_ok a) (status a) (onboarding a)
  (DirectCfgFlag a) (wifi_sta_connect_ap_flag a) (link_status a) (system_reset_flag a) (UDPServerRecv_data a)
  (future a) (calls a) (sent a) (open_socks a).
Definition set_store c m a := AgentState (a_sys a) c m (heap_ok a) (status a) (onboarding a)
  (DirectCfgFlag a) (wifi_sta_connect_ap_flag a) (link_status a) (system_reset_flag a) (UDPServerRecv_data a)
  (future a) (calls a) (sent a) (open_socks a).
Definition set_status v w a := AgentState (a_sys a) (Agent_config_data a) (a_flash a) (heap_ok a) v w
  (DirectCfgFlag a) (wifi_sta_connect_ap_flag a) (link_status a) (system_reset_flag a) (UDPServerRecv_data a)
  (future a) (calls a) (sent a) (open_socks a).
Definition set_flags d c l a := AgentState (a_sys a) (Agent_config_data a) (a_flash a) (heap_ok a) (status a) (onboarding a)
  d c l (system_reset_flag a) (UDPServerRecv_data a) (future a) (calls a) (sent a) (open_socks a).
Definition set_reset_flag v a := AgentState (a_sys a) (Agent_config_data a) (a_flash a) (heap_ok a) (status a) (onboarding a)
  (DirectCfgFlag a) (wifi_sta_connect_ap_flag a) (link_status a) v (UDPServerRecv_data a)
  (future a) (calls a) (sent a) (open_socks a).
Definition set_udpbuf v a := AgentState (a_sys a) (Agent_config_data a) (a_flash a) (heap_ok a) (status a) (onboarding a)
  (DirectCfgFlag a) (wifi_sta_connect_ap_flag a) (link_status a) (system_reset_flag a) v
  (future a) (calls a) (sent a) (open_socks a).
Definition set_future v a := AgentState (a_sys a) (Agent_config_data a) (a_flash a) (heap_ok a) (status a) (onboarding a)
  (DirectCfgFlag a) (wifi_sta_connect_ap_flag a) (link_status a) (system_reset_flag a) (UDPServerRecv_data a)
  v (calls a) (sent a) (open_socks a).
Definition set_net c s o a := AgentState (a_sys a) (Agent_config_data a) (a_flash a) (heap_ok a) (status a) (onboarding a)
  (DirectCfgFlag a) (wifi_sta_connect_ap_flag a) (link_status a) (system_reset_flag a) (UDPServerRecv_data a)
  (future a) c s o.

(** ** Events and sleeping *)

(* @ App/NuAgent/Wifi/wifi_conn.c:11-52 AppEvtCallBack *)
Definition AppEvtCallBack (event : SYS_EVT_ID) : ag unit :=
  _ ← (match event with
       | SYS_EVT_LINK_UP => modify (λ a, set_flags 1 1 (link_status a) a)
       | SYS_EVT_JOIN_FAIL =>
           _ ← modify (λ a, set_flags (DirectCfgFlag a) 0 (link_status a) a);
           st ← gets status;
           (if st =? SYS_STATUS_WIFI_SOFTAP then stop else mret tt)
       | SYS_EVT_DIRECT_CFG_DONE => modify (λ a, set_flags 1 (wifi_sta_connect_ap_flag a) (link_status a) a)
       | SYS_EVT_LINK_DOWN | SYS_EVT_DHCP_FAIL | SYS_EVT_SCAN_DONE => mret tt
       end);
  modify (λ a, set_flags (DirectCfgFlag a) (wifi_sta_connect_ap_flag a) event a).
(** The system task calls the callback only if there is one. *)
Definition happen (h : happening) : ag unit :=
  match h with
  | Evt e => cb ← gets (λ a, SysEvtCB (a_sys a)); (if cb =? 0 then mret tt else AppEvtCallBack e)
  | MacConfig w => modify (λ a, set_sys (with_wifi (λ _, w) (a_sys a)) a)
  end.
Fixpoint happen_all (hs : list happening) : ag unit :=
  match hs with [] => mret tt | h :: hs => _ ← happen h; happen_all hs end.
Definition OSTimeDly : ag unit := λ a,
  match future a with [] => Waiting a | hs :: f => happen_all hs (set_future f a) end.
(** [while (busy) OSTimeDly(n);] *)
Fixpoint sleep_while (busy : agent → bool) (fut : list (list happening)) (a : agent) : run unit :=
  if busy a then
    match fut with
    | [] => Waiting a
    | hs :: fut => (_ ← happen_all hs; sleep_while busy fut) (set_future fut a)
    end
  else Ret tt a.
Definition poll (busy : agent → bool) : ag unit := λ a, sleep_while busy (future a) a.

(** ** Joining a network *)

(* @ App/NuAgent/Wifi/wifi_conn.c:58-71 DRV_WiFi_SoftAPModeStart *)
Definition DRV_WiFi_SoftAPModeStart : ag unit :=
  _ ← inf (λ s, Some (InfWiFiStop s));
  _ ← OSTimeDly;
  _ ← modify (λ a, set_sys (InfLoadDefaultParam (a_sys a)) a);
  _ ← inf (λ s, Some (InfNetModeSet PARAM_NET_MODE_SOFTAP s));
  _ ← inf (λ s, Some (InfWiFiStart s));
  mret tt.

(** The lengths are converted to the [UINT8] of the interface. *)
(* @ App/NuAgent/Wifi/wifi_conn.c:79-121 DRV_WiFi_StaModeConnStart *)
Definition DRV_WiFi_StaModeConnStart (StaSsid StaPass : option (list Z)) (flag : Z) : ag Z :=
  _ ← inf (λ s, Some (InfWiFiStop s));
  _ ← OSTimeDly;
  _ ← (if flag =? 1 then
         _ ← modify (λ a, set_sys (InfLoadDefaultParam (a_sys a)) a);
         _ ← inf (λ s, Some (InfIpSet (Some (IpCfg [0;0;0;0] [0;0;0;0] [0;0;0;0] [0;0;0;0] 1 0)) s));
         _ ← inf (λ s, Some (InfConTryTimesSet 5 s));
         _ ← inf (λ s, Some (InfNetModeSet PARAM_NET_MODE_STA_BSS s));
         _ ← inf (λ s, Some (InfEncModeSet PARAM_ENC_MODE_AUTO s));
         ssid ← load StaSsid; n ← load (strlen ssid);
         _ ← inf (InfSsidSet (Some ssid) (u8 n));
         pass ← load StaPass; n ← load (strlen pass);
         _ ← inf (InfKeySet 0 (Some pass) (u8 n));
         mret tt
       else
         _ ← inf (λ s, Some (InfNetModeSet PARAM_NET_MODE_STA_BSS s));
         _ ← inf (λ s, Some (InfConTryTimesSet 5 s));
         mret tt);
  _ ← inf (λ s, Some (InfWiFiStart s));
  _ ← OSTimeDly;
  _ ← modify (λ a, set_flags (DirectCfgFlag a) 2 (link_status a) a);
  _ ← poll (λ a, wifi_sta_connect_ap_flag a =? 2);
  c ← gets wifi_sta_connect_ap_flag;
  mret (if c =? 1 then 0 else -1).

(** ** Telling the phone *)

(** The next socket call's result; [s] is what the call does to the log, [o] to the number of
    open sockets. *)
Definition net_call (s : Z → list net_act) (o : Z → Z) : ag Z := λ a,
  match calls a with [] => Waiting a | r :: c => Ret r (set_net c (sent a ++ s r) (o r + open_socks a) a) end.
Definition sock_socket : ag Z :=
  net_call (λ r, if r =? -1 then [] else [Opened r]) (λ r, if r =? -1 then 0 else 1).
Definition sock_setsockopt (sock : Z) : ag Z := net_call (λ _, [OptSet sock]) (λ _, 0).
Definition sock_sendto (sock : option Z) (data : list Z) : ag Z := net_call (λ _, [Sent sock data]) (λ _, 0).
Definition sock_close (sock : Z) : ag unit :=
  modify (λ a, set_net (calls a) (sent a ++ [Closed sock]) (open_socks a - 1) a).

(* @ App/NuAgent/Wifi/wifi_conn.c:136-139 RespondConnBroadcast *)
Definition conn_sendbuf : list Z := <[10%nat := 1]> (<[8%nat := 6]> (<[0%nat := 0x18]> (replicate 24 0))).
(** The loop of one socket: [true] when it has to be opened again.  At most 20 datagrams
    are followed by another and at most 5 sends may fail. *)
(* @ App/NuAgent/Wifi/wifi_conn.c:164-207 RespondConnBroadcast *)
Fixpoint respond_loop (fuel : nat) (udp_sock count trycount : Z) : ag bool :=
  match fuel with
  | O => λ _, Fault
  | S fuel =>
      ret ← sock_sendto (Some udp_sock) conn_sendbuf;
      if ret <? 0 then
        let trycount := trycount + 1 in
        _ ← OSTimeDly;
        if 5 <? trycount then _ ← sock_close udp_sock; mret true else respond_loop fuel udp_sock count trycount
      else if count <? 20 then _ ← OSTimeDly; respond_loop fuel udp_sock (count + 1) trycount
      else _ ← sock_close udp_sock; mret false
  end.
(** From the label [AGAIN]. *)
(* @ App/NuAgent/Wifi/wifi_conn.c:141-179 RespondConnBroadcast *)
Fixpoint respond_again (fuel : nat) (conncount : Z) : ag unit :=
  match fuel with
  | O => λ _, Fault
  | S fuel =>
      udp_sock ← sock_socket;
      if udp_sock =? -1 then mret tt else
      r ← sock_setsockopt udp_sock;
      if r =? -1 then sock_close udp_sock else
      again ← respond_loop 26 udp_sock 0 0;
      if (again : bool) then
        let conncount := conncount + 1 in
        if 3 <? conncount then mret tt else respond_again fuel conncount
      else mret tt
  end.
(* @ App/NuAgent/Wifi/wifi_conn.c:123-139 RespondConnBroadcast *)
Definition RespondConnBroadcast : ag unit := respond_again 4 0.

(** Store the names in the configuration and the configuration in flash. *)
(* @ App/NuAgent/System/nuagent_drv.c:167-176 Agent_SaveSSIDAndKey *)
Definition save_ssid_and_key (ssid key : list Z) : ag unit := λ a,
  match Agent_SaveSSIDAndKey (heap_ok a) ssid key (Agent_config_data a) (a_flash a) with
  | Some (c, m) => Ret tt (set_store c m a)
  | None => Fault
  end.

(** [memset(s, 0, strlen(s))] on a field of the structure. *)
Definition clear_str (b : list Z) : option (list Z) := n ← strlen b; memcpy_to 0 (replicate (Z.to_nat n) 0) b.
(* @ App/NuAgent/Wifi/wifi_conn.c:212-273 StartDirectConfigConn *)
Definition StartDirectConfigConn : ag Z :=
  w ← gets (λ a, WiFiCfg (SysParam (a_sys a)));
  ssid ← load (clear_str (Ssid w));
  psk ← load (clear_str (PSK w));
  _ ← modify (λ a, set_sys (with_wifi (λ w, set_Key (KeyIndex w) (KeyLength w) psk (set_Ssid ssid w)) (a_sys a)) a);
  _ ← modify (λ a, set_flags 0 (wifi_sta_connect_ap_flag a) (link_status a) a);
  _ ← inf (λ s, Some (InfDirectCfgStart 0 0 0 s));
  _ ← poll (λ a, negb (DirectCfgFlag a =? 1));
  _ ← modify (λ a, set_flags 0 (wifi_sta_connect_ap_flag a) (link_status a) a);
  _ ← inf (λ s, Some (InfWiFiStop s));
  ret ← DRV_WiFi_StaModeConnStart None None 0;
  if negb (ret =? 0) then mret (-1) else
  w ← gets (λ a, WiFiCfg (SysParam (a_sys a)));
  _ ← save_ssid_and_key (Ssid w) (PSK w);
  _ ← RespondConnBroadcast;
  mret 0.

(** ** Start-up *)

(* @ App/NuAgent/System/agent_core.c:106-118 Agent_reset_init *)
Definition Agent_reset_init : ag unit := modify (set_reset_flag RESET_INIT_MAGIC).
(** The pointers passed to the join are into the configuration: the bytes from the field to
    the end of the structure. *)
Definition ssid_ptr (c : Agent_config_t) : list Z := drop 24 (agent_bytes c).
Definition key_ptr (c : Agent_config_t) : list Z := drop 56 (agent_bytes c).
Definition softap_mode : ag unit :=
  _ ← DRV_WiFi_SoftAPModeStart; modify (λ a, set_status SYS_STATUS_WIFI_SOFTAP (onboarding a) a).
(** The last connection, or an access point. *)
(* @ App/NuAgent/Wifi/wifi_conn.c:319-348 Agent_network_init *)
Definition network_from_flash : ag unit :=
  _ ← Agent_reset_init;
  _ ← modify (λ a, set_store (nl6621_GetConfigData (a_flash a)) (a_flash a) a);
  c ← gets Agent_config_data;
  if flag c =? XPG_CFG_FLAG_CONNECTED then
    _ ← modify (λ a, set_status SYS_STATUS_WIFI_DIRECTCONFING (onboarding a) a);
    ret ← DRV_WiFi_StaModeConnStart (Some (ssid_ptr c)) (Some (key_ptr c)) 1;
    if negb (ret =? 0) then softap_mode
    else modify (λ a, set_status SYS_STATUS_WIFI_STA_CONNECTED (onboarding a) a)
  else softap_mode.
(** [gpio1] and [gpio2] are the two readings of the button. *)
(* @ App/NuAgent/Wifi/wifi_conn.c:284-318 Agent_network_init *)
Definition Agent_network_init (gpio1 gpio2 : Z) : ag unit :=
  if gpio1 =? 0 then
    _ ← OSTimeDly;
    if gpio2 =? 0 then
      _ ← modify (λ a, set_status SYS_STATUS_WIFI_DIRECTCONFING (onboarding a) a);
      ret ← StartDirectConfigConn;
      if ret =? 0 then
        _ ← modify (λ a, set_status SYS_STATUS_WIFI_STA_CONNECTED (onboarding a) a);
        Agent_reset_init
      else network_from_flash
    else network_from_flash
  else network_from_flash.
(** [cb] is the address of [AppEvtCallBack]. *)
(* @ App/NuAgent/Wifi/wifi_conn.c:354-358 Agent_wifi_init *)
Definition Agent_wifi_init (cb : Z) : ag unit :=
  _ ← inf (λ s, Some (InfSysEvtCBSet cb s));
  modify (λ a, set_sys (InfLoadDefaultParam (a_sys a)) a).
(* @ App/NuAgent/System/agent_core.c:160-166 Agent_Init *)
Definition Agent_Init (cb gpio1 gpio2 : Z) : ag unit :=
  _ ← Agent_wifi_init cb; Agent_network_init gpio1 gpio2.

(** The memory after a reset: the flash chip and the MAC address outlive it, the globals are
    zero, [par] is what [SysParam] holds before it is loaded. *)
Definition boot (par : CFG_PARAM) (mac : list Z) (m : M) (buf : list Z) (fut : list (list happening)) (cs : list Z) : agent :=
  AgentState (Sys par mac 0 []) (AgentConfig 0 0 (replicate 16 0) (replicate 32 0) (replicate 32 0)) m true
    0 0 0 0 SYS_EVT_LINK_DOWN 0 buf fut cs [] 0.

(** ** Commands from the local network *)

(** [data] is the receive buffer from the command's arguments on; its length is never used. *)
(* @ App/NuAgent/User/lan.c:38-71 lan_softap_config *)
Definition lan_softap_config (data : list Z) : ag unit :=
  ssid_len ← load (data !! 0%nat);
  if (32 <? ssid_len) || (ssid_len <=? 0) then mret tt else
  xs ← load (memcpy_from 1 ssid_len data);
  ssid ← load (memcpy_to 0 xs (replicate 33 0));
  passwdlen ← load (data !! Z.to_nat (ssid_len + 1));
  if 64 <? passwdlen then mret tt else
  xs ← load (memcpy_from (1 + ssid_len + 1) passwdlen data);
  passwd ← load (memcpy_to 0 xs (replicate 65 0));
  _ ← modify (λ a, set_status (status a) SYS_STATUS_ONBOARDING a);
  ret ← DRV_WiFi_StaModeConnStart (Some ssid) (Some passwd) 1;
  if ret =? 0 then
    _ ← modify (λ a, set_status (status a) SYS_STATUS_ONBOARDING_SUCCESS a);
    _ ← save_ssid_and_key ssid passwd;
    _ ← RespondConnBroadcast;
    stop
  else mret tt.

Definition ascii_ok : list Z := [111; 107].
Fixpoint discover_loop (n : nat) : ag unit :=
  _ ← sock_sendto None ascii_ok;
  match n with O => mret tt | S n => _ ← OSTimeDly; discover_loop n end.
(* @ App/NuAgent/User/lan.c:73-87 lan_device_discover_response *)
Definition lan_device_discover_response : ag unit := discover_loop UDP_SCAN_RESPONSE_TIME.

(** The head is four 16-bit fields, the command the second. *)
(* @ App/NuAgent/User/lan.c:91-125 Socket_DispatchUDPData *)
Definition Socket_DispatchUDPData (recv_data : list Z) : ag unit :=
  head ← load (memcpy_from 0 8 recv_data);
  let cmd := of_le16 (byte_at head 2) (byte_at head 3) in
  if cmd =? LAN_NETDATA_CMD_SOFTAP_CONFIG then lan_softap_config (drop 8 recv_data)
  else if cmd =? LAN_NETDATA_CMD_DEV_DISCOVER then lan_device_discover_response
  else mret tt.

(** The receive loop over the datagrams that come; an empty list is a failed receive, and
    what a datagram does not fill of the buffer is left from earlier ones. *)
(* @ App/NuAgent/System/network_adapter.c:383-397 Socket_UDPServerRecvData *)
Fixpoint Socket_UDPServerRecvData (dgrams : list (list Z)) : ag unit :=
  match dgrams with
  | [] => mret tt
  | d :: dgrams =>
      let d := take (Z.to_nat UDP_SERVER_BUFFER_SIZE) d in
      _ ← (if Z.of_nat (length d) <=? 0 then mret tt else
           buf ← gets UDPServerRecv_data;
           buf ← load (memcpy_to 0 d buf);
           _ ← modify (set_udpbuf buf);
           Socket_DispatchUDPData buf);
      Socket_UDPServerRecvData dgrams
  end.

(** ** The reset button *)

(** One round of the thread: the first reading of the button and those of the next
    half-seconds.  The copy that is stored has no names and a clear flag. *)
(* @ App/NuAgent/System/agent_core.c:133-139 SysResetThread *)
Fixpoint button_held (n : nat) (gpio : list Z) : ag bool :=
  match n with
  | O => mret true
  | S n =>
      _ ← OSTimeDly;
      if hd 1 gpio =? USER_RESET_BUTTON_PRESS then button_held n (tl gpio) else mret false
  end.
(* @ App/NuAgent/System/agent_core.c:129-156 SysResetThread *)
Definition SysResetThread_round (gpio : list Z) : ag unit :=
  rf ← gets system_reset_flag;
  _ ← (if (rf =? RESET_INIT_MAGIC) && (hd 1 gpio =? USER_RESET_BUTTON_PRESS) then
         held ← button_held USER_RESET_PRESS_TIMEOUT (tl gpio);
         if (held : bool) then
           _ ← (λ a, let c := Agent_config_data a in
                 match nl6621_SaveConfigData (heap_ok a)
                   (AgentConfig (magicNumber c) 0 (wifipasscode c) (replicate 32 0) (replicate 32 0)) (a_flash a) with
                 | Some m => Ret tt (set_store c m a)
                 | None => Fault
                 end);
           _ ← OSTimeDly;
           stop
         else mret tt
       else mret tt);
  OSTimeDly.
End agent.
Arguments agent : clear implicits.
Arguments run : clear implicits.
Arguments ag : clear implicits.

Section proofs.
Context {M : Type} `{FlashChipOk M}.
Implicit Types a : agent M.

Lemma ag_bind_Ret {A B} (m : ag M A) (f : A → ag M B) a x a' : m a = Ret x a' → mbind f m a = f x a'.
Proof. unfold mbind, ag_bind. by intros ->. Qed.
Lemma ag_bind_Waiting {A B} (m : ag M A) (f : A → ag M B) a a' : m a = Waiting a' → mbind f m a = Waiting a'.
Proof. unfold mbind, ag_bind. by intros ->. Qed.
Lemma set_future_set_future f g a : set_future f (set_future g a) = set_future f a.
Proof. by destruct a. Qed.
Lemma a_sys_set_status v w a : a_sys (set_status v w a) = a_sys a.
Proof. done. Qed.
Lemma set_future_id a : set_future (future a) a = a.
Proof. by destruct a. Qed.

(** A sleep in which nothing happens. *)
Lemma sleep_quiet f a : future a = [] :: f → OSTimeDly a = Ret tt (set_future f a).
Proof. unfold OSTimeDly. by intros ->. Qed.
(** Quiet sleeps do not end a wait; it goes on with what comes next. *)
Lemma sleep_while_quiet busy k fut a : (∀ f, busy (set_future f a) = true) →
  sleep_while busy (replicate k [] ++ fut) (set_future (replicate k [] ++ fut) a) =
  sleep_while busy fut (set_future fut a).
Proof.
  intros Hb. induction k as [|k IH]; [done|]. cbn [replicate app sleep_while]. rewrite Hb.
  cbn [happen_all]. unfold mbind, ag_bind, mret, ag_ret. rewrite set_future_set_future. exact IH.
Qed.
(** The wait of a join that comes up, and of one that fails outside access-point mode. *)
Definition joining (a : agent M) : bool := wifi_sta_connect_ap_flag a =? 2.
Lemma poll_link_up k fut a : wifi_sta_connect_ap_flag a = 2 → SysEvtCB (a_sys a) ≠ 0 →
  future a = replicate k [] ++ [Evt SYS_EVT_LINK_UP] :: fut →
  poll joining a = Ret tt (set_flags 1 1 SYS_EVT_LINK_UP (set_future fut a)).
Proof.
  intros Hw Hcb Hf. unfold poll.
  transitivity (sleep_while joining (future a) (set_future (future a) a)); [by rewrite set_future_id|].
  rewrite Hf, sleep_while_quiet by (intros; unfold joining; cbn; by rewrite Hw).
  destruct a; cbn in *. subst. unfold joining at 1. cbn.
  unfold mbind, ag_bind, mret, ag_ret, gets. cbn. rewrite (proj2 (Z.eqb_neq _ _) Hcb). by destruct fut.
Qed.

(** ** The parameters of a join *)

Definition put_ssid (ssid : list Z) : sys → sys :=
  with_wifi (λ w, set_Ssid (store_at (length ssid) [0] (store_at 0 ssid (Ssid w))) w).
Definition put_key (key : list Z) : sys → sys :=
  with_wifi (λ w, set_Key 0 (Z.of_nat (length key)) (let b := store_at 0 key (PSK w) in
    if (length key <? 64)%nat then store_at (length key) [0] b else b) w).
Definition sta_base (s : sys) : sys :=
  let s := InfLoadDefaultParam s in
  let s := with_ip (IpCfg [0;0;0;0] [0;0;0;0] [0;0;0;0] [0;0;0;0] 1 0) s in
  with_wifi (set_Encry PARAM_ENC_MODE_AUTO) (with_wifi (set_Protocol PARAM_NET_MODE_STA_BSS)
    (with_wifi (set_ConTryTimes 5) s)).
Definition sta_params (ssid key : list Z) (s : sys) : sys := put_key key (put_ssid ssid (sta_base s)).

Lemma sta_params_SysParam ssid key s s' : PermanentAddress s = PermanentAddress s' →
  SysParam (sta_params ssid key s) = SysParam (sta_params ssid key s').
Proof. intros E. unfold sta_params, put_key, put_ssid, sta_base, InfLoadDefaultParam. cbn. by rewrite E. Qed.
Lemma length_default_ssid s : length (Ssid (WiFiCfg (SysParam (sta_base s)))) = 33%nat.
Proof. done. Qed.

Lemma take_holds p str : holds p str → slice 0 (length str) p = str.
Proof. intros [_ [r ->]]. unfold slice. by rewrite drop_0, take_app_length. Qed.
Lemma holds_length p str : holds p str → (length str < length p)%nat.
Proof. intros [_ [r ->]]. rewrite length_app. cbn. lia. Qed.
Lemma InfSsidSet_put p ssid s : holds p ssid → (0 < length ssid <= 32)%nat →
  InfSsidSet (Some p) (Z.of_nat (length ssid)) (sta_base s) = Some (put_ssid ssid (sta_base s), 0).
Proof.
  intros Hp Hl. pose proof (holds_length _ _ Hp). pose proof (length_default_ssid s) as Hd. unfold InfSsidSet.
  rewrite (proj2 (Z.ltb_ge 32 _)), (proj2 (Z.eqb_neq _ 0)) by lia. cbn [orb].
  rewrite memcpy_from_Some by lia. cbn [mbind option_bind]. rewrite Nat2Z.id, take_holds by done.
  rewrite memcpy_to_Some by lia. cbn [mbind option_bind].
  rewrite memcpy_to_Some by (rewrite ?length_store_at; cbn [length]; lia). cbn [mbind option_bind]. by rewrite Nat2Z.id.
Qed.
Lemma InfKeySet_put q key s : holds q key → (length key <= 64)%nat → length (PSK (WiFiCfg (SysParam s))) = 64%nat →
  InfKeySet 0 (Some q) (Z.of_nat (length key)) s = Some (put_key key s, 0).
Proof.
  intros Hq Hl Hd. pose proof (holds_length _ _ Hq). unfold InfKeySet.
  rewrite (proj2 (Z.ltb_ge 3 0)), (proj2 (Z.ltb_ge 64 _)) by lia. cbn [orb].
  rewrite memcpy_from_Some by lia. cbn [mbind option_bind]. rewrite Nat2Z.id, take_holds by done.
  rewrite memcpy_to_Some by lia. cbn [mbind option_bind]. unfold put_key.
  destruct (Z.ltb_spec (Z.of_nat (length key)) 64), (Nat.ltb_spec (length key) 64); try lia; cbn [mbind option_bind]; [|done].
  rewrite memcpy_to_Some by (rewrite ?length_store_at; cbn [length]; lia). cbn [mbind option_bind]. by rewrite Nat2Z.id.
Qed.

(** ** Running an operation *)

Lemma bind_assoc {A B C} (m : ag M A) (f : A → ag M B) (g : B → ag M C) a :
  mbind g (mbind f m) a = mbind (λ x, mbind g (f x)) m a.
Proof. unfold mbind, ag_bind. by destruct (m a). Qed.
Lemma bind_congr {A B} (m m' : ag M A) (k : A → ag M B) a a' : m a = m' a' → mbind k m a = mbind k m' a'.
Proof. unfold mbind, ag_bind. by intros ->. Qed.
Lemma bind_mret {A B} (x : A) (k : A → ag M B) a : mbind k (mret x) a = k x a.
Proof. done. Qed.
Lemma bind_modify {B} f (k : unit → ag M B) a : mbind k (modify f) a = k tt (f a).
Proof. done. Qed.
Lemma bind_gets {A B} (f : agent M → A) (k : A → ag M B) a : mbind k (gets f) a = k (f a) a.
Proof. done. Qed.
Lemma bind_load {A B} (o : option A) (k : A → ag M B) a x : o = Some x → mbind k (load o) a = k x a.
Proof. by intros ->. Qed.
Lemma bind_sleep {B} f (k : unit → ag M B) a : future a = [] :: f → mbind k OSTimeDly a = k tt (set_future f a).
Proof. intros Hf. exact (ag_bind_Ret _ _ _ _ _ (sleep_quiet f a Hf)). Qed.
Lemma bind_inf {B} f (k : Z → ag M B) a s r : f (a_sys a) = Some (s, r) → mbind k (inf f) a = k r (set_sys s a).
Proof. unfold mbind, ag_bind, inf. by intros ->. Qed.
Ltac ag_step := first [rewrite bind_assoc | rewrite bind_mret | rewrite bind_modify | rewrite bind_gets
  | erewrite bind_load by (reflexivity || eassumption) | erewrite bind_sleep by (reflexivity || eassumption)
  | erewrite bind_inf by (cbn; reflexivity)].

Ltac ag_cbn := cbv beta iota delta [a_sys Agent_config_data a_flash heap_ok status onboarding DirectCfgFlag wifi_sta_connect_ap_flag
  link_status system_reset_flag UDPServerRecv_data future calls sent open_socks set_sys set_store set_status set_flags
  set_reset_flag set_udpbuf set_future set_net].

(** The state in which the wait of a join starts, with the parameters in [s]. *)
Definition waiting_join (s : sys) (f : list (list happening)) a : agent M :=
  set_flags (DirectCfgFlag a) 2 (link_status a) (set_future f (set_sys (post MLME_START_ID [] s) a)).
Definition join_started (ssid key : list Z) (f : list (list happening)) a : agent M :=
  waiting_join (sta_params ssid key (post MLME_STOP_ID [] (a_sys a))) f a.
Definition join_result : ag M Z :=
  _ ← poll joining; c ← gets wifi_sta_connect_ap_flag; mret (if c =? 1 then 0 else -1).

(** [s1] is what the call that sets the name leaves, [n] the length it is given.  Up to the
    second sleep: *)
Definition after_start : ag M Z :=
  _ ← OSTimeDly; _ ← modify (λ a, set_flags (DirectCfgFlag a) 2 (link_status a) a); join_result.
Lemma sta_until_start p q n r s1 key f a : future a = [] :: f → strlen p = Some n → is_byte n →
  InfSsidSet (Some p) n (sta_base (post MLME_STOP_ID [] (a_sys a))) = Some (s1, r) →
  holds q key → (length key <= 64)%nat → length (PSK (WiFiCfg (SysParam s1))) = 64%nat →
  DRV_WiFi_StaModeConnStart (Some p) (Some q) 1 a =
    after_start (set_future f (set_sys (post MLME_START_ID [] (put_key key s1)) a)).
Proof.
  intros Hf Hp Hn Hs Hq Hk Hl. destruct a. cbn [future] in Hf. subst. unfold DRV_WiFi_StaModeConnStart.
  do 2 ag_step. rewrite Z.eqb_refl. do 6 (rewrite ?bind_assoc; ag_step; ag_cbn).
  rewrite bind_assoc, (bind_load _ _ _ _ Hp), (u8_small n) by done.
  rewrite bind_assoc. erewrite bind_inf by exact Hs. rewrite bind_assoc. ag_step. ag_cbn.
  rewrite bind_assoc, (bind_load _ _ _ _ (strlen_holds _ _ Hq)), (u8_small (Z.of_nat _)) by (unfold is_byte; lia).
  rewrite bind_assoc. erewrite bind_inf by (apply InfKeySet_put; done). ag_cbn.
  do 2 (ag_step; ag_cbn). reflexivity.
Qed.
(** A key without a terminator is measured past the end of its object. *)
Lemma sta_overrun p q n r s1 f a : future a = [] :: f → strlen p = Some n → is_byte n →
  InfSsidSet (Some p) n (sta_base (post MLME_STOP_ID [] (a_sys a))) = Some (s1, r) → strlen q = None →
  DRV_WiFi_StaModeConnStart (Some p) (Some q) 1 a = Fault.
Proof.
  intros Hf Hp Hn Hs Hq. destruct a. cbn [future] in Hf. subst. unfold DRV_WiFi_StaModeConnStart.
  do 2 ag_step. rewrite Z.eqb_refl. do 6 (rewrite ?bind_assoc; ag_step; ag_cbn).
  rewrite bind_assoc, (bind_load _ _ _ _ Hp), (u8_small n) by done.
  rewrite bind_assoc. erewrite bind_inf by exact Hs. rewrite bind_assoc. ag_step. ag_cbn.
  unfold load. rewrite Hq. reflexivity.
Qed.
Lemma sta_start_any p q n r s1 key f a : future a = [] :: [] :: f → strlen p = Some n → is_byte n →
  InfSsidSet (Some p) n (sta_base (post MLME_STOP_ID [] (a_sys a))) = Some (s1, r) →
  holds q key → (length key <= 64)%nat → length (PSK (WiFiCfg (SysParam s1))) = 64%nat →
  DRV_WiFi_StaModeConnStart (Some p) (Some q) 1 a = join_result (waiting_join (put_key key s1) f a).
Proof.
  intros Hf Hp Hn Hs Hq Hk Hl. rewrite (sta_until_start p q n r s1 key ([] :: f)) by done.
  unfold after_start. rewrite (bind_sleep f), bind_modify by done. by destruct a.
Qed.
Lemma sta_start p q ssid key f a : future a = [] :: [] :: f → holds p ssid → holds q key →
  (0 < length ssid <= 32)%nat → (length key <= 64)%nat →
  DRV_WiFi_StaModeConnStart (Some p) (Some q) 1 a = join_result (join_started ssid key f a).
Proof.
  intros Hf Hp Hq Hs Hk. apply (sta_start_any p q (Z.of_nat (length ssid)) 0); try done.
  - by apply strlen_holds.
  - unfold is_byte. lia.
  - by apply InfSsidSet_put.
Qed.

(** ** Telling the phone *)

(** [a] after [n] sleeps and [k] socket calls that did [tr], with [o] sockets open. *)
Definition spent a (n k : nat) (tr : list net_act) (o : Z) : agent M :=
  set_net (drop k (calls a)) (sent a ++ tr) o (set_future (drop n (future a)) a).
Definition ready (n k : nat) a : Prop := take n (future a) = replicate n [] ∧ (k <= length (calls a))%nat.

Lemma spent_spent a n k tr o n' k' tr' o' :
  spent (spent a n k tr o) n' k' tr' o' = spent a (n + n') (k + k') (tr ++ tr') o'.
Proof. destruct a. unfold spent. ag_cbn. by rewrite !drop_drop, <- app_assoc. Qed.
Lemma ready_spent n k n' k' tr o a : ready (n + n') (k + k') a → ready n' k' (spent a n k tr o).
Proof.
  intros [Hf Hc]. destruct a. unfold ready, spent in *. cbn in *. split; [|rewrite length_drop; lia].
  rewrite take_drop_commute, Hf, replicate_add.
  by rewrite drop_app_length' by (by rewrite length_replicate).
Qed.
Lemma ready_le n k n' k' a : ready n k a → (n' <= n)%nat → (k' <= k)%nat → ready n' k' a.
Proof.
  intros [Hf Hc] Hn Hk. split; [|lia]. replace n' with (n' `min` n)%nat by lia.
  rewrite <- take_take, Hf. by rewrite take_replicate.
Qed.
Lemma ready_sleep n k a : ready (S n) k a → OSTimeDly a = Ret tt (spent a 1 0 [] (open_socks a)).
Proof.
  intros [Hf _]. destruct a as [? ? ? ? ? ? ? ? ? ? ? [|hs f] c s o]; [done|]. cbn in Hf. injection Hf as -> _.
  unfold OSTimeDly, spent. cbn. by rewrite app_nil_r.
Qed.
Lemma ready_call n k g h a : ready n (S k) a → ∃ r, net_call g h a = Ret r (spent a 0 1 (g r) (h r + open_socks a)).
Proof.
  intros [_ Hc]. destruct a as [? ? ? ? ? ? ? ? ? ? ? f [|r c] s o]; [cbn in Hc; lia|]. by exists r.
Qed.
Lemma close_spent sock a n k tr o : sock_close sock (spent a n k tr o) = Ret tt (spent a n k (tr ++ [Closed sock]) (o - 1)).
Proof. unfold sock_close, modify, spent. destruct a. ag_cbn. by rewrite app_assoc. Qed.

(** [j] datagrams to the phone on one socket, and the whole life of that socket. *)
Definition told (sock : Z) (j : nat) : list net_act := replicate j (Sent (Some sock) conn_sendbuf).
Definition socket_life (sock : Z) (j : nat) : list net_act := Opened sock :: OptSet sock :: told sock j ++ [Closed sock].

Lemma respond_loop_spec fuel sock : ∀ count trycount a, 0 <= count <= 20 → 0 <= trycount <= 5 →
  20 - count + (5 - trycount) < Z.of_nat fuel → ready fuel fuel a →
  ∃ again n j, respond_loop fuel sock count trycount a =
      Ret again (spent a n j (told sock j ++ [Closed sock]) (open_socks a - 1)) ∧ (n <= fuel ∧ j <= fuel)%nat.
Proof.
  induction fuel as [|fuel IH]; intros count trycount a Hc Ht Hf Hr; [lia|]. cbn [respond_loop]. unfold sock_sendto.
  destruct (ready_call _ _ (λ _, [Sent (Some sock) conn_sendbuf]) (λ _, 0) _ Hr) as [r Hs]. rewrite (ag_bind_Ret _ _ _ _ _ Hs).
  rewrite Z.add_0_l. set (a1 := spent a 0 1 [Sent (Some sock) conn_sendbuf] (open_socks a)).
  assert (Hr1 : ready (S fuel) fuel a1) by (apply (ready_spent 0 1); by replace (0 + S fuel)%nat with (S fuel) by lia).
  pose proof (ready_sleep _ _ _ Hr1) as Hsl. unfold a1 in Hsl at 2. rewrite spent_spent in Hsl.
  replace (open_socks a1) with (open_socks a) in Hsl by (by destruct a). cbn [Nat.add app] in Hsl.
  set (a2 := spent a 1 1 (told sock 1) (open_socks a)).
  assert (Hr2 : ready fuel fuel a2) by (apply (ready_spent 1 1), (ready_le _ _ _ _ _ Hr); lia).
  assert (Hgo : ∀ c t, 0 <= c <= 20 → 0 <= t <= 5 → 20 - c + (5 - t) < Z.of_nat fuel →
    ∃ again n j, respond_loop fuel sock c t a2 = Ret again (spent a n j (told sock j ++ [Closed sock]) (open_socks a - 1)) ∧
      (n <= S fuel ∧ j <= S fuel)%nat).
  { intros c t H1 H2 H3. destruct (IH c t a2 H1 H2 H3 Hr2) as (again & n & j & Hl & Hb). rewrite Hl. unfold a2.
    exists again, (1 + n)%nat, (1 + j)%nat. rewrite spent_spent. split; [|lia]. by destruct a. }
  destruct (Z.ltb_spec r 0).
  - rewrite (ag_bind_Ret _ _ _ _ _ Hsl). destruct (Z.ltb_spec 5 (trycount + 1)).
    + rewrite (ag_bind_Ret _ _ _ _ _ (close_spent _ _ _ _ _ _)). exists true, 1%nat, 1%nat. split; [done|lia].
    + apply Hgo; lia.
  - destruct (Z.ltb_spec count 20).
    + rewrite (ag_bind_Ret _ _ _ _ _ Hsl). apply Hgo; lia.
    + unfold a1. rewrite (ag_bind_Ret _ _ _ _ _ (close_spent _ _ _ _ _ _)). exists false, 0%nat, 1%nat. split; [done|lia].
Qed.

(** The lives of the sockets, one after the other: their descriptors and datagrams. *)
Definition lives (rounds : list (Z * nat)) : list net_act := concat (map (λ '(s, j), socket_life s j) rounds).
Definition rounds_ok (most : nat) (rounds : list (Z * nat)) : Prop :=
  (length rounds <= most)%nat ∧ Forall (λ '(s, j), (j <= 26)%nat) rounds.

Lemma respond_again_spec fuel : ∀ conncount a, 0 <= conncount <= 3 → 3 - conncount < Z.of_nat fuel →
  ready (26 * fuel) (28 * fuel) a →
  ∃ n k rounds, respond_again fuel conncount a = Ret tt (spent a n k (lives rounds) (open_socks a)) ∧
    (n <= 26 * fuel ∧ k <= 28 * fuel)%nat ∧ rounds_ok fuel rounds.
Proof.
  induction fuel as [|fuel IH]; intros conncount a Hc Hf Hr; [lia|]. cbn [respond_again]. unfold sock_socket.
  destruct (ready_call (26 * S fuel) (28 * fuel + 27) (λ r, if r =? -1 then [] else [Opened r])
    (λ r, if r =? -1 then 0 else 1) a) as [s Hs]; [apply (ready_le _ _ _ _ _ Hr); lia|].
  rewrite (ag_bind_Ret _ _ _ _ _ Hs). destruct (Z.eqb_spec s (-1)) as [Es|Es].
  { exists 0%nat, 1%nat, []. split; [done|]. split; [lia|]. split; [cbn; lia|constructor]. }
  set (a1 := spent a 0 1 [Opened s] (1 + open_socks a)).
  assert (Hr1 : ready (26 * S fuel) (28 * fuel + 27) a1) by (apply (ready_spent 0 1); apply (ready_le _ _ _ _ _ Hr); lia).
  unfold sock_setsockopt. destruct (ready_call (26 * S fuel) (28 * fuel + 26) (λ _, [OptSet s]) (λ _, 0) a1) as [r Hs2];
    [apply (ready_le _ _ _ _ _ Hr1); lia|]. rewrite (ag_bind_Ret _ _ _ _ _ Hs2).
  unfold a1. rewrite spent_spent, Z.add_0_l. replace (open_socks (spent a 0 1 [Opened s] (1 + open_socks a)))
    with (1 + open_socks a) by (by destruct a). cbn [Nat.add app].
  destruct (Z.eqb_spec r (-1)) as [Er|Er].
  { rewrite close_spent. exists 0%nat, 2%nat, [(s, 0%nat)]. replace (1 + open_socks a - 1) with (open_socks a) by lia.
    split; [done|]. split; [lia|]. split; [cbn; lia|repeat constructor; lia]. }
  set (a2 := spent a 0 2 [Opened s; OptSet s] (1 + open_socks a)).
  assert (Hr2 : ready (26 * S fuel) (28 * fuel + 26) a2) by (apply (ready_spent 0 2); apply (ready_le _ _ _ _ _ Hr); lia).
  destruct (respond_loop_spec 26 s 0 0 a2) as (again & n & j & Hl & Hn & Hj); try lia.
  { apply (ready_le _ _ _ _ _ Hr2); lia. }
  rewrite (ag_bind_Ret _ _ _ _ _ Hl). unfold a2. rewrite spent_spent.
  replace (open_socks (spent a 0 2 [Opened s; OptSet s] (1 + open_socks a)) - 1) with (open_socks a) by (destruct a; cbn; lia).
  change ([Opened s; OptSet s] ++ told s j ++ [Closed s]) with (socket_life s j).
  assert (Hone : ∃ n' k' rounds, Ret tt (spent a (0 + n) (2 + j) (socket_life s j) (open_socks a)) =
      Ret tt (spent a n' k' (lives rounds) (open_socks a)) ∧ (n' <= 26 * S fuel ∧ k' <= 28 * S fuel)%nat ∧ rounds_ok (S fuel) rounds).
  { exists (0 + n)%nat, (2 + j)%nat, [(s, j)]. split; [by rewrite <- (app_nil_r (socket_life s j))|].
    split; [lia|]. split; [cbn; lia|constructor; [exact Hj|constructor]]. }
  destruct again; [|exact Hone]. destruct (Z.ltb_spec 3 (conncount + 1)); [exact Hone|]. clear Hone.
  set (a3 := spent a (0 + n) (2 + j) (socket_life s j) (open_socks a)).
  destruct (IH (conncount + 1) a3) as (n' & k' & rounds & Hl' & Hb' & Hlen & Hall); try lia.
  { apply ready_spent. apply (ready_le _ _ _ _ _ Hr); lia. }
  rewrite Hl'. unfold a3. rewrite spent_spent. exists (0 + n + n')%nat, (2 + j + k')%nat, ((s, j) :: rounds).
  split; [by destruct a|]. split; [lia|]. split; [cbn; lia|by constructor].
Qed.

(** C34: [RespondConnBroadcast] returns, whatever the socket calls answer, when no event comes while it
    sleeps (an event could reset the chip).  It opens at most four sockets, one after the other; each is
    made a broadcast socket, gets at most 26 times the same 24 bytes and is closed before the next one
    is opened, so that none stays open; there are at most 104 sleeps and 112 socket calls. *)
Theorem RespondConnBroadcast_terminates a : ready 104 112 a →
  ∃ n k rounds, RespondConnBroadcast a = Ret tt (spent a n k (lives rounds) (open_socks a)) ∧
    (n <= 104 ∧ k <= 112)%nat ∧ rounds_ok 4 rounds.
Proof. intros Hr. apply (respond_again_spec 4 0); [lia|lia|exact Hr]. Qed.

(** ** Onboarding *)

Definition name_ok (l : list Z) : Prop := Forall (λ c, is_byte c ∧ c ≠ 0) l.
Lemma name_ok_nz l : name_ok l → Forall (.≠ 0) l.
Proof. intros Hl. apply (Forall_impl _ _ _ Hl). tauto. Qed.
Lemma name_ok_bytes l : name_ok l → bytes_ok l.
Proof. intros Hl. apply (Forall_impl _ _ _ Hl). tauto. Qed.

(** The local buffer a name is copied to. *)
Definition name_buf (n : nat) (l : list Z) : list Z := store_at 0 l (replicate n 0).
Lemma name_buf_eq n l : name_buf n l = l ++ replicate (n - length l) 0.
Proof. unfold name_buf, store_at. rewrite take_0, drop_replicate. done. Qed.
Lemma name_buf_holds n l : name_ok l → (length l < n)%nat → holds (name_buf n l) l.
Proof.
  intros Hl Hn. split; [by apply name_ok_nz|]. rewrite name_buf_eq.
  destruct (n - length l)%nat as [|j] eqn:E; [lia|]. by exists (replicate j 0).
Qed.
(** What the flash keeps of it: 32 bytes, a string only if the name is shorter. *)
Lemma stored_name n l rest : name_ok l → (length l < 32 < n)%nat → holds (take 32 (name_buf n l) ++ rest) l.
Proof.
  intros Hl Hn. split; [by apply name_ok_nz|]. rewrite name_buf_eq, take_app_ge, take_replicate by lia.
  destruct ((32 - length l) `min` (n - length l))%nat as [|j] eqn:E; [lia|].
  exists (replicate j 0 ++ rest). by rewrite <- !app_assoc.
Qed.
Lemma stored_long_name n l : (32 <= length l)%nat → take 32 (name_buf n l) = take 32 l.
Proof. intros. by rewrite name_buf_eq, take_app_le by lia. Qed.
Lemma name_buf_bytes n l : name_ok l → bytes_ok (name_buf n l).
Proof. intros. apply store_at_bytes; [by apply name_ok_bytes|]. by apply Forall_replicate. Qed.
Lemma length_name_buf n l : (length l <= n)%nat → length (name_buf n l) = n.
Proof. intros. rewrite name_buf_eq, length_app, length_replicate. lia. Qed.

(** The configuration after a save. *)
Definition saved_config (ssid key : list Z) (c : Agent_config_t) : Agent_config_t :=
  AgentConfig (magicNumber c) XPG_CFG_FLAG_CONNECTED (wifipasscode c) (take 32 ssid) (take 32 key).
Lemma save_ok p q a : heap_ok a = true → agent_ok (Agent_config_data a) → bytes_ok p → bytes_ok q →
  (32 <= length p)%nat → (32 <= length q)%nat → ∃ m', nl6621_GetConfigData m' = saved_config p q (Agent_config_data a) ∧
    save_ssid_and_key p q a = Ret tt (set_store (saved_config p q (Agent_config_data a)) m' a).
Proof.
  intros Hh (H1 & H2 & (L1 & _ & _) & H3 & _ & _) Hp Hq Lp Lq. unfold save_ssid_and_key, Agent_SaveSSIDAndKey.
  rewrite !memcpy_from_Some by lia. cbn [mbind option_bind]. unfold slice. rewrite !drop_0. change (Z.to_nat 32) with 32%nat.
  fold (saved_config p q (Agent_config_data a)).
  destruct (SaveConfigData_ok (saved_config p q (Agent_config_data a)) (a_flash a)) as (m' & Hs & _ & Hg).
  { unfold agent_ok, saved_config; cbn [magicNumber flag wifipasscode wifi_ssid wifi_key].
    rewrite !length_take. split_ands; try done; try lia; by apply Forall_take. }
  rewrite Hh, Hs. cbn [mbind option_bind]. by exists m'.
Qed.

(** A command in the receive buffer starts a join with the two names. *)
Definition onboard_end (ssid key : list Z) (ret : Z) : ag M unit :=
  if ret =? 0 then
    _ ← modify (λ a, set_status (status a) SYS_STATUS_ONBOARDING_SUCCESS a);
    _ ← save_ssid_and_key (name_buf 33 ssid) (name_buf 65 key);
    _ ← RespondConnBroadcast;
    stop
  else mret tt.
Definition config_args (ssid key : list Z) : list Z :=
  Z.of_nat (length ssid) :: ssid ++ Z.of_nat (length key) :: key.
Lemma softap_config_join ssid key rest f a : name_ok ssid → name_ok key → (0 < length ssid <= 32)%nat →
  (length key <= 64)%nat → future a = [] :: [] :: f →
  lan_softap_config (config_args ssid key ++ rest) a =
  mbind (onboard_end ssid key) join_result (join_started ssid key f (set_status (status a) SYS_STATUS_ONBOARDING a)).
Proof.
  intros Hs Hk Ls Lk Hf. unfold lan_softap_config, config_args. cbn [app].
  rewrite (bind_load _ _ _ (Z.of_nat (length ssid))) by done.
  rewrite (proj2 (Z.ltb_ge 32 _)), (proj2 (Z.leb_gt _ 0)) by lia. cbn [orb]. rewrite <- app_assoc. cbn [app].
  rewrite (bind_load _ _ _ ssid).
  2: { rewrite memcpy_from_Some by (cbn [length]; rewrite ?length_app; lia). rewrite Nat2Z.id.
       unfold slice. change (Z.to_nat 1) with 1%nat. cbn [drop]. by rewrite drop_0, take_app_length. }
  rewrite (bind_load _ _ _ (name_buf 33 ssid)).
  2: { rewrite memcpy_to_Some by (rewrite ?length_replicate; lia). done. }
  rewrite (bind_load _ _ _ (Z.of_nat (length key))).
  2: { replace (Z.to_nat (Z.of_nat (length ssid) + 1)) with (S (length ssid)) by lia. cbn.
       by apply list_lookup_middle. }
  rewrite (proj2 (Z.ltb_ge 64 _)) by lia. rewrite (bind_load _ _ _ key).
  2: { rewrite memcpy_from_Some by (cbn [length]; rewrite ?length_app; cbn [length]; rewrite ?length_app; lia). rewrite Nat2Z.id.
       unfold slice. replace (Z.to_nat (1 + Z.of_nat (length ssid) + 1)) with (S (length ssid + 1)) by lia. cbn [drop].
       rewrite <- drop_drop, drop_app_length. cbn [drop]. by rewrite drop_0, take_app_length. }
  rewrite (bind_load _ _ _ (name_buf 65 key)).
  2: { rewrite memcpy_to_Some by (rewrite ?length_replicate; lia). done. }
  rewrite bind_modify. apply (bind_congr _ _ (onboard_end ssid key)).
  apply sta_start; [by destruct a|apply name_buf_holds; [done|lia]..|done|done].
Qed.
(** The same through the receive loop: the datagram, and whatever the buffer held behind it. *)
Definition config_head_ok (h : list Z) : Prop :=
  length h = 8%nat ∧ of_le16 (byte_at h 2) (byte_at h 3) = LAN_NETDATA_CMD_SOFTAP_CONFIG.
Definition config_datagram (h ssid key : list Z) : list Z := h ++ config_args ssid key.
Lemma recv_config h ssid key ds f a : config_head_ok h → name_ok ssid → name_ok key → (0 < length ssid <= 32)%nat →
  (length key <= 64)%nat → length (UDPServerRecv_data a) = 2048%nat → future a = [] :: [] :: f →
  ∃ buf, Socket_UDPServerRecvData (config_datagram h ssid key :: ds) a =
    mbind (λ _, Socket_UDPServerRecvData ds) (mbind (onboard_end ssid key) join_result)
      (join_started ssid key f (set_status (status a) SYS_STATUS_ONBOARDING (set_udpbuf buf a))).
Proof.
  intros [Lh Hcmd] Hs Hk Ls Lk Lb Hf. cbn [Socket_UDPServerRecvData].
  assert (Hd : (length (config_datagram h ssid key) <= 106)%nat).
  { unfold config_datagram, config_args. rewrite length_app. cbn [length]. rewrite length_app. cbn [length]. lia. }
  rewrite take_ge by (unfold UDP_SERVER_BUFFER_SIZE; lia).
  assert (H8 : (8 <= length (config_datagram h ssid key))%nat) by (unfold config_datagram; rewrite length_app; lia).
  rewrite (proj2 (Z.leb_gt _ 0)) by lia.
  set (buf := store_at 0 (config_datagram h ssid key) (UDPServerRecv_data a)).
  assert (Hbuf : buf = h ++ config_args ssid key ++ drop (length (config_datagram h ssid key)) (UDPServerRecv_data a)).
  { unfold buf, store_at. rewrite take_0. cbn [app Nat.add]. unfold config_datagram. by rewrite <- app_assoc. }
  exists buf. rewrite bind_assoc, bind_gets. rewrite bind_assoc, (bind_load _ _ _ buf).
  2: { rewrite memcpy_to_Some by lia. done. }
  rewrite bind_assoc, bind_modify.
  assert (Hdisp : Socket_DispatchUDPData buf (set_udpbuf buf a) =
    mbind (onboard_end ssid key) join_result (join_started ssid key f (set_status (status a) SYS_STATUS_ONBOARDING (set_udpbuf buf a)))).
  { unfold Socket_DispatchUDPData. rewrite (bind_load _ _ _ h).
    2: { rewrite memcpy_from_Some by (rewrite ?Hbuf, ?length_app; lia). rewrite Hbuf. unfold slice.
         change (Z.to_nat 8) with 8%nat. change (Z.to_nat 0) with 0%nat. by rewrite drop_0, take_app_le, take_ge by lia. }
    rewrite Hcmd, Z.eqb_refl, Hbuf, (drop_app_length' h) by lia. rewrite <- Hbuf.
    rewrite (softap_config_join _ _ _ f); [by destruct a|done..|by destruct a]. }
  by apply bind_congr.
Qed.

Definition join_done (ssid key : list Z) (f : list (list happening)) a : agent M :=
  set_flags 1 1 SYS_EVT_LINK_UP (join_started ssid key f a).
Lemma join_up ssid key k f a : SysEvtCB (a_sys a) ≠ 0 →
  join_result (join_started ssid key (replicate k [] ++ [Evt SYS_EVT_LINK_UP] :: f) a) = Ret 0 (join_done ssid key f a).
Proof.
  intros Hcb. unfold join_result.
  rewrite (ag_bind_Ret _ _ _ _ _ (poll_link_up k f (join_started ssid key _ a) eq_refl Hcb eq_refl)). by destruct a.
Qed.

Lemma SysParam_join_done ssid key f a : SysParam (a_sys (join_done ssid key f a)) = SysParam (sta_params ssid key (a_sys a)).
Proof.
  unfold join_done, join_started, waiting_join. ag_cbn. unfold post at 1. cbn [SysParam]. by apply sta_params_SysParam.
Qed.

(** A join that comes up, from the datagram to the reset. *)
Lemma onboard_spec h ssid key ds k f a : config_head_ok h → name_ok ssid → name_ok key →
  (0 < length ssid <= 32)%nat → (length key <= 64)%nat → length (UDPServerRecv_data a) = 2048%nat →
  SysEvtCB (a_sys a) ≠ 0 → heap_ok a = true → agent_ok (Agent_config_data a) →
  future a = [] :: [] :: replicate k [] ++ [Evt SYS_EVT_LINK_UP] :: f → take 104 f = replicate 104 [] →
  (112 <= length (calls a))%nat →
  ∃ a1, Socket_UDPServerRecvData (config_datagram h ssid key :: ds) a = ChipReset a1 ∧
    nl6621_GetConfigData (a_flash a1) = saved_config (name_buf 33 ssid) (name_buf 65 key) (Agent_config_data a) ∧
    PermanentAddress (a_sys a1) = PermanentAddress (a_sys a) ∧
    SysParam (a_sys a1) = SysParam (sta_params ssid key (a_sys a)).
Proof.
  intros Hh Hs Hk Ls Lk Lb Hcb Hheap Hc Hf Hq Hn.
  destruct (recv_config h ssid key ds (replicate k [] ++ [Evt SYS_EVT_LINK_UP] :: f) a) as [buf ->]; try done.
  set (b := set_status (status a) SYS_STATUS_ONBOARDING (set_udpbuf buf a)).
  assert (Hcbb : SysEvtCB (a_sys b) ≠ 0) by (by destruct a).
  rewrite bind_assoc, (ag_bind_Ret _ _ _ _ _ (join_up ssid key k f b Hcbb)).
  unfold onboard_end. rewrite Z.eqb_refl. rewrite bind_assoc, bind_modify.
  set (c := set_status _ SYS_STATUS_ONBOARDING_SUCCESS _).
  assert (Lsb : (32 <= length (name_buf 33 ssid))%nat) by (rewrite length_name_buf; lia).
  assert (Lkb : (32 <= length (name_buf 65 key))%nat) by (rewrite length_name_buf; lia).
  destruct (save_ok (name_buf 33 ssid) (name_buf 65 key) c) as (m' & Hg & Hsave);
    [by destruct a|by destruct a|by apply name_buf_bytes..|done|done|].
  rewrite bind_assoc, (ag_bind_Ret _ _ _ _ _ Hsave). set (d := set_store _ m' c) in *.
  destruct (respond_again_spec 4 0 d) as (n & j & l & Hr & _); [lia|lia|by destruct a|].
  change (respond_again 4 0) with (RespondConnBroadcast (M := M)) in Hr.
  rewrite bind_assoc, (ag_bind_Ret _ _ _ _ _ Hr). eexists. split; [reflexivity|].
  split_ands; [|by destruct a..]. transitivity (nl6621_GetConfigData m'); [by destruct a|].
  rewrite Hg. by destruct a.
Qed.

(** ** After the reset *)

(** Without the button, start-up loads the stored configuration. *)
Lemma boot_flash cb par mac m buf fut cs : cb ≠ 0 →
  let c := nl6621_GetConfigData m in
  let s := InfLoadDefaultParam (Sys par mac cb []) in
  let b := AgentState s c m true (if flag c =? XPG_CFG_FLAG_CONNECTED then SYS_STATUS_WIFI_DIRECTCONFING else 0) 0
    0 0 SYS_EVT_LINK_DOWN RESET_INIT_MAGIC buf fut cs [] 0 in
  Agent_Init cb 1 0 (boot par mac m buf fut cs) =
    (if flag c =? XPG_CFG_FLAG_CONNECTED then
       ret ← DRV_WiFi_StaModeConnStart (Some (ssid_ptr c)) (Some (key_ptr c)) 1;
       if negb (ret =? 0) then softap_mode
       else modify (λ a, set_status SYS_STATUS_WIFI_STA_CONNECTED (onboarding a) a)
     else softap_mode) b.
Proof.
  intros Hcb c s b. unfold Agent_Init, Agent_wifi_init. rewrite bind_assoc.
  erewrite bind_inf by (unfold InfSysEvtCBSet; rewrite (proj2 (Z.eqb_neq cb 0) Hcb); reflexivity).
  rewrite bind_modify. unfold Agent_network_init, network_from_flash, Agent_reset_init. change (1 =? 0) with false. cbn iota.
  rewrite !bind_modify, bind_gets. unfold boot. ag_cbn. fold c. unfold b. destruct (flag c =? XPG_CFG_FLAG_CONNECTED); [|done].
  rewrite bind_modify. done.
Qed.

Lemma ssid_ptr_eq c : agent_ok c → ssid_ptr c = wifi_ssid c ++ wifi_key c ∧ key_ptr c = wifi_key c.
Proof.
  intros (_ & _ & (Hp & Hs & Hk) & _). unfold ssid_ptr, key_ptr, agent_bytes. split.
  - change (drop 24 ((le32 (magicNumber c) ++ le32 (flag c)) ++ wifipasscode c ++ wifi_ssid c ++ wifi_key c) = wifi_ssid c ++ wifi_key c).
    rewrite app_assoc, drop_app_length'; [done|]. rewrite !length_app. cbn. lia.
  - change (drop 56 ((le32 (magicNumber c) ++ le32 (flag c)) ++ wifipasscode c ++ wifi_ssid c ++ wifi_key c) = wifi_key c).
    rewrite !app_assoc, drop_app_length'; [done|]. rewrite !length_app. cbn. lia.
Qed.
Lemma saved_config_ok ssid key c : agent_ok c → name_ok ssid → name_ok key → (length ssid <= 32)%nat → (length key <= 64)%nat →
  agent_ok (saved_config (name_buf 33 ssid) (name_buf 65 key) c).
Proof.
  intros (H1 & H2 & (L1 & _ & _) & H3 & _ & _) Hs Hk Ls Lk.
  unfold agent_ok, saved_config; cbn [magicNumber flag wifipasscode wifi_ssid wifi_key].
  rewrite !length_take, !length_name_buf by lia.
  split_ands; try done; try lia; by apply Forall_take, name_buf_bytes.
Qed.

(** ** What onboarding leaves *)

(** The parameters a station joins [ssid] with [key] with. *)
Definition joins (w : WIFI_CFG) (ssid key : list Z) : Prop :=
  holds (Ssid w) ssid ∧ take (length key) (PSK w) = key ∧ KeyLength w = Z.of_nat (length key) ∧
  Protocol w = PARAM_NET_MODE_STA_BSS.
Lemma store_two l x b : (S (length l) <= length b)%nat →
  store_at (length l) [x] (store_at 0 l b) = l ++ x :: drop (S (length l)) b.
Proof.
  intros Hl. unfold store_at. rewrite take_0. cbn [app Nat.add length].
  rewrite take_app_length, drop_app_ge, drop_drop by lia. do 3 f_equal. lia.
Qed.
Lemma sta_params_joins ssid key s : name_ok ssid → (length ssid <= 32)%nat → (length key <= 64)%nat →
  joins (WiFiCfg (SysParam (sta_params ssid key s))) ssid key.
Proof.
  intros Hs Ls Lk. pose proof (length_default_ssid s) as Hd.
  unfold joins, sta_params, put_key, put_ssid.
  set (S0 := Ssid (WiFiCfg (SysParam (sta_base s)))) in Hd.
  split_ands; [| |done|done].
  - split; [by apply name_ok_nz|]. exists (drop (S (length ssid)) S0). apply (store_two ssid 0 S0). lia.
  - set (P0 := PSK (WiFiCfg (SysParam (sta_base s)))). assert (Hp : length P0 = 64%nat) by done.
    change (take (length key) (if (length key <? 64)%nat then store_at (length key) [0] (store_at 0 key P0) else store_at 0 key P0) = key).
    destruct (Nat.ltb_spec (length key) 64).
    + rewrite store_two by lia. apply take_app_length.
    + unfold store_at. rewrite take_0. cbn [app]. apply take_app_length.
Qed.

(** A state in which a configuration command can be carried out, and a join that comes up
    after any number of quiet polls. *)
Definition can_onboard a : Prop :=
  length (UDPServerRecv_data a) = 2048%nat ∧ SysEvtCB (a_sys a) ≠ 0 ∧ heap_ok a = true ∧
  agent_ok (Agent_config_data a) ∧ (112 <= length (calls a))%nat.
Definition comes_up (k : nat) (f : list (list happening)) : list (list happening) :=
  [] :: [] :: replicate k [] ++ [Evt SYS_EVT_LINK_UP] :: f.

(** C9: The phone's configuration survives the reset.  A configuration datagram with a network name of
    1 to 31 bytes and a key of up to 31 ends in a chip reset, for any results of the socket calls, when
    the agent's callback is registered, the heap gives the flash driver its buffer, the configuration in
    memory is well formed, and of the events only the link's coming up is heard: after the two sleeps
    that begin a join (an event during these is lost, see [join_waits_forever]), at any later poll, with
    silence while the phone is told.  When the chip starts again, with nothing kept but the flash and
    the MAC address, and the link comes up in the same way, the agent joins with exactly the
    parameters it had before the reset, which are those of the datagram, and is connected. *)
Theorem onboarding_survives_reset h ssid key ds k f a : can_onboard a → config_head_ok h → name_ok ssid → name_ok key →
  (0 < length ssid < 32)%nat → (length key < 32)%nat → future a = comes_up k f → take 104 f = replicate 104 [] →
  ∃ a1, Socket_UDPServerRecvData (config_datagram h ssid key :: ds) a = ChipReset a1 ∧
    ∀ cb par buf k' f' cs, cb ≠ 0 →
      ∃ a2, Agent_Init cb 1 0 (boot par (PermanentAddress (a_sys a1)) (a_flash a1) buf (comes_up k' f') cs) = Ret tt a2 ∧
        status a2 = SYS_STATUS_WIFI_STA_CONNECTED ∧ SysParam (a_sys a2) = SysParam (a_sys a1) ∧
        joins (WiFiCfg (SysParam (a_sys a2))) ssid key.
Proof.
  intros (Lb & Hcb & Hheap & Hc & Hn) Hh Hs Hk Ls Lk Hf Hq.
  destruct (onboard_spec h ssid key ds k f a) as (a1 & Hrun & Hg & Hmac & Hpar); try done; try lia.
  exists a1. split; [exact Hrun|]. intros cb par buf k' f' cs Hcb'.
  rewrite boot_flash by done. rewrite Hg. set (c := saved_config _ _ _).
  assert (Hok : agent_ok c) by (apply saved_config_ok; done || lia).
  destruct (ssid_ptr_eq c Hok) as [-> ->]. change (flag c =? XPG_CFG_FLAG_CONNECTED) with true. cbn iota.
  set (b := AgentState _ _ _ _ _ _ _ _ _ _ _ _ _ _ _).
  assert (Hsta : DRV_WiFi_StaModeConnStart (Some (wifi_ssid c ++ wifi_key c)) (Some (wifi_key c)) 1 b =
    Ret 0 (join_done ssid key f' b)).
  { rewrite (sta_start _ _ ssid key (replicate k' [] ++ [Evt SYS_EVT_LINK_UP] :: f')).
    - by apply join_up.
    - done.
    - apply stored_name; [done|lia].
    - rewrite <- (app_nil_r (wifi_key c)). apply stored_name; [done|lia].
    - lia.
    - lia. }
  rewrite (ag_bind_Ret _ _ _ _ _ Hsta).
  exists (set_status SYS_STATUS_WIFI_STA_CONNECTED (onboarding (join_done ssid key f' b)) (join_done ssid key f' b)).
  split; [reflexivity|]. rewrite a_sys_set_status.
  assert (Hsp : SysParam (a_sys (join_done ssid key f' b)) = SysParam (a_sys a1)).
  { rewrite Hpar, SysParam_join_done. apply sta_params_SysParam. exact Hmac. }
  rewrite Hsp. split; [reflexivity|]. split; [reflexivity|].
  rewrite Hpar. apply sta_params_joins; done || lia.
Qed.

(** An SSID of 32 bytes, the longest there is, works until the reset: its 32-byte field in the
    flash has no room for the terminator, so at the next start the length runs on into the key
    and [InfSsidSet] refuses the name; the agent waits for a network with an empty name. *)
Theorem ssid_of_32_is_lost_by_the_reset h ssid key ds k f a : can_onboard a → config_head_ok h →
  name_ok ssid → name_ok key → (length ssid = 32)%nat → (0 < length key < 32)%nat →
  future a = comes_up k f → take 104 f = replicate 104 [] →
  ∃ a1, Socket_UDPServerRecvData (config_datagram h ssid key :: ds) a = ChipReset a1 ∧
    joins (WiFiCfg (SysParam (a_sys a1))) ssid key ∧
    ∀ cb par buf cs, cb ≠ 0 →
      ∃ a2, Agent_Init cb 1 0 (boot par (PermanentAddress (a_sys a1)) (a_flash a1) buf [[]; []] cs) = Waiting a2 ∧
        Protocol (WiFiCfg (SysParam (a_sys a2))) = PARAM_NET_MODE_STA_BSS ∧
        Ssid (WiFiCfg (SysParam (a_sys a2))) !! 0%nat = Some 0.
Proof.
  intros (Lb & Hcb & Hheap & Hc & Hn) Hh Hs Hk Ls Lk Hf Hq.
  destruct (onboard_spec h ssid key ds k f a) as (a1 & Hrun & Hg & Hmac & Hpar); try done; try lia.
  exists a1. split; [exact Hrun|]. split; [rewrite Hpar; apply sta_params_joins; done || lia|].
  intros cb par buf cs Hcb'. rewrite boot_flash by done. rewrite Hg. set (c := saved_config _ _ _).
  assert (Hok : agent_ok c) by (apply saved_config_ok; done || lia).
  destruct (ssid_ptr_eq c Hok) as [-> ->]. change (flag c =? XPG_CFG_FLAG_CONNECTED) with true. cbn iota.
  set (b := AgentState _ _ _ _ _ _ _ _ _ _ _ _ _ _ _).
  assert (Hkey : holds (wifi_key c) key).
  { rewrite <- (app_nil_r (wifi_key c)). apply stored_name; [done|lia]. }
  assert (Hlen : strlen (wifi_ssid c ++ wifi_key c) = Some (Z.of_nat (length (ssid ++ key)))).
  { apply strlen_holds. change (wifi_ssid c) with (take 32 (name_buf 33 ssid)).
    rewrite stored_long_name, take_ge by lia. destruct Hkey as [Hnz [r ->]].
    split; [apply Forall_app; split; [by apply name_ok_nz|done]|]. exists r. by rewrite app_assoc. }
  rewrite length_app in Hlen.
  erewrite (ag_bind_Waiting _ _ b).
  2: { erewrite (sta_start_any _ _ _ (-1) (with_wifi (λ w, set_Ssid (<[0%nat := 0]> (Ssid w)) w) (sta_base _)) key []);
         [reflexivity|done|exact Hlen|unfold is_byte; lia| |exact Hkey|lia|done].
       unfold InfSsidSet. rewrite (proj2 (Z.ltb_lt 32 _)) by lia. reflexivity. }
  eexists. split; [reflexivity|]. done.
Qed.

(** A key of 32 to 64 characters works until the reset: its 32-byte field in the flash has no
    terminator either, and at the next start [strlen] runs past the end of the structure. *)
Theorem key_of_32_overruns_after_the_reset h ssid key ds k f a : can_onboard a → config_head_ok h →
  name_ok ssid → name_ok key → (0 < length ssid < 32)%nat → (32 <= length key <= 64)%nat →
  future a = comes_up k f → take 104 f = replicate 104 [] →
  ∃ a1, Socket_UDPServerRecvData (config_datagram h ssid key :: ds) a = ChipReset a1 ∧
    joins (WiFiCfg (SysParam (a_sys a1))) ssid key ∧
    ∀ cb par buf f' cs, cb ≠ 0 →
      Agent_Init cb 1 0 (boot par (PermanentAddress (a_sys a1)) (a_flash a1) buf ([] :: f') cs) = Fault.
Proof.
  intros (Lb & Hcb & Hheap & Hc & Hn) Hh Hs Hk Ls Lk Hf Hq.
  destruct (onboard_spec h ssid key ds k f a) as (a1 & Hrun & Hg & Hmac & Hpar); try done; try lia.
  exists a1. split; [exact Hrun|]. split; [rewrite Hpar; apply sta_params_joins; done || lia|].
  intros cb par buf f' cs Hcb'. rewrite boot_flash by done. rewrite Hg. set (c := saved_config _ _ _).
  assert (Hok : agent_ok c) by (apply saved_config_ok; done || lia).
  destruct (ssid_ptr_eq c Hok) as [-> ->]. change (flag c =? XPG_CFG_FLAG_CONNECTED) with true. cbn iota.
  set (b := AgentState _ _ _ _ _ _ _ _ _ _ _ _ _ _ _).
  assert (Hssid : holds (wifi_ssid c ++ wifi_key c) ssid) by (apply stored_name; [done|lia]).
  assert (Hnone : ∀ l, Forall (.≠ 0) l → strlen l = None).
  { induction 1 as [|x l Hx _ IH]; [done|]. cbn [strlen]. rewrite (proj2 (Z.eqb_neq _ _) Hx), IH. done. }
  unfold mbind, ag_bind. erewrite sta_overrun; [reflexivity|done|by apply strlen_holds|unfold is_byte; lia| |].
  - apply InfSsidSet_put; [done|lia].
  - apply Hnone. change (wifi_key c) with (take 32 (name_buf 65 key)). rewrite stored_long_name by lia.
    by apply Forall_take, name_ok_nz.
Qed.

(** ** Joins that do not come up *)

(** An event that is not the one a join waits for. *)
Definition harmless (h : happening) : Prop :=
  match h with Evt SYS_EVT_LINK_UP | Evt SYS_EVT_JOIN_FAIL => False | _ => True end.
Lemma happen_returns h a : status a ≠ SYS_STATUS_WIFI_SOFTAP → ∃ a', happen h a = Ret tt a' ∧
  future a' = future a ∧ status a' = status a ∧
  (harmless h → wifi_sta_connect_ap_flag a' = wifi_sta_connect_ap_flag a).
Proof.
  intros Hst. destruct h as [e|w]; cbn [happen harmless].
  - rewrite bind_gets. destruct (SysEvtCB (a_sys a) =? 0); [by exists a|]. unfold AppEvtCallBack.
    destruct e; try (eexists; split; [reflexivity|]; by destruct a).
    rewrite bind_assoc, bind_modify, bind_assoc, bind_gets.
    destruct (Z.eqb_spec (status (set_flags (DirectCfgFlag a) 0 (link_status a) a)) SYS_STATUS_WIFI_SOFTAP) as [E|_];
      [by destruct a|]. eexists. split; [reflexivity|]. by destruct a.
  - eexists. split; [reflexivity|]. by destruct a.
Qed.
Lemma happen_all_returns hs : ∀ a, status a ≠ SYS_STATUS_WIFI_SOFTAP → ∃ a', happen_all hs a = Ret tt a' ∧
  future a' = future a ∧ status a' = status a ∧
  (Forall harmless hs → wifi_sta_connect_ap_flag a' = wifi_sta_connect_ap_flag a).
Proof.
  induction hs as [|h hs IH]; intros a Hst; [by exists a|]. cbn [happen_all].
  destruct (happen_returns h a Hst) as (a1 & H1 & F1 & S1 & W1). rewrite (ag_bind_Ret _ _ _ _ _ H1).
  destruct (IH a1) as (a2 & H2 & F2 & S2 & W2); [congruence|]. exists a2.
  split; [exact H2|]. split; [congruence|]. split; [congruence|]. intros [Hh Hhs]%Forall_cons. rewrite W2, W1; done.
Qed.
Lemma sleep_while_joining fut : ∀ a, status a ≠ SYS_STATUS_WIFI_SOFTAP → wifi_sta_connect_ap_flag a = 2 →
  Forall (Forall harmless) fut → ∃ a', sleep_while joining fut a = Waiting a'.
Proof.
  induction fut as [|hs fut IH]; intros a Hst Hw Hq; cbn [sleep_while]; unfold joining at 1; rewrite Hw; [by exists a|].
  apply Forall_cons in Hq as [Hhs Hq]. destruct (happen_all_returns hs (set_future fut a)) as (a1 & H1 & _ & S1 & W1); [by destruct a|].
  change (2 =? 2) with true. cbn iota. rewrite (ag_bind_Ret _ _ _ _ _ H1). apply IH; [rewrite S1; by destruct a| |done].
  rewrite W1 by done. by destruct a.
Qed.

(** A join forgets what it was told in the 100 ms after it started: the flag the callback sets is
    overwritten before the wait.  Whatever happened then, the link coming up included, the agent
    waits as long as no further link-up or join failure comes; a DHCP failure does not end it. *)
Theorem join_waits_forever p q ssid key early rest a : future a = [] :: early :: rest →
  status a ≠ SYS_STATUS_WIFI_SOFTAP → holds p ssid → holds q key → (0 < length ssid <= 32)%nat →
  (length key <= 64)%nat → Forall (Forall harmless) rest →
  ∃ a', DRV_WiFi_StaModeConnStart (Some p) (Some q) 1 a = Waiting a'.
Proof.
  intros Hf Hst Hp Hq Ls Lk Hrest.
  rewrite (sta_until_start p q (Z.of_nat (length ssid)) 0 (put_ssid ssid (sta_base (post MLME_STOP_ID [] (a_sys a)))) key (early :: rest));
    [|done|by apply strlen_holds|unfold is_byte; lia|by apply InfSsidSet_put|done|done|done].
  set (b := set_future (early :: rest) _). unfold after_start.
  destruct (happen_all_returns early (set_future rest b)) as (c & Hc & Fc & Sc & _); [by destruct a|].
  assert (Hsl : OSTimeDly b = Ret tt c) by (unfold OSTimeDly, b; ag_cbn; exact Hc).
  rewrite (ag_bind_Ret _ _ _ _ _ Hsl), bind_modify. unfold join_result, poll. set (d := set_flags _ 2 _ c).
  assert (Hfd : future d = rest) by (change (future c = rest); by rewrite Fc).
  destruct (sleep_while_joining rest d) as [e He]; [change (status c ≠ SYS_STATUS_WIFI_SOFTAP); rewrite Sc; by destruct a|by destruct c|done|].
  exists e. apply ag_bind_Waiting. by rewrite Hfd.
Qed.

(** A join that fails, in access-point mode and otherwise. *)
Lemma poll_join_fail k f a : wifi_sta_connect_ap_flag a = 2 → SysEvtCB (a_sys a) ≠ 0 →
  future a = replicate k [] ++ [Evt SYS_EVT_JOIN_FAIL] :: f →
  poll joining a =
    if status a =? SYS_STATUS_WIFI_SOFTAP then ChipReset (set_flags (DirectCfgFlag a) 0 (link_status a) (set_future f a))
    else Ret tt (set_flags (DirectCfgFlag a) 0 SYS_EVT_JOIN_FAIL (set_future f a)).
Proof.
  intros Hw Hcb Hf. unfold poll.
  transitivity (sleep_while joining (future a) (set_future (future a) a)); [by rewrite set_future_id|].
  rewrite Hf, sleep_while_quiet by (intros; unfold joining; cbn; by rewrite Hw).
  destruct a; cbn in *. subst. unfold joining at 1. cbn.
  unfold mbind, ag_bind, mret, ag_ret, gets. cbn. rewrite (proj2 (Z.eqb_neq _ _) Hcb). cbn.
  destruct (status0 =? SYS_STATUS_WIFI_SOFTAP); [done|]. by destruct f.
Qed.

Lemma join_failed ssid key k f a : SysEvtCB (a_sys a) ≠ 0 → status a ≠ SYS_STATUS_WIFI_SOFTAP →
  join_result (join_started ssid key (replicate k [] ++ [Evt SYS_EVT_JOIN_FAIL] :: f) a) =
  Ret (-1) (set_flags (DirectCfgFlag a) 0 SYS_EVT_JOIN_FAIL (join_started ssid key f a)).
Proof.
  intros Hcb Hst. pose proof (poll_join_fail k f (join_started ssid key _ a) eq_refl Hcb eq_refl) as Hp.
  change (status (join_started ssid key _ a)) with (status a) in Hp. rewrite (proj2 (Z.eqb_neq _ _) Hst) in Hp.
  unfold join_result. rewrite (ag_bind_Ret _ _ _ _ _ Hp). by destruct a.
Qed.

(** A device in access-point mode never gets as far as the code that follows a failed join: the
    event handler takes the failure for one of its own access point and resets the chip, with
    the flash as it was. *)
Theorem failed_onboarding_resets h ssid key ds k f a : config_head_ok h → name_ok ssid → name_ok key →
  (0 < length ssid <= 32)%nat → (length key <= 64)%nat → length (UDPServerRecv_data a) = 2048%nat →
  SysEvtCB (a_sys a) ≠ 0 → status a = SYS_STATUS_WIFI_SOFTAP →
  future a = [] :: [] :: replicate k [] ++ [Evt SYS_EVT_JOIN_FAIL] :: f →
  ∃ a1, Socket_UDPServerRecvData (config_datagram h ssid key :: ds) a = ChipReset a1 ∧ a_flash a1 = a_flash a.
Proof.
  intros Hh Hs Hk Ls Lk Lb Hcb Hst Hf.
  destruct (recv_config h ssid key ds (replicate k [] ++ [Evt SYS_EVT_JOIN_FAIL] :: f) a) as [buf ->]; try done.
  set (b := set_status (status a) SYS_STATUS_ONBOARDING (set_udpbuf buf a)).
  set (c := join_started ssid key _ b).
  pose proof (poll_join_fail k f c eq_refl ltac:(exact Hcb) eq_refl) as Hp.
  change (status c) with (status a) in Hp. rewrite Hst, Z.eqb_refl in Hp.
  unfold join_result. unfold mbind, ag_bind. rewrite Hp. eexists. split; [reflexivity|]. by destruct a.
Qed.

(** The access point with the default parameters. *)
Definition softap_params (s : sys) : CFG_PARAM :=
  SysParam (with_wifi (set_Protocol PARAM_NET_MODE_SOFTAP) (InfLoadDefaultParam s)).
Lemma softap_spec f a : future a = [] :: f → ∃ a', softap_mode a = Ret tt a' ∧
  status a' = SYS_STATUS_WIFI_SOFTAP ∧ SysParam (a_sys a') = softap_params (a_sys a) ∧ a_flash a' = a_flash a.
Proof.
  intros Hf. destruct a. cbn [future] in Hf. subst. unfold softap_mode, DRV_WiFi_SoftAPModeStart.
  do 6 (rewrite ?bind_assoc; ag_step; ag_cbn). eexists. split; [reflexivity|]. done.
Qed.

(** At start-up, a stored network that cannot be joined leaves the device an access point with
    the default parameters; the stored configuration is kept. *)
Theorem boot_falls_back_to_softap cb par mac m buf k f cs ssid key : cb ≠ 0 →
  agent_ok (nl6621_GetConfigData m) → flag (nl6621_GetConfigData m) = XPG_CFG_FLAG_CONNECTED →
  holds (wifi_ssid (nl6621_GetConfigData m)) ssid → holds (wifi_key (nl6621_GetConfigData m)) key →
  (0 < length ssid)%nat →
  ∃ a, Agent_Init cb 1 0 (boot par mac m buf ([] :: [] :: replicate k [] ++ [Evt SYS_EVT_JOIN_FAIL] :: [] :: f) cs) = Ret tt a ∧
    status a = SYS_STATUS_WIFI_SOFTAP ∧ SysParam (a_sys a) = softap_params (Sys par mac cb []) ∧ a_flash a = m.
Proof.
  intros Hcb Hok Hfl Hs Hk Ls. rewrite boot_flash by done. set (c := nl6621_GetConfigData m) in *.
  destruct (ssid_ptr_eq c Hok) as [-> ->]. rewrite Hfl, Z.eqb_refl.
  set (b := AgentState _ _ _ _ _ _ _ _ _ _ _ _ _ _ _).
  assert (L1 : length (wifi_ssid c) = 32%nat) by apply Hok. assert (L2 : length (wifi_key c) = 32%nat) by apply Hok.
  pose proof (holds_length _ _ Hs). pose proof (holds_length _ _ Hk).
  assert (Hs' : holds (wifi_ssid c ++ wifi_key c) ssid).
  { destruct Hs as [Hnz [r ->]]. split; [done|]. exists (r ++ wifi_key c). by rewrite <- app_assoc. }
  set (g := [] :: f).
  assert (Hsta : DRV_WiFi_StaModeConnStart (Some (wifi_ssid c ++ wifi_key c)) (Some (wifi_key c)) 1 b =
    Ret (-1) (set_flags 0 0 SYS_EVT_JOIN_FAIL (join_started ssid key g b))).
  { rewrite (sta_start _ _ ssid key (replicate k [] ++ [Evt SYS_EVT_JOIN_FAIL] :: g)) by (done || lia).
    apply (join_failed ssid key k g b); [exact Hcb|discriminate]. }
  rewrite (ag_bind_Ret _ _ _ _ _ Hsta). change (negb (-1 =? 0)) with true. cbn iota.
  set (j := set_flags 0 0 SYS_EVT_JOIN_FAIL _).
  destruct (softap_spec f j eq_refl) as (a & E1 & E2 & E3 & E4).
  exists a. split; [exact E1|]. split; [exact E2|]. rewrite E3, E4. split; reflexivity.
Qed.

Lemma button_held_spec n : ∀ gpio fut a, future a = replicate n [] ++ fut → (n <= length gpio)%nat →
  Forall (.= USER_RESET_BUTTON_PRESS) (take n gpio) → button_held n gpio a = Ret true (set_future fut a).
Proof.
  induction n as [|n IH]; intros gpio fut a Hf Hl Hg; cbn [button_held].
  - by rewrite <- (set_future_id a), Hf at 1.
  - destruct gpio as [|g gpio]; [cbn in Hl; lia|]. cbn in Hg. apply Forall_cons in Hg as [-> Hg].
    rewrite (bind_sleep (replicate n [] ++ fut)) by done. cbn [hd tl]. rewrite Z.eqb_refl.
    rewrite (IH gpio fut); [by rewrite set_future_set_future|by destruct a|cbn in Hl; lia|done].
Qed.
(** Holding the button for the first reading and the seven that follow at half-second intervals
    resets the chip with the names and the flag cleared in the flash; the next start is an
    access point with the default parameters, whatever was configured. *)
Theorem reset_button_forgets_the_network gpio f a : system_reset_flag a = RESET_INIT_MAGIC →
  heap_ok a = true → agent_ok (Agent_config_data a) → (8 <= length gpio)%nat →
  Forall (.= USER_RESET_BUTTON_PRESS) (take 8 gpio) → future a = replicate 8 [] ++ f →
  ∃ a1, SysResetThread_round gpio a = ChipReset a1 ∧ ∀ cb par buf f' cs, cb ≠ 0 →
    ∃ a2, Agent_Init cb 1 0 (boot par (PermanentAddress (a_sys a1)) (a_flash a1) buf ([] :: f') cs) = Ret tt a2 ∧
      status a2 = SYS_STATUS_WIFI_SOFTAP ∧ SysParam (a_sys a2) = softap_params (a_sys a).
Proof.
  intros Hrf Hh Hc Hl Hg Hf. unfold SysResetThread_round. rewrite bind_gets, Hrf, Z.eqb_refl.
  destruct gpio as [|g gpio]; [cbn in Hl; lia|]. cbn in Hg. apply Forall_cons in Hg as [-> Hg]. cbn [hd tl].
  change (USER_RESET_BUTTON_PRESS =? USER_RESET_BUTTON_PRESS) with true. cbn [andb].
  rewrite bind_assoc. erewrite (ag_bind_Ret _ _ a).
  2: { apply (button_held_spec USER_RESET_PRESS_TIMEOUT gpio ([] :: f)); [done|unfold USER_RESET_PRESS_TIMEOUT; cbn in Hl; lia|done]. }
  set (b := set_future ([] :: f) a). cbv beta iota. rewrite bind_assoc.
  set (c := AgentConfig (magicNumber (Agent_config_data b)) 0 (wifipasscode (Agent_config_data b)) (replicate 32 0) (replicate 32 0)).
  destruct Hc as (H1 & H2 & (L1 & _ & _) & H3 & _ & _).
  destruct (SaveConfigData_ok c (a_flash b)) as (m' & Hs & _ & Hget).
  { unfold agent_ok, c; cbn [magicNumber flag wifipasscode wifi_ssid wifi_key]. rewrite !length_replicate.
    split_ands; try done; by apply Forall_replicate. }
  rewrite (ag_bind_Ret _ _ b tt (set_store (Agent_config_data b) m' b)).
  2: { fold c. replace (heap_ok b) with true by (symmetry; exact Hh). by rewrite Hs. }
  rewrite bind_assoc, (bind_sleep f) by done.
  set (a1 := set_future f (set_store (Agent_config_data b) m' b)). exists a1. split; [reflexivity|].
  intros cb par buf f' cs Hcb. rewrite boot_flash by done. change (a_flash a1) with m'. rewrite Hget.
  change (flag c =? XPG_CFG_FLAG_CONNECTED) with false. cbn iota.
  destruct (softap_spec f' (AgentState (InfLoadDefaultParam (Sys par (PermanentAddress (a_sys a1)) cb [])) c m' true 0 0
    0 0 SYS_EVT_LINK_DOWN RESET_INIT_MAGIC buf ([] :: f') cs [] 0) eq_refl) as (a2 & E1 & E2 & E3 & _).
  exists a2. split; [exact E1|]. split; [exact E2|]. rewrite E3. by destruct a as [[? ? ? ?]].
Qed.
End proofs.

(** ** Instances *)

Definition blank_param : CFG_PARAM :=
  CfgParam (WifiCfg (replicate 33 0) 0 0 0 0 0 0 0 0 (replicate 64 0) 0 0 0)
    (IpCfg [0;0;0;0] [0;0;0;0] [0;0;0;0] [0;0;0;0] 0 0) 0 0 (replicate 33 0).
Definition a_mac : list Z := [0x2c; 0x8a; 0x72; 0xc9; 0x11; 0x5a].
Definition blank_config : Agent_config_t := AgentConfig 0 0 (replicate 16 0) (replicate 32 0) (replicate 32 0).
(** An access point that has just been started, over a chip full of zeroes. *)
Definition idle_agent (fut : list (list happening)) (cs : list Z) : agent sim :=
  AgentState (Sys blank_param a_mac 0x8000 []) blank_config zero_chip true SYS_STATUS_WIFI_SOFTAP 0
    0 0 SYS_EVT_LINK_DOWN RESET_INIT_MAGIC (replicate 2048 0) fut cs [] 0.
Definition config_head : list Z := [0; 0; 0x11; 0; 0; 0; 0; 0].
(** "home", "secret99", 32 times "x" and 63 times "k". *)
Definition s_home : list Z := [104; 111; 109; 101].
Definition s_key : list Z := [115; 101; 99; 114; 101; 116; 57; 57].
Definition s_long : list Z := replicate 32 120.
Definition s_longkey : list Z := replicate 63 107.
Definition quiet104 : list (list happening) := replicate 104 [].
Definition calls_ok : list Z := replicate 112 3.

Lemma agent_ok_blank : agent_ok blank_config.
Proof. unfold agent_ok. split_ands; try done; by apply Forall_replicate. Qed.
Lemma can_onboard_idle fut : can_onboard (idle_agent fut calls_ok).
Proof. unfold can_onboard. split_ands; try done; first [apply agent_ok_blank | by apply Nat.leb_le]. Qed.
Lemma name_ok_list l : forallb (λ c, (0 <? c) && (c <? 256)) l = true → name_ok l.
Proof.
  rewrite forallb_forall. intros H. apply Forall_forall. intros c Hc. apply list_elem_of_In, H in Hc.
  unfold is_byte. lia.
Qed.
Lemma config_head_is : config_head_ok config_head.
Proof. done. Qed.

Lemma RespondConnBroadcast_terminates_witness :
  ∃ n k rounds, RespondConnBroadcast (idle_agent quiet104 calls_ok) =
      Ret tt (spent (idle_agent quiet104 calls_ok) n k (lives rounds) 0) ∧ (n <= 104 ∧ k <= 112)%nat ∧ rounds_ok 4 rounds.
Proof. apply (RespondConnBroadcast_terminates (idle_agent quiet104 calls_ok)). split; [done|]. by apply Nat.leb_le. Defined.

Lemma onboarding_survives_reset_witness :
  ∃ a1, Socket_UDPServerRecvData [config_datagram config_head s_home s_key] (idle_agent (comes_up 3 quiet104) calls_ok) = ChipReset a1 ∧
    ∀ cb par buf k' f' cs, cb ≠ 0 →
      ∃ a2, Agent_Init cb 1 0 (boot par (PermanentAddress (a_sys a1)) (a_flash a1) buf (comes_up k' f') cs) = Ret tt a2 ∧
        status a2 = SYS_STATUS_WIFI_STA_CONNECTED ∧ SysParam (a_sys a2) = SysParam (a_sys a1) ∧
        joins (WiFiCfg (SysParam (a_sys a2))) s_home s_key.
Proof.
  apply (onboarding_survives_reset config_head s_home s_key [] 3 quiet104);
    [apply can_onboard_idle|apply config_head_is|by apply name_ok_list|by apply name_ok_list|cbn; lia|cbn; lia|done|done].
Defined.

Lemma ssid_of_32_is_lost_by_the_reset_witness :
  ∃ a1, Socket_UDPServerRecvData [config_datagram config_head s_long s_key] (idle_agent (comes_up 3 quiet104) calls_ok) = ChipReset a1 ∧
    joins (WiFiCfg (SysParam (a_sys a1))) s_long s_key ∧
    ∀ cb par buf cs, cb ≠ 0 →
      ∃ a2, Agent_Init cb 1 0 (boot par (PermanentAddress (a_sys a1)) (a_flash a1) buf [[]; []] cs) = Waiting a2 ∧
        Protocol (WiFiCfg (SysParam (a_sys a2))) = PARAM_NET_MODE_STA_BSS ∧
        Ssid (WiFiCfg (SysParam (a_sys a2))) !! 0%nat = Some 0.
Proof.
  apply (ssid_of_32_is_lost_by_the_reset config_head s_long s_key [] 3 quiet104);
    [apply can_onboard_idle|apply config_head_is|by apply name_ok_list|by apply name_ok_list|done|cbn; lia|done|done].
Defined.

Lemma key_of_32_overruns_after_the_reset_witness :
  ∃ a1, Socket_UDPServerRecvData [config_datagram config_head s_home s_longkey] (idle_agent (comes_up 3 quiet104) calls_ok) = ChipReset a1 ∧
    joins (WiFiCfg (SysParam (a_sys a1))) s_home s_longkey ∧
    ∀ cb par buf f' cs, cb ≠ 0 →
      Agent_Init cb 1 0 (boot par (PermanentAddress (a_sys a1)) (a_flash a1) buf ([] :: f') cs) = Fault.
Proof.
  apply (key_of_32_overruns_after_the_reset config_head s_home s_longkey [] 3 quiet104);
    [apply can_onboard_idle|apply config_head_is|by apply name_ok_list|by apply name_ok_list|cbn; lia|cbn; lia|done|done].
Defined.

(** The link comes up 100 ms after the start, the DHCP client fails later. *)
Lemma join_waits_forever_witness :
  ∃ a', DRV_WiFi_StaModeConnStart (Some (name_buf 33 s_home)) (Some (name_buf 65 s_key)) 1
    (set_status SYS_STATUS_WIFI_DIRECTCONFING 0
       (idle_agent ([] :: [Evt SYS_EVT_LINK_UP] :: replicate 100 [] ++ [[Evt SYS_EVT_DHCP_FAIL]]) [])) = Waiting a'.
Proof.
  apply (join_waits_forever (M := sim) _ _ s_home s_key [Evt SYS_EVT_LINK_UP] (replicate 100 [] ++ [[Evt SYS_EVT_DHCP_FAIL]]));
    [done|done|apply name_buf_holds; [by apply name_ok_list|cbn; lia]|apply name_buf_holds; [by apply name_ok_list|cbn; lia]
    |cbn; lia|cbn; lia|].
  apply Forall_app. split; [by apply Forall_replicate|]. by repeat constructor.
Defined.

Lemma failed_onboarding_resets_witness :
  ∃ a1, Socket_UDPServerRecvData [config_datagram config_head s_home s_key]
      (idle_agent ([] :: [] :: replicate 3 [] ++ [Evt SYS_EVT_JOIN_FAIL] :: []) []) = ChipReset a1 ∧ a_flash a1 = zero_chip.
Proof.
  apply (failed_onboarding_resets config_head s_home s_key [] 3 []
    (idle_agent ([] :: [] :: replicate 3 [] ++ [Evt SYS_EVT_JOIN_FAIL] :: []) []));
    [apply config_head_is|by apply name_ok_list|by apply name_ok_list|cbn; lia|cbn; lia|done|done|done|done].
Defined.

(** A chip with the configuration of "home". *)
Definition home_config : Agent_config_t :=
  AgentConfig 0 XPG_CFG_FLAG_CONNECTED (replicate 16 0) (field 32 s_home) (field 32 s_key).
Definition home_chip : sim := Sim (λ a, agent_bytes home_config !!! Z.to_nat (a - AGENT_CONFIG_DATA_ADDR)) false (λ _, 0).
Lemma boot_falls_back_to_softap_witness :
  ∃ a, Agent_Init 0x8000 1 0 (boot blank_param a_mac home_chip [] ([] :: [] :: replicate 2 [] ++ [Evt SYS_EVT_JOIN_FAIL] :: [] :: []) []) = Ret tt a ∧
    status a = SYS_STATUS_WIFI_SOFTAP ∧ SysParam (a_sys a) = softap_params (Sys blank_param a_mac 0x8000 []) ∧ a_flash a = home_chip.
Proof.
  assert (Hg : nl6621_GetConfigData home_chip = home_config) by (vm_compute; reflexivity).
  apply (boot_falls_back_to_softap 0x8000 blank_param a_mac home_chip [] 2 [] [] s_home s_key); rewrite ?Hg.
  - done.
  - unfold agent_ok. split_ands; try done; repeat (apply List.Forall_cons; [by split|]); apply List.Forall_nil.
  - done.
  - split; [by apply name_ok_nz, name_ok_list|]. by exists (replicate 27 0).
  - split; [by apply name_ok_nz, name_ok_list|]. by exists (replicate 23 0).
  - cbn. lia.
Defined.

Lemma reset_button_forgets_the_network_witness :
  ∃ a1, SysResetThread_round (replicate 8 0) (idle_agent (replicate 8 []) []) = ChipReset a1 ∧ ∀ cb par buf f' cs, cb ≠ 0 →
    ∃ a2, Agent_Init cb 1 0 (boot par (PermanentAddress (a_sys a1)) (a_flash a1) buf ([] :: f') cs) = Ret tt a2 ∧
      status a2 = SYS_STATUS_WIFI_SOFTAP ∧ SysParam (a_sys a2) = softap_params (Sys blank_param a_mac 0x8000 []).
Proof.
  apply (reset_button_forgets_the_network (replicate 8 0) [] (idle_agent (replicate 8 []) []));
    [done|done|apply agent_ok_blank|done|by apply Forall_take, Forall_replicate|done].
Defined.
