(* ===== verification/LanServer.v ===== *)
(** The TCP server of the local network: the socket table and the select loop of
    [App/NuAgent/System/network_adapter.c], with the descriptor sets of
    [LwIP/src/include/lwip/sockets.h].

    Each round of the loop takes what the socket calls return in it; [reads] records the
    descriptors handed to [recv].  [None] is a write outside the client table or outside
    the one byte of a descriptor set. *)
From S2P Require Import Prelude.

Definition TCP_SERVER_CLIENT_MAX_NUM : nat := 5.
Definition MEMP_NUM_NETCONN : Z := 8.

(** A descriptor set is [(FD_SETSIZE+7)/8], that is one, byte. *)
Definition fd_bit (n : Z) : option Z := if Z.quot n 8 =? 0 then Some (Z.land n 7) else None.
(* @ LwIP/src/include/lwip/sockets.h:294-294 FD_SET *)
Definition FD_SET (n p : Z) : option Z := b ← fd_bit n; Some (Z.lor p (Z.shiftl 1 b)).
(* @ LwIP/src/include/lwip/sockets.h:295-295 FD_CLR *)
Definition FD_CLR (n p : Z) : option Z := b ← fd_bit n; Some (Z.ldiff p (Z.shiftl 1 b)).
(* @ LwIP/src/include/lwip/sockets.h:296-296 FD_ISSET *)
Definition FD_ISSET (n p : Z) : option bool := b ← fd_bit n; Some (negb (Z.land p (Z.shiftl 1 b) =? 0)).

(* @ App/NuAgent/System/network_adapter.c:52-63 lan_client *)
Record server := Server {
  TCPServerFd : Z; lan_client : list Z; client_connect_count : Z; max_sock : Z; reads : list Z }.

(** ** Opening the server's socket *)

(** The results of [socket], [bind] and [listen]; the sockets closed on the way. *)
(* @ App/NuAgent/System/network_adapter.c:200-241 Socket_CreateTCPServer *)
Definition Socket_CreateTCPServer (sock bind listen : Z) (s : server) : server * list Z * Z :=
  let fd v := Server v (lan_client s) (client_connect_count s) (max_sock s) (reads s) in
  if TCPServerFd s =? -1 then
    if sock <? 0 then (fd (-1), [], -1)
    else if negb (bind =? 0) then (fd (-1), [sock], -1)
    else if negb (listen =? 0) then (fd (-1), [sock], -1)
    else (fd sock, [], sock)
  else (s, [], -1).

(** ** The select loop *)

(** What the calls of one round return: [select] and the set it leaves, [recv] on each
    descriptor, [accept]. *)
Record round := Round { r_select : Z; r_set : Z; r_recv : Z → Z; r_accept : Z }.

(* @ App/NuAgent/System/network_adapter.c:262-268 Socket_TCPServerRecvData *)
Fixpoint watch (clients : list Z) (set : Z) : option Z :=
  match clients with
  | [] => Some set
  | fd :: clients => set ← (if 0 <=? fd then FD_SET fd set else Some set); watch clients set
  end.
(** The clients that are left, the set, the count and the reads. *)
(* @ App/NuAgent/System/network_adapter.c:279-298 Socket_TCPServerRecvData *)
Fixpoint read_clients (recv : Z → Z) (clients : list Z) (set count : Z) (rs : list Z)
    : option (list Z * Z * Z * list Z) :=
  match clients with
  | [] => Some ([], set, count, rs)
  | fd :: clients =>
      ready ← FD_ISSET fd set;
      if (ready : bool) then
        let rs := rs ++ [fd] in
        if recv fd <=? 0 then
          set ← FD_CLR fd set;
          '(clients, set, count, rs) ← read_clients recv clients set (count - 1) rs;
          Some (-1 :: clients, set, count, rs)
        else
          '(clients, set, count, rs) ← read_clients recv clients set count rs;
          Some (fd :: clients, set, count, rs)
      else
        '(clients, set, count, rs) ← read_clients recv clients set count rs;
        Some (fd :: clients, set, count, rs)
  end.
(** The first free slot, or the number of slots. *)
(* @ App/NuAgent/System/network_adapter.c:313-317 Socket_TCPServerRecvData *)
Fixpoint empty_slot (clients : list Z) : nat :=
  match clients with [] => O | fd :: clients => if fd =? -1 then O else S (empty_slot clients) end.
(* @ App/NuAgent/System/network_adapter.c:262-329 Socket_TCPServerRecvData *)
Definition serve_round (r : round) (s : server) : option server :=
  set ← FD_SET (TCPServerFd s) 0;
  _ ← watch (lan_client s) set;
  if r_select r <=? 0 then Some s else
  '(clients, set, count, rs) ← read_clients (r_recv r) (lan_client s) (r_set r) (client_connect_count s) (reads s);
  ready ← FD_ISSET (TCPServerFd s) set;
  if negb ready then Some (Server (TCPServerFd s) clients count (max_sock s) rs) else
  let new_fd := r_accept r in
  if new_fd <? 0 then Some (Server (TCPServerFd s) clients count (max_sock s) rs) else
  if count <? Z.of_nat TCP_SERVER_CLIENT_MAX_NUM then
    let i := empty_slot clients in
    let max := if max_sock s <? new_fd + 1 then new_fd + 1 else max_sock s in
    if (i <? length clients)%nat
    then Some (Server (TCPServerFd s) (<[i := new_fd]> clients) count max (rs ++ [new_fd]))
    else None
  else Some (Server (TCPServerFd s) clients count (max_sock s) rs).
(* @ App/NuAgent/System/network_adapter.c:254-259 Socket_TCPServerRecvData *)
Definition serve_init (fd : Z) (count : Z) : server :=
  Server fd (replicate TCP_SERVER_CLIENT_MAX_NUM (-1)) count fd [].
(* @ App/NuAgent/System/network_adapter.c:261-261 Socket_TCPServerRecvData *)
Fixpoint serve (rounds : list round) (s : server) : option server :=
  match rounds with [] => Some s | r :: rounds => s ← serve_round r s; serve rounds s end.

(** ** Descriptor sets *)

(** The bit a descriptor has in a set: [-1], an empty slot, has that of descriptor 7. *)
Definition set_bit (n : Z) : Z := n mod 8.
Definition fd_ok (n : Z) : Prop := -1 <= n < MEMP_NUM_NETCONN.
Lemma fd_bit_ok n : fd_ok n → fd_bit n = Some (set_bit n).
Proof.
  unfold fd_ok, fd_bit, set_bit, MEMP_NUM_NETCONN. intros Hn. change 7 with (Z.ones 3). rewrite Z.land_ones by lia.
  assert (Hq : Z.quot n 8 = 0) by (destruct (decide (n = -1)) as [->|]; [done|apply Z.quot_small; lia]).
  by rewrite Hq.
Qed.
Lemma set_bit_pos n : 0 <= n < 8 → set_bit n = n.
Proof. apply Z.mod_small. Qed.
Lemma FD_SET_ok n p : fd_ok n → FD_SET n p = Some (Z.setbit p (set_bit n)).
Proof. intros Hn. unfold FD_SET. by rewrite fd_bit_ok. Qed.
Lemma FD_CLR_ok n p : fd_ok n → FD_CLR n p = Some (Z.clearbit p (set_bit n)).
Proof. intros Hn. unfold FD_CLR. by rewrite fd_bit_ok. Qed.
Lemma FD_ISSET_ok n p : fd_ok n → FD_ISSET n p = Some (Z.testbit p (set_bit n)).
Proof.
  intros Hn. unfold FD_ISSET. rewrite fd_bit_ok by done. cbn [mbind option_bind]. f_equal.
  assert (Hb : 0 <= set_bit n) by (apply Z.mod_pos_bound; lia).
  rewrite Z.shiftl_1_l. destruct (Z.testbit p (set_bit n)) eqn:E.
  - destruct (Z.eqb_spec (Z.land p (2 ^ set_bit n)) 0) as [Hz|]; [|done].
    assert (H : Z.testbit (Z.land p (2 ^ set_bit n)) (set_bit n) = false) by (rewrite Hz; apply Z.bits_0).
    rewrite Z.land_spec, E, Z.pow2_bits_true in H by done. done.
  - replace (Z.land p (2 ^ set_bit n)) with 0; [done|]. apply Z.bits_inj'. intros i Hi.
    rewrite Z.bits_0, Z.land_spec. destruct (decide (i = set_bit n)) as [->|]; [by rewrite E|].
    rewrite Z.pow2_bits_false by lia. by rewrite andb_false_r.
Qed.
Lemma watch_ok clients : ∀ p, Forall fd_ok clients → ∃ p', watch clients p = Some p'.
Proof.
  induction clients as [|fd clients IH]; intros p [Hf Hc]%Forall_cons || intros p _; [by exists p|].
  cbn [watch]. destruct (0 <=? fd); [rewrite FD_SET_ok by done|]; cbn [mbind option_bind]; by apply IH.
Qed.

(** ** The clients of a round *)

(** Clients that a set marks, at most one of them with bit 7. *)
Definition marked (set : Z) (clients : list Z) : list Z :=
  List.filter (λ fd, Z.testbit set (set_bit fd)) clients.
Lemma marked_clearbit set b clients : Forall (λ fd, set_bit fd ≠ b) clients → 0 <= b →
  marked (Z.clearbit set b) clients = marked set clients.
Proof.
  intros Hb Hb0. unfold marked. induction Hb as [|fd clients Hfd Hb IH]; [done|]. cbn.
  rewrite Z.clearbit_neq, IH by (done || (assert (0 <= set_bit fd) by (apply Z.mod_pos_bound; lia); lia)). done.
Qed.

(** The client hung up: it is marked and its [recv] gives nothing. *)
Definition hung_up (recv : Z → Z) (set fd : Z) : bool := Z.testbit set (set_bit fd) && (recv fd <=? 0).
Definition kept (recv : Z → Z) (set fd : Z) : Z := if hung_up recv set fd then -1 else fd.
Lemma clearbit_other recv b clients set : 0 <= b → Forall (λ fd, set_bit fd ≠ b) clients →
  map (kept recv (Z.clearbit set b)) clients = map (kept recv set) clients ∧
  List.filter (hung_up recv (Z.clearbit set b)) clients = List.filter (hung_up recv set) clients.
Proof.
  intros Hb0 Hb. assert (E : ∀ fd, set_bit fd ≠ b → hung_up recv (Z.clearbit set b) fd = hung_up recv set fd).
  { intros fd Hfd. unfold hung_up. rewrite Z.clearbit_neq; [done|]. lia. }
  rewrite Forall_forall in Hb. split; [apply List.map_ext_in|apply List.filter_ext_in]; intros fd Hin%list_elem_of_In;
    unfold kept; by rewrite E by (by apply Hb).
Qed.

(** A round in which socket 7 is not ready reads every ready client once, in the order of the
    table, frees exactly the slots of those that hung up and lowers the count by their number. *)
Theorem round_reads_each_ready_client recv clients : ∀ set count rs, Forall fd_ok clients →
  NoDup (List.filter (Z.leb 0) clients) → Z.testbit set 7 = false →
  ∃ set', read_clients recv clients set count rs =
    Some (map (kept recv set) clients, set', count - Z.of_nat (length (List.filter (hung_up recv set) clients)),
          rs ++ marked set clients).
Proof.
  induction clients as [|fd clients IH]; intros set count rs Hok Hnd H7.
  { exists set. cbn. rewrite app_nil_r, Z.sub_0_r. done. }
  apply Forall_cons in Hok as [Hfd Hok].
  assert (Hnd' : NoDup (List.filter (Z.leb 0) clients)).
  { cbn in Hnd. destruct (0 <=? fd); [by apply NoDup_cons in Hnd as [_ ?]|done]. }
  cbn [read_clients map List.filter marked]. rewrite FD_ISSET_ok by done. cbn [mbind option_bind].
  unfold kept at 1. unfold hung_up at 1 2. fold (marked set clients).
  destruct (Z.testbit set (set_bit fd)) eqn:E; cbn [andb].
  - destruct (Z.leb_spec (recv fd) 0).
    + rewrite FD_CLR_ok by done. cbn [mbind option_bind].
      assert (Hb : 0 <= fd < 7 ∧ set_bit fd = fd).
      { unfold fd_ok, MEMP_NUM_NETCONN in Hfd. destruct (decide (fd = -1)) as [->|]; [change (set_bit (-1)) with 7 in E; congruence|].
        assert (Hs : set_bit fd = fd) by (apply set_bit_pos; lia). rewrite Hs in *.
        destruct (decide (fd = 7)) as [->|]; [congruence|]. lia. }
      destruct Hb as [Hb Hs].
      assert (Hoth : Forall (λ x, set_bit x ≠ set_bit fd) clients).
      { apply Forall_forall. intros x Hx Heq. rewrite Forall_forall in Hok. specialize (Hok x Hx).
        assert (Hx0 : x = fd).
        { rewrite Hs in Heq. unfold fd_ok, MEMP_NUM_NETCONN in Hok.
          destruct (decide (x = -1)) as [->|]; [change (set_bit (-1)) with 7 in Heq; lia|]. rewrite set_bit_pos in Heq by lia. done. }
        subst x. cbn in Hnd. rewrite (proj2 (Z.leb_le 0 fd)) in Hnd by lia. apply NoDup_cons in Hnd as [Hni _].
        apply Hni. apply list_elem_of_In, List.filter_In. split; [by apply list_elem_of_In|lia]. }
      destruct (clearbit_other recv (set_bit fd) clients set ltac:(lia) Hoth) as [E1 E2].
      destruct (IH (Z.clearbit set (set_bit fd)) (count - 1) (rs ++ [fd])) as [set' Hr]; [done|done|by rewrite Z.clearbit_neq, H7 by lia|].
      rewrite Hr, E1, E2, marked_clearbit by (done || lia). cbn [mbind option_bind length app]. exists set'.
      rewrite <- app_assoc, Nat2Z.inj_succ. cbn [app]. by replace (count - Z.succ _) with (count - 1 - Z.of_nat (length (List.filter (hung_up recv set) clients))) by lia.
    + destruct (IH set count (rs ++ [fd])) as [set' Hr]; [done..|]. rewrite Hr. cbn [mbind option_bind].
      exists set'. by rewrite <- app_assoc.
  - destruct (IH set count rs) as [set' Hr]; [done..|]. rewrite Hr. cbn [mbind option_bind]. by exists set'.
Qed.

(** ** Socket 7 *)

Lemma bit7_clear recv clients : ∀ set count rs, Forall fd_ok clients → Z.testbit set 7 = false →
  ∃ clients' set' count' rs', read_clients recv clients set count rs = Some (clients', set', count', rs ++ rs') ∧
    7 ∉ rs' ∧ ∀ i, clients !! i = Some 7 → clients' !! i = Some 7.
Proof.
  induction clients as [|fd clients IH]; intros set count rs Hok H7.
  { exists [], set, count, []. rewrite app_nil_r. split; [done|]. split; [apply not_elem_of_nil|done]. }
  apply Forall_cons in Hok as [Hfd Hok]. cbn [read_clients]. rewrite FD_ISSET_ok by done. cbn [mbind option_bind].
  destruct (Z.testbit set (set_bit fd)) eqn:E.
  - assert (Hne : fd ≠ 7) by (intros ->; change (set_bit 7) with 7 in E; congruence).
    destruct (Z.leb_spec (recv fd) 0).
    + rewrite FD_CLR_ok by done. cbn [mbind option_bind].
      destruct (IH (Z.clearbit set (set_bit fd)) (count - 1) (rs ++ [fd])) as (c & t & n & rs' & Hr & Hn & Hk);
        [done|by rewrite Z.clearbit_eqb, H7|]. rewrite Hr. cbn [mbind option_bind].
      exists (-1 :: c), t, n, (fd :: rs'). rewrite <- app_assoc. split; [done|].
      split; [by intros [?|?]%elem_of_cons|].
      intros [|i] Hi; [by injection Hi as ->|by apply Hk].
    + destruct (IH set count (rs ++ [fd])) as (c & t & n & rs' & Hr & Hn & Hk); [done..|]. rewrite Hr. cbn [mbind option_bind].
      exists (fd :: c), t, n, (fd :: rs'). rewrite <- app_assoc. split; [done|].
      split; [by intros [?|?]%elem_of_cons|]. intros [|i]; [done|]. apply Hk.
  - destruct (IH set count rs) as (c & t & n & rs' & Hr & Hn & Hk); [done..|]. rewrite Hr. cbn [mbind option_bind].
    exists (fd :: c), t, n, rs'. split; [done|]. split; [done|]. intros [|i]; [done|]. apply Hk.
Qed.

(** A free slot has the value -1, which the set takes for descriptor 7.  A client on socket 7 behind
    a free slot is never read: [recv] on -1 fails and clears the bit, the client keeps its slot
    and its data, and the loop spins on a [select] that returns at once. *)
Theorem socket_7_is_never_read recv l1 l2 : ∀ set count rs, Forall fd_ok (l1 ++ -1 :: l2) → 7 ∉ l1 → recv (-1) <= 0 →
  ∃ clients' set' count' rs', read_clients recv (l1 ++ -1 :: l2) set count rs = Some (clients', set', count', rs ++ rs') ∧
    7 ∉ rs' ∧ ∀ i, (l1 ++ -1 :: l2) !! i = Some 7 → clients' !! i = Some 7.
Proof.
  induction l1 as [|fd l1 IH]; intros set count rs Hok Hni Hrecv; cbn [app] in *; apply Forall_cons in Hok as [Hfd Hok];
    cbn [read_clients]; rewrite FD_ISSET_ok by done; cbn [mbind option_bind].
  - change (set_bit (-1)) with 7. destruct (Z.testbit set 7) eqn:E.
    + rewrite (proj2 (Z.leb_le _ _)), FD_CLR_ok by done. cbn [mbind option_bind].
      destruct (bit7_clear recv l2 (Z.clearbit set (set_bit (-1))) (count - 1) (rs ++ [-1])) as (c & t & n & rs' & Hr & Hn & Hk);
        [done|apply Z.clearbit_eq|]. rewrite Hr. cbn [mbind option_bind].
      exists (-1 :: c), t, n, (-1 :: rs'). rewrite <- app_assoc. split; [done|].
      split; [by intros [?|?]%elem_of_cons|]. intros [|i]; [done|]. apply Hk.
    + destruct (bit7_clear recv l2 set count rs) as (c & t & n & rs' & Hr & Hn & Hk); [done..|]. rewrite Hr. cbn [mbind option_bind].
      exists (-1 :: c), t, n, rs'. split; [done|]. split; [done|]. intros [|i]; [done|]. apply Hk.
  - apply not_elem_of_cons in Hni as [Hne Hni]. destruct (Z.testbit set (set_bit fd)) eqn:E.
    + destruct (Z.leb_spec (recv fd) 0).
      * rewrite FD_CLR_ok by done. cbn [mbind option_bind].
        destruct (IH (Z.clearbit set (set_bit fd)) (count - 1) (rs ++ [fd])) as (c & t & n & rs' & Hr & Hn & Hk); [done..|].
        rewrite Hr. cbn [mbind option_bind]. exists (-1 :: c), t, n, (fd :: rs'). rewrite <- app_assoc. split; [done|].
        split; [by intros [?|?]%elem_of_cons|]. intros [|i] Hi; [by injection Hi as ->|by apply Hk].
      * destruct (IH set count (rs ++ [fd])) as (c & t & n & rs' & Hr & Hn & Hk); [done..|].
        rewrite Hr. cbn [mbind option_bind]. exists (fd :: c), t, n, (fd :: rs'). rewrite <- app_assoc. split; [done|].
        split; [by intros [?|?]%elem_of_cons|]. intros [|i]; [done|]. apply Hk.
    + destruct (IH set count rs) as (c & t & n & rs' & Hr & Hn & Hk); [done..|].
      rewrite Hr. cbn [mbind option_bind]. exists (fd :: c), t, n, rs'. split; [done|]. split; [done|]. intros [|i]; [done|]. apply Hk.
Qed.

(** ** The limit on clients *)

Lemma read_clients_count recv clients : ∀ set count rs c t n rs', 
  read_clients recv clients set count rs = Some (c, t, n, rs') → n <= count ∧ length c = length clients.
Proof.
  induction clients as [|fd clients IH]; intros set count rs c t n rs' Hr; cbn [read_clients] in Hr; [simplify_eq; split; [lia|done]|].
  destruct (FD_ISSET fd set) as [[]|]; cbn [mbind option_bind] in Hr; [| |done].
  - destruct (recv fd <=? 0).
    + destruct (FD_CLR fd set) as [p|]; cbn [mbind option_bind] in Hr; [|done].
      destruct (read_clients recv clients p (count - 1) (rs ++ [fd])) as [[[[c' t'] n'] rs'']|] eqn:E;
        cbn [mbind option_bind] in Hr; [|done]. simplify_eq. apply IH in E as [? ?]. split; [lia|cbn; lia].
    + destruct (read_clients recv clients set count (rs ++ [fd])) as [[[[c' t'] n'] rs'']|] eqn:E;
        cbn [mbind option_bind] in Hr; [|done]. simplify_eq. apply IH in E as [? ?]. split; [lia|cbn; lia].
  - destruct (read_clients recv clients set count rs) as [[[[c' t'] n'] rs'']|] eqn:E;
      cbn [mbind option_bind] in Hr; [|done]. simplify_eq. apply IH in E as [? ?]. split; [lia|cbn; lia].
Qed.
Lemma serve_round_count r s s' : serve_round r s = Some s' → client_connect_count s' <= client_connect_count s ∧
  length (lan_client s') = length (lan_client s).
Proof.
  unfold serve_round. intros Hr. destruct (FD_SET (TCPServerFd s) 0) as [p|]; cbn [mbind option_bind] in Hr; [|done].
  destruct (watch (lan_client s) p) as [q|]; cbn [mbind option_bind] in Hr; [|done].
  destruct (r_select r <=? 0); [by simplify_eq|].
  destruct (read_clients _ _ _ _ _) as [[[[c t] n] rs]|] eqn:E; cbn [mbind option_bind] in Hr; [|done].
  apply read_clients_count in E as [Hn Hl].
  destruct (FD_ISSET (TCPServerFd s) t) as [[]|]; cbn [mbind option_bind negb] in Hr; [|by simplify_eq|done].
  destruct (r_accept r <? 0); [by simplify_eq|]. destruct (n <? _); [|by simplify_eq].
  destruct (_ <? _)%nat; [|done]. simplify_eq. cbn. by rewrite length_insert.
Qed.

(** The count of connected clients only ever goes down, so the test against the limit of five never
    refuses a connection: in every state the loop reaches, a connection that comes while no slot
    is free is stored behind the end of the client table. *)
Theorem client_limit_never_applies fd rounds s r : serve rounds (serve_init fd 0) = Some s →
  client_connect_count s <= 0 ∧ length (lan_client s) = TCP_SERVER_CLIENT_MAX_NUM ∧
  (0 <= fd < 7 → TCPServerFd s = fd → Forall (λ c, 0 <= c < 7 ∧ c ≠ fd) (lan_client s) →
   0 < r_select r → r_set r = 2 ^ fd → 0 <= r_accept r → serve_round r s = None).
Proof.
  intros Hrun.
  assert (Hinv : client_connect_count s <= 0 ∧ length (lan_client s) = TCP_SERVER_CLIENT_MAX_NUM).
  { revert Hrun. assert (H0 : client_connect_count (serve_init fd 0) <= 0 ∧ length (lan_client (serve_init fd 0)) = TCP_SERVER_CLIENT_MAX_NUM) by done.
    revert H0. generalize (serve_init fd 0). induction rounds as [|r0 rounds IH]; intros s0 H0 Hrun; cbn [serve] in Hrun; [by simplify_eq|].
    destruct (serve_round r0 s0) as [s1|] eqn:E; cbn [mbind option_bind] in Hrun; [|done].
    apply serve_round_count in E as [? ?]. apply (IH s1); [lia|done]. }
  destruct Hinv as [Hc Hl]. split; [done|]. split; [done|]. intros Hfd Htcp Hcl Hsel Hset Hacc.
  assert (Hok : Forall fd_ok (lan_client s)).
  { apply (Forall_impl _ _ _ Hcl). unfold fd_ok, MEMP_NUM_NETCONN. lia. }
  unfold serve_round. rewrite Htcp, FD_SET_ok by (unfold fd_ok, MEMP_NUM_NETCONN; lia). cbn [mbind option_bind].
  destruct (watch_ok (lan_client s) (Z.setbit 0 (set_bit fd)) Hok) as [p' ->]. cbn [mbind option_bind].
  rewrite (proj2 (Z.leb_gt _ 0)) by lia.
  assert (Hq : ∀ l count rs, Forall (λ c, 0 <= c < 7 ∧ c ≠ fd) l → read_clients (r_recv r) l (2 ^ fd) count rs = Some (l, 2 ^ fd, count, rs)).
  { induction l as [|c l IH]; intros count rs Hq; [done|]. apply Forall_cons in Hq as [[Hc1 Hc2] Hq]. cbn [read_clients].
    rewrite FD_ISSET_ok by (unfold fd_ok, MEMP_NUM_NETCONN; lia). cbn [mbind option_bind].
    rewrite set_bit_pos, Z.pow2_bits_false by lia. by rewrite IH. }
  rewrite Hset, Hq by done. cbn [mbind option_bind]. rewrite FD_ISSET_ok by (unfold fd_ok, MEMP_NUM_NETCONN; lia).
  cbn [mbind option_bind]. rewrite set_bit_pos, Z.pow2_bits_true by lia. cbn [negb].
  rewrite (proj2 (Z.ltb_ge _ 0)) by lia. rewrite (proj2 (Z.ltb_lt _ (Z.of_nat _))) by (unfold TCP_SERVER_CLIENT_MAX_NUM; lia).
  assert (He : empty_slot (lan_client s) = length (lan_client s)).
  { clear -Hcl. induction Hcl as [|c l Hc _ IH]; [done|]. cbn [empty_slot length]. rewrite (proj2 (Z.eqb_neq c (-1))) by lia. by rewrite IH. }
  rewrite He, Nat.ltb_irrefl. done.
Qed.

(** ** Instances *)

(** The server on socket 0, clients 1 to 5, then a sixth. *)
Definition accept_round (fd : Z) : round := Round 1 1 (λ _, -1) fd.
Lemma client_limit_never_applies_witness :
  serve_round (accept_round 6) (Server 0 [1; 2; 3; 4; 5] 0 6 [1; 2; 3; 4; 5]) = None.
Proof.
  apply (client_limit_never_applies 0 (map accept_round [1; 2; 3; 4; 5])); try done.
  by repeat (apply List.Forall_cons; [done|]).
Defined.
Lemma round_reads_each_ready_client_witness :
  ∃ set', read_clients (λ fd, if fd =? 3 then 0 else 10) [2; -1; 3; 5; -1] 0x0c 0 [] = Some ([2; -1; -1; 5; -1], set', -1, [2; 3]).
Proof.
  apply (round_reads_each_ready_client (λ fd, if fd =? 3 then 0 else 10) [2; -1; 3; 5; -1] 0x0c 0 []).
  - by repeat (apply List.Forall_cons; [done|]).
  - by apply (bool_decide_unpack _).
  - done.
Defined.
Lemma socket_7_is_never_read_witness :
  ∃ clients' set' count' rs', read_clients (λ fd, if fd =? 7 then 100 else -1) ([2] ++ -1 :: [7]) 0x80 0 [] =
      Some (clients', set', count', [] ++ rs') ∧
    7 ∉ rs' ∧ ∀ i, ([2] ++ -1 :: [7]) !! i = Some 7 → clients' !! i = Some 7.
Proof.
  apply socket_7_is_never_read.
  - by repeat (apply List.Forall_cons; [done|]).
  - by apply (bool_decide_unpack _).
  - done.
Defined.
